(* ===== verification/_CoqProject ===== *)
-Q . S2P
Prelude.v
RtList.v
RingBuffer.v
KString.v
Kernel.v
Scheduler.v
Object.v
Timer.v
Thread.v
KernelOk.v
ThreadSpec.v
Clock.v
Ipc.v
Priority.v
Semaphore.v
Mutex.v
Event.v
MailBox.v
MessageQueue.v
MemPool.v
Heap.v
Lifecycle.v
StateM.v
Finsh.v
FinshVm.v
FinshCompiler.v
FinshExpr.v
FinshCorrect.v
FinshRun.v
FinshHeap.v
FinshToken.v
FinshParser.v
FinshSyntax.v
FinshLex.v
FinshShell.v
FinshLine.v
LwipMem.v
Chksum.v
IpAddr.v
Pbuf.v
PbufRef.v
PbufData.v
TcpData.v
NetState.v
Etharp.v
IpOut.v
Icmp.v
Udp.v
Raw.v
NetTimers.v
TcpBase.v
TcpOut.v
Tcp.v
TcpIn.v
NetInput.v
Packet.v
Frames.v
Echo.v
UdpList.v
Datagram.v
ArpTable.v
ArpQueue.v
NetLimits.v
TcpFrame.v
TcpProcess.v
TcpDemo.v
TcpSeq.v
TimeoutList.v
KMem.v
Printf.v
PrintfSpec.v
HeapAlign.v
Driver.v
Completion.v
DataQueue.v
Device.v
Pipe.v
Dns.v
DnsSpec.v
