(* ===== verification/Prelude.v ===== *)
(** * Verification of the ZigbeeGateway firmware: kernel, shell, network core

    The repository is the firmware of a gateway: the real-time kernel RT-Thread
    1.2, the shell finsh, the TCP/IP stack lwIP 1.4.1 and the board support of
    an STM32, all under src/rt_thread_lwip_enc28j60/ (every path below is
    relative to it; "lwip/" stands for components/net/lwip-1.4.1/src/).  This
    development models the kernel with its device framework, the shell and the
    core of the network stack, TCP included, in the configuration of bsp/stm32f10x/rtconfig.h and lwipopts.h: 32
    priorities, 100 ticks per second, names of 8 bytes, 4-byte alignment, hard
    timers on a one-level skip list, the small-memory heap, debug checks on,
    hooks unset; a shell of 16 nodes, 64 stack cells and lines of 80
    characters; packet buffers and pools allocated from the kernel's heap.

    ** The parts and how they interact

    Threads run until they block, until a thread of higher priority becomes
    ready, or until their time slice ends.  The scheduler keeps one list of
    ready threads per priority and a 32-bit group of the non-empty ones; it
    runs the first thread of the highest priority.  A thread blocks on the
    suspend list of an IPC object (semaphore, mutex, event, mailbox, message
    queue, memory pool), usually with its own timer armed; an operation of
    another thread, an interrupt or the timer makes it ready again.  The tick
    interrupt advances the clock, takes time slices and fires timers, whose
    functions may call back into the kernel.  Objects are registered by class
    and name; dynamic objects live in the heap; threads that ended are
    reclaimed by the idle thread.  Devices are objects whose operations are
    functions of their drivers; drivers and threads meet in completions, data
    queues and pipes, which suspend and resume threads themselves.

    The shell is a thread that edits a line, parses it into a tree of nodes,
    checks types, compiles the tree into a text segment and runs that on a
    stack machine, which may call functions of the system.

    The network stack passes packets as chains of reference-counted buffers.
    Each layer hides or reveals its header by moving the payload pointer of the
    first buffer; checksums run over chains; addresses are 32-bit integers in
    network byte order.  A frame from the driver enters at [ethernet_input],
    which hands it to ARP or IP by its type; IP validates it and hands it to
    ICMP, UDP, the raw sockets or TCP.  In the other direction IP puts its
    header in front and gives the packet to [etharp_output], which sends it if
    the hardware address of the next hop is in the ARP table and otherwise
    queues it there and asks for the address.  TCP keeps its connections in
    lists by state; a segment moves the state machine of its connection,
    acknowledges and queues segments, and calls the application back; the
    timers of the stack, a list of timeouts with relative times, drive
    retransmission.

    ** The files

    - Prelude: machine integers with their wrap-around, the tactics, the hint
      databases, and the lemmas on lists, maps and linked chains that the other
      files share.
    - RtList ([Module RtList]): the intrusive doubly linked lists of
      include/rtservice.h on a store of nodes.
    - RingBuffer ([Module RingBuffer]): components/drivers/src/ringbuffer.c and
      the inline functions of components/drivers/include/rtdevice.h.
    - KString ([Module KString]): the string and memory comparison and copying
      routines of src/kservice.c.
    - Kernel: the structures of include/rtdef.h as records, the globals of
      src/*.c as one record [kernel], the monad [K] of the operations, and the
      rules [wp_...] by which the proofs go through them.
    - Scheduler: src/scheduler.c and [__rt_ffs] of src/kservice.c.
    - Object: src/object.c.
    - Timer: src/timer.c.
    - Thread: src/thread.c, src/idle.c, [rt_hw_stack_init] of
      libcpu/arm/cortex-m3/cpuport.c, and the order of the kernel's start-up in
      bsp/stm32f10x/applications/startup.c.
    - KernelOk: the invariant [kernel_ok] over scheduler, threads and timers.
    - ThreadSpec, Priority, Lifecycle: what the operations of thread.c, idle.c,
      timer.c and object.c do in states that satisfy it.
    - Clock: src/clock.c, src/irq.c, the tick interrupt.
    - Ipc: the part of src/ipc.c common to its objects; Semaphore
      ([Module Sem]), Mutex ([Mtx]), Event ([Evt]), MailBox ([Mb]) and
      MessageQueue ([Mq]) the objects themselves.
    - MemPool ([Module Mp]): src/mempool.c.
    - Heap ([Module Heap]): src/mem.c.
    - StateM: the monad [ST] of state passing with failure used outside the
      kernel.
    - Finsh, FinshVm, FinshCompiler, FinshToken, FinshParser, FinshHeap,
      FinshShell, FinshLine: components/finsh/, that is the data of the shell,
      finsh_vm.c with finsh_ops.c, finsh_compiler.c, finsh_token.c,
      finsh_parser.c with finsh_node.c, finsh_heap.c, and shell.c (running a
      line, editing a line).
    - FinshExpr: expressions with their types and the reference evaluator;
      FinshSyntax: their spelling.  FinshCorrect, FinshRun, FinshLex: the
      proofs that compiling, running and parsing agree with them.
    - LwipMem: lwip/include/lwip/pbuf.h as a record, the memory of the stack,
      lwip/core/def.c.
    - Chksum: lwip/core/ipv4/inet_chksum.c; IpAddr: lwip/core/ipv4/ip_addr.c;
      Pbuf: lwip/core/pbuf.c, with PbufRef (allocation, reference counts) and
      PbufData (content).
    - NetState: the globals of the protocols as one record [net], interfaces,
      ARP table and sockets included, and its monad [NetM]; Etharp:
      lwip/netif/etharp.c; IpOut and NetInput: lwip/core/ipv4/ip.c (output,
      and input with the dispatch of frames); Icmp: lwip/core/ipv4/icmp.c; Udp:
      lwip/core/udp.c; Raw: lwip/core/raw.c.
    - Packet, Frames: the rules by which the proofs follow one packet through
      the layers, and the byte layout of frames; Echo, Datagram: whole
      exchanges; UdpList: the list of sockets; ArpTable, ArpQueue: the ARP
      table, its invariant [arp_inv], its queues, and the answers to requests;
      NetLimits: inputs on which the protocols fail.
    - Dns: lwip/core/dns.c; DnsSpec: what its questions and answers do.
    - TcpData: lwip/include/lwip/tcp.h and tcp_impl.h as records, the
      comparisons of sequence numbers; TcpBase and Tcp: lwip/core/tcp.c;
      TcpOut: lwip/core/tcp_out.c; TcpIn: lwip/core/tcp_in.c, whose [tcp_input]
      is the handler that NetInput passes segments to; NetTimers:
      lwip/core/timers.c.  TcpFrame: what the operations on segments leave
      alone; TcpProcess: the state machine, as a table of its own and against
      that of RFC 793;
      TcpSeq: sequence numbers and options; TcpDemo: a whole connection run on
      two boards, and inputs on which TCP fails.  TimeoutList: the list of
      timeouts and the waiting of the network thread on it.
    - KMem: [rt_memset], [rt_memcpy] and [rt_memmove] of src/kservice.c;
      Printf: its formatted output, with PrintfSpec, the formats of ISO C and
      their meaning; HeapAlign ([Module HeapAlign]): its aligned allocation on
      top of Heap.
    - Driver: the structures and the state of the drivers ([drivers]) above the
      kernel's, with the monad [D]; Completion, DataQueue, Pipe: completion.c,
      dataqueue.c and pipe.c of components/drivers/src/; Device: src/device.c
      and the console of src/kservice.c.

    ** How the code is represented

    Definitions have the names of the functions and structures that they
    translate.  A function that reads or writes kernel state is a function of
    [K A], that is [kernel -> option (A * kernel)]: [None] is a failed
    [RT_ASSERT] or debug check (the code then loops forever), or the
    dereference of a pointer to nothing.  A theorem that says that an operation
    equals [Some ...] therefore also says that it returns and that no check
    fails.  The shell and the network stack use the same form on states of
    their own ([ST]); [LWIP_ASSERT] and [LWIP_ERROR] halt on this port and are
    [None] too.

    Integers are [Z] with the wrap-around of their width written at the
    assignments ([u8], [u16], [u32], [i32]).  Addresses are integers; kernel
    objects are maps from addresses to records.  The lists of the kernel are
    sequences, one for each list head; RtList shows that the pointer operations
    behave as the operations on sequences.  Addresses that an allocation
    returned are arguments of the creating functions ([None] is the null
    pointer); the network stack takes them from a list of answers of the heap
    that is part of its state.

    A function of the kernel runs with interrupts disabled, or with the
    scheduler locked, except where it calls [rt_schedule] or enables interrupts
    in the middle.  It is cut there: a blocking operation returns [None] when
    its caller now waits, and a second definition (with the suffix [_resume])
    is what the caller does when it runs again; the phases of the message queue
    operations between which interrupts are enabled are separate definitions,
    and [mq_interleaving_safe] is about all their interleavings.  A context
    switch is the change of [rt_current_thread].

    The functions of the application's timers are a parameter, and the class
    [timeout_contract] of Clock states what the tick interrupt relies on.  The
    functions that a shell line calls are a parameter too.  The send function
    of the network driver is a list of its results, with a log of the frames
    that it was given; the receive functions of sockets are logged in the same
    way; the handler of TCP segments is a parameter of [ip_input], which
    [tcp_input] instantiates.  The functions that a TCP application installs
    are the class [tcp_app], and the one that waits for the answer to a name
    the class [dns_app]; those of drivers are the class [driver_fns], and
    [driver_returns] states what the device framework relies on: that they
    return, whether or not they fail.

    ** What the theorems show

    - Scheduling: [rt_schedule_elects] (the elected thread is the first one of
      the highest ready priority), [rt_ffs_correct].
    - Time: [rt_tick_increase_ok] (the tick interrupt keeps [kernel_ok] with
      any number of timers due), [sleepers_wake] (a sleeping thread becomes
      ready at exactly its tick), [rt_timer_start_ok] (order of the timer list
      across the wrap-around of the tick), [rt_thread_sleep_ok],
      [rt_tick_from_millisecond_ceil].
    - Life of threads: start, exit, deletion, reclaiming, lookup
      (Lifecycle).
    - Synchronisation: the abstract semaphore [sem_step] and mutex
      [mutex_step]; every branch of take and release is a step of them; from
      this, over sequences of calls, [sem_tokens] (conservation of tokens, up
      to the wrap-around of the 16-bit count) and [mutex_exclusion] (while no
      thread holds the mutex more than 255 times).
      [rt_event_send_no_lost_wakeup] (who is woken, with which flags).
    - Communication: mailboxes, message queues and ring buffers refine bounded
      queues on every branch, with the error results of full and empty ones.
    - Memory: the heap's blocks tile it, allocations are aligned, inside and
      disjoint, freeing coalesces, reallocation keeps the content
      ([rt_malloc_ok], [rt_free_ok], [rt_realloc_ok], [heap_init_ok]); the
      pool hands out each block once ([rt_mp_alloc_ok], [rt_mp_free_ok]).
      [rt_malloc_align_ok] for the aligned allocation on top of the heap.
    - Blocks and text: [rt_memset_fills], [rt_memcpy_copies],
      [rt_memmove_moves] (also when the regions overlap);
      [rt_vsnprintf_renders] (the stored text is the one that ISO C gives to
      the format, cut to the buffer, but for the directives that [deviates]
      lists), [rt_kprintf_prints].
    - Drivers: [device_users] (opens and closes follow the abstract device
      [use_step], also with drivers that fail), [completion_handshake],
      [rt_data_queue_push_refines] and [rt_data_queue_pop_refines] (a bounded
      queue, for sizes that are powers of two and before the indices wrap),
      [pipe_reader_served].
    - Strings and lists: [name_roundtrip], [rt_strstr_correct],
      [rt_list_ops_ok].
    - Shell: parsing inverts writing ([finsh_parse_roundtrip]), the type check
      is sound, the compiled code computes what the reference evaluator says
      ([finsh_compile_correct]), and so does a whole line
      ([finsh_run_line_correct]); a line with only an unknown name is an error
      without effects;
      the machine always stops; the editor refines a text with a cursor.
    - Checksums: over chains cut anywhere they are the sum of RFC 1071, and
      data that carries its checksum verifies.
    - Addresses: writing and parsing are inverse, inside the buffer.
    - Packet buffers: allocation is aligned and inside of the blocks that the
      heap was asked for, reference counts equal the references over all
      sequences of calls that respect ownership, nothing leaks; filling,
      copying, cutting and moving headers have the obvious effect on the bytes
      of the chain.
    - Exchanges: [ping_answered] (a frame with an echo request is answered by
      the frame with the reply), [arp_request_answered] (with the packets that
      waited for the sender), [udp_roundtrip] (what one board sends with
      [udp_sendto] another one delivers to the socket).
    - Names: [dns_recv_resolves] (a response completes the question, calls the
      application once and is found later), [dns_query_ends] (when a question
      is repeated, to which server, and that it ends), [dns_name_roundtrip],
      [dns_cache_expires].
    - Sockets: [udp_ports_exclusive] over all sequences of calls,
      [udp_bind_ok] and [udp_match_finds] (which socket gets a datagram).
    - TCP: [tcp_process_rfc] (the state machine follows the table of RFC 793
      on the segments that [conforms] describes; the others are examples),
      [seq_compare] (comparisons across the wrap-around),
      [tcp_parseopt_terminates], [connection_runs] (two boards open a
      connection, exchange data, and close it).
    - Timeouts: [sys_timeout_schedules] and [sys_untimeout_cancels] (the
      relative list as a list of deadlines), [mbox_fetch_message] and
      [expire_calls_first] (waiting calls the functions that are due, in
      order).
    - ARP table: [etharp_find_entry_ok] (which entry is found, claimed or
      recycled), [arp_expiry] (entries end after their lifetime),
      [arp_learn_sends] (queued packets are sent when the address is learnt).

    Theorems without a claim number at the end of a file evaluate the code on
    concrete states in which it does not do what one would expect
    (overflowing counts, a corrupted timer list, lost memory).

    ** Loops and fuel

    Most loops are structural on the sequence that they walk.  The others have
    a [fuel] argument, and the theorems say how much is enough and that the
    loop then returns: the tick interrupt needs more fuel than timers are due,
    the heap's walks as much as there are headers, the reset of a message
    queue as much as there are messages.  The shell's parser is given the
    length of the line plus 4, its machine the 128 bytes of the text segment;
    a walk over a chain of packet buffers the number of allocated buffers plus
    one, which every chain without a cycle satisfies.

    ** What is not modelled

    The assembly of the context switch and fault handlers, the drivers of the
    board and register accesses; the semaphore inside the heap's operations
    (they are the bodies that it makes exclusive); the soft timer thread,
    memheap, slab and module loader, which the configuration leaves out; the
    echo of the shell and its commands, which print kernel lists; the serial
    port and the bus drivers.  Of lwIP: the operations on
    interfaces (netif.c), the sockets interface above the protocols, statistics,
    and the protocols that the configuration leaves out (DHCP, PPP, SNMP, IGMP,
    AutoIP, IPv6, reassembly and fragmentation). *)

From Stdlib Require Export ZArith Lia.
From stdpp Require Export base numbers gmap strings option prelude list.

(** ** Machine integers

    A C integer of [w] bits is a [Z]; the wrap-around of unsigned arithmetic
    is written out with [wrap w], the one of signed arithmetic with
    [swrap w]. *)

Declare Scope mint_scope.
Delimit Scope mint_scope with mint.

Open Scope Z_scope.

Definition wrap (w x : Z) : Z := x mod 2 ^ w.
Definition swrap (w x : Z) : Z := (x + 2 ^ (w - 1)) mod 2 ^ w - 2 ^ (w - 1).

Definition in_u (w x : Z) : Prop := 0 <= x < 2 ^ w.

Abbreviation u8 := (wrap 8).
Abbreviation u16 := (wrap 16).
Abbreviation u32 := (wrap 32).
Abbreviation i8 := (swrap 8).
Abbreviation i16 := (swrap 16).
Abbreviation i32 := (swrap 32).

Notation "x &. y" := (Z.land x y) (at level 35, right associativity) : mint_scope.
Notation "x |. y" := (Z.lor x y) (at level 45, right associativity) : mint_scope.
Notation "x &~ y" := (Z.ldiff x y) (at level 35, right associativity) : mint_scope.

Open Scope mint_scope.

(** [if (x)] of C: a non-zero integer is true. *)
Definition truthy (x : Z) : bool := negb (x =? 0).

Lemma wrap_range w x : 0 <= w -> in_u w (wrap w x).
Proof. intros Hw. unfold in_u, wrap. apply Z.mod_pos_bound. lia. Qed.

Lemma wrap_small w x : in_u w x -> wrap w x = x.
Proof. unfold in_u, wrap. intros. by apply Z.mod_small. Qed.

Lemma wrap_idem w x : 0 <= w -> wrap w (wrap w x) = wrap w x.
Proof. intros. by apply wrap_small, wrap_range. Qed.

Lemma wrap_add_l w x y : 0 <= w -> wrap w (wrap w x + y) = wrap w (x + y).
Proof. intros. unfold wrap. rewrite Zplus_mod_idemp_l. done. Qed.

Lemma wrap_sub_self w x d : in_u w d -> wrap w (x + d - x) = d.
Proof. intros. replace (x + d - x) with d by lia. by apply wrap_small. Qed.

Lemma swrap_small w x :
  0 < w -> - 2 ^ (w - 1) <= x < 2 ^ (w - 1) -> swrap w x = x.
Proof.
  intros Hw Hx. unfold swrap.
  assert (2 ^ w = 2 * 2 ^ (w - 1)) as E.
  { rewrite <-Z.pow_succ_r by lia. f_equal. lia. }
  rewrite E, Z.mod_small; lia.
Qed.

(** The bytes of a number, least significant first. *)
Fixpoint le_bytes (n : nat) (x : Z) : list Z :=
  match n with O => [] | S n => x mod 256 :: le_bytes n (x / 256) end.

Lemma le_bytes_length n x : length (le_bytes n x) = n.
Proof. revert x. induction n; intros; simpl; auto. Qed.

(** ** The constants of rtdef.h and rtconfig.h *)

Definition RT_ALIGN_SIZE : Z := 4.
Definition RT_NAME_MAX : nat := 8.
Definition RT_THREAD_PRIORITY_MAX : Z := 32.
Definition RT_TICK_PER_SECOND : Z := 100.
Definition RT_TICK_MAX : Z := 4294967295.

Definition RT_EOK : Z := 0.
Definition RT_ERROR : Z := 1.
Definition RT_ETIMEOUT : Z := 2.
Definition RT_EFULL : Z := 3.
Definition RT_EEMPTY : Z := 4.
Definition RT_ENOMEM : Z := 5.

(** [RT_ALIGN] and [RT_ALIGN_DOWN] on 32-bit sizes:
    [((size) + (align) - 1) & ~((align) - 1)]. *)
Definition RT_ALIGN (size align : Z) : Z := u32 (size + align - 1) &~ (align - 1).
Definition RT_ALIGN_DOWN (size align : Z) : Z := size &~ (align - 1).

Lemma ldiff_3 x : 0 <= x -> x &~ 3 = x - x mod 4.
Proof.
  intros Hx. change 3 with (Z.ones 2). rewrite Z.ldiff_ones_r by lia.
  rewrite Z.shiftl_mul_pow2, Z.shiftr_div_pow2 by lia.
  change (2 ^ 2) with 4. pose proof (Z.div_mod x 4). lia.
Qed.

Lemma RT_ALIGN_DOWN_4 x :
  0 <= x -> RT_ALIGN_DOWN x RT_ALIGN_SIZE = x - x mod 4.
Proof. apply ldiff_3. Qed.

Lemma RT_ALIGN_4 x :
  0 <= x < 2 ^ 32 - 3 ->
  RT_ALIGN x RT_ALIGN_SIZE = x + (- x) mod 4.
Proof.
  intros Hx. unfold RT_ALIGN, RT_ALIGN_SIZE. change (4 - 1) with 3.
  rewrite wrap_small by (unfold in_u; lia). rewrite ldiff_3 by lia.
  pose proof (Z.mod_pos_bound (x + 4 - 1) 4 ltac:(lia)).
  Z.div_mod_to_equations. lia.
Qed.

(** ** Lists indexed by machine integers *)

(** [p[i]] where [i] is a C integer: [None] is an access out of the array. *)
Definition zlookup {A} (l : list A) (i : Z) : option A :=
  if 0 <=? i then l !! Z.to_nat i else None.

(** [memcpy (&dst[off], src, |src|)]: [None] when it writes past the end. *)
Definition memcpy_at {A} (dst : list A) (off : Z) (src : list A) : option (list A) :=
  if (0 <=? off) && (off + Z.of_nat (length src) <=? Z.of_nat (length dst))
  then Some (list_inserts (Z.to_nat off) src dst) else None.

(** The [n] bytes a [memcpy] reads at [src[off]]: [None] when it reads past
    the end. *)
Definition memread {A} (src : list A) (off n : Z) : option (list A) :=
  if (0 <=? off) && (0 <=? n) && (off + n <=? Z.of_nat (length src))
  then Some (take (Z.to_nat n) (drop (Z.to_nat off) src)) else None.

Lemma zlookup_Some_lt {A} (l : list A) i x :
  zlookup l i = Some x -> 0 <= i < Z.of_nat (length l).
Proof.
  unfold zlookup. destruct (Z.leb_spec 0 i); [|done].
  intros ?%lookup_lt_Some. lia.
Qed.

Lemma zlookup_is_Some {A} (l : list A) i :
  0 <= i < Z.of_nat (length l) -> is_Some (zlookup l i).
Proof.
  intros ?. unfold zlookup. destruct (Z.leb_spec 0 i); [|lia].
  apply lookup_lt_is_Some. lia.
Qed.

Lemma memread_Some {A} (src : list A) off n :
  0 <= off -> 0 <= n -> off + n <= Z.of_nat (length src) ->
  memread src off n = Some (take (Z.to_nat n) (drop (Z.to_nat off) src)).
Proof.
  intros. unfold memread.
  destruct (Z.leb_spec 0 off), (Z.leb_spec 0 n),
    (Z.leb_spec (off + n) (Z.of_nat (length src))); (done || lia).
Qed.

Lemma memread_length {A} (src : list A) off n r :
  memread src off n = Some r -> Z.of_nat (length r) = n.
Proof.
  unfold memread.
  destruct (Z.leb_spec 0 off), (Z.leb_spec 0 n),
    (Z.leb_spec (off + n) (Z.of_nat (length src))); simpl; intros [= <-].
  rewrite length_take, length_drop. lia.
Qed.

Lemma memread_lookup {A} (src : list A) off n r i :
  memread src off n = Some r -> 0 <= i < n ->
  zlookup r i = zlookup src (off + i).
Proof.
  unfold memread, zlookup.
  destruct (Z.leb_spec 0 off), (Z.leb_spec 0 n),
    (Z.leb_spec (off + n) (Z.of_nat (length src))); simpl; intros [= <-] Hi.
  destruct (Z.leb_spec 0 i), (Z.leb_spec 0 (off + i)); try lia.
  rewrite lookup_take_lt, lookup_drop by lia. f_equal. lia.
Qed.

Lemma memcpy_at_Some {A} (dst : list A) off src :
  0 <= off -> off + Z.of_nat (length src) <= Z.of_nat (length dst) ->
  memcpy_at dst off src = Some (list_inserts (Z.to_nat off) src dst).
Proof.
  intros. unfold memcpy_at.
  destruct (Z.leb_spec 0 off),
    (Z.leb_spec (off + Z.of_nat (length src)) (Z.of_nat (length dst)));
    (done || lia).
Qed.

Lemma memcpy_at_length {A} (dst : list A) off src d :
  memcpy_at dst off src = Some d -> length d = length dst.
Proof.
  unfold memcpy_at. destruct (_ && _); intros [= <-]. apply length_inserts.
Qed.

Lemma memcpy_at_lookup {A} (dst : list A) off src d i :
  memcpy_at dst off src = Some d ->
  zlookup d i =
    if (off <=? i) && (i <? off + Z.of_nat (length src))
    then zlookup src (i - off) else zlookup dst i.
Proof.
  unfold memcpy_at, zlookup.
  destruct (Z.leb_spec 0 off),
    (Z.leb_spec (off + Z.of_nat (length src)) (Z.of_nat (length dst)));
    simpl; intros [= <-].
  destruct (Z.leb_spec off i), (Z.ltb_spec i (off + Z.of_nat (length src))),
    (Z.leb_spec 0 i); simpl; try lia; try done.
  - destruct (Z.leb_spec 0 (i - off)); [|lia].
    rewrite list_lookup_inserts by lia. f_equal. lia.
  - apply list_lookup_inserts_ge. lia.
  - apply list_lookup_inserts_lt. lia.
Qed.

(** ** Tactics and hints of the development *)

Create HintDb rtt.

(** Case analysis on every boolean comparison of the goal and the context. *)
Ltac cmp_cases :=
  repeat match goal with
  | H : context [Z.eqb ?a ?b] |- _ => destruct (Z.eqb_spec a b)
  | H : context [Z.leb ?a ?b] |- _ => destruct (Z.leb_spec a b)
  | H : context [Z.ltb ?a ?b] |- _ => destruct (Z.ltb_spec a b)
  | |- context [Z.eqb ?a ?b] => destruct (Z.eqb_spec a b)
  | |- context [Z.leb ?a ?b] => destruct (Z.leb_spec a b)
  | |- context [Z.ltb ?a ?b] => destruct (Z.ltb_spec a b)
  end; simpl in *.

#[export] Hint Resolve wrap_range : rtt.

(** Closed facts about concrete states, by evaluation. *)
(** The function that replaces the field [proj] of a record; [eta] rebuilds the
    record from its fields. *)
Ltac field_setter eta proj :=
  let body := eval unfold eta in eta in
  match eval pattern proj in body with
  | ?rebuild proj =>
      let upd := eval cbv beta in (fun v r => rebuild (fun _ => v) r) in exact upd
  end.

Ltac ev := vm_compute; first [reflexivity | done].

Lemma truthy_bit x n : 0 <= n -> truthy (x &. 2 ^ n) = Z.testbit x n.
Proof.
  intros Hn. unfold truthy. destruct (Z.testbit x n) eqn:E.
  - apply negb_true_iff, Z.eqb_neq. intros E0.
    apply (f_equal (fun z => Z.testbit z n)) in E0.
    rewrite Z.land_spec, E, Z.pow2_bits_true, Z.testbit_0_l in E0 by lia. done.
  - apply negb_false_iff, Z.eqb_eq, Z.bits_inj'. intros j Hj.
    rewrite Z.land_spec, Z.testbit_0_l. destruct (decide (n = j)) as [<-|].
    + by rewrite E.
    + rewrite Z.pow2_bits_false by lia. apply andb_false_r.
Qed.

(** ** Linked lists through a map of [next] pointers

    [chain nx h l]: from the head [h] the links visit [l] and end in null. *)

Fixpoint chain (nx : gmap Z (option Z)) (h : option Z) (l : list Z) : Prop :=
  match l with
  | [] => h = None
  | m :: l' => h = Some m /\ exists n, nx !! m = Some n /\ chain nx n l'
  end.

Lemma chain_frame nx h l m n : m ∉ l -> chain nx h l -> chain (<[m := n]> nx) h l.
Proof.
  revert h. induction l as [|x l IH]; intros h Hnot; simpl; [done|].
  intros (-> & n' & Hx & Hl). split; [done|]. exists n'.
  apply not_elem_of_cons in Hnot as [Hne Hnot].
  rewrite lookup_insert_ne by done. auto.
Qed.

Lemma chain_cons nx m n l :
  m ∉ l -> chain nx n l -> chain (<[m := n]> nx) (Some m) (m :: l).
Proof.
  intros Hnot Hl. split; [done|]. exists n. rewrite lookup_insert_eq.
  split; [done|]. by apply chain_frame.
Qed.

(** Appending a message whose [next] is null behind the last one. *)
Lemma chain_snoc nx h l x m :
  m ∉ l ++ [x] -> NoDup (l ++ [x]) -> nx !! m = Some None -> chain nx h (l ++ [x]) ->
  chain (<[x := Some m]> nx) h ((l ++ [x]) ++ [m]).
Proof.
  revert h. induction l as [|y l IH]; intros h Hnot Hnd Hm; simpl.
  - intros (-> & n & Hx & _). split; [done|]. exists (Some m).
    rewrite lookup_insert_eq. split; [done|]. split; [done|]. exists None.
    rewrite lookup_insert_ne by (intros ->; set_solver). done.
  - intros (-> & n & Hy & Hl). split; [done|]. exists n.
    apply NoDup_cons in Hnd as [Hy' Hnd].
    rewrite lookup_insert_ne by (intros ->; set_solver). split; [done|].
    apply IH; [set_solver|done..].
Qed.

Lemma chain_head nx h l : chain nx h l -> h = head l.
Proof. destruct l; [done|]. by intros [-> _]. Qed.

Lemma chain_delete nx h l m : m ∉ l -> chain nx h l -> chain (delete m nx) h l.
Proof.
  revert h. induction l as [|x l IH]; intros h Hnot; simpl; [done|].
  intros (-> & n' & Hx & Hl). split; [done|]. exists n'.
  apply not_elem_of_cons in Hnot as [Hne Hnot].
  rewrite lookup_delete_ne by done. auto.
Qed.
