(* ===== verification/RtList.v ===== *)
(** * The intrusive doubly linked lists of include/rtservice.h

    A node is identified by its address; the store maps an address to its
    [next] and [prev] fields.  The operations are the inline functions of
    rtservice.h, statement by statement; [None] is the dereference of an
    address that holds no node.  [ring m h l] says that the store holds the
    circular list with head [h] and elements [l] in order; the theorems show
    what each operation does to such lists, and that it leaves every other
    list of the store alone.  The kernel files use these lists through their
    sequence of elements, which is what the theorems justify. *)

From S2P Require Import Prelude.

Module RtList.
Section rt_list.
Context {A : Type} `{Countable A}.
Implicit Types (m : gmap A (A * A)) (a b h n p : A) (l : list A).

Definition next m a : option A := fst <$> m !! a.
Definition prev m a : option A := snd <$> m !! a.

Definition set_next (a b : A) m : option (gmap A (A * A)) :=
  '(_, p) ← m !! a; Some (<[a := (b, p)]> m).
Definition set_prev (a b : A) m : option (gmap A (A * A)) :=
  '(n, _) ← m !! a; Some (<[a := (n, b)]> m).

(** [l->next = l->prev = l] *)
Definition rt_list_init (l : A) m : option (gmap A (A * A)) :=
  m ← set_prev l l m;
  set_next l l m.

Definition rt_list_insert_after (l n : A) m : option (gmap A (A * A)) :=
  x ← next m l;  m ← set_prev x n m;
  x ← next m l;  m ← set_next n x m;
  m ← set_next l n m;
  set_prev n l m.

Definition rt_list_insert_before (l n : A) m : option (gmap A (A * A)) :=
  x ← prev m l;  m ← set_next x n m;
  x ← prev m l;  m ← set_prev n x m;
  m ← set_prev l n m;
  set_next n l m.

Definition rt_list_remove (n : A) m : option (gmap A (A * A)) :=
  x ← next m n;  y ← prev m n;  m ← set_prev x y m;
  y ← prev m n;  x ← next m n;  m ← set_next y x m;
  m ← set_prev n n m;
  set_next n n m.

Definition rt_list_isempty (l : A) m : option bool :=
  x ← next m l; Some (bool_decide (x = l)).

(** The path from [a] through the nodes of [l] to [b]. *)
Fixpoint seg m a l b : Prop :=
  match l with
  | [] => next m a = Some b /\ prev m b = Some a
  | x :: l => (next m a = Some x /\ prev m x = Some a) /\ seg m x l b
  end.

Definition ring m h l : Prop := NoDup (h :: l) /\ seg m h l h.

Lemma next_set_next m m' a b c :
  set_next a b m = Some m' ->
  next m' c = if decide (c = a) then Some b else next m c.
Proof.
  unfold set_next, next. destruct (m !! a) as [[x y]|] eqn:E; intros [= <-].
  case_decide; subst; by simplify_map_eq.
Qed.

Lemma prev_set_next m m' a b c :
  set_next a b m = Some m' -> prev m' c = prev m c.
Proof.
  unfold set_next, prev. destruct (m !! a) as [[x y]|] eqn:E; intros [= <-].
  destruct (decide (c = a)) as [->|]; by simplify_map_eq.
Qed.

Lemma prev_set_prev m m' a b c :
  set_prev a b m = Some m' ->
  prev m' c = if decide (c = a) then Some b else prev m c.
Proof.
  unfold set_prev, prev. destruct (m !! a) as [[x y]|] eqn:E; intros [= <-].
  case_decide; subst; by simplify_map_eq.
Qed.

Lemma next_set_prev m m' a b c :
  set_prev a b m = Some m' -> next m' c = next m c.
Proof.
  unfold set_prev, next. destruct (m !! a) as [[x y]|] eqn:E; intros [= <-].
  destruct (decide (c = a)) as [->|]; by simplify_map_eq.
Qed.

Lemma dom_set_next m m' a b : set_next a b m = Some m' -> dom m' = dom m.
Proof.
  unfold set_next. destruct (m !! a) as [[x y]|] eqn:E; intros [= <-].
  rewrite dom_insert_L. apply elem_of_dom_2 in E. set_solver.
Qed.

Lemma dom_set_prev m m' a b : set_prev a b m = Some m' -> dom m' = dom m.
Proof.
  unfold set_prev. destruct (m !! a) as [[x y]|] eqn:E; intros [= <-].
  rewrite dom_insert_L. apply elem_of_dom_2 in E. set_solver.
Qed.

Lemma set_next_total m a b : a ∈ dom m -> exists m', set_next a b m = Some m'.
Proof. unfold set_next. intros [[x y] ->]%elem_of_dom. simpl. eauto. Qed.

Lemma set_prev_total m a b : a ∈ dom m -> exists m', set_prev a b m = Some m'.
Proof. unfold set_prev. intros [[x y] ->]%elem_of_dom. simpl. eauto. Qed.

Lemma next_dom m a b : next m a = Some b -> a ∈ dom m.
Proof. unfold next. rewrite elem_of_dom. destruct (m !! a); naive_solver. Qed.

Lemma prev_dom m a b : prev m a = Some b -> a ∈ dom m.
Proof. unfold prev. rewrite elem_of_dom. destruct (m !! a); naive_solver. Qed.

(** A path depends only on the [next] of its sources and the [prev] of its
    targets. *)
Lemma seg_ext m m' a l b :
  seg m a l b ->
  (forall x, x ∈ a :: l -> next m' x = next m x) ->
  (forall x, x ∈ l ++ [b] -> prev m' x = prev m x) ->
  seg m' a l b.
Proof.
  revert a. induction l as [|x l IH]; intros a; simpl.
  - intros [? ?] Hn Hp. split; [rewrite Hn|rewrite Hp]; set_solver.
  - intros [[? ?] ?] Hn Hp. split; [split|].
    + rewrite Hn; set_solver.
    + rewrite Hp; set_solver.
    + apply IH; set_solver.
Qed.

Lemma seg_app m a l x l' b :
  seg m a (l ++ x :: l') b <-> seg m a l x /\ seg m x l' b.
Proof.
  revert a. induction l as [|y l IH]; intros a; simpl; [tauto|].
  rewrite IH. tauto.
Qed.

Lemma ring_ext m m' h l :
  ring m h l ->
  (forall x, x ∈ h :: l -> next m' x = next m x /\ prev m' x = prev m x) ->
  ring m' h l.
Proof.
  intros [Hd Hs] E. split; [done|]. eapply seg_ext; [done| |];
    intros x Hx; apply E; set_solver.
Qed.

(** What an insertion between two adjacent nodes [a] and [b] of the store
    does, when [n] is a third node. *)
Lemma link_between m a b n m1 m2 m3 m4 :
  set_prev b n m = Some m1 -> set_next n b m1 = Some m2 ->
  set_next a n m2 = Some m3 -> set_prev n a m3 = Some m4 ->
  a <> n -> b <> n ->
  (forall c, next m4 c = if decide (c = a) then Some n
                         else if decide (c = n) then Some b else next m c) /\
  (forall c, prev m4 c = if decide (c = n) then Some a
                         else if decide (c = b) then Some n else prev m c).
Proof.
  intros H1 H2 H3 H4 Ha Hb. split; intros c.
  - rewrite (next_set_prev _ _ _ _ _ H4), (next_set_next _ _ _ _ _ H3).
    case_decide; [done|]. rewrite (next_set_next _ _ _ _ _ H2).
    case_decide; [done|]. by rewrite (next_set_prev _ _ _ _ _ H1).
  - rewrite (prev_set_prev _ _ _ _ _ H4). case_decide; [done|].
    rewrite (prev_set_next _ _ _ _ _ H3), (prev_set_next _ _ _ _ _ H2).
    by rewrite (prev_set_prev _ _ _ _ _ H1).
Qed.

(** The effect of linking [n] between [a] and [b] as a relation. *)
Definition linked m m' a b n : Prop :=
  (forall c, next m' c = if decide (c = a) then Some n
                         else if decide (c = n) then Some b else next m c) /\
  (forall c, prev m' c = if decide (c = n) then Some a
                         else if decide (c = b) then Some n else prev m c).

Lemma insert_after_linked m a b n :
  next m a = Some b -> a <> n -> b <> n -> b ∈ dom m -> n ∈ dom m ->
  exists m', rt_list_insert_after a n m = Some m' /\ linked m m' a b n.
Proof.
  intros Hn Ha Hb Db Dn. unfold rt_list_insert_after. rewrite Hn. simpl.
  destruct (set_prev_total m b n) as [m1 H1]; [done|]. rewrite H1. simpl.
  rewrite (next_set_prev _ _ _ _ _ H1), Hn. simpl.
  destruct (set_next_total m1 n b) as [m2 H2].
  { by rewrite (dom_set_prev _ _ _ _ H1). }
  rewrite H2. simpl. destruct (set_next_total m2 a n) as [m3 H3].
  { rewrite (dom_set_next _ _ _ _ H2), (dom_set_prev _ _ _ _ H1).
    by apply next_dom in Hn. }
  rewrite H3. simpl. destruct (set_prev_total m3 n a) as [m4 H4].
  { by rewrite (dom_set_next _ _ _ _ H3), (dom_set_next _ _ _ _ H2),
      (dom_set_prev _ _ _ _ H1). }
  exists m4. split; [done|]. eapply link_between; eauto.
Qed.

Lemma insert_before_linked m a b n :
  prev m b = Some a -> a <> n -> b <> n -> a ∈ dom m -> n ∈ dom m ->
  exists m', rt_list_insert_before b n m = Some m' /\ linked m m' a b n.
Proof.
  intros Hp Ha Hb Da Dn. unfold rt_list_insert_before. rewrite Hp. simpl.
  destruct (set_next_total m a n) as [m1 H1]; [done|]. rewrite H1. simpl.
  rewrite (prev_set_next _ _ _ _ _ H1), Hp. simpl.
  destruct (set_prev_total m1 n a) as [m2 H2].
  { by rewrite (dom_set_next _ _ _ _ H1). }
  rewrite H2. simpl. destruct (set_prev_total m2 b n) as [m3 H3].
  { rewrite (dom_set_prev _ _ _ _ H2), (dom_set_next _ _ _ _ H1).
    by apply prev_dom in Hp. }
  rewrite H3. simpl. destruct (set_next_total m3 n b) as [m4 H4].
  { by rewrite (dom_set_prev _ _ _ _ H3), (dom_set_prev _ _ _ _ H2),
      (dom_set_next _ _ _ _ H1). }
  exists m4. split; [done|]. split; intros c.
  - rewrite (next_set_next _ _ _ _ _ H4), (next_set_prev _ _ _ _ _ H3),
      (next_set_prev _ _ _ _ _ H2), (next_set_next _ _ _ _ _ H1).
    repeat case_decide; congruence.
  - rewrite (prev_set_next _ _ _ _ _ H4), (prev_set_prev _ _ _ _ _ H3).
    rewrite (prev_set_prev _ _ _ _ _ H2), (prev_set_next _ _ _ _ _ H1).
    repeat case_decide; congruence.
Qed.

(** Linking [n] between the adjacent nodes [a], [b] of a ring inserts it at
    that position of the sequence, and no disjoint ring changes. *)
Lemma linked_frame m m' a b n h l :
  linked m m' a b n -> a ∉ h :: l -> b ∉ h :: l -> n ∉ h :: l ->
  ring m h l -> ring m' h l.
Proof.
  intros [En Ep] ??? Hr. eapply ring_ext; [done|]. intros x Hx.
  rewrite En, Ep. repeat case_decide; set_solver.
Qed.

(** The node before and the node after a position of a path. *)
Definition node_before x (l1 : list A) : A := default x (last l1).
Definition node_after (l2 : list A) y : A := default y (head l2).

Lemma node_before_cons x z l : node_before x (z :: l) = node_before z l.
Proof. unfold node_before. rewrite last_cons. by destruct (last l). Qed.

Lemma node_before_elem x l : node_before x l ∈ x :: l.
Proof.
  revert x. induction l as [|z l IH]; intros x; [set_solver|].
  rewrite node_before_cons. set_solver.
Qed.

Lemma node_after_elem l y : node_after l y ∈ l ++ [y].
Proof. destruct l; unfold node_after; set_solver. Qed.

Lemma seg_adjacent m x l1 l2 y :
  seg m x (l1 ++ l2) y ->
  next m (node_before x l1) = Some (node_after l2 y) /\
  prev m (node_after l2 y) = Some (node_before x l1).
Proof.
  revert x. induction l1 as [|z l1 IH]; intros x.
  - unfold node_before. destruct l2; simpl; naive_solver.
  - rewrite node_before_cons. simpl. intros [_ ?]. by apply IH.
Qed.

(** Linking [n] between two adjacent nodes of a path inserts it at that
    position of the sequence. *)
Lemma seg_insert m m' n x l1 l2 y :
  seg m x (l1 ++ l2) y ->
  NoDup (x :: l1 ++ l2) -> NoDup ((l1 ++ l2) ++ [y]) ->
  n ∉ x :: l1 ++ l2 -> n <> y ->
  linked m m' (node_before x l1) (node_after l2 y) n ->
  seg m' x (l1 ++ n :: l2) y.
Proof.
  intros Hs Hd1 Hd2 Hn Hny [En Ep]. revert x Hs Hd1 Hn En Ep Hd2.
  induction l1 as [|z l1 IH]; intros x Hs Hd1 Hn En Ep Hd2.
  - change (node_before x []) with x in *. simpl in *. split.
    { split; rewrite ?En, ?Ep; repeat case_decide; set_solver. }
    destruct l2 as [|z l2]; simpl in *.
    { split; rewrite ?En, ?Ep; repeat case_decide; set_solver. }
    apply NoDup_cons in Hd2 as [Hz Hd2], Hd1 as [Hx Hd1].
    destruct Hs as [_ Hs]. unfold node_after in *; simpl in *. split.
    { split; rewrite ?En, ?Ep; repeat case_decide; set_solver. }
    eapply seg_ext; [done| |]; intros c Hc; rewrite ?En, ?Ep;
      repeat case_decide; set_solver.
  - rewrite node_before_cons in *. simpl in *.
    apply NoDup_cons in Hd1 as [Hx Hd1]. apply NoDup_cons in Hd2 as [Hz Hd2].
    pose proof (node_before_elem z l1). pose proof (node_after_elem l2 y).
    destruct Hs as [[Hxn Hxp] Hs]. split.
    { split; rewrite ?En, ?Ep; repeat case_decide; set_solver. }
    apply IH; set_solver.
Qed.

Lemma NoDup_ring_insert h l1 l2 n :
  NoDup (h :: l1 ++ l2) -> n ∉ h :: l1 ++ l2 -> NoDup (h :: l1 ++ n :: l2).
Proof.
  intros Hd Hn.
  assert (h :: l1 ++ n :: l2 ≡ₚ n :: h :: l1 ++ l2) as ->.
  { rewrite <-Permutation_middle. constructor. }
  by constructor.
Qed.

Lemma ring_linked m m' n h l1 l2 :
  ring m h (l1 ++ l2) -> n ∉ h :: l1 ++ l2 ->
  linked m m' (node_before h l1) (node_after l2 h) n ->
  ring m' h (l1 ++ n :: l2).
Proof.
  intros [Hd Hs] Hn L. split; [by apply NoDup_ring_insert|].
  eapply seg_insert; eauto; [|set_solver].
  apply NoDup_app. apply NoDup_cons in Hd as [? ?].
  split; [done|]. split; [set_solver|apply NoDup_singleton].
Qed.

(** Every node of a ring is in the store. *)
Lemma ring_dom m h l x : ring m h l -> x ∈ h :: l -> x ∈ dom m.
Proof.
  intros [_ Hs] Hx. assert (forall a b l, seg m a l b -> forall x, x ∈ a :: l -> x ∈ dom m)
    as D; [|by eapply D].
  clear. intros a b l. revert a. induction l as [|y l IH]; simpl; intros a Hs x Hx.
  - destruct Hs as [?%next_dom _]. set_solver.
  - destruct Hs as [[?%next_dom _] Hs]. set_solver.
Qed.

(** [rt_list_insert_before (h, n)] on the head of a list appends [n]; on the
    element [s] of the list it inserts [n] right before [s]. *)
Lemma rt_list_insert_before_gen m h l1 l2 n :
  ring m h (l1 ++ l2) -> n ∈ dom m -> n ∉ h :: l1 ++ l2 ->
  exists m', rt_list_insert_before (node_after l2 h) n m = Some m' /\
    ring m' h (l1 ++ n :: l2) /\
    forall h' l', ring m h' l' -> (forall x, x ∈ h' :: l' -> x ∉ h :: l1 ++ l2) ->
             n ∉ h' :: l' -> ring m' h' l'.
Proof.
  intros Hr Dn Hn. pose proof (seg_adjacent _ _ _ _ _ (proj2 Hr)) as [Ha Hb].
  pose proof (node_before_elem h l1). pose proof (node_after_elem l2 h).
  destruct (insert_before_linked m (node_before h l1) (node_after l2 h) n)
    as (m' & E & L); [done|set_solver..| |done|].
  { by eapply next_dom. }
  exists m'. split_and!; [done|by eapply ring_linked|].
  intros h' l' Hr' Hdis Hn'. eapply linked_frame; eauto; set_solver.
Qed.

Lemma rt_list_insert_after_gen m h l1 l2 n :
  ring m h (l1 ++ l2) -> n ∈ dom m -> n ∉ h :: l1 ++ l2 ->
  exists m', rt_list_insert_after (node_before h l1) n m = Some m' /\
    ring m' h (l1 ++ n :: l2) /\
    forall h' l', ring m h' l' -> (forall x, x ∈ h' :: l' -> x ∉ h :: l1 ++ l2) ->
             n ∉ h' :: l' -> ring m' h' l'.
Proof.
  intros Hr Dn Hn. pose proof (seg_adjacent _ _ _ _ _ (proj2 Hr)) as [Ha Hb].
  pose proof (node_before_elem h l1). pose proof (node_after_elem l2 h).
  destruct (insert_after_linked m (node_before h l1) (node_after l2 h) n)
    as (m' & E & L); [done|set_solver..| |done|].
  { by eapply prev_dom. }
  exists m'. split_and!; [done|by eapply ring_linked|].
  intros h' l' Hr' Hdis Hn'. eapply linked_frame; eauto; set_solver.
Qed.

(** Unlinking. *)
Definition unlinked m m' a b n : Prop :=
  (forall c, next m' c = if decide (c = n) then Some n
                         else if decide (c = a) then Some b else next m c) /\
  (forall c, prev m' c = if decide (c = n) then Some n
                         else if decide (c = b) then Some a else prev m c).

Lemma remove_unlinked m a b n :
  next m n = Some b -> prev m n = Some a -> a <> n -> b <> n ->
  a ∈ dom m -> b ∈ dom m ->
  exists m', rt_list_remove n m = Some m' /\ unlinked m m' a b n.
Proof.
  intros Hn Hp Ha Hb Da Db. unfold rt_list_remove. rewrite Hn, Hp. simpl.
  destruct (set_prev_total m b a) as [m1 H1]; [done|]. rewrite H1. simpl.
  rewrite (next_set_prev _ _ _ _ _ H1), (prev_set_prev _ _ _ _ _ H1), Hn, Hp.
  rewrite decide_False by done. simpl.
  destruct (set_next_total m1 a b) as [m2 H2].
  { by rewrite (dom_set_prev _ _ _ _ H1). }
  rewrite H2. simpl. destruct (set_prev_total m2 n n) as [m3 H3].
  { rewrite (dom_set_next _ _ _ _ H2), (dom_set_prev _ _ _ _ H1).
    by apply next_dom in Hn. }
  rewrite H3. simpl. destruct (set_next_total m3 n n) as [m4 H4].
  { rewrite (dom_set_prev _ _ _ _ H3), (dom_set_next _ _ _ _ H2),
      (dom_set_prev _ _ _ _ H1). by apply next_dom in Hn. }
  exists m4. split; [done|]. split; intros c.
  - rewrite (next_set_next _ _ _ _ _ H4), (next_set_prev _ _ _ _ _ H3),
      (next_set_next _ _ _ _ _ H2), (next_set_prev _ _ _ _ _ H1).
    by repeat case_decide.
  - rewrite (prev_set_next _ _ _ _ _ H4), (prev_set_prev _ _ _ _ _ H3),
      (prev_set_next _ _ _ _ _ H2), (prev_set_prev _ _ _ _ _ H1).
    by repeat case_decide.
Qed.

Lemma seg_remove m m' n x l1 l2 y :
  seg m x (l1 ++ n :: l2) y ->
  NoDup (x :: l1 ++ n :: l2) -> NoDup ((l1 ++ n :: l2) ++ [y]) ->
  unlinked m m' (node_before x l1) (node_after l2 y) n ->
  seg m' x (l1 ++ l2) y.
Proof.
  intros Hs Hd1 Hd2 [En Ep]. revert x Hs Hd1 En Ep Hd2.
  induction l1 as [|z l1 IH]; intros x Hs Hd1 En Ep Hd2.
  - change (node_before x []) with x in *. simpl in *.
    apply NoDup_cons in Hd1 as [Hx Hd1], Hd2 as [Hn Hd2].
    apply NoDup_cons in Hd1 as [Hn1 Hd1]. destruct Hs as [[? ?] Hs].
    destruct l2 as [|z l2]; simpl in *; unfold node_after in *; simpl in *.
    { split; rewrite ?En, ?Ep; repeat case_decide; set_solver. }
    apply NoDup_cons in Hd2 as [Hz Hd2], Hd1 as [Hz1 Hd1].
    destruct Hs as [_ Hs]. split.
    { split; rewrite ?En, ?Ep; repeat case_decide; set_solver. }
    eapply seg_ext; [done| |]; intros c Hc; rewrite ?En, ?Ep;
      repeat case_decide; set_solver.
  - rewrite node_before_cons in *. simpl in *.
    apply NoDup_cons in Hd1 as [Hx Hd1]. apply NoDup_cons in Hd2 as [Hz Hd2].
    pose proof (node_before_elem z l1). pose proof (node_after_elem l2 y).
    destruct Hs as [[Hxn Hxp] Hs]. split.
    { split; rewrite ?En, ?Ep; repeat case_decide; set_solver. }
    apply IH; set_solver.
Qed.

Lemma NoDup_ring_snoc h l : NoDup (h :: l) -> NoDup (l ++ [h]).
Proof.
  intros [? ?]%NoDup_cons. apply NoDup_app.
  split; [done|]. split; [set_solver|apply NoDup_singleton].
Qed.

(** [rt_list_remove] takes the node out of its list, leaves it as an empty
    list of its own and changes no other list. *)
Lemma rt_list_remove_gen m h l1 l2 n :
  ring m h (l1 ++ n :: l2) ->
  exists m', rt_list_remove n m = Some m' /\
    ring m' h (l1 ++ l2) /\ ring m' n [] /\
    forall h' l', ring m h' l' ->
      (forall x, x ∈ h' :: l' -> x ∉ h :: l1 ++ n :: l2) -> ring m' h' l'.
Proof.
  intros Hr. pose proof Hr as [Hd Hs].
  pose proof (NoDup_ring_snoc _ _ Hd) as Hd2.
  destruct (seg_adjacent m h l1 (n :: l2) h Hs) as [Ha Hpa].
  destruct (seg_adjacent m n [] l2 h) as [Hb Hpb]; [by apply seg_app in Hs as [_ ?]|].
  change (node_after (n :: l2) h) with n in *. change (node_before n []) with n in *.
  pose proof (node_before_elem h l1). pose proof (node_after_elem l2 h).
  assert (node_before h l1 <> n /\ node_after l2 h <> n) as [Hna Hnb].
  { apply NoDup_cons in Hd as [? [? [Hd3 [? ?]%NoDup_cons]]%NoDup_app].
    split; intros E; rewrite E in *; set_solver. }
  destruct (remove_unlinked m (node_before h l1) (node_after l2 h) n)
    as (m' & E & U); [done..| | |].
  { by eapply next_dom. }
  { by eapply prev_dom. }
  exists m'. split_and!; [done| | |].
  - split.
    + eapply NoDup_cons. apply NoDup_cons in Hd as [? Hd].
      split; [set_solver|].
      eapply NoDup_app. apply NoDup_app in Hd as (?&?&[? ?]%NoDup_cons). set_solver.
    + by eapply seg_remove.
  - destruct U as [En Ep]. split; [apply NoDup_singleton|]. simpl.
    rewrite En, Ep. by rewrite !decide_True.
  - intros h' l' Hr' Hdis. destruct U as [En Ep].
    eapply ring_ext; [done|]. intros c Hc.
    rewrite En, Ep. repeat case_decide; set_solver.
Qed.

(** Whether a list is empty. *)
Lemma rt_list_isempty_ok m h l :
  ring m h l -> rt_list_isempty h m = Some (bool_decide (l = [])).
Proof.
  intros [Hd Hs]. unfold rt_list_isempty. destruct l as [|x l]; simpl in Hs.
  - destruct Hs as [-> _]. simpl. by rewrite !bool_decide_true.
  - destruct Hs as [[-> _] _]. simpl. apply NoDup_cons in Hd as [Hh _].
    assert (x <> h) by (intros ->; apply Hh; left). by rewrite !bool_decide_false.
Qed.

(** The linked lists behave as sequences: [rt_list_insert_before] and
    [rt_list_insert_after] a node of a list put a fresh node next to it, [rt_list_remove]
    undoes the insertion and leaves the node as an empty list of its own,
    [rt_list_isempty] tells whether the sequence is empty, and no operation changes
    another list of the store. *)
Theorem rt_list_ops_ok m h l1 l2 n h' l' :
  ring m h (l1 ++ l2) -> n ∈ dom m -> n ∉ h :: l1 ++ l2 ->
  ring m h' l' -> (forall x, x ∈ h' :: l' -> x ∉ h :: l1 ++ l2) -> n ∉ h' :: l' ->
  rt_list_isempty h m = Some (bool_decide (l1 ++ l2 = [])) /\
  forall insert, insert = rt_list_insert_before (node_after l2 h) n \/
                 insert = rt_list_insert_after (node_before h l1) n ->
  exists m1 m2, insert m = Some m1 /\ ring m1 h (l1 ++ n :: l2) /\ ring m1 h' l' /\
    rt_list_remove n m1 = Some m2 /\ ring m2 h (l1 ++ l2) /\ ring m2 n [] /\ ring m2 h' l'.
Proof.
  intros Hr Hn Hnot Hr' Hdis Hn'. split; [by apply rt_list_isempty_ok|]. intros insert Hi.
  assert (exists m1, insert m = Some m1 /\ ring m1 h (l1 ++ n :: l2) /\ ring m1 h' l')
    as (m1 & E1 & R1 & R1').
  { destruct Hi as [-> | ->].
    - destruct (rt_list_insert_before_gen m h l1 l2 n Hr Hn Hnot) as (m1 & ? & ? & F).
      exists m1. split_and!; try done. by apply F.
    - destruct (rt_list_insert_after_gen m h l1 l2 n Hr Hn Hnot) as (m1 & ? & ? & F).
      exists m1. split_and!; try done. by apply F. }
  destruct (rt_list_remove_gen m1 h l1 l2 n R1) as (m2 & E2 & R2 & Rn & F2).
  exists m1, m2. split_and!; try done. apply F2; [done|]. intros x Hx.
  specialize (Hdis x Hx). assert (x <> n) by (by intros ->). set_solver.
Qed.

End rt_list.

(** A list with head 1 and element 2, the fresh node 3, and an empty list 4. *)
Definition demo_list : gmap Z (Z * Z) :=
  {[ 1 := (2, 2); 2 := (1, 1); 3 := (3, 3); 4 := (4, 4) ]}.

Lemma rt_list_ops_ok_witness :
  exists m1, rt_list_insert_before 1 3 demo_list = Some m1 /\ ring m1 1 [2; 3].
Proof.
  assert (NoDup [1; 2]) as N12 by (apply (bool_decide_unpack _); vm_compute; exact I).
  assert (NoDup [4]) as N4 by (apply (bool_decide_unpack _); vm_compute; exact I).
  destruct (rt_list_ops_ok demo_list 1 [2] [] 3 4 []) as [_ H].
  - split; [exact N12|]. repeat split; vm_compute; reflexivity.
  - apply elem_of_dom. eexists. vm_compute. reflexivity.
  - set_solver by lia.
  - split; [exact N4|]. split; vm_compute; reflexivity.
  - intros x Hx%list_elem_of_singleton. subst. set_solver by lia.
  - set_solver by lia.
  - destruct (H (rt_list_insert_before 1 3)) as (m1 & _ & E & R & _); [left; reflexivity|].
    exists m1. split; [exact E|exact R].
Defined.

End RtList.
