(* ===== verification/RingBuffer.v ===== *)
(** * The ring buffer of components/drivers/src/ringbuffer.c

    [rt_ringbuffer] is the C structure: the pool as a list of bytes, the two
    15-bit indices, the two mirror bits and the 16-bit size.  Every copy is
    bounds checked: [None] stands for a [memcpy] outside of the pool or of
    the caller's buffer, or for a failed [RT_ASSERT].  [contents] is the
    abstract queue; the theorems show that put and get implement the bounded
    FIFO queue on it. *)

From S2P Require Import Prelude.

Module RingBuffer.

Record rt_ringbuffer := RingBuffer {
  buffer_ptr : list Z;
  read_mirror : bool;
  read_index : Z;
  write_mirror : bool;
  write_index : Z;
  buffer_size : Z;
}.

Definition set_write (rb : rt_ringbuffer) (buf : list Z) (m : bool) (i : Z) : rt_ringbuffer :=
  RingBuffer buf (read_mirror rb) (read_index rb) m (wrap 15 i) (buffer_size rb).
Definition set_read (rb : rt_ringbuffer) (m : bool) (i : Z) : rt_ringbuffer :=
  RingBuffer (buffer_ptr rb) m (wrap 15 i) (write_mirror rb) (write_index rb) (buffer_size rb).

Inductive rt_ringbuffer_state :=
  | RT_RINGBUFFER_EMPTY
  | RT_RINGBUFFER_FULL
  | RT_RINGBUFFER_HALFFULL.

#[export] Instance rt_ringbuffer_state_eq : EqDecision rt_ringbuffer_state.
Proof. solve_decision. Defined.

Definition rt_ringbuffer_init (pool : list Z) (size : Z) : option rt_ringbuffer :=
  if 0 <? size
  then Some (RingBuffer pool false 0 false 0 (RT_ALIGN_DOWN size RT_ALIGN_SIZE))
  else None.

Definition rt_ringbuffer_get_size (rb : rt_ringbuffer) : Z := u16 (buffer_size rb).

Definition rt_ringbuffer_status (rb : rt_ringbuffer) : rt_ringbuffer_state :=
  if read_index rb =? write_index rb then
    if eqb (read_mirror rb) (write_mirror rb) then RT_RINGBUFFER_EMPTY
    else RT_RINGBUFFER_FULL
  else RT_RINGBUFFER_HALFFULL.

Definition rt_ringbuffer_data_len (rb : rt_ringbuffer) : Z :=
  match rt_ringbuffer_status rb with
  | RT_RINGBUFFER_EMPTY => 0
  | RT_RINGBUFFER_FULL => u16 (buffer_size rb)
  | RT_RINGBUFFER_HALFFULL =>
      if read_index rb <? write_index rb then u16 (write_index rb - read_index rb)
      else u16 (buffer_size rb - (read_index rb - write_index rb))
  end.

Definition rt_ringbuffer_space_len (rb : rt_ringbuffer) : Z :=
  buffer_size rb - rt_ringbuffer_data_len rb.

Definition rt_ringbuffer_put (rb : rt_ringbuffer) (ptr : list Z) (length : Z)
  : option (rt_ringbuffer * Z) :=
  let size := u16 (rt_ringbuffer_space_len rb) in
  if size =? 0 then Some (rb, 0) else
  let length := if size <? length then size else length in
  if buffer_size rb - write_index rb >? length then
    d ← memread ptr 0 length;
    buf ← memcpy_at (buffer_ptr rb) (write_index rb) d;
    Some (set_write rb buf (write_mirror rb) (write_index rb + length), length)
  else
    d1 ← memread ptr 0 (buffer_size rb - write_index rb);
    buf ← memcpy_at (buffer_ptr rb) (write_index rb) d1;
    d2 ← memread ptr (buffer_size rb - write_index rb)
           (length - (buffer_size rb - write_index rb));
    buf ← memcpy_at buf 0 d2;
    Some (set_write rb buf (negb (write_mirror rb))
            (length - (buffer_size rb - write_index rb)), length).

Definition rt_ringbuffer_put_force (rb : rt_ringbuffer) (ptr : list Z) (length : Z)
  : option (rt_ringbuffer * Z) :=
  let old_state := rt_ringbuffer_status rb in
  let length := if length >? buffer_size rb then u16 (buffer_size rb) else length in
  if buffer_size rb - write_index rb >? length then
    d ← memread ptr 0 length;
    buf ← memcpy_at (buffer_ptr rb) (write_index rb) d;
    let rb := set_write rb buf (write_mirror rb) (write_index rb + length) in
    let rb := if decide (old_state = RT_RINGBUFFER_FULL)
              then set_read rb (read_mirror rb) (write_index rb) else rb in
    Some (rb, length)
  else
    d1 ← memread ptr 0 (buffer_size rb - write_index rb);
    buf ← memcpy_at (buffer_ptr rb) (write_index rb) d1;
    d2 ← memread ptr (buffer_size rb - write_index rb)
           (length - (buffer_size rb - write_index rb));
    buf ← memcpy_at buf 0 d2;
    let rb := set_write rb buf (negb (write_mirror rb))
                (length - (buffer_size rb - write_index rb)) in
    let rb := if decide (old_state = RT_RINGBUFFER_FULL)
              then set_read rb (negb (read_mirror rb)) (write_index rb) else rb in
    Some (rb, length).

(** The bytes copied to the caller's buffer are returned as a list. *)
Definition rt_ringbuffer_get (rb : rt_ringbuffer) (length : Z)
  : option (rt_ringbuffer * list Z * Z) :=
  let size := rt_ringbuffer_data_len rb in
  if size =? 0 then Some (rb, [], 0) else
  let length := if size <? length then u16 size else length in
  if buffer_size rb - read_index rb >? length then
    d ← memread (buffer_ptr rb) (read_index rb) length;
    Some (set_read rb (read_mirror rb) (read_index rb + length), d, length)
  else
    d1 ← memread (buffer_ptr rb) (read_index rb) (buffer_size rb - read_index rb);
    d2 ← memread (buffer_ptr rb) 0 (length - (buffer_size rb - read_index rb));
    Some (set_read rb (negb (read_mirror rb))
            (length - (buffer_size rb - read_index rb)), d1 ++ d2, length).

Definition rt_ringbuffer_putchar (rb : rt_ringbuffer) (ch : Z)
  : option (rt_ringbuffer * Z) :=
  if rt_ringbuffer_space_len rb =? 0 then Some (rb, 0) else
  buf ← memcpy_at (buffer_ptr rb) (write_index rb) [ch];
  if write_index rb =? buffer_size rb - 1
  then Some (set_write rb buf (negb (write_mirror rb)) 0, 1)
  else Some (set_write rb buf (write_mirror rb) (write_index rb + 1), 1).

Definition rt_ringbuffer_putchar_force (rb : rt_ringbuffer) (ch : Z)
  : option (rt_ringbuffer * Z) :=
  let old_state := rt_ringbuffer_status rb in
  buf ← memcpy_at (buffer_ptr rb) (write_index rb) [ch];
  if write_index rb =? buffer_size rb - 1 then
    let rb := set_write rb buf (negb (write_mirror rb)) 0 in
    let rb := if decide (old_state = RT_RINGBUFFER_FULL)
              then set_read rb (negb (read_mirror rb)) (write_index rb) else rb in
    Some (rb, 1)
  else
    let rb := set_write rb buf (write_mirror rb) (write_index rb + 1) in
    let rb := if decide (old_state = RT_RINGBUFFER_FULL)
              then set_read rb (read_mirror rb) (write_index rb) else rb in
    Some (rb, 1).

Definition rt_ringbuffer_getchar (rb : rt_ringbuffer)
  : option (rt_ringbuffer * option Z * Z) :=
  if rt_ringbuffer_data_len rb =? 0 then Some (rb, None, 0) else
  ch ← zlookup (buffer_ptr rb) (read_index rb);
  if read_index rb =? buffer_size rb - 1
  then Some (set_read rb (negb (read_mirror rb)) 0, Some ch, 1)
  else Some (set_read rb (read_mirror rb) (read_index rb + 1), Some ch, 1).

(** ** The abstract queue *)

(** Well-formedness: the indices are inside the buffer, the pool has at least
    [buffer_size] bytes, and the mirror bits tell whether the writer is one
    turn ahead of the reader. *)
Definition wf (rb : rt_ringbuffer) : Prop :=
  0 < buffer_size rb < 2 ^ 15 /\
  buffer_size rb <= Z.of_nat (length (buffer_ptr rb)) /\
  0 <= read_index rb < buffer_size rb /\
  0 <= write_index rb < buffer_size rb /\
  (if eqb (read_mirror rb) (write_mirror rb)
   then read_index rb <= write_index rb
   else write_index rb <= read_index rb).

(** The [i]-th byte to be read. *)
Definition nth_byte (rb : rt_ringbuffer) (i : Z) : Z :=
  default 0 (zlookup (buffer_ptr rb) ((read_index rb + i) mod buffer_size rb)).

Definition contents (rb : rt_ringbuffer) : list Z :=
  nth_byte rb <$> seqZ 0 (rt_ringbuffer_data_len rb).

(** ** Arithmetic of the indices *)

Lemma data_len_spec rb :
  wf rb ->
  rt_ringbuffer_data_len rb =
    if eqb (read_mirror rb) (write_mirror rb)
    then write_index rb - read_index rb
    else buffer_size rb - (read_index rb - write_index rb).
Proof.
  intros (? & ? & ? & ? & Hm).
  unfold rt_ringbuffer_data_len, rt_ringbuffer_status.
  destruct (eqb _ _); cmp_cases; rewrite ?wrap_small; unfold in_u; lia.
Qed.

Lemma data_len_range rb :
  wf rb -> 0 <= rt_ringbuffer_data_len rb <= buffer_size rb.
Proof.
  intros Hw. rewrite data_len_spec by done.
  destruct Hw as (? & ? & ? & ? & Hm). destruct (eqb _ _); lia.
Qed.

Lemma write_index_spec rb :
  wf rb ->
  write_index rb = (read_index rb + rt_ringbuffer_data_len rb) mod buffer_size rb.
Proof.
  intros Hw. rewrite data_len_spec by done.
  destruct Hw as (? & ? & ? & ? & Hm). destruct (eqb _ _).
  - rewrite Z.mod_small; lia.
  - replace (read_index rb + _) with (write_index rb + 1 * buffer_size rb) by lia.
    rewrite Z.mod_add, Z.mod_small; lia.
Qed.

Lemma space_u16 rb :
  wf rb -> u16 (rt_ringbuffer_space_len rb) = buffer_size rb - rt_ringbuffer_data_len rb.
Proof.
  intros Hw. unfold rt_ringbuffer_space_len. pose proof (data_len_range rb Hw).
  destruct Hw as (? & _). apply wrap_small. unfold in_u. lia.
Qed.

Lemma length_contents rb :
  wf rb -> Z.of_nat (length (contents rb)) = rt_ringbuffer_data_len rb.
Proof.
  intros Hw. unfold contents. rewrite length_fmap, length_seqZ.
  pose proof (data_len_range rb Hw). lia.
Qed.

(** Positions of a ring: two offsets less than a turn apart are equal when
    their remainders are. *)
Lemma mod_neq b x y : 0 < b -> x < y < x + b -> x mod b <> y mod b.
Proof.
  intros Hb Hxy E. pose proof (Z.div_mod x b). pose proof (Z.div_mod y b).
  assert (b * (y / b - x / b) = y - x) by lia.
  destruct (Z.le_gt_cases (y / b - x / b) 0); nia.
Qed.

(** ** Writing [n] bytes at the write position *)

(** The pool after the bytes [d] were written from offset [w] on, wrapping at
    [b]. *)
Definition written (buf buf' : list Z) (b w : Z) (d : list Z) : Prop :=
  length buf' = length buf /\
  (forall i, 0 <= i < Z.of_nat (length d) -> zlookup buf' ((w + i) mod b) = zlookup d i) /\
  (forall j, 0 <= j < b ->
     (forall i, 0 <= i < Z.of_nat (length d) -> j <> (w + i) mod b) ->
     zlookup buf' j = zlookup buf j).

Lemma written_one buf buf' b w d :
  0 <= w -> w + Z.of_nat (length d) <= b ->
  memcpy_at buf w d = Some buf' -> written buf buf' b w d.
Proof.
  intros Hw Hd E. split_and!.
  - by eapply memcpy_at_length.
  - intros i Hi. rewrite Z.mod_small by lia. rewrite (memcpy_at_lookup _ _ _ _ _ E).
    cmp_cases; try lia. f_equal. lia.
  - intros j Hj Hne. rewrite (memcpy_at_lookup _ _ _ _ _ E).
    cmp_cases; try done. exfalso. apply (Hne (j - w)); [lia|].
    rewrite Z.mod_small; lia.
Qed.

Lemma written_two buf buf1 buf' b w d d1 d2 :
  0 <= w < b -> w + Z.of_nat (length d1) = b ->
  Z.of_nat (length d2) <= w -> d = d1 ++ d2 ->
  memcpy_at buf w d1 = Some buf1 -> memcpy_at buf1 0 d2 = Some buf' ->
  written buf buf' b w d.
Proof.
  intros Hw Hd1 Hd2 -> E1 E2. split_and!.
  - rewrite (memcpy_at_length _ _ _ _ E2). by eapply memcpy_at_length.
  - intros i Hi. rewrite length_app in Hi. unfold zlookup at 2.
    rewrite (memcpy_at_lookup _ _ _ _ _ E2), (memcpy_at_lookup _ _ _ _ _ E1).
    destruct (Z.lt_ge_cases i (Z.of_nat (length d1))).
    + rewrite Z.mod_small by lia. rewrite lookup_app_l by lia.
      unfold zlookup. cmp_cases; try lia. f_equal. lia.
    + replace (w + i) with (i - Z.of_nat (length d1) + 1 * b) by lia.
      rewrite Z.mod_add, Z.mod_small by lia. rewrite lookup_app_r by lia.
      unfold zlookup. cmp_cases; try lia. f_equal. lia.
  - intros j Hj Hne. rewrite length_app in Hne.
    rewrite (memcpy_at_lookup _ _ _ _ _ E2), (memcpy_at_lookup _ _ _ _ _ E1).
    destruct (Z.lt_ge_cases j (Z.of_nat (length d2))) as [Hj2|Hj2];
      [exfalso; apply (Hne (j + Z.of_nat (length d1))); [lia|];
       rewrite Z.add_assoc, (Z.add_comm w j), <-Z.add_assoc, Hd1;
       replace (j + b) with (j + 1 * b) by lia;
       rewrite Z.mod_add, Z.mod_small; lia|].
    destruct (Z.le_gt_cases w j) as [Hwj|Hwj];
      [exfalso; apply (Hne (j - w)); [lia|]; rewrite Z.mod_small; lia|].
    cmp_cases; done || lia.
Qed.

(** Advancing an index by [n] around the ring. *)
Definition advance (b i n : Z) : Z := if b - i >? n then i + n else n - (b - i).

Lemma advance_mod b i n : 0 <= i < b -> 0 <= n <= b -> advance b i n = (i + n) mod b.
Proof.
  intros ? ?. unfold advance. destruct (Z.gtb_spec (b - i) n).
  - rewrite Z.mod_small; lia.
  - replace (i + n) with (n - (b - i) + 1 * b) by lia.
    rewrite Z.mod_add, Z.mod_small; lia.
Qed.

(** The common shape of a write: [n] bytes appended behind the contents. *)
Lemma append_contents rb rb' d :
  wf rb -> wf rb' ->
  rt_ringbuffer_data_len rb' = rt_ringbuffer_data_len rb + Z.of_nat (length d) ->
  read_index rb' = read_index rb -> buffer_size rb' = buffer_size rb ->
  written (buffer_ptr rb) (buffer_ptr rb') (buffer_size rb) (write_index rb) d ->
  contents rb' = contents rb ++ d.
Proof.
  intros Hw Hw' Hl Er Eb (Hlen & Hin & Hout).
  pose proof (data_len_range rb Hw). pose proof (data_len_range rb' Hw').
  pose proof (write_index_spec rb Hw) as Hwi.
  destruct Hw as (? & ? & ? & ? & _).
  unfold contents. rewrite Hl. rewrite seqZ_app by lia. rewrite fmap_app. f_equal.
  - apply list_fmap_ext. intros k x Hk. apply lookup_seqZ in Hk as [-> Hk].
    unfold nth_byte. rewrite Er, Eb. f_equal. apply Hout.
    { apply Z.mod_pos_bound. lia. }
    intros i Hi E. rewrite Hwi, Zplus_mod_idemp_l in E. symmetry in E. revert E.
    apply not_eq_sym, mod_neq; lia.
  - apply list_eq. intros k. rewrite list_lookup_fmap.
    destruct (decide (k < length d)%nat) as [Hk|Hk].
    + rewrite (proj2 (lookup_seqZ _ _ k (rt_ringbuffer_data_len rb + Z.of_nat k))) by lia.
      simpl. unfold nth_byte. rewrite Er, Eb.
      rewrite Z.add_assoc.
      rewrite <-Zplus_mod_idemp_l, <-Hwi, Hin by lia.
      unfold zlookup. cmp_cases; [|lia]. rewrite Nat2Z.id.
      destruct (lookup_lt_is_Some_2 d k Hk) as [x ->]. done.
    + rewrite (lookup_ge_None_2 d) by lia.
      rewrite lookup_ge_None_2; [done|]. rewrite length_seqZ. lia.
Qed.

(** Moving the write index [n] bytes forward, flipping the mirror at the end
    of the pool. *)
Lemma wf_set_write rb buf n :
  wf rb -> length buf = length (buffer_ptr rb) ->
  0 <= n <= buffer_size rb - rt_ringbuffer_data_len rb ->
  let flip := negb (buffer_size rb - write_index rb >? n) in
  let rb' := set_write rb buf (xorb flip (write_mirror rb))
               (advance (buffer_size rb) (write_index rb) n) in
  wf rb' /\ rt_ringbuffer_data_len rb' = rt_ringbuffer_data_len rb + n.
Proof.
  intros Hw Hlen Hn. simpl.
  rewrite data_len_spec in * by done.
  assert (wf (set_write rb buf
    (xorb (negb (buffer_size rb - write_index rb >? n)) (write_mirror rb))
    (advance (buffer_size rb) (write_index rb) n))) as Hw'.
  { destruct Hw as (? & ? & ? & ? & Hm). unfold wf, set_write, advance; simpl.
    rewrite Hlen. destruct (read_mirror rb), (write_mirror rb); simpl in *;
      destruct (Z.gtb_spec (buffer_size rb - write_index rb) n); simpl;
      rewrite wrap_small by (unfold in_u; lia); lia. }
  split; [done|]. rewrite !data_len_spec by done.
  destruct Hw as (? & ? & ? & ? & Hm). unfold set_write, advance; simpl.
  destruct (read_mirror rb), (write_mirror rb); simpl in *;
    destruct (Z.gtb_spec (buffer_size rb - write_index rb) n); simpl;
    rewrite wrap_small by (unfold in_u; lia); lia.
Qed.

(** The two copies of a write of [n] bytes of [ptr]. *)
Lemma write_copies rb ptr n :
  wf rb -> 0 <= n <= buffer_size rb -> n <= Z.of_nat (length ptr) ->
  exists buf,
    (if buffer_size rb - write_index rb >? n then
       d ← memread ptr 0 n; memcpy_at (buffer_ptr rb) (write_index rb) d
     else
       d1 ← memread ptr 0 (buffer_size rb - write_index rb);
       buf ← memcpy_at (buffer_ptr rb) (write_index rb) d1;
       d2 ← memread ptr (buffer_size rb - write_index rb)
              (n - (buffer_size rb - write_index rb));
       memcpy_at buf 0 d2) = Some buf /\
    written (buffer_ptr rb) buf (buffer_size rb) (write_index rb) (take (Z.to_nat n) ptr).
Proof.
  intros (? & ? & ? & ? & _) Hn Hp.
  destruct (Z.gtb_spec (buffer_size rb - write_index rb) n).
  - rewrite memread_Some by lia. simpl. change (Z.to_nat 0) with 0%nat.
    rewrite drop_0, memcpy_at_Some by (rewrite ?length_take; lia).
    eexists. split; [done|].
    eapply written_one; [| |by apply memcpy_at_Some; rewrite ?length_take; lia];
      rewrite ?length_take; lia.
  - rewrite (memread_Some ptr 0) by lia. simpl. change (Z.to_nat 0) with 0%nat.
    rewrite drop_0, memcpy_at_Some by (rewrite ?length_take; lia). simpl.
    rewrite memread_Some by lia. simpl.
    rewrite memcpy_at_Some
      by (rewrite ?length_inserts, ?length_take, ?length_drop; lia).
    eexists. split; [done|].
    eapply written_two; [done| | | |apply memcpy_at_Some|apply memcpy_at_Some];
      rewrite ?length_inserts, ?length_take, ?length_drop; try lia.
    rewrite take_take_drop. f_equal. lia.
Qed.

(** [rt_ringbuffer_put] in terms of the common write. *)
Lemma put_spec rb ptr n :
  wf rb -> in_u 16 n -> n <= Z.of_nat (length ptr) ->
  exists rb', rt_ringbuffer_put rb ptr n
      = Some (rb', Z.min n (buffer_size rb - rt_ringbuffer_data_len rb)) /\
    wf rb' /\
    contents rb' = contents rb
      ++ take (Z.to_nat (Z.min n (buffer_size rb - rt_ringbuffer_data_len rb))) ptr.
Proof.
  intros Hw Hn Hp. unfold rt_ringbuffer_put. rewrite space_u16 by done.
  pose proof (data_len_range rb Hw) as Hdl. unfold in_u in Hn.
  destruct (Z.eqb_spec (buffer_size rb - rt_ringbuffer_data_len rb) 0) as [E|E].
  { exists rb. rewrite E, Z.min_r by lia. simpl. by rewrite app_nil_r. }
  set (m := Z.min n (buffer_size rb - rt_ringbuffer_data_len rb)).
  replace (if buffer_size rb - rt_ringbuffer_data_len rb <? n
           then buffer_size rb - rt_ringbuffer_data_len rb else n) with m
    by (unfold m; cmp_cases; lia).
  destruct (write_copies rb ptr m) as (buf & Hc & Hwr); [done|lia..|].
  destruct (wf_set_write rb buf m) as [Hw' Hl']; [done|apply Hwr|lia|].
  eexists. split; [|split; [exact Hw'|]].
  - unfold advance in *. destruct (_ >? m); simpl in *.
    + apply bind_Some in Hc as (d & -> & Hc). simpl. by rewrite Hc.
    + apply bind_Some in Hc as (d1 & -> & Hc). simpl.
      apply bind_Some in Hc as (b1 & -> & Hc). simpl.
      apply bind_Some in Hc as (d2 & -> & Hc). simpl.
      rewrite Hc. by destruct (write_mirror rb).
  - eapply append_contents; eauto. rewrite Hl', length_take. lia.
Qed.

(** ** Reading *)

Lemma wf_set_read rb n :
  wf rb -> 0 <= n <= rt_ringbuffer_data_len rb ->
  let flip := negb (buffer_size rb - read_index rb >? n) in
  let rb' := set_read rb (xorb flip (read_mirror rb))
               (advance (buffer_size rb) (read_index rb) n) in
  wf rb' /\ rt_ringbuffer_data_len rb' = rt_ringbuffer_data_len rb - n.
Proof.
  intros Hw Hn. simpl. rewrite data_len_spec in * by done.
  assert (wf (set_read rb
    (xorb (negb (buffer_size rb - read_index rb >? n)) (read_mirror rb))
    (advance (buffer_size rb) (read_index rb) n))) as Hw'.
  { destruct Hw as (? & ? & ? & ? & Hm). unfold wf, set_read, advance; simpl.
    destruct (read_mirror rb), (write_mirror rb); simpl in *;
      destruct (Z.gtb_spec (buffer_size rb - read_index rb) n); simpl;
      rewrite wrap_small by (unfold in_u; lia); lia. }
  split; [done|]. rewrite !data_len_spec by done.
  destruct Hw as (? & ? & ? & ? & Hm). unfold set_read, advance; simpl.
  destruct (read_mirror rb), (write_mirror rb); simpl in *;
    destruct (Z.gtb_spec (buffer_size rb - read_index rb) n); simpl;
    rewrite wrap_small by (unfold in_u; lia); lia.
Qed.

(** Dropping [n] bytes in front of the contents. *)
Lemma drop_contents rb rb' n :
  wf rb -> wf rb' -> 0 <= n <= rt_ringbuffer_data_len rb ->
  rt_ringbuffer_data_len rb' = rt_ringbuffer_data_len rb - n ->
  read_index rb' = (read_index rb + n) mod buffer_size rb ->
  buffer_size rb' = buffer_size rb -> buffer_ptr rb' = buffer_ptr rb ->
  contents rb' = drop (Z.to_nat n) (contents rb).
Proof.
  intros Hw Hw' Hn Hl Er Eb Ep. apply list_eq. intros k.
  pose proof (data_len_range rb Hw). pose proof (data_len_range rb' Hw').
  unfold contents. rewrite lookup_drop, !list_lookup_fmap.
  destruct (decide (Z.of_nat k < rt_ringbuffer_data_len rb')).
  - rewrite (proj2 (lookup_seqZ _ _ k (0 + Z.of_nat k))) by lia.
    rewrite (proj2 (lookup_seqZ _ _ (Z.to_nat n + k) (0 + Z.of_nat (Z.to_nat n + k)))) by lia.
    simpl. unfold nth_byte. rewrite Er, Eb, Ep, Zplus_mod_idemp_l.
    do 4 f_equal. lia.
  - rewrite !(lookup_ge_None_2 (seqZ _ _)) by (rewrite length_seqZ; lia). done.
Qed.

(** Reading [n] bytes at an offset of the contents through the pool. *)
Lemma memread_contents rb off n d :
  wf rb -> 0 <= off -> 0 <= n -> off + n <= rt_ringbuffer_data_len rb ->
  (read_index rb + off) mod buffer_size rb + n <= buffer_size rb ->
  memread (buffer_ptr rb) ((read_index rb + off) mod buffer_size rb) n = Some d ->
  d = take (Z.to_nat n) (drop (Z.to_nat off) (contents rb)).
Proof.
  intros Hw Hoff Hn Hle Hfit E. pose proof (data_len_range rb Hw).
  pose proof (memread_length _ _ _ _ E) as Hd.
  pose proof (Z.mod_pos_bound (read_index rb + off) (buffer_size rb)) as Hmb.
  destruct Hw as (? & ? & ? & ? & _).
  apply list_eq_same_length with (n := Z.to_nat n); [|lia|].
  { rewrite length_take, length_drop. unfold contents.
    rewrite length_fmap, length_seqZ. lia. }
  intros k x y Hk Hx. rewrite lookup_take_lt, lookup_drop by lia.
  unfold contents. rewrite list_lookup_fmap.
  rewrite (proj2 (lookup_seqZ _ _ _ (0 + Z.of_nat (Z.to_nat off + k)))) by lia.
  simpl. intros [= <-]. unfold nth_byte. rewrite Z.add_0_l.
  pose proof (memread_lookup _ _ _ _ (Z.of_nat k) E) as Hl.
  replace ((read_index rb + Z.of_nat (Z.to_nat off + k)) mod buffer_size rb)
    with ((read_index rb + off) mod buffer_size rb + Z.of_nat k).
  - rewrite <-Hl by lia. unfold zlookup. cmp_cases; [|lia].
    rewrite Nat2Z.id. by rewrite Hx.
  - rewrite Nat2Z.inj_add, Z2Nat.id, Z.add_assoc by lia.
    rewrite <-(Zplus_mod_idemp_l (_ + off)), (Z.mod_small (_ + Z.of_nat k)) by lia.
    done.
Qed.

Lemma get_spec rb n :
  wf rb -> in_u 16 n ->
  exists rb', rt_ringbuffer_get rb n
      = Some (rb', take (Z.to_nat (Z.min n (rt_ringbuffer_data_len rb))) (contents rb),
              Z.min n (rt_ringbuffer_data_len rb)) /\
    wf rb' /\
    contents rb' = drop (Z.to_nat (Z.min n (rt_ringbuffer_data_len rb))) (contents rb).
Proof.
  intros Hw Hn. unfold in_u in Hn. pose proof (data_len_range rb Hw) as Hdl.
  pose proof Hw as (Hs & Hp & Hr & _). unfold rt_ringbuffer_get.
  destruct (Z.eqb_spec (rt_ringbuffer_data_len rb) 0) as [E|E].
  { exists rb. rewrite E, Z.min_r by lia. simpl. done. }
  set (m := Z.min n (rt_ringbuffer_data_len rb)).
  replace (if rt_ringbuffer_data_len rb <? n
           then u16 (rt_ringbuffer_data_len rb) else n) with m
    by (rewrite wrap_small by (unfold in_u; lia); unfold m; cmp_cases; lia).
  destruct (wf_set_read rb m) as [Hw' Hl']; [done|lia|].
  eexists. split; [|split; [exact Hw'|]].
  - unfold advance. destruct (Z.gtb_spec (buffer_size rb - read_index rb) m).
    + rewrite memread_Some by lia. simpl. do 3 f_equal.
      rewrite (memread_contents rb 0 m (take (Z.to_nat m)
        (drop (Z.to_nat (read_index rb)) (buffer_ptr rb)))); [|done|lia..| |].
      * done.
      * rewrite Z.add_0_r, Z.mod_small; lia.
      * rewrite Z.add_0_r, Z.mod_small by lia. apply memread_Some; lia.
    + set (f := buffer_size rb - read_index rb) in *.
      rewrite (memread_Some _ (read_index rb)), (memread_Some _ 0) by lia.
      simpl. do 3 f_equal.
      rewrite (memread_contents rb 0 f (take (Z.to_nat f)
        (drop (Z.to_nat (read_index rb)) (buffer_ptr rb)))); [|done|lia..| |].
      2:{ rewrite Z.add_0_r, Z.mod_small; lia. }
      2:{ rewrite Z.add_0_r, Z.mod_small by lia. apply memread_Some; lia. }
      assert ((read_index rb + f) mod buffer_size rb = 0) as Ef.
      { replace (read_index rb + f) with (0 + 1 * buffer_size rb) by lia.
        rewrite Z.mod_add by lia. apply Z.mod_0_l. lia. }
      rewrite (memread_contents rb f (m - f)
        (take (Z.to_nat (m - f)) (drop (Z.to_nat 0) (buffer_ptr rb)))); [|done|lia..|].
      2:{ rewrite Ef. apply memread_Some; lia. }
      change (Z.to_nat 0) with 0%nat. rewrite drop_0, take_take_drop. f_equal. lia.
  - eapply drop_contents; eauto; [lia|]. simpl. unfold advance.
    rewrite wrap_small.
    + rewrite <-advance_mod by lia. done.
    + unfold in_u. cmp_cases; destruct (Z.gtb_spec (buffer_size rb - read_index rb) m); lia.
Qed.

(** One character is the one-byte case of the block operations. *)
Lemma putchar_put rb ch :
  wf rb -> rt_ringbuffer_putchar rb ch = rt_ringbuffer_put rb [ch] 1.
Proof.
  intros Hw. pose proof (data_len_range rb Hw). unfold rt_ringbuffer_putchar, rt_ringbuffer_put.
  rewrite space_u16 by done. unfold rt_ringbuffer_space_len.
  destruct (Z.eqb_spec (buffer_size rb - rt_ringbuffer_data_len rb) 0); [done|].
  pose proof Hw as (? & ? & ? & ? & _).
  destruct (Z.ltb_spec (buffer_size rb - rt_ringbuffer_data_len rb) 1); [lia|].
  destruct (Z.eqb_spec (write_index rb) (buffer_size rb - 1)) as [E|],
    (Z.gtb_spec (buffer_size rb - write_index rb) 1); try lia.
  - rewrite E. replace (buffer_size rb - (buffer_size rb - 1)) with 1 by lia.
    simpl. rewrite (memcpy_at_Some (buffer_ptr rb)) by (simpl; lia). simpl.
    rewrite memcpy_at_Some by (simpl; lia). simpl. done.
  - simpl. done.
Qed.

Lemma getchar_get rb :
  wf rb ->
  rt_ringbuffer_getchar rb =
    ('(rb', d, n) ← rt_ringbuffer_get rb 1; Some (rb', head d, n)).
Proof.
  intros Hw. pose proof (data_len_range rb Hw).
  unfold rt_ringbuffer_getchar, rt_ringbuffer_get.
  destruct (Z.eqb_spec (rt_ringbuffer_data_len rb) 0); [done|].
  pose proof Hw as (? & ? & ? & ? & _).
  destruct (Z.ltb_spec (rt_ringbuffer_data_len rb) 1); [lia|].
  destruct (zlookup_is_Some (buffer_ptr rb) (read_index rb)) as [c Hc]; [lia|].
  rewrite Hc. simpl. unfold zlookup in Hc. destruct (Z.leb_spec 0 (read_index rb)); [|lia].
  destruct (Z.eqb_spec (read_index rb) (buffer_size rb - 1)) as [E|],
    (Z.gtb_spec (buffer_size rb - read_index rb) 1); try lia.
  - replace (buffer_size rb - read_index rb) with 1 by lia.
    rewrite !memread_Some by lia. simpl. rewrite app_nil_r.
    change (Z.to_nat 1) with 1%nat. by erewrite drop_S by done.
  - rewrite memread_Some by lia. simpl.
    change (Z.to_nat 1) with 1%nat. by erewrite drop_S by done.
Qed.

(** ** Forced writes *)

Lemma status_full rb :
  wf rb -> rt_ringbuffer_status rb = RT_RINGBUFFER_FULL <->
           rt_ringbuffer_data_len rb = buffer_size rb.
Proof.
  intros Hw. rewrite data_len_spec by done. unfold rt_ringbuffer_status.
  destruct Hw as (? & ? & ? & ? & Hm).
  destruct (Z.eqb_spec (read_index rb) (write_index rb)), (eqb _ _);
    split; try done; lia.
Qed.

(** The forced write as one case distinction over the common write. *)
Lemma put_force_unfold rb ptr n :
  wf rb -> in_u 16 n -> Z.min n (buffer_size rb) <= Z.of_nat (length ptr) ->
  let m := Z.min n (buffer_size rb) in
  exists buf,
    written (buffer_ptr rb) buf (buffer_size rb) (write_index rb) (take (Z.to_nat m) ptr) /\
    let flip := negb (buffer_size rb - write_index rb >? m) in
    let rb1 := set_write rb buf (xorb flip (write_mirror rb))
                 (advance (buffer_size rb) (write_index rb) m) in
    rt_ringbuffer_put_force rb ptr n =
      Some (if decide (rt_ringbuffer_status rb = RT_RINGBUFFER_FULL)
            then set_read rb1 (xorb flip (read_mirror rb)) (write_index rb1)
            else rb1, m).
Proof.
  intros Hw Hn Hp. simpl. set (m := Z.min n (buffer_size rb)). unfold in_u in Hn.
  pose proof Hw as (? & _).
  destruct (write_copies rb ptr m) as (buf & Hc & Hwr); [done|lia..|].
  exists buf. split; [done|]. unfold rt_ringbuffer_put_force.
  replace (if n >? buffer_size rb then u16 (buffer_size rb) else n) with m
    by (rewrite wrap_small by (unfold in_u; lia); unfold m;
        destruct (Z.gtb_spec n (buffer_size rb)); lia).
  unfold advance. destruct (_ >? m); simpl in *.
  - apply bind_Some in Hc as (d & -> & Hc). simpl. rewrite Hc. done.
  - apply bind_Some in Hc as (d1 & -> & Hc). simpl.
    apply bind_Some in Hc as (b1 & -> & Hc). simpl.
    apply bind_Some in Hc as (d2 & -> & Hc). simpl. rewrite Hc. done.
Qed.

(** A forced write into a full buffer drops as many of the oldest bytes as it
    writes. *)
Lemma put_force_full rb ptr n :
  wf rb -> in_u 16 n -> Z.min n (buffer_size rb) <= Z.of_nat (length ptr) ->
  rt_ringbuffer_status rb = RT_RINGBUFFER_FULL ->
  exists rb', rt_ringbuffer_put_force rb ptr n = Some (rb', Z.min n (buffer_size rb)) /\
    wf rb' /\
    contents rb' = drop (Z.to_nat (Z.min n (buffer_size rb))) (contents rb)
      ++ take (Z.to_nat (Z.min n (buffer_size rb))) ptr.
Proof.
  intros Hw Hn Hp Hf.
  destruct (put_force_unfold rb ptr n) as (buf & Hwr & ->); [done..|].
  rewrite decide_True by done. set (m := Z.min n (buffer_size rb)) in *.
  pose proof (proj1 (status_full rb Hw) Hf) as Hd. unfold in_u in Hn.
  pose proof Hw as (Hs & Hl & Hr & Hwi & _).
  assert (write_index rb = read_index rb) as Ei.
  { revert Hf. unfold rt_ringbuffer_status. cmp_cases; done. }
  destruct (wf_set_read rb m) as [Hw1 Hl1]; [done|lia|].
  rewrite <-Ei in Hw1, Hl1. simpl in Hw1, Hl1.
  set (rb1 := set_read rb _ _) in Hw1, Hl1.
  assert (contents rb1 = drop (Z.to_nat m) (contents rb)) as Hc1.
  { apply drop_contents; try done; [lia|]. simpl.
    rewrite wrap_small.
    - rewrite advance_mod by lia. by rewrite Ei.
    - unfold in_u, advance. destruct (_ >? m) eqn:?; lia. }
  destruct (wf_set_write rb1 buf m) as [Hw2 Hl2]; [done|apply Hwr|simpl; lia|].
  simpl in Hw2, Hl2. eexists. split; [done|].
  match goal with |- wf ?x /\ _ => match type of Hw2 with wf ?y =>
    assert (x = y) as -> end end.
  { unfold set_write, set_read; simpl. rewrite wrap_idem by lia. done. }
  split; [done|]. rewrite <-Hc1. apply append_contents; try done.
  rewrite Hl2, length_take. lia.
Qed.

(** A forced write that fits is an ordinary write. *)
Lemma put_force_fits rb ptr n :
  wf rb -> in_u 16 n -> n <= Z.of_nat (length ptr) ->
  rt_ringbuffer_status rb <> RT_RINGBUFFER_FULL ->
  n <= buffer_size rb - rt_ringbuffer_data_len rb ->
  exists rb', rt_ringbuffer_put_force rb ptr n = Some (rb', n) /\ wf rb' /\
    contents rb' = contents rb ++ take (Z.to_nat n) ptr.
Proof.
  intros Hw Hn Hp Hf Hle. pose proof (data_len_range rb Hw).
  destruct (put_force_unfold rb ptr n) as (buf & Hwr & ->); [done|done|lia|].
  rewrite decide_False by done. rewrite Z.min_l in * by lia. unfold in_u in Hn.
  destruct (wf_set_write rb buf n) as [Hw' Hl']; [done|apply Hwr|lia|].
  eexists. split; [done|]. split; [exact Hw'|].
  apply append_contents; try done. rewrite Hl', length_take. lia.
Qed.

Lemma putchar_force_put_force rb ch :
  wf rb -> rt_ringbuffer_putchar_force rb ch = rt_ringbuffer_put_force rb [ch] 1.
Proof.
  intros (? & ? & ? & ? & _). unfold rt_ringbuffer_putchar_force, rt_ringbuffer_put_force.
  destruct (Z.gtb_spec 1 (buffer_size rb)); [lia|].
  destruct (Z.eqb_spec (write_index rb) (buffer_size rb - 1)) as [E|],
    (Z.gtb_spec (buffer_size rb - write_index rb) 1); try lia.
  - rewrite E. replace (buffer_size rb - (buffer_size rb - 1)) with 1 by lia.
    simpl. rewrite (memcpy_at_Some (buffer_ptr rb)) by (simpl; lia). simpl.
    rewrite memcpy_at_Some by (simpl; lia). simpl. done.
  - simpl. done.
Qed.

(** ** The contract: a bounded FIFO queue of bytes *)

Inductive op :=
  | Put (d : list Z)
  | Get (n : Z)
  | Putchar (c : Z)
  | Getchar.

(** The queue that the ring buffer promises, with room for [cap] bytes: a
    put accepts as many bytes as there is room for, a get returns the oldest
    bytes; both report the number of bytes moved. *)
Definition queue_step (cap : Z) (q : list Z) (o : op) : list Z * (list Z * Z) :=
  let put d := let n := Z.min (Z.of_nat (length d)) (cap - Z.of_nat (length q)) in
               (q ++ take (Z.to_nat n) d, ([], n)) in
  let get n := let m := Z.min n (Z.of_nat (length q)) in
               (drop (Z.to_nat m) q, (take (Z.to_nat m) q, m)) in
  match o with
  | Put d => put d
  | Get n => get n
  | Putchar c => put [c]
  | Getchar => get 1
  end.

Definition rb_step (rb : rt_ringbuffer) (o : op) : option (rt_ringbuffer * (list Z * Z)) :=
  match o with
  | Put d => '(rb, n) ← rt_ringbuffer_put rb d (Z.of_nat (length d)); Some (rb, ([], n))
  | Get n => '(rb, d, n) ← rt_ringbuffer_get rb n; Some (rb, (d, n))
  | Putchar c => '(rb, n) ← rt_ringbuffer_putchar rb c; Some (rb, ([], n))
  | Getchar => '(rb, c, n) ← rt_ringbuffer_getchar rb; Some (rb, (option_list c, n))
  end.

(** The length arguments are 16-bit integers. *)
Definition op_ok (o : op) : Prop :=
  match o with
  | Put d => Z.of_nat (length d) < 2 ^ 16
  | Get n => in_u 16 n
  | _ => True
  end.

Fixpoint queue_run (cap : Z) (q : list Z) (os : list op) : list Z * list (list Z * Z) :=
  match os with
  | [] => (q, [])
  | o :: os => let '(q, r) := queue_step cap q o in
               let '(q, rs) := queue_run cap q os in (q, r :: rs)
  end.

Fixpoint rb_run (rb : rt_ringbuffer) (os : list op) : option (rt_ringbuffer * list (list Z * Z)) :=
  match os with
  | [] => Some (rb, [])
  | o :: os => '(rb, r) ← rb_step rb o;
               '(rb, rs) ← rb_run rb os; Some (rb, r :: rs)
  end.

Lemma buffer_size_put rb ptr n rb' r :
  rt_ringbuffer_put rb ptr n = Some (rb', r) -> buffer_size rb' = buffer_size rb.
Proof.
  unfold rt_ringbuffer_put.
  repeat (case_match; simpl; try (intros; simplify_eq/=; done));
    intros H'; repeat (apply bind_Some in H' as (? & _ & H')); by simplify_eq/=.
Qed.

Lemma buffer_size_get rb n rb' d r :
  rt_ringbuffer_get rb n = Some (rb', d, r) -> buffer_size rb' = buffer_size rb.
Proof.
  unfold rt_ringbuffer_get.
  repeat (case_match; simpl; try (intros; simplify_eq/=; done));
    intros H'; repeat (apply bind_Some in H' as (? & _ & H')); by simplify_eq/=.
Qed.

Lemma option_list_head_take1 (l : list Z) : option_list (head (take 1 l)) = take 1 l.
Proof. by destruct l. Qed.

Lemma rb_step_refines rb o :
  wf rb -> op_ok o ->
  exists rb' r, rb_step rb o = Some (rb', r) /\ wf rb' /\
    buffer_size rb' = buffer_size rb /\
    queue_step (buffer_size rb) (contents rb) o = (contents rb', r).
Proof.
  intros Hw Ho. pose proof (length_contents rb Hw) as Hlc.
  destruct o as [d|n|c|]; simpl in Ho |- *; rewrite Hlc.
  - destruct (put_spec rb d (Z.of_nat (length d))) as (rb' & E & ? & Ec);
      [done|unfold in_u; lia|lia|].
    rewrite E. simpl. eexists _, _. split_and!; [done..| |by rewrite Ec].
    by eapply buffer_size_put.
  - destruct (get_spec rb n) as (rb' & E & ? & Ec); [done..|].
    rewrite E. simpl. eexists _, _. split_and!; [done..| |by rewrite Ec].
    by eapply buffer_size_get.
  - rewrite putchar_put by done.
    destruct (put_spec rb [c] 1) as (rb' & E & ? & Ec); [done|done|done|].
    rewrite E. simpl. eexists _, _. split_and!; [done..| |by rewrite Ec].
    by eapply buffer_size_put.
  - rewrite getchar_get by done.
    destruct (get_spec rb 1) as (rb' & E & ? & Ec); [done..|].
    rewrite E. simpl. eexists _, _. split_and!; [done|done| |].
    { by eapply buffer_size_get. }
    rewrite Ec. do 2 f_equal.
    pose proof (data_len_range rb Hw).
    destruct (decide (rt_ringbuffer_data_len rb = 0)) as [->|].
    { rewrite Z.min_r by lia. done. }
    rewrite Z.min_l by lia. change (Z.to_nat 1) with 1%nat.
    by rewrite option_list_head_take1.
Qed.

(** Every sequence of put, get, putchar and getchar calls behaves as on a
    bounded FIFO queue of [buffer_size] bytes: no call touches memory outside
    of the pool, the invariant is kept, and each call returns exactly the
    bytes and the count that the abstract queue returns. *)
Theorem ringbuffer_refines_queue rb os :
  wf rb -> Forall op_ok os ->
  exists rb' rs, rb_run rb os = Some (rb', rs) /\ wf rb' /\
    queue_run (buffer_size rb) (contents rb) os = (contents rb', rs).
Proof.
  intros Hw Hos. revert rb Hw. induction Hos as [|o os Ho Hos IH]; intros rb Hw; simpl.
  { by eexists _, _. }
  destruct (rb_step_refines rb o) as (rb1 & r & -> & Hw1 & Es & ->); [done..|].
  destruct (IH rb1 Hw1) as (rb2 & rs & Er & Hw2 & Eq). simpl. rewrite Er. simpl.
  rewrite Es in Eq. rewrite Eq. by eexists _, _.
Qed.

Lemma ringbuffer_refines_queue_witness :
  let rb := RingBuffer [9; 9; 9; 9] false 0 false 0 4 in
  let os := [Put [1; 2; 3]; Getchar; Put [4; 5; 6]; Get 9] in
  (exists rb' rs, rb_run rb os = Some (rb', rs) /\ wf rb' /\
    queue_run (buffer_size rb) (contents rb) os = (contents rb', rs)) /\
  (queue_run 4 [] os).2 = [([], 3); ([1], 1); ([], 2); ([2; 3; 4; 5], 4)].
Proof.
  split; [|by vm_compute].
  apply (ringbuffer_refines_queue (RingBuffer [9; 9; 9; 9] false 0 false 0 4)).
  - unfold wf; simpl; lia.
  - repeat constructor; unfold op_ok, in_u; simpl; lia.
Defined.

(** [rt_ringbuffer_init] gives an empty, well-formed buffer of the aligned
    size when the size is at least four bytes and the pool is large enough. *)
Theorem ringbuffer_init_empty pool size :
  RT_ALIGN_SIZE <= size < 2 ^ 15 -> size <= Z.of_nat (length pool) ->
  exists rb, rt_ringbuffer_init pool size = Some rb /\ wf rb /\ contents rb = [] /\
    buffer_size rb = size - size mod 4.
Proof.
  unfold RT_ALIGN_SIZE, rt_ringbuffer_init. intros Hs Hp.
  destruct (Z.ltb_spec 0 size); [|lia]. rewrite RT_ALIGN_DOWN_4 by lia.
  pose proof (Z.mod_pos_bound size 4). pose proof (Z.mod_le size 4).
  eexists. split_and!; [done|unfold wf; simpl|done|done].
  assert (size mod 4 < size). { Z.div_mod_to_equations. lia. }
  lia.
Qed.

Lemma ringbuffer_init_empty_witness :
  exists rb, rt_ringbuffer_init [0; 0; 0; 0; 0; 0] 6 = Some rb /\ wf rb /\
    contents rb = [] /\ buffer_size rb = 6 - 6 mod 4.
Proof. apply (ringbuffer_init_empty [0; 0; 0; 0; 0; 0] 6); simpl; unfold RT_ALIGN_SIZE; lia. Defined.

(** [rt_ringbuffer_putchar_force] never fails: the character becomes the
    newest of the queue, and only when the buffer was full the oldest byte is
    discarded. *)
Theorem putchar_force_spec rb ch :
  wf rb ->
  exists rb', rt_ringbuffer_putchar_force rb ch = Some (rb', 1) /\ wf rb' /\
    contents rb' =
      (if decide (rt_ringbuffer_status rb = RT_RINGBUFFER_FULL)
       then tail (contents rb) else contents rb) ++ [ch].
Proof.
  intros Hw. rewrite putchar_force_put_force by done.
  pose proof (data_len_range rb Hw). pose proof Hw as (? & _).
  case_decide as Hf.
  - destruct (put_force_full rb [ch] 1) as (rb' & -> & ? & Hc); [done|done|simpl; lia|done|].
    rewrite Z.min_l in * by lia. eexists. split_and!; [done..|].
    rewrite Hc. change (Z.to_nat 1) with 1%nat. simpl. by destruct (contents rb).
  - assert (rt_ringbuffer_data_len rb <> buffer_size rb) by by rewrite <-status_full.
    destruct (put_force_fits rb [ch] 1) as (rb' & -> & ? & Hc); [done|done|done|done|lia|].
    eexists. split_and!; [done..|]. by rewrite Hc.
Qed.

Lemma putchar_force_spec_witness :
  exists rb', rt_ringbuffer_putchar_force (RingBuffer [1; 2; 3; 4] false 1 true 1 4) 7
      = Some (rb', 1) /\ wf rb' /\ contents rb' = [3; 4; 1; 7].
Proof.
  destruct (putchar_force_spec (RingBuffer [1; 2; 3; 4] false 1 true 1 4) 7)
    as (rb' & E & Hw & Hc); [unfold wf; simpl; lia|].
  exists rb'. split; [exact E|]. split; [exact Hw|]. rewrite Hc. by vm_compute.
Defined.

(** A forced block write into a buffer that is neither full nor has room
    for the block leaves the reader behind: the mirror invariant is broken and
    the buffer reports only the bytes by which the write overran the free
    space, instead of the newest [buffer_size] bytes. *)
Theorem put_force_overrun rb ptr n :
  wf rb -> in_u 16 n -> Z.min n (buffer_size rb) <= Z.of_nat (length ptr) ->
  rt_ringbuffer_status rb <> RT_RINGBUFFER_FULL ->
  buffer_size rb - rt_ringbuffer_data_len rb < Z.min n (buffer_size rb) ->
  exists rb', rt_ringbuffer_put_force rb ptr n = Some (rb', Z.min n (buffer_size rb)) /\
    (~ wf rb') /\
    rt_ringbuffer_data_len rb' =
      rt_ringbuffer_data_len rb + Z.min n (buffer_size rb) - buffer_size rb.
Proof.
  intros Hw Hn Hp Hf Hlt.
  assert (rt_ringbuffer_data_len rb <> buffer_size rb) by by rewrite <-status_full.
  pose proof (data_len_range rb Hw) as Hr.
  destruct (put_force_unfold rb ptr n) as (buf & (Hlb & _) & ->); [done..|].
  rewrite decide_False by done. set (m := Z.min n (buffer_size rb)) in *.
  eexists. split; [done|]. rewrite data_len_spec in * by done.
  unfold in_u in Hn. destruct Hw as (? & ? & ? & ? & Hm).
  unfold wf, rt_ringbuffer_data_len, rt_ringbuffer_status, set_write, advance; simpl.
  destruct (read_mirror rb), (write_mirror rb); simpl in *;
    destruct (Z.gtb_spec (buffer_size rb - write_index rb) m); simpl;
    rewrite (wrap_small 15) by (unfold in_u; lia); (split; [lia|]);
    cmp_cases; try lia; rewrite !wrap_small by (unfold in_u; lia); lia.
Qed.

Lemma put_force_overrun_witness :
  let rb := RingBuffer [1; 2; 3; 4; 5; 6; 7; 8] false 2 false 4 8 in
  exists rb', rt_ringbuffer_put_force rb [10; 11; 12; 13; 14; 15; 16; 17] 8 = Some (rb', 8) /\
    (~ wf rb') /\ rt_ringbuffer_data_len rb' = 2.
Proof.
  apply (put_force_overrun (RingBuffer [1; 2; 3; 4; 5; 6; 7; 8] false 2 false 4 8)
           [10; 11; 12; 13; 14; 15; 16; 17] 8);
    [unfold wf; simpl; lia|unfold in_u; lia|simpl; lia|by vm_compute|by vm_compute].
Defined.

End RingBuffer.
