(* ===== verification/KString.v ===== *)
(** * String and memory routines of src/kservice.c

    A C string or memory region is the sequence of its bytes from the pointer
    on, as integers 0..255; reading past the end of the region is [None]. *)

From S2P Require Import Prelude.

Module KString.

(** ** The routines *)

Fixpoint rt_strlen (s : list Z) : option Z :=
  match s with
  | [] => None
  | c :: s' => if c =? 0 then Some 0 else n ← rt_strlen s'; Some (n + 1)
  end.

(** The [n] bytes that [rt_strncpy] writes at [dst]. *)
Fixpoint rt_strncpy (src : list Z) (n : nat) {struct n} : option (list Z) :=
  match n with
  | O => Some []
  | S n' =>
      match src with
      | [] => None
      | c :: src' =>
          if c =? 0 then Some (0 :: replicate n' 0)
          else d ← rt_strncpy src' n'; Some (c :: d)
      end
  end.

(** [__res] is a [signed char]. *)
Fixpoint rt_strncmp (cs ct : list Z) (count : nat) {struct count} : option Z :=
  match count with
  | O => Some 0
  | S count' =>
      match cs, ct with
      | c :: cs', d :: ct' =>
          let __res := i8 (c - d) in
          if truthy __res then Some __res
          else if negb (truthy c) then Some __res
          else rt_strncmp cs' ct' count'
      | _, _ => None
      end
  end.

Fixpoint rt_strcmp (cs ct : list Z) : option Z :=
  match cs, ct with
  | c :: cs', d :: ct' =>
      if truthy c && (c =? d) then rt_strcmp cs' ct' else Some (c - d)
  | _, _ => None
  end.

Fixpoint rt_memcmp (cs ct : list Z) (count : nat) {struct count} : option Z :=
  match count with
  | O => Some 0
  | S count' =>
      match cs, ct with
      | c :: cs', d :: ct' =>
          if truthy (c - d) then Some (c - d) else rt_memcmp cs' ct' count'
      | _, _ => None
      end
  end.

Definition tolower (c : Z) : Z := if (65 <=? c) && (c <=? 90) then c + 32 else c.

Fixpoint rt_strcasecmp (a b : list Z) : option Z :=
  match a, b with
  | x :: a', y :: b' =>
      let ca := tolower (x &. 0xff) in
      let cb := tolower (y &. 0xff) in
      if (ca =? cb) && truthy ca then rt_strcasecmp a' b' else Some (ca - cb)
  | _, _ => None
  end.

(** The loop of [rt_strstr]: the offset of the occurrence, counted from [s1]. *)
Fixpoint rt_strstr_loop (s1 s2 : list Z) (l1 l2 : Z) (off : Z) : option (option Z) :=
  if l1 <? l2 then Some None
  else r ← rt_memcmp s1 s2 (Z.to_nat l2);
       if negb (truthy r) then Some (Some off)
       else match s1 with
            | [] => None
            | _ :: s1' => rt_strstr_loop s1' s2 (l1 - 1) l2 (off + 1)
            end.

Definition rt_strstr (s1 s2 : list Z) : option (option Z) :=
  l2 ← rt_strlen s2;
  if negb (truthy l2) then Some (Some 0)
  else l1 ← rt_strlen s1; rt_strstr_loop s1 s2 l1 l2 0.

(** ** C strings *)

(** [cstr s m]: the region [m] starts with the string [s] and its NUL. *)
Definition cstr (s m : list Z) : Prop :=
  Forall (fun c => 0 < c < 256) s /\ exists rest, m = s ++ 0 :: rest.

Lemma cstr_cons c s m : cstr (c :: s) m -> 0 < c < 256 /\ exists m', m = c :: m' /\ cstr s m'.
Proof.
  intros [[? ?]%Forall_cons (rest & ->)]. split; [done|].
  eexists. split; [done|]. split; [done|]. by eexists.
Qed.

Lemma cstr_nil m : cstr [] m -> exists rest, m = 0 :: rest.
Proof. by intros [_ ?]. Qed.

Lemma strlen_cstr s m : cstr s m -> rt_strlen m = Some (Z.of_nat (length s)).
Proof.
  revert m. induction s as [|c s IH]; intros m H.
  - by destruct (cstr_nil m H) as [? ->].
  - destruct (cstr_cons _ _ _ H) as (? & m' & -> & H'). simpl.
    destruct (Z.eqb_spec c 0); [lia|]. rewrite (IH _ H'). simpl. f_equal. lia.
Qed.

Lemma strncpy_cstr s m n :
  cstr s m -> rt_strncpy m n = Some (take n (s ++ replicate n 0)).
Proof.
  revert m n. induction s as [|c s IH]; intros m [|n] H; try done.
  - destruct (cstr_nil m H) as [? ->]. cbn. do 2 f_equal.
    by rewrite take_ge by (by rewrite length_replicate).
  - destruct (cstr_cons _ _ _ H) as (? & m' & -> & H'). simpl.
    destruct (Z.eqb_spec c 0); [lia|]. rewrite (IH _ _ H'). simpl. do 2 f_equal.
    rewrite replicate_cons_app, (assoc_L (++)). symmetry. apply take_app_le.
    rewrite length_app, length_replicate. lia.
Qed.

Lemma strncpy_length m n d : rt_strncpy m n = Some d -> length d = n.
Proof.
  revert m d. induction n as [|n IH]; intros [|c m] d; simpl; try by intros [= <-].
  destruct (Z.eqb_spec c 0). { intros [= <-]. simpl. by rewrite length_replicate. }
  destruct (rt_strncpy m n) as [d'|] eqn:E; simpl; [|done]. intros [= <-]. simpl.
  f_equal. by eapply IH.
Qed.

Lemma i8_diff c d : 0 <= c < 256 -> 0 <= d < 256 -> i8 (c - d) = 0 <-> c = d.
Proof.
  intros. unfold swrap. change (2 ^ (8 - 1)) with 128. change (2 ^ 8) with 256.
  pose proof (Z.div_mod (c - d + 128) 256). pose proof (Z.mod_pos_bound (c - d + 128) 256).
  lia.
Qed.

(** Comparing a name padded to [n] bytes with a string. *)
Lemma strncmp_padded s1 s2 m n :
  Forall (fun c => 0 < c < 256) s1 -> cstr s2 m ->
  exists r, rt_strncmp (take n (s1 ++ replicate n 0)) m n = Some r /\
    (r = 0 <-> take n s1 = take n s2).
Proof.
  revert s1 s2 m. induction n as [|n IH]; intros s1 s2 m H1 H2; [by exists 0|].
  destruct s1 as [|c s1].
  - destruct s2 as [|d s2].
    + destruct (cstr_nil m H2) as [rest ->]. by exists 0.
    + destruct (cstr_cons _ _ _ H2) as (? & m' & -> & _). simpl.
      pose proof (i8_diff 0 d ltac:(lia) ltac:(lia)) as Hd. unfold truthy.
      destruct (Z.eqb_spec (i8 (0 - d)) 0); [lia|]. simpl. eexists. split; [done|].
      split; [lia|done].
  - apply Forall_cons in H1 as [Hc H1]. simpl. destruct s2 as [|d s2].
    + destruct (cstr_nil m H2) as [rest ->].
      pose proof (i8_diff c 0 ltac:(lia) ltac:(lia)) as Hd. unfold truthy.
      destruct (Z.eqb_spec (i8 (c - 0)) 0); [lia|]. simpl. eexists. split; [done|].
      split; [lia|done].
    + destruct (cstr_cons _ _ _ H2) as (? & m' & -> & H2').
      pose proof (i8_diff c d ltac:(lia) ltac:(lia)) as Hd. unfold truthy.
      destruct (Z.eqb_spec (i8 (c - d)) 0) as [E|E]; simpl.
      * destruct (Z.eqb_spec c 0); [lia|]. simpl.
        destruct (IH s1 s2 m' H1 H2') as (r & Er & Hr). exists r. split.
        { rewrite <-Er. f_equal. rewrite replicate_cons_app, (assoc_L (++)).
          apply take_app_le. rewrite length_app, length_replicate. lia. }
        rewrite Hr. apply Hd in E. subst. split; congruence.
      * eexists. split; [done|]. split; [done|]. intros [= -> _]. lia.
Qed.

(** Object names: a name copied with [rt_strncpy] into the fixed-size name field and
    compared with [rt_strncmp] against a string is found equal exactly when the
    two strings agree on their first [n] characters; neither routine reads past
    the terminating NUL. *)
Theorem name_roundtrip s1 m1 s2 m2 n :
  cstr s1 m1 -> cstr s2 m2 ->
  exists name r, rt_strncpy m1 n = Some name /\ length name = n /\
    rt_strncmp name m2 n = Some r /\ (r = 0 <-> take n s1 = take n s2).
Proof.
  intros H1 H2. destruct (strncmp_padded s1 s2 m2 n) as (r & Er & Hr); [apply H1|done|].
  exists (take n (s1 ++ replicate n 0)), r.
  pose proof (strncpy_cstr s1 m1 n H1) as E. pose proof (strncpy_length _ _ _ E).
  done.
Qed.

Lemma name_roundtrip_witness :
  cstr [101; 48] [101; 48; 0] /\ cstr [101; 49] [101; 49; 0] /\
  exists name r, rt_strncpy [101; 48; 0] 8 = Some name /\
    rt_strncmp name [101; 49; 0] 8 = Some r /\ r <> 0.
Proof.
  assert (cstr [101; 48] [101; 48; 0]) as H1.
  { split; [repeat constructor|by exists []]. }
  assert (cstr [101; 49] [101; 49; 0]) as H2.
  { split; [repeat constructor|by exists []]. }
  split; [exact H1|]. split; [exact H2|].
  destruct (name_roundtrip _ _ _ _ 8 H1 H2) as (name & r & E1 & _ & E2 & Hr).
  exists name, r. split; [exact E1|]. split; [exact E2|]. intros E. by apply Hr in E.
Defined.

(** ** Sub-string search *)

Lemma memcmp_prefix s1 s2 m1 m2 n :
  n = length s2 -> cstr s1 m1 -> cstr s2 m2 -> (n <= length s1)%nat ->
  exists r, rt_memcmp m1 m2 n = Some r /\ (r = 0 <-> s2 `prefix_of` s1).
Proof.
  intros ->. revert s1 m1 m2. induction s2 as [|d s2 IH]; intros s1 m1 m2 H1 H2 Hn.
  { exists 0. split; [done|]. split; [|done]. intros _. apply prefix_nil. }
  destruct s1 as [|c s1]; [simpl in Hn; lia|].
  destruct (cstr_cons _ _ _ H1) as (? & m1' & -> & H1').
  destruct (cstr_cons _ _ _ H2) as (? & m2' & -> & H2'). simpl. unfold truthy.
  destruct (Z.eqb_spec (c - d) 0) as [E|E]; simpl.
  - destruct (IH s1 m1' m2' H1' H2') as (r & -> & Hr); [simpl in Hn; lia|].
    exists r. split; [done|]. rewrite Hr. assert (c = d) as -> by lia.
    split; [apply prefix_cons|apply prefix_cons_inv_2].
  - eexists. split; [done|]. split; [lia|]. intros ?%prefix_cons_inv_1. lia.
Qed.

(** [i] is the first position of [s2] in [s1]. *)
Definition first_occurrence (s1 s2 : list Z) (i : nat) : Prop :=
  s2 `prefix_of` drop i s1 /\ forall j, (j < i)%nat -> ~ s2 `prefix_of` drop j s1.

Lemma strstr_loop_spec s1 s2 m1 m2 off :
  cstr s1 m1 -> cstr s2 m2 -> s2 <> [] ->
  exists r, rt_strstr_loop m1 m2 (Z.of_nat (length s1)) (Z.of_nat (length s2)) off = Some r /\
    match r with
    | Some i => off <= i /\ first_occurrence s1 s2 (Z.to_nat (i - off))
    | None => forall j, ~ s2 `prefix_of` drop j s1
    end.
Proof.
  revert m1 off. induction s1 as [|c s1 IH]; intros m1 off H1 H2 Hne.
  - destruct (cstr_nil m1 H1) as [rest ->]. simpl.
    destruct (Z.ltb_spec (Z.of_nat 0) (Z.of_nat (length s2))) as [|Hl].
    2:{ destruct s2; [done|simpl in Hl; lia]. }
    exists None. split; [done|]. intros j. rewrite drop_nil. by intros ->%prefix_nil_inv.
  - destruct (cstr_cons _ _ _ H1) as (? & m1' & -> & H1').
    cbn [rt_strstr_loop]. destruct (Z.ltb_spec (Z.of_nat (length (c :: s1))) (Z.of_nat (length s2))) as [Hlt|Hge].
    { exists None. split; [done|]. intros j Hp%prefix_length.
      rewrite length_drop in Hp. lia. }
    destruct (memcmp_prefix (c :: s1) s2 (c :: m1') m2 (Z.to_nat (Z.of_nat (length s2))))
      as (r & -> & Hr); [lia|done|done|lia|]. cbn [mbind option_bind]. unfold truthy.
    destruct (Z.eqb_spec r 0) as [E|E]; cbn [negb].
    { exists (Some off). split; [done|]. split; [lia|]. rewrite Z.sub_diag.
      split; [by apply Hr|]. intros j. change (Z.to_nat 0) with 0%nat. lia. }
    replace (Z.of_nat (length (c :: s1)) - 1) with (Z.of_nat (length s1)) by (simpl; lia).
    destruct (IH m1' (off + 1) H1' H2 Hne) as (r' & -> & Hr'). exists r'. split; [done|].
    destruct r' as [i|].
    + destruct Hr' as [Hi [Hp Hn]]. split; [lia|].
      replace (Z.to_nat (i - off)) with (S (Z.to_nat (i - (off + 1)))) by lia.
      split; [done|]. intros [|j] Hj; [naive_solver|]. apply Hn. lia.
    + intros [|j]; [naive_solver|]. apply Hr'.
Qed.

(** [rt_strstr]: on two C strings it returns the offset of the first occurrence of
    the second in the first, and null exactly when there is none. *)
Theorem rt_strstr_correct s1 m1 s2 m2 :
  cstr s1 m1 -> cstr s2 m2 ->
  exists r, rt_strstr m1 m2 = Some r /\
    match r with
    | Some i => 0 <= i /\ first_occurrence s1 s2 (Z.to_nat i)
    | None => forall j, ~ s2 `prefix_of` drop j s1
    end.
Proof.
  intros H1 H2. unfold rt_strstr. rewrite (strlen_cstr _ _ H2). simpl.
  destruct s2 as [|d s2].
  { exists (Some 0). split; [done|]. split; [lia|].
    split; [apply prefix_nil|]. intros j. simpl. lia. }
  rewrite (strlen_cstr _ _ H1). unfold truthy.
  destruct (Z.eqb_spec (Z.of_nat (length (d :: s2))) 0) as [E|E]; [simpl in E; lia|].
  destruct (strstr_loop_spec s1 (d :: s2) m1 m2 0 H1 H2 ltac:(done)) as (r & Er & Hr).
  exists r. split; [done|]. destruct r; [|done]. by rewrite Z.sub_0_r in Hr.
Qed.

Lemma rt_strstr_correct_witness :
  cstr [7; 8; 9] [7; 8; 9; 0] /\ cstr [9] [9; 0] /\ rt_strstr [7; 8; 9; 0] [9; 0] = Some (Some 2).
Proof.
  assert (cstr [7; 8; 9] [7; 8; 9; 0]) as H1.
  { split; [repeat constructor|by exists []]. }
  assert (cstr [9] [9; 0]) as H2.
  { split; [repeat constructor|by exists []]. }
  split; [exact H1|]. split; [exact H2|].
  destruct (rt_strstr_correct _ _ _ _ H1 H2) as (r & E & _). rewrite E.
  vm_compute in E. congruence.
Defined.

End KString.
