(* ===== verification/Kernel.v ===== *)
(** * The state of the kernel and the monad of its operations

    The kernel's data structures (include/rtdef.h) as records, the globals of
    src/*.c as one record [kernel], and the monad [K] in which the operations
    are written: state passing, where [None] is a failed [RT_ASSERT] (the code
    then loops forever) or the dereference of a pointer to no object.

    Addresses are integers.  A timer is named by [ref]: [Obj p] is a timer
    object at address [p], [TimerOf t] the timer embedded in the thread [t];
    the same names are used for the entries of the object container.

    The lists threaded through [rt_thread.tlist] are kept as sequences, one
    per list head ([qid]): the ready lists, the list of defunct threads, the
    suspend lists of the IPC objects and the sender list of the mailboxes.
    RtList.v shows that the pointer operations implement these sequences. *)

From S2P Require Import Prelude.

Abbreviation ptr := Z (only parsing).

Inductive ref :=
  | Obj (p : ptr)
  | TimerOf (t : ptr).

#[export] Instance ref_eq_dec : EqDecision ref.
Proof. solve_decision. Defined.
#[export] Instance ref_countable : Countable ref.
Proof.
  refine (inj_countable' (fun r => match r with Obj p => inl p | TimerOf t => inr t end)
    (fun s => match s with inl p => Obj p | inr t => TimerOf t end) _).
  by intros [].
Defined.

Inductive qid :=
  | QReady (prio : Z)
  | QDefunct
  | QSuspend (p : ptr)
  | QSender (p : ptr).

#[export] Instance qid_eq_dec : EqDecision qid.
Proof. solve_decision. Defined.
#[export] Instance qid_countable : Countable qid.
Proof.
  refine (inj_countable'
    (fun q => match q with
              | QReady p => (0%nat, p) | QDefunct => (1%nat, 0)
              | QSuspend p => (2%nat, p) | QSender p => (3%nat, p) end)
    (fun s => match s with
              | (0%nat, p) => QReady p | (1%nat, _) => QDefunct
              | (2%nat, p) => QSuspend p | (_, p) => QSender p end) _).
  by intros [].
Defined.

Inductive thread_stat :=
  | RT_THREAD_INIT
  | RT_THREAD_READY
  | RT_THREAD_SUSPEND
  | RT_THREAD_RUNNING
  | RT_THREAD_CLOSE.

#[export] Instance thread_stat_eq_dec : EqDecision thread_stat.
Proof. solve_decision. Defined.

(** The function pointer of a timer: the kernel's own [rt_thread_timeout], or
    a function of the application. *)
Inductive timeout_fn :=
  | fn_rt_thread_timeout
  | fn_user (f : Z).

(** The word in front of a block of a memory pool: the next free block, or,
    once allocated, the pool that owns it. *)
Inductive blk_link :=
  | LinkNext (b : option Z)
  | LinkPool (mp : ptr).

Record rt_timer := Timer {
  tm_flag : Z; (* parent.flag *)
  timeout_func : timeout_fn;
  tm_parameter : Z;
  tm_init_tick : Z;
  timeout_tick : Z;
}.

Definition set_tm_flag (x : Z) (r : rt_timer) : rt_timer :=
  Timer x (timeout_func r) (tm_parameter r) (tm_init_tick r) (timeout_tick r).
Definition set_timeout_func (x : timeout_fn) (r : rt_timer) : rt_timer :=
  Timer (tm_flag r) x (tm_parameter r) (tm_init_tick r) (timeout_tick r).
Definition set_tm_parameter (x : Z) (r : rt_timer) : rt_timer :=
  Timer (tm_flag r) (timeout_func r) x (tm_init_tick r) (timeout_tick r).
Definition set_tm_init_tick (x : Z) (r : rt_timer) : rt_timer :=
  Timer (tm_flag r) (timeout_func r) (tm_parameter r) x (timeout_tick r).
Definition set_timeout_tick (x : Z) (r : rt_timer) : rt_timer :=
  Timer (tm_flag r) (timeout_func r) (tm_parameter r) (tm_init_tick r) x.

Record rt_thread := Thread {
  sp : Z;
  entry : Z;
  parameter : Z;
  stack_addr : Z;
  stack_size : Z;
  error : Z;
  stat : thread_stat;
  current_priority : Z;
  init_priority : Z;
  number_mask : Z;
  event_set : Z;
  event_info : Z;
  init_tick : Z;
  remaining_tick : Z;
  cleanup : option Z;
  user_data : Z;
}.

Definition set_sp (x : Z) (r : rt_thread) : rt_thread :=
  Thread x (entry r) (parameter r) (stack_addr r) (stack_size r) (error r) (stat r)
    (current_priority r) (init_priority r) (number_mask r) (event_set r) (event_info
    r) (init_tick r) (remaining_tick r) (cleanup r) (user_data r).
Definition set_entry (x : Z) (r : rt_thread) : rt_thread :=
  Thread (sp r) x (parameter r) (stack_addr r) (stack_size r) (error r) (stat r)
    (current_priority r) (init_priority r) (number_mask r) (event_set r) (event_info
    r) (init_tick r) (remaining_tick r) (cleanup r) (user_data r).
Definition set_parameter (x : Z) (r : rt_thread) : rt_thread :=
  Thread (sp r) (entry r) x (stack_addr r) (stack_size r) (error r) (stat r)
    (current_priority r) (init_priority r) (number_mask r) (event_set r) (event_info
    r) (init_tick r) (remaining_tick r) (cleanup r) (user_data r).
Definition set_stack_addr (x : Z) (r : rt_thread) : rt_thread :=
  Thread (sp r) (entry r) (parameter r) x (stack_size r) (error r) (stat r)
    (current_priority r) (init_priority r) (number_mask r) (event_set r) (event_info
    r) (init_tick r) (remaining_tick r) (cleanup r) (user_data r).
Definition set_stack_size (x : Z) (r : rt_thread) : rt_thread :=
  Thread (sp r) (entry r) (parameter r) (stack_addr r) x (error r) (stat r)
    (current_priority r) (init_priority r) (number_mask r) (event_set r) (event_info
    r) (init_tick r) (remaining_tick r) (cleanup r) (user_data r).
Definition set_error (x : Z) (r : rt_thread) : rt_thread :=
  Thread (sp r) (entry r) (parameter r) (stack_addr r) (stack_size r) x (stat r)
    (current_priority r) (init_priority r) (number_mask r) (event_set r) (event_info
    r) (init_tick r) (remaining_tick r) (cleanup r) (user_data r).
Definition set_stat (x : thread_stat) (r : rt_thread) : rt_thread :=
  Thread (sp r) (entry r) (parameter r) (stack_addr r) (stack_size r) (error r) x
    (current_priority r) (init_priority r) (number_mask r) (event_set r) (event_info
    r) (init_tick r) (remaining_tick r) (cleanup r) (user_data r).
Definition set_current_priority (x : Z) (r : rt_thread) : rt_thread :=
  Thread (sp r) (entry r) (parameter r) (stack_addr r) (stack_size r) (error r) (stat
    r) x (init_priority r) (number_mask r) (event_set r) (event_info r) (init_tick r)
    (remaining_tick r) (cleanup r) (user_data r).
Definition set_init_priority (x : Z) (r : rt_thread) : rt_thread :=
  Thread (sp r) (entry r) (parameter r) (stack_addr r) (stack_size r) (error r) (stat
    r) (current_priority r) x (number_mask r) (event_set r) (event_info r) (init_tick
    r) (remaining_tick r) (cleanup r) (user_data r).
Definition set_number_mask (x : Z) (r : rt_thread) : rt_thread :=
  Thread (sp r) (entry r) (parameter r) (stack_addr r) (stack_size r) (error r) (stat
    r) (current_priority r) (init_priority r) x (event_set r) (event_info r)
    (init_tick r) (remaining_tick r) (cleanup r) (user_data r).
Definition set_event_set (x : Z) (r : rt_thread) : rt_thread :=
  Thread (sp r) (entry r) (parameter r) (stack_addr r) (stack_size r) (error r) (stat
    r) (current_priority r) (init_priority r) (number_mask r) x (event_info r)
    (init_tick r) (remaining_tick r) (cleanup r) (user_data r).
Definition set_event_info (x : Z) (r : rt_thread) : rt_thread :=
  Thread (sp r) (entry r) (parameter r) (stack_addr r) (stack_size r) (error r) (stat
    r) (current_priority r) (init_priority r) (number_mask r) (event_set r) x
    (init_tick r) (remaining_tick r) (cleanup r) (user_data r).
Definition set_init_tick (x : Z) (r : rt_thread) : rt_thread :=
  Thread (sp r) (entry r) (parameter r) (stack_addr r) (stack_size r) (error r) (stat
    r) (current_priority r) (init_priority r) (number_mask r) (event_set r)
    (event_info r) x (remaining_tick r) (cleanup r) (user_data r).
Definition set_remaining_tick (x : Z) (r : rt_thread) : rt_thread :=
  Thread (sp r) (entry r) (parameter r) (stack_addr r) (stack_size r) (error r) (stat
    r) (current_priority r) (init_priority r) (number_mask r) (event_set r)
    (event_info r) (init_tick r) x (cleanup r) (user_data r).
Definition set_cleanup (x : option Z) (r : rt_thread) : rt_thread :=
  Thread (sp r) (entry r) (parameter r) (stack_addr r) (stack_size r) (error r) (stat
    r) (current_priority r) (init_priority r) (number_mask r) (event_set r)
    (event_info r) (init_tick r) (remaining_tick r) x (user_data r).
Definition set_user_data (x : Z) (r : rt_thread) : rt_thread :=
  Thread (sp r) (entry r) (parameter r) (stack_addr r) (stack_size r) (error r) (stat
    r) (current_priority r) (init_priority r) (number_mask r) (event_set r)
    (event_info r) (init_tick r) (remaining_tick r) (cleanup r) x.

Record rt_object := Object {
  obj_name : list Z; (* RT_NAME_MAX bytes *)
  obj_type : Z;
}.

Record rt_semaphore := Semaphore {
  sem_flag : Z; (* parent.parent.flag *)
  sem_value : Z;
}.

Definition set_sem_flag (x : Z) (r : rt_semaphore) : rt_semaphore :=
  Semaphore x (sem_value r).
Definition set_sem_value (x : Z) (r : rt_semaphore) : rt_semaphore :=
  Semaphore (sem_flag r) x.

Record rt_mutex := Mutex {
  mutex_flag : Z; (* parent.parent.flag *)
  mutex_value : Z;
  original_priority : Z;
  hold : Z;
  owner : option ptr;
}.

Definition set_mutex_flag (x : Z) (r : rt_mutex) : rt_mutex :=
  Mutex x (mutex_value r) (original_priority r) (hold r) (owner r).
Definition set_mutex_value (x : Z) (r : rt_mutex) : rt_mutex :=
  Mutex (mutex_flag r) x (original_priority r) (hold r) (owner r).
Definition set_original_priority (x : Z) (r : rt_mutex) : rt_mutex :=
  Mutex (mutex_flag r) (mutex_value r) x (hold r) (owner r).
Definition set_hold (x : Z) (r : rt_mutex) : rt_mutex :=
  Mutex (mutex_flag r) (mutex_value r) (original_priority r) x (owner r).
Definition set_owner (x : option ptr) (r : rt_mutex) : rt_mutex :=
  Mutex (mutex_flag r) (mutex_value r) (original_priority r) (hold r) x.

Record rt_event := Event {
  event_flag : Z; (* parent.parent.flag *)
  ev_set : Z;
}.

Definition set_event_flag (x : Z) (r : rt_event) : rt_event :=
  Event x (ev_set r).
Definition set_ev_set (x : Z) (r : rt_event) : rt_event :=
  Event (event_flag r) x.

Record rt_mailbox := Mailbox {
  mb_flag : Z; (* parent.parent.flag *)
  mb_msg_pool : list Z;
  mb_size : Z;
  mb_entry : Z;
  in_offset : Z;
  out_offset : Z;
}.

Definition set_mb_flag (x : Z) (r : rt_mailbox) : rt_mailbox :=
  Mailbox x (mb_msg_pool r) (mb_size r) (mb_entry r) (in_offset r) (out_offset r).
Definition set_mb_msg_pool (x : list Z) (r : rt_mailbox) : rt_mailbox :=
  Mailbox (mb_flag r) x (mb_size r) (mb_entry r) (in_offset r) (out_offset r).
Definition set_mb_size (x : Z) (r : rt_mailbox) : rt_mailbox :=
  Mailbox (mb_flag r) (mb_msg_pool r) x (mb_entry r) (in_offset r) (out_offset r).
Definition set_mb_entry (x : Z) (r : rt_mailbox) : rt_mailbox :=
  Mailbox (mb_flag r) (mb_msg_pool r) (mb_size r) x (in_offset r) (out_offset r).
Definition set_in_offset (x : Z) (r : rt_mailbox) : rt_mailbox :=
  Mailbox (mb_flag r) (mb_msg_pool r) (mb_size r) (mb_entry r) x (out_offset r).
Definition set_out_offset (x : Z) (r : rt_mailbox) : rt_mailbox :=
  Mailbox (mb_flag r) (mb_msg_pool r) (mb_size r) (mb_entry r) (in_offset r) x.

Record rt_messagequeue := Messagequeue {
  mq_flag : Z; (* parent.parent.flag *)
  msg_size : Z;
  max_msgs : Z;
  mq_entry : Z;
  msg_queue_head : option Z;
  msg_queue_tail : option Z;
  msg_queue_free : option Z;
  msg_next : gmap Z (option Z); (* the next field of each message of the pool *)
  msg_data : gmap Z (list Z); (* the bytes behind each message header *)
}.

Definition set_mq_flag (x : Z) (r : rt_messagequeue) : rt_messagequeue :=
  Messagequeue x (msg_size r) (max_msgs r) (mq_entry r) (msg_queue_head r)
    (msg_queue_tail r) (msg_queue_free r) (msg_next r) (msg_data r).
Definition set_msg_size (x : Z) (r : rt_messagequeue) : rt_messagequeue :=
  Messagequeue (mq_flag r) x (max_msgs r) (mq_entry r) (msg_queue_head r)
    (msg_queue_tail r) (msg_queue_free r) (msg_next r) (msg_data r).
Definition set_max_msgs (x : Z) (r : rt_messagequeue) : rt_messagequeue :=
  Messagequeue (mq_flag r) (msg_size r) x (mq_entry r) (msg_queue_head r)
    (msg_queue_tail r) (msg_queue_free r) (msg_next r) (msg_data r).
Definition set_mq_entry (x : Z) (r : rt_messagequeue) : rt_messagequeue :=
  Messagequeue (mq_flag r) (msg_size r) (max_msgs r) x (msg_queue_head r)
    (msg_queue_tail r) (msg_queue_free r) (msg_next r) (msg_data r).
Definition set_msg_queue_head (x : option Z) (r : rt_messagequeue) : rt_messagequeue :=
  Messagequeue (mq_flag r) (msg_size r) (max_msgs r) (mq_entry r) x (msg_queue_tail r)
    (msg_queue_free r) (msg_next r) (msg_data r).
Definition set_msg_queue_tail (x : option Z) (r : rt_messagequeue) : rt_messagequeue :=
  Messagequeue (mq_flag r) (msg_size r) (max_msgs r) (mq_entry r) (msg_queue_head r) x
    (msg_queue_free r) (msg_next r) (msg_data r).
Definition set_msg_queue_free (x : option Z) (r : rt_messagequeue) : rt_messagequeue :=
  Messagequeue (mq_flag r) (msg_size r) (max_msgs r) (mq_entry r) (msg_queue_head r)
    (msg_queue_tail r) x (msg_next r) (msg_data r).
Definition set_msg_next (x : gmap Z (option Z)) (r : rt_messagequeue) :
    rt_messagequeue :=
  Messagequeue (mq_flag r) (msg_size r) (max_msgs r) (mq_entry r) (msg_queue_head r)
    (msg_queue_tail r) (msg_queue_free r) x (msg_data r).
Definition set_msg_data (x : gmap Z (list Z)) (r : rt_messagequeue) : rt_messagequeue :=
  Messagequeue (mq_flag r) (msg_size r) (max_msgs r) (mq_entry r) (msg_queue_head r)
    (msg_queue_tail r) (msg_queue_free r) (msg_next r) x.

Record rt_mempool := Mempool {
  mp_start : Z;
  mp_size : Z;
  block_size : Z;
  block_list : option Z;
  block_total_count : Z;
  block_free_count : Z;
  suspend_thread_count : Z;
  block_link : gmap Z blk_link; (* the link word in front of each block *)
}.

Definition set_mp_start (x : Z) (r : rt_mempool) : rt_mempool :=
  Mempool x (mp_size r) (block_size r) (block_list r) (block_total_count r)
    (block_free_count r) (suspend_thread_count r) (block_link r).
Definition set_mp_size (x : Z) (r : rt_mempool) : rt_mempool :=
  Mempool (mp_start r) x (block_size r) (block_list r) (block_total_count r)
    (block_free_count r) (suspend_thread_count r) (block_link r).
Definition set_block_size (x : Z) (r : rt_mempool) : rt_mempool :=
  Mempool (mp_start r) (mp_size r) x (block_list r) (block_total_count r)
    (block_free_count r) (suspend_thread_count r) (block_link r).
Definition set_block_list (x : option Z) (r : rt_mempool) : rt_mempool :=
  Mempool (mp_start r) (mp_size r) (block_size r) x (block_total_count r)
    (block_free_count r) (suspend_thread_count r) (block_link r).
Definition set_block_total_count (x : Z) (r : rt_mempool) : rt_mempool :=
  Mempool (mp_start r) (mp_size r) (block_size r) (block_list r) x (block_free_count
    r) (suspend_thread_count r) (block_link r).
Definition set_block_free_count (x : Z) (r : rt_mempool) : rt_mempool :=
  Mempool (mp_start r) (mp_size r) (block_size r) (block_list r) (block_total_count r)
    x (suspend_thread_count r) (block_link r).
Definition set_suspend_thread_count (x : Z) (r : rt_mempool) : rt_mempool :=
  Mempool (mp_start r) (mp_size r) (block_size r) (block_list r) (block_total_count r)
    (block_free_count r) x (block_link r).
Definition set_block_link (x : gmap Z blk_link) (r : rt_mempool) : rt_mempool :=
  Mempool (mp_start r) (mp_size r) (block_size r) (block_list r) (block_total_count r)
    (block_free_count r) (suspend_thread_count r) x.

Record kernel := Kernel {
  rt_tick : Z;
  rt_interrupt_nest : Z;
  rt_scheduler_lock_nest : Z;
  rt_current_thread : option ptr;
  rt_current_priority : Z;
  rt_thread_ready_priority_group : Z;
  tlists : gmap qid (list ptr); (* the lists threaded through rt_thread.tlist *)
  rt_timer_list : list ref;
  random_nr : Z; (* static of rt_timer_start *)
  threads : gmap ptr rt_thread;
  timers : gmap ref rt_timer;
  objects : gmap ref rt_object;
  object_container : gmap Z (list ref);
  sems : gmap ptr rt_semaphore;
  mutexes : gmap ptr rt_mutex;
  events : gmap ptr rt_event;
  mailboxes : gmap ptr rt_mailbox;
  mqs : gmap ptr rt_messagequeue;
  mempools : gmap ptr rt_mempool;
}.

Definition set_rt_tick (x : Z) (r : kernel) : kernel :=
  Kernel x (rt_interrupt_nest r) (rt_scheduler_lock_nest r) (rt_current_thread r)
    (rt_current_priority r) (rt_thread_ready_priority_group r) (tlists r)
    (rt_timer_list r) (random_nr r) (threads r) (timers r) (objects r)
    (object_container r) (sems r) (mutexes r) (events r) (mailboxes r) (mqs r)
    (mempools r).
Definition set_rt_interrupt_nest (x : Z) (r : kernel) : kernel :=
  Kernel (rt_tick r) x (rt_scheduler_lock_nest r) (rt_current_thread r)
    (rt_current_priority r) (rt_thread_ready_priority_group r) (tlists r)
    (rt_timer_list r) (random_nr r) (threads r) (timers r) (objects r)
    (object_container r) (sems r) (mutexes r) (events r) (mailboxes r) (mqs r)
    (mempools r).
Definition set_rt_scheduler_lock_nest (x : Z) (r : kernel) : kernel :=
  Kernel (rt_tick r) (rt_interrupt_nest r) x (rt_current_thread r)
    (rt_current_priority r) (rt_thread_ready_priority_group r) (tlists r)
    (rt_timer_list r) (random_nr r) (threads r) (timers r) (objects r)
    (object_container r) (sems r) (mutexes r) (events r) (mailboxes r) (mqs r)
    (mempools r).
Definition set_rt_current_thread (x : option ptr) (r : kernel) : kernel :=
  Kernel (rt_tick r) (rt_interrupt_nest r) (rt_scheduler_lock_nest r) x
    (rt_current_priority r) (rt_thread_ready_priority_group r) (tlists r)
    (rt_timer_list r) (random_nr r) (threads r) (timers r) (objects r)
    (object_container r) (sems r) (mutexes r) (events r) (mailboxes r) (mqs r)
    (mempools r).
Definition set_rt_current_priority (x : Z) (r : kernel) : kernel :=
  Kernel (rt_tick r) (rt_interrupt_nest r) (rt_scheduler_lock_nest r)
    (rt_current_thread r) x (rt_thread_ready_priority_group r) (tlists r)
    (rt_timer_list r) (random_nr r) (threads r) (timers r) (objects r)
    (object_container r) (sems r) (mutexes r) (events r) (mailboxes r) (mqs r)
    (mempools r).
Definition set_rt_thread_ready_priority_group (x : Z) (r : kernel) : kernel :=
  Kernel (rt_tick r) (rt_interrupt_nest r) (rt_scheduler_lock_nest r)
    (rt_current_thread r) (rt_current_priority r) x (tlists r) (rt_timer_list r)
    (random_nr r) (threads r) (timers r) (objects r) (object_container r) (sems r)
    (mutexes r) (events r) (mailboxes r) (mqs r) (mempools r).
Definition set_tlists (x : gmap qid (list ptr)) (r : kernel) : kernel :=
  Kernel (rt_tick r) (rt_interrupt_nest r) (rt_scheduler_lock_nest r)
    (rt_current_thread r) (rt_current_priority r) (rt_thread_ready_priority_group r) x
    (rt_timer_list r) (random_nr r) (threads r) (timers r) (objects r)
    (object_container r) (sems r) (mutexes r) (events r) (mailboxes r) (mqs r)
    (mempools r).
Definition set_rt_timer_list (x : list ref) (r : kernel) : kernel :=
  Kernel (rt_tick r) (rt_interrupt_nest r) (rt_scheduler_lock_nest r)
    (rt_current_thread r) (rt_current_priority r) (rt_thread_ready_priority_group r)
    (tlists r) x (random_nr r) (threads r) (timers r) (objects r) (object_container r)
    (sems r) (mutexes r) (events r) (mailboxes r) (mqs r) (mempools r).
Definition set_random_nr (x : Z) (r : kernel) : kernel :=
  Kernel (rt_tick r) (rt_interrupt_nest r) (rt_scheduler_lock_nest r)
    (rt_current_thread r) (rt_current_priority r) (rt_thread_ready_priority_group r)
    (tlists r) (rt_timer_list r) x (threads r) (timers r) (objects r)
    (object_container r) (sems r) (mutexes r) (events r) (mailboxes r) (mqs r)
    (mempools r).
Definition set_threads (x : gmap ptr rt_thread) (r : kernel) : kernel :=
  Kernel (rt_tick r) (rt_interrupt_nest r) (rt_scheduler_lock_nest r)
    (rt_current_thread r) (rt_current_priority r) (rt_thread_ready_priority_group r)
    (tlists r) (rt_timer_list r) (random_nr r) x (timers r) (objects r)
    (object_container r) (sems r) (mutexes r) (events r) (mailboxes r) (mqs r)
    (mempools r).
Definition set_timers (x : gmap ref rt_timer) (r : kernel) : kernel :=
  Kernel (rt_tick r) (rt_interrupt_nest r) (rt_scheduler_lock_nest r)
    (rt_current_thread r) (rt_current_priority r) (rt_thread_ready_priority_group r)
    (tlists r) (rt_timer_list r) (random_nr r) (threads r) x (objects r)
    (object_container r) (sems r) (mutexes r) (events r) (mailboxes r) (mqs r)
    (mempools r).
Definition set_objects (x : gmap ref rt_object) (r : kernel) : kernel :=
  Kernel (rt_tick r) (rt_interrupt_nest r) (rt_scheduler_lock_nest r)
    (rt_current_thread r) (rt_current_priority r) (rt_thread_ready_priority_group r)
    (tlists r) (rt_timer_list r) (random_nr r) (threads r) (timers r) x
    (object_container r) (sems r) (mutexes r) (events r) (mailboxes r) (mqs r)
    (mempools r).
Definition set_object_container (x : gmap Z (list ref)) (r : kernel) : kernel :=
  Kernel (rt_tick r) (rt_interrupt_nest r) (rt_scheduler_lock_nest r)
    (rt_current_thread r) (rt_current_priority r) (rt_thread_ready_priority_group r)
    (tlists r) (rt_timer_list r) (random_nr r) (threads r) (timers r) (objects r) x
    (sems r) (mutexes r) (events r) (mailboxes r) (mqs r) (mempools r).
Definition set_sems (x : gmap ptr rt_semaphore) (r : kernel) : kernel :=
  Kernel (rt_tick r) (rt_interrupt_nest r) (rt_scheduler_lock_nest r)
    (rt_current_thread r) (rt_current_priority r) (rt_thread_ready_priority_group r)
    (tlists r) (rt_timer_list r) (random_nr r) (threads r) (timers r) (objects r)
    (object_container r) x (mutexes r) (events r) (mailboxes r) (mqs r) (mempools r).
Definition set_mutexes (x : gmap ptr rt_mutex) (r : kernel) : kernel :=
  Kernel (rt_tick r) (rt_interrupt_nest r) (rt_scheduler_lock_nest r)
    (rt_current_thread r) (rt_current_priority r) (rt_thread_ready_priority_group r)
    (tlists r) (rt_timer_list r) (random_nr r) (threads r) (timers r) (objects r)
    (object_container r) (sems r) x (events r) (mailboxes r) (mqs r) (mempools r).
Definition set_events (x : gmap ptr rt_event) (r : kernel) : kernel :=
  Kernel (rt_tick r) (rt_interrupt_nest r) (rt_scheduler_lock_nest r)
    (rt_current_thread r) (rt_current_priority r) (rt_thread_ready_priority_group r)
    (tlists r) (rt_timer_list r) (random_nr r) (threads r) (timers r) (objects r)
    (object_container r) (sems r) (mutexes r) x (mailboxes r) (mqs r) (mempools r).
Definition set_mailboxes (x : gmap ptr rt_mailbox) (r : kernel) : kernel :=
  Kernel (rt_tick r) (rt_interrupt_nest r) (rt_scheduler_lock_nest r)
    (rt_current_thread r) (rt_current_priority r) (rt_thread_ready_priority_group r)
    (tlists r) (rt_timer_list r) (random_nr r) (threads r) (timers r) (objects r)
    (object_container r) (sems r) (mutexes r) (events r) x (mqs r) (mempools r).
Definition set_mqs (x : gmap ptr rt_messagequeue) (r : kernel) : kernel :=
  Kernel (rt_tick r) (rt_interrupt_nest r) (rt_scheduler_lock_nest r)
    (rt_current_thread r) (rt_current_priority r) (rt_thread_ready_priority_group r)
    (tlists r) (rt_timer_list r) (random_nr r) (threads r) (timers r) (objects r)
    (object_container r) (sems r) (mutexes r) (events r) (mailboxes r) x (mempools r).
Definition set_mempools (x : gmap ptr rt_mempool) (r : kernel) : kernel :=
  Kernel (rt_tick r) (rt_interrupt_nest r) (rt_scheduler_lock_nest r)
    (rt_current_thread r) (rt_current_priority r) (rt_thread_ready_priority_group r)
    (tlists r) (rt_timer_list r) (random_nr r) (threads r) (timers r) (objects r)
    (object_container r) (sems r) (mutexes r) (events r) (mailboxes r) (mqs r) x.


(** ** The monad *)

Definition K (A : Type) : Type := kernel -> option (A * kernel).

#[export] Instance K_ret : MRet K := fun A a k => Some (a, k).
#[export] Instance K_bind : MBind K := fun A B f m k =>
  match m k with
  | Some (a, k') => f a k'
  | None => None
  end.

Definition gets {A} (f : kernel -> A) : K A := fun k => Some (f k, k).
Definition modify (f : kernel -> kernel) : K unit := fun k => Some (tt, f k).
Definition halt {A} : K A := fun _ => None.
Definition RT_ASSERT (b : bool) : K unit := if b then mret tt else halt.
Definition when (b : bool) (m : K unit) : K unit := if b then m else mret tt.

(** [p->...]: the object of a pointer. *)
Definition deref {I V} `{Countable I} (heap : kernel -> gmap I V) (p : I) : K V :=
  fun k => match heap k !! p with
           | Some v => Some (v, k)
           | None => None
           end.

Definition put_thread (t : ptr) (th : rt_thread) : K unit :=
  modify (fun k => set_threads (<[t := th]> (threads k)) k).
Definition put_timer (r : ref) (tm : rt_timer) : K unit :=
  modify (fun k => set_timers (<[r := tm]> (timers k)) k).
Definition put_sem (p : ptr) (s : rt_semaphore) : K unit :=
  modify (fun k => set_sems (<[p := s]> (sems k)) k).
Definition put_mutex (p : ptr) (m : rt_mutex) : K unit :=
  modify (fun k => set_mutexes (<[p := m]> (mutexes k)) k).
Definition put_event (p : ptr) (e : rt_event) : K unit :=
  modify (fun k => set_events (<[p := e]> (events k)) k).
Definition put_mailbox (p : ptr) (m : rt_mailbox) : K unit :=
  modify (fun k => set_mailboxes (<[p := m]> (mailboxes k)) k).
Definition put_mq (p : ptr) (m : rt_messagequeue) : K unit :=
  modify (fun k => set_mqs (<[p := m]> (mqs k)) k).
Definition put_mempool (p : ptr) (m : rt_mempool) : K unit :=
  modify (fun k => set_mempools (<[p := m]> (mempools k)) k).

(** [thread->f = ...] for one field. *)
Definition upd_thread (t : ptr) (f : rt_thread -> rt_thread) : K unit :=
  th ← deref threads t; put_thread t (f th).
Definition upd_timer (r : ref) (f : rt_timer -> rt_timer) : K unit :=
  tm ← deref timers r; put_timer r (f tm).

(** ** The lists of threads *)

Definition tl (k : kernel) (q : qid) : list ptr := tlists k !!! q.

(** [rt_list_remove(&thread->tlist)] *)
Definition tlist_remove (t : ptr) : K unit :=
  modify (fun k => set_tlists (filter (.≠ t) <$> tlists k) k).
(** [rt_list_insert_before(head, &thread->tlist)] *)
Definition tlist_insert_before (q : qid) (t : ptr) : K unit :=
  modify (fun k => set_tlists (<[q := tl k q ++ [t]]> (tlists k)) k).
(** [rt_list_insert_after(head, &thread->tlist)] *)
Definition tlist_insert_after (q : qid) (t : ptr) : K unit :=
  modify (fun k => set_tlists (<[q := t :: tl k q]> (tlists k)) k).
(** [rt_list_init(head)] *)
Definition tlist_init (q : qid) : K unit :=
  modify (fun k => set_tlists (<[q := []]> (tlists k)) k).
Definition tlist_isempty (q : qid) : K bool :=
  l ← gets (fun k => tl k q); mret (match l with [] => true | _ => false end).
(** [rt_list_entry(head->next, struct rt_thread, tlist)]: on an empty list this
    is the head itself taken for a thread. *)
Definition tlist_first (q : qid) : K ptr :=
  l ← gets (fun k => tl k q);
  match l with
  | [] => halt
  | t :: _ => mret t
  end.

(** ** Reasoning about the monad

    [wp m Q k]: started in [k], the operation [m] returns, and what it returns
    satisfies [Q]. *)

Definition wp {A} (m : K A) (Q : A -> kernel -> Prop) (k : kernel) : Prop :=
  match m k with
  | Some (a, k') => Q a k'
  | None => False
  end.

Lemma wp_ret {A} (a : A) Q k : Q a k -> wp (mret a) Q k.
Proof. done. Qed.

Lemma wp_bind {A B} (m : K A) (f : A -> K B) Q k :
  wp m (fun a k' => wp (f a) Q k') k -> wp (m ≫= f) Q k.
Proof. unfold wp, mbind, K_bind. by destruct (m k) as [[a k']|]. Qed.

Lemma wp_mono {A} (m : K A) (P Q : A -> kernel -> Prop) k :
  wp m P k -> (forall a k', P a k' -> Q a k') -> wp m Q k.
Proof. unfold wp. destruct (m k) as [[a k']|]; auto. Qed.

Lemma wp_gets {A} (f : kernel -> A) Q k : Q (f k) k -> wp (gets f) Q k.
Proof. done. Qed.

Lemma wp_modify f (Q : unit -> kernel -> Prop) k : Q tt (f k) -> wp (modify f) Q k.
Proof. done. Qed.

Lemma wp_assert b (Q : unit -> kernel -> Prop) k : b = true -> Q tt k -> wp (RT_ASSERT b) Q k.
Proof. by intros ->. Qed.

Lemma wp_deref {I V} `{Countable I} (heap : kernel -> gmap I V) p v Q k :
  heap k !! p = Some v -> Q v k -> wp (deref heap p) Q k.
Proof. unfold wp, deref. by intros ->. Qed.

Lemma wp_upd_thread t f th (Q : unit -> kernel -> Prop) k :
  threads k !! t = Some th ->
  Q tt (set_threads (<[t := f th]> (threads k)) k) -> wp (upd_thread t f) Q k.
Proof. unfold wp, upd_thread, deref, mbind, K_bind. by intros ->. Qed.

Lemma wp_upd_timer r f tm (Q : unit -> kernel -> Prop) k :
  timers k !! r = Some tm ->
  Q tt (set_timers (<[r := f tm]> (timers k)) k) -> wp (upd_timer r f) Q k.
Proof. unfold wp, upd_timer, deref, mbind, K_bind. by intros ->. Qed.

Lemma wp_exists {A} (m : K A) Q k :
  wp m Q k <-> exists a k', m k = Some (a, k') /\ Q a k'.
Proof.
  unfold wp. destruct (m k) as [[a k']|]; [|naive_solver].
  split; [eauto|]. intros (? & ? & [= <- <-] & ?). done.
Qed.

(** The kernel's globals as the C start-up code leaves them: zeroed. *)
Definition kernel_bss : kernel :=
  Kernel 0 0 0 None 0 0 ∅ [] 0 ∅ ∅ ∅ ∅ ∅ ∅ ∅ ∅ ∅ ∅.

(** A computation outside of the monad that may fail. *)
Definition lift {A} (o : option A) : K A :=
  fun k => match o with Some a => Some (a, k) | None => None end.

Lemma wp_lift {A} (o : option A) a (Q : A -> kernel -> Prop) k :
  o = Some a -> Q a k -> wp (lift o) Q k.
Proof. by intros ->. Qed.

(** ** Context checks of rtdebug.h *)

Definition RT_DEBUG_NOT_IN_INTERRUPT : K unit :=
  nest ← gets rt_interrupt_nest; RT_ASSERT (nest =? 0).

Definition RT_DEBUG_IN_THREAD_CONTEXT : K unit :=
  self ← gets rt_current_thread;
  RT_ASSERT (bool_decide (self <> None));;
  RT_DEBUG_NOT_IN_INTERRUPT.
