(* ===== verification/Scheduler.v ===== *)
(** * The scheduler: src/scheduler.c, and [__rt_ffs] of src/kservice.c

    The ready table (one list per priority and the 32-bit group of non-empty
    priorities), the selection of the thread to run, the scheduler lock, and
    the invariant [sched_ok] that ties the lists, the states of the threads
    and the group together. *)

From S2P Require Import Prelude Kernel.

(** ** Find first set *)

Definition lowest_bit_row (first : Z) : list Z :=
  [first; 0; 1; 0; 2; 0; 1; 0; 3; 0; 1; 0; 2; 0; 1; 0].

Definition __lowest_bit_bitmap : list Z :=
  lowest_bit_row 0 ++ lowest_bit_row 4 ++ lowest_bit_row 5 ++ lowest_bit_row 4 ++
  lowest_bit_row 6 ++ lowest_bit_row 4 ++ lowest_bit_row 5 ++ lowest_bit_row 4 ++
  lowest_bit_row 7 ++ lowest_bit_row 4 ++ lowest_bit_row 5 ++ lowest_bit_row 4 ++
  lowest_bit_row 6 ++ lowest_bit_row 4 ++ lowest_bit_row 5 ++ lowest_bit_row 4.

(** The argument is the 32-bit pattern of the C [int]. *)
Definition __rt_ffs (value : Z) : Z :=
  let bitmap i := default 0 (zlookup __lowest_bit_bitmap i) in
  if value =? 0 then 0
  else if truthy (value &. 0xff) then bitmap (value &. 0xff) + 1
  else if truthy (value &. 0xff00) then bitmap (Z.shiftr (value &. 0xff00) 8) + 9
  else if truthy (value &. 0xff0000) then bitmap (Z.shiftr (value &. 0xff0000) 16) + 17
  else bitmap (Z.shiftr (value &. 0xff000000) 24) + 25.

Definition is_lowest (v i : Z) : Prop :=
  Z.testbit v i = true /\ forall j, 0 <= j < i -> Z.testbit v j = false.

Definition is_lowest_b (v i : Z) : bool :=
  Z.testbit v i && forallb (fun j => negb (Z.testbit v j)) (seqZ 0 i).

Lemma is_lowest_b_spec v i : is_lowest_b v i = true -> is_lowest v i.
Proof.
  unfold is_lowest_b, is_lowest. intros [Ht Hf]%andb_true_iff. split; [done|].
  intros j Hj. rewrite forallb_forall in Hf.
  apply negb_true_iff, Hf, list_elem_of_In, elem_of_seqZ. lia.
Qed.

Lemma lowest_bit_bitmap_table :
  forallb (fun b => is_lowest_b b (default 0 (zlookup __lowest_bit_bitmap b)) &&
                    (0 <=? default 0 (zlookup __lowest_bit_bitmap b)) &&
                    (default 0 (zlookup __lowest_bit_bitmap b) <? 8))
          (seqZ 1 255) = true.
Proof. vm_compute. reflexivity. Qed.

Lemma lowest_bit_bitmap_spec b :
  0 < b < 256 ->
  is_lowest b (default 0 (zlookup __lowest_bit_bitmap b)) /\
  0 <= default 0 (zlookup __lowest_bit_bitmap b) < 8.
Proof.
  intros Hb. pose proof lowest_bit_bitmap_table as H.
  rewrite forallb_forall in H. specialize (H b).
  rewrite <-list_elem_of_In, elem_of_seqZ in H.
  apply andb_true_iff in H as [[? ?]%andb_true_iff ?]; [|lia].
  split; [by apply is_lowest_b_spec|lia].
Qed.

(** A byte of the value, cut out by mask and shift. *)
Lemma byte_of v s :
  0 <= s -> Z.shiftr (v &. Z.shiftl 0xff s) s = Z.shiftr v s &. 0xff.
Proof.
  intros Hs. apply Z.bits_inj'. intros n Hn.
  rewrite Z.shiftr_spec, !Z.land_spec, Z.shiftr_spec, Z.shiftl_spec by lia.
  do 2 f_equal. lia.
Qed.

Lemma byte_bits v s j :
  0 <= s -> Z.testbit (Z.shiftr v s &. 0xff) j =
    (if (0 <=? j) && (j <? 8) then Z.testbit v (s + j) else false).
Proof.
  intros Hs. rewrite Z.land_spec. change 0xff with (Z.ones 8).
  destruct (Z.leb_spec 0 j), (Z.ltb_spec j 8); simpl.
  - rewrite Z.ones_spec_low, andb_true_r, Z.shiftr_spec by lia. f_equal. lia.
  - rewrite Z.ones_spec_high by lia. apply andb_false_r.
  - rewrite Z.testbit_neg_r by lia. done.
  - rewrite Z.testbit_neg_r by lia. done.
Qed.

Lemma byte_range v s : 0 <= Z.shiftr v s &. 0xff < 256.
Proof.
  change 0xff with (Z.ones 8). rewrite Z.land_ones by lia.
  by apply Z.mod_pos_bound.
Qed.

Lemma byte_lowest v s :
  0 <= s -> Z.shiftr v s &. 0xff <> 0 ->
  (forall j, 0 <= j < s -> Z.testbit v j = false) ->
  is_lowest v (s + default 0 (zlookup __lowest_bit_bitmap (Z.shiftr v s &. 0xff))) /\
  0 <= default 0 (zlookup __lowest_bit_bitmap (Z.shiftr v s &. 0xff)) < 8.
Proof.
  intros Hs Hne Hlow. pose proof (byte_range v s).
  destruct (lowest_bit_bitmap_spec (Z.shiftr v s &. 0xff)) as [[Ht Hl] Hr]; [lia|].
  split; [|done]. set (b := default 0 _) in *. rewrite byte_bits in Ht by done.
  split; [by cmp_cases|].
  intros j Hj. destruct (Z.lt_ge_cases j s); [apply Hlow; lia|].
  specialize (Hl (j - s)). rewrite byte_bits in Hl by done.
  cmp_cases; try lia. rewrite <-Hl by lia. f_equal. lia.
Qed.

Lemma byte_zero v s :
  0 <= s -> v &. Z.shiftl 0xff s = 0 -> forall j, s <= j < s + 8 -> Z.testbit v j = false.
Proof.
  intros Hs E j Hj. pose proof (f_equal (fun x => Z.testbit (Z.shiftr x s) (j - s)) E) as Hb.
  simpl in Hb. rewrite byte_of, byte_bits, Z.shiftr_0_l, Z.testbit_0_l in Hb by done.
  cmp_cases; try lia. rewrite <-Hb. f_equal. lia.
Qed.

Lemma byte_nonzero v s :
  0 <= s -> v &. Z.shiftl 0xff s <> 0 -> Z.shiftr v s &. 0xff <> 0.
Proof.
  intros Hs Hne E. apply Hne. apply Z.bits_inj'. intros n Hn.
  rewrite Z.land_spec, Z.shiftl_spec, Z.testbit_0_l by lia.
  destruct (Z.lt_ge_cases n s).
  { rewrite (Z.testbit_neg_r 0xff) by lia. apply andb_false_r. }
  pose proof (f_equal (fun x => Z.testbit x (n - s)) E) as Hb. simpl in Hb.
  rewrite byte_bits, Z.testbit_0_l in Hb by lia. change 0xff with (Z.ones 8).
  destruct (Z.lt_ge_cases (n - s) 8).
  - cmp_cases; try lia. replace (s + (n - s)) with n in Hb by lia. by rewrite Hb.
  - rewrite Z.ones_spec_high by lia. apply andb_false_r.
Qed.

Lemma ffs_spec v :
  0 < v < 2 ^ 32 -> is_lowest v (__rt_ffs v - 1) /\ 0 <= __rt_ffs v - 1 < 32.
Proof.
  intros Hv. unfold __rt_ffs, truthy. destruct (Z.eqb_spec v 0); [lia|].
  assert (0xff00 = Z.shiftl 0xff 8) as -> by done.
  assert (0xff0000 = Z.shiftl 0xff 16) as -> by done.
  assert (0xff000000 = Z.shiftl 0xff 24) as -> by done. rewrite !byte_of by lia.
  assert (forall n s, is_lowest v (s + n) /\ 0 <= n < 8 -> 0 <= s <= 24 ->
    is_lowest v (n + (s + 1) - 1) /\ 0 <= n + (s + 1) - 1 < 32) as Hfix.
  { intros n' s [Hl Hn] Hs. replace (n' + (s + 1) - 1) with (s + n') by lia.
    split; [done|lia]. }
  destruct (Z.eqb_spec (v &. 255) 0) as [E0|N0]; cbn [negb].
  2:{ apply (Hfix _ 0); [|lia]. 
      rewrite <-(Z.shiftr_0_r v) in N0.
      pose proof (byte_lowest v 0 ltac:(lia) N0 ltac:(lia)) as Hb.
      by rewrite (Z.shiftr_0_r v) in Hb. }
  pose proof (byte_zero v 0 ltac:(lia) E0) as B0.
  destruct (Z.eqb_spec (v &. Z.shiftl 255 8) 0) as [E1|N1]; cbn [negb].
  2:{ apply (Hfix _ 8); [|lia]. apply byte_lowest; [lia|by apply byte_nonzero|].
      intros; apply B0; lia. }
  pose proof (byte_zero v 8 ltac:(lia) E1) as B1.
  destruct (Z.eqb_spec (v &. Z.shiftl 255 16) 0) as [E2|N2]; cbn [negb].
  2:{ apply (Hfix _ 16); [|lia]. apply byte_lowest; [lia|by apply byte_nonzero|].
      intros j Hj. destruct (Z.lt_ge_cases j 8); [apply B0|apply B1]; lia. }
  pose proof (byte_zero v 16 ltac:(lia) E2) as B2.
  assert (forall j, 0 <= j < 24 -> Z.testbit v j = false) as B.
  { intros j Hj. destruct (Z.lt_ge_cases j 8); [apply B0; lia|].
    destruct (Z.lt_ge_cases j 16); [apply B1|apply B2]; lia. }
  apply (Hfix _ 24); [|lia]. apply byte_lowest; [lia| |apply B].
  apply byte_nonzero; [lia|]. intros E3.
  pose proof (byte_zero v 24 ltac:(lia) E3) as B3.
  assert (v = 0); [|done]. apply Z.bits_inj'. intros n' Hn'. rewrite Z.testbit_0_l.
  destruct (Z.lt_ge_cases n' 24); [apply B; lia|].
  destruct (Z.lt_ge_cases n' 32); [apply B3; lia|].
  destruct (decide (v = 0)); [done|].
  rewrite Z.bits_above_log2; [done|lia|]. apply Z.log2_lt_pow2; [lia|].
  assert (2 ^ 32 <= 2 ^ n') by (apply Z.pow_le_mono_r; lia). lia.
Qed.

(** ** The operations *)

(** [(rt_uint32_t)thread->sp <= stack_addr || sp > stack_addr + stack_size]
    stops the system; the warning below the limit only prints. *)
Definition _rt_scheduler_stack_check (th : rt_thread) : K unit :=
  RT_ASSERT (negb ((sp th <=? stack_addr th) ||
                   (sp th >? u32 (stack_addr th + stack_size th)))).

Definition rt_system_scheduler_init : K unit :=
  modify (set_rt_scheduler_lock_nest 0);;
  modify (fun k => set_tlists
    (foldr (fun offset m => <[QReady offset := []]> m) (tlists k)
       (seqZ 0 RT_THREAD_PRIORITY_MAX)) k);;
  modify (set_rt_current_priority (RT_THREAD_PRIORITY_MAX - 1));;
  modify (set_rt_current_thread None);;
  modify (set_rt_thread_ready_priority_group 0);;
  tlist_init QDefunct.

Definition rt_system_scheduler_start : K unit :=
  group ← gets rt_thread_ready_priority_group;
  let highest_ready_priority := __rt_ffs group - 1 in
  to_thread ← tlist_first (QReady highest_ready_priority);
  modify (set_rt_current_thread (Some to_thread)).

(** The context switch itself is the change of [rt_current_thread]: the code
    that runs next is the one of that thread. *)
Definition rt_schedule : K unit :=
  lock_nest ← gets rt_scheduler_lock_nest;
  when (lock_nest =? 0) (
    group ← gets rt_thread_ready_priority_group;
    let highest_ready_priority := __rt_ffs group - 1 in
    to_thread ← tlist_first (QReady highest_ready_priority);
    from_thread ← gets rt_current_thread;
    when (bool_decide (Some to_thread <> from_thread)) (
      modify (set_rt_current_priority (u8 highest_ready_priority));;
      modify (set_rt_current_thread (Some to_thread));;
      th ← deref threads to_thread;
      _rt_scheduler_stack_check th)).

Definition rt_schedule_insert_thread (t : ptr) : K unit :=
  upd_thread t (set_stat RT_THREAD_READY);;
  th ← deref threads t;
  tlist_insert_before (QReady (current_priority th)) t;;
  modify (fun k => set_rt_thread_ready_priority_group
    (rt_thread_ready_priority_group k |. number_mask th) k).

Definition rt_schedule_remove_thread (t : ptr) : K unit :=
  tlist_remove t;;
  th ← deref threads t;
  empty ← tlist_isempty (QReady (current_priority th));
  when empty (modify (fun k => set_rt_thread_ready_priority_group
    (rt_thread_ready_priority_group k &~ number_mask th) k)).

Definition rt_enter_critical : K unit :=
  modify (fun k => set_rt_scheduler_lock_nest (i16 (rt_scheduler_lock_nest k + 1)) k).

Definition rt_exit_critical : K unit :=
  modify (fun k => set_rt_scheduler_lock_nest (i16 (rt_scheduler_lock_nest k - 1)) k);;
  lock_nest ← gets rt_scheduler_lock_nest;
  if lock_nest <=? 0 then
    modify (set_rt_scheduler_lock_nest 0);;
    rt_schedule
  else mret tt.

Definition rt_critical_level : K Z :=
  lock_nest ← gets rt_scheduler_lock_nest; mret (u16 lock_nest).

(** ** The invariant

    [sched_ok ths ls g]: of the threads [ths], the lists [ls] and the ready
    group [g]. *)

Record sched_ok (ths : gmap ptr rt_thread) (ls : gmap qid (list ptr)) (g : Z) : Prop := {
  (** a thread is at most once in at most one list *)
  so_nodup q : NoDup (ls !!! q);
  so_unique q1 q2 t : t ∈ ls !!! q1 -> t ∈ ls !!! q2 -> q1 = q2;
  (** exactly the READY threads are in the ready lists, each in the list of
      its priority *)
  so_ready t th : ths !! t = Some th -> stat th = RT_THREAD_READY ->
    t ∈ ls !!! QReady (current_priority th);
  so_in_ready p t : t ∈ ls !!! QReady p ->
    exists th, ths !! t = Some th /\ stat th = RT_THREAD_READY /\ current_priority th = p;
  (** a waiting thread is suspended, a defunct one closed *)
  so_in_wait q t : t ∈ ls !!! q -> (exists p, q = QSuspend p \/ q = QSender p) ->
    exists th, ths !! t = Some th /\ stat th = RT_THREAD_SUSPEND;
  so_in_defunct t : t ∈ ls !!! QDefunct ->
    exists th, ths !! t = Some th /\ stat th = RT_THREAD_CLOSE;
  (** priorities are in range and the mask of a started thread is its bit *)
  so_prio t th : ths !! t = Some th -> 0 <= current_priority th < RT_THREAD_PRIORITY_MAX;
  so_mask t th : ths !! t = Some th ->
    stat th = RT_THREAD_READY \/ stat th = RT_THREAD_SUSPEND ->
    number_mask th = 2 ^ current_priority th;
  (** bit [p] of the group tells whether the list of priority [p] is non-empty *)
  so_group_range : 0 <= g < 2 ^ 32;
  so_group p : 0 <= p < RT_THREAD_PRIORITY_MAX ->
    Z.testbit g p = true <-> ls !!! QReady p <> [];
}.

Definition sched_inv (k : kernel) : Prop :=
  sched_ok (threads k) (tlists k) (rt_thread_ready_priority_group k).

(** The threads that the scheduler may run have a sound stack pointer. *)
Definition stack_ok (th : rt_thread) : Prop :=
  stack_addr th < sp th <= u32 (stack_addr th + stack_size th).

Definition stacks_ok (k : kernel) : Prop :=
  forall t th, threads k !! t = Some th -> stat th = RT_THREAD_READY -> stack_ok th.

Lemma sched_not_in_lists ths ls g t th q :
  sched_ok ths ls g -> ths !! t = Some th -> stat th = RT_THREAD_INIT -> t ∉ ls !!! q.
Proof.
  intros S Ht Hs Hin. destruct q.
  - destruct (so_in_ready _ _ _ S _ _ Hin) as (? & ? & ? & _). congruence.
  - destruct (so_in_defunct _ _ _ S _ Hin) as (? & ? & ?). congruence.
  - destruct (so_in_wait _ _ _ S _ _ Hin) as (? & ? & ?); [by eauto|congruence].
  - destruct (so_in_wait _ _ _ S _ _ Hin) as (? & ? & ?); [by eauto|congruence].
Qed.

(** ** The lists as sequences *)

Lemma lookup_total_remove (ls : gmap qid (list ptr)) t q :
  (filter (.≠ t) <$> ls) !!! q = filter (.≠ t) (ls !!! q).
Proof.
  rewrite !lookup_total_alt, lookup_fmap. by destruct (ls !! q).
Qed.

Lemma lookup_total_insert_list (ls : gmap qid (list ptr)) q l q' :
  <[q := l]> ls !!! q' = if decide (q = q') then l else ls !!! q'.
Proof.
  rewrite !lookup_total_alt. case_decide; subst; by simplify_map_eq.
Qed.

Lemma filter_ne_id (l : list ptr) t : t ∉ l -> filter (.≠ t) l = l.
Proof.
  induction l as [|x l IH]; intros Hn; [done|].
  rewrite filter_cons_True by set_solver. f_equal. apply IH. set_solver.
Qed.

Lemma elem_of_filter_ne (l : list ptr) t x : x ∈ filter (.≠ t) l <-> x <> t /\ x ∈ l.
Proof. by rewrite list_elem_of_filter. Qed.

(** The group after the bit of priority [p] was cleared when its list is
    empty. *)
Lemma testbit_pow2 p q : 0 <= p -> Z.testbit (2 ^ p) q = bool_decide (p = q).
Proof.
  intros Hp. case_bool_decide as E.
  - subst. by apply Z.pow2_bits_true.
  - by apply Z.pow2_bits_false.
Qed.

Lemma ldiff_range g m : 0 <= g < 2 ^ 32 -> 0 <= g &~ m < 2 ^ 32.
Proof.
  intros Hg. assert (0 <= g &~ m) by (apply Z.ldiff_nonneg; left; lia).
  split; [done|].
  destruct (decide (g &~ m = 0)) as [->|]; [lia|].
  apply Z.log2_lt_pow2; [lia|].
  assert (Z.testbit g (Z.log2 (g &~ m)) = true) as Hb.
  { pose proof (Z.bit_log2 (g &~ m) ltac:(lia)) as Hb.
    rewrite Z.ldiff_spec in Hb. by apply andb_true_iff in Hb as [? _]. }
  apply Z.nle_gt. intros Hle. revert Hb. destruct (decide (g = 0)) as [->|].
  { by rewrite Z.testbit_0_l. }
  rewrite Z.bits_above_log2; [done|lia|].
  eapply Z.lt_le_trans; [|done]. apply Z.log2_lt_pow2; lia.
Qed.

Lemma lor_range g m : 0 <= g < 2 ^ 32 -> 0 <= m < 2 ^ 32 -> 0 <= g |. m < 2 ^ 32.
Proof.
  intros Hg Hm. assert (0 <= g |. m) by (apply Z.lor_nonneg; lia).
  split; [done|]. destruct (decide (g |. m = 0)) as [->|]; [lia|].
  apply Z.log2_lt_pow2; [lia|]. rewrite Z.log2_lor by lia.
  assert (Z.log2 g < 32 /\ Z.log2 m < 32) as [? ?]; [|lia].
  split.
  - destruct (decide (g = 0)) as [->|]; [done|]. apply Z.log2_lt_pow2; lia.
  - destruct (decide (m = 0)) as [->|]; [done|]. apply Z.log2_lt_pow2; lia.
Qed.

(** ** Taking a thread out of its list *)

(** [t] leaves its list and becomes [th'], which is not READY: the invariant
    holds when the group is updated as [rt_schedule_remove_thread] does. *)
Lemma sched_ok_unlink ths ls g t th th' :
  sched_ok ths ls g -> ths !! t = Some th ->
  stat th' <> RT_THREAD_READY ->
  0 <= current_priority th' < RT_THREAD_PRIORITY_MAX ->
  (stat th' = RT_THREAD_SUSPEND -> number_mask th' = 2 ^ current_priority th') ->
  let ls' := filter (.≠ t) <$> ls in
  forall g',
  (g' = g /\ (stat th = RT_THREAD_READY -> ls' !!! QReady (current_priority th) <> []) \/
   g' = g &~ 2 ^ current_priority th /\ ls' !!! QReady (current_priority th) = []) ->
  sched_ok (<[t := th']> ths) ls' g'.
Proof.
  intros S Ht Hs' Hp' Hm' ls' g' Hg'. unfold ls' in *.
  pose proof (so_prio _ _ _ S _ _ Ht) as Hp.
  assert (forall q x, x ∈ (filter (.≠ t) <$> ls) !!! q <-> x <> t /\ x ∈ ls !!! q) as Hin.
  { intros q x. rewrite lookup_total_remove. apply elem_of_filter_ne. }
  split.
  - intros q. rewrite lookup_total_remove. apply NoDup_filter, (so_nodup _ _ _ S).
  - intros q1 q2 x [_ H1]%Hin [_ H2]%Hin. by eapply (so_unique _ _ _ S).
  - intros x xh Hx Hxs. destruct (decide (x = t)) as [->|Hne].
    { rewrite lookup_insert_eq in Hx. by simplify_eq. }
    rewrite lookup_insert_ne in Hx by done. apply Hin. split; [done|].
    by apply (so_ready _ _ _ S).
  - intros p x [Hne Hx]%Hin. rewrite lookup_insert_ne by done.
    by apply (so_in_ready _ _ _ S).
  - intros q x [Hne Hx]%Hin Hq. rewrite lookup_insert_ne by done.
    by eapply (so_in_wait _ _ _ S).
  - intros x [Hne Hx]%Hin. rewrite lookup_insert_ne by done.
    by apply (so_in_defunct _ _ _ S).
  - intros x xh Hx. destruct (decide (x = t)) as [->|Hne].
    { rewrite lookup_insert_eq in Hx. by simplify_eq. }
    rewrite lookup_insert_ne in Hx by done. by eapply (so_prio _ _ _ S).
  - intros x xh Hx Hxs. destruct (decide (x = t)) as [->|Hne].
    { rewrite lookup_insert_eq in Hx. simplify_eq. naive_solver. }
    rewrite lookup_insert_ne in Hx by done. by eapply (so_mask _ _ _ S).
  - destruct Hg' as [[-> _]|[-> _]]; [apply (so_group_range _ _ _ S)|].
    apply ldiff_range, (so_group_range _ _ _ S).
  - intros p Hpr. pose proof (so_group _ _ _ S p Hpr) as Hg.
    destruct (decide (p = current_priority th)) as [->|Hne].
    + destruct Hg' as [[-> Hnz]|[-> ->]].
      * rewrite Hg. destruct (decide (stat th = RT_THREAD_READY)) as [Hr|Hr].
        { split; [by auto|]. intros _ E. pose proof (so_ready _ _ _ S _ _ Ht Hr) as Hin'.
          rewrite E in Hin'. set_solver. }
        rewrite lookup_total_remove, filter_ne_id; [done|].
        intros (th0 & ? & ? & _)%(so_in_ready _ _ _ S). congruence.
      * rewrite Z.ldiff_spec, testbit_pow2, bool_decide_true by lia.
        rewrite andb_false_r. naive_solver.
    + rewrite lookup_total_remove, filter_ne_id.
      * rewrite <-Hg. destruct Hg' as [[-> _]|[-> _]]; [done|].
        rewrite Z.ldiff_spec, testbit_pow2, bool_decide_false, andb_true_r by (done || lia).
        done.
      * intros (th0 & ? & _ & ?)%(so_in_ready _ _ _ S). congruence.
Qed.

(** ** Putting a thread into a list *)

Definition in_no_list (ls : gmap qid (list ptr)) (t : ptr) : Prop := forall q, t ∉ ls !!! q.

Lemma in_no_list_removed (ls : gmap qid (list ptr)) t :
  in_no_list (filter (.≠ t) <$> ls) t.
Proof. intros q. rewrite lookup_total_remove, elem_of_filter_ne. naive_solver. Qed.

(** [t], in no list, becomes READY at the end of the list of its priority. *)
Lemma sched_ok_link_ready ths ls g t th th' :
  sched_ok ths ls g -> ths !! t = Some th -> in_no_list ls t ->
  stat th' = RT_THREAD_READY ->
  0 <= current_priority th' < RT_THREAD_PRIORITY_MAX ->
  number_mask th' = 2 ^ current_priority th' ->
  let q := QReady (current_priority th') in
  sched_ok (<[t := th']> ths) (<[q := ls !!! q ++ [t]]> ls) (g |. number_mask th').
Proof.
  intros S Ht Hno Hs' Hp' Hm' q. unfold RT_THREAD_PRIORITY_MAX in *.
  assert (forall q' x, x ∈ <[q := ls !!! q ++ [t]]> ls !!! q' <->
            x ∈ ls !!! q' \/ (x = t /\ q' = q)) as Hin.
  { intros q' x. rewrite lookup_total_insert_list. case_decide; set_solver. }
  split.
  - intros q'. rewrite lookup_total_insert_list.
    case_decide; [|apply (so_nodup _ _ _ S)].
    apply NoDup_app. split; [apply (so_nodup _ _ _ S)|].
    split; [|apply NoDup_singleton]. specialize (Hno q). set_solver.
  - intros q1 q2 x [H1|[-> ->]]%Hin [H2|[? ->]]%Hin; subst; try done.
    + by eapply (so_unique _ _ _ S).
    + by apply Hno in H1.
    + by apply Hno in H2.
  - intros x xh Hx Hxs. apply Hin. destruct (decide (x = t)) as [->|Hne].
    { rewrite lookup_insert_eq in Hx. simplify_eq. by right. }
    rewrite lookup_insert_ne in Hx by done. left. by apply (so_ready _ _ _ S).
  - intros p x [Hx|[-> [= ->]]]%Hin.
    + rewrite lookup_insert_ne; [by apply (so_in_ready _ _ _ S)|].
      intros ->. by apply Hno in Hx.
    + exists th'. by rewrite lookup_insert_eq.
  - intros q' x [Hx|[-> ->]]%Hin [p Hq].
    + rewrite lookup_insert_ne; [by eapply (so_in_wait _ _ _ S); eauto|].
      intros ->. by apply Hno in Hx.
    + naive_solver.
  - intros x [Hx|[-> ?]]%Hin; [|done].
    rewrite lookup_insert_ne; [by apply (so_in_defunct _ _ _ S)|].
    intros ->. by apply Hno in Hx.
  - intros x xh Hx. destruct (decide (x = t)) as [->|Hne].
    { rewrite lookup_insert_eq in Hx. by simplify_eq. }
    rewrite lookup_insert_ne in Hx by done. by eapply (so_prio _ _ _ S).
  - intros x xh Hx Hxs. destruct (decide (x = t)) as [->|Hne].
    { rewrite lookup_insert_eq in Hx. by simplify_eq. }
    rewrite lookup_insert_ne in Hx by done. by eapply (so_mask _ _ _ S).
  - apply lor_range; [apply (so_group_range _ _ _ S)|]. rewrite Hm'.
    split; [lia|]. apply Z.pow_lt_mono_r; lia.
  - intros p Hpr. rewrite Z.lor_spec, Hm', testbit_pow2 by lia.
    pose proof (so_group _ _ _ S p Hpr) as Hg. rewrite lookup_total_insert_list.
    unfold q. destruct (decide (p = current_priority th')) as [->|Hne].
    + rewrite decide_True, bool_decide_true, orb_true_r by done.
      split; [|done]. intros _ ?%app_nil. naive_solver.
    + rewrite decide_False, bool_decide_false, orb_false_r by congruence. done.
Qed.

(** [t], in no list and suspended, enters a waiting list at any position; or,
    closed, the list of defunct threads. *)
Lemma sched_ok_link ths ls g t th q l1 l2 :
  sched_ok ths ls g -> ths !! t = Some th -> in_no_list ls t ->
  (stat th = RT_THREAD_SUSPEND /\ (exists p, q = QSuspend p \/ q = QSender p) \/
   stat th = RT_THREAD_CLOSE /\ q = QDefunct) ->
  ls !!! q = l1 ++ l2 ->
  sched_ok ths (<[q := l1 ++ t :: l2]> ls) g.
Proof.
  intros S Ht Hno Hk El.
  assert (forall q' x, x ∈ <[q := l1 ++ t :: l2]> ls !!! q' <->
            x ∈ ls !!! q' \/ (x = t /\ q' = q)) as Hin.
  { intros q' x. rewrite lookup_total_insert_list.
    case_decide as E; [subst; rewrite El|]; set_solver. }
  assert (forall p, <[q := l1 ++ t :: l2]> ls !!! QReady p = ls !!! QReady p) as Hr.
  { intros p. rewrite lookup_total_insert_list, decide_False; [done|]. naive_solver. }
  split.
  - intros q'. rewrite lookup_total_insert_list.
    case_decide as E; [subst|apply (so_nodup _ _ _ S)].
    pose proof (so_nodup _ _ _ S q') as Hd. specialize (Hno q').
    rewrite El in Hd, Hno. rewrite <-Permutation_middle. constructor; done.
  - intros q1 q2 x [H1|[-> ->]]%Hin [H2|[? ->]]%Hin; subst; try done.
    + by eapply (so_unique _ _ _ S).
    + by apply Hno in H1.
    + by apply Hno in H2.
  - intros x xh Hx Hxs. rewrite Hr. by apply (so_ready _ _ _ S).
  - intros p x Hx. rewrite Hr in Hx. by apply (so_in_ready _ _ _ S).
  - intros q' x [Hx|[-> ->]]%Hin Hq; [by eapply (so_in_wait _ _ _ S)|].
    exists th. naive_solver.
  - intros x [Hx|[-> ?]]%Hin; [by apply (so_in_defunct _ _ _ S)|].
    exists th. naive_solver.
  - apply (so_prio _ _ _ S).
  - apply (so_mask _ _ _ S).
  - apply (so_group_range _ _ _ S).
  - intros p Hp. rewrite Hr. by apply (so_group _ _ _ S).
Qed.

(** Fields outside of the scheduler's concern may change freely. *)
Lemma sched_ok_update ths ls g t th th' :
  sched_ok ths ls g -> ths !! t = Some th ->
  stat th' = stat th -> current_priority th' = current_priority th ->
  number_mask th' = number_mask th ->
  sched_ok (<[t := th']> ths) ls g.
Proof.
  intros S Ht Es Ep Em.
  assert (forall x xh, <[t := th']> ths !! x = Some xh ->
    exists xh0, ths !! x = Some xh0 /\ stat xh = stat xh0 /\
      current_priority xh = current_priority xh0 /\ number_mask xh = number_mask xh0) as Hb.
  { intros x xh. destruct (decide (x = t)) as [->|]; intros; simplify_map_eq; eauto. }
  assert (forall x xh0, ths !! x = Some xh0 ->
    exists xh, <[t := th']> ths !! x = Some xh /\ stat xh = stat xh0 /\
      current_priority xh = current_priority xh0) as Hf.
  { intros x xh. destruct (decide (x = t)) as [->|]; intros; simplify_map_eq; eauto. }
  split; try apply S.
  - intros x xh (x0 & ? & E1 & E2 & E3)%Hb ?. rewrite E2.
    apply (so_ready _ _ _ S); congruence.
  - intros p x (xh0 & (xh & ? & E1 & E2)%Hf & ? & ?)%(so_in_ready _ _ _ S).
    exists xh. split_and!; congruence.
  - intros q x Hx Hq. destruct (so_in_wait _ _ _ S _ _ Hx Hq) as (xh0 & (xh & ? & E1 & E2)%Hf & ?).
    exists xh. split; congruence.
  - intros x (xh0 & (xh & ? & E1 & E2)%Hf & ?)%(so_in_defunct _ _ _ S).
    exists xh. split; congruence.
  - intros x xh (x0 & ? & E1 & E2 & E3)%Hb. rewrite E2. by eapply (so_prio _ _ _ S).
  - intros x xh (x0 & ? & E1 & E2 & E3)%Hb ?. rewrite E2, E3.
    eapply (so_mask _ _ _ S); [done|]. by rewrite <-E1.
Qed.

(** ** The operations against the invariant *)

(** The states after the two updates of the ready table. *)
Definition k_insert (t : ptr) (th : rt_thread) (k : kernel) : kernel :=
  let q := QReady (current_priority th) in
  set_rt_thread_ready_priority_group (rt_thread_ready_priority_group k |. number_mask th)
    (set_tlists (<[q := tl k q ++ [t]]> (tlists k))
       (set_threads (<[t := set_stat RT_THREAD_READY th]> (threads k)) k)).

Definition k_unlink (t : ptr) (k : kernel) : kernel :=
  set_tlists (filter (.≠ t) <$> tlists k) k.

Definition k_remove (t : ptr) (th : rt_thread) (k : kernel) : kernel :=
  match tl (k_unlink t k) (QReady (current_priority th)) with
  | [] => set_rt_thread_ready_priority_group
            (rt_thread_ready_priority_group k &~ number_mask th) (k_unlink t k)
  | _ => k_unlink t k
  end.

Lemma insert_thread_eq t th k :
  threads k !! t = Some th ->
  rt_schedule_insert_thread t k = Some (tt, k_insert t th k).
Proof.
  intros Ht. unfold rt_schedule_insert_thread, upd_thread, deref.
  unfold mbind, K_bind. rewrite Ht. simpl. by rewrite lookup_insert_eq.
Qed.

Lemma remove_thread_eq t th k :
  threads k !! t = Some th ->
  rt_schedule_remove_thread t k = Some (tt, k_remove t th k).
Proof.
  intros Ht. unfold rt_schedule_remove_thread, deref, k_remove.
  unfold mbind, K_bind. simpl. rewrite Ht. unfold tlist_isempty, gets, mbind, K_bind. simpl.
  by destruct (tl (k_unlink t k) _) eqn:E; unfold k_unlink in E; rewrite E.
Qed.

(** [t], out of its list, with its fields set to [th']. *)
Lemma k_remove_ok t th th' k :
  sched_inv k -> threads k !! t = Some th ->
  (stat th = RT_THREAD_READY \/ stat th = RT_THREAD_SUSPEND) ->
  stat th' <> RT_THREAD_READY ->
  0 <= current_priority th' < RT_THREAD_PRIORITY_MAX ->
  (stat th' = RT_THREAD_SUSPEND -> number_mask th' = 2 ^ current_priority th') ->
  sched_ok (<[t := th']> (threads k)) (tlists (k_remove t th k))
    (rt_thread_ready_priority_group (k_remove t th k)).
Proof.
  intros S Ht Hs Hs' Hp' Hm'. unfold k_remove.
  pose proof (so_mask _ _ _ S _ _ Ht Hs) as Em.
  destruct (tl (k_unlink t k) (QReady (current_priority th))) eqn:E;
    eapply sched_ok_unlink; try done; unfold tl in E; simpl in *.
  - right. by rewrite Em.
  - left. split; [done|]. intros _ E'. by rewrite E in E'.
Qed.

Lemma k_insert_ok t th k :
  sched_inv k -> threads k !! t = Some th -> in_no_list (tlists k) t ->
  number_mask th = 2 ^ current_priority th -> sched_inv (k_insert t th k).
Proof.
  intros S Ht Hno Hm.
  apply (sched_ok_link_ready _ _ _ t th (set_stat RT_THREAD_READY th)); try done.
  by apply (so_prio _ _ _ S _ _ Ht).
Qed.

Lemma k_remove_no_list t th k : in_no_list (tlists (k_remove t th k)) t.
Proof. unfold k_remove. destruct (tl _ _); apply in_no_list_removed. Qed.

Lemma k_remove_frame t th k :
  k_remove t th k = set_rt_thread_ready_priority_group
    (rt_thread_ready_priority_group (k_remove t th k)) (k_unlink t k).
Proof. unfold k_remove. by destruct (tl _ _). Qed.

(** The group is non-zero when some thread is ready, and the lowest bit is
    the highest priority of a ready thread. *)
Lemma ready_head k t th :
  sched_inv k -> threads k !! t = Some th -> stat th = RT_THREAD_READY ->
  let p := __rt_ffs (rt_thread_ready_priority_group k) - 1 in
  0 <= p < RT_THREAD_PRIORITY_MAX /\
  (exists t' l, tl k (QReady p) = t' :: l) /\
  (forall t' th', threads k !! t' = Some th' -> stat th' = RT_THREAD_READY ->
     p <= current_priority th').
Proof.
  intros S Ht Hr p.
  assert (forall t th, threads k !! t = Some th -> stat th = RT_THREAD_READY ->
    Z.testbit (rt_thread_ready_priority_group k) (current_priority th) = true) as Hb.
  { intros t' th' Ht' Hr'. apply (so_group _ _ _ S).
    - by eapply (so_prio _ _ _ S).
    - intros E. pose proof (so_ready _ _ _ S _ _ Ht' Hr') as Hin. rewrite E in Hin. set_solver. }
  pose proof (so_group_range _ _ _ S) as Hg.
  assert (rt_thread_ready_priority_group k <> 0) as Hne.
  { intros E. pose proof (Hb _ _ Ht Hr) as Hbt. by rewrite E, Z.testbit_0_l in Hbt. }
  destruct (ffs_spec (rt_thread_ready_priority_group k)) as [[Hl1 Hl2] Hrg]; [lia|].
  fold p in Hl1, Hl2, Hrg. split; [done|]. split.
  - apply (so_group _ _ _ S) in Hl1; [|done]. unfold tl.
    destruct (tlists k !!! QReady p); [done|eauto].
  - intros t' th' Ht' Hr'. apply Z.nlt_ge. intros Hlt.
    pose proof (so_prio _ _ _ S _ _ Ht').
    pose proof (Hb _ _ Ht' Hr') as Hbt. rewrite Hl2 in Hbt; [done|lia].
Qed.

(** [t] is the thread that the scheduler has to run in [k]: the first of the
    ready list of the highest priority that any ready thread has. *)
Definition elected (k : kernel) (t : ptr) : Prop :=
  exists th, threads k !! t = Some th /\ stat th = RT_THREAD_READY /\
    head (tl k (QReady (current_priority th))) = Some t /\
    forall t' th', threads k !! t' = Some th' -> stat th' = RT_THREAD_READY ->
      current_priority th <= current_priority th'.

Definition some_ready (k : kernel) : Prop :=
  exists t th, threads k !! t = Some th /\ stat th = RT_THREAD_READY.

(** The states [rt_schedule] may leave: only the current thread and its
    priority change. *)
Definition k_switch (p : Z) (t : option ptr) (k : kernel) : kernel :=
  set_rt_current_thread t (set_rt_current_priority p k).

Lemma k_switch_id k : k_switch (rt_current_priority k) (rt_current_thread k) k = k.
Proof. by destruct k. Qed.

Lemma elected_unique k t1 t2 : elected k t1 -> elected k t2 -> t1 = t2.
Proof.
  intros (th1 & H1 & R1 & E1 & L1) (th2 & H2 & R2 & E2 & L2).
  specialize (L1 _ _ H2 R2). specialize (L2 _ _ H1 R1).
  assert (current_priority th1 = current_priority th2) as E by lia.
  rewrite E in E1. congruence.
Qed.

Lemma elected_head k t th :
  sched_inv k -> threads k !! t = Some th -> stat th = RT_THREAD_READY ->
  exists t' l,
    tl k (QReady (__rt_ffs (rt_thread_ready_priority_group k) - 1)) = t' :: l /\ elected k t'.
Proof.
  intros S Ht Hr. destruct (ready_head k t th S Ht Hr) as (Hp & (t' & l & El) & Hmin).
  exists t', l. split; [done|].
  destruct (so_in_ready _ _ _ S (__rt_ffs (rt_thread_ready_priority_group k) - 1) t')
    as (th' & Ht' & Hr' & Ep).
  { unfold tl in El. rewrite El. left. }
  exists th'. rewrite Ep. split_and!; try done. by rewrite El.
Qed.

Lemma wp_rt_schedule k (Q : unit -> kernel -> Prop) :
  sched_inv k -> some_ready k -> stacks_ok k ->
  (rt_scheduler_lock_nest k <> 0 -> Q tt k) ->
  (forall t, rt_scheduler_lock_nest k = 0 -> elected k t ->
     rt_current_thread k = Some t -> Q tt k) ->
  (forall t th, rt_scheduler_lock_nest k = 0 -> elected k t ->
     rt_current_thread k <> Some t -> threads k !! t = Some th ->
     Q tt (k_switch (current_priority th) (Some t) k)) ->
  wp rt_schedule Q k.
Proof.
  intros S (t0 & th0 & Ht0 & Hr0) Hst HQ1 HQ2 HQ3. unfold rt_schedule.
  apply wp_bind, wp_gets.
  destruct (Z.eqb_spec (rt_scheduler_lock_nest k) 0) as [E0|N0]; [|by apply wp_ret, HQ1].
  destruct (elected_head k t0 th0 S Ht0 Hr0) as (t & l & El & He).
  pose proof (ready_head k t0 th0 S Ht0 Hr0) as (Hpr & _).
  unfold when. apply wp_bind, wp_gets, wp_bind. set (p := __rt_ffs _ - 1) in *.
  unfold tlist_first. apply wp_bind, wp_gets. rewrite El. apply wp_ret, wp_bind, wp_gets.
  pose proof He as (th & Ht & Hr & Eh & _).
  assert (current_priority th = p) as Ep.
  { destruct (so_in_ready _ _ _ S p t) as (th' & ? & ? & ?); [|congruence].
    unfold tl in El. rewrite El. left. }
  unfold RT_THREAD_PRIORITY_MAX in Hpr. case_bool_decide as Hne.
  - apply wp_bind, wp_modify, wp_bind, wp_modify, wp_bind.
    apply (wp_deref _ _ th); [done|]. apply wp_assert.
    + pose proof (Hst t th Ht Hr) as [? ?].
      apply negb_true_iff, orb_false_iff. split; lia.
    + rewrite (wrap_small 8 p), <-Ep by (unfold in_u; lia).
      by apply HQ3; [..|congruence|].
  - apply wp_ret. apply (HQ2 t); [done..|].
    destruct (decide (Some t = rt_current_thread k)); done.
Qed.

(** What clients need: whatever the outcome, only the current thread and its
    priority have changed. *)
Lemma wp_rt_schedule_frame k (Q : unit -> kernel -> Prop) :
  sched_inv k -> some_ready k -> stacks_ok k ->
  (forall p c,
     (c = rt_current_thread k /\ p = rt_current_priority k) \/
     (exists t th, c = Some t /\ elected k t /\ threads k !! t = Some th /\
        p = current_priority th) ->
     (rt_scheduler_lock_nest k = 0 -> exists t, c = Some t /\ elected k t) ->
     (rt_scheduler_lock_nest k <> 0 -> c = rt_current_thread k) ->
     Q tt (k_switch p c k)) ->
  wp rt_schedule Q k.
Proof.
  intros S Hr Hst HQ. apply wp_rt_schedule; try done.
  - intros. rewrite <-(k_switch_id k). apply HQ; naive_solver.
  - intros. rewrite <-(k_switch_id k). apply HQ; naive_solver.
  - intros. apply HQ; naive_solver.
Qed.

(** ** Properties *)

(** [__rt_ffs]: for a non-zero 32-bit word the table-driven routine returns one plus
    the index of the least significant set bit; for zero it returns zero. *)
Theorem rt_ffs_correct v :
  0 <= v < 2 ^ 32 ->
  (v = 0 /\ __rt_ffs v = 0) \/
  (0 < __rt_ffs v <= 32 /\ Z.testbit v (__rt_ffs v - 1) = true /\
   forall j, 0 <= j < __rt_ffs v - 1 -> Z.testbit v j = false).
Proof.
  intros Hv. destruct (decide (v = 0)) as [->|]; [by left|right].
  destruct (ffs_spec v) as [[H1 H2] ?]; [lia|]. split; [lia|]. done.
Qed.

(** C1. [rt_schedule] returns in every state whose ready table is consistent, in which
    some thread is ready and the ready threads have sound stacks.  With the
    scheduler locked nothing changes; otherwise the current thread becomes the
    head of the ready list of the highest priority of any ready thread, and
    nothing but the current thread and its priority changes. *)
Theorem rt_schedule_elects k :
  sched_inv k -> some_ready k -> stacks_ok k ->
  exists k', rt_schedule k = Some (tt, k') /\
    k' = k_switch (rt_current_priority k') (rt_current_thread k') k /\
    (rt_scheduler_lock_nest k <> 0 -> k' = k) /\
    (rt_scheduler_lock_nest k = 0 ->
       exists t, rt_current_thread k' = Some t /\ elected k' t).
Proof.
  intros S Hr Hst.
  assert (wp rt_schedule (fun _ k' =>
    k' = k_switch (rt_current_priority k') (rt_current_thread k') k /\
    (rt_scheduler_lock_nest k <> 0 -> k' = k) /\
    (rt_scheduler_lock_nest k = 0 ->
       exists t, rt_current_thread k' = Some t /\ elected k' t)) k) as H.
  { apply wp_rt_schedule; try done.
    - intros ?. split_and!; [by rewrite k_switch_id|done|done].
    - intros t ? ? ?. split_and!; [by rewrite k_switch_id|done|by eauto].
    - intros t th E0 He Hne Ht. split_and!; [done| |].
      + done.
      + intros _. by exists t. }
  apply wp_exists in H as ([] & k' & ? & ?). eauto.
Qed.

(** One ready thread, as the idle thread is. *)
Lemma sched_ok_single t th :
  stat th = RT_THREAD_READY -> 0 <= current_priority th < RT_THREAD_PRIORITY_MAX ->
  number_mask th = 2 ^ current_priority th ->
  sched_ok {[t := th]} {[QReady (current_priority th) := [t]]} (2 ^ current_priority th).
Proof.
  intros Hs Hp Hm. unfold RT_THREAD_PRIORITY_MAX in *.
  assert (forall q, ({[QReady (current_priority th) := [t]]} : gmap qid (list ptr)) !!! q =
    if decide (QReady (current_priority th) = q) then [t] else []) as Hl.
  { intros q. rewrite <-insert_empty, lookup_total_insert_list.
    by rewrite lookup_total_empty. }
  split.
  - intros q. rewrite Hl. case_decide; [apply NoDup_singleton|apply NoDup_nil_2].
  - intros q1 q2 x. rewrite !Hl. repeat case_decide; set_solver.
  - intros x xh [<- <-]%lookup_singleton_Some _. rewrite Hl, decide_True; [left|done].
  - intros p x. rewrite Hl. case_decide as E; [|set_solver]. intros ->%list_elem_of_singleton.
    injection E as <-. exists th. by rewrite lookup_singleton_eq.
  - intros q x. rewrite Hl. case_decide; set_solver.
  - intros x. rewrite Hl. case_decide; set_solver.
  - by intros x xh [<- <-]%lookup_singleton_Some.
  - by intros x xh [<- <-]%lookup_singleton_Some.
  - split; [lia|]. apply Z.pow_lt_mono_r; lia.
  - intros p Hpr. rewrite Hl, testbit_pow2 by lia.
    destruct (decide (current_priority th = p)) as [->|Hne].
    + rewrite decide_True, bool_decide_true by done. done.
    + rewrite decide_False, bool_decide_false by congruence. done.
Qed.

Definition demo_thread (prio : Z) : rt_thread :=
  Thread 536871168 0 0 536870912 512 0 RT_THREAD_READY prio prio (2 ^ prio) 0 0 32 32 None 0.
Definition demo_idle : kernel :=
  set_rt_thread_ready_priority_group (2 ^ 31)
    (set_tlists {[QReady 31 := [64]]} (set_threads {[64 := demo_thread 31]} kernel_bss)).

Lemma demo_idle_ok : sched_inv demo_idle /\ some_ready demo_idle /\ stacks_ok demo_idle.
Proof.
  split_and!.
  - by apply (sched_ok_single 64 (demo_thread 31)).
  - exists 64, (demo_thread 31). done.
  - intros t th Ht _. change (({[64 := demo_thread 31]} : gmap ptr rt_thread) !! t = Some th) in Ht.
    by apply lookup_singleton_Some in Ht as [<- <-].
Qed.

Lemma rt_ffs_correct_witness : 0 <= 0x50 < 2 ^ 32 /\ __rt_ffs 0x50 = 5.
Proof.
  pose proof (rt_ffs_correct 0x50 ltac:(lia)) as H.
  destruct H as [[? ?]|(? & ? & ?)]; split; try lia; reflexivity.
Defined.

Lemma rt_schedule_elects_witness :
  exists k', rt_schedule demo_idle = Some (tt, k') /\ rt_current_thread k' = Some 64.
Proof.
  destruct demo_idle_ok as (H1 & H2 & H3).
  destruct (rt_schedule_elects demo_idle H1 H2 H3) as (k' & E & _ & _ & _).
  exists k'. split; [exact E|]. vm_compute in E. injection E as <-. reflexivity.
Defined.
