(* ===== verification/Object.v ===== *)
(** * The object container: src/object.c

    Every kernel object is kept in the list of its class; a name is stored in
    [RT_NAME_MAX] bytes.  Memory of dynamic objects comes from the heap: the
    address that [rt_malloc] returned (or null) is an argument of the creating
    functions, and freeing an object makes its address invalid. *)

From S2P Require Import Prelude KString Kernel Scheduler.

(** ** Classes *)

Definition RT_Object_Class_Thread : Z := 0.
Definition RT_Object_Class_Semaphore : Z := 1.
Definition RT_Object_Class_Mutex : Z := 2.
Definition RT_Object_Class_Event : Z := 3.
Definition RT_Object_Class_MailBox : Z := 4.
Definition RT_Object_Class_MessageQueue : Z := 5.
Definition RT_Object_Class_MemPool : Z := 6.
Definition RT_Object_Class_Device : Z := 7.
Definition RT_Object_Class_Timer : Z := 8.
Definition RT_Object_Class_Unknown : Z := 9.
Definition RT_Object_Class_Static : Z := 0x80.

(** The container as its static initialiser leaves it: one empty list per
    class below [RT_Object_Class_Unknown]. *)
Definition rt_object_container_init : gmap Z (list ref) :=
  foldr (fun c m => <[c := []]> m) ∅ (seqZ 0 RT_Object_Class_Unknown).

(** ** Operations *)

Definition container_insert (type : Z) (r : ref) : K unit :=
  l ← deref object_container type;
  modify (fun k => set_object_container (<[type := r :: l]> (object_container k)) k).

Definition rt_object_init (r : ref) (type : Z) (name : list Z) : K unit :=
  nm ← lift (KString.rt_strncpy name RT_NAME_MAX);
  modify (fun k => set_objects
    (<[r := Object nm (type |. RT_Object_Class_Static)]> (objects k)) k);;
  container_insert type r.

Definition rt_object_detach (r : ref) : K unit :=
  modify (fun k => set_object_container (filter (.≠ r) <$> object_container k) k).

(** [mem]: what [RT_KERNEL_MALLOC] returned. *)
Definition rt_object_allocate (mem : option ptr) (type : Z) (name : list Z) :
    K (option ptr) :=
  RT_DEBUG_NOT_IN_INTERRUPT;;
  match mem with
  | None => mret None
  | Some p =>
      nm ← lift (KString.rt_strncpy name RT_NAME_MAX);
      modify (fun k => set_objects (<[Obj p := Object nm type]> (objects k)) k);;
      container_insert type (Obj p);;
      mret (Some p)
  end.

(** [RT_KERNEL_FREE(object)]: nothing lives at the address any more. *)
Definition free_object (r : ref) (k : kernel) : kernel :=
  let k := set_timers (delete r (timers k)) (set_objects (delete r (objects k)) k) in
  match r with
  | TimerOf _ => k
  | Obj p =>
      set_timers (delete (TimerOf p) (timers k))
      (set_threads (delete p (threads k))
      (set_sems (delete p (sems k))
      (set_mutexes (delete p (mutexes k))
      (set_events (delete p (events k))
      (set_mailboxes (delete p (mailboxes k))
      (set_mqs (delete p (mqs k))
      (set_mempools (delete p (mempools k)) k)))))))
  end.

Definition rt_object_delete (r : ref) : K unit :=
  o ← deref objects r;
  RT_ASSERT (negb (truthy (obj_type o &. RT_Object_Class_Static)));;
  rt_object_detach r;;
  modify (free_object r).

Definition rt_object_is_systemobject (r : ref) : K bool :=
  o ← deref objects r;
  mret (truthy (obj_type o &. RT_Object_Class_Static)).

Fixpoint rt_object_find_loop (name : list Z) (l : list ref) : K (option ref) :=
  match l with
  | [] => rt_exit_critical;; mret None
  | r :: l' =>
      o ← deref objects r;
      c ← lift (KString.rt_strncmp (obj_name o) name RT_NAME_MAX);
      if c =? 0 then rt_exit_critical;; mret (Some r)
      else rt_object_find_loop name l'
  end.

Definition rt_object_find (name : option (list Z)) (type : Z) : K (option ref) :=
  match name with
  | None => mret None
  | Some name =>
      if type >? RT_Object_Class_Unknown then mret None
      else
        nest ← gets rt_interrupt_nest;
        when (negb (nest =? 0)) (RT_ASSERT false);;
        rt_enter_critical;;
        l ← deref object_container type;
        rt_object_find_loop name l
  end.
