(* ===== verification/Timer.v ===== *)
(** * Timers: src/timer.c

    The list of running timers, ordered by the tick at which they expire.
    Ticks are 32-bit and wrap around; a timer is at most [RT_TICK_MAX / 2]
    ticks in the future, and "earlier" is read off the sign of the 32-bit
    difference.  [RT_TIMER_SKIP_LIST_LEVEL] is 1, so the skip list is one row,
    and the timers are hard timers ([RT_USING_TIMER_SOFT] is off). *)

From Stdlib Require Import Sorted.
From S2P Require Import Prelude Kernel Scheduler Object.

Definition RT_TIMER_FLAG_ACTIVATED : Z := 0x1.
Definition RT_TIMER_FLAG_PERIODIC : Z := 0x2.
Definition RT_TIMER_CTRL_SET_TIME : Z := 0x0.
Definition RT_TIMER_CTRL_GET_TIME : Z := 0x1.
Definition RT_TIMER_CTRL_SET_ONESHOT : Z := 0x2.
Definition RT_TIMER_CTRL_SET_PERIODIC : Z := 0x3.

(** ** Operations *)

Definition _rt_timer_init (r : ref) (timeout : timeout_fn) (parameter time flag : Z) : K unit :=
  put_timer r (Timer (u8 flag &~ RT_TIMER_FLAG_ACTIVATED) timeout parameter time 0).

Definition rt_timer_list_next_timeout : K Z :=
  l ← gets rt_timer_list;
  match l with
  | [] => mret RT_TICK_MAX
  | r :: _ => tm ← deref timers r; mret (timeout_tick tm)
  end.

Definition rt_timer_next_timeout_tick : K Z := rt_timer_list_next_timeout.

Definition _rt_timer_remove (r : ref) : K unit :=
  modify (fun k => set_rt_timer_list (filter (.≠ r) (rt_timer_list k)) k).

Definition rt_timer_init (r : ref) (name : list Z) (timeout : timeout_fn)
    (parameter time flag : Z) : K unit :=
  rt_object_init r RT_Object_Class_Timer name;;
  _rt_timer_init r timeout parameter time flag.

Definition rt_timer_detach (r : ref) : K Z :=
  _rt_timer_remove r;;
  rt_object_detach r;;
  mret (- RT_EOK).

Definition rt_timer_create (mem : option ptr) (name : list Z) (timeout : timeout_fn)
    (parameter time flag : Z) : K (option ptr) :=
  timer ← rt_object_allocate mem RT_Object_Class_Timer name;
  match timer with
  | None => mret None
  | Some p => _rt_timer_init (Obj p) timeout parameter time flag;; mret (Some p)
  end.

Definition rt_timer_delete (r : ref) : K Z :=
  _rt_timer_remove r;;
  rt_object_delete r;;
  mret (- RT_EOK).

(** The walk of [rt_timer_start] along the row, from the list head: [r] goes
    in front of the first timer that expires strictly later. *)
Fixpoint timer_row_insert (ts : gmap ref rt_timer) (tick : Z) (r : ref) (l : list ref) :
    option (list ref) :=
  match l with
  | [] => Some [r]
  | t :: l' =>
      tm ← ts !! t;
      let diff := u32 (timeout_tick tm - tick) in
      if diff =? 0 then (fun rest => t :: rest) <$> timer_row_insert ts tick r l'
      else if diff <? RT_TICK_MAX / 2 then Some (r :: t :: l')
      else (fun rest => t :: rest) <$> timer_row_insert ts tick r l'
  end.

Definition rt_timer_start (r : ref) : K Z :=
  tm ← deref timers r;
  if truthy (tm_flag tm &. RT_TIMER_FLAG_ACTIVATED) then mret (- RT_ERROR)
  else
    RT_ASSERT (tm_init_tick tm <? RT_TICK_MAX / 2);;
    now ← gets rt_tick;
    upd_timer r (set_timeout_tick (u32 (now + tm_init_tick tm)));;
    ts ← gets timers;
    l ← gets rt_timer_list;
    l' ← lift (timer_row_insert ts (u32 (now + tm_init_tick tm)) r l);
    modify (fun k => set_random_nr (u32 (random_nr k + 1)) k);;
    modify (set_rt_timer_list l');;
    upd_timer r (fun tm => set_tm_flag (tm_flag tm |. RT_TIMER_FLAG_ACTIVATED) tm);;
    mret (- RT_EOK).

Definition rt_timer_stop (r : ref) : K Z :=
  tm ← deref timers r;
  if negb (truthy (tm_flag tm &. RT_TIMER_FLAG_ACTIVATED)) then mret (- RT_ERROR)
  else
    _rt_timer_remove r;;
    upd_timer r (fun tm => set_tm_flag (tm_flag tm &~ RT_TIMER_FLAG_ACTIVATED) tm);;
    mret RT_EOK.

(** [arg] is the tick that [arg] points to; the result carries what it points
    to afterwards. *)
Definition rt_timer_control (r : ref) (cmd arg : Z) : K (Z * Z) :=
  tm ← deref timers r;
  if cmd =? RT_TIMER_CTRL_GET_TIME then mret (RT_EOK, tm_init_tick tm)
  else if cmd =? RT_TIMER_CTRL_SET_TIME then
    upd_timer r (set_tm_init_tick arg);; mret (RT_EOK, arg)
  else if cmd =? RT_TIMER_CTRL_SET_ONESHOT then
    upd_timer r (fun tm => set_tm_flag (tm_flag tm &~ RT_TIMER_FLAG_PERIODIC) tm);;
    mret (RT_EOK, arg)
  else if cmd =? RT_TIMER_CTRL_SET_PERIODIC then
    upd_timer r (fun tm => set_tm_flag (tm_flag tm |. RT_TIMER_FLAG_PERIODIC) tm);;
    mret (RT_EOK, arg)
  else mret (RT_EOK, arg).

Section check.

(** The call through the function pointer of a timer. *)
Context (timeout_call : timeout_fn -> Z -> K unit).

Fixpoint rt_timer_check_loop (fuel : nat) (current_tick : Z) : K unit :=
  match fuel with
  | O => halt
  | S fuel =>
      l ← gets rt_timer_list;
      match l with
      | [] => mret tt
      | t :: _ =>
          tm ← deref timers t;
          if u32 (current_tick - timeout_tick tm) <? RT_TICK_MAX / 2 then
            _rt_timer_remove t;;
            timeout_call (timeout_func tm) (tm_parameter tm);;
            current_tick ← gets rt_tick;
            tm ← deref timers t;
            (if truthy (tm_flag tm &. RT_TIMER_FLAG_PERIODIC) &&
                truthy (tm_flag tm &. RT_TIMER_FLAG_ACTIVATED) then
               upd_timer t (fun tm => set_tm_flag (tm_flag tm &~ RT_TIMER_FLAG_ACTIVATED) tm);;
               rt_timer_start t;;
               mret tt
             else
               upd_timer t (fun tm => set_tm_flag (tm_flag tm &~ RT_TIMER_FLAG_ACTIVATED) tm));;
            rt_timer_check_loop fuel current_tick
          else mret tt
      end
  end.

Definition rt_timer_check (fuel : nat) : K unit :=
  current_tick ← gets rt_tick;
  rt_timer_check_loop fuel current_tick.

End check.

Definition rt_system_timer_init : K unit := modify (set_rt_timer_list []).

(** ** The order of the list *)

#[export] Instance rt_timer_inhabited : Inhabited rt_timer :=
  populate (Timer 0 fn_rt_thread_timeout 0 0 0).

(** Ticks until [r] expires, negative when it is overdue. *)
Definition due (ts : gmap ref rt_timer) (now : Z) (r : ref) : Z :=
  i32 (timeout_tick (ts !!! r) - now).

Definition active (tm : rt_timer) : Prop :=
  Z.testbit (tm_flag tm) 0 = true.

Record timer_ok (ts : gmap ref rt_timer) (l : list ref) (now : Z) : Prop := {
  to_nodup : NoDup l;
  to_in r : r ∈ l -> exists tm, ts !! r = Some tm /\ active tm;
  (** a tick may just have passed: a timer is overdue by at most one tick *)
  to_range r : r ∈ l -> -1 <= due ts now r < RT_TICK_MAX / 2;
  to_sorted : StronglySorted (fun r1 r2 => due ts now r1 <= due ts now r2) l;
}.

Definition timer_inv (k : kernel) : Prop := timer_ok (timers k) (rt_timer_list k) (rt_tick k).

(** ** Arithmetic of ticks *)

Lemma due_shift x now e d :
  i32 (x - now) = d -> u32 (x - u32 (now + e)) = u32 (d - e).
Proof.
  unfold swrap, wrap. change (2 ^ (32 - 1)) with (2 ^ 31). intros <-.
  rewrite Zminus_mod_idemp_r.
  rewrite (Z.mod_eq (x - now + 2 ^ 31)) by done.
  replace (x - now + 2 ^ 31 - 2 ^ 32 * ((x - now + 2 ^ 31) / 2 ^ 32) - 2 ^ 31 - e)
    with (x - (now + e) + (- ((x - now + 2 ^ 31) / 2 ^ 32)) * 2 ^ 32) by ring.
  by rewrite Z_mod_plus_full.
Qed.

Lemma u32_neg x : - 2 ^ 32 <= x < 0 -> u32 x = x + 2 ^ 32.
Proof.
  intros. unfold wrap. symmetry. apply Z.mod_unique with (-1); lia.
Qed.

(** The comparison of the C code, [diff < RT_TICK_MAX / 2] on 32-bit words, for
    differences of timers in the list. *)
Lemma tick_before_spec d e :
  -1 <= d < RT_TICK_MAX / 2 -> 0 <= e < RT_TICK_MAX / 2 ->
  (u32 (d - e) = 0 <-> d = e) /\ (u32 (d - e) < RT_TICK_MAX / 2 <-> e <= d).
Proof.
  unfold RT_TICK_MAX. change (4294967295 / 2) with 2147483647. intros Hd He.
  destruct (Z.lt_ge_cases d e).
  - rewrite u32_neg by lia. lia.
  - rewrite wrap_small by (unfold in_u; lia). lia.
Qed.

(** Expiry test of [rt_timer_check]. *)
Lemma expired_spec x now :
  - 1 <= i32 (x - now) < RT_TICK_MAX / 2 ->
  u32 (now - x) < RT_TICK_MAX / 2 <-> i32 (x - now) <= 0.
Proof.
  set (d := i32 (x - now)). unfold RT_TICK_MAX. change (4294967295 / 2) with 2147483647.
  intros Hd.
  assert (u32 (now - x) = u32 (- d)) as ->.
  { subst d. unfold swrap, wrap. change (2 ^ (32 - 1)) with (2 ^ 31).
    rewrite (Z.mod_eq (x - now + 2 ^ 31)) by done.
    set (q := (x - now + 2 ^ 31) / 2 ^ 32).
    replace (- (x - now + 2 ^ 31 - 2 ^ 32 * q - 2 ^ 31)) with (now - x + q * 2 ^ 32) by ring.
    by rewrite Z_mod_plus_full. }
  destruct (Z.lt_ge_cases 0 d).
  - rewrite u32_neg by lia. lia.
  - rewrite wrap_small by (unfold in_u; lia). lia.
Qed.

Lemma due_start now e :
  0 <= e < RT_TICK_MAX / 2 -> i32 (u32 (now + e) - now) = e.
Proof.
  unfold RT_TICK_MAX. change (4294967295 / 2) with 2147483647. intros He.
  unfold swrap, wrap. change (2 ^ (32 - 1)) with (2 ^ 31).
  replace ((now + e) mod 2 ^ 32 - now + 2 ^ 31) with ((now + e) mod 2 ^ 32 + (2 ^ 31 - now)) by ring.
  rewrite Zplus_mod_idemp_l. replace (now + e + (2 ^ 31 - now)) with (e + 2 ^ 31) by ring.
  rewrite Z.mod_small; lia.
Qed.

Lemma i32_pred x d : i32 x = d -> - 2 ^ 31 < d -> i32 (x - 1) = d - 1.
Proof.
  unfold swrap. change (2 ^ (32 - 1)) with (2 ^ 31). intros E Hd.
  replace (x - 1 + 2 ^ 31) with ((x + 2 ^ 31) + (-1)) by ring.
  rewrite <-Zplus_mod_idemp_l.
  replace ((x + 2 ^ 31) mod 2 ^ 32) with (d + 2 ^ 31) by lia.
  pose proof (Z.mod_pos_bound (x + 2 ^ 31) (2 ^ 32)).
  rewrite Z.mod_small; lia.
Qed.

(** ** The flags *)

Lemma truthy_active tm :
  truthy (tm_flag tm &. RT_TIMER_FLAG_ACTIVATED) = Z.testbit (tm_flag tm) 0.
Proof.
  unfold truthy, RT_TIMER_FLAG_ACTIVATED. change 1 with (Z.ones 1).
  rewrite Z.land_ones by lia. rewrite Z.bit0_odd, Zodd_mod. change (2 ^ 1) with 2.
  unfold Zeq_bool. pose proof (Z.mod_pos_bound (tm_flag tm) 2 ltac:(lia)).
  destruct (Z.eqb_spec (tm_flag tm mod 2) 0) as [->|]; [done|].
  by replace (tm_flag tm mod 2) with 1 by lia.
Qed.

Lemma active_or tm : active (set_tm_flag (tm_flag tm |. RT_TIMER_FLAG_ACTIVATED) tm).
Proof. unfold active. cbn [tm_flag set_tm_flag]. rewrite Z.lor_spec. apply orb_true_r. Qed.

Lemma inactive_diff tm :
  ~ active (set_tm_flag (tm_flag tm &~ RT_TIMER_FLAG_ACTIVATED) tm).
Proof.
  unfold active. cbn [tm_flag set_tm_flag]. rewrite Z.ldiff_spec. simpl.
  by rewrite andb_false_r.
Qed.

(** ** Insertion keeps the list sorted, and is stable *)

Lemma row_insert_split ts now r e l :
  0 <= e < RT_TICK_MAX / 2 ->
  (forall t, t ∈ l -> is_Some (ts !! t) /\ -1 <= due ts now t < RT_TICK_MAX / 2) ->
  StronglySorted (fun r1 r2 => due ts now r1 <= due ts now r2) l ->
  exists l1 l2, l = l1 ++ l2 /\
    timer_row_insert ts (u32 (now + e)) r l = Some (l1 ++ r :: l2) /\
    (forall t, t ∈ l1 -> due ts now t <= e) /\ (forall t, t ∈ l2 -> e < due ts now t).
Proof.
  intros He Hl Hs. induction Hs as [|t l Hs IH Ht].
  { exists [], []. set_solver. }
  destruct (Hl t ltac:(left)) as [[tm Etm] Hd]. simpl. rewrite Etm. simpl.
  assert (due ts now t = i32 (timeout_tick tm - now)) as Ed.
  { unfold due. by rewrite (lookup_total_correct _ _ _ Etm). }
  rewrite (due_shift _ now e (due ts now t)) by done.
  destruct (tick_before_spec (due ts now t) e Hd He) as [H0 Hlt].
  destruct IH as (l1 & l2 & -> & Ei & Hl1 & Hl2).
  { intros x Hx. apply Hl. by right. }
  rewrite Forall_forall in Ht.
  assert (due ts now t <= e -> exists l1' l2', t :: l1 ++ l2 = l1' ++ l2' /\
    ((fun rest => t :: rest) <$> timer_row_insert ts (u32 (now + e)) r (l1 ++ l2)) =
      Some (l1' ++ r :: l2') /\
    (forall x, x ∈ l1' -> due ts now x <= e) /\ (forall x, x ∈ l2' -> e < due ts now x)) as Hgo.
  { intros Hle. exists (t :: l1), l2. rewrite Ei. split_and!; try done.
    intros x [->|Hx]%elem_of_cons; [done|by apply Hl1]. }
  destruct (Z.eqb_spec (u32 (due ts now t - e)) 0); [apply Hgo; lia|].
  destruct (Z.ltb_spec (u32 (due ts now t - e)) (RT_TICK_MAX / 2)); [|apply Hgo; lia].
  exists [], (t :: l1 ++ l2). split_and!; try done; [set_solver|].
  assert (e < due ts now t) by lia.
  intros x [->|Hx]%elem_of_cons; [done|].
  apply Ht in Hx. lia.
Qed.

Lemma sorted_insert {A} (f : A -> Z) l1 l2 r :
  StronglySorted (fun x y => f x <= f y) (l1 ++ l2) ->
  (forall t, t ∈ l1 -> f t <= f r) -> (forall t, t ∈ l2 -> f r <= f t) ->
  StronglySorted (fun x y => f x <= f y) (l1 ++ r :: l2).
Proof.
  intros Hs H1 H2. induction l1 as [|a l1 IH]; simpl in *.
  - constructor; [done|]. by apply Forall_forall.
  - apply StronglySorted_inv in Hs as [Hs Ha]. constructor.
    + apply IH; [done|]. intros; apply H1. by right.
    + rewrite Forall_app, Forall_cons in *. destruct Ha as [? ?].
      split_and!; try done. apply H1. left.
Qed.

Lemma sorted_filter {A} (R : A -> A -> Prop) P `{forall x, Decision (P x)} l :
  StronglySorted R l -> StronglySorted R (filter P l).
Proof.
  induction 1 as [|a l Hs IH Ha]; [constructor|].
  destruct (decide (P a)).
  - rewrite filter_cons_True by done. constructor; [done|].
    rewrite Forall_forall in *. intros x [_ Hx]%list_elem_of_filter. by apply Ha.
  - by rewrite filter_cons_False by done.
Qed.

Lemma sorted_ext {A} (R1 R2 : A -> A -> Prop) l :
  (forall x y, x ∈ l -> y ∈ l -> R1 x y -> R2 x y) ->
  StronglySorted R1 l -> StronglySorted R2 l.
Proof.
  intros HR Hs. induction Hs as [|a l Hs IH Ha]; [constructor|]. constructor.
  - apply IH. intros x y Hx Hy. apply HR; by right.
  - rewrite Forall_forall in *. intros x Hx. apply HR; [left|by right|]. by apply Ha.
Qed.

Lemma due_insert_ne ts now r r' tm : r <> r' -> due (<[r := tm]> ts) now r' = due ts now r'.
Proof. intros. unfold due. by rewrite lookup_total_insert_ne. Qed.

Lemma due_insert_eq ts now r tm : due (<[r := tm]> ts) now r = i32 (timeout_tick tm - now).
Proof. unfold due. by rewrite lookup_total_insert_eq. Qed.

(** Updating a timer that is not in the list, or only its flags. *)
Lemma timer_ok_update ts l now r tm' :
  timer_ok ts l now -> r ∉ l -> timer_ok (<[r := tm']> ts) l now.
Proof.
  intros [Hn Hi Hr Hs] Hnot.
  assert (forall x, x ∈ l -> due (<[r := tm']> ts) now x = due ts now x) as Hd.
  { intros x Hx. apply due_insert_ne. by intros ->. }
  split; [done| | |].
  - intros x Hx. rewrite lookup_insert_ne by (by intros ->). by apply Hi.
  - intros x Hx. rewrite Hd by done. by apply Hr.
  - eapply sorted_ext; [|done]. intros x y Hx Hy. by rewrite !Hd.
Qed.

Lemma timer_ok_update_in ts l now r tm tm' :
  timer_ok ts l now -> ts !! r = Some tm -> timeout_tick tm' = timeout_tick tm ->
  (active tm -> active tm') -> timer_ok (<[r := tm']> ts) l now.
Proof.
  intros [Hn Hi Hr Hs] Ht Et Ha.
  assert (forall x, due (<[r := tm']> ts) now x = due ts now x) as Hd.
  { intros x. destruct (decide (r = x)) as [<-|]; [|by apply due_insert_ne].
    rewrite due_insert_eq, Et. unfold due. by rewrite (lookup_total_correct _ _ _ Ht). }
  split; [done| | |].
  - intros x Hx. destruct (decide (r = x)) as [<-|].
    + rewrite lookup_insert_eq. destruct (Hi _ Hx) as (? & ? & ?). simplify_eq. eauto.
    + rewrite lookup_insert_ne by done. by apply Hi.
  - intros x Hx. rewrite Hd. by apply Hr.
  - eapply sorted_ext; [|done]. intros x y Hx Hy. by rewrite !Hd.
Qed.

Lemma timer_ok_filter ts l now P `{forall x, Decision (P x)} :
  timer_ok ts l now -> timer_ok ts (filter P l) now.
Proof.
  intros [Hn Hi Hr Hs]. split.
  - by apply NoDup_filter.
  - intros x [_ Hx]%list_elem_of_filter. by apply Hi.
  - intros x [_ Hx]%list_elem_of_filter. by apply Hr.
  - by apply sorted_filter.
Qed.

(** ** The operations against the invariant *)

(** A timer as [rt_timer_start] leaves it. *)
Definition started (now : Z) (tm : rt_timer) : rt_timer :=
  set_tm_flag (tm_flag tm |. RT_TIMER_FLAG_ACTIVATED)
    (set_timeout_tick (u32 (now + tm_init_tick tm)) tm).

Lemma inactive_not_in ts l now r tm :
  timer_ok ts l now -> ts !! r = Some tm -> ~ active tm -> r ∉ l.
Proof. intros [_ Hi _ _] Ht Ha (tm' & ? & ?)%Hi. congruence. Qed.

Lemma timer_ok_start ts l now r tm l1 l2 :
  timer_ok ts l now -> r ∉ l -> 0 <= tm_init_tick tm < RT_TICK_MAX / 2 ->
  l = l1 ++ l2 ->
  (forall t, t ∈ l1 -> due ts now t <= tm_init_tick tm) ->
  (forall t, t ∈ l2 -> tm_init_tick tm < due ts now t) ->
  timer_ok (<[r := started now tm]> ts) (l1 ++ r :: l2) now.
Proof.
  intros T Hnot He -> H1 H2.
  pose proof (timer_ok_update _ _ _ r (started now tm) T Hnot) as [Hn Hi Hr Hs].
  set (ts' := <[r := started now tm]> ts) in *.
  assert (due ts' now r = tm_init_tick tm) as Er.
  { subst ts'. rewrite due_insert_eq. by apply due_start. }
  assert (forall t, t ∈ l1 ++ l2 -> due ts' now t = due ts now t) as Ed.
  { intros t Ht. apply due_insert_ne. by intros ->. }
  split.
  - rewrite <-Permutation_middle. by constructor.
  - intros x. rewrite elem_of_app, elem_of_cons. intros [?|[->|?]]; [apply Hi; set_solver| |apply Hi; set_solver].
    subst ts'. rewrite lookup_insert_eq. eexists. split; [done|]. apply (active_or (set_timeout_tick _ tm)).
  - intros x. rewrite elem_of_app, elem_of_cons. intros [?|[->|?]]; [apply Hr; set_solver| |apply Hr; set_solver].
    rewrite Er. lia.
  - apply (sorted_insert (due ts' now)); [done| |]; rewrite Er.
    + intros t Ht. rewrite Ed by set_solver. by apply H1.
    + intros t Ht. rewrite Ed by set_solver. apply H2 in Ht. lia.
Qed.

Definition k_timer_start (r : ref) (tm : rt_timer) (l : list ref) (k : kernel) : kernel :=
  set_timers (<[r := started (rt_tick k) tm]> (timers k))
    (set_rt_timer_list l (set_random_nr (u32 (random_nr k + 1)) k)).

Lemma wp_timer_start k r tm (Q : Z -> kernel -> Prop) :
  timer_inv k -> timers k !! r = Some tm -> ~ active tm ->
  0 <= tm_init_tick tm < RT_TICK_MAX / 2 ->
  (forall l1 l2, rt_timer_list k = l1 ++ l2 ->
     (forall t, t ∈ l1 -> due (timers k) (rt_tick k) t <= tm_init_tick tm) ->
     (forall t, t ∈ l2 -> tm_init_tick tm < due (timers k) (rt_tick k) t) ->
     timer_inv (k_timer_start r tm (l1 ++ r :: l2) k) ->
     Q (- RT_EOK) (k_timer_start r tm (l1 ++ r :: l2) k)) ->
  wp (rt_timer_start r) Q k.
Proof.
  intros T Ht Ha He HQ. unfold rt_timer_start. apply wp_bind, (wp_deref _ _ tm); [done|].
  rewrite truthy_active. unfold active in Ha. destruct (Z.testbit (tm_flag tm) 0) eqn:Ea; [done|].
  assert (~ active tm) as Ha' by (unfold active; congruence).
  pose proof (inactive_not_in _ _ _ _ _ T Ht Ha') as Hnot.
  apply wp_bind, wp_assert; [lia|]. apply wp_bind, wp_gets.
  apply wp_bind, (wp_upd_timer _ _ tm); [done|]. apply wp_bind, wp_gets, wp_bind, wp_gets.
  set (tm1 := set_timeout_tick _ tm). cbn [rt_tick timers rt_timer_list set_timers].
  pose proof (timer_ok_update _ _ _ r tm1 T Hnot) as T1.
  destruct (row_insert_split (<[r:=tm1]> (timers k)) (rt_tick k) r (tm_init_tick tm) (rt_timer_list k))
    as (l1 & l2 & El & Ei & H1 & H2); [done| |apply T1|].
  { intros t Hin. split; [|by apply T1]. destruct (to_in _ _ _ T1 t Hin) as (? & ? & _). eauto. }
  assert (forall t, t ∈ l1 ++ l2 -> due (<[r:=tm1]> (timers k)) (rt_tick k) t =
    due (timers k) (rt_tick k) t) as Ed.
  { intros t Hin. apply due_insert_ne. intros ->. congruence. }
  apply wp_bind, (wp_lift _ (l1 ++ r :: l2)); [done|].
  apply wp_bind, wp_modify, wp_bind, wp_modify, wp_bind.
  apply (wp_upd_timer _ _ tm1); [simpl; by rewrite lookup_insert_eq|]. apply wp_ret.
  assert (timer_inv (k_timer_start r tm (l1 ++ r :: l2) k)) as T2.
  { unfold timer_inv, k_timer_start. simpl. eapply timer_ok_start; try done.
    - intros t Hin. rewrite <-Ed by set_solver. by apply H1.
    - intros t Hin. rewrite <-Ed by set_solver. by apply H2. }
  match goal with |- Q _ ?x => replace x with (k_timer_start r tm (l1 ++ r :: l2) k) end.
  - apply HQ; try done.
    + intros t Hin. rewrite <-Ed by set_solver. by apply H1.
    + intros t Hin. rewrite <-Ed by set_solver. by apply H2.
  - unfold k_timer_start, set_timers, set_rt_timer_list, set_random_nr. simpl.
    by rewrite insert_insert_eq.
Qed.

(** Starting an active timer is refused and changes nothing. *)
Lemma wp_timer_start_active k r tm (Q : Z -> kernel -> Prop) :
  timers k !! r = Some tm -> active tm -> Q (- RT_ERROR) k -> wp (rt_timer_start r) Q k.
Proof.
  intros Ht Ha HQ. unfold rt_timer_start. apply wp_bind, (wp_deref _ _ tm); [done|].
  rewrite truthy_active, Ha. by apply wp_ret.
Qed.

Definition stopped (tm : rt_timer) : rt_timer :=
  set_tm_flag (tm_flag tm &~ RT_TIMER_FLAG_ACTIVATED) tm.

Definition k_timer_stop (r : ref) (tm : rt_timer) (k : kernel) : kernel :=
  set_timers (<[r := stopped tm]> (timers k))
    (set_rt_timer_list (filter (.≠ r) (rt_timer_list k)) k).

Lemma k_timer_stop_ok r tm k : timer_inv k -> timer_inv (k_timer_stop r tm k).
Proof.
  intros T. apply timer_ok_update; [by apply timer_ok_filter|].
  simpl. rewrite list_elem_of_filter. naive_solver.
Qed.

Lemma timer_stop_eq k r tm :
  timers k !! r = Some tm ->
  (active tm /\ rt_timer_stop r k = Some (RT_EOK, k_timer_stop r tm k)) \/
  (~ active tm /\ rt_timer_stop r k = Some (- RT_ERROR, k)).
Proof.
  intros Ht. unfold rt_timer_stop, deref, mbind, K_bind. rewrite Ht, truthy_active.
  unfold active. destruct (Z.testbit (tm_flag tm) 0); [left|by right].
  split; [done|]. simpl. unfold upd_timer, deref, mbind, K_bind. simpl. by rewrite Ht.
Qed.
