(* ===== verification/Thread.v ===== *)
(** * Threads: src/thread.c, src/idle.c, and the initial stack frame of
    libcpu/arm/cortex-m3/cpuport.c

    A function that gives up the processor in the middle is cut at its call
    of [rt_schedule]: the part before it, which ends with that call, and a
    [_resume] function, what the thread does when it runs again. *)

From S2P Require Import Prelude KString Kernel Scheduler Object Timer.

Definition RT_THREAD_CTRL_STARTUP : Z := 0x00.
Definition RT_THREAD_CTRL_CLOSE : Z := 0x01.
Definition RT_THREAD_CTRL_CHANGE_PRIORITY : Z := 0x02.

(** ** The initial stack *)

(** [struct stack_frame]: sixteen words, r4-r11 and the exception frame. *)
Definition sizeof_stack_frame : Z := 64.

(** The stack pointer of a new thread and the sixteen words found there. *)
Definition rt_hw_stack_init (tentry parameter stack_addr texit : Z) : Z * list Z :=
  let stk := u32 (stack_addr + 4) in
  let stk := RT_ALIGN_DOWN stk 8 in
  let stk := u32 (stk - sizeof_stack_frame) in
  (stk, replicate 8 0xdeadbeef ++
        [parameter; 0; 0; 0; 0; texit; tentry; 0x01000000]).

(** The address of [rt_thread_exit], the return address of thread entries. *)
Definition addr_rt_thread_exit : Z := 0x08000101.

(** ** Life cycle *)

(** [old] is what the memory of the thread held before: the fields that the
    function does not write keep its contents. *)
Definition _rt_thread_init (t : ptr) (old : rt_thread) (nm : list Z)
    (entry parameter stack_start stack_size priority tick : Z) : K Z :=
  let stack_size := u16 stack_size in
  let sp := fst (rt_hw_stack_init entry parameter
                   (u32 (stack_start + stack_size - 4)) addr_rt_thread_exit) in
  RT_ASSERT (priority <? RT_THREAD_PRIORITY_MAX);;
  put_thread t (Thread sp entry parameter stack_start stack_size RT_EOK RT_THREAD_INIT
    priority priority (number_mask old) (event_set old) (event_info old)
    tick tick None 0);;
  rt_timer_init (TimerOf t) nm fn_rt_thread_timeout t 0 0;;
  mret RT_EOK.

Definition rt_thread_init (t : ptr) (old : rt_thread) (name : list Z)
    (entry parameter stack_start stack_size priority tick : Z) : K Z :=
  RT_ASSERT (negb (stack_start =? 0));;
  rt_object_init (Obj t) RT_Object_Class_Thread name;;
  o ← deref objects (Obj t);
  _rt_thread_init t old (obj_name o) entry parameter stack_start stack_size priority tick.

(** [mem] and [stack]: what [rt_malloc] returned for the thread and for its
    stack. *)
Definition rt_thread_create (mem stack : option ptr) (old : rt_thread) (name : list Z)
    (entry parameter stack_size priority tick : Z) : K (option ptr) :=
  thread ← rt_object_allocate mem RT_Object_Class_Thread name;
  match thread with
  | None => mret None
  | Some t =>
      match stack with
      | None => rt_object_delete (Obj t);; mret None
      | Some stack_start =>
          o ← deref objects (Obj t);
          _rt_thread_init t old (obj_name o) entry parameter stack_start stack_size
            priority tick;;
          mret (Some t)
      end
  end.

Definition rt_thread_self : K (option ptr) := gets rt_current_thread.

(** The current thread, dereferenced. *)
Definition current : K ptr :=
  self ← rt_thread_self; lift self.

Definition rt_thread_resume (t : ptr) : K Z :=
  th ← deref threads t;
  if bool_decide (stat th <> RT_THREAD_SUSPEND) then mret (- RT_ERROR)
  else
    tlist_remove t;;
    rt_timer_stop (TimerOf t);;
    rt_schedule_insert_thread t;;
    mret RT_EOK.

Definition rt_thread_suspend (t : ptr) : K Z :=
  th ← deref threads t;
  if bool_decide (stat th <> RT_THREAD_READY) then mret (- RT_ERROR)
  else
    upd_thread t (set_stat RT_THREAD_SUSPEND);;
    rt_schedule_remove_thread t;;
    mret RT_EOK.

Definition rt_thread_startup (t : ptr) : K Z :=
  th ← deref threads t;
  RT_ASSERT (bool_decide (stat th = RT_THREAD_INIT));;
  upd_thread t (fun th => set_current_priority (init_priority th) th);;
  upd_thread t (fun th => set_number_mask (u32 (Z.shiftl 1 (current_priority th))) th);;
  upd_thread t (set_stat RT_THREAD_SUSPEND);;
  rt_thread_resume t;;
  self ← rt_thread_self;
  when (bool_decide (self <> None)) rt_schedule;;
  mret RT_EOK.

Definition rt_thread_exit : K unit :=
  t ← current;
  rt_schedule_remove_thread t;;
  upd_thread t (set_stat RT_THREAD_CLOSE);;
  rt_timer_detach (TimerOf t);;
  sys ← rt_object_is_systemobject (Obj t);
  th ← deref threads t;
  (if sys && bool_decide (cleanup th = None) then rt_object_detach (Obj t)
   else tlist_insert_after QDefunct t);;
  rt_schedule.

Definition rt_thread_detach (t : ptr) : K Z :=
  rt_schedule_remove_thread t;;
  rt_timer_detach (TimerOf t);;
  upd_thread t (set_stat RT_THREAD_CLOSE);;
  rt_object_detach (Obj t);;
  th ← deref threads t;
  when (bool_decide (cleanup th <> None)) (tlist_insert_after QDefunct t);;
  mret RT_EOK.

Definition rt_thread_delete (t : ptr) : K Z :=
  rt_schedule_remove_thread t;;
  rt_timer_detach (TimerOf t);;
  upd_thread t (set_stat RT_THREAD_CLOSE);;
  tlist_insert_after QDefunct t;;
  mret RT_EOK.

(** ** Running *)

(** [tlist.next != tlist.prev] of a thread in a list: it is not alone. *)
Definition rt_thread_yield : K Z :=
  t ← current;
  th ← deref threads t;
  l ← gets (fun k => tl k (QReady (current_priority th)));
  if bool_decide (stat th = RT_THREAD_READY) &&
     bool_decide (t ∈ l) && bool_decide (2 <= length l)%nat then
    tlist_remove t;;
    tlist_insert_before (QReady (current_priority th)) t;;
    rt_schedule;;
    mret RT_EOK
  else mret RT_EOK.

Definition rt_thread_sleep (tick : Z) : K unit :=
  t ← current;
  rt_thread_suspend t;;
  rt_timer_control (TimerOf t) RT_TIMER_CTRL_SET_TIME tick;;
  rt_timer_start (TimerOf t);;
  rt_schedule.

Definition rt_thread_sleep_resume (t : ptr) : K Z :=
  th ← deref threads t;
  when (error th =? - RT_ETIMEOUT) (upd_thread t (set_error RT_EOK));;
  mret RT_EOK.

Definition rt_thread_delay (tick : Z) : K unit := rt_thread_sleep tick.

Definition rt_thread_change_priority (t : ptr) (prio : Z) : K unit :=
  upd_thread t (set_current_priority prio);;
  upd_thread t (set_number_mask (u32 (Z.shiftl 1 prio))).

Definition rt_thread_control (t : ptr) (cmd arg : Z) : K Z :=
  if cmd =? RT_THREAD_CTRL_CHANGE_PRIORITY then
    th ← deref threads t;
    (if bool_decide (stat th = RT_THREAD_READY) then
       rt_schedule_remove_thread t;;
       rt_thread_change_priority t (u8 arg);;
       rt_schedule_insert_thread t
     else rt_thread_change_priority t (u8 arg));;
    mret RT_EOK
  else if cmd =? RT_THREAD_CTRL_STARTUP then rt_thread_startup t
  else if cmd =? RT_THREAD_CTRL_CLOSE then rt_thread_delete t
  else mret RT_EOK.

Definition rt_thread_timeout (t : ptr) : K unit :=
  th ← deref threads t;
  RT_ASSERT (bool_decide (stat th = RT_THREAD_SUSPEND));;
  upd_thread t (set_error (- RT_ETIMEOUT));;
  tlist_remove t;;
  rt_schedule_insert_thread t;;
  rt_schedule.

Fixpoint rt_thread_find_loop (name : list Z) (l : list ref) : K (option ref) :=
  self ← rt_thread_self;
  match l with
  | [] => when (bool_decide (self <> None)) rt_exit_critical;; mret None
  | r :: l' =>
      o ← deref objects r;
      c ← lift (KString.rt_strncmp (obj_name o) name RT_NAME_MAX);
      if c =? 0 then
        when (bool_decide (self <> None)) rt_exit_critical;; mret (Some r)
      else rt_thread_find_loop name l'
  end.

Definition rt_thread_find (name : list Z) : K (option ref) :=
  self ← rt_thread_self;
  when (bool_decide (self <> None)) rt_enter_critical;;
  l ← deref object_container RT_Object_Class_Thread;
  rt_thread_find_loop name l.

(** ** The idle thread *)

(** The addresses that the linker gives to [idle] and to its stack. *)
Definition idle : ptr := 0x20000100.
Definition rt_thread_stack : ptr := 0x20000200.
Definition IDLE_THREAD_STACK_SIZE : Z := 256.
Definition addr_rt_thread_idle_entry : Z := 0x08000201.
(** "tidle" *)
Definition idle_name : list Z := [116; 105; 100; 108; 101; 0].

(** The memory of [idle] is in the zeroed data segment. *)
Definition zero_thread : rt_thread :=
  Thread 0 0 0 0 0 0 RT_THREAD_INIT 0 0 0 0 0 0 0 None 0.

Definition rt_thread_idle_init : K unit :=
  rt_thread_init idle zero_thread idle_name addr_rt_thread_idle_entry 0
    rt_thread_stack IDLE_THREAD_STACK_SIZE (RT_THREAD_PRIORITY_MAX - 1) 32;;
  rt_thread_startup idle;;
  mret tt.

Section idle_excute.

(** The call of [thread->cleanup]. *)
Context (cleanup_call : Z -> ptr -> K unit).

Fixpoint rt_thread_idle_excute (fuel : nat) : K unit :=
  match fuel with
  | O => halt
  | S fuel =>
      empty ← tlist_isempty QDefunct;
      if (empty : bool) then mret tt
      else
        RT_DEBUG_NOT_IN_INTERRUPT;;
        t ← tlist_first QDefunct;
        tlist_remove t;;
        th ← deref threads t;
        match cleanup th with
        | Some f => cleanup_call f t
        | None => mret tt
        end;;
        sys ← rt_object_is_systemobject (Obj t);
        if (sys : bool) then mret tt
        else
          rt_object_delete (Obj t);;
          rt_thread_idle_excute fuel
  end.

End idle_excute.

(** ** Start-up

    The kernel's part of [rtthread_startup], with the application's
    initialisation [app]. *)
Definition rtthread_startup (app : K unit) : K unit :=
  rt_system_scheduler_init;;
  rt_system_timer_init;;
  app;;
  rt_thread_idle_init;;
  rt_system_scheduler_start.

Definition kernel_reset : kernel := set_object_container rt_object_container_init kernel_bss.
