(* ===== verification/KernelOk.v ===== *)
(** * The invariant of the kernel

    [kernel_ok] ties the scheduler, the threads and their timers together.
    It holds whenever code of a thread or of an interrupt handler runs, and
    every operation of the kernel preserves it; the lemmas here treat the
    operations of thread.c, on which the IPC objects are built. *)

From S2P Require Import Prelude KString Kernel Scheduler Object Timer Thread.

(** Who runs: a thread, or the tick interrupt, possibly while it calls the
    timeout function of a timer that it has taken off the list. *)
Inductive mode := Task | Isr (fired : option ref).

Definition periodic (tm : rt_timer) : bool := Z.testbit (tm_flag tm) 1.

Record kok (m : mode) (now : Z) (cur : option ptr) (ths : gmap ptr rt_thread)
    (ls : gmap qid (list ptr)) (g : Z) (l : list ref) (ts : gmap ref rt_timer) : Prop := {
  ko_sched : sched_ok ths ls g;
  ko_timer : timer_ok ts l now;
  ko_stack t th : ths !! t = Some th -> stack_ok th;
  (** the idle thread is always ready *)
  ko_idle : exists th, ths !! idle = Some th /\ stat th = RT_THREAD_READY;
  ko_current t : cur = Some t -> is_Some (ths !! t);
  (** the timer of a thread wakes that thread, once; when it is active it is
      in the list or being fired *)
  ko_thread_timer t th : ths !! t = Some th -> stat th <> RT_THREAD_CLOSE ->
    exists tm, ts !! TimerOf t = Some tm /\ timeout_func tm = fn_rt_thread_timeout /\
      tm_parameter tm = t /\ periodic tm = false /\
      (active tm -> TimerOf t ∈ l \/ m = Isr (Some (TimerOf t)));
  (** a thread whose timer runs is suspended *)
  ko_timed t : TimerOf t ∈ l -> exists th, ths !! t = Some th /\ stat th = RT_THREAD_SUSPEND;
  (** the timer being fired is off the list; one of a thread belongs to a
      thread that lives *)
  ko_fired r : m = Isr (Some r) -> r ∉ l;
  (** between interrupts no timer is overdue *)
  ko_due r : m = Task -> r ∈ l -> 0 <= due ts now r;
  (** periodic timers can be restarted *)
  ko_periodic r tm : ts !! r = Some tm -> periodic tm = true ->
    1 <= tm_init_tick tm < RT_TICK_MAX / 2;
  (** [rt_thread_timeout] is the function of thread timers only *)
  ko_user p tm : ts !! Obj p = Some tm -> exists f, timeout_func tm = fn_user f;
}.

Definition kernel_ok (m : mode) (k : kernel) : Prop :=
  kok m (rt_tick k) (rt_current_thread k) (threads k) (tlists k)
    (rt_thread_ready_priority_group k) (rt_timer_list k) (timers k).

Lemma kernel_ok_sched m k : kernel_ok m k -> sched_inv k.
Proof. by intros []. Qed.
Lemma kernel_ok_timer m k : kernel_ok m k -> timer_inv k.
Proof. by intros []. Qed.
Lemma kernel_ok_ready m k : kernel_ok m k -> some_ready k.
Proof. intros [_ _ _ (th & ? & ?)]. by exists idle, th. Qed.
Lemma kernel_ok_stacks m k : kernel_ok m k -> stacks_ok k.
Proof. intros [_ _ H] t th Ht _. by eapply H. Qed.
#[export] Hint Resolve kernel_ok_sched kernel_ok_timer kernel_ok_ready kernel_ok_stacks : rtt.

(** ** Changes of one thread *)

(** A thread that is in no timer list changes; the scheduler's part is proved
    separately. *)
Lemma kok_thread m now cur ths ls g l ts t th th' ls' g' :
  kok m now cur ths ls g l ts -> ths !! t = Some th ->
  sched_ok (<[t := th']> ths) ls' g' ->
  stack_ok th' ->
  (t = idle -> stat th' = RT_THREAD_READY) ->
  (stat th = RT_THREAD_CLOSE -> stat th' = RT_THREAD_CLOSE) ->
  (TimerOf t ∈ l -> stat th' = RT_THREAD_SUSPEND) ->
  kok m now cur (<[t := th']> ths) ls' g' l ts.
Proof.
  intros O Ht S' Hst Hid Hcl Htm. destruct O as [S T Hs Hi Hc Htt Hti Hf Hd Hp Hu]. split; try done.
  - intros x xh. destruct (decide (x = t)) as [->|]; intros; simplify_map_eq; eauto.
  - destruct Hi as (ih & Ei & Ri). destruct (decide (idle = t)) as [<-|].
    + exists th'. rewrite lookup_insert_eq. auto.
    + exists ih. by rewrite lookup_insert_ne.
  - intros x Hx. destruct (decide (x = t)) as [->|]; simplify_map_eq; eauto.
  - intros x xh Hx Hx'. destruct (decide (x = t)) as [->|]; simplify_map_eq; [|by eauto].
    apply (Htt t th); naive_solver.
  - intros x Hx. destruct (decide (x = t)) as [->|]; simplify_map_eq; eauto.
Qed.

(** Fields that the invariant does not mention. *)
Lemma kok_update m now cur ths ls g l ts t th th' :
  kok m now cur ths ls g l ts -> ths !! t = Some th ->
  stat th' = stat th -> current_priority th' = current_priority th ->
  number_mask th' = number_mask th -> sp th' = sp th ->
  stack_addr th' = stack_addr th -> stack_size th' = stack_size th ->
  kok m now cur (<[t := th']> ths) ls g l ts.
Proof.
  intros O Ht Es Ep Em E1 E2 E3. pose proof O as [S T Hs Hi Hc Htt Hti Hf Hd Hp Hu].
  eapply kok_thread; try done.
  - by eapply sched_ok_update.
  - unfold stack_ok. rewrite E1, E2, E3. by eapply Hs.
  - intros ->. destruct Hi as (? & ? & ?). congruence.
  - congruence.
  - intros (? & ? & ?)%Hti. congruence.
Qed.

(** Scheduling. *)
Lemma kok_current m now cur cur' ths ls g l ts :
  kok m now cur ths ls g l ts -> (forall t, cur' = Some t -> is_Some (ths !! t)) ->
  kok m now cur' ths ls g l ts.
Proof. intros [S T Hs Hi Hc Htt Hti Hf Hd Hp Hu] ?. by split. Qed.

Lemma elected_lookup k t : elected k t -> is_Some (threads k !! t).
Proof. intros (? & ? & _). eauto. Qed.

(** A waiting thread enters a suspend list. *)
Lemma kok_wait m now cur ths ls g l ts t th q l1 l2 :
  kok m now cur ths ls g l ts -> ths !! t = Some th -> in_no_list ls t ->
  stat th = RT_THREAD_SUSPEND -> (exists p, q = QSuspend p \/ q = QSender p) ->
  ls !!! q = l1 ++ l2 ->
  kok m now cur ths (<[q := l1 ++ t :: l2]> ls) g l ts.
Proof.
  intros [S T Hs Hi Hc Htt Hti Hf Hd Hp Hu] Ht Hno Hst Hq El. split; try done.
  eapply sched_ok_link; try done. by left.
Qed.

(** ** Changes of one timer *)

Lemma periodic_or tm :
  periodic (set_tm_flag (tm_flag tm |. RT_TIMER_FLAG_ACTIVATED) tm) = periodic tm.
Proof.
  unfold periodic. cbn [tm_flag set_tm_flag]. rewrite Z.lor_spec. apply orb_false_r.
Qed.

Lemma periodic_diff tm :
  periodic (set_tm_flag (tm_flag tm &~ RT_TIMER_FLAG_ACTIVATED) tm) = periodic tm.
Proof.
  unfold periodic. cbn [tm_flag set_tm_flag]. rewrite Z.ldiff_spec. apply andb_true_r.
Qed.

(** The timer [r] becomes [tm'], the list becomes [l']: what has to be checked
    besides the order of the list. *)
Lemma kok_timers m now cur ths ls g l ts r tm tm' l' :
  kok m now cur ths ls g l ts -> ts !! r = Some tm ->
  timer_ok (<[r := tm']> ts) l' now ->
  (forall x, x <> r -> x ∈ l' <-> x ∈ l) ->
  timeout_func tm' = timeout_func tm -> tm_parameter tm' = tm_parameter tm ->
  (forall t, r = TimerOf t -> periodic tm = false -> periodic tm' = false) ->
  (periodic tm' = true -> 1 <= tm_init_tick tm' < RT_TICK_MAX / 2) ->
  (active tm' -> r ∈ l' \/ m = Isr (Some r)) ->
  (forall t, r = TimerOf t -> r ∈ l' -> exists th, ths !! t = Some th /\ stat th = RT_THREAD_SUSPEND) ->
  (m = Isr (Some r) -> r ∉ l') ->
  (m = Task -> r ∈ l' -> 0 <= due (<[r := tm']> ts) now r) ->
  kok m now cur ths ls g l' (<[r := tm']> ts).
Proof.
  intros O Ht T' Hl Ef Ep Hpt Hpi Ha Hs Hf' Hd'.
  destruct O as [S T Hst Hi Hc Htt Hti Hf Hd Hp Hu]. split; try done.
  - intros t th Hth Hcl. destruct (Htt t th Hth Hcl) as (tm0 & E0 & F0 & P0 & N0 & A0).
    destruct (decide (r = TimerOf t)) as [->|Hne].
    + exists tm'. rewrite lookup_insert_eq. assert (tm0 = tm) as -> by congruence.
      rewrite Ef, Ep. split_and!; try done. by apply (Hpt t).
    + exists tm0. rewrite lookup_insert_ne by done. rewrite Hl by done. done.
  - intros t Hin. destruct (decide (r = TimerOf t)) as [->|Hne]; [by eapply Hs|].
    apply Hti. by apply Hl.
  - intros x Hm Hin. destruct (decide (x = r)) as [->|Hne]; [by apply Hf'|].
    rewrite Hl in Hin by done. by eapply Hf.
  - intros x Hm Hin. destruct (decide (x = r)) as [->|Hne]; [by apply Hd'|].
    rewrite due_insert_ne by done. apply Hd; [done|]. by apply Hl.
  - intros x xm Hx Hper. destruct (decide (r = x)) as [->|Hne].
    + rewrite lookup_insert_eq in Hx. simplify_eq. by apply Hpi.
    + rewrite lookup_insert_ne in Hx by done. by eapply Hp.
  - intros p pm Hx. destruct (decide (r = Obj p)) as [->|Hne].
    + rewrite lookup_insert_eq in Hx. simplify_eq. rewrite Ef. by eapply Hu.
    + rewrite lookup_insert_ne in Hx by done. by eapply Hu.
Qed.

(** Fields that do not matter to a running timer: its period. *)
Lemma kok_timer_control m now cur ths ls g l ts r tm tm' :
  kok m now cur ths ls g l ts -> ts !! r = Some tm ->
  timeout_tick tm' = timeout_tick tm -> (active tm' <-> active tm) ->
  timeout_func tm' = timeout_func tm -> tm_parameter tm' = tm_parameter tm ->
  (forall t, r = TimerOf t -> periodic tm = false -> periodic tm' = false) ->
  (periodic tm' = true -> 1 <= tm_init_tick tm' < RT_TICK_MAX / 2) ->
  (active tm -> r ∈ l \/ m = Isr (Some r)) ->
  kok m now cur ths ls g l (<[r := tm']> ts).
Proof.
  intros O Ht Et Ea Ef Ep Hpt Hpi Hin.
  eapply kok_timers; try done.
  - eapply timer_ok_update_in; [apply O|done..|]. by apply Ea.
  - intros. apply Hin. by apply Ea.
  - intros t -> Hr. by apply (ko_timed _ _ _ _ _ _ _ _ O).
  - intros Hm. by apply (ko_fired _ _ _ _ _ _ _ _ O).
  - intros Hm Hr. rewrite due_insert_eq, Et.
    pose proof (ko_due _ _ _ _ _ _ _ _ O r Hm Hr) as H. unfold due in H.
    by rewrite (lookup_total_correct _ _ _ Ht) in H.
Qed.

Lemma kok_timer_start m now cur ths ls g l ts r tm l1 l2 :
  kok m now cur ths ls g l ts -> ts !! r = Some tm -> ~ active tm ->
  0 <= tm_init_tick tm < RT_TICK_MAX / 2 ->
  l = l1 ++ l2 ->
  timer_ok (<[r := started now tm]> ts) (l1 ++ r :: l2) now ->
  (forall t, r = TimerOf t ->
     exists th, ths !! t = Some th /\ stat th = RT_THREAD_SUSPEND) ->
  m <> Isr (Some r) ->
  kok m now cur ths ls g (l1 ++ r :: l2) (<[r := started now tm]> ts).
Proof.
  intros O Ht Ha Hi -> T' Hr Hm.
  assert (periodic (started now tm) = periodic tm) as Eper.
  { apply (periodic_or (set_timeout_tick (u32 (now + tm_init_tick tm)) tm)). }
  eapply kok_timers; try done.
  - intros x Hx. set_solver.
  - intros t E. by rewrite Eper.
  - rewrite Eper. change (tm_init_tick (started now tm)) with (tm_init_tick tm).
    by apply (ko_periodic _ _ _ _ _ _ _ _ O r).
  - intros _. left. set_solver.
  - intros t E _. by apply (Hr t E).
  - intros _ _. rewrite due_insert_eq. cbn [started timeout_tick set_tm_flag set_timeout_tick].
    rewrite due_start; lia.
Qed.

Lemma kok_timer_stop m now cur ths ls g l ts r tm :
  kok m now cur ths ls g l ts -> ts !! r = Some tm ->
  kok m now cur ths ls g (filter (.≠ r) l) (<[r := stopped tm]> ts).
Proof.
  intros O Ht. assert (r ∉ filter (.≠ r) l) as Hnot.
  { rewrite list_elem_of_filter. naive_solver. }
  eapply kok_timers; try done.
  - apply timer_ok_update; [|done]. apply timer_ok_filter, O.
  - intros x Hx. rewrite list_elem_of_filter. naive_solver.
  - intros t _. unfold stopped. by rewrite periodic_diff.
  - unfold stopped. rewrite periodic_diff. cbn [tm_init_tick set_tm_flag].
    by apply (ko_periodic _ _ _ _ _ _ _ _ O r).
  - intros Ha. by apply inactive_diff in Ha.
Qed.

(** Taking a timer off the list without touching its flags, as firing and
    detaching do. *)
Lemma kok_timer_unlink m m' now cur ths ls g l ts r :
  kok m now cur ths ls g l ts ->
  (forall t th tm, r = TimerOf t -> ths !! t = Some th -> stat th <> RT_THREAD_CLOSE ->
     ts !! r = Some tm -> active tm -> m' = Isr (Some r)) ->
  (forall x, m = Isr (Some x) -> m' = Isr (Some x)) ->
  (forall x, m' = Isr (Some x) -> m = Isr (Some x) \/ x = r) ->
  (m' = Task -> m = Task) ->
  kok m' now cur ths ls g (filter (.≠ r) l) ts.
Proof.
  intros [S T Hst Hi Hc Htt Hti Hf Hd Hp Hu] Hr Hm1 Hm2 Hm3. split; try done.
  - by apply timer_ok_filter.
  - intros t th Ht Hcl. destruct (Htt t th Ht Hcl) as (tm & E & F & P & N & A).
    exists tm. split_and!; try done. intros Ha.
    destruct (decide (TimerOf t = r)) as [<-|Hne]; [right; by eapply Hr|].
    destruct (A Ha) as [Hin|Hm]; [left|right; by apply Hm1].
    by rewrite list_elem_of_filter.
  - intros t [_ Hin]%list_elem_of_filter. by apply Hti.
  - intros x Hx [Hne Hin]%list_elem_of_filter.
    destruct (Hm2 x Hx) as [Hm| ->]; [by apply (Hf x)|done].
  - intros x Hx [_ Hin]%list_elem_of_filter. apply Hd; [by apply Hm3|done].
Qed.

(** ** Suspending and resuming *)

Definition k_susp (t : ptr) (th : rt_thread) (g : Z) (k : kernel) : kernel :=
  set_rt_thread_ready_priority_group g
    (set_tlists (filter (.≠ t) <$> tlists k)
      (set_threads (<[t := set_stat RT_THREAD_SUSPEND th]> (threads k)) k)).

(** The lists after [t] left its list and went to the end of the ready list of
    its priority. *)
Definition ready_lists (t : ptr) (th : rt_thread) (ls : gmap qid (list ptr)) :
    gmap qid (list ptr) :=
  let q := QReady (current_priority th) in
  let ls := filter (.≠ t) <$> ls in
  <[q := ls !!! q ++ [t]]> ls.

Lemma ready_lists_other_ready t th ls q :
  q <> QReady (current_priority th) ->
  ready_lists t th ls !!! q = filter (.≠ t) (ls !!! q).
Proof.
  intros Hq. unfold ready_lists.
  rewrite lookup_total_insert_list, decide_False by done. apply lookup_total_remove.
Qed.

Definition k_resm (t : ptr) (th : rt_thread) (g : Z) (l : list ref) (ts : gmap ref rt_timer)
    (k : kernel) : kernel :=
  set_timers ts
    (set_rt_timer_list l
      (set_rt_thread_ready_priority_group g
        (set_tlists (ready_lists t th (tlists k))
          (set_threads (<[t := set_stat RT_THREAD_READY th]> (threads k)) k)))).

Lemma wp_suspend m k t th (Q : Z -> kernel -> Prop) :
  kernel_ok m k -> threads k !! t = Some th -> stat th = RT_THREAD_READY -> t <> idle ->
  (forall g, kernel_ok m (k_susp t th g k) -> Q RT_EOK (k_susp t th g k)) ->
  wp (rt_thread_suspend t) Q k.
Proof.
  intros O Ht Hs Hid HQ. unfold rt_thread_suspend.
  apply wp_bind, (wp_deref _ _ th); [done|].
  rewrite bool_decide_false by (by intros []).
  apply wp_bind, (wp_upd_thread _ _ th); [done|].
  set (th1 := set_stat RT_THREAD_SUSPEND th). set (k1 := set_threads _ k).
  assert (threads k1 !! t = Some th1) as Ht1 by (simpl; by rewrite lookup_insert_eq).
  pose proof (remove_thread_eq t th1 k1 Ht1) as E.
  apply wp_bind. unfold wp at 1. rewrite E. apply wp_ret.
  assert (k_remove t th1 k1 =
    k_susp t th (rt_thread_ready_priority_group (k_remove t th1 k1)) k) as E1.
  { rewrite (k_remove_frame t th1 k1) at 1. done. }
  rewrite E1. apply HQ. unfold kernel_ok, k_susp. simpl.
  pose proof (ko_sched _ _ _ _ _ _ _ _ O) as S.
  eapply kok_thread; try done; simpl.
  - pose proof (k_remove_ok t th th1 k S Ht (or_introl Hs)) as R.
    assert (k_remove t th1 k1 = set_threads (threads k1) (k_remove t th k)) as E2.
    { unfold k_remove, tl. simpl. by destruct (_ !!! QReady _). }
    rewrite E2. simpl.
    replace (filter (.≠ t) <$> tlists k) with (tlists (k_remove t th k)).
    2:{ rewrite k_remove_frame. done. }
    apply R; [done|exact (so_prio _ _ _ S t th Ht)|].
    intros _. exact (so_mask _ _ _ S t th Ht (or_introl Hs)).
  - exact (ko_stack _ _ _ _ _ _ _ _ O t th Ht).
  - congruence.
Qed.

Lemma unlink_ok ths ls g t th :
  sched_ok ths ls g -> ths !! t = Some th -> stat th = RT_THREAD_SUSPEND ->
  sched_ok ths (filter (.≠ t) <$> ls) g.
Proof.
  intros S Ht Hs. rewrite <-(insert_id ths t th) by done.
  eapply sched_ok_unlink; try done; [by rewrite Hs|by eapply (so_prio _ _ _ S)| |].
  - intros _. eapply (so_mask _ _ _ S); [done|by right].
  - left. split; [done|]. by rewrite Hs.
Qed.

Lemma ready_lists_ok ths ls g t th th' :
  sched_ok ths ls g -> ths !! t = Some th -> stat th = RT_THREAD_SUSPEND ->
  stat th' = RT_THREAD_READY -> current_priority th' = current_priority th ->
  number_mask th' = number_mask th ->
  sched_ok (<[t := th']> ths) (ready_lists t th ls) (g |. number_mask th).
Proof.
  intros S Ht Hs Hs' Ep Em. unfold ready_lists. rewrite <-Ep, <-Em.
  eapply sched_ok_link_ready; try done.
  - by eapply unlink_ok.
  - apply in_no_list_removed.
  - rewrite Ep. by eapply (so_prio _ _ _ S).
  - rewrite Em, Ep. eapply (so_mask _ _ _ S); [done|by right].
Qed.

Lemma wp_resume m k t th (Q : Z -> kernel -> Prop) :
  kernel_ok m k -> threads k !! t = Some th -> stat th = RT_THREAD_SUSPEND ->
  (forall g l ts, kernel_ok m (k_resm t th g l ts k) ->
     (forall r, r ∈ l -> r ∈ rt_timer_list k) ->
     (forall r, r <> TimerOf t -> ts !! r = timers k !! r) ->
     (forall tm, timers k !! TimerOf t = Some tm -> exists tm',
        ts !! TimerOf t = Some tm' /\ ~ active tm' /\ tm_init_tick tm' = tm_init_tick tm) ->
     Q RT_EOK (k_resm t th g l ts k)) ->
  wp (rt_thread_resume t) Q k.
Proof.
  intros O Ht Hs HQ. unfold rt_thread_resume.
  apply wp_bind, (wp_deref _ _ th); [done|]. rewrite bool_decide_false by (by intros []).
  apply wp_bind, wp_modify. set (k1 := set_tlists _ k).
  destruct (ko_thread_timer _ _ _ _ _ _ _ _ O t th) as (tm & Etm & _); [done|by rewrite Hs|].
  pose proof (ko_sched _ _ _ _ _ _ _ _ O) as S.
  assert (forall l ts, kok m (rt_tick k) (rt_current_thread k) (threads k) (tlists k)
    (rt_thread_ready_priority_group k) l ts -> TimerOf t ∉ l ->
    kok m (rt_tick k) (rt_current_thread k) (<[t := set_stat RT_THREAD_READY th]> (threads k))
      (ready_lists t th (tlists k)) (rt_thread_ready_priority_group k |. number_mask th) l ts) as Hk.
  { intros l ts O' Hnot. eapply kok_thread; try done.
    - by eapply ready_lists_ok.
    - exact (ko_stack _ _ _ _ _ _ _ _ O t th Ht).
    - by rewrite Hs. }
  apply wp_bind. unfold wp at 1.
  destruct (timer_stop_eq k1 (TimerOf t) tm Etm) as [[Ha E]|[Ha E]]; rewrite E; clear E;
    apply wp_bind; unfold wp at 1; erewrite insert_thread_eq by done; apply wp_ret.
  - assert (TimerOf t ∉ filter (.≠ TimerOf t) (rt_timer_list k)) as Hnot.
    { rewrite list_elem_of_filter. naive_solver. }
    eapply (HQ _ _ (<[TimerOf t := stopped tm]> (timers k))).
    + apply Hk; [|done]. by apply kok_timer_stop.
    + intros r [_ Hr]%list_elem_of_filter. done.
    + intros r Hr. by rewrite lookup_insert_ne.
    + intros tm0 E0. rewrite lookup_insert_eq. exists (stopped tm). split_and!; [done| |].
      * apply inactive_diff.
      * by simplify_eq.
  - pose proof (inactive_not_in _ _ _ _ _ (ko_timer _ _ _ _ _ _ _ _ O) Etm Ha) as Hnot.
    apply (HQ (rt_thread_ready_priority_group k |. number_mask th) (rt_timer_list k) (timers k)); [by apply Hk|done|done|]. intros tm0 E0. exists tm. by simplify_eq.
Qed.

(** A thread that is not suspended is not resumed. *)
Lemma wp_resume_refused k t th (Q : Z -> kernel -> Prop) :
  threads k !! t = Some th -> stat th <> RT_THREAD_SUSPEND -> Q (- RT_ERROR) k ->
  wp (rt_thread_resume t) Q k.
Proof.
  intros Ht Hs HQ. unfold rt_thread_resume. apply wp_bind, (wp_deref _ _ th); [done|].
  by rewrite bool_decide_true.
Qed.

Lemma wp_schedule m k (Q : unit -> kernel -> Prop) :
  kernel_ok m k ->
  (forall p c, kernel_ok m (k_switch p c k) ->
     (rt_scheduler_lock_nest k = 0 -> exists t, c = Some t /\ elected k t) ->
     (rt_scheduler_lock_nest k <> 0 -> c = rt_current_thread k) ->
     Q tt (k_switch p c k)) ->
  wp rt_schedule Q k.
Proof.
  intros O HQ. apply wp_rt_schedule_frame; eauto with rtt.
  intros p c Hc H1 H2. apply HQ; try done. eapply kok_current; [done|].
  simpl. intros t ->. destruct Hc as [[Hc _]|(t' & th & [= <-] & He & _)].
  - by apply (ko_current _ _ _ _ _ _ _ _ O).
  - by apply elected_lookup.
Qed.

(** ** Arming the timer of a thread *)

Lemma ready_timer_inactive k t th :
  kernel_ok Task k -> threads k !! t = Some th -> stat th = RT_THREAD_READY ->
  exists tm, timers k !! TimerOf t = Some tm /\ ~ active tm.
Proof.
  intros O Ht Hs.
  destruct (ko_thread_timer _ _ _ _ _ _ _ _ O t th) as (tm & Etm & _ & _ & _ & Ha);
    [done|by rewrite Hs|].
  exists tm. split; [done|]. intros [Hin|Hm]%Ha; [|done].
  destruct (ko_timed _ _ _ _ _ _ _ _ O t Hin) as (? & ? & ?). congruence.
Qed.

Definition k_timers (l : list ref) (ts : gmap ref rt_timer) (n : Z) (k : kernel) : kernel :=
  set_timers ts (set_rt_timer_list l (set_random_nr n k)).

Lemma wp_arm {A} m k t th tm tick (rest : K A) (Q : A -> kernel -> Prop) :
  kernel_ok m k -> m <> Isr (Some (TimerOf t)) ->
  threads k !! t = Some th -> stat th = RT_THREAD_SUSPEND ->
  timers k !! TimerOf t = Some tm -> ~ active tm -> 0 <= tick < RT_TICK_MAX / 2 ->
  (forall l ts n, kernel_ok m (k_timers l ts n k) ->
     TimerOf t ∈ l -> due ts (rt_tick k) (TimerOf t) = tick ->
     (forall r, r ∈ l -> r = TimerOf t \/ r ∈ rt_timer_list k) ->
     (forall r, r <> TimerOf t -> ts !! r = timers k !! r) ->
     wp rest Q (k_timers l ts n k)) ->
  wp (rt_timer_control (TimerOf t) RT_TIMER_CTRL_SET_TIME tick;;
      rt_timer_start (TimerOf t);; rest) Q k.
Proof.
  intros O Hm Ht Hs Etm Ha Htick HQ.
  unfold rt_timer_control. apply wp_bind, wp_bind, (wp_deref _ _ tm); [done|].
  cbn [Z.eqb RT_TIMER_CTRL_SET_TIME RT_TIMER_CTRL_GET_TIME].
  apply wp_bind, (wp_upd_timer _ _ tm); [done|]. apply wp_ret, wp_bind.
  set (tm1 := set_tm_init_tick tick tm). set (k1 := set_timers _ k).
  destruct (ko_thread_timer _ _ _ _ _ _ _ _ O t th) as (tm0 & E0 & _ & _ & Hp & _);
    [done|by rewrite Hs|]. assert (tm0 = tm) as -> by congruence.
  assert (kernel_ok m k1) as O1.
  { eapply kok_timer_control; try done. change (periodic tm1) with (periodic tm). by rewrite Hp. }
  assert (timers k1 !! TimerOf t = Some tm1) as Etm1 by (simpl; by rewrite lookup_insert_eq).
  apply (wp_timer_start k1 (TimerOf t) tm1); try done; [by eauto with rtt|].
  intros l1 l2 El H1 H2 T.
  set (ts := <[TimerOf t := started (rt_tick k) tm1]> (timers k)).
  assert (k_timer_start (TimerOf t) tm1 (l1 ++ TimerOf t :: l2) k1 =
    k_timers (l1 ++ TimerOf t :: l2) ts (u32 (random_nr k + 1)) k) as E.
  { unfold k_timer_start, k_timers, ts. simpl. by rewrite insert_insert_eq. }
  rewrite E. apply HQ.
  - rewrite <-E. unfold kernel_ok. simpl. eapply kok_timer_start; try done.
    intros t' [= <-]. by exists th.
  - set_solver.
  - subst ts. rewrite due_insert_eq. by apply due_start.
  - intros r. change (rt_timer_list k) with (rt_timer_list k1). rewrite El. set_solver.
  - intros r Hr. subst ts. by rewrite lookup_insert_ne.
Qed.

(** ** Deciding the invariant on concrete states *)

Fixpoint sorted_b {A} (f : A -> Z) (l : list A) : bool :=
  match l with
  | [] => true
  | a :: l => forallb (fun b => f a <=? f b) l && sorted_b f l
  end.

Lemma sorted_b_spec {A} (f : A -> Z) l :
  sorted_b f l = true -> Sorted.StronglySorted (fun x y => f x <= f y) l.
Proof.
  induction l as [|a l IH]; simpl; [constructor|].
  intros [Ha Hl]%andb_true_iff. constructor; [auto|].
  rewrite forallb_forall in Ha. apply Forall_forall. intros b Hb.
  apply list_elem_of_In, Ha in Hb. lia.
Qed.

Definition lookup_ok {A} (o : option A) (P : A -> bool) : bool :=
  match o with Some a => P a | None => false end.

Lemma lookup_ok_spec {A} (o : option A) P :
  lookup_ok o P = true -> exists a, o = Some a /\ P a = true.
Proof. destruct o; simpl; [eauto|done]. Qed.

Definition is_wait (q : qid) : bool :=
  match q with QSuspend _ | QSender _ => true | _ => false end.

Definition list_check (ths : gmap ptr rt_thread) (q : qid) (l : list ptr) : bool :=
  bool_decide (NoDup l) &&
  forallb (fun t => lookup_ok (ths !! t) (fun th =>
    match q with
    | QReady p => bool_decide (stat th = RT_THREAD_READY) && (current_priority th =? p)
    | QDefunct => bool_decide (stat th = RT_THREAD_CLOSE)
    | _ => bool_decide (stat th = RT_THREAD_SUSPEND)
    end)) l.

Definition sched_check (ths : gmap ptr rt_thread) (ls : gmap qid (list ptr)) (g : Z) : bool :=
  let all := map_to_list ls in
  let tms := map_to_list ths in
  forallb (fun '(q, l) => list_check ths q l &&
    forallb (fun '(q', l') => bool_decide (q = q') ||
      forallb (fun t => bool_decide (t ∉ l')) l) all) all &&
  forallb (fun '(t, th) =>
    (0 <=? current_priority th) && (current_priority th <? RT_THREAD_PRIORITY_MAX) &&
    (negb (bool_decide (stat th = RT_THREAD_READY)) ||
       bool_decide (t ∈ ls !!! QReady (current_priority th))) &&
    (negb (bool_decide (stat th = RT_THREAD_READY \/ stat th = RT_THREAD_SUSPEND)) ||
       (number_mask th =? 2 ^ current_priority th))) tms &&
  (0 <=? g) && (g <? 2 ^ 32) &&
  forallb (fun p => Bool.eqb (Z.testbit g p) (bool_decide (ls !!! QReady p <> [])))
    (seqZ 0 RT_THREAD_PRIORITY_MAX).

Lemma forallb_pairs {I V} `{Countable I} (mp : gmap I V) (f : I * V -> bool) i v :
  forallb f (map_to_list mp) = true -> mp !! i = Some v -> f (i, v) = true.
Proof.
  intros Hf Hi. rewrite forallb_forall in Hf.
  apply Hf, list_elem_of_In, elem_of_map_to_list, Hi.
Qed.

Lemma lookup_total_list (ls : gmap qid (list ptr)) q t :
  t ∈ ls !!! q -> exists l, ls !! q = Some l /\ t ∈ l /\ ls !!! q = l.
Proof.
  rewrite lookup_total_alt. destruct (ls !! q) as [l|]; simpl; [eauto|].
  intros []%elem_of_nil.
Qed.

Lemma list_check_spec ths q l t :
  list_check ths q l = true -> t ∈ l ->
  exists th, ths !! t = Some th /\
    match q with
    | QReady p => stat th = RT_THREAD_READY /\ current_priority th = p
    | QDefunct => stat th = RT_THREAD_CLOSE
    | _ => stat th = RT_THREAD_SUSPEND
    end.
Proof.
  unfold list_check. intros [_ Hf]%andb_true_iff Ht.
  rewrite forallb_forall in Hf. apply list_elem_of_In, Hf, lookup_ok_spec in Ht as (th & E & Hp).
  exists th. split; [done|].
  destruct q; try by apply bool_decide_eq_true in Hp.
  apply andb_true_iff in Hp as [Hp ?]. apply bool_decide_eq_true in Hp. split; [done|lia].
Qed.

Lemma sched_check_sound ths ls g : sched_check ths ls g = true -> sched_ok ths ls g.
Proof.
  unfold sched_check. rewrite !andb_true_iff. intros [[[[Hl Ht] Hg1] Hg2] Hb].
  assert (forall q l, ls !! q = Some l -> list_check ths q l = true) as Hc.
  { intros q l E. by apply (forallb_pairs ls _ q l Hl), andb_true_iff in E as [? _]. }
  assert (forall q t, t ∈ ls !!! q -> exists th, ths !! t = Some th /\
    match q with
    | QReady p => stat th = RT_THREAD_READY /\ current_priority th = p
    | QDefunct => stat th = RT_THREAD_CLOSE
    | _ => stat th = RT_THREAD_SUSPEND
    end) as Hin.
  { intros q t (l & E & Hin & _)%lookup_total_list. eapply list_check_spec; eauto. }
  assert (forall t th, ths !! t = Some th ->
    0 <= current_priority th < RT_THREAD_PRIORITY_MAX /\
    (stat th = RT_THREAD_READY -> t ∈ ls !!! QReady (current_priority th)) /\
    (stat th = RT_THREAD_READY \/ stat th = RT_THREAD_SUSPEND ->
       number_mask th = 2 ^ current_priority th)) as Hth.
  { intros t th E. pose proof (forallb_pairs ths _ t th Ht E) as H. simpl in H.
    rewrite !andb_true_iff, !orb_true_iff, !negb_true_iff, !bool_decide_eq_false,
      bool_decide_eq_true in H. destruct H as [[[? ?] Hr] Hm]. split; [lia|]. split.
    - intros Hs. by destruct Hr.
    - intros Hs. destruct Hm; [done|lia]. }
  split.
  - intros q. rewrite lookup_total_alt. destruct (ls !! q) as [l|] eqn:E; simpl; [|constructor].
    apply Hc, andb_true_iff in E as [E _]. by apply bool_decide_eq_true in E.
  - intros q1 q2 t (l1 & E1 & H1 & _)%lookup_total_list (l2 & E2 & H2 & _)%lookup_total_list.
    pose proof (forallb_pairs ls _ q1 l1 Hl E1) as [_ Hu]%andb_true_iff.
    pose proof (forallb_pairs ls _ q2 l2 Hu E2) as [Hq|Hq]%orb_true_iff.
    { by apply bool_decide_eq_true in Hq. }
    rewrite forallb_forall in Hq. by apply list_elem_of_In, Hq, bool_decide_eq_true in H1.
  - intros t th E. by apply Hth.
  - intros p t (th & E & Hs & Ep)%Hin. by exists th.
  - intros q t Hq [p [-> | ->]]; by apply Hin in Hq.
  - intros t Hq. by apply Hin in Hq.
  - intros t th E. by apply (Hth t th E).
  - intros t th E. by apply (Hth t th E).
  - lia.
  - intros p Hp. rewrite forallb_forall in Hb.
    specialize (Hb p). rewrite <-list_elem_of_In, elem_of_seqZ in Hb.
    rewrite (Bool.eqb_prop _ _ (Hb ltac:(lia))). apply bool_decide_eq_true.
Qed.

Definition kok_check (k : kernel) : bool :=
  let ths := threads k in let ts := timers k in let l := rt_timer_list k in
  sched_check ths (tlists k) (rt_thread_ready_priority_group k) &&
  bool_decide (NoDup l) && sorted_b (due ts (rt_tick k)) l &&
  forallb (fun r => lookup_ok (ts !! r) (fun tm => Z.testbit (tm_flag tm) 0) &&
    (0 <=? due ts (rt_tick k) r) && (due ts (rt_tick k) r <? RT_TICK_MAX / 2) &&
    match r with
    | TimerOf t => lookup_ok (ths !! t) (fun th => bool_decide (stat th = RT_THREAD_SUSPEND))
    | _ => true
    end) l &&
  forallb (fun '(t, th) =>
    (stack_addr th <? sp th) && (sp th <=? u32 (stack_addr th + stack_size th)) &&
    (bool_decide (stat th = RT_THREAD_CLOSE) ||
     lookup_ok (ts !! TimerOf t) (fun tm =>
       match timeout_func tm with fn_rt_thread_timeout => true | _ => false end &&
       (tm_parameter tm =? t) && negb (periodic tm) &&
       (negb (Z.testbit (tm_flag tm) 0) || bool_decide (TimerOf t ∈ l)))))
    (map_to_list ths) &&
  lookup_ok (ths !! idle) (fun th => bool_decide (stat th = RT_THREAD_READY)) &&
  match rt_current_thread k with
  | Some t => bool_decide (is_Some (ths !! t))
  | None => true
  end &&
  forallb (fun '(r, tm) => (negb (periodic tm) ||
    ((1 <=? tm_init_tick tm) && (tm_init_tick tm <? RT_TICK_MAX / 2))) &&
    match r, timeout_func tm with
    | Obj _, fn_rt_thread_timeout => false
    | _, _ => true
    end) (map_to_list ts).

Lemma kok_check_sound k : kok_check k = true -> kernel_ok Task k.
Proof.
  unfold kok_check. rewrite !andb_true_iff. intros [[[[[[[Hs Hn] Ho] Hl] Ht] Hi] Hc] Hp].
  rewrite forallb_forall in Hl.
  assert (forall r, r ∈ rt_timer_list k ->
    (exists tm, timers k !! r = Some tm /\ active tm) /\
    0 <= due (timers k) (rt_tick k) r < RT_TICK_MAX / 2 /\
    forall t, r = TimerOf t -> exists th, threads k !! t = Some th /\ stat th = RT_THREAD_SUSPEND)
    as Hr.
  { intros r Hin. apply list_elem_of_In, Hl in Hin. rewrite !andb_true_iff in Hin.
    destruct Hin as [[[Ha ?] ?] Hx]. split; [by apply lookup_ok_spec in Ha|].
    split; [lia|]. intros t ->. apply lookup_ok_spec in Hx as (th & ? & Hx).
    apply bool_decide_eq_true in Hx. eauto. }
  split.
  - by apply sched_check_sound.
  - split; [by apply bool_decide_eq_true in Hn| | |by apply sorted_b_spec].
    + intros r Hin. apply Hr, Hin.
    + intros r Hin. apply Hr in Hin. lia.
  - intros t th E. pose proof (forallb_pairs _ _ t th Ht E) as H. simpl in H.
    rewrite !andb_true_iff in H. destruct H as [[? ?] _]. unfold stack_ok. lia.
  - apply lookup_ok_spec in Hi as (th & E & H). apply bool_decide_eq_true in H. eauto.
  - intros t E. rewrite E in Hc. by apply bool_decide_eq_true in Hc.
  - intros t th E Hcl. pose proof (forallb_pairs _ _ t th Ht E) as H. cbn beta iota in H.
    rewrite !andb_true_iff, orb_true_iff, bool_decide_eq_true in H.
    destruct H as [_ [H|H]]; [done|]. apply lookup_ok_spec in H as (tm & Etm & H).
    rewrite !andb_true_iff, orb_true_iff, !negb_true_iff, bool_decide_eq_true in H.
    destruct H as [[[Hf Hpa] Hpe] Ha]. exists tm. split_and!; try done.
    + by destruct (timeout_func tm).
    + lia.
    + unfold active. intros Ha'. left. by destruct Ha as [Ha|?]; [rewrite Ha in Ha'|].
  - intros t Hin. by apply (Hr _ Hin).
  - done.
  - intros r _ Hin. apply Hr in Hin. lia.
  - intros r tm E Hper. pose proof (forallb_pairs _ _ r tm Hp E) as H. simpl in H.
    rewrite Hper in H. simpl in H. lia.
  - intros p tm E. pose proof (forallb_pairs _ _ (Obj p) tm Hp E) as H. simpl in H.
    apply andb_true_iff in H as [_ H]. destruct (timeout_func tm); [done|eauto].
Qed.
