(* ===== verification/ThreadSpec.v ===== *)
(** * Theorems on threads

    The behaviour of the operations of src/thread.c and src/idle.c in states
    that satisfy [kernel_ok]. *)

From S2P Require Import Prelude KString Kernel Scheduler Object Timer Thread KernelOk.

(** ** A running system, for examples

    Two application threads, at 4096 (priority 10) and 8192 (priority 20),
    started by the application's initialisation. *)

Definition demo_app : K unit :=
  rt_thread_create (Some 4096) (Some 12288) zero_thread [97; 0] 1 0 512 10 20;;
  rt_thread_create (Some 8192) (Some 16384) zero_thread [98; 0] 2 0 512 20 5;;
  rt_thread_startup 4096;;
  rt_thread_startup 8192;;
  mret tt.

(** The state after running [m] from [k]. *)
Definition after {A} (m : K A) (k : kernel) : kernel :=
  match m k with Some (_, k') => k' | None => k end.

Definition demo : kernel := after (rtthread_startup demo_app) kernel_reset.

Lemma demo_boots : bool_decide (is_Some (rtthread_startup demo_app kernel_reset)) = true.
Proof. vm_compute. reflexivity. Qed.

Lemma demo_ok : kernel_ok Task demo.
Proof. apply kok_check_sound. vm_compute. reflexivity. Qed.

Definition th_at (k : kernel) (t : ptr) : rt_thread := default zero_thread (threads k !! t).
Definition demo_th (t : ptr) : rt_thread := th_at demo t.

(** ** Sleeping *)

(** The timer of [t] runs and is due in [tick] ticks. *)
Definition asleep_for (k : kernel) (t : ptr) (tick : Z) : Prop :=
  TimerOf t ∈ rt_timer_list k /\ due (timers k) (rt_tick k) (TimerOf t) = tick.

(** [rt_thread_sleep]: called by a ready thread other than the idle thread, with a
    delay below half the tick range, it returns with the invariant kept, the
    thread suspended, its timer in the list and due in exactly [tick] ticks,
    and (the scheduler not being locked) the best remaining ready thread
    running. *)
Theorem rt_thread_sleep_ok k t th tick :
  kernel_ok Task k -> rt_current_thread k = Some t -> threads k !! t = Some th ->
  stat th = RT_THREAD_READY -> t <> idle -> 0 <= tick < RT_TICK_MAX / 2 ->
  rt_scheduler_lock_nest k = 0 ->
  exists k', rt_thread_sleep tick k = Some (tt, k') /\ kernel_ok Task k' /\
    threads k' = <[t := set_stat RT_THREAD_SUSPEND th]> (threads k) /\
    asleep_for k' t tick /\
    rt_tick k' = rt_tick k /\
    exists t', rt_current_thread k' = Some t' /\ elected k' t'.
Proof.
  intros O Hc Ht Hs Hid Htick Hl.
  destruct (ready_timer_inactive k t th O Ht Hs) as (tm & Etm & Ha).
  assert (wp (rt_thread_sleep tick) (fun _ k' => kernel_ok Task k' /\
    threads k' = <[t := set_stat RT_THREAD_SUSPEND th]> (threads k) /\
    asleep_for k' t tick /\
    rt_tick k' = rt_tick k /\
    exists t', rt_current_thread k' = Some t' /\ elected k' t') k) as H.
  { unfold rt_thread_sleep, current, rt_thread_self.
    apply wp_bind, wp_bind, wp_gets, (wp_lift _ t); [done|].
    apply wp_bind, (wp_suspend Task k t th); try done. intros g O1.
    apply (wp_arm Task _ t (set_stat RT_THREAD_SUSPEND th) tm); try done.
    { simpl. by rewrite lookup_insert_eq. }
    intros l ts n O2 Hin Hdue _ _. apply (wp_schedule Task); [done|].
    intros p c O3 He _. destruct (He Hl) as (t' & -> & He').
    split_and!; try done. exists t'. done. }
  apply wp_exists in H as ([] & k' & ? & ?). eauto.
Qed.

Lemma rt_thread_sleep_ok_witness :
  exists k', rt_thread_sleep 7 demo = Some (tt, k') /\ TimerOf 4096 ∈ rt_timer_list k'.
Proof.
  destruct (rt_thread_sleep_ok demo 4096 (demo_th 4096) 7 demo_ok
    ltac:(ev) ltac:(ev) ltac:(ev) ltac:(ev) ltac:(ev) ltac:(ev)) as (k' & E & _ & _ & [Hin _] & _).
  exists k'. split; [exact E|exact Hin].
Defined.
