(* ===== verification/Clock.v ===== *)
(** * The tick: src/clock.c, src/irq.c, and [rt_timer_check] of src/timer.c

    The tick interrupt increments the clock, takes the time slice of the
    running thread and fires the timers that are due.  The functions that the
    application gives to its timers are a parameter, with the contract
    [timeout_contract]. *)

From Stdlib Require Import Sorted.
From S2P Require Import Prelude Kernel Scheduler Object Timer Thread KernelOk ThreadSpec.

(** ** Operations *)

Definition rt_tick_get : K Z := gets rt_tick.
Definition rt_tick_set (tick : Z) : K unit := modify (set_rt_tick tick).

Definition rt_tick_from_millisecond (ms : Z) : Z :=
  u32 (u32 (RT_TICK_PER_SECOND * ms) + 999) / 1000.

Definition rt_interrupt_enter : K unit :=
  modify (fun k => set_rt_interrupt_nest (u8 (rt_interrupt_nest k + 1)) k).
Definition rt_interrupt_leave : K unit :=
  modify (fun k => set_rt_interrupt_nest (u8 (rt_interrupt_nest k - 1)) k).
Definition rt_interrupt_get_nest : K Z := gets rt_interrupt_nest.

Section tick.

(** The functions of the application's timers. *)
Context (user_timeout : Z -> Z -> K unit).

(** [t->timeout_func(t->parameter)] *)
Definition timeout_call (f : timeout_fn) (p : Z) : K unit :=
  match f with
  | fn_rt_thread_timeout => rt_thread_timeout p
  | fn_user f => user_timeout f p
  end.

Definition rt_tick_increase (fuel : nat) : K unit :=
  modify (fun k => set_rt_tick (u32 (rt_tick k + 1)) k);;
  t ← current;
  upd_thread t (fun th => set_remaining_tick (u32 (remaining_tick th - 1)) th);;
  th ← deref threads t;
  when (remaining_tick th =? 0) (
    upd_thread t (fun th => set_remaining_tick (init_tick th) th);;
    rt_thread_yield;;
    mret tt);;
  rt_timer_check timeout_call fuel.

(** The tick interrupt of the board: [SysTick_Handler] of
    bsp/stm32f10x/drivers/board.c. *)
Definition SysTick_Handler (fuel : nat) : K unit :=
  rt_interrupt_enter;;
  rt_tick_increase fuel;;
  rt_interrupt_leave.

End tick.

(** ** The contract of the application's timeout functions *)

Definition n_expired (k : kernel) : nat :=
  length (filter (fun r => due (timers k) (rt_tick k) r <= 0) (rt_timer_list k)).

(** Called while its timer [r] is off the list, a timeout function returns,
    keeps the invariant (so it does not put [r] back itself), does not delete
    [r] and starts no timer that is due at once. *)
Class timeout_contract (user_timeout : Z -> Z -> K unit) : Prop :=
  user_timeout_ok : forall k r tm f, kernel_ok (Isr (Some r)) k ->
    timers k !! r = Some tm -> timeout_func tm = fn_user f ->
    wp (user_timeout f (tm_parameter tm)) (fun _ k' =>
      kernel_ok (Isr (Some r)) k' /\ rt_tick k' = rt_tick k /\
      is_Some (timers k' !! r) /\ (n_expired k' <= n_expired k)%nat) k.

(** A timeout function that does nothing obeys it. *)
#[export] Instance timeout_contract_nop : timeout_contract (fun _ _ => mret tt).
Proof. intros k r tm f O Ht _. apply wp_ret. eauto. Qed.

(** ** Time slices and yielding *)

(** The lists after [t] moved to the end of its ready list. *)
Lemma yield_lists_ok ths ls g t th :
  sched_ok ths ls g -> ths !! t = Some th -> stat th = RT_THREAD_READY ->
  sched_ok ths (ready_lists t th ls) g.
Proof.
  intros S Ht Hs. pose proof (so_ready _ _ _ S t th Ht Hs) as Hin.
  unfold ready_lists. set (q := QReady (current_priority th)) in *.
  assert (forall q', (<[q := (filter (.≠ t) <$> ls) !!! q ++ [t]]> (filter (.≠ t) <$> ls)) !!! q'
    ≡ₚ ls !!! q') as Hp.
  { intros q'. rewrite lookup_total_insert_list, !lookup_total_remove. case_decide as E; subst.
    - clear -Hin S. pose proof (so_nodup _ _ _ S q) as Hn.
      rewrite Permutation_app_comm. simpl.
      apply list_elem_of_split in Hin as (l1 & l2 & E). rewrite E in *.
      rewrite filter_app, filter_cons_False by naive_solver.
      apply NoDup_app in Hn as (N1 & N2 & [N3 N4]%NoDup_cons).
      rewrite !filter_ne_id; [|done|].
      + apply Permutation_middle.
      + intros ?. by eapply N2; [|left].
    - apply reflexive_eq, filter_ne_id. intros Hin'.
      by apply E, (so_unique _ _ _ S q q' t). }
  assert (forall q' x, x ∈ <[q := (filter (.≠ t) <$> ls) !!! q ++ [t]]> (filter (.≠ t) <$> ls) !!! q'
    <-> x ∈ ls !!! q') as Hi by (intros; by rewrite Hp).
  split; try apply S.
  - intros q'. rewrite Hp. apply S.
  - intros q1 q2 x H1%Hi H2%Hi. by eapply (so_unique _ _ _ S).
  - intros x xh Hx Hr. apply Hi. by apply (so_ready _ _ _ S).
  - intros p x Hx%Hi. by apply (so_in_ready _ _ _ S).
  - intros q' x Hx%Hi. by apply (so_in_wait _ _ _ S).
  - intros x Hx%Hi. by apply (so_in_defunct _ _ _ S).
  - intros p Hpr. rewrite (so_group _ _ _ S p Hpr).
    split; intros Hne E; apply Hne; specialize (Hp (QReady p)); rewrite E in Hp.
    + by apply Permutation_nil_l in Hp.
    + by apply Permutation_nil_r in Hp.
Qed.

Lemma kok_lists m now cur ths ls g l ts ls' :
  kok m now cur ths ls g l ts -> sched_ok ths ls' g -> kok m now cur ths ls' g l ts.
Proof. intros [S T Hs Hi Hc Htt Hti Hf Hd Hp Hu] ?. by split. Qed.

Lemma wp_yield m k t (Q : Z -> kernel -> Prop) :
  kernel_ok m k -> rt_current_thread k = Some t ->
  Q RT_EOK k ->
  (forall th p c, threads k !! t = Some th -> stat th = RT_THREAD_READY ->
     (2 <= length (tl k (QReady (current_priority th))))%nat ->
     let k1 := set_tlists (ready_lists t th (tlists k)) k in
     kernel_ok m (k_switch p c k1) ->
     (rt_scheduler_lock_nest k = 0 -> exists t', c = Some t' /\ elected k1 t') ->
     Q RT_EOK (k_switch p c k1)) ->
  wp rt_thread_yield Q k.
Proof.
  intros O Hc Q1 Q2. destruct (ko_current _ _ _ _ _ _ _ _ O t Hc) as [th Ht].
  unfold rt_thread_yield, current, rt_thread_self.
  apply wp_bind, wp_bind, wp_gets, (wp_lift _ t); [done|].
  apply wp_bind, (wp_deref _ _ th); [done|]. apply wp_bind, wp_gets.
  case_bool_decide as Hs; [|by apply wp_ret]. case_bool_decide as Hin; [|by apply wp_ret].
  case_bool_decide as Hlen; [|by apply wp_ret]. simpl.
  apply wp_bind, wp_modify, wp_bind, wp_modify, wp_bind.
  assert (kernel_ok m (set_tlists (ready_lists t th (tlists k)) k)) as O1.
  { eapply kok_lists; [done|]. eapply yield_lists_ok; try done. apply O. }
  apply (wp_schedule m); [exact O1|]. intros p c O2 He _. apply wp_ret. by apply (Q2 th p c).
Qed.

(** ** The timeout of a thread *)

(** The state in which a thread has been woken by its timer. *)
Definition k_woken (t : ptr) (th : rt_thread) (g : Z) (k : kernel) : kernel :=
  set_rt_thread_ready_priority_group g
    (set_tlists (ready_lists t th (tlists k))
      (set_threads (<[t := set_stat RT_THREAD_READY (set_error (- RT_ETIMEOUT) th)]>
        (threads k)) k)).

Lemma wp_thread_timeout m k t th (Q : unit -> kernel -> Prop) :
  kernel_ok m k -> threads k !! t = Some th -> stat th = RT_THREAD_SUSPEND ->
  TimerOf t ∉ rt_timer_list k ->
  (forall g p c, kernel_ok m (k_switch p c (k_woken t th g k)) ->
     (rt_scheduler_lock_nest k = 0 -> exists t', c = Some t' /\ elected (k_woken t th g k) t') ->
     Q tt (k_switch p c (k_woken t th g k))) ->
  wp (rt_thread_timeout t) Q k.
Proof.
  intros O Ht Hs Hnot HQ. unfold rt_thread_timeout.
  apply wp_bind, (wp_deref _ _ th); [done|].
  apply wp_bind, wp_assert; [by apply bool_decide_eq_true|].
  apply wp_bind, (wp_upd_thread _ _ th); [done|]. apply wp_bind, wp_modify, wp_bind.
  set (th1 := set_error _ th). set (k1 := set_tlists _ _).
  assert (threads k1 !! t = Some th1) as Ht1 by (simpl; by rewrite lookup_insert_eq).
  unfold wp at 1. rewrite (insert_thread_eq t th1 k1 Ht1).
  set (g := rt_thread_ready_priority_group k |. number_mask th).
  assert (k_insert t th1 k1 = k_woken t th g k) as ->.
  { unfold k_insert, k_woken, k1. simpl. by rewrite insert_insert_eq. }
  pose proof (ko_sched _ _ _ _ _ _ _ _ O) as S.
  apply (wp_schedule m).
  - unfold kernel_ok. simpl. eapply kok_thread; try done.
    + by eapply ready_lists_ok.
    + exact (ko_stack _ _ _ _ _ _ _ _ O t th Ht).
    + by rewrite Hs.
  - intros p c O2 He _. by apply HQ.
Qed.

(** ** Firing the timers that are due *)

(** The fired timer is deactivated: the interrupt is between timers again. *)
Lemma kok_fired_done now cur ths ls g l ts r tm :
  kok (Isr (Some r)) now cur ths ls g l ts -> ts !! r = Some tm ->
  kok (Isr None) now cur ths ls g l (<[r := stopped tm]> ts).
Proof.
  intros O Ht. pose proof (ko_fired _ _ _ _ _ _ _ _ O r eq_refl) as Hnot.
  assert (kok (Isr (Some r)) now cur ths ls g l (<[r := stopped tm]> ts)) as O1.
  { replace l with (filter (.≠ r) l).
    - by apply kok_timer_stop.
    - clear -Hnot. induction l as [|x l IH]; [done|].
      rewrite filter_cons_True by set_solver. f_equal. apply IH. set_solver. }
  destruct O1 as [S T Hs Hi Hc Htt Hti Hf Hd Hp Hu]. split; try done.
  intros t th Hth Hcl. destruct (Htt t th Hth Hcl) as (tm' & E & F & P & N & A).
  exists tm'. split_and!; try done. intros Ha.
  destruct (A Ha) as [?|Hm]; [by left|]. injection Hm as ->.
  rewrite lookup_insert_eq in E. simplify_eq. by apply inactive_diff in Ha.
Qed.

(** Off the list, about to be fired. *)
Lemma kok_fire now cur ths ls g l ts r :
  kok (Isr None) now cur ths ls g l ts ->
  kok (Isr (Some r)) now cur ths ls g (filter (.≠ r) l) ts.
Proof. intros O. eapply kok_timer_unlink; try done. naive_solver. Qed.

Lemma due_stopped ts now r tm x :
  ts !! r = Some tm -> due (<[r := stopped tm]> ts) now x = due ts now x.
Proof.
  intros Ht. destruct (decide (r = x)) as [<-|]; [|by apply due_insert_ne].
  rewrite due_insert_eq. unfold due. by rewrite (lookup_total_correct _ _ _ Ht).
Qed.

Lemma filter_length_ext {A} (P Q : A -> Prop) `{forall x, Decision (P x)}
    `{forall x, Decision (Q x)} l :
  (forall x, x ∈ l -> P x <-> Q x) -> length (filter P l) = length (filter Q l).
Proof.
  induction l as [|x l IH]; intros He; [done|].
  specialize (IH (fun y Hy => He y (list_elem_of_further y x l Hy))).
  destruct (decide (P x)) as [HP|HP].
  - rewrite (filter_cons_True P), (filter_cons_True Q); simpl; [lia|by apply He; [left|]|done].
  - rewrite (filter_cons_False P), (filter_cons_False Q); [lia| |done].
    intros HQ. apply HP, He; [left|done].
Qed.

Section check_ok.

Context (user_timeout : Z -> Z -> K unit) `{!timeout_contract user_timeout}.

Lemma wp_timeout_call k r tm :
  kernel_ok (Isr (Some r)) k -> timers k !! r = Some tm ->
  (forall t, r = TimerOf t -> exists th, threads k !! t = Some th /\ stat th = RT_THREAD_SUSPEND) ->
  wp (timeout_call user_timeout (timeout_func tm) (tm_parameter tm)) (fun _ k' =>
    kernel_ok (Isr (Some r)) k' /\ rt_tick k' = rt_tick k /\
    (exists tm', timers k' !! r = Some tm' /\ forall t, r = TimerOf t -> periodic tm' = false) /\
    (n_expired k' <= n_expired k)%nat) k.
Proof.
  intros O Ht Hr. destruct r as [p|t].
  - destruct (ko_user _ _ _ _ _ _ _ _ O p tm Ht) as [f Ef]. rewrite Ef. simpl.
    eapply wp_mono; [by apply (user_timeout_ok k (Obj p) tm f)|].
    intros [] k' (? & ? & [tm' ?] & ?). split_and!; try done. by exists tm'.
  - destruct (Hr t eq_refl) as (th & Hth & Hs).
    destruct (ko_thread_timer _ _ _ _ _ _ _ _ O t th Hth) as (tm0 & E0 & F0 & P0 & N0 & _);
      [by rewrite Hs|]. assert (tm0 = tm) as -> by congruence. rewrite F0, P0. simpl.
    apply (wp_thread_timeout (Isr (Some (TimerOf t))) k t th); try done.
    { by apply (ko_fired _ _ _ _ _ _ _ _ O). }
    intros g p c O' _. split_and!; try done. by exists tm.
Qed.

Definition fired_action (t : ref) (tm : rt_timer) : K unit :=
  if truthy (tm_flag tm &. RT_TIMER_FLAG_PERIODIC) &&
     truthy (tm_flag tm &. RT_TIMER_FLAG_ACTIVATED) then
    upd_timer t (fun tm => set_tm_flag (tm_flag tm &~ RT_TIMER_FLAG_ACTIVATED) tm);;
    rt_timer_start t;;
    mret tt
  else
    upd_timer t (fun tm => set_tm_flag (tm_flag tm &~ RT_TIMER_FLAG_ACTIVATED) tm).

Lemma truthy_periodic tm :
  truthy (tm_flag tm &. RT_TIMER_FLAG_PERIODIC) = true -> periodic tm = true.
Proof.
  unfold truthy, periodic, RT_TIMER_FLAG_PERIODIC. intros Hn%negb_true_iff.
  destruct (Z.testbit (tm_flag tm) 1) eqn:E; [done|]. exfalso.
  apply Z.eqb_neq in Hn. apply Hn. apply Z.bits_inj'. intros n Hn'.
  rewrite Z.land_spec, Z.testbit_0_l. change 2 with (2 ^ 1). rewrite testbit_pow2 by lia.
  case_bool_decide; [subst; by rewrite E|]. apply andb_false_r.
Qed.

Lemma wp_fired_action k r tm :
  kernel_ok (Isr (Some r)) k -> timers k !! r = Some tm ->
  (forall t, r = TimerOf t -> periodic tm = false) ->
  wp (fired_action r tm) (fun _ k' => kernel_ok (Isr None) k' /\ rt_tick k' = rt_tick k /\
    n_expired k' = n_expired k) k.
Proof.
  intros O Ht Hper. unfold fired_action.
  set (k1 := set_timers (<[r := stopped tm]> (timers k)) k).
  assert (kernel_ok (Isr None) k1) as O1 by (eapply kok_fired_done; [exact O|done]).
  assert (n_expired k1 = n_expired k) as E1.
  { unfold n_expired. apply filter_length_ext. intros x _. simpl. by rewrite due_stopped. }
  destruct (truthy (tm_flag tm &. RT_TIMER_FLAG_PERIODIC)) eqn:Ep.
  2:{ apply (wp_upd_timer _ _ tm); done. }
  destruct (truthy (tm_flag tm &. RT_TIMER_FLAG_ACTIVATED)) eqn:Ea.
  2:{ apply (wp_upd_timer _ _ tm); done. }
  apply truthy_periodic in Ep. simpl. apply wp_bind, (wp_upd_timer _ _ tm); [done|].
  fold (stopped tm). fold k1.
  pose proof (ko_periodic _ _ _ _ _ _ _ _ O r tm Ht Ep) as Hi.
  assert (timers k1 !! r = Some (stopped tm)) as Ht1 by (simpl; by rewrite lookup_insert_eq).
  apply wp_bind, (wp_timer_start k1 r (stopped tm)); try done.
  { by eauto with rtt. } { apply inactive_diff. } { simpl; lia. }
  intros l1 l2 El H1 H2 T. apply wp_ret. split_and!; [|done|].
  - unfold kernel_ok. simpl. eapply kok_timer_start; try done.
    + apply inactive_diff.
    + simpl; lia.
    + intros t Er. rewrite (Hper t Er) in Ep. done.
  - rewrite <-E1. unfold n_expired.
    assert (r ∉ l1 ++ l2) as Hnot.
    { rewrite <-El. by apply (ko_fired _ _ _ _ _ _ _ _ O). }
    change (rt_timer_list (k_timer_start r (stopped tm) (l1 ++ r :: l2) k1))
      with (l1 ++ r :: l2).
    change (rt_tick (k_timer_start r (stopped tm) (l1 ++ r :: l2) k1)) with (rt_tick k1).
    rewrite filter_app, filter_cons_False.
    + rewrite <-filter_app, El. apply filter_length_ext. intros x Hx. simpl.
      rewrite (due_insert_ne _ _ r x) by (by intros ->). done.
    + simpl. rewrite due_insert_eq.
      change (timeout_tick (started (rt_tick k) (stopped tm)))
        with (u32 (rt_tick k + tm_init_tick tm)).
      rewrite due_start; lia.
Qed.

Lemma wp_check_loop fuel : forall k,
  kernel_ok (Isr None) k -> (n_expired k < fuel)%nat ->
  wp (rt_timer_check_loop (timeout_call user_timeout) fuel (rt_tick k)) (fun _ k' =>
    kernel_ok (Isr None) k' /\ rt_tick k' = rt_tick k /\
    forall r, r ∈ rt_timer_list k' -> 0 < due (timers k') (rt_tick k') r) k.
Proof.
  induction fuel as [|fuel IH]; intros k O Hf; [lia|]. cbn [rt_timer_check_loop].
  apply wp_bind, wp_gets. destruct (rt_timer_list k) as [|r l] eqn:El.
  { apply wp_ret. rewrite El. split_and!; try done. intros r []%elem_of_nil. }
  pose proof (ko_timer _ _ _ _ _ _ _ _ O) as T. rewrite El in T.
  destruct (to_in _ _ _ T r) as (tm & Ht & Ha); [left|].
  pose proof (to_range _ _ _ T r ltac:(left)) as Hr.
  apply wp_bind, (wp_deref _ _ tm); [done|].
  assert (due (timers k) (rt_tick k) r = i32 (timeout_tick tm - rt_tick k)) as Ed.
  { unfold due. by rewrite (lookup_total_correct _ _ _ Ht). }
  rewrite Ed in Hr. pose proof (expired_spec _ _ Hr) as Hx.
  destruct (Z.ltb_spec (u32 (rt_tick k - timeout_tick tm)) (RT_TICK_MAX / 2)) as [Hlt|Hge].
  2:{ apply wp_ret. rewrite El. split_and!; try done. intros x Hin.
      assert (0 < due (timers k) (rt_tick k) r) by lia.
      apply elem_of_cons in Hin as [->|Hin]; [done|].
      pose proof (to_sorted _ _ _ T) as [_ Hall]%StronglySorted_inv.
      rewrite Forall_forall in Hall. specialize (Hall x Hin). simpl in Hall. lia. }
  apply Hx in Hlt. apply wp_bind, wp_modify.
  set (k1 := set_rt_timer_list _ k).
  pose proof (kok_fire _ _ _ _ _ _ _ r O) as O1.
  assert (n_expired k = S (n_expired k1)) as En.
  { unfold n_expired, k1. simpl. rewrite El, filter_cons_True by lia. simpl. do 2 f_equal.
    pose proof (to_nodup _ _ _ T) as [Hnot _]%NoDup_cons.
    rewrite filter_cons_False by naive_solver.
    clear -Hnot. induction l as [|x l IHl]; [done|].
    rewrite (filter_cons_True (.≠ r)) by set_solver.
    destruct (decide (due (timers k) (rt_tick k) x <= 0));
      [rewrite !filter_cons_True by done; f_equal|rewrite !filter_cons_False by done];
      apply IHl; set_solver. }
  apply wp_bind. eapply wp_mono.
  { apply (wp_timeout_call k1 r tm); [exact O1|done|].
    intros t ->. apply (ko_timed _ _ _ _ _ _ _ _ O). rewrite El. left. }
  intros [] k2 (O2 & E2 & (tm2 & Ht2 & Hper2) & N2).
  apply wp_bind, wp_gets, wp_bind, (wp_deref _ _ tm2); [done|]. apply wp_bind.
  eapply wp_mono; [by apply (wp_fired_action k2 r tm2)|].
  intros [] k3 (O3 & E3 & N3). rewrite <-E3.
  eapply wp_mono; [apply IH; [done|lia]|].
  intros [] k4 (O4 & E4 & H4). split_and!; try done.
  rewrite E4, E3, E2. done.
Qed.

End check_ok.

(** ** One tick *)

Lemma due_tick ts now r :
  0 <= due ts now r -> due ts (u32 (now + 1)) r = due ts now r - 1.
Proof.
  unfold due. intros Hd. set (x := timeout_tick (ts !!! r)) in *.
  rewrite <-(i32_pred (x - now) (i32 (x - now))); [|done|lia].
  unfold swrap, wrap. f_equal.
  replace (x - (now + 1) mod 2 ^ 32 + 2 ^ (32 - 1))
    with (x + 2 ^ (32 - 1) - (now + 1) mod 2 ^ 32) by ring.
  rewrite Zminus_mod_idemp_r. f_equal. ring.
Qed.

Lemma kok_tick now cur ths ls g l ts :
  kok Task now cur ths ls g l ts -> kok (Isr None) (u32 (now + 1)) cur ths ls g l ts.
Proof.
  intros [S T Hs Hi Hc Htt Hti Hf Hd Hp Hu].
  assert (forall r, r ∈ l -> due ts (u32 (now + 1)) r = due ts now r - 1) as He.
  { intros r Hr. apply due_tick. by apply Hd. }
  split; try done.
  - destruct T as [Hn Hin Hr Hso]. split; try done.
    + intros r Hx. rewrite He by done. specialize (Hr r Hx). specialize (Hd r eq_refl Hx). lia.
    + eapply sorted_ext; [|done]. intros x y Hx Hy. rewrite !He by done. lia.
  - intros t th Ht Hcl. destruct (Htt t th Ht Hcl) as (tm & ? & ? & ? & ? & Ha).
    exists tm. split_and!; try done. intros [?|?]%Ha; [by left|done].
Qed.

Lemma kok_tick_end now cur ths ls g l ts :
  kok (Isr None) now cur ths ls g l ts -> (forall r, r ∈ l -> 0 < due ts now r) ->
  kok Task now cur ths ls g l ts.
Proof.
  intros [S T Hs Hi Hc Htt Hti Hf Hd Hp Hu] Hl. split; try done.
  - intros t th Ht Hcl. destruct (Htt t th Ht Hcl) as (tm & ? & ? & ? & ? & Ha).
    exists tm. split_and!; try done. intros [?|?]%Ha; [by left|done].
  - intros r _ Hr. apply Hl in Hr. lia.
Qed.

(** The time slice: only the remaining ticks of the current thread and, when
    it has run out, its place in the ready list change. *)
Lemma wp_time_slice {A} k t (rest : K A) (Q : A -> kernel -> Prop) :
  kernel_ok (Isr None) k -> rt_current_thread k = Some t ->
  (forall k', kernel_ok (Isr None) k' -> rt_tick k' = rt_tick k ->
     rt_timer_list k' = rt_timer_list k -> timers k' = timers k ->
     (forall x, x <> t -> threads k' !! x = threads k !! x) -> wp rest Q k') ->
  wp (upd_thread t (fun th => set_remaining_tick (u32 (remaining_tick th - 1)) th);;
      th ← deref threads t;
      when (remaining_tick th =? 0) (
        upd_thread t (fun th => set_remaining_tick (init_tick th) th);;
        rt_thread_yield;;
        mret tt);;
      rest) Q k.
Proof.
  intros O Hc HQ. destruct (ko_current _ _ _ _ _ _ _ _ O t Hc) as [th Ht].
  apply wp_bind, (wp_upd_thread _ _ th); [done|]. apply wp_bind.
  set (th1 := set_remaining_tick _ th). set (k1 := set_threads _ k).
  assert (kernel_ok (Isr None) k1) as O1 by (by eapply kok_update).
  apply (wp_deref _ _ th1); [simpl; by rewrite lookup_insert_eq|]. apply wp_bind. unfold when.
  assert (forall x, x <> t -> threads k1 !! x = threads k !! x) as Hx1.
  { intros x Hx. simpl. by rewrite lookup_insert_ne. }
  destruct (remaining_tick th1 =? 0); [|by apply wp_ret, HQ].
  apply wp_bind, (wp_upd_thread _ _ th1); [simpl; by rewrite lookup_insert_eq|].
  set (th2 := set_remaining_tick (init_tick th1) th1). set (k2 := set_threads _ k1).
  assert (kernel_ok (Isr None) k2) as O2.
  { unfold k2. eapply kok_update; [exact O1|simpl; by rewrite lookup_insert_eq|done..]. }
  assert (forall x, x <> t -> threads k2 !! x = threads k !! x) as Hx2.
  { intros x Hx. simpl. by rewrite !lookup_insert_ne. }
  apply wp_bind, (wp_yield (Isr None) k2 t); [done|done| |].
  - by apply wp_ret, HQ.
  - intros th' p c _ _ _ k3 O3 _. by apply wp_ret, HQ.
Qed.

(** C2. One tick: in every state with the kernel invariant, whatever the application's
    timeout functions do within their contract, [rt_tick_increase] terminates (the timer
    loop runs at most once per running timer), no assertion fails, the invariant holds
    again, the clock has advanced by one modulo 2^32 and every timer left in the
    list expires strictly in the future: all timers that were due have fired. *)
Theorem rt_tick_increase_ok (user_timeout : Z -> Z -> K unit) k t fuel :
  timeout_contract user_timeout ->
  kernel_ok Task k -> rt_current_thread k = Some t ->
  (length (rt_timer_list k) < fuel)%nat ->
  exists k', rt_tick_increase user_timeout fuel k = Some (tt, k') /\ kernel_ok Task k' /\
    rt_tick k' = u32 (rt_tick k + 1) /\
    forall r, r ∈ rt_timer_list k' -> 0 < due (timers k') (rt_tick k') r.
Proof.
  intros Hct O Hc Hf.
  assert (wp (rt_tick_increase user_timeout fuel) (fun _ k' => kernel_ok Task k' /\
    rt_tick k' = u32 (rt_tick k + 1) /\
    forall r, r ∈ rt_timer_list k' -> 0 < due (timers k') (rt_tick k') r) k) as H.
  { unfold rt_tick_increase. apply wp_bind, wp_modify.
    set (k1 := set_rt_tick _ k).
    assert (kernel_ok (Isr None) k1) as O1 by (by apply kok_tick).
    apply wp_bind, wp_bind, wp_gets, (wp_lift _ t); [done|].
    apply wp_time_slice; [done|done|]. intros k2 O2 E2 L2 T2 _.
    unfold rt_timer_check. apply wp_bind, wp_gets. eapply wp_mono.
    { apply (wp_check_loop user_timeout fuel k2); [done|].
      eapply Nat.le_lt_trans; [|exact Hf]. unfold n_expired. rewrite L2. apply length_filter. }
    intros [] k3 (O3 & E3 & H3). split_and!; [by apply kok_tick_end| |done].
    by rewrite E3, E2. }
  apply wp_exists in H as ([] & k' & ? & ?). eauto.
Qed.

(** Thread 4096 sleeps for one tick; then the tick comes. *)
Lemma rt_tick_increase_ok_witness :
  let k := after (rt_thread_sleep 1) demo in
  exists k', rt_tick_increase (fun _ _ => mret tt) 5 k = Some (tt, k') /\ kernel_ok Task k'.
Proof.
  intros k.
  destruct (rt_tick_increase_ok (fun _ _ => mret tt) k 8192 5 timeout_contract_nop
    ltac:(apply kok_check_sound; ev) ltac:(ev) ltac:(vm_compute; lia)) as (k' & E & O & _).
  exists k'. split; [exact E|exact O].
Defined.

(** ** Waking sleepers *)

Definition only_thread_timers (k : kernel) : Prop :=
  forall r, r ∈ rt_timer_list k -> exists t, r = TimerOf t.

(** [woken k k']: what firing the due thread timers of [k] leads to. *)
Definition woken (k k' : kernel) : Prop :=
  forall t,
    (TimerOf t ∈ rt_timer_list k -> due (timers k) (rt_tick k) (TimerOf t) <= 0 ->
       TimerOf t ∉ rt_timer_list k' /\
       exists th, threads k' !! t = Some th /\ stat th = RT_THREAD_READY /\
         error th = - RT_ETIMEOUT) /\
    (TimerOf t ∈ rt_timer_list k -> 0 < due (timers k) (rt_tick k) (TimerOf t) ->
       TimerOf t ∈ rt_timer_list k' /\
       due (timers k') (rt_tick k') (TimerOf t) = due (timers k) (rt_tick k) (TimerOf t) /\
       threads k' !! t = threads k !! t) /\
    (TimerOf t ∉ rt_timer_list k ->
       TimerOf t ∉ rt_timer_list k' /\ threads k' !! t = threads k !! t).

Lemma wp_check_loop_threads user_timeout fuel : forall k,
  kernel_ok (Isr None) k -> only_thread_timers k -> (n_expired k < fuel)%nat ->
  wp (rt_timer_check_loop (timeout_call user_timeout) fuel (rt_tick k)) (fun _ k' =>
    kernel_ok (Isr None) k' /\ rt_tick k' = rt_tick k /\ only_thread_timers k' /\
    (forall r, r ∈ rt_timer_list k' -> 0 < due (timers k') (rt_tick k') r) /\
    woken k k') k.
Proof.
  induction fuel as [|fuel IH]; intros k O Hot Hf; [lia|]. cbn [rt_timer_check_loop].
  apply wp_bind, wp_gets. destruct (rt_timer_list k) as [|r l] eqn:El.
  { apply wp_ret. rewrite El. split_and!; try done.
    - set_solver.
    - intros t. rewrite El. set_solver. }
  pose proof (ko_timer _ _ _ _ _ _ _ _ O) as T. rewrite El in T.
  destruct (to_in _ _ _ T r) as (tm & Ht & Ha); [left|].
  pose proof (to_range _ _ _ T r ltac:(left)) as Hr.
  apply wp_bind, (wp_deref _ _ tm); [done|].
  assert (due (timers k) (rt_tick k) r = i32 (timeout_tick tm - rt_tick k)) as Ed.
  { unfold due. by rewrite (lookup_total_correct _ _ _ Ht). }
  rewrite Ed in Hr. pose proof (expired_spec _ _ Hr) as Hx.
  assert (StronglySorted (fun r1 r2 => due (timers k) (rt_tick k) r1 <= due (timers k) (rt_tick k) r2)
    (r :: l)) as Hso by apply T.
  apply StronglySorted_inv in Hso as [_ Hall]. rewrite Forall_forall in Hall.
  destruct (Z.ltb_spec (u32 (rt_tick k - timeout_tick tm)) (RT_TICK_MAX / 2)) as [Hlt|Hge].
  2:{ assert (forall x, x ∈ r :: l -> 0 < due (timers k) (rt_tick k) x) as Hpos.
      { intros x [->|Hin]%elem_of_cons; [lia|]. specialize (Hall x Hin). simpl in Hall. lia. }
      apply wp_ret. rewrite El. split_and!; try done.
      intros t. rewrite El. split_and!; try done. intros Hin Hd. apply Hpos in Hin. lia. }
  apply Hx in Hlt. apply wp_bind, wp_modify.
  set (k1 := set_rt_timer_list _ k).
  pose proof (kok_fire _ _ _ _ _ _ _ r O) as O1.
  assert (rt_timer_list k1 = l) as El1.
  { simpl. rewrite El. pose proof (to_nodup _ _ _ T) as [Hnot _]%NoDup_cons.
    rewrite filter_cons_False by naive_solver.
    clear -Hnot. induction l as [|x l IHl]; [done|].
    rewrite filter_cons_True by set_solver. f_equal. apply IHl. set_solver. }
  assert (r ∉ l) as Hrl by (pose proof (to_nodup _ _ _ T) as [? _]%NoDup_cons; done).
  assert (n_expired k = S (n_expired k1)) as En.
  { unfold n_expired. rewrite El1, El, filter_cons_True by lia. done. }
  destruct (Hot r) as [t ->]; [rewrite El; left|].
  destruct (ko_timed _ _ _ _ _ _ _ _ O t) as (th & Hth & Hs); [rewrite El; left|].
  destruct (ko_thread_timer _ _ _ _ _ _ _ _ O t th Hth) as (tm0 & E0 & F0 & P0 & N0 & _);
    [by rewrite Hs|]. assert (tm0 = tm) as -> by congruence. rewrite F0, P0. simpl timeout_call.
  apply wp_bind, (wp_thread_timeout (Isr (Some (TimerOf t))) k1 t th); [exact O1|done|done| |].
  { by rewrite El1. }
  intros g p c O2 _. set (k2 := k_switch p c (k_woken t th g k1)) in *.
  apply wp_bind, wp_gets, wp_bind, (wp_deref _ _ tm); [done|]. apply wp_bind.
  assert (truthy (tm_flag tm &. RT_TIMER_FLAG_PERIODIC) = false) as ->.
  { destruct (truthy _) eqn:E; [|done]. apply truthy_periodic in E. congruence. }
  cbn [andb]. apply (wp_upd_timer _ _ tm); [done|].
  set (k3 := set_timers _ k2).
  assert (kernel_ok (Isr None) k3) as O3 by (eapply kok_fired_done; [exact O2|done]).
  assert (forall x, due (timers k3) (rt_tick k3) x = due (timers k) (rt_tick k) x) as Ed3.
  { intros x. unfold k3. simpl. by apply due_stopped. }
  assert (rt_timer_list k3 = l) as El3 by exact El1.
  change (rt_tick k2) with (rt_tick k3).
  eapply wp_mono; [apply IH; [done| |]|].
  - intros x. rewrite El3. intros Hx'. apply Hot. rewrite El. by right.
  - assert (n_expired k3 = n_expired k1) as ->; [|lia].
    unfold n_expired. rewrite El3, El1. apply filter_length_ext. intros x _. by rewrite Ed3.
  - intros [] k4 (O4 & E4 & Ho4 & H4 & W4). split_and!; try done.
    intros t'. destruct (W4 t') as (W1 & W2 & W3). rewrite El3, Ed3 in *. rewrite El.
    destruct (decide (t' = t)) as [->|Hne].
    + destruct W3 as [W3 E3]; [done|].
      split_and!; [|lia|set_solver]. intros _ _. split; [done|].
      rewrite E3. simpl. rewrite lookup_insert_eq. by eexists.
    + assert (threads k3 !! t' = threads k !! t') as E3.
      { simpl. by rewrite lookup_insert_ne. }
      rewrite E3 in *. rewrite elem_of_cons.
      split_and!; try naive_solver.
Qed.

(** C4. Sleeping threads wake on time: when only thread timers run, one tick makes
    exactly the threads whose timer had one tick left (or none) ready, with the error
    -RT_ETIMEOUT and their timer off the list, and every other sleeper stays suspended
    with one tick less to go; so [rt_thread_sleep n] ends at the n-th tick. *)
Theorem sleepers_wake (user_timeout : Z -> Z -> K unit) k c ch fuel :
  kernel_ok Task k -> rt_current_thread k = Some c -> threads k !! c = Some ch ->
  stat ch = RT_THREAD_READY -> only_thread_timers k ->
  (length (rt_timer_list k) < fuel)%nat ->
  exists k', rt_tick_increase user_timeout fuel k = Some (tt, k') /\ kernel_ok Task k' /\
    only_thread_timers k' /\
    forall t, TimerOf t ∈ rt_timer_list k ->
      let d := due (timers k) (rt_tick k) (TimerOf t) in
      (d <= 1 -> TimerOf t ∉ rt_timer_list k' /\
         exists th, threads k' !! t = Some th /\ stat th = RT_THREAD_READY /\
           error th = - RT_ETIMEOUT) /\
      (1 < d -> TimerOf t ∈ rt_timer_list k' /\
         due (timers k') (rt_tick k') (TimerOf t) = d - 1 /\
         threads k' !! t = threads k !! t).
Proof.
  intros O Hc Hch Hr Hot Hf.
  assert (wp (rt_tick_increase user_timeout fuel) (fun _ k' => kernel_ok Task k' /\
    only_thread_timers k' /\
    forall t, TimerOf t ∈ rt_timer_list k ->
      let d := due (timers k) (rt_tick k) (TimerOf t) in
      (d <= 1 -> TimerOf t ∉ rt_timer_list k' /\
         exists th, threads k' !! t = Some th /\ stat th = RT_THREAD_READY /\
           error th = - RT_ETIMEOUT) /\
      (1 < d -> TimerOf t ∈ rt_timer_list k' /\
         due (timers k') (rt_tick k') (TimerOf t) = d - 1 /\
         threads k' !! t = threads k !! t)) k) as H.
  { unfold rt_tick_increase. apply wp_bind, wp_modify. set (k1 := set_rt_tick _ k).
    assert (kernel_ok (Isr None) k1) as O1 by (by apply kok_tick).
    apply wp_bind, wp_bind, wp_gets, (wp_lift _ c); [done|].
    apply wp_time_slice; [done|done|]. intros k2 O2 E2 L2 T2 X2.
    unfold rt_timer_check. apply wp_bind, wp_gets. eapply wp_mono.
    { apply (wp_check_loop_threads user_timeout fuel k2); [done| |].
      - intros r. rewrite L2. apply Hot.
      - eapply Nat.le_lt_trans; [|exact Hf]. unfold n_expired. rewrite L2. apply length_filter. }
    intros [] k3 (O3 & E3 & Ho3 & H3 & W). split; [by apply kok_tick_end|]. split; [done|].
    intros t Ht. set (d := due (timers k) (rt_tick k) (TimerOf t)). destruct (W t) as (W1 & W2 & _). rewrite L2, T2, E2 in W1, W2.
    pose proof (ko_due _ _ _ _ _ _ _ _ O _ eq_refl Ht) as Hd. fold d in Hd.
    change (rt_tick k1) with (u32 (rt_tick k + 1)) in W1, W2. change (timers k1) with (timers k) in W1, W2.
    rewrite (due_tick (timers k) (rt_tick k) (TimerOf t) Hd) in W1, W2. fold d in W1, W2.
    split; intros Hd1; [apply W1; [done|lia]|].
    destruct W2 as (W21 & W22 & W23); [done|lia|]. split_and!; try done.
    rewrite W23. apply X2. intros ->.
    destruct (ko_timed _ _ _ _ _ _ _ _ O c Ht) as (? & ? & ?). congruence. }
  apply wp_exists in H as ([] & k' & ? & ?). eauto.
Qed.

Lemma sleepers_wake_witness :
  let k := after (rt_thread_sleep 1) demo in
  exists k' th, rt_tick_increase (fun _ _ => mret tt) 5 k = Some (tt, k') /\
    threads k' !! 4096 = Some th /\ stat th = RT_THREAD_READY.
Proof.
  intros k.
  destruct (sleepers_wake (fun _ _ => mret tt) k 8192 (demo_th 8192) 5
    ltac:(apply kok_check_sound; ev) ltac:(ev) ltac:(ev) ltac:(ev)
    ltac:(intros r; vm_compute; intros ->%list_elem_of_singleton; eauto)
    ltac:(vm_compute; lia)) as (k' & E & _ & _ & H).
  destruct (H 4096 ltac:(apply list_elem_of_In; vm_compute; by left)) as [(_ & th & E1 & E2 & _) _].
  { vm_compute. discriminate. }
  exists k', th. split; [exact E|]. split; [exact E1|exact E2].
Defined.

(** ** Milliseconds *)

(** [rt_tick_from_millisecond] rounds up: as long as the product fits in 32 bits, the
    result is the least number of ticks that lasts at least [ms] milliseconds. *)
Theorem rt_tick_from_millisecond_ceil ms :
  0 <= ms -> RT_TICK_PER_SECOND * ms + 999 < 2 ^ 32 ->
  ms * RT_TICK_PER_SECOND <= 1000 * rt_tick_from_millisecond ms < ms * RT_TICK_PER_SECOND + 1000.
Proof.
  unfold rt_tick_from_millisecond, RT_TICK_PER_SECOND. intros H0 H1.
  rewrite (wrap_small 32 (100 * ms)), wrap_small by (unfold in_u; lia).
  pose proof (Z.div_mod (100 * ms + 999) 1000 ltac:(lia)).
  pose proof (Z.mod_pos_bound (100 * ms + 999) 1000 ltac:(lia)). lia.
Qed.

Lemma rt_tick_from_millisecond_ceil_witness :
  rt_tick_from_millisecond 15 = 2 /\
  15 * RT_TICK_PER_SECOND <= 1000 * rt_tick_from_millisecond 15 < 15 * RT_TICK_PER_SECOND + 1000.
Proof.
  split; [reflexivity|].
  apply (rt_tick_from_millisecond_ceil 15); unfold RT_TICK_PER_SECOND; lia.
Defined.

(** ** A timeout function that restarts its own timer *)

Definition demo_timer : kernel :=
  after (rt_timer_create (Some 20480) [116; 0] (fn_user 1) 0 1 RT_TIMER_FLAG_PERIODIC;;
         rt_timer_start (Obj 20480)) demo.

Definition restart_timeout (f p : Z) : K unit :=
  rt_timer_stop (Obj 20480);; rt_timer_start (Obj 20480);; mret tt.

(** The contract of timeout functions is needed: from a consistent state, a timeout
    function of a periodic timer that stops and starts that timer (both calls succeed)
    makes [rt_timer_check] insert the timer a second time; the list then holds the same
    node twice. *)
Theorem restart_in_timeout_corrupts :
  kernel_ok Task demo_timer /\
  (fun r => rt_timer_list r.2) <$> rt_tick_increase restart_timeout 5 demo_timer
    = Some [Obj 20480; Obj 20480].
Proof. split; [apply kok_check_sound; ev|ev]. Qed.
