(* ===== verification/Ipc.v ===== *)
(** * Waiting lists: the common part of src/ipc.c

    Suspending a thread on the list of an IPC object, in FIFO or priority
    order, resuming the first one and resuming all; and the lemma on the
    sequence by which every blocking operation of ipc.c gives up the
    processor. *)

From S2P Require Import Prelude Kernel Scheduler Object Timer Thread KernelOk.

Definition RT_IPC_FLAG_FIFO : Z := 0x00.
Definition RT_IPC_FLAG_PRIO : Z := 0x01.
Definition RT_IPC_CMD_RESET : Z := 0x01.
Definition RT_WAITING_FOREVER : Z := -1.

(** ** Operations *)

Definition rt_ipc_object_init (p : ptr) : K Z :=
  tlist_init (QSuspend p);; mret RT_EOK.

(** The search of the [RT_IPC_FLAG_PRIO] case: [t] goes in front of the first
    thread of strictly lower priority (a larger number). *)
Fixpoint ipc_prio_insert (ths : gmap ptr rt_thread) (prio : Z) (t : ptr) (l : list ptr) :
    option (list ptr) :=
  match l with
  | [] => Some [t]
  | s :: l' =>
      sthread ← ths !! s;
      if prio <? current_priority sthread then Some (t :: s :: l')
      else (fun rest => s :: rest) <$> ipc_prio_insert ths prio t l'
  end.

Definition rt_ipc_list_suspend (q : qid) (t : ptr) (flag : Z) : K Z :=
  rt_thread_suspend t;;
  (if flag =? RT_IPC_FLAG_FIFO then tlist_insert_before q t
   else if flag =? RT_IPC_FLAG_PRIO then
     th ← deref threads t;
     ths ← gets threads;
     l ← gets (fun k => tl k q);
     l' ← lift (ipc_prio_insert ths (current_priority th) t l);
     modify (fun k => set_tlists (<[q := l']> (tlists k)) k)
   else mret tt);;
  mret RT_EOK.

Definition rt_ipc_list_resume (q : qid) : K Z :=
  t ← tlist_first q;
  rt_thread_resume t;;
  mret RT_EOK.

(** The [while] loop; [fuel] bounds the number of rounds. *)
Fixpoint ipc_resume_all_loop (fuel : nat) (q : qid) : K unit :=
  match fuel with
  | O => halt
  | S fuel =>
      empty ← tlist_isempty q;
      if (empty : bool) then mret tt
      else
        t ← tlist_first q;
        upd_thread t (set_error (- RT_ERROR));;
        rt_thread_resume t;;
        ipc_resume_all_loop fuel q
  end.

(** Every round takes a thread off the list, so the length of the list bounds
    the rounds. *)
Definition rt_ipc_list_resume_all (q : qid) : K Z :=
  l ← gets (fun k => tl k q);
  ipc_resume_all_loop (S (length l)) q;;
  mret RT_EOK.

(** ** Insertion *)

(** [t] was put between [l1] and [l2], by the rule of [flag]. *)
Definition ipc_position (ths : gmap ptr rt_thread) (flag prio : Z) (l1 l2 : list ptr) : Prop :=
  (flag = RT_IPC_FLAG_FIFO -> l2 = []) /\
  (flag = RT_IPC_FLAG_PRIO ->
     (forall s sh, s ∈ l1 -> ths !! s = Some sh -> current_priority sh <= prio) /\
     match l2 with
     | [] => True
     | s :: _ => exists sh, ths !! s = Some sh /\ prio < current_priority sh
     end).

Lemma prio_insert_split ths prio t l :
  (forall s, s ∈ l -> is_Some (ths !! s)) ->
  exists l1 l2, l = l1 ++ l2 /\ ipc_prio_insert ths prio t l = Some (l1 ++ t :: l2) /\
    ipc_position ths RT_IPC_FLAG_PRIO prio l1 l2.
Proof.
  induction l as [|s l IH]; intros Hl.
  { exists [], []. split_and!; try done. split; [done|]. set_solver. }
  destruct (Hl s ltac:(left)) as [sh Hs]. simpl. rewrite Hs. simpl.
  destruct (Z.ltb_spec prio (current_priority sh)).
  - exists [], (s :: l). split_and!; try done. split; [done|]. intros _.
    split; [set_solver|eauto].
  - destruct IH as (l1 & l2 & -> & -> & [_ [H1 H2]%(fun f => f eq_refl)]).
    { intros x Hx. apply Hl. by right. }
    exists (s :: l1), l2. split_and!; try done. split; [done|]. intros _. split; [|done].
    intros x xh [->|Hx]%elem_of_cons Ex; [|by eapply H1].
    rewrite Hs in Ex. by simplify_eq.
Qed.

(** ** Blocking *)

Definition k_blocked (t : ptr) (th : rt_thread) (q : qid) (lq : list ptr) (g : Z) (k : kernel) :
    kernel :=
  set_rt_thread_ready_priority_group g
    (set_tlists (<[q := lq]> (filter (.≠ t) <$> tlists k))
      (set_threads (<[t := set_stat RT_THREAD_SUSPEND th]> (threads k)) k)).

Lemma ready_not_waiting m k t th p :
  kernel_ok m k -> threads k !! t = Some th -> stat th = RT_THREAD_READY ->
  t ∉ tl k (QSuspend p) /\ t ∉ tl k (QSender p).
Proof.
  intros O Ht Hs. pose proof (ko_sched _ _ _ _ _ _ _ _ O) as S.
  split; intros Hin; apply (so_in_wait _ _ _ S) in Hin as (? & ? & ?); eauto; congruence.
Qed.

Lemma wp_ipc_list_suspend m k t th q flag (Q : Z -> kernel -> Prop) :
  kernel_ok m k -> threads k !! t = Some th -> stat th = RT_THREAD_READY -> t <> idle ->
  (exists p, q = QSuspend p \/ q = QSender p) ->
  (flag = RT_IPC_FLAG_FIFO \/ flag = RT_IPC_FLAG_PRIO) ->
  (forall l1 l2 g, tl k q = l1 ++ l2 -> ipc_position (threads k) flag (current_priority th) l1 l2 ->
     kernel_ok m (k_blocked t th q (l1 ++ t :: l2) g k) ->
     Q RT_EOK (k_blocked t th q (l1 ++ t :: l2) g k)) ->
  wp (rt_ipc_list_suspend q t flag) Q k.
Proof.
  intros O Ht Hs Hid Hq Hfl HQ. unfold rt_ipc_list_suspend.
  assert (t ∉ tl k q) as Hnot.
  { destruct Hq as [p [-> | ->]]; by apply (ready_not_waiting m k t th p). }
  apply wp_bind, (wp_suspend m k t th); try done. intros g O1.
  set (k1 := k_susp t th g k) in *.
  assert (tl k1 q = tl k q) as Eq.
  { unfold tl. simpl. rewrite lookup_total_remove. by apply filter_ne_id. }
  assert (forall s, s ∈ tl k q -> is_Some (threads k1 !! s)) as Hall.
  { intros s Hsin. rewrite <-Eq in Hsin.
    destruct (so_in_wait _ _ _ (ko_sched _ _ _ _ _ _ _ _ O1) q s) as (? & ? & _); eauto. }
  assert (forall l1 l2, tl k q = l1 ++ l2 -> ipc_position (threads k) flag (current_priority th) l1 l2 ->
    Q RT_EOK (k_blocked t th q (l1 ++ t :: l2) g k)) as Hfin.
  { intros l1 l2 El Hpos. apply HQ; try done. unfold kernel_ok. simpl.
    eapply kok_wait; [exact O1|simpl; by rewrite lookup_insert_eq|apply in_no_list_removed|done..|].
    by rewrite <-El, <-Eq. }
  apply wp_bind. destruct Hfl as [-> | ->]; cbn [Z.eqb RT_IPC_FLAG_FIFO RT_IPC_FLAG_PRIO].
  - apply wp_modify, wp_ret. rewrite Eq. apply (Hfin (tl k q) []); [by rewrite app_nil_r|].
    split; done.
  - apply wp_bind, (wp_deref _ _ (set_stat RT_THREAD_SUSPEND th)).
    { simpl. by rewrite lookup_insert_eq. }
    apply wp_bind, wp_gets, wp_bind, wp_gets, wp_bind. rewrite Eq.
    destruct (prio_insert_split (threads k1) (current_priority th) t (tl k q) Hall)
      as (l1 & l2 & El & Ei & Hpos).
    apply (wp_lift _ (l1 ++ t :: l2)); [exact Ei|]. apply wp_modify, wp_ret.
    apply Hfin; [done|]. destruct Hpos as [_ Hpos]. split; [done|]. intros _.
    destruct (Hpos eq_refl) as [H1 H2]. split.
    + intros s sh Hsin Hsh. apply (H1 s sh Hsin). simpl. rewrite lookup_insert_ne; [done|].
      intros ->. apply Hnot. rewrite El. set_solver.
    + destruct l2 as [|s l2]; [done|]. destruct H2 as (sh & Hsh & ?). exists sh. split; [|done].
      simpl in Hsh. rewrite lookup_insert_ne in Hsh; [done|].
      intros ->. apply Hnot. rewrite El. set_solver.
Qed.

(** The end of every blocking operation: arm the timer of the thread when a
    time limit was given, and schedule. *)
Definition k_waiting (l : list ref) (ts : gmap ref rt_timer) (n p : Z) (c : option ptr)
    (k : kernel) : kernel :=
  k_switch p c (k_timers l ts n k).

Lemma k_timers_id k : k_timers (rt_timer_list k) (timers k) (random_nr k) k = k.
Proof. by destruct k. Qed.

Definition time_ok (time : Z) : Prop := time < RT_TICK_MAX / 2.

Lemma wp_wait {A} k t th tm time (rest : K A) (Q : A -> kernel -> Prop) :
  kernel_ok Task k -> threads k !! t = Some th -> stat th = RT_THREAD_SUSPEND ->
  timers k !! TimerOf t = Some tm -> ~ active tm -> time_ok time ->
  (forall l ts n p c, kernel_ok Task (k_waiting l ts n p c k) ->
     (0 < time -> TimerOf t ∈ l /\ due ts (rt_tick k) (TimerOf t) = time) ->
     (time <= 0 -> TimerOf t ∉ l) ->
     (rt_scheduler_lock_nest k = 0 -> exists t', c = Some t' /\ elected (k_timers l ts n k) t') ->
     wp rest Q (k_waiting l ts n p c k)) ->
  wp (when (time >? 0) (
        rt_timer_control (TimerOf t) RT_TIMER_CTRL_SET_TIME time;;
        rt_timer_start (TimerOf t);;
        mret tt);;
      rt_schedule;;
      rest) Q k.
Proof.
  intros O Ht Hs Htm Ha Htime HQ. apply wp_bind. unfold when.
  destruct (Z.gtb_spec time 0) as [Hgt|Hle].
  - apply (wp_arm Task k t th tm); try done; [unfold time_ok in *; lia|].
    intros l ts n O1 Hin Hdue _ _. apply wp_ret, wp_bind, (wp_schedule Task); [done|].
    intros p c O2 He _. apply HQ; try done. lia.
  - apply wp_ret, wp_bind, (wp_schedule Task); [done|]. intros p c O2 He _.
    replace (k_switch p c k) with (k_waiting (rt_timer_list k) (timers k) (random_nr k) p c k)
      by (unfold k_waiting; by rewrite k_timers_id).
    apply HQ; try done.
    + lia.
    + intros _. eapply inactive_not_in; [apply O|done|done].
Qed.

(** ** Resuming *)

Lemma waiting_thread m k q t :
  kernel_ok m k -> (exists p, q = QSuspend p \/ q = QSender p) -> t ∈ tl k q ->
  exists th, threads k !! t = Some th /\ stat th = RT_THREAD_SUSPEND.
Proof. intros O Hq Hin. eapply (so_in_wait _ _ _ (ko_sched _ _ _ _ _ _ _ _ O)); eauto. Qed.

Lemma ready_lists_head t th ls q l :
  NoDup (t :: l) -> (exists p, q = QSuspend p \/ q = QSender p) -> ls !!! q = t :: l ->
  ready_lists t th ls !!! q = l.
Proof.
  intros [Hnot _]%NoDup_cons [p Hq] El. rewrite ready_lists_other_ready by naive_solver.
  rewrite El, filter_cons_False by naive_solver. by apply filter_ne_id.
Qed.

(** Resuming the first waiter. *)
Lemma wp_ipc_list_resume m k q t l th (Q : Z -> kernel -> Prop) :
  kernel_ok m k -> (exists p, q = QSuspend p \/ q = QSender p) -> tl k q = t :: l ->
  threads k !! t = Some th ->
  (forall g tl' ts, kernel_ok m (k_resm t th g tl' ts k) ->
     tl (k_resm t th g tl' ts k) q = l ->
     (forall r, r ∈ tl' -> r ∈ rt_timer_list k) ->
     (forall r, r <> TimerOf t -> ts !! r = timers k !! r) ->
     Q RT_EOK (k_resm t th g tl' ts k)) ->
  wp (rt_ipc_list_resume q) Q k.
Proof.
  intros O Hq El Ht HQ. unfold rt_ipc_list_resume, tlist_first.
  apply wp_bind, wp_bind, wp_gets. rewrite El. apply wp_ret, wp_bind.
  destruct (waiting_thread m k q t O Hq) as (th' & Ht' & Hs); [rewrite El; left|].
  assert (th' = th) as -> by congruence.
  apply (wp_resume m k t th); try done. intros g tl' ts O1 Hin Hts _. apply wp_ret.
  apply HQ; try done. unfold tl. simpl. apply ready_lists_head; try done.
  rewrite <-El. apply (so_nodup _ _ _ (ko_sched _ _ _ _ _ _ _ _ O)).
Qed.

(** After [rt_ipc_list_resume_all] nobody waits and the former waiters are
    ready with the error -RT_ERROR. *)
Definition resumed_all (q : qid) (k k' : kernel) : Prop :=
  tl k' q = [] /\
  (forall t, t ∈ tl k q -> exists th, threads k' !! t = Some th /\
     stat th = RT_THREAD_READY /\ error th = - RT_ERROR) /\
  (forall t, t ∉ tl k q -> threads k' !! t = threads k !! t) /\
  rt_tick k' = rt_tick k /\ rt_current_thread k' = rt_current_thread k /\
  rt_scheduler_lock_nest k' = rt_scheduler_lock_nest k /\
  rt_interrupt_nest k' = rt_interrupt_nest k /\
  objects k' = objects k /\ object_container k' = object_container k /\
  sems k' = sems k /\ mutexes k' = mutexes k /\ events k' = events k /\
  mailboxes k' = mailboxes k /\ mqs k' = mqs k /\ mempools k' = mempools k /\
  (forall q', (exists p, q' = QSuspend p \/ q' = QSender p) -> q' <> q ->
     tl k' q' = tl k q').

Lemma wait_other_filter m k q q' t :
  kernel_ok m k -> t ∈ tl k q -> q' <> q -> filter (.≠ t) (tl k q') = tl k q'.
Proof.
  intros O Hin Hne. apply filter_ne_id. intros Hin'.
  apply Hne, (so_unique _ _ _ (ko_sched _ _ _ _ _ _ _ _ O) _ _ t); done.
Qed.

Lemma wp_resume_all_loop m q fuel : forall k,
  kernel_ok m k -> (exists p, q = QSuspend p \/ q = QSender p) ->
  (length (tl k q) < fuel)%nat ->
  wp (ipc_resume_all_loop fuel q) (fun _ k' => kernel_ok m k' /\ resumed_all q k k') k.
Proof.
  induction fuel as [|fuel IH]; intros k O Hq Hf; [lia|]. cbn [ipc_resume_all_loop].
  unfold tlist_isempty. apply wp_bind, wp_bind, wp_gets.
  destruct (tl k q) as [|t l] eqn:El.
  { apply wp_ret, wp_ret. split; [done|]. unfold resumed_all. rewrite El.
    split_and!; try done. set_solver. }
  apply wp_ret, wp_bind. unfold tlist_first. apply wp_bind, wp_gets. rewrite El. apply wp_ret.
  destruct (waiting_thread m k q t O Hq) as (th & Ht & Hs); [rewrite El; left|].
  apply wp_bind, (wp_upd_thread _ _ th); [done|].
  set (th1 := set_error (- RT_ERROR) th). set (k1 := set_threads _ k).
  assert (kernel_ok m k1) as O1 by (by eapply kok_update).
  apply wp_bind, (wp_resume m k1 t th1); [done|simpl; by rewrite lookup_insert_eq|done|].
  intros g tl' ts O2 _ _ _. set (k2 := k_resm t th1 g tl' ts k1) in *.
  pose proof (so_nodup _ _ _ (ko_sched _ _ _ _ _ _ _ _ O) q) as Hnd.
  change (tlists k !!! q) with (tl k q) in Hnd. rewrite El in Hnd.
  assert (tl k2 q = l) as El2 by (by apply ready_lists_head).
  eapply wp_mono; [apply (IH k2); [done|done|rewrite El2; simpl in Hf; lia]|].
  intros [] k3 (O3 & R1 & R2 & R3 & R4). split; [done|]. rewrite El2 in R2, R3.
  apply NoDup_cons in Hnd as [Hnot Hnd].
  assert (threads k2 !! t = Some (set_stat RT_THREAD_READY th1)) as Et2.
  { simpl. by rewrite lookup_insert_eq. }
  assert (forall x, x <> t -> threads k2 !! x = threads k !! x) as Ex2.
  { intros x Hx. simpl. by rewrite !lookup_insert_ne. }
  destruct R4 as (R4 & R5 & R6 & R7 & R8 & R9 & R10 & R11 & R12 & R13 & R14 & R15 & R16).
  split; [done|]. split; [|split; [|split_and!; try done]].
  - rewrite El. intros x [->|Hx]%elem_of_cons; [|by apply R2].
    rewrite (R3 t Hnot), Et2. by eexists.
  - rewrite El. intros x [Hx Hx']%not_elem_of_cons. rewrite (R3 x Hx'). by apply Ex2.
  - intros q' Hq' Hne. rewrite (R16 q' Hq' Hne).
    destruct Hq' as [p Hq']. unfold tl at 1. simpl.
    rewrite ready_lists_other_ready by naive_solver.
    apply (wait_other_filter m k q q' t O); [rewrite El; left|done].
Qed.

Lemma wp_ipc_list_resume_all m q k (Q : Z -> kernel -> Prop) :
  kernel_ok m k -> (exists p, q = QSuspend p \/ q = QSender p) ->
  (forall k', kernel_ok m k' -> resumed_all q k k' -> Q RT_EOK k') ->
  wp (rt_ipc_list_resume_all q) Q k.
Proof.
  intros O Hq HQ. unfold rt_ipc_list_resume_all. apply wp_bind, wp_gets, wp_bind.
  eapply wp_mono; [apply (wp_resume_all_loop m q); [done|done|lia]|].
  intros [] k' [? ?]. apply wp_ret. by apply HQ.
Qed.

(** ** The caller of a blocking operation

    A running thread other than the idle thread, outside of interrupts and
    with the scheduler unlocked. *)
Record caller (k : kernel) (t : ptr) (th : rt_thread) : Prop := {
  ca_ok : kernel_ok Task k;
  ca_current : rt_current_thread k = Some t;
  ca_thread : threads k !! t = Some th;
  ca_ready : stat th = RT_THREAD_READY;
  ca_not_idle : t <> idle;
  ca_nest : rt_interrupt_nest k = 0;
  ca_lock : rt_scheduler_lock_nest k = 0;
}.

Lemma wp_thread_context {A} k t th (rest : K A) (Q : A -> kernel -> Prop) :
  caller k t th -> wp rest Q k -> wp (RT_DEBUG_IN_THREAD_CONTEXT;; rest) Q k.
Proof.
  intros C HQ. unfold RT_DEBUG_IN_THREAD_CONTEXT, RT_DEBUG_NOT_IN_INTERRUPT.
  apply wp_bind, wp_bind, wp_gets. rewrite (ca_current _ _ _ C).
  apply wp_bind, wp_assert; [done|]. apply wp_bind, wp_gets.
  rewrite (ca_nest _ _ _ C). by apply wp_assert.
Qed.

Lemma wp_current {A} k t th (rest : ptr -> K A) (Q : A -> kernel -> Prop) :
  caller k t th -> wp (rest t) Q k -> wp (t ← current; rest t) Q k.
Proof.
  intros C HQ. unfold current, rt_thread_self.
  apply wp_bind, wp_bind, wp_gets, (wp_lift _ t); [apply C|done].
Qed.

(** Fields of the calling thread that no other part reads. *)
Lemma caller_update k t th th' :
  caller k t th -> stat th' = stat th -> current_priority th' = current_priority th ->
  number_mask th' = number_mask th -> sp th' = sp th ->
  stack_addr th' = stack_addr th -> stack_size th' = stack_size th ->
  caller (set_threads (<[t := th']> (threads k)) k) t th'.
Proof.
  intros [O Hc Ht Hs Hid Hn Hl] Es Ep Em E1 E2 E3. split; try done.
  - by eapply kok_update.
  - simpl. by rewrite lookup_insert_eq.
  - congruence.
Qed.

(** The blocking sequence as a whole: suspend on the list [q], arm the timer,
    schedule. *)
Definition blocked_state (k : kernel) (t : ptr) (th : rt_thread) (q : qid) (flag time : Z)
    (k' : kernel) : Prop :=
  exists l1 l2 g l ts n p c,
    tl k q = l1 ++ l2 /\ ipc_position (threads k) flag (current_priority th) l1 l2 /\
    k' = k_waiting l ts n p c (k_blocked t th q (l1 ++ t :: l2) g k) /\
    (0 < time -> TimerOf t ∈ l /\ due ts (rt_tick k) (TimerOf t) = time) /\
    (time <= 0 -> TimerOf t ∉ l) /\
    exists t', c = Some t' /\ elected k' t'.

Lemma wp_block {A} k t th q flag time (rest : K A) (Q : A -> kernel -> Prop) :
  caller k t th -> (exists p, q = QSuspend p \/ q = QSender p) ->
  (flag = RT_IPC_FLAG_FIFO \/ flag = RT_IPC_FLAG_PRIO) -> time_ok time ->
  (forall k', kernel_ok Task k' -> blocked_state k t th q flag time k' -> wp rest Q k') ->
  wp (rt_ipc_list_suspend q t flag;;
      when (time >? 0) (
        rt_timer_control (TimerOf t) RT_TIMER_CTRL_SET_TIME time;;
        rt_timer_start (TimerOf t);;
        mret tt);;
      rt_schedule;;
      rest) Q k.
Proof.
  intros [O Hc Ht Hs Hid Hn Hlk] Hq Hfl Htime HQ.
  destruct (ready_timer_inactive k t th O Ht Hs) as (tm & Etm & Ha).
  apply wp_bind, (wp_ipc_list_suspend Task k t th); try done.
  intros l1 l2 g El Hpos O1.
  apply (wp_wait _ t (set_stat RT_THREAD_SUSPEND th) tm); try done.
  { simpl. by rewrite lookup_insert_eq. }
  intros l ts n p c O2 H1 H2 H3. apply HQ; [done|].
  exists l1, l2, g, l, ts, n, p, c. split_and!; try done.
  destruct (H3 Hlk) as (t' & -> & He). by exists t'.
Qed.

(** What a blocked thread looks like. *)
Lemma blocked_thread k t th q flag time k' :
  blocked_state k t th q flag time k' ->
  threads k' !! t = Some (set_stat RT_THREAD_SUSPEND th) /\
  (forall x, x <> t -> threads k' !! x = threads k !! x).
Proof.
  intros (l1 & l2 & g & l & ts & n & p & c & _ & _ & -> & _). simpl.
  split; [by rewrite lookup_insert_eq|]. intros x Hx. by rewrite lookup_insert_ne.
Qed.

Lemma blocked_list k t th q flag time k' :
  blocked_state k t th q flag time k' ->
  exists l1 l2, tl k q = l1 ++ l2 /\ tl k' q = l1 ++ t :: l2 /\
    ipc_position (threads k) flag (current_priority th) l1 l2.
Proof.
  intros (l1 & l2 & g & l & ts & n & p & c & El & Hpos & -> & _).
  exists l1, l2. split_and!; [done| |apply Hpos..]. unfold tl. simpl.
  by rewrite lookup_total_insert_eq.
Qed.

Ltac ev_caller := split; [apply kok_check_sound; ev|ev..].

(** The same with the clock read in between, as the mailbox and the message
    queue do. *)
Lemma wp_block_tick {A} k t th q flag time (f : kernel -> Z) (rest : Z -> K A)
    (Q : A -> kernel -> Prop) :
  caller k t th -> (exists p, q = QSuspend p \/ q = QSender p) ->
  (flag = RT_IPC_FLAG_FIFO \/ flag = RT_IPC_FLAG_PRIO) -> time_ok time ->
  (forall k', rt_tick k' = rt_tick k -> f k' = f k) ->
  (forall k', kernel_ok Task k' -> blocked_state k t th q flag time k' -> wp (rest (f k)) Q k') ->
  wp (rt_ipc_list_suspend q t flag;;
      d ← gets f;
      when (time >? 0) (
        rt_timer_control (TimerOf t) RT_TIMER_CTRL_SET_TIME time;;
        rt_timer_start (TimerOf t);;
        mret tt);;
      rt_schedule;;
      rest d) Q k.
Proof.
  intros [O Hc Ht Hs Hid Hn Hlk] Hq Hfl Htime Hf HQ.
  destruct (ready_timer_inactive k t th O Ht Hs) as (tm & Etm & Ha).
  apply wp_bind, (wp_ipc_list_suspend Task k t th); try done.
  intros l1 l2 g El Hpos O1. apply wp_bind, wp_gets. rewrite Hf by done.
  apply (wp_wait _ t (set_stat RT_THREAD_SUSPEND th) tm); try done.
  { simpl. by rewrite lookup_insert_eq. }
  intros l ts n p c O2 H1 H2 H3. apply HQ; [done|].
  exists l1, l2, g, l, ts, n, p, c. split_and!; try done.
  destruct (H3 Hlk) as (t' & -> & He). by exists t'.
Qed.

(** The time limit left after a wait that began at [tick_delta]:
    [timeout -= rt_tick_get() - tick_delta; if (timeout < 0) timeout = 0]. *)
Definition timeout_left (timeout now tick_delta : Z) : Z :=
  if timeout >? 0 then
    let timeout := i32 (timeout - u32 (now - tick_delta)) in
    if timeout <? 0 then 0 else timeout
  else timeout.

(** What a call that may wait returns: a value, or the local variables with
    which the caller goes on when it is woken. *)
Inductive waiting (A : Type) :=
  | Returns (r : A)
  | Waits (timeout tick_delta : Z).
Arguments Returns {A} r.
Arguments Waits {A} timeout tick_delta.

(** The first waiter of [q], if any, has been made ready. *)
Definition woken_first (q : qid) (k k' : kernel) : Prop :=
  match tl k q with
  | [] => threads k' = threads k /\ tl k' q = []
  | t :: l => tl k' q = l /\ exists th, threads k !! t = Some th /\
      threads k' = <[t := set_stat RT_THREAD_READY th]> (threads k)
  end.

(** [if (!rt_list_isempty(list)) { rt_ipc_list_resume(list); rt_schedule(); }] *)
Lemma wp_wake_first {A} m k q (r : A) (Q : A -> kernel -> Prop) :
  kernel_ok m k -> (exists p, q = QSuspend p \/ q = QSender p) ->
  (forall k', kernel_ok m k' -> woken_first q k k' ->
     sems k' = sems k -> mutexes k' = mutexes k -> events k' = events k ->
     mailboxes k' = mailboxes k -> mqs k' = mqs k -> mempools k' = mempools k -> Q r k') ->
  wp (empty ← tlist_isempty q;
      if negb empty then
        rt_ipc_list_resume q;;
        rt_schedule;;
        mret r
      else mret r) Q k.
Proof.
  intros O Hq HQ. unfold tlist_isempty. apply wp_bind, wp_bind, wp_gets.
  destruct (tl k q) as [|t l] eqn:El; apply wp_ret; cbn [negb].
  - apply wp_ret. apply HQ; try done. unfold woken_first. by rewrite El.
  - destruct (waiting_thread m k q t O Hq) as (th & Ht & _); [rewrite El; left|].
    apply wp_bind, (wp_ipc_list_resume m k q t l th); try done.
    intros g tl' ts O1 El1 _ _. apply wp_bind, (wp_schedule m); [done|].
    intros p c O2 _ _. apply wp_ret. apply HQ; try done. unfold woken_first. rewrite El.
    split; [exact El1|]. by exists th.
Qed.

(** The thread that left the list between two states, seen from outside: who a
    call woke up. *)
Definition waked (q : qid) (k k' : kernel) : option ptr :=
  head (filter (fun t => t ∉ tl k' q) (tl k q)).

Lemma filter_notin_self (l : list ptr) : filter (fun t => t ∉ l) l = [].
Proof.
  destruct (filter (fun t => t ∉ l) l) as [|x l'] eqn:E; [done|].
  assert (x ∈ filter (fun t => t ∉ l) l) as [Hn Hin]%list_elem_of_filter; [rewrite E; left|done].
Qed.

Lemma waked_none q k k' : tl k' q = tl k q -> waked q k k' = None.
Proof. intros E. unfold waked. by rewrite E, filter_notin_self. Qed.

Lemma waked_first m q k k' t l :
  kernel_ok m k -> tl k q = t :: l -> tl k' q = l -> waked q k k' = Some t.
Proof.
  intros O El El'. pose proof (so_nodup _ _ _ (ko_sched _ _ _ _ _ _ _ _ O) q) as Hn.
  change (tlists k !!! q) with (tl k q) in Hn. rewrite El in Hn. apply NoDup_cons in Hn as [Hn _].
  unfold waked. by rewrite El, El', filter_cons_True by done.
Qed.
