(* ===== verification/Priority.v ===== *)
(** * Changing the priority of a thread

    [rt_thread_control] with RT_THREAD_CTRL_CHANGE_PRIORITY, which the mutexes
    use for priority inheritance, keeps the kernel invariant. *)

From S2P Require Import Prelude Kernel Scheduler Object Timer Thread KernelOk ThreadSpec.

Definition with_priority (prio : Z) (th : rt_thread) : rt_thread :=
  set_number_mask (2 ^ prio) (set_current_priority prio th).

(** The state after the change: only [t], the lists and the group differ. *)
Definition k_prio (t : ptr) (th : rt_thread) (prio g : Z) (ls : gmap qid (list ptr)) (k : kernel) :
    kernel :=
  set_rt_thread_ready_priority_group g
    (set_tlists ls (set_threads (<[t := with_priority prio th]> (threads k)) k)).

Lemma shiftl_1 p : 0 <= p < RT_THREAD_PRIORITY_MAX -> u32 (Z.shiftl 1 p) = 2 ^ p.
Proof.
  unfold RT_THREAD_PRIORITY_MAX. intros Hp. rewrite Z.shiftl_1_l. apply wrap_small.
  split; [lia|]. apply Z.pow_lt_mono_r; lia.
Qed.

Lemma change_priority_eq t th prio k :
  threads k !! t = Some th -> 0 <= prio < RT_THREAD_PRIORITY_MAX ->
  rt_thread_change_priority t prio k =
    Some (tt, set_threads (<[t := with_priority prio th]> (threads k)) k).
Proof.
  intros Ht Hp. unfold rt_thread_change_priority, upd_thread, deref, mbind, K_bind.
  rewrite Ht. simpl. rewrite lookup_insert_eq. simpl.
  unfold put_thread, modify, set_threads. simpl. rewrite insert_insert_eq, shiftl_1 by done. done.
Qed.

(** A thread that is not ready: the lists do not depend on its priority. *)
Lemma sched_ok_prio_idle ths ls g t th prio :
  sched_ok ths ls g -> ths !! t = Some th -> stat th <> RT_THREAD_READY ->
  0 <= prio < RT_THREAD_PRIORITY_MAX ->
  sched_ok (<[t := with_priority prio th]> ths) ls g.
Proof.
  intros S Ht Hs Hp.
  assert (forall x xh, <[t := with_priority prio th]> ths !! x = Some xh ->
    x = t /\ xh = with_priority prio th \/ x <> t /\ ths !! x = Some xh) as Hx.
  { intros x xh. destruct (decide (x = t)) as [->|]; intros; simplify_map_eq; auto. }
  assert (forall x xh0, ths !! x = Some xh0 ->
    exists xh, <[t := with_priority prio th]> ths !! x = Some xh /\ stat xh = stat xh0 /\
      (stat xh0 = RT_THREAD_READY -> current_priority xh = current_priority xh0)) as Hf.
  { intros x xh. destruct (decide (x = t)) as [->|]; intros; simplify_map_eq; eauto.
    eexists. split; [done|]. split; [done|]. congruence. }
  split; try apply S.
  - intros x xh [[-> ->]|[? ?]]%Hx Hr; [done|]. by apply (so_ready _ _ _ S).
  - intros p x (xh0 & (xh & ? & E1 & E2)%Hf & ? & ?)%(so_in_ready _ _ _ S).
    exists xh. split_and!; [done|congruence|]. rewrite E2; done.
  - intros q x Hin Hq. destruct (so_in_wait _ _ _ S _ _ Hin Hq) as (xh0 & (xh & ? & E1 & _)%Hf & ?).
    exists xh. split; congruence.
  - intros x (xh0 & (xh & ? & E1 & _)%Hf & ?)%(so_in_defunct _ _ _ S).
    exists xh. split; congruence.
  - intros x xh [[-> ->]|[? ?]]%Hx; [done|]. by eapply (so_prio _ _ _ S).
  - intros x xh [[-> ->]|[? ?]]%Hx Hr; [done|]. by eapply (so_mask _ _ _ S).
Qed.

(** A ready thread: out of its list, to the end of the list of the new
    priority. *)
Lemma sched_ok_prio_ready k t th prio :
  sched_inv k -> threads k !! t = Some th -> stat th = RT_THREAD_READY ->
  0 <= prio < RT_THREAD_PRIORITY_MAX ->
  sched_ok (<[t := with_priority prio th]> (threads k))
    (ready_lists t (with_priority prio th) (tlists k))
    (rt_thread_ready_priority_group (k_remove t th k) |. 2 ^ prio).
Proof.
  intros S Ht Hs Hp. set (th1 := set_stat RT_THREAD_SUSPEND th).
  assert (sched_ok (<[t := th1]> (threads k)) (tlists (k_remove t th k))
    (rt_thread_ready_priority_group (k_remove t th k))) as S1.
  { apply k_remove_ok; try done; [by left|exact (so_prio _ _ _ S t th Ht)|].
    intros _. exact (so_mask _ _ _ S t th Ht (or_introl Hs)). }
  replace (tlists (k_remove t th k)) with (filter (.≠ t) <$> tlists k) in S1
    by (rewrite k_remove_frame; done).
  rewrite <-(insert_insert_eq (threads k) t (with_priority prio th) th1).
  apply (sched_ok_link_ready _ _ _ t th1 (with_priority prio th) S1); try done.
  - by rewrite lookup_insert_eq.
  - apply in_no_list_removed.
Qed.

Lemma wp_change_priority m k t th prio (Q : Z -> kernel -> Prop) :
  kernel_ok m k -> threads k !! t = Some th -> 0 <= prio < RT_THREAD_PRIORITY_MAX ->
  (forall g ls, kernel_ok m (k_prio t th prio g ls k) ->
     (forall q, (exists p, q = QSuspend p \/ q = QSender p) -> ls !!! q = tlists k !!! q) ->
     (stat th = RT_THREAD_READY -> ls = ready_lists t (with_priority prio th) (tlists k)) ->
     (stat th <> RT_THREAD_READY -> ls = tlists k) ->
     Q RT_EOK (k_prio t th prio g ls k)) ->
  wp (rt_thread_control t RT_THREAD_CTRL_CHANGE_PRIORITY prio) Q k.
Proof.
  intros O Ht Hp HQ. unfold rt_thread_control. rewrite Z.eqb_refl.
  assert (u8 prio = prio) as ->.
  { apply wrap_small. unfold in_u, RT_THREAD_PRIORITY_MAX in *. lia. }
  apply wp_bind, (wp_deref _ _ th); [done|]. apply wp_bind.
  pose proof (ko_sched _ _ _ _ _ _ _ _ O) as S.
  assert (forall g ls, sched_ok (<[t := with_priority prio th]> (threads k)) ls g ->
    kernel_ok m (k_prio t th prio g ls k)) as Hk.
  { intros g ls S'. unfold kernel_ok. simpl. eapply kok_thread; try done.
    - exact (ko_stack _ _ _ _ _ _ _ _ O t th Ht).
    - intros ->. destruct (ko_idle _ _ _ _ _ _ _ _ O) as (? & ? & ?). simpl. congruence.
    - intros Hin. destruct (ko_timed _ _ _ _ _ _ _ _ O t Hin) as (? & ? & ?). simpl. congruence. }
  case_bool_decide as Hs.
  - apply wp_bind. unfold wp at 1. rewrite (remove_thread_eq t th k Ht).
    assert (threads (k_remove t th k) = threads k) as Er by (rewrite k_remove_frame; done).
    apply wp_bind. unfold wp at 1.
    rewrite (change_priority_eq t th prio (k_remove t th k)) by (by rewrite ?Er).
    set (k1 := set_threads _ (k_remove t th k)). unfold wp at 1.
    rewrite (insert_thread_eq t (with_priority prio th) k1).
    2:{ simpl. rewrite Er. by rewrite lookup_insert_eq. }
    apply wp_ret.
    set (g := rt_thread_ready_priority_group (k_remove t th k) |. 2 ^ prio).
    assert (k_insert t (with_priority prio th) k1 =
      k_prio t th prio g (ready_lists t (with_priority prio th) (tlists k)) k) as ->.
    { unfold k1, g, k_insert, k_prio. rewrite k_remove_frame. simpl.
      rewrite insert_insert_eq. destruct th; simpl in *. by subst. }
    apply HQ; try done.
    + apply Hk. by apply sched_ok_prio_ready.
    + intros q [p Hq]. rewrite ready_lists_other_ready by naive_solver.
      apply filter_ne_id. intros Hin.
      destruct (so_in_wait _ _ _ S q t Hin) as (? & ? & ?); [eauto|congruence].
  - unfold wp at 1. rewrite (change_priority_eq t th prio k) by done. apply wp_ret.
    assert (set_threads (<[t:=with_priority prio th]> (threads k)) k =
      k_prio t th prio (rt_thread_ready_priority_group k) (tlists k) k) as -> by (by destruct k).
    apply HQ; try done. apply Hk. by apply sched_ok_prio_idle.
Qed.
