(* ===== verification/Semaphore.v ===== *)
(** * Semaphores: src/ipc.c

    A semaphore is a 16-bit count and a list of waiting threads.  Its abstract
    view is the pair of both; [sem_step] is the specification, and the
    theorems show that the calls implement it. *)

From S2P Require Import Prelude Kernel Scheduler Object Timer Thread KernelOk ThreadSpec Ipc.

Module Sem.

(** ** Operations *)

Definition rt_sem_init (p : ptr) (name : list Z) (value flag : Z) : K Z :=
  rt_object_init (Obj p) RT_Object_Class_Semaphore name;;
  rt_ipc_object_init p;;
  put_sem p (Semaphore flag (u16 value));;
  mret RT_EOK.

Definition rt_sem_detach (p : ptr) : K Z :=
  rt_ipc_list_resume_all (QSuspend p);;
  rt_object_detach (Obj p);;
  mret RT_EOK.

Definition rt_sem_create (mem : option ptr) (name : list Z) (value flag : Z) : K (option ptr) :=
  RT_DEBUG_NOT_IN_INTERRUPT;;
  sem ← rt_object_allocate mem RT_Object_Class_Semaphore name;
  match sem with
  | None => mret None
  | Some p =>
      rt_ipc_object_init p;;
      put_sem p (Semaphore flag (u16 value));;
      mret (Some p)
  end.

Definition rt_sem_delete (p : ptr) : K Z :=
  RT_DEBUG_NOT_IN_INTERRUPT;;
  rt_ipc_list_resume_all (QSuspend p);;
  rt_object_delete (Obj p);;
  mret RT_EOK.

(** [None]: the caller waits; it goes on with [rt_sem_take_resume]. *)
Definition rt_sem_take (p : ptr) (time : Z) : K (option Z) :=
  s ← deref sems p;
  if sem_value s >? 0 then
    put_sem p (set_sem_value (u16 (sem_value s - 1)) s);;
    mret (Some RT_EOK)
  else if time =? 0 then mret (Some (- RT_ETIMEOUT))
  else
    RT_DEBUG_IN_THREAD_CONTEXT;;
    t ← current;
    upd_thread t (set_error RT_EOK);;
    rt_ipc_list_suspend (QSuspend p) t (sem_flag s);;
    when (time >? 0) (
      rt_timer_control (TimerOf t) RT_TIMER_CTRL_SET_TIME time;;
      rt_timer_start (TimerOf t);;
      mret tt);;
    rt_schedule;;
    mret None.

Definition rt_sem_take_resume (t : ptr) : K Z :=
  th ← deref threads t;
  if negb (error th =? RT_EOK) then mret (error th) else mret RT_EOK.

Definition rt_sem_trytake (p : ptr) : K (option Z) := rt_sem_take p 0.

Definition rt_sem_release (p : ptr) : K Z :=
  empty ← tlist_isempty (QSuspend p);
  need_schedule ←
    (if negb empty then
       rt_ipc_list_resume (QSuspend p);; mret true
     else
       s ← deref sems p;
       put_sem p (set_sem_value (u16 (sem_value s + 1)) s);;
       mret false);
  when need_schedule rt_schedule;;
  mret RT_EOK.

Definition rt_sem_control (p : ptr) (cmd arg : Z) : K Z :=
  if cmd =? RT_IPC_CMD_RESET then
    rt_ipc_list_resume_all (QSuspend p);;
    s ← deref sems p;
    put_sem p (set_sem_value (u16 arg) s);;
    rt_schedule;;
    mret RT_EOK
  else mret (- RT_ERROR).

(** ** Specification *)

Definition view (k : kernel) (p : ptr) : option (Z * list ptr) :=
  (fun s => (sem_value s, tl k (QSuspend p))) <$> sems k !! p.

(** What happens at the semaphore. *)
Inductive sem_event :=
  | Granted (t : ptr)      (** a taker got a token at once *)
  | Refused (t : ptr)      (** no token, and the taker did not want to wait *)
  | Queued (t : ptr)       (** the taker waits *)
  | Handed (t : ptr)       (** a released token went to a waiter *)
  | Stored                 (** a released token was stored *)
  | TimedOut (t : ptr).    (** a waiter gave up *)

Inductive sem_step : Z * list ptr -> sem_event -> Z * list ptr -> Prop :=
  | step_granted t v q : 0 < v -> sem_step (v, q) (Granted t) (v - 1, q)
  | step_refused t q : sem_step (0, q) (Refused t) (0, q)
  | step_queued t l1 l2 : sem_step (0, l1 ++ l2) (Queued t) (0, l1 ++ t :: l2)
  | step_handed t v l : sem_step (v, t :: l) (Handed t) (v, l)
  | step_stored v : v < 65535 -> sem_step (v, []) Stored (v + 1, [])
  | step_timed_out t v l1 l2 : sem_step (v, l1 ++ t :: l2) (TimedOut t) (v, l1 ++ l2).

(** The invariant: tokens are not stored while threads wait. *)
Definition sem_ok (v : Z * list ptr) : Prop :=
  0 <= v.1 < 65536 /\ (v.2 <> [] -> v.1 = 0).

Lemma sem_step_ok v e v' : sem_step v e v' -> sem_ok v -> sem_ok v'.
Proof.
  destruct 1; unfold sem_ok; simpl; intros [Hr Hq]; split; try lia; try done.
  - intros Hne. apply Hq in Hne. lia.
  - intros _. by apply Hq.
  - intros _. apply Hq. by destruct l1.
Qed.

Definition grants (e : sem_event) : Z :=
  match e with Granted _ | Handed _ => 1 | _ => 0 end.
Definition releases (e : sem_event) : Z :=
  match e with Handed _ | Stored => 1 | _ => 0 end.
Definition total (f : sem_event -> Z) (es : list sem_event) : Z := foldr (fun e n => f e + n) 0 es.

Lemma step_tokens v e v' : sem_step v e v' -> grants e + v'.1 = v.1 + releases e.
Proof. destruct 1; simpl; lia. Qed.

Definition sem_inv (k : kernel) (p : ptr) : Prop :=
  exists s, sems k !! p = Some s /\
    (sem_flag s = RT_IPC_FLAG_FIFO \/ sem_flag s = RT_IPC_FLAG_PRIO) /\
    sem_ok (sem_value s, tl k (QSuspend p)).

(** ** The calls implement the specification *)

Lemma sem_take_step k t th p time :
  caller k t th -> sem_inv k p -> time_ok time ->
  exists r k' e v v', rt_sem_take p time k = Some (r, k') /\
    kernel_ok Task k' /\ sem_inv k' p /\
    view k p = Some v /\ view k' p = Some v' /\ sem_step v e v' /\
    match e with
    | Granted t' => t' = t /\ r = Some RT_EOK /\ threads k' = threads k
    | Refused t' => t' = t /\ time = 0 /\ r = Some (- RT_ETIMEOUT) /\ k' = k
    | Queued t' => t' = t /\ time <> 0 /\ r = None /\
        exists flag, blocked_state
          (set_threads (<[t := set_error RT_EOK th]> (threads k)) k) t (set_error RT_EOK th)
          (QSuspend p) flag time k'
    | _ => False
    end.
Proof.
  intros C (s & Es & Hfl & Hr & Hq) Htime. simpl in Hr, Hq.
  assert (view k p = Some (sem_value s, tl k (QSuspend p))) as Ev.
  { unfold view. by rewrite Es. }
  assert (wp (rt_sem_take p time) (fun r k' => exists e v',
    kernel_ok Task k' /\ sem_inv k' p /\ view k' p = Some v' /\
    sem_step (sem_value s, tl k (QSuspend p)) e v' /\
    match e with
    | Granted t' => t' = t /\ r = Some RT_EOK /\ threads k' = threads k
    | Refused t' => t' = t /\ time = 0 /\ r = Some (- RT_ETIMEOUT) /\ k' = k
    | Queued t' => t' = t /\ time <> 0 /\ r = None /\
        exists flag, blocked_state
          (set_threads (<[t := set_error RT_EOK th]> (threads k)) k) t (set_error RT_EOK th)
          (QSuspend p) flag time k'
    | _ => False
    end) k) as H.
  { unfold rt_sem_take. apply wp_bind, (wp_deref _ _ s); [done|].
    destruct (Z.gtb_spec (sem_value s) 0) as [Hv|Hv].
    { apply wp_bind, wp_modify, wp_ret.
      rewrite (wrap_small 16) by (unfold in_u; lia).
      exists (Granted t), (sem_value s - 1, tl k (QSuspend p)).
      split; [apply C|]. split.
      { exists (set_sem_value (sem_value s - 1) s). simpl. rewrite lookup_insert_eq.
        split_and!; try done. simpl. split; [simpl; lia|]. intros ?%Hq. simpl. lia. }
      split; [unfold view; simpl; by rewrite lookup_insert_eq|].
      split; [by constructor; lia|done]. }
    assert (sem_value s = 0) as Ev0 by lia.
    destruct (Z.eqb_spec time 0) as [->|Ht0].
    { apply wp_ret. exists (Refused t), (sem_value s, tl k (QSuspend p)).
      split; [apply C|]. split; [by exists s|]. split; [done|].
      rewrite Ev0. split; [constructor|done]. }
    eapply wp_thread_context; [done|]. eapply wp_current; [done|].
    apply wp_bind, (wp_upd_thread _ _ th); [apply C|].
    set (k1 := set_threads _ k).
    assert (caller k1 t (set_error RT_EOK th)) as C1 by (by eapply caller_update).
    apply (wp_block k1 t (set_error RT_EOK th)); try done; [by eauto|].
    intros k' O' B. apply wp_ret.
    destruct (blocked_list _ _ _ _ _ _ _ B) as (l1 & l2 & El & El' & _).
    assert (sems k' !! p = Some s) as Es'.
    { by destruct B as (? & ? & ? & ? & ? & ? & ? & ? & _ & _ & -> & _). }
    exists (Queued t), (0, l1 ++ t :: l2). split; [done|]. split.
    { exists s. rewrite El', Ev0. split_and!; done. }
    split; [unfold view; rewrite Es'; simpl; by rewrite El', Ev0|].
    change (tl k1 (QSuspend p)) with (tl k (QSuspend p)) in El. rewrite El, Ev0.
    split; [constructor|]. eauto. }
  apply wp_exists in H as (r & k' & E & e & v' & ? & ? & ? & ? & ?).
  exists r, k', e, (sem_value s, tl k (QSuspend p)), v'. done.
Qed.

(** [rt_sem_take] implements the specification on every branch: with a token it takes
    it and returns RT_EOK; without one it returns -RT_ETIMEOUT unchanged when the caller
    does not wait, and otherwise queues the caller (at the end, or by priority) with
    its timer armed exactly when a time limit was given, and runs the next thread. *)
Theorem rt_sem_take_refines k t th p time :
  caller k t th -> sem_inv k p -> time_ok time ->
  exists r k' e v v', rt_sem_take p time k = Some (r, k') /\
    kernel_ok Task k' /\ sem_inv k' p /\
    view k p = Some v /\ view k' p = Some v' /\ sem_step v e v' /\
    match e with
    | Granted t' => t' = t /\ r = Some RT_EOK /\ threads k' = threads k
    | Refused t' => t' = t /\ time = 0 /\ r = Some (- RT_ETIMEOUT) /\ k' = k
    | Queued t' => t' = t /\ time <> 0 /\ r = None /\
        exists flag, blocked_state
          (set_threads (<[t := set_error RT_EOK th]> (threads k)) k) t (set_error RT_EOK th)
          (QSuspend p) flag time k'
    | _ => False
    end.
Proof. apply sem_take_step. Qed.

Lemma rt_sem_take_resume_eq k t th :
  threads k !! t = Some th -> rt_sem_take_resume t k = Some (error th, k).
Proof.
  intros Ht. unfold rt_sem_take_resume, deref, mbind, K_bind. rewrite Ht.
  destruct (Z.eqb_spec (error th) RT_EOK) as [->|]; done.
Qed.

Lemma sem_release_step m k p :
  kernel_ok m k -> sem_inv k p ->
  (forall s, sems k !! p = Some s -> sem_value s < 65535) ->
  exists k' e v v', rt_sem_release p k = Some (RT_EOK, k') /\
    kernel_ok m k' /\ sem_inv k' p /\
    view k p = Some v /\ view k' p = Some v' /\ sem_step v e v' /\
    match e with
    | Handed t => exists th, threads k !! t = Some th /\ stat th = RT_THREAD_SUSPEND /\
        threads k' = <[t := set_stat RT_THREAD_READY th]> (threads k) /\
        TimerOf t ∉ rt_timer_list k'
    | Stored => threads k' = threads k /\ tlists k' = tlists k
    | _ => False
    end.
Proof.
  intros O (s & Es & Hfl & Hr & Hq) Hmax. simpl in Hr, Hq. specialize (Hmax s Es).
  assert (view k p = Some (sem_value s, tl k (QSuspend p))) as Ev.
  { unfold view. by rewrite Es. }
  assert (wp (rt_sem_release p) (fun r k' => exists e v', r = RT_EOK /\
    kernel_ok m k' /\ sem_inv k' p /\ view k' p = Some v' /\
    sem_step (sem_value s, tl k (QSuspend p)) e v' /\
    match e with
    | Handed t => exists th, threads k !! t = Some th /\ stat th = RT_THREAD_SUSPEND /\
        threads k' = <[t := set_stat RT_THREAD_READY th]> (threads k) /\
        TimerOf t ∉ rt_timer_list k'
    | Stored => threads k' = threads k /\ tlists k' = tlists k
    | _ => False
    end) k) as H.
  { unfold rt_sem_release, tlist_isempty. apply wp_bind, wp_bind, wp_gets.
    destruct (tl k (QSuspend p)) as [|t l] eqn:El; apply wp_ret; cbn [negb].
    { apply wp_bind, wp_bind, (wp_deref _ _ s); [done|]. apply wp_bind, wp_modify, wp_ret.
      apply wp_bind, wp_ret, wp_ret. rewrite (wrap_small 16) by (unfold in_u; lia).
      exists Stored, (sem_value s + 1, []). split_and!; try done.
      - exists (set_sem_value (sem_value s + 1) s). simpl. rewrite lookup_insert_eq.
        split_and!; try done. unfold tl. simpl. unfold tl in El. rewrite El.
        split; [simpl; lia|done].
      - unfold view. simpl. rewrite lookup_insert_eq. unfold tl. simpl. unfold tl in El.
        by rewrite El.
      - by constructor. }
    destruct (waiting_thread m k (QSuspend p) t O) as (th & Ht & Hs); [by eauto|rewrite El; left|].
    apply wp_bind, wp_bind, (wp_ipc_list_resume m k (QSuspend p) t l th); eauto.
    intros g tl' ts O1 El1 _ _. apply wp_ret, wp_bind. simpl.
    apply (wp_schedule m); [done|]. intros pp c O2 _ _. apply wp_ret.
    exists (Handed t), (sem_value s, l). split_and!; try done.
    - exists s. simpl. split_and!; try done. simpl.
      change (sem_ok (sem_value s, tl (k_resm t th g tl' ts k) (QSuspend p))). rewrite El1.
      split; [simpl; lia|]. intros _. by apply Hq.
    - unfold view. simpl. rewrite Es. simpl.
      change (tl (k_switch pp c (k_resm t th g tl' ts k)) (QSuspend p))
        with (tl (k_resm t th g tl' ts k) (QSuspend p)). by rewrite El1.
    - constructor.
    - exists th. split_and!; try done. simpl. intros Hin.
      destruct (ko_timed _ _ _ _ _ _ _ _ O1 t Hin) as (th' & E' & Hs').
      simpl in E'. rewrite lookup_insert_eq in E'. by simplify_eq. }
  apply wp_exists in H as (r & k' & E & e & v' & -> & ? & ? & ? & ? & ?).
  exists k', e, (sem_value s, tl k (QSuspend p)), v'. done.
Qed.

(** [rt_sem_release], from a thread or an interrupt, hands the token to the first
    waiter, which becomes ready with its error code untouched, or stores it when nobody
    waits and the count is below its maximum; it always returns RT_EOK. *)
Theorem rt_sem_release_refines m k p :
  kernel_ok m k -> sem_inv k p ->
  (forall s, sems k !! p = Some s -> sem_value s < 65535) ->
  exists k' e v v', rt_sem_release p k = Some (RT_EOK, k') /\
    kernel_ok m k' /\ sem_inv k' p /\
    view k p = Some v /\ view k' p = Some v' /\ sem_step v e v' /\
    match e with
    | Handed t => exists th, threads k !! t = Some th /\ stat th = RT_THREAD_SUSPEND /\
        threads k' = <[t := set_stat RT_THREAD_READY th]> (threads k) /\
        TimerOf t ∉ rt_timer_list k'
    | Stored => threads k' = threads k /\ tlists k' = tlists k
    | _ => False
    end.
Proof. apply sem_release_step. Qed.

(** ** Executions

    What threads and interrupts see of a semaphore: the calls and their
    results.  Between the calls anything may happen that leaves the semaphore
    consistent and its count alone, such as waiters giving up. *)

Definition take_event (t : ptr) (r : option Z) : sem_event :=
  match r with
  | None => Queued t
  | Some e => if e =? RT_EOK then Granted t else Refused t
  end.

Definition release_event (w : option ptr) : sem_event :=
  match w with Some u => Handed u | None => Stored end.

Definition count (k : kernel) (p : ptr) : option Z := sem_value <$> sems k !! p.

Inductive sem_run (p : ptr) : kernel -> list sem_event -> kernel -> Prop :=
  | run_nil k : sem_run p k [] k
  | run_take k t th time r k1 es k2 :
      caller k t th -> time_ok time ->
      rt_sem_take p time k = Some (r, k1) -> sem_run p k1 es k2 ->
      sem_run p k (take_event t r :: es) k2
  | run_release m k r k1 es k2 :
      kernel_ok m k ->
      rt_sem_release p k = Some (r, k1) -> sem_run p k1 es k2 ->
      sem_run p k (release_event (waked (QSuspend p) k k1) :: es) k2
  | run_other k k1 es k2 :
      (sem_inv k p -> sem_inv k1 p) -> count k1 p = count k p -> sem_run p k1 es k2 ->
      sem_run p k es k2.

Lemma view_count k p v : view k p = Some v -> count k p = Some v.1.
Proof. unfold view, count. destruct (sems k !! p); simpl; intros H; by simplify_eq. Qed.

Lemma view_waiters k p v : view k p = Some v -> v.2 = tl k (QSuspend p).
Proof. unfold view. destruct (sems k !! p); simpl; intros H; by simplify_eq. Qed.

Lemma sem_release_event_step m k k1 p e v v' :
  kernel_ok m k -> view k p = Some v -> view k1 p = Some v' -> sem_step v e v' ->
  match e with Handed _ | Stored => True | _ => False end ->
  release_event (waked (QSuspend p) k k1) = e.
Proof.
  intros O V%view_waiters V'%view_waiters Hs He. unfold release_event.
  destruct Hs; try done; simpl in *.
  - by erewrite waked_first.
  - rewrite waked_none by congruence. done.
Qed.

(** A release at the maximum: the 16-bit count wraps. *)
Lemma release_at_max k p s :
  sems k !! p = Some s -> sem_value s = 65535 -> tl k (QSuspend p) = [] ->
  rt_sem_release p k = Some (RT_EOK, set_sems (<[p := set_sem_value 0 s]> (sems k)) k).
Proof.
  intros Es Ev El. unfold rt_sem_release, tlist_isempty, gets, mbind, K_bind, deref. rewrite El. simpl.
  rewrite Es. simpl. by rewrite Ev.
Qed.

Lemma total_pos f es : (forall e, 0 <= f e) -> 0 <= total f es.
Proof. intros H. induction es as [|e es IH]; simpl; [lia|]. specialize (H e). lia. Qed.

Lemma grants_pos e : 0 <= grants e.
Proof. by destruct e. Qed.

(** The balance of the tokens, with the number of times that the count has wrapped. *)
Lemma run_tokens p k es k' :
  sem_run p k es k' -> sem_inv k p ->
  sem_inv k' p /\ exists v v' w, count k p = Some v /\ count k' p = Some v' /\ 0 <= w /\
    total grants es + v' + 65536 * w = v + total releases es.
Proof.
  induction 1 as [k|k t th time r k1 es k2 C Htime E Hrun IH|
    m k r k1 es k2 O E Hrun IH|k k1 es k2 Hk Hc Hrun IH]; intros Hi.
  - split; [done|]. destruct Hi as (s & Es & _). exists (sem_value s), (sem_value s), 0.
    unfold count. rewrite Es. split_and!; [done|done|lia|simpl; lia].
  - destruct (sem_take_step k t th p time C Hi Htime)
      as (r' & k1' & e & v & v1 & E' & _ & Hi1 & V & V1 & Hst & He).
    rewrite E in E'. injection E' as <- <-. destruct (IH Hi1) as (? & w & v' & n & Ew & Ev' & Hn & Ht).
    split; [done|]. exists v.1, v', n. rewrite (view_count _ _ _ V1) in Ew. simplify_eq.
    split_and!; [by apply view_count|done|done|]. apply step_tokens in Hst.
    assert (take_event t r = e) as ->; [|simpl; lia].
    unfold take_event. destruct e; try done; destruct_and! He; by subst.
  - pose proof Hi as (s & Es & Hfl & [Hv Hq]). simpl in Hv, Hq.
    destruct (decide (sem_value s = 65535)) as [Ev|Hne].
    + assert (tl k (QSuspend p) = []) as El by (destruct (tl k (QSuspend p)); [done|]; specialize (Hq ltac:(done)); lia).
      rewrite (release_at_max k p s Es Ev El) in E. injection E as _ <-.
      destruct IH as (? & w & v' & n & Ew & Ev' & Hn & Ht).
      { exists (set_sem_value 0 s). split; [simpl; by rewrite lookup_insert_eq|]. split; [done|].
        split; [simpl; lia|done]. }
      split; [done|]. exists 65535, v', (n + 1). unfold count in Ew. simpl in Ew. rewrite lookup_insert_eq in Ew.
      injection Ew as <-. split_and!; [unfold count; rewrite Es; simpl; by rewrite Ev|done|lia|].
      rewrite waked_none by done. unfold release_event. simpl. lia.
    + destruct (sem_release_step m k p O Hi) as (k1' & e & v & v1 & E' & _ & Hi1 & V & V1 & Hst & He).
      { intros s' Es'. simplify_eq. lia. }
      rewrite E in E'. injection E' as _ <-. destruct (IH Hi1) as (? & w & v' & n & Ew & Ev' & Hn & Ht).
      split; [done|]. exists v.1, v', n. rewrite (view_count _ _ _ V1) in Ew. simplify_eq.
      split_and!; [by apply view_count|done|done|].
      rewrite (sem_release_event_step m k k1 p e v v1); try done; [|by destruct e].
      apply step_tokens in Hst. simpl. lia.
  - destruct (IH (Hk Hi)) as (? & v & v' & n & E1 & E2 & Hn & Ht). split; [done|].
    exists v, v', n. by rewrite <-Hc.
Qed.

(** C8. Tokens of a semaphore: after any sequence of calls of [rt_sem_take] by threads and
    [rt_sem_release] by threads or interrupts, with anything in between that leaves the
    count alone, the tokens granted (by a take that returned RT_EOK, or handed to a waiter
    by a release) plus those stored equal the initial count plus the number of releases,
    less 65536 for each release at the count 65535, where the 16-bit count wraps to zero;
    none is lost as long as the initial count plus the releases stay below 65536.  None is
    made up, and tokens are stored only while nobody waits. *)
Theorem sem_tokens p k es k' :
  sem_run p k es k' -> sem_inv k p ->
  sem_inv k' p /\ exists v v' w, count k p = Some v /\ count k' p = Some v' /\ 0 <= w /\
    total grants es + v' + 65536 * w = v + total releases es /\
    (v + total releases es < 65536 -> total grants es + v' = v + total releases es).
Proof.
  intros Hrun Hi. destruct (run_tokens p k es k' Hrun Hi) as (Hi' & v & v' & w & Ev & Ev' & Hw & Ht).
  split; [done|]. exists v, v', w. split_and!; try done. intros Hlt.
  destruct Hi' as (s & Es & _ & [Hv _]). unfold count in Ev'. rewrite Es in Ev'. injection Ev' as <-. simpl in Hv.
  pose proof (total_pos grants es grants_pos). assert (w = 0) as -> by lia. lia.
Qed.

(** Resetting a semaphore ([rt_sem_control] with RT_IPC_CMD_RESET) wakes every waiter
    with the error -RT_ERROR, leaves the list empty and stores the low 16 bits of the new
    value; any other command is refused and changes nothing. *)
Theorem rt_sem_control_ok m k p s cmd arg :
  kernel_ok m k -> sems k !! p = Some s ->
  exists r k', rt_sem_control p cmd arg k = Some (r, k') /\ kernel_ok m k' /\
    (cmd <> RT_IPC_CMD_RESET -> r = - RT_ERROR /\ k' = k) /\
    (cmd = RT_IPC_CMD_RESET -> r = RT_EOK /\ view k' p = Some (u16 arg, []) /\
       forall t, t ∈ tl k (QSuspend p) -> exists th, threads k' !! t = Some th /\
         stat th = RT_THREAD_READY /\ error th = - RT_ERROR).
Proof.
  intros O Es.
  assert (wp (rt_sem_control p cmd arg) (fun r k' => kernel_ok m k' /\
    (cmd <> RT_IPC_CMD_RESET -> r = - RT_ERROR /\ k' = k) /\
    (cmd = RT_IPC_CMD_RESET -> r = RT_EOK /\ view k' p = Some (u16 arg, []) /\
       forall t, t ∈ tl k (QSuspend p) -> exists th, threads k' !! t = Some th /\
         stat th = RT_THREAD_READY /\ error th = - RT_ERROR)) k) as H.
  { unfold rt_sem_control. destruct (Z.eqb_spec cmd RT_IPC_CMD_RESET) as [->|Hne];
      [|by apply wp_ret; split_and!].
    apply wp_bind, (wp_ipc_list_resume_all m); [done|by eauto|].
    intros k1 O1 (E1 & E2 & _ & _ & _ & _ & _ & _ & _ & Esem & _).
    apply wp_bind, (wp_deref _ _ s); [by rewrite Esem|].
    apply wp_bind, wp_modify, wp_bind, (wp_schedule m); [exact O1|].
    intros pp c O2 _ _. apply wp_ret. split; [done|]. split; [done|]. intros _.
    split; [done|]. split; [|exact E2]. unfold view. simpl. rewrite lookup_insert_eq. simpl.
    do 2 f_equal. exact E1. }
  apply wp_exists in H as (r & k' & ? & ?). eauto.
Qed.

(** ** Examples *)

(** A semaphore at 24576 with one token, and the same after thread 4096 took
    the token and then waits for another one. *)
Definition demo_sem : kernel :=
  after (rt_sem_create (Some 24576) [115; 0] 1 RT_IPC_FLAG_PRIO) demo.
Definition demo_sem_wait : kernel :=
  after (rt_sem_take 24576 0;; rt_sem_take 24576 100) demo_sem.

Ltac ev_sem_inv :=
  eexists; split; [ev|]; split; [vm_compute; by auto|]; split;
    [vm_compute; by split|let H := fresh in intros H; vm_compute in H; vm_compute; congruence].

Lemma sem_tokens_witness :
  exists k', sem_run 24576 demo_sem [Granted 4096; Queued 4096; Handed 4096] k' /\
    sem_inv k' 24576 /\ count k' 24576 = Some 0.
Proof.
  set (k1 := after (rt_sem_take 24576 0) demo_sem).
  set (k3 := after (rt_sem_release 24576) demo_sem_wait).
  assert (sem_run 24576 demo_sem [Granted 4096; Queued 4096; Handed 4096] k3) as R.
  { apply (run_take 24576 demo_sem 4096 (th_at demo_sem 4096) 0 (Some RT_EOK) k1
      [Queued 4096; Handed 4096]); [ev_caller|ev|ev|].
    apply (run_take 24576 k1 4096 (th_at k1 4096) 100 None demo_sem_wait [Handed 4096]);
      [ev_caller|ev|ev|].
    assert (Handed 4096 = release_event (waked (QSuspend 24576) demo_sem_wait k3)) as -> by ev.
    apply (run_release 24576 Task demo_sem_wait RT_EOK k3);
      [apply kok_check_sound; ev|ev|apply run_nil]. }
  destruct (sem_tokens 24576 demo_sem _ k3 R ltac:(ev_sem_inv)) as (Hi & v & v' & w & E & E' & _ & _ & Ht).
  exists k3. split; [exact R|]. split; [exact Hi|].
  rewrite E'. vm_compute in E. injection E as <-. f_equal. simpl in Ht. specialize (Ht ltac:(lia)). lia.
Defined.

Lemma rt_sem_take_refines_witness :
  exists k', rt_sem_take 24576 0 demo_sem = Some (Some RT_EOK, k') /\ view k' 24576 = Some (0, []).
Proof.
  destruct (rt_sem_take_refines demo_sem 4096 (demo_th 4096) 24576 0
    ltac:(ev_caller) ltac:(ev_sem_inv) ltac:(ev)) as (r & k' & e & v & v' & E & _ & _ & V & V' & St & M).
  exists k'. vm_compute in V. injection V as <-. inversion St; subst; try (exfalso; exact M).
  destruct M as (_ & -> & _). split; [exact E|exact V'].
Defined.

Lemma rt_sem_release_refines_witness :
  exists k', rt_sem_release 24576 demo_sem_wait = Some (RT_EOK, k') /\
    view k' 24576 = Some (0, []).
Proof.
  destruct (rt_sem_release_refines Task demo_sem_wait 24576
    ltac:(apply kok_check_sound; ev) ltac:(ev_sem_inv)
    ltac:(intros s H; vm_compute in H; injection H as <-; vm_compute; reflexivity))
    as (k' & e & v & v' & E & _ & _ & V & V' & St & M).
  exists k'. vm_compute in V. injection V as <-. inversion St; subst; try (exfalso; exact M).
  split; [exact E|exact V'].
Defined.

Lemma rt_sem_control_ok_witness :
  exists k', rt_sem_control 24576 RT_IPC_CMD_RESET 3 demo_sem_wait = Some (RT_EOK, k') /\
    view k' 24576 = Some (3, []).
Proof.
  destruct (rt_sem_control_ok Task demo_sem_wait 24576 (Semaphore 1 0) RT_IPC_CMD_RESET 3
    ltac:(apply kok_check_sound; ev) ltac:(ev)) as (r & k' & E & _ & _ & H).
  destruct (H eq_refl) as (-> & V & _). exists k'. split; [exact E|exact V].
Defined.

(** The count is 16 bits wide and [rt_sem_release] does not check it: releasing a
    semaphore whose count is 65535 makes it zero, and all its tokens are gone. *)
Theorem rt_sem_release_wraps k p flag :
  sems k !! p = Some (Semaphore flag 65535) -> tl k (QSuspend p) = [] ->
  exists k', rt_sem_release p k = Some (RT_EOK, k') /\ view k' p = Some (0, []).
Proof.
  intros Es El. eexists. split.
  - unfold rt_sem_release, tlist_isempty, gets, mbind, K_bind, deref. rewrite El. simpl.
    rewrite Es. simpl. reflexivity.
  - unfold view. simpl. rewrite lookup_insert_eq. simpl. do 2 f_equal. exact El.
Qed.

Lemma rt_sem_release_wraps_witness :
  let k := after (rt_sem_create (Some 24576) [115; 0] 65535 RT_IPC_FLAG_FIFO) demo in
  exists k', rt_sem_release 24576 k = Some (RT_EOK, k') /\ view k' 24576 = Some (0, []).
Proof. intros k. apply (rt_sem_release_wraps k 24576 0); ev. Defined.

End Sem.
