(* ===== verification/Mutex.v ===== *)
(** * Mutexes: src/ipc.c

    A mutex has an owner, the number of times the owner holds it, the priority
    that the owner had when it took it, and a list of waiting threads; a
    waiting thread lends its priority to the owner. *)

From S2P Require Import Prelude Kernel Scheduler Object Timer Thread KernelOk ThreadSpec Ipc.
From S2P Require Import Priority.

Module Mtx.

(** ** Operations *)

Definition rt_mutex_init (p : ptr) (name : list Z) (flag : Z) : K Z :=
  rt_object_init (Obj p) RT_Object_Class_Mutex name;;
  rt_ipc_object_init p;;
  put_mutex p (Mutex flag 1 0xff 0 None);;
  mret RT_EOK.

Definition rt_mutex_detach (p : ptr) : K Z :=
  rt_ipc_list_resume_all (QSuspend p);;
  rt_object_detach (Obj p);;
  mret RT_EOK.

Definition rt_mutex_create (mem : option ptr) (name : list Z) (flag : Z) : K (option ptr) :=
  RT_DEBUG_NOT_IN_INTERRUPT;;
  mutex ← rt_object_allocate mem RT_Object_Class_Mutex name;
  match mutex with
  | None => mret None
  | Some p =>
      rt_ipc_object_init p;;
      put_mutex p (Mutex flag 1 0xff 0 None);;
      mret (Some p)
  end.

Definition rt_mutex_delete (p : ptr) : K Z :=
  RT_DEBUG_NOT_IN_INTERRUPT;;
  rt_ipc_list_resume_all (QSuspend p);;
  rt_object_delete (Obj p);;
  mret RT_EOK.

(** [None]: the caller waits; it goes on with [rt_mutex_take_resume]. *)
Definition rt_mutex_take (p : ptr) (time : Z) : K (option Z) :=
  RT_DEBUG_IN_THREAD_CONTEXT;;
  t ← current;
  upd_thread t (set_error RT_EOK);;
  m ← deref mutexes p;
  if bool_decide (owner m = Some t) then
    put_mutex p (set_hold (u8 (hold m + 1)) m);;
    mret (Some RT_EOK)
  else if mutex_value m >? 0 then
    th ← deref threads t;
    put_mutex p (set_hold (u8 (hold m + 1))
      (set_original_priority (current_priority th)
        (set_owner (Some t) (set_mutex_value (u16 (mutex_value m - 1)) m))));;
    mret (Some RT_EOK)
  else if time =? 0 then
    upd_thread t (set_error (- RT_ETIMEOUT));;
    mret (Some (- RT_ETIMEOUT))
  else
    th ← deref threads t;
    o ← lift (owner m);
    oh ← deref threads o;
    when (current_priority th <? current_priority oh) (
      rt_thread_control o RT_THREAD_CTRL_CHANGE_PRIORITY (current_priority th);;
      mret tt);;
    rt_ipc_list_suspend (QSuspend p) t (mutex_flag m);;
    when (time >? 0) (
      rt_timer_control (TimerOf t) RT_TIMER_CTRL_SET_TIME time;;
      rt_timer_start (TimerOf t);;
      mret tt);;
    rt_schedule;;
    mret None.

Definition rt_mutex_take_resume (t : ptr) : K Z :=
  th ← deref threads t;
  if negb (error th =? RT_EOK) then mret (error th) else mret RT_EOK.

Definition rt_mutex_release (p : ptr) : K Z :=
  RT_DEBUG_IN_THREAD_CONTEXT;;
  t ← current;
  m ← deref mutexes p;
  if bool_decide (owner m <> Some t) then
    upd_thread t (set_error (- RT_ERROR));;
    mret (- RT_ERROR)
  else
    let m := set_hold (u8 (hold m - 1)) m in
    put_mutex p m;;
    need_schedule ←
      (if hold m =? 0 then
         oh ← deref threads t;
         when (negb (original_priority m =? current_priority oh)) (
           rt_thread_control t RT_THREAD_CTRL_CHANGE_PRIORITY (original_priority m);;
           mret tt);;
         empty ← tlist_isempty (QSuspend p);
         if negb empty then
           u ← tlist_first (QSuspend p);
           uh ← deref threads u;
           put_mutex p (set_hold (u8 (hold m + 1))
             (set_original_priority (current_priority uh) (set_owner (Some u) m)));;
           rt_ipc_list_resume (QSuspend p);;
           mret true
         else
           put_mutex p (set_original_priority 0xff
             (set_owner None (set_mutex_value (u16 (mutex_value m + 1)) m)));;
           mret false
       else mret false);
    when need_schedule rt_schedule;;
    mret RT_EOK.

Definition rt_mutex_control (p : ptr) (cmd arg : Z) : K Z := mret (- RT_ERROR).

(** ** Specification *)

(** The owner with its number of holds, and the waiters. *)
Abbreviation mstate := (option (ptr * Z) * list ptr)%type.

Inductive mutex_event :=
  | Acquired (t : ptr)
  | Released (t : ptr)
  | HandedOver (t u : ptr)
  | Refused (t : ptr)
  | Queued (t : ptr)
  | TimedOut (t : ptr).

Inductive mutex_step : mstate -> mutex_event -> mstate -> Prop :=
  | step_acquire t : mutex_step (None, []) (Acquired t) (Some (t, 1), [])
  | step_again t n q : n < 255 -> mutex_step (Some (t, n), q) (Acquired t) (Some (t, n + 1), q)
  | step_refused t o n q : t <> o -> mutex_step (Some (o, n), q) (Refused t) (Some (o, n), q)
  | step_queued t o n l1 l2 : t <> o ->
      mutex_step (Some (o, n), l1 ++ l2) (Queued t) (Some (o, n), l1 ++ t :: l2)
  | step_release t n q : 1 < n -> mutex_step (Some (t, n), q) (Released t) (Some (t, n - 1), q)
  | step_free t : mutex_step (Some (t, 1), []) (Released t) (None, [])
  | step_handover t u l : mutex_step (Some (t, 1), u :: l) (HandedOver t u) (Some (u, 1), l)
  | step_timed_out t o n l1 l2 :
      mutex_step (Some (o, n), l1 ++ t :: l2) (TimedOut t) (Some (o, n), l1 ++ l2).

(** How often [t] holds the mutex after the events, counted from the calls. *)
Definition depth1 (t : ptr) (e : mutex_event) : Z :=
  match e with
  | Acquired u => if decide (u = t) then 1 else 0
  | Released u => if decide (u = t) then -1 else 0
  | HandedOver u v =>
      (if decide (u = t) then -1 else 0) + (if decide (v = t) then 1 else 0)
  | _ => 0
  end.
Definition depth (t : ptr) (es : list mutex_event) : Z := foldr (fun e n => depth1 t e + n) 0 es.

Definition held (s : mstate) (t : ptr) : Z :=
  match s.1 with Some (o, n) => if decide (o = t) then n else 0 | None => 0 end.

Lemma step_held s e s' t : mutex_step s e s' -> held s' t = held s t + depth1 t e.
Proof. destruct 1; unfold held, depth1; simpl; repeat case_decide; subst; try done; lia. Qed.

(** ** Invariant *)

Definition view (k : kernel) (p : ptr) (m : rt_mutex) : mstate :=
  ((fun o => (o, hold m)) <$> owner m, tl k (QSuspend p)).

Definition mutex_inv (k : kernel) (p : ptr) (m : rt_mutex) : Prop :=
  mutexes k !! p = Some m /\
  (mutex_flag m = RT_IPC_FLAG_FIFO \/ mutex_flag m = RT_IPC_FLAG_PRIO) /\
  match owner m with
  | None => mutex_value m = 1 /\ hold m = 0 /\ tl k (QSuspend p) = []
  | Some o => mutex_value m = 0 /\ 1 <= hold m <= 255 /\ is_Some (threads k !! o) /\
      0 <= original_priority m < RT_THREAD_PRIORITY_MAX
  end.

(** ** The calls implement the specification *)

Lemma boost_caller k t th o oh prio g ls :
  caller k t th -> threads k !! o = Some oh -> o <> t ->
  kernel_ok Task (k_prio o oh prio g ls k) -> caller (k_prio o oh prio g ls k) t th.
Proof.
  intros [O Hc Ht Hs Hid Hn Hl] Ho Hne O'. split; try done.
  simpl. by rewrite lookup_insert_ne.
Qed.

(** The waiting branch: the owner inherits the priority of the caller. *)
Lemma wp_mutex_wait k t th p m o time (Q : option Z -> kernel -> Prop) :
  caller k t th -> mutex_inv k p m -> owner m = Some o -> o <> t -> time_ok time ->
  (forall k' l1 l2 oh, kernel_ok Task k' -> mutexes k' = mutexes k ->
     tl k (QSuspend p) = l1 ++ l2 -> tl k' (QSuspend p) = l1 ++ t :: l2 ->
     threads k' !! o = Some oh -> current_priority oh <= current_priority th ->
     threads k' !! t = Some (set_stat RT_THREAD_SUSPEND th) -> Q None k') ->
  wp (th ← deref threads t;
      o ← lift (owner m);
      oh ← deref threads o;
      when (current_priority th <? current_priority oh) (
        rt_thread_control o RT_THREAD_CTRL_CHANGE_PRIORITY (current_priority th);;
        mret tt);;
      rt_ipc_list_suspend (QSuspend p) t (mutex_flag m);;
      when (time >? 0) (
        rt_timer_control (TimerOf t) RT_TIMER_CTRL_SET_TIME time;;
        rt_timer_start (TimerOf t);;
        mret tt);;
      rt_schedule;;
      mret None) Q k.
Proof.
  intros C (Em & Hfl & Ho) Eo Hne Htime HQ. rewrite Eo in Ho.
  destruct Ho as (_ & _ & [oh Hoh] & _). pose proof (ca_ok _ _ _ C) as O.
  apply wp_bind, (wp_deref _ _ th); [apply C|]. apply wp_bind, (wp_lift _ o); [done|].
  apply wp_bind, (wp_deref _ _ oh); [done|].
  assert (forall k2 oh2, caller k2 t th -> mutexes k2 = mutexes k ->
    tl k2 (QSuspend p) = tl k (QSuspend p) ->
    threads k2 !! o = Some oh2 -> current_priority oh2 <= current_priority th ->
    wp (rt_ipc_list_suspend (QSuspend p) t (mutex_flag m);;
        when (time >? 0) (
          rt_timer_control (TimerOf t) RT_TIMER_CTRL_SET_TIME time;;
          rt_timer_start (TimerOf t);;
          mret tt);;
        rt_schedule;;
        mret None) Q k2) as Hgo.
  { intros k2 oh2 C2 Em2 El2 Hoh2 Hle.
    apply (wp_block k2 t th); try done; [by eauto|]. intros k' O' B. apply wp_ret.
    destruct (blocked_thread _ _ _ _ _ _ _ B) as [Ht' Hx'].
    destruct (blocked_list _ _ _ _ _ _ _ B) as (l1 & l2 & El & El' & _).
    apply (HQ k' l1 l2 oh2); try done.
    - destruct B as (? & ? & ? & ? & ? & ? & ? & ? & _ & _ & -> & _). done.
    - congruence.
    - by rewrite Hx'. }
  apply wp_bind. unfold when at 1. destruct (Z.ltb_spec (current_priority th) (current_priority oh)).
  - apply wp_bind, (wp_change_priority Task k o oh); try done.
    { exact (so_prio _ _ _ (ko_sched _ _ _ _ _ _ _ _ O) t th (ca_thread _ _ _ C)). }
    intros g ls O2 Hls _ _. apply wp_ret. eapply Hgo; [by eapply boost_caller|done| | |].
    + apply Hls. eauto.
    + simpl. by rewrite lookup_insert_eq.
    + simpl. lia.
  - apply wp_ret. by eapply Hgo.
Qed.

Lemma mutex_take_step k t th p m time :
  caller k t th -> mutex_inv k p m -> time_ok time ->
  (owner m = Some t -> hold m < 255) ->
  exists r k' m' e, rt_mutex_take p time k = Some (r, k') /\
    kernel_ok Task k' /\ mutex_inv k' p m' /\
    mutex_step (view k p m) e (view k' p m') /\
    match e with
    | Acquired u => u = t /\ r = Some RT_EOK /\
        (owner m = None -> original_priority m' = current_priority th)
    | Refused u => u = t /\ time = 0 /\ r = Some (- RT_ETIMEOUT)
    | Queued u => u = t /\ time <> 0 /\ r = None /\
        (exists o oh, owner m = Some o /\ threads k' !! o = Some oh /\
           current_priority oh <= current_priority th) /\
        (exists th', threads k' !! t = Some th' /\ stat th' = RT_THREAD_SUSPEND)
    | _ => False
    end.
Proof.
  intros C Hm Htime Hhold. pose proof Hm as (Em & Hfl & Hown).
  set (th1 := set_error RT_EOK th). set (k1 := set_threads (<[t := th1]> (threads k)) k).
  assert (caller k1 t th1) as C1 by (by eapply caller_update).
  pose proof (ca_ok _ _ _ C1) as O1.
  assert (forall o, is_Some (threads k !! o) -> is_Some (threads k1 !! o)) as Hso.
  { intros o Ho. simpl. destruct (decide (o = t)) as [->|];
      [by rewrite lookup_insert_eq|by rewrite lookup_insert_ne]. }
  set (post := fun (r : option Z) (k' : kernel) => exists m' e,
    kernel_ok Task k' /\ mutex_inv k' p m' /\ mutex_step (view k p m) e (view k' p m') /\
    match e with
    | Acquired u => u = t /\ r = Some RT_EOK /\
        (owner m = None -> original_priority m' = current_priority th)
    | Refused u => u = t /\ time = 0 /\ r = Some (- RT_ETIMEOUT)
    | Queued u => u = t /\ time <> 0 /\ r = None /\
        (exists o oh, owner m = Some o /\ threads k' !! o = Some oh /\
           current_priority oh <= current_priority th) /\
        (exists th', threads k' !! t = Some th' /\ stat th' = RT_THREAD_SUSPEND)
    | _ => False
    end).
  assert (wp (rt_mutex_take p time) post k) as H.
  { unfold rt_mutex_take. eapply wp_thread_context; [done|]. eapply wp_current; [done|].
    apply wp_bind, (wp_upd_thread _ _ th); [apply C|]. fold th1. fold k1.
    apply wp_bind, (wp_deref _ _ m); [done|]. case_bool_decide as Eo.
    { apply wp_bind, wp_modify, wp_ret. specialize (Hhold Eo). rewrite Eo in Hown.
      destruct Hown as (Hv & Hh & Hso' & Hop).
      exists (set_hold (u8 (hold m + 1)) m), (Acquired t).
      rewrite (wrap_small 8) by (unfold in_u; lia).
      split; [exact O1|]. split; [|split].
      - split; [simpl; by rewrite lookup_insert_eq|]. split; [done|]. simpl. rewrite Eo.
        split_and!; [done|lia|lia|by apply Hso|lia..].
      - unfold view. simpl. rewrite Eo. simpl. by constructor.
      - rewrite Eo. done. }
    destruct (owner m) as [o|] eqn:Eown.
    2:{ destruct Hown as (Hv & Hh & Hl). rewrite Hv. cbn [Z.gtb Z.compare].
        apply wp_bind, (wp_deref _ _ th1); [apply C1|]. apply wp_bind, wp_modify, wp_ret.
        eexists _, (Acquired t). split; [exact O1|]. split; [|split].
        - split; [simpl; by rewrite lookup_insert_eq|]. split; [done|]. simpl. rewrite Hh.
          pose proof (so_prio _ _ _ (ko_sched _ _ _ _ _ _ _ _ (ca_ok _ _ _ C)) t th
            (ca_thread _ _ _ C)).
          split_and!; try done; try lia. rewrite lookup_insert_eq. by eexists.
        - unfold view. simpl. rewrite Eown, Hh. simpl. unfold tl in *. simpl. rewrite Hl. constructor.
        - done. }
    destruct Hown as (Hv & Hh & Hso' & Hop). rewrite Hv. cbn [Z.gtb Z.compare].
    assert (o <> t) as Hne by congruence.
    destruct (Z.eqb_spec time 0) as [->|Ht0].
    { apply wp_bind, (wp_upd_thread _ _ th1); [apply C1|]. apply wp_ret.
      exists m, (Refused t). split; [|split; [|split]].
      - by apply (ca_ok _ _ _ (caller_update k1 t th1 (set_error (- RT_ETIMEOUT) th1) C1
          eq_refl eq_refl eq_refl eq_refl eq_refl eq_refl)).
      - split; [done|]. split; [done|]. rewrite Eown. split_and!; try lia. simpl.
        rewrite insert_insert_eq, lookup_insert_ne by done. done.
      - unfold view. rewrite Eown. simpl. by constructor.
      - done. }
    rewrite <-Eown. apply (wp_mutex_wait k1 t th1 p m o); try done.
    { split; [done|]. split; [done|]. rewrite Eown. split_and!; try lia. by apply Hso. }
    intros k' l1 l2 oh O' Em' El El' Hoh Hle Ht'.
    exists m, (Queued t). split; [done|]. split; [|split].
    - split; [by rewrite Em'|]. split; [done|]. rewrite Eown. split_and!; try lia. by eexists.
    - unfold view. rewrite El', Eown. change (tl k1 (QSuspend p)) with (tl k (QSuspend p)) in El.
      rewrite El. simpl. by constructor.
    - split_and!; try done; [by exists o, oh|by eexists]. }
  apply wp_exists in H as (r & k' & E & m' & e & ? & ? & ? & ?). exists r, k', m', e. done.
Qed.

(** C6. [rt_mutex_take] implements the specification: a free mutex is acquired and the
    caller's priority recorded; the owner acquires it again; a caller that does not wait
    is refused with -RT_ETIMEOUT; otherwise the caller is queued and afterwards the
    owner's priority is at least the caller's (priority inheritance). *)
Theorem rt_mutex_take_refines k t th p m time :
  caller k t th -> mutex_inv k p m -> time_ok time ->
  (owner m = Some t -> hold m < 255) ->
  exists r k' m' e, rt_mutex_take p time k = Some (r, k') /\
    kernel_ok Task k' /\ mutex_inv k' p m' /\
    mutex_step (view k p m) e (view k' p m') /\
    match e with
    | Acquired u => u = t /\ r = Some RT_EOK /\
        (owner m = None -> original_priority m' = current_priority th)
    | Refused u => u = t /\ time = 0 /\ r = Some (- RT_ETIMEOUT)
    | Queued u => u = t /\ time <> 0 /\ r = None /\
        (exists o oh, owner m = Some o /\ threads k' !! o = Some oh /\
           current_priority oh <= current_priority th) /\
        (exists th', threads k' !! t = Some th' /\ stat th' = RT_THREAD_SUSPEND)
    | _ => False
    end.
Proof. apply mutex_take_step. Qed.

(** The end of the last hold, in the state [k] with the owner's priority
    restored and the hold count of [m] at zero. *)
Definition release_rest (p : ptr) (m : rt_mutex) : K bool :=
  empty ← tlist_isempty (QSuspend p);
  if negb empty then
    u ← tlist_first (QSuspend p);
    uh ← deref threads u;
    put_mutex p (set_hold (u8 (hold m + 1))
      (set_original_priority (current_priority uh) (set_owner (Some u) m)));;
    rt_ipc_list_resume (QSuspend p);;
    mret true
  else
    put_mutex p (set_original_priority 0xff
      (set_owner None (set_mutex_value (u16 (mutex_value m + 1)) m)));;
    mret false.

Lemma wp_release_rest k p m t th (Q : bool -> kernel -> Prop) :
  kernel_ok Task k -> threads k !! t = Some th -> stat th = RT_THREAD_READY ->
  (mutex_flag m = RT_IPC_FLAG_FIFO \/ mutex_flag m = RT_IPC_FLAG_PRIO) ->
  hold m = 0 -> mutex_value m = 0 ->
  (forall b k' m' e, kernel_ok Task k' -> mutex_inv k' p m' ->
     mutex_step (Some (t, 1), tl k (QSuspend p)) e (view k' p m') ->
     threads k' !! t = Some th ->
     match e with
     | Released u => u = t
     | HandedOver u v => u = t /\
         exists vh, threads k' !! v = Some vh /\ stat vh = RT_THREAD_READY
     | _ => False
     end -> Q b k') ->
  wp (release_rest p m) Q k.
Proof.
  intros O Ht Hs Hfl Hh Hv HQ. unfold release_rest, tlist_isempty.
  apply wp_bind, wp_bind, wp_gets.
  destruct (tl k (QSuspend p)) as [|u l] eqn:El; apply wp_ret; cbn [negb].
  - apply wp_bind, wp_modify, wp_ret. rewrite Hv.
    eapply (HQ _ _ _ (Released t)); try done.
    + split; [simpl; by rewrite lookup_insert_eq|]. split; [done|]. simpl.
      split_and!; try done.
    + unfold view, tl. simpl. unfold tl in El. rewrite El. constructor.
  - unfold tlist_first. apply wp_bind, wp_bind, wp_gets. rewrite El. apply wp_ret.
    destruct (waiting_thread Task k (QSuspend p) u O) as (uh & Hu & Hus); [by eauto|rewrite El; left|].
    apply wp_bind, (wp_deref _ _ uh); [done|]. apply wp_bind, wp_modify. rewrite Hh.
    change (u8 (0 + 1)) with 1.
    set (m1 := set_hold 1 _). set (k1 := set_mutexes _ k).
    apply wp_bind, (wp_ipc_list_resume Task k1 (QSuspend p) u l uh); [exact O|by eauto|done..|].
    intros g tl' ts O2 El2 _ _. apply wp_ret.
    eapply (HQ _ _ m1 (HandedOver t u)); [done| | | |].
    + split; [simpl; by rewrite lookup_insert_eq|]. split; [done|].
      split_and!; try done; simpl.
      * rewrite lookup_insert_eq. by eexists.
      * by apply (so_prio _ _ _ (ko_sched _ _ _ _ _ _ _ _ O) u uh).
      * by apply (so_prio _ _ _ (ko_sched _ _ _ _ _ _ _ _ O) u uh).
    + unfold view. rewrite El2. constructor.
    + simpl. rewrite lookup_insert_ne; [done|]. intros ->. congruence.
    + split; [done|]. simpl. rewrite lookup_insert_eq. by eexists.
Qed.

Lemma mutex_release_step k t th p m :
  caller k t th -> mutex_inv k p m ->
  exists r k', rt_mutex_release p k = Some (r, k') /\ kernel_ok Task k' /\
    (owner m <> Some t -> r = - RT_ERROR /\ mutexes k' = mutexes k /\ tlists k' = tlists k /\
       threads k' = <[t := set_error (- RT_ERROR) th]> (threads k)) /\
    (owner m = Some t -> r = RT_EOK /\ exists m' e, mutex_inv k' p m' /\
       mutex_step (view k p m) e (view k' p m') /\
       (hold m = 1 -> exists th', threads k' !! t = Some th' /\
          current_priority th' = original_priority m) /\
       match e with
       | Released u => u = t
       | HandedOver u v => u = t /\
           exists vh, threads k' !! v = Some vh /\ stat vh = RT_THREAD_READY
       | _ => False
       end).
Proof.
  intros C Hm. pose proof Hm as (Em & Hfl & Hown). pose proof (ca_ok _ _ _ C) as O.
  set (post := fun (r : Z) (k' : kernel) => kernel_ok Task k' /\
    (owner m <> Some t -> r = - RT_ERROR /\ mutexes k' = mutexes k /\ tlists k' = tlists k /\
       threads k' = <[t := set_error (- RT_ERROR) th]> (threads k)) /\
    (owner m = Some t -> r = RT_EOK /\ exists m' e, mutex_inv k' p m' /\
       mutex_step (view k p m) e (view k' p m') /\
       (hold m = 1 -> exists th', threads k' !! t = Some th' /\
          current_priority th' = original_priority m) /\
       match e with
       | Released u => u = t
       | HandedOver u v => u = t /\
           exists vh, threads k' !! v = Some vh /\ stat vh = RT_THREAD_READY
       | _ => False
       end)).
  assert (wp (rt_mutex_release p) post k) as H.
  { unfold rt_mutex_release. eapply wp_thread_context; [done|]. eapply wp_current; [done|].
    apply wp_bind, (wp_deref _ _ m); [done|]. case_bool_decide as Eo.
    { apply wp_bind, (wp_upd_thread _ _ th); [apply C|]. apply wp_ret.
      split; [|split; [done|congruence]].
      exact (ca_ok _ _ _ (caller_update k t th (set_error (- RT_ERROR) th) C
        eq_refl eq_refl eq_refl eq_refl eq_refl eq_refl)). }
    rewrite Eo in Hown. destruct Hown as (Hv & Hh & Hso & Hop).
    rewrite (wrap_small 8) by (unfold in_u; lia).
    set (m1 := set_hold (hold m - 1) m). apply wp_bind, wp_modify.
    set (k1 := set_mutexes _ k). apply wp_bind.
    assert (view k p m = (Some (t, hold m), tl k (QSuspend p))) as Ev.
    { unfold view. by rewrite Eo. }
    destruct (Z.eqb_spec (hold m1) 0) as [E0|E0].
    2:{ apply wp_ret, wp_bind, wp_ret, wp_ret. split; [exact O|]. split; [congruence|].
        intros _. split; [done|]. exists m1, (Released t). simpl in E0. split; [|split; [|split]].
        - split; [simpl; by rewrite lookup_insert_eq|]. split; [done|]. simpl. rewrite Eo.
          split_and!; try lia; done.
        - rewrite Ev. unfold view. simpl. rewrite Eo. simpl. constructor. lia.
        - lia.
        - done. }
    simpl in E0. assert (hold m = 1) as Eh by lia.
    apply wp_bind, (wp_deref _ _ th); [apply C|]. apply wp_bind.
    assert (forall k2 th2, kernel_ok Task k2 -> tl k2 (QSuspend p) = tl k (QSuspend p) ->
      threads k2 !! t = Some th2 -> stat th2 = RT_THREAD_READY ->
      current_priority th2 = original_priority m ->
      wp (release_rest p m1) (fun b k' => wp (when b rt_schedule;; mret RT_EOK) post k') k2) as Hgo.
    { intros k2 th2 O2 El2 Ht2 Hs2 Ep2. apply (wp_release_rest k2 p m1 t th2); try done.
      rewrite El2. intros b k3 m3 e O3 I3 St Ht3 He.
      assert (forall k4, kernel_ok Task k4 -> mutex_inv k4 p m3 -> view k4 p m3 = view k3 p m3 ->
        threads k4 = threads k3 -> post RT_EOK k4) as Hpost.
      { intros k4 O4 I4 V4 T4. split; [done|]. split; [congruence|]. intros _. split; [done|].
        exists m3, e. rewrite Ev, Eh, V4, T4. split_and!; try done. intros _. by exists th2. }
      apply wp_bind. unfold when. destruct b.
      - apply (wp_schedule Task); [done|]. intros pp c O4 _ _. apply wp_ret. by apply Hpost.
      - apply wp_ret, wp_ret. by apply Hpost. }
    unfold when at 1. destruct (Z.eqb_spec (original_priority m1) (current_priority th)) as [Ep|Ep];
      cbn [negb].
    - apply wp_ret. by apply (Hgo k1 th); [..|apply C|apply C|].
    - apply wp_bind, (wp_change_priority Task k1 t th); [exact O|apply C|done|].
      intros g ls O2 Hls _ _. apply wp_ret.
      eapply (Hgo _ (with_priority (original_priority m1) th)); [done| | |apply C|done].
      + apply Hls. eauto.
      + simpl. by rewrite lookup_insert_eq. }
  apply wp_exists in H as (r & k' & E & ?). exists r, k'. done.
Qed.

(** C7. [rt_mutex_release] implements the specification: a thread that is not the owner
    gets -RT_ERROR and the mutex is untouched; an inner release only decrements the
    hold count; the last one restores the priority recorded when the mutex was taken and
    hands the mutex to the first waiter, which becomes ready, or frees it. *)
Theorem rt_mutex_release_refines k t th p m :
  caller k t th -> mutex_inv k p m ->
  exists r k', rt_mutex_release p k = Some (r, k') /\ kernel_ok Task k' /\
    (owner m <> Some t -> r = - RT_ERROR /\ mutexes k' = mutexes k /\ tlists k' = tlists k /\
       threads k' = <[t := set_error (- RT_ERROR) th]> (threads k)) /\
    (owner m = Some t -> r = RT_EOK /\ exists m' e, mutex_inv k' p m' /\
       mutex_step (view k p m) e (view k' p m') /\
       (hold m = 1 -> exists th', threads k' !! t = Some th' /\
          current_priority th' = original_priority m) /\
       match e with
       | Released u => u = t
       | HandedOver u v => u = t /\
           exists vh, threads k' !! v = Some vh /\ stat vh = RT_THREAD_READY
       | _ => False
       end).
Proof. apply mutex_release_step. Qed.

(** ** Executions

    What threads and interrupts see of a mutex: the calls and their results.
    Between the calls anything may happen that leaves the mutex consistent and
    its record alone, such as waiters giving up. *)

Definition take_event (t : ptr) (r : option Z) : mutex_event :=
  match r with
  | None => Queued t
  | Some e => if e =? RT_EOK then Acquired t else Refused t
  end.

Definition release_event (t : ptr) (r : Z) (w : option ptr) : mutex_event :=
  if r =? RT_EOK then match w with Some u => HandedOver t u | None => Released t end
  else Refused t.

Inductive mutex_run (p : ptr) : kernel -> list mutex_event -> kernel -> Prop :=
  | run_nil k : mutex_run p k [] k
  | run_take k t th time r k1 es k2 :
      caller k t th -> time_ok time ->
      rt_mutex_take p time k = Some (r, k1) -> mutex_run p k1 es k2 ->
      mutex_run p k (take_event t r :: es) k2
  | run_release k t th r k1 es k2 :
      caller k t th -> rt_mutex_release p k = Some (r, k1) -> mutex_run p k1 es k2 ->
      mutex_run p k (release_event t r (waked (QSuspend p) k k1) :: es) k2
  | run_other k k1 es k2 :
      (forall m, mutex_inv k p m -> mutex_inv k1 p m) -> mutex_run p k1 es k2 ->
      mutex_run p k es k2.

Lemma mutex_release_event_step k k1 t p m m1 e r :
  kernel_ok Task k -> mutex_step (view k p m) e (view k1 p m1) -> r = RT_EOK ->
  match e with Released u => u = t | HandedOver u _ => u = t | _ => False end ->
  release_event t r (waked (QSuspend p) k k1) = e.
Proof.
  intros O Hs -> He. unfold release_event. simpl. inversion Hs; subst; try done; simpl in *.
  - rewrite waked_none by congruence. congruence.
  - rewrite waked_none by congruence. congruence.
  - erewrite waked_first; [|done|by symmetry|by symmetry]. congruence.
Qed.

Lemma refused_inv k k1 t th p m :
  mutex_inv k p m -> mutexes k1 = mutexes k -> tlists k1 = tlists k ->
  threads k1 = <[t := th]> (threads k) -> mutex_inv k1 p m.
Proof.
  intros (Em & Hfl & Hown) Emx Etl Eth. unfold mutex_inv, tl. rewrite Emx, Etl, Eth.
  split_and!; try done. destruct (owner m) as [o|]; [|done].
  destruct Hown as (? & ? & Hso & ?). split_and!; try done; try lia.
  destruct (decide (o = t)) as [->|]; [by rewrite lookup_insert_eq|by rewrite lookup_insert_ne].
Qed.

(** The owner gets the mutex again, however often it holds it. *)
Lemma take_by_owner k t th p m time r k' :
  caller k t th -> mutexes k !! p = Some m -> owner m = Some t ->
  rt_mutex_take p time k = Some (r, k') -> r = Some RT_EOK.
Proof.
  intros C Em Eo E. assert (wp (rt_mutex_take p time) (fun r _ => r = Some RT_EOK) k) as H.
  { unfold rt_mutex_take. eapply wp_thread_context; [done|]. eapply wp_current; [done|].
    apply wp_bind, (wp_upd_thread _ _ th); [apply C|]. apply wp_bind, (wp_deref _ _ m); [done|].
    rewrite bool_decide_true by done. by apply wp_bind, wp_modify, wp_ret. }
  apply wp_exists in H as (r' & k1 & E' & ->). congruence.
Qed.

(** No thread holds the mutex more often than its 8-bit count can say, counting from what
    the threads hold at the beginning. *)
Definition nesting_ok (held0 : ptr -> Z) (es : list mutex_event) : Prop :=
  forall t es1 es2, es = es1 ++ es2 -> held0 t + depth t es1 <= 255.

Lemma nesting_cons held0 held1 e es :
  (forall t, held1 t = held0 t + depth1 t e) -> nesting_ok held0 (e :: es) -> nesting_ok held1 es.
Proof. intros E H t es1 es2 ->. specialize (H t (e :: es1) es2 eq_refl). rewrite E. simpl in H. lia. Qed.

(** The holds of a thread are what its calls say. *)
Lemma run_held p k es k' : mutex_run p k es k' -> forall m, mutex_inv k p m ->
  nesting_ok (held (view k p m)) es ->
  exists m', mutex_inv k' p m' /\ forall t, held (view k' p m') t = held (view k p m) t + depth t es.
Proof.
  induction 1 as [k|k t th time r k1 es k2 C Htime E Hrun IH|
    k t th r k1 es k2 C E Hrun IH|k k1 es k2 Hk Hrun IH]; intros m Hm Hn.
  - exists m. split; [done|]. intros t. simpl. lia.
  - assert (owner m = Some t -> hold m < 255) as Hh.
    { intros Ho. specialize (Hn t [take_event t r] es eq_refl).
      rewrite (take_by_owner k t th p m time r k1) in Hn; [|done|apply Hm|done|done].
      unfold held, view in Hn. rewrite Ho in Hn. simpl in Hn. rewrite !decide_True in Hn by done. lia. }
    destruct (mutex_take_step k t th p m time C Hm Htime Hh)
      as (r' & k1' & m1 & e & E' & _ & Hm1 & Hst & He).
    rewrite E in E'. injection E' as <- <-.
    assert (take_event t r = e) as Ee.
    { unfold take_event. destruct e; try done; destruct_and! He; by subst. }
    rewrite Ee in *. destruct (IH m1 Hm1) as (m' & Hm' & Hd).
    { eapply nesting_cons; [|exact Hn]. intros x. by apply step_held. }
    exists m'. split; [done|]. intros x. rewrite Hd, (step_held _ _ _ x Hst). unfold depth. simpl. lia.
  - destruct (mutex_release_step k t th p m C Hm) as (r' & k1' & E' & _ & H1 & H2).
    rewrite E in E'. injection E' as <- <-. destruct (decide (owner m = Some t)) as [Ho|Ho].
    + destruct (H2 Ho) as (Hr & m1 & e & Hm1 & Hst & _ & He).
      rewrite (mutex_release_event_step k k1 t p m m1 e r) in * by (done || apply C || (destruct e; naive_solver)).
      destruct (IH m1 Hm1) as (m' & Hm' & Hd).
      { eapply nesting_cons; [|exact Hn]. intros x. by apply step_held. }
      exists m'. split; [done|]. intros x. rewrite Hd, (step_held _ _ _ x Hst). unfold depth. simpl. lia.
    + destruct (H1 Ho) as (-> & Emx & Etl & Eth).
      destruct (IH m (refused_inv k k1 t _ p m Hm Emx Etl Eth)) as (m' & Hm' & Hd).
      { eapply nesting_cons; [|exact Hn]. intros x. unfold held, release_event. simpl. lia. }
      exists m'. split; [done|]. intros x. rewrite Hd.
      unfold depth, release_event. simpl. unfold held. simpl. lia.
  - destruct (IH m (Hk m Hm)) as (m' & Hm' & Hd); [exact Hn|]. exists m'. split; [done|].
    intros x. rewrite Hd. unfold held, view. done.
Qed.

(** C5. Mutual exclusion: in every sequence of calls of [rt_mutex_take] and
    [rt_mutex_release] by any threads on a mutex that is free at the beginning, with
    anything in between that leaves the mutex alone, and in which no thread holds the mutex
    more than 255 times at once (the count is 8 bits wide and wraps, see
    [mutex_hold_wraps]): no thread releases it more often than it has got it (by a call
    that returned RT_EOK, or handed over by a release), and two threads that have got it
    more often than released it are the same thread. *)
Theorem mutex_exclusion p k m es k' :
  mutex_inv k p m -> owner m = None -> mutex_run p k es k' ->
  (forall t es1 es2, es = es1 ++ es2 -> depth t es1 <= 255) ->
  (forall t, 0 <= depth t es) /\
  (forall t u, 0 < depth t es -> 0 < depth u es -> t = u).
Proof.
  intros Hm Ho Hrun Hn. destruct (run_held p k es k' Hrun m Hm) as (m' & Hm' & Hd).
  { intros t es1 es2 E. specialize (Hn t es1 es2 E). unfold held, view. rewrite Ho. simpl. lia. }
  assert (forall t, depth t es = held (view k' p m') t) as E.
  { intros t. rewrite Hd. unfold held, view. rewrite Ho. simpl. lia. }
  destruct Hm' as (_ & _ & Hown). unfold held, view in E. simpl in E.
  destruct (owner m') as [o|]; simpl in E; split.
  - intros t. rewrite E. case_decide; lia.
  - intros t u. rewrite !E. repeat case_decide; congruence || lia.
  - intros t. rewrite E. lia.
  - intros t u. rewrite !E. lia.
Qed.


(** ** Examples *)

(** Thread 8192 (priority 20) holds the mutex at 28672 while thread 4096
    (priority 10) has just woken up. *)
Definition demo_mutex : kernel :=
  after (rt_mutex_create (Some 28672) [109; 0] RT_IPC_FLAG_PRIO;;
         rt_thread_sleep 1;;
         rt_mutex_take 28672 0;;
         rt_thread_resume 4096;;
         rt_schedule) demo.
(** The same after 4096 has asked for the mutex. *)
Definition demo_mutex_wait : kernel := after (rt_mutex_take 28672 100) demo_mutex.

Definition demo_m : rt_mutex := Mutex RT_IPC_FLAG_PRIO 0 20 1 (Some 8192).

Ltac ev_mutex_inv :=
  split; [ev|]; split; [vm_compute; by auto|]; cbn [owner demo_m];
  split; [ev|]; split; [vm_compute; by split|]; split; [vm_compute; by eexists|vm_compute; by split].

Lemma rt_mutex_take_refines_witness :
  exists k' oh, rt_mutex_take 28672 100 demo_mutex = Some (None, k') /\
    threads k' !! 8192 = Some oh /\ current_priority oh <= 10.
Proof.
  destruct (rt_mutex_take_refines demo_mutex 4096 (th_at demo_mutex 4096) 28672 demo_m 100
    ltac:(ev_caller) ltac:(ev_mutex_inv) ltac:(ev) ltac:(vm_compute; discriminate))
    as (r & k' & m' & e & E & _ & _ & St & M).
  change (view demo_mutex 28672 demo_m) with (Some (8192, 1), tl demo_mutex (QSuspend 28672)) in St.
  generalize dependent (tl demo_mutex (QSuspend 28672)). intros q St.
  generalize dependent (view k' 28672 m'). intros v St.
  destruct e; try (exfalso; exact M).
  - exfalso. destruct M as (-> & _ & _). inversion St.
  - exfalso. destruct M as (_ & M & _). discriminate M.
  - destruct M as (_ & _ & -> & (o & oh & Eo & Eh & Hle) & _).
    injection Eo as <-. exists k', oh. split; [exact E|]. split; [exact Eh|exact Hle].
Defined.

Lemma rt_mutex_release_refines_witness :
  exists k', rt_mutex_release 28672 demo_mutex_wait = Some (RT_EOK, k') /\ kernel_ok Task k'.
Proof.
  destruct (rt_mutex_release_refines demo_mutex_wait 8192 (th_at demo_mutex_wait 8192) 28672 demo_m
    ltac:(ev_caller) ltac:(ev_mutex_inv)) as (r & k' & E & O & _ & H).
  destruct (H eq_refl) as [-> _]. exists k'. split; [exact E|exact O].
Defined.

(** A free mutex; thread 4096 takes it and releases it. *)
Definition demo_free : kernel :=
  after (rt_mutex_create (Some 28672) [109; 0] RT_IPC_FLAG_PRIO) demo.
Definition demo_taken : kernel := after (rt_mutex_take 28672 0) demo_free.

Lemma mutex_exclusion_witness :
  exists es k', mutex_run 28672 demo_free es k' /\ depth 4096 es = 1 /\
    forall u, 0 < depth u es -> 4096 = u.
Proof.
  assert (mutex_run 28672 demo_free [Acquired 4096] demo_taken) as R.
  { apply (run_take 28672 demo_free 4096 (th_at demo_free 4096) 0 (Some RT_EOK) demo_taken []).
    - ev_caller.
    - ev.
    - ev.
    - apply run_nil. }
  exists [Acquired 4096], demo_taken. split; [exact R|]. split; [ev|]. intros u.
  apply (mutex_exclusion 28672 demo_free (Mutex RT_IPC_FLAG_PRIO 1 255 0 None) _ demo_taken).
  - split; [ev|]. split; [right; ev|]. split; [ev|]. split; ev.
  - ev.
  - exact R.
  - intros t [|e [|]] es2 E; [simpl; lia| |discriminate E].
    injection E as <- _. unfold depth. simpl. case_decide; lia.
  - vm_compute. reflexivity.
Defined.

(** ** Limits *)

Fixpoint repeat_take (n : nat) (p : ptr) : K unit :=
  match n with O => mret tt | S n => rt_mutex_take p 0;; repeat_take n p end.

(** The hold count is 8 bits wide and not checked: a thread that has taken a mutex 257
    times loses it at its first release, while it still means to hold it 256 times. *)
Theorem mutex_hold_wraps :
  (fun r => owner <$> mutexes r.2 !! 28672) <$>
    (rt_mutex_create (Some 28672) [109; 0] RT_IPC_FLAG_PRIO;;
     repeat_take 257 28672;; rt_mutex_release 28672) demo
  = Some (Some None).
Proof. ev. Qed.

(** With FIFO waiting the new owner does not inherit the priority of those who still
    wait: here thread 32768 (priority 5) waits for a mutex whose new owner, handed over
    by the release, runs at its own priority 20. *)
Theorem mutex_handover_no_inheritance :
  (fun r => (owner <$> mutexes r.2 !! 28672, tl r.2 (QSuspend 28672),
             current_priority <$> threads r.2 !! 8192)) <$>
    (rt_mutex_create (Some 28672) [109; 0] RT_IPC_FLAG_FIFO;;
     rt_mutex_take 28672 0;;
     rt_thread_create (Some 32768) (Some 36864) zero_thread [99; 0] 3 0 512 5 5;;
     rt_thread_sleep 3;;                       (* 4096, the owner, sleeps *)
     rt_mutex_take 28672 RT_WAITING_FOREVER;;  (* 8192 waits; idle runs *)
     rt_thread_startup 32768;;                 (* 32768 runs *)
     rt_mutex_take 28672 RT_WAITING_FOREVER;;  (* 32768 waits *)
     rt_thread_resume 4096;; rt_schedule;;
     rt_mutex_release 28672) demo
  = Some (Some (Some 8192), [32768], Some 20).
Proof. ev. Qed.

End Mtx.
