(* ===== verification/Event.v ===== *)
(** * Events: src/ipc.c

    An event object is a 32-bit set of flags.  A thread waits until all (AND)
    or some (OR) of the flags that it asks for are set, and may clear the flags
    that it received. *)

From S2P Require Import Prelude Kernel Scheduler Object Timer Thread KernelOk ThreadSpec Ipc.

Module Evt.

Definition RT_EVENT_FLAG_AND : Z := 0x01.
Definition RT_EVENT_FLAG_OR : Z := 0x02.
Definition RT_EVENT_FLAG_CLEAR : Z := 0x04.

(** ** Operations *)

Definition rt_event_init (p : ptr) (name : list Z) (flag : Z) : K Z :=
  rt_object_init (Obj p) RT_Object_Class_Event name;;
  rt_ipc_object_init p;;
  put_event p (Event flag 0);;
  mret RT_EOK.

Definition rt_event_detach (p : ptr) : K Z :=
  rt_ipc_list_resume_all (QSuspend p);;
  rt_object_detach (Obj p);;
  mret RT_EOK.

Definition rt_event_create (mem : option ptr) (name : list Z) (flag : Z) : K (option ptr) :=
  RT_DEBUG_NOT_IN_INTERRUPT;;
  event ← rt_object_allocate mem RT_Object_Class_Event name;
  match event with
  | None => mret None
  | Some p =>
      rt_ipc_object_init p;;
      put_event p (Event flag 0);;
      mret (Some p)
  end.

Definition rt_event_delete (p : ptr) : K Z :=
  RT_DEBUG_NOT_IN_INTERRUPT;;
  rt_ipc_list_resume_all (QSuspend p);;
  rt_object_delete (Obj p);;
  mret RT_EOK.

(** One round of the [while] loop of [rt_event_send]: did [t] get its flags? *)
Definition event_match (p t : ptr) : K bool :=
  th ← deref threads t;
  e ← deref events p;
  if truthy (event_info th &. RT_EVENT_FLAG_AND) then
    mret (event_set th &. ev_set e =? event_set th)
  else if truthy (event_info th &. RT_EVENT_FLAG_OR) then
    if truthy (event_set th &. ev_set e) then
      upd_thread t (set_event_set (event_set th &. ev_set e));;
      mret true
    else mret false
  else mret false.

Definition event_wake (p t : ptr) : K unit :=
  th ← deref threads t;
  when (truthy (event_info th &. RT_EVENT_FLAG_CLEAR)) (
    e ← deref events p;
    put_event p (set_ev_set (ev_set e &~ event_set th) e));;
  rt_thread_resume t;;
  mret tt.

(** The loop; [l] are the waiters from the current node on.  The next node is
    read before the thread is resumed, so the walk follows the list as it was. *)
Fixpoint rt_event_send_loop (p : ptr) (l : list ptr) : K bool :=
  match l with
  | [] => mret false
  | t :: l' =>
      status ← event_match p t;
      (if (status : bool) then event_wake p t else mret tt);;
      need ← rt_event_send_loop p l';
      mret (status || need)
  end.

Definition rt_event_send (p : ptr) (set : Z) : K Z :=
  if set =? 0 then mret (- RT_ERROR)
  else
    e ← deref events p;
    put_event p (set_ev_set (ev_set e |. set) e);;
    l ← gets (fun k => tl k (QSuspend p));
    need_schedule ← rt_event_send_loop p l;
    when need_schedule rt_schedule;;
    mret RT_EOK.

(** The result: the return value and what was stored through [recved]; [None]:
    the caller waits and goes on with [rt_event_recv_resume]. *)
Definition rt_event_recv (p : ptr) (set option timeout : Z) : K (Datatypes.option (Z * Datatypes.option Z)) :=
  RT_DEBUG_IN_THREAD_CONTEXT;;
  if set =? 0 then mret (Some (- RT_ERROR, None))
  else
    t ← current;
    upd_thread t (set_error RT_EOK);;
    e ← deref events p;
    status ←
      (if truthy (option &. RT_EVENT_FLAG_AND) then mret (ev_set e &. set =? set)
       else if truthy (option &. RT_EVENT_FLAG_OR) then mret (truthy (ev_set e &. set))
       else halt);
    if (status : bool) then
      when (truthy (option &. RT_EVENT_FLAG_CLEAR)) (
        put_event p (set_ev_set (ev_set e &~ set) e));;
      th ← deref threads t;
      mret (Some (error th, Some (ev_set e &. set)))
    else if timeout =? 0 then
      upd_thread t (set_error (- RT_ETIMEOUT));;
      th ← deref threads t;
      mret (Some (error th, None))
    else
      upd_thread t (fun th => set_event_info option (set_event_set set th));;
      rt_ipc_list_suspend (QSuspend p) t (event_flag e);;
      when (timeout >? 0) (
        rt_timer_control (TimerOf t) RT_TIMER_CTRL_SET_TIME timeout;;
        rt_timer_start (TimerOf t);;
        mret tt);;
      rt_schedule;;
      mret None.

Definition rt_event_recv_resume (t : ptr) : K (Z * Datatypes.option Z) :=
  th ← deref threads t;
  if negb (error th =? RT_EOK) then mret (error th, None)
  else mret (error th, Some (event_set th)).

Definition rt_event_control (p : ptr) (cmd arg : Z) : K Z :=
  if cmd =? RT_IPC_CMD_RESET then
    rt_ipc_list_resume_all (QSuspend p);;
    e ← deref events p;
    put_event p (set_ev_set 0 e);;
    rt_schedule;;
    mret RT_EOK
  else mret (- RT_ERROR).

(** ** Specification *)

(** Does [set] have what is asked for? *)
Definition wanted (want option set : Z) : bool :=
  if truthy (option &. RT_EVENT_FLAG_AND) then want &. set =? want
  else if truthy (option &. RT_EVENT_FLAG_OR) then truthy (want &. set)
  else false.

Definition satisfied (th : rt_thread) (set : Z) : bool := wanted (event_set th) (event_info th) set.

(** Taking flags away satisfies nobody new. *)
Lemma wanted_mono want option set x :
  wanted want option (set &~ x) = true -> wanted want option set = true.
Proof.
  unfold wanted, truthy. destruct (negb (_ &. RT_EVENT_FLAG_AND =? 0)).
  - rewrite !Z.eqb_eq. intros E. apply Z.bits_inj'. intros n Hn.
    apply (f_equal (fun z => Z.testbit z n)) in E. rewrite Z.land_spec, Z.ldiff_spec in E.
    rewrite Z.land_spec. by destruct (Z.testbit want n), (Z.testbit set n).
  - destruct (negb (_ &. RT_EVENT_FLAG_OR =? 0)); [|done].
    rewrite !negb_true_iff, !Z.eqb_neq. intros Hne E. apply Hne.
    apply Z.bits_inj'. intros n Hn.
    apply (f_equal (fun z => Z.testbit z n)) in E. rewrite Z.land_spec, Z.testbit_0_l in E.
    rewrite Z.land_spec, Z.ldiff_spec, Z.testbit_0_l.
    by destruct (Z.testbit want n), (Z.testbit set n).
Qed.

(** Nobody waits for flags that are there. *)
Definition event_inv (k : kernel) (p : ptr) : Prop :=
  exists e, events k !! p = Some e /\
    (event_flag e = RT_IPC_FLAG_FIFO \/ event_flag e = RT_IPC_FLAG_PRIO) /\
    forall t th, t ∈ tl k (QSuspend p) -> threads k !! t = Some th ->
      satisfied th (ev_set e) = false.

(** The waiters are served in turn: one whose request the flags satisfy gets all of the
    flags that it asked for (AND) or those that are there (OR), and takes them away from the
    ones behind it if it wants them cleared.  [serve] gives the flags that are left and who
    is woken with which flags. *)
Definition granted (want option set : Z) : Z :=
  if truthy (option &. RT_EVENT_FLAG_AND) then want else want &. set.
Definition left_over (want option set : Z) : Z :=
  if truthy (option &. RT_EVENT_FLAG_CLEAR) then set &~ granted want option set else set.

Fixpoint serve (set : Z) (l : list (ptr * (Z * Z))) : Z * list (ptr * Z) :=
  match l with
  | [] => (set, [])
  | (t, (want, option)) :: l =>
      if wanted want option set then
        let '(s, w) := serve (left_over want option set) l in (s, (t, granted want option set) :: w)
      else serve set l
  end.

Definition request (k : kernel) (t : ptr) : ptr * (Z * Z) :=
  (t, from_option (fun th => (event_set th, event_info th)) (0, 0) (threads k !! t)).

(** What one call of [rt_event_send] does: [k] after the flags were set, [l] the waiters
    still to visit, [s] and [w] what [serve] says. *)
Record sent (p : ptr) (e : rt_event) (s : Z) (w : list (ptr * Z)) (k k' : kernel) : Prop := {
  se_event : events k' !! p = Some (set_ev_set s e);
  se_list : tl k' (QSuspend p) = filter (fun t => t ∉ w.*1) (tl k (QSuspend p));
  se_woken t g : (t, g) ∈ w -> exists th, threads k !! t = Some th /\
    threads k' !! t = Some (set_stat RT_THREAD_READY (set_event_set g th));
  se_other t : t ∉ w.*1 -> threads k' !! t = threads k !! t;
  se_rest t th : t ∈ tl k' (QSuspend p) -> threads k' !! t = Some th -> satisfied th s = false;
}.

Lemma filter_nobody (l : list ptr) : filter (fun t => t ∉ ([] : list (ptr * Z)).*1) l = l.
Proof. induction l as [|t l IH]; [done|]. rewrite filter_cons_True by apply not_elem_of_nil. by rewrite IH. Qed.

Lemma request_other k k' t (l : list ptr) :
  (forall y, y <> t -> threads k' !! y = threads k !! y) -> t ∉ l -> request k' <$> l = request k <$> l.
Proof.
  intros H Ht. apply list_fmap_ext. intros i y Hy. unfold request. rewrite H; [done|].
  intros ->. apply Ht. by eapply list_elem_of_lookup_2.
Qed.

Lemma serve_woken l : forall set t g, (t, g) ∈ (serve set l).2 -> t ∈ l.*1.
Proof.
  induction l as [|[y [want option]] l IH]; intros set t g; simpl; [by intros ?%not_elem_of_nil|].
  destruct (wanted want option set).
  - specialize (IH (left_over want option set) t g). destruct (serve _ l) as [s w]. simpl in *.
    intros [[= -> ->]|Hin]%elem_of_cons; [left|right; by apply IH].
  - intros H. right. by eapply IH.
Qed.

(** ** Sending *)

Lemma event_match_eq k p t th e :
  threads k !! t = Some th -> events k !! p = Some e ->
  (satisfied th (ev_set e) = false /\ event_match p t k = Some (false, k)) \/
  (satisfied th (ev_set e) = true /\
     event_match p t k = Some (true, set_threads
       (<[t := set_event_set (granted (event_set th) (event_info th) (ev_set e)) th]> (threads k)) k)).
Proof.
  intros Ht Ee. unfold event_match, deref, mbind, K_bind. rewrite Ht, Ee.
  unfold satisfied, wanted, granted. destruct (truthy (event_info th &. RT_EVENT_FLAG_AND)).
  - destruct (_ =? _); [right|by left]. split; [done|].
    rewrite insert_id; [by destruct k|]. rewrite Ht. by destruct th.
  - destruct (truthy (event_info th &. RT_EVENT_FLAG_OR)); [|by left].
    destruct (truthy (event_set th &. ev_set e)); [right|by left]. split; [done|].
    unfold upd_thread, deref, mbind, K_bind. by rewrite Ht.
Qed.

(** One waiter that got its flags is woken. *)
Lemma wp_event_wake m k p t th e (Q : unit -> kernel -> Prop) :
  kernel_ok m k -> threads k !! t = Some th -> stat th = RT_THREAD_SUSPEND ->
  events k !! p = Some e ->
  (forall k', kernel_ok m k' ->
     events k' = <[p := set_ev_set (if truthy (event_info th &. RT_EVENT_FLAG_CLEAR)
       then ev_set e &~ event_set th else ev_set e) e]> (events k) ->
     (forall q, (exists p, q = QSuspend p \/ q = QSender p) ->
        tl k' q = filter (.≠ t) (tl k q)) ->
     threads k' = <[t := set_stat RT_THREAD_READY th]> (threads k) -> Q tt k') ->
  wp (event_wake p t) Q k.
Proof.
  intros O Ht Hs Ee HQ. unfold event_wake. apply wp_bind, (wp_deref _ _ th); [done|].
  set (s := if truthy (event_info th &. RT_EVENT_FLAG_CLEAR) then _ else _) in HQ.
  assert (forall k1, kernel_ok m k1 -> threads k1 = threads k -> tlists k1 = tlists k ->
    events k1 = <[p := set_ev_set s e]> (events k) ->
    wp (rt_thread_resume t;; mret tt) Q k1) as Hgo.
  { intros k1 O1 T1 L1 E1. apply wp_bind, (wp_resume m k1 t th); [done|by rewrite T1|done|].
    intros g l ts O2 _ _ _. apply wp_ret. apply HQ; try done; simpl.
    - intros q [pp Hq]. unfold tl. simpl. rewrite ready_lists_other_ready by naive_solver.
      by rewrite L1.
    - by rewrite T1. }
  apply wp_bind. unfold when. destruct (truthy _).
  - apply wp_bind, (wp_deref _ _ e); [done|]. apply wp_modify. by eapply Hgo.
  - apply wp_ret. apply (Hgo k); try done. rewrite insert_id; [done|].
    rewrite Ee. by destruct e.
Qed.

(** The woken ones in front, then the others. *)
Lemma sent_cons p e t th g s' s w k k2 k' :
  threads k !! t = Some th -> t ∉ w.*1 ->
  (forall y, y <> t -> threads k2 !! y = threads k !! y) ->
  threads k2 !! t = Some (set_stat RT_THREAD_READY (set_event_set g th)) ->
  tl k2 (QSuspend p) = filter (.≠ t) (tl k (QSuspend p)) ->
  sent p (set_ev_set s' e) s w k2 k' -> sent p e s ((t, g) :: w) k k'.
Proof.
  intros Ht Hw Hy Ht2 El [H1 H2 H3 H4 H5]. constructor; csimpl.
  - exact H1.
  - rewrite H2, El, list_filter_filter. apply list_filter_iff. intros y. rewrite not_elem_of_cons. naive_solver.
  - intros y h [[= -> ->]|Hin]%elem_of_cons.
    + exists th. split; [done|]. by rewrite H4.
    + destruct (H3 _ _ Hin) as (yh & E & E'). exists yh. split; [|done]. rewrite <-Hy; [done|].
      intros ->. apply Hw. apply list_elem_of_fmap. by exists (t, h).
  - intros y [Hyt Hyw]%not_elem_of_cons. rewrite H4 by done. by apply Hy.
  - exact H5.
Qed.

Lemma wp_event_send_loop m p l : forall k e,
  kernel_ok m k -> NoDup l -> (forall t, t ∈ l -> t ∈ tl k (QSuspend p)) ->
  events k !! p = Some e ->
  (forall t th, t ∈ tl k (QSuspend p) -> t ∉ l ->
     threads k !! t = Some th -> satisfied th (ev_set e) = false) ->
  wp (rt_event_send_loop p l) (fun _ k' => kernel_ok m k' /\
    sent p e (serve (ev_set e) (request k <$> l)).1 (serve (ev_set e) (request k <$> l)).2 k k') k.
Proof.
  induction l as [|t l IH]; intros k e O Hnd Hsub Ee Huns.
  { apply wp_ret. split; [done|]. csimpl. constructor.
    - rewrite Ee. by destruct e.
    - by rewrite filter_nobody.
    - by intros ? ? ?%not_elem_of_nil.
    - done.
    - intros t th Hin. apply (Huns t th Hin), not_elem_of_nil. }
  apply NoDup_cons in Hnd as [Hnot Hnd]. cbn [rt_event_send_loop].
  assert (t ∈ tl k (QSuspend p)) as Hin by (apply Hsub; left).
  destruct (waiting_thread m k (QSuspend p) t O) as (th & Ht & Hs); [by eauto|done|].
  assert (request k t = (t, (event_set th, event_info th))) as Er by (unfold request; by rewrite Ht).
  rewrite fmap_cons, Er. cbn [serve]. fold (satisfied th (ev_set e)).
  apply wp_bind. unfold wp at 1.
  destruct (event_match_eq k p t th e Ht Ee) as [[Hu E]|[Hu E]]; rewrite E, Hu; clear E.
  - apply wp_bind, wp_ret, wp_bind. eapply wp_mono.
    { apply (IH k e); try done; [set_solver|]. intros x xh Hx Hx' Hxh.
      destruct (decide (x = t)) as [->|]; [by simplify_eq|]. eapply Huns; set_solver. }
    intros b k' [O' H]. by apply wp_ret.
  - set (g := granted _ _ _). set (th1 := set_event_set g th). set (k1 := set_threads _ k).
    assert (kernel_ok m k1) as O1 by (by eapply kok_update).
    apply wp_bind, (wp_event_wake m k1 p t th1 e); [done|simpl; by rewrite lookup_insert_eq|done..|].
    intros k2 O2 E2 L2 T2. apply wp_bind. change (event_set th1) with g in E2. change (event_info th1) with (event_info th) in E2.
    fold (left_over (event_set th) (event_info th) (ev_set e)) in E2. set (s' := left_over _ _ _) in *.
    assert (tl k2 (QSuspend p) = filter (.≠ t) (tl k (QSuspend p))) as El by (rewrite L2 by eauto; done).
    assert (forall y, y <> t -> threads k2 !! y = threads k !! y) as Ht2.
    { intros y Hy. rewrite T2. simpl. by rewrite !lookup_insert_ne. }
    eapply wp_mono.
    { apply (IH k2 (set_ev_set s' e)); [done|done| |rewrite E2; by rewrite lookup_insert_eq|].
      - intros y Hy. rewrite El. apply elem_of_filter_ne. split; [by intros ->|]. apply Hsub. by right.
      - intros y yh Hyl Hy Hyh. rewrite El in Hyl. apply elem_of_filter_ne in Hyl as [Hyt Hyl].
        rewrite Ht2 in Hyh by done. destruct (satisfied yh (ev_set (set_ev_set s' e))) eqn:Esat; [|done].
        assert (satisfied yh (ev_set e) = false) as Hf by (eapply Huns; set_solver).
        unfold satisfied in Esat, Hf. simpl in Esat. unfold s', left_over in Esat.
        destruct (truthy _); [apply wanted_mono in Esat|]; congruence. }
    intros b k' [O' H]. apply wp_ret. split; [done|]. rewrite (request_other k k2 t l Ht2 Hnot) in H.
    simpl in H. destruct (serve s' (request k <$> l)) as [s w] eqn:Es. simpl in H |- *.
    apply (sent_cons p e t th g s' s w k k2); [done| |done| |done|done].
    + intros ([y h] & -> & Hin')%list_elem_of_fmap. apply Hnot.
      pose proof (serve_woken (request k <$> l) s' y h) as Hw. rewrite Es in Hw. specialize (Hw Hin').
      apply list_elem_of_fmap in Hw as (r & -> & (x & -> & Hx)%list_elem_of_fmap). exact Hx.
    + rewrite T2. by rewrite lookup_insert_eq.
Qed.

(** C40. [rt_event_send] loses no wake-up.  The flags are added to those that are set, and
    the waiters are served in their order: exactly those whose requests the flags satisfy
    when their turn comes leave the waiting list, become ready and hold the flags that
    they are granted; those that ask for it take their flags away from the later ones;
    every other thread is untouched, and no thread is left waiting whose request the
    remaining flags satisfy.  Sending no flag is refused and changes nothing. *)
Theorem rt_event_send_no_lost_wakeup m k p set e :
  kernel_ok m k -> event_inv k p -> events k !! p = Some e ->
  exists r k', rt_event_send p set k = Some (r, k') /\ kernel_ok m k' /\ event_inv k' p /\
    (set = 0 -> r = - RT_ERROR /\ k' = k) /\
    (set <> 0 -> r = RT_EOK /\
       let '(rest, woken) := serve (ev_set e |. set) (request k <$> tl k (QSuspend p)) in
       events k' !! p = Some (set_ev_set rest e) /\
       tl k' (QSuspend p) = filter (fun t => t ∉ woken.*1) (tl k (QSuspend p)) /\
       (forall t g, (t, g) ∈ woken -> exists th, threads k !! t = Some th /\
          threads k' !! t = Some (set_stat RT_THREAD_READY (set_event_set g th))) /\
       (forall t, t ∉ woken.*1 -> threads k' !! t = threads k !! t)).
Proof.
  intros O (e' & Ee' & Hfl & Hinv) Ee. assert (e' = e) as -> by congruence. clear Ee'.
  set (post := fun (r : Z) (k' : kernel) => kernel_ok m k' /\ event_inv k' p /\
    (set = 0 -> r = - RT_ERROR /\ k' = k) /\
    (set <> 0 -> r = RT_EOK /\
       sent p e (serve (ev_set e |. set) (request k <$> tl k (QSuspend p))).1
         (serve (ev_set e |. set) (request k <$> tl k (QSuspend p))).2 k k')).
  assert (wp (rt_event_send p set) post k) as H.
  { unfold rt_event_send. destruct (Z.eqb_spec set 0) as [->|Hne].
    { apply wp_ret. split; [done|]. split; [by exists e|]. split; [done|]. by intros []. }
    apply wp_bind, (wp_deref _ _ e); [done|]. apply wp_bind, wp_modify.
    set (k1 := set_events _ k). apply wp_bind, wp_gets, wp_bind. eapply wp_mono.
    { apply (wp_event_send_loop m p _ k1 (set_ev_set (ev_set e |. set) e)); [exact O| |done| |].
      - apply (so_nodup _ _ _ (ko_sched _ _ _ _ _ _ _ _ O)).
      - simpl. by rewrite lookup_insert_eq.
      - intros; set_solver. }
    intros b k2 [O2 [H1 H2 H3 H4 H5]].
    assert (forall k3, kernel_ok m k3 -> events k3 = events k2 -> tlists k3 = tlists k2 ->
      threads k3 = threads k2 -> post RT_EOK k3) as Hpost.
    { intros k3 O3 V3 L3 T3.
      assert (tl k3 (QSuspend p) = tl k2 (QSuspend p)) as El by (unfold tl; by rewrite L3).
      split; [done|]. split.
      { eexists. rewrite V3, El, T3. split; [exact H1|]. split; [done|]. exact H5. }
      split; [done|]. intros _. split; [done|]. constructor; rewrite ?V3, ?El, ?T3; [exact H1|exact H2|exact H3|exact H4|exact H5]. }
    apply wp_bind. unfold when. destruct b.
    - apply (wp_schedule m); [done|]. intros pp c O3 _ _. apply wp_ret. by apply Hpost.
    - apply wp_ret, wp_ret. by apply Hpost. }
  apply wp_exists in H as (r & k' & E & O' & Hi & H0 & H1). exists r, k'. split_and!; try done.
  intros Hne. destruct (H1 Hne) as [Hr [S1 S2 S3 S4 _]]. destruct (serve _ _). done.
Qed.

(** ** Receiving *)

Lemma wp_event_status want option set (Q : bool -> kernel -> Prop) k :
  (Z.testbit option 0 = true \/ Z.testbit option 1 = true) ->
  Q (wanted want option set) k ->
  wp (if truthy (option &. RT_EVENT_FLAG_AND) then mret (set &. want =? want)
      else if truthy (option &. RT_EVENT_FLAG_OR) then mret (truthy (set &. want))
      else halt) Q k.
Proof.
  intros Hopt HQ. unfold wanted in HQ. rewrite (Z.land_comm want set) in HQ.
  destruct (truthy (option &. RT_EVENT_FLAG_AND)) eqn:E1; [by apply wp_ret|].
  destruct (truthy (option &. RT_EVENT_FLAG_OR)) eqn:E2; [by apply wp_ret|].
  change RT_EVENT_FLAG_AND with (2 ^ 0) in E1. change RT_EVENT_FLAG_OR with (2 ^ 1) in E2.
  rewrite truthy_bit in E1, E2 by lia.
  destruct Hopt; congruence.
Qed.

(** Flags only went away and the waiters are the same: still nobody waits for
    flags that are there. *)
Lemma event_inv_keep k p e k' e' (t : ptr) :
  events k !! p = Some e -> event_inv k p -> t ∉ tl k (QSuspend p) ->
  tl k' (QSuspend p) = tl k (QSuspend p) ->
  (forall x, x <> t -> threads k' !! x = threads k !! x) ->
  events k' !! p = Some e' -> event_flag e' = event_flag e ->
  (exists x, ev_set e' = ev_set e &~ x) -> event_inv k' p.
Proof.
  intros Ee (e0 & Ee0 & Hfl & Hinv) Hnot El Hx Ee' Ef [y Es].
  assert (e0 = e) as -> by congruence. exists e'. rewrite Ef. split_and!; try done.
  intros x xh Hin Hxh. rewrite El in Hin. rewrite Hx in Hxh by (by intros ->).
  pose proof (Hinv x xh Hin Hxh) as Hf. rewrite Es.
  destruct (satisfied xh (ev_set e &~ y)) eqn:E; [|done].
  apply wanted_mono in E. unfold satisfied in Hf. congruence.
Qed.

(** What [rt_event_recv] leaves, by the outcome [status] of its test. *)
Definition recv_post (k : kernel) (t p : ptr) (e : rt_event) (set option timeout : Z)
    (status : bool) (r : Datatypes.option (Z * Datatypes.option Z)) (k' : kernel) : Prop :=
  kernel_ok Task k' /\ event_inv k' p /\
  if status then
    r = Some (RT_EOK, Some (ev_set e &. set)) /\
    exists e', events k' !! p = Some e' /\
      ev_set e' = if truthy (option &. RT_EVENT_FLAG_CLEAR) then ev_set e &~ set else ev_set e
  else if timeout =? 0 then
    r = Some (- RT_ETIMEOUT, None) /\ events k' = events k /\ tlists k' = tlists k
  else
    r = None /\ events k' = events k /\ t ∈ tl k' (QSuspend p) /\
    exists th', threads k' !! t = Some th' /\ stat th' = RT_THREAD_SUSPEND /\
      event_set th' = set /\ event_info th' = option.

(** [rt_event_recv] on every branch: a satisfied request returns at once with the
    requested flags that were set, which are cleared when asked; an unsatisfied one
    returns -RT_ETIMEOUT when the caller does not wait, and otherwise queues the caller
    with its request recorded; in all cases no satisfied thread is left waiting. *)
Theorem rt_event_recv_ok k t th p e set option timeout :
  caller k t th -> event_inv k p -> events k !! p = Some e -> time_ok timeout ->
  (Z.testbit option 0 = true \/ Z.testbit option 1 = true) -> set <> 0 ->
  exists r k', rt_event_recv p set option timeout k = Some (r, k') /\
    recv_post k t p e set option timeout (wanted set option (ev_set e)) r k'.
Proof.
  intros C Hinv Ee Htime Hopt Hset. pose proof Hinv as (e0 & Ee0 & Hfl & Hall).
  assert (e0 = e) as -> by congruence.
  set (th1 := set_error RT_EOK th). set (k1 := set_threads (<[t := th1]> (threads k)) k).
  assert (caller k1 t th1) as C1 by (by eapply caller_update).
  assert (t ∉ tl k (QSuspend p)) as Hnot by (apply (ready_not_waiting Task k t th p); apply C).
  assert (forall x, x <> t -> threads k1 !! x = threads k !! x) as Hx1.
  { intros x Hx. simpl. by rewrite lookup_insert_ne. }
  assert (wp (rt_event_recv p set option timeout)
    (recv_post k t p e set option timeout (wanted set option (ev_set e))) k) as H.
  { unfold rt_event_recv. eapply wp_thread_context; [done|].
    destruct (Z.eqb_spec set 0); [done|]. eapply wp_current; [done|].
    apply wp_bind, (wp_upd_thread _ _ th); [apply C|]. fold th1. fold k1.
    apply wp_bind, (wp_deref _ _ e); [done|]. apply wp_bind, wp_event_status; [done|].
    unfold recv_post. destruct (wanted set option (ev_set e)) eqn:Est.
    - apply wp_bind. unfold when. destruct (truthy (option &. RT_EVENT_FLAG_CLEAR)).
      + apply wp_modify, wp_bind, (wp_deref _ _ th1); [apply C1|]. apply wp_ret.
        split; [apply C1|]. split; [|split; [done|]].
        * apply (event_inv_keep k p e _ (set_ev_set (ev_set e &~ set) e) t); try done; [simpl; by rewrite lookup_insert_eq|by eexists].
        * eexists. simpl. by rewrite lookup_insert_eq.
      + apply wp_ret, wp_bind, (wp_deref _ _ th1); [apply C1|]. apply wp_ret.
        split; [apply C1|]. split; [|split; [done|by exists e]].
        eapply (event_inv_keep k); try done. exists 0. by rewrite Z.ldiff_0_r.
    - destruct (Z.eqb_spec timeout 0) as [->|Ht0].
      + apply wp_bind, (wp_upd_thread _ _ th1); [apply C1|].
        apply wp_bind, (wp_deref _ _ (set_error (- RT_ETIMEOUT) th1)).
        { simpl. by rewrite lookup_insert_eq. }
        apply wp_ret. split; [|split; [|done]].
        * exact (ca_ok _ _ _ (caller_update k1 t th1 (set_error (- RT_ETIMEOUT) th1) C1
            eq_refl eq_refl eq_refl eq_refl eq_refl eq_refl)).
        * eapply (event_inv_keep k); try done; [|exists 0; by rewrite Z.ldiff_0_r].
          intros x Hx. simpl. by rewrite !lookup_insert_ne.
      + apply wp_bind, (wp_upd_thread _ _ th1); [apply C1|].
        set (th2 := set_event_info option _). set (k2 := set_threads _ k1).
        assert (caller k2 t th2) as C2 by (by eapply caller_update).
        apply (wp_block k2 t th2); try done; [by eauto|]. intros k' O' B. apply wp_ret.
        destruct (blocked_thread _ _ _ _ _ _ _ B) as [Ht' Hx'].
        destruct (blocked_list _ _ _ _ _ _ _ B) as (l1 & l2 & El & El' & _).
        assert (events k' = events k) as Ev.
        { by destruct B as (? & ? & ? & ? & ? & ? & ? & ? & _ & _ & -> & _). }
        change (tl k2 (QSuspend p)) with (tl k (QSuspend p)) in El.
        split; [done|]. split.
        * exists e. rewrite Ev, El'. split_and!; try done. intros x xh Hin Hxh.
          destruct (decide (x = t)) as [->|Hx]; [rewrite Ht' in Hxh; by simplify_eq|].
          rewrite Hx' in Hxh by done. simpl in Hxh. rewrite !lookup_insert_ne in Hxh by done.
          apply (Hall x); [|done]. rewrite El. set_solver.
        * split_and!; try done; [rewrite El'; set_solver|]. by eexists. }
  apply wp_exists in H as (r & k' & E & ?). exists r, k'. done.
Qed.

(** ** Examples *)

(** An event at 28672 with flag 1 set; thread 4096 waits for flags 2 and 4. *)
Definition demo_event : kernel :=
  after (rt_event_create (Some 28672) [101; 0] RT_IPC_FLAG_FIFO;;
         rt_event_send 28672 1) demo.
Definition demo_event_wait : kernel :=
  after (rt_event_recv 28672 6 RT_EVENT_FLAG_AND 50) demo_event.

Lemma rt_event_recv_ok_witness :
  exists k', rt_event_recv 28672 6 RT_EVENT_FLAG_AND 50 demo_event = Some (None, k') /\
    4096 ∈ tl k' (QSuspend 28672).
Proof.
  destruct (rt_event_recv_ok demo_event 4096 (demo_th 4096) 28672 (Event 0 1) 6 RT_EVENT_FLAG_AND 50
    ltac:(ev_caller)
    ltac:(exists (Event 0 1); split; [ev|]; split; [by left|];
          intros t th H; apply list_elem_of_In in H; by vm_compute in H)
    ltac:(ev) ltac:(ev) ltac:(by left) ltac:(done)) as (r & k' & E & _ & _ & M).
  assert (wanted 6 RT_EVENT_FLAG_AND (ev_set (Event 0 1)) = false) as W by ev.
  rewrite W in M. destruct M as (-> & _ & Hin & _). exists k'. split; [exact E|exact Hin].
Defined.

Lemma rt_event_send_no_lost_wakeup_witness :
  exists k', rt_event_send 28672 6 demo_event_wait = Some (RT_EOK, k') /\ event_inv k' 28672 /\
    tl k' (QSuspend 28672) = [] /\ events k' !! 28672 = Some (Event 0 7).
Proof.
  destruct (rt_event_send_no_lost_wakeup Task demo_event_wait 28672 6 (Event 0 1)
    ltac:(apply kok_check_sound; ev)
    ltac:(exists (Event 0 1); split; [ev|]; split; [by left|];
          intros t th H Ht; apply list_elem_of_In in H; vm_compute in H;
          destruct H as [<-|[]]; vm_compute in Ht; injection Ht as <-; ev)
    ltac:(ev)) as (r & k' & E & _ & Hi & _ & H).
  destruct (H ltac:(done)) as [-> S]. clear H. exists k'. split; [exact E|]. split; [exact Hi|].
  replace (serve _ _) with (7, [(4096, 6)]) in S by ev. destruct S as (S1 & S2 & _).
  split; [|exact S1]. rewrite S2. ev.
Defined.

End Evt.
