(* ===== verification/MailBox.v ===== *)
(** * Mailboxes: src/ipc.c

    A bounded FIFO of 32-bit values in a circular array, with a list of
    waiting receivers and one of waiting senders. *)

From S2P Require Import Prelude Kernel Scheduler Object Timer Thread KernelOk ThreadSpec Ipc.

Module Mb.

(** ** Operations *)

Definition rt_mb_init (p : ptr) (name : list Z) (msgpool : list Z) (size flag : Z) : K Z :=
  rt_object_init (Obj p) RT_Object_Class_MailBox name;;
  rt_ipc_object_init p;;
  put_mailbox p (Mailbox flag msgpool (u16 size) 0 0 0);;
  tlist_init (QSender p);;
  mret RT_EOK.

Definition rt_mb_detach (p : ptr) : K Z :=
  rt_ipc_list_resume_all (QSuspend p);;
  rt_ipc_list_resume_all (QSender p);;
  rt_object_detach (Obj p);;
  mret RT_EOK.

(** [pool]: the memory that [rt_malloc] returned for the messages. *)
Definition rt_mb_create (mem : option ptr) (pool : option (list Z)) (name : list Z)
    (size flag : Z) : K (option ptr) :=
  RT_DEBUG_NOT_IN_INTERRUPT;;
  mb ← rt_object_allocate mem RT_Object_Class_MailBox name;
  match mb with
  | None => mret None
  | Some p =>
      rt_ipc_object_init p;;
      match pool with
      | None => rt_object_delete (Obj p);; mret None
      | Some msg_pool =>
          put_mailbox p (Mailbox flag msg_pool (u16 size) 0 0 0);;
          tlist_init (QSender p);;
          mret (Some p)
      end
  end.

Definition rt_mb_delete (p : ptr) : K Z :=
  RT_DEBUG_NOT_IN_INTERRUPT;;
  rt_ipc_list_resume_all (QSuspend p);;
  rt_ipc_list_resume_all (QSender p);;
  rt_object_delete (Obj p);;
  mret RT_EOK.

(** Storing a message, and the end of [rt_mb_send_wait]. *)
Definition mb_store (p : ptr) (value : Z) : K Z :=
  mb ← deref mailboxes p;
  pool ← lift (memcpy_at (mb_msg_pool mb) (in_offset mb) [value]);
  let in_off := u16 (in_offset mb + 1) in
  let in_off := if in_off >=? mb_size mb then 0 else in_off in
  put_mailbox p (Mailbox (mb_flag mb) pool (mb_size mb) (u16 (mb_entry mb + 1))
    in_off (out_offset mb));;
  empty ← tlist_isempty (QSuspend p);
  if negb empty then
    rt_ipc_list_resume (QSuspend p);;
    rt_schedule;;
    mret RT_EOK
  else mret RT_EOK.

(** From the [while] on; [thread] is the local variable. *)
Definition rt_mb_send_loop (p : ptr) (thread : option ptr) (value timeout : Z) :
    K (waiting Z) :=
  mb ← deref mailboxes p;
  if mb_entry mb =? mb_size mb then
    t ← lift thread;
    upd_thread t (set_error RT_EOK);;
    if timeout =? 0 then mret (Returns (- RT_EFULL))
    else
      RT_DEBUG_IN_THREAD_CONTEXT;;
      rt_ipc_list_suspend (QSender p) t (mb_flag mb);;
      tick_delta ← gets (fun k => if timeout >? 0 then rt_tick k else 0);
      when (timeout >? 0) (
        rt_timer_control (TimerOf t) RT_TIMER_CTRL_SET_TIME timeout;;
        rt_timer_start (TimerOf t);;
        mret tt);;
      rt_schedule;;
      mret (Waits timeout tick_delta)
  else
    r ← mb_store p value; mret (Returns r).

Definition rt_mb_send_wait (p : ptr) (value timeout : Z) : K (waiting Z) :=
  thread ← rt_thread_self;
  mb ← deref mailboxes p;
  if (mb_entry mb =? mb_size mb) && (timeout =? 0) then mret (Returns (- RT_EFULL))
  else rt_mb_send_loop p thread value timeout.

Definition rt_mb_send_resume (p t : ptr) (value timeout tick_delta : Z) : K (waiting Z) :=
  th ← deref threads t;
  if negb (error th =? RT_EOK) then mret (Returns (error th))
  else
    now ← gets rt_tick;
    rt_mb_send_loop p (Some t) value (timeout_left timeout now tick_delta).

Definition rt_mb_send (p : ptr) (value : Z) : K (waiting Z) := rt_mb_send_wait p value 0.

(** Fetching a message, and the end of [rt_mb_recv]. *)
Definition mb_fetch (p : ptr) : K (Z * option Z) :=
  mb ← deref mailboxes p;
  value ← lift (zlookup (mb_msg_pool mb) (out_offset mb));
  let out_off := u16 (out_offset mb + 1) in
  let out_off := if out_off >=? mb_size mb then 0 else out_off in
  put_mailbox p (Mailbox (mb_flag mb) (mb_msg_pool mb) (mb_size mb) (u16 (mb_entry mb - 1))
    (in_offset mb) out_off);;
  empty ← tlist_isempty (QSender p);
  if negb empty then
    rt_ipc_list_resume (QSender p);;
    rt_schedule;;
    mret (RT_EOK, Some value)
  else mret (RT_EOK, Some value).

Definition rt_mb_recv_loop (p : ptr) (thread : option ptr) (timeout : Z) :
    K (waiting (Z * option Z)) :=
  mb ← deref mailboxes p;
  if mb_entry mb =? 0 then
    t ← lift thread;
    upd_thread t (set_error RT_EOK);;
    if timeout =? 0 then
      upd_thread t (set_error (- RT_ETIMEOUT));;
      mret (Returns (- RT_ETIMEOUT, None))
    else
      RT_DEBUG_IN_THREAD_CONTEXT;;
      rt_ipc_list_suspend (QSuspend p) t (mb_flag mb);;
      tick_delta ← gets (fun k => if timeout >? 0 then rt_tick k else 0);
      when (timeout >? 0) (
        rt_timer_control (TimerOf t) RT_TIMER_CTRL_SET_TIME timeout;;
        rt_timer_start (TimerOf t);;
        mret tt);;
      rt_schedule;;
      mret (Waits timeout tick_delta)
  else
    r ← mb_fetch p; mret (Returns r).

Definition rt_mb_recv (p : ptr) (timeout : Z) : K (waiting (Z * option Z)) :=
  thread ← rt_thread_self;
  mb ← deref mailboxes p;
  if (mb_entry mb =? 0) && (timeout =? 0) then mret (Returns (- RT_ETIMEOUT, None))
  else rt_mb_recv_loop p thread timeout.

Definition rt_mb_recv_resume (p t : ptr) (timeout tick_delta : Z) : K (waiting (Z * option Z)) :=
  th ← deref threads t;
  if negb (error th =? RT_EOK) then mret (Returns (error th, None))
  else
    now ← gets rt_tick;
    rt_mb_recv_loop p (Some t) (timeout_left timeout now tick_delta).

Definition rt_mb_control (p : ptr) (cmd arg : Z) : K Z :=
  if cmd =? RT_IPC_CMD_RESET then
    rt_ipc_list_resume_all (QSuspend p);;
    rt_ipc_list_resume_all (QSender p);;
    mb ← deref mailboxes p;
    put_mailbox p (Mailbox (mb_flag mb) (mb_msg_pool mb) (mb_size mb) 0 0 0);;
    rt_schedule;;
    mret RT_EOK
  else mret (- RT_ERROR).

(** ** The circular array *)

Record mb_ok (mb : rt_mailbox) : Prop := {
  mb_size_range : 0 < mb_size mb < 65536;
  mb_pool_length : Z.of_nat (length (mb_msg_pool mb)) = mb_size mb;
  mb_entry_range : 0 <= mb_entry mb <= mb_size mb;
  mb_out_range : 0 <= out_offset mb < mb_size mb;
  mb_in : in_offset mb = (out_offset mb + mb_entry mb) mod mb_size mb;
}.

(** The messages, oldest first. *)
Definition messages (mb : rt_mailbox) : list Z :=
  (fun i => default 0 (zlookup (mb_msg_pool mb) ((out_offset mb + i) mod mb_size mb)))
    <$> seqZ 0 (mb_entry mb).

Definition stored (mb : rt_mailbox) (pool : list Z) : rt_mailbox :=
  let in_off := u16 (in_offset mb + 1) in
  Mailbox (mb_flag mb) pool (mb_size mb) (u16 (mb_entry mb + 1))
    (if in_off >=? mb_size mb then 0 else in_off) (out_offset mb).

Definition fetched (mb : rt_mailbox) : rt_mailbox :=
  let out_off := u16 (out_offset mb + 1) in
  Mailbox (mb_flag mb) (mb_msg_pool mb) (mb_size mb) (u16 (mb_entry mb - 1))
    (in_offset mb) (if out_off >=? mb_size mb then 0 else out_off).

Lemma next_offset o s :
  0 <= o < s -> s < 65536 ->
  (if u16 (o + 1) >=? s then 0 else u16 (o + 1)) = (o + 1) mod s.
Proof.
  intros Ho Hs. rewrite wrap_small by (unfold in_u; lia).
  rewrite Z.geb_leb. destruct (Z.leb_spec s (o + 1)).
  - replace (o + 1) with s by lia. by rewrite Z.mod_same by lia.
  - by rewrite Z.mod_small by lia.
Qed.

Lemma mb_in_range mb : mb_ok mb -> 0 <= in_offset mb < mb_size mb.
Proof. intros M. rewrite (mb_in _ M). apply Z.mod_pos_bound. apply M. Qed.

Lemma mod_diff_ne a i j s : 0 <= i < s -> 0 <= j < s -> (a + i) mod s = (a + j) mod s -> i = j.
Proof.
  intros Hi Hj E. assert ((i - j) mod s = 0) as E0.
  { replace (i - j) with ((a + i) - (a + j)) by lia. rewrite Zminus_mod, E, Z.sub_diag.
    apply Z.mod_0_l. lia. }
  apply Z.mod_divide in E0 as [q Hq]; [|lia]. destruct (Z.lt_trichotomy q 0) as [?|[->|?]]; nia.
Qed.

Lemma stored_ok mb value :
  mb_ok mb -> mb_entry mb < mb_size mb ->
  exists pool, memcpy_at (mb_msg_pool mb) (in_offset mb) [value] = Some pool /\
    mb_ok (stored mb pool) /\ messages (stored mb pool) = messages mb ++ [value].
Proof.
  intros M He. pose proof (mb_in_range mb M) as Hin. destruct M as [Hs Hp Hen Ho Hi].
  assert (memcpy_at (mb_msg_pool mb) (in_offset mb) [value] =
    Some (list_inserts (Z.to_nat (in_offset mb)) [value] (mb_msg_pool mb))) as Em.
  { apply memcpy_at_Some; simpl; lia. }
  set (pool := list_inserts _ _ _) in *. exists pool. split; [done|].
  assert (u16 (mb_entry mb + 1) = mb_entry mb + 1) as Ee.
  { apply wrap_small. unfold in_u. lia. }
  split.
  - split; unfold stored; cbn [mb_size mb_msg_pool mb_entry out_offset in_offset]; try lia.
    + rewrite (memcpy_at_length _ _ _ _ Em). lia.
    + rewrite next_offset, Ee by lia. rewrite Hi, Zplus_mod_idemp_l. f_equal. lia.
  - unfold messages, stored. cbn [mb_size mb_msg_pool mb_entry out_offset]. rewrite Ee.
    rewrite seqZ_app, fmap_app by lia. f_equal.
    + apply list_fmap_ext. intros n i Hn. apply lookup_seqZ in Hn as [-> Hn].
      rewrite (memcpy_at_lookup _ _ _ _ _ Em).
      destruct (_ && _) eqn:Eb; [|done]. apply andb_true_iff in Eb as [E1 E2]. simpl in E2.
      exfalso. assert (0 + Z.of_nat n = mb_entry mb); [|lia].
      apply (mod_diff_ne (out_offset mb) _ _ (mb_size mb)); [lia..|]. rewrite <-Hi.
      apply Z.leb_le in E1. apply Z.ltb_lt in E2. lia.
    + rewrite seqZ_cons, seqZ_nil by lia. simpl. f_equal.
      rewrite (memcpy_at_lookup _ _ _ _ _ Em), Z.add_0_l, <-Hi.
      replace (_ && _) with true by (symmetry; apply andb_true_iff; split; [apply Z.leb_le|apply Z.ltb_lt]; simpl; lia).
      by rewrite Z.sub_diag.
Qed.

Lemma fetched_ok mb :
  mb_ok mb -> 0 < mb_entry mb ->
  exists v, zlookup (mb_msg_pool mb) (out_offset mb) = Some v /\
    mb_ok (fetched mb) /\ messages mb = v :: messages (fetched mb).
Proof.
  intros M He. destruct M as [Hs Hp Hen Ho Hi].
  destruct (zlookup_is_Some (mb_msg_pool mb) (out_offset mb)) as [v Hv]; [lia|].
  exists v. split; [done|].
  assert (u16 (mb_entry mb - 1) = mb_entry mb - 1) as Ee.
  { apply wrap_small. unfold in_u. lia. }
  split.
  - split; unfold fetched; cbn [mb_size mb_msg_pool mb_entry out_offset in_offset]; try lia.
    + rewrite next_offset by lia. apply Z.mod_pos_bound. lia.
    + rewrite next_offset, Ee by lia. rewrite Hi, Zplus_mod_idemp_l. f_equal. lia.
  - unfold messages, fetched. cbn [mb_size mb_msg_pool mb_entry out_offset].
    rewrite Ee, next_offset by lia.
    rewrite seqZ_cons by lia. simpl. f_equal.
    + rewrite Z.add_0_r, Z.mod_small, Hv by lia. done.
    + change (Z.succ 0) with (1 + 0).
      rewrite <-(fmap_add_seqZ 1 0 (Z.pred (mb_entry mb))), <-list_fmap_compose.
      replace (Z.pred (mb_entry mb)) with (mb_entry mb - 1) by lia.
      apply list_fmap_ext. intros n i _. simpl. do 2 f_equal.
      rewrite Zplus_mod_idemp_l. f_equal. lia.
Qed.

(** ** The calls *)

Definition mb_inv (k : kernel) (p : ptr) (mb : rt_mailbox) : Prop :=
  mailboxes k !! p = Some mb /\
  (mb_flag mb = RT_IPC_FLAG_FIFO \/ mb_flag mb = RT_IPC_FLAG_PRIO) /\ mb_ok mb.

Lemma wp_mb_store m k p mb value (Q : Z -> kernel -> Prop) :
  kernel_ok m k -> mb_inv k p mb -> mb_entry mb < mb_size mb ->
  (forall k' mb', kernel_ok m k' -> mb_inv k' p mb' ->
     messages mb' = messages mb ++ [value] -> woken_first (QSuspend p) k k' -> Q RT_EOK k') ->
  wp (mb_store p value) Q k.
Proof.
  intros O (Em & Hfl & M) He HQ. destruct (stored_ok mb value M He) as (pool & Ep & M' & Emsg).
  unfold mb_store. apply wp_bind, (wp_deref _ _ mb); [done|].
  apply wp_bind, (wp_lift _ pool); [done|]. apply wp_bind, wp_modify.
  apply (wp_wake_first m); [exact O|by eauto|]. intros k' O' W _ _ _ Emb _ _.
  apply (HQ k' (stored mb pool)); try done.
  split; [rewrite Emb; simpl; by rewrite lookup_insert_eq|]. done.
Qed.

Lemma wp_mb_fetch m k p mb (Q : Z * option Z -> kernel -> Prop) :
  kernel_ok m k -> mb_inv k p mb -> 0 < mb_entry mb ->
  (forall k' mb' v, kernel_ok m k' -> mb_inv k' p mb' ->
     messages mb = v :: messages mb' -> woken_first (QSender p) k k' -> Q (RT_EOK, Some v) k') ->
  wp (mb_fetch p) Q k.
Proof.
  intros O (Em & Hfl & M) He HQ. destruct (fetched_ok mb M He) as (v & Ev & M' & Emsg).
  unfold mb_fetch. apply wp_bind, (wp_deref _ _ mb); [done|].
  apply wp_bind, (wp_lift _ v); [done|]. apply wp_bind, wp_modify.
  apply (wp_wake_first m); [exact O|by eauto|]. intros k' O' W _ _ _ Emb _ _.
  apply (HQ k' (fetched mb) v); try done.
  split; [rewrite Emb; simpl; by rewrite lookup_insert_eq|]. done.
Qed.

Lemma messages_length mb : mb_ok mb -> Z.of_nat (length (messages mb)) = mb_entry mb.
Proof. intros M. unfold messages. rewrite length_fmap, length_seqZ. destruct M. lia. Qed.

(** [rt_mb_send], from a thread or an interrupt, appends the value to the queue of
    messages and wakes the first waiting receiver; when the mailbox is full it returns
    -RT_EFULL and changes nothing.  The queue never exceeds the size of the mailbox. *)
Theorem rt_mb_send_refines m k p mb value :
  kernel_ok m k -> mb_inv k p mb ->
  exists r k' mb', rt_mb_send p value k = Some (Returns r, k') /\ kernel_ok m k' /\
    mb_inv k' p mb' /\ Z.of_nat (length (messages mb')) <= mb_size mb' /\
    (Z.of_nat (length (messages mb)) = mb_size mb -> r = - RT_EFULL /\ k' = k) /\
    (Z.of_nat (length (messages mb)) < mb_size mb -> r = RT_EOK /\
       messages mb' = messages mb ++ [value] /\ woken_first (QSuspend p) k k').
Proof.
  intros O I. pose proof I as (Em & Hfl & M). rewrite (messages_length mb M).
  assert (wp (rt_mb_send p value) (fun w k' => exists r mb', w = Returns r /\ kernel_ok m k' /\
    mb_inv k' p mb' /\ Z.of_nat (length (messages mb')) <= mb_size mb' /\
    (mb_entry mb = mb_size mb -> r = - RT_EFULL /\ k' = k) /\
    (mb_entry mb < mb_size mb -> r = RT_EOK /\
       messages mb' = messages mb ++ [value] /\ woken_first (QSuspend p) k k')) k) as H.
  { unfold rt_mb_send, rt_mb_send_wait, rt_thread_self. apply wp_bind, wp_gets, wp_bind.
    apply (wp_deref _ _ mb); [done|]. destruct (Z.eqb_spec (mb_entry mb) (mb_size mb)) as [Ef|Ef].
    - apply wp_ret. exists (- RT_EFULL), mb. rewrite messages_length by done.
      split_and!; try done; lia.
    - unfold rt_mb_send_loop. apply wp_bind, (wp_deref _ _ mb); [done|].
      destruct (Z.eqb_spec (mb_entry mb) (mb_size mb)); [done|]. apply wp_bind.
      pose proof (mb_entry_range mb M). apply (wp_mb_store m k p mb); [done|done|lia|].
      intros k' mb' O' I' Emsg W. apply wp_ret. exists RT_EOK, mb'.
      pose proof I' as (_ & _ & M'). rewrite messages_length by done.
      pose proof (mb_entry_range mb' M'). split_and!; try done; lia. }
  apply wp_exists in H as (w & k' & E & r & mb' & -> & ?). exists r, k', mb'. done.
Qed.

(** [rt_mb_recv] returns the oldest message and removes it, waking the first waiting
    sender; on an empty mailbox it returns -RT_ETIMEOUT unchanged when the caller does
    not wait, and otherwise the caller waits on the receivers' list with the tick of the
    beginning of the wait remembered. *)
Theorem rt_mb_recv_refines k t th p mb timeout :
  caller k t th -> mb_inv k p mb -> time_ok timeout ->
  exists w k', rt_mb_recv p timeout k = Some (w, k') /\ kernel_ok Task k' /\
    match messages mb with
    | v :: rest => w = Returns (RT_EOK, Some v) /\ woken_first (QSender p) k k' /\
        exists mb', mb_inv k' p mb' /\ messages mb' = rest
    | [] => mb_inv k' p mb /\
        if timeout =? 0 then w = Returns (- RT_ETIMEOUT, None) /\ k' = k
        else w = Waits timeout (if timeout >? 0 then rt_tick k else 0) /\
          blocked_state (set_threads (<[t := set_error RT_EOK th]> (threads k)) k) t
            (set_error RT_EOK th) (QSuspend p) (mb_flag mb) timeout k'
    end.
Proof.
  intros C I Htime. pose proof I as (Em & Hfl & M). pose proof (messages_length mb M) as Hlen.
  assert (wp (rt_mb_recv p timeout) (fun w k' => kernel_ok Task k' /\
    match messages mb with
    | v :: rest => w = Returns (RT_EOK, Some v) /\ woken_first (QSender p) k k' /\
        exists mb', mb_inv k' p mb' /\ messages mb' = rest
    | [] => mb_inv k' p mb /\
        if timeout =? 0 then w = Returns (- RT_ETIMEOUT, None) /\ k' = k
        else w = Waits timeout (if timeout >? 0 then rt_tick k else 0) /\
          blocked_state (set_threads (<[t := set_error RT_EOK th]> (threads k)) k) t
            (set_error RT_EOK th) (QSuspend p) (mb_flag mb) timeout k'
    end) k) as H.
  { unfold rt_mb_recv, rt_thread_self. apply wp_bind, wp_gets, wp_bind.
    rewrite (ca_current _ _ _ C). apply (wp_deref _ _ mb); [done|].
    destruct (Z.eqb_spec (mb_entry mb) 0) as [E0|E0].
    2:{ unfold rt_mb_recv_loop. apply wp_bind, (wp_deref _ _ mb); [done|].
        destruct (Z.eqb_spec (mb_entry mb) 0); [done|]. pose proof (mb_entry_range mb M).
        apply wp_bind, (wp_mb_fetch Task k p mb); [apply C|done|lia|].
        intros k' mb' v O' I' Em' W. apply wp_ret. rewrite Em'. split_and!; try done. by exists mb'. }
    destruct (messages mb) as [|v rest]; [|simpl in Hlen; lia].
    destruct (Z.eqb_spec timeout 0) as [->|Ht0].
    { apply wp_ret. split; [apply C|]. done. }
    unfold rt_mb_recv_loop. apply wp_bind, (wp_deref _ _ mb); [done|].
    rewrite (proj2 (Z.eqb_eq _ _) E0). apply wp_bind, (wp_lift _ t); [done|].
    apply wp_bind, (wp_upd_thread _ _ th); [apply C|].
    rewrite (proj2 (Z.eqb_neq _ _) Ht0).
    set (th1 := set_error RT_EOK th). set (k1 := set_threads _ k).
    assert (caller k1 t th1) as C1 by (by eapply caller_update).
    eapply wp_thread_context; [done|].
    apply (wp_block_tick k1 t th1); try done; [by eauto| |].
    { intros k' Ek. by rewrite Ek. }
    intros k' O' B. apply wp_ret. split; [done|]. split; [|done].
    split; [|done]. by destruct B as (? & ? & ? & ? & ? & ? & ? & ? & _ & _ & -> & _). }
  apply wp_exists in H as (w & k' & E & ?). exists w, k'. done.
Qed.

(** ** Waiting senders, and examples *)

(** [rt_mb_send_wait] on a full mailbox makes the calling thread wait on the senders'
    list and leaves the messages alone; when the thread goes on and its error code says
    that it was woken by a receiver, it tries again with the time it has left. *)
Theorem rt_mb_send_wait_full k t th p mb value timeout :
  caller k t th -> mb_inv k p mb -> time_ok timeout ->
  mb_entry mb = mb_size mb -> timeout <> 0 ->
  exists k', rt_mb_send_wait p value timeout k =
      Some (Waits timeout (if timeout >? 0 then rt_tick k else 0), k') /\
    kernel_ok Task k' /\ mb_inv k' p mb /\ t ∈ tl k' (QSender p) /\
    (forall k2 th2 d, threads k2 !! t = Some th2 ->
       rt_mb_send_resume p t value timeout d k2 =
         if error th2 =? RT_EOK
         then rt_mb_send_loop p (Some t) value (timeout_left timeout (rt_tick k2) d) k2
         else Some (Returns (error th2), k2)).
Proof.
  intros C I Htime Ef Ht0. pose proof I as (Em & Hfl & M).
  assert (wp (rt_mb_send_wait p value timeout) (fun w k' =>
    w = Waits timeout (if timeout >? 0 then rt_tick k else 0) /\
    kernel_ok Task k' /\ mb_inv k' p mb /\ t ∈ tl k' (QSender p)) k) as H.
  { unfold rt_mb_send_wait, rt_thread_self. apply wp_bind, wp_gets, wp_bind.
    rewrite (ca_current _ _ _ C). apply (wp_deref _ _ mb); [done|].
    rewrite (proj2 (Z.eqb_neq _ _) Ht0), andb_false_r.
    unfold rt_mb_send_loop. apply wp_bind, (wp_deref _ _ mb); [done|].
    rewrite (proj2 (Z.eqb_eq _ _) Ef), (proj2 (Z.eqb_neq _ _) Ht0).
    apply wp_bind, (wp_lift _ t); [done|]. apply wp_bind, (wp_upd_thread _ _ th); [apply C|].
    set (th1 := set_error RT_EOK th). set (k1 := set_threads _ k).
    assert (caller k1 t th1) as C1 by (by eapply caller_update).
    eapply wp_thread_context; [done|].
    apply (wp_block_tick k1 t th1); try done; [by eauto| |].
    { intros k' Ek. by rewrite Ek. }
    intros k' O' B. apply wp_ret. split_and!; try done.
    - by destruct B as (? & ? & ? & ? & ? & ? & ? & ? & _ & _ & -> & _).
    - destruct (blocked_list _ _ _ _ _ _ _ B) as (l1 & l2 & _ & -> & _). set_solver. }
  apply wp_exists in H as (w & k' & E & -> & ? & ? & ?). exists k'. split_and!; try done.
  intros k2 th2 d Ht2. unfold rt_mb_send_resume, deref, mbind, K_bind. rewrite Ht2.
  by destruct (error th2 =? RT_EOK).
Qed.

(** A mailbox for two messages at 28672, holding the value 7. *)
Definition demo_mb : kernel :=
  after (rt_mb_create (Some 28672) (Some [0; 0]) [109; 0] 2 RT_IPC_FLAG_FIFO;;
         rt_mb_send 28672 7) demo.
Definition demo_mb_box : rt_mailbox := Mailbox RT_IPC_FLAG_FIFO [7; 0] 2 1 1 0.
Definition demo_mb_full : kernel := after (rt_mb_send 28672 8) demo_mb.
Definition demo_mb_full_box : rt_mailbox := Mailbox RT_IPC_FLAG_FIFO [7; 8] 2 2 0 0.

Lemma demo_mb_inv : mb_inv demo_mb 28672 demo_mb_box.
Proof. split; [ev|]. split; [by left|]. by split. Qed.
Lemma demo_mb_full_inv : mb_inv demo_mb_full 28672 demo_mb_full_box.
Proof. split; [ev|]. split; [by left|]. by split. Qed.

Lemma rt_mb_send_refines_witness :
  exists k' mb', rt_mb_send 28672 8 demo_mb = Some (Returns RT_EOK, k') /\
    mb_inv k' 28672 mb' /\ messages mb' = [7; 8].
Proof.
  destruct (rt_mb_send_refines Task demo_mb 28672 demo_mb_box 8
    ltac:(apply kok_check_sound; ev) demo_mb_inv) as (r & k' & mb' & E & _ & I & _ & _ & H).
  destruct (H ltac:(vm_compute; reflexivity)) as (-> & Emsg & _).
  exists k', mb'. split; [exact E|]. split; [exact I|exact Emsg].
Defined.

Lemma rt_mb_recv_refines_witness :
  exists k', rt_mb_recv 28672 0 demo_mb = Some (Returns (RT_EOK, Some 7), k').
Proof.
  destruct (rt_mb_recv_refines demo_mb 4096 (demo_th 4096) 28672 demo_mb_box 0
    ltac:(ev_caller) demo_mb_inv ltac:(ev)) as (w & k' & E & _ & -> & _).
  exists k'. exact E.
Defined.

Lemma rt_mb_send_wait_full_witness :
  exists k', rt_mb_send_wait 28672 9 5 demo_mb_full = Some (Waits 5 0, k') /\
    4096 ∈ tl k' (QSender 28672).
Proof.
  destruct (rt_mb_send_wait_full demo_mb_full 4096 (demo_th 4096) 28672 demo_mb_full_box 9 5
    ltac:(ev_caller) demo_mb_full_inv ltac:(ev) ltac:(ev) ltac:(done)) as (k' & E & _ & _ & Hin & _).
  exists k'. split; [exact E|exact Hin].
Defined.

End Mb.
