(* ===== verification/MessageQueue.v ===== *)
(** * Message queues: src/ipc.c

    A pool of fixed-size messages, linked into a queue and a free list through
    the header in front of each message.  Sending and receiving enter two
    critical sections each and copy the data in between, with interrupts
    enabled: the message is then on neither list.  The phases are separate
    definitions, so that their interleavings can be considered. *)

From S2P Require Import Prelude Kernel Scheduler Object Timer Thread KernelOk ThreadSpec Ipc.

Module Mq.

Definition sizeof_mq_message : Z := 4.

(** ** The phases *)

(** Taking a message off the free list; [None] inside: the queue is full. *)
Definition mq_alloc (mq : rt_messagequeue) : option (option Z * rt_messagequeue) :=
  match msg_queue_free mq with
  | None => Some (None, mq)
  | Some msg =>
      next ← msg_next mq !! msg;
      Some (Some msg, set_msg_queue_free next mq)
  end.

(** [rt_memcpy(msg + 1, buffer, size)] *)
Definition mq_copy_in (msg : Z) (buffer : list Z) (mq : rt_messagequeue) :
    option rt_messagequeue :=
  data ← msg_data mq !! msg;
  data' ← memcpy_at data 0 buffer;
  Some (set_msg_data (<[msg := data']> (msg_data mq)) mq).

(** [msg->next = next] *)
Definition mq_set_next (msg : Z) (next : option Z) (mq : rt_messagequeue) :
    option rt_messagequeue :=
  _ ← msg_next mq !! msg;
  Some (set_msg_next (<[msg := next]> (msg_next mq)) mq).

(** Linking at the tail. *)
Definition mq_link (msg : Z) (mq : rt_messagequeue) : option rt_messagequeue :=
  mq ← match msg_queue_tail mq with
       | Some tail => mq_set_next tail (Some msg) mq
       | None => Some mq
       end;
  let mq := set_msg_queue_tail (Some msg) mq in
  let mq := match msg_queue_head mq with
            | None => set_msg_queue_head (Some msg) mq
            | Some _ => mq
            end in
  Some (set_mq_entry (u16 (mq_entry mq + 1)) mq).

(** Linking at the head. *)
Definition mq_link_urgent (msg : Z) (mq : rt_messagequeue) : option rt_messagequeue :=
  mq ← mq_set_next msg (msg_queue_head mq) mq;
  let mq := set_msg_queue_head (Some msg) mq in
  let mq := match msg_queue_tail mq with
            | None => set_msg_queue_tail (Some msg) mq
            | Some _ => mq
            end in
  Some (set_mq_entry (u16 (mq_entry mq + 1)) mq).

(** Taking the first message off the queue. *)
Definition mq_unlink (mq : rt_messagequeue) : option (Z * rt_messagequeue) :=
  msg ← msg_queue_head mq;
  next ← msg_next mq !! msg;
  let mq := set_msg_queue_head next mq in
  let mq := if decide (msg_queue_tail mq = Some msg) then set_msg_queue_tail None mq else mq in
  Some (msg, set_mq_entry (u16 (mq_entry mq - 1)) mq).

Definition mq_copy_out (msg size : Z) (mq : rt_messagequeue) : option (list Z) :=
  data ← msg_data mq !! msg;
  memread data 0 (if size >? msg_size mq then msg_size mq else size).

(** Putting a message on the free list. *)
Definition mq_release (msg : Z) (mq : rt_messagequeue) : option rt_messagequeue :=
  mq ← mq_set_next msg (msg_queue_free mq) mq;
  Some (set_msg_queue_free (Some msg) mq).

(** The loop that builds the free list of [n] messages from [temp] on. *)
Fixpoint mq_free_loop (pool step : Z) (n : nat) (temp : Z) (mq : rt_messagequeue) :
    rt_messagequeue :=
  match n with
  | O => mq
  | S n =>
      let head := pool + temp * step in
      let mq := set_msg_next (<[head := msg_queue_free mq]> (msg_next mq)) mq in
      mq_free_loop pool step n (temp + 1) (set_msg_queue_free (Some head) mq)
  end.

(** The bytes of the messages are what the memory held. *)
Definition mq_pool_init (flag pool msg_size max_msgs : Z) (memory : gmap Z (list Z)) :
    rt_messagequeue :=
  mq_free_loop pool (msg_size + sizeof_mq_message) (Z.to_nat max_msgs) 0
    (Messagequeue flag msg_size max_msgs 0 None None None ∅ memory).

(** ** Operations *)

Definition rt_mq_init (p : ptr) (name : list Z) (msgpool : Z) (memory : gmap Z (list Z))
    (msg_size pool_size flag : Z) : K Z :=
  rt_object_init (Obj p) RT_Object_Class_MessageQueue name;;
  rt_ipc_object_init p;;
  let msg_size := u16 (RT_ALIGN msg_size RT_ALIGN_SIZE) in
  put_mq p (mq_pool_init flag msgpool msg_size
    (u16 (pool_size / (msg_size + sizeof_mq_message))) memory);;
  mret RT_EOK.

Definition rt_mq_detach (p : ptr) : K Z :=
  rt_ipc_list_resume_all (QSuspend p);;
  rt_object_detach (Obj p);;
  mret RT_EOK.

Definition rt_mq_delete (p : ptr) : K Z :=
  RT_DEBUG_NOT_IN_INTERRUPT;;
  rt_ipc_list_resume_all (QSuspend p);;
  rt_object_delete (Obj p);;
  mret RT_EOK.

Definition rt_mq_create (mem pool : option ptr) (memory : gmap Z (list Z)) (name : list Z)
    (msg_size max_msgs flag : Z) : K (option ptr) :=
  RT_DEBUG_NOT_IN_INTERRUPT;;
  mq ← rt_object_allocate mem RT_Object_Class_MessageQueue name;
  match mq with
  | None => mret None
  | Some p =>
      rt_ipc_object_init p;;
      let msg_size := u16 (RT_ALIGN msg_size RT_ALIGN_SIZE) in
      match pool with
      | None => rt_mq_delete p;; mret None
      | Some msg_pool =>
          put_mq p (mq_pool_init flag msg_pool msg_size (u16 max_msgs) memory);;
          mret (Some p)
      end
  end.

(** Applying a phase to the queue at [p]. *)
Definition on_mq (p : ptr) (f : rt_messagequeue -> option rt_messagequeue) : K unit :=
  mq ← deref mqs p; mq' ← lift (f mq); put_mq p mq'.

Definition mq_wake (p : ptr) : K Z :=
  empty ← tlist_isempty (QSuspend p);
  if negb empty then
    rt_ipc_list_resume (QSuspend p);;
    rt_schedule;;
    mret RT_EOK
  else mret RT_EOK.

(** [size] is the length of [buffer]. *)
Definition rt_mq_send (p : ptr) (buffer : list Z) : K Z :=
  let size := Z.of_nat (length buffer) in
  RT_ASSERT (negb (size =? 0));;
  mq ← deref mqs p;
  if size >? msg_size mq then mret (- RT_ERROR)
  else
    a ← lift (mq_alloc mq);
    match a with
    | (None, _) => mret (- RT_EFULL)
    | (Some msg, mq) =>
        put_mq p mq;;
        on_mq p (mq_set_next msg None);;
        on_mq p (mq_copy_in msg buffer);;
        on_mq p (mq_link msg);;
        mq_wake p
    end.

Definition rt_mq_urgent (p : ptr) (buffer : list Z) : K Z :=
  let size := Z.of_nat (length buffer) in
  RT_ASSERT (negb (size =? 0));;
  mq ← deref mqs p;
  if size >? msg_size mq then mret (- RT_ERROR)
  else
    a ← lift (mq_alloc mq);
    match a with
    | (None, _) => mret (- RT_EFULL)
    | (Some msg, mq) =>
        put_mq p mq;;
        on_mq p (mq_copy_in msg buffer);;
        on_mq p (mq_link_urgent msg);;
        mq_wake p
    end.

Definition mq_fetch (p : ptr) (size : Z) : K (Z * option (list Z)) :=
  mq ← deref mqs p;
  a ← lift (mq_unlink mq);
  let '(msg, mq) := a in
  put_mq p mq;;
  buffer ← lift (mq_copy_out msg size mq);
  on_mq p (mq_release msg);;
  mret (RT_EOK, Some buffer).

Definition rt_mq_recv_loop (p : ptr) (thread : option ptr) (size timeout : Z) :
    K (waiting (Z * option (list Z))) :=
  mq ← deref mqs p;
  if mq_entry mq =? 0 then
    RT_DEBUG_IN_THREAD_CONTEXT;;
    t ← lift thread;
    upd_thread t (set_error RT_EOK);;
    if timeout =? 0 then
      upd_thread t (set_error (- RT_ETIMEOUT));;
      mret (Returns (- RT_ETIMEOUT, None))
    else
      rt_ipc_list_suspend (QSuspend p) t (mq_flag mq);;
      tick_delta ← gets (fun k => if timeout >? 0 then rt_tick k else 0);
      when (timeout >? 0) (
        rt_timer_control (TimerOf t) RT_TIMER_CTRL_SET_TIME timeout;;
        rt_timer_start (TimerOf t);;
        mret tt);;
      rt_schedule;;
      mret (Waits timeout tick_delta)
  else
    r ← mq_fetch p size; mret (Returns r).

Definition rt_mq_recv (p : ptr) (size timeout : Z) : K (waiting (Z * option (list Z))) :=
  RT_ASSERT (negb (size =? 0));;
  thread ← rt_thread_self;
  mq ← deref mqs p;
  if (mq_entry mq =? 0) && (timeout =? 0) then mret (Returns (- RT_ETIMEOUT, None))
  else rt_mq_recv_loop p thread size timeout.

Definition rt_mq_recv_resume (p t : ptr) (size timeout tick_delta : Z) :
    K (waiting (Z * option (list Z))) :=
  th ← deref threads t;
  if negb (error th =? RT_EOK) then mret (Returns (error th, None))
  else
    now ← gets rt_tick;
    rt_mq_recv_loop p (Some t) size (timeout_left timeout now tick_delta).

(** The loop of the reset; every round takes a message off the queue. *)
Fixpoint mq_reset_loop (fuel : nat) (mq : rt_messagequeue) : option rt_messagequeue :=
  match fuel with
  | O => None
  | S fuel =>
      match msg_queue_head mq with
      | None => Some mq
      | Some msg =>
          next ← msg_next mq !! msg;
          let mq := set_msg_queue_head next mq in
          let mq := if decide (msg_queue_tail mq = Some msg)
                    then set_msg_queue_tail None mq else mq in
          mq ← mq_release msg mq;
          mq_reset_loop fuel mq
      end
  end.

Definition rt_mq_control (p : ptr) (cmd arg : Z) : K Z :=
  if cmd =? RT_IPC_CMD_RESET then
    rt_ipc_list_resume_all (QSuspend p);;
    on_mq p (fun mq =>
      mq ← mq_reset_loop (S (Z.to_nat (mq_entry mq))) mq;
      Some (set_mq_entry 0 mq));;
    rt_schedule;;
    mret RT_EOK
  else mret (- RT_ERROR).

(** ** Invariant

    [F] the free messages, [Q] the queued ones in order, [I] those in flight:
    taken off one list and not yet on the other. *)
Record mq_ok (mq : rt_messagequeue) (F Q I : list Z) : Prop := {
  mo_free : chain (msg_next mq) (msg_queue_free mq) F;
  mo_queue : chain (msg_next mq) (msg_queue_head mq) Q;
  mo_tail : msg_queue_tail mq = last Q;
  mo_nodup : NoDup (F ++ Q ++ I);
  mo_next m : m ∈ F ++ Q ++ I -> is_Some (msg_next mq !! m);
  mo_data m : m ∈ F ++ Q ++ I -> exists d, msg_data mq !! m = Some d /\
    Z.of_nat (length d) = msg_size mq;
  mo_entry : mq_entry mq = Z.of_nat (length Q);
  mo_count : Z.of_nat (length (F ++ Q ++ I)) = max_msgs mq;
  mo_max : max_msgs mq < 65536;
  mo_size : 0 <= msg_size mq < 65536;
}.

Definition data_of (mq : rt_messagequeue) (m : Z) : list Z := default [] (msg_data mq !! m).

(** The queued messages' bytes, oldest first. *)
Definition contents (mq : rt_messagequeue) (Q : list Z) : list (list Z) := data_of mq <$> Q.

(** ** The phases keep the invariant *)

Lemma alloc_ok mq F Q I :
  mq_ok mq F Q I ->
  match F with
  | [] => mq_alloc mq = Some (None, mq)
  | m :: F' => exists mq', mq_alloc mq = Some (Some m, mq') /\ mq_ok mq' F' Q (m :: I) /\
      msg_data mq' = msg_data mq /\ msg_size mq' = msg_size mq /\ mq_flag mq' = mq_flag mq /\
      msg_next mq' = msg_next mq
  end.
Proof.
  intros M. pose proof (chain_head _ _ _ (mo_free _ _ _ _ M)) as Ef. unfold mq_alloc.
  rewrite Ef. destruct F as [|m F]; [done|]. simpl.
  pose proof (mo_free _ _ _ _ M) as (_ & n & Hn & HF). rewrite Hn. simpl. eexists.
  split; [done|]. split; [|done]. destruct M as [M1 M2 M3 M4 M5 M6 M7 M8 M9 M10].
  assert (F ++ Q ++ m :: I ≡ₚ (m :: F) ++ Q ++ I) as Hp.
  { simpl. rewrite !Permutation_middle. by rewrite <-!Permutation_middle. }
  split; simpl; try done.
  - by rewrite Hp.
  - intros x. rewrite Hp. apply M5.
  - intros x. rewrite Hp. apply M6.
  - by rewrite Hp.
Qed.

Lemma in_flight_split mq F Q I m : mq_ok mq F Q (m :: I) -> m ∉ F /\ m ∉ Q /\ m ∉ I.
Proof.
  intros M. pose proof (mo_nodup _ _ _ _ M) as Hn.
  assert (NoDup (m :: F ++ Q ++ I)) as Hn'.
  { eapply NoDup_Permutation_proper; [|exact Hn]. by rewrite !Permutation_middle. }
  apply NoDup_cons in Hn' as [Hnot _]. set_solver.
Qed.

Lemma set_next_ok mq F Q I m n :
  mq_ok mq F Q (m :: I) -> exists mq', mq_set_next m n mq = Some mq' /\ mq_ok mq' F Q (m :: I) /\
    msg_next mq' = <[m := n]> (msg_next mq) /\ msg_data mq' = msg_data mq /\
    msg_queue_free mq' = msg_queue_free mq /\ msg_queue_head mq' = msg_queue_head mq /\
    msg_size mq' = msg_size mq /\ mq_flag mq' = mq_flag mq.
Proof.
  intros M. destruct (in_flight_split _ _ _ _ _ M) as (HF & HQ & HI).
  destruct (mo_next _ _ _ _ M m) as [n0 Hn0]; [set_solver|].
  unfold mq_set_next. rewrite Hn0. simpl. eexists. split; [done|]. split; [|done].
  destruct M as [M1 M2 M3 M4 M5 M6 M7 M8 M9 M10]. split; simpl; try done.
  - by apply chain_frame.
  - by apply chain_frame.
  - intros x Hx. destruct (decide (m = x)) as [->|];
      [by rewrite lookup_insert_eq|rewrite lookup_insert_ne by done; auto].
Qed.

Lemma copy_in_ok mq F Q I m buffer :
  mq_ok mq F Q (m :: I) -> Z.of_nat (length buffer) <= msg_size mq ->
  exists mq', mq_copy_in m buffer mq = Some mq' /\ mq_ok mq' F Q (m :: I) /\
    data_of mq' m = buffer ++ drop (length buffer) (data_of mq m) /\
    (forall x, x <> m -> data_of mq' x = data_of mq x) /\
    msg_next mq' = msg_next mq /\ msg_size mq' = msg_size mq /\ mq_flag mq' = mq_flag mq.
Proof.
  intros M Hb. destruct (mo_data _ _ _ _ M m) as (d & Hd & Hl); [set_solver|].
  unfold mq_copy_in. rewrite Hd. simpl. rewrite memcpy_at_Some by lia. simpl.
  eexists. split; [done|]. split; [|split; [|split]]; try done.
  - destruct M as [M1 M2 M3 M4 M5 M6 M7 M8 M9 M10]. split; simpl; try done.
    intros x Hx. destruct (decide (m = x)) as [->|];
      [|rewrite lookup_insert_ne by done; auto].
    rewrite lookup_insert_eq. eexists. split; [done|]. by rewrite length_inserts.
  - unfold data_of. simpl. rewrite lookup_insert_eq, Hd. simpl.
    apply list_eq. intros i. destruct (decide (i < length buffer)%nat) as [Hi|Hi].
    + rewrite list_lookup_inserts, lookup_app_l by lia. f_equal. lia.
    + rewrite list_lookup_inserts_ge, lookup_app_r, lookup_drop by lia. f_equal. lia.
  - intros x Hx. unfold data_of. simpl. by rewrite lookup_insert_ne.
Qed.

Lemma perm_snoc {A} (F Q I : list A) m : F ++ (Q ++ [m]) ++ I ≡ₚ F ++ Q ++ m :: I.
Proof. rewrite <-(assoc_L (++)). done. Qed.

Lemma link_ok mq F Q I m :
  mq_ok mq F Q (m :: I) -> msg_next mq !! m = Some None ->
  exists mq', mq_link m mq = Some mq' /\ mq_ok mq' F (Q ++ [m]) I /\
    msg_data mq' = msg_data mq /\ mq_flag mq' = mq_flag mq /\ msg_size mq' = msg_size mq /\
    (forall x, x ∉ Q -> msg_next mq' !! x = msg_next mq !! x).
Proof.
  intros M Hm. destruct (in_flight_split _ _ _ _ _ M) as (HF & HQ & HI).
  pose proof (mo_count _ _ _ _ M) as Hc. rewrite !length_app in Hc. simpl in Hc.
  destruct M as [M1 M2 M3 M4 M5 M6 M7 M8 M9 M10].
  assert (u16 (mq_entry mq + 1) = Z.of_nat (length (Q ++ [m]))) as He.
  { rewrite wrap_small by (unfold in_u; lia). rewrite length_app. simpl. lia. }
  assert (forall nx, (forall x, is_Some (msg_next mq !! x) -> is_Some (nx !! x)) ->
    chain nx (msg_queue_free mq) F -> chain nx (Some (default m (msg_queue_head mq))) (Q ++ [m]) ->
    mq_ok (set_mq_entry (u16 (mq_entry mq + 1)) (set_msg_queue_head (Some (default m (msg_queue_head mq)))
      (set_msg_queue_tail (Some m) (set_msg_next nx mq)))) F (Q ++ [m]) I) as Hmk.
  { intros nx Hnx HcF HcQ. split; simpl; try done.
    - by rewrite last_snoc.
    - by rewrite perm_snoc.
    - intros x. rewrite perm_snoc. intros Hx. by apply Hnx, M5.
    - intros x. rewrite perm_snoc. by apply M6.
    - by rewrite perm_snoc. }
  unfold mq_link. rewrite M3. destruct (last Q) as [x|] eqn:El.
  - apply last_Some in El as [Q' ->].
    destruct (M5 x) as [nx Hx]; [set_solver|]. unfold mq_set_next. rewrite Hx. simpl.
    pose proof (chain_head _ _ _ M2) as Eh.
    destruct (msg_queue_head mq) as [h|] eqn:Eh'; [|by destruct Q'].
    eexists. split; [done|]. split.
    2:{ split_and!; try done. intros y Hy. simpl. rewrite lookup_insert_ne; [done|set_solver]. }
    pose proof (Hmk (<[x := Some m]> (msg_next mq))) as Hk. simpl in Hk.
    assert (NoDup (Q' ++ [x])) as HnQ.
    { apply NoDup_app in M4 as (_ & _ & M4). by apply NoDup_app in M4 as (M4 & _). }
    destruct mq as [? ? ? ? hd ? ? ? ?]; simpl in *. subst hd. apply Hk.
    + intros y Hy. destruct (decide (x = y)) as [->|];
        [by rewrite lookup_insert_eq|by rewrite lookup_insert_ne].
    + apply chain_frame; [|done]. intros Hin. apply NoDup_app in M4 as (_ & M4 & _).
      apply (M4 x Hin). set_solver.
    + by apply chain_snoc.
  - apply last_None in El as ->. simpl in M2. simpl. rewrite M2. simpl. eexists. split; [done|].
    split; [|done]. pose proof (Hmk (msg_next mq)) as Hk. destruct mq as [? ? ? ? hd ? ? ? ?]; simpl in *.
    subst hd. apply Hk; [done..|]. split; [done|]. by exists None.
Qed.

Lemma link_urgent_ok mq F Q I m :
  mq_ok mq F Q (m :: I) ->
  exists mq', mq_link_urgent m mq = Some mq' /\ mq_ok mq' F (m :: Q) I /\
    msg_data mq' = msg_data mq /\ mq_flag mq' = mq_flag mq /\ msg_size mq' = msg_size mq /\
    (forall x, x <> m -> msg_next mq' !! x = msg_next mq !! x).
Proof.
  intros M. destruct (in_flight_split _ _ _ _ _ M) as (HF & HQ & HI).
  unfold mq_link_urgent.
  destruct (set_next_ok mq F Q I m (msg_queue_head mq) M)
    as (mq1 & E1 & M' & En & Ed & Ef & Eh & Es & Efl).
  rewrite E1. simpl.
  assert (F ++ (m :: Q) ++ I ≡ₚ F ++ Q ++ m :: I) as Hp.
  { simpl. by rewrite !Permutation_middle. }
  destruct M' as [M1 M2 M3 M4 M5 M6 M7 M8 M9 M10].
  assert (u16 (mq_entry mq1 + 1) = Z.of_nat (length (m :: Q))) as He.
  { pose proof M8 as Hc. rewrite !length_app in Hc. simpl in Hc.
    rewrite wrap_small by (unfold in_u; lia). simpl. lia. }
  assert (chain (msg_next mq1) (Some m) (m :: Q)) as HcQ.
  { split; [done|]. exists (msg_queue_head mq). rewrite En, lookup_insert_eq.
    split; [done|]. rewrite <-En, <-Eh. done. }
  eexists. split; [done|]. split.
  2:{ assert (forall x, x <> m -> msg_next mq1 !! x = msg_next mq !! x) as Hx.
      { intros x Hx. rewrite En. by rewrite lookup_insert_ne. }
      by destruct (msg_queue_tail mq1). }
  split; destruct (msg_queue_tail mq1) eqn:Et; simpl; try done.
  - rewrite Et. destruct Q; [done|]. simpl in M3. by rewrite M3.
  - destruct Q; [done|]. exfalso. by apply eq_sym, last_None in M3.
  - by rewrite Hp.
  - by rewrite Hp.
  - intros x. rewrite Hp. apply M5.
  - intros x. rewrite Hp. apply M5.
  - intros x. rewrite Hp. apply M6.
  - intros x. rewrite Hp. apply M6.
  - by rewrite Hp.
  - by rewrite Hp.
Qed.

Lemma mq_unlink_ok mq F Q I m :
  mq_ok mq F (m :: Q) I ->
  exists mq', mq_unlink mq = Some (m, mq') /\ mq_ok mq' F Q (m :: I) /\
    msg_data mq' = msg_data mq /\ msg_size mq' = msg_size mq /\ mq_flag mq' = mq_flag mq /\
    msg_next mq' = msg_next mq.
Proof.
  intros M. assert (F ++ Q ++ m :: I ≡ₚ F ++ (m :: Q) ++ I) as Hp.
  { simpl. by rewrite !Permutation_middle. }
  destruct M as [M1 M2 M3 M4 M5 M6 M7 M8 M9 M10].
  destruct M2 as (Eh & n & Hn & HcQ). unfold mq_unlink. rewrite Eh. simpl. rewrite Hn. simpl.
  assert (m ∉ Q) as HmQ.
  { apply NoDup_app in M4 as (_ & _ & M4). apply NoDup_app in M4 as (M4 & _).
    by apply NoDup_cons in M4 as [? _]. }
  assert (u16 (mq_entry mq - 1) = Z.of_nat (length Q)) as He.
  { rewrite M7. simpl length. pose proof M8 as Hc. rewrite !length_app in Hc. simpl in Hc.
    rewrite wrap_small by (unfold in_u; lia). lia. }
  eexists. split; [done|]. split; [|by case_decide].
  assert ((if decide (msg_queue_tail mq = Some m) then None else msg_queue_tail mq) = last Q) as Et.
  { rewrite M3. destruct Q as [|y Q].
    - simpl. by rewrite decide_True.
    - simpl. case_decide as E; [|done]. exfalso. apply HmQ.
      change (last (y :: Q) = Some m) in E. by apply last_Some_elem_of. }
  split; case_decide; simpl in *; try done; try (by rewrite Hp);
    intros x; rewrite Hp; auto.
Qed.

Lemma release_ok mq F Q I m :
  mq_ok mq F Q (m :: I) ->
  exists mq', mq_release m mq = Some mq' /\ mq_ok mq' (m :: F) Q I /\
    msg_data mq' = msg_data mq /\ mq_flag mq' = mq_flag mq /\ msg_size mq' = msg_size mq /\
    (forall x, x <> m -> msg_next mq' !! x = msg_next mq !! x).
Proof.
  intros M. destruct (in_flight_split _ _ _ _ _ M) as (HF & HQ & HI). unfold mq_release.
  destruct (set_next_ok mq F Q I m (msg_queue_free mq) M)
    as (mq1 & E1 & M' & En & Ed & Ef & Eh & Es & Efl).
  rewrite E1. simpl. eexists. split; [done|]. split.
  2:{ split_and!; try done. intros x Hx. simpl. rewrite En. by rewrite lookup_insert_ne. }
  assert ((m :: F) ++ Q ++ I ≡ₚ F ++ Q ++ m :: I) as Hp.
  { simpl. by rewrite !Permutation_middle. }
  destruct M' as [M1 M2 M3 M4 M5 M6 M7 M8 M9 M10].
  split; cbn [msg_next msg_queue_free msg_queue_head msg_queue_tail msg_data mq_entry max_msgs
    msg_size set_msg_queue_free]; try done; try (by rewrite Hp).
  - split; [done|]. exists (msg_queue_free mq). rewrite En, lookup_insert_eq.
    split; [done|]. rewrite <-En, <-Ef. done.
  - intros x. rewrite Hp. apply M5.
  - intros x. rewrite Hp. apply M6.
Qed.

(** ** Interleaved senders and receivers

    Between the two critical sections of a call other calls may run: [flight]
    lists the messages that calls in progress have in their hands. *)

Inductive flight :=
  | Allocated (urgent : bool) (buf : list Z)
  | Filled (urgent : bool) (buf : list Z)
  | Taken.

Definition fill (urgent : bool) (m : Z) (buf : list Z) (mq : rt_messagequeue) :
    option rt_messagequeue :=
  mq ← (if urgent then Some mq else mq_set_next m None mq);
  mq_copy_in m buf mq.

Definition link (urgent : bool) (m : Z) (mq : rt_messagequeue) : option rt_messagequeue :=
  if urgent then mq_link_urgent m mq else mq_link m mq.

Abbreviation mq_state := (rt_messagequeue * list (Z * flight))%type.

Inductive mq_step : mq_state -> mq_state -> Prop :=
  | step_alloc mq fl urgent buf m mq' :
      Z.of_nat (length buf) <= msg_size mq -> mq_alloc mq = Some (Some m, mq') ->
      mq_step (mq, fl) (mq', (m, Allocated urgent buf) :: fl)
  | step_fill mq fl1 fl2 urgent buf m mq' :
      fill urgent m buf mq = Some mq' ->
      mq_step (mq, fl1 ++ (m, Allocated urgent buf) :: fl2)
              (mq', fl1 ++ (m, Filled urgent buf) :: fl2)
  | step_link mq fl1 fl2 urgent buf m mq' :
      link urgent m mq = Some mq' ->
      mq_step (mq, fl1 ++ (m, Filled urgent buf) :: fl2) (mq', fl1 ++ fl2)
  | step_unlink mq fl m mq' :
      mq_entry mq <> 0 -> mq_unlink mq = Some (m, mq') ->
      mq_step (mq, fl) (mq', (m, Taken) :: fl)
  | step_release mq fl1 fl2 m mq' :
      mq_release m mq = Some mq' ->
      mq_step (mq, fl1 ++ (m, Taken) :: fl2) (mq', fl1 ++ fl2).

Definition flight_ok (mq : rt_messagequeue) (x : Z * flight) : Prop :=
  match x.2 with
  | Allocated _ buf => Z.of_nat (length buf) <= msg_size mq
  | Filled urgent buf => buf `prefix_of` data_of mq x.1 /\
      (urgent = false -> msg_next mq !! x.1 = Some None)
  | Taken => True
  end.

Definition mq_state_ok (s : mq_state) (Q : list Z) : Prop :=
  (exists F, mq_ok s.1 F Q s.2.*1) /\ Forall (flight_ok s.1) s.2.

Lemma mq_ok_flight mq F Q I I' : I ≡ₚ I' -> mq_ok mq F Q I -> mq_ok mq F Q I'.
Proof.
  intros Hp [M1 M2 M3 M4 M5 M6 M7 M8 M9 M10]. split; try done.
  - by rewrite <-Hp.
  - intros m. rewrite <-Hp. apply M5.
  - intros m. rewrite <-Hp. apply M6.
  - by rewrite <-Hp.
Qed.

Lemma flight_ok_frame mq mq' fl :
  Forall (flight_ok mq) fl -> msg_size mq' = msg_size mq ->
  (forall x, x ∈ fl.*1 -> data_of mq' x = data_of mq x) ->
  (forall x, x ∈ fl.*1 -> msg_next mq' !! x = msg_next mq !! x) ->
  Forall (flight_ok mq') fl.
Proof.
  rewrite !Forall_forall. intros H Es Hd Hn x Hx. specialize (H x Hx).
  assert (x.1 ∈ fl.*1) as Hin by (by apply list_elem_of_fmap_2).
  unfold flight_ok in *. destruct (x.2); [by rewrite Es| |done].
  rewrite Hd, Hn by done. done.
Qed.

Lemma data_of_eq mq mq' x : msg_data mq' = msg_data mq -> data_of mq' x = data_of mq x.
Proof. unfold data_of. by intros ->. Qed.

Lemma fill_ok mq F Q I urgent m buf :
  mq_ok mq F Q (m :: I) -> Z.of_nat (length buf) <= msg_size mq ->
  exists mq', fill urgent m buf mq = Some mq' /\ mq_ok mq' F Q (m :: I) /\
    flight_ok mq' (m, Filled urgent buf) /\ msg_size mq' = msg_size mq /\
    mq_flag mq' = mq_flag mq /\
    data_of mq' m = buf ++ drop (length buf) (data_of mq m) /\
    (forall x, x <> m -> data_of mq' x = data_of mq x /\ msg_next mq' !! x = msg_next mq !! x).
Proof.
  intros M Hb. unfold fill, flight_ok. destruct urgent; simpl.
  - destruct (copy_in_ok mq F Q I m buf M Hb) as (mq' & -> & M' & Ed & Ex & En & Es & Efl).
    exists mq'. split_and!; try done; [rewrite Ed; by eexists|].
    intros x Hx. rewrite En. auto.
  - destruct (set_next_ok mq F Q I m None M) as (mq1 & -> & M1 & En1 & Ed1 & _ & _ & Es1 & Ef1). simpl.
    destruct (copy_in_ok mq1 F Q I m buf M1) as (mq' & -> & M' & Ed & Ex & En & Es & Efl); [lia|].
    assert (forall x, data_of mq1 x = data_of mq x) as E1 by (intros x; by apply data_of_eq).
    exists mq'. rewrite Ed, En, En1, lookup_insert_eq, E1. split_and!; try done; try congruence.
    + by eexists.
    + intros x Hx. rewrite Ex, E1, lookup_insert_ne by done. done.
Qed.

Lemma link_any_ok mq F Q I urgent m buf :
  mq_ok mq F Q (m :: I) -> flight_ok mq (m, Filled urgent buf) ->
  exists mq', link urgent m mq = Some mq' /\
    mq_ok mq' F (if urgent then m :: Q else Q ++ [m]) I /\
    msg_data mq' = msg_data mq /\ mq_flag mq' = mq_flag mq /\ msg_size mq' = msg_size mq /\
    (forall x, x <> m -> x ∉ Q -> msg_next mq' !! x = msg_next mq !! x).
Proof.
  intros M [_ Hn]. destruct urgent; simpl.
  - destruct (link_urgent_ok mq F Q I m M) as (mq' & ? & ? & ? & ? & ? & Hx). exists mq'.
    split_and!; try done. intros x Hne _. by apply Hx.
  - destruct (link_ok mq F Q I m M (Hn eq_refl)) as (mq' & ? & ? & ? & ? & ? & Hx). exists mq'.
    split_and!; try done. intros x _ Hx'. by apply Hx.
Qed.

Lemma flight_fst (fl1 fl2 : list (Z * flight)) m f :
  (fl1 ++ (m, f) :: fl2).*1 ≡ₚ m :: (fl1 ++ fl2).*1.
Proof. rewrite !fmap_app, fmap_cons. simpl. by rewrite Permutation_middle. Qed.

(** A call in progress picked out of the others. *)
Lemma state_pick mq fl1 fl2 m f F Q :
  mq_ok mq F Q (fl1 ++ (m, f) :: fl2).*1 -> Forall (flight_ok mq) (fl1 ++ (m, f) :: fl2) ->
  mq_ok mq F Q (m :: (fl1 ++ fl2).*1) /\ flight_ok mq (m, f) /\
  Forall (flight_ok mq) (fl1 ++ fl2) /\ m ∉ (fl1 ++ fl2).*1.
Proof.
  intros M Hfl. assert (mq_ok mq F Q (m :: (fl1 ++ fl2).*1)) as M0.
  { by eapply mq_ok_flight; [apply flight_fst|]. }
  rewrite Forall_app, Forall_cons in Hfl. destruct Hfl as (H1 & Hb & H2).
  split_and!; try done; [by apply Forall_app|]. apply (in_flight_split _ _ _ _ _ M0).
Qed.

Lemma pres_alloc mq fl urgent buf m mq' Q :
  mq_state_ok (mq, fl) Q -> Z.of_nat (length buf) <= msg_size mq ->
  mq_alloc mq = Some (Some m, mq') -> mq_state_ok (mq', (m, Allocated urgent buf) :: fl) Q.
Proof.
  intros [[F M] Hfl] Hb Ha. simpl in *. pose proof (alloc_ok mq F Q _ M) as HA.
  destruct F as [|m' F]; [by rewrite HA in Ha|].
  destruct HA as (mq1 & Ea & M1 & Ed & Es & _ & En). rewrite Ea in Ha. injection Ha as <- <-.
  split; [by exists F|]. constructor; [unfold flight_ok; simpl; by rewrite Es|].
  eapply (flight_ok_frame mq mq1 fl); try done.
  - intros x _. by apply data_of_eq.
  - intros x _. by rewrite En.
Qed.

Lemma pres_fill mq fl1 fl2 urgent buf m mq' Q :
  mq_state_ok (mq, fl1 ++ (m, Allocated urgent buf) :: fl2) Q ->
  fill urgent m buf mq = Some mq' ->
  mq_state_ok (mq', fl1 ++ (m, Filled urgent buf) :: fl2) Q.
Proof.
  intros [[F M] Hfl] Hf. simpl in *.
  destruct (state_pick _ _ _ _ _ _ _ M Hfl) as (M0 & Hb & H12 & Hnot).
  destruct (fill_ok mq F Q _ urgent m buf M0 Hb) as (mq1 & E1 & M1 & Hm & Es & _ & _ & Hx).
  rewrite E1 in Hf. injection Hf as <-. split.
  - exists F. by eapply mq_ok_flight; [symmetry; apply flight_fst|].
  - assert (Forall (flight_ok mq1) (fl1 ++ fl2)) as [? ?]%Forall_app.
    { eapply (flight_ok_frame mq mq1); try done; intros x Hin; apply Hx; by intros ->. }
    apply Forall_app. split; [done|]. by constructor.
Qed.

Lemma pres_link mq fl1 fl2 urgent buf m mq' Q :
  mq_state_ok (mq, fl1 ++ (m, Filled urgent buf) :: fl2) Q ->
  link urgent m mq = Some mq' ->
  mq_state_ok (mq', fl1 ++ fl2) (if urgent then m :: Q else Q ++ [m]) /\
  buf `prefix_of` data_of mq' m.
Proof.
  intros [[F M] Hfl] Hl. simpl in *.
  destruct (state_pick _ _ _ _ _ _ _ M Hfl) as (M0 & Hb & H12 & Hnot).
  destruct (link_any_ok mq F Q _ urgent m buf M0 Hb) as (mq1 & E1 & M1 & Ed & _ & Es & Hx).
  rewrite E1 in Hl. injection Hl as <-. split; [|by rewrite (data_of_eq mq mq1 m Ed); apply Hb].
  split; [by exists F|]. eapply (flight_ok_frame mq mq1); try done.
  - intros x _. by apply data_of_eq.
  - intros x Hin. apply Hx; [by intros ->|]. intros HxQ.
    pose proof (mo_nodup _ _ _ _ M0) as Hn. apply NoDup_app in Hn as (_ & _ & Hn).
    apply NoDup_app in Hn as (_ & Hn & _). apply (Hn x HxQ). by right.
Qed.

Lemma pres_unlink mq fl m mq' Q :
  mq_state_ok (mq, fl) Q -> mq_entry mq <> 0 -> mq_unlink mq = Some (m, mq') ->
  exists Q', Q = m :: Q' /\ mq_state_ok (mq', (m, Taken) :: fl) Q'.
Proof.
  intros [[F M] Hfl] He Hu. simpl in *.
  destruct Q as [|m' Q]; [by rewrite (mo_entry _ _ _ _ M) in He|].
  destruct (mq_unlink_ok mq F Q _ m' M) as (mq1 & E1 & M1 & Ed & Es & _ & En).
  rewrite E1 in Hu. injection Hu as <- <-. exists Q. split; [done|].
  split; [by exists F|]. constructor; [done|].
  eapply (flight_ok_frame mq mq1 fl); try done.
  - intros x _. by apply data_of_eq.
  - intros x _. by rewrite En.
Qed.

Lemma pres_release mq fl1 fl2 m mq' Q :
  mq_state_ok (mq, fl1 ++ (m, Taken) :: fl2) Q -> mq_release m mq = Some mq' ->
  mq_state_ok (mq', fl1 ++ fl2) Q.
Proof.
  intros [[F M] Hfl] Hr. simpl in *.
  destruct (state_pick _ _ _ _ _ _ _ M Hfl) as (M0 & _ & H12 & Hnot).
  destruct (release_ok mq F Q _ m M0) as (mq1 & E1 & M1 & Ed & _ & Es & Hx).
  rewrite E1 in Hr. injection Hr as <-. split; [by exists (m :: F)|].
  eapply (flight_ok_frame mq mq1); try done.
  - intros x _. by apply data_of_eq.
  - intros x Hin. apply Hx. by intros ->.
Qed.

(** In a consistent state every phase that is due can be executed. *)
Lemma mq_progress s Q m f :
  mq_state_ok s Q -> (m, f) ∈ s.2 ->
  match f with
  | Allocated urgent buf => is_Some (fill urgent m buf s.1)
  | Filled urgent _ => is_Some (link urgent m s.1)
  | Taken => is_Some (mq_release m s.1)
  end.
Proof.
  intros [[F M] Hfl] (fl1 & fl2 & E)%list_elem_of_split. rewrite E in M, Hfl.
  destruct (state_pick _ _ _ _ _ _ _ M Hfl) as (M0 & Hm & _ & _).
  destruct f as [u buf|u buf|].
  - destruct (fill_ok _ _ _ _ u m buf M0 Hm) as (? & -> & _). eauto.
  - destruct (link_any_ok _ _ _ _ u m buf M0 Hm) as (? & -> & _). eauto.
  - destruct (release_ok _ _ _ _ m M0) as (? & -> & _). eauto.
Qed.

(** C35. The message queue is safe under interleaving: any interleaving of the phases of
    senders (normal and urgent) and receivers keeps each message of the pool on exactly
    one of the free list, the queue and a call's hands, with the queue's links, tail and
    count in agreement; a message that is linked carries the bytes of its sender and goes
    to the end of the queue (or the front, when urgent); and every phase that is
    due can be executed. *)
Theorem mq_interleaving_safe s s' Q :
  mq_state_ok s Q -> mq_step s s' ->
  exists Q', mq_state_ok s' Q' /\
    (Q' = Q \/ (exists m, Q = m :: Q') \/
     exists m urgent buf, (m, Filled urgent buf) ∈ s.2 /\ buf `prefix_of` data_of s'.1 m /\
       Q' = if urgent then m :: Q else Q ++ [m]) /\
    (forall m f, (m, f) ∈ s'.2 ->
       match f with
       | Allocated urgent buf => is_Some (fill urgent m buf s'.1)
       | Filled urgent _ => is_Some (link urgent m s'.1)
       | Taken => is_Some (mq_release m s'.1)
       end).
Proof.
  intros H Hs.
  enough (exists Q', mq_state_ok s' Q' /\
    (Q' = Q \/ (exists m, Q = m :: Q') \/
     exists m urgent buf, (m, Filled urgent buf) ∈ s.2 /\ buf `prefix_of` data_of s'.1 m /\
       Q' = if urgent then m :: Q else Q ++ [m])) as (Q' & H' & Hc).
  { exists Q'. split; [exact H'|]. split; [exact Hc|].
    intros m f. by apply (mq_progress s' Q' m f). }
  destruct Hs as [mq fl urgent buf m mq' Hb Ha|mq fl1 fl2 urgent buf m mq' Hf|
    mq fl1 fl2 urgent buf m mq' Hl|mq fl m mq' He Hu|mq fl1 fl2 m mq' Hr].
  - exists Q. split; [by eapply pres_alloc|by left].
  - exists Q. split; [by eapply pres_fill|by left].
  - destruct (pres_link _ _ _ _ _ _ _ _ H Hl) as [H' Hp].
    eexists. split; [exact H'|]. right. right. exists m, urgent, buf.
    split_and!; try done. set_solver.
  - destruct (pres_unlink _ _ _ _ _ H He Hu) as (Q' & -> & H').
    exists Q'. split; [done|]. right. left. by exists m.
  - exists Q. split; [by eapply pres_release|by left].
Qed.

(** ** Initialisation *)

Lemma free_loop_ok pool step n : forall temp mq F,
  0 < step -> chain (msg_next mq) (msg_queue_free mq) F ->
  (forall m, m ∈ F -> m < pool + temp * step) -> NoDup F ->
  (forall m, m ∈ F -> is_Some (msg_next mq !! m)) ->
  let mq' := mq_free_loop pool step n temp mq in
  exists F', chain (msg_next mq') (msg_queue_free mq') F' /\ NoDup F' /\
    (forall m, m ∈ F' -> is_Some (msg_next mq' !! m)) /\
    (forall m, m ∈ F' -> m ∈ F \/ exists i, temp <= i < temp + Z.of_nat n /\ m = pool + i * step) /\
    length F' = (length F + n)%nat /\
    msg_queue_head mq' = msg_queue_head mq /\ msg_queue_tail mq' = msg_queue_tail mq /\
    mq_entry mq' = mq_entry mq /\ max_msgs mq' = max_msgs mq /\ msg_size mq' = msg_size mq /\
    msg_data mq' = msg_data mq /\ mq_flag mq' = mq_flag mq.
Proof.
  induction n as [|n IH]; intros temp mq F Hst Hc Hlt Hnd Hex; simpl.
  { exists F. split_and!; try done; try lia. intros m Hm. by left. }
  set (h := pool + temp * step).
  assert (h ∉ F) as Hh by (intros Hin; apply Hlt in Hin; subst h; lia).
  set (mq1 := set_msg_queue_free _ _).
  destruct (IH (temp + 1) mq1 (h :: F) Hst) as (F' & C' & N' & E' & I' & L' & Hrest).
  - simpl. by apply chain_cons.
  - intros m [->|Hm]%elem_of_cons; [subst h; lia|]. apply Hlt in Hm. lia.
  - by constructor.
  - intros m [->|Hm]%elem_of_cons; simpl; [by rewrite lookup_insert_eq|].
    rewrite lookup_insert_ne by (intros ->; done). by apply Hex.
  - exists F'. split_and!; try done; try apply Hrest.
    + intros m Hm. destruct (I' m Hm) as [[->|?]%elem_of_cons|(i & ? & ->)].
      * right. exists temp. split; [lia|done].
      * by left.
      * right. exists i. split; [lia|done].
    + rewrite L'. simpl. lia.
Qed.

(** A freshly initialised message queue is consistent and empty: all its messages are
    on the free list, pairwise distinct and inside the pool, which holds them all. *)
Theorem mq_pool_init_ok flag pool size max memory :
  0 <= size < 65536 -> 0 <= max < 65536 ->
  (forall i, 0 <= i < max -> exists d, memory !! (pool + i * (size + sizeof_mq_message)) = Some d /\
     Z.of_nat (length d) = size) ->
  exists F, mq_ok (mq_pool_init flag pool size max memory) F [] [] /\
    forall m, m ∈ F -> pool <= m /\
      m + sizeof_mq_message + size <= pool + max * (size + sizeof_mq_message).
Proof.
  intros Hs Hm Hmem. unfold mq_pool_init, sizeof_mq_message in *. set (step := size + 4).
  set (mq0 := Messagequeue _ _ _ _ _ _ _ _ _).
  destruct (free_loop_ok pool step (Z.to_nat max) 0 mq0 []) as
    (F & C & N & E & I & L & E1 & E2 & E3 & E4 & E5 & E6 & _);
    [subst step; lia|done|set_solver|constructor|set_solver|].
  assert (forall m, m ∈ F -> exists i, 0 <= i < max /\ m = pool + i * step) as HF.
  { intros m [[]%elem_of_nil|(i & ? & ->)]%I. exists i. split; [lia|done]. }
  exists F. split.
  - split; try (rewrite ?E1, ?E2; done); rewrite ?app_nil_r; try done.
    + intros m Hin. rewrite E6, E5. destruct (HF m Hin) as (i & Hi & ->). by apply Hmem.
    + rewrite L, E4. simpl. lia.
    + rewrite E4. simpl. lia.
    + rewrite E5. done.
  - intros m Hin. destruct (HF m Hin) as (i & Hi & ->). subst step. nia.
Qed.

(** ** The calls *)

Definition mq_inv (k : kernel) (p : ptr) (mq : rt_messagequeue) (F Q I : list Z) : Prop :=
  mqs k !! p = Some mq /\
  (mq_flag mq = RT_IPC_FLAG_FIFO \/ mq_flag mq = RT_IPC_FLAG_PRIO) /\ mq_ok mq F Q I.

Lemma wp_on_mq p f k mq mq' (Q : unit -> kernel -> Prop) :
  mqs k !! p = Some mq -> f mq = Some mq' ->
  Q tt (set_mqs (<[p := mq']> (mqs k)) k) -> wp (on_mq p f) Q k.
Proof.
  intros Em Ef HQ. unfold on_mq. apply wp_bind, (wp_deref _ _ mq); [done|].
  by apply wp_bind, (wp_lift _ mq').
Qed.

(** The queue [l] with [x] at its end, or at its front when urgent. *)
Definition enqueue {A} (urgent : bool) (x : A) (l : list A) : list A :=
  if urgent then x :: l else l ++ [x].

(** The message [x] went from the free list to the queue, with the bytes. *)
Definition sent (urgent : bool) (k : kernel) (p : ptr) (mq : rt_messagequeue) (x : Z)
    (F Q I : list Z) (buf : list Z) (k' : kernel) : Prop :=
  exists mq', mq_inv k' p mq' F (enqueue urgent x Q) I /\
    contents mq' (enqueue urgent x Q) =
      enqueue urgent (buf ++ drop (length buf) (data_of mq x)) (contents mq Q) /\
    woken_first (QSuspend p) k k'.

Lemma contents_notin mq mq' Q x :
  x ∉ Q -> (forall y, y <> x -> data_of mq' y = data_of mq y) -> contents mq' Q = contents mq Q.
Proof.
  intros Hx Hd. apply list_fmap_ext. intros i y Hy. apply Hd.
  intros ->. apply Hx. by eapply list_elem_of_lookup_2.
Qed.

Lemma contents_data mq mq' Q : msg_data mq' = msg_data mq -> contents mq' Q = contents mq Q.
Proof. intros E. apply list_fmap_ext. intros ? ? _. by apply data_of_eq. Qed.

Lemma contents_enqueue mq urgent x Q :
  contents mq (enqueue urgent x Q) = enqueue urgent (data_of mq x) (contents mq Q).
Proof. unfold contents, enqueue. destruct urgent; [done|]. by rewrite fmap_app. Qed.

(** From the copying on, for a sender that took [x] off the free list. *)
Lemma wp_mq_filled urgent m k k2 p mq F Q I x mq1 mq2 buf (Post : Z -> kernel -> Prop) :
  mq_inv k p mq (x :: F) Q I -> Z.of_nat (length buf) <= msg_size mq ->
  mq_alloc mq = Some (Some x, mq1) -> fill urgent x buf mq1 = Some mq2 ->
  kernel_ok m k2 -> mqs k2 !! p = Some mq2 -> threads k2 = threads k -> tlists k2 = tlists k ->
  (forall k', kernel_ok m k' -> sent urgent k p mq x F Q I buf k' -> Post RT_EOK k') ->
  wp (on_mq p (link urgent x);; mq_wake p) Post k2.
Proof.
  intros (Em & Hfl & M) Hle Ea Ef O2 Em2 Et2 El2 HQ.
  destruct (alloc_ok mq _ Q I M) as (mq1' & Ea' & M1 & Ed1 & Es1 & Efl1 & _).
  rewrite Ea in Ea'. injection Ea' as <-.
  destruct (fill_ok mq1 F Q I urgent x buf M1) as (mq2' & E2 & M2 & Hf2 & _ & Efl2 & Edx & Hx);
    [lia|]. rewrite Ef in E2. injection E2 as <-.
  destruct (in_flight_split _ _ _ _ _ M2) as (_ & HxQ & _).
  destruct (link_any_ok mq2 F Q I urgent x buf M2 Hf2) as (mq3 & El & M3 & Edata & Efl3 & _).
  apply wp_bind, (wp_on_mq _ _ _ mq2 mq3); [done..|]. unfold mq_wake.
  apply (wp_wake_first m); [exact O2|by eauto|]. intros k' O' W _ _ _ _ Emq _.
  apply (HQ k' O'). exists mq3. split_and!.
  - split; [rewrite Emq; simpl; by rewrite lookup_insert_eq|]. by rewrite Efl3, Efl2, Efl1.
  - rewrite contents_enqueue, (data_of_eq mq2 mq3 x Edata), Edx, (data_of_eq mq mq1 x Ed1).
    f_equal. rewrite (contents_data mq2 mq3) by done.
    rewrite (contents_notin mq1 mq2 Q x HxQ) by (intros y Hy; by apply Hx).
    by apply contents_data.
  - unfold woken_first, tl in *. simpl in W. by rewrite <-El2, <-Et2.
Qed.

Definition send (urgent : bool) (p : ptr) (buf : list Z) : K Z :=
  if urgent then rt_mq_urgent p buf else rt_mq_send p buf.

(** Both sending calls, phase by phase. *)
Lemma wp_mq_send urgent m k p mq F Q I buf (Post : Z -> kernel -> Prop) :
  kernel_ok m k -> mq_inv k p mq F Q I -> buf <> [] ->
  (msg_size mq < Z.of_nat (length buf) -> Post (- RT_ERROR) k) ->
  (Z.of_nat (length buf) <= msg_size mq -> F = [] -> Post (- RT_EFULL) k) ->
  (forall x F' k', Z.of_nat (length buf) <= msg_size mq -> F = x :: F' -> kernel_ok m k' ->
     sent urgent k p mq x F' Q I buf k' -> Post RT_EOK k') ->
  wp (send urgent p buf) Post k.
Proof.
  intros O Inv Hne H1 H2 H3. pose proof Inv as (Em & Hfl & M).
  assert ((Z.of_nat (length buf) =? 0) = false) as Hlen.
  { apply Z.eqb_neq. destruct buf; [done|simpl; lia]. }
  pose proof (alloc_ok mq F Q I M) as HA.
  unfold send. destruct urgent; [unfold rt_mq_urgent|unfold rt_mq_send]; rewrite Hlen;
    (apply wp_bind, wp_assert; [done|]); (apply wp_bind, (wp_deref _ _ mq); [done|]);
    (destruct (Z.gtb_spec (Z.of_nat (length buf)) (msg_size mq)) as [Hgt|Hle];
      [apply wp_ret, H1; lia|]);
    (destruct F as [|x F];
      [rewrite HA; apply wp_bind, (wp_lift _ (None, mq)); [done|]; apply wp_ret; by apply H2|]);
    destruct HA as (mq1 & Ea & M1 & _ & Es1 & _);
    (apply wp_bind, (wp_lift _ (Some x, mq1)); [done|]); apply wp_bind, wp_modify.
  - destruct (fill_ok mq1 F Q I true x buf M1) as (mq2 & E2 & _); [lia|].
    apply wp_bind, (wp_on_mq _ _ _ mq1 mq2); [simpl; by rewrite lookup_insert_eq|exact E2|].
    eapply (wp_mq_filled true m k _ p mq F Q I x mq1 mq2 buf); try done; [|by eauto].
    simpl. by rewrite lookup_insert_eq.
  - destruct (set_next_ok mq1 F Q I x None M1) as (mq1a & E1a & _).
    destruct (fill_ok mq1 F Q I false x buf M1) as (mq2 & E2 & _); [lia|].
    apply wp_bind, (wp_on_mq _ _ _ mq1 mq1a); [simpl; by rewrite lookup_insert_eq|exact E1a|].
    apply wp_bind, (wp_on_mq _ _ _ mq1a mq2); [simpl; by rewrite lookup_insert_eq| |].
    { unfold fill in E2. rewrite E1a in E2. exact E2. }
    eapply (wp_mq_filled false m k _ p mq F Q I x mq1 mq2 buf); try done; [|by eauto].
    simpl. by rewrite lookup_insert_eq.
Qed.

(** [rt_mq_send] and [rt_mq_urgent], from a thread or an interrupt and with other
    calls in progress: a message longer than the queue's message size is refused with
    -RT_ERROR and a full queue with -RT_EFULL, both unchanged; otherwise the bytes become
    the last (urgent: the first) message of the queue, whose other messages are untouched,
    and the first waiting receiver is woken. *)
Theorem rt_mq_send_refines urgent m k p mq F Q I buf :
  kernel_ok m k -> mq_inv k p mq F Q I -> buf <> [] ->
  exists r k', send urgent p buf k = Some (r, k') /\ kernel_ok m k' /\
    (msg_size mq < Z.of_nat (length buf) -> r = - RT_ERROR /\ k' = k) /\
    (Z.of_nat (length buf) <= msg_size mq ->
       match F with
       | [] => r = - RT_EFULL /\ k' = k
       | x :: F' => r = RT_EOK /\ sent urgent k p mq x F' Q I buf k'
       end).
Proof.
  intros O Inv Hne. apply wp_exists.
  apply (wp_mq_send urgent m k p mq F Q I buf); [done..| | |].
  - intros Hgt. split; [done|]. split; [done|lia].
  - intros Hle ->. split; [done|]. split; [lia|done].
  - intros x F' k' Hle -> O' S'. split; [done|]. split; [lia|done].
Qed.

Lemma wp_mq_fetch m k p mq F Q I x size (Post : Z * option (list Z) -> kernel -> Prop) :
  kernel_ok m k -> mq_inv k p mq F (x :: Q) I -> 0 < size ->
  (forall mq', mq_inv (set_mqs (<[p := mq']> (mqs k)) k) p mq' (x :: F) Q I ->
     contents mq' Q = contents mq Q ->
     Post (RT_EOK, Some (take (Z.to_nat (Z.min size (msg_size mq))) (data_of mq x)))
       (set_mqs (<[p := mq']> (mqs k)) k)) ->
  wp (mq_fetch p size) Post k.
Proof.
  intros O (Em & Hfl & M) Hsz HQ. unfold mq_fetch. apply wp_bind, (wp_deref _ _ mq); [done|].
  destruct (mq_unlink_ok mq F Q I x M) as (mq1 & E1 & M1 & Ed1 & Es1 & Efl1 & _).
  destruct (release_ok mq1 F Q I x M1) as (mq2 & E2 & M2 & Ed2 & Efl2 & Es2 & _).
  apply wp_bind, (wp_lift _ (x, mq1)); [done|]. apply wp_bind, wp_modify.
  destruct (mo_data _ _ _ _ M x) as (d & Hd & Hl); [set_solver|].
  pose proof (mo_size _ _ _ _ M) as Hms.
  assert (mq_copy_out x size mq1 = Some (take (Z.to_nat (Z.min size (msg_size mq))) d)) as Ec.
  { unfold mq_copy_out. rewrite Ed1, Hd, Es1. simpl.
    replace (if size >? msg_size mq then msg_size mq else size) with (Z.min size (msg_size mq))
      by (destruct (Z.gtb_spec size (msg_size mq)); lia).
    rewrite memread_Some by lia. by rewrite drop_0. }
  apply wp_bind, (wp_lift _ _ _ _ Ec), wp_bind, (wp_on_mq _ _ _ mq1 mq2);
    [simpl; by rewrite lookup_insert_eq|done|]. apply wp_ret.
  specialize (HQ mq2). unfold data_of in HQ. rewrite Hd in HQ. simpl in HQ.
  assert (set_mqs (<[p:=mq2]> (mqs (set_mqs (<[p:=mq1]> (mqs k)) k)))
    (set_mqs (<[p:=mq1]> (mqs k)) k) = set_mqs (<[p:=mq2]> (mqs k)) k) as ->.
  { destruct k. unfold set_mqs. simpl. by rewrite insert_insert_eq. }
  apply HQ; [|apply contents_data; by rewrite Ed2, Ed1].
  split; [simpl; by rewrite lookup_insert_eq|]. by rewrite Efl2, Efl1.
Qed.

Lemma contents_nil mq Q : contents mq Q = [] <-> Q = [].
Proof. unfold contents. split; [apply fmap_nil_inv|by intros ->]. Qed.

(** What [rt_mq_recv] does. *)
Definition received (k : kernel) (t : ptr) (th : rt_thread) (p : ptr) (mq : rt_messagequeue)
    (F Q I : list Z) (size timeout : Z) (w : waiting (Z * option (list Z))) (k' : kernel) : Prop :=
  match Q with
  | x :: Q' =>
      w = Returns (RT_EOK, Some (take (Z.to_nat (Z.min size (msg_size mq))) (data_of mq x))) /\
      exists mq', k' = set_mqs (<[p := mq']> (mqs k)) k /\ mq_inv k' p mq' (x :: F) Q' I /\
        contents mq Q = data_of mq x :: contents mq' Q'
  | [] => mq_inv k' p mq F [] I /\
      if timeout =? 0 then w = Returns (- RT_ETIMEOUT, None) /\ k' = k
      else w = Waits timeout (if timeout >? 0 then rt_tick k else 0) /\
        blocked_state (set_threads (<[t := set_error RT_EOK th]> (threads k)) k) t
          (set_error RT_EOK th) (QSuspend p) (mq_flag mq) timeout k'
  end.

(** [rt_mq_recv] removes the first message of the queue, frees it and returns its first
    bytes, as many as the caller's buffer and the message size allow, leaving the other
    messages alone; on an empty queue it returns -RT_ETIMEOUT unchanged when the caller
    does not wait, and otherwise the caller waits on the queue's list. *)
Theorem rt_mq_recv_refines k t th p mq F Q I size timeout :
  caller k t th -> mq_inv k p mq F Q I -> time_ok timeout -> 0 < size ->
  exists w k', rt_mq_recv p size timeout k = Some (w, k') /\ kernel_ok Task k' /\
    received k t th p mq F Q I size timeout w k'.
Proof.
  intros C Inv Htime Hsz. pose proof Inv as (Em & Hfl & M). apply wp_exists.
  unfold rt_mq_recv, rt_thread_self. apply wp_bind, wp_assert.
  { by rewrite (proj2 (Z.eqb_neq _ _)) by lia. }
  apply wp_bind, wp_gets, wp_bind.
  rewrite (ca_current _ _ _ C). apply (wp_deref _ _ mq); [done|].
  pose proof (mo_entry _ _ _ _ M) as He.
  assert (mq_entry mq =? 0 = match Q with [] => true | _ => false end) as E0.
  { destruct Q; [by rewrite He|]. apply Z.eqb_neq. rewrite He. simpl. lia. }
  destruct Q as [|x Q]; simpl in E0; rewrite E0.
  - destruct (Z.eqb_spec timeout 0) as [->|Ht0].
    { apply wp_ret. split; [apply C|]. done. }
    unfold rt_mq_recv_loop. apply wp_bind, (wp_deref _ _ mq); [done|]. rewrite E0.
    eapply wp_thread_context; [exact C|].
    apply wp_bind, (wp_lift _ t); [done|]. apply wp_bind, (wp_upd_thread _ _ th); [apply C|].
    rewrite (proj2 (Z.eqb_neq _ _) Ht0).
    set (th1 := set_error RT_EOK th). set (k1 := set_threads _ k).
    assert (caller k1 t th1) as C1 by (by eapply caller_update).
    apply (wp_block_tick k1 t th1); try done; [by eauto| |].
    { intros k' Ek. by rewrite Ek. }
    intros k' O' B. apply wp_ret. split; [done|]. unfold received.
    rewrite (proj2 (Z.eqb_neq _ _) Ht0). split; [|done].
    split; [|done]. by destruct B as (? & ? & ? & ? & ? & ? & ? & ? & _ & _ & -> & _).
  - unfold rt_mq_recv_loop. apply wp_bind, (wp_deref _ _ mq); [done|]. rewrite E0.
    apply wp_bind, (wp_mq_fetch Task k p mq F Q I x); [apply C|done|done|].
    intros mq' I' Ec. apply wp_ret. split; [apply C|]. split; [done|].
    exists mq'. split; [done|]. split; [done|]. simpl. by rewrite Ec.
Qed.

(** ** Reset *)

Lemma release_entry m e mq :
  mq_release m (set_mq_entry e mq) = set_mq_entry e <$> mq_release m mq.
Proof. destruct mq. unfold mq_release, mq_set_next. simpl. by destruct (_ !! m). Qed.

Lemma reset_loop_ok fuel I : forall mq F Q,
  (length Q < fuel)%nat -> mq_ok (set_mq_entry (Z.of_nat (length Q)) mq) F Q I ->
  exists mq', mq_reset_loop fuel mq = Some mq' /\
    mq_ok (set_mq_entry 0 mq') (reverse Q ++ F) [] I /\ mq_flag mq' = mq_flag mq.
Proof.
  induction fuel as [|fuel IH]; intros mq F Q Hf M; [lia|]. simpl.
  pose proof (chain_head _ _ _ (mo_queue _ _ _ _ M)) as Eh. simpl in Eh. rewrite Eh.
  destruct Q as [|x Q]; simpl; [by exists mq|].
  destruct (mq_unlink_ok _ F Q I x M) as (mq1 & E1 & M1 & _ & _ & Efl1 & _).
  unfold mq_unlink in E1. simpl in E1. rewrite Eh in E1. simpl in E1.
  destruct (msg_next mq !! x) as [n|]; simpl in E1; [|done]. simpl.
  destruct (release_ok mq1 F Q I x M1) as (mq2 & E2 & M2 & _ & Efl2 & _).
  set (mq0 := if decide _ then _ else _).
  assert (mq1 = set_mq_entry (Z.of_nat (length Q)) mq0) as ->.
  { injection E1 as <-. rewrite <-(mo_entry _ _ _ _ M1) at 1. subst mq0. destruct mq. simpl.
    by destruct (decide _). }
  rewrite release_entry in E2. destruct (mq_release x mq0) as [mq3|] eqn:E3; [|done].
  simpl in E2. injection E2 as <-.
  destruct (IH mq3 (x :: F) Q) as (mq' & E' & M' & Efl'); [simpl in Hf; lia|done|].
  simpl. exists mq'. split; [done|]. split.
  - by rewrite reverse_cons, <-app_assoc.
  - rewrite Efl'. simpl in Efl2. rewrite Efl2. subst mq0. by destruct (decide _).
Qed.

(** Resetting a message queue terminates, wakes every waiting receiver with -RT_ERROR,
    and moves every queued message to the free list, so that the queue is consistent and
    empty; messages in the hands of interrupted calls stay theirs.  Any other command is
    refused. *)
Theorem rt_mq_control_reset m k p mq F Q I cmd arg :
  kernel_ok m k -> mq_inv k p mq F Q I ->
  exists r k', rt_mq_control p cmd arg k = Some (r, k') /\ kernel_ok m k' /\
    (cmd <> RT_IPC_CMD_RESET -> r = - RT_ERROR /\ k' = k) /\
    (cmd = RT_IPC_CMD_RESET -> r = RT_EOK /\ tl k' (QSuspend p) = [] /\
       (exists mq', mq_inv k' p mq' (reverse Q ++ F) [] I) /\
       forall t, t ∈ tl k (QSuspend p) -> exists th, threads k' !! t = Some th /\
         stat th = RT_THREAD_READY /\ error th = - RT_ERROR).
Proof.
  intros O (Em & Hfl & M). apply wp_exists. unfold rt_mq_control.
  destruct (Z.eqb_spec cmd RT_IPC_CMD_RESET) as [->|Hne]; [|by apply wp_ret; split_and!].
  apply wp_bind, (wp_ipc_list_resume_all m); [done|by eauto|].
  intros k1 O1 (E1 & E2 & _ & R). assert (mqs k1 = mqs k) as Emq by (by destruct_and! R).
  destruct (reset_loop_ok (S (Z.to_nat (mq_entry mq))) I mq F Q) as (mq' & El & M' & Efl).
  { rewrite (mo_entry _ _ _ _ M). lia. }
  { rewrite <-(mo_entry _ _ _ _ M). by destruct mq. }
  apply wp_bind, (wp_on_mq _ _ _ mq (set_mq_entry 0 mq')); [by rewrite Emq|by rewrite El|].
  apply wp_bind, (wp_schedule m); [exact O1|].
  intros pp c O2 _ _. apply wp_ret. split; [done|]. split; [done|]. intros _.
  split; [done|]. split; [exact E1|]. split; [|exact E2]. exists (set_mq_entry 0 mq').
  split; [simpl; by rewrite lookup_insert_eq|]. split; [|done]. simpl. by rewrite Efl.
Qed.

(** ** Examples

    A queue of two four-byte messages at 32768, its pool at 36864; the same
    with one message queued, and the call that is about to link a second. *)
Definition demo_pool : gmap Z (list Z) := {[ 36864 := [0; 0; 0; 0]; 36872 := [0; 0; 0; 0] ]}.
Definition demo_mq : kernel :=
  after (rt_mq_create (Some 32768) (Some 36864) demo_pool [113; 0] 4 2 RT_IPC_FLAG_FIFO;;
         rt_mq_send 32768 [1; 2; 3]) demo.
Definition demo_queue : rt_messagequeue :=
  default (Messagequeue 0 0 0 0 None None None ∅ ∅) (mqs demo_mq !! 32768).

Lemma demo_mq_ok : mq_ok demo_queue [36864] [36872] [].
Proof.
  split; try (vm_compute; done).
  - simpl. split; [ev|]. eexists. split; [ev|]. ev.
  - simpl. split; [ev|]. eexists. split; [ev|]. ev.
  - by apply (bool_decide_unpack _); vm_compute.
  - simpl. intros m Hm. rewrite !elem_of_cons in Hm. destruct Hm as [->|[->|[]%elem_of_nil]]; vm_compute; by eexists.
  - simpl. intros m Hm. rewrite !elem_of_cons in Hm.
    destruct Hm as [->|[->|[]%elem_of_nil]]; eexists; split; ev.
Qed.

Lemma demo_mq_inv : mq_inv demo_mq 32768 demo_queue [36864] [36872] [].
Proof. split; [ev|]. split; [left; ev|]. exact demo_mq_ok. Qed.

Lemma rt_mq_send_refines_witness :
  exists k' mq', send true 32768 [9] demo_mq = Some (RT_EOK, k') /\
    mqs k' !! 32768 = Some mq' /\ contents mq' [36864; 36872] = [[9; 0; 0; 0]; [1; 2; 3; 0]].
Proof.
  destruct (rt_mq_send_refines true Task demo_mq 32768 demo_queue [36864] [36872] [] [9]
    ltac:(apply kok_check_sound; ev) demo_mq_inv ltac:(done)) as (r & k' & E & _ & _ & H).
  destruct (H ltac:(vm_compute; discriminate)) as (-> & mq' & I' & Ec & _).
  exists k', mq'. split; [exact E|]. split; [apply I'|]. exact Ec.
Defined.

Lemma rt_mq_recv_refines_witness :
  exists k', rt_mq_recv 32768 2 5 demo_mq = Some (Returns (RT_EOK, Some [1; 2]), k').
Proof.
  destruct (rt_mq_recv_refines demo_mq 4096 (demo_th 4096) 32768 demo_queue [36864] [36872] [] 2 5
    ltac:(ev_caller) demo_mq_inv ltac:(ev) ltac:(ev)) as (w & k' & E & _ & Ew & _).
  exists k'. rewrite E, Ew. reflexivity.
Defined.

Lemma rt_mq_control_reset_witness :
  exists k' mq', rt_mq_control 32768 RT_IPC_CMD_RESET 0 demo_mq = Some (RT_EOK, k') /\
    mq_inv k' 32768 mq' [36872; 36864] [] [].
Proof.
  destruct (rt_mq_control_reset Task demo_mq 32768 demo_queue [36864] [36872] []
    RT_IPC_CMD_RESET 0 ltac:(apply kok_check_sound; ev) demo_mq_inv) as (r & k' & E & _ & _ & H).
  destruct (H eq_refl) as (-> & _ & (mq' & I') & _). exists k', mq'. split; [exact E|exact I'].
Defined.

Lemma mq_interleaving_safe_witness :
  exists s' Q', mq_step (demo_queue, []) s' /\ mq_state_ok s' Q'.
Proof.
  set (s' := (match mq_alloc demo_queue with Some (_, mq) => mq | None => demo_queue end,
              [(36864, Allocated false [5])])).
  assert (mq_step (demo_queue, []) s') as Hs.
  { apply step_alloc; [vm_compute; discriminate|ev]. }
  assert (mq_state_ok (demo_queue, []) [36872]) as H0.
  { split; [exists [36864]; exact demo_mq_ok|constructor]. }
  destruct (mq_interleaving_safe (demo_queue, []) s' [36872] H0 Hs) as (Q' & H' & _).
  exists s', Q'. split; [exact Hs|exact H'].
Defined.

Lemma mq_pool_init_ok_witness :
  exists F, mq_ok (mq_pool_init RT_IPC_FLAG_FIFO 36864 4 2 demo_pool) F [] [].
Proof.
  destruct (mq_pool_init_ok RT_IPC_FLAG_FIFO 36864 4 2 demo_pool ltac:(ev) ltac:(ev))
    as (F & H & _); [|exists F; exact H].
  intros i Hi. assert (i = 0 \/ i = 1) as [->| ->] by lia; eexists; split; ev.
Defined.

End Mq.
