(* ===== verification/MemPool.v ===== *)
(** * Memory pools: src/mempool.c

    A pool of equal blocks, each behind a link word: the next free block while
    the block is free, the pool itself while it is allocated.  The link words
    are a map from the blocks' addresses; the model stops where the code would
    follow a link that is none. *)

From S2P Require Import Prelude Kernel Scheduler Object Timer Thread KernelOk ThreadSpec Clock Ipc.

Module Mp.

Definition sizeof_link : Z := 4.

(** ** Operations *)

Definition set_count (c : Z) : rt_mempool -> rt_mempool := set_suspend_thread_count (u32 c).

Definition upd_mempool (p : ptr) (f : rt_mempool -> rt_mempool) : K unit :=
  mp ← deref mempools p; put_mempool p (f mp).

(** The [for] loop that links block [offset] and the [n - 1] after it. *)
Fixpoint mp_link_loop (start step : Z) (n : nat) (offset : Z) (links : gmap Z blk_link) :
    gmap Z blk_link :=
  match n with
  | O => links
  | S n =>
      mp_link_loop start step n (offset + 1)
        (<[start + offset * step := LinkNext (Some (start + (offset + 1) * step))]> links)
  end.

(** The free list over [count] blocks; the last link is written after the loop. *)
Definition mp_pool_init (start size block_size count : Z) : rt_mempool :=
  let step := block_size + sizeof_link in
  let links := mp_link_loop start step (Z.to_nat count) 0 ∅ in
  Mempool start size block_size (Some start) count count 0
    (<[start + (count - 1) * step := LinkNext None]> links).

Definition rt_mp_init (p : ptr) (name : list Z) (start size block_size : Z) : K Z :=
  rt_object_init (Obj p) RT_Object_Class_MemPool name;;
  let size := RT_ALIGN_DOWN size RT_ALIGN_SIZE in
  let block_size := RT_ALIGN block_size RT_ALIGN_SIZE in
  let count := size / u32 (block_size + sizeof_link) in
  tlist_init (QSuspend p);;
  put_mempool p (mp_pool_init start size block_size count);;
  mret RT_EOK.

(** The [while] loop of [rt_mp_detach] and [rt_mp_delete]; every round takes a
    thread off the list. *)
Fixpoint mp_resume_loop (fuel : nat) (p : ptr) : K unit :=
  match fuel with
  | O => halt
  | S fuel =>
      empty ← tlist_isempty (QSuspend p);
      if (empty : bool) then mret tt
      else
        t ← tlist_first (QSuspend p);
        upd_thread t (set_error (- RT_ERROR));;
        rt_thread_resume t;;
        upd_mempool p (fun mp => set_count (suspend_thread_count mp - 1) mp);;
        mp_resume_loop fuel p
  end.

Definition mp_resume_all (p : ptr) : K unit :=
  l ← gets (fun k => tl k (QSuspend p));
  mp_resume_loop (S (length l)) p.

Definition rt_mp_detach (p : ptr) : K Z :=
  mp_resume_all p;;
  rt_object_detach (Obj p);;
  mret RT_EOK.

(** [mem], [room]: what the two allocations returned. *)
Definition rt_mp_create (mem room : option ptr) (name : list Z) (block_count block_size : Z) :
    K (option ptr) :=
  RT_DEBUG_NOT_IN_INTERRUPT;;
  mp ← rt_object_allocate mem RT_Object_Class_MemPool name;
  match mp with
  | None => mret None
  | Some p =>
      let block_size := RT_ALIGN block_size RT_ALIGN_SIZE in
      match room with
      | None => rt_object_delete (Obj p);; mret None
      | Some start =>
          tlist_init (QSuspend p);;
          put_mempool p (mp_pool_init start (u32 ((block_size + sizeof_link) * block_count))
            block_size block_count);;
          mret (Some p)
      end
  end.

Definition rt_mp_delete (p : ptr) : K Z :=
  RT_DEBUG_NOT_IN_INTERRUPT;;
  mp_resume_all p;;
  rt_object_delete (Obj p);;
  mret RT_EOK.

Definition link_next (w : blk_link) : option (option Z) :=
  match w with LinkNext n => Some n | LinkPool _ => None end.

(** Taking the first block off the free list. *)
Definition mp_take (p : ptr) (mp : rt_mempool) : option (Z * rt_mempool) :=
  b ← block_list mp;
  w ← block_link mp !! b;
  next ← link_next w;
  Some (b + sizeof_link,
    set_block_link (<[b := LinkPool p]> (block_link mp))
      (set_block_list next (set_block_free_count (u32 (block_free_count mp - 1)) mp))).

Definition mp_take_block (p : ptr) : K (option Z) :=
  mp ← deref mempools p;
  r ← lift (mp_take p mp);
  let '(block, mp) := r in
  put_mempool p mp;;
  mret (Some block).

(** [None]: the caller waits, and goes on with [rt_mp_alloc_resume]. *)
Definition rt_mp_alloc (p : ptr) (time : Z) : K (option (option Z)) :=
  mp ← deref mempools p;
  if negb (block_free_count mp =? 0) then r ← mp_take_block p; mret (Some r)
  else if time =? 0 then mret (Some None)
  else
    RT_DEBUG_NOT_IN_INTERRUPT;;
    t ← current;
    rt_thread_suspend t;;
    tlist_insert_after (QSuspend p) t;;
    upd_mempool p (fun mp => set_count (suspend_thread_count mp + 1) mp);;
    when (time >? 0) (
      rt_timer_control (TimerOf t) RT_TIMER_CTRL_SET_TIME time;;
      rt_timer_start (TimerOf t);;
      mret tt);;
    rt_schedule;;
    mret None.

Definition rt_mp_alloc_resume (p t : ptr) : K (option Z) :=
  th ← deref threads t;
  if negb (error th =? RT_EOK) then mret None
  else mp_take_block p.

(** The link word at the address [b], in the pool that has a block there. *)
Definition word_at (pools : gmap ptr rt_mempool) (b : Z) : option blk_link :=
  head (omap (fun x : ptr * rt_mempool => block_link x.2 !! b) (map_to_list pools)).

(** Linking the block [b] into the free list. *)
Definition mp_give (b : Z) (mp : rt_mempool) : rt_mempool :=
  set_block_list (Some b)
    (set_block_link (<[b := LinkNext (block_list mp)]> (block_link mp))
      (set_block_free_count (u32 (block_free_count mp + 1)) mp)).

Definition rt_mp_free (block : Z) : K unit :=
  let b := block - sizeof_link in
  pools ← gets mempools;
  w ← lift (word_at pools b);
  p ← lift (match w with LinkPool p => Some p | LinkNext _ => None end);
  upd_mempool p (mp_give b);;
  mp ← deref mempools p;
  if suspend_thread_count mp >? 0 then
    t ← tlist_first (QSuspend p);
    upd_thread t (set_error RT_EOK);;
    rt_thread_resume t;;
    upd_mempool p (fun mp => set_count (suspend_thread_count mp - 1) mp);;
    rt_schedule
  else mret tt.

(** ** Invariant

    [F] the free blocks in the order of the list, [A] the allocated ones. *)

Definition mp_step (mp : rt_mempool) : Z := block_size mp + sizeof_link.

Definition mp_blocks (mp : rt_mempool) : list Z :=
  (fun i => mp_start mp + i * mp_step mp) <$> seqZ 0 (block_total_count mp).

Record mp_ok (p : ptr) (mp : rt_mempool) (F A : list Z) : Prop := {
  po_chain : chain (omap link_next (block_link mp)) (block_list mp) F;
  po_owned b : b ∈ A -> block_link mp !! b = Some (LinkPool p);
  po_all : F ++ A ≡ₚ mp_blocks mp;
  po_free : block_free_count mp = Z.of_nat (length F);
  po_total : 0 <= block_total_count mp < 2 ^ 32;
  po_size : 0 <= block_size mp;
}.

Lemma mp_blocks_nodup mp : 0 <= block_size mp -> NoDup (mp_blocks mp).
Proof.
  intros Hs. apply NoDup_fmap_2_strong; [|apply NoDup_seqZ].
  intros x y _ _ E. cbn beta in E. unfold mp_step, sizeof_link in E.
  apply (Z.mul_reg_r x y (block_size mp + 4)); lia.
Qed.

Lemma mp_ok_nodup p mp F A : mp_ok p mp F A -> NoDup (F ++ A).
Proof. intros M. rewrite (po_all _ _ _ _ M). apply mp_blocks_nodup, M. Qed.

Lemma mp_ok_count p mp F A :
  mp_ok p mp F A -> Z.of_nat (length F) + Z.of_nat (length A) = block_total_count mp.
Proof.
  intros M. pose proof (Permutation_length (po_all _ _ _ _ M)) as E.
  unfold mp_blocks in E. rewrite length_app, length_fmap, length_seqZ in E.
  destruct (po_total _ _ _ _ M). lia.
Qed.

(** Blocks are inside the pool, and different blocks do not overlap. *)
Lemma mp_ok_range p mp F A b :
  mp_ok p mp F A -> b ∈ F ++ A ->
  mp_start mp <= b /\
  b + sizeof_link + block_size mp <= mp_start mp + block_total_count mp * mp_step mp.
Proof.
  intros M. rewrite (po_all _ _ _ _ M). intros (i & -> & Hi)%list_elem_of_fmap.
  apply elem_of_seqZ in Hi. pose proof (po_size _ _ _ _ M). unfold mp_step, sizeof_link. nia.
Qed.

Lemma mp_ok_disjoint p mp F A b b' :
  mp_ok p mp F A -> b ∈ F ++ A -> b' ∈ F ++ A -> b < b' -> b + sizeof_link + block_size mp <= b'.
Proof.
  intros M. rewrite (po_all _ _ _ _ M).
  intros (i & -> & Hi)%list_elem_of_fmap (j & -> & Hj)%list_elem_of_fmap.
  pose proof (po_size _ _ _ _ M). unfold mp_step, sizeof_link. intros Hlt.
  assert (i < j) by nia. nia.
Qed.

Lemma mp_take_ok p mp b F A :
  mp_ok p mp (b :: F) A ->
  exists mp', mp_take p mp = Some (b + sizeof_link, mp') /\ mp_ok p mp' F (b :: A) /\
    mp_start mp' = mp_start mp /\ block_size mp' = block_size mp /\
    suspend_thread_count mp' = suspend_thread_count mp.
Proof.
  intros M. pose proof (mp_ok_nodup _ _ _ _ M) as Hn. pose proof (mp_ok_count _ _ _ _ M) as Hc.
  destruct M as [(Eh & n & Hn' & Hch) H2 H3 H4 H5 H6]. unfold mp_take. rewrite Eh. simpl.
  apply lookup_omap_Some in Hn' as (w & Hw & Elk). rewrite Elk. simpl. rewrite Hw. simpl.
  eexists. split; [done|]. split; [|done].
  simpl in Hn. apply NoDup_cons in Hn as [Hb Hn]. rewrite elem_of_app in Hb.
  split; simpl in *; try done.
  - rewrite omap_insert. simpl. apply chain_delete; [tauto|done].
  - intros b' [->|Hin]%elem_of_cons; [by rewrite lookup_insert_eq|].
    rewrite lookup_insert_ne by (intros ->; tauto). auto.
  - by rewrite <-Permutation_middle.
  - rewrite H4, wrap_small; unfold in_u; lia.
Qed.

Lemma mp_give_ok p mp b F A A' :
  mp_ok p mp F A -> A ≡ₚ b :: A' -> mp_ok p (mp_give b mp) (b :: F) A'.
Proof.
  intros M HA. pose proof (mp_ok_nodup _ _ _ _ M) as Hn. pose proof (mp_ok_count _ _ _ _ M) as Hc.
  destruct M as [H1 H2 H3 H4 H5 H6]. rewrite HA in Hn, H3.
  rewrite (Permutation_length HA) in Hc. simpl in Hc.
  rewrite <-Permutation_middle in Hn, H3. apply NoDup_cons in Hn as [Hb Hn].
  rewrite elem_of_app in Hb. split; simpl; try done.
  - rewrite omap_insert. simpl. apply chain_cons; [tauto|done].
  - intros b' Hin. rewrite lookup_insert_ne by (intros ->; tauto). apply H2. rewrite HA. by right.
  - rewrite H4, wrap_small; unfold in_u; lia.
Qed.

(** ** Initialisation *)

Lemma link_loop_frame start step n : forall offset links x,
  0 < step -> x < start + offset * step ->
  mp_link_loop start step n offset links !! x = links !! x.
Proof.
  induction n as [|n IH]; intros offset links x Hs Hx; simpl; [done|].
  rewrite IH by lia. rewrite lookup_insert_ne by lia. done.
Qed.

Lemma link_loop_lookup start step n : forall offset links i,
  0 < step -> offset <= i < offset + Z.of_nat n ->
  mp_link_loop start step n offset links !! (start + i * step) =
    Some (LinkNext (Some (start + (i + 1) * step))).
Proof.
  induction n as [|n IH]; intros offset links i Hs Hi; simpl; [lia|].
  destruct (decide (i = offset)) as [->|Hne]; [|apply IH; lia].
  rewrite link_loop_frame by lia. by rewrite lookup_insert_eq.
Qed.

Lemma chain_blocks nx start step n : forall o,
  (forall i, o <= i < o + Z.of_nat n -> nx !! (start + i * step) = Some (Some (start + (i + 1) * step))) ->
  nx !! (start + (o + Z.of_nat n) * step) = Some None ->
  chain nx (Some (start + o * step))
    ((fun i => start + i * step) <$> seqZ o (Z.of_nat (S n))).
Proof.
  induction n as [|n IH]; intros o Hi Hl; rewrite seqZ_cons by lia; simpl; split; try done.
  - exists None. rewrite Z.add_0_r in Hl. split; [done|]. done.
  - exists (Some (start + (o + 1) * step)). split; [apply Hi; lia|].
    replace (Z.pred (Z.of_nat (S (S n)))) with (Z.of_nat (S n)) by lia.
    change (Z.succ o) with (o + 1). apply IH.
    + intros i ?. apply Hi. lia.
    + rewrite <-Hl. do 3 f_equal. lia.
Qed.

Lemma pool_init_ok p start size bs count :
  0 <= bs -> 0 < count < 2 ^ 32 ->
  mp_ok p (mp_pool_init start size bs count) (mp_blocks (mp_pool_init start size bs count)) [].
Proof.
  intros Hb Hc. split; simpl; try lia; [|set_solver|by rewrite app_nil_r|].
  - unfold mp_blocks, mp_step. simpl. set (step := bs + sizeof_link).
    assert (0 < step) as Hs by (subst step; unfold sizeof_link; lia).
    replace (Some start) with (Some (start + 0 * step)) by (f_equal; lia).
    replace count with (Z.of_nat (S (Z.to_nat (count - 1)))) at 3 by lia.
    apply chain_blocks.
    + intros i Hi. rewrite lookup_omap, lookup_insert_ne by nia.
      rewrite link_loop_lookup by lia. done.
    + rewrite Z2Nat.id, Z.add_0_l by lia. by rewrite lookup_omap, lookup_insert_eq.
  - unfold mp_blocks. rewrite length_fmap, length_seqZ. simpl. lia.
Qed.

(** ** The calls *)

(** The counter of the pool agrees with its list of waiting threads. *)
Definition mp_inv (k : kernel) (p : ptr) (mp : rt_mempool) (F A : list Z) : Prop :=
  mempools k !! p = Some mp /\ mp_ok p mp F A /\
  suspend_thread_count mp = u32 (Z.of_nat (length (tl k (QSuspend p)))).

(** The wait of [rt_mp_alloc]: the thread is first in the list. *)
Definition mp_waits (k : kernel) (t : ptr) (th : rt_thread) (p : ptr) (time : Z)
    (k' : kernel) : Prop :=
  tl k' (QSuspend p) = t :: tl k (QSuspend p) /\
  threads k' = <[t := set_stat RT_THREAD_SUSPEND th]> (threads k) /\
  (0 < time -> TimerOf t ∈ rt_timer_list k' /\ due (timers k') (rt_tick k') (TimerOf t) = time) /\
  (time <= 0 -> TimerOf t ∉ rt_timer_list k') /\
  exists t', rt_current_thread k' = Some t' /\ elected k' t'.

Lemma wp_upd_mempool p f k mp (Q : unit -> kernel -> Prop) :
  mempools k !! p = Some mp -> Q tt (set_mempools (<[p := f mp]> (mempools k)) k) ->
  wp (upd_mempool p f) Q k.
Proof. intros Em HQ. unfold upd_mempool. apply wp_bind, (wp_deref _ _ mp); [done|]. exact HQ. Qed.

Lemma mp_ok_count_irrelevant p mp F A c : mp_ok p mp F A -> mp_ok p (set_count c mp) F A.
Proof. intros [H1 H2 H3 H4 H5 H6]. by split. Qed.

Lemma wp_mp_block {A} k t th p mp F B time (r : A) (Q : A -> kernel -> Prop) :
  caller k t th -> mp_inv k p mp F B -> time_ok time ->
  (forall k', kernel_ok Task k' ->
     mp_inv k' p (set_count (suspend_thread_count mp + 1) mp) F B ->
     mp_waits k t th p time k' -> Q r k') ->
  wp (rt_thread_suspend t;;
      tlist_insert_after (QSuspend p) t;;
      upd_mempool p (fun mp => set_count (suspend_thread_count mp + 1) mp);;
      when (time >? 0) (
        rt_timer_control (TimerOf t) RT_TIMER_CTRL_SET_TIME time;;
        rt_timer_start (TimerOf t);;
        mret tt);;
      rt_schedule;;
      mret r) Q k.
Proof.
  intros [O Hc Ht Hs Hid Hn Hlk] (Em & M & Hcnt) Htime HQ.
  destruct (ready_timer_inactive k t th O Ht Hs) as (tm & Etm & Ha).
  destruct (ready_not_waiting Task k t th p O Ht Hs) as [Hnot _].
  apply wp_bind, (wp_suspend Task k t th); try done. intros g O1.
  apply wp_bind, wp_modify.
  assert (tl (k_susp t th g k) (QSuspend p) = tl k (QSuspend p)) as Eq.
  { unfold tl. simpl. rewrite lookup_total_remove. by apply filter_ne_id. }
  rewrite Eq. apply wp_bind, (wp_upd_mempool _ _ _ mp); [done|].
  set (k1 := set_mempools _ _).
  assert (kernel_ok Task k1) as O2.
  { unfold kernel_ok. simpl. eapply (kok_wait _ _ _ _ _ _ _ _ t _ (QSuspend p) [] (tl k (QSuspend p)));
      [exact O1|simpl; by rewrite lookup_insert_eq|apply in_no_list_removed|done|by eauto|by rewrite <-Eq]. }
  apply (wp_wait k1 t (set_stat RT_THREAD_SUSPEND th) tm); try done.
  { simpl. by rewrite lookup_insert_eq. }
  assert (tl k1 (QSuspend p) = t :: tl k (QSuspend p)) as El.
  { unfold tl. simpl. by rewrite lookup_total_insert_eq. }
  intros l ts n pr c O3 H1 H2 H3. apply wp_ret. apply HQ; [done| |].
  - split; [simpl; by rewrite lookup_insert_eq|]. split; [by apply mp_ok_count_irrelevant|].
    change (tl (k_waiting l ts n pr c k1) (QSuspend p)) with (tl k1 (QSuspend p)).
    rewrite El. simpl. rewrite Hcnt, wrap_add_l by lia. f_equal. lia.
  - split_and!; try done. destruct (H3 Hlk) as (t' & -> & He). by exists t'.
Qed.

(** [rt_mp_alloc] hands out the first free block, which was not allocated before, lies
    inside the pool and is from then on allocated; without a free block it returns null
    at once when the caller does not wait, and otherwise the caller waits, in front of the
    threads already waiting. *)
Theorem rt_mp_alloc_ok k t th p mp F A time :
  caller k t th -> mp_inv k p mp F A -> time_ok time ->
  exists r k', rt_mp_alloc p time k = Some (r, k') /\ kernel_ok Task k' /\
    match F with
    | b :: F' => r = Some (Some (b + sizeof_link)) /\ b ∉ A /\
        mp_start mp <= b /\ b + sizeof_link + block_size mp <=
          mp_start mp + block_total_count mp * mp_step mp /\
        exists mp', k' = set_mempools (<[p := mp']> (mempools k)) k /\ mp_inv k' p mp' F' (b :: A)
    | [] =>
        if time =? 0 then r = Some None /\ k' = k
        else r = None /\ mp_waits k t th p time k' /\
          mp_inv k' p (set_count (suspend_thread_count mp + 1) mp) [] A
    end.
Proof.
  intros C Inv Htime. pose proof Inv as (Em & M & Hcnt). apply wp_exists. unfold rt_mp_alloc.
  apply wp_bind, (wp_deref _ _ mp); [done|]. rewrite (po_free _ _ _ _ M).
  destruct F as [|b F].
  - cbn [length Z.of_nat Z.eqb negb]. destruct (Z.eqb_spec time 0) as [->|Ht0].
    { apply wp_ret. split; [apply C|]. done. }
    unfold RT_DEBUG_NOT_IN_INTERRUPT. apply wp_bind, wp_bind, wp_gets, wp_assert.
    { by rewrite (ca_nest _ _ _ C). }
    apply (wp_current k t th); [done|].
    apply (wp_mp_block k t th p mp [] A time); [done..|]. intros k' O' I' W'. done.
  - replace (negb _) with true by (symmetry; apply negb_true_iff, Z.eqb_neq; simpl; lia).
    destruct (mp_take_ok p mp b F A M) as (mp' & Et & M' & _ & _ & Ec).
    apply wp_bind. unfold mp_take_block. apply wp_bind, (wp_deref _ _ mp); [done|].
    apply wp_bind, (wp_lift _ _ _ _ Et), wp_bind, wp_modify, wp_ret, wp_ret.
    pose proof (mp_ok_nodup _ _ _ _ M) as Hn. simpl in Hn. apply NoDup_cons in Hn as [Hn _].
    split; [apply C|]. split; [done|]. split; [set_solver|].
    pose proof (mp_ok_range p mp _ _ b M) as [? ?]; [set_solver|]. split_and!; try done.
    exists mp'. split; [done|]. split; [simpl; by rewrite lookup_insert_eq|].
    split; [done|]. rewrite Ec. exact Hcnt.
Qed.

Lemma word_at_Some pools p mp b w :
  pools !! p = Some mp -> block_link mp !! b = Some w ->
  (forall p' mp', pools !! p' = Some mp' -> is_Some (block_link mp' !! b) -> p' = p) ->
  word_at pools b = Some w.
Proof.
  intros Ep Ew Hu. unfold word_at.
  destruct (omap _ (map_to_list pools)) as [|w' l] eqn:El.
  { assert (w ∈ @nil blk_link) as []%elem_of_nil. rewrite <-El. apply list_elem_of_omap.
    exists (p, mp). split; [by apply elem_of_map_to_list|done]. }
  assert (w' ∈ w' :: l) as Hin by left. rewrite <-El in Hin. simpl.
  apply list_elem_of_omap in Hin as ((p' & mp') & Hp'%elem_of_map_to_list & Ew').
  simpl in Ew'. assert (p' = p) as -> by (apply (Hu p' mp'); eauto).
  rewrite Ep in Hp'. injection Hp' as <-. congruence.
Qed.

(** The first waiting thread, if any, was made ready with the error code RT_EOK. *)
Definition mp_woken (k : kernel) (p : ptr) (k' : kernel) : Prop :=
  match tl k (QSuspend p) with
  | [] => threads k' = threads k /\ tl k' (QSuspend p) = []
  | t :: l => tl k' (QSuspend p) = l /\ exists th, threads k' !! t = Some th /\
      stat th = RT_THREAD_READY /\ error th = RT_EOK /\
      forall x, x <> t -> threads k' !! x = threads k !! x
  end.

Lemma wp_mp_wake m k p mp F A (Q : unit -> kernel -> Prop) :
  kernel_ok m k -> mp_inv k p mp F A -> Z.of_nat (length (tl k (QSuspend p))) < 2 ^ 32 ->
  (forall k' mp', kernel_ok m k' -> mp_inv k' p mp' F A -> mp_woken k p k' -> Q tt k') ->
  wp (if suspend_thread_count mp >? 0 then
        t ← tlist_first (QSuspend p);
        upd_thread t (set_error RT_EOK);;
        rt_thread_resume t;;
        upd_mempool p (fun mp => set_count (suspend_thread_count mp - 1) mp);;
        rt_schedule
      else mret tt) Q k.
Proof.
  intros O (Em & M & Hcnt) Hlen HQ.
  assert (suspend_thread_count mp = Z.of_nat (length (tl k (QSuspend p)))) as Hc.
  { rewrite Hcnt. apply wrap_small. unfold in_u. lia. }
  unfold mp_woken in HQ. destruct (tl k (QSuspend p)) as [|t l] eqn:El; rewrite Hc.
  { apply wp_ret, (HQ k mp); try done. split; [done|]. by rewrite El. }
  replace (_ >? 0) with true by (symmetry; apply Z.gtb_lt; simpl; lia).
  destruct (waiting_thread m k (QSuspend p) t O) as (th & Ht & Hs); [by eauto|rewrite El; left|].
  unfold tlist_first. apply wp_bind, wp_bind, wp_gets. rewrite El. apply wp_ret, wp_bind.
  apply (wp_upd_thread _ _ th); [done|].
  set (th1 := set_error RT_EOK th). set (k1 := set_threads _ k).
  assert (kernel_ok m k1) as O1 by (by eapply kok_update).
  apply wp_bind, (wp_resume m k1 t th1); [done|simpl; by rewrite lookup_insert_eq|done|].
  intros g tl' ts O2 _ _ _. apply wp_bind, (wp_upd_mempool _ _ _ mp); [done|].
  apply (wp_schedule m); [exact O2|]. intros pr c O3 _ _.
  assert (tl (k_resm t th1 g tl' ts k1) (QSuspend p) = l) as El'.
  { unfold tl. simpl. apply ready_lists_head; [|by eauto|done].
    rewrite <-El. apply (so_nodup _ _ _ (ko_sched _ _ _ _ _ _ _ _ O)). }
  eapply HQ; [exact O3| |split; [exact El'|]].
  - split; [simpl; by rewrite lookup_insert_eq|]. split; [by apply mp_ok_count_irrelevant|].
    simpl. change (tl _ (QSuspend p)) with (tl (k_resm t th1 g tl' ts k1) (QSuspend p)).
    rewrite El'. rewrite Hc. f_equal. simpl. lia.
  - exists (set_stat RT_THREAD_READY th1). simpl. split; [by rewrite lookup_insert_eq|].
    split_and!; try done. intros x Hx. by rewrite !lookup_insert_ne.
Qed.

(** [rt_mp_free], from a thread or an interrupt, finds the pool of an allocated block
    in its link word, makes the block the first free one and wakes the first waiting
    thread; the other allocated blocks stay allocated. *)
Theorem rt_mp_free_ok m k p mp F A b :
  kernel_ok m k -> mp_inv k p mp F A -> b ∈ A ->
  (forall p' mp', mempools k !! p' = Some mp' -> is_Some (block_link mp' !! b) -> p' = p) ->
  Z.of_nat (length (tl k (QSuspend p))) < 2 ^ 32 ->
  exists k' mp' A', rt_mp_free (b + sizeof_link) k = Some (tt, k') /\ kernel_ok m k' /\
    A ≡ₚ b :: A' /\ mp_inv k' p mp' (b :: F) A' /\ mp_woken k p k'.
Proof.
  intros O (Em & M & Hcnt) Hb Hu Hlen.
  apply elem_of_Permutation in Hb as HA. destruct HA as [A' HA].
  assert (wp (rt_mp_free (b + sizeof_link)) (fun _ k' => kernel_ok m k' /\
    exists mp', mp_inv k' p mp' (b :: F) A' /\ mp_woken k p k') k) as H.
  { unfold rt_mp_free. rewrite Z.add_simpl_r. apply wp_bind, wp_gets, wp_bind.
    apply (wp_lift _ (LinkPool p)); [eapply word_at_Some; [done|by apply M|done]|].
    apply wp_bind, (wp_lift _ p); [done|]. apply wp_bind, (wp_upd_mempool _ _ _ mp); [done|].
    set (k1 := set_mempools _ k).
    assert (mp_inv k1 p (mp_give b mp) (b :: F) A') as I1.
    { split; [simpl; by rewrite lookup_insert_eq|]. split; [by eapply mp_give_ok|exact Hcnt]. }
    apply wp_bind, (wp_deref _ _ (mp_give b mp)); [apply I1|].
    apply (wp_mp_wake m k1 p _ (b :: F) A'); [exact O|exact I1|exact Hlen|].
    intros k' mp' O' I' W'. split; [done|]. by exists mp'. }
  apply wp_exists in H as ([] & k' & E & O' & mp' & I' & W'). by exists k', mp', A'.
Qed.

(** ** Examples

    A pool at 40960 with one block of eight bytes, at 45056; thread 4096 runs. *)
Definition demo_mp : kernel :=
  after (rt_mp_create (Some 40960) (Some 45056) [112; 0] 1 8) demo.
Definition demo_mp_pool : rt_mempool := mp_pool_init 45056 12 8 1.
Definition demo_mp_taken : kernel := after (rt_mp_alloc 40960 0) demo_mp.
Definition demo_mp_taken_pool : rt_mempool :=
  Mempool 45056 12 8 None 1 0 0 {[ 45056 := LinkPool 40960 ]}.

Lemma demo_mp_inv : mp_inv demo_mp 40960 demo_mp_pool [45056] [].
Proof. split; [ev|]. split; [by apply (pool_init_ok 40960 45056 12 8 1)|ev]. Qed.

Lemma demo_mp_taken_inv : mp_inv demo_mp_taken 40960 demo_mp_taken_pool [] [45056].
Proof.
  split; [ev|]. split; [|ev]. split; simpl; try done.
  intros b Hb. apply list_elem_of_singleton in Hb as ->. ev.
Qed.

Lemma rt_mp_alloc_ok_witness :
  exists k', rt_mp_alloc 40960 5 demo_mp = Some (Some (Some 45060), k').
Proof.
  destruct (rt_mp_alloc_ok demo_mp 4096 (demo_th 4096) 40960 demo_mp_pool [45056] [] 5
    ltac:(ev_caller) demo_mp_inv ltac:(ev)) as (r & k' & E & _ & -> & _).
  exists k'. exact E.
Defined.

Lemma rt_mp_free_ok_witness :
  exists k' mp', rt_mp_free (45056 + sizeof_link) demo_mp_taken = Some (tt, k') /\
    mp_inv k' 40960 mp' [45056] [].
Proof.
  destruct (rt_mp_free_ok Task demo_mp_taken 40960 demo_mp_taken_pool [] [45056] 45056)
    as (k' & mp' & A' & E & _ & HA & I' & _).
  - apply kok_check_sound. ev.
  - exact demo_mp_taken_inv.
  - left.
  - intros p' mp' Hp' _. assert (map_Forall (fun x _ => x = 40960) (mempools demo_mp_taken)) as H.
    { apply (bool_decide_unpack _). vm_compute. exact I. }
    exact (H p' mp' Hp').
  - ev.
  - apply Permutation_singleton_l in HA as [= <-]. exists k', mp'. split; [exact E|exact I'].
Defined.

Definition no_timeouts (f p : Z) : K unit := mret tt.

(** Thread 4096 takes the only block and waits one tick for another; the tick
    comes and the thread gets null. *)
Definition demo_mp_timeout : kernel :=
  after (rt_mp_alloc 40960 0;; rt_mp_alloc 40960 1;; SysTick_Handler no_timeouts 5;;
         rt_mp_alloc_resume 40960 4096) demo_mp.

(** A wait that times out leaves [suspend_thread_count] behind: nobody waits for the
    pool any more and the counter says one; the next [rt_mp_free] then takes the head of
    the empty list for a thread (where the model stops). *)
Theorem mp_timeout_leaves_count :
  kernel_ok Task demo_mp_timeout /\ rt_current_thread demo_mp_timeout = Some 4096 /\
  tl demo_mp_timeout (QSuspend 40960) = [] /\
  suspend_thread_count <$> mempools demo_mp_timeout !! 40960 = Some 1 /\
  rt_mp_free 45060 demo_mp_timeout = None.
Proof. split; [apply kok_check_sound; ev|]. split_and!; ev. Qed.

(** Thread 8192 waits for the block that 4096 holds; 4096 frees it, which makes 8192 ready,
    and takes it again before 8192 runs. *)
Definition demo_mp_stolen : kernel :=
  after (rt_mp_alloc 40960 0;; rt_thread_sleep 1;; rt_mp_alloc 40960 RT_WAITING_FOREVER;;
         SysTick_Handler no_timeouts 5;; rt_mp_free 45060;; rt_mp_alloc 40960 0;;
         rt_thread_sleep 1) demo_mp.

(** A woken waiter of a pool takes a block without looking whether one is free: when
    the thread that freed the block has allocated it again in between, the waiter follows
    the null head of the free list (where the model stops). *)
Theorem mp_woken_waiter_finds_no_block :
  kernel_ok Task demo_mp_stolen /\ rt_current_thread demo_mp_stolen = Some 8192 /\
  error <$> threads demo_mp_stolen !! 8192 = Some RT_EOK /\
  block_free_count <$> mempools demo_mp_stolen !! 40960 = Some 0 /\
  rt_mp_alloc_resume 40960 8192 demo_mp_stolen = None.
Proof. split; [apply kok_check_sound; ev|]. split_and!; ev. Qed.

(** [rt_mp_init] on memory too small for one block still writes the last link, one
    block in front of the pool. *)
Theorem mp_init_no_room_writes_before :
  exists k', rt_mp_init 40960 [112; 0] 45056 8 8 demo = Some (RT_EOK, k') /\
    block_total_count <$> mempools k' !! 40960 = Some 0 /\
    (mempools k' !! 40960 ≫= fun mp => block_link mp !! (45056 - 12)) = Some (LinkNext None).
Proof. eexists. split; [vm_compute; reflexivity|]. split; ev. Qed.

End Mp.
