(* ===== verification/Heap.v ===== *)
(** * The heap: src/mem.c

    A first-fit allocator.  The heap is a sequence of blocks, each behind a
    header with the offsets of its neighbours; the last header, [heap_end], is
    always used.  The headers are a map from offsets to records and the data
    bytes another map; pointers into the heap are offsets from [heap_ptr].
    The operations are what happens while the semaphore [heap_sem] is held,
    which makes them exclusive; [nest] is the interrupt nesting level at the
    call, which the debug check of each operation reads. *)

From S2P Require Import Prelude.

Module Heap.

Definition HEAP_MAGIC : Z := 0x1ea0.

Record heap_mem := Heap_mem { magic : Z; used : Z; hnext : Z; hprev : Z }.

Definition set_magic (x : Z) (m : heap_mem) := Heap_mem x (used m) (hnext m) (hprev m).
Definition set_used (x : Z) (m : heap_mem) := Heap_mem (magic m) x (hnext m) (hprev m).
Definition set_hnext (x : Z) (m : heap_mem) := Heap_mem (magic m) (used m) x (hprev m).
Definition set_hprev (x : Z) (m : heap_mem) := Heap_mem (magic m) (used m) (hnext m) x.

Record heap := Mkheap {
  heap_ptr : Z;
  mem_size_aligned : Z;
  lfree : Z;                      (* an offset, as everything below *)
  used_mem : Z;
  max_mem : Z;
  headers : gmap Z heap_mem;
  bytes : gmap Z Z;
}.

Definition set_lfree (x : Z) (h : heap) : heap :=
  Mkheap (heap_ptr h) (mem_size_aligned h) x (used_mem h) (max_mem h) (headers h) (bytes h).
Definition set_used_mem (x : Z) (h : heap) : heap :=
  Mkheap (heap_ptr h) (mem_size_aligned h) (lfree h) x (max_mem h) (headers h) (bytes h).
Definition set_max_mem (x : Z) (h : heap) : heap :=
  Mkheap (heap_ptr h) (mem_size_aligned h) (lfree h) (used_mem h) x (headers h) (bytes h).
Definition set_headers (x : gmap Z heap_mem) (h : heap) : heap :=
  Mkheap (heap_ptr h) (mem_size_aligned h) (lfree h) (used_mem h) (max_mem h) x (bytes h).
Definition set_bytes (x : gmap Z Z) (h : heap) : heap :=
  Mkheap (heap_ptr h) (mem_size_aligned h) (lfree h) (used_mem h) (max_mem h) (headers h) x.

Definition MIN_SIZE : Z := 12.
Definition MIN_SIZE_ALIGNED : Z := 12.
Definition SIZEOF_STRUCT_MEM : Z := 12.

(** The offset of the last header. *)
Definition heap_end (h : heap) : Z := mem_size_aligned h + SIZEOF_STRUCT_MEM.

Definition guard (b : bool) : option unit := if b then Some tt else None.

Definition upd_hdr (o : Z) (f : heap_mem -> heap_mem) (h : heap) : option heap :=
  m ← headers h !! o; Some (set_headers (<[o := f m]> (headers h)) h).

(** ** Operations *)

(** Combining the free block [mem] with the block behind it. *)
Definition plug_forward (mem : Z) (h : heap) : option heap :=
  m ← headers h !! mem;
  let nmem := hnext m in
  n ← headers h !! nmem;
  if negb (mem =? nmem) && (used n =? 0) && negb (nmem =? heap_end h) then
    let h := if lfree h =? nmem then set_lfree mem h else h in
    h ← upd_hdr mem (set_hnext (hnext n)) h;
    upd_hdr (hnext n) (set_hprev mem) h
  else Some h.

(** Combining it with the block in front. *)
Definition plug_backward (mem : Z) (h : heap) : option heap :=
  m ← headers h !! mem;
  let pmem := hprev m in
  p ← headers h !! pmem;
  if negb (pmem =? mem) && (used p =? 0) then
    let h := if lfree h =? mem then set_lfree pmem h else h in
    h ← upd_hdr pmem (set_hnext (hnext m)) h;
    upd_hdr (hnext m) (set_hprev pmem) h
  else Some h.

Definition plug_holes (mem : Z) (h : heap) : option heap :=
  guard ((0 <=? mem) && (mem <? heap_end h));;
  m ← headers h !! mem;
  guard (used m =? 0);;
  h ← plug_forward mem h;
  plug_backward mem h.

(** [None]: the addresses leave no room, and nothing is initialised.  [memory]
    is what the bytes held before.  The initialisation of [heap_sem] is that of
    any semaphore. *)
Definition rt_system_heap_init (memory : gmap Z Z) (begin_addr end_addr : Z) : option heap :=
  let begin_align := RT_ALIGN begin_addr RT_ALIGN_SIZE in
  let end_align := RT_ALIGN_DOWN end_addr RT_ALIGN_SIZE in
  if (end_align >? 2 * SIZEOF_STRUCT_MEM) &&
     (end_align - 2 * SIZEOF_STRUCT_MEM >=? begin_align) then
    let size := end_align - begin_align - 2 * SIZEOF_STRUCT_MEM in
    let e := size + SIZEOF_STRUCT_MEM in
    Some (Mkheap begin_align size 0 0 0
      (<[e := Heap_mem HEAP_MAGIC 1 e e]> {[ 0 := Heap_mem HEAP_MAGIC 0 e 0 ]}) memory)
  else None.

(** [while (lfree->used && lfree != heap_end) lfree = lfree->next;] *)
Fixpoint lfree_loop (fuel : nat) (h : heap) : option heap :=
  match fuel with
  | O => None
  | S fuel =>
      m ← headers h !! lfree h;
      if truthy (used m) && negb (lfree h =? heap_end h)
      then lfree_loop fuel (set_lfree (hnext m) h)
      else Some h
  end.

Definition count_used (n : Z) (h : heap) : heap :=
  let h := set_used_mem (u32 (used_mem h + n)) h in
  if max_mem h <? used_mem h then set_max_mem (used_mem h) h else h.

Section alloc.

(** The magic field a header has before it is written: what the memory held. *)
Context (garbage : Z -> Z).

(** The header of the remainder of a split. *)
Definition split_hdr (ptr ptr2 : Z) (m : heap_mem) (h : heap) : heap :=
  let old := match headers h !! ptr2 with Some m2 => magic m2 | None => garbage ptr2 end in
  set_headers (<[ptr2 := Heap_mem old 0 (hnext m) ptr]> (headers h)) h.

(** Marking the block [ptr], with the header [m], as used, split when there is
    room for another block behind it. *)
Definition malloc_mark (size ptr : Z) (m : heap_mem) (h : heap) : option heap :=
  h ← (if u32 (hnext m - u32 (ptr + SIZEOF_STRUCT_MEM)) >=?
          size + SIZEOF_STRUCT_MEM + MIN_SIZE_ALIGNED then
         let ptr2 := ptr + SIZEOF_STRUCT_MEM + size in
         let h := split_hdr ptr ptr2 m h in
         h ← upd_hdr ptr (fun m => set_used 1 (set_hnext ptr2 m)) h;
         h ← (if negb (hnext m =? heap_end h) then upd_hdr (hnext m) (set_hprev ptr2) h
              else Some h);
         Some (count_used (size + SIZEOF_STRUCT_MEM) h)
       else
         h ← upd_hdr ptr (set_used 1) h;
         Some (count_used (u32 (hnext m - ptr)) h));
  upd_hdr ptr (set_magic HEAP_MAGIC) h.

(** Moving [lfree] on when it was the block [ptr]. *)
Definition malloc_lfree (ptr : Z) (h : heap) : option heap :=
  if ptr =? lfree h then
    h ← lfree_loop (S (map_size (headers h))) h;
    l ← headers h !! lfree h;
    guard ((lfree h =? heap_end h) || negb (truthy (used l)));;
    Some h
  else Some h.

(** The branch of the loop that found the block [ptr]. *)
Definition malloc_take (size ptr : Z) (m : heap_mem) (h : heap) : option (option Z * heap) :=
  h ← malloc_mark size ptr m h;
  h ← malloc_lfree ptr h;
  let mem := heap_ptr h + ptr in
  guard (mem + SIZEOF_STRUCT_MEM + size <=? heap_ptr h + heap_end h);;
  guard ((mem + SIZEOF_STRUCT_MEM) mod RT_ALIGN_SIZE =? 0);;
  guard (mem &. (RT_ALIGN_SIZE - 1) =? 0);;
  Some (Some (mem + SIZEOF_STRUCT_MEM), h).

Fixpoint malloc_loop (fuel : nat) (size ptr : Z) (h : heap) : option (option Z * heap) :=
  match fuel with
  | O => None
  | S fuel =>
      if ptr <? u32 (mem_size_aligned h - size) then
        m ← headers h !! ptr;
        if negb (truthy (used m)) && (u32 (hnext m - u32 (ptr + SIZEOF_STRUCT_MEM)) >=? size)
        then malloc_take size ptr m h
        else malloc_loop fuel size (hnext m) h
      else Some (None, h)
  end.

(** Every round of the loop moves to the next block, and every block has a
    header: their number bounds the rounds. *)
Definition rt_malloc (nest size : Z) (h : heap) : option (option Z * heap) :=
  guard (nest =? 0);;
  if size =? 0 then Some (None, h)
  else
    let size := RT_ALIGN size RT_ALIGN_SIZE in
    if size >? mem_size_aligned h then Some (None, h)
    else
      let size := if size <? MIN_SIZE_ALIGNED then MIN_SIZE_ALIGNED else size in
      malloc_loop (S (map_size (headers h))) size (lfree h) h.

Definition rt_free (nest : Z) (rmem : option Z) (h : heap) : option heap :=
  guard (nest =? 0);;
  match rmem with
  | None => Some h
  | Some rmem =>
      guard (rmem &. (RT_ALIGN_SIZE - 1) =? 0);;
      guard ((rmem >=? heap_ptr h) && (rmem <? heap_ptr h + heap_end h));;
      let mem := rmem - SIZEOF_STRUCT_MEM - heap_ptr h in
      m ← headers h !! mem;
      guard (truthy (used m));;
      guard (magic m =? HEAP_MAGIC);;
      h ← upd_hdr mem (fun m => set_magic 0 (set_used 0 m)) h;
      let h := if mem <? lfree h then set_lfree mem h else h in
      let h := set_used_mem (u32 (used_mem h - u32 (hnext m - mem))) h in
      plug_holes mem h
  end.

(** [rt_memcpy] and [rt_memset] on the data bytes. *)
Fixpoint copy_bytes (n : nat) (dst src : Z) (b : gmap Z Z) : gmap Z Z :=
  match n with
  | O => b
  | S n =>
      let b := match b !! src with Some x => <[dst := x]> b | None => delete dst b end in
      copy_bytes n (dst + 1) (src + 1) b
  end.

Fixpoint zero_bytes (n : nat) (dst : Z) (b : gmap Z Z) : gmap Z Z :=
  match n with
  | O => b
  | S n => zero_bytes n (dst + 1) (<[dst := 0]> b)
  end.

Definition rt_realloc (nest : Z) (rmem : option Z) (newsize : Z) (h : heap) :
    option (option Z * heap) :=
  guard (nest =? 0);;
  let newsize := RT_ALIGN newsize RT_ALIGN_SIZE in
  if newsize >? mem_size_aligned h then Some (None, h)
  else match rmem with
  | None => rt_malloc nest newsize h
  | Some rmem =>
      if (rmem <? heap_ptr h) || (rmem >=? heap_ptr h + heap_end h) then Some (Some rmem, h)
      else
        let ptr := rmem - SIZEOF_STRUCT_MEM - heap_ptr h in
        m ← headers h !! ptr;
        let size := u32 (u32 (hnext m - ptr) - SIZEOF_STRUCT_MEM) in
        if size =? newsize then Some (Some rmem, h)
        else if newsize + SIZEOF_STRUCT_MEM + MIN_SIZE <? size then
          let h := set_used_mem (u32 (used_mem h - (size - newsize))) h in
          let ptr2 := ptr + SIZEOF_STRUCT_MEM + newsize in
          let h := set_headers
            (<[ptr2 := Heap_mem HEAP_MAGIC 0 (hnext m) ptr]> (headers h)) h in
          h ← upd_hdr ptr (set_hnext ptr2) h;
          h ← (if negb (hnext m =? heap_end h) then upd_hdr (hnext m) (set_hprev ptr2) h
               else Some h);
          h ← plug_holes ptr2 h;
          Some (Some rmem, h)
        else
          r ← rt_malloc nest newsize h;
          let '(nmem, h) := r in
          match nmem with
          | None => Some (None, h)
          | Some nmem =>
              let n := if size <? newsize then size else newsize in
              let h := set_bytes (copy_bytes (Z.to_nat n) (nmem - heap_ptr h)
                                    (rmem - heap_ptr h) (bytes h)) h in
              h ← rt_free nest (Some rmem) h;
              Some (Some nmem, h)
          end
  end.

Definition rt_calloc (nest count size : Z) (h : heap) : option (option Z * heap) :=
  guard (nest =? 0);;
  r ← rt_malloc nest (u32 (count * size)) h;
  let '(p, h) := r in
  match p with
  | None => Some (None, h)
  | Some p =>
      Some (Some p, set_bytes (zero_bytes (Z.to_nat (u32 (count * size))) (p - heap_ptr h)
                                 (bytes h)) h)
  end.

End alloc.

Definition rt_memory_info (h : heap) : Z * Z * Z := (mem_size_aligned h, used_mem h, max_mem h).

(** ** Blocks

    The blocks of a heap, in the order of their offsets, with their used
    flags; [e] is the offset behind the last. *)

Definition first (bl : list (Z * bool)) (e : Z) : Z :=
  match bl with [] => e | (o, _) :: _ => o end.

Fixpoint last_off (prev : Z) (bl : list (Z * bool)) : Z :=
  match bl with [] => prev | (o, _) :: bl => last_off o bl end.

Definition hdr_ok (hd : gmap Z heap_mem) (o : Z) (u : bool) (next prev : Z) : Prop :=
  exists m, hd !! o = Some m /\ used m = (if u then 1 else 0) /\
    (u = true -> magic m = HEAP_MAGIC) /\ hnext m = next /\ hprev m = prev.

Fixpoint hchain (hd : gmap Z heap_mem) (prev : Z) (bl : list (Z * bool)) (e : Z) : Prop :=
  match bl with
  | [] => True
  | (o, u) :: bl =>
      hdr_ok hd o u (first bl e) prev /\ o + SIZEOF_STRUCT_MEM <= first bl e /\
      (first bl e - o) mod 4 = 0 /\ hchain hd o bl e
  end.

(** No two free blocks next to each other. *)
Fixpoint plugged (bl : list (Z * bool)) : Prop :=
  match bl with
  | (_, false) :: ((_, false) :: _) => False
  | _ :: bl => plugged bl
  | [] => True
  end.

(** The allocated regions, headers included. *)
Fixpoint used_blocks (bl : list (Z * bool)) (e : Z) : list (Z * Z) :=
  match bl with
  | [] => []
  | (o, true) :: bl => (o, first bl e) :: used_blocks bl e
  | (_, false) :: bl => used_blocks bl e
  end.

Definition total_used (l : list (Z * Z)) : Z := foldr (fun x n => x.2 - x.1 + n) 0 l.

(** The heap is made of the blocks [bl]. *)
Record heap_core (h : heap) (bl : list (Z * bool)) : Prop := {
  ho_first : first bl (heap_end h) = 0;
  ho_size : 0 <= mem_size_aligned h;
  ho_addr : 0 < heap_ptr h /\ heap_ptr h + heap_end h + SIZEOF_STRUCT_MEM < 2 ^ 32;
  ho_align : heap_ptr h mod 4 = 0 /\ mem_size_aligned h mod 4 = 0;
  ho_chain : hchain (headers h) 0 bl (heap_end h);
  ho_end : exists m, headers h !! heap_end h = Some m /\ used m = 1 /\ hnext m = heap_end h;
  ho_used : used_mem h = total_used (used_blocks bl (heap_end h));
  ho_room o : (o, true) ∈ bl -> o + SIZEOF_STRUCT_MEM < heap_end h;
}.

(** [lfree] is a free block, or the end. *)
Definition lfree_ok (h : heap) (bl : list (Z * bool)) : Prop :=
  lfree h = heap_end h \/ (lfree h, false) ∈ bl.

Definition heap_ok (h : heap) (bl : list (Z * bool)) : Prop :=
  heap_core h bl /\ plugged bl /\ lfree_ok h bl.

(** [lfree] is the lowest free block. *)
Definition lowest (h : heap) (bl : list (Z * bool)) : Prop :=
  forall o, (o, false) ∈ bl -> lfree h <= o.

(** ** Lists of blocks *)

Lemma first_app l1 l2 e : first (l1 ++ l2) e = first l1 (first l2 e).
Proof. by destruct l1 as [|[]]. Qed.

Lemma last_off_app p l1 l2 : last_off p (l1 ++ l2) = last_off (last_off p l1) l2.
Proof. revert p. induction l1 as [|[o u] l1 IH]; intros p; simpl; [done|]. apply IH. Qed.

Lemma used_blocks_app l1 l2 e :
  used_blocks (l1 ++ l2) e = used_blocks l1 (first l2 e) ++ used_blocks l2 e.
Proof.
  induction l1 as [|[o []] l1 IH]; simpl; [done|by rewrite IH, first_app|done].
Qed.

Lemma total_used_app l1 l2 : total_used (l1 ++ l2) = total_used l1 + total_used l2.
Proof. induction l1 as [|x l1 IH]; simpl; [done|]. rewrite IH. lia. Qed.

Lemma hchain_app hd p l1 l2 e :
  hchain hd p (l1 ++ l2) e <-> hchain hd p l1 (first l2 e) /\ hchain hd (last_off p l1) l2 e.
Proof.
  revert p. induction l1 as [|[o u] l1 IH]; intros p; simpl; [tauto|].
  rewrite IH, first_app. tauto.
Qed.

Lemma hchain_first hd p l e : hchain hd p l e -> first l e <= e.
Proof.
  revert p. induction l as [|[o u] l IH]; intros p; simpl; [lia|].
  intros (_ & H1 & _ & H2%IH). unfold SIZEOF_STRUCT_MEM in *. lia.
Qed.

Lemma hchain_bounds hd p l e o u :
  hchain hd p l e -> (o, u) ∈ l -> first l e <= o /\ o + SIZEOF_STRUCT_MEM <= e.
Proof.
  revert p. induction l as [|[o' u'] l IH]; intros p; simpl; [by intros _ []%elem_of_nil|].
  intros (_ & H1 & _ & H2) [[= -> ->]|Hin]%elem_of_cons.
  - split; [done|]. pose proof (hchain_first _ _ _ _ H2). lia.
  - destruct (IH _ H2 Hin). unfold SIZEOF_STRUCT_MEM in *. lia.
Qed.

Lemma hchain_mod4 hd p l e : hchain hd p l e -> (e - first l e) mod 4 = 0.
Proof.
  revert p. induction l as [|[o u] l IH]; intros p; simpl; [by rewrite Z.sub_diag|].
  intros (_ & _ & H1 & H2%IH). replace (e - o) with (e - first l e + (first l e - o)) by lia.
  by rewrite Z.add_mod, H1, H2.
Qed.

Lemma hchain_ext hd hd' p l e :
  (forall x, first l e <= x < e -> hd' !! x = hd !! x) -> hchain hd p l e -> hchain hd' p l e.
Proof.
  revert p. induction l as [|[o u] l IH]; intros p; simpl; [done|].
  intros Hx (H0 & H1 & H2 & H3). pose proof (hchain_first _ _ _ _ H3) as Hf.
  unfold SIZEOF_STRUCT_MEM in *. split_and!; try done.
  - destruct H0 as (m & ? & ?). exists m. rewrite Hx by lia. done.
  - apply IH; [|done]. intros x ?. apply Hx. lia.
Qed.

Lemma hchain_total hd p l e :
  hchain hd p l e -> 0 <= total_used (used_blocks l e) <= e - first l e.
Proof.
  revert p. induction l as [|[o u] l IH]; intros p; simpl; [lia|].
  intros (_ & H1 & _ & H2%IH). unfold SIZEOF_STRUCT_MEM in *. destruct u; simpl; lia.
Qed.

(** Only the link back of the first header changes. *)
Lemma hchain_relink hd hd' p p' l e :
  hchain hd p l e ->
  (forall m, hd !! first l e = Some m -> hd' !! first l e = Some (set_hprev p' m) \/
     (l = [] /\ hd' !! first l e = Some m)) ->
  (forall x, first l e < x < e -> hd' !! x = hd !! x) -> hchain hd' p' l e.
Proof.
  destruct l as [|[o u] l]; [done|]. intros (H0 & H1 & H2 & H3) Hm Hx. simpl in *.
  destruct H0 as (m & Hl & Hu & Hmg & Hn & _).
  destruct (Hm m Hl) as [Hl'|[? _]]; [|done]. split_and!; try done.
  - by exists (set_hprev p' m).
  - unfold SIZEOF_STRUCT_MEM in *. eapply hchain_ext; [|exact H3]. intros x ?. apply Hx. lia.
Qed.

(** Replacing the blocks [mid] by [mid']: the headers of [mid'] are in place,
    the one behind links back to them, and [used_mem] was adjusted. *)
Lemma core_replace h h' l1 mid mid' l2 t q :
  heap_core h (l1 ++ mid ++ l2) -> t = first l2 (heap_end h) ->
  q = last_off (last_off 0 l1) mid' ->
  heap_ptr h' = heap_ptr h -> mem_size_aligned h' = mem_size_aligned h ->
  first mid' t = first mid t -> hchain (headers h') (last_off 0 l1) mid' t ->
  (forall x, x < first mid t \/ t < x -> headers h' !! x = headers h !! x) ->
  (forall m, headers h !! t = Some m -> headers h' !! t = Some (set_hprev q m) \/
     (l2 = [] /\ headers h' !! t = Some m)) ->
  used_mem h' = u32 (used_mem h + total_used (used_blocks mid' t) - total_used (used_blocks mid t)) ->
  (forall o, (o, true) ∈ mid' -> o + SIZEOF_STRUCT_MEM < heap_end h) ->
  heap_core h' (l1 ++ mid' ++ l2).
Proof.
  intros [H1 H2 H3 H4 H5 H6 H7 H8] -> -> Ep Es Ef Hc Hx Hm Hu Hr.
  assert (heap_end h' = heap_end h) as Ee by (unfold heap_end; by rewrite Es).
  assert (hchain (headers h') 0 (l1 ++ mid' ++ l2) (heap_end h)) as Hch.
  { apply hchain_app in H5 as [C1 C2]. apply hchain_app in C2 as [C2 C3].
    rewrite !first_app in *. apply hchain_app. rewrite first_app, Ef. split.
    { eapply hchain_ext; [|exact C1]. intros x ?. apply Hx. lia. }
    apply hchain_app. split; [done|]. eapply hchain_relink; [exact C3|done|].
    intros x ?. apply Hx. lia. }
  rewrite !first_app in H1. split; rewrite ?Ep, ?Es, ?Ee; try done.
  - by rewrite !first_app, Ef.
  - destruct H6 as (m & Hl & Hu' & Hn).
    destruct (decide (heap_end h = first l2 (heap_end h))) as [E|Hne].
    + rewrite <-E in Hm. destruct (Hm m Hl) as [->|[_ ->]]; eauto.
    + exists m. rewrite Hx; [done|].
      apply hchain_app in H5 as [_ C2]. apply hchain_app in C2 as [_ C3].
      pose proof (hchain_first _ _ _ _ C3). lia.
  - rewrite Hu, H7. pose proof (hchain_total _ _ _ _ Hch) as Ht. rewrite !first_app, Ef, H1 in Ht.
    rewrite !used_blocks_app, !total_used_app, !first_app, Ef in *.
    unfold SIZEOF_STRUCT_MEM in *. rewrite wrap_small; unfold in_u; lia.
  - intros o. rewrite !elem_of_app. intros [?|[?|?]]; [apply H8|by apply Hr|apply H8]; set_solver.
Qed.

(** A block of the heap, its header and its place. *)
Lemma core_block h l1 o u l2 :
  heap_core h (l1 ++ (o, u) :: l2) ->
  hdr_ok (headers h) o u (first l2 (heap_end h)) (last_off 0 l1) /\
  0 <= o /\ o + SIZEOF_STRUCT_MEM <= first l2 (heap_end h) <= heap_end h /\
  (first l2 (heap_end h) - o) mod 4 = 0 /\ o mod 4 = 0.
Proof.
  intros [H1 H2 H3 H4 H5 H6 H7 _]. apply hchain_app in H5 as [C1 (C2 & C3 & C4 & C5)].
  pose proof (hchain_first _ _ _ _ C1) as F1. pose proof (hchain_first _ _ _ _ C5) as F2.
  pose proof (hchain_mod4 _ _ _ _ C1) as M. rewrite first_app in H1. simpl in *.
  rewrite H1, Z.sub_0_r in M. rewrite H1 in F1. done.
Qed.

(** The header behind a block is a header of the heap. *)
Lemma core_behind h l1 l2 :
  heap_core h (l1 ++ l2) -> exists m, headers h !! first l2 (heap_end h) = Some m /\
    used m = match l2 with (_, false) :: _ => 0 | _ => 1 end /\
    hnext m = match l2 with _ :: l3 => first l3 (heap_end h) | [] => heap_end h end.
Proof.
  intros C. destruct l2 as [|[o u] l2]; [apply C|].
  destruct (core_block _ _ _ _ _ C) as [(m & Hm & Hu & _ & Hn & _) _].
  exists m. split_and!; try done.
Qed.

Lemma set_hprev_id m : set_hprev (hprev m) m = m.
Proof. by destruct m. Qed.

(** What the operations keep apart from the blocks. *)
Definition same_heap (h h' : heap) : Prop :=
  heap_ptr h' = heap_ptr h /\ mem_size_aligned h' = mem_size_aligned h /\ bytes h' = bytes h.

Lemma same_end h h' : same_heap h h' -> heap_end h' = heap_end h.
Proof. intros (_ & E & _). unfold heap_end. by rewrite E. Qed.

Lemma lfree_core h x bl : heap_core h bl -> heap_core (set_lfree x h) bl.
Proof. intros []. by split. Qed.

(** ** Coalescing *)

Lemma core_join h l1 a ua b l2 ma mb mt :
  heap_core h (l1 ++ (a, ua) :: (b, false) :: l2) -> ua = false ->
  headers h !! a = Some ma -> headers h !! b = Some mb ->
  headers h !! first l2 (heap_end h) = Some mt ->
  heap_core (set_headers (<[first l2 (heap_end h) := set_hprev a mt]>
    (<[a := set_hnext (first l2 (heap_end h)) ma]> (headers h))) h) (l1 ++ (a, false) :: l2).
Proof.
  intros C -> Ha Hb Ht. destruct (core_block _ _ _ _ _ C) as [(ma' & Ea & Hu & Hmg & Hn & Hp) Hr].
  assert (ma' = ma) as -> by congruence. simpl in Hr.
  assert (heap_core h ((l1 ++ [(a, false)]) ++ (b, false) :: l2)) as C'.
  { by rewrite <-app_assoc. }
  destruct (core_block _ _ _ _ _ C') as [_ Hr']. unfold SIZEOF_STRUCT_MEM in *.
  eapply (core_replace h _ l1 [(a, false); (b, false)] [(a, false)] l2 _ a C); try done; simpl.
  - split_and!; unfold SIZEOF_STRUCT_MEM; try lia.
    + exists (set_hnext (first l2 (heap_end h)) ma).
      rewrite lookup_insert_ne, lookup_insert_eq by lia. done.
    + destruct Hr as (_ & _ & E1 & _), Hr' as (_ & _ & E2 & _). simpl in E1.
      replace (first l2 (heap_end h) - a) with ((b - a) + (first l2 (heap_end h) - b)) by lia.
      by rewrite Z.add_mod, E1, E2 by lia.
  - intros x Hx. rewrite !lookup_insert_ne by lia. done.
  - intros m Hm. left. rewrite lookup_insert_eq. congruence.
  - rewrite Z.add_0_r, Z.sub_0_r. destruct C as [? ? ? ? Hch ? -> _].
    pose proof (hchain_total _ _ _ _ Hch) as Ht'. unfold SIZEOF_STRUCT_MEM in *.
    rewrite wrap_small; unfold in_u; lia.
  - set_solver.
Qed.

Lemma free_in_dead h l1 l2 o n u :
  heap_core h (l1 ++ (o, u) :: l2) -> (n, false) ∈ l1 ++ (o, u) :: l2 -> u = true -> n <> o.
Proof.
  intros C Hin -> ->. apply elem_of_app in Hin as [Hin|Hin].
  - destruct C as [? ? ? ? H5]. apply hchain_app in H5 as [C1 _].
    destruct (hchain_bounds _ _ _ _ _ _ C1 Hin). unfold SIZEOF_STRUCT_MEM in *. simpl in *. lia.
  - apply elem_of_cons in Hin as [[=]|Hin]. destruct C as [? ? ? ? H5].
    apply hchain_app in H5 as [_ (_ & H6 & _ & H7)].
    destruct (hchain_bounds _ _ _ _ _ _ H7 Hin). unfold SIZEOF_STRUCT_MEM in *. lia.
Qed.

Definition joined (l2 : list (Z * bool)) : list (Z * bool) :=
  match l2 with (_, false) :: l3 => l3 | _ => l2 end.

Lemma plug_forward_ok h l1 o l2 :
  heap_core h (l1 ++ (o, false) :: l2) -> lfree_ok h (l1 ++ (o, false) :: l2) ->
  exists h', plug_forward o h = Some h' /\ same_heap h h' /\ lfree h' <= lfree h /\
    heap_core h' (l1 ++ (o, false) :: joined l2) /\ lfree_ok h' (l1 ++ (o, false) :: joined l2).
Proof.
  intros C L. destruct (core_block _ _ _ _ _ C) as [(m & Hm & Hu & _ & Hn & _) Hr].
  assert (heap_core h ((l1 ++ [(o, false)]) ++ l2)) as C' by (by rewrite <-app_assoc).
  destruct (core_behind h _ l2 C') as (n & Hn' & Hun & Hnn).
  unfold plug_forward. rewrite Hm. simpl. rewrite Hn, Hn'. simpl. unfold SIZEOF_STRUCT_MEM in Hr.
  rewrite (proj2 (Z.eqb_neq o _)) by lia. simpl.
  destruct l2 as [|[b []] l2]; rewrite Hun; simpl in *; [by exists h|by exists h|].
  destruct (core_block _ _ _ _ _ C') as [_ Hr']. unfold SIZEOF_STRUCT_MEM in Hr'.
  rewrite (proj2 (Z.eqb_neq b _)) by lia. simpl.
  assert (heap_core h ((l1 ++ [(o, false); (b, false)]) ++ l2)) as C'' by (by rewrite <-app_assoc).
  destruct (core_behind h _ l2 C'') as (mt & Ht & _).
  set (h1 := if lfree h =? b then set_lfree o h else h).
  assert (headers h1 = headers h) as E1 by (subst h1; by destruct (_ =? _)).
  unfold upd_hdr. rewrite E1, Hm. simpl. rewrite Hnn, lookup_insert_ne, Ht by lia. simpl.
  eexists. split; [done|].
  pose proof (core_join h l1 o false b l2 m n mt C eq_refl Hm Hn' Ht) as CJ.
  subst h1. destruct (Z.eqb_spec (lfree h) b) as [El|Hne].
  - split_and!; [done|simpl; lia|by apply (lfree_core _ o) in CJ|]. right. simpl. set_solver.
  - split_and!; [done|simpl; lia|done|]. destruct L as [L|L]; [by left|]. right. simpl. set_solver.
Qed.

Definition starts_free (l : list (Z * bool)) : Prop := exists o l', l = (o, false) :: l'.
Definition ends_free (l : list (Z * bool)) : Prop := exists o l', l = l' ++ [(o, false)].

Lemma plugged_cons o u l :
  plugged ((o, u) :: l) <-> plugged l /\ ~ (u = false /\ starts_free l).
Proof.
  unfold starts_free. destruct u; simpl; [naive_solver|].
  destruct l as [|[o' []] l]; naive_solver.
Qed.

Lemma plugged_app l1 l2 :
  plugged (l1 ++ l2) <-> plugged l1 /\ plugged l2 /\ ~ (ends_free l1 /\ starts_free l2).
Proof.
  induction l1 as [|[o u] l1 IH].
  - simpl. split; [|tauto]. intros H. split_and!; try done.
    intros [(o & l & E) _]. by destruct l.
  - rewrite <-app_comm_cons, !plugged_cons, IH. destruct l1 as [|x l1].
    + simpl. assert (ends_free [(o, u)] <-> u = false) as ->.
      { unfold ends_free. split; [|intros ->; by exists o, []].
        intros (o' & l & E). destruct l as [|? [|]]; naive_solver. }
      assert (~ ends_free []) by (intros (? & [] & ?); done).
      assert (~ starts_free []) by (intros (? & ? & ?); done). tauto.
    + assert (ends_free ((o, u) :: x :: l1) <-> ends_free (x :: l1)) as ->.
      { unfold ends_free. split; intros (o' & l & E).
        - destruct l as [|y l]; [done|]. exists o', l. naive_solver.
        - exists o', ((o, u) :: l). by rewrite E. }
      assert (starts_free ((x :: l1) ++ l2) <-> starts_free (x :: l1)) as ->.
      { unfold starts_free. split; intros (o' & l & E); simpl in E; injection E as -> ?; eauto. }
      tauto.
Qed.

Lemma joined_plugged l : plugged l -> plugged (joined l) /\ ~ starts_free (joined l).
Proof.
  destruct l as [|[o []] l]; simpl joined; intros P;
    [split; [done|intros (? & ? & [=])]..|]. apply plugged_cons in P. tauto.
Qed.

(** What [plug_holes] makes of a free block between the blocks of [l1] and [l2]. *)
Definition plug_result (h h' : heap) (bl bl' : list (Z * bool)) : Prop :=
  same_heap h h' /\ lfree h' <= lfree h /\ heap_ok h' bl' /\
  used_blocks bl' (heap_end h) = used_blocks bl (heap_end h) /\
  (forall x, (x, false) ∈ bl' -> (x, false) ∈ bl).

Lemma plug_backward_ok h l1 o l2 :
  heap_core h (l1 ++ (o, false) :: l2) -> lfree_ok h (l1 ++ (o, false) :: l2) ->
  plugged l1 -> plugged l2 -> ~ starts_free l2 ->
  exists h' bl', plug_backward o h = Some h' /\ plug_result h h' (l1 ++ (o, false) :: l2) bl'.
Proof.
  intros C L P1 P2 Hs. destruct (core_block _ _ _ _ _ C) as [(m & Hm & Hu & _ & Hn & Hp) Hr].
  unfold plug_backward. rewrite Hm. simpl. rewrite Hp. unfold SIZEOF_STRUCT_MEM in Hr.
  destruct l1 as [|[p u] l1 _] using rev_ind.
  { pose proof (ho_first _ _ C) as E0. simpl in *. subst o. rewrite Hm. simpl.
    eexists _, _. split; [done|]. split_and!; [done|lia| |done|done].
    split; [done|]. split; [|done]. apply plugged_cons. tauto. }
  rewrite last_off_app. simpl. rewrite <-app_assoc in C. simpl in C.
  destruct (core_block _ _ _ _ _ C) as [(mp & Hmp & Hup & _) Hr']. simpl in Hr'.
  unfold SIZEOF_STRUCT_MEM in Hr'. rewrite Hmp. simpl. rewrite (proj2 (Z.eqb_neq p o)) by lia.
  rewrite Hup. apply plugged_app in P1 as (P0 & _ & Hend).
  destruct u; simpl.
  { eexists _, _. split; [done|]. split_and!; [done|lia| |done|done].
    rewrite <-app_assoc. simpl. split; [done|]. split; [|by rewrite <-app_assoc in L].
    apply plugged_app. rewrite !plugged_cons. split_and!; try tauto; try naive_solver.
    intros [_ (? & ? & [=])]. }
  assert (heap_core h ((l1 ++ [(p, false); (o, false)]) ++ l2)) as C'' by (by rewrite <-app_assoc).
  destruct (core_behind h _ l2 C'') as (mt & Ht & _).
  set (h1 := if lfree h =? o then set_lfree p h else h).
  assert (headers h1 = headers h) as E1 by (subst h1; by destruct (_ =? _)).
  unfold upd_hdr. rewrite E1, Hmp. simpl. rewrite Hn, lookup_insert_ne, Ht by lia. simpl.
  eexists _, (l1 ++ (p, false) :: l2). split; [done|].
  pose proof (core_join h l1 p false o l2 mp m mt C eq_refl Hmp Hm Ht) as CJ.
  assert (plugged (l1 ++ (p, false) :: l2)) as PJ.
  { apply plugged_app. rewrite plugged_cons. split_and!; try tauto.
    intros [He _]. apply Hend. split; [done|]. by exists p, []. }
  rewrite <-app_assoc in *. subst h1. unfold plug_result. rewrite !used_blocks_app. simpl.
  destruct (Z.eqb_spec (lfree h) o) as [El|Hne]; (split_and!; [done|simpl; lia| |done|set_solver]).
  - split; [by apply (lfree_core _ p) in CJ|]. split; [done|]. right. simpl. set_solver.
  - split; [done|]. split; [done|]. destruct L as [L|L]; [by left|]. right. simpl in *. set_solver.
Qed.

Lemma plug_holes_ok h l1 o l2 :
  heap_core h (l1 ++ (o, false) :: l2) -> lfree_ok h (l1 ++ (o, false) :: l2) ->
  plugged l1 -> plugged l2 ->
  exists h' bl', plug_holes o h = Some h' /\ plug_result h h' (l1 ++ (o, false) :: l2) bl'.
Proof.
  intros C L P1 P2. destruct (core_block _ _ _ _ _ C) as [(m & Hm & Hu & _) Hr].
  destruct (joined_plugged l2 P2) as [P2' Hs].
  destruct (plug_forward_ok h l1 o l2 C L) as (h1 & E1 & S1 & F1 & C1 & L1).
  destruct (plug_backward_ok h1 l1 o (joined l2) C1 L1 P1 P2' Hs)
    as (h2 & bl' & E2 & S2 & F2 & K2 & U2 & I2).
  unfold plug_holes. unfold SIZEOF_STRUCT_MEM in Hr.
  replace ((0 <=? o) && (o <? heap_end h)) with true by
    (symmetry; apply andb_true_iff; split; [apply Z.leb_le|apply Z.ltb_lt]; lia).
  simpl. rewrite Hm. simpl. rewrite Hu. simpl. rewrite E1. simpl.
  exists h2, bl'. split; [exact E2|]. rewrite (same_end _ _ S1) in U2.
  split_and!; try lia; try done.
  - destruct S1 as (?&?&?), S2 as (?&?&?). split_and!; congruence.
  - rewrite U2, !used_blocks_app. simpl. by destruct l2 as [|[? []] l2].
  - intros x Hx%I2. destruct l2 as [|[? []] l2]; simpl in *; set_solver.
Qed.

(** ** Freeing *)

Lemma land_align x : x mod 4 = 0 -> (x &. (RT_ALIGN_SIZE - 1)) = 0.
Proof. intros H. change (RT_ALIGN_SIZE - 1) with (Z.ones 2). by rewrite Z.land_ones. Qed.

Lemma core_aligned h bl o : heap_core h bl -> o mod 4 = 0 -> (heap_ptr h + o) mod 4 = 0.
Proof. intros C Ho. rewrite Z.add_mod, Ho by lia. destruct (ho_align _ _ C) as [-> _]. done. Qed.

(** Replacing the flag of one block. *)
Lemma core_flag h l1 o u u' l2 m m' lf mx :
  heap_core h (l1 ++ (o, u) :: l2) -> headers h !! o = Some m ->
  used m' = (if u' : bool then 1 else 0) -> (u' = true -> magic m' = HEAP_MAGIC) ->
  hnext m' = hnext m -> hprev m' = hprev m -> (u' = true -> o + SIZEOF_STRUCT_MEM < heap_end h) ->
  heap_core (Mkheap (heap_ptr h) (mem_size_aligned h) lf
    (u32 (used_mem h + (if u' then first l2 (heap_end h) - o else 0) -
       (if u then first l2 (heap_end h) - o else 0))) mx
    (<[o := m']> (headers h)) (bytes h)) (l1 ++ (o, u') :: l2).
Proof.
  intros C Hm Hu Hmg En Ep Hroom.
  destruct (core_block _ _ _ _ _ C) as [(m0 & Hm0 & _ & _ & Hn0 & Hp0) Hr].
  assert (m0 = m) as -> by congruence.
  assert (heap_core h ((l1 ++ [(o, u)]) ++ l2)) as C' by (by rewrite <-app_assoc).
  apply (core_replace h _ l1 [(o, u)] [(o, u')] l2 (first l2 (heap_end h)) o); try done; simpl.
  - split_and!; try done; try apply Hr. exists m'. rewrite lookup_insert_eq.
    split_and!; first [done|congruence].
  - intros x Hx. rewrite lookup_insert_ne; [done|]. unfold SIZEOF_STRUCT_MEM in *. lia.
  - intros mt Ht. unfold SIZEOF_STRUCT_MEM in *. rewrite lookup_insert_ne by lia.
    destruct l2 as [|[o2 u2] l2]; [by right|]. left. rewrite Ht. f_equal.
    destruct (core_block _ _ _ _ _ C') as [(m2 & Hm2 & _ & _ & _ & Hp2) _].
    rewrite last_off_app in Hp2. simpl in *. rewrite Ht in Hm2. injection Hm2 as ->.
    rewrite <-Hp2 at 1. by rewrite set_hprev_id.
  - f_equal. destruct u, u'; simpl; lia.
  - intros x Hx. apply list_elem_of_singleton in Hx as [= -> <-]. by apply Hroom.
Qed.

Definition freed (h h' : heap) (l1 : list (Z * bool)) (o : Z) (l2 bl' : list (Z * bool)) : Prop :=
  same_heap h h' /\ heap_ok h' bl' /\
  used_blocks bl' (heap_end h) = used_blocks l1 o ++ used_blocks l2 (heap_end h) /\
  (lowest h (l1 ++ (o, true) :: l2) -> lowest h' bl').

Lemma free_used h l1 o l2 :
  heap_ok h (l1 ++ (o, true) :: l2) ->
  exists h' bl', rt_free 0 (Some (heap_ptr h + o + SIZEOF_STRUCT_MEM)) h = Some h' /\
    freed h h' l1 o l2 bl'.
Proof.
  intros (C & P & L). destruct (core_block _ _ _ _ _ C) as [(m & Hm & Hu & Hmg & Hn & Hp) Hr].
  pose proof (ho_room _ _ C o ltac:(set_solver)) as Hroom.
  unfold rt_free. cbn [Z.eqb guard mbind option_bind].
  rewrite land_align by (rewrite <-Z.add_assoc; apply (core_aligned _ _ _ C);
    rewrite Z.add_mod; [by destruct Hr as (_ & _ & _ & ->)|lia]).
  unfold SIZEOF_STRUCT_MEM in *.
  replace (_ && _) with true by (symmetry; apply andb_true_iff; split; [apply Z.geb_le|apply Z.ltb_lt]; lia).
  cbn [Z.eqb guard mbind option_bind].
  replace (heap_ptr h + o + 12 - 12 - heap_ptr h) with o by lia.
  unfold upd_hdr. rewrite Hm. simpl. rewrite Hu, (Hmg eq_refl). simpl. rewrite Hn.
  set (h2 := set_used_mem _ _).
  assert (heap_core h2 (l1 ++ (o, false) :: l2)) as C2.
  { pose proof (core_flag h l1 o true false l2 m (set_magic 0 (set_used 0 m)) (lfree h2) (max_mem h)
      C Hm eq_refl ltac:(done) eq_refl eq_refl ltac:(done)) as C2.
    replace h2 with (Mkheap (heap_ptr h) (mem_size_aligned h) (lfree h2) (used_mem h2) (max_mem h)
      (headers h2) (bytes h)) by (subst h2; by destruct (o <? _)).
    replace (used_mem h2) with (u32 (used_mem h + 0 - (first l2 (heap_end h) - o))); [|].
    - replace (headers h2) with (<[o:=set_magic 0 (set_used 0 m)]> (headers h)); [exact C2|].
      subst h2. by destruct (o <? _).
    - subst h2. simpl. rewrite (wrap_small 32 (first _ _ - _)).
      + destruct (o <? _); simpl; f_equal; lia.
      + unfold in_u. pose proof (ho_addr _ _ C). unfold SIZEOF_STRUCT_MEM in *. lia. }
  assert (same_heap h h2) as S2 by (subst h2; by destruct (o <? _)).
  assert (lfree h2 = Z.min o (lfree h)) as Elf.
  { subst h2. simpl. destruct (Z.ltb_spec o (lfree h)); simpl; lia. }
  apply plugged_app in P as (P1 & P2 & _). apply plugged_cons in P2 as [P2 _].
  destruct (plug_holes_ok h2 l1 o l2 C2) as (h' & bl' & E & S' & F' & K' & U' & I'); [|done..|].
  { unfold lfree_ok. rewrite Elf, (same_end _ _ S2). destruct (Z.min_spec o (lfree h)) as [[_ ->]|[? ->]].
    - right. set_solver.
    - destruct L as [->|L]; [by left|]. right. set_solver. }
  exists h', bl'. split; [exact E|]. rewrite (same_end _ _ S2) in U'.
  split_and!; [|done| |].
  - destruct S2 as (?&?&?), S' as (?&?&?). split_and!; congruence.
  - rewrite U', used_blocks_app. done.
  - intros Hlow x Hx%I'. apply elem_of_app in Hx as [Hx|[[= ->]|Hx]%elem_of_cons].
    + pose proof (Hlow x ltac:(set_solver)). lia.
    + lia.
    + pose proof (Hlow x ltac:(set_solver)). lia.
Qed.

(** ** Allocating *)

(** The free remainder of the block [o] after [size] bytes were taken. *)
Definition remainder (size o next : Z) : list (Z * bool) :=
  if next - (o + SIZEOF_STRUCT_MEM) >=? size + SIZEOF_STRUCT_MEM + MIN_SIZE_ALIGNED
  then [(o + SIZEOF_STRUCT_MEM + size, false)] else [].

Lemma count_used_shape n h : exists mx, count_used n h =
  Mkheap (heap_ptr h) (mem_size_aligned h) (lfree h) (u32 (used_mem h + n)) mx (headers h) (bytes h).
Proof. unfold count_used. destruct (_ <? _); simpl; eauto. Qed.

(** Splitting the used or free block [o] behind [size] bytes of data. *)
Lemma core_split h l1 o u l2 m m' m2 size lf us mx hd :
  heap_core h (l1 ++ (o, u) :: l2) -> headers h !! o = Some m ->
  0 <= size -> size mod 4 = 0 ->
  o + SIZEOF_STRUCT_MEM + size + SIZEOF_STRUCT_MEM <= first l2 (heap_end h) ->
  used m' = 1 -> magic m' = HEAP_MAGIC -> hprev m' = hprev m ->
  hnext m' = o + SIZEOF_STRUCT_MEM + size ->
  used m2 = 0 -> hnext m2 = first l2 (heap_end h) -> hprev m2 = o ->
  hd !! o = Some m' -> hd !! (o + SIZEOF_STRUCT_MEM + size) = Some m2 ->
  (forall x, x < o \/ first l2 (heap_end h) < x -> hd !! x = headers h !! x) ->
  (forall mt, headers h !! first l2 (heap_end h) = Some mt ->
     hd !! first l2 (heap_end h) = Some (set_hprev (o + SIZEOF_STRUCT_MEM + size) mt) \/
     (l2 = [] /\ hd !! first l2 (heap_end h) = Some mt)) ->
  us = u32 (used_mem h + (SIZEOF_STRUCT_MEM + size) - (if u : bool then first l2 (heap_end h) - o else 0)) ->
  heap_core (Mkheap (heap_ptr h) (mem_size_aligned h) lf us mx hd (bytes h))
    (l1 ++ (o, true) :: (o + SIZEOF_STRUCT_MEM + size, false) :: l2).
Proof.
  intros C Hm Hs Hs4 Hfit Hu' Hmg' Hp' Hn' Hu2 Hn2 Hp2 E1 E2 Hx Ht Eus.
  destruct (core_block _ _ _ _ _ C) as [(m0 & Hm0 & _ & _ & Hn0 & Hp0) Hr].
  assert (m0 = m) as -> by congruence. unfold SIZEOF_STRUCT_MEM in *.
  apply (core_replace h _ l1 [(o, u)] [(o, true); (o + 12 + size, false)] l2
    (first l2 (heap_end h)) (o + 12 + size)); try done; simpl; unfold SIZEOF_STRUCT_MEM in *.
  - split_and!; try lia; try done.
    + exists m'. split_and!; congruence.
    + replace (o + 12 + size - o) with (size + 12) by lia. by rewrite Z.add_mod, Hs4 by lia.
    + exists m2. split_and!; congruence.
    + replace (first l2 (heap_end h) - (o + 12 + size))
        with ((first l2 (heap_end h) - o) - (size + 12)) by lia.
      rewrite Zminus_mod. destruct Hr as (_ & _ & -> & _). by rewrite (Z.add_mod size), Hs4 by lia.
  - rewrite Eus. f_equal. destruct u; simpl; lia.
  - intros x [[= ->]|[=]%list_elem_of_singleton]%elem_of_cons. lia.
Qed.

Lemma core_small h l1 o u l2 :
  heap_core h (l1 ++ (o, u) :: l2) ->
  u32 (first l2 (heap_end h) - u32 (o + SIZEOF_STRUCT_MEM)) =
    first l2 (heap_end h) - (o + SIZEOF_STRUCT_MEM) /\
  u32 (first l2 (heap_end h) - o) = first l2 (heap_end h) - o.
Proof.
  intros C. destruct (core_block _ _ _ _ _ C) as [_ Hr]. pose proof (ho_addr _ _ C).
  unfold SIZEOF_STRUCT_MEM in *.
  rewrite (wrap_small 32 (o + 12)) by (unfold in_u; lia).
  split; apply wrap_small; unfold in_u; lia.
Qed.

Lemma upd_hdr_Some o f h m :
  headers h !! o = Some m -> upd_hdr o f h = Some (set_headers (<[o := f m]> (headers h)) h).
Proof. intros Hm. unfold upd_hdr. by rewrite Hm. Qed.

Lemma core_end_nil h l1 l2 :
  heap_core h (l1 ++ l2) -> first l2 (heap_end h) = heap_end h -> l2 = [].
Proof.
  intros C E. destruct l2 as [|[o u] l2]; [done|]. simpl in E. subst o.
  destruct (core_block _ _ _ _ _ C) as [_ Hr]. unfold SIZEOF_STRUCT_MEM in Hr. lia.
Qed.

(** Writing the link back behind a split, unless it is the end of the heap. *)
Definition relink (h : heap) (t q : Z) (hd : gmap Z heap_mem) : gmap Z heap_mem :=
  if t =? heap_end h then hd
  else match hd !! t with Some mt => <[t := set_hprev q mt]> hd | None => hd end.

Lemma relink_ok h l1 l2 t q hd :
  heap_core h (l1 ++ l2) -> t = first l2 (heap_end h) -> hd !! t = headers h !! t ->
  (forall mt, headers h !! t = Some mt -> relink h t q hd !! t = Some (set_hprev q mt) \/
     (l2 = [] /\ relink h t q hd !! t = Some mt)) /\
  (forall x, x <> t -> relink h t q hd !! x = hd !! x).
Proof.
  intros C Et Ehd. unfold relink. split.
  - intros mt Hmt. destruct (Z.eqb_spec t (heap_end h)) as [Ee|Hne].
    + right. split; [|congruence]. eapply core_end_nil; [exact C|congruence].
    + left. rewrite Ehd, Hmt. by rewrite lookup_insert_eq.
  - intros x Hx. destruct (_ =? _); [done|]. destruct (hd !! t); [|done].
    by rewrite lookup_insert_ne.
Qed.

Lemma relink_upd h h0 l1 l2 t q :
  heap_core h (l1 ++ l2) -> t = first l2 (heap_end h) -> headers h0 !! t = headers h !! t ->
  mem_size_aligned h0 = mem_size_aligned h ->
  (if negb (t =? heap_end h0) then upd_hdr t (set_hprev q) h0 else Some h0) =
    Some (set_headers (relink h t q (headers h0)) h0).
Proof.
  intros C Et E0 Es. unfold relink, heap_end. rewrite Es. fold (heap_end h).
  change (mem_size_aligned h + SIZEOF_STRUCT_MEM) with (heap_end h).
  destruct (t =? heap_end h); simpl; [by destruct h0|]. unfold upd_hdr.
  destruct (core_behind h l1 l2 C) as (mt & Hmt & _). rewrite <-Et in Hmt.
  by rewrite E0, Hmt.
Qed.

Lemma malloc_split_ok garbage h l1 o l2 m size :
  heap_core h (l1 ++ (o, false) :: l2) -> headers h !! o = Some m ->
  12 <= size -> size mod 4 = 0 ->
  first l2 (heap_end h) - (o + SIZEOF_STRUCT_MEM) >= size + SIZEOF_STRUCT_MEM + MIN_SIZE_ALIGNED ->
  exists h', malloc_mark garbage size o m h = Some h' /\ same_heap h h' /\ lfree h' = lfree h /\
    heap_core h' (l1 ++ (o, true) :: (o + SIZEOF_STRUCT_MEM + size, false) :: l2).
Proof.
  intros C Hm Hs Hs4 Hfit. destruct (core_block _ _ _ _ _ C) as [(m0 & Hm0 & _ & _ & Hn & Hp) Hr].
  assert (m0 = m) as -> by congruence. destruct (core_small _ _ _ _ _ C) as [Es1 _].
  assert (heap_core h ((l1 ++ [(o, false)]) ++ l2)) as C' by (by rewrite <-app_assoc).
  unfold malloc_mark. rewrite Hn, Es1. rewrite (proj2 (Z.geb_le _ _)) by lia.
  unfold SIZEOF_STRUCT_MEM, MIN_SIZE_ALIGNED in *. unfold split_hdr. simpl.
  rewrite (upd_hdr_Some _ _ _ m) by (simpl; by rewrite lookup_insert_ne by lia). simpl.
  set (h0 := set_headers (<[o := _]> _) _).
  assert (forall x, x <> o -> x <> o + 12 + size -> headers h0 !! x = headers h !! x) as Hx0.
  { intros x ? ?. subst h0. simpl. by rewrite !lookup_insert_ne. }
  rewrite (relink_upd h h0 _ l2 (first l2 (heap_end h)) (o + 12 + size) C') by
    (try apply Hx0; try done; lia).
  destruct (relink_ok h _ l2 (first l2 (heap_end h)) (o + 12 + size) (headers h0) C') as [Ht Hx];
    [done|apply Hx0; lia|].
  set (hd := relink _ _ _ _) in *. simpl. unfold upd_hdr.
  destruct (count_used_shape (size + 12) (set_headers hd h0)) as [mx ->]. simpl.
  rewrite Hx by lia. subst h0. simpl. rewrite lookup_insert_eq. simpl.
  eexists. split; [done|]. split; [done|]. split; [done|]. simpl in Hx, Hx0.
  apply (core_split h l1 o false l2 m
    (set_magic HEAP_MAGIC (set_used 1 (set_hnext (o + 12 + size) m)))
    (Heap_mem (match headers h !! (o + 12 + size) with
               | Some m2 => magic m2 | None => garbage (o + 12 + size) end) 0 (hnext m) o) size);
    try done; unfold SIZEOF_STRUCT_MEM; simpl; try lia; try done.
  - by rewrite lookup_insert_eq.
  - by rewrite lookup_insert_ne, Hx, lookup_insert_ne, lookup_insert_eq by lia.
  - intros x ?. rewrite lookup_insert_ne, Hx, Hx0 by lia. done.
  - intros mt Hmt. rewrite lookup_insert_ne by lia. by apply Ht.
  - f_equal. lia.
Qed.

Lemma malloc_mark_ok garbage h l1 o l2 m size :
  heap_core h (l1 ++ (o, false) :: l2) -> headers h !! o = Some m ->
  12 <= size -> size mod 4 = 0 -> o + SIZEOF_STRUCT_MEM + size <= first l2 (heap_end h) ->
  exists h', malloc_mark garbage size o m h = Some h' /\ same_heap h h' /\ lfree h' = lfree h /\
    heap_core h' (l1 ++ (o, true) :: remainder size o (first l2 (heap_end h)) ++ l2).
Proof.
  intros C Hm Hs Hs4 Hfit. unfold remainder. destruct (_ >=? _) eqn:Eb.
  { apply Z.geb_le in Eb. apply malloc_split_ok; try done. lia. }
  destruct (core_block _ _ _ _ _ C) as [(m0 & Hm0 & _ & _ & Hn & Hp) Hr].
  assert (m0 = m) as -> by congruence. destruct (core_small _ _ _ _ _ C) as [Es1 Es2].
  unfold malloc_mark. rewrite Hn, Es1, Es2, Eb.
  rewrite (upd_hdr_Some o _ h m Hm). simpl.
  destruct (count_used_shape (first l2 (heap_end h) - o)
    (set_headers (<[o:=set_used 1 m]> (headers h)) h)) as [mx ->].
  unfold upd_hdr. simpl. rewrite lookup_insert_eq. simpl.
  eexists. split; [done|]. split; [done|]. split; [done|].
  rewrite insert_insert_eq. unfold set_headers. simpl.
  replace (used_mem h + (first l2 (heap_end h) - o))
    with (used_mem h + (first l2 (heap_end h) - o) - 0) by lia.
  apply (core_flag h l1 o false true l2 m); try done. intros _.
  unfold SIZEOF_STRUCT_MEM in *. lia.
Qed.

(** The search for the next free block. *)
Definition next_free (bl : list (Z * bool)) (e : Z) : Z :=
  match filter (fun x => x.2 = false) bl with [] => e | (o, _) :: _ => o end.

Lemma next_free_used o l e : next_free ((o, true) :: l) e = next_free l e.
Proof. unfold next_free. by rewrite filter_cons_False. Qed.

Lemma lfree_loop_ok h : forall fuel l1 l2 x,
  heap_core h (l1 ++ l2) -> x = first l2 (heap_end h) -> (length l2 < fuel)%nat ->
  lfree_loop fuel (set_lfree x h) = Some (set_lfree (next_free l2 (heap_end h)) h).
Proof.
  induction fuel as [|fuel IH]; intros l1 l2 x C -> Hf; [lia|]. cbn [lfree_loop].
  destruct (core_behind h l1 l2 C) as (m & Hm & Hu & Hn). simpl. rewrite Hm. simpl. rewrite Hu, Hn.
  change (heap_end (set_lfree (first l2 (heap_end h)) h)) with (heap_end h).
  destruct l2 as [|[o []] l2]; rewrite ?next_free_used; simpl; [by rewrite Z.eqb_refl| |done].
  destruct (core_block _ _ _ _ _ C) as [_ Hr]. unfold SIZEOF_STRUCT_MEM in Hr.
  rewrite (proj2 (Z.eqb_neq o _)) by lia. simpl.
  rewrite <-(IH (l1 ++ [(o, true)]) l2 (first l2 (heap_end h))); [by destruct h|by rewrite <-app_assoc|done|].
  simpl in Hf. lia.
Qed.

Lemma next_free_spec l1 l2 h :
  heap_core h (l1 ++ l2) ->
  (next_free l2 (heap_end h) = heap_end h \/ (next_free l2 (heap_end h), false) ∈ l2) /\
  (forall o, (o, false) ∈ l2 -> next_free l2 (heap_end h) <= o).
Proof.
  revert l1. induction l2 as [|[o u] l2 IH]; intros l1 C; [split; [by left|set_solver]|].
  unfold next_free in *. destruct u.
  - rewrite filter_cons_False by done. destruct (IH (l1 ++ [(o, true)])) as [H1 H2].
    { by rewrite <-app_assoc. }
    split; [set_solver|]. intros o' [[=]|Hin]%elem_of_cons. by apply H2.
  - rewrite filter_cons_True by done. split; [right; left|].
    intros o' [[= ->]|Hin]%elem_of_cons; [done|].
    destruct C as [? ? ? ? H5]. apply hchain_app in H5 as [_ (_ & H6 & _ & H7)].
    destruct (hchain_bounds _ _ _ _ _ _ H7 Hin). unfold SIZEOF_STRUCT_MEM in *. lia.
Qed.

Lemma hchain_length hd p l e : hchain hd p l e -> (length l <= size hd)%nat.
Proof.
  intros H. rewrite <-(length_fmap fst l), <-size_dom.
  assert (NoDup l.*1) as Hn.
  { revert p H. induction l as [|[o u] l IH]; intros p; simpl; [constructor|].
    intros (_ & H1 & _ & H2). constructor; [|by eapply IH].
    intros ((o' & u') & E & Hin)%list_elem_of_fmap. simpl in E. subst o'.
    destruct (hchain_bounds _ _ _ _ _ _ H2 Hin). unfold SIZEOF_STRUCT_MEM in *. lia. }
  rewrite <-(size_list_to_set (C := gset Z) l.*1 Hn). apply subseteq_size.
  intros x Hx. apply elem_of_list_to_set in Hx. apply elem_of_dom.
  revert p H Hx. clear Hn. induction l as [|[o u] l IH]; intros p; simpl; [set_solver|].
  intros ((m & Hm & _) & _ & _ & H2) [->|Hx]%elem_of_cons; [by exists m|by eapply IH].
Qed.

Lemma core_free_hdr h bl o :
  heap_core h bl -> (o, false) ∈ bl -> exists m, headers h !! o = Some m /\ used m = 0.
Proof.
  intros C (l1 & l2 & ->)%list_elem_of_split.
  destruct (core_block _ _ _ _ _ C) as [(m & ? & ? & _) _]. eauto.
Qed.

Lemma malloc_lfree_ok h l1 o l2 :
  heap_core h (l1 ++ (o, true) :: l2) ->
  (lfree h = o \/ lfree_ok h (l1 ++ (o, true) :: l2)) ->
  exists h', malloc_lfree o h = Some h' /\ h' = set_lfree (lfree h') h /\
    lfree_ok h' (l1 ++ (o, true) :: l2) /\
    (lfree h = o -> forall x, (x, false) ∈ l2 -> lfree h' <= x) /\
    (lfree h <> o -> lfree h' = lfree h).
Proof.
  intros C L. unfold malloc_lfree. destruct (Z.eqb_spec o (lfree h)) as [El|Hne].
  - pose proof (hchain_length _ _ _ _ (ho_chain _ _ C)) as Hlen.
    rewrite length_app in Hlen. unfold size in Hlen.
    pose proof (lfree_loop_ok h (S (map_size (headers h))) l1 ((o, true) :: l2) o C eq_refl
      ltac:(lia)) as Eloop.
    replace (set_lfree o h) with h in Eloop by (destruct h; simpl in *; by subst).
    rewrite Eloop.
    rewrite next_free_used. simpl.
    assert (heap_core h ((l1 ++ [(o, true)]) ++ l2)) as C' by (by rewrite <-app_assoc).
    destruct (next_free_spec _ l2 h C') as [H1 H2]. set (x := next_free l2 (heap_end h)) in *.
    assert (exists m, headers h !! x = Some m /\ ((x =? heap_end h) || negb (truthy (used m))) = true)
      as (m & Hm & Hg).
    { destruct H1 as [->|Hin].
      - destruct (ho_end _ _ C) as (m & Hm & _). exists m. by rewrite Z.eqb_refl.
      - destruct (core_free_hdr h _ x C) as (m & Hm & Hu); [set_solver|]. exists m.
        rewrite Hu. split; [done|]. apply orb_true_r. }
    rewrite Hm. simpl. change (heap_end (set_lfree x h)) with (heap_end h). rewrite Hg. simpl.
    eexists. split; [done|]. split_and!; [done| |done|congruence].
    destruct H1 as [?|?]; [by left|]. right. simpl. set_solver.
  - destruct L as [L|L]; [congruence|]. exists h. split_and!; try first [done|by destruct h|congruence].
Qed.

(** What a successful allocation does to the blocks. *)
Definition took (h h' : heap) (l1 : list (Z * bool)) (o size : Z) (l2 : list (Z * bool)) : Prop :=
  same_heap h h' /\
  heap_ok h' (l1 ++ (o, true) :: remainder size o (first l2 (heap_end h)) ++ l2) /\
  (lowest h (l1 ++ (o, false) :: l2) ->
   lowest h' (l1 ++ (o, true) :: remainder size o (first l2 (heap_end h)) ++ l2)).

Lemma remainder_free size o next x u :
  (x, u) ∈ remainder size o next -> x = o + SIZEOF_STRUCT_MEM + size /\ u = false.
Proof.
  unfold remainder. destruct (_ >=? _); [|by intros []%elem_of_nil].
  by intros [= -> ->]%list_elem_of_singleton.
Qed.

Lemma took_plugged l1 o size l2 next :
  plugged (l1 ++ (o, false) :: l2) -> plugged (l1 ++ (o, true) :: remainder size o next ++ l2).
Proof.
  rewrite !plugged_app, !plugged_cons. intros (P1 & (P2 & Hs) & _). split_and!; try done.
  - unfold remainder. destruct (_ >=? _); simpl app; [|done]. apply plugged_cons. tauto.
  - intros [? _]. done.
  - intros [_ (? & ? & [=])].
Qed.

Lemma malloc_take_ok garbage h l1 o l2 m size :
  heap_ok h (l1 ++ (o, false) :: l2) -> headers h !! o = Some m ->
  12 <= size -> size mod 4 = 0 -> o + SIZEOF_STRUCT_MEM + size <= first l2 (heap_end h) ->
  exists h', malloc_take garbage size o m h =
      Some (Some (heap_ptr h + o + SIZEOF_STRUCT_MEM), h') /\ took h h' l1 o size l2.
Proof.
  intros (C & P & L) Hm Hs Hs4 Hfit. destruct (core_block _ _ _ _ _ C) as [_ Hr].
  destruct (malloc_mark_ok garbage h l1 o l2 m size) as (h1 & E1 & S1 & Elf & C1); try done.
  set (l2' := remainder size o (first l2 (heap_end h)) ++ l2) in *.
  destruct (malloc_lfree_ok h1 l1 o l2' C1) as (h2 & E2 & Eh2 & L2 & Hlow1 & Hlow2).
  { rewrite Elf. destruct L as [L|L].
    - right. left. by rewrite Elf, (same_end _ _ S1).
    - destruct (decide (lfree h = o)) as [|Hne]; [by left|]. right. right. rewrite Elf.
      subst l2'. set_solver. }
  assert (same_heap h h2) as S2 by (rewrite Eh2; exact S1).
  assert (heap_core h2 (l1 ++ (o, true) :: l2')) as C2 by (rewrite Eh2; by apply lfree_core).
  unfold malloc_take. rewrite E1. simpl. rewrite E2. simpl.
  rewrite (same_end _ _ S2). destruct S2 as (Ep & Es & Eb). rewrite Ep.
  assert ((heap_ptr h + o) mod 4 = 0) as Hal by (apply (core_aligned _ _ _ C), Hr).
  unfold SIZEOF_STRUCT_MEM in *. rewrite (proj2 (Z.leb_le _ _)) by lia. simpl.
  assert ((heap_ptr h + o + 12) mod RT_ALIGN_SIZE = 0) as ->.
  { change RT_ALIGN_SIZE with 4. by rewrite Z.add_mod, Hal by lia. }
  simpl. rewrite land_align by done. simpl. exists h2. split; [done|]. split; [done|].
  split; [by split_and!; [|apply took_plugged|]|]. intros Hlow x Hx.
  apply elem_of_app in Hx as [Hx|[[=]|Hx]%elem_of_cons].
  - pose proof (Hlow x ltac:(set_solver)) as Hle. destruct (decide (lfree h = o)) as [El|Hne].
    + destruct C as [? ? ? ? H5]. apply hchain_app in H5 as [C1' _].
      destruct (hchain_bounds _ _ _ _ _ _ C1' Hx). unfold SIZEOF_STRUCT_MEM in *. simpl in *. lia.
    + rewrite Hlow2 by congruence. lia.
  - destruct (decide (lfree h = o)) as [El|Hne]; [apply Hlow1; [congruence|done]|].
    rewrite Hlow2, Elf by congruence. apply elem_of_app in Hx as [[-> _]%remainder_free|Hx].
    + pose proof (Hlow o ltac:(set_solver)). unfold SIZEOF_STRUCT_MEM. lia.
    + apply Hlow. set_solver.
Qed.

(** The free block [o], with [next] behind it, is one that the loop accepts. *)
Definition fits (h : heap) (size o next : Z) : Prop :=
  o + SIZEOF_STRUCT_MEM + size <= next /\ o < mem_size_aligned h - size.

Lemma malloc_loop_ok garbage h size : forall fuel l1 l2,
  heap_ok h (l1 ++ l2) -> 12 <= size <= mem_size_aligned h -> size mod 4 = 0 ->
  (length l2 < fuel)%nat ->
  exists r h', malloc_loop garbage fuel size (first l2 (heap_end h)) h = Some (r, h') /\
    match r with
    | Some a => exists l3 o l4, l2 = l3 ++ (o, false) :: l4 /\
        a = heap_ptr h + o + SIZEOF_STRUCT_MEM /\ fits h size o (first l4 (heap_end h)) /\
        took h h' (l1 ++ l3) o size l4
    | None => h' = h /\ forall l3 o l4, l2 = l3 ++ (o, false) :: l4 ->
        ~ fits h size o (first l4 (heap_end h))
    end.
Proof.
  induction fuel as [|fuel IH]; intros l1 l2 K Hs Hs4 Hf; [lia|]. cbn [malloc_loop].
  pose proof K as (C & P & L). pose proof (ho_addr _ _ C) as Ha.
  unfold heap_end, SIZEOF_STRUCT_MEM in Ha. rewrite wrap_small by (unfold in_u; lia).
  destruct (Z.ltb_spec (first l2 (heap_end h)) (mem_size_aligned h - size)) as [Hlt|Hge].
  2:{ exists None, h. split; [done|]. split; [done|]. intros l3 o l4 -> [_ Ho].
      assert (hchain (headers h) (last_off 0 l1) (l3 ++ (o, false) :: l4) (heap_end h)) as Hc.
      { apply (hchain_app _ _ l1). apply C. }
      destruct (hchain_bounds _ _ _ _ o false Hc); [set_solver|]. lia. }
  destruct l2 as [|[o u] l2].
  { simpl in Hlt. unfold heap_end, SIZEOF_STRUCT_MEM in Hlt. lia. }
  destruct (core_block _ _ _ _ _ C) as [(m & Hm & Hu & _ & Hn & _) Hr].
  destruct (core_small _ _ _ _ _ C) as [Es _]. simpl. rewrite Hm. simpl. rewrite Hu, Hn, Es.
  destruct (negb _ && _) eqn:Et.
  - apply andb_true_iff in Et as [Et1 Et2%Z.geb_le]. destruct u; [done|].
    destruct (malloc_take_ok garbage h l1 o l2 m size K Hm) as (h' & E & T); [lia|done|lia|].
    exists (Some (heap_ptr h + o + SIZEOF_STRUCT_MEM)), h'. split; [done|].
    exists [], o, l2. rewrite app_nil_r. split_and!; try done. split; simpl in *; lia.
  - destruct (IH (l1 ++ [(o, u)]) l2) as (r & h' & E & H); [by rewrite <-app_assoc|done|done|
      simpl in Hf; lia|].
    exists r, h'. split; [done|]. destruct r as [a|].
    + destruct H as (l3 & o' & l4 & -> & H). exists ((o, u) :: l3), o', l4.
      by rewrite <-app_assoc in H.
    + destruct H as [-> H]. split; [done|]. intros l3 o' l4 E'. destruct l3 as [|x l3].
      * injection E' as -> -> ->. intros [Hfit _]. simpl in Et. rewrite Z.geb_leb in Et.
        apply Z.leb_gt in Et. lia.
      * injection E' as <- ->. by apply (H l3).
Qed.

Lemma RT_ALIGN_spec size :
  0 <= size <= 2 ^ 32 - 4 ->
  size <= RT_ALIGN size RT_ALIGN_SIZE < size + 4 /\ RT_ALIGN size RT_ALIGN_SIZE mod 4 = 0.
Proof.
  intros H. rewrite RT_ALIGN_4 by lia. pose proof (Z.mod_pos_bound (- size) 4 ltac:(lia)).
  split; [lia|]. rewrite Zplus_mod_idemp_r. by replace (size + - size) with 0 by lia.
Qed.

(** The size that a request for [size] bytes takes. *)
Definition request (size : Z) : Z := Z.max MIN_SIZE_ALIGNED (RT_ALIGN size RT_ALIGN_SIZE).

Lemma request_max size :
  (if RT_ALIGN size RT_ALIGN_SIZE <? MIN_SIZE_ALIGNED then MIN_SIZE_ALIGNED
   else RT_ALIGN size RT_ALIGN_SIZE) = request size.
Proof. unfold request. destruct (Z.ltb_spec (RT_ALIGN size RT_ALIGN_SIZE) MIN_SIZE_ALIGNED); lia. Qed.

Lemma used_blocks_left hd p l e x : hchain hd p l e -> x ∈ used_blocks l e -> x.2 <= e.
Proof.
  revert p. induction l as [|[o u] l IH]; intros p; simpl; [by intros _ []%elem_of_nil|].
  intros (_ & _ & _ & H). pose proof (hchain_first _ _ _ _ H). destruct u; [|by eapply IH].
  intros [->|Hin]%elem_of_cons; [done|by eapply IH].
Qed.

Lemma used_blocks_right hd p l e x : hchain hd p l e -> x ∈ used_blocks l e -> first l e <= x.1.
Proof.
  revert p. induction l as [|[o u] l IH]; intros p; simpl; [by intros _ []%elem_of_nil|].
  intros (_ & H1 & _ & H). unfold SIZEOF_STRUCT_MEM in *.
  destruct u; [intros [->|Hin]%elem_of_cons; [done|]|intros Hin];
    pose proof (IH _ H Hin); lia.
Qed.

(** What [rt_malloc] promises for a request of [size] bytes: the address [a] of a region of
    at least that size, aligned, inside the heap and apart from every allocated region. *)
Definition allocated (h h' : heap) (bl : list (Z * bool)) (size a : Z) : Prop :=
  exists l1 o l2 bl' next, bl = l1 ++ (o, false) :: l2 /\
    a = heap_ptr h + o + SIZEOF_STRUCT_MEM /\ a mod 4 = 0 /\
    o + SIZEOF_STRUCT_MEM + request size <= next <= heap_end h /\
    (forall x, x ∈ used_blocks bl (heap_end h) -> x.2 <= o \/ next <= x.1) /\
    same_heap h h' /\ heap_ok h' bl' /\
    used_blocks bl' (heap_end h) =
      used_blocks l1 o ++ (o, next) :: used_blocks l2 (heap_end h) /\
    (lowest h bl -> lowest h' bl').

Lemma took_allocated h h' l1 o l2 size :
  heap_ok h (l1 ++ (o, false) :: l2) -> 0 <= size <= 2 ^ 32 - 4 ->
  fits h (request size) o (first l2 (heap_end h)) -> took h h' l1 o (request size) l2 ->
  allocated h h' (l1 ++ (o, false) :: l2) size (heap_ptr h + o + SIZEOF_STRUCT_MEM).
Proof.
  intros (C & _ & _) Hs [Hfit _] (S & K' & Hlow). destruct (core_block _ _ _ _ _ C) as [_ Hr].
  set (rem := remainder _ _ _) in *. pose proof K' as (C' & _ & _).
  destruct (core_block _ _ _ _ _ C') as [_ Hr']. rewrite (same_end _ _ S), first_app in Hr'.
  exists l1, o, l2, (l1 ++ (o, true) :: rem ++ l2), (first rem (first l2 (heap_end h))).
  assert (o + SIZEOF_STRUCT_MEM + request size <= first rem (first l2 (heap_end h)) <=
          first l2 (heap_end h)) as Hnext.
  { subst rem. unfold remainder. destruct (_ >=? _) eqn:E; simpl; [|lia].
    apply Z.geb_le in E. unfold SIZEOF_STRUCT_MEM, MIN_SIZE_ALIGNED in *. lia. }
  split_and!; try done; try lia.
  - rewrite Z.add_mod, (core_aligned _ _ _ C) by (try apply Hr; lia). done.
  - intros x. rewrite used_blocks_app. intros [Hx|Hx]%elem_of_app.
    + left. destruct (proj1 (hchain_app _ _ _ _ _) (ho_chain _ _ C)) as [Hc _].
      by apply (used_blocks_left _ _ _ _ _ Hc).
    + right. destruct (proj1 (hchain_app _ _ _ _ _) (ho_chain _ _ C)) as [_ (_ & _ & _ & Hc)].
      pose proof (used_blocks_right _ _ _ _ _ Hc Hx). lia.
  - rewrite used_blocks_app. simpl. rewrite used_blocks_app, first_app. f_equal. f_equal.
    subst rem. unfold remainder. by destruct (_ >=? _).
Qed.

Lemma malloc_spec garbage h bl size :
  heap_ok h bl -> MIN_SIZE_ALIGNED <= mem_size_aligned h -> 0 <= size <= 2 ^ 32 - 4 ->
  exists r h', rt_malloc garbage 0 size h = Some (r, h') /\
    match r with
    | Some a => allocated h h' bl size a
    | None => h' = h /\ (0 < size -> lowest h bl -> forall l1 o l2, bl = l1 ++ (o, false) :: l2 ->
        ~ fits h (request size) o (first l2 (heap_end h)))
    end.
Proof.
  intros K Hmin Hs. unfold rt_malloc. simpl.
  destruct (Z.eqb_spec size 0) as [->|Hne]; [exists None, h; split; [done|]; split; [done|lia]|].
  destruct (RT_ALIGN_spec size Hs) as [Ha Ha4]. rewrite request_max.
  destruct (Z.gtb_spec (RT_ALIGN size RT_ALIGN_SIZE) (mem_size_aligned h)) as [Hgt|Hle].
  { exists None, h. split; [done|]. split; [done|]. intros _ _ l1 o l2 -> [_ Ho].
    pose proof K as (C & _). destruct (core_block _ _ _ _ _ C) as [_ Hr].
    unfold request in Ho. lia. }
  assert (exists l1 l2, bl = l1 ++ l2 /\ lfree h = first l2 (heap_end h) /\
    (lowest h bl -> forall o, (o, false) ∉ l1)) as (l1 & l2 & -> & El & Hlow).
  { pose proof K as (C & _ & [L|L]).
    - exists bl, []. rewrite app_nil_r. split_and!; try done. intros Hlow o Ho.
      pose proof (Hlow o Ho). destruct (hchain_bounds _ _ _ _ _ _ (ho_chain _ _ C) Ho).
      unfold SIZEOF_STRUCT_MEM in *. lia.
    - apply list_elem_of_split in L as (l1 & l2 & ->). exists l1, ((lfree h, false) :: l2).
      split_and!; try done. intros Hlow o Ho. pose proof (Hlow o ltac:(set_solver)).
      destruct (proj1 (hchain_app _ _ _ _ _) (ho_chain _ _ C)) as [Hc _].
      destruct (hchain_bounds _ _ _ _ _ _ Hc Ho). unfold SIZEOF_STRUCT_MEM in *. simpl in *. lia. }
  assert (request size mod 4 = 0) as Hr4.
  { unfold request. destruct (Z.max_spec MIN_SIZE_ALIGNED (RT_ALIGN size RT_ALIGN_SIZE))
      as [[_ ->]|[_ ->]]; done. }
  destruct (malloc_loop_ok garbage h (request size) (S (map_size (headers h))) l1 l2 K)
    as (r & h' & E & H); [unfold request, MIN_SIZE_ALIGNED in *; lia|done| |].
  { pose proof K as (C & _). pose proof (hchain_length _ _ _ _ (ho_chain _ _ C)) as Hlen.
    rewrite length_app in Hlen. unfold base.size in Hlen. lia. }
  rewrite El. exists r, h'. split; [done|]. destruct r as [a|].
  - destruct H as (l3 & o & l4 & -> & -> & Hfit & T). rewrite app_assoc in *.
    by apply took_allocated.
  - destruct H as [-> H]. split; [done|]. intros _ Hl l1' o l2' E'.
    apply app_eq_inv in E' as [(k & -> & Ek)|(k & -> & Ek)]; [|by apply (H k)].
    destruct k as [|x k]; [by apply (H [])|]. injection Ek as <- _. exfalso.
    apply (Hlow Hl o). set_solver.
Qed.

(** C29. [rt_malloc] returns, and keeps the heap consistent.  It hands out a region of at
    least the requested size, aligned, inside the heap and apart from all regions that are
    allocated, which stay allocated with their bytes untouched; or it returns null with
    the heap unchanged, and then, when [lfree] is the lowest free block, no block that the
    loop would accept was left. *)
Theorem rt_malloc_ok garbage h bl size :
  heap_ok h bl -> MIN_SIZE_ALIGNED <= mem_size_aligned h -> 0 <= size <= 2 ^ 32 - 4 ->
  exists r h', rt_malloc garbage 0 size h = Some (r, h') /\
    match r with
    | Some a => allocated h h' bl size a
    | None => h' = h /\ (0 < size -> lowest h bl -> forall l1 o l2, bl = l1 ++ (o, false) :: l2 ->
        ~ fits h (request size) o (first l2 (heap_end h)))
    end.
Proof. apply malloc_spec. Qed.

(** C30. [rt_free] of an allocated block keeps the heap consistent: exactly that block stops
    being allocated, it is joined with free neighbours (no two free blocks are ever next
    to each other), the statistics follow, and [lfree] stays the lowest free block if it
    was.  A free block given to it is caught by the assertion. *)
Theorem rt_free_ok h bl o u :
  heap_ok h bl -> (o, u) ∈ bl ->
  if u : bool then exists l1 l2 h' bl', bl = l1 ++ (o, true) :: l2 /\
    rt_free 0 (Some (heap_ptr h + o + SIZEOF_STRUCT_MEM)) h = Some h' /\
    freed h h' l1 o l2 bl' /\ used_mem h' = used_mem h - (first l2 (heap_end h) - o)
  else rt_free 0 (Some (heap_ptr h + o + SIZEOF_STRUCT_MEM)) h = None.
Proof.
  intros K (l1 & l2 & ->)%list_elem_of_split. destruct u.
  - destruct (free_used h l1 o l2 K) as (h' & bl' & E & F). exists l1, l2, h', bl'.
    split_and!; try done. destruct F as (S & (C' & _) & U & _), K as (C & _).
    rewrite (ho_used _ _ C), (ho_used _ _ C'), (same_end _ _ S), U, used_blocks_app.
    rewrite !total_used_app. simpl. lia.
  - destruct K as (C & _). destruct (core_free_hdr h _ o C) as (m & Hm & Hu); [set_solver|].
    unfold rt_free. cbn [Z.eqb guard mbind option_bind].
    replace (heap_ptr h + o + SIZEOF_STRUCT_MEM - SIZEOF_STRUCT_MEM - heap_ptr h) with o by lia.
    rewrite Hm. cbn [mbind option_bind]. rewrite Hu. cbn [truthy Z.eqb negb guard].
    destruct (_ =? 0); [|done]. cbn [guard]. by destruct (_ && _).
Qed.

(** ** Reallocating *)

Lemma copy_bytes_spec n : forall dst src b,
  (forall i j, 0 <= i < Z.of_nat n -> 0 <= j < Z.of_nat n -> dst + i <> src + j) ->
  (forall i, 0 <= i < Z.of_nat n -> copy_bytes n dst src b !! (dst + i) = b !! (src + i)) /\
  (forall x, ~ (dst <= x < dst + Z.of_nat n) -> copy_bytes n dst src b !! x = b !! x).
Proof.
  induction n as [|n IH]; intros dst src b Hd; simpl; [split; [lia|done]|].
  set (b1 := match b !! src with Some x => <[dst := x]> b | None => delete dst b end).
  assert (forall x, x <> dst -> b1 !! x = b !! x) as Hb1.
  { intros x Hx. subst b1. destruct (b !! src); [by rewrite lookup_insert_ne|by rewrite lookup_delete_ne]. }
  assert (b1 !! dst = b !! src) as Hb0.
  { subst b1. destruct (b !! src); [by rewrite lookup_insert_eq|by rewrite lookup_delete_eq]. }
  destruct (IH (dst + 1) (src + 1) b1) as [H1 H2].
  { intros i j ? ?. pose proof (Hd (i + 1) (j + 1)). lia. }
  split.
  - intros i Hi. destruct (decide (i = 0)) as [->|Hne].
    + rewrite H2 by lia. rewrite !Z.add_0_r. exact Hb0.
    + replace (dst + i) with (dst + 1 + (i - 1)) by lia. rewrite H1 by lia.
      rewrite Hb1 by (pose proof (Hd 0 i); lia). f_equal. lia.
  - intros x Hx. rewrite H2 by lia. apply Hb1. lia.
Qed.

(** The outcome of [rt_realloc] on the block [o] of [size] bytes, asked for [n]: the address
    of a block of at least [n] bytes with the old content, the other blocks as before. *)
Definition reallocated (h h' : heap) (bl : list (Z * bool)) (o size n a : Z) : Prop :=
  exists bl' o' next, heap_ok h' bl' /\ heap_end h' = heap_end h /\ heap_ptr h' = heap_ptr h /\
    a = heap_ptr h + o' + SIZEOF_STRUCT_MEM /\ o' + SIZEOF_STRUCT_MEM + n <= next /\
    (o', next) ∈ used_blocks bl' (heap_end h) /\
    (forall i, 0 <= i < Z.min size n ->
       bytes h' !! (o' + SIZEOF_STRUCT_MEM + i) = bytes h !! (o + SIZEOF_STRUCT_MEM + i)) /\
    (forall x, x ∈ used_blocks bl (heap_end h) -> x.1 <> o ->
       x ∈ used_blocks bl' (heap_end h) /\ forall i, x.1 <= i < x.2 -> bytes h' !! i = bytes h !! i).

Lemma realloc_shrink h l1 o l2 m n :
  heap_ok h (l1 ++ (o, true) :: l2) -> headers h !! o = Some m ->
  0 <= n -> n mod 4 = 0 ->
  n + SIZEOF_STRUCT_MEM + MIN_SIZE < first l2 (heap_end h) - o - SIZEOF_STRUCT_MEM ->
  let ptr2 := o + SIZEOF_STRUCT_MEM + n in
  let h1 := set_headers (<[ptr2 := Heap_mem HEAP_MAGIC 0 (hnext m) o]> (headers h))
    (set_used_mem (u32 (used_mem h - (first l2 (heap_end h) - o - SIZEOF_STRUCT_MEM - n))) h) in
  exists h2 h3 h4 bl', upd_hdr o (set_hnext ptr2) h1 = Some h2 /\
    (if negb (hnext m =? heap_end h2) then upd_hdr (hnext m) (set_hprev ptr2) h2 else Some h2) = Some h3 /\
    plug_holes ptr2 h3 = Some h4 /\ same_heap h h4 /\ heap_ok h4 bl' /\
    used_blocks bl' (heap_end h) =
      used_blocks l1 o ++ (o, ptr2) :: used_blocks l2 (heap_end h).
Proof.
  intros (C & P & L) Hm Hn0 Hn4 Hfit ptr2 h1.
  destruct (core_block _ _ _ _ _ C) as [(m0 & Hm0 & Hu & Hmg & Hn & Hp) Hr].
  assert (m0 = m) as -> by congruence.
  assert (heap_core h ((l1 ++ [(o, true)]) ++ l2)) as C' by (by rewrite <-app_assoc).
  unfold SIZEOF_STRUCT_MEM, MIN_SIZE in *. rewrite Hn in *.
  rewrite (upd_hdr_Some _ _ h1 m) by (subst h1; simpl; by rewrite lookup_insert_ne by lia).
  set (h2 := set_headers _ h1).
  assert (forall x, x <> o -> x <> ptr2 -> headers h2 !! x = headers h !! x) as Hx0.
  { intros x ? ?. subst h2 h1. simpl. by rewrite !lookup_insert_ne. }
  assert (headers h2 !! first l2 (heap_end h) = headers h !! first l2 (heap_end h)) as Hxt
    by (apply Hx0; subst ptr2; lia).
  pose proof (relink_upd h h2 _ l2 (first l2 (heap_end h)) ptr2 C' eq_refl Hxt eq_refl) as Erel.
  destruct (relink_ok h _ l2 (first l2 (heap_end h)) ptr2 (headers h2) C') as [Ht Hx];
    [done|done|].
  set (hd := relink _ _ _ _) in *. set (h3 := set_headers hd h2).
  assert (heap_core h3 ((l1 ++ [(o, true)]) ++ (ptr2, false) :: l2)) as C3.
  { rewrite <-app_assoc. apply (core_split h l1 o true l2 m (set_hnext ptr2 m)
      (Heap_mem HEAP_MAGIC 0 (first l2 (heap_end h)) o) n); try done;
      unfold SIZEOF_STRUCT_MEM; simpl; try lia; auto.
    - rewrite Hx by (subst ptr2; lia). subst h2. simpl. by rewrite lookup_insert_eq.
    - rewrite Hx by lia. subst h2 h1. simpl. fold ptr2.
      by rewrite lookup_insert_ne, lookup_insert_eq, ?Hn by (subst ptr2; lia).
    - intros x ?. rewrite Hx, Hx0 by (subst ptr2; lia). done.
    - f_equal. lia. }
  apply plugged_app in P as (P1 & [P2 _]%plugged_cons & _).
  destruct (plug_holes_ok h3 (l1 ++ [(o, true)]) ptr2 l2 C3) as (h4 & bl' & E & S & _ & K4 & U & _).
  - destruct L as [L|L]; [by left|]. right. change (lfree h3) with (lfree h). set_solver.
  - apply plugged_app. split_and!; try done. intros [_ (? & ? & [=])].
  - done.
  - exists h2, h3, h4, bl'. split_and!; try done.
    change (heap_end h3) with (heap_end h) in U. rewrite U, <-app_assoc, used_blocks_app. done.
Qed.

Lemma used_blocks_split l e x :
  x ∈ used_blocks l e -> exists l1 l2, l = l1 ++ (x.1, true) :: l2 /\ x.2 = first l2 e.
Proof.
  induction l as [|[o []] l IH]; simpl; [by intros []%elem_of_nil| |].
  - intros [->|Hin]%elem_of_cons; [by exists [], l|].
    destruct (IH Hin) as (l1 & l2 & -> & ?). by exists ((o, true) :: l1), l2.
  - intros Hin. destruct (IH Hin) as (l1 & l2 & -> & ?). by exists ((o, false) :: l1), l2.
Qed.

Lemma heap_ok_bytes h bl b : heap_ok h bl -> heap_ok (set_bytes b h) bl.
Proof. intros ([] & P & L). split_and!; [by split|done|done]. Qed.

Lemma used_here l1 o l2 e : (o, first l2 e) ∈ used_blocks (l1 ++ (o, true) :: l2) e.
Proof. rewrite used_blocks_app. simpl. set_solver. Qed.

Lemma realloc_grow h h1 l1 o l2 n a :
  heap_ok h (l1 ++ (o, true) :: l2) -> 0 <= n <= 2 ^ 32 - 4 ->
  allocated h h1 (l1 ++ (o, true) :: l2) n a ->
  let size := first l2 (heap_end h) - o - SIZEOF_STRUCT_MEM in
  let b := copy_bytes (Z.to_nat (Z.min size n)) (a - heap_ptr h1)
             (heap_ptr h + o + SIZEOF_STRUCT_MEM - heap_ptr h1) (bytes h1) in
  exists h2, rt_free 0 (Some (heap_ptr h + o + SIZEOF_STRUCT_MEM)) (set_bytes b h1) = Some h2 /\
    reallocated h h2 (l1 ++ (o, true) :: l2) o size n a.
Proof.
  intros (C & _) Hn (k1 & o1 & k2 & bl' & next & Ebl & -> & _ & Hnext & Hdis & S & K' & U & _).
  intros size b. destruct (core_block _ _ _ _ _ C) as [_ Hr]. destruct S as (Sp & Ss & Sb).
  assert (heap_end h1 = heap_end h) as Ee by (unfold heap_end; by rewrite Ss).
  destruct (RT_ALIGN_spec n Hn) as [Hal _].
  assert (forall x, x ∈ used_blocks (l1 ++ (o, true) :: l2) (heap_end h) ->
    x ∈ used_blocks bl' (heap_end h)) as Hkeep.
  { intros x. rewrite Ebl, U, used_blocks_app. simpl. set_solver. }
  destruct (used_blocks_split bl' (heap_end h) (o, first l2 (heap_end h))) as (j1 & j2 & -> & Ej);
    [apply Hkeep, used_here|]. simpl in Ej.
  destruct (free_used (set_bytes b h1) j1 o j2) as (h2 & bl'' & E & (Fp & Fs & Fb) & K2 & U2 & _);
    [by apply heap_ok_bytes|]. simpl in *. rewrite Sp in E. exists h2. split; [done|].
  assert (heap_end h2 = heap_end h) as Ee2 by (unfold heap_end; by rewrite Fs, Ss).
  change (heap_end (set_bytes b h1)) with (heap_end h1) in U2. rewrite Ee in U2.
  assert (forall x, x ∈ used_blocks (j1 ++ (o, true) :: j2) (heap_end h) -> x.1 <> o ->
    x ∈ used_blocks bl'' (heap_end h)) as Hkeep2.
  { intros x. rewrite U2, used_blocks_app. simpl.
    intros [?|[->|?]%elem_of_cons]%elem_of_app ?; set_solver. }
  pose proof (Hdis _ (used_here l1 o l2 (heap_end h))) as Hd0. simpl in Hd0.
  unfold request in Hnext. unfold SIZEOF_STRUCT_MEM in *.
  destruct (copy_bytes_spec (Z.to_nat (Z.min size n)) (o1 + 12) (o + 12) (bytes h1)) as [B1 B2];
    [subst size; lia|].
  assert (b = copy_bytes (Z.to_nat (Z.min size n)) (o1 + 12) (o + 12) (bytes h1)) as Eb.
  { subst b. f_equal; lia. }
  assert (o1 <> o) as Hne by (subst size; lia).
  exists bl'', o1, next. rewrite Fb, Sp in *. split_and!; try done; unfold SIZEOF_STRUCT_MEM; try lia.
  - apply Hkeep2; [|done]. rewrite U. set_solver.
  - intros i Hi. rewrite Eb, B1, Sb by lia. done.
  - intros x Hx Hxo. split; [apply Hkeep2; [by apply Hkeep|done]|].
    intros i Hi. rewrite Eb, B2, Sb; [done|]. pose proof (Hdis x Hx). subst size. lia.
Qed.

(** C31. [rt_realloc] of an allocated block returns, keeps the heap consistent, and gives a
    block of at least the requested size that holds the old content as far as both
    sizes reach, with every other block and its bytes untouched; when it returns null
    nothing has changed. *)
Theorem rt_realloc_ok garbage h l1 o l2 newsize :
  heap_ok h (l1 ++ (o, true) :: l2) -> MIN_SIZE_ALIGNED <= mem_size_aligned h ->
  0 <= newsize <= 2 ^ 32 - 8 ->
  exists r h', rt_realloc garbage 0 (Some (heap_ptr h + o + SIZEOF_STRUCT_MEM)) newsize h =
      Some (r, h') /\
    match r with
    | Some a => reallocated h h' (l1 ++ (o, true) :: l2) o
        (first l2 (heap_end h) - o - SIZEOF_STRUCT_MEM) (RT_ALIGN newsize RT_ALIGN_SIZE) a
    | None => h' = h
    end.
Proof.
  intros K Hmin Hs. pose proof K as (C & _).
  destruct (core_block _ _ _ _ _ C) as [(m & Hm & _ & _ & Hn & _) Hr].
  pose proof (ho_room _ _ C o ltac:(set_solver)) as Hroom. pose proof (ho_addr _ _ C) as Had.
  destruct (RT_ALIGN_spec newsize ltac:(lia)) as [Ha Ha4]. unfold rt_realloc. simpl.
  set (n := RT_ALIGN newsize RT_ALIGN_SIZE) in *.
  destruct (Z.gtb_spec n (mem_size_aligned h)) as [Hgt|Hle]; [by exists None, h|].
  unfold SIZEOF_STRUCT_MEM in *.
  replace (_ || _) with false by (symmetry; apply orb_false_iff; split;
    [apply Z.ltb_ge; lia|rewrite Z.geb_leb; apply Z.leb_gt; lia]).
  replace (heap_ptr h + o + 12 - 12 - heap_ptr h) with o by lia. rewrite Hm. simpl. rewrite Hn.
  set (size := first l2 (heap_end h) - o - 12).
  rewrite (wrap_small 32 (first l2 (heap_end h) - o)) by (unfold in_u; lia).
  rewrite (wrap_small 32 (first l2 (heap_end h) - o - 12)) by (unfold in_u; lia). fold size.
  assert (forall h' bl' next, heap_ok h' bl' -> same_heap h h' -> o + 12 + n <= next ->
    used_blocks bl' (heap_end h) = used_blocks l1 o ++ (o, next) :: used_blocks l2 (heap_end h) ->
    reallocated h h' (l1 ++ (o, true) :: l2) o size n (heap_ptr h + o + 12)) as Hsame.
  { intros h' bl' next K' S Hnx U. pose proof (same_end _ _ S). destruct S as (? & ? & Eb).
    exists bl', o, next. unfold SIZEOF_STRUCT_MEM. rewrite U, Eb, used_blocks_app. simpl.
    split_and!; try done; [set_solver|]. intros x [?|[->|?]%elem_of_cons]%elem_of_app ?;
      (split; [set_solver|done]). }
  destruct (Z.eqb_spec size n) as [Eq|Hne].
  { exists (Some (heap_ptr h + o + 12)), h. split; [done|].
    eapply (Hsame h _ (first l2 (heap_end h)) K); [done|lia|]. by rewrite used_blocks_app. }
  destruct (Z.ltb_spec (n + 12 + MIN_SIZE) size) as [Hlt|Hge].
  { destruct (realloc_shrink h l1 o l2 m n K Hm) as
      (h2 & h3 & h4 & bl' & E2 & E3 & E4 & S4 & K4 & U4); [lia|done|done|].
    unfold SIZEOF_STRUCT_MEM in *. rewrite Hn in *. fold size in E2. rewrite E2. simpl. rewrite E3.
    simpl. rewrite E4. simpl. eexists _, h4. split; [done|]. by eapply Hsame. }
  destruct (malloc_spec garbage h _ n K Hmin) as (r & h1 & E1 & H1); [lia|].
  rewrite E1. simpl. destruct r as [a|]; [|destruct H1 as [-> _]; by exists None, h].
  destruct (realloc_grow h h1 l1 o l2 n a K ltac:(lia) H1) as (h2 & Ef & R).
  replace (if size <? n then size else n) with (Z.min size n) by
    (destruct (Z.ltb_spec size n); lia).
  unfold SIZEOF_STRUCT_MEM in *. fold size in Ef. rewrite Ef. simpl. by exists (Some a), h2.
Qed.

(** ** Initialisation, and examples *)

(** [rt_system_heap_init] gives a consistent heap that is one free block with everything
    between the aligned addresses but two headers, of which [lfree] is the lowest. *)
Theorem heap_init_ok memory begin_addr end_addr h :
  0 < begin_addr <= 2 ^ 32 - 4 -> 0 <= end_addr < 2 ^ 32 ->
  rt_system_heap_init memory begin_addr end_addr = Some h ->
  heap_ok h [(0, false)] /\ lowest h [(0, false)] /\
  mem_size_aligned h = RT_ALIGN_DOWN end_addr RT_ALIGN_SIZE -
    RT_ALIGN begin_addr RT_ALIGN_SIZE - 2 * SIZEOF_STRUCT_MEM.
Proof.
  intros Hb He. unfold rt_system_heap_init.
  destruct (_ && _) eqn:Eg; [|done]. apply andb_true_iff in Eg as [G1%Z.gtb_lt G2%Z.geb_le].
  rewrite RT_ALIGN_DOWN_4 in * by lia. pose proof (Z.mod_pos_bound end_addr 4 ltac:(lia)) as Hm.
  destruct (RT_ALIGN_spec begin_addr ltac:(lia)) as [Hb1 Hb2].
  set (b := RT_ALIGN begin_addr RT_ALIGN_SIZE) in *. unfold SIZEOF_STRUCT_MEM in *.
  set (s := end_addr - end_addr mod 4 - b - 2 * 12).
  assert (s mod 4 = 0) as Hs4.
  { subst s. rewrite Zminus_mod, (Zminus_mod _ b), Hb2, (Zminus_mod end_addr), Zmod_mod,
      Z.sub_diag. done. }
  intros [= <-]. unfold heap_ok, lfree_ok, heap_end. simpl.
  split_and!; try done; [|by right; left|intros o [= ->]%list_elem_of_singleton; simpl; lia].
  split; unfold heap_end, SIZEOF_STRUCT_MEM; simpl; try done; try (subst s; lia).
  - split_and!; unfold SIZEOF_STRUCT_MEM; try (subst s; lia).
    + exists (Heap_mem HEAP_MAGIC 0 (s + 12) 0). split_and!; try done.
      rewrite lookup_insert_ne by (subst s; lia). by rewrite lookup_singleton_eq.
    + rewrite Z.sub_0_r, Z.add_mod, Hs4 by lia. done.
  - eexists. rewrite lookup_insert_eq. done.
  - intros o [=]%list_elem_of_singleton.
Qed.

(** A heap of 1000 bytes behind its first header. *)
Definition demo_heap : heap :=
  default (Mkheap 0 0 0 0 0 ∅ ∅) (rt_system_heap_init ∅ 536870912 536871936).

Definition no_garbage (_ : Z) : Z := 0.

Lemma demo_heap_ok : heap_ok demo_heap [(0, false)].
Proof.
  split_and!; [|done|by right; left].
  split; try (vm_compute; done).
  - simpl. split_and!; try (vm_compute; done). eexists. split_and!; ev.
  - eexists. split_and!; ev.
  - intros o [=]%list_elem_of_singleton.
Qed.

Lemma heap_init_ok_witness : heap_ok demo_heap [(0, false)] /\ mem_size_aligned demo_heap = 1000.
Proof.
  destruct (heap_init_ok ∅ 536870912 536871936 demo_heap ltac:(lia) ltac:(lia) ltac:(ev))
    as (K & _ & E). split; [exact K|]. rewrite E. ev.
Defined.

Lemma rt_malloc_ok_witness :
  exists a h', rt_malloc no_garbage 0 100 demo_heap = Some (Some a, h') /\
    allocated demo_heap h' [(0, false)] 100 a.
Proof.
  destruct (rt_malloc_ok no_garbage demo_heap [(0, false)] 100 demo_heap_ok ltac:(ev) ltac:(lia))
    as (r & h' & E & H). destruct r as [a|].
  - exists a, h'. split; [exact E|exact H].
  - vm_compute in E. discriminate E.
Defined.

(** The heap with 100 bytes allocated at its start. *)
Definition demo_heap1 : heap :=
  match rt_malloc no_garbage 0 100 demo_heap with Some (_, h) => h | None => demo_heap end.

Lemma demo_heap1_ok : heap_ok demo_heap1 [(0, true); (112, false)].
Proof.
  split_and!; [|done|by right; right; left].
  split; try (vm_compute; done).
  - simpl. split_and!; try (vm_compute; done); eexists; split_and!; ev.
  - eexists. split_and!; ev.
  - intros o [[= ->]|[=]%list_elem_of_singleton]%elem_of_cons. ev.
Qed.

Lemma rt_free_ok_witness :
  exists h' bl', rt_free 0 (Some 536870924) demo_heap1 = Some h' /\ heap_ok h' bl' /\
    used_blocks bl' 1012 = [].
Proof.
  destruct (rt_free_ok demo_heap1 [(0, true); (112, false)] 0 true demo_heap1_ok ltac:(left))
    as (l1 & l2 & h' & bl' & E & Ef & (_ & K & U & _) & _).
  destruct l1 as [|x l1]; [|destruct l1 as [|y [|]]; discriminate E].
  injection E as <-. exists h', bl'. split; [exact Ef|]. split; [exact K|exact U].
Defined.

Lemma rt_realloc_ok_witness :
  exists a h', rt_realloc no_garbage 0 (Some 536870924) 300 demo_heap1 = Some (Some a, h') /\
    reallocated demo_heap1 h' [(0, true); (112, false)] 0 100 300 a.
Proof.
  destruct (rt_realloc_ok no_garbage demo_heap1 [] 0 [(112, false)] 300 demo_heap1_ok
    ltac:(ev) ltac:(lia)) as (r & h' & E & H).
  destruct r as [a|]; [|vm_compute in E; discriminate E].
  exists a, h'. split; [exact E|exact H].
Defined.

(** ** Findings *)

(** Request sizes wrap around: asked for 2^32 - 1 bytes, [rt_malloc] rounds the size up
    to 0 and hands out a block of 12; [rt_calloc] does the same for a product that wraps. *)
Theorem malloc_size_wraps :
  (exists h', rt_malloc no_garbage 0 4294967295 demo_heap = Some (Some 536870924, h') /\
     hnext <$> headers h' !! 0 = Some (SIZEOF_STRUCT_MEM + 12)) /\
  (exists h', rt_calloc no_garbage 0 1073741825 4 demo_heap = Some (Some 536870924, h') /\
     hnext <$> headers h' !! 0 = Some (SIZEOF_STRUCT_MEM + 12)).
Proof. split; eexists; split; vm_compute; reflexivity. Qed.

(** The heap is free and has 1000 bytes, and a request for 1000 bytes fails. *)
Lemma malloc_perfect_fit_refused :
  rt_malloc no_garbage 0 (mem_size_aligned demo_heap) demo_heap = Some (None, demo_heap) /\
  0 + SIZEOF_STRUCT_MEM + mem_size_aligned demo_heap <= heap_end demo_heap.
Proof. split; ev. Qed.

(** All of the heap is allocated in two blocks, of 100 and 876 bytes, and the first one is
    cut down to 20 bytes. *)
Definition demo_heap_cut : heap :=
  match r ← rt_malloc no_garbage 0 876 demo_heap1;
        rt_realloc no_garbage 0 (Some 536870924) 20 (snd r) with
  | Some (_, h) => h
  | None => demo_heap
  end.

(** [rt_realloc] that cuts a block down does not move [lfree] to the free remainder: with
    [lfree] behind it the remainder is not found, and a request that fits in it fails. *)
Theorem realloc_remainder_lost :
  headers demo_heap_cut !! 32 = Some (Heap_mem HEAP_MAGIC 0 112 0) /\
  lfree demo_heap_cut = heap_end demo_heap_cut /\
  fst <$> rt_malloc no_garbage 0 40 demo_heap_cut = Some None.
Proof. split_and!; ev. Qed.

End Heap.
