(* ===== verification/Lifecycle.v ===== *)
(** * The life of a thread, and timers

    Starting, deleting and finishing threads (src/thread.c), the work of the
    idle thread (src/idle.c), the order of the timer list (src/timer.c) and
    finding objects (src/object.c), in states that satisfy [kernel_ok]. *)

From S2P Require Import Prelude KString Kernel Scheduler Object Timer Thread KernelOk ThreadSpec Priority.

(** ** Timers *)

(** The timer [r], due in [d] ticks, was put into the list behind the timers due no later
    and in front of the others. *)
Definition placed (k k' : kernel) (r : ref) (d : Z) : Prop :=
  exists l1 l2, rt_timer_list k = l1 ++ l2 /\ rt_timer_list k' = l1 ++ r :: l2 /\
    (forall t, t ∈ l1 -> due (timers k) (rt_tick k) t <= d) /\
    (forall t, t ∈ l2 -> d < due (timers k) (rt_tick k) t).

(** [rt_timer_start] refuses a running timer and otherwise puts the timer into the list
    behind all timers that expire earlier or at the same time and in front of all later
    ones, due in exactly its time; the list stays sorted across the wrap-around of the
    tick. *)
Theorem rt_timer_start_ok k r tm :
  timer_inv k -> timers k !! r = Some tm -> 0 <= tm_init_tick tm < RT_TICK_MAX / 2 ->
  exists e k', rt_timer_start r k = Some (e, k') /\ timer_inv k' /\
    if Z.testbit (tm_flag tm) 0 then e = - RT_ERROR /\ k' = k
    else e = RT_EOK /\ due (timers k') (rt_tick k') r = tm_init_tick tm /\
      placed k k' r (tm_init_tick tm).
Proof.
  intros T Ht Hi. apply wp_exists. destruct (Z.testbit (tm_flag tm) 0) eqn:Ea.
  - by apply (wp_timer_start_active k r tm).
  - apply (wp_timer_start k r tm); try done; [unfold active; congruence|].
    intros l1 l2 El H1 H2 T'. split; [done|]. split; [done|]. split.
    + simpl. rewrite due_insert_eq. by apply due_start.
    + by exists l1, l2.
Qed.

Lemma rt_timer_start_ok_witness :
  exists k', rt_timer_start (TimerOf 4096) demo = Some (RT_EOK, k') /\
    rt_timer_list k' = [TimerOf 4096].
Proof.
  destruct (rt_timer_start_ok demo (TimerOf 4096)
    (timers demo !!! TimerOf 4096))
    as (e & k' & E & _ & -> & _ & l1 & l2 & E1 & E2 & _).
  - exact (kernel_ok_timer _ _ demo_ok).
  - ev.
  - vm_compute. by split.
  - exists k'. split; [exact E|]. vm_compute in E1. symmetry in E1.
    apply app_nil in E1 as [-> ->]. exact E2.
Defined.

(** ** Starting *)

Lemma filter_no_list (ls : gmap qid (list ptr)) t :
  (forall q, t ∉ ls !!! q) -> filter (.≠ t) <$> ls = ls.
Proof.
  intros Hno. apply map_eq. intros q. rewrite lookup_fmap. specialize (Hno q).
  rewrite lookup_total_alt in Hno. destruct (ls !! q) as [l|]; [|done]. simpl in *.
  by rewrite filter_ne_id.
Qed.

Definition prepared (th : rt_thread) : rt_thread :=
  set_stat RT_THREAD_SUSPEND (with_priority (init_priority th) th).

Lemma kok_prepared m k t th :
  kernel_ok m k -> threads k !! t = Some th -> stat th = RT_THREAD_INIT ->
  0 <= init_priority th < RT_THREAD_PRIORITY_MAX ->
  kernel_ok m (set_threads (<[t := prepared th]> (threads k)) k).
Proof.
  intros O Ht Hs Hp. pose proof (ko_sched _ _ _ _ _ _ _ _ O) as S. unfold kernel_ok. simpl.
  assert (forall q, t ∉ tlists k !!! q) as Hno.
  { intros q. by eapply sched_not_in_lists. }
  eapply kok_thread; try done.
  - rewrite <-(filter_no_list _ _ Hno). eapply sched_ok_unlink; try done.
    left. split; [done|]. congruence.
  - exact (ko_stack _ _ _ _ _ _ _ _ O t th Ht).
  - intros ->. destruct (ko_idle _ _ _ _ _ _ _ _ O) as (? & ? & ?). congruence.
  - congruence.
Qed.

(** [rt_thread_startup] makes an initialised thread ready with its initial priority, at
    the end of the ready list of that priority, keeps the invariant, and leaves the best
    ready thread running. *)
Theorem rt_thread_startup_ok m k t th :
  kernel_ok m k -> threads k !! t = Some th -> stat th = RT_THREAD_INIT ->
  0 <= init_priority th < RT_THREAD_PRIORITY_MAX ->
  rt_current_thread k <> None -> rt_scheduler_lock_nest k = 0 ->
  exists k', rt_thread_startup t k = Some (RT_EOK, k') /\ kernel_ok m k' /\
    threads k' = <[t := set_stat RT_THREAD_READY (prepared th)]> (threads k) /\
    tl k' (QReady (init_priority th)) = tl k (QReady (init_priority th)) ++ [t] /\
    exists t', rt_current_thread k' = Some t' /\ elected k' t'.
Proof.
  intros O Ht Hs Hp Hc Hl.
  assert (wp (rt_thread_startup t) (fun r k' => r = RT_EOK /\ kernel_ok m k' /\
    threads k' = <[t := set_stat RT_THREAD_READY (prepared th)]> (threads k) /\
    tl k' (QReady (init_priority th)) = tl k (QReady (init_priority th)) ++ [t] /\
    exists t', rt_current_thread k' = Some t' /\ elected k' t') k) as H.
  { unfold rt_thread_startup. apply wp_bind, (wp_deref _ _ th); [done|].
    apply wp_bind, wp_assert; [by rewrite bool_decide_true|].
    apply wp_bind, (wp_upd_thread _ _ th); [done|].
    apply wp_bind, (wp_upd_thread _ _ (set_current_priority (init_priority th) th)).
    { simpl. by rewrite lookup_insert_eq. }
    apply wp_bind. eapply wp_upd_thread; [simpl; by rewrite lookup_insert_eq|]. simpl.
    rewrite !insert_insert_eq, shiftl_1 by done.
    change (set_stat RT_THREAD_SUSPEND _) with (prepared th).
    match goal with |- wp _ _ ?x => replace x with (set_threads (<[t := prepared th]> (threads k)) k)
      by (by destruct k) end.
    pose proof (kok_prepared m k t th O Ht Hs Hp) as O1. set (k1 := set_threads _ k) in *.
    apply wp_bind, (wp_resume m k1 t (prepared th)); try done.
    { simpl. by rewrite lookup_insert_eq. }
    intros g l ts O2 _ _ _. unfold rt_thread_self. apply wp_bind, wp_gets.
    rewrite bool_decide_true by done. apply wp_bind. unfold when.
    apply (wp_schedule m); [done|]. intros p c O3 He _. apply wp_ret.
    destruct (He Hl) as (t' & -> & He'). split_and!; try done.
    - simpl. by rewrite insert_insert_eq.
    - unfold tl. simpl. unfold ready_lists.
      rewrite lookup_total_insert_list, decide_True, !lookup_total_remove by done.
      pose proof (sched_not_in_lists _ _ _ t th (QReady (init_priority th))
        (ko_sched _ _ _ _ _ _ _ _ O) Ht Hs). by rewrite !filter_ne_id by (by rewrite ?filter_ne_id).
    - by exists t'. }
  apply wp_exists in H as (r & k' & E & -> & ?). eauto.
Qed.

(** A third thread, at 49152 with priority 5, created but not started. *)
Definition demo_third : kernel :=
  after (rt_thread_create (Some 49152) (Some 53248) zero_thread [99; 0] 3 0 512 5 5) demo.

Lemma rt_thread_startup_ok_witness :
  exists k', rt_thread_startup 49152 demo_third = Some (RT_EOK, k') /\
    tl k' (QReady 5) = [49152].
Proof.
  destruct (rt_thread_startup_ok Task demo_third 49152
    (default zero_thread (threads demo_third !! 49152))) as (k' & E & _ & _ & El & _).
  - apply kok_check_sound. ev.
  - ev.
  - ev.
  - vm_compute. split; [discriminate|reflexivity].
  - vm_compute. discriminate.
  - ev.
  - exists k'. split; [exact E|exact El].
Defined.

(** ** Ending *)

Lemma kok_close m now cur ths ls g l ts t th ls' g' :
  kok m now cur ths ls g l ts -> ths !! t = Some th -> t <> idle ->
  sched_ok (<[t := set_stat RT_THREAD_CLOSE th]> ths) ls' g' ->
  kok m now cur (<[t := set_stat RT_THREAD_CLOSE th]> ths) ls' g'
    (filter (.≠ TimerOf t) l) ts.
Proof.
  intros [S T Hst Hi Hc Htt Hti Hf Hd Hp Hu] Ht Hid S'. split; try done.
  - by apply timer_ok_filter.
  - intros x xh. destruct (decide (x = t)) as [->|]; intros; simplify_map_eq; [|by eauto].
    exact (Hst t th Ht).
  - destruct Hi as (ih & Ei & Ri). exists ih. by rewrite lookup_insert_ne.
  - intros x Hx. destruct (decide (x = t)) as [->|]; [by rewrite lookup_insert_eq|].
    rewrite lookup_insert_ne by done. by apply Hc.
  - intros x xh Hx Hcl. destruct (decide (x = t)) as [->|Hne]; [by simplify_map_eq|].
    rewrite lookup_insert_ne in Hx by done. destruct (Htt x xh Hx Hcl) as (tm & ? & ? & ? & ? & A).
    exists tm. split_and!; try done. intros [Hin|Hm]%A; [left|by right].
    rewrite list_elem_of_filter. split; [congruence|done].
  - intros x [Hne Hin]%list_elem_of_filter. rewrite lookup_insert_ne by congruence. by apply Hti.
  - intros x Hx [_ Hin]%list_elem_of_filter. by apply (Hf x).
  - intros x Hx [_ Hin]%list_elem_of_filter. by apply Hd.
Qed.

(** The state after a thread left its list and its timer was taken off; [c]
    is what happens to the object container. *)
Definition k_closed (t : ptr) (th : rt_thread) (g : Z) (c : gmap Z (list ref)) (k : kernel) : kernel :=
  set_object_container c
    (set_rt_timer_list (filter (.≠ TimerOf t) (rt_timer_list k))
      (set_rt_thread_ready_priority_group g
        (set_tlists (filter (.≠ t) <$> tlists k)
          (set_threads (<[t := set_stat RT_THREAD_CLOSE th]> (threads k)) k)))).

Lemma closed_ok m k t th c :
  kernel_ok m k -> threads k !! t = Some th -> t <> idle ->
  stat th = RT_THREAD_READY \/ stat th = RT_THREAD_SUSPEND ->
  kernel_ok m (k_closed t th (rt_thread_ready_priority_group (k_remove t th k)) c k).
Proof.
  intros O Ht Hid Hs. pose proof (ko_sched _ _ _ _ _ _ _ _ O) as S. unfold kernel_ok. simpl.
  eapply kok_close; try done.
  replace (filter (.≠ t) <$> tlists k) with (tlists (k_remove t th k))
    by (rewrite k_remove_frame; done).
  apply k_remove_ok; try done. exact (so_prio _ _ _ S t th Ht).
Qed.

(** [t], closed and in no list, enters the list of defunct threads. *)
Lemma defunct_ok m k t th g c :
  kernel_ok m (k_closed t th g c k) ->
  kernel_ok m (set_tlists (<[QDefunct := t :: filter (.≠ t) (tl k QDefunct)]>
    (filter (.≠ t) <$> tlists k)) (k_closed t th g c k)).
Proof.
  intros [S T Hst Hi Hc Htt Hti Hf Hd Hp Hu]. simpl in *. split; try done. simpl.
  apply (sched_ok_link _ _ _ t (set_stat RT_THREAD_CLOSE th) QDefunct []); try done.
  - by rewrite lookup_insert_eq.
  - apply in_no_list_removed.
  - by right.
  - rewrite lookup_total_remove. done.
Qed.

Definition without (r : ref) (c : gmap Z (list ref)) : gmap Z (list ref) := filter (.≠ r) <$> c.

(** What the end of a thread leaves behind. *)
Definition ended (t : ptr) (th : rt_thread) (k k' : kernel) : Prop :=
  threads k' = <[t := set_stat RT_THREAD_CLOSE th]> (threads k) /\
  TimerOf t ∉ rt_timer_list k' /\ (forall q, q <> QDefunct -> t ∉ tl k' q) /\
  (forall q x, x <> t -> x ∈ tl k' q <-> x ∈ tl k q).

Lemma ended_closed t th g c k :
  (forall q, t ∉ tl (k_closed t th g c k) q) /\ ended t th k (k_closed t th g c k).
Proof.
  assert (forall q x, x ∈ tl (k_closed t th g c k) q <-> x <> t /\ x ∈ tl k q) as Hin.
  { intros q x. unfold tl. simpl. by rewrite lookup_total_remove, elem_of_filter_ne. }
  split; [|split_and!]; try done; intros; rewrite ?Hin; try naive_solver.
  simpl. rewrite list_elem_of_filter. naive_solver.
Qed.

Lemma ended_defunct t th g c k :
  ended t th k (set_tlists (<[QDefunct := t :: filter (.≠ t) (tl k QDefunct)]>
    (filter (.≠ t) <$> tlists k)) (k_closed t th g c k)).
Proof.
  split_and!; try done.
  - simpl. rewrite list_elem_of_filter. naive_solver.
  - intros q Hq. unfold tl. simpl. rewrite lookup_total_insert_list, decide_False by congruence.
    rewrite lookup_total_remove, elem_of_filter_ne. naive_solver.
  - intros q x Hx. unfold tl. simpl. rewrite lookup_total_insert_list. case_decide; subst.
    + rewrite elem_of_cons, elem_of_filter_ne. naive_solver.
    + rewrite lookup_total_remove, elem_of_filter_ne. naive_solver.
Qed.

(** [rt_thread_delete] of a thread that is ready or waits takes it out of whatever list it
    is in (ready or waiting), takes its timer off, closes it and puts it first among the
    defunct threads; the other threads stay where they are and the invariant holds. *)
Theorem rt_thread_delete_ok m k t th :
  kernel_ok m k -> threads k !! t = Some th -> t <> idle ->
  stat th = RT_THREAD_READY \/ stat th = RT_THREAD_SUSPEND ->
  exists k', rt_thread_delete t k = Some (RT_EOK, k') /\ kernel_ok m k' /\
    ended t th k k' /\ tl k' QDefunct = t :: filter (.≠ t) (tl k QDefunct).
Proof.
  intros O Ht Hid Hs. set (g := rt_thread_ready_priority_group (k_remove t th k)).
  set (k1 := k_closed t th g (without (TimerOf t) (object_container k)) k).
  exists (set_tlists (<[QDefunct := t :: filter (.≠ t) (tl k QDefunct)]>
    (filter (.≠ t) <$> tlists k)) k1). split; [|split; [|split]].
  - unfold rt_thread_delete, mbind, K_bind. rewrite (remove_thread_eq t th k Ht).
    rewrite k_remove_frame. fold g. unfold k_unlink. simpl.
    unfold upd_thread, deref, mbind, K_bind. simpl. rewrite Ht. simpl.
    unfold tl at 1. simpl. rewrite lookup_total_remove. reflexivity.
  - by apply defunct_ok, closed_ok.
  - apply ended_defunct.
  - unfold tl at 1. simpl. by rewrite lookup_total_insert_list, decide_True.
Qed.

Lemma rt_thread_delete_ok_witness :
  exists k', rt_thread_delete 8192 demo = Some (RT_EOK, k') /\ tl k' QDefunct = [8192].
Proof.
  destruct (rt_thread_delete_ok Task demo 8192 (demo_th 8192) demo_ok ltac:(ev) ltac:(ev)
    ltac:(left; ev)) as (k' & E & _ & _ & El).
  exists k'. split; [exact E|exact El].
Defined.

(** The thread's memory needs no cleaning up: static, and no cleanup function. *)
Definition discarded (o : rt_object) (th : rt_thread) : bool :=
  truthy (obj_type o &. RT_Object_Class_Static) && bool_decide (cleanup th = None).

Definition exited (t : ptr) (th : rt_thread) (o : rt_object) (k k' : kernel) : Prop :=
  kernel_ok Task k' /\ ended t th k k' /\
  (t ∈ tl k' QDefunct <-> discarded o th = false) /\
  exists t', rt_current_thread k' = Some t' /\ t' <> t /\ elected k' t'.

Lemma exit_schedule t th o k k1 :
  kernel_ok Task k1 -> ended t th k k1 -> rt_scheduler_lock_nest k1 = 0 ->
  (t ∈ tl k1 QDefunct <-> discarded o th = false) ->
  exists k', rt_schedule k1 = Some (tt, k') /\ exited t th o k k'.
Proof.
  intros O1 E1 L1 D1. assert (wp rt_schedule (fun _ k' => exited t th o k k') k1) as H.
  { apply (wp_schedule Task); [done|]. intros p c O2 He _. destruct (He L1) as (t' & -> & He').
    split_and!; try apply E1; try done. exists t'. split_and!; try done. intros ->.
    destruct He' as (th' & Ht' & Hs' & _). destruct E1 as (E1 & _). rewrite E1 in Ht'.
    rewrite lookup_insert_eq in Ht'. by injection Ht' as <-. }
  apply wp_exists in H as ([] & k' & ? & ?). eauto.
Qed.

(** [rt_thread_exit] (where every thread's entry function returns to) closes the running
    thread, takes it out of the ready list and its timer off, hands it to the idle thread
    unless it is static and has no cleanup function, keeps the invariant, and leaves
    the best remaining ready thread running. *)
Theorem rt_thread_exit_ok k t th o :
  kernel_ok Task k -> rt_current_thread k = Some t -> threads k !! t = Some th ->
  stat th = RT_THREAD_READY -> t <> idle -> rt_scheduler_lock_nest k = 0 ->
  objects k !! Obj t = Some o ->
  exists k', rt_thread_exit k = Some (tt, k') /\ exited t th o k k'.
Proof.
  intros O Hc Ht Hs Hid Hl Ho. set (g := rt_thread_ready_priority_group (k_remove t th k)).
  unfold rt_thread_exit, current, rt_thread_self, gets, lift, mbind, K_bind. rewrite Hc. simpl.
  rewrite (remove_thread_eq t th k Ht), k_remove_frame. fold g. unfold k_unlink. simpl.
  unfold upd_thread, deref, mbind, K_bind. simpl. rewrite Ht. simpl.
  unfold rt_object_is_systemobject, deref, mbind, K_bind. simpl. rewrite Ho. simpl.
  rewrite lookup_insert_eq. cbn [set_stat cleanup]. fold (discarded o th).
  assert (forall c, kernel_ok Task (k_closed t th g c k)) as Hk.
  { intros c. apply closed_ok; auto. }
  destruct (discarded o th) eqn:Ed.
  - destruct (ended_closed t th g (without (Obj t) (without (TimerOf t) (object_container k))) k)
      as [Hno He]. eapply exit_schedule; [apply (Hk _)|exact He|exact Hl|].
    split; [intros Hin; by apply Hno in Hin|congruence].
  - unfold tlist_insert_after, modify, tl at 1. simpl. rewrite lookup_total_remove.
    eapply exit_schedule; [apply (defunct_ok Task k t th g _ (Hk _))|apply ended_defunct|exact Hl|].
    split; [done|]. intros _. unfold tl. simpl. rewrite lookup_total_insert_list, decide_True by done.
    left.
Qed.

Lemma rt_thread_exit_ok_witness :
  exists k', rt_thread_exit demo = Some (tt, k') /\ 4096 ∈ tl k' QDefunct.
Proof.
  destruct (rt_thread_exit_ok demo 4096 (demo_th 4096)
    (default (Object [] 0) (objects demo !! Obj 4096)) demo_ok
    ltac:(ev) ltac:(ev) ltac:(ev) ltac:(ev) ltac:(ev) ltac:(ev)) as (k' & E & _ & _ & D & _).
  exists k'. split; [exact E|]. apply D. ev.
Defined.

(** ** The idle thread *)

(** What the kernel relies on: a cleanup function returns and leaves the
    kernel's data alone. *)
Class cleanup_contract (cleanup_call : Z -> ptr -> K unit) : Prop :=
  cleanup_returns f t k : cleanup_call f t k = Some (tt, k).

#[export] Instance cleanup_contract_nop : cleanup_contract (fun _ _ => mret tt).
Proof. by intros f t k. Qed.

Lemma lookup_delete_Some' {I V} `{Countable I} (m : gmap I V) i j v :
  delete i m !! j = Some v -> j <> i /\ m !! j = Some v.
Proof. rewrite lookup_delete_Some. naive_solver. Qed.

(** A closed thread that is in no list goes away, with the timer inside it. *)
Lemma kok_forget now cur ths ls g l ts t th :
  kok Task now cur ths ls g l ts -> ths !! t = Some th -> stat th = RT_THREAD_CLOSE ->
  cur <> Some t -> (forall q, t ∉ ls !!! q) -> Obj t ∉ l ->
  kok Task now cur (delete t ths) ls g l (delete (TimerOf t) (delete (Obj t) ts)).
Proof.
  intros [S T Hst Hi Hc Htt Hti Hf Hd Hp Hu] Ht Hs Hcur Hno Hobj.
  assert (TimerOf t ∉ l) as Htim by (intros (? & ? & ?)%Hti; congruence).
  assert (forall r, r ∈ l -> delete (TimerOf t) (delete (Obj t) ts) !! r = ts !! r) as Hts.
  { intros r Hr. rewrite !lookup_delete_ne; [done|by intros <-|by intros <-]. }
  assert (forall r, r ∈ l -> due (delete (TimerOf t) (delete (Obj t) ts)) now r = due ts now r) as Hdue.
  { intros r Hr. unfold due. by rewrite !lookup_total_alt, Hts. }
  split.
  - destruct S as [S1 S2 S3 S4 S5 S6 S7 S8 S9 S10].
    assert (forall q x (P : rt_thread -> Prop), x ∈ ls !!! q ->
      (exists xh, ths !! x = Some xh /\ P xh) -> exists xh, delete t ths !! x = Some xh /\ P xh) as Hx.
    { intros q x P Hin (xh & ? & ?). exists xh. rewrite lookup_delete_ne; [done|].
      intros <-. by apply Hno in Hin. }
    split; try done.
    + intros x xh [_ Hx']%lookup_delete_Some'. by apply S3.
    + intros p x Hin. eapply Hx; [done|]. by apply S4.
    + intros q x Hin Hq. eapply Hx; [done|]. by apply (S5 q).
    + intros x Hin. eapply Hx; [done|]. by apply S6.
    + intros x xh [_ Hx']%lookup_delete_Some'. by eapply S7.
    + intros x xh [_ Hx']%lookup_delete_Some'. by eapply S8.
  - destruct T as [T1 T2 T3 T4]. split; try done.
    + intros r Hr. rewrite Hts by done. by apply T2.
    + intros r Hr. rewrite Hdue by done. by apply T3.
    + eapply sorted_ext; [|exact T4]. intros x y Hx Hy. by rewrite !Hdue.
  - intros x xh [_ Hx']%lookup_delete_Some'. by eapply Hst.
  - destruct Hi as (ih & Ei & Ri). exists ih. rewrite lookup_delete_ne; [done|]. congruence.
  - intros x Hx. rewrite lookup_delete_ne by congruence. by apply Hc.
  - intros x xh [Hne Hx']%lookup_delete_Some' Hcl.
    destruct (Htt x xh Hx' Hcl) as (tm & ? & ?). exists tm.
    rewrite !lookup_delete_ne by congruence. done.
  - intros x Hin. rewrite lookup_delete_ne; [by apply Hti|]. by intros <-.
  - done.
  - intros r Hm Hr. rewrite Hdue by done. by apply Hd.
  - intros r tm [_ [_ Hx]%lookup_delete_Some']%lookup_delete_Some'. by eapply Hp.
  - intros p tm [_ [_ Hx]%lookup_delete_Some']%lookup_delete_Some'. by eapply Hu.
Qed.

(** The threads that [rt_thread_idle_excute] can reclaim: their objects were
    allocated and are no timers. *)
Definition reclaimable (k : kernel) (t : ptr) : Prop :=
  (exists o, objects k !! Obj t = Some o /\ truthy (obj_type o &. RT_Object_Class_Static) = false) /\
  Obj t ∉ rt_timer_list k /\ rt_current_thread k <> Some t.

Definition k_reclaimed (t : ptr) (k : kernel) : kernel :=
  free_object (Obj t)
    (set_object_container (without (Obj t) (object_container k))
      (set_tlists (filter (.≠ t) <$> tlists k) k)).

Lemma reclaimed_ok k t th :
  kernel_ok Task k -> threads k !! t = Some th -> stat th = RT_THREAD_CLOSE ->
  rt_current_thread k <> Some t -> Obj t ∉ rt_timer_list k -> kernel_ok Task (k_reclaimed t k).
Proof.
  intros O Ht Hs Hc Hobj. pose proof (ko_sched _ _ _ _ _ _ _ _ O) as S.
  unfold kernel_ok, k_reclaimed. simpl. apply (kok_forget _ _ _ _ _ _ _ t th); try done.
  - destruct O. split; try done. rewrite <-(insert_id (threads k) t th) by done.
    eapply sched_ok_unlink; try done; [congruence|by eapply (so_prio _ _ _ S)|congruence|].
    left. split; [done|]. congruence.
  - intros q. rewrite lookup_total_remove, elem_of_filter_ne. naive_solver.
Qed.

(** [rt_thread_idle_excute], when all dead threads were allocated from the heap,
    terminates and reclaims every one of them: none is left in the list of dead threads
    or in memory, and all other threads are untouched. *)
Theorem rt_thread_idle_excute_ok cleanup_call `{!cleanup_contract cleanup_call} : forall fuel k,
  kernel_ok Task k -> rt_interrupt_nest k = 0 ->
  (forall t, t ∈ tl k QDefunct -> reclaimable k t) -> (length (tl k QDefunct) < fuel)%nat ->
  exists k', rt_thread_idle_excute cleanup_call fuel k = Some (tt, k') /\ kernel_ok Task k' /\
    tl k' QDefunct = [] /\
    (forall t, threads k' !! t = if decide (t ∈ tl k QDefunct) then None else threads k !! t).
Proof.
  induction fuel as [|fuel IH]; intros k O Hn Hr Hf; [lia|]. cbn [rt_thread_idle_excute].
  unfold tlist_isempty, gets, mbind, K_bind. destruct (tl k QDefunct) as [|t l] eqn:El; simpl.
  { exists k. split_and!; try done. }
  destruct (Hr t ltac:(left)) as ((o & Ho & Hst) & Hobj & Hcur).
  destruct (so_in_defunct _ _ _ (ko_sched _ _ _ _ _ _ _ _ O) t) as (th & Ht & Hs).
  { change (t ∈ tl k QDefunct). rewrite El. left. }
  unfold RT_DEBUG_NOT_IN_INTERRUPT, RT_ASSERT, gets, mbind, K_bind. rewrite Hn. simpl.
  unfold tlist_first, gets, mbind, K_bind. rewrite El. simpl.
  unfold deref, mbind, K_bind. simpl. rewrite Ht. simpl.
  assert (forall k0 : kernel, match cleanup th with Some f => cleanup_call f t | None => mret tt end k0
    = Some (tt, k0)) as -> by (intros k0; destruct (cleanup th); [apply cleanup_returns|done]).
  unfold rt_object_is_systemobject, rt_object_delete, deref, mbind, K_bind. simpl.
  rewrite Ho. simpl. rewrite Hst. simpl. rewrite Ho. simpl. rewrite Hst. simpl.
  pose proof (so_nodup _ _ _ (ko_sched _ _ _ _ _ _ _ _ O) QDefunct) as Hnd.
  change (tlists k !!! QDefunct) with (tl k QDefunct) in Hnd. rewrite El in Hnd.
  apply NoDup_cons in Hnd as [Htl Hnd].
  assert (tl (k_reclaimed t k) QDefunct = l) as El'.
  { unfold tl in *. simpl. rewrite lookup_total_remove, El, filter_cons_False by naive_solver.
    by apply filter_ne_id. }
  destruct (IH (k_reclaimed t k)) as (k' & E' & O' & D' & T'); rewrite ?El' in *.
  - by eapply reclaimed_ok.
  - done.
  - intros x Hx. destruct (Hr x ltac:(by right)) as ((ox & Hox & Hstx) & ? & ?).
    split; [|done]. exists ox. simpl. rewrite lookup_delete_ne; [done|]. intros [= ->]. done.
  - simpl in Hf. lia.
  - exists k'. split; [exact E'|]. split_and!; try done. intros x. rewrite T'. simpl.
    destruct (decide (x = t)) as [->|Hne].
    + rewrite decide_False, lookup_delete_eq by done. by rewrite decide_True by left.
    + destruct (decide (x ∈ l)); [by rewrite decide_True by (by right)|].
      rewrite decide_False by set_solver. by rewrite lookup_delete_ne.
Qed.

(** Thread 8192 was deleted. *)
Definition demo_defunct : kernel := after (rt_thread_delete 8192) demo.

Lemma rt_thread_idle_excute_ok_witness :
  exists k', rt_thread_idle_excute (fun _ _ => mret tt) 2 demo_defunct = Some (tt, k') /\
    threads k' !! 8192 = None.
Proof.
  destruct (rt_thread_idle_excute_ok (fun _ _ => mret tt) 2 demo_defunct)
    as (k' & E & _ & _ & T).
  - apply kok_check_sound. ev.
  - ev.
  - intros t Ht. assert (t = 8192) as ->.
    { apply list_elem_of_singleton. vm_compute in Ht |- *. exact Ht. }
    split; [|split].
    + eexists. split; ev.
    + apply (bool_decide_unpack _). vm_compute. exact I.
    + vm_compute. discriminate.
  - vm_compute. lia.
  - exists k'. split; [exact E|]. rewrite T. rewrite decide_True; [reflexivity|].
    apply (bool_decide_unpack _). vm_compute. exact I.
Defined.

(** A static thread with a cleanup function, at 49152, ended after thread 8192. *)
Definition demo_static : kernel :=
  after (rt_thread_delete 8192;;
         rt_thread_init 49152 zero_thread [99; 0] 3 0 53248 512 25 5;;
         upd_thread 49152 (set_cleanup (Some 7));;
         rt_thread_startup 49152;;
         rt_thread_detach 49152) demo.

(** A call of [rt_thread_idle_excute] stops at the first static thread and leaves the dead
    threads behind it for later calls. *)
Lemma idle_excute_stops_at_static :
  tl demo_static QDefunct = [49152; 8192] /\
  (fun r => tl r.2 QDefunct) <$> rt_thread_idle_excute (fun _ _ => mret tt) 5 demo_static
    = Some [8192].
Proof. split; ev. Qed.

(** A thread created in memory that held other data, and deleted before it was started. *)
Definition demo_unstarted : K unit :=
  rt_thread_create (Some 49152) (Some 53248) (set_number_mask 4294967295 zero_thread)
    [99; 0] 3 0 512 5 5;;
  rt_thread_delete 49152;;
  mret tt.

(** [rt_thread_create] leaves [number_mask] as it found it; deleting the thread before its
    start clears those bits of the ready group, here all of them: no thread is found ready
    although three are. *)
Lemma delete_unstarted_clears_group :
  rt_thread_ready_priority_group (after demo_unstarted demo) = 0 /\
  tl (after demo_unstarted demo) (QReady 10) = [4096] /\
  rt_schedule (after demo_unstarted demo) = None.
Proof. split_and!; ev. Qed.

(** ** Finding objects *)

Lemma wp_exit_critical k n (Q : unit -> kernel -> Prop) :
  kernel_ok Task k -> rt_scheduler_lock_nest k = n + 1 -> 0 <= n < 32767 ->
  (forall k', kernel_ok Task k' -> rt_scheduler_lock_nest k' = n -> threads k' = threads k ->
     objects k' = objects k -> Q tt k') ->
  wp rt_exit_critical Q k.
Proof.
  intros O Hl Hn HQ. unfold rt_exit_critical. apply wp_bind, wp_modify, wp_bind, wp_gets. simpl.
  rewrite Hl, Z.add_simpl_r, (swrap_small 16 n) by lia.
  destruct (Z.leb_spec n 0) as [Hle|Hgt].
  - apply wp_bind, wp_modify, (wp_schedule Task); [exact O|]. intros p c O' _ _.
    apply HQ; try done. simpl. lia.
  - apply wp_ret. apply HQ; try done.
Qed.

(** The object [r] has the name [s], cut to the size of the field. *)
Definition named (k : kernel) (r : ref) (s : list Z) : Prop :=
  Forall (fun c => 0 < c < 256) s /\ exists o, objects k !! r = Some o /\
    obj_name o = take RT_NAME_MAX (s ++ replicate RT_NAME_MAX 0).

Definition same_name (s1 s2 : list Z) : Prop := take RT_NAME_MAX s1 = take RT_NAME_MAX s2.

Definition found (names : ref -> list Z) (s : list Z) (l : list ref) (res : option ref) : Prop :=
  match res with
  | Some r => exists l1 l2, l = l1 ++ r :: l2 /\ same_name (names r) s /\
      forall x, x ∈ l1 -> ~ same_name (names x) s
  | None => forall x, x ∈ l -> ~ same_name (names x) s
  end.

Lemma wp_find_loop names s name n k l :
  kernel_ok Task k -> rt_scheduler_lock_nest k = n + 1 -> 0 <= n < 32767 ->
  (forall r, r ∈ l -> named k r (names r)) -> KString.cstr s name ->
  wp (rt_object_find_loop name l) (fun res k' => kernel_ok Task k' /\
    rt_scheduler_lock_nest k' = n /\ threads k' = threads k /\ found names s l res) k.
Proof.
  intros O Hl Hn Hnm Hs. induction l as [|r l IH]; simpl.
  - apply wp_bind, (wp_exit_critical k n); try done. intros k' O' L' T' _.
    apply wp_ret. split_and!; try done. set_solver.
  - destruct (Hnm r ltac:(left)) as (Hf & o & Ho & En).
    apply wp_bind, (wp_deref _ _ o); [done|].
    destruct (KString.strncmp_padded (names r) s name RT_NAME_MAX Hf Hs) as (c & Ec & Hc).
    apply wp_bind, (wp_lift _ c); [by rewrite En|].
    destruct (Z.eqb_spec c 0) as [E0|E0].
    + apply wp_bind, (wp_exit_critical k n); try done. intros k' O' L' T' _.
      apply wp_ret. split_and!; try done. exists [], l. split_and!; [done|by apply Hc|set_solver].
    + eapply wp_mono; [apply IH; intros x Hx; apply Hnm; by right|].
      intros res k' (O' & L' & T' & F). split_and!; try done.
      assert (~ same_name (names r) s) as Hr by (intros H; by apply E0, Hc).
      destruct res as [x|]; simpl in *.
      * destruct F as (l1 & l2 & -> & ? & Hl1). exists (r :: l1), l2. split_and!; try done.
        intros y [->|Hy]%elem_of_cons; [done|by apply Hl1].
      * intros y [->|Hy]%elem_of_cons; [done|by apply F].
Qed.

(** [rt_object_find] returns the first object of the class whose name agrees with the
    string on the first RT_NAME_MAX characters, or null when there is none, with the
    scheduler locked during the search and the lock depth restored after it; every object
    named with [rt_strncpy] is found under its name. *)
Theorem rt_object_find_ok k names s name type l :
  kernel_ok Task k -> rt_interrupt_nest k = 0 -> 0 <= rt_scheduler_lock_nest k < 32767 ->
  type < RT_Object_Class_Unknown -> object_container k !! type = Some l ->
  (forall r, r ∈ l -> named k r (names r)) -> KString.cstr s name ->
  exists res k', rt_object_find (Some name) type k = Some (res, k') /\ kernel_ok Task k' /\
    rt_scheduler_lock_nest k' = rt_scheduler_lock_nest k /\ threads k' = threads k /\
    found names s l res.
Proof.
  intros O Hn Hl Ht Hc Hnm Hs. apply wp_exists. unfold rt_object_find.
  destruct (Z.gtb_spec type RT_Object_Class_Unknown); [lia|].
  apply wp_bind, wp_gets. rewrite Hn. apply wp_bind, wp_ret.
  apply wp_bind, wp_modify, wp_bind, (wp_deref _ _ l); [done|].
  set (k1 := set_rt_scheduler_lock_nest _ k).
  apply (wp_find_loop names s name (rt_scheduler_lock_nest k) k1); try done.
  simpl. by rewrite swrap_small by lia.
Qed.

Lemma rt_object_find_ok_witness :
  exists k', rt_object_find (Some [98; 0]) RT_Object_Class_Thread demo = Some (Some (Obj 8192), k').
Proof.
  set (names := fun r => if decide (r = Obj 4096) then [97] else
    if decide (r = Obj 8192) then [98] else [116; 105; 100; 108; 101] : list Z).
  destruct (rt_object_find_ok demo names [98] [98; 0] RT_Object_Class_Thread
    [Obj idle; Obj 8192; Obj 4096] demo_ok) as (res & k' & E & _ & _ & _ & F).
  - ev.
  - vm_compute. split; [discriminate|reflexivity].
  - ev.
  - ev.
  - intros r Hr. rewrite !elem_of_cons in Hr.
    destruct Hr as [->|[->|[->|[]%elem_of_nil]]]; (split;
      [vm_compute; repeat constructor|eexists; split; [ev|ev]]).
  - split; [repeat constructor|]. exists []. reflexivity.
  - exists k'. rewrite E. f_equal. f_equal. vm_compute in E. by injection E as <- _.
Defined.
