(* ===== verification/StateM.v ===== *)
(** * State passing with failure

    The monad of the components that do not work on the kernel's state: a
    function from a state to a result and a new state, or [None] where the C
    code would leave an array, follow a null pointer or do something else that
    the language leaves undefined. *)

From S2P Require Import Prelude.

Definition ST (S A : Type) : Type := S -> option (A * S).

#[export] Instance ST_ret S : MRet (ST S) := fun A a s => Some (a, s).
#[export] Instance ST_bind S : MBind (ST S) := fun A B f m s =>
  match m s with
  | Some (a, s') => f a s'
  | None => None
  end.

Section ST.
Context {S : Type}.

Definition sget {A} (f : S -> A) : ST S A := fun s => Some (f s, s).
Definition supd (f : S -> S) : ST S unit := fun s => Some (tt, f s).
Definition slift {A} (o : option A) : ST S A := fun s => (fun a => (a, s)) <$> o.
Definition swhen (b : bool) (m : ST S unit) : ST S unit := if b then m else mret tt.

Lemma bind_Some {A B} (m : ST S A) (f : A -> ST S B) s a s' :
  m s = Some (a, s') -> (m ≫= f) s = f a s'.
Proof. intros E. unfold mbind, ST_bind. by rewrite E. Qed.

Lemma bind_inv {A B} (m : ST S A) (f : A -> ST S B) s b s'' :
  (m ≫= f) s = Some (b, s'') -> exists a s', m s = Some (a, s') /\ f a s' = Some (b, s'').
Proof. unfold mbind, ST_bind. destruct (m s) as [[a s']|]; [eauto|done]. Qed.

Lemma bind_assoc {A B C} (m : ST S A) (f : A -> ST S B) (g : B -> ST S C) s :
    ((m ≫= f) ≫= g) s = (m ≫= (fun a => f a ≫= g)) s.
Proof. unfold mbind, ST_bind. by destruct (m s) as [[a s']|]. Qed.

Lemma slift_Some {A} (o : option A) a s : o = Some a -> slift o s = Some (a, s).
Proof. by intros ->. Qed.
End ST.
