(* ===== verification/Finsh.v ===== *)
(** * The data of the shell: components/finsh/finsh.h, finsh_node.h, finsh_var.h

    The error codes, types and syntax trees of the C-expression shell, and its
    tables of variables and functions (finsh_error.c, finsh_var.c, and the
    look-up functions of finsh_vm.c).

    A string is the sequence of its characters without the terminating null.
    The node of a tree has a pointer to its first child and one to its next
    sibling; as every node has one parent the trees are an inductive type. *)

From S2P Require Import Prelude StateM.

Definition FINSH_NAME_MAX : Z := 16.
Definition FINSH_NODE_MAX : Z := 16.
Definition FINSH_STRING_MAX : Z := 128.
Definition FINSH_VARIABLE_MAX : Z := 8.

(** ** Errors *)

Definition FINSH_ERROR_OK : Z := 0.
Definition FINSH_ERROR_INVALID_TOKEN : Z := 1.
Definition FINSH_ERROR_EXPECT_TYPE : Z := 2.
Definition FINSH_ERROR_UNKNOWN_TYPE : Z := 3.
Definition FINSH_ERROR_VARIABLE_EXIST : Z := 4.
Definition FINSH_ERROR_EXPECT_OPERATOR : Z := 5.
Definition FINSH_ERROR_MEMORY_FULL : Z := 6.
Definition FINSH_ERROR_UNKNOWN_NODE : Z := 8.
Definition FINSH_ERROR_EXPECT_CHAR : Z := 9.
Definition FINSH_ERROR_UNEXPECT_END : Z := 10.
Definition FINSH_ERROR_UNKNOWN_TOKEN : Z := 11.
Definition FINSH_ERROR_UNKNOWN_SYMBOL : Z := 13.
Definition FINSH_ERROR_NULL_NODE : Z := 14.

(** ** Types *)

Inductive finsh_type :=
  | finsh_type_unknown | finsh_type_void | finsh_type_voidp
  | finsh_type_char | finsh_type_uchar | finsh_type_charp
  | finsh_type_short | finsh_type_ushort | finsh_type_shortp
  | finsh_type_int | finsh_type_uint | finsh_type_intp
  | finsh_type_long | finsh_type_ulong | finsh_type_longp.

#[export] Instance finsh_type_eq_dec : EqDecision finsh_type.
Proof. solve_decision. Defined.

(** The numbers of the enumeration. *)
Definition finsh_type_number (t : finsh_type) : Z :=
  match t with
  | finsh_type_unknown => 0 | finsh_type_void => 1 | finsh_type_voidp => 2
  | finsh_type_char => 3 | finsh_type_uchar => 4 | finsh_type_charp => 5
  | finsh_type_short => 6 | finsh_type_ushort => 7 | finsh_type_shortp => 8
  | finsh_type_int => 9 | finsh_type_uint => 10 | finsh_type_intp => 11
  | finsh_type_long => 12 | finsh_type_ulong => 13 | finsh_type_longp => 14
  end.

Definition FINSH_DATA_TYPE_VOID : Z := 0x00.
Definition FINSH_DATA_TYPE_BYTE : Z := 0x01.
Definition FINSH_DATA_TYPE_WORD : Z := 0x02.
Definition FINSH_DATA_TYPE_DWORD : Z := 0x03.

(** ** Syntax trees *)

Inductive finsh_node_type :=
  | FINSH_NODE_UNKNOWN | FINSH_NODE_ID
  | FINSH_NODE_VALUE_CHAR | FINSH_NODE_VALUE_INT | FINSH_NODE_VALUE_LONG
  | FINSH_NODE_VALUE_STRING | FINSH_NODE_VALUE_NULL
  | FINSH_NODE_SYS_ADD | FINSH_NODE_SYS_SUB | FINSH_NODE_SYS_MUL | FINSH_NODE_SYS_DIV
  | FINSH_NODE_SYS_MOD | FINSH_NODE_SYS_AND | FINSH_NODE_SYS_OR | FINSH_NODE_SYS_XOR
  | FINSH_NODE_SYS_BITWISE | FINSH_NODE_SYS_SHL | FINSH_NODE_SYS_SHR
  | FINSH_NODE_SYS_FUNC | FINSH_NODE_SYS_ASSIGN | FINSH_NODE_SYS_CAST
  | FINSH_NODE_SYS_PREINC | FINSH_NODE_SYS_PREDEC | FINSH_NODE_SYS_INC | FINSH_NODE_SYS_DEC
  | FINSH_NODE_SYS_GETVALUE | FINSH_NODE_SYS_GETADDR | FINSH_NODE_SYS_NULL.

#[export] Instance finsh_node_type_eq_dec : EqDecision finsh_node_type.
Proof. solve_decision. Defined.

Definition FINSH_IDTYPE_VAR : Z := 0x01.
Definition FINSH_IDTYPE_SYSVAR : Z := 0x02.
Definition FINSH_IDTYPE_SYSCALL : Z := 0x04.
Definition FINSH_IDTYPE_ADDRESS : Z := 0x08.

Record finsh_syscall := Syscall { syscall_name : list Z; syscall_func : Z }.
Record finsh_sysvar := Sysvar { sysvar_name : list Z; sysvar_type : finsh_type; sysvar_var : Z }.

(** What a node's [id] points to; a variable by its index in
    [global_variable]. *)
Inductive identifier :=
  | IdNull
  | IdVar (i : Z)
  | IdSysvar (v : finsh_sysvar)
  | IdSyscall (c : finsh_syscall).

(** [value] is the 32-bit pattern of the union. *)
Inductive finsh_node :=
  | NULL
  | Node (node_type : finsh_node_type) (data_type idtype value : Z) (id : identifier)
      (child sibling : finsh_node).

Definition is_null (n : finsh_node) : bool := match n with NULL => true | _ => false end.

(** ** Variables *)

Record finsh_var := Var { var_name : list Z; var_type : finsh_type }.

(** [global_variable] is at this address; a variable takes 24 bytes, its value
    is the last word. *)
Definition var_value_addr (global_variable : Z) (i : Z) : Z := global_variable + 24 * i + 20.

Definition finsh_var_empty : finsh_var := Var [] finsh_type_unknown.

Definition finsh_var_init : list finsh_var := replicate (Z.to_nat FINSH_VARIABLE_MAX) finsh_var_empty.

(** [strncmp(a, b, n) == 0] and [strcmp(a, b) == 0]. *)
Definition strncmp_eq (n : Z) (a b : list Z) : bool :=
  bool_decide (take (Z.to_nat n) a = take (Z.to_nat n) b).
Definition strcmp_eq (a b : list Z) : bool := bool_decide (a = b).

(** The first index from [i] on whose entry satisfies [f]. *)
Fixpoint find_index {A} (f : A -> bool) (l : list A) (i : Z) : option Z :=
  match l with
  | [] => None
  | x :: l => if f x then Some i else find_index f l (i + 1)
  end.

Definition finsh_var_lookup (vars : list finsh_var) (name : list Z) : option Z :=
  find_index (fun v => strncmp_eq FINSH_NAME_MAX (var_name v) name) vars 0.

(** [None] is the result -1. *)
Definition finsh_var_insert (name : list Z) (type : finsh_type) (vars : list finsh_var) :
    option Z * list finsh_var :=
  match finsh_var_lookup vars name with
  | Some _ => (None, vars)
  | None =>
      match find_index (fun v => bool_decide (var_type v = finsh_type_unknown)) vars 0 with
      | None => (None, vars)
      | Some i =>
          (Some i, <[Z.to_nat i := Var (take (Z.to_nat FINSH_NAME_MAX) name) type]> vars)
      end
  end.

Definition finsh_var_delete (name : list Z) (vars : list finsh_var) : option (list finsh_var) :=
  i ← finsh_var_lookup vars name;
  Some (<[Z.to_nat i := finsh_var_empty]> vars).

(** ** System variables and functions

    The tables that the linker collects, and the lists that grow at run time. *)

Record finsh_tables := Tables {
  syscall_table : list finsh_syscall;
  global_syscall_list : list finsh_syscall;
  sysvar_table : list finsh_sysvar;
  global_sysvar_list : list finsh_sysvar
}.

(** [item] says whether [rt_malloc] returned memory for the new item. *)
Definition finsh_syscall_append (item : bool) (name : list Z) (func : Z) (t : finsh_tables) :
    finsh_tables :=
  if item then
    Tables (syscall_table t) (Syscall name func :: global_syscall_list t)
      (sysvar_table t) (global_sysvar_list t)
  else t.

Definition finsh_sysvar_append (item : bool) (name : list Z) (type : finsh_type) (addr : Z)
    (t : finsh_tables) : finsh_tables :=
  if item then
    Tables (syscall_table t) (global_syscall_list t)
      (sysvar_table t) (Sysvar name type addr :: global_sysvar_list t)
  else t.

Definition first_of {A} (f : A -> bool) (l : list A) : option A := head (filter (fun x => f x) l).

Definition finsh_syscall_lookup (t : finsh_tables) (name : list Z) : option finsh_syscall :=
  match first_of (fun c => strcmp_eq (syscall_name c) name) (syscall_table t) with
  | Some c => Some c
  | None =>
      first_of (fun c => strncmp_eq (Z.of_nat (length name)) (syscall_name c) name)
        (global_syscall_list t)
  end.

Definition finsh_sysvar_lookup (t : finsh_tables) (name : list Z) : option finsh_sysvar :=
  match first_of (fun v => strcmp_eq (sysvar_name v) name) (sysvar_table t) with
  | Some v => Some v
  | None =>
      first_of (fun v => strncmp_eq (Z.of_nat (length name)) (sysvar_name v) name)
        (global_sysvar_list t)
  end.
