(* ===== verification/FinshVm.v ===== *)
(** * The virtual machine of the shell: components/finsh/finsh_vm.c, finsh_ops.c

    A stack machine.  A cell of the stack is a union of a char, a short and a
    long, kept as its 32-bit pattern: writing the narrow members leaves the
    upper bytes as they were.  The text segment is a list of bytes.  [None] is
    an access outside the stack, the text segment or the mapped memory, a
    division by zero or a shift by 32 or more.  A plain char is unsigned and
    the bytes of an integer are in little-endian order, as on the ARM. *)

From S2P Require Import Prelude StateM.

Definition FINSH_STACK_MAX : Z := 64.
Definition FINSH_TEXT_MAX : Z := 128.

(** ** Integers of the three sizes *)

Inductive width := Byte | Word | Dword.

#[export] Instance width_eq_dec : EqDecision width.
Proof. solve_decision. Defined.

Definition size_of (w : width) : nat := match w with Byte => 1 | Word => 2 | Dword => 4 end.
Definition bits (w : width) : Z := match w with Byte => 8 | Word => 16 | Dword => 32 end.

(** The value of a pattern, and its reading as a member of the union. *)
Definition as_width (w : width) (v : Z) : Z :=
  match w with Byte => u8 v | Word => i16 v | Dword => i32 v end.

Definition cell_set (w : width) (v c : Z) : Z := (c / 2 ^ bits w) * 2 ^ bits w + wrap (bits w) v.

Inductive binop := Add | Sub | Div | Mod | Mul | And | Or | Xor | Shl | Shr.

(** [a x b] of C on operands promoted to int. *)
Definition c_binop (op : binop) (a b : Z) : option Z :=
  match op with
  | Add => Some (i32 (a + b))
  | Sub => Some (i32 (a - b))
  | Div => if b =? 0 then None else Some (i32 (Z.quot a b))
  | Mod => if b =? 0 then None else Some (Z.rem a b)
  | Mul => Some (i32 (a * b))
  | And => Some (a &. b)
  | Or => Some (a |. b)
  | Xor => Some (Z.lxor a b)
  | Shl => if (0 <=? b) && (b <? 32) then Some (i32 (Z.shiftl a b)) else None
  | Shr => if (0 <=? b) && (b <? 32) then Some (Z.shiftr a b) else None
  end.

(** ** Memory *)

Abbreviation memory := (gmap Z Z).

Fixpoint load_le (n : nat) (m : memory) (a : Z) : option Z :=
  match n with
  | O => Some 0
  | S n => b ← m !! a; r ← load_le n m (a + 1); Some (b + 256 * r)
  end.

Fixpoint store_le (n : nat) (a v : Z) (m : memory) : option memory :=
  match n with
  | O => Some m
  | S n => _ ← m !! a; store_le n (a + 1) (v / 256) (<[a := v mod 256]> m)
  end.

Definition load (w : width) (m : memory) (a : Z) : option Z :=
  as_width w <$> load_le (size_of w) m a.
Definition store (w : width) (a v : Z) (m : memory) : option memory :=
  store_le (size_of w) a (wrap (bits w) v) m.

(** ** The machine *)

Record vm := Vm {
  finsh_vm_stack : list Z;
  finsh_sp : Z;
  finsh_pc : Z;
  vm_memory : memory
}.

Definition set_stack x s := Vm x (finsh_sp s) (finsh_pc s) (vm_memory s).
Definition set_sp x s := Vm (finsh_vm_stack s) x (finsh_pc s) (vm_memory s).
Definition set_pc x s := Vm (finsh_vm_stack s) (finsh_sp s) x (vm_memory s).
Definition set_memory x s := Vm (finsh_vm_stack s) (finsh_sp s) (finsh_pc s) x.

Abbreviation V := (ST vm).

(** The cell [i] of the stack. *)
Definition cell (i : Z) : V Z := s ← sget finsh_vm_stack; slift (zlookup s i).
Definition set_cell (i v : Z) : V unit :=
  cell i;; supd (fun s => set_stack (<[Z.to_nat i := v]> (finsh_vm_stack s)) s).

Definition read_cell (w : width) (i : Z) : V Z := c ← cell i; mret (as_width w c).
Definition write_cell (w : width) (i v : Z) : V unit := c ← cell i; set_cell i (cell_set w v c).

Definition push (w : width) (v : Z) : V unit :=
  sp ← sget finsh_sp; write_cell w sp v;; supd (set_sp (sp + 1)).

Section vm.

(** The text segment, and the functions that a program may call. *)
Context (text : list Z) (call : Z -> list Z -> memory -> option (Z * memory)).

(** The [n] bytes behind the program counter: [FINSH_GET16], [FINSH_GET32]. *)
Fixpoint text_le (n : nat) (pc : Z) : option Z :=
  match n with
  | O => Some 0
  | S n => b ← zlookup text pc; r ← text_le n (pc + 1); Some (b + 256 * r)
  end.

Definition fetch (n : nat) : V Z :=
  pc ← sget finsh_pc; v ← slift (text_le n pc); supd (set_pc (pc + Z.of_nat n));; mret v.

(** ** The operations *)

Definition OP_no_op : V unit := mret tt.

Definition OP_BIN (w : width) (op : binop) : V unit :=
  sp ← sget finsh_sp;
  a ← read_cell w (sp - 2);
  b ← read_cell w (sp - 1);
  r ← slift (c_binop op a b);
  write_cell w (sp - 2) r;;
  supd (set_sp (sp - 1)).

Definition OP_bw (w : width) : V unit :=
  sp ← sget finsh_sp;
  a ← read_cell w (sp - 1);
  write_cell w (sp - 1) (Z.lnot a).

Definition OP_ld (w : width) : V unit := v ← fetch (size_of w); push w v.

Definition OP_ld_value (w : width) : V unit :=
  a ← fetch 4;
  m ← sget vm_memory;
  v ← slift (load w m a);
  push w v.

Definition OP_ld_value_stack (w : width) : V unit :=
  sp ← sget finsh_sp;
  c ← cell (sp - 1);
  m ← sget vm_memory;
  v ← slift (load w m (u32 c));
  write_cell w (sp - 1) v.

Definition OP_st (w : width) : V unit :=
  sp ← sget finsh_sp;
  c ← cell (sp - 2);
  v ← read_cell w (sp - 1);
  m ← sget vm_memory;
  m ← slift (store w (u32 c) v m);
  supd (set_memory m);;
  supd (set_sp (sp - 1)).

Definition OP_pop : V unit := sp ← sget finsh_sp; supd (set_sp (sp - 1)).

(** The parameters, popped one by one, the last one first. *)
Fixpoint pop_parameters (n : nat) (parameterv : list Z) : V (list Z) :=
  match n with
  | O => mret parameterv
  | S n =>
      sp ← sget finsh_sp;
      c ← cell sp;
      supd (set_sp (sp - 1));;
      pop_parameters n (u32 c :: parameterv)
  end.

(** [parameterv] has room for 16 parameters. *)
Definition OP_call : V unit :=
  parameters ← fetch 1;
  OP_pop;;
  slift (if parameters <=? 16 then Some tt else None);;
  parameterv ← pop_parameters (Z.to_nat parameters) [];
  sp ← sget finsh_sp;
  f ← cell sp;
  m ← sget vm_memory;
  r ← slift (call (u32 f) (if parameters =? 0 then [0] else parameterv) m);
  supd (set_memory (snd r));;
  push Dword (fst r).

(** The entry behind the last operation is null. *)
Definition op_table (op : Z) : option (V unit) :=
  [OP_no_op;
   OP_BIN Byte Add; OP_BIN Word Add; OP_BIN Dword Add;
   OP_BIN Byte Sub; OP_BIN Word Sub; OP_BIN Dword Sub;
   OP_BIN Byte Div; OP_BIN Word Div; OP_BIN Dword Div;
   OP_BIN Byte Mod; OP_BIN Word Mod; OP_BIN Dword Mod;
   OP_BIN Byte Mul; OP_BIN Word Mul; OP_BIN Dword Mul;
   OP_BIN Byte And; OP_BIN Word And; OP_BIN Dword And;
   OP_BIN Byte Or; OP_BIN Word Or; OP_BIN Dword Or;
   OP_BIN Byte Xor; OP_BIN Word Xor; OP_BIN Dword Xor;
   OP_bw Byte; OP_bw Word; OP_bw Dword;
   OP_BIN Byte Shl; OP_BIN Word Shl; OP_BIN Dword Shl;
   OP_BIN Byte Shr; OP_BIN Word Shr; OP_BIN Dword Shr;
   OP_ld Byte; OP_ld Word; OP_ld Dword;
   OP_ld_value Byte; OP_ld_value Word; OP_ld_value Dword;
   OP_st Byte; OP_st Word; OP_st Dword;
   OP_pop; OP_call;
   OP_ld_value_stack Byte; OP_ld_value_stack Word; OP_ld_value_stack Dword] !! Z.to_nat op.

(** One round of the loop. *)
Definition vm_step : V unit :=
  op ← fetch 1;
  o ← slift (op_table op);
  o.

Fixpoint vm_loop (fuel : nat) : V unit :=
  pc ← sget finsh_pc;
  if (0 <=? pc) && (pc <? FINSH_TEXT_MAX) then
    match fuel with
    | O => slift None
    | S fuel => vm_step;; vm_loop fuel
    end
  else mret tt.

(** Every round moves the program counter forward, so [FINSH_TEXT_MAX] rounds
    are enough. *)
Definition finsh_vm_run : V unit :=
  supd (set_sp 0);;
  supd (set_pc 0);;
  vm_loop (Z.to_nat FINSH_TEXT_MAX).

End vm.
