(* ===== verification/FinshCompiler.v ===== *)
(** * The compiler of the shell: components/finsh/finsh_compiler.c

    [finsh_type_check] decorates a syntax tree with data types and address
    flags; [finsh_compile] writes the code of a tree into the text segment,
    children first, then the node itself, then its siblings.  [None] is a write
    behind the text segment or the dereference of a null pointer. *)

From S2P Require Import Prelude StateM Finsh FinshVm.

Definition has_flag (x flag : Z) : bool := truthy (x &. flag).

(** ** Type check *)

Definition node_data_type (n : finsh_node) : Z :=
  match n with NULL => 0 | Node _ dt _ _ _ _ _ => dt end.

(** The data type of a variable; [None] sets the error "Unknown type". *)
Definition type_data_type (t : finsh_type) : option Z :=
  match t with
  | finsh_type_void => Some FINSH_DATA_TYPE_VOID
  | finsh_type_char | finsh_type_uchar => Some FINSH_DATA_TYPE_BYTE
  | finsh_type_short | finsh_type_ushort => Some FINSH_DATA_TYPE_WORD
  | finsh_type_int | finsh_type_uint | finsh_type_long | finsh_type_ulong
  | finsh_type_charp | finsh_type_voidp | finsh_type_shortp | finsh_type_intp
  | finsh_type_longp => Some FINSH_DATA_TYPE_DWORD
  | finsh_type_unknown => None
  end.

Section compiler.

(** The variables, and the address of their table. *)
Context (vars : list finsh_var) (global_variable : Z).

Definition var_type_of (i : Z) : finsh_type :=
  match zlookup vars i with Some v => var_type v | None => finsh_type_unknown end.

(** The data type of a leaf and the error, if any. *)
Definition leaf_data_type (nt : finsh_node_type) (dt idt : Z) (id : identifier) (errno : Z) : Z * Z :=
  let of_type t := match type_data_type t with
                   | Some dt' => (dt', errno)
                   | None => (dt, FINSH_ERROR_UNKNOWN_TYPE)
                   end in
  match nt with
  | FINSH_NODE_ID =>
      if has_flag idt FINSH_IDTYPE_VAR then
        match id with IdVar i => of_type (var_type_of i) | _ => (dt, errno) end
      else if has_flag idt FINSH_IDTYPE_SYSVAR then
        match id with IdSysvar v => of_type (sysvar_type v) | _ => (dt, errno) end
      else (dt, errno)
  | FINSH_NODE_VALUE_CHAR => (FINSH_DATA_TYPE_BYTE, errno)
  | FINSH_NODE_VALUE_INT | FINSH_NODE_VALUE_LONG
  | FINSH_NODE_VALUE_STRING | FINSH_NODE_VALUE_NULL => (FINSH_DATA_TYPE_DWORD, errno)
  | _ => (dt, errno)
  end.

(** The flag that the child of a node is checked with. *)
Definition child_is_addr (nt : finsh_node_type) (is_addr : Z) : Z :=
  match nt with
  | FINSH_NODE_SYS_ASSIGN | FINSH_NODE_SYS_PREINC | FINSH_NODE_SYS_PREDEC
  | FINSH_NODE_SYS_GETADDR => FINSH_IDTYPE_ADDRESS
  | FINSH_NODE_SYS_GETVALUE => if truthy is_addr then 0 else is_addr
  | _ => is_addr
  end.

Fixpoint finsh_type_check (n : finsh_node) (is_addr errno : Z) : finsh_node * Z :=
  match n with
  | NULL => (NULL, errno)
  | Node nt dt idt v id child sibling =>
      let '(child, errno) := finsh_type_check child (child_is_addr nt is_addr) errno in
      let '(sibling, errno) := finsh_type_check sibling 0 errno in
      let idt := if idt =? FINSH_IDTYPE_SYSCALL then idt else idt |. is_addr in
      if negb (is_null child) then (Node nt (node_data_type child) idt v id child sibling, errno)
      else
        let '(dt, errno) := leaf_data_type nt dt idt id errno in
        (Node nt dt idt v id child sibling, errno)
  end.

(** ** Code generation *)

Record code := Code {
  text_segment : list Z;
  finsh_compile_pc : Z;
  global_errno : Z
}.

Abbreviation C := (ST code).

Definition finsh_error_set (e : Z) : C unit :=
  supd (fun s => Code (text_segment s) (finsh_compile_pc s) e).

Definition finsh_code_byte (x : Z) : C unit := fun s =>
  let pc := finsh_compile_pc s in
  if (0 <=? pc) && (pc <? FINSH_TEXT_MAX) then
    Some (tt, Code (<[Z.to_nat pc := u8 x]> (text_segment s)) (pc + 1) (global_errno s))
  else None.

Definition finsh_code_word (x : Z) : C unit :=
  finsh_code_byte (x &. 0xff);; finsh_code_byte (Z.shiftr x 8).

Definition finsh_code_dword (x : Z) : C unit :=
  finsh_code_byte x;;
  finsh_code_byte (Z.shiftr (u32 x) 8);;
  finsh_code_byte (Z.shiftr (u32 x) 16);;
  finsh_code_byte (Z.shiftr (u32 x) 24).

(** The operation codes, by their order in finsh_ops.h. *)
Definition width_index (w : width) : Z := match w with Byte => 0 | Word => 1 | Dword => 2 end.

Definition binop_code (op : binop) : Z :=
  match op with
  | Add => 0x01 | Sub => 0x04 | Div => 0x07 | Mod => 0x0A | Mul => 0x0D
  | And => 0x10 | Or => 0x13 | Xor => 0x16 | Shl => 0x1C | Shr => 0x1F
  end.

Definition FINSH_OP_BIN (w : width) (op : binop) : Z := binop_code op + width_index w.
Definition FINSH_OP_BITWISE (w : width) : Z := 0x19 + width_index w.
Definition FINSH_OP_LD (w : width) : Z := 0x22 + width_index w.
Definition FINSH_OP_LD_VALUE (w : width) : Z := 0x25 + width_index w.
Definition FINSH_OP_ST (w : width) : Z := 0x28 + width_index w.
Definition FINSH_OP_POP : Z := 0x2B.
Definition FINSH_OP_SYSCALL : Z := 0x2C.
Definition FINSH_OP_LD_VALUE_STACK (w : width) : Z := 0x2D + width_index w.

Definition data_type_width (dt : Z) : option width :=
  if dt =? FINSH_DATA_TYPE_BYTE then Some Byte
  else if dt =? FINSH_DATA_TYPE_WORD then Some Word
  else if dt =? FINSH_DATA_TYPE_DWORD then Some Dword
  else None.

(** The width with which the compiler loads a variable; for the other types no
    code is written. *)
Definition type_width (t : finsh_type) : option width :=
  match t with
  | finsh_type_char | finsh_type_uchar => Some Byte
  | finsh_type_short | finsh_type_ushort => Some Word
  | finsh_type_int | finsh_type_uint | finsh_type_long | finsh_type_ulong
  | finsh_type_charp | finsh_type_shortp | finsh_type_intp | finsh_type_longp => Some Dword
  | finsh_type_unknown | finsh_type_void | finsh_type_voidp => None
  end.

Definition compile_load (idt : Z) (t : finsh_type) (addr : Z) : C unit :=
  match type_width t with
  | None => mret tt
  | Some w =>
      finsh_code_byte (if has_flag idt FINSH_IDTYPE_ADDRESS then FINSH_OP_LD Dword
                       else FINSH_OP_LD_VALUE w);;
      finsh_code_dword addr
  end.

Definition compile_id (idt : Z) (id : identifier) : C unit :=
  if has_flag idt FINSH_IDTYPE_SYSCALL then
    match id with
    | IdSyscall c => finsh_code_byte (FINSH_OP_LD Dword);; finsh_code_dword (syscall_func c)
    | _ => slift None
    end
  else if has_flag idt FINSH_IDTYPE_SYSVAR then
    match id with
    | IdSysvar v => compile_load idt (sysvar_type v) (sysvar_var v)
    | IdNull => mret tt
    | _ => slift None
    end
  else
    match id with
    | IdVar i => compile_load idt (var_type_of i) (var_value_addr global_variable i)
    | IdNull => mret tt
    | _ => slift None
    end.

Definition compile_sized (dt : Z) (op : width -> Z) : C unit :=
  match data_type_width dt with Some w => finsh_code_byte (op w) | None => mret tt end.

Fixpoint siblings (n : finsh_node) : Z :=
  match n with NULL => 0 | Node _ _ _ _ _ _ sibling => 1 + siblings sibling end.

Definition node_sibling (n : finsh_node) : finsh_node :=
  match n with NULL => NULL | Node _ _ _ _ _ _ sibling => sibling end.

(** Store, and load the stored value again. *)
Definition compile_store (dt : Z) : C unit :=
  match data_type_width dt with
  | Some w => finsh_code_byte (FINSH_OP_ST w);; finsh_code_byte (FINSH_OP_LD_VALUE_STACK w)
  | None => finsh_error_set FINSH_ERROR_UNKNOWN_TYPE
  end.

Definition compile_one (w : width) : C unit :=
  finsh_code_byte (FINSH_OP_LD w);;
  match w with
  | Byte => finsh_code_byte 1
  | Word => finsh_code_word 1
  | Dword => finsh_code_dword 1
  end.

(** [id.var] of a child that is an identifier. *)
Definition child_var (child : finsh_node) : option (option Z) :=
  match child with
  | Node FINSH_NODE_ID _ _ _ id _ _ =>
      Some (match id with IdVar i => Some (var_value_addr global_variable i) | _ => None end)
  | _ => None
  end.

Definition compile_pre (dt : Z) (child : finsh_node) (op : binop) : C unit :=
  match child_var child with
  | None => mret tt
  | Some addr =>
      match data_type_width dt with
      | None => mret tt
      | Some w =>
          addr ← slift addr;
          finsh_code_byte (FINSH_OP_LD_VALUE w);; finsh_code_dword addr;;
          compile_one w;;
          finsh_code_byte (FINSH_OP_BIN w op);;
          finsh_code_byte (FINSH_OP_ST w);;
          finsh_code_byte (FINSH_OP_LD_VALUE_STACK Dword)
      end
  end.

Definition compile_post (dt : Z) (child : finsh_node) (op : binop) : C unit :=
  match child_var child with
  | None => mret tt
  | Some addr =>
      match data_type_width dt with
      | None => mret tt
      | Some w =>
          addr ← slift addr;
          finsh_code_byte (FINSH_OP_LD Dword);; finsh_code_dword addr;;
          finsh_code_byte (FINSH_OP_LD_VALUE w);; finsh_code_dword addr;;
          compile_one w;;
          finsh_code_byte (FINSH_OP_BIN w op);;
          finsh_code_byte (FINSH_OP_ST w);;
          finsh_code_byte FINSH_OP_POP
      end
  end.

(** The code of a node itself. *)
Definition compile_node (nt : finsh_node_type) (dt idt v : Z) (id : identifier)
    (child : finsh_node) : C unit :=
  match nt with
  | FINSH_NODE_ID => compile_id idt id
  | FINSH_NODE_VALUE_CHAR => finsh_code_byte (FINSH_OP_LD Byte);; finsh_code_byte (u8 v)
  | FINSH_NODE_VALUE_INT | FINSH_NODE_VALUE_LONG
  | FINSH_NODE_VALUE_NULL | FINSH_NODE_VALUE_STRING =>
      finsh_code_byte (FINSH_OP_LD Dword);; finsh_code_dword v
  | FINSH_NODE_SYS_ADD => compile_sized dt (fun w => FINSH_OP_BIN w Add)
  | FINSH_NODE_SYS_SUB => compile_sized dt (fun w => FINSH_OP_BIN w Sub)
  | FINSH_NODE_SYS_MUL => compile_sized dt (fun w => FINSH_OP_BIN w Mul)
  | FINSH_NODE_SYS_DIV => compile_sized dt (fun w => FINSH_OP_BIN w Div)
  | FINSH_NODE_SYS_MOD => compile_sized dt (fun w => FINSH_OP_BIN w Mod)
  | FINSH_NODE_SYS_AND => compile_sized dt (fun w => FINSH_OP_BIN w And)
  | FINSH_NODE_SYS_OR => compile_sized dt (fun w => FINSH_OP_BIN w Or)
  | FINSH_NODE_SYS_XOR => compile_sized dt (fun w => FINSH_OP_BIN w Xor)
  | FINSH_NODE_SYS_BITWISE => compile_sized dt FINSH_OP_BITWISE
  | FINSH_NODE_SYS_SHL => compile_sized dt (fun w => FINSH_OP_BIN w Shl)
  | FINSH_NODE_SYS_SHR => compile_sized dt (fun w => FINSH_OP_BIN w Shr)
  | FINSH_NODE_SYS_FUNC =>
      if is_null child then mret tt
      else
        finsh_code_byte FINSH_OP_SYSCALL;;
        finsh_code_byte (siblings (node_sibling child))
  | FINSH_NODE_SYS_ASSIGN =>
      match child with
      | NULL => slift None
      | Node FINSH_NODE_ID cdt _ _ _ _ _ => compile_store cdt
      | Node FINSH_NODE_SYS_GETVALUE cdt _ _ _ _ _ => compile_store (cdt &. 0x0F)
      | Node _ _ _ _ _ _ _ => mret tt
      end
  | FINSH_NODE_SYS_PREINC => compile_pre dt child Add
  | FINSH_NODE_SYS_PREDEC => compile_pre dt child Sub
  | FINSH_NODE_SYS_INC => compile_post dt child Add
  | FINSH_NODE_SYS_DEC => compile_post dt child Sub
  | FINSH_NODE_SYS_NULL => finsh_code_dword 0
  | FINSH_NODE_SYS_GETVALUE =>
      if has_flag idt FINSH_IDTYPE_ADDRESS then mret tt
      else compile_sized dt FINSH_OP_LD_VALUE_STACK
  | FINSH_NODE_SYS_GETADDR => mret tt
  | FINSH_NODE_UNKNOWN | FINSH_NODE_SYS_CAST => finsh_error_set FINSH_ERROR_UNKNOWN_NODE
  end.

Fixpoint finsh_compile (n : finsh_node) : C unit :=
  match n with
  | NULL => mret tt
  | Node nt dt idt v id child sibling =>
      finsh_compile child;;
      compile_node nt dt idt v id child;;
      finsh_compile sibling
  end.

Definition set_sibling (n sibling : finsh_node) : finsh_node :=
  match n with
  | NULL => NULL
  | Node nt dt idt v id child _ => Node nt dt idt v id child sibling
  end.

(** The statements are siblings; each one is compiled by itself. *)
Fixpoint compile_statements (n : finsh_node) : C unit :=
  match n with
  | NULL => mret tt
  | Node nt dt idt v id child sibling =>
      finsh_compile (Node nt dt idt v id child NULL);;
      swhen (negb (is_null sibling)) (finsh_code_byte FINSH_OP_POP);;
      compile_statements sibling
  end.

(** The text segment and the first cell of the stack are cleared. *)
Definition finsh_compiler_run (n : finsh_node) (errno : Z) : option code :=
  let '(n, errno) := finsh_type_check n 0 errno in
  snd <$> compile_statements n (Code (replicate (Z.to_nat FINSH_TEXT_MAX) 0) 0 errno).

End compiler.
