(* ===== verification/FinshExpr.v ===== *)
(** * The expressions of the shell and their meaning

    The expressions that the shell is meant to evaluate, as an inductive type,
    with the syntax tree that the parser builds for each and a reference
    evaluator that knows nothing of code or stacks.

    The width of an expression is that of its leftmost operand, as the type
    check of finsh_compiler.c has it; [well_typed] asks that the other operands
    are at least as wide.  A function call has no data type of its own, and may
    stand wherever a long is read but not as a left operand. *)

From S2P Require Import Prelude StateM Finsh FinshVm FinshCompiler.

Inductive lvalue := LVar (i : Z) | LSys (v : finsh_sysvar).

(** Increment or decrement. *)
Inductive step_op := Inc | Dec.
Definition step_binop (o : step_op) : binop := match o with Inc => Add | Dec => Sub end.

Inductive expr :=
  | EChar (c : Z)
  | EInt (n : Z)
  | ELong (n : Z)
  | ENull
  | EVar (x : lvalue)
  | EBin (op : binop) (a b : expr)
  | ENot (a : expr)
  | EAssign (x : lvalue) (a : expr)
  | EAssignTo (p a : expr)           (** [*p = a] *)
  | EDeref (p : expr)
  | EAddr (x : lvalue)
  | EPre (o : step_op) (i : Z)
  | EPost (o : step_op) (i : Z)
  | ECall (f : finsh_syscall) (args : exprs)
with exprs := ENil | ECons (e : expr) (es : exprs).

Scheme expr_mut := Induction for expr Sort Prop
  with exprs_mut := Induction for exprs Sort Prop.
Combined Scheme expr_exprs_ind from expr_mut, exprs_mut.

(** ** The trees of the parser *)

Definition op_node (op : binop) : finsh_node_type :=
  match op with
  | Add => FINSH_NODE_SYS_ADD | Sub => FINSH_NODE_SYS_SUB | Div => FINSH_NODE_SYS_DIV
  | Mod => FINSH_NODE_SYS_MOD | Mul => FINSH_NODE_SYS_MUL | And => FINSH_NODE_SYS_AND
  | Or => FINSH_NODE_SYS_OR | Xor => FINSH_NODE_SYS_XOR | Shl => FINSH_NODE_SYS_SHL
  | Shr => FINSH_NODE_SYS_SHR
  end.

Definition pre_node (o : step_op) : finsh_node_type :=
  match o with Inc => FINSH_NODE_SYS_PREINC | Dec => FINSH_NODE_SYS_PREDEC end.
Definition post_node (o : step_op) : finsh_node_type :=
  match o with Inc => FINSH_NODE_SYS_INC | Dec => FINSH_NODE_SYS_DEC end.

Definition leaf (nt : finsh_node_type) (v : Z) : finsh_node -> finsh_node := Node nt 0 0 v IdNull NULL.
Definition sys (nt : finsh_node_type) (child : finsh_node) : finsh_node -> finsh_node :=
  Node nt 0 0 0 IdNull child.

Definition lvalue_node (x : lvalue) : finsh_node -> finsh_node :=
  match x with
  | LVar i => Node FINSH_NODE_ID 0 FINSH_IDTYPE_VAR 0 (IdVar i) NULL
  | LSys v => Node FINSH_NODE_ID 0 FINSH_IDTYPE_SYSVAR 0 (IdSysvar v) NULL
  end.

(** The node of an expression with the given next sibling. *)
Fixpoint node_of (e : expr) : finsh_node -> finsh_node :=
  match e with
  | EChar c => leaf FINSH_NODE_VALUE_CHAR (u8 c)
  | EInt n => leaf FINSH_NODE_VALUE_INT (u32 n)
  | ELong n => leaf FINSH_NODE_VALUE_LONG (u32 n)
  | ENull => leaf FINSH_NODE_VALUE_NULL 0
  | EVar x => lvalue_node x
  | EBin op a b => sys (op_node op) (node_of a (node_of b NULL))
  | ENot a => sys FINSH_NODE_SYS_BITWISE (node_of a NULL)
  | EAssign x a => sys FINSH_NODE_SYS_ASSIGN (lvalue_node x (node_of a NULL))
  | EAssignTo p a =>
      sys FINSH_NODE_SYS_ASSIGN (sys FINSH_NODE_SYS_GETVALUE (node_of p NULL) (node_of a NULL))
  | EDeref p => sys FINSH_NODE_SYS_GETVALUE (node_of p NULL)
  | EAddr x => sys FINSH_NODE_SYS_GETADDR (lvalue_node x NULL)
  | EPre o i => sys (pre_node o) (lvalue_node (LVar i) NULL)
  | EPost o i => sys (post_node o) (lvalue_node (LVar i) NULL)
  | ECall f args =>
      sys FINSH_NODE_SYS_FUNC
        (Node FINSH_NODE_ID 0 FINSH_IDTYPE_SYSCALL 0 (IdSyscall f) NULL (nodes_of args))
  end
with nodes_of (es : exprs) : finsh_node :=
  match es with ENil => NULL | ECons e es => node_of e (nodes_of es) end.

Fixpoint args_count (es : exprs) : Z :=
  match es with ENil => 0 | ECons _ es => 1 + args_count es end.

(** Statements, one after the other. *)
Fixpoint statements_of (es : list expr) : finsh_node :=
  match es with [] => NULL | e :: es => node_of e (statements_of es) end.

Section expr.

Context (vars : list finsh_var) (global_variable : Z).
Context (call : Z -> list Z -> memory -> option (Z * memory)).

Definition lvalue_type (x : lvalue) : finsh_type :=
  match x with LVar i => var_type_of vars i | LSys v => sysvar_type v end.
Definition lvalue_addr (x : lvalue) : Z :=
  match x with LVar i => var_value_addr global_variable i | LSys v => u32 (sysvar_var v) end.

(** ** Types *)

(** [None]: no data type. *)
Fixpoint width_of (e : expr) : option width :=
  match e with
  | EChar _ => Some Byte
  | EInt _ | ELong _ | ENull => Some Dword
  | EVar x | EAssign x _ => type_width (lvalue_type x)
  | EBin _ a _ | ENot a => width_of a
  | EAssignTo _ _ | EDeref _ | EAddr _ => Some Dword
  | EPre _ i | EPost _ i => type_width (var_type_of vars i)
  | ECall _ _ => None
  end.

(** The part of its cell that the value of an expression fills. *)
Definition result_width (e : expr) : width := default Dword (width_of e).

Definition width_leb (w1 w2 : width) : bool := bits w1 <=? bits w2.

Definition addr_ok (a : Z) : bool := (0 <=? a) && (a <? 2 ^ 32).

Definition lvalue_ok (x : lvalue) : bool :=
  bool_decide (is_Some (type_width (lvalue_type x))) && addr_ok (lvalue_addr x).

Definition dword (e : expr) : bool := bool_decide (width_of e = Some Dword).

Fixpoint well_typed (e : expr) : bool :=
  match e with
  | EChar _ | EInt _ | ELong _ | ENull => true
  | EVar x => lvalue_ok x
  | EBin _ a b =>
      well_typed a && well_typed b &&
      match width_of a with Some w => width_leb w (result_width b) | None => false end
  | ENot a => well_typed a && bool_decide (is_Some (width_of a))
  | EAssign x a =>
      lvalue_ok x && well_typed a &&
      match type_width (lvalue_type x) with
      | Some w => width_leb w (result_width a)
      | None => false
      end
  | EAssignTo p a =>
      well_typed p && dword p && well_typed a && bool_decide (result_width a = Dword)
  | EDeref p => well_typed p && dword p
  | EAddr x => lvalue_ok x && bool_decide (type_width (lvalue_type x) = Some Dword)
  | EPre _ i | EPost _ i => lvalue_ok (LVar i)
  | ECall f args => addr_ok (syscall_func f) && well_typed_args args && (args_count args <=? 16)
  end
with well_typed_args (es : exprs) : bool :=
  match es with
  | ENil => true
  | ECons e es => well_typed e && bool_decide (result_width e = Dword) && well_typed_args es
  end.

(** ** Meaning *)

(** The variable [i] steps by one; the results are its values before and after.
    All four bytes of the variable have to exist. *)
Definition step_var (o : step_op) (i : Z) (m : memory) : option (Z * Z * memory) :=
  w ← type_width (var_type_of vars i);
  let a := var_value_addr global_variable i in
  v ← load w m a;
  r ← c_binop (step_binop o) v 1;
  m' ← store w a r m;
  _ ← load Dword m' a;
  Some (v, as_width w r, m').

Fixpoint eval (e : expr) (m : memory) : option (Z * memory) :=
  match e with
  | EChar c => Some (u8 c, m)
  | EInt n | ELong n => Some (i32 n, m)
  | ENull => Some (0, m)
  | EVar x => w ← type_width (lvalue_type x); v ← load w m (lvalue_addr x); Some (v, m)
  | EBin op a b =>
      w ← width_of a;
      '(x, m) ← eval a m;
      '(y, m) ← eval b m;
      r ← c_binop op x (as_width w y);
      Some (as_width w r, m)
  | ENot a =>
      w ← width_of a;
      '(x, m) ← eval a m;
      Some (as_width w (Z.lnot x), m)
  | EAssign x a =>
      w ← type_width (lvalue_type x);
      '(v, m) ← eval a m;
      m ← store w (lvalue_addr x) v m;
      Some (as_width w v, m)
  | EAssignTo p a =>
      '(q, m) ← eval p m;
      '(v, m) ← eval a m;
      m ← store Dword (u32 q) v m;
      Some (i32 v, m)
  | EDeref p =>
      '(q, m) ← eval p m;
      v ← load Dword m (u32 q);
      Some (v, m)
  | EAddr x => Some (i32 (lvalue_addr x), m)
  | EPre o i => '(_, v, m) ← step_var o i m; Some (v, m)
  | EPost o i => '(v, _, m) ← step_var o i m; Some (v, m)
  | ECall f args =>
      '(vs, m) ← eval_args args m;
      '(r, m) ← call (syscall_func f) (match vs with [] => [0] | _ => vs end) m;
      Some (i32 r, m)
  end
with eval_args (es : exprs) (m : memory) : option (list Z * memory) :=
  match es with
  | ENil => Some ([], m)
  | ECons e es =>
      '(v, m) ← eval e m;
      '(vs, m) ← eval_args es m;
      Some (u32 v :: vs, m)
  end.

(** The value of the last statement. *)
Fixpoint eval_statements (es : list expr) (m : memory) : option (Z * memory) :=
  match es with
  | [] => None
  | [e] => eval e m
  | e :: es => '(_, m) ← eval e m; eval_statements es m
  end.

(** The cells of the stack that the evaluation takes. *)
Fixpoint depth (e : expr) : Z :=
  match e with
  | EChar _ | EInt _ | ELong _ | ENull | EVar _ | EAddr _ => 1
  | EBin _ a b => Z.max (depth a) (1 + depth b)
  | ENot a | EDeref a => depth a
  | EAssign _ a => 1 + depth a
  | EAssignTo p a => Z.max (depth p) (1 + depth a)
  | EPre _ _ => 3
  | EPost _ _ => 4
  | ECall _ args => 1 + args_depth args
  end
with args_depth (es : exprs) : Z :=
  match es with ENil => 0 | ECons e es => Z.max (depth e) (1 + args_depth es) end.

End expr.
