(* ===== verification/FinshCorrect.v ===== *)
(** * The compiler and the machine implement the expressions

    [compile_gen]: the compiler writes the code [gen e] for the tree of a
    well-typed expression; [gen_runs]: the machine, executing that code, leaves
    the value of the expression on the stack and the memory as the evaluator
    says.  Together: [finsh_compile_correct]. *)

From S2P Require Import Prelude StateM Finsh FinshVm FinshCompiler FinshExpr.

(** ** Integers *)

Lemma bits_pos w : 0 < 2 ^ bits w.
Proof. by destruct w. Qed.

Lemma wrap_narrow a b x : 0 <= a <= b -> wrap a (wrap b x) = wrap a x.
Proof.
  intros H. unfold wrap. replace b with (a + (b - a)) by lia.
  rewrite Z.pow_add_r, Z.rem_mul_r by lia.
  rewrite (Z.mul_comm (2 ^ a)), Z.mod_add by lia. apply Z.mod_mod. lia.
Qed.

Lemma swrap_wrap w x : 0 < w -> swrap w (wrap w x) = swrap w x.
Proof.
  intros Hw. unfold swrap, wrap. by rewrite Zplus_mod_idemp_l.
Qed.

Lemma wrap_swrap w x : 0 < w -> wrap w (swrap w x) = wrap w x.
Proof.
  intros Hw. unfold swrap, wrap. rewrite Zminus_mod_idemp_l. f_equal. lia.
Qed.

(** The value of a cell as an integer of some width depends on its low bits. *)
Lemma as_width_wrap w x : as_width w (wrap (bits w) x) = as_width w x.
Proof. destruct w; simpl; [by apply wrap_idem|by apply swrap_wrap..]. Qed.

Lemma wrap_as_width w x : wrap (bits w) (as_width w x) = wrap (bits w) x.
Proof. destruct w; simpl; [by apply wrap_idem|by apply wrap_swrap..]. Qed.

Lemma as_width_eq w x y : wrap (bits w) x = wrap (bits w) y -> as_width w x = as_width w y.
Proof. intros E. by rewrite <-as_width_wrap, E, as_width_wrap. Qed.

Lemma as_width_narrow w w' x : bits w <= bits w' -> as_width w (as_width w' x) = as_width w x.
Proof.
  intros H. apply as_width_eq.
  rewrite <-(wrap_narrow (bits w) (bits w') (as_width w' x)) by (destruct w; simpl in *; lia).
  rewrite wrap_as_width. apply wrap_narrow. destruct w; simpl in *; lia.
Qed.

Lemma as_width_idem w x : as_width w (as_width w x) = as_width w x.
Proof. by apply as_width_narrow. Qed.

Lemma as_width_cell_set w v c : as_width w (cell_set w v c) = as_width w v.
Proof.
  apply as_width_eq. unfold cell_set. pose proof (bits_pos w). unfold wrap.
  rewrite Z.add_comm, Z.mod_add by lia. apply Z.mod_mod. lia.
Qed.

Lemma u32_i32 x : u32 (i32 x) = u32 x.
Proof. by apply wrap_swrap. Qed.

(** ** Bytes in little-endian order *)

Abbreviation dword_bytes v := (le_bytes 4 (u32 v)).

Lemma wrap_bytes n v : wrap (8 * Z.of_nat (S n)) v = v mod 256 + 256 * wrap (8 * Z.of_nat n) (v / 256).
Proof.
  unfold wrap. replace (8 * Z.of_nat (S n)) with (8 + 8 * Z.of_nat n) by lia.
  rewrite Z.pow_add_r by lia. change (2 ^ 8) with 256.
  pose proof (Z.pow_pos_nonneg 2 (8 * Z.of_nat n)). by rewrite Z.rem_mul_r by lia.
Qed.

Lemma size_bits w : 8 * Z.of_nat (size_of w) = bits w.
Proof. by destruct w. Qed.

(** ** Memory *)

Lemma store_le_above n a v m m' b :
  store_le n a v m = Some m' -> b < a -> m' !! b = m !! b.
Proof.
  revert a v m. induction n as [|n IH]; intros a v m; simpl; [congruence|].
  destruct (m !! a) eqn:E; [|done]. simpl. intros H Hb. rewrite (IH _ _ _ H) by lia.
  by rewrite lookup_insert_ne by lia.
Qed.

Lemma load_store_le n a v m m' :
  store_le n a v m = Some m' -> load_le n m' a = Some (wrap (8 * Z.of_nat n) v).
Proof.
  revert a v m. induction n as [|n IH]; intros a v m Hs.
  - simpl. unfold wrap. by rewrite Z.mod_1_r.
  - rewrite wrap_bytes. simpl in Hs |- *. destruct (m !! a) eqn:E; [|done]. simpl in Hs.
    rewrite (store_le_above _ _ _ _ _ _ Hs) by lia. rewrite lookup_insert_eq. simpl.
    by rewrite (IH _ _ _ Hs).
Qed.

Lemma load_store w a v m m' : store w a v m = Some m' -> load w m' a = Some (as_width w v).
Proof.
  unfold store, load. intros Hs. rewrite (load_store_le _ _ _ _ _ Hs), size_bits. simpl.
  by rewrite !as_width_wrap.
Qed.

Lemma store_as_width w a v v' m :
  as_width w v = as_width w v' -> store w a v m = store w a v' m.
Proof.
  intros E. unfold store. by rewrite <-(wrap_as_width w v), E, wrap_as_width.
Qed.

(** ** What the compiler writes *)

(** The segment with [bs] written at the program counter. *)
Fixpoint write (bs : list Z) (s : code) : code :=
  match bs with
  | [] => s
  | b :: bs =>
      write bs (Code (<[Z.to_nat (finsh_compile_pc s) := b]> (text_segment s))
                  (finsh_compile_pc s + 1) (global_errno s))
  end.

Lemma write_app a b s : write (a ++ b) s = write b (write a s).
Proof. revert s. induction a; intros; simpl; auto. Qed.

Lemma write_pc bs s : finsh_compile_pc (write bs s) = finsh_compile_pc s + Z.of_nat (length bs).
Proof. revert s. induction bs as [|b bs IH]; intros; simpl; [lia|]. rewrite IH. simpl. lia. Qed.

Lemma write_errno bs s : global_errno (write bs s) = global_errno s.
Proof. revert s. induction bs as [|b bs IH]; intros; simpl; [done|]. by rewrite IH. Qed.

Lemma write_text bs pre tail e :
  (length bs <= length tail)%nat ->
  text_segment (write bs (Code (pre ++ tail) (Z.of_nat (length pre)) e)) =
    pre ++ bs ++ drop (length bs) tail.
Proof.
  revert pre tail. induction bs as [|b bs IH]; intros pre tail Hl; simpl in *; [done|].
  destruct tail as [|t tail]; simpl in *; [lia|]. rewrite Nat2Z.id.
  rewrite insert_app_r_alt by lia. rewrite Nat.sub_diag. simpl.
  replace (pre ++ b :: tail) with ((pre ++ [b]) ++ tail) by by rewrite <-app_assoc.
  replace (Z.of_nat (length pre) + 1) with (Z.of_nat (length (pre ++ [b])))
    by (rewrite length_app; simpl; lia).
  rewrite IH by lia. by rewrite <-app_assoc.
Qed.

(** [m] writes exactly [bs], if there is room. *)
Definition emits (m : ST code unit) (bs : list Z) : Prop :=
  forall s, 0 <= finsh_compile_pc s ->
    finsh_compile_pc s + Z.of_nat (length bs) <= FINSH_TEXT_MAX ->
    m s = Some (tt, write bs s).

Lemma emits_ret : emits (mret tt) [].
Proof. done. Qed.

Lemma emits_bind m1 (m2 : ST code unit) b1 b2 : emits m1 b1 -> emits m2 b2 -> emits (m1;; m2) (b1 ++ b2).
Proof.
  intros H1 H2 s Hp Hl. rewrite length_app in Hl.
  rewrite (bind_Some _ _ _ _ _ (H1 s ltac:(done) ltac:(lia))), write_app.
  apply H2; rewrite write_pc; lia.
Qed.

Lemma emits_byte x b : b = u8 x -> emits (finsh_code_byte x) [b].
Proof.
  intros -> s Hp Hl. simpl in Hl. unfold finsh_code_byte.
  destruct (Z.leb_spec 0 (finsh_compile_pc s)), (Z.ltb_spec (finsh_compile_pc s) FINSH_TEXT_MAX);
    [done|lia..].
Qed.

Lemma emits_dword x : emits (finsh_code_dword x) (dword_bytes x).
Proof.
  pose proof (wrap_range 32 x ltac:(lia)) as Hr. unfold in_u in Hr.
  change (dword_bytes x) with
    ([u32 x mod 256] ++ [u32 x / 256 mod 256] ++ [u32 x / 256 / 256 mod 256] ++
     [u32 x / 256 / 256 / 256 mod 256]).
  repeat apply emits_bind; apply emits_byte; rewrite ?Z.shiftr_div_pow2, ?Z.div_div by lia; try done.
  by rewrite <-(wrap_narrow 8 32).
Qed.

Lemma emits_word_1 : emits (finsh_code_word 1) [1; 0].
Proof. apply (emits_bind _ _ [1] [0]); by apply emits_byte. Qed.

Section correct.

Context (vars : list finsh_var) (global_variable : Z).
Context (call : Z -> list Z -> memory -> option (Z * memory)).

Abbreviation rw e := (result_width vars e).
Abbreviation laddr x := (lvalue_addr global_variable x).
Abbreviation lwidth x := (default Dword (type_width (lvalue_type vars x))).
Abbreviation vwidth i := (default Dword (type_width (var_type_of vars i))).
Abbreviation vaddr i := (var_value_addr global_variable i).

Definition one_bytes (w : width) : list Z :=
  FINSH_OP_LD w :: match w with Byte => [1] | Word => [1; 0] | Dword => dword_bytes 1 end.

(** The code of an expression. *)
Fixpoint gen (e : expr) : list Z :=
  match e with
  | EChar c => [FINSH_OP_LD Byte; u8 c]
  | EInt n | ELong n => FINSH_OP_LD Dword :: dword_bytes n
  | ENull => FINSH_OP_LD Dword :: dword_bytes 0
  | EVar x => FINSH_OP_LD_VALUE (lwidth x) :: dword_bytes (laddr x)
  | EBin op a b => gen a ++ gen b ++ [FINSH_OP_BIN (rw a) op]
  | ENot a => gen a ++ [FINSH_OP_BITWISE (rw a)]
  | EAssign x a =>
      (FINSH_OP_LD Dword :: dword_bytes (laddr x)) ++ gen a ++
      [FINSH_OP_ST (lwidth x); FINSH_OP_LD_VALUE_STACK (lwidth x)]
  | EAssignTo p a =>
      gen p ++ gen a ++ [FINSH_OP_ST Dword; FINSH_OP_LD_VALUE_STACK Dword]
  | EDeref p => gen p ++ [FINSH_OP_LD_VALUE_STACK Dword]
  | EAddr x => FINSH_OP_LD Dword :: dword_bytes (laddr x)
  | EPre o i =>
      (FINSH_OP_LD Dword :: dword_bytes (vaddr i)) ++
      (FINSH_OP_LD_VALUE (vwidth i) :: dword_bytes (vaddr i)) ++ one_bytes (vwidth i) ++
      [FINSH_OP_BIN (vwidth i) (step_binop o); FINSH_OP_ST (vwidth i);
       FINSH_OP_LD_VALUE_STACK Dword]
  | EPost o i =>
      (FINSH_OP_LD_VALUE (vwidth i) :: dword_bytes (vaddr i)) ++
      (FINSH_OP_LD Dword :: dword_bytes (vaddr i)) ++
      (FINSH_OP_LD_VALUE (vwidth i) :: dword_bytes (vaddr i)) ++ one_bytes (vwidth i) ++
      [FINSH_OP_BIN (vwidth i) (step_binop o); FINSH_OP_ST (vwidth i); FINSH_OP_POP]
  | ECall f args =>
      (FINSH_OP_LD Dword :: dword_bytes (syscall_func f)) ++ gen_args args ++
      [FINSH_OP_SYSCALL; args_count args]
  end
with gen_args (es : exprs) : list Z :=
  match es with ENil => [] | ECons e es => gen e ++ gen_args es end.

Definition width_data_type (w : width) : Z :=
  match w with Byte => 1 | Word => 2 | Dword => 3 end.

Lemma data_type_width_of w : data_type_width (width_data_type w) = Some w.
Proof. by destruct w. Qed.

(** ** Emission *)

Lemma emits_op (x : Z) : u8 x = x -> emits (finsh_code_byte x) [x].
Proof. intros E. by apply emits_byte. Qed.

Lemma emits_op_dword x v : u8 x = x ->
  emits (finsh_code_byte x;; finsh_code_dword v) (x :: dword_bytes v).
Proof. intros E. apply (emits_bind _ _ [x]); [by apply emits_op|apply emits_dword]. Qed.

Lemma emits_store w :
  emits (compile_store (width_data_type w)) [FINSH_OP_ST w; FINSH_OP_LD_VALUE_STACK w].
Proof.
  unfold compile_store. rewrite data_type_width_of.
  apply (emits_bind _ _ [_] [_]); apply emits_op; by destruct w.
Qed.

Lemma emits_one w : emits (compile_one w) (one_bytes w).
Proof.
  unfold compile_one, one_bytes. apply (emits_bind _ _ [_]); [apply emits_op; by destruct w|].
  destruct w; [by apply emits_op|apply emits_word_1|apply emits_dword].
Qed.

(** A node whose child chain emits [cs] and which itself emits [bs]. *)
Lemma emits_node nt dt idt v id child sibling cs bs ss :
  emits (finsh_compile vars global_variable child) cs ->
  emits (compile_node vars global_variable nt dt idt v id child) bs ->
  emits (finsh_compile vars global_variable sibling) ss ->
  emits (finsh_compile vars global_variable (Node nt dt idt v id child sibling)) ((cs ++ bs) ++ ss).
Proof.
  intros H1 H2 H3. rewrite <-app_assoc. apply emits_bind; [done|]. by apply emits_bind.
Qed.

Lemma type_width_data t w : type_width t = Some w -> type_data_type t = Some (width_data_type w).
Proof. destruct t; simpl; intros [= <-]; done. Qed.

Abbreviation check := (finsh_type_check vars).
Abbreviation compile := (finsh_compile vars global_variable).

(** The tree [f sib] is accepted, without an error of its own, and compiled to
    [bs] before its siblings. *)
Definition compiles (f : finsh_node -> finsh_node) (w : option width) (bs : list Z) : Prop :=
  forall sib sib' err err', check sib 0 err = (sib', err') ->
    exists n', check (f sib) 0 err = (n', err') /\ is_null n' = false /\
      (forall w', w = Some w' -> node_data_type n' = width_data_type w') /\
      node_sibling n' = sib' /\
      forall ss, emits (compile sib') ss -> emits (compile n') (bs ++ ss).

Lemma check_node nt child sib a err child' sib' err1 err2 :
  check child (child_is_addr nt a) err = (child', err1) -> is_null child' = false ->
  check sib 0 err1 = (sib', err2) ->
  check (sys nt child sib) a err = (Node nt (node_data_type child') a 0 IdNull child' sib', err2).
Proof. intros E1 Hn E2. unfold sys. simpl. by rewrite E1, E2, Hn. Qed.

Definition lvalue_id (x : lvalue) : identifier :=
  match x with LVar i => IdVar i | LSys v => IdSysvar v end.
Definition lvalue_idtype (x : lvalue) : Z :=
  match x with LVar _ => FINSH_IDTYPE_VAR | LSys _ => FINSH_IDTYPE_SYSVAR end.

Lemma check_lvalue x w a sib err sib' err' :
  type_width (lvalue_type vars x) = Some w -> a = 0 \/ a = FINSH_IDTYPE_ADDRESS ->
  check sib 0 err = (sib', err') ->
  check (lvalue_node x sib) a err =
    (Node FINSH_NODE_ID (width_data_type w) (lvalue_idtype x |. a) 0 (lvalue_id x) NULL sib', err').
Proof.
  intros Hw Ha E. apply type_width_data in Hw. destruct x as [i|v]; simpl in Hw |- *; rewrite E;
    destruct Ha as [-> | ->]; simpl; by rewrite Hw.
Qed.

(** Loading a variable, or its address. *)
Lemma emits_lvalue x w a dt sib' ss :
  type_width (lvalue_type vars x) = Some w -> a = 0 \/ a = FINSH_IDTYPE_ADDRESS ->
  emits (compile sib') ss ->
  emits (compile (Node FINSH_NODE_ID dt (lvalue_idtype x |. a) 0 (lvalue_id x) NULL sib'))
    (((if a =? 0 then FINSH_OP_LD_VALUE w else FINSH_OP_LD Dword) :: dword_bytes (laddr x)) ++ ss).
Proof.
  intros Hw Ha Hs. apply (emits_node FINSH_NODE_ID dt _ 0 _ NULL sib' []); [apply emits_ret| |done].
  replace (dword_bytes (laddr x)) with (match x with
    | LVar i => dword_bytes (vaddr i) | LSys v => dword_bytes (sysvar_var v) end)
    by (destruct x; simpl; [done|by rewrite wrap_idem]).
  destruct x as [i|v]; simpl in Hw |- *; unfold compile_id;
    destruct Ha as [-> | ->]; simpl; unfold compile_load; rewrite Hw; simpl;
    apply emits_op_dword; by destruct w.
Qed.

Lemma compiles_leaf nt v w bs :
  (forall dt errno, leaf_data_type vars nt dt 0 IdNull errno = (width_data_type w, errno)) ->
  emits (compile_node vars global_variable nt (width_data_type w) 0 v IdNull NULL) bs ->
  compiles (leaf nt v) (Some w) bs.
Proof.
  intros Hl He sib sib' err err' E. unfold leaf. simpl. rewrite E, Hl.
  eexists. split; [reflexivity|]. split; [done|]. split; [by intros w' [= ->]|]. split; [done|].
  intros ss Hss. by apply (emits_node _ _ _ _ _ NULL sib' [] bs ss); [apply emits_ret| |].
Qed.

(** An operation on a tree. *)
Lemma compiles_unary nt f w bs op :
  compiles f (Some w) bs -> child_is_addr nt 0 = 0 ->
  (forall child', node_data_type child' = width_data_type w ->
     emits (compile_node vars global_variable nt (width_data_type w) 0 0 IdNull child') [op]) ->
  compiles (sys nt (f NULL)) (Some w) (bs ++ [op]).
Proof.
  intros Hf Ha Hop sib sib' err err' E.
  destruct (Hf NULL NULL err err eq_refl) as (c & Ec & Hn & Hdt & _ & He).
  eexists. split; [eapply check_node; [by rewrite Ha|done|done]|].
  split; [done|]. split; [by intros ? [= <-]; apply Hdt|]. split; [done|].
  intros ss Hss. apply emits_node; [rewrite <-(app_nil_r bs); apply He, emits_ret| |done].
  rewrite (Hdt w eq_refl). by apply Hop, Hdt.
Qed.

(** An operation on two trees. *)
Lemma compiles_binary nt f g w w2 bs1 bs2 op :
  compiles f (Some w) bs1 -> compiles g w2 bs2 -> child_is_addr nt 0 = 0 ->
  (forall child', emits (compile_node vars global_variable nt (width_data_type w) 0 0 IdNull child') [op]) ->
  compiles (sys nt (f (g NULL))) (Some w) (bs1 ++ bs2 ++ [op]).
Proof.
  intros Hf Hg Ha Hop sib sib' err err' E.
  destruct (Hg NULL NULL err err eq_refl) as (d & Ed & Hnd & _ & Hsd & Hed).
  destruct (Hf _ _ _ _ Ed) as (c & Ec & Hn & Hdt & _ & He).
  eexists. split; [eapply check_node; [by rewrite Ha|done|done]|].
  split; [done|]. split; [by intros ? [= <-]; apply Hdt|]. split; [done|].
  intros ss Hss. rewrite app_assoc. apply emits_node; [| |done].
  - apply He. rewrite <-(app_nil_r bs2). apply Hed, emits_ret.
  - rewrite (Hdt w eq_refl). apply Hop.
Qed.

Lemma emits_sized w (op : width -> Z) :
  u8 (op w) = op w -> emits (compile_sized (width_data_type w) op) [op w].
Proof. intros E. unfold compile_sized. rewrite data_type_width_of. by apply emits_op. Qed.

Lemma compiles_assign x w f wf bs :
  type_width (lvalue_type vars x) = Some w -> compiles f wf bs ->
  compiles (sys FINSH_NODE_SYS_ASSIGN (lvalue_node x (f NULL))) (Some w)
    ((FINSH_OP_LD Dword :: dword_bytes (laddr x)) ++ bs ++
     [FINSH_OP_ST w; FINSH_OP_LD_VALUE_STACK w]).
Proof.
  intros Hw Hf sib sib' err err' E.
  destruct (Hf NULL NULL err err eq_refl) as (d & Ed & Hnd & _ & Hsd & Hed).
  eexists. split; [eapply check_node; [by apply (check_lvalue x w); [|right|]|done|done]|].
  split; [done|]. split; [by intros ? [= <-]|]. split; [done|].
  intros ss Hss. rewrite app_assoc. apply emits_node; [|apply emits_store|done].
  apply (emits_lvalue x w FINSH_IDTYPE_ADDRESS); [done|by right|].
  rewrite <-(app_nil_r bs). apply Hed, emits_ret.
Qed.

Lemma compiles_assign_to f g wg bs1 bs2 :
  compiles f (Some Dword) bs1 -> compiles g wg bs2 ->
  compiles (sys FINSH_NODE_SYS_ASSIGN (sys FINSH_NODE_SYS_GETVALUE (f NULL) (g NULL))) (Some Dword)
    (bs1 ++ bs2 ++ [FINSH_OP_ST Dword; FINSH_OP_LD_VALUE_STACK Dword]).
Proof.
  intros Hf Hg sib sib' err err' E.
  destruct (Hf NULL NULL err err eq_refl) as (c & Ec & Hnc & Hdc & _ & Hec).
  destruct (Hg NULL NULL err err eq_refl) as (d & Ed & Hnd & _ & Hsd & Hed).
  eexists. split; [eapply check_node; [by eapply check_node|done|done]|].
  split; [done|]. specialize (Hdc Dword eq_refl). split; [by intros ? [= <-]|]. split; [done|].
  intros ss Hss. rewrite app_assoc. apply emits_node; [| |done].
  - rewrite <-(app_nil_r bs1), <-(app_nil_r (bs1 ++ [])). apply emits_node.
    + apply Hec, emits_ret.
    + apply emits_ret.
    + rewrite <-(app_nil_r bs2). apply Hed, emits_ret.
  - simpl. rewrite Hdc. apply (emits_store Dword).
Qed.

(** [++x], [x++] and the like; [a] says whether the child loads the address. *)
Lemma compiles_step nt i w a m bs :
  type_width (var_type_of vars i) = Some w -> child_is_addr nt 0 = a ->
  a = 0 \/ a = FINSH_IDTYPE_ADDRESS ->
  (forall dt idt v id sib,
     compile_node vars global_variable nt (width_data_type w) 0 0 IdNull
       (Node FINSH_NODE_ID dt idt v (IdVar i) id sib) = m) ->
  emits m bs ->
  compiles (sys nt (lvalue_node (LVar i) NULL)) (Some w)
    (((if a =? 0 then FINSH_OP_LD_VALUE w else FINSH_OP_LD Dword) :: dword_bytes (vaddr i)) ++ bs).
Proof.
  intros Hw Ha Haa Hm Hb sib sib' err err' E.
  eexists. split; [eapply check_node; [by apply (check_lvalue (LVar i) w); [|rewrite Ha|]|done|done]|].
  split; [done|]. split; [by intros ? [= <-]|]. split; [done|].
  intros ss Hss. apply emits_node; [|simpl; by rewrite Hm|done]. rewrite Ha.
  replace (dword_bytes (vaddr i)) with (dword_bytes (laddr (LVar i)) ++ []) by apply app_nil_r.
  apply (emits_lvalue (LVar i) w a _ NULL []); [done..|apply emits_ret].
Qed.

Lemma emits_step_pre w i o :
  emits (compile_pre global_variable (width_data_type w)
           (Node FINSH_NODE_ID 0 0 0 (IdVar i) NULL NULL) (step_binop o))
    ((FINSH_OP_LD_VALUE w :: dword_bytes (vaddr i)) ++ one_bytes w ++
      [FINSH_OP_BIN w (step_binop o); FINSH_OP_ST w; FINSH_OP_LD_VALUE_STACK Dword]).
Proof.
  unfold compile_pre. simpl child_var. rewrite data_type_width_of. cbn iota.
  apply (emits_bind _ _ [FINSH_OP_LD_VALUE w]); [apply emits_op; by destruct w|].
  apply emits_bind; [apply emits_dword|]. apply emits_bind; [apply emits_one|].
  apply (emits_bind _ _ [_]); [apply emits_op; by destruct w, o|].
  apply (emits_bind _ _ [_] [_]); apply emits_op; by destruct w.
Qed.

Lemma emits_step_post w i o :
  emits (compile_post global_variable (width_data_type w)
           (Node FINSH_NODE_ID 0 0 0 (IdVar i) NULL NULL) (step_binop o))
    ((FINSH_OP_LD Dword :: dword_bytes (vaddr i)) ++
     (FINSH_OP_LD_VALUE w :: dword_bytes (vaddr i)) ++ one_bytes w ++
      [FINSH_OP_BIN w (step_binop o); FINSH_OP_ST w; FINSH_OP_POP]).
Proof.
  unfold compile_post. simpl child_var. rewrite data_type_width_of. cbn iota.
  apply (emits_bind _ _ [FINSH_OP_LD Dword]); [by apply emits_op|].
  apply emits_bind; [apply emits_dword|].
  apply (emits_bind _ _ [FINSH_OP_LD_VALUE w]); [apply emits_op; by destruct w|].
  apply emits_bind; [apply emits_dword|]. apply emits_bind; [apply emits_one|].
  apply (emits_bind _ _ [_]); [apply emits_op; by destruct w, o|].
  apply (emits_bind _ _ [_] [_]); apply emits_op; by destruct w.
Qed.

(** The arguments of a call: a chain of siblings. *)
Definition compiles_args (es : exprs) : Prop :=
  forall err, exists n', check (nodes_of es) 0 err = (n', err) /\
    siblings n' = args_count es /\ emits (compile n') (gen_args es).

Lemma siblings_of n : is_null n = false -> siblings n = 1 + siblings (node_sibling n).
Proof. by destruct n. Qed.

Lemma compiles_call f args :
  0 <= args_count args < 256 -> compiles_args args ->
  compiles (node_of (ECall f args)) None (gen (ECall f args)).
Proof.
  intros Hn Hargs sib sib' err err' E. destruct (Hargs err) as (c & Ec & Hc & He).
  simpl node_of. eexists. split.
  { eapply check_node; [simpl; by rewrite Ec|done|done]. }
  split; [done|]. split; [done|]. split; [done|]. intros ss Hss.
  change (gen (ECall f args)) with
    ((FINSH_OP_LD Dword :: dword_bytes (syscall_func f)) ++ gen_args args ++
     [FINSH_OP_SYSCALL; args_count args]).
  rewrite app_assoc. apply emits_node; [| |done].
  - apply (emits_node _ _ _ _ _ NULL c [] _ _ (emits_ret)); [|done].
    by apply emits_op_dword.
  - simpl. rewrite Hc. apply (emits_bind _ _ [_] [_]); [by apply emits_op|].
    apply emits_op, wrap_small. unfold in_u. lia.
Qed.

Lemma args_count_nonneg es : 0 <= args_count es.
Proof. induction es; simpl; lia. Qed.

Abbreviation typed := (well_typed vars global_variable).
Abbreviation typed_args := (well_typed_args vars global_variable).

Lemma op_node_facts op :
  child_is_addr (op_node op) 0 = 0 /\
  forall w child', emits (compile_node vars global_variable (op_node op) (width_data_type w) 0 0
                     IdNull child') [FINSH_OP_BIN w op].
Proof.
  split; [by destruct op|]. intros w child'.
  destruct op; apply (emits_sized w (fun w => FINSH_OP_BIN w _)); by destruct w.
Qed.

Lemma emits_const n :
  emits (finsh_code_byte (FINSH_OP_LD Dword);; finsh_code_dword (u32 n))
    (FINSH_OP_LD Dword :: dword_bytes n).
Proof.
  pose proof (emits_op_dword (FINSH_OP_LD Dword) (u32 n) eq_refl) as H.
  by rewrite wrap_idem in H by lia.
Qed.

Lemma compile_gen :
  (forall e, typed e = true -> compiles (node_of e) (width_of vars e) (gen e)) /\
  (forall es, typed_args es = true -> compiles_args es).
Proof.
  apply expr_exprs_ind;
    cbn [node_of nodes_of width_of gen gen_args well_typed well_typed_args].
  - intros c _. apply compiles_leaf; [done|].
    apply (emits_bind _ _ [_] [_]); apply emits_byte; [done|by rewrite !wrap_idem].
  - intros n _. apply compiles_leaf; [done|].
    apply emits_const.
  - intros n _. apply compiles_leaf; [done|].
    apply emits_const.
  - intros _. apply compiles_leaf; [done|]. by apply emits_op_dword.
  - intros x [[w Hw]%bool_decide_eq_true _]%andb_true_iff. rewrite Hw. intros sib sib' err err' E.
    eexists. split; [by apply (check_lvalue x w); [|left|]|]. split; [done|].
    split; [by intros ? [= <-]|]. split; [done|]. intros ss Hss.
    by apply (emits_lvalue x w 0); [|left|].
  - intros op a IHa b IHb [[Ha Hb]%andb_true_iff Hw]%andb_true_iff.
    unfold result_width. destruct (width_of vars a) as [w|]; [|done].
    destruct (op_node_facts op) as [Hc He].
    by apply (compiles_binary (op_node op) _ _ w (width_of vars b)); [apply IHa|apply IHb| |].
  - intros a IHa [Ha [w Hw]%bool_decide_eq_true]%andb_true_iff. specialize (IHa Ha).
    unfold result_width. rewrite Hw in IHa |- *. apply compiles_unary; [done..|].
    intros child' _. apply (emits_sized w FINSH_OP_BITWISE). by destruct w.
  - intros x a IHa [[[[w Hw]%bool_decide_eq_true _]%andb_true_iff Ha]%andb_true_iff _]%andb_true_iff.
    rewrite Hw. by eapply compiles_assign; [|apply IHa].
  - intros p IHp a IHa [[[Hp Hd%bool_decide_eq_true]%andb_true_iff Ha]%andb_true_iff _]%andb_true_iff.
    specialize (IHp Hp). rewrite Hd in IHp. by eapply compiles_assign_to; [|apply IHa].
  - intros p IHp [Hp Hd%bool_decide_eq_true]%andb_true_iff. specialize (IHp Hp). rewrite Hd in IHp.
    apply compiles_unary; [done..|]. intros. by apply (emits_sized Dword FINSH_OP_LD_VALUE_STACK).
  - intros x [_ Hw%bool_decide_eq_true]%andb_true_iff sib sib' err err' E.
    eexists. split; [eapply check_node; [by apply (check_lvalue x Dword); [|right|]|done|done]|].
    split; [done|]. split; [by intros ? [= <-]|]. split; [done|]. intros ss Hss.
    rewrite <-(app_nil_r (_ :: _)). apply emits_node; [|apply emits_ret|done].
    rewrite <-(app_nil_r (_ :: _)).
    apply (emits_lvalue x Dword FINSH_IDTYPE_ADDRESS); [done|by right|apply emits_ret].
  - intros o i [[w Hw]%bool_decide_eq_true _]%andb_true_iff. simpl in Hw. rewrite Hw.
    eapply (compiles_step _ i w FINSH_IDTYPE_ADDRESS); [done|by destruct o|by right| |apply emits_step_pre].
    by destruct o.
  - intros o i [[w Hw]%bool_decide_eq_true _]%andb_true_iff. simpl in Hw. rewrite Hw.
    eapply (compiles_step _ i w 0); [done|by destruct o|by left| |apply emits_step_post].
    by destruct o.
  - intros f args IH [[_ Ha]%andb_true_iff Hc%Z.leb_le]%andb_true_iff.
    apply compiles_call; [|by apply IH]. pose proof (args_count_nonneg args). lia.
  - intros _ err. exists NULL. split_and!; [done|done|apply emits_ret].
  - intros e IHe es IHes [[He _]%andb_true_iff Hes]%andb_true_iff err.
    destruct (IHes Hes err) as (n & En & Hn & Hem).
    destruct (IHe He _ _ _ _ En) as (n' & En' & Hnull & _ & Hsib & Hem').
    exists n'. split; [done|]. split; [by rewrite siblings_of, Hsib, Hn|]. by apply Hem'.
Qed.

(** ** Statements *)

Fixpoint gen_statements (es : list expr) : list Z :=
  match es with
  | [] => []
  | [e] => gen e
  | e :: es => gen e ++ [FINSH_OP_POP] ++ gen_statements es
  end.

Lemma leaf_data_type_errno nt dt idt id e1 e2 :
  fst (leaf_data_type vars nt dt idt id e1) = fst (leaf_data_type vars nt dt idt id e2).
Proof.
  unfold leaf_data_type. destruct nt; try done. repeat case_match; done.
Qed.

Lemma check_set_sibling n a err :
  fst (check (set_sibling n NULL) a err) = set_sibling (fst (check n a err)) NULL.
Proof.
  destruct n as [|nt dt idt v id child sib]; [done|]. simpl.
  destruct (check child (child_is_addr nt a) err) as [child' err1].
  destruct (check sib 0 err1) as [sib' err2]. destruct (is_null child'); simpl; [|done].
  set (idt' := if idt =? FINSH_IDTYPE_SYSCALL then idt else idt |. a).
  pose proof (leaf_data_type_errno nt dt idt' id err1 err2).
  destruct (leaf_data_type vars nt dt idt' id err1), (leaf_data_type vars nt dt idt' id err2).
  simpl in *. congruence.
Qed.

Lemma set_sibling_node_of e sib : set_sibling (node_of e sib) NULL = node_of e NULL.
Proof. destruct e; try done. by destruct x. Qed.

Lemma compile_statements_gen es :
  Forall (fun e => typed e = true) es -> forall err, exists n',
    check (statements_of es) 0 err = (n', err) /\ (is_null n' = true <-> es = []) /\
    emits (compile_statements vars global_variable n') (gen_statements es).
Proof.
  induction 1 as [|e es He _ IH]; intros err.
  { exists NULL. split_and!; [done|done|apply emits_ret]. }
  destruct (IH err) as (sib & Es & Hn & Hs). simpl.
  destruct (proj1 compile_gen e He _ _ _ _ Es) as (n' & En & Hnull & _ & Hsib & _).
  destruct (proj1 compile_gen e He NULL NULL err err eq_refl) as (n0 & En0 & _ & _ & _ & Hem).
  assert (n0 = set_sibling n' NULL) as ->.
  { pose proof (check_set_sibling (node_of e (statements_of es)) 0 err) as E.
    by rewrite set_sibling_node_of, En0, En in E. }
  exists n'. split; [done|]. split; [by rewrite Hnull|].
  destruct n' as [|nt dt idt v id child sib']; [done|]. simpl in Hsib. subst sib'.
  specialize (Hem [] emits_ret). rewrite app_nil_r in Hem. simpl.
  destruct es as [|e' es]; simpl gen_statements in Hs |- *.
  - assert (is_null sib = true) as -> by (by apply Hn). simpl.
    rewrite <-(app_nil_r (gen e)). apply emits_bind; [done|]. by apply (emits_bind _ _ []).
  - assert (is_null sib = false) as -> by (by apply not_true_iff_false; intros ?%Hn).
    apply emits_bind; [done|]. apply (emits_bind _ _ [_]); [by apply emits_op|done].
Qed.

End correct.

(** ** Types *)

Lemma load_as_width w m a v : load w m a = Some v -> as_width w v = v.
Proof.
  unfold load. destruct (load_le _ m a); intros [= <-]. apply as_width_idem.
Qed.

Lemma step_var_width vars gv o i m v v' m' :
  step_var vars gv o i m = Some (v, v', m') ->
  as_width (default Dword (type_width (var_type_of vars i))) v = v /\
  as_width (default Dword (type_width (var_type_of vars i))) v' = v'.
Proof.
  unfold step_var. destruct (type_width _) as [w|]; [|done]. simpl.
  destruct (load w m _) as [x|] eqn:El; [|done]. simpl.
  destruct (c_binop _ x 1) as [r|]; [|done]. simpl.
  destruct (store w _ r m) as [m1|]; [|done]. simpl.
  destruct (load Dword m1 _); [|done]. intros [= <- <- <-].
  split; [by eapply load_as_width|apply as_width_idem].
Qed.

(** A value fills no more than its width. *)
Lemma eval_width vars gv call e m v m' :
  eval vars gv call e m = Some (v, m') -> as_width (result_width vars e) v = v.
Proof.
  unfold result_width. destruct e; simpl; intros H;
    repeat match type of H with
    | mbind _ ?o = Some _ =>
        let E := fresh "E" in destruct o as [?|] eqn:E; [simpl in H|done]
    | (let '(_, _) := ?p in _) = Some _ => destruct p; simpl in H
    end; simplify_eq/=; try apply as_width_idem;
    try (apply (as_width_idem Byte)); try (apply (as_width_idem Dword)); try done.
  - by eapply load_as_width.
  - by eapply (load_as_width Dword).
  - by destruct (step_var_width _ _ _ _ _ _ _ _ E).
  - by destruct (step_var_width _ _ _ _ _ _ _ _ E).
Qed.

(** C13. The type check of the shell is sound: on the tree of a well-typed expression it reports
    no error and annotates the root with the data type of the expression's width, and a
    value that the evaluator gives is one of that width. *)
Theorem finsh_type_check_sound vars global_variable call e w errno m v m' :
  well_typed vars global_variable e = true -> width_of vars e = Some w ->
  eval vars global_variable call e m = Some (v, m') ->
  exists n, finsh_type_check vars (node_of e NULL) 0 errno = (n, errno) /\
    node_data_type n = width_data_type w /\ as_width w v = v.
Proof.
  intros Ht Hw He.
  destruct (proj1 (compile_gen vars global_variable) e Ht NULL NULL errno errno eq_refl)
    as (n & En & _ & Hn & _).
  exists n. split; [done|]. split; [by apply Hn|].
  apply eval_width in He. unfold result_width in He. by rewrite Hw in He.
Qed.

Lemma finsh_type_check_sound_witness :
  exists n, finsh_type_check [Var [120] finsh_type_short] (node_of (EVar (LVar 0)) NULL) 0 0 = (n, 0) /\
    node_data_type n = 2 /\ as_width Word (-2) = -2.
Proof.
  apply (finsh_type_check_sound [Var [120] finsh_type_short] 1000 (fun _ _ _ => None) (EVar (LVar 0))
    Word 0 {[1020 := 254; 1021 := 255]} (-2) {[1020 := 254; 1021 := 255]}); reflexivity.
Defined.
