(* ===== verification/FinshRun.v ===== *)
(** * The machine executes the code of an expression

    The second half of the correctness of the shell's compiler: a run of the
    machine over the code [gen e] has the effect of the evaluator. *)

From S2P Require Import Prelude StateM Finsh FinshVm FinshCompiler FinshExpr FinshCorrect.

(** ** The program counter only moves forward *)

Definition pc_mono {A} (o : V A) : Prop :=
  forall s a s', o s = Some (a, s') -> finsh_pc s <= finsh_pc s'.

Lemma pc_ret {A} (a : A) : pc_mono (mret a).
Proof. intros s a' s' [= <- <-]. lia. Qed.

Lemma pc_bind {A B} (m : V A) (f : A -> V B) : pc_mono m -> (forall a, pc_mono (f a)) -> pc_mono (m ≫= f).
Proof.
  intros Hm Hf s b s' (a & s1 & E1 & E2)%bind_inv. apply Hm in E1. apply Hf in E2. lia.
Qed.

Lemma pc_sget {A} (f : vm -> A) : pc_mono (sget f).
Proof. intros s a s' [= <- <-]. lia. Qed.

Lemma pc_slift {A} (o : option A) : pc_mono (slift o).
Proof. intros s a s'. unfold slift. destruct o; intros [= <- <-]. lia. Qed.

Lemma pc_supd f : (forall s, finsh_pc s <= finsh_pc (f s)) -> pc_mono (supd f).
Proof. intros H s a s' [= <- <-]. apply H. Qed.

Ltac pc_solve := repeat first [apply pc_ret | apply pc_sget | apply pc_slift | apply pc_bind; intros
  | apply pc_supd; intros; simpl; lia].

Lemma pc_cell i : pc_mono (cell i).
Proof. unfold cell. pc_solve. Qed.

Lemma pc_set_cell i v : pc_mono (set_cell i v).
Proof. unfold set_cell. apply pc_bind; [apply pc_cell|]. intros. pc_solve. Qed.

Lemma pc_read_cell w i : pc_mono (read_cell w i).
Proof. unfold read_cell. apply pc_bind; [apply pc_cell|]. intros. pc_solve. Qed.

Lemma pc_write_cell w i v : pc_mono (write_cell w i v).
Proof. unfold write_cell. apply pc_bind; [apply pc_cell|]. intros. apply pc_set_cell. Qed.

Lemma pc_push w v : pc_mono (push w v).
Proof.
  unfold push. apply pc_bind; [pc_solve|]. intros. apply pc_bind; [apply pc_write_cell|]. intros.
  pc_solve.
Qed.

(** ** The stack *)

Lemma zlookup_insert_ne {A} (l : list A) i j v :
  0 <= i -> i <> j -> zlookup (<[Z.to_nat i := v]> l) j = zlookup l j.
Proof.
  intros Hi Hne. unfold zlookup. destruct (Z.leb_spec 0 j); [|done].
  apply list_lookup_insert_ne. lia.
Qed.

Lemma zlookup_insert_eq {A} (l : list A) i (v v0 : A) :
  zlookup l i = Some v0 -> zlookup (<[Z.to_nat i := v]> l) i = Some v.
Proof.
  unfold zlookup. destruct (Z.leb_spec 0 i); [|done]. intros Hl%lookup_lt_Some.
  by apply list_lookup_insert_eq.
Qed.

(** The cells below [sp] are the same. *)
Definition keep (st : list Z) (sp : Z) (st' : list Z) : Prop :=
  length st' = length st /\ forall i, i < sp -> zlookup st' i = zlookup st i.

Lemma keep_refl st sp : keep st sp st.
Proof. done. Qed.

Lemma keep_trans st sp st' sp' st'' :
  keep st sp st' -> keep st' sp' st'' -> sp <= sp' -> keep st sp st''.
Proof.
  intros [L1 H1] [L2 H2] Hle. split; [congruence|]. intros i Hi. rewrite H2 by lia. by apply H1.
Qed.

Lemma keep_insert st sp i v : 0 <= i -> sp <= i -> keep st sp (<[Z.to_nat i := v]> st).
Proof.
  intros Hi Hle. split; [apply length_insert|]. intros j Hj. apply zlookup_insert_ne; lia.
Qed.

Lemma keep_set st sp st' i v :
  keep st sp st' -> 0 <= sp -> i = sp -> keep st sp (<[Z.to_nat i := v]> st').
Proof. intros K H0 ->. eapply (keep_trans _ _ _ sp); [done|apply keep_insert; lia|lia]. Qed.

Lemma write_cell_eq w i v c st sp pc m :
  zlookup st i = Some c ->
  write_cell w i v (Vm st sp pc m) =
    Some (tt, Vm (<[Z.to_nat i := cell_set w v c]> st) sp pc m).
Proof.
  intros E. unfold write_cell, set_cell, cell, mbind, ST_bind, sget, slift, supd. simpl.
  rewrite E. simpl. by rewrite E.
Qed.

Lemma read_cell_eq w i c st sp pc m :
  zlookup st i = Some c -> read_cell w i (Vm st sp pc m) = Some (as_width w c, Vm st sp pc m).
Proof. intros E. unfold read_cell, cell, mbind, ST_bind, sget, slift. simpl. by rewrite E. Qed.

Lemma cell_eq i c st sp pc m :
  zlookup st i = Some c -> cell i (Vm st sp pc m) = Some (c, Vm st sp pc m).
Proof. intros E. unfold cell, mbind, ST_bind, sget, slift. simpl. by rewrite E. Qed.

Lemma push_eq w v c st sp pc m :
  zlookup st sp = Some c ->
  push w v (Vm st sp pc m) =
    Some (tt, Vm (<[Z.to_nat sp := cell_set w v c]> st) (sp + 1) pc m).
Proof.
  intros E. unfold push. rewrite (bind_Some _ _ _ _ _ eq_refl). simpl.
  by rewrite (bind_Some _ _ _ _ _ (write_cell_eq _ _ _ _ _ _ _ _ E)).
Qed.

Section run.

Context (text : list Z) (call : Z -> list Z -> memory -> option (Z * memory)).

Lemma fetch_eq n s v :
  text_le text n (finsh_pc s) = Some v ->
  fetch text n s = Some (v, set_pc (finsh_pc s + Z.of_nat n) s).
Proof.
  intros E. unfold fetch. rewrite (bind_Some _ _ _ _ _ eq_refl).
  by rewrite (bind_Some _ _ _ _ _ (slift_Some _ _ _ E)).
Qed.

Lemma fetch_inv n s v s' :
  fetch text n s = Some (v, s') -> s' = set_pc (finsh_pc s + Z.of_nat n) s.
Proof.
  unfold fetch. intros (pc & s1 & [= <- <-] & E)%bind_inv.
  apply bind_inv in E as (v' & s2 & E1 & E2). unfold slift in E1.
  destruct (text_le text n (finsh_pc s)); [|done]. injection E1 as <- <-.
  by injection E2 as <- <-.
Qed.

Lemma pc_fetch n : pc_mono (fetch text n).
Proof. intros s v s' ->%fetch_inv. simpl. lia. Qed.

Lemma pc_pop_parameters n l : pc_mono (pop_parameters n l).
Proof.
  revert l. induction n as [|n IH]; intros l; simpl; [pc_solve|].
  apply pc_bind; [pc_solve|]. intros. apply pc_bind; [apply pc_cell|]. intros.
  apply pc_bind; [pc_solve|]. intros. apply IH.
Qed.

Ltac pc_op := repeat first [apply pc_fetch | apply pc_cell | apply pc_read_cell | apply pc_write_cell
  | apply pc_push | apply pc_pop_parameters | apply pc_ret | apply pc_sget | apply pc_slift
  | apply pc_bind; intros | apply pc_supd; intros; simpl; lia].

Lemma pc_op_table op o : op_table text call op = Some o -> pc_mono o.
Proof.
  unfold op_table. intros Hin%list_elem_of_lookup_2. revert o Hin.
  apply Forall_forall. repeat apply Forall_cons_2; [..|apply Forall_nil_2];
    unfold OP_no_op, OP_BIN, OP_bw, OP_ld, OP_ld_value, OP_st, OP_pop, OP_call, OP_ld_value_stack;
    pc_op.
Qed.

Lemma vm_step_pc s s' : vm_step text call s = Some (tt, s') -> finsh_pc s < finsh_pc s'.
Proof.
  unfold vm_step. intros (op & s1 & ->%fetch_inv & E)%bind_inv.
  apply bind_inv in E as (o & s2 & E1 & E2). unfold slift in E1.
  destruct (op_table text call op) as [o'|] eqn:Eo; simplify_eq/=.
  apply (pc_op_table _ _ Eo) in E2. simpl in E2. lia.
Qed.

(** A round of the machine while the program counter is inside the text. *)
Definition vstep (s s' : vm) : Prop :=
  0 <= finsh_pc s < FINSH_TEXT_MAX /\ vm_step text call s = Some (tt, s').

Lemma vm_loop_steps s s' fuel :
  rtc vstep s s' -> FINSH_TEXT_MAX <= finsh_pc s + Z.of_nat fuel ->
  exists fuel', vm_loop text call fuel s = vm_loop text call fuel' s' /\
    FINSH_TEXT_MAX <= finsh_pc s' + Z.of_nat fuel'.
Proof.
  intros Hs. revert fuel. induction Hs as [s|s s1 s' [Hpc Hstep] _ IH]; intros fuel Hf; [eauto|].
  destruct fuel as [|fuel]; [lia|]. destruct (IH fuel) as (fuel' & E & Hf').
  { apply vm_step_pc in Hstep. lia. }
  exists fuel'. split; [|done]. rewrite <-E. simpl. rewrite (bind_Some _ _ _ _ _ eq_refl).
  destruct (Z.leb_spec 0 (finsh_pc s)), (Z.ltb_spec (finsh_pc s) FINSH_TEXT_MAX); try lia.
  simpl. by rewrite (bind_Some _ _ _ _ _ Hstep).
Qed.

(** ** The text *)

Definition code_at (pc : Z) (bs : list Z) : Prop :=
  exists pre post, text = pre ++ bs ++ post /\ pc = Z.of_nat (length pre).

Lemma code_at_app pc a b :
  code_at pc (a ++ b) -> code_at pc a /\ code_at (pc + Z.of_nat (length a)) b.
Proof.
  intros (pre & post & E & ->). split.
  - exists pre, (b ++ post). by rewrite E, <-app_assoc.
  - exists (pre ++ a), post. rewrite E, length_app, <-!app_assoc. split; [done|lia].
Qed.

Lemma code_at_cons pc b bs : code_at pc (b :: bs) -> zlookup text pc = Some b /\ code_at (pc + 1) bs.
Proof.
  intros H. split; [|by apply (code_at_app pc [b] bs)].
  destruct H as (pre & post & E & ->). unfold zlookup.
  destruct (Z.leb_spec 0 (Z.of_nat (length pre))); [|lia].
  by rewrite E, Nat2Z.id, lookup_app_r, Nat.sub_diag by lia.
Qed.

Lemma code_at_range pc b bs :
  length text = Z.to_nat FINSH_TEXT_MAX -> code_at pc (b :: bs) -> 0 <= pc < FINSH_TEXT_MAX.
Proof.
  intros Hl (pre & post & E & ->). rewrite E, !length_app in Hl.
  change (Z.to_nat FINSH_TEXT_MAX) with 128%nat in Hl. unfold FINSH_TEXT_MAX. simpl in Hl. lia.
Qed.

Lemma code_at_le n pc v bs :
  code_at pc (le_bytes n v ++ bs) -> text_le text n pc = Some (wrap (8 * Z.of_nat n) v).
Proof.
  revert pc v. induction n as [|n IH]; intros pc v H; simpl.
  - unfold wrap. by rewrite Z.mod_1_r.
  - apply code_at_cons in H as [E H]. rewrite E. simpl. rewrite (IH _ _ H). simpl.
    by rewrite wrap_bytes.
Qed.

Lemma code_at_dword pc v bs : code_at pc (dword_bytes v ++ bs) -> text_le text 4 pc = Some (u32 v).
Proof. intros H. rewrite (code_at_le _ _ _ _ H). f_equal. by apply wrap_idem. Qed.

(** ** Single instructions *)

Context (Htext : length text = Z.to_nat FINSH_TEXT_MAX).

Lemma vstep_op op o st sp pc m s' bs :
  code_at pc (op :: bs) -> op_table text call op = Some o ->
  o (Vm st sp (pc + 1) m) = Some (tt, s') -> vstep (Vm st sp pc m) s'.
Proof.
  intros Hc Ho E. split; [by eapply code_at_range|]. apply code_at_cons in Hc as [Hop _].
  unfold vm_step. erewrite bind_Some; [|apply fetch_eq; simpl; rewrite Hop; reflexivity].
  replace (op + 256 * 0) with op by lia.
  by rewrite (bind_Some _ _ _ _ _ (slift_Some _ _ _ Ho)).
Qed.

Lemma vstep_ld w v c st sp pc m bs :
  code_at pc (FINSH_OP_LD w :: le_bytes (size_of w) v ++ bs) -> zlookup st sp = Some c ->
  vstep (Vm st sp pc m)
    (Vm (<[Z.to_nat sp := cell_set w v c]> st) (sp + 1) (pc + 1 + Z.of_nat (size_of w)) m).
Proof.
  intros Hc E. eapply (vstep_op _ (OP_ld text w)); [done|by destruct w|]. unfold OP_ld.
  apply code_at_cons in Hc as [_ Hc].
  erewrite bind_Some; [|apply fetch_eq, (code_at_le _ _ _ _ Hc)].
  unfold set_pc. simpl. rewrite (push_eq _ _ c) by done. unfold cell_set.
  by rewrite size_bits, wrap_idem by (by destruct w).
Qed.

Lemma vstep_ld_value w a v c st sp pc m bs :
  code_at pc (FINSH_OP_LD_VALUE w :: dword_bytes a ++ bs) -> zlookup st sp = Some c ->
  load w m (u32 a) = Some v ->
  vstep (Vm st sp pc m)
    (Vm (<[Z.to_nat sp := cell_set w v c]> st) (sp + 1) (pc + 5) m).
Proof.
  intros Hc E Hl. eapply (vstep_op _ (OP_ld_value text w)); [done|by destruct w|].
  unfold OP_ld_value. apply code_at_cons in Hc as [_ Hc].
  erewrite bind_Some; [|apply fetch_eq, (code_at_dword _ _ _ Hc)].
  rewrite (bind_Some _ _ _ _ _ eq_refl), (bind_Some _ _ _ _ _ (slift_Some _ _ _ Hl)).
  unfold set_pc. simpl. rewrite (push_eq _ _ c) by done. do 2 f_equal. f_equal. lia.
Qed.

Lemma vstep_bin w op x y r st sp pc m bs :
  code_at pc (FINSH_OP_BIN w op :: bs) ->
  zlookup st (sp - 2) = Some x -> zlookup st (sp - 1) = Some y ->
  c_binop op (as_width w x) (as_width w y) = Some r ->
  vstep (Vm st sp pc m)
    (Vm (<[Z.to_nat (sp - 2) := cell_set w r x]> st) (sp - 1) (pc + 1) m).
Proof.
  intros Hc Ex Ey Hr. eapply (vstep_op _ (OP_BIN w op)); [done|by destruct w, op|]. unfold OP_BIN.
  rewrite (bind_Some _ _ _ _ _ eq_refl), (bind_Some _ _ _ _ _ (read_cell_eq _ _ _ _ _ _ _ Ex)),
    (bind_Some _ _ _ _ _ (read_cell_eq _ _ _ _ _ _ _ Ey)),
    (bind_Some _ _ _ _ _ (slift_Some _ _ _ Hr)).
  by rewrite (bind_Some _ _ _ _ _ (write_cell_eq _ _ _ _ _ _ _ _ Ex)).
Qed.

Lemma vstep_bw w x st sp pc m bs :
  code_at pc (FINSH_OP_BITWISE w :: bs) -> zlookup st (sp - 1) = Some x ->
  vstep (Vm st sp pc m)
    (Vm (<[Z.to_nat (sp - 1) := cell_set w (Z.lnot (as_width w x)) x]> st) sp (pc + 1) m).
Proof.
  intros Hc Ex. eapply (vstep_op _ (OP_bw w)); [done|by destruct w|]. unfold OP_bw.
  rewrite (bind_Some _ _ _ _ _ eq_refl), (bind_Some _ _ _ _ _ (read_cell_eq _ _ _ _ _ _ _ Ex)).
  by apply write_cell_eq.
Qed.

Lemma vstep_ld_value_stack w x v st sp pc m bs :
  code_at pc (FINSH_OP_LD_VALUE_STACK w :: bs) -> zlookup st (sp - 1) = Some x ->
  load w m (u32 x) = Some v ->
  vstep (Vm st sp pc m) (Vm (<[Z.to_nat (sp - 1) := cell_set w v x]> st) sp (pc + 1) m).
Proof.
  intros Hc Ex Hl. eapply (vstep_op _ (OP_ld_value_stack w)); [done|by destruct w|].
  unfold OP_ld_value_stack.
  rewrite (bind_Some _ _ _ _ _ eq_refl), (bind_Some _ _ _ _ _ (cell_eq _ _ _ _ _ _ Ex)),
    (bind_Some _ _ _ _ _ eq_refl), (bind_Some _ _ _ _ _ (slift_Some _ _ _ Hl)).
  by apply write_cell_eq.
Qed.

Lemma vstep_st w x y m' st sp pc m bs :
  code_at pc (FINSH_OP_ST w :: bs) ->
  zlookup st (sp - 2) = Some x -> zlookup st (sp - 1) = Some y ->
  store w (u32 x) (as_width w y) m = Some m' ->
  vstep (Vm st sp pc m) (Vm st (sp - 1) (pc + 1) m').
Proof.
  intros Hc Ex Ey Hs. eapply (vstep_op _ (OP_st w)); [done|by destruct w|]. unfold OP_st.
  rewrite (bind_Some _ _ _ _ _ eq_refl), (bind_Some _ _ _ _ _ (cell_eq _ _ _ _ _ _ Ex)),
    (bind_Some _ _ _ _ _ (read_cell_eq _ _ _ _ _ _ _ Ey)), (bind_Some _ _ _ _ _ eq_refl).
  by rewrite (bind_Some _ _ _ _ _ (slift_Some _ _ _ Hs)).
Qed.

Lemma vstep_pop st sp pc m bs :
  code_at pc (FINSH_OP_POP :: bs) -> vstep (Vm st sp pc m) (Vm st (sp - 1) (pc + 1) m).
Proof. intros Hc. by eapply (vstep_op _ OP_pop). Qed.

(** ** Calls *)

Definition cells_at (st : list Z) (base : Z) (cs : list Z) : Prop :=
  forall i c, cs !! i = Some c -> zlookup st (base + Z.of_nat i) = Some c.

Lemma cells_at_snoc st base cs c :
  cells_at st base (cs ++ [c]) ->
  cells_at st base cs /\ zlookup st (base + Z.of_nat (length cs)) = Some c.
Proof.
  intros H. split.
  - intros i x Hi. apply H. by apply lookup_app_l_Some.
  - apply H. by rewrite lookup_app_r, Nat.sub_diag by lia.
Qed.

Lemma pop_parameters_eq cs acc st base pc m :
  cells_at st base cs ->
  pop_parameters (length cs) acc (Vm st (base + Z.of_nat (length cs) - 1) pc m) =
    Some ((wrap 32 <$> cs) ++ acc, Vm st (base - 1) pc m).
Proof.
  revert acc. induction cs as [|c cs IH] using rev_ind; intros acc H.
  { simpl. by rewrite Z.add_0_r. }
  apply cells_at_snoc in H as [Hcs Hc]. rewrite length_app, Nat.add_comm. simpl.
  replace (base + Z.of_nat (S (length cs)) - 1) with (base + Z.of_nat (length cs)) by lia.
  rewrite (bind_Some _ _ _ _ _ eq_refl). simpl.
  rewrite (bind_Some _ _ _ _ _ (cell_eq _ _ _ _ _ _ Hc)), (bind_Some _ _ _ _ _ eq_refl).
  unfold set_sp. simpl. rewrite IH by done. by rewrite fmap_app, <-app_assoc.
Qed.

Lemma vstep_call n f c cs r m' st sp pc m bs :
  code_at pc (FINSH_OP_SYSCALL :: n :: bs) -> n = Z.of_nat (length cs) -> n <= 16 ->
  zlookup st sp = Some c -> u32 c = f -> cells_at st (sp + 1) cs ->
  call f (if n =? 0 then [0] else wrap 32 <$> cs) m = Some (r, m') ->
  vstep (Vm st (sp + 1 + n) pc m)
    (Vm (<[Z.to_nat sp := cell_set Dword r c]> st) (sp + 1) (pc + 2) m').
Proof.
  intros Hc -> Hn Ec <- Hcs Hr. eapply (vstep_op _ (OP_call text call)); [done..|].
  apply code_at_cons in Hc as [_ [E2 _]%code_at_cons]. unfold OP_call.
  erewrite bind_Some; [|apply fetch_eq; simpl; rewrite E2; reflexivity].
  replace (Z.of_nat (length cs) + 256 * 0) with (Z.of_nat (length cs)) by lia.
  rewrite (bind_Some _ _ _ _ _ eq_refl), (proj2 (Z.leb_le _ _) Hn), (bind_Some _ _ _ _ _ eq_refl).
  unfold set_sp, set_pc. simpl. rewrite Nat2Z.id.
  rewrite (bind_Some _ _ _ _ _ (pop_parameters_eq _ _ _ _ _ _ Hcs)), app_nil_r.
  replace (sp + 1 - 1) with sp by lia. rewrite (bind_Some _ _ _ _ _ eq_refl). simpl.
  rewrite (bind_Some _ _ _ _ _ (cell_eq _ _ _ _ _ _ Ec)), (bind_Some _ _ _ _ _ eq_refl),
    (bind_Some _ _ _ _ _ (slift_Some _ _ _ Hr)), (bind_Some _ _ _ _ _ eq_refl).
  unfold set_memory. simpl. rewrite (push_eq _ _ c) by done. do 2 f_equal. f_equal. lia.
Qed.

(** ** Expressions *)

Context (vars : list finsh_var) (global_variable : Z).

(** The code [bs] takes [d] cells, leaves the value [v] and the memory [m']. *)
Definition runs (bs : list Z) (w : width) (d : Z) (m : memory) (v : Z) (m' : memory) : Prop :=
  forall st sp pc, length st = Z.to_nat FINSH_STACK_MAX -> 0 <= sp -> sp + d <= FINSH_STACK_MAX ->
    code_at pc bs ->
    exists st' c,
      rtc vstep (Vm st sp pc m) (Vm st' (sp + 1) (pc + Z.of_nat (length bs)) m') /\
      keep st sp st' /\ zlookup st' sp = Some c /\ as_width w c = v.

(** The arguments of a call, pushed one after the other. *)
Definition runs_args (bs : list Z) (d : Z) (m : memory) (vs : list Z) (m' : memory) : Prop :=
  forall st sp pc, length st = Z.to_nat FINSH_STACK_MAX -> 0 <= sp -> sp + d <= FINSH_STACK_MAX ->
    code_at pc bs ->
    exists st' cs,
      rtc vstep (Vm st sp pc m)
        (Vm st' (sp + Z.of_nat (length vs)) (pc + Z.of_nat (length bs)) m') /\
      keep st sp st' /\ cells_at st' sp cs /\ wrap 32 <$> cs = vs.

Lemma stack_cell (st : list Z) sp d :
  length st = Z.to_nat FINSH_STACK_MAX -> 0 <= sp -> sp + d <= FINSH_STACK_MAX -> 1 <= d ->
  exists c, zlookup st sp = Some c.
Proof.
  intros Hl H0 H1 Hd. apply zlookup_is_Some. unfold FINSH_STACK_MAX in *. lia.
Qed.

Lemma keep_length st sp st' :
  keep st sp st' -> length st = Z.to_nat FINSH_STACK_MAX -> length st' = Z.to_nat FINSH_STACK_MAX.
Proof. intros [-> _]. done. Qed.

Lemma code_at_nil_r pc bs : code_at pc bs -> code_at pc (bs ++ []).
Proof. by rewrite app_nil_r. Qed.

(** An instruction that pushes. *)
Lemma runs_ld w v m : runs (FINSH_OP_LD w :: le_bytes (size_of w) v) w 1 m (as_width w v) m.
Proof.
  intros st sp pc Hl H0 H1 Hc. destruct (stack_cell st sp 1 Hl H0 H1) as [c E]; [lia|].
  eexists _, _. split; [|split; [|split]].
  - apply rtc_once. eapply eq_ind_r; [by eapply vstep_ld; [apply (code_at_nil_r _ _ Hc)|]|].
    simpl. rewrite le_bytes_length. f_equal. lia.
  - apply keep_insert; lia.
  - by eapply zlookup_insert_eq.
  - apply as_width_cell_set.
Qed.

Lemma runs_ld_value w a v m :
  load w m (u32 a) = Some v -> runs (FINSH_OP_LD_VALUE w :: dword_bytes a) w 1 m v m.
Proof.
  intros Hv st sp pc Hl H0 H1 Hc. destruct (stack_cell st sp 1 Hl H0 H1) as [c E]; [lia|].
  eexists _, _. split; [|split; [|split]].
  - apply rtc_once. by eapply vstep_ld_value; [apply (code_at_nil_r _ _ Hc)| |].
  - apply keep_insert; lia.
  - by eapply zlookup_insert_eq.
  - rewrite as_width_cell_set. by apply load_as_width in Hv.
Qed.

(** Two operands, one above the other. *)
Lemma two_operands bs1 bs2 w1 w2 d1 d2 m m1 m2 x y :
  runs bs1 w1 d1 m x m1 -> runs bs2 w2 d2 m1 y m2 ->
  forall st sp pc, length st = Z.to_nat FINSH_STACK_MAX -> 0 <= sp ->
    sp + Z.max d1 (1 + d2) <= FINSH_STACK_MAX -> code_at pc (bs1 ++ bs2) ->
    exists st2 c1 c2,
      rtc vstep (Vm st sp pc m) (Vm st2 (sp + 2) (pc + Z.of_nat (length (bs1 ++ bs2))) m2) /\
      keep st sp st2 /\ zlookup st2 sp = Some c1 /\ zlookup st2 (sp + 1) = Some c2 /\
      as_width w1 c1 = x /\ as_width w2 c2 = y.
Proof.
  intros H1 H2 st sp pc Hl H0 Hd [Hc1 Hc2]%code_at_app.
  destruct (H1 st sp pc Hl H0 ltac:(lia) Hc1) as (st1 & c1 & R1 & K1 & E1 & V1).
  destruct (H2 st1 (sp + 1) (pc + Z.of_nat (length bs1))) as (st2 & c2 & R2 & K2 & E2 & V2);
    [by eapply keep_length|lia|lia|done|].
  exists st2, c1, c2. split_and!; try done.
  - etransitivity; [exact R1|]. rewrite length_app, Nat2Z.inj_add, Z.add_assoc.
    by replace (sp + 2) with (sp + 1 + 1) by lia.
  - eapply keep_trans; [done..|lia].
  - rewrite (proj2 K2) by lia. done.
Qed.

Lemma u32_cell c v : as_width Dword c = v -> u32 c = u32 v.
Proof. intros <-. symmetry. apply (wrap_as_width Dword). Qed.

Ltac pc_eq := rewrite ?length_app; simpl; lia.

Lemma runs_bin op bs1 bs2 w w2 d1 d2 m m1 m2 x y r :
  runs bs1 w d1 m x m1 -> runs bs2 w2 d2 m1 y m2 -> bits w <= bits w2 ->
  c_binop op x (as_width w y) = Some r ->
  runs (bs1 ++ bs2 ++ [FINSH_OP_BIN w op]) w (Z.max d1 (1 + d2)) m (as_width w r) m2.
Proof.
  intros H1 H2 Hw Hr st sp pc Hl H0 Hd Hc. rewrite app_assoc in Hc |- *.
  apply code_at_app in Hc as [Hc Ho].
  destruct (two_operands _ _ _ _ _ _ _ _ _ _ _ H1 H2 st sp pc Hl H0 Hd Hc)
    as (st2 & c1 & c2 & R & K & E1 & E2 & V1 & V2).
  eexists _, _. split; [|split; [|split]].
  - etransitivity; [exact R|]. apply rtc_once. eapply eq_ind_r.
    + eapply (vstep_bin w op c1 c2); [exact Ho|by replace (sp + 2 - 2) with sp by lia| |].
      * by replace (sp + 2 - 1) with (sp + 1) by lia.
      * rewrite V1, <-(as_width_narrow w w2 c2) by done. by rewrite V2.
    + f_equal; [lia|pc_eq].
  - apply keep_set; [done|done|lia].
  - replace (sp + 2 - 2) with sp by lia. by eapply zlookup_insert_eq.
  - apply as_width_cell_set.
Qed.

Lemma runs_store w wl bs1 bs2 w2 d1 d2 m m1 m2 m3 x y l :
  runs bs1 Dword d1 m x m1 -> runs bs2 w2 d2 m1 y m2 -> bits w <= bits w2 ->
  store w (u32 x) y m2 = Some m3 -> load wl m3 (u32 x) = Some l ->
  runs (bs1 ++ bs2 ++ [FINSH_OP_ST w; FINSH_OP_LD_VALUE_STACK wl]) wl (Z.max d1 (1 + d2)) m l m3.
Proof.
  intros H1 H2 Hw Hs Hld st sp pc Hl H0 Hd Hc. rewrite app_assoc in Hc |- *.
  apply code_at_app in Hc as [Hc Ho].
  destruct (two_operands _ _ _ _ _ _ _ _ _ _ _ H1 H2 st sp pc Hl H0 Hd Hc)
    as (st2 & c1 & c2 & R & K & E1 & E2 & V1%u32_cell & V2).
  eexists _, _. split; [|split; [|split]].
  - etransitivity; [exact R|]. eapply rtc_l.
    + eapply (vstep_st w c1 c2); [exact Ho|by replace (sp + 2 - 2) with sp by lia| |].
      * by replace (sp + 2 - 1) with (sp + 1) by lia.
      * rewrite V1. rewrite <-Hs. apply store_as_width.
        rewrite as_width_idem, <-(as_width_narrow w w2 c2) by done. by rewrite V2.
    + apply rtc_once. replace (sp + 2 - 1) with (sp + 1) by lia. eapply eq_ind_r.
      * eapply (vstep_ld_value_stack wl c1); [by apply code_at_cons in Ho as [_ Ho]| |by rewrite V1].
        by replace (sp + 1 - 1) with sp by lia.
      * f_equal. pc_eq.
  - apply keep_set; [done|done|lia].
  - replace (sp + 1 - 1) with sp by lia. by eapply zlookup_insert_eq.
  - rewrite as_width_cell_set. by apply load_as_width in Hld.
Qed.

Lemma runs_not bs w d m x m1 :
  runs bs w d m x m1 -> runs (bs ++ [FINSH_OP_BITWISE w]) w d m (as_width w (Z.lnot x)) m1.
Proof.
  intros H1 st sp pc Hl H0 Hd [Hc Ho]%code_at_app.
  destruct (H1 st sp pc Hl H0 Hd Hc) as (st1 & c & R & K & E & V).
  eexists _, _. split; [|split; [|split]].
  - etransitivity; [exact R|]. apply rtc_once. eapply eq_ind_r.
    + eapply (vstep_bw w c); [exact Ho|by replace (sp + 1 - 1) with sp by lia].
    + f_equal. pc_eq.
  - apply keep_set; [done|done|lia].
  - replace (sp + 1 - 1) with sp by lia. by eapply zlookup_insert_eq.
  - by rewrite as_width_cell_set, V.
Qed.

Lemma runs_deref bs d m x m1 v :
  runs bs Dword d m x m1 -> load Dword m1 (u32 x) = Some v ->
  runs (bs ++ [FINSH_OP_LD_VALUE_STACK Dword]) Dword d m v m1.
Proof.
  intros H1 Hld st sp pc Hl H0 Hd [Hc Ho]%code_at_app.
  destruct (H1 st sp pc Hl H0 Hd Hc) as (st1 & c & R & K & E & V%u32_cell).
  eexists _, _. split; [|split; [|split]].
  - etransitivity; [exact R|]. apply rtc_once. eapply eq_ind_r.
    + eapply (vstep_ld_value_stack Dword c); [exact Ho| |by rewrite V].
      by replace (sp + 1 - 1) with sp by lia.
    + f_equal. pc_eq.
  - apply keep_set; [done|done|lia].
  - replace (sp + 1 - 1) with sp by lia. by eapply zlookup_insert_eq.
  - rewrite as_width_cell_set. by apply load_as_width in Hld.
Qed.

Lemma one_bytes_eq w : one_bytes w = FINSH_OP_LD w :: le_bytes (size_of w) 1.
Proof. by destruct w. Qed.

(** The variable's new value, above its address. *)
Lemma runs_stepped o w a v r m :
  load w m (u32 a) = Some v -> c_binop (step_binop o) v 1 = Some r ->
  runs ((FINSH_OP_LD_VALUE w :: dword_bytes a) ++ one_bytes w ++ [FINSH_OP_BIN w (step_binop o)])
    w 2 m (as_width w r) m.
Proof.
  intros Hv Hr. rewrite one_bytes_eq. change 2 with (Z.max 1 (1 + 1)).
  eapply runs_bin; [by apply runs_ld_value|apply runs_ld|done|].
  rewrite as_width_idem. by destruct w.
Qed.

Lemma runs_ld_dword a m : runs (FINSH_OP_LD Dword :: dword_bytes a) Dword 1 m (i32 a) m.
Proof. rewrite <-(swrap_wrap 32 a) by lia. apply runs_ld. Qed.

Lemma runs_pre o w a v r m m' l :
  load w m (u32 a) = Some v -> c_binop (step_binop o) v 1 = Some r ->
  store w (u32 a) r m = Some m' -> load Dword m' (u32 a) = Some l ->
  runs ((FINSH_OP_LD Dword :: dword_bytes a) ++
        (FINSH_OP_LD_VALUE w :: dword_bytes a) ++ one_bytes w ++
        [FINSH_OP_BIN w (step_binop o); FINSH_OP_ST w; FINSH_OP_LD_VALUE_STACK Dword])
    Dword 3 m l m'.
Proof.
  intros Hv Hr Hs Hl.
  pose proof (runs_store w Dword _ _ _ _ _ _ _ _ m' _ _ l (runs_ld_dword a m)
    (runs_stepped o w a v r m Hv Hr)) as H.
  change (Z.max 1 (1 + 2)) with 3 in H. rewrite u32_i32 in H. rewrite <-!app_assoc in H.
  apply H; [lia| |done]. rewrite <-Hs. apply store_as_width, as_width_idem.
Qed.

Lemma runs_post o w a v r m m' :
  load w m (u32 a) = Some v -> c_binop (step_binop o) v 1 = Some r ->
  store w (u32 a) r m = Some m' ->
  runs ((FINSH_OP_LD_VALUE w :: dword_bytes a) ++ (FINSH_OP_LD Dword :: dword_bytes a) ++
        (FINSH_OP_LD_VALUE w :: dword_bytes a) ++ one_bytes w ++
        [FINSH_OP_BIN w (step_binop o); FINSH_OP_ST w; FINSH_OP_POP])
    w 4 m v m'.
Proof.
  intros Hv Hr Hs st sp pc Hl H0 Hd [Hc1 Hc2]%code_at_app.
  destruct (runs_ld_value w a v m Hv st sp pc Hl H0 ltac:(lia) Hc1) as (st1 & c & R1 & K1 & E1 & V1).
  set (bs := (FINSH_OP_LD_VALUE w :: dword_bytes a) ++ one_bytes w ++
    [FINSH_OP_BIN w (step_binop o)]).
  assert ((FINSH_OP_LD Dword :: dword_bytes a) ++ (FINSH_OP_LD_VALUE w :: dword_bytes a) ++
    one_bytes w ++ [FINSH_OP_BIN w (step_binop o); FINSH_OP_ST w; FINSH_OP_POP] =
    ((FINSH_OP_LD Dword :: dword_bytes a) ++ bs) ++ [FINSH_OP_ST w; FINSH_OP_POP]) as Eb.
  { unfold bs. by rewrite <-!app_assoc. }
  rewrite Eb in Hc2 |- *. apply code_at_app in Hc2 as [Hc2 Hc3].
  destruct (two_operands _ _ _ _ _ _ _ _ _ _ _ (runs_ld_dword a m)
    (runs_stepped o w a v r m Hv Hr) st1 (sp + 1) _ (keep_length _ _ _ K1 Hl) ltac:(lia) ltac:(lia) Hc2)
    as (st2 & c1 & c2 & R2 & K2 & E2 & E3 & V2%u32_cell & V3). fold bs in R2.
  rewrite u32_i32 in V2. pose proof Hc3 as [_ Hc4]%code_at_cons.
  exists st2, c. split; [|split; [|split]].
  - etransitivity; [exact R1|]. etransitivity; [exact R2|]. eapply rtc_l.
    + eapply (vstep_st w c1 c2); [exact Hc3|by replace (sp + 1 + 2 - 2) with (sp + 1) by lia| |].
      * by replace (sp + 1 + 2 - 1) with (sp + 1 + 1) by lia.
      * rewrite V2, <-Hs, V3. apply store_as_width, as_width_idem.
    + apply rtc_once. eapply eq_ind_r; [exact (vstep_pop _ _ _ _ _ Hc4)|].
      f_equal; [lia|]. rewrite !length_app. simpl. lia.
  - eapply keep_trans; [done..|lia].
  - rewrite (proj2 K2) by lia. done.
  - done.
Qed.

Lemma runs_narrow bs w w2 d m v m' :
  runs bs w2 d m v m' -> bits w <= bits w2 -> runs bs w d m (as_width w v) m'.
Proof.
  intros H Hw st sp pc Hl H0 Hd Hc. destruct (H st sp pc Hl H0 Hd Hc) as (st' & c & R & K & E & V).
  exists st', c. split_and!; try done. rewrite <-V. symmetry. by apply as_width_narrow.
Qed.

Lemma load_le_narrow n k m a v :
  load_le (n + k) m a = Some v ->
  exists v', load_le n m a = Some v' /\ wrap (8 * Z.of_nat n) v' = wrap (8 * Z.of_nat n) v.
Proof.
  revert a v. induction n as [|n IH]; intros a v; simpl.
  - intros _. exists 0. split; [done|]. unfold wrap. by rewrite !Z.mod_1_r.
  - destruct (m !! a) as [b|]; [|done]. simpl. destruct (load_le (n + k) m (a + 1)) as [r|] eqn:E; [|done].
    simpl. intros [= <-]. destruct (IH _ _ E) as (r' & -> & Er). simpl. eexists. split; [done|].
    rewrite !wrap_bytes. f_equal; [rewrite !(Z.mul_comm 256), !Z.mod_add by lia; done|].
    f_equal. rewrite !(Z.mul_comm 256), !Z.div_add by lia. unfold wrap in *.
    by rewrite Zplus_mod, Er, <-Zplus_mod.
Qed.

Lemma load_narrow w m a v : load Dword m a = Some v -> load w m a = Some (as_width w v).
Proof.
  unfold load. destruct (load_le (size_of Dword) m a) as [x|] eqn:E; [|done]. intros [= <-].
  destruct (load_le_narrow (size_of w) (4 - size_of w) m a x) as (x' & -> & Ex); [by destruct w|].
  simpl. f_equal. change (i32 x) with (as_width Dword x).
  rewrite (as_width_narrow w Dword) by (by destruct w).
  apply as_width_eq. by rewrite <-size_bits.
Qed.

Lemma cells_at_keep st sp st' base cs :
  keep st sp st' -> base + Z.of_nat (length cs) <= sp -> cells_at st base cs -> cells_at st' base cs.
Proof.
  intros [_ K] Hle H i c Hi. pose proof (lookup_lt_Some _ _ _ Hi). rewrite K by lia. by apply H.
Qed.

Lemma runs_call f bs d m vs m1 r m2 n :
  addr_ok f = true -> 0 <= d -> runs_args bs d m vs m1 -> n = Z.of_nat (length vs) -> n <= 16 ->
  call f (match vs with [] => [0] | _ => vs end) m1 = Some (r, m2) ->
  runs ((FINSH_OP_LD Dword :: dword_bytes f) ++ bs ++ [FINSH_OP_SYSCALL; n]) Dword (1 + d) m (i32 r) m2.
Proof.
  intros [Hf1%Z.leb_le Hf2%Z.ltb_lt]%andb_true_iff Hd0 H -> Hn Hr st sp pc Hl H0 Hd [Hc1 Hc2]%code_at_app.
  pose proof Hc2 as [Hc2' Hc3]%code_at_app.
  destruct (runs_ld_dword f m st sp pc Hl H0 ltac:(lia) Hc1) as (st1 & c & R1 & K1 & E1 & V1%u32_cell).
  rewrite u32_i32, (wrap_small 32 f) in V1 by done.
  destruct (H st1 (sp + 1) _ (keep_length _ _ _ K1 Hl) ltac:(lia) ltac:(lia) Hc2')
    as (st2 & cs & R2 & K2 & Hcs & Evs).
  assert (zlookup st2 sp = Some c) as E2 by (rewrite (proj2 K2) by lia; done).
  assert (length cs = length vs) as El by (by rewrite <-Evs, length_fmap).
  eexists _, _. split; [|split; [|split]].
  - etransitivity; [exact R1|]. etransitivity; [exact R2|]. apply rtc_once. eapply eq_ind_r.
    + eapply (vstep_call _ f c cs r m2); [exact Hc3|by rewrite El|done..|].
      rewrite Evs, <-Hr. destruct vs; [done|]. by destruct (Z.eqb_spec (Z.of_nat (length (z :: vs))) 0).
    + f_equal. rewrite !length_app. simpl. lia.
  - apply keep_set; [|done|done]. eapply keep_trans; [done..|lia].
  - by eapply zlookup_insert_eq.
  - apply (as_width_cell_set Dword).
Qed.

Abbreviation typed := (well_typed vars global_variable).
Abbreviation typed_args := (well_typed_args vars global_variable).
Abbreviation gen := (gen vars global_variable).
Abbreviation gen_args := (gen_args vars global_variable).
Abbreviation eval := (eval vars global_variable call).
Abbreviation eval_args := (eval_args vars global_variable call).

Lemma depth_pos :
  (forall e, 1 <= depth e) /\ (forall es, 0 <= args_depth es).
Proof. apply expr_exprs_ind; simpl; intros; lia. Qed.

Lemma eval_args_length es m vs m' :
  eval_args es m = Some (vs, m') -> Z.of_nat (length vs) = args_count es.
Proof.
  revert m vs m'. induction es as [|e es IH]; intros m vs m'; simpl.
  - by intros [= <- <-].
  - destruct (eval e m) as [[v m1]|]; [|done]. simpl.
    destruct (eval_args es m1) as [[vs' m2]|] eqn:E; [|done]. simpl. intros [= <- <-].
    simpl. rewrite <-(IH _ _ _ E). lia.
Qed.

Lemma runs_args_cons bs1 bs2 w d1 d2 m v m1 vs m2 :
  w = Dword -> runs bs1 w d1 m v m1 -> runs_args bs2 d2 m1 vs m2 ->
  runs_args (bs1 ++ bs2) (Z.max d1 (1 + d2)) m (u32 v :: vs) m2.
Proof.
  intros -> H1 H2 st sp pc Hl H0 Hd [Hc1 Hc2]%code_at_app.
  destruct (H1 st sp pc Hl H0 ltac:(lia) Hc1) as (st1 & c & R1 & K1 & E1 & V1%u32_cell).
  destruct (H2 st1 (sp + 1) _ (keep_length _ _ _ K1 Hl) ltac:(lia) ltac:(lia) Hc2)
    as (st2 & cs & R2 & K2 & Hcs & Evs).
  exists st2, (c :: cs). split; [|split; [|split]].
  - etransitivity; [exact R1|]. eapply eq_ind_r; [exact R2|]. rewrite length_app. simpl.
    f_equal; lia.
  - eapply keep_trans; [done..|lia].
  - intros [|i] x Hx; simpl in Hx.
    + injection Hx as <-. rewrite Z.add_0_r, (proj2 K2) by lia. done.
    + apply Hcs in Hx. rewrite <-Hx. f_equal. lia.
  - by rewrite fmap_cons, V1, Evs.
Qed.

Abbreviation rw e := (result_width vars e).

Lemma width_leb_le w w' : width_leb w w' = true -> bits w <= bits w'.
Proof. apply Z.leb_le. Qed.

Lemma bits_dword w : bits w <= bits Dword.
Proof. by destruct w. Qed.

Lemma addr_ok_u32 a : addr_ok a = true -> u32 a = a.
Proof. intros [H1%Z.leb_le H2%Z.ltb_lt]%andb_true_iff. by apply wrap_small. Qed.

Ltac ok_cases := repeat match goal with
  | H : _ && _ = true |- _ => apply andb_true_iff in H as [? ?]
  | H : bool_decide _ = true |- _ => apply bool_decide_eq_true in H
  | H : width_leb _ _ = true |- _ => apply width_leb_le in H
  | H : (match ?x with Some _ => _ | None => _ end) = true |- _ => destruct x eqn:?; [|discriminate]
  end.

(** Takes apart a chain of binds that succeeds. *)
Ltac opt_cases H :=
  repeat (simpl in H; match type of H with
  | (?o ≫= _) = Some _ => let E := fresh "E" in destruct o as [[? ?]|] eqn:E; [|discriminate H]
  | (?o ≫= _) = Some _ => let E := fresh "E" in destruct o eqn:E; [|discriminate H]
  end); simpl in H.

Lemma step_var_runs o i m v v' m' w :
  type_width (var_type_of vars i) = Some w -> addr_ok (var_value_addr global_variable i) = true ->
  step_var vars global_variable o i m = Some (v, v', m') ->
  exists r l, let a := var_value_addr global_variable i in
    load w m (u32 a) = Some v /\ c_binop (step_binop o) v 1 = Some r /\
    store w (u32 a) r m = Some m' /\ load Dword m' (u32 a) = Some l /\
    v' = as_width w l.
Proof.
  intros Hw Ha%addr_ok_u32. unfold step_var. rewrite Hw. simpl. rewrite Ha.
  destruct (load w m _) as [x|]; [|done]. simpl.
  destruct (c_binop (step_binop o) x 1) as [r|] eqn:Er; [|done]. simpl.
  destruct (store w _ r m) as [m1|] eqn:Es; [|done]. simpl.
  destruct (load Dword m1 _) as [l|] eqn:El; [|done]. simpl. intros [= <- <- <-].
  exists r, l. split_and!; try done. apply load_store in Es. apply (load_narrow w) in El. congruence.
Qed.

Lemma gen_runs :
  (forall e, typed e = true -> forall m v m', eval e m = Some (v, m') ->
     runs (gen e) (rw e) (depth e) m v m') /\
  (forall es, typed_args es = true -> forall m vs m', eval_args es m = Some (vs, m') ->
     runs_args (gen_args es) (args_depth es) m vs m').
Proof.
  apply expr_exprs_ind;
    cbn [FinshCorrect.gen FinshCorrect.gen_args well_typed well_typed_args FinshExpr.eval
         FinshExpr.eval_args depth args_depth].
  - intros c _ m v m' [= <- <-]. apply (runs_ld Byte).
  - intros n _ m v m' [= <- <-]. apply runs_ld_dword.
  - intros n _ m v m' [= <- <-]. apply runs_ld_dword.
  - intros _ m v m' [= <- <-]. apply (runs_ld_dword 0).
  - intros x Ht m v m' H. ok_cases. unfold lvalue_ok in Ht. ok_cases. opt_cases H.
    injection H as <- <-. unfold result_width. simpl. rewrite E. simpl.
    apply runs_ld_value. by rewrite addr_ok_u32.
  - intros op a IHa b IHb Ht m v m' H. ok_cases. opt_cases H. simplify_eq.
    assert (rw a = w) as Hrw by (unfold result_width; by rewrite Heqo).
    change (rw (EBin op a b)) with (rw a). rewrite Hrw.
    eapply runs_bin; [|by apply IHb|done|done]. rewrite <-Hrw. by apply IHa.
  - intros a IHa Ht m v m' H. ok_cases. opt_cases H. simplify_eq.
    change (rw (ENot a)) with (rw a).
    assert (w = rw a) as -> by (unfold result_width; by rewrite E).
    apply runs_not. by apply IHa.
  - intros x a IHa Ht m v m' H. unfold lvalue_ok in Ht. ok_cases. opt_cases H. simplify_eq.
    unfold result_width. cbn [width_of]. rewrite Heqo. simpl default.
    replace (1 + depth a) with (Z.max 1 (1 + depth a)) by (pose proof (proj1 depth_pos a); lia).
    eapply runs_store; [apply runs_ld_dword|by apply IHa|done| |];
      rewrite u32_i32, addr_ok_u32 by done; [done|].
    by eapply load_store.
  - intros p IHp a IHa Ht m v m' H. unfold dword in Ht. ok_cases. opt_cases H. simplify_eq.
    unfold result_width at 1. simpl default.
    eapply runs_store; [|by apply IHa| |done|].
    + unfold result_width in IHp. rewrite H3 in IHp. by apply IHp.
    + by rewrite H1.
    + by apply (load_store Dword _ _ _ _ E1).
  - intros p IHp Ht m v m' H. unfold dword in Ht. ok_cases. opt_cases H. simplify_eq.
    eapply runs_deref; [|done]. unfold result_width in IHp. rewrite H1 in IHp. by apply IHp.
  - intros x Ht m v m' H. simplify_eq. apply runs_ld_dword.
  - intros o i Ht m v m' H. unfold lvalue_ok in Ht. ok_cases. destruct H0 as [w Hw].
    opt_cases H. destruct p as [v0 v1]. simplify_eq. simpl in Hw, H1.
    destruct (step_var_runs _ _ _ _ _ _ _ Hw H1 E) as (r & l & El & Er & Es & El' & ->).
    unfold result_width. cbn [width_of]. rewrite Hw. simpl default.
    apply (runs_narrow _ w Dword); [|apply bits_dword]. by eapply runs_pre.
  - intros o i Ht m v m' H. unfold lvalue_ok in Ht. ok_cases. destruct H0 as [w Hw].
    opt_cases H. destruct p as [v0 v1]. simplify_eq. simpl in Hw, H1.
    destruct (step_var_runs _ _ _ _ _ _ _ Hw H1 E) as (r & l & El & Er & Es & El' & ->).
    unfold result_width. cbn [width_of]. rewrite Hw. simpl default. by eapply runs_post.
  - intros f args IH Ht m v m' H. ok_cases. opt_cases H. simplify_eq.
    apply (runs_call _ _ _ _ l g); [done|apply depth_pos|by apply IH| |by apply Z.leb_le|done].
    symmetry. by eapply eval_args_length.
  - intros _ m vs m' [= <- <-] st sp pc Hl H0 Hd Hc. exists st, []. simpl. rewrite !Z.add_0_r.
    split_and!; done.
  - intros e IHe es IHes Ht m vs m' H. ok_cases. opt_cases H. simplify_eq.
    eapply runs_args_cons; [done|by apply IHe|by apply IHes].
Qed.

(** ** Programs *)

Abbreviation gen_statements := (gen_statements vars global_variable).
Abbreviation eval_statements := (eval_statements vars global_variable call).

(** The last statement gives the result. *)
Definition last_width (es : list expr) : width := default Dword (result_width vars <$> last es).

Lemma runs_statements es m v m' st pc :
  Forall (fun e => typed e = true) es -> Forall (fun e => depth e <= FINSH_STACK_MAX) es ->
  eval_statements es m = Some (v, m') ->
  length st = Z.to_nat FINSH_STACK_MAX -> code_at pc (gen_statements es) ->
  exists st' c, rtc vstep (Vm st 0 pc m) (Vm st' 1 (pc + Z.of_nat (length (gen_statements es))) m') /\
    length st' = length st /\ zlookup st' 0 = Some c /\ as_width (last_width es) c = v.
Proof.
  intros Ht Hd. revert m st pc. induction es as [|e es IH]; intros m st pc He Hl Hc; [done|].
  apply Forall_cons in Ht as [Ht Hts], Hd as [Hd Hds]. destruct es as [|e' es].
  - destruct (proj1 gen_runs e Ht m v m' He st 0 pc Hl ltac:(lia) ltac:(lia) Hc)
      as (st' & c & R & K & E & V). destruct K. eauto 6.
  - simpl in He. destruct (eval e m) as [[x m1]|] eqn:Ee; [|done]. simpl in He.
    apply code_at_app in Hc as [Hc1 Hc2].
    destruct (proj1 gen_runs e Ht m x m1 Ee st 0 pc Hl ltac:(lia) ltac:(lia) Hc1)
      as (st1 & c1 & R1 & K1 & _ & _).
    pose proof Hc2 as [_ Hc3]%code_at_cons.
    destruct (IH Hts Hds m1 st1 _ He (keep_length _ _ _ K1 Hl) Hc3) as (st' & c & R2 & L & E & V).
    exists st', c. split; [|destruct K1; by rewrite L]. etransitivity; [exact R1|]. eapply rtc_l; [exact (vstep_pop _ _ _ _ _ Hc2)|].
    eapply eq_ind_r; [exact R2|]. f_equal. change (FinshCorrect.gen_statements vars global_variable (e :: e' :: es))
      with (gen e ++ [FINSH_OP_POP] ++ gen_statements (e' :: es)). rewrite !length_app. simpl length. lia.
Qed.

(** Behind the program the text is zero: no operations. *)
Lemma runs_no_ops n st sp pc m :
  code_at pc (replicate n 0) -> rtc vstep (Vm st sp pc m) (Vm st sp (pc + Z.of_nat n) m).
Proof.
  revert pc. induction n as [|n IH]; intros pc Hc; [by rewrite Z.add_0_r|].
  eapply rtc_l; [by eapply (vstep_op 0 OP_no_op)|]. apply code_at_cons in Hc as [_ Hc].
  replace (pc + Z.of_nat (S n)) with (pc + 1 + Z.of_nat n) by lia. by apply IH.
Qed.

Lemma vm_run_rtc st sp pc m s' :
  rtc vstep (Vm st 0 0 m) s' -> finsh_pc s' = FINSH_TEXT_MAX ->
  finsh_vm_run text call (Vm st sp pc m) = Some (tt, s').
Proof.
  intros R Hp. unfold finsh_vm_run.
  rewrite (StateM.bind_Some _ _ _ _ _ eq_refl), (StateM.bind_Some _ _ _ _ _ eq_refl).
  change (vm_loop text call (Z.to_nat FINSH_TEXT_MAX) (Vm st 0 0 m) = Some (tt, s')).
  destruct (vm_loop_steps _ _ (Z.to_nat FINSH_TEXT_MAX) R) as (fuel & -> & _); [done|].
  destruct fuel; simpl; rewrite (StateM.bind_Some _ _ _ _ _ eq_refl), Hp; done.
Qed.

End run.

Lemma compile_run vars global_variable call es m v m' st sp pc :
  Forall (fun e => well_typed vars global_variable e = true) es ->
  Forall (fun e => depth e <= FINSH_STACK_MAX) es ->
  Z.of_nat (length (gen_statements vars global_variable es)) <= FINSH_TEXT_MAX ->
  length st = Z.to_nat FINSH_STACK_MAX ->
  eval_statements vars global_variable call es m = Some (v, m') ->
  exists c st' b,
    finsh_compiler_run vars global_variable (statements_of es) FINSH_ERROR_OK = Some c /\
    global_errno c = FINSH_ERROR_OK /\
    finsh_vm_run (text_segment c) call (Vm st sp pc m) = Some (tt, Vm st' 1 FINSH_TEXT_MAX m') /\
    length st' = length st /\ head st' = Some b /\ as_width (last_width vars es) b = v.
Proof.
  intros Ht Hd Hlen Hst He.
  destruct (compile_statements_gen vars global_variable es Ht FINSH_ERROR_OK) as (n & En & _ & Hem).
  set (bs := gen_statements vars global_variable es) in *.
  set (c0 := Code (replicate (Z.to_nat FINSH_TEXT_MAX) 0) 0 FINSH_ERROR_OK).
  assert (text_segment (write bs c0) = bs ++ replicate (128 - length bs) 0) as Etext.
  { unfold c0. rewrite (write_text bs [] (replicate (Z.to_nat FINSH_TEXT_MAX) 0)).
    - by rewrite drop_replicate.
    - rewrite length_replicate. unfold FINSH_TEXT_MAX in *. lia. }
  assert (length (text_segment (write bs c0)) = Z.to_nat FINSH_TEXT_MAX) as Hl.
  { rewrite Etext, length_app, length_replicate. unfold FINSH_TEXT_MAX in *. lia. }
  assert (code_at (text_segment (write bs c0)) 0 (bs ++ replicate (128 - length bs) 0)) as Hc.
  { exists [], []. by rewrite app_nil_r. }
  apply code_at_app in Hc as [Hc1 Hc2].
  destruct (runs_statements _ call Hl vars global_variable es m v m' st 0 Ht Hd He Hst Hc1)
    as (st' & b & R & L & Eb & Vb).
  exists (write bs c0), st', b. split_and!.
  - unfold finsh_compiler_run. rewrite En. fold c0. by rewrite (Hem c0).
  - by rewrite write_errno.
  - apply vm_run_rtc; [|done]. etransitivity; [exact R|].
    eapply eq_ind_r; [exact (runs_no_ops _ call Hl _ st' 1 _ m' Hc2)|].
    f_equal. fold bs. unfold FINSH_TEXT_MAX in *. lia.
  - done.
  - unfold zlookup in Eb. simpl in Eb. by destruct st'.
  - done.
Qed.

(** C10. The compiler and the virtual machine of the shell together implement the reference
    evaluator: for well-typed statements whose code fits into the text segment and whose
    operands fit on the stack, [finsh_compiler_run] reports no error, and [finsh_vm_run]
    terminates with the value of the last statement in the lowest cell of the stack and
    the memory that the evaluator gives. *)
Theorem finsh_compile_correct vars global_variable call es m v m' st sp pc :
  Forall (fun e => well_typed vars global_variable e = true) es ->
  Forall (fun e => depth e <= FINSH_STACK_MAX) es ->
  Z.of_nat (length (gen_statements vars global_variable es)) <= FINSH_TEXT_MAX ->
  length st = Z.to_nat FINSH_STACK_MAX ->
  eval_statements vars global_variable call es m = Some (v, m') ->
  exists c st' b,
    finsh_compiler_run vars global_variable (statements_of es) FINSH_ERROR_OK = Some c /\
    global_errno c = FINSH_ERROR_OK /\
    finsh_vm_run (text_segment c) call (Vm st sp pc m) = Some (tt, Vm st' 1 FINSH_TEXT_MAX m') /\
    head st' = Some b /\ as_width (last_width vars es) b = v.
Proof.
  intros Ht Hd Hlen Hst He.
  destruct (compile_run vars global_variable call es m v m' st sp pc Ht Hd Hlen Hst He)
    as (c & st' & b & ? & ? & ? & _ & ? & ?). by exists c, st', b.
Qed.

(** More rounds change nothing. *)
Lemma vm_loop_enough text call n k s :
  FINSH_TEXT_MAX - finsh_pc s <= Z.of_nat n -> vm_loop text call (n + k) s = vm_loop text call n s.
Proof.
  revert s. induction n as [|n IH]; intros s Hn.
  - destruct k as [|k]; [done|]. simpl. rewrite !(StateM.bind_Some _ _ _ _ _ eq_refl).
    by replace (finsh_pc s <? FINSH_TEXT_MAX) with false by lia; rewrite andb_false_r.
  - simpl. rewrite !(StateM.bind_Some _ _ _ _ _ eq_refl). destruct (_ && _); [|done].
    unfold mbind, ST_bind. destruct (vm_step text call s) as [[[] s']|] eqn:E; [|done].
    apply IH. apply vm_step_pc in E. lia.
Qed.

(** The virtual machine terminates on every text segment, also on one that the compiler did
    not make: every round moves the program counter forward, so [FINSH_TEXT_MAX] rounds
    are enough and any number of further rounds gives the same result. *)
Theorem finsh_vm_terminates text call k s :
  finsh_vm_run text call s =
  vm_loop text call (Z.to_nat FINSH_TEXT_MAX + k) (set_pc 0 (set_sp 0 s)).
Proof.
  unfold finsh_vm_run. rewrite !(StateM.bind_Some _ _ _ _ _ eq_refl).
  by rewrite (vm_loop_enough text call (Z.to_nat FINSH_TEXT_MAX) k).
Qed.

(** [x = 2 + 3 * 4; x - 1;] for the first variable, an int at address 1020. *)
Definition example_vars : list finsh_var := Var [120] finsh_type_int :: replicate 7 finsh_var_empty.
Definition example_statements : list expr :=
  [EAssign (LVar 0) (EBin Add (EInt 2) (EBin Mul (EInt 3) (EInt 4)));
   EBin Sub (EVar (LVar 0)) (EInt 1)].
Definition example_memory : memory :=
  list_to_map [(1020, 0); (1021, 0); (1022, 0); (1023, 0)].

Lemma finsh_compile_correct_witness :
  exists c st' b m',
    finsh_compiler_run example_vars 1000 (statements_of example_statements) FINSH_ERROR_OK = Some c /\
    global_errno c = FINSH_ERROR_OK /\
    finsh_vm_run (text_segment c) (fun _ _ _ => None) (Vm (replicate 64 7) 0 0 example_memory)
      = Some (tt, Vm st' 1 FINSH_TEXT_MAX m') /\
    head st' = Some b /\ as_width (last_width example_vars example_statements) b = 13.
Proof.
  destruct (eval_statements example_vars 1000 (fun _ _ _ => None) example_statements example_memory)
    as [[v m']|] eqn:E; [|vm_compute in E; discriminate E].
  assert (v = 13) as -> by (vm_compute in E; congruence).
  destruct (finsh_compile_correct example_vars 1000 (fun _ _ _ => None) example_statements example_memory
    13 m' (replicate 64 7) 0 0) as (c & st' & b & H1 & H2 & H3 & H4 & H5).
  - repeat constructor.
  - repeat constructor; vm_compute; discriminate.
  - vm_compute. discriminate.
  - reflexivity.
  - exact E.
  - exists c, st', b, m'. auto.
Defined.
