(* ===== verification/FinshHeap.v ===== *)
(** * The heap for strings of the shell: components/finsh/finsh_heap.c

    Block headers are a map from their offset in [finsh_heap] to their length
    and [next] pointer; the free blocks and the allocated ones are two lists
    linked through the headers, in the order of addresses.  [None] is the
    dereference of a null pointer.  Every loop follows [next] pointers; the
    number of headers is enough fuel. *)

From S2P Require Import Prelude.

Definition FINSH_HEAP_MAX : Z := 128.
Definition HEAP_ALIGN_SIZE (size : Z) : Z := ((size + 3) / 4) * 4.
Definition sizeof_block_header : Z := 8.

Record finsh_block_header := Block { blk_length : Z; blk_next : option Z }.

Record finsh_heap := FinshHeap {
  blocks : gmap Z finsh_block_header;
  free_list : option Z;
  allocate_list : option Z
}.

Definition set_blocks x h := FinshHeap x (free_list h) (allocate_list h).
Definition set_free_list x h := FinshHeap (blocks h) x (allocate_list h).
Definition set_allocate_list x h := FinshHeap (blocks h) (free_list h) x.

Definition upd_block (p : Z) (f : finsh_block_header -> finsh_block_header) (h : finsh_heap) :
    option finsh_heap :=
  b ← blocks h !! p; Some (set_blocks (<[p := f b]> (blocks h)) h).

Definition set_next (n : option Z) (b : finsh_block_header) := Block (blk_length b) n.
Definition set_length (n : Z) (b : finsh_block_header) := Block n (blk_next b).

Definition finsh_heap_init : finsh_heap :=
  FinshHeap {[0 := Block (FINSH_HEAP_MAX - sizeof_block_header) None]} (Some 0) None.

(** The two lists, as places that hold the pointer to the first block. *)
Inductive which := Free | Allocated.

Definition list_head (w : which) (h : finsh_heap) : option Z :=
  match w with Free => free_list h | Allocated => allocate_list h end.
Definition set_list_head (w : which) (x : option Z) (h : finsh_heap) : finsh_heap :=
  match w with Free => set_free_list x h | Allocated => set_allocate_list x h end.

(** [p > header] for a pointer that may be null. *)
Definition ptr_gt (p : option Z) (header : Z) : bool :=
  match p with Some p => header <? p | None => false end.

(** The block behind which [header] goes. *)
Fixpoint insert_point (fuel : nat) (node header : Z) (h : finsh_heap) : option Z :=
  b ← blocks h !! node;
  if ptr_gt (blk_next b) header then Some node
  else match blk_next b with
       | None => Some node
       | Some next => match fuel with O => None | S fuel => insert_point fuel next header h end
       end.

Definition heap_fuel (h : finsh_heap) : nat := size (blocks h).

Definition finsh_block_insert (w : which) (header : Z) (h : finsh_heap) : option finsh_heap :=
  match list_head w h with
  | None => Some (set_list_head w (Some header) h)
  | Some first =>
      if header <? first then
        h ← upd_block header (set_next (Some first)) h;
        Some (set_list_head w (Some header) h)
      else
        node ← insert_point (heap_fuel h) first header h;
        b ← blocks h !! node;
        h ← (match blk_next b with
             | Some n => upd_block header (set_next (Some n)) h
             | None => Some h
             end);
        upd_block node (set_next (Some header)) h
  end.

(** The block in front of [header]; [None] inside when there is none. *)
Fixpoint previous (fuel : nat) (node : option Z) (header : Z) (h : finsh_heap) : option (option Z) :=
  match node with
  | None => Some None
  | Some n =>
      b ← blocks h !! n;
      if bool_decide (blk_next b = Some header) then Some (Some n)
      else match fuel with O => None | S fuel => previous fuel (blk_next b) header h end
  end.

Definition finsh_block_remove (w : which) (header : Z) (h : finsh_heap) : option finsh_heap :=
  b ← blocks h !! header;
  if bool_decide (list_head w h = Some header) then
    upd_block header (set_next None) (set_list_head w (blk_next b) h)
  else
    p ← previous (heap_fuel h) (list_head w h) header h;
    match p with
    | Some node => upd_block node (set_next (blk_next b)) h
    | None => Some h
    end.

Definition finsh_block_split (header size : Z) (h : finsh_heap) : option finsh_heap :=
  b ← blocks h !! header;
  let next := header + sizeof_block_header + size in
  let h := set_blocks (<[next := Block (u32 (blk_length b - sizeof_block_header - size)) (blk_next b)]>
             (blocks h)) h in
  upd_block header (fun _ => Block size (Some next)) h.

(** The block [a] ends where [b] begins. *)
Definition adjacent (a : Z) (ab : finsh_block_header) (b : Z) : bool :=
  a + blk_length ab + sizeof_block_header =? b.

Definition finsh_block_merge (w : which) (header : Z) (h : finsh_heap) : option finsh_heap :=
  b ← blocks h !! header;
  prev ← (if bool_decide (list_head w h = Some header) then Some None
          else previous (heap_fuel h) (list_head w h) header h);
  let merges_next := match blk_next b with Some n => adjacent header b n | None => false end in
  match prev with
  | Some p =>
      pb ← blocks h !! p;
      if adjacent p pb header then
        match (if merges_next then blk_next b else None) with
        | Some n =>
            nb ← blocks h !! n;
            upd_block p (fun _ => Block (u32 (blk_length pb + (blk_length b + blk_length nb +
              2 * sizeof_block_header))) (blk_next nb)) h
        | None =>
            upd_block p (fun _ => Block (u32 (blk_length pb + (blk_length b + sizeof_block_header)))
              (blk_next b)) h
        end
      else
        match (if merges_next then blk_next b else None) with
        | Some n =>
            nb ← blocks h !! n;
            upd_block header (fun _ => Block (u32 (blk_length b + (blk_length nb + sizeof_block_header)))
              (blk_next nb)) h
        | None => Some h
        end
  | None =>
      match (if merges_next then blk_next b else None) with
      | Some n =>
          nb ← blocks h !! n;
          upd_block header (fun _ => Block (u32 (blk_length b + (blk_length nb + sizeof_block_header)))
            (blk_next nb)) h
      | None => Some h
      end
  end.

(** [header] is the offset of the block's header. *)
Definition finsh_heap_free (header : Z) (h : finsh_heap) : option finsh_heap :=
  h ← finsh_block_remove Allocated header h;
  h ← finsh_block_insert Free header h;
  finsh_block_merge Free header h.

(** [pinned header]: some variable holds the address of the block's data. *)
Fixpoint gc_loop (fuel : nat) (pinned : Z -> bool) (header : option Z) (h : finsh_heap) :
    option finsh_heap :=
  match header with
  | None => Some h
  | Some p =>
      b ← blocks h !! p;
      h ← (if pinned p then Some h else finsh_heap_free p h);
      match fuel with O => None | S fuel => gc_loop fuel pinned (blk_next b) h end
  end.

Definition finsh_heap_gc (pinned : Z -> bool) (h : finsh_heap) : option finsh_heap :=
  gc_loop (S (heap_fuel h)) pinned (allocate_list h) h.

(** The first free block whose length satisfies [f]. *)
Fixpoint first_fit (fuel : nat) (f : Z -> bool) (header : option Z) (h : finsh_heap) : option (option Z) :=
  match header with
  | None => Some None
  | Some p =>
      b ← blocks h !! p;
      if f (blk_length b) then Some (Some p)
      else match fuel with O => None | S fuel => first_fit fuel f (blk_next b) h end
  end.

(** The result is the offset of the data, [None] inside when there is no memory. *)
Definition finsh_heap_allocate (pinned : Z -> bool) (size : Z) (h : finsh_heap) :
    option (option Z * finsh_heap) :=
  let size := HEAP_ALIGN_SIZE size in
  let take header h :=
    h ← finsh_block_split header size h;
    h ← finsh_block_remove Free header h;
    h ← upd_block header (set_next None) h;
    h ← finsh_block_insert Allocated header h;
    Some (Some (header + sizeof_block_header), h) in
  header ← first_fit (heap_fuel h) (fun l => size + sizeof_block_header <? l) (free_list h) h;
  match header with
  | Some header => take header h
  | None =>
      h ← finsh_heap_gc pinned h;
      header ← first_fit (heap_fuel h) (fun l => size + sizeof_block_header <=? l) (free_list h) h;
      match header with
      | Some header => take header h
      | None => Some (None, h)
      end
  end.
