(* ===== verification/FinshToken.v ===== *)
(** * The lexer of the shell: components/finsh/finsh_token.c

    The state is the structure [finsh_token] and the global error number.  The
    line is the sequence of its characters without the terminating null.
    [None] is a write behind a buffer.  Every loop reads a character in each
    round and ends at the end of the line, so the length of the line is enough
    fuel. *)

From S2P Require Import Prelude StateM Finsh.

(** ** Tokens *)

(** [finsh_token_none] is the number 0, before the first token. *)
Inductive finsh_token_type :=
  | finsh_token_none
  | finsh_token_type_left_paren | finsh_token_type_right_paren
  | finsh_token_type_comma | finsh_token_type_semicolon
  | finsh_token_type_mul | finsh_token_type_add | finsh_token_type_inc
  | finsh_token_type_sub | finsh_token_type_dec | finsh_token_type_div
  | finsh_token_type_mod | finsh_token_type_assign
  | finsh_token_type_and | finsh_token_type_or | finsh_token_type_xor
  | finsh_token_type_bitwise | finsh_token_type_shl | finsh_token_type_shr
  | finsh_token_type_comments
  | finsh_token_type_void | finsh_token_type_char | finsh_token_type_short
  | finsh_token_type_int | finsh_token_type_long | finsh_token_type_unsigned
  | finsh_token_type_value_char | finsh_token_type_value_int | finsh_token_type_value_long
  | finsh_token_type_value_string | finsh_token_type_value_null
  | finsh_token_type_identifier | finsh_token_type_bad | finsh_token_type_eof.

#[export] Instance finsh_token_type_eq_dec : EqDecision finsh_token_type.
Proof. solve_decision. Defined.

(** [tok_value] is the 32-bit pattern of the union, [tok_string] the buffer. *)
Record finsh_token := Token {
  tok_eof : bool;
  tok_replay : bool;
  tok_position : Z;
  tok_current : finsh_token_type;
  tok_value : Z;
  tok_string : list Z;
  tok_line : list Z
}.

Definition set_eof x t := Token x (tok_replay t) (tok_position t) (tok_current t) (tok_value t) (tok_string t) (tok_line t).
Definition set_replay x t := Token (tok_eof t) x (tok_position t) (tok_current t) (tok_value t) (tok_string t) (tok_line t).
Definition set_position x t := Token (tok_eof t) (tok_replay t) x (tok_current t) (tok_value t) (tok_string t) (tok_line t).
Definition set_current x t := Token (tok_eof t) (tok_replay t) (tok_position t) x (tok_value t) (tok_string t) (tok_line t).
Definition set_value x t := Token (tok_eof t) (tok_replay t) (tok_position t) (tok_current t) x (tok_string t) (tok_line t).
Definition set_string x t := Token (tok_eof t) (tok_replay t) (tok_position t) (tok_current t) (tok_value t) x (tok_line t).

(** The characters of a buffer up to the first null. *)
Fixpoint c_string (buf : list Z) : list Z :=
  match buf with
  | [] => []
  | c :: buf => if c =? 0 then [] else c :: c_string buf
  end.

(** ** The state of the lexer *)

Abbreviation L := (ST (finsh_token * Z)).

Definition tget {A} (f : finsh_token -> A) : L A := sget (fun s => f s.1).
Definition tupd (f : finsh_token -> finsh_token) : L unit := supd (fun s => (f s.1, s.2)).
Definition lex_error (e : Z) : L unit := supd (fun s => (s.1, e)).

Definition finsh_token_init (line : list Z) : finsh_token :=
  Token false false 0 finsh_token_none 0 (replicate (Z.to_nat FINSH_STRING_MAX) 0) line.

Definition finsh_token_replay : L unit := tupd (set_replay true).

(** ** Characters *)

Definition is_alpha (ch : Z) : bool := u32 ((ch |. 0x20) - 97) <? 26.
Definition is_digit (ch : Z) : bool := (48 <=? ch) && (ch <=? 57).
Definition is_separator (ch : Z) : bool :=
  negb (((97 <=? ch) && (ch <=? 122)) || ((65 <=? ch) && (ch <=? 90)) ||
        ((48 <=? ch) && (ch <=? 57)) || (ch =? 95)).

Definition token_next_char : L Z := fun s =>
  let t := s.1 in
  if tok_eof t then Some (0, s)
  else
    match zlookup (tok_line t) (tok_position t) with
    | Some c =>
        if c =? 10 then Some (0, (set_position 0 (set_eof true t), s.2))
        else Some (c, (set_position (tok_position t + 1) t, s.2))
    | None => Some (0, (set_position 0 (set_eof true t), s.2))
    end.

Definition token_prev_char : L unit :=
  tupd (fun t => if tok_eof t then t
                 else if tok_position t =? 0 then t
                 else set_position (tok_position t - 1) t).

(** [while (f(ch) && !eof) { acc[n++] = ch; ch = next }]; the characters and
    the one that ended the loop. *)
Fixpoint take_while (fuel : nat) (f : Z -> bool) (ch : Z) (acc : list Z) : L (list Z * Z) :=
  eof ← tget tok_eof;
  if f ch && negb eof then
    match fuel with
    | O => slift None
    | S fuel => next ← token_next_char; take_while fuel f next (acc ++ [ch])
    end
  else mret (acc, ch).

Definition line_fuel : L nat := tget (fun t => S (S (length (tok_line t)))).

(** The characters and a null are written into a buffer. *)
Definition write_buffer (cs buf : list Z) : option (list Z) := memcpy_at buf 0 (cs ++ [0]).

(** ** Identifiers *)

Definition token_get_string : L unit :=
  ch ← token_next_char;
  eof ← tget tok_eof;
  if (eof : bool) then mret tt
  else
    buf ← tget tok_string;
    tupd (set_string (<[0%nat := 0]> buf));;
    if is_digit ch then token_prev_char
    else
      fuel ← line_fuel;
      r ← take_while fuel (fun c => negb (is_separator c)) ch [];
      tupd (set_eof false);;
      token_prev_char;;
      buf ← tget tok_string;
      buf ← slift (write_buffer r.1 buf);
      tupd (set_string buf).

(** "void", "char", ... *)
Definition finsh_name_table : list (list Z * finsh_token_type) :=
  [([118; 111; 105; 100], finsh_token_type_void);
   ([99; 104; 97; 114], finsh_token_type_char);
   ([115; 104; 111; 114; 116], finsh_token_type_short);
   ([105; 110; 116], finsh_token_type_int);
   ([108; 111; 110; 103], finsh_token_type_long);
   ([117; 110; 115; 105; 103; 110; 101; 100], finsh_token_type_unsigned);
   ([78; 85; 76; 76], finsh_token_type_value_null);
   ([110; 117; 108; 108], finsh_token_type_value_null)].

Definition token_match_name (str : list Z) : option finsh_token_type :=
  snd <$> first_of (fun e => strcmp_eq e.1 str) finsh_name_table.

Fixpoint trim_loop (fuel : nat) : L unit :=
  ch ← token_next_char;
  if (ch =? 32) || (ch =? 9) || (ch =? 13) then
    match fuel with O => slift None | S fuel => trim_loop fuel end
  else mret tt.

Definition token_trim_space : L unit := fuel ← line_fuel; trim_loop fuel;; token_prev_char.

(** ** Characters and strings *)

(** The digits of an escape are stored in a buffer of four, and the number is
    then read from behind them. *)
Fixpoint skip_digits (fuel : nat) (ch : Z) (n : Z) : L Z :=
  if is_digit ch then
    match fuel with
    | O => slift None
    | S fuel => next ← token_next_char; skip_digits fuel next (n + 1)
    end
  else mret n.

Definition escape_of (ch : Z) : option Z :=
  if ch =? 110 then Some 10 else if ch =? 116 then Some 9 else if ch =? 118 then Some 11
  else if ch =? 98 then Some 8 else if ch =? 114 then Some 13 else None.

Definition token_proc_char : L Z :=
  ch ← token_next_char;
  ch ← (if ch =? 92 then
          ch ← token_next_char;
          match escape_of ch with
          | Some c => mret c
          | None =>
              if (ch =? 92) || (ch =? 39) then mret ch
              else
                fuel ← line_fuel;
                n ← skip_digits fuel ch 0;
                slift (if n <? 4 then Some tt else None);;
                token_prev_char;;
                mret 0
          end
        else mret ch);
  next ← token_next_char;
  if next =? 39 then mret ch
  else token_prev_char;; lex_error FINSH_ERROR_EXPECT_CHAR;; mret ch.

(** [while ((ch - '0') < base) result = result * base + ch - '0'] *)
Fixpoint escape_number (fuel : nat) (base ch result : Z) : L Z :=
  if u32 (ch - 48) <? base then
    match fuel with
    | O => slift None
    | S fuel =>
        next ← token_next_char;
        escape_number fuel base next (i32 (result * base + ch - 48))
    end
  else mret result.

Definition token_proc_escape : L Z :=
  ch ← token_next_char;
  match escape_of ch with
  | Some c => mret c
  | None =>
      if ch =? 102 then mret 12
      else if ch =? 97 then mret 7
      else if ch =? 120 then
        ch ← token_next_char;
        fuel ← line_fuel;
        r ← escape_number fuel 16 ch 0;
        token_prev_char;;
        mret r
      else if u32 (ch - 48) <? 8 then
        fuel ← line_fuel;
        r ← escape_number fuel 8 ch 0;
        token_prev_char;;
        mret r
      else mret 0
  end.

(** Up to [n] characters are stored from the index [i] on. *)
Fixpoint proc_string_loop (n : nat) (i : nat) : L unit :=
  match n with
  | O => mret tt
  | S n =>
      ch ← token_next_char;
      eof ← tget tok_eof;
      if (eof : bool) then lex_error FINSH_ERROR_UNEXPECT_END
      else
        let store c := buf ← tget tok_string; tupd (set_string (<[i := c]> buf)) in
        if ch =? 92 then
          c ← token_proc_escape; store (u8 c);; proc_string_loop n (S i)
        else if ch =? 34 then store 0
        else store ch;; proc_string_loop n (S i)
  end.

Definition token_proc_string : L unit := proc_string_loop (Z.to_nat FINSH_STRING_MAX) 0.

(** ** Numbers *)

(** The digit of a character. *)
Definition digit_of (t : Z) : Z :=
  if (97 <=? t) && (t <=? 102) then t - 97 + 10
  else if (65 <=? t) && (t <=? 70) then t - 65 + 10
  else t - 48.

(** One digit is shifted into the 64-bit number [bn]. *)
Definition spec_step (shift : Z) (bn : Z * Z) (c : Z) : Z * Z :=
  let t := u32 (digit_of c) in
  let bn0 := u32 (Z.shiftl bn.1 shift) |. t in
  let t := Z.shiftr bn.1 (32 - shift) in
  let bn1 := u32 (Z.shiftl bn.2 shift) |. t in
  (bn0, bn1).

Definition token_spec_number (string : list Z) (b : Z) : Z :=
  let shift := if b =? 16 then 4 else if b =? 8 then 3 else 1 in
  i32 (fst (foldl (spec_step shift) (0, 0) string)).

Fixpoint decimal_loop (fuel : nat) (ch value : Z) : L (Z * Z) :=
  if is_digit ch then
    match fuel with
    | O => slift None
    | S fuel => next ← token_next_char; decimal_loop fuel next (i32 (value * 10 + (ch - 48)))
    end
  else mret (value, ch).

(** [while (f(ch)) { *p++ = ch; ch = next }], for [f] that the end of the line
    does not satisfy; [buf] has 128 bytes. *)
Fixpoint number_loop (fuel : nat) (f : Z -> bool) (ch : Z) (acc : list Z) : L (list Z * Z) :=
  if f ch then
    match fuel with
    | O => slift None
    | S fuel => next ← token_next_char; number_loop fuel f next (acc ++ [ch])
    end
  else slift (if Z.of_nat (length acc) <? 128 then Some (acc, ch) else None).

Definition token_proc_number : L unit :=
  ch ← token_next_char;
  fuel ← line_fuel;
  ch ← (if ch =? 48 then
          ch ← token_next_char;
          r ← (if (ch =? 120) || (ch =? 88) then
                 ch ← token_next_char;
                 r ← number_loop fuel (fun c => is_digit c || is_alpha c) ch []; mret (r, 16)
               else if (ch =? 98) || (ch =? 66) then
                 ch ← token_next_char;
                 r ← number_loop fuel (fun c => (c =? 48) || (c =? 49)) ch []; mret (r, 2)
               else
                 r ← number_loop fuel is_digit ch []; mret (r, 8));
          let '((buf, ch), b) := r in
          tupd (set_value (u32 (token_spec_number buf b)));;
          tupd (set_current finsh_token_type_value_int);;
          mret ch
        else
          r ← decimal_loop fuel ch 0;
          tupd (set_value (u32 r.1));;
          tupd (set_current finsh_token_type_value_int);;
          mret r.2);
  if (ch =? 108) || (ch =? 76) then tupd (set_current finsh_token_type_value_long)
  else token_prev_char.

(** ** The next token *)

(** A character that may be doubled. *)
Definition token_two (ch : Z) (twice once : finsh_token_type) : L unit :=
  next ← token_next_char;
  if next =? ch then tupd (set_current twice)
  else token_prev_char;; tupd (set_current once).

Definition token_operator (ch : Z) : L unit :=
  if ch =? 40 then tupd (set_current finsh_token_type_left_paren)
  else if ch =? 41 then tupd (set_current finsh_token_type_right_paren)
  else if ch =? 44 then tupd (set_current finsh_token_type_comma)
  else if ch =? 59 then tupd (set_current finsh_token_type_semicolon)
  else if ch =? 38 then tupd (set_current finsh_token_type_and)
  else if ch =? 42 then tupd (set_current finsh_token_type_mul)
  else if ch =? 43 then token_two 43 finsh_token_type_inc finsh_token_type_add
  else if ch =? 45 then token_two 45 finsh_token_type_dec finsh_token_type_sub
  else if ch =? 47 then token_two 47 finsh_token_type_eof finsh_token_type_div
  else if ch =? 60 then token_two 60 finsh_token_type_shl finsh_token_type_bad
  else if ch =? 62 then token_two 62 finsh_token_type_shr finsh_token_type_bad
  else if ch =? 124 then tupd (set_current finsh_token_type_or)
  else if ch =? 37 then tupd (set_current finsh_token_type_mod)
  else if ch =? 126 then tupd (set_current finsh_token_type_bitwise)
  else if ch =? 94 then tupd (set_current finsh_token_type_xor)
  else if ch =? 61 then tupd (set_current finsh_token_type_assign)
  else if ch =? 39 then
    c ← token_proc_char;
    tupd (fun t => set_value ((tok_value t / 256) * 256 + u8 c) t);;
    tupd (set_current finsh_token_type_value_char)
  else if ch =? 34 then
    token_proc_string;;
    tupd (set_current finsh_token_type_value_string)
  else if is_digit ch then token_prev_char;; token_proc_number
  else
    lex_error FINSH_ERROR_UNKNOWN_TOKEN;;
    tupd (set_current finsh_token_type_bad).

Definition token_run : L unit :=
  token_trim_space;;
  token_get_string;;
  eof ← tget tok_eof;
  if (eof : bool) then tupd (set_current finsh_token_type_eof)
  else
    str ← tget (fun t => c_string (tok_string t));
    match str with
    | [] => ch ← token_next_char; token_operator ch
    | _ =>
        match token_match_name str with
        | Some t => tupd (set_current t)
        | None => tupd (set_current finsh_token_type_identifier)
        end
    end.

Definition finsh_token_token : L finsh_token_type :=
  replay ← tget tok_replay;
  (if (replay : bool) then tupd (set_replay false) else token_run);;
  tget tok_current.
