(* ===== verification/FinshParser.v ===== *)
(** * The parser of the shell: components/finsh/finsh_parser.c, finsh_node.c

    Recursive descent with one token of look-ahead: a token that does not fit
    is replayed.  The state holds the lexer, the error number, the table of
    nodes, the variables, the heap for strings and the memory.  [None] is a
    dereference of a null pointer or a read behind a string, or the end of the
    fuel, which counts the nesting of calls and the rounds of loops. *)

From S2P Require Import Prelude StateM Finsh FinshVm FinshCompiler FinshHeap FinshToken.

Record finsh := Shell {
  f_token : finsh_token;
  f_errno : Z;
  f_nodes : list finsh_node_type;
  f_vars : list finsh_var;
  f_heap : finsh_heap;
  f_memory : memory
}.

Definition set_token x s := Shell x (f_errno s) (f_nodes s) (f_vars s) (f_heap s) (f_memory s).
Definition set_errno x s := Shell (f_token s) x (f_nodes s) (f_vars s) (f_heap s) (f_memory s).
Definition set_nodes x s := Shell (f_token s) (f_errno s) x (f_vars s) (f_heap s) (f_memory s).
Definition set_vars x s := Shell (f_token s) (f_errno s) (f_nodes s) x (f_heap s) (f_memory s).
Definition set_heap x s := Shell (f_token s) (f_errno s) (f_nodes s) (f_vars s) x (f_memory s).
Definition set_mem x s := Shell (f_token s) (f_errno s) (f_nodes s) (f_vars s) (f_heap s) x.

Abbreviation P := (ST finsh).

Definition lex {A} (m : L A) : P A := fun s =>
  match m (f_token s, f_errno s) with
  | Some (a, (t, e)) => Some (a, set_errno e (set_token t s))
  | None => None
  end.

Definition error_set (e : Z) : P unit := supd (set_errno e).

(** ** Nodes: finsh_node.c *)

Definition finsh_node_init : list finsh_node_type :=
  replicate (Z.to_nat FINSH_NODE_MAX) FINSH_NODE_UNKNOWN.

(** Whether an entry of the table was free. *)
Definition finsh_node_allocate (nt : finsh_node_type) : P bool :=
  nodes ← sget f_nodes;
  match find_index (fun t => bool_decide (t = FINSH_NODE_UNKNOWN)) nodes 0 with
  | None => mret false
  | Some i => supd (set_nodes (<[Z.to_nat i := nt]> nodes));; mret true
  end.

Definition new_leaf (nt : finsh_node_type) (v : Z) : P finsh_node :=
  ok ← finsh_node_allocate nt;
  if (ok : bool) then mret (Node nt 0 0 v IdNull NULL NULL)
  else error_set FINSH_ERROR_MEMORY_FULL;; mret NULL.

Definition finsh_node_new_char (c : Z) : P finsh_node := new_leaf FINSH_NODE_VALUE_CHAR (u8 c).
Definition finsh_node_new_int (i : Z) : P finsh_node := new_leaf FINSH_NODE_VALUE_INT (u32 i).
Definition finsh_node_new_long (l : Z) : P finsh_node := new_leaf FINSH_NODE_VALUE_LONG (u32 l).
Definition finsh_node_new_ptr (p : Z) : P finsh_node := new_leaf FINSH_NODE_VALUE_NULL (u32 p).

Section parser.

(** The tables of the system, and the addresses of [global_variable] and of
    [finsh_heap]. *)
Context (tables : finsh_tables) (global_variable finsh_heap_addr : Z).

(** A variable holds the address of the data of the block [header]. *)
Definition heap_pinned (vars : list finsh_var) (m : memory) (header : Z) : bool :=
  existsb (fun i =>
    match vars !! i with
    | Some v => bool_decide (var_type v <> finsh_type_unknown) &&
        bool_decide (load_le 4 m (var_value_addr global_variable (Z.of_nat i)) =
                     Some (finsh_heap_addr + header + sizeof_block_header))
    | None => false
    end) (seq 0 (Z.to_nat FINSH_VARIABLE_MAX)).

Fixpoint put_bytes (a : Z) (bs : list Z) (m : memory) : memory :=
  match bs with [] => m | b :: bs => put_bytes (a + 1) bs (<[a := b]> m) end.

(** The block is cleared before the string is copied into it. *)
Definition finsh_node_new_string (str : list Z) : P finsh_node :=
  ok ← finsh_node_allocate FINSH_NODE_VALUE_STRING;
  if (ok : bool) then
    s ← sget id;
    r ← slift (finsh_heap_allocate (heap_pinned (f_vars s) (f_memory s))
                 (Z.of_nat (length str) + 1) (f_heap s));
    supd (set_heap r.2);;
    off ← slift r.1;
    let addr := finsh_heap_addr + off in
    supd (set_mem (put_bytes addr
      (str ++ replicate (Z.to_nat (HEAP_ALIGN_SIZE (Z.of_nat (length str) + 1)) - length str) 0)
      (f_memory s)));;
    mret (Node FINSH_NODE_VALUE_STRING 0 0 (u32 addr) IdNull NULL NULL)
  else error_set FINSH_ERROR_MEMORY_FULL;; mret NULL.

(** An identifier is stored in 17 bytes of which 16 are written: one of 16
    characters has no terminating null, and only the look-up of variables stops
    after 16. *)
Definition terminated (id : list Z) : option (list Z) :=
  if Z.of_nat (length id) <? FINSH_NAME_MAX then Some id else None.

(** The symbol, with its kind. *)
Definition symbol_lookup (vars : list finsh_var) (id : list Z) : option (Z * identifier) :=
  match finsh_var_lookup vars id with
  | Some i => Some (FINSH_IDTYPE_VAR, IdVar i)
  | None =>
      id ← terminated id;
      Some (match finsh_sysvar_lookup tables id with
            | Some v => (FINSH_IDTYPE_SYSVAR, IdSysvar v)
            | None =>
                match finsh_syscall_lookup tables id with
                | Some c => (FINSH_IDTYPE_SYSCALL, IdSyscall c)
                | None => (0, IdNull)
                end
            end)
  end.

Definition finsh_node_new_id (id : list Z) : P finsh_node :=
  vars ← sget f_vars;
  r ← slift (symbol_lookup vars id);
  match r.2 with
  | IdNull => error_set FINSH_ERROR_UNKNOWN_SYMBOL;; mret NULL
  | symbol =>
      ok ← finsh_node_allocate FINSH_NODE_ID;
      if (ok : bool) then mret (Node FINSH_NODE_ID 0 r.1 0 symbol NULL NULL)
      else error_set FINSH_ERROR_MEMORY_FULL;; mret NULL
  end.

(** ** Tokens *)

Definition next_token : P finsh_token_type := lex finsh_token_token.
Definition replay : P unit := lex finsh_token_replay.

Definition check_token (token type : finsh_token_type) : P unit :=
  if bool_decide (token = type) then mret tt
  else error_set FINSH_ERROR_INVALID_TOKEN;; replay.

Definition match_token (type : finsh_token_type) : P unit :=
  token ← next_token; check_token token type.

Definition is_base_type (t : finsh_token_type) : bool :=
  match t with
  | finsh_token_type_void | finsh_token_type_char | finsh_token_type_short
  | finsh_token_type_int | finsh_token_type_long => true
  | _ => false
  end.

Definition make_sys_node (type : finsh_node_type) (node1 node2 : finsh_node) : P finsh_node :=
  ok ← finsh_node_allocate type;
  if negb (is_null node1) && ok then
    mret (Node type 0 0 0 IdNull (set_sibling node1 node2) NULL)
  else
    error_set FINSH_ERROR_NULL_NODE;;
    mret (if (ok : bool) then Node type 0 0 0 IdNull NULL NULL else NULL).

(** ** Types and identifiers *)

Definition base_type (t : finsh_token_type) : option finsh_type :=
  match t with
  | finsh_token_type_void => Some finsh_type_void
  | finsh_token_type_char => Some finsh_type_char
  | finsh_token_type_short => Some finsh_type_short
  | finsh_token_type_int => Some finsh_type_int
  | finsh_token_type_long => Some finsh_type_long
  | _ => None
  end.

Definition unsigned_type (t : finsh_token_type) : option finsh_type :=
  match t with
  | finsh_token_type_char => Some finsh_type_uchar
  | finsh_token_type_short => Some finsh_type_ushort
  | finsh_token_type_int => Some finsh_type_uint
  | finsh_token_type_long => Some finsh_type_ulong
  | _ => None
  end.

Definition pointer_type (t : finsh_type) : finsh_type :=
  match t with
  | finsh_type_char | finsh_type_uchar => finsh_type_charp
  | finsh_type_short | finsh_type_ushort => finsh_type_shortp
  | finsh_type_int | finsh_type_uint => finsh_type_intp
  | finsh_type_long | finsh_type_ulong => finsh_type_longp
  | _ => finsh_type_voidp
  end.

Definition proc_type_error (type : finsh_type) : P finsh_type :=
  replay;; error_set FINSH_ERROR_UNKNOWN_TYPE;; mret type.

Definition proc_pointer (type : finsh_type) : P finsh_type :=
  token ← next_token;
  if bool_decide (token = finsh_token_type_mul) then mret (pointer_type type)
  else replay;; mret type.

Definition proc_type : P finsh_type :=
  token ← next_token;
  match base_type token with
  | Some type => proc_pointer type
  | None =>
      if bool_decide (token = finsh_token_type_unsigned) then
        token ← next_token;
        match unsigned_type token with
        | Some type => proc_pointer type
        | None =>
            if is_base_type token then proc_type_error finsh_type_unknown
            else
              replay;;
              error_set FINSH_ERROR_EXPECT_TYPE;;
              proc_pointer finsh_type_unknown
        end
      else proc_type_error finsh_type_unknown
  end.

Definition proc_identifier : P (list Z) :=
  match_token finsh_token_type_identifier;;
  t ← sget f_token;
  mret (take (Z.to_nat FINSH_NAME_MAX) (c_string (tok_string t))).

(** ** Expressions *)

(** The loop of the left-associative operators. *)
Fixpoint binary_loop (fuel : nat) (sub : P finsh_node)
    (op : finsh_token_type -> option finsh_node_type) (acc : finsh_node) : P finsh_node :=
  token ← next_token;
  match op token with
  | None => replay;; mret acc
  | Some type =>
      match fuel with
      | O => slift None
      | S fuel =>
          new ← sub;
          acc ← (if is_null new then error_set FINSH_ERROR_EXPECT_OPERATOR;; mret acc
                 else make_sys_node type acc new);
          binary_loop fuel sub op acc
      end
  end.

Definition binary_expr (fuel : nat) (sub : P finsh_node)
    (op : finsh_token_type -> option finsh_node_type) : P finsh_node :=
  first ← sub; binary_loop fuel sub op first.

Definition mul_op (t : finsh_token_type) : option finsh_node_type :=
  match t with
  | finsh_token_type_mul => Some FINSH_NODE_SYS_MUL
  | finsh_token_type_div => Some FINSH_NODE_SYS_DIV
  | finsh_token_type_mod => Some FINSH_NODE_SYS_MOD
  | _ => None
  end.
Definition add_op (t : finsh_token_type) : option finsh_node_type :=
  match t with
  | finsh_token_type_sub => Some FINSH_NODE_SYS_SUB
  | finsh_token_type_add => Some FINSH_NODE_SYS_ADD
  | _ => None
  end.
Definition shift_op (t : finsh_token_type) : option finsh_node_type :=
  match t with
  | finsh_token_type_shl => Some FINSH_NODE_SYS_SHL
  | finsh_token_type_shr => Some FINSH_NODE_SYS_SHR
  | _ => None
  end.
Definition and_op (t : finsh_token_type) : option finsh_node_type :=
  match t with finsh_token_type_and => Some FINSH_NODE_SYS_AND | _ => None end.
Definition xor_op (t : finsh_token_type) : option finsh_node_type :=
  match t with finsh_token_type_xor => Some FINSH_NODE_SYS_XOR | _ => None end.
Definition or_op (t : finsh_token_type) : option finsh_node_type :=
  match t with finsh_token_type_or => Some FINSH_NODE_SYS_OR | _ => None end.

Section rec.

(** The recursive calls. *)
Context (fuel : nat) (proc_cast_expr proc_assign_expr : P finsh_node).

Definition proc_multiplicative_expr : P finsh_node := binary_expr fuel proc_cast_expr mul_op.
Definition proc_additive_expr : P finsh_node := binary_expr fuel proc_multiplicative_expr add_op.
Definition proc_shift_expr : P finsh_node := binary_expr fuel proc_additive_expr shift_op.
Definition proc_and_expr : P finsh_node := binary_expr fuel proc_shift_expr and_op.
Definition proc_exclusive_or_expr : P finsh_node := binary_expr fuel proc_and_expr xor_op.
Definition proc_inclusive_or_expr : P finsh_node := binary_expr fuel proc_exclusive_or_expr or_op.

Fixpoint param_loop (fuel : nat) (params : list finsh_node) : P (list finsh_node) :=
  token ← next_token;
  if bool_decide (token = finsh_token_type_comma) then
    match fuel with
    | O => slift None
    | S fuel =>
        assign ← proc_assign_expr;
        if is_null assign then
          error_set FINSH_ERROR_EXPECT_OPERATOR;; param_loop fuel params
        else param_loop fuel (params ++ [assign])
    end
  else replay;; mret params.

(** The nodes as siblings. *)
Definition chain_nodes (ns : list finsh_node) : finsh_node := foldr set_sibling NULL ns.

Definition proc_param_list : P finsh_node :=
  assign ← proc_assign_expr;
  if is_null assign then mret NULL
  else ns ← param_loop fuel [assign]; mret (chain_nodes ns).

Definition proc_primary_expr : P finsh_node :=
  token ← next_token;
  t ← sget f_token;
  match token with
  | finsh_token_type_identifier => replay;; id ← proc_identifier; finsh_node_new_id id
  | finsh_token_type_left_paren =>
      expr ← proc_assign_expr; match_token finsh_token_type_right_paren;; mret expr
  | finsh_token_type_value_int => finsh_node_new_int (tok_value t)
  | finsh_token_type_value_long => finsh_node_new_long (tok_value t)
  | finsh_token_type_value_char => finsh_node_new_char (tok_value t)
  | finsh_token_type_value_string => finsh_node_new_string (c_string (tok_string t))
  | finsh_token_type_value_null => finsh_node_new_ptr 0
  | _ => error_set FINSH_ERROR_INVALID_TOKEN;; mret NULL
  end.

Fixpoint postfix_loop (fuel : nat) (postfix : finsh_node) : P finsh_node :=
  token ← next_token;
  let continue p := match fuel with
                    | O => slift None
                    | S fuel => postfix ← p; postfix_loop fuel postfix
                    end in
  match token with
  | finsh_token_type_inc => continue (make_sys_node FINSH_NODE_SYS_INC postfix NULL)
  | finsh_token_type_dec => continue (make_sys_node FINSH_NODE_SYS_DEC postfix NULL)
  | finsh_token_type_left_paren =>
      continue (
        token ← next_token;
        param_list ←
          (if bool_decide (token = finsh_token_type_right_paren) then mret NULL
           else
             replay;;
             param_list ← proc_param_list;
             match_token finsh_token_type_right_paren;;
             mret param_list);
        make_sys_node FINSH_NODE_SYS_FUNC postfix param_list)
  | _ => replay;; mret postfix
  end.

Definition proc_postfix_expr : P finsh_node :=
  postfix ← proc_primary_expr; postfix_loop fuel postfix.

Definition proc_unary_expr : P finsh_node :=
  token ← next_token;
  match token with
  | finsh_token_type_add => proc_cast_expr
  | finsh_token_type_inc => cast ← proc_cast_expr; make_sys_node FINSH_NODE_SYS_PREINC cast NULL
  | finsh_token_type_sub =>
      cast ← proc_cast_expr;
      zero ← finsh_node_new_long 0;
      make_sys_node FINSH_NODE_SYS_SUB zero cast
  | finsh_token_type_dec => cast ← proc_cast_expr; make_sys_node FINSH_NODE_SYS_PREDEC cast NULL
  | finsh_token_type_bitwise =>
      cast ← proc_cast_expr; make_sys_node FINSH_NODE_SYS_BITWISE cast NULL
  | finsh_token_type_mul => cast ← proc_cast_expr; make_sys_node FINSH_NODE_SYS_GETVALUE cast NULL
  | finsh_token_type_and => cast ← proc_cast_expr; make_sys_node FINSH_NODE_SYS_GETADDR cast NULL
  | _ => replay;; proc_postfix_expr
  end.

Definition set_data_type (dt : Z) (n : finsh_node) : finsh_node :=
  match n with
  | NULL => NULL
  | Node nt _ idt v id child sibling => Node nt dt idt v id child sibling
  end.

Definition cast_expr : P finsh_node :=
  token ← next_token;
  if bool_decide (token = finsh_token_type_left_paren) then
    type ← proc_type;
    match_token finsh_token_type_right_paren;;
    cast ← proc_cast_expr;
    if is_null cast then replay;; proc_unary_expr
    else mret (set_data_type (finsh_type_number type) cast)
  else replay;; proc_unary_expr.

Definition assign_expr : P finsh_node :=
  or ← proc_inclusive_or_expr;
  token ← next_token;
  if bool_decide (token = finsh_token_type_assign) then
    assign ← proc_assign_expr; make_sys_node FINSH_NODE_SYS_ASSIGN or assign
  else replay;; mret or.

End rec.

Fixpoint proc_cast_expr (fuel : nat) : P finsh_node :=
  match fuel with
  | O => slift None
  | S fuel => cast_expr fuel (proc_cast_expr fuel) (proc_assign_expr fuel)
  end
with proc_assign_expr (fuel : nat) : P finsh_node :=
  match fuel with
  | O => slift None
  | S fuel => assign_expr fuel (proc_cast_expr fuel) (proc_assign_expr fuel)
  end.

Definition proc_expr (fuel : nat) : P finsh_node := proc_assign_expr fuel.

Definition proc_expr_statement (fuel : nat) : P finsh_node :=
  token ← next_token;
  if bool_decide (token = finsh_token_type_semicolon) then mret NULL
  else
    replay;;
    expr ← proc_expr fuel;
    match_token finsh_token_type_semicolon;;
    mret expr.

(** ** Declarations *)

Definition declare (type : finsh_type) : P (list Z) :=
  id ← proc_identifier;
  vars ← sget f_vars;
  let '(r, vars) := finsh_var_insert id type vars in
  supd (set_vars vars);;
  match r with
  | Some _ => mret id
  | None => error_set FINSH_ERROR_VARIABLE_EXIST;; mret id
  end.

(** The assignments so far, and whether [end] is not null. *)
Definition decl_state : Type := list finsh_node * bool.

Definition add_assign (id : list Z) (assign : finsh_node) (d : decl_state) : P decl_state :=
  idnode ← finsh_node_new_id id;
  match d.1 with
  | [] =>
      new ← make_sys_node FINSH_NODE_SYS_ASSIGN idnode assign;
      mret (if is_null new then ([], false) else ([new], true))
  | _ =>
      new ← make_sys_node FINSH_NODE_SYS_ASSIGN idnode assign;
      slift (if d.2 then Some tt else None);;
      mret (if is_null new then (d.1, false) else (d.1 ++ [new], true))
  end.

(** An initialiser behind [=]; the token behind it. *)
Definition proc_initialiser (fuel : nat) (id : list Z) (d : decl_state) :
    P (finsh_token_type * decl_state) :=
  assign ← proc_assign_expr fuel;
  if is_null assign then mret (finsh_token_type_assign, d)
  else
    d ← add_assign id assign d;
    token ← next_token;
    mret (token, d).

(** [declarator_list] behind a comma. *)
Fixpoint decl_loop (fuel : nat) (type : finsh_type) (token : finsh_token_type) (d : decl_state) :
    P (finsh_token_type * decl_state) :=
  if bool_decide (token = finsh_token_type_comma) then
    match fuel with
    | O => slift None
    | S fuel =>
        id ← declare type;
        token ← next_token;
        r ← (if bool_decide (token = finsh_token_type_assign) then proc_initialiser fuel id d
             else mret (token, d));
        decl_loop fuel type r.1 r.2
    end
  else mret (token, d).

Definition proc_variable_decl (fuel : nat) : P finsh_node :=
  type ← proc_type;
  id ← declare type;
  token ← next_token;
  match token with
  | finsh_token_type_comma =>
      r ← decl_loop fuel type token ([], false);
      check_token r.1 finsh_token_type_semicolon;;
      mret (chain_nodes r.2.1)
  | finsh_token_type_assign =>
      r ← proc_initialiser fuel id ([], false);
      r ← decl_loop fuel type r.1 r.2;
      check_token r.1 finsh_token_type_semicolon;;
      mret (chain_nodes r.2.1)
  | finsh_token_type_semicolon => mret NULL
  | _ => error_set FINSH_ERROR_EXPECT_TYPE;; mret NULL
  end.

(** ** Lines *)

(** [finsh_node_sibling(node) = new], where [node] is [k] siblings behind the
    root. *)
Fixpoint set_sibling_at (k : nat) (root new : finsh_node) : finsh_node :=
  match root with
  | NULL => NULL
  | Node nt dt idt v id child sibling =>
      match k with
      | O => Node nt dt idt v id child new
      | S k => Node nt dt idt v id child (set_sibling_at k sibling new)
      end
  end.

(** A statement was parsed to [new]: the new root and the index of [node]. *)
Definition add_statement (root : finsh_node) (k : nat) (new : finsh_node) : finsh_node * nat :=
  if is_null root then (new, O)
  else (set_sibling_at k root new, if is_null new then k else S k).

Fixpoint parser_loop (fuel : nat) (token : finsh_token_type) (root : finsh_node) (k : nat) :
    P finsh_node :=
  match fuel with
  | O => slift None
  | S fuel =>
      if bool_decide (token = finsh_token_type_eof \/ token = finsh_token_type_bad) then mret root
      else
        replay;;
        new ← (if is_base_type token || bool_decide (token = finsh_token_type_unsigned)
               then proc_variable_decl fuel else proc_expr_statement fuel);
        swhen (negb (is_null root) && is_null new &&
               negb (is_base_type token || bool_decide (token = finsh_token_type_unsigned) ||
                     bool_decide (token = finsh_token_type_identifier)))
          (next_token;; mret tt);;
        let '(root, k) := add_statement root k new in
        if is_null root then mret root
        else token ← next_token; parser_loop fuel token root k
  end.

Definition finsh_parser_run (fuel : nat) (line : list Z) : P finsh_node :=
  supd (set_token (finsh_token_init line));;
  token ← next_token;
  parser_loop fuel token NULL O.

End parser.
