(* ===== verification/FinshSyntax.v ===== *)
(** * Expressions as tokens, and the parser on them

    [tokens e] is how an expression is written; [printable e] says that it can
    be written without parentheses, which the shell's grammar does not support:
    the operands bind tighter than the operator, and the names are known.  The
    theorem of this file: the parser, reading the tokens of an expression,
    builds its tree. *)

From S2P Require Import Prelude StateM Finsh FinshVm FinshCompiler FinshHeap FinshToken FinshParser.
From S2P Require Import FinshExpr FinshCorrect.

(** A token with the value or the string that comes with it. *)
Record tok := Tok { t_type : finsh_token_type; t_value : Z; t_string : list Z }.

Definition sym (t : finsh_token_type) : tok := Tok t 0 [].

(** The lexer has just returned [t]. *)
Definition at_token (tk : finsh_token) (t : tok) : Prop :=
  tok_current tk = t_type t /\ tok_replay tk = false /\
  match t_type t with
  | finsh_token_type_value_int | finsh_token_type_value_long => tok_value tk = t_value t
  | finsh_token_type_value_char => u8 (tok_value tk) = t_value t
  | finsh_token_type_identifier => c_string (tok_string tk) = t_string t
  | _ => True
  end.

(** The lexer will return [ts], whatever the error number is. *)
Fixpoint feeds (tk : finsh_token) (ts : list tok) : Prop :=
  match ts with
  | [] => True
  | t :: ts => exists tk', (forall e, token_run (tk, e) = Some (tt, (tk', e))) /\
      at_token tk' t /\ feeds tk' ts
  end.

(** The tokens that the parser will see. *)
Definition ahead (tk : finsh_token) (ts : list tok) : Prop :=
  if tok_replay tk then
    exists t ts', ts = t :: ts' /\ at_token (set_replay false tk) t /\ feeds (set_replay false tk) ts'
  else feeds tk ts.

Lemma set_replay_id tk : tok_replay tk = false -> set_replay false (set_replay true tk) = tk.
Proof. destruct tk; simpl. by intros ->. Qed.

(** Reading a token, after which it may be replayed. *)
Lemma ahead_next tk t ts e :
  ahead tk (t :: ts) ->
  exists tk', finsh_token_token (tk, e) = Some (t_type t, (tk', e)) /\ at_token tk' t /\
    ahead tk' ts /\ ahead (set_replay true tk') (t :: ts).
Proof.
  unfold ahead at 1, finsh_token_token. unfold tget. rewrite (bind_Some _ _ _ _ _ eq_refl). simpl.
  destruct (tok_replay tk) eqn:Er.
  - intros (t' & ts' & [= <- <-] & Hat & Hf). exists (set_replay false tk).
    destruct Hat as (Hc & Hr & Hv). split; [|split; [done|split]].
    + rewrite (bind_Some _ _ _ _ _ eq_refl). unfold sget. simpl in *. by rewrite Hc.
    + exact Hf.
    + unfold ahead. simpl. exists t, ts. done.
  - intros (tk' & Hrun & Hat & Hf). exists tk'. pose proof Hat as (Hc & Hr & Hv).
    split; [|split; [done|split]].
    + rewrite (bind_Some _ _ _ _ _ (Hrun e)). unfold sget. simpl. by rewrite Hc.
    + unfold ahead. by rewrite Hr.
    + unfold ahead. simpl. exists t, ts. rewrite (set_replay_id _ Hr). done.
Qed.

(** ** The parser's view of its state *)

(** [n] entries of the node table are free. *)
Definition room (s : finsh) (n : nat) : Prop :=
  exists used free, f_nodes s = used ++ replicate free FINSH_NODE_UNKNOWN /\
    Forall (fun t => t <> FINSH_NODE_UNKNOWN) used /\ (n <= free)%nat.

(** Only the lexer and the node table differ. *)
Definition same (s s' : finsh) : Prop :=
  f_errno s' = f_errno s /\ f_vars s' = f_vars s /\ f_heap s' = f_heap s /\
  f_memory s' = f_memory s.

#[export] Instance same_preorder : PreOrder same.
Proof.
  split; [by intros s; split_and!|]. intros s1 s2 s3 (?&?&?&?) (?&?&?&?). split_and!; congruence.
Qed.

Lemma room_le s n n' : (n' <= n)%nat -> room s n -> room s n'.
Proof. intros H (u & f & ? & ? & ?). exists u, f. split_and!; try done; lia. Qed.

Lemma find_index_app {A} (f : A -> bool) l1 x l2 i :
  Forall (fun y => f y = false) l1 -> f x = true ->
  find_index f (l1 ++ x :: l2) i = Some (i + Z.of_nat (length l1)).
Proof.
  intros H Hx. revert i. induction H as [|y l1 Hy _ IH]; intros i; simpl.
  - rewrite Hx. f_equal. lia.
  - rewrite Hy, IH. f_equal. lia.
Qed.

Lemma allocate_ok nt s n :
  nt <> FINSH_NODE_UNKNOWN -> room s (S n) ->
  exists s', finsh_node_allocate nt s = Some (true, s') /\ room s' n /\ same s s' /\
    f_token s' = f_token s.
Proof.
  intros Hnt (used & free & E & Hu & Hn). destruct free as [|free]; [lia|].
  unfold finsh_node_allocate. rewrite (bind_Some _ _ _ _ _ eq_refl), E. simpl.
  rewrite find_index_app; [|eapply Forall_impl; [exact Hu|]; intros; by apply bool_decide_eq_false|done].
  eexists. split; [reflexivity|]. split; [|by split].
  exists (used ++ [nt]), free. split_and!; [|by apply Forall_app; split; [|apply Forall_singleton]|lia].
  simpl. rewrite Z.add_0_l, Nat2Z.id, insert_app_r_alt, Nat.sub_diag by lia. simpl.
  by rewrite <-app_assoc.
Qed.

Lemma next_token_ok s t ts :
  ahead (f_token s) (t :: ts) ->
  exists s', next_token s = Some (t_type t, s') /\ at_token (f_token s') t /\
    ahead (f_token s') ts /\ f_nodes s' = f_nodes s /\ same s s' /\
    exists s'', replay s' = Some (tt, s'') /\ ahead (f_token s'') (t :: ts) /\
      f_nodes s'' = f_nodes s /\ same s s''.
Proof.
  intros H. destruct (ahead_next _ t ts (f_errno s) H) as (tk & E & Hat & H1 & H2).
  eexists. split; [unfold next_token, lex; rewrite E; reflexivity|]. simpl.
  split; [done|]. split; [done|]. split; [done|]. split; [done|].
  eexists. split; [reflexivity|]. simpl. done.
Qed.

(** ** Expressions as tokens *)

Definition op_token (op : binop) : finsh_token_type :=
  match op with
  | Add => finsh_token_type_add | Sub => finsh_token_type_sub | Div => finsh_token_type_div
  | Mod => finsh_token_type_mod | Mul => finsh_token_type_mul | And => finsh_token_type_and
  | Or => finsh_token_type_or | Xor => finsh_token_type_xor | Shl => finsh_token_type_shl
  | Shr => finsh_token_type_shr
  end.

Definition step_token (o : step_op) : finsh_token_type :=
  match o with Inc => finsh_token_type_inc | Dec => finsh_token_type_dec end.

(** How loosely an operator binds: the unary ones 0, assignment 7. *)
Definition op_rank (op : binop) : nat :=
  match op with
  | Mul | Div | Mod => 1 | Add | Sub => 2 | Shl | Shr => 3 | And => 4 | Xor => 5 | Or => 6
  end.

Definition rank (e : expr) : nat :=
  match e with
  | EBin op _ _ => op_rank op
  | EAssign _ _ | EAssignTo _ _ => 7
  | _ => 0
  end.

(** The nodes of the tree. *)
Fixpoint node_count (e : expr) : nat :=
  match e with
  | EChar _ | EInt _ | ELong _ | ENull | EVar _ => 1
  | EBin _ a b => 1 + node_count a + node_count b
  | ENot a | EDeref a => 1 + node_count a
  | EAssign _ a => 2 + node_count a
  | EAssignTo p a => 2 + node_count p + node_count a
  | EAddr _ | EPre _ _ | EPost _ _ => 2
  | ECall _ args => 2 + nodes_count args
  end
with nodes_count (es : exprs) : nat :=
  match es with ENil => 0 | ECons e es => node_count e + nodes_count es end.

Section syntax.

Context (tables : finsh_tables) (global_variable finsh_heap_addr : Z) (vars : list finsh_var).

Definition lvalue_name (x : lvalue) : list Z :=
  match x with
  | LVar i => match zlookup vars i with Some v => var_name v | None => [] end
  | LSys v => sysvar_name v
  end.

Definition id_token (name : list Z) : tok := Tok finsh_token_type_identifier 0 name.

Fixpoint tokens (e : expr) : list tok :=
  match e with
  | EChar c => [Tok finsh_token_type_value_char c []]
  | EInt n => [Tok finsh_token_type_value_int n []]
  | ELong n => [Tok finsh_token_type_value_long n []]
  | ENull => [sym finsh_token_type_value_null]
  | EVar x => [id_token (lvalue_name x)]
  | EBin op a b => tokens a ++ [sym (op_token op)] ++ tokens b
  | ENot a => sym finsh_token_type_bitwise :: tokens a
  | EAssign x a => [id_token (lvalue_name x); sym finsh_token_type_assign] ++ tokens a
  | EAssignTo p a =>
      sym finsh_token_type_mul :: tokens p ++ [sym finsh_token_type_assign] ++ tokens a
  | EDeref p => sym finsh_token_type_mul :: tokens p
  | EAddr x => [sym finsh_token_type_and; id_token (lvalue_name x)]
  | EPre o i => [sym (step_token o); id_token (lvalue_name (LVar i))]
  | EPost o i => [id_token (lvalue_name (LVar i)); sym (step_token o)]
  | ECall f args =>
      [id_token (syscall_name f); sym finsh_token_type_left_paren] ++ args_tokens args ++
      [sym finsh_token_type_right_paren]
  end
with args_tokens (es : exprs) : list tok :=
  match es with
  | ENil => []
  | ECons e es => tokens e ++ more_tokens es
  end
with more_tokens (es : exprs) : list tok :=
  match es with
  | ENil => []
  | ECons e es => sym finsh_token_type_comma :: tokens e ++ more_tokens es
  end.

(** A name that the lexer reads as an identifier and that fits. *)
Definition name_ok (name : list Z) : Prop :=
  name <> [] /\ Forall (fun c => is_separator c = false) name /\
  (forall c, head name = Some c -> is_digit c = false) /\
  token_match_name name = None /\ Z.of_nat (length name) < FINSH_NAME_MAX.

Definition symbol_ok (name : list Z) (sym : Z * identifier) : Prop :=
  name_ok name /\ symbol_lookup tables vars name = Some sym.

Definition lvalue_known (x : lvalue) : Prop :=
  symbol_ok (lvalue_name x)
    match x with
    | LVar i => (FINSH_IDTYPE_VAR, IdVar i)
    | LSys v => (FINSH_IDTYPE_SYSVAR, IdSysvar v)
    end.

(** Characters that stand for themselves between quotes. *)
Definition plain_char (c : Z) : Prop := 32 <= c < 127 /\ c <> 39 /\ c <> 92.

Fixpoint printable (e : expr) : Prop :=
  match e with
  | EChar c => plain_char c
  | EInt n | ELong n => 0 <= n < 2 ^ 31
  | ENull => True
  | EVar x | EAddr x => lvalue_known x
  | EBin op a b =>
      printable a /\ printable b /\ (rank a <= op_rank op)%nat /\ (rank b < op_rank op)%nat
  | ENot a | EDeref a => printable a /\ rank a = 0%nat
  | EAssign x a => lvalue_known x /\ printable a
  | EAssignTo p a => printable p /\ rank p = 0%nat /\ printable a
  | EPre _ i | EPost _ i => lvalue_known (LVar i)
  | ECall f args =>
      symbol_ok (syscall_name f) (FINSH_IDTYPE_SYSCALL, IdSyscall f) /\ printable_args args
  end
with printable_args (es : exprs) : Prop :=
  match es with ENil => True | ECons e es => printable e /\ printable_args es end.

(** ** What the parser functions do *)

(** [p] reads the tokens [ts], takes [n] nodes and returns [node], when the next
    token is one of [follow]. *)
Definition parses (p : P finsh_node) (ts : list tok) (n : nat) (node : finsh_node)
    (follow : finsh_token_type -> Prop) : Prop :=
  forall s t rest k, f_vars s = vars -> ahead (f_token s) (ts ++ t :: rest) -> follow (t_type t) ->
    room s (n + k) ->
    exists s', p s = Some (node, s') /\ ahead (f_token s') (t :: rest) /\ room s' k /\ same s s'.

(** The operators of rank [r]. *)
Definition ops (r : nat) : finsh_token_type -> option finsh_node_type :=
  match r with
  | 1 => mul_op | 2 => add_op | 3 => shift_op | 4 => and_op | 5 => xor_op | 6 => or_op
  | _ => fun _ => None
  end%nat.

Definition postfix_token (t : finsh_token_type) : bool :=
  match t with
  | finsh_token_type_inc | finsh_token_type_dec | finsh_token_type_left_paren => true
  | _ => false
  end.

(** [t] does not go on with an expression of rank [r] or less. *)
Definition follow (r : nat) (t : finsh_token_type) : Prop :=
  postfix_token t = false /\ (forall q, (q <= r)%nat -> ops q t = None) /\
  ((7 <= r)%nat -> t <> finsh_token_type_assign).

Lemma follow_le r r' t : (r' <= r)%nat -> follow r t -> follow r' t.
Proof. intros H (H1 & H2 & H3). split_and!; [done|intros; apply H2; lia|intros; apply H3; lia]. Qed.

Abbreviation cast f := (proc_cast_expr tables global_variable finsh_heap_addr f).
Abbreviation assign f := (proc_assign_expr tables global_variable finsh_heap_addr f).

(** The parser for rank [r]. *)
Fixpoint at_rank (f r : nat) : P finsh_node :=
  match r with
  | O => cast f
  | S r' => binary_expr f (at_rank f r') (ops r)
  end.

Lemma at_rank_or f : at_rank f 6 = proc_inclusive_or_expr f (cast f).
Proof. done. Qed.

(** ** Nodes *)

Lemma node_of_not_null e sib : is_null (node_of e sib) = false.
Proof. destruct e; try done. by destruct x. Qed.

Lemma node_of_sibling e a b : set_sibling (node_of e a) b = node_of e b.
Proof. destruct e; try done. by destruct x. Qed.

Lemma new_leaf_ok nt v s n :
  nt <> FINSH_NODE_UNKNOWN -> room s (S n) ->
  exists s', new_leaf nt v s = Some (leaf nt v NULL, s') /\ room s' n /\ same s s' /\
    f_token s' = f_token s.
Proof.
  intros Hnt Hr. destruct (allocate_ok nt s n Hnt Hr) as (s' & E & ?). exists s'.
  split; [|done]. unfold new_leaf. by rewrite (bind_Some _ _ _ _ _ E).
Qed.

Lemma make_sys_node_ok nt n1 n2 s n :
  nt <> FINSH_NODE_UNKNOWN -> is_null n1 = false -> room s (S n) ->
  exists s', make_sys_node nt n1 n2 s = Some (sys nt (set_sibling n1 n2) NULL, s') /\
    room s' n /\ same s s' /\ f_token s' = f_token s.
Proof.
  intros Hnt Hn Hr. destruct (allocate_ok nt s n Hnt Hr) as (s' & E & ?). exists s'.
  split; [|done]. unfold make_sys_node. rewrite (bind_Some _ _ _ _ _ E). by rewrite Hn.
Qed.

Lemma same_vars s s' : same s s' -> f_vars s = vars -> f_vars s' = vars.
Proof. intros (_ & -> & _). done. Qed.

Lemma room_nodes s s' n : f_nodes s' = f_nodes s -> room s n -> room s' n.
Proof. unfold room. by intros ->. Qed.

(** ** Operators *)

Lemma op_rank_le op : (0 < op_rank op /\ op_rank op <= 6)%nat.
Proof. destruct op; simpl; lia. Qed.

Lemma ops_node r t nt : ops r t = Some nt -> nt <> FINSH_NODE_UNKNOWN.
Proof.
  destruct r as [|[|[|[|[|[|[|r]]]]]]]; [done| .. |done]; destruct t; simpl; intros [= <-]; done.
Qed.

Lemma ops_op op : ops (op_rank op) (op_token op) = Some (op_node op).
Proof. by destruct op. Qed.

Lemma op_follow op r : (r < op_rank op)%nat -> follow r (op_token op).
Proof.
  intros H. split; [by destruct op|]. split; [|by destruct op].
  intros q Hq. destruct q as [|[|[|[|[|[|[|q]]]]]]]; [done| .. |done];
    destruct op; simpl in H; done || lia.
Qed.

(** The loop ends at a token that does not belong to it. *)
Lemma binary_loop_end f sub op acc s t rest :
  op (t_type t) = None -> ahead (f_token s) (t :: rest) ->
  exists s', binary_loop f sub op acc s = Some (acc, s') /\ ahead (f_token s') (t :: rest) /\
    f_nodes s' = f_nodes s /\ same s s'.
Proof.
  intros Ho Ha. destruct (next_token_ok s t rest Ha) as (s1 & E1 & _ & _ & _ & _ & s2 & E2 & H2 & N2 & S2).
  exists s2. split; [|done]. destruct f; simpl; rewrite (bind_Some _ _ _ _ _ E1), Ho;
    by rewrite (bind_Some _ _ _ _ _ E2).
Qed.

Lemma binary_loop_step g sub op acc s s1 s2 s3 t new nt node :
  next_token s = Some (t, s1) -> op t = Some nt -> sub s1 = Some (new, s2) ->
  is_null new = false -> make_sys_node nt acc new s2 = Some (node, s3) ->
  binary_loop (S g) sub op acc s = binary_loop g sub op node s3.
Proof.
  intros E1 Ho E2 Hn E3. simpl. rewrite (bind_Some _ _ _ _ _ E1), Ho, (bind_Some _ _ _ _ _ E2), Hn.
  by rewrite (bind_Some _ _ _ _ _ E3).
Qed.

(** [at_rank f (S r)] reads an expression and goes on with its loop. *)
Definition reads (f r : nat) (ts : list tok) (n : nat) (node : finsh_node) : Prop :=
  exists j, (j < n)%nat /\
  forall s t rest k, f_vars s = vars -> ahead (f_token s) (ts ++ t :: rest) -> follow r (t_type t) ->
    room s (n + k) ->
    exists s', at_rank f (S r) s = binary_loop (f - j) (at_rank f r) (ops (S r)) node s' /\
      ahead (f_token s') (t :: rest) /\ room s' k /\ same s s'.

Lemma parses_reads f r ts n node :
  (0 < n)%nat -> parses (at_rank f r) ts n node (follow r) -> reads f r ts n node.
Proof.
  intros Hn H. exists 0%nat. split; [done|]. intros s t rest k Hv Ha Hf Hr.
  destruct (H s t rest k Hv Ha Hf Hr) as (s' & E & ?). exists s'. split; [|done].
  simpl. unfold binary_expr. rewrite (bind_Some _ _ _ _ _ E). by rewrite Nat.sub_0_r.
Qed.

Lemma reads_parses f r ts n node :
  reads f r ts n node -> parses (at_rank f (S r)) ts n node (follow (S r)).
Proof.
  intros (j & Hj & H) s t rest k Hv Ha Hf Hr.
  destruct (H s t rest k Hv Ha (follow_le (S r) r _ ltac:(lia) Hf) Hr) as (s1 & E & Ha1 & Hr1 & Hs1).
  destruct Hf as (_ & Hops & _).
  destruct (binary_loop_end (f - j) (at_rank f r) (ops (S r)) node s1 t rest (Hops (S r) ltac:(lia)) Ha1)
    as (s2 & E2 & Ha2 & N2 & S2).
  exists s2. split_and!; [by rewrite E|done|by eapply room_nodes|by etransitivity].
Qed.

Lemma reads_binary f op ts1 ts2 n1 n2 a b :
  (n1 + n2 < f)%nat ->
  reads f (pred (op_rank op)) ts1 n1 (node_of a NULL) ->
  parses (at_rank f (pred (op_rank op))) ts2 n2 (node_of b NULL) (follow (pred (op_rank op))) ->
  (0 < n2)%nat ->
  reads f (pred (op_rank op)) (ts1 ++ [sym (op_token op)] ++ ts2) (1 + n1 + n2)
    (node_of (EBin op a b) NULL).
Proof.
  intros Hfuel (j & Hj & H1) H2 Hn2. exists (S j). split; [lia|]. intros s t rest k Hv Ha Hf Hr.
  assert (op_rank op = S (pred (op_rank op))) as Er by (by destruct op).
  rewrite <-!app_assoc in Ha.
  destruct (H1 s (sym (op_token op)) (ts2 ++ t :: rest) (S (n2 + k)) Hv Ha) as (s1 & E1 & Ha1 & Hr1 & Hs1).
  { apply op_follow. lia. }
  { eapply room_le; [|exact Hr]. lia. }
  destruct (next_token_ok s1 _ _ Ha1) as (s2 & E2 & _ & Ha2 & N2 & S2 & _).
  destruct (H2 s2 t rest (S k)) as (s3 & E3 & Ha3 & Hr3 & S3).
  { eapply same_vars; [exact S2|]. by eapply same_vars. }
  { done. }
  { done. }
  { eapply room_le; [|by eapply room_nodes]. lia. }
  destruct (make_sys_node_ok (op_node op) (node_of a NULL) (node_of b NULL) s3 k)
    as (s4 & E4 & Hr4 & S4 & T4); [by destruct op|apply node_of_not_null|done|].
  exists s4. split; [|split; [by rewrite T4|split; [done|]]].
  - rewrite E1. destruct (f - j)%nat as [|g] eqn:Eg; [lia|].
    replace (f - S j)%nat with g by lia.
    eapply (binary_loop_step _ _ _ _ _ _ _ _ _ _ (op_node op)); [exact E2| |exact E3| |].
    + rewrite <-Er. apply ops_op.
    + apply node_of_not_null.
    + by rewrite E4, node_of_sibling.
  - do 3 (etransitivity; [done|]). done.
Qed.

(** A parser of some rank is one of every higher rank. *)
Lemma ranks_up f r ts n node :
  (0 < n)%nat -> parses (at_rank f r) ts n node (follow r) ->
  forall r', (r <= r')%nat -> parses (at_rank f r') ts n node (follow r').
Proof.
  intros Hn H r' Hle. induction Hle as [|r' _ IH]; [done|]. by apply reads_parses, parses_reads.
Qed.

(** ** Unary and postfix expressions *)

Abbreviation unary f := (proc_unary_expr tables global_variable finsh_heap_addr f (cast f) (assign f)).
Abbreviation postfix f := (proc_postfix_expr tables global_variable finsh_heap_addr f (assign f)).
Abbreviation primary f := (proc_primary_expr tables global_variable finsh_heap_addr (assign f)).
Abbreviation loop f g := (postfix_loop f (assign f) g).

Lemma cast_unary f s t ts :
  t_type t <> finsh_token_type_left_paren -> ahead (f_token s) (t :: ts) ->
  exists s', cast (S f) s = unary f s' /\ ahead (f_token s') (t :: ts) /\
    f_nodes s' = f_nodes s /\ same s s'.
Proof.
  intros Ht Ha. destruct (next_token_ok s t ts Ha) as (s1 & E1 & _ & _ & _ & _ & s2 & E2 & H2 & N2 & S2).
  exists s2. split; [|done]. simpl. unfold cast_expr.
  by rewrite (bind_Some _ _ _ _ _ E1), bool_decide_eq_false_2, (bind_Some _ _ _ _ _ E2) by done.
Qed.

(** The operators in front of an operand. *)
Definition unary_node (t : finsh_token_type) : option finsh_node_type :=
  match t with
  | finsh_token_type_inc => Some FINSH_NODE_SYS_PREINC
  | finsh_token_type_dec => Some FINSH_NODE_SYS_PREDEC
  | finsh_token_type_bitwise => Some FINSH_NODE_SYS_BITWISE
  | finsh_token_type_mul => Some FINSH_NODE_SYS_GETVALUE
  | finsh_token_type_and => Some FINSH_NODE_SYS_GETADDR
  | _ => None
  end.

Definition primary_token (t : finsh_token_type) : bool :=
  match t with
  | finsh_token_type_identifier | finsh_token_type_value_int | finsh_token_type_value_long
  | finsh_token_type_value_char | finsh_token_type_value_null => true
  | _ => false
  end.

Lemma cast_postfix f s t ts :
  primary_token (t_type t) = true -> ahead (f_token s) (t :: ts) ->
  exists s', cast (S f) s = postfix f s' /\ ahead (f_token s') (t :: ts) /\
    f_nodes s' = f_nodes s /\ same s s'.
Proof.
  intros Ht Ha. destruct (cast_unary f s t ts) as (s0 & E0 & Ha0 & N0 & S0); [by intros E; rewrite E in Ht|done|].
  destruct (next_token_ok s0 t ts Ha0) as (s1 & E1 & _ & _ & _ & _ & s2 & E2 & H2 & N2 & S2).
  exists s2. split; [|split; [done|split; [congruence|by etransitivity]]]. rewrite E0.
  unfold proc_unary_expr. rewrite (bind_Some _ _ _ _ _ E1).
  destruct (t_type t); try done; by rewrite (bind_Some _ _ _ _ _ E2).
Qed.

Lemma loop_end f g node s t rest :
  follow 0 (t_type t) -> ahead (f_token s) (t :: rest) ->
  exists s', loop f g node s = Some (node, s') /\ ahead (f_token s') (t :: rest) /\
    f_nodes s' = f_nodes s /\ same s s'.
Proof.
  intros (Hp & _) Ha. destruct (next_token_ok s t rest Ha) as (s1 & E1 & _ & _ & _ & _ & s2 & E2 & H2 & N2 & S2).
  exists s2. split; [|done].
  destruct g; simpl; rewrite (bind_Some _ _ _ _ _ E1);
    destruct (t_type t); try done; by rewrite (bind_Some _ _ _ _ _ E2).
Qed.

(** A prefix operator. *)
Lemma parses_unary f t nt e ts n :
  unary_node (t_type t) = Some nt -> parses (cast f) ts n (node_of e NULL) (follow 0) ->
  parses (cast (S f)) (t :: ts) (S n) (sys nt (node_of e NULL) NULL) (follow 0).
Proof.
  intros Ht H s t' rest k Hv Ha Hf Hr. simpl in Ha.
  destruct (cast_unary f s t (ts ++ t' :: rest)) as (s0 & E0 & Ha0 & N0 & S0);
    [by intros E; rewrite E in Ht|done|].
  destruct (next_token_ok s0 t _ Ha0) as (s1 & E1 & _ & Ha1 & N1 & S1 & _).
  destruct (H s1 t' rest (S k)) as (s2 & E2 & Ha2 & Hr2 & S2).
  { eapply same_vars; [exact S1|]. by eapply same_vars. }
  { done. }
  { done. }
  { eapply room_nodes; [rewrite N1; exact N0|]. eapply room_le; [|exact Hr]. lia. }
  destruct (make_sys_node_ok nt (node_of e NULL) NULL s2 k) as (s3 & E3 & Hr3 & S3 & T3);
    [by destruct (t_type t); simplify_eq/=|apply node_of_not_null|done|].
  exists s3. split; [|split; [by rewrite T3|split; [done|]]].
  - rewrite E0. unfold proc_unary_expr. rewrite (bind_Some _ _ _ _ _ E1).
    rewrite node_of_sibling in E3.
    destruct (t_type t); simplify_eq/=; by rewrite (bind_Some _ _ _ _ _ E2).
  - do 3 (etransitivity; [done|]). done.
Qed.

(** A parser that does not look ahead. *)
Abbreviation anything := (fun _ : finsh_token_type => True).

Lemma parses_postfix f t n node :
  primary_token (t_type t) = true ->
  parses (primary f) [t] n node anything ->
  parses (cast (S f)) [t] n node (follow 0).
Proof.
  intros Ht H s t' rest k Hv Ha Hf Hr. simpl in Ha.
  destruct (cast_postfix f s t _ Ht Ha) as (s0 & E0 & Ha0 & N0 & S0).
  destruct (H s0 t' rest k) as (s1 & E1 & Ha1 & Hr1 & S1);
    [by eapply same_vars|done|done|by eapply room_nodes|].
  destruct (loop_end f f node s1 t' rest Hf Ha1) as (s2 & E2 & Ha2 & N2 & S2).
  exists s2. split_and!; [|done|by eapply room_nodes|do 2 (etransitivity; [done|]); done].
  rewrite E0. unfold proc_postfix_expr. by rewrite (bind_Some _ _ _ _ _ E1).
Qed.

(** ** Constants and names *)

Lemma primary_leaf f t nt v :
  nt <> FINSH_NODE_UNKNOWN ->
  (forall s s', next_token s = Some (t_type t, s') -> at_token (f_token s') t ->
     primary f s = new_leaf nt v s') ->
  parses (primary f) [t] 1 (leaf nt v NULL) anything.
Proof.
  intros Hnt H s t' rest k Hv Ha _ Hr. simpl in Ha.
  destruct (next_token_ok s t _ Ha) as (s1 & E1 & Hat & Ha1 & N1 & S1 & _).
  rewrite (H s s1 E1 Hat).
  destruct (new_leaf_ok nt v s1 k Hnt) as (s2 & E2 & Hr2 & S2 & T2); [by eapply room_nodes|].
  exists s2. split_and!; [done|by rewrite T2|done|by etransitivity].
Qed.

(** The token and the node of a constant. *)
Definition constant (e : expr) : option (tok * finsh_node_type * Z) :=
  match e with
  | EChar c => Some (Tok finsh_token_type_value_char c [], FINSH_NODE_VALUE_CHAR, u8 c)
  | EInt n => Some (Tok finsh_token_type_value_int n [], FINSH_NODE_VALUE_INT, u32 n)
  | ELong n => Some (Tok finsh_token_type_value_long n [], FINSH_NODE_VALUE_LONG, u32 n)
  | ENull => Some (sym finsh_token_type_value_null, FINSH_NODE_VALUE_NULL, 0)
  | _ => None
  end.

Lemma parses_constant f e t nt v :
  constant e = Some (t, nt, v) -> printable e ->
  parses (cast (S f)) (tokens e) (node_count e) (node_of e NULL) (follow 0).
Proof.
  intros Hc Hp.
  assert (tokens e = [t] /\ node_count e = 1%nat /\ node_of e NULL = leaf nt v NULL) as (-> & -> & ->).
  { by destruct e; simplify_eq/=. }
  apply parses_postfix; [by destruct e; simplify_eq/=|].
  apply primary_leaf; [by destruct e; simplify_eq/=|].
  intros s s' E (_ & _ & Hv). unfold proc_primary_expr.
  rewrite (bind_Some _ _ _ _ _ E), (bind_Some _ _ _ _ _ eq_refl).
  destruct e; try discriminate Hc; injection Hc as <- <- <-; simpl in Hv |- *; try rewrite <-Hv;
    try done.
  unfold finsh_node_new_char. by rewrite wrap_idem.
Qed.

Lemma proc_identifier_ok s name ts :
  name_ok name -> ahead (f_token s) (id_token name :: ts) ->
  exists s', proc_identifier s = Some (name, s') /\ ahead (f_token s') ts /\
    f_nodes s' = f_nodes s /\ same s s'.
Proof.
  intros Hname Ha. destruct (next_token_ok s _ _ Ha) as (s1 & E & (_ & _ & Hstr) & Ha1 & N1 & S1 & _).
  exists s1. split; [|done]. unfold proc_identifier, match_token. rewrite (bind_Some _ _ _ tt s1).
  - rewrite (bind_Some _ _ _ _ _ eq_refl). simpl in Hstr. rewrite Hstr.
    unfold mret, ST_ret. do 2 f_equal. apply take_ge. destruct Hname as (_ & _ & _ & _ & ?). lia.
  - by rewrite (bind_Some _ _ _ _ _ E).
Qed.

(** An identifier, whose symbol is known. *)
Lemma primary_id f name idt symbol :
  symbol_ok name (idt, symbol) -> symbol <> IdNull ->
  parses (primary f) [id_token name] 1 (Node FINSH_NODE_ID 0 idt 0 symbol NULL NULL) anything.
Proof.
  intros (Hname & Hsym) Hnull s t' rest k Hv Ha _ Hr. simpl in Ha.
  destruct (next_token_ok s _ _ Ha) as (s1 & E1 & _ & _ & N1 & S1 & s2 & E2 & Ha2 & N2 & S2).
  destruct (proc_identifier_ok s2 name _ Hname Ha2) as (s3 & E3 & Ha3 & N3 & S3).
  destruct (allocate_ok FINSH_NODE_ID s3 k) as (s4 & E4 & Hr4 & S4 & T4);
    [done|eapply room_nodes; [rewrite N3; exact N2|exact Hr]|].
  exists s4. split_and!; [|by rewrite T4|done|do 2 (etransitivity; [done|]); done].
  unfold proc_primary_expr. rewrite (bind_Some _ _ _ _ _ E1), (bind_Some _ _ _ _ _ eq_refl).
  change (t_type (id_token name)) with finsh_token_type_identifier. cbv iota.
  rewrite (bind_Some _ _ _ _ _ E2).
  rewrite (bind_Some _ _ _ _ _ E3).
  unfold finsh_node_new_id. rewrite (bind_Some _ _ _ _ _ eq_refl).
  rewrite (bind_Some _ _ _ (idt, symbol) s3).
  2:{ apply slift_Some. rewrite <-Hsym. f_equal.
      eapply same_vars; [exact S3|]. eapply same_vars; [exact S2|done]. }
  simpl. destruct symbol; try done; by rewrite (bind_Some _ _ _ _ _ E4).
Qed.

Lemma parses_id f name idt symbol :
  symbol_ok name (idt, symbol) -> symbol <> IdNull ->
  parses (cast (S f)) [id_token name] 1 (Node FINSH_NODE_ID 0 idt 0 symbol NULL NULL) (follow 0).
Proof. intros. apply parses_postfix; [done|]. by apply primary_id. Qed.

Lemma parses_lvalue f x :
  lvalue_known x -> parses (cast (S f)) [id_token (lvalue_name x)] 1 (lvalue_node x NULL) (follow 0).
Proof. intros H. destruct x; by apply parses_id. Qed.
(** ** Behind a name *)

(** What the loop of the postfix operators makes of a name. *)
Definition postfixes (f : nat) (idt : Z) (symbol : identifier) (ts : list tok) (n : nat)
    (node : finsh_node) : Prop :=
  forall g s t rest k, f_vars s = vars -> ahead (f_token s) (ts ++ t :: rest) ->
    follow 0 (t_type t) -> room s (n + k) ->
    exists s', loop f (S g) (Node FINSH_NODE_ID 0 idt 0 symbol NULL NULL) s = loop f g node s' /\
      ahead (f_token s') (t :: rest) /\ room s' k /\ same s s'.

Lemma parses_postfixes f name idt symbol ts n node :
  symbol_ok name (idt, symbol) -> symbol <> IdNull -> (0 < f)%nat ->
  postfixes f idt symbol ts n node ->
  parses (cast (S f)) (id_token name :: ts) (S n) node (follow 0).
Proof.
  intros Hs Hnull Hf H s t' rest k Hv Ha Hfo Hr. simpl in Ha.
  assert (exists h tl, ts ++ t' :: rest = h :: tl) as (h & tl & Eh) by (destruct ts; eauto).
  rewrite Eh in Ha.
  destruct (cast_postfix f s (id_token name) _ eq_refl Ha) as (s0 & E0 & Ha0 & N0 & S0).
  destruct (primary_id f name idt symbol Hs Hnull s0 h tl (n + k)%nat) as (s1 & E1 & Ha1 & Hr1 & S1);
    [by eapply same_vars|done|done|by eapply room_nodes|].
  destruct f as [|g]; [lia|]. rewrite <-Eh in Ha1.
  destruct (H g s1 t' rest k) as (s2 & E2 & Ha2 & Hr2 & S2);
    [eapply same_vars; [exact S1|]; by eapply same_vars|done|done|done|].
  destruct (loop_end (S g) g node s2 t' rest Hfo Ha2) as (s3 & E3 & Ha3 & N3 & S3).
  exists s3. split_and!; [|done|by eapply room_nodes|do 3 (etransitivity; [done|]); done].
  rewrite E0. unfold proc_postfix_expr. by rewrite (bind_Some _ _ _ _ _ E1), E2.
Qed.

Lemma postfixes_step f o i :
  postfixes f FINSH_IDTYPE_VAR (IdVar i) [sym (step_token o)] 1 (node_of (EPost o i) NULL).
Proof.
  intros g s t rest k Hv Ha Hfo Hr. simpl in Ha.
  destruct (next_token_ok s _ _ Ha) as (s1 & E1 & _ & Ha1 & N1 & S1 & _).
  destruct (make_sys_node_ok (post_node o) (lvalue_node (LVar i) NULL) NULL s1 k)
    as (s2 & E2 & Hr2 & S2 & T2); [by destruct o|done|by eapply room_nodes|].
  exists s2. split_and!; [|by rewrite T2|done|by etransitivity].
  simpl. rewrite (bind_Some _ _ _ _ _ E1). destruct o; simpl; by rewrite (bind_Some _ _ _ _ _ E2).
Qed.

Lemma match_token_ok s t rest :
  ahead (f_token s) (t :: rest) ->
  exists s', match_token (t_type t) s = Some (tt, s') /\ ahead (f_token s') rest /\
    f_nodes s' = f_nodes s /\ same s s'.
Proof.
  intros Ha. destruct (next_token_ok s t rest Ha) as (s1 & E1 & _ & Ha1 & N1 & S1 & _).
  exists s1. split; [|done]. unfold match_token. rewrite (bind_Some _ _ _ _ _ E1).
  unfold check_token. by rewrite bool_decide_eq_true_2.
Qed.

(** ** Arguments *)

Fixpoint args_list (es : exprs) : list finsh_node :=
  match es with ENil => [] | ECons e es => node_of e NULL :: args_list es end.

Lemma chain_args es : chain_nodes (args_list es) = nodes_of es.
Proof. induction es as [|e es IH]; [done|]. simpl. fold (chain_nodes (args_list es)). by rewrite IH, node_of_sibling. Qed.

Fixpoint Forall_args (Q : expr -> Prop) (es : exprs) : Prop :=
  match es with ENil => True | ECons e es => Q e /\ Forall_args Q es end.

Definition arg_ok (f : nat) (e : expr) : Prop :=
  parses (assign f) (tokens e) (node_count e) (node_of e NULL) (follow 7).

Lemma follow_paren : follow 7 finsh_token_type_right_paren.
Proof. split_and!; [done| |done]. intros q _. by destruct q as [|[|[|[|[|[|[|q]]]]]]]. Qed.
Lemma follow_comma : follow 7 finsh_token_type_comma.
Proof. split_and!; [done| |done]. intros q _. by destruct q as [|[|[|[|[|[|[|q]]]]]]]. Qed.
Lemma follow_semicolon : follow 7 finsh_token_type_semicolon.
Proof. split_and!; [done| |done]. intros q _. by destruct q as [|[|[|[|[|[|[|q]]]]]]]. Qed.
Lemma follow_assign : follow 6 finsh_token_type_assign.
Proof. split_and!; [done| |lia]. intros q _. by destruct q as [|[|[|[|[|[|[|q]]]]]]]. Qed.

(** What comes behind an argument. *)
Lemma more_tokens_head es rest :
  exists t ts, more_tokens es ++ sym finsh_token_type_right_paren :: rest = t :: ts /\
    follow 7 (t_type t).
Proof.
  destruct es as [|e es]; simpl; eexists _, _; (split; [reflexivity|]);
    [apply follow_paren|apply follow_comma].
Qed.

Lemma param_loop_ok f es g acc s rest k :
  Forall_args (arg_ok f) es -> (args_count es <= Z.of_nat g) -> f_vars s = vars ->
  ahead (f_token s) (more_tokens es ++ sym finsh_token_type_right_paren :: rest) ->
  room s (nodes_count es + k) ->
  exists s', param_loop (assign f) g acc s = Some (acc ++ args_list es, s') /\
    ahead (f_token s') (sym finsh_token_type_right_paren :: rest) /\ room s' k /\ same s s'.
Proof.
  revert g acc s. induction es as [|e es IH]; intros g acc s Hall Hg Hv Ha Hr; simpl in *.
  - destruct (next_token_ok s _ _ Ha) as (s1 & E1 & _ & _ & _ & _ & s2 & E2 & Ha2 & N2 & S2).
    exists s2. split_and!; [|done|by eapply room_nodes|done].
    destruct g; simpl; rewrite (bind_Some _ _ _ _ _ E1), bool_decide_eq_false_2 by done;
      rewrite (bind_Some _ _ _ _ _ E2); by rewrite app_nil_r.
  - destruct Hall as (He & Hall). destruct g as [|g]; [pose proof (args_count_nonneg es); lia|].
    destruct (next_token_ok s _ _ Ha) as (s1 & E1 & _ & Ha1 & N1 & S1 & _).
    rewrite <-app_assoc in Ha1. destruct (more_tokens_head es rest) as (t & ts & Et & Hfo).
    rewrite Et in Ha1.
    destruct (He s1 t ts (nodes_count es + k)%nat) as (s2 & E2 & Ha2 & Hr2 & S2);
      [by eapply same_vars|done|done|eapply room_le; [|by eapply room_nodes]; lia|].
    rewrite <-Et in Ha2.
    destruct (IH g (acc ++ [node_of e NULL]) s2) as (s3 & E3 & Ha3 & Hr3 & S3);
      [done|lia|eapply same_vars; [exact S2|]; by eapply same_vars|done|done|].
    exists s3. split_and!; [|done|done|do 2 (etransitivity; [done|]); done].
    simpl. rewrite (bind_Some _ _ _ _ _ E1), bool_decide_eq_true_2 by done.
    rewrite (bind_Some _ _ _ _ _ E2), node_of_not_null, E3. by rewrite <-app_assoc.
Qed.

Lemma param_list_ok f e es s rest k :
  Forall_args (arg_ok f) (ECons e es) -> args_count es <= Z.of_nat f -> f_vars s = vars ->
  ahead (f_token s) (args_tokens (ECons e es) ++ sym finsh_token_type_right_paren :: rest) ->
  room s (nodes_count (ECons e es) + k) ->
  exists s', proc_param_list f (assign f) s = Some (nodes_of (ECons e es), s') /\
    ahead (f_token s') (sym finsh_token_type_right_paren :: rest) /\ room s' k /\ same s s'.
Proof.
  intros (He & Hall) Hf Hv Ha Hr. simpl in Ha, Hr. rewrite <-app_assoc in Ha.
  destruct (more_tokens_head es rest) as (t & ts & Et & Hfo). rewrite Et in Ha.
  destruct (He s t ts (nodes_count es + k)%nat) as (s1 & E1 & Ha1 & Hr1 & S1);
    [done|done|done|eapply room_le; [|exact Hr]; lia|].
  rewrite <-Et in Ha1.
  destruct (param_loop_ok f es f [node_of e NULL] s1 rest k) as (s2 & E2 & Ha2 & Hr2 & S2);
    [done|done|by eapply same_vars|done|done|].
  exists s2. split_and!; [|done|done|by etransitivity].
  unfold proc_param_list. rewrite (bind_Some _ _ _ _ _ E1), node_of_not_null.
  rewrite (bind_Some _ _ _ _ _ E2). unfold mret, ST_ret. do 2 f_equal.
  exact (chain_args (ECons e es)).
Qed.
(** The tokens that an expression starts with. *)
Definition starts (t : finsh_token_type) : bool :=
  primary_token t || bool_decide (is_Some (unary_node t)).

Lemma tokens_head e : exists t ts, tokens e = t :: ts /\ starts (t_type t) = true.
Proof.
  induction e as [| | | | |op a IHa b _|a _|x a _|p _ a _|p _|x|o i|o i|f args];
    try (by eexists _, _); try (by destruct o; eexists _, _).
  destruct IHa as (t & ts & E & H). simpl. rewrite E. by eexists _, _.
Qed.

Lemma postfixes_call f c args :
  Forall_args (arg_ok f) args -> args_count args <= Z.of_nat f ->
  postfixes f FINSH_IDTYPE_SYSCALL (IdSyscall c)
    (sym finsh_token_type_left_paren :: args_tokens args ++ [sym finsh_token_type_right_paren])
    (1 + nodes_count args) (node_of (ECall c args) NULL).
Proof.
  intros Hall Hf g s t rest k Hv Ha Hfo Hr.
  simpl in Ha. rewrite <-app_assoc in Ha.
  destruct (next_token_ok s _ _ Ha) as (s1 & E1 & _ & Ha1 & N1 & S1 & _).
  assert (exists s2, (token ← next_token;
      (if bool_decide (token = finsh_token_type_right_paren) then mret NULL
       else replay;; param_list ← proc_param_list f (assign f);
            match_token finsh_token_type_right_paren;; mret param_list)) s1
      = Some (nodes_of args, s2) /\ ahead (f_token s2) (t :: rest) /\ room s2 (S k) /\ same s1 s2)
    as (s2 & E2 & Ha2 & Hr2 & S2).
  { destruct args as [|e es].
    - destruct (next_token_ok s1 _ _ Ha1) as (s2 & E2 & _ & Ha2 & N2 & S2 & _). exists s2.
      split_and!; [|done|eapply room_nodes; [rewrite N2; exact N1|done]|done].
      by rewrite (bind_Some _ _ _ _ _ E2), bool_decide_eq_true_2.
    - destruct (tokens_head e) as (t0 & ts0 & Et & Hst).
      assert (t_type t0 <> finsh_token_type_right_paren) as Hne by (by intros E; rewrite E in Hst).
      assert (exists tl, args_tokens (ECons e es) ++ sym finsh_token_type_right_paren :: t :: rest
                         = t0 :: tl) as (tl & Etl) by (simpl; rewrite Et; simpl; eauto).
      change ([sym finsh_token_type_right_paren] ++ t :: rest)
        with (sym finsh_token_type_right_paren :: t :: rest) in Ha1.
      rewrite Etl in Ha1.
      destruct (next_token_ok s1 _ _ Ha1) as (s2 & E2 & _ & _ & _ & _ & s3 & E3 & Ha3 & N3 & S3).
      rewrite <-Etl in Ha3.
      destruct (param_list_ok f e es s3 (t :: rest) (S k)) as (s4 & E4 & Ha4 & Hr4 & S4);
        [done|pose proof (args_count_nonneg es); simpl in Hf; lia
        |eapply same_vars; [exact S3|]; by eapply same_vars|done| |].
      { eapply room_le; [|eapply room_nodes; [rewrite N3; exact N1|exact Hr]]. simpl. lia. }
      destruct (match_token_ok s4 _ _ Ha4) as (s5 & E5 & Ha5 & N5 & S5). exists s5.
      split_and!; [|done|by eapply room_nodes|do 2 (etransitivity; [done|]); done].
      rewrite (bind_Some _ _ _ _ _ E2), bool_decide_eq_false_2, (bind_Some _ _ _ _ _ E3) by done.
      rewrite (bind_Some _ _ _ _ _ E4). simpl in E5. by rewrite (bind_Some _ _ _ _ _ E5). }
  destruct (make_sys_node_ok FINSH_NODE_SYS_FUNC
    (Node FINSH_NODE_ID 0 FINSH_IDTYPE_SYSCALL 0 (IdSyscall c) NULL NULL) (nodes_of args) s2 k)
    as (s3 & E3 & Hr3 & S3 & T3); [done|done|done|].
  exists s3. split_and!; [|by rewrite T3|done|do 2 (etransitivity; [done|]); done].
  simpl. rewrite (bind_Some _ _ _ _ _ E1). simpl.
  rewrite (bind_Some _ _ _ (node_of (ECall c args) NULL) s3); [done|].
  rewrite <-bind_assoc, (bind_Some _ _ _ _ _ E2). exact E3.
Qed.

(** ** Assignments *)

Lemma assign_plain f ts n node :
  parses (at_rank f 6) ts n node (follow 6) -> parses (assign (S f)) ts n node (follow 7).
Proof.
  intros H s t rest k Hv Ha Hfo Hr.
  destruct (H s t rest k Hv Ha (follow_le 7 6 _ ltac:(lia) Hfo) Hr) as (s1 & E1 & Ha1 & Hr1 & S1).
  destruct (next_token_ok s1 _ _ Ha1) as (s2 & E2 & _ & _ & _ & _ & s3 & E3 & Ha3 & N3 & S3).
  exists s3. split_and!; [|done|by eapply room_nodes|by etransitivity].
  simpl. unfold assign_expr. rewrite <-at_rank_or, (bind_Some _ _ _ _ _ E1), (bind_Some _ _ _ _ _ E2).
  destruct Hfo as (_ & _ & Hfo). rewrite bool_decide_eq_false_2 by (apply Hfo; lia).
  by rewrite (bind_Some _ _ _ _ _ E3).
Qed.

Lemma assign_ok f ts1 ts2 n1 n2 a b :
  parses (at_rank f 6) ts1 n1 a (follow 6) -> is_null a = false ->
  parses (assign f) ts2 n2 b (follow 7) ->
  parses (assign (S f)) (ts1 ++ [sym finsh_token_type_assign] ++ ts2) (1 + n1 + n2)
    (sys FINSH_NODE_SYS_ASSIGN (set_sibling a b) NULL) (follow 7).
Proof.
  intros H1 Hn H2 s t rest k Hv Ha Hfo Hr. rewrite <-!app_assoc in Ha.
  destruct (H1 s (sym finsh_token_type_assign) (ts2 ++ t :: rest) (n2 + S k)%nat)
    as (s1 & E1 & Ha1 & Hr1 & S1);
    [done|done|apply follow_assign|eapply room_le; [|exact Hr]; lia|].
  destruct (next_token_ok s1 _ _ Ha1) as (s2 & E2 & _ & Ha2 & N2 & S2 & _).
  destruct (H2 s2 t rest (S k)) as (s3 & E3 & Ha3 & Hr3 & S3);
    [eapply same_vars; [exact S2|]; by eapply same_vars|done|done|by eapply room_nodes|].
  destruct (make_sys_node_ok FINSH_NODE_SYS_ASSIGN a b s3 k) as (s4 & E4 & Hr4 & S4 & T4);
    [done|done|done|].
  exists s4. split_and!; [|by rewrite T4|done|do 3 (etransitivity; [done|]); done].
  simpl. unfold assign_expr. rewrite <-at_rank_or, (bind_Some _ _ _ _ _ E1), (bind_Some _ _ _ _ _ E2).
  rewrite bool_decide_eq_true_2 by done. by rewrite (bind_Some _ _ _ _ _ E3).
Qed.

(** ** Expressions *)

Lemma node_count_pos e : (0 < node_count e)%nat.
Proof. destruct e; simpl; lia. Qed.

Lemma args_nodes es : args_count es <= Z.of_nat (nodes_count es).
Proof. induction es as [|e es]; simpl; [lia|]. pose proof (node_count_pos e). lia. Qed.

(** The parser reads [e], at every rank that it may stand at. *)
Definition parsed (f : nat) (e : expr) : Prop :=
  (rank e = 0%nat -> parses (cast f) (tokens e) (node_count e) (node_of e NULL) (follow 0)) /\
  (forall r, (rank e <= S r)%nat -> (r < 6)%nat -> reads f r (tokens e) (node_count e) (node_of e NULL)).

Lemma parsed_rank f e r :
  parsed f e -> (rank e <= r <= 6)%nat ->
  parses (at_rank f r) (tokens e) (node_count e) (node_of e NULL) (follow r).
Proof.
  intros (H0 & H1) Hr. destruct r as [|r]; [apply H0; lia|]. apply reads_parses, H1; lia.
Qed.

Lemma parsed_unary f e :
  parses (cast f) (tokens e) (node_count e) (node_of e NULL) (follow 0) -> parsed f e.
Proof.
  intros H. split; [done|]. intros r _ _. apply parses_reads; [apply node_count_pos|].
  apply (ranks_up f 0); [apply node_count_pos|done|lia].
Qed.

Lemma parsed_binary f op a b :
  (node_count (EBin op a b) < f)%nat -> parsed f a -> parsed f b ->
  (rank a <= op_rank op)%nat -> (rank b < op_rank op)%nat -> parsed f (EBin op a b).
Proof.
  intros Hf Ha Hb Hra Hrb. simpl in Hf.
  destruct (op_rank_le op) as [H0 Hle]. assert (op_rank op = S (pred (op_rank op))) as Er by lia.
  assert (reads f (pred (op_rank op)) (tokens (EBin op a b)) (node_count (EBin op a b))
            (node_of (EBin op a b) NULL)) as Hrd.
  { apply (reads_binary f op (tokens a) (tokens b) (node_count a) (node_count b)); [lia| | |apply node_count_pos].
    - apply Ha; lia.
    - apply parsed_rank; [done|lia]. }
  split; [simpl; lia|]. intros r Hr Hr6. simpl in Hr.
  destruct (decide (r = pred (op_rank op))) as [->|Hne]; [done|].
  apply parses_reads; [apply node_count_pos|].
  apply (ranks_up f (op_rank op)); [apply node_count_pos| |lia].
  pose proof (reads_parses f _ _ _ _ Hrd) as Hp. by rewrite <-Er in Hp.
Qed.

(** With enough fuel the parser reads [e], as an operand and as an argument. *)
Definition readable (e : expr) : Prop :=
  (forall f, (node_count e < f)%nat -> (rank e <= 6)%nat -> parsed f e) /\
  (forall f, (node_count e + 1 < f)%nat -> arg_ok f e).

Lemma readable_low e :
  (rank e <= 6)%nat -> (forall f, (node_count e < f)%nat -> parsed f e) -> readable e.
Proof.
  intros Hr H. split; [auto|]. intros f Hf. destruct f as [|f]; [lia|].
  apply assign_plain, parsed_rank; [apply H|]; lia.
Qed.

Lemma readable_unary e :
  rank e = 0%nat ->
  (forall f, (node_count e <= f)%nat ->
     parses (cast (S f)) (tokens e) (node_count e) (node_of e NULL) (follow 0)) ->
  readable e.
Proof.
  intros Hr H. apply readable_low; [lia|]. intros [|f] Hf; [lia|]. apply parsed_unary, H. lia.
Qed.

Lemma readable_prefix e t nt a :
  unary_node (t_type t) = Some nt -> tokens e = t :: tokens a -> node_count e = S (node_count a) ->
  node_of e NULL = sys nt (node_of a NULL) NULL -> rank e = 0%nat ->
  readable a -> rank a = 0%nat -> readable e.
Proof.
  intros Ht E1 E2 E3 Hr (Ha & _) Hra. apply readable_unary; [done|]. intros f Hf.
  rewrite E1, E2, E3. apply parses_unary; [done|]. apply Ha; lia.
Qed.

Lemma readable_lvalue x : lvalue_known x -> readable (EVar x).
Proof. intros H. apply readable_unary; [done|]. intros f _. by apply parses_lvalue. Qed.

Lemma readable_assign e p a :
  tokens e = tokens p ++ [sym finsh_token_type_assign] ++ tokens a ->
  node_count e = (1 + node_count p + node_count a)%nat ->
  node_of e NULL = sys FINSH_NODE_SYS_ASSIGN (node_of p (node_of a NULL)) NULL -> rank e = 7%nat ->
  readable p -> (rank p <= 6)%nat -> readable a -> readable e.
Proof.
  intros E1 E2 E3 Hr (Hp & _) Hrp (_ & Ha). split; [lia|]. intros [|f] Hf; [lia|]. unfold arg_ok.
  rewrite E1, E2, E3, <-(node_of_sibling p NULL). pose proof (node_count_pos a).
  apply assign_ok; [|apply node_of_not_null|].
  - apply parsed_rank; [apply Hp|]; lia.
  - apply Ha. lia.
Qed.

Lemma readable_call c args :
  symbol_ok (syscall_name c) (FINSH_IDTYPE_SYSCALL, IdSyscall c) ->
  (forall f, (nodes_count args + 1 < f)%nat -> Forall_args (arg_ok f) args) ->
  readable (ECall c args).
Proof.
  intros Hc H. apply readable_unary; [done|]. intros f Hf. simpl in Hf.
  pose proof (args_nodes args).
  eapply parses_postfixes; [exact Hc|done|lia|]. apply postfixes_call; [apply H|]; lia.
Qed.

(** Every expression that can be written is read. *)
Lemma parsed_expr :
  (forall e, printable e -> readable e) /\
  (forall es, printable_args es ->
     forall f, (nodes_count es + 1 < f)%nat -> Forall_args (arg_ok f) es).
Proof.
  apply expr_exprs_ind.
  1-4: by intros; apply readable_unary; [done|]; intros; eapply parses_constant.
  - apply readable_lvalue.
  - intros op a IHa b IHb (Ha & Hb & Hra & Hrb). destruct (op_rank_le op) as [H1 H6].
    destruct (IHa Ha) as (Ra & _). destruct (IHb Hb) as (Rb & _).
    apply readable_low; [done|]. intros f Hf. simpl in Hf.
    apply parsed_binary; [done|apply Ra|apply Rb| |]; lia.
  - intros a IH (Hp & Hr). by eapply readable_prefix; eauto.
  - intros x a IH (Hx & Ha). apply (readable_assign _ (EVar x) a); auto using readable_lvalue.
    simpl. lia.
  - intros p IHp a IHa (Hp & Hr & Ha).
    apply (readable_assign _ (EDeref p) a); try done; [|simpl; lia|by apply IHa].
    by eapply (readable_prefix _ (sym finsh_token_type_mul) _ p); eauto.
  - intros p IH (Hp & Hr). by eapply readable_prefix; eauto.
  - intros x Hx.
    by eapply (readable_prefix _ (sym finsh_token_type_and) _ (EVar x)); auto using readable_lvalue.
  - intros o i Hx.
    eapply (readable_prefix _ (sym (step_token o)) (pre_node o) (EVar (LVar i)));
      auto using readable_lvalue. by destruct o.
  - intros o i Hx. apply readable_unary; [done|]. intros f Hf. simpl in Hf.
    eapply parses_postfixes; [exact Hx|done|lia|]. apply postfixes_step.
  - intros c args IH (Hc & Ha). apply readable_call; auto.
  - done.
  - intros e IHe es IHes (He & Hes) f Hf. simpl in Hf. split; [apply IHe|apply IHes]; auto; lia.
Qed.

(** ** Lines *)

Definition line_tokens (es : list expr) : list tok :=
  flat_map (fun e => tokens e ++ [sym finsh_token_type_semicolon]) es ++ [sym finsh_token_type_eof].

Definition line_nodes (es : list expr) : nat := sum_list (node_count <$> es).

Lemma line_nodes_cons e es : line_nodes (e :: es) = (node_count e + line_nodes es)%nat.
Proof. done. Qed.
Lemma line_tokens_cons e es :
  line_tokens (e :: es) = tokens e ++ sym finsh_token_type_semicolon :: line_tokens es.
Proof. unfold line_tokens. simpl. by rewrite <-!app_assoc. Qed.

Lemma line_tokens_head es : exists t rest, line_tokens es = t :: rest.
Proof.
  destruct es as [|e es]; [by eexists _, _|]. destruct (tokens_head e) as (? & ? & E & _).
  rewrite line_tokens_cons, E. by eexists _, _.
Qed.

Lemma expr_statement_ok f e s rest k :
  printable e -> (node_count e + 1 < f)%nat -> f_vars s = vars ->
  ahead (f_token s) (tokens e ++ sym finsh_token_type_semicolon :: rest) -> room s (node_count e + k) ->
  exists s', proc_expr_statement tables global_variable finsh_heap_addr f s = Some (node_of e NULL, s') /\
    ahead (f_token s') rest /\ room s' k /\ same s s'.
Proof.
  intros Hp Hf Hv Ha Hr. destruct (tokens_head e) as (t & ts & Et & Hst).
  pose proof Ha as Ha'. rewrite Et in Ha'. simpl in Ha'.
  destruct (next_token_ok s _ _ Ha') as (s1 & E1 & _ & _ & _ & _ & s2 & E2 & Ha2 & N2 & S2).
  change (t :: ts ++ sym finsh_token_type_semicolon :: rest)
    with ((t :: ts) ++ sym finsh_token_type_semicolon :: rest) in Ha2. rewrite <-Et in Ha2.
  destruct (proj2 (proj1 parsed_expr e Hp) f Hf s2 (sym finsh_token_type_semicolon) rest k) as (s3 & E3 & Ha3 & Hr3 & S3);
    [by eapply same_vars|exact Ha2|apply follow_semicolon|by eapply room_nodes|].
  destruct (match_token_ok s3 _ _ Ha3) as (s4 & E4 & Ha4 & N4 & S4).
  exists s4. split_and!; [|done|by eapply room_nodes|do 2 (etransitivity; [done|]); done].
  unfold proc_expr_statement. rewrite (bind_Some _ _ _ _ _ E1), bool_decide_eq_false_2.
  2:{ by intros E; rewrite E in Hst. }
  rewrite (bind_Some _ _ _ _ _ E2). unfold proc_expr. rewrite (bind_Some _ _ _ _ _ E3).
  by rewrite (bind_Some _ _ _ _ _ E4).
Qed.

Lemma add_statement_ok es e :
  add_statement (statements_of es) (pred (length es)) (node_of e NULL)
  = (statements_of (es ++ [e]), pred (length (es ++ [e]))).
Proof.
  unfold add_statement. destruct es as [|e0 es]; [done|]. simpl statements_of at 1.
  rewrite !node_of_not_null. f_equal; [|rewrite length_app; simpl; lia].
  simpl. revert e0. induction es as [|e1 es IH]; intros e0; simpl.
  - destruct e0; try done. by destruct x.
  - specialize (IH e1). rewrite <-IH. destruct e0; try done. by destruct x.
Qed.

Lemma parser_loop_step f t es e s s1 s2 s3 t' :
  starts t = true -> replay s = Some (tt, s1) ->
  proc_expr_statement tables global_variable finsh_heap_addr f s1 = Some (node_of e NULL, s2) ->
  next_token s2 = Some (t', s3) ->
  parser_loop tables global_variable finsh_heap_addr (S f) t (statements_of es) (pred (length es)) s =
  parser_loop tables global_variable finsh_heap_addr f t' (statements_of (es ++ [e]))
    (pred (length (es ++ [e]))) s3.
Proof.
  intros Hst E1 E2 E3. simpl.
  rewrite bool_decide_eq_false_2 by (intros [E|E]; by rewrite E in Hst).
  rewrite (bind_Some _ _ _ _ _ E1).
  assert (is_base_type t || bool_decide (t = finsh_token_type_unsigned) = false) as ->
    by (by destruct t).
  rewrite (bind_Some _ _ _ _ _ E2), node_of_not_null, andb_false_r. simpl.
  rewrite (bind_Some _ _ _ tt s2) by done. rewrite add_statement_ok.
  assert (is_null (statements_of (es ++ [e])) = false) as ->
    by (destruct es; apply node_of_not_null).
  by rewrite (bind_Some _ _ _ _ _ E3).
Qed.

Lemma parser_loop_ok es : forall f s s0 t rest k done,
  Forall printable es -> (line_nodes es + 3 <= f)%nat -> f_vars s0 = vars ->
  line_tokens es = t :: rest -> next_token s0 = Some (t_type t, s) ->
  ahead (f_token s0) (t :: rest) -> room s0 (line_nodes es + k) ->
  exists s', parser_loop tables global_variable finsh_heap_addr f (t_type t) (statements_of done)
      (pred (length done)) s = Some (statements_of (done ++ es), s') /\ room s' k /\ same s0 s'.
Proof.
  induction es as [|e es IH]; intros f s s0 t rest k don Hp Hf Hv Et E0 Ha Hr;
    destruct (next_token_ok s0 _ _ Ha) as (s1 & E1 & _ & _ & N1 & S1 & s2 & E2 & Ha2 & N2 & S2);
    rewrite E0 in E1; injection E1 as ->; (destruct f as [|f]; [lia|]).
  - injection Et as <- <-. exists s1. rewrite app_nil_r. split_and!; [done|by eapply room_nodes|done].
  - apply Forall_cons in Hp as (Hpe & Hp). rewrite line_nodes_cons in Hf, Hr. rewrite line_tokens_cons in Et.
    destruct (tokens_head e) as (t0 & ts0 & Et0 & Hst).
    assert (t = t0) as -> by (rewrite Et0 in Et; by simplify_eq/=).
    rewrite <-Et in Ha2.
    destruct (expr_statement_ok f e s2 (line_tokens es) (line_nodes es + k)%nat Hpe)
      as (s3 & E3 & Ha3 & Hr3 & S3);
      [lia|by eapply same_vars|exact Ha2|eapply room_le; [|eapply room_nodes; [exact N2|exact Hr]]; lia|].
    destruct (line_tokens_head es) as (t' & rest' & Et').
    rewrite Et' in Ha3. destruct (next_token_ok s3 _ _ Ha3) as (s4 & E4 & _ & _ & _ & S4 & _).
    pose proof (node_count_pos e).
    destruct (IH f s4 s3 t' rest' k (don ++ [e])) as (s5 & E5 & Hr5 & S5);
      [done|lia|eapply same_vars; [exact S3|]; by eapply same_vars|done|done|done|done|].
    exists s5. split_and!; [|done|do 2 (etransitivity; [done|]); done].
    rewrite <-app_assoc in E5. simpl app in E5. rewrite <-E5.
    by eapply parser_loop_step.
Qed.

(** The syntax tree of a line of statements. *)
Lemma finsh_parser_run_ok es line f s k :
  Forall printable es -> (line_nodes es + 3 <= f)%nat -> f_vars s = vars ->
  feeds (finsh_token_init line) (line_tokens es) -> room s (line_nodes es + k) ->
  exists s', finsh_parser_run tables global_variable finsh_heap_addr f line s
    = Some (statements_of es, s') /\ room s' k /\ same s s'.
Proof.
  intros Hp Hf Hv Hfeeds Hr.
  destruct (line_tokens_head es) as (t & rest & Et).
  set (s0 := set_token (finsh_token_init line) s).
  assert (ahead (f_token s0) (t :: rest)) as Ha by (rewrite <-Et; exact Hfeeds).
  destruct (next_token_ok s0 t rest Ha) as (s1 & E1 & _).
  destruct (parser_loop_ok es f s1 s0 t rest k []) as (s2 & E2 & Hr2 & S2); try done.
  exists s2. split_and!; [|done|].
  - unfold finsh_parser_run. rewrite (bind_Some _ _ _ tt s0) by done.
    by rewrite (bind_Some _ _ _ _ _ E1).
  - destruct S2 as (?&?&?&?). by split_and!.
Qed.

End syntax.
