(* ===== verification/FinshLex.v ===== *)
(** * The lexer on the tokens of a line

    [spelled ts line]: the characters [line] are the tokens [ts], with any
    blanks between them and none where two tokens do not run together.  The
    theorem of this file: the lexer reads [ts] from such a line. *)

From S2P Require Import Prelude StateM Finsh FinshVm FinshCompiler FinshHeap FinshToken FinshParser.
From S2P Require Import FinshExpr FinshCorrect FinshSyntax.

(** ** Spelling *)

(** The number that digits stand for. *)
Definition digits_value (base : Z) (ds : list Z) : Z :=
  foldl (fun v d => v * base + digit_of d) 0 ds.

Definition hex_digit (c : Z) : bool :=
  is_digit c || ((97 <=? c) && (c <=? 102)) || ((65 <=? c) && (c <=? 70)).
Definition octal_digit (c : Z) : bool := (48 <=? c) && (c <=? 55).
Definition binary_digit (c : Z) : bool := (c =? 48) || (c =? 49).

(** Literals and their values; [long] ones may have a suffix, which the lexer
    takes for digits of a hexadecimal number. *)
Inductive literal : bool -> list Z -> Z -> Prop :=
  | lit_decimal long d ds :
      d <> 48 -> Forall (fun c => is_digit c = true) (d :: ds) ->
      digits_value 10 (d :: ds) < 2 ^ 31 ->
      literal long (d :: ds) (digits_value 10 (d :: ds))
  | lit_octal long ds :
      Forall (fun c => octal_digit c = true) ds -> digits_value 8 ds < 2 ^ 32 ->
      Z.of_nat (length ds) < 128 ->
      literal long (48 :: ds) (digits_value 8 ds)
  | lit_binary long x ds :
      x = 98 \/ x = 66 -> Forall (fun c => binary_digit c = true) ds ->
      digits_value 2 ds < 2 ^ 32 -> Z.of_nat (length ds) < 128 ->
      literal long (48 :: x :: ds) (digits_value 2 ds)
  | lit_hex x ds :
      x = 120 \/ x = 88 -> Forall (fun c => hex_digit c = true) ds ->
      digits_value 16 ds < 2 ^ 32 -> Z.of_nat (length ds) < 128 ->
      literal false (48 :: x :: ds) (digits_value 16 ds).

(** The operators of one and of two characters. *)
Definition op_text (t : finsh_token_type) : option (list Z) :=
  match t with
  | finsh_token_type_left_paren => Some [40]
  | finsh_token_type_right_paren => Some [41]
  | finsh_token_type_comma => Some [44]
  | finsh_token_type_semicolon => Some [59]
  | finsh_token_type_mul => Some [42]
  | finsh_token_type_add => Some [43]
  | finsh_token_type_inc => Some [43; 43]
  | finsh_token_type_sub => Some [45]
  | finsh_token_type_dec => Some [45; 45]
  | finsh_token_type_div => Some [47]
  | finsh_token_type_mod => Some [37]
  | finsh_token_type_assign => Some [61]
  | finsh_token_type_and => Some [38]
  | finsh_token_type_or => Some [124]
  | finsh_token_type_xor => Some [94]
  | finsh_token_type_bitwise => Some [126]
  | finsh_token_type_shl => Some [60; 60]
  | finsh_token_type_shr => Some [62; 62]
  | _ => None
  end.

(** The next character is [c] and does not end the line. *)
Definition starts_with (f : Z -> bool) (rest : list Z) : Prop :=
  exists c cs, rest = c :: cs /\ 0 <= c < 256 /\ c <> 10 /\ f c = true.

(** The text of a token, in front of [rest]. *)
Inductive spelling : tok -> list Z -> list Z -> Prop :=
  | sp_name name rest :
      name_ok name -> starts_with is_separator rest -> spelling (id_token name) name rest
  | sp_keyword t cs rest :
      (cs, t) ∈ finsh_name_table -> starts_with is_separator rest -> spelling (sym t) cs rest
  | sp_int cs n rest :
      literal false cs n -> starts_with is_separator rest ->
      spelling (Tok finsh_token_type_value_int n []) cs rest
  | sp_long cs n l rest :
      literal true cs n -> l = 108 \/ l = 76 ->
      spelling (Tok finsh_token_type_value_long n []) (cs ++ [l]) rest
  | sp_char c rest :
      plain_char c -> spelling (Tok finsh_token_type_value_char c []) [39; c; 39] rest
  | sp_op t cs rest :
      op_text t = Some cs ->
      (t = finsh_token_type_add \/ t = finsh_token_type_sub \/ t = finsh_token_type_div ->
       starts_with (fun c => negb (bool_decide (cs = [c]))) rest) ->
      spelling (sym t) cs rest.

Definition blank (c : Z) : Prop := c = 32 \/ c = 9 \/ c = 13.

Inductive spelled : list tok -> list Z -> Prop :=
  | spelled_end gap : Forall blank gap -> spelled [sym finsh_token_type_eof] gap
  | spelled_token gap t cs ts rest :
      Forall blank gap -> spelling t cs rest -> spelled ts rest ->
      spelled (t :: ts) (gap ++ cs ++ rest).

(** ** Reading characters *)

(** The line from the position on. *)
Definition suffix (line : list Z) (pos : Z) (rest : list Z) : Prop :=
  exists pre, line = pre ++ rest /\ pos = Z.of_nat (length pre).

Lemma suffix_app line pos cs rest :
  suffix line pos (cs ++ rest) -> suffix line (pos + Z.of_nat (length cs)) rest.
Proof.
  intros (pre & -> & ->). exists (pre ++ cs). split; [by rewrite app_assoc|]. rewrite length_app. lia.
Qed.

Lemma suffix_cons line pos c rest : suffix line pos (c :: rest) -> suffix line (pos + 1) rest.
Proof. apply (suffix_app line pos [c]). Qed.

Lemma suffix_pos line pos rest : suffix line pos rest -> 0 <= pos.
Proof. intros (pre & _ & ->). lia. Qed.

Lemma suffix_lookup line pos c rest : suffix line pos (c :: rest) -> zlookup line pos = Some c.
Proof.
  intros (pre & -> & ->). unfold zlookup. rewrite (proj2 (Z.leb_le _ _)) by lia.
  by rewrite Nat2Z.id, list_lookup_middle.
Qed.

Lemma suffix_length line pos rest : suffix line pos rest -> (length rest <= length line)%nat.
Proof. intros (pre & -> & _). rewrite length_app. lia. Qed.

Lemma bind_tget {A B} (f : finsh_token -> A) (g : A -> L B) s :
  (tget f ≫= g) s = g (f s.1) s.
Proof. done. Qed.

Lemma bind_tupd {B} f (g : unit -> L B) t e : (tupd f ≫= g) (t, e) = g tt (f t, e).
Proof. done. Qed.

Lemma digit_of_digit c : is_digit c = true -> 0 <= digit_of c < 10 /\ digit_of c = c - 48.
Proof.
  unfold is_digit, digit_of. intros H.
  rewrite (proj2 (andb_false_iff (97 <=? c) _)), (proj2 (andb_false_iff (65 <=? c) _)); lia.
Qed.

Lemma digits_mono base v ds :
  1 <= base -> Forall (fun d => 0 <= digit_of d) ds -> 0 <= v ->
  v <= foldl (fun v d => v * base + digit_of d) v ds.
Proof.
  intros Hb H. revert v. induction H as [|d ds Hd _ IH]; intros v Hv; simpl; [lia|].
  specialize (IH (v * base + digit_of d)). nia.
Qed.

(** Shifting a digit in. *)
Lemma lor_digit k q d : 0 <= k -> 0 <= d < 2 ^ k -> q * 2 ^ k |. d = q * 2 ^ k + d.
Proof.
  intros Hk Hd.
  assert (Z.land (q * 2 ^ k) d = 0) as Hl.
  { apply Z.bits_inj'. intros n Hn. rewrite Z.land_spec, Z.bits_0.
    destruct (Z.lt_ge_cases n k); [by rewrite Z.mul_pow2_bits_low|].
    rewrite <-(Z.mod_small d (2 ^ k)), Z.mod_pow2_bits_high, andb_false_r by lia. done. }
  by rewrite <-Z.lxor_lor, Z.add_nocarry_lxor.
Qed.

Lemma spec_step_fst shift bn c :
  0 <= shift <= 32 -> 0 <= digit_of c < 2 ^ shift ->
  fst (spec_step shift bn c) = u32 (bn.1 * 2 ^ shift + digit_of c).
Proof.
  intros Hs Hd. unfold spec_step. simpl.
  assert (2 ^ shift <= 2 ^ 32) by (apply Z.pow_le_mono_r; lia).
  rewrite (wrap_small 32 (digit_of c)) by (unfold in_u; lia).
  unfold wrap. rewrite Z.shiftl_mul_pow2 by lia.
  assert (2 ^ 32 = 2 ^ (32 - shift) * 2 ^ shift) as E by (rewrite <-Z.pow_add_r by lia; f_equal; lia).
  assert (0 < 2 ^ (32 - shift)) by (apply Z.pow_pos_nonneg; lia).
  rewrite E, Zmult_mod_distr_r, lor_digit by lia.
  apply (Z.mod_unique _ _ (bn.1 / 2 ^ (32 - shift))).
  - left. pose proof (Z.mod_pos_bound bn.1 (2 ^ (32 - shift))). nia.
  - pose proof (Z.div_mod bn.1 (2 ^ (32 - shift))). nia.
Qed.

Lemma spec_number_ok shift ds bn :
  0 <= shift <= 32 -> Forall (fun d => 0 <= digit_of d < 2 ^ shift) ds ->
  in_u 32 bn.1 ->
  fst (foldl (spec_step shift) bn ds) = u32 (foldl (fun v d => v * 2 ^ shift + digit_of d) bn.1 ds).
Proof.
  intros Hs H. revert bn. induction H as [|d ds Hd _ IH]; intros bn Hbn; simpl.
  - by rewrite wrap_small.
  - rewrite IH by (rewrite spec_step_fst by done; by apply wrap_range).
    rewrite spec_step_fst by done. generalize (bn.1 * 2 ^ shift + digit_of d) as v. clear.
    intros v. unfold wrap.
    assert (forall x y, x mod 2 ^ 32 = y mod 2 ^ 32 ->
      (foldl (fun v d => v * 2 ^ shift + digit_of d) x ds) mod 2 ^ 32 =
      (foldl (fun v d => v * 2 ^ shift + digit_of d) y ds) mod 2 ^ 32) as Hcong.
    { induction ds as [|d ds IH]; intros x y E; simpl; [done|]. apply IH.
      rewrite Z.add_mod, Z.mul_mod, E, <-Z.mul_mod, <-Z.add_mod by done. done. }
    apply Hcong. by rewrite Z.mod_mod.
Qed.

Lemma digits_nonneg base ds :
  1 <= base -> Forall (fun d => 0 <= digit_of d) ds -> 0 <= digits_value base ds.
Proof. intros. by apply digits_mono. Qed.

Lemma spec_number_value b shift ds :
  (b, shift) ∈ [(16, 4); (8, 3); (2, 1)] -> Forall (fun d => 0 <= digit_of d < b) ds ->
  digits_value b ds < 2 ^ 32 -> u32 (token_spec_number ds b) = digits_value b ds.
Proof.
  intros Hb Hd Hv. unfold token_spec_number.
  assert (b = 2 ^ shift /\ 0 <= shift <= 32 /\
    (if b =? 16 then 4 else if b =? 8 then 3 else 1) = shift) as (E & Hs & ->).
  { repeat (apply elem_of_cons in Hb as [[= -> ->]|Hb]; [done|]). by apply not_elem_of_nil in Hb. }
  rewrite wrap_swrap, spec_number_ok, wrap_idem by (done || lia || by rewrite <-E).
  rewrite <-E. apply wrap_small. split; [|done]. apply digits_nonneg.
  - subst b. pose proof (Z.pow_pos_nonneg 2 shift). lia.
  - eapply Forall_impl; [exact Hd|]. simpl. lia.
Qed.

(** A fact about the characters of a range, by evaluation. *)
Lemma range_cases (Q : Z -> bool) lo n :
  forallb Q (seqZ lo n) = true -> forall c, lo <= c < lo + n -> Q c = true.
Proof.
  intros H c Hc. rewrite forallb_forall in H. apply H, list_elem_of_In, elem_of_seqZ. lia.
Qed.

Lemma hex_range c : hex_digit c = true -> 0 <= digit_of c < 16.
Proof.
  unfold hex_digit, is_digit, digit_of. intros H.
  destruct (Z.leb_spec 97 c), (Z.leb_spec c 102), (Z.leb_spec 65 c), (Z.leb_spec c 70); simpl in *; lia.
Qed.

Lemma octal_range c : octal_digit c = true -> 0 <= digit_of c < 8.
Proof.
  unfold octal_digit. intros H. destruct (digit_of_digit c) as (_ & ->); [unfold is_digit|]; lia.
Qed.

Lemma binary_range c : binary_digit c = true -> 0 <= digit_of c < 2.
Proof.
  unfold binary_digit. intros H. destruct (digit_of_digit c) as (_ & ->); [unfold is_digit|]; lia.
Qed.

Lemma hex_alpha c : hex_digit c = true -> is_digit c || is_alpha c = true /\ c <> 10.
Proof.
  intros H. assert (48 <= c < 48 + 55) as Hr by (unfold hex_digit, is_digit in H; lia).
  pose proof (range_cases (fun c => negb (hex_digit c) || ((is_digit c || is_alpha c) && negb (c =? 10)))
    48 55 ltac:(by vm_compute) c Hr) as Hc.
  simpl in Hc. rewrite H in Hc. simpl in Hc. apply andb_true_iff in Hc as (? & ?). split; [done|lia].
Qed.

(** The buffer with a word in it. *)
Definition word_buffer (cs buf : list Z) : list Z := list_inserts 0 (cs ++ [0]) (<[0%nat := 0]> buf).

Lemma word_buffer_nil buf : word_buffer [] buf = <[0%nat := 0]> buf.
Proof. unfold word_buffer. simpl. apply list_insert_insert_eq. Qed.

Lemma word_buffer_length cs buf : length (word_buffer cs buf) = length buf.
Proof. unfold word_buffer. by rewrite length_inserts, length_insert. Qed.

Lemma c_string_app cs buf : Forall (fun c => c <> 0) cs -> c_string (cs ++ 0 :: buf) = cs.
Proof.
  induction 1 as [|c cs Hc _ IH]; simpl; [done|]. rewrite (proj2 (Z.eqb_neq _ _)) by done. by rewrite IH.
Qed.

Lemma word_char c : is_separator c = false -> c <> 0 /\ c <> 10 /\ ~ blank c.
Proof. unfold is_separator, blank. intros H. lia. Qed.

Lemma word_buffer_string cs buf :
  Forall (fun c => is_separator c = false) cs -> (length cs < length buf)%nat ->
  c_string (word_buffer cs buf) = cs.
Proof.
  intros Hw Hl. unfold word_buffer.
  rewrite <-(take_drop (length (cs ++ [0])) (<[0%nat := 0]> buf)).
  rewrite list_inserts_0_r by (rewrite length_take, length_insert, length_app; cbn [length]; lia).
  rewrite <-app_assoc. apply c_string_app. eapply Forall_impl; [exact Hw|].
  intros x Hx. by destruct (word_char x Hx).
Qed.

(** Two results with the same parts. *)
Ltac same_state :=
  unfold mret, ST_ret; simpl length;
  repeat match goal with
  | |- Some _ = Some _ => f_equal
  | |- (_, _) = (_, _) => f_equal
  | |- Token _ _ _ _ _ _ _ = Token _ _ _ _ _ _ _ => f_equal
  end; first [done|lia].

Section token.

Context (line : list Z) (e : Z).

(** A lexer that has not come to the end of the line. *)
Abbreviation T pos cur v buf := (Token false false pos cur v buf line, e).

Lemma next_char pos cur v buf c rest :
  suffix line pos (c :: rest) -> c <> 10 ->
  token_next_char (T pos cur v buf) = Some (c, T (pos + 1) cur v buf).
Proof.
  intros H Hc. unfold token_next_char. simpl. rewrite (suffix_lookup _ _ _ _ H).
  by rewrite (proj2 (Z.eqb_neq _ _)).
Qed.

Lemma prev_char pos cur v buf :
  0 <= pos -> token_prev_char (T (pos + 1) cur v buf) = Some (tt, T pos cur v buf).
Proof.
  intros H. unfold token_prev_char, tupd, supd. simpl. rewrite (proj2 (Z.eqb_neq _ _)) by lia.
  unfold set_position. simpl. same_state.
Qed.

Lemma end_char pos cur v buf :
  suffix line pos [] ->
  token_next_char (T pos cur v buf) = Some (0, (Token true false 0 cur v buf line, e)).
Proof.
  intros (pre & E & ->). unfold token_next_char. simpl. unfold zlookup.
  rewrite (proj2 (Z.leb_le _ _)) by lia. rewrite Nat2Z.id.
  rewrite lookup_ge_None_2; [done|]. rewrite E, app_nil_r. lia.
Qed.

(** The loops. *)
Lemma trim_gap gap c rest pos cur v buf fuel :
  Forall blank gap -> suffix line pos (gap ++ c :: rest) -> ~ blank c -> c <> 10 ->
  (length gap <= fuel)%nat ->
  trim_loop fuel (T pos cur v buf) = Some (tt, T (pos + Z.of_nat (length gap) + 1) cur v buf).
Proof.
  intros Hg. revert pos fuel. induction Hg as [|g gap Hg _ IH]; intros pos fuel Hs Hc Hn Hf; simpl in *.
  - destruct fuel; simpl; rewrite (bind_Some _ _ _ _ _ (next_char _ _ _ _ _ _ Hs Hn));
      (replace ((c =? 32) || (c =? 9) || (c =? 13)) with false by (unfold blank in Hc; lia)); simpl;
      unfold mret, ST_ret; same_state.
  - destruct fuel as [|fuel]; [lia|]. simpl.
    assert (g <> 10) as Hg10 by (unfold blank in Hg; lia).
    rewrite (bind_Some _ _ _ _ _ (next_char _ _ _ _ _ _ Hs Hg10)).
    replace ((g =? 32) || (g =? 9) || (g =? 13)) with true by (unfold blank in Hg; lia).
    rewrite (IH _ fuel (suffix_cons _ _ _ _ Hs)) by (done || lia). same_state.
Qed.

Lemma trim_end gap pos cur v buf fuel :
  Forall blank gap -> suffix line pos gap -> (length gap <= fuel)%nat ->
  trim_loop fuel (T pos cur v buf) = Some (tt, (Token true false 0 cur v buf line, e)).
Proof.
  intros Hg. revert pos fuel. induction Hg as [|g gap Hg _ IH]; intros pos fuel Hs Hf; simpl in *.
  - destruct fuel; simpl; by rewrite (bind_Some _ _ _ _ _ (end_char _ _ _ _ Hs)).
  - destruct fuel as [|fuel]; [lia|]. simpl.
    assert (g <> 10) as Hg10 by (unfold blank in Hg; lia).
    rewrite (bind_Some _ _ _ _ _ (next_char _ _ _ _ _ _ Hs Hg10)).
    replace ((g =? 32) || (g =? 9) || (g =? 13)) with true by (unfold blank in Hg; lia).
    apply IH; [by eapply suffix_cons|lia].
Qed.

Lemma take_while_ok f ch cs c rest pos cur v buf acc fuel :
  f ch = true -> Forall (fun c => f c = true /\ c <> 10) cs -> f c = false -> c <> 10 ->
  suffix line pos (cs ++ c :: rest) -> (length cs < fuel)%nat ->
  take_while fuel f ch acc (T pos cur v buf) =
  Some ((acc ++ ch :: cs, c), T (pos + Z.of_nat (length cs) + 1) cur v buf).
Proof.
  intros Hch Hcs Hc Hn. revert ch Hch pos acc fuel.
  induction Hcs as [|x cs (Hx & Hxn) _ IH]; intros ch Hch pos acc fuel Hs Hf; simpl in *;
    (destruct fuel as [|fuel]; [lia|]); simpl; rewrite bind_tget; simpl; rewrite Hch; simpl.
  - rewrite (bind_Some _ _ _ _ _ (next_char _ _ _ _ _ _ Hs Hn)).
    destruct fuel; simpl; rewrite bind_tget; simpl; rewrite Hc; simpl;
      unfold mret, ST_ret; same_state.
  - rewrite (bind_Some _ _ _ _ _ (next_char _ _ _ _ _ _ Hs Hxn)).
    rewrite (IH x Hx _ _ fuel (suffix_cons _ _ _ _ Hs)) by lia.
    rewrite <-app_assoc. same_state.
Qed.

(** The loops over digits. *)
Lemma decimal_loop_ok ch cs c rest pos cur v buf acc fuel :
  Forall (fun c => is_digit c = true) (ch :: cs) -> is_digit c = false -> c <> 10 ->
  suffix line pos (cs ++ c :: rest) -> (length cs < fuel)%nat -> 0 <= acc ->
  foldl (fun v d => v * 10 + digit_of d) acc (ch :: cs) < 2 ^ 31 ->
  decimal_loop fuel ch acc (T pos cur v buf) =
  Some ((foldl (fun v d => v * 10 + digit_of d) acc (ch :: cs), c),
        T (pos + Z.of_nat (length cs) + 1) cur v buf).
Proof.
  revert ch pos acc fuel. induction cs as [|x cs IH]; intros ch pos acc fuel Hd Hc Hn Hs Hf H0 Hlt;
    apply Forall_cons in Hd as (Hch & Hd); pose proof (digit_of_digit ch Hch) as (Hv & Hv2);
    simpl in *; (destruct fuel as [|fuel]; [lia|]); simpl; rewrite Hch, <-Hv2.
  - rewrite (bind_Some _ _ _ _ _ (next_char _ _ _ _ _ _ Hs Hn)).
    rewrite swrap_small by (simpl; lia). destruct fuel; simpl; rewrite Hc; same_state.
  - assert (x <> 10) as Hx by (apply Forall_cons in Hd as (Hx & _); unfold is_digit in Hx; lia).
    rewrite (bind_Some _ _ _ _ _ (next_char _ _ _ _ _ _ Hs Hx)).
    assert (acc * 10 + digit_of ch <= foldl (fun v d => v * 10 + digit_of d) (acc * 10 + digit_of ch) (x :: cs)).
    { apply digits_mono; [lia| |lia]. eapply Forall_impl; [exact Hd|]. intros y Hy. by apply digit_of_digit. }
    rewrite swrap_small by (simpl in *; lia).
    rewrite (IH x _ _ fuel Hd Hc Hn (suffix_cons _ _ _ _ Hs)) by (done || lia). same_state.
Qed.

Lemma number_loop_ok f ch cs c rest pos cur v buf acc fuel :
  Forall (fun c => f c = true /\ c <> 10) (ch :: cs) -> f c = false -> c <> 10 ->
  suffix line pos (cs ++ c :: rest) -> (length cs < fuel)%nat ->
  Z.of_nat (length acc + length (ch :: cs)) < 128 ->
  number_loop fuel f ch acc (T pos cur v buf) =
  Some ((acc ++ ch :: cs, c), T (pos + Z.of_nat (length cs) + 1) cur v buf).
Proof.
  revert ch pos acc fuel. induction cs as [|x cs IH]; intros ch pos acc fuel Hd Hc Hn Hs Hf Hlt;
    apply Forall_cons in Hd as ((Hch & _) & Hd);
    simpl in *; (destruct fuel as [|fuel]; [lia|]); simpl; rewrite Hch.
  - rewrite (bind_Some _ _ _ _ _ (next_char _ _ _ _ _ _ Hs Hn)).
    destruct fuel; simpl; rewrite Hc, (proj2 (Z.ltb_lt _ _)) by (rewrite length_app; simpl; lia);
      simpl; same_state.
  - pose proof Hd as ((_ & Hx) & _)%Forall_cons.
    rewrite (bind_Some _ _ _ _ _ (next_char _ _ _ _ _ _ Hs Hx)).
    rewrite (IH x _ _ fuel Hd Hc Hn (suffix_cons _ _ _ _ Hs)).
    + rewrite <-app_assoc. same_state.
    + lia.
    + rewrite length_app. simpl. lia.
Qed.

Lemma number_loop_end f c pos cur v buf fuel :
  f c = false -> number_loop fuel f c [] (T pos cur v buf) = Some (([], c), T pos cur v buf).
Proof. intros H. by destruct fuel; simpl; rewrite H. Qed.

(** [c] ends a literal. *)
Definition ends_literal (long : bool) (c : Z) : Prop :=
  c <> 10 /\ is_digit c = false /\ c <> 120 /\ c <> 88 /\ c <> 98 /\ c <> 66 /\
  (long = false -> is_alpha c = false).

(** Behind the digits. *)
Definition number_end (c pos n : Z) (buf : list Z) : option (unit * (finsh_token * Z)) :=
  Some (tt, if (c =? 108) || (c =? 76) then T (pos + 1) finsh_token_type_value_long n buf
            else T pos finsh_token_type_value_int n buf).

Lemma number_tail c pos n buf :
  0 <= pos ->
  (if (c =? 108) || (c =? 76) then tupd (set_current finsh_token_type_value_long)
   else token_prev_char) (T (pos + 1) finsh_token_type_value_int n buf) = number_end c pos n buf.
Proof. intros H. unfold number_end. destruct (_ || _); [done|]. by rewrite prev_char. Qed.

Lemma proc_decimal d ds c rest pos cur v buf :
  d <> 48 -> Forall (fun c => is_digit c = true) (d :: ds) -> digits_value 10 (d :: ds) < 2 ^ 31 ->
  is_digit c = false -> c <> 10 -> suffix line pos (d :: ds ++ c :: rest) ->
  token_proc_number (T pos cur v buf) =
  number_end c (pos + Z.of_nat (length (d :: ds))) (digits_value 10 (d :: ds)) buf.
Proof.
  intros H48 Hd Hv Hc Hn Hs. pose proof (suffix_pos _ _ _ Hs). pose proof (suffix_length _ _ _ Hs) as Hl.
  pose proof Hd as (Hdd & _)%Forall_cons.
  unfold token_proc_number.
  rewrite (bind_Some _ _ _ _ _ (next_char _ _ _ _ _ _ Hs ltac:(unfold is_digit in Hdd; lia))).
  unfold line_fuel. rewrite bind_tget. simpl tok_line.
  rewrite (proj2 (Z.eqb_neq _ _)) by done.
  rewrite bind_assoc, (bind_Some _ _ _ _ _
    (decimal_loop_ok d ds c rest (pos + 1) cur v buf 0 (S (S (length line))) Hd Hc Hn (suffix_cons _ _ _ _ Hs)
       ltac:(simpl in *; rewrite length_app in Hl; simpl in Hl; lia) ltac:(lia) Hv)).
  rewrite bind_assoc, bind_tupd. rewrite bind_assoc, bind_tupd.
  rewrite (bind_Some _ _ _ c _ eq_refl). simpl fst.
  rewrite wrap_small.
  2:{ split; [|unfold digits_value in Hv; simpl in Hv |- *; lia]. apply (digits_mono 10 0 (d :: ds)); [lia| |lia].
      eapply Forall_impl; [exact Hd|]. intros y Hy. by apply digit_of_digit. }
  rewrite <-number_tail by lia. simpl length.
  replace (pos + Z.of_nat (S (length ds)) + 1) with (pos + 1 + Z.of_nat (length ds) + 1) by lia. done.
Qed.

Lemma loop_digits f ds c rest ch tl pos cur v buf :
  ds ++ c :: rest = ch :: tl -> suffix line pos (ch :: tl) ->
  Forall (fun c => f c = true /\ c <> 10) ds -> f c = false -> c <> 10 ->
  Z.of_nat (length ds) < 128 ->
  number_loop (S (S (length line))) f ch [] (T (pos + 1) cur v buf) =
  Some ((ds, c), T (pos + Z.of_nat (length ds) + 1) cur v buf).
Proof.
  intros E Hs Hd Hc Hn Hl. pose proof (suffix_length _ _ _ Hs) as Hl'.
  destruct ds as [|d ds]; simpl in E; injection E as -> <-.
  - rewrite number_loop_end by done. same_state.
  - rewrite (number_loop_ok f ch ds c rest); try done; [same_state|by eapply suffix_cons|].
    simpl in Hl'. rewrite length_app in Hl'. simpl in Hl'. lia.
Qed.

(** The digits behind 0, 0x or 0b, from the character [ch] on: [b] is the base. *)
Lemma proc_prefixed f b shift ds c rest ch tl pos cur v buf :
  (b, shift) ∈ [(16, 4); (8, 3); (2, 1)] ->
  Forall (fun d => 0 <= digit_of d < b) ds -> Forall (fun c => f c = true /\ c <> 10) ds ->
  digits_value b ds < 2 ^ 32 -> Z.of_nat (length ds) < 128 -> f c = false -> c <> 10 ->
  ds ++ c :: rest = ch :: tl -> suffix line pos (ch :: tl) ->
  ((r ← (r ← number_loop (S (S (length line))) f ch []; mret (r, b));
    let '((buf, ch), b) := r in
    tupd (set_value (u32 (token_spec_number buf b)));;
    tupd (set_current finsh_token_type_value_int);;
    mret ch) ≫= fun ch : Z =>
   if (ch =? 108) || (ch =? 76) then tupd (set_current finsh_token_type_value_long)
   else token_prev_char) (T (pos + 1) cur v buf)
  = number_end c (pos + Z.of_nat (length ds)) (digits_value b ds) buf.
Proof.
  intros Hb Hd Hf Hv Hl Hc Hn E Hs. pose proof (suffix_pos _ _ _ Hs).
  rewrite !bind_assoc, (bind_Some _ _ _ _ _ (loop_digits f ds c rest ch tl _ _ _ _ E Hs Hf Hc Hn Hl)).
  rewrite (bind_Some _ _ _ _ _ eq_refl), bind_assoc, bind_tupd, bind_assoc, bind_tupd.
  rewrite (spec_number_value _ _ _ Hb Hd Hv), (bind_Some _ _ _ _ _ eq_refl).
  rewrite <-number_tail by lia. done.
Qed.

(** The first character of the digits. *)
Lemma digits_head (Q : Z -> Prop) ds c rest :
  Forall Q ds -> Q c -> exists ch tl, ds ++ c :: rest = ch :: tl /\ Q ch.
Proof. intros [|d ds' Hd Hds] Hc; simpl; eauto. Qed.

Lemma proc_marked (b : Z) x ds c rest pos cur v buf f shift :
  (b = 16 /\ (x = 120 \/ x = 88) /\ f = (fun c => is_digit c || is_alpha c) \/
   b = 2 /\ (x = 98 \/ x = 66) /\ f = (fun c => (c =? 48) || (c =? 49))) ->
  (b, shift) ∈ [(16, 4); (8, 3); (2, 1)] ->
  Forall (fun d => 0 <= digit_of d < b) ds -> Forall (fun c => f c = true /\ c <> 10) ds ->
  digits_value b ds < 2 ^ 32 -> Z.of_nat (length ds) < 128 -> f c = false -> c <> 10 ->
  suffix line pos (48 :: x :: ds ++ c :: rest) ->
  token_proc_number (T pos cur v buf) =
  number_end c (pos + Z.of_nat (length (48 :: x :: ds))) (digits_value b ds) buf.
Proof.
  intros Hx Hb Hd Hf Hv Hl Hc Hn Hs.
  pose proof (suffix_cons _ _ _ _ Hs) as Hs1. pose proof (suffix_cons _ _ _ _ Hs1) as Hs2.
  destruct (digits_head (fun c => c <> 10) ds c rest) as (ch & tl & E & Hch);
    [eapply Forall_impl; [exact Hf|]; by intros ? (_ & ?)|done|].
  rewrite E in Hs2.
  unfold token_proc_number. rewrite (bind_Some _ _ _ _ _ (next_char _ _ _ _ _ _ Hs ltac:(done))).
  unfold line_fuel. rewrite bind_tget. simpl tok_line. cbn [Z.eqb Pos.eqb].
  rewrite bind_assoc, (bind_Some _ _ _ _ _ (next_char _ _ _ _ _ _ Hs1 ltac:(lia))).
  replace (pos + Z.of_nat (length (48 :: x :: ds))) with (pos + 1 + 1 + Z.of_nat (length ds)) by (simpl; lia).
  rewrite <-(proc_prefixed f b shift ds c rest ch tl (pos + 1 + 1) cur v buf Hb Hd Hf Hv Hl Hc Hn E Hs2).
  destruct Hx as [(-> & Hx & ->)|(-> & Hx & ->)].
  - replace ((x =? 120) || (x =? 88)) with true by lia.
    by rewrite !bind_assoc, (bind_Some _ _ _ _ _ (next_char _ _ _ _ _ _ Hs2 Hch)), !bind_assoc.
  - replace ((x =? 120) || (x =? 88)) with false by lia.
    replace ((x =? 98) || (x =? 66)) with true by lia.
    by rewrite !bind_assoc, (bind_Some _ _ _ _ _ (next_char _ _ _ _ _ _ Hs2 Hch)), !bind_assoc.
Qed.

Lemma proc_octal ds c rest pos cur v buf long :
  Forall (fun c => octal_digit c = true) ds -> digits_value 8 ds < 2 ^ 32 ->
  Z.of_nat (length ds) < 128 -> ends_literal long c -> suffix line pos (48 :: ds ++ c :: rest) ->
  token_proc_number (T pos cur v buf) =
  number_end c (pos + Z.of_nat (length (48 :: ds))) (digits_value 8 ds) buf.
Proof.
  intros Hd Hv Hl (Hn & Hdig & H1 & H2 & H3 & H4 & _) Hs.
  pose proof (suffix_cons _ _ _ _ Hs) as Hs1.
  destruct (digits_head (fun c => c <> 10 /\ c <> 120 /\ c <> 88 /\ c <> 98 /\ c <> 66) ds c rest)
    as (ch & tl & E & Hch).
  { eapply Forall_impl; [exact Hd|]. unfold octal_digit. intros. lia. }
  { done. }
  rewrite E in Hs1.
  unfold token_proc_number. rewrite (bind_Some _ _ _ _ _ (next_char _ _ _ _ _ _ Hs ltac:(done))).
  unfold line_fuel. rewrite bind_tget. simpl tok_line. cbn [Z.eqb Pos.eqb].
  rewrite bind_assoc, (bind_Some _ _ _ _ _ (next_char _ _ _ _ _ _ Hs1 ltac:(lia))).
  replace ((ch =? 120) || (ch =? 88)) with false by lia.
  replace ((ch =? 98) || (ch =? 66)) with false by lia.
  replace (pos + Z.of_nat (length (48 :: ds))) with (pos + 1 + Z.of_nat (length ds)) by (simpl; lia).
  apply (proc_prefixed is_digit 8 3 ds c rest ch tl); try done; [set_solver| .. ];
    (eapply Forall_impl; [exact Hd|]); intros x Hx.
  - by apply octal_range.
  - unfold octal_digit in Hx. unfold is_digit. lia.
Qed.

(** Every literal is read, with the character behind it. *)
Lemma proc_number_ok long cs n c rest pos cur v buf :
  literal long cs n -> ends_literal long c -> suffix line pos (cs ++ c :: rest) ->
  token_proc_number (T pos cur v buf) = number_end c (pos + Z.of_nat (length cs)) n buf.
Proof.
  intros Hlit Hc Hs. pose proof Hc as (Hn & Hdig & H1 & H2 & H3 & H4 & Ha).
  destruct Hlit as [long d ds H48 Hd Hv|long ds Hd Hv Hl|long x ds Hx Hd Hv Hl|x ds Hx Hd Hv Hl].
  - by eapply proc_decimal.
  - by eapply proc_octal.
  - eapply (proc_marked 2 x ds c rest _ _ _ _ _ 1); [right; done|set_solver| | |done|done| |done|done].
    + eapply Forall_impl; [exact Hd|]. apply binary_range.
    + eapply Forall_impl; [exact Hd|]. unfold binary_digit. intros. split; [done|lia].
    + simpl. unfold is_digit in Hdig. lia.
  - eapply (proc_marked 16 x ds c rest _ _ _ _ _ 4); [left; done|set_solver| | |done|done| |done|done].
    + eapply Forall_impl; [exact Hd|]. apply hex_range.
    + eapply Forall_impl; [exact Hd|]. apply hex_alpha.
    + simpl. by rewrite Hdig, Ha.
Qed.

(** ** Words *)

Lemma trim_space_ok gap c rest pos cur v buf :
  Forall blank gap -> suffix line pos (gap ++ c :: rest) -> ~ blank c -> c <> 10 ->
  token_trim_space (T pos cur v buf) = Some (tt, T (pos + Z.of_nat (length gap)) cur v buf).
Proof.
  intros Hg Hs Hc Hn. pose proof (suffix_pos _ _ _ Hs). pose proof (suffix_length _ _ _ Hs) as Hl.
  rewrite length_app in Hl. unfold token_trim_space, line_fuel. rewrite bind_tget.
  rewrite (bind_Some _ _ _ _ _ (trim_gap gap c rest pos cur v buf (S (S (length line))) Hg Hs Hc Hn ltac:(simpl; lia))).
  apply prev_char. lia.
Qed.

(** No word. *)
Lemma get_string_none c rest pos cur v buf :
  suffix line pos (c :: rest) -> c <> 10 -> is_separator c = true \/ is_digit c = true ->
  length buf = 128%nat ->
  token_get_string (T pos cur v buf) = Some (tt, T pos cur v (word_buffer [] buf)).
Proof.
  intros Hs Hn Hc Hb. rewrite word_buffer_nil. pose proof (suffix_pos _ _ _ Hs).
  unfold token_get_string. rewrite (bind_Some _ _ _ _ _ (next_char _ _ _ _ _ _ Hs Hn)).
  rewrite bind_tget. cbn [fst tok_eof]. rewrite bind_tget, bind_tupd.
  destruct (is_digit c) eqn:Hd; [by apply prev_char|].
  destruct Hc as [Hc|]; [|done]. unfold line_fuel. rewrite bind_tget. simpl tok_line.
  rewrite (bind_Some _ _ _ ([], c) (T (pos + 1) cur v (<[0%nat := 0]> buf))).
  2:{ unfold take_while. rewrite bind_tget, Hc. done. }
  rewrite bind_tupd. unfold set_eof. simpl.
  rewrite (bind_Some _ _ _ _ _ (prev_char _ _ _ _ H)), bind_tget. unfold write_buffer. simpl.
  rewrite memcpy_at_Some by (simpl; rewrite ?length_insert; simpl; lia).
  rewrite (bind_Some _ _ _ _ _ (slift_Some _ _ _ eq_refl)). simpl.
  unfold tupd, supd, set_string. simpl. by rewrite list_insert_insert_eq.
Qed.

(** A word. *)
Lemma get_string_word ch cs c rest pos cur v buf :
  suffix line pos (ch :: cs ++ c :: rest) -> Forall (fun c => is_separator c = false) (ch :: cs) ->
  is_digit ch = false -> is_separator c = true -> c <> 10 -> length buf = 128%nat ->
  Z.of_nat (length (ch :: cs)) < 128 ->
  token_get_string (T pos cur v buf) =
  Some (tt, T (pos + Z.of_nat (length (ch :: cs))) cur v (word_buffer (ch :: cs) buf)).
Proof.
  intros Hs Hw Hd Hc Hn Hb Hl. pose proof (suffix_pos _ _ _ Hs). pose proof (suffix_length _ _ _ Hs) as Hl'.
  pose proof Hw as (Hch & Hcs)%Forall_cons. destruct (word_char ch Hch) as (_ & Hch10 & _).
  unfold token_get_string. rewrite (bind_Some _ _ _ _ _ (next_char _ _ _ _ _ _ Hs Hch10)).
  rewrite bind_tget. cbn [fst tok_eof]. rewrite bind_tget, bind_tupd, Hd.
  unfold line_fuel. rewrite bind_tget. simpl tok_line.
  rewrite (bind_Some _ _ _ _ _ (take_while_ok (fun c => negb (is_separator c)) ch cs c rest (pos + 1) cur v (<[0%nat := 0]> buf) []
    (S (S (length line))) ltac:(simpl; by rewrite Hch)
    ltac:(eapply Forall_impl; [exact Hcs|]; intros x Hx; simpl; rewrite Hx; by destruct (word_char x Hx) as (_ & ? & _))
    ltac:(simpl; by rewrite Hc) Hn (suffix_cons _ _ _ _ Hs)
    ltac:(simpl in Hl'; rewrite length_app in Hl'; simpl in Hl'; lia))).
  rewrite bind_tupd. unfold set_eof. simpl.
  rewrite (bind_Some _ _ _ _ _ (prev_char (pos + 1 + Z.of_nat (length cs)) _ _ _ ltac:(lia))), bind_tget.
  unfold write_buffer. simpl.
  rewrite memcpy_at_Some by (simpl; rewrite ?length_insert; simpl; rewrite ?length_app; simpl in *; lia).
  rewrite (bind_Some _ _ _ _ _ (slift_Some _ _ _ eq_refl)). simpl.
  unfold tupd, supd, set_string. simpl. same_state.
Qed.

(** ** Tokens *)

Lemma run_word gap ch cs c rest pos cur v buf :
  Forall blank gap -> suffix line pos (gap ++ ch :: cs ++ c :: rest) ->
  Forall (fun c => is_separator c = false) (ch :: cs) ->
  is_digit ch = false -> is_separator c = true -> c <> 10 -> length buf = 128%nat ->
  Z.of_nat (length (ch :: cs)) < 128 ->
  token_run (T pos cur v buf) =
  Some (tt, T (pos + Z.of_nat (length gap) + Z.of_nat (length (ch :: cs)))
              (default finsh_token_type_identifier (token_match_name (ch :: cs))) v
              (word_buffer (ch :: cs) buf)).
Proof.
  intros Hg Hs Hw Hd Hc Hn Hb Hl. pose proof Hw as (Hch & _)%Forall_cons.
  destruct (word_char ch Hch) as (_ & Hch10 & Hbl).
  unfold token_run. rewrite (bind_Some _ _ _ _ _ (trim_space_ok gap ch _ pos cur v buf Hg Hs Hbl Hch10)).
  rewrite (bind_Some _ _ _ _ _ (get_string_word ch cs c rest _ cur v buf (suffix_app _ _ _ _ Hs)
    Hw Hd Hc Hn Hb Hl)).
  rewrite bind_tget. cbn [fst tok_eof]. rewrite bind_tget. cbn [fst tok_string].
  rewrite word_buffer_string by (done || lia). cbv iota.
  by destruct (token_match_name (ch :: cs)).
Qed.

Lemma run_operator gap c rest pos cur v buf :
  Forall blank gap -> suffix line pos (gap ++ c :: rest) -> is_separator c = true \/ is_digit c = true ->
  ~ blank c -> c <> 10 -> length buf = 128%nat ->
  token_run (T pos cur v buf) =
  token_operator c (T (pos + Z.of_nat (length gap) + 1) cur v (word_buffer [] buf)).
Proof.
  intros Hg Hs Hc Hbl Hn Hb.
  unfold token_run. rewrite (bind_Some _ _ _ _ _ (trim_space_ok gap c _ pos cur v buf Hg Hs Hbl Hn)).
  pose proof (suffix_app _ _ _ _ Hs) as Hs1.
  rewrite (bind_Some _ _ _ _ _ (get_string_none c rest _ cur v buf Hs1 Hn Hc Hb)).
  rewrite bind_tget. cbn [fst tok_eof]. rewrite bind_tget. cbn [fst tok_string].
  rewrite word_buffer_string by (done || simpl; lia). cbv iota.
  by rewrite (bind_Some _ _ _ _ _ (next_char _ _ _ _ _ _ Hs1 Hn)).
Qed.

Lemma run_end gap pos cur v buf :
  Forall blank gap -> suffix line pos gap ->
  token_run (T pos cur v buf) =
  Some (tt, (Token true false 0 finsh_token_type_eof v buf line, e)).
Proof.
  intros Hg Hs. unfold token_run.
  rewrite (bind_Some _ _ _ tt (Token true false 0 cur v buf line, e)).
  2:{ unfold token_trim_space, line_fuel. rewrite bind_tget.
      pose proof (suffix_length _ _ _ Hs).
      by rewrite (bind_Some _ _ _ _ _ (trim_end gap pos cur v buf (S (S (length line))) Hg Hs ltac:(lia))). }
  done.
Qed.

(** The first character is not a blank and not part of a word. *)
Lemma op_text_head t c cs :
  op_text t = Some (c :: cs) -> is_separator c = true /\ ~ blank c /\ c <> 10.
Proof. unfold blank. destruct t; intros [= <- <-]; split_and!; done || lia. Qed.

Lemma token_two_once ch twice once c rest pos cur v buf :
  suffix line pos (c :: rest) -> c <> 10 -> c <> ch ->
  token_two ch twice once (T pos cur v buf) = Some (tt, T pos once v buf).
Proof.
  intros Hs Hn Hc. unfold token_two. rewrite (bind_Some _ _ _ _ _ (next_char _ _ _ _ _ _ Hs Hn)).
  rewrite (proj2 (Z.eqb_neq _ _)) by done.
  by rewrite (bind_Some _ _ _ _ _ (prev_char _ _ _ _ (suffix_pos _ _ _ Hs))).
Qed.

Lemma token_two_twice ch twice once rest pos cur v buf :
  suffix line pos (ch :: rest) -> ch <> 10 ->
  token_two ch twice once (T pos cur v buf) = Some (tt, T (pos + 1) twice v buf).
Proof.
  intros Hs Hn. unfold token_two. rewrite (bind_Some _ _ _ _ _ (next_char _ _ _ _ _ _ Hs Hn)).
  by rewrite Z.eqb_refl.
Qed.

Lemma operator_ok t c cs rest pos cur v buf :
  op_text t = Some (c :: cs) -> suffix line pos (cs ++ rest) ->
  (t = finsh_token_type_add \/ t = finsh_token_type_sub \/ t = finsh_token_type_div ->
   starts_with (fun c' => negb (bool_decide (c :: cs = [c']))) rest) ->
  token_operator c (T pos cur v buf) = Some (tt, T (pos + Z.of_nat (length cs)) t v buf).
Proof.
  intros Ht Hs Hr.
  assert (forall x, c :: cs = [x] -> t = finsh_token_type_add \/ t = finsh_token_type_sub \/
    t = finsh_token_type_div -> exists c' tl, rest = c' :: tl /\ c' <> 10 /\ c' <> x) as Hone.
  { intros x Ex Ho. destruct (Hr Ho) as (c' & tl & -> & _ & Hn & Hne). exists c', tl. split_and!; try done.
    intros ->. rewrite Ex, bool_decide_eq_true_2 in Hne by done. done. }
  destruct t; try discriminate Ht; injection Ht as <- <-; simpl in Hs;
    lazymatch goal with
    | |- token_operator 43 (T pos _ _ _) = Some (tt, T _ finsh_token_type_inc _ _) =>
        exact (token_two_twice 43 _ _ _ _ _ _ _ Hs ltac:(done))
    | |- token_operator 45 (T pos _ _ _) = Some (tt, T _ finsh_token_type_dec _ _) =>
        exact (token_two_twice 45 _ _ _ _ _ _ _ Hs ltac:(done))
    | |- token_operator 60 _ = _ => exact (token_two_twice 60 _ _ _ _ _ _ _ Hs ltac:(done))
    | |- token_operator 62 _ = _ => exact (token_two_twice 62 _ _ _ _ _ _ _ Hs ltac:(done))
    | |- token_operator ?x (T _ _ _ _) = Some (tt, T _ ?t _ _) =>
        lazymatch x with
        | 43 => idtac | 45 => idtac | 47 => idtac
        | _ => simpl length; unfold token_operator, tupd, supd, set_current; simpl; same_state
        end
    end.
  all: destruct (Hone _ eq_refl ltac:(tauto)) as (c' & tl & -> & Hn & Hne); simpl length;
    rewrite Z.add_0_r; by eapply token_two_once.
Qed.

Lemma operator_char c rest pos cur v buf :
  plain_char c -> suffix line pos (c :: 39 :: rest) ->
  token_operator 39 (T pos cur v buf) =
  Some (tt, T (pos + 2) finsh_token_type_value_char (v / 256 * 256 + u8 c) buf).
Proof.
  intros (Hr & H39 & H92) Hs. change (token_operator 39) with
    (c ← token_proc_char;
     tupd (fun t => set_value ((tok_value t / 256) * 256 + u8 c) t);;
     tupd (set_current finsh_token_type_value_char)).
  unfold token_proc_char. rewrite bind_assoc.
  rewrite (bind_Some _ _ _ _ _ (next_char _ _ _ _ _ _ Hs ltac:(lia))).
  rewrite (proj2 (Z.eqb_neq c 92)) by done.
  rewrite bind_assoc, (bind_Some _ _ _ c _ eq_refl), bind_assoc.
  rewrite (bind_Some _ _ _ _ _ (next_char _ _ _ _ _ _ (suffix_cons _ _ _ _ Hs) ltac:(done))).
  rewrite Z.eqb_refl, (bind_Some _ _ _ c _ eq_refl), bind_tupd.
  unfold tupd, supd, set_current, set_value. simpl. same_state.
Qed.

Lemma digit_operator c : is_digit c = true -> token_operator c = (token_prev_char;; token_proc_number).
Proof.
  intros H. assert (48 <= c <= 57) by (unfold is_digit in H; lia).
  unfold token_operator.
  repeat (rewrite (proj2 (Z.eqb_neq c _)) by lia). by rewrite H.
Qed.

End token.

(** A lexer on the line, with [rest] ahead. *)
Definition reads_from (line rest : list Z) (tk : finsh_token) : Prop :=
  exists pos cur v buf, tk = Token false false pos cur v buf line /\ suffix line pos rest /\
    length buf = 128%nat.

Lemma keyword_ok t cs :
  (cs, t) ∈ finsh_name_table ->
  exists c cs', cs = c :: cs' /\ Forall (fun c => is_separator c = false) cs /\
    is_digit c = false /\ Z.of_nat (length cs) < 128 /\ token_match_name cs = Some t /\
    match t with
    | finsh_token_type_value_int | finsh_token_type_value_long | finsh_token_type_value_char
    | finsh_token_type_identifier => False
    | _ => True
    end.
Proof.
  intros H. unfold finsh_name_table in H.
  repeat (apply elem_of_cons in H as [[= -> ->]|H];
    [eexists _, _; split_and!; [done|by repeat constructor|done|done|done|done]|]).
  by apply not_elem_of_nil in H.
Qed.

Lemma name_parts name :
  name_ok name ->
  exists c cs, name = c :: cs /\ Forall (fun c => is_separator c = false) name /\
    is_digit c = false /\ Z.of_nat (length name) < 128 /\ token_match_name name = None.
Proof.
  intros (H0 & Hs & Hd & Hm & Hl). destruct name as [|c cs]; [done|]. exists c, cs.
  unfold FINSH_NAME_MAX in Hl. split_and!; try done; [by apply Hd|lia].
Qed.

Lemma separator_ends c : 0 <= c < 256 -> c <> 10 -> is_separator c = true -> ends_literal false c.
Proof.
  intros Hr Hn Hs.
  pose proof (range_cases (fun c => negb (is_separator c) ||
    (negb (is_digit c) && negb (is_alpha c) && negb (c =? 120) && negb (c =? 88) &&
     negb (c =? 98) && negb (c =? 66))) 0 256 ltac:(by vm_compute) c ltac:(lia)) as H.
  simpl in H. rewrite Hs in H. simpl in H. unfold ends_literal.
  destruct (is_digit c), (is_alpha c); try done. simpl in H. split_and!; try done; lia.
Qed.

Lemma suffix_ends c : c = 108 \/ c = 76 -> ends_literal true c.
Proof. unfold ends_literal, is_digit. intros [-> | ->]; split_and!; done. Qed.

Lemma literal_head long cs n :
  literal long cs n -> exists c cs', cs = c :: cs' /\ is_digit c = true /\ ~ blank c /\ c <> 10.
Proof.
  unfold blank. intros H.
  destruct H as [? d ds ? (Hd & _)%Forall_cons ?| | | ]; eexists _, _; (split; [reflexivity|]);
    split_and!; try done; unfold is_digit in *; lia.
Qed.

Lemma reads_from_intro line rest pos cur v buf :
  suffix line pos rest -> length buf = 128%nat -> reads_from line rest (Token false false pos cur v buf line).
Proof. intros. by exists pos, cur, v, buf. Qed.

(** One token of each kind. *)
Definition lexes (line gap cs rest : list Z) (t : tok) : Prop :=
  forall tk, reads_from line (gap ++ cs ++ rest) tk ->
  exists tk', (forall e, token_run (tk, e) = Some (tt, (tk', e))) /\ at_token tk' t /\
    reads_from line rest tk'.

Lemma lexes_word line gap ch cs rest t :
  Forall blank gap -> starts_with is_separator rest ->
  Forall (fun c => is_separator c = false) (ch :: cs) -> is_digit ch = false ->
  Z.of_nat (length (ch :: cs)) < 128 ->
  t_type t = default finsh_token_type_identifier (token_match_name (ch :: cs)) ->
  match t_type t with
  | finsh_token_type_value_int | finsh_token_type_value_long | finsh_token_type_value_char => False
  | finsh_token_type_identifier => t_string t = ch :: cs
  | _ => True
  end ->
  lexes line gap (ch :: cs) rest t.
Proof.
  intros Hg (c & tl & -> & Hr & Hn & Hsep) Hw Hd Hl Ht Hv tk (pos & cur & v & buf & -> & Hs & Hb).
  exists (Token false false (pos + Z.of_nat (length gap) + Z.of_nat (length (ch :: cs)))
    (t_type t) v (word_buffer (ch :: cs) buf) line).
  split; [intros e; rewrite Ht; by eapply run_word|]. split.
  - split_and!; [done|done|]. cbn [tok_string]. rewrite word_buffer_string by (done || lia).
    by destruct (t_type t).
  - apply reads_from_intro; [do 2 apply suffix_app; exact Hs|by rewrite word_buffer_length].
Qed.

Lemma lexes_number line gap cs c rest long n :
  Forall blank gap -> literal long cs n -> ends_literal long c ->
  forall tk, reads_from line (gap ++ cs ++ c :: rest) tk ->
  exists pos buf, suffix line pos (c :: rest) /\ length buf = 128%nat /\
    forall e, token_run (tk, e) = number_end line e c pos n buf.
Proof.
  intros Hg Hlit Hc tk (pos & cur & v & buf & -> & Hs & Hb).
  destruct (literal_head _ _ _ Hlit) as (d & ds & -> & Hd & Hbl & Hn).
  exists (pos + Z.of_nat (length gap) + Z.of_nat (length (d :: ds))), (word_buffer [] buf).
  split; [do 2 apply suffix_app; exact Hs|]. split; [by rewrite word_buffer_length|]. intros e.
  pose proof (suffix_pos _ _ _ Hs).
  rewrite (run_operator line e gap d (ds ++ c :: rest)) by (done || by right).
  rewrite digit_operator, (bind_Some _ _ _ _ _ (prev_char line e (pos + Z.of_nat (length gap)) _ _ _ ltac:(lia))) by done.
  eapply proc_number_ok; [done|done|]. apply suffix_app. exact Hs.
Qed.

Lemma lexes_int line gap cs rest n :
  Forall blank gap -> literal false cs n -> starts_with is_separator rest ->
  lexes line gap cs rest (Tok finsh_token_type_value_int n []).
Proof.
  intros Hg Hlit (c & tl & -> & Hr & Hn & Hsep) tk Htk.
  destruct (lexes_number line gap cs c tl false n Hg Hlit (separator_ends c Hr Hn Hsep) tk Htk)
    as (pos & buf & Hs & Hb & Hrun).
  exists (Token false false pos finsh_token_type_value_int n buf line). split_and!; try done.
  - intros e. rewrite Hrun. unfold number_end.
    replace ((c =? 108) || (c =? 76)) with false; [done|]. unfold is_separator in Hsep. lia.
  - by apply reads_from_intro.
Qed.

Lemma lexes_long line gap cs rest n l :
  Forall blank gap -> literal true cs n -> l = 108 \/ l = 76 ->
  lexes line gap (cs ++ [l]) rest (Tok finsh_token_type_value_long n []).
Proof.
  intros Hg Hlit Hl tk Htk. rewrite <-app_assoc in Htk.
  destruct (lexes_number line gap cs l rest true n Hg Hlit (suffix_ends l Hl) tk Htk)
    as (pos & buf & Hs & Hb & Hrun).
  exists (Token false false (pos + 1) finsh_token_type_value_long n buf line). split_and!; try done.
  - intros e. rewrite Hrun. unfold number_end.
    by replace ((l =? 108) || (l =? 76)) with true by lia.
  - apply reads_from_intro; [by eapply suffix_cons|done].
Qed.

Lemma lexes_char line gap c rest :
  Forall blank gap -> plain_char c ->
  lexes line gap [39; c; 39] rest (Tok finsh_token_type_value_char c []).
Proof.
  intros Hg Hc tk (pos & cur & v & buf & -> & Hs & Hb).
  exists (Token false false (pos + Z.of_nat (length gap) + 1 + 2) finsh_token_type_value_char
    (v / 256 * 256 + u8 c) (word_buffer [] buf) line).
  pose proof (suffix_app _ _ _ _ Hs) as Hs1. simpl in Hs1. split; [|split_and!; try done].
  - intros e. rewrite (run_operator line e gap 39 (c :: 39 :: rest)); try done; [|by left|unfold blank; lia].
    eapply operator_char; [done|]. by eapply suffix_cons.
  - split_and!; [done|done|]. simpl. unfold wrap. change (2 ^ 8) with 256. rewrite Z.add_mod, Z.mod_mul, Z.add_0_l, !Z.mod_mod by done.
    apply Z.mod_small. unfold plain_char in Hc. lia.
  - apply reads_from_intro; [|by rewrite word_buffer_length].
    replace (pos + Z.of_nat (length gap) + 1 + 2) with
      (pos + Z.of_nat (length gap) + Z.of_nat (length [39; c; 39])) by (simpl; lia).
    by apply suffix_app.
Qed.

Lemma lexes_op line gap t cs rest :
  Forall blank gap -> op_text t = Some cs ->
  (t = finsh_token_type_add \/ t = finsh_token_type_sub \/ t = finsh_token_type_div ->
   starts_with (fun c => negb (bool_decide (cs = [c]))) rest) ->
  lexes line gap cs rest (sym t).
Proof.
  intros Hg Ht Hnext tk (pos & cur & v & buf & -> & Hs & Hb).
  destruct cs as [|c cs]; [by destruct t|]. destruct (op_text_head t c cs Ht) as (Hsep & Hbl & Hn).
  exists (Token false false (pos + Z.of_nat (length gap) + 1 + Z.of_nat (length cs)) t v
    (word_buffer [] buf) line).
  pose proof (suffix_app _ _ _ _ Hs) as Hs1. simpl in Hs1. split; [|split_and!; try done].
  - intros e. rewrite (run_operator line e gap c (cs ++ rest)) by (done || by left).
    eapply operator_ok; [done| |done]. by eapply suffix_cons.
  - split_and!; [done|done|]. simpl. by destruct t.
  - apply reads_from_intro; [|by rewrite word_buffer_length].
    apply suffix_app. by eapply suffix_cons.
Qed.

Lemma lexes_spelling line gap t cs rest :
  Forall blank gap -> spelling t cs rest -> lexes line gap cs rest t.
Proof.
  intros Hg [name rest' Hname Hr|k cs' rest' Hk Hr| | | | ].
  - destruct (name_parts name Hname) as (ch & cs' & -> & Hw & Hd & Hl & Hm).
    apply lexes_word; try done. by rewrite Hm.
  - destruct (keyword_ok k cs' Hk) as (ch & w & -> & Hw & Hd & Hl & Hm & Hty).
    apply lexes_word; try done; [by rewrite Hm|]. simpl. by destruct k.
  - by apply lexes_int.
  - by apply lexes_long.
  - by apply lexes_char.
  - by apply lexes_op.
Qed.

(** ** Lines *)

Lemma reads_spelled line ts rest :
  spelled ts rest -> forall tk, reads_from line rest tk -> feeds tk ts.
Proof.
  induction 1 as [gap Hg|gap t cs ts rest Hg Ht _ IH]; intros tk Htk.
  - destruct Htk as (pos & cur & v & buf & -> & Hs & Hb).
    exists (Token true false 0 finsh_token_type_eof v buf line). split; [|done].
    intros e. by eapply run_end.
  - destruct (lexes_spelling line gap t cs rest Hg Ht tk Htk) as (tk' & Hrun & Hat & Htk').
    exists tk'. split; [done|]. split; [done|]. by apply IH.
Qed.

(** The lexer reads the tokens of a line. *)
Lemma token_init_feeds ts line : spelled ts line -> feeds (finsh_token_init line) ts.
Proof.
  intros H. apply (reads_spelled line ts line H). apply reads_from_intro; [by exists []|].
  by rewrite length_replicate.
Qed.
