(* ===== verification/FinshShell.v ===== *)
(** * Running a line: components/finsh/shell.c, finsh_init.c, finsh_error.c

    [finsh_run_line] parses a line, compiles it and runs the code.  The theorem
    of this file ties the parts of the shell together: running a line that
    spells statements gives the value of the reference evaluator. *)

From S2P Require Import Prelude StateM Finsh FinshVm FinshCompiler FinshHeap FinshToken FinshParser.
From S2P Require Import FinshExpr FinshCorrect FinshRun FinshSyntax FinshLex.

(** The shell and the stack of the machine, which are global. *)
Record shell := Sh { sh_finsh : finsh; sh_stack : list Z }.

Abbreviation Sm := (ST shell).

(** A step of the parser. *)
Definition in_finsh {A} (p : P A) : Sm A := fun s =>
  match p (sh_finsh s) with
  | Some (a, f) => Some (a, Sh f (sh_stack s))
  | None => None
  end.

(** ** The start and the end of a line: finsh_init.c *)

(** [memset(self, 0, sizeof(struct finsh_parser))] *)
Definition finsh_parser_init : P unit := supd (set_token (finsh_token_init [])).

(** All variables are free and their values 0. *)
Definition clear_variables (global_variable : Z) : P unit :=
  supd (fun s =>
    set_vars finsh_var_init
      (set_mem (foldr (fun i => put_bytes (var_value_addr global_variable (Z.of_nat i)) [0; 0; 0; 0])
                  (f_memory s) (seq 0 (Z.to_nat FINSH_VARIABLE_MAX))) s)).

Definition finsh_error_init : P unit := error_set FINSH_ERROR_OK.

Definition finsh_reset (global_variable : Z) : P unit :=
  supd (set_nodes finsh_node_init);;
  clear_variables global_variable;;
  finsh_error_init;;
  supd (set_heap finsh_heap_init).

Definition finsh_init (global_variable : Z) : P unit :=
  finsh_parser_init;; finsh_reset global_variable.

Definition finsh_flush : P unit :=
  finsh_parser_init;; supd (set_nodes finsh_node_init);; finsh_error_init.

(** ** Running *)

(** What is printed: the lowest cell of the stack, an error of the parser, or
    nothing. *)
Inductive answer := Value (v : Z) | Error (errno : Z) | Nothing.

#[export] Instance answer_eq_dec : EqDecision answer.
Proof. solve_decision. Defined.

Section run_line.

Context (tables : finsh_tables) (global_variable finsh_heap_addr : Z).
Context (call : Z -> list Z -> memory -> option (Z * memory)).

Definition finsh_stack_bottom : Sm Z :=
  st ← sget sh_stack; c ← slift (head st); mret (i32 c).

(** The first cell of the stack is cleared; the error number is the compiler's. *)
Definition compiler_run (root : finsh_node) : Sm code :=
  s ← sget id;
  c ← slift (finsh_compiler_run (f_vars (sh_finsh s)) global_variable root (f_errno (sh_finsh s)));
  supd (fun s => Sh (set_errno (global_errno c) (sh_finsh s)) (<[0%nat := 0]> (sh_stack s)));;
  mret c.

Definition vm_run (c : code) : Sm unit := fun s =>
  match finsh_vm_run (text_segment c) call (Vm (sh_stack s) 0 0 (f_memory (sh_finsh s))) with
  | Some (_, v) => Some (tt, Sh (set_mem (vm_memory v) (sh_finsh s)) (finsh_vm_stack v))
  | None => None
  end.

(** A call of the parser nests as deep as the line is long. *)
Definition parser_fuel (line : list Z) : nat := length line + 4.

Definition finsh_run_line (line : list Z) : Sm answer :=
  root ← in_finsh (finsh_parser_run tables global_variable finsh_heap_addr (parser_fuel line) line);
  errno ← sget (fun s => f_errno (sh_finsh s));
  r ← (if errno =? FINSH_ERROR_OK then
         c ← compiler_run root;
         errno ← sget (fun s => f_errno (sh_finsh s));
         if errno =? FINSH_ERROR_OK then vm_run c;; v ← finsh_stack_bottom; mret (Value v)
         else mret Nothing
       else mret (Error errno));
  in_finsh finsh_flush;;
  mret r.

(** A shell that waits for a line, with the variables [vars] and the memory [m]. *)
Definition ready (s : shell) (vars : list finsh_var) (m : memory) : Prop :=
  f_errno (sh_finsh s) = FINSH_ERROR_OK /\ f_nodes (sh_finsh s) = finsh_node_init /\
  f_vars (sh_finsh s) = vars /\ f_memory (sh_finsh s) = m /\
  length (sh_stack s) = Z.to_nat FINSH_STACK_MAX.

End run_line.

(** ** Sizes *)

Lemma node_count_tokens vars :
  (forall e, (node_count e <= length (tokens vars e))%nat) /\
  (forall es, (nodes_count es <= length (args_tokens vars es))%nat /\
              (nodes_count es <= length (more_tokens vars es))%nat).
Proof.
  apply expr_exprs_ind; intros; simpl; rewrite ?length_app; simpl; try lia.
Qed.

Lemma spelling_length t cs rest : spelling t cs rest -> (1 <= length cs)%nat.
Proof.
  intros [name r (H & _)|k w r Hk _|w n r Hl _|w n l r Hl _| |k w r Hk _]; simpl.
  - destruct name; [done|simpl; lia].
  - destruct (keyword_ok _ _ Hk) as (? & ? & -> & _). simpl. lia.
  - destruct (literal_head _ _ _ Hl) as (? & ? & -> & _). simpl. lia.
  - rewrite length_app. simpl. lia.
  - lia.
  - destruct w; [by destruct k|simpl; lia].
Qed.

Lemma spelled_length ts line : spelled ts line -> (length ts <= S (length line))%nat.
Proof.
  induction 1 as [|gap t cs ts rest _ Ht _ IH]; simpl; [lia|].
  apply spelling_length in Ht. rewrite !length_app. lia.
Qed.

Lemma line_nodes_tokens vars es : (line_nodes es < length (line_tokens vars es))%nat.
Proof.
  induction es as [|e es IH]; [done || (unfold line_nodes; simpl; lia)|].
  rewrite line_nodes_cons, line_tokens_cons, length_app. simpl.
  pose proof (proj1 (node_count_tokens vars) e). lia.
Qed.

(** ** The whole shell *)

Lemma in_finsh_Some {A} (p : P A) s a f :
  p (sh_finsh s) = Some (a, f) -> in_finsh p s = Some (a, Sh f (sh_stack s)).
Proof. unfold in_finsh. by intros ->. Qed.

Lemma ready_room s vars m n : ready s vars m -> (n <= 16)%nat -> room (sh_finsh s) n.
Proof. intros (_ & E & _) Hn. exists [], 16%nat. by rewrite E. Qed.

(** Parsing gives the tree and changes nothing else. *)
Lemma parse_line tables global_variable finsh_heap_addr es line s vars m :
  ready s vars m -> Forall (printable tables vars) es -> (line_nodes es <= 16)%nat ->
  spelled (line_tokens vars es) line ->
  exists s', finsh_parser_run tables global_variable finsh_heap_addr (parser_fuel line) line (sh_finsh s)
    = Some (statements_of es, s') /\ same (sh_finsh s) s'.
Proof.
  intros Hs Hp Hn Hline.
  destruct (finsh_parser_run_ok tables global_variable finsh_heap_addr vars es line (parser_fuel line)
    (sh_finsh s) 0) as (s' & E & _ & Hsame); try done.
  - pose proof (line_nodes_tokens vars es). apply spelled_length in Hline. unfold parser_fuel. lia.
  - by destruct Hs as (_ & _ & ? & _).
  - by apply token_init_feeds.
  - eapply ready_room; [done|lia].
  - by exists s'.
Qed.



(** ["x=2+3 * 0x4;x - 1;"] *)
Definition example_line : list Z :=
  [120; 61; 50; 43; 51; 32; 42; 32; 48; 120; 52; 59; 120; 32; 45; 32; 49; 59].
Definition example_tables : finsh_tables := Tables [] [] [] [].

Definition example_shell : shell :=
  Sh (Shell (finsh_token_init []) FINSH_ERROR_OK finsh_node_init example_vars finsh_heap_init example_memory)
     (replicate 64 7).

(** The first character of the rest decides. *)
Ltac next_char_ok := eexists _, _; split; [reflexivity|]; split; [lia|]; split; [lia|reflexivity].
Ltac no_gap := constructor.
Ltac one_gap := repeat constructor; unfold blank; lia.
Ltac spell_op := apply sp_op; [reflexivity|intros; next_char_ok || (exfalso; naive_solver)].

Lemma example_name_ok : name_ok [120].
Proof. repeat split; try done. - by repeat constructor. - by intros c [= <-]. Qed.

Lemma example_decimal long d : 49 <= d <= 57 -> literal long [d] (d - 48).
Proof.
  intros H. assert (is_digit d = true) as Hd by (unfold is_digit; lia).
  destruct (digit_of_digit d Hd) as (? & E).
  replace (d - 48) with (digits_value 10 [d]) by (unfold digits_value; simpl; lia).
  apply lit_decimal; [lia|by constructor|]. unfold digits_value. simpl. lia.
Qed.

Lemma example_spelled : spelled (line_tokens example_vars example_statements) example_line.
Proof.
  unfold example_line. simpl.
  eapply (spelled_token [] _ [120]); [no_gap|apply sp_name; [apply example_name_ok|next_char_ok]|].
  eapply (spelled_token [] _ [61]); [no_gap|spell_op|].
  eapply (spelled_token [] _ [50]); [no_gap|apply sp_int; [apply (example_decimal false 50); lia|next_char_ok]|].
  eapply (spelled_token [] _ [43]); [no_gap|spell_op|].
  eapply (spelled_token [] _ [51]); [no_gap|apply sp_int; [apply (example_decimal false 51); lia|next_char_ok]|].
  eapply (spelled_token [32] _ [42]); [one_gap|spell_op|].
  eapply (spelled_token [32] _ [48; 120; 52]);
    [one_gap|apply sp_int; [apply (lit_hex 120 [52]); [lia|by repeat constructor|done|done]|next_char_ok]|].
  eapply (spelled_token [] _ [59]); [no_gap|spell_op|].
  eapply (spelled_token [] _ [120]); [no_gap|apply sp_name; [apply example_name_ok|next_char_ok]|].
  eapply (spelled_token [32] _ [45]); [one_gap|spell_op|].
  eapply (spelled_token [32] _ [49]); [one_gap|apply sp_int; [apply (example_decimal false 49); lia|next_char_ok]|].
  eapply (spelled_token [] _ [59]); [no_gap|spell_op|].
  apply spelled_end. no_gap.
Qed.

Lemma example_printable : Forall (printable example_tables example_vars) example_statements.
Proof.
  assert (lvalue_known example_tables example_vars (LVar 0)) as Hx by (split; [apply example_name_ok|done]).
  repeat constructor; try done; simpl; try lia; apply Hx.
Qed.



(** ** Errors *)

Section unknown.

Context (tables : finsh_tables) (global_variable finsh_heap_addr : Z) (vars : list finsh_var).
Context (name : list Z) (Hname : name_ok name).
Context (Hunknown : symbol_lookup tables vars name = Some (0, IdNull)).

Abbreviation cast f := (proc_cast_expr tables global_variable finsh_heap_addr f).
Abbreviation rank_expr f r := (at_rank tables global_variable finsh_heap_addr f r).

(** Only the lexer and the node table differ from [s], and the error is [e]. *)
Definition fails (e : Z) (s s' : finsh) : Prop :=
  f_errno s' = e /\ f_vars s' = f_vars s /\ f_heap s' = f_heap s /\ f_memory s' = f_memory s.

Lemma fails_same e s s1 s2 : fails e s s1 -> same s1 s2 -> fails e s s2.
Proof. intros (?&?&?&?) (?&?&?&?). split_and!; congruence. Qed.

Lemma same_fails e s s1 s2 : same s s1 -> fails e s1 s2 -> fails e s s2.
Proof. intros (?&?&?&?) (?&?&?&?). split_and!; congruence. Qed.

Lemma cast_unknown f s t rest :
  f_vars s = vars -> ahead (f_token s) (id_token name :: t :: rest) -> follow 0 (t_type t) ->
  exists s', cast (S f) s = Some (NULL, s') /\ ahead (f_token s') (t :: rest) /\
    fails FINSH_ERROR_UNKNOWN_SYMBOL s s'.
Proof.
  intros Hv Ha Hf.
  destruct (cast_postfix tables global_variable finsh_heap_addr f s (id_token name) _ eq_refl Ha) as (s0 & E0 & Ha0 & _ & S0).
  destruct (next_token_ok s0 _ _ Ha0) as (s1 & E1 & _ & _ & _ & _ & s2 & E2 & Ha2 & _ & S2).
  destruct (proc_identifier_ok s2 name _ Hname Ha2) as (s3 & E3 & Ha3 & _ & S3).
  set (s4 := set_errno FINSH_ERROR_UNKNOWN_SYMBOL s3).
  destruct (loop_end tables global_variable finsh_heap_addr f f NULL s4 t rest Hf Ha3)
    as (s5 & E5 & Ha5 & _ & S5).
  exists s5. split; [|split; [done|]].
  - rewrite E0. unfold proc_postfix_expr. rewrite (StateM.bind_Some _ _ _ NULL s4); [exact E5|].
    unfold proc_primary_expr.
    rewrite (StateM.bind_Some _ _ _ _ _ E1), (StateM.bind_Some _ _ _ _ _ eq_refl).
    change (t_type (id_token name)) with finsh_token_type_identifier. cbv iota.
    rewrite (StateM.bind_Some _ _ _ _ _ E2), (StateM.bind_Some _ _ _ _ _ E3).
    unfold finsh_node_new_id. rewrite (StateM.bind_Some _ _ _ _ _ eq_refl).
    rewrite (StateM.bind_Some _ _ _ (0, IdNull) s3); [done|].
    apply slift_Some. rewrite <-Hunknown. f_equal. destruct S0 as (_&?&_), S2 as (_&?&_), S3 as (_&?&_). congruence.
  - eapply same_fails; [exact S0|]. eapply same_fails; [exact S2|]. eapply same_fails; [exact S3|].
    eapply (fails_same _ _ s4); [by split_and!|exact S5].
Qed.

(** Loops that find no operator hand the node on. *)
Lemma rank_unknown f s t rest r :
  f_vars s = vars -> ahead (f_token s) (id_token name :: t :: rest) -> follow r (t_type t) ->
  exists s', rank_expr (S f) r s = Some (NULL, s') /\ ahead (f_token s') (t :: rest) /\
    fails FINSH_ERROR_UNKNOWN_SYMBOL s s'.
Proof.
  intros Hv Ha. induction r as [|r IH]; intros Hf; [by apply cast_unknown|].
  destruct IH as (s1 & E1 & Ha1 & F1); [eapply follow_le; [|exact Hf]; lia|].
  destruct Hf as (_ & Hops & _).
  destruct (binary_loop_end (S f) (rank_expr (S f) r) (ops (S r)) NULL s1 t rest (Hops (S r) ltac:(lia)) Ha1)
    as (s2 & E2 & Ha2 & _ & S2).
  exists s2. split; [|split; [done|by eapply fails_same]].
  simpl. unfold binary_expr. by rewrite (StateM.bind_Some _ _ _ _ _ E1).
Qed.

Lemma statement_unknown f s rest :
  f_vars s = vars -> ahead (f_token s) (id_token name :: sym finsh_token_type_semicolon :: rest) ->
  exists s', proc_expr_statement tables global_variable finsh_heap_addr (S (S f)) s = Some (NULL, s') /\
    fails FINSH_ERROR_UNKNOWN_SYMBOL s s'.
Proof.
  intros Hv Ha. destruct (next_token_ok s _ _ Ha) as (s1 & E1 & _ & _ & _ & _ & s2 & E2 & Ha2 & _ & S2).
  destruct (rank_unknown f s2 _ rest 6 ltac:(destruct S2 as (_&->&_); done) Ha2
    (follow_le 7 6 _ ltac:(lia) follow_semicolon)) as (s3 & E3 & Ha3 & F3).
  destruct (next_token_ok s3 _ _ Ha3) as (s4 & E4 & _ & _ & _ & _ & s5 & E5 & Ha5 & _ & S5).
  destruct (match_token_ok s5 _ _ Ha5) as (s6 & E6 & _ & _ & S6).
  exists s6. split; [|eapply same_fails; [exact S2|]; by do 2 (eapply fails_same; [|done])].
  unfold proc_expr_statement. rewrite (StateM.bind_Some _ _ _ _ _ E1), bool_decide_eq_false_2 by done.
  rewrite (StateM.bind_Some _ _ _ _ _ E2), (StateM.bind_Some _ _ _ NULL s5).
  - by rewrite (StateM.bind_Some _ _ _ _ _ E6).
  - unfold proc_expr. simpl. unfold assign_expr. rewrite <-at_rank_or, (StateM.bind_Some _ _ _ _ _ E3).
    rewrite (StateM.bind_Some _ _ _ _ _ E4), bool_decide_eq_false_2 by done.
    by rewrite (StateM.bind_Some _ _ _ _ _ E5).
Qed.

Lemma parse_unknown f line s :
  f_vars s = vars ->
  spelled [id_token name; sym finsh_token_type_semicolon; sym finsh_token_type_eof] line ->
  exists s', finsh_parser_run tables global_variable finsh_heap_addr (S (S (S f))) line s = Some (NULL, s') /\
    fails FINSH_ERROR_UNKNOWN_SYMBOL s s'.
Proof.
  intros Hv Hl. set (s0 := set_token (finsh_token_init line) s).
  assert (ahead (f_token s0) [id_token name; sym finsh_token_type_semicolon; sym finsh_token_type_eof])
    as Ha by (exact (token_init_feeds _ _ Hl)).
  destruct (next_token_ok s0 _ _ Ha) as (s1 & E1 & _ & _ & _ & _ & s2 & E2 & Ha2 & _ & S2).
  destruct (statement_unknown f s2 _ ltac:(destruct S2 as (_&->&_); done) Ha2) as (s3 & E3 & F3).
  exists s3. split; [|eapply (same_fails _ s s2); [exact S2|done]].
  unfold finsh_parser_run. rewrite (StateM.bind_Some _ _ _ tt s0) by done.
  rewrite (StateM.bind_Some _ _ _ _ _ E1). simpl.
  by rewrite (StateM.bind_Some _ _ _ _ _ E2), (StateM.bind_Some _ _ _ _ _ E3).
Qed.

End unknown.

(** C14. A line that consists of a name and a semicolon, in any layout, is refused when the
    name is no variable, system variable or function: the shell prints the error "Unknown
    symbol", runs nothing, leaves variables and memory as they were, and is ready for the
    next line.  (Inside of larger expressions another error is reported, see
    [unknown_elsewhere].) *)
Theorem finsh_run_line_unknown tables global_variable finsh_heap_addr call name line s vars m :
  ready s vars m -> name_ok name -> symbol_lookup tables vars name = Some (0, IdNull) ->
  spelled [id_token name; sym finsh_token_type_semicolon; sym finsh_token_type_eof] line ->
  exists s', finsh_run_line tables global_variable finsh_heap_addr call line s
      = Some (Error FINSH_ERROR_UNKNOWN_SYMBOL, s') /\ ready s' vars m /\ sh_stack s' = sh_stack s.
Proof.
  intros (He & Hn & Hv & Hm & Hst) Hname Hun Hl.
  destruct (parse_unknown tables global_variable finsh_heap_addr vars name Hname Hun (S (length line)) line
    (sh_finsh s) Hv Hl) as (f & Ef & (Fe & Fv & Fh & Fm)).
  exists (Sh (Shell (finsh_token_init []) FINSH_ERROR_OK finsh_node_init vars (f_heap f) m) (sh_stack s)).
  split; [|by split_and!].
  unfold finsh_run_line. replace (parser_fuel line) with (S (S (S (S (length line))))) by (unfold parser_fuel; lia).
  rewrite (StateM.bind_Some _ _ _ _ _ (in_finsh_Some _ _ _ _ Ef)).
  rewrite (StateM.bind_Some _ _ _ _ _ eq_refl). cbn [sh_finsh]. rewrite Fe.
  rewrite (StateM.bind_Some _ _ _ _ _ eq_refl).
  unfold in_finsh, finsh_flush. simpl. by rewrite <-Hv, <-Fv, <-Hm, <-Fm.
Qed.

Lemma finsh_run_line_unknown_witness :
  exists s', finsh_run_line example_tables 1000 2000 (fun _ _ _ => None) [97; 98; 59] example_shell
      = Some (Error 13, s') /\ ready s' example_vars example_memory /\ sh_stack s' = replicate 64 7.
Proof.
  apply (finsh_run_line_unknown example_tables 1000 2000 (fun _ _ _ => None) [97; 98] [97; 98; 59]
    example_shell example_vars example_memory).
  - repeat split; reflexivity.
  - repeat split; try done; [by repeat constructor|by intros c [= <-]].
  - reflexivity.
  - eapply (spelled_token [] _ [97; 98]); [no_gap|apply sp_name; [|next_char_ok]|].
    + repeat split; try done; [by repeat constructor|by intros c [= <-]].
    + eapply (spelled_token [] _ [59]); [no_gap|spell_op|]. apply spelled_end. no_gap.
Defined.

(** ** Lines on which the shell surprises *)

Definition example_functions : finsh_tables := Tables [Syscall [102] 77] [] [] [].
Definition run_example (line : list Z) : option answer :=
  fst <$> finsh_run_line example_functions 1000 2000 (fun _ _ m => Some (5, m)) line example_shell.

(** An unknown name ["ab"] inside of an expression is refused with other errors than
    "Unknown symbol": ["ab=1;"], ["ab(1);"], ["ab+1;"] and ["~ab;"] with "Null node",
    ["1+ab;"] with "Expect a operator". *)
Example unknown_elsewhere :
  run_example <$> [[97; 98; 61; 49; 59]; [97; 98; 40; 49; 41; 59]; [97; 98; 43; 49; 59]; [126; 97; 98; 59]; [49; 43; 97; 98; 59]] =
  [Some (Error FINSH_ERROR_NULL_NODE); Some (Error FINSH_ERROR_NULL_NODE); Some (Error FINSH_ERROR_NULL_NODE);
   Some (Error FINSH_ERROR_NULL_NODE); Some (Error FINSH_ERROR_EXPECT_OPERATOR)].
Proof. by vm_compute. Qed.

(** ["(1);"]: every opening parenthesis starts a cast. *)
Example parentheses_refused : run_example [40; 49; 41; 59] = Some (Error FINSH_ERROR_INVALID_TOKEN).
Proof. by vm_compute. Qed.

(** ["f()+1;"] where [f] returns 5: a call has no data type and no addition is compiled. *)
Example call_operand_lost : run_example [102; 40; 41; 43; 49; 59] = Some (Value 5).
Proof. by vm_compute. Qed.

(** ["0x10L;"]: the suffix is taken for a digit. *)
Example hex_suffix_digit : run_example [48; 120; 49; 48; 76; 59] = Some (Value 284).
Proof. by vm_compute. Qed.

(** ["'\65';"]: the number of the escape is read from behind its digits. *)
Example char_escape_zero : run_example [39; 92; 54; 53; 39; 59] = Some (Value 0).
Proof. by vm_compute. Qed.

(** ["x"] without a semicolon: the lexer is back at the start of the line. *)
Example name_at_end_repeats :
  (fun r => (tok_current r.2.1, tok_eof r.2.1, tok_position r.2.1)) <$>
    token_run (finsh_token_init [120], FINSH_ERROR_OK)
  = Some (finsh_token_type_identifier, false, 0).
Proof. by vm_compute. Qed.
