(* ===== verification/FinshLine.v ===== *)
(** * The line editor of the shell: [finsh_thread_entry] of components/finsh/shell.c

    The thread reads characters from the device and edits [shell->line]; at the
    end of a line it runs it.  The echo is not modelled.  [None] is an access
    outside of [line].  The second part is the editor that is meant: a text
    with a cursor and a history of the last five lines, and the theorem that
    the code implements it as long as no line has more than 79 characters. *)

From S2P Require Import Prelude StateM Finsh FinshToken.

Definition FINSH_CMD_SIZE : Z := 80.
Definition FINSH_HISTORY_LINES : Z := 5.

Inductive input_stat := WAIT_NORMAL | WAIT_SPEC_KEY | WAIT_FUNC_KEY.

#[export] Instance input_stat_eq_dec : EqDecision input_stat.
Proof. solve_decision. Defined.

(** [ed_input]: what the device has received. *)
Record finsh_shell := Editor {
  stat : input_stat;
  current_history : Z;
  history_count : Z;
  cmd_history : list (list Z);
  line : list Z;
  line_position : Z;
  line_curpos : Z;
  ed_input : list Z
}.

Definition set_stat x s := Editor x (current_history s) (history_count s) (cmd_history s) (line s) (line_position s) (line_curpos s) (ed_input s).
Definition set_current_history x s := Editor (stat s) x (history_count s) (cmd_history s) (line s) (line_position s) (line_curpos s) (ed_input s).
Definition set_history_count x s := Editor (stat s) (current_history s) x (cmd_history s) (line s) (line_position s) (line_curpos s) (ed_input s).
Definition set_cmd_history x s := Editor (stat s) (current_history s) (history_count s) x (line s) (line_position s) (line_curpos s) (ed_input s).
Definition set_line x s := Editor (stat s) (current_history s) (history_count s) (cmd_history s) x (line_position s) (line_curpos s) (ed_input s).
Definition set_line_position x s := Editor (stat s) (current_history s) (history_count s) (cmd_history s) (line s) x (line_curpos s) (ed_input s).
Definition set_line_curpos x s := Editor (stat s) (current_history s) (history_count s) (cmd_history s) (line s) (line_position s) x (ed_input s).
Definition set_input x s := Editor (stat s) (current_history s) (history_count s) (cmd_history s) (line s) (line_position s) (line_curpos s) x.

Abbreviation E := (ST finsh_shell).

(** ** Memory *)

(** [line[i] = c] *)
Definition store_line (i c : Z) : E unit :=
  l ← sget line;
  l ← slift (memcpy_at l i [c]);
  supd (set_line l).

(** [rt_memmove(&line[dst], &line[src], n)] *)
Definition line_move (dst src n : Z) : E unit :=
  l ← sget line;
  bs ← slift (memread l src n);
  l ← slift (memcpy_at l dst bs);
  supd (set_line l).

(** [strlen(line)], which has to find a null inside of the line. *)
Definition line_strlen : E Z :=
  l ← sget line;
  let n := length (c_string l) in
  slift (if (n <? length l)%nat then Some (Z.of_nat n) else None).

(** Both positions go to the end of the line. *)
Definition line_end : E unit :=
  n ← line_strlen;
  supd (set_line_position (u8 n));;
  supd (set_line_curpos (u8 n)).

Definition clear (n : Z) : list Z := replicate (Z.to_nat n) 0.

(** ** History *)

Definition history_store (i : Z) : E unit :=
  s ← sget id;
  h ← slift (memcpy_at (clear FINSH_CMD_SIZE) 0 (take (Z.to_nat (line_position s)) (line s)));
  hs ← slift (memcpy_at (cmd_history s) i [h]);
  supd (set_cmd_history hs).

Definition shell_push_history : E unit :=
  s ← sget id;
  (if line_position s =? 0 then mret tt
   else if FINSH_HISTORY_LINES <=? history_count s then
     supd (set_cmd_history (drop 1 (cmd_history s) ++ drop (Z.to_nat (FINSH_HISTORY_LINES - 1)) (cmd_history s)));;
     history_store (FINSH_HISTORY_LINES - 1);;
     supd (set_history_count FINSH_HISTORY_LINES)
   else
     history_store (history_count s);;
     supd (set_history_count (u16 (history_count s + 1))));;
  supd (fun s => set_current_history (history_count s) s).

(** A line of the history becomes the line. *)
Definition history_load : E unit :=
  s ← sget id;
  h ← slift (zlookup (cmd_history s) (current_history s));
  supd (set_line h);;
  line_end.

Definition up_key : E unit :=
  c ← sget current_history;
  if 0 <? c then supd (set_current_history (c - 1));; history_load else mret tt.

Definition down_key : E unit :=
  c ← sget current_history;
  n ← sget history_count;
  if c <? n - 1 then supd (set_current_history (u16 (c + 1)));; history_load
  else if negb (n =? 0) then supd (set_current_history (n - 1));; history_load
  else mret tt.

(** ** Keys *)

Definition left_key : E unit :=
  c ← sget line_curpos; if truthy c then supd (set_line_curpos (c - 1)) else mret tt.

Definition right_key : E unit :=
  c ← sget line_curpos;
  p ← sget line_position;
  if c <? p then zc ← (l ← sget line; slift (zlookup l c)); supd (set_line_curpos (u8 (c + 1)))
  else mret tt.

Definition backspace_key : E unit :=
  c ← sget line_curpos;
  if c =? 0 then mret tt
  else
    p ← sget line_position;
    let p := u8 (p - 1) in
    let c := u8 (c - 1) in
    supd (set_line_position p);;
    supd (set_line_curpos c);;
    (if c <? p then line_move c (c + 1) (p - c) else mret tt);;
    store_line p 0.

Definition normal_char (ch : Z) : E unit :=
  p ← sget line_position;
  swhen (FINSH_CMD_SIZE <=? p) (supd (set_line_position 0));;
  p ← sget line_position;
  c ← sget line_curpos;
  (if c <? p then line_move (c + 1) c (p - c);; store_line c ch
   else store_line p ch);;
  supd (set_line_position (u8 (p + 1)));;
  supd (set_line_curpos (u8 (c + 1))).

(** What the thread has to do next: read on, or run a line. *)
Inductive event := More | NoInput | EndOfLine (run : option (list Z)).

Definition end_of_line : E event :=
  shell_push_history;;
  p ← sget line_position;
  store_line p 59;;
  l ← sget line;
  supd (set_line (clear FINSH_CMD_SIZE));;
  supd (set_line_curpos 0);;
  supd (set_line_position 0);;
  mret (EndOfLine (if p =? 0 then None else Some (c_string l))).

Definition device_read : E (option Z) :=
  i ← sget ed_input;
  match i with
  | [] => mret None
  | c :: i => supd (set_input i);; mret (Some c)
  end.

Section thread.

(** [shell_auto_complete] may change the line. *)
Context (auto_complete : list Z -> list Z).

Definition tab_key : E unit :=
  supd (fun s => set_line (auto_complete (line s)) s);; line_end.

Definition ordinary (ch : Z) : E event :=
  if (ch =? 9) then tab_key;; mret More
  else if (ch =? 127) || (ch =? 8) then backspace_key;; mret More
  else
    ch ← (if ch =? 13 then next ← device_read; mret (default 13 next) else mret ch);
    if (ch =? 13) || (ch =? 10) then end_of_line
    else normal_char ch;; mret More.

(** One round of [while (rt_device_read(shell->device, 0, &ch, 1) == 1)]. *)
Definition handle_char (ch : Z) : E event :=
  st ← sget stat;
  if ch =? 0x1b then supd (set_stat WAIT_SPEC_KEY);; mret More
  else
    match st with
    | WAIT_SPEC_KEY =>
        if ch =? 0x5b then supd (set_stat WAIT_FUNC_KEY);; mret More
        else supd (set_stat WAIT_NORMAL);; ordinary ch
    | WAIT_FUNC_KEY =>
        supd (set_stat WAIT_NORMAL);;
        if ch =? 0x41 then up_key;; mret More
        else if ch =? 0x42 then down_key;; mret More
        else if ch =? 0x44 then left_key;; mret More
        else if ch =? 0x43 then right_key;; mret More
        else ordinary ch
    | WAIT_NORMAL => ordinary ch
    end.

Definition read_char : E event :=
  c ← device_read;
  match c with Some ch => handle_char ch | None => mret NoInput end.

(** The loop, until a line is complete or the device has no more characters:
    the line to run, if any. *)
Fixpoint read_loop (fuel : nat) : E (option (list Z)) :=
  e ← read_char;
  match e with
  | NoInput => mret None
  | EndOfLine run => mret run
  | More => match fuel with O => slift None | S fuel => read_loop fuel end
  end.

End thread.

(** ** The editor that is meant *)

(** The text and the cursor, the lines typed before, and the one shown last. *)
Record view := View { text : list Z; cursor : nat; past : list (list Z); shown : nat }.

Inductive key := KChar (c : Z) | KBack | KLeft | KRight | KUp | KDown.

Definition key_bytes (k : key) : list Z :=
  match k with
  | KChar c => [c]
  | KBack => [127]
  | KLeft => [0x1b; 0x5b; 0x44]
  | KRight => [0x1b; 0x5b; 0x43]
  | KUp => [0x1b; 0x5b; 0x41]
  | KDown => [0x1b; 0x5b; 0x42]
  end.

Definition recall (i : nat) (v : view) : view :=
  let t := default [] (past v !! i) in View t (length t) (past v) i.

Definition press (k : key) (v : view) : view :=
  match k with
  | KChar c => View (take (cursor v) (text v) ++ c :: drop (cursor v) (text v)) (S (cursor v)) (past v) (shown v)
  | KBack => View (take (pred (cursor v)) (text v) ++ drop (cursor v) (text v)) (pred (cursor v)) (past v) (shown v)
  | KLeft => View (text v) (pred (cursor v)) (past v) (shown v)
  | KRight => View (text v) (if (cursor v <? length (text v))%nat then S (cursor v) else cursor v) (past v) (shown v)
  | KUp => match shown v with O => v | S i => recall i v end
  | KDown => match past v with
             | [] => v
             | _ => recall (if (S (shown v) <? length (past v))%nat then S (shown v) else pred (length (past v))) v
             end
  end.

(** The last five lines. *)
Definition remember (t : list Z) (past : list (list Z)) : list (list Z) :=
  if bool_decide (t = []) then past
  else if (5 <=? length past)%nat then drop 1 past ++ [t] else past ++ [t].

Definition enter (v : view) : view :=
  let p := remember (text v) (past v) in View [] 0 p (length p).

(** A line that fits, in its buffer. *)
Definition fits (t : list Z) : Prop := (length t < 80)%nat /\ Forall (fun c => c <> 0) t.
Definition padded (t : list Z) : list Z := t ++ replicate (80 - length t) 0.

Definition shows (s : finsh_shell) (v : view) : Prop :=
  stat s = WAIT_NORMAL /\ line s = padded (text v) /\ fits (text v) /\
  line_position s = Z.of_nat (length (text v)) /\ line_curpos s = Z.of_nat (cursor v) /\
  (cursor v <= length (text v))%nat /\
  history_count s = Z.of_nat (length (past v)) /\ (length (past v) <= 5)%nat /\
  (exists free, cmd_history s = (padded <$> past v) ++ free /\ length (cmd_history s) = 5%nat) /\
  Forall fits (past v) /\
  current_history s = Z.of_nat (shown v) /\ (shown v <= length (past v))%nat.

(** A key press keeps the line short enough, and characters are printable. *)
Definition key_ok (k : key) (v : view) : Prop :=
  match k with KChar c => 32 <= c < 127 /\ (length (text v) < 79)%nat | _ => True end.

Fixpoint keys_ok (ks : list key) (v : view) : Prop :=
  match ks with [] => True | k :: ks => key_ok k v /\ keys_ok ks (press k v) end.

(** ** Lemmas on the line *)

Lemma padded_length t : fits t -> length (padded t) = 80%nat.
Proof. intros [H _]. unfold padded. rewrite length_app, length_replicate. lia. Qed.

Lemma padded_string t : fits t -> c_string (padded t) = t.
Proof.
  intros [H Hz]. unfold padded. destruct (80 - length t)%nat as [|n] eqn:E0; [lia|]. simpl. clear E0 H.
  induction Hz as [|c t Hc _ IH]; simpl; [done|]. rewrite (proj2 (Z.eqb_neq _ _)) by done. by rewrite IH.
Qed.

(** The line with one character replaced. *)
Lemma inserts_app (l1 l2 l3 bs : list Z) :
  length l2 = length bs -> list_inserts (length l1) bs (l1 ++ l2 ++ l3) = l1 ++ bs ++ l3.
Proof.
  intros H. rewrite <-(Nat.add_0_r (length l1)), list_inserts_app_r, list_inserts_0_r by done. done.
Qed.

Lemma memcpy_mid (l1 l2 l3 bs : list Z) off :
  off = Z.of_nat (length l1) -> length l2 = length bs ->
  memcpy_at (l1 ++ l2 ++ l3) off bs = Some (l1 ++ bs ++ l3).
Proof.
  intros -> H. rewrite memcpy_at_Some by (rewrite ?length_app; lia).
  by rewrite Nat2Z.id, inserts_app.
Qed.

Lemma memread_mid (l1 l2 l3 : list Z) off n :
  off = Z.of_nat (length l1) -> n = Z.of_nat (length l2) ->
  memread (l1 ++ l2 ++ l3) off n = Some l2.
Proof.
  intros -> ->. unfold memread. rewrite !length_app.
  rewrite !(proj2 (Z.leb_le _ _)) by lia. simpl.
  by rewrite !Nat2Z.id, drop_app_length, take_app_length.
Qed.

Lemma zeros_cons (t : list Z) : (length t < 80)%nat ->
  replicate (80 - length t) 0 = 0 :: replicate (79 - length t) 0.
Proof. intros H. by replace (80 - length t)%nat with (S (79 - length t)) by lia. Qed.

(** A list of [n + 1] elements shifted by one. *)
Lemma cons_snoc (x : Z) l : exists y l', x :: l = l' ++ [y] /\ length l' = length l.
Proof.
  destruct (exists_last (l := x :: l)) as (l' & y & E0); [done|]. exists y, l'. split; [done|].
  apply (f_equal length) in E0. rewrite length_app in E0. simpl in E0. lia.
Qed.

Section ops.

Context (st : input_stat) (ch hc : Z) (h : list (list Z)) (inp : list Z).
Abbreviation Ed l p c := (Editor st ch hc h l p c inp).

Lemma store_line_eq l1 x l2 c p cur :
  store_line (Z.of_nat (length l1)) c (Ed (l1 ++ x :: l2) p cur) = Some (tt, Ed (l1 ++ c :: l2) p cur).
Proof.
  unfold store_line. rewrite (bind_Some _ _ _ _ _ eq_refl). cbn [line].
  rewrite (bind_Some _ _ _ _ _ (slift_Some _ _ _ (memcpy_mid l1 [x] l2 [c] _ eq_refl eq_refl))). done.
Qed.

Lemma line_move_eq l dst src n bs l' p cur :
  memread l src n = Some bs -> memcpy_at l dst bs = Some l' ->
  line_move dst src n (Ed l p cur) = Some (tt, Ed l' p cur).
Proof.
  intros E1 E2. unfold line_move. rewrite (bind_Some _ _ _ _ _ eq_refl). cbn [line].
  rewrite (bind_Some _ _ _ _ _ (slift_Some _ _ _ E1)).
  by rewrite (bind_Some _ _ _ _ _ (slift_Some _ _ _ E2)).
Qed.

(** A character goes in front of [t2]. *)
Lemma normal_char_eq t1 t2 c :
  (length (t1 ++ t2) < 79)%nat ->
  normal_char c (Ed (padded (t1 ++ t2)) (Z.of_nat (length (t1 ++ t2))) (Z.of_nat (length t1))) =
  Some (tt, Ed (padded (t1 ++ c :: t2)) (Z.of_nat (length (t1 ++ c :: t2))) (Z.of_nat (S (length t1)))).
Proof.
  intros Hl. set (z := replicate (79 - length (t1 ++ t2)) 0).
  assert (padded (t1 ++ t2) = t1 ++ t2 ++ 0 :: z) as ->.
  { unfold padded. rewrite zeros_cons by lia. by rewrite <-app_assoc. }
  assert (padded (t1 ++ c :: t2) = t1 ++ c :: t2 ++ z) as ->.
  { unfold padded, z. rewrite <-app_assoc. simpl. do 4 f_equal. rewrite !length_app. simpl. lia. }
  clearbody z. rewrite !length_app in *. simpl length.
  unfold normal_char. rewrite (bind_Some _ _ _ _ _ eq_refl). cbn [line_position].
  rewrite (proj2 (Z.leb_gt _ _)) by (unfold FINSH_CMD_SIZE; lia).
  rewrite (bind_Some _ _ _ tt _ eq_refl), (bind_Some _ _ _ _ _ eq_refl), (bind_Some _ _ _ _ _ eq_refl).
  cbn [line_position line_curpos].
  rewrite (bind_Some _ _ _ tt (Ed (t1 ++ c :: t2 ++ z) (Z.of_nat (length t1 + length t2)) (Z.of_nat (length t1)))).
  - rewrite (bind_Some _ _ _ tt _ eq_refl). unfold supd, set_line_curpos, set_line_position. simpl.
    do 3 f_equal; unfold wrap; rewrite Z.mod_small by lia; lia.
  - destruct t2 as [|x t2].
    + rewrite (proj2 (Z.ltb_ge _ _)) by (simpl; lia). simpl length. rewrite Nat.add_0_r. apply store_line_eq.
    + rewrite (proj2 (Z.ltb_lt _ _)) by (simpl; lia).
      rewrite (bind_Some _ _ _ tt (Ed (t1 ++ x :: (x :: t2) ++ z)
        (Z.of_nat (length t1 + length (x :: t2))) (Z.of_nat (length t1)))); [apply store_line_eq|].
      eapply line_move_eq; [apply memread_mid; [done|simpl; lia]|].
      replace (t1 ++ (x :: t2) ++ 0 :: z) with ((t1 ++ [x]) ++ (t2 ++ [0]) ++ z)
        by (rewrite <-!app_assoc; done).
      rewrite (memcpy_mid (t1 ++ [x])); [by rewrite <-!app_assoc|rewrite length_app; simpl; lia|].
      rewrite length_app. simpl. lia.
Qed.

(** The character [x] in front of [t2] is deleted. *)
Lemma backspace_eq t1 x t2 :
  (length (t1 ++ x :: t2) < 80)%nat ->
  backspace_key (Ed (padded (t1 ++ x :: t2)) (Z.of_nat (length (t1 ++ x :: t2))) (Z.of_nat (S (length t1)))) =
  Some (tt, Ed (padded (t1 ++ t2)) (Z.of_nat (length (t1 ++ t2))) (Z.of_nat (length t1))).
Proof.
  intros Hl. rewrite length_app in Hl. simpl in Hl.
  set (z := replicate (80 - length (t1 ++ x :: t2)) 0).
  assert (padded (t1 ++ x :: t2) = t1 ++ (x :: t2) ++ z) as Epad by (unfold padded; by rewrite <-app_assoc).
  assert (padded (t1 ++ t2) = (t1 ++ t2) ++ 0 :: z) as Epad'.
  { unfold padded, z. rewrite zeros_cons by (rewrite length_app; lia). do 3 f_equal.
    rewrite !length_app. simpl. lia. }
  unfold backspace_key. rewrite (bind_Some _ _ _ _ _ eq_refl). cbn [line_curpos].
  rewrite (proj2 (Z.eqb_neq _ _)) by lia. rewrite (bind_Some _ _ _ _ _ eq_refl). cbn [line_position].
  replace (u8 (Z.of_nat (length (t1 ++ x :: t2)) - 1)) with (Z.of_nat (length (t1 ++ t2)))
    by (unfold wrap; rewrite Z.mod_small; rewrite !length_app; simpl; lia).
  replace (u8 (Z.of_nat (S (length t1)) - 1)) with (Z.of_nat (length t1))
    by (unfold wrap; rewrite Z.mod_small; lia).
  rewrite (bind_Some _ _ _ tt _ eq_refl), (bind_Some _ _ _ tt _ eq_refl).
  unfold set_line_curpos, set_line_position. simpl.
  destruct (cons_snoc x t2) as (y & t2' & E2 & Hl2).
  rewrite (bind_Some _ _ _ tt (Ed ((t1 ++ t2) ++ y :: z) (Z.of_nat (length (t1 ++ t2))) (Z.of_nat (length t1)))).
  - rewrite Epad'. apply store_line_eq.
  - rewrite Epad. destruct t2 as [|x2 t2].
    + rewrite (proj2 (Z.ltb_ge _ _)) by (rewrite app_nil_r; lia). simpl in E2.
      destruct t2' as [|? [|]]; [|done..]. injection E2 as <-. rewrite !app_nil_r. done.
    + rewrite (proj2 (Z.ltb_lt _ _)) by (rewrite length_app; simpl; lia).
      eapply line_move_eq.
      * replace (t1 ++ (x :: x2 :: t2) ++ z) with ((t1 ++ [x]) ++ (x2 :: t2) ++ z) by (rewrite <-!app_assoc; done).
        apply memread_mid; [rewrite length_app; simpl; lia|rewrite length_app; lia].
      * rewrite E2, <-(app_assoc t2'). rewrite (memcpy_mid t1 t2'); [by rewrite <-!app_assoc|done|done].
Qed.

End ops.

(** ** Reading keys *)

Section keys.

Context (auto_complete : list Z -> list Z).

(** A character that the loop handles with [op] and goes on. *)
Lemma read_loop_more fuel s c rest s' :
  ed_input s = c :: rest -> handle_char auto_complete c (set_input rest s) = Some (More, s') ->
  read_loop auto_complete (S fuel) s = read_loop auto_complete fuel s'.
Proof.
  intros Hi H. simpl. rewrite (bind_Some _ _ _ More s'); [done|].
  unfold read_char, device_read. rewrite bind_assoc, (bind_Some _ _ _ _ _ eq_refl), Hi.
  rewrite bind_assoc, (bind_Some _ _ _ tt _ eq_refl), (bind_Some _ _ _ _ _ eq_refl). exact H.
Qed.

Lemma read_printable fuel s c rest s' :
  stat s = WAIT_NORMAL -> ed_input s = c :: rest -> 32 <= c < 127 ->
  normal_char c (set_input rest s) = Some (tt, s') ->
  read_loop auto_complete (S fuel) s = read_loop auto_complete fuel s'.
Proof.
  intros Hst Hi Hc H. apply (read_loop_more _ _ _ _ _ Hi).
  unfold handle_char. rewrite (bind_Some _ _ _ _ _ eq_refl). cbn [stat set_input]. rewrite Hst.
  rewrite (proj2 (Z.eqb_neq _ _)) by lia. unfold ordinary.
  repeat (rewrite (proj2 (Z.eqb_neq c _)) by lia). simpl.
  rewrite (bind_Some _ _ _ c _ eq_refl). repeat (rewrite (proj2 (Z.eqb_neq c _)) by lia). simpl.
  by rewrite (bind_Some _ _ _ _ _ H).
Qed.

Lemma read_backspace fuel s rest s' :
  stat s = WAIT_NORMAL -> ed_input s = 127 :: rest -> backspace_key (set_input rest s) = Some (tt, s') ->
  read_loop auto_complete (S fuel) s = read_loop auto_complete fuel s'.
Proof.
  intros Hst Hi H. apply (read_loop_more _ _ _ _ _ Hi).
  unfold handle_char. rewrite (bind_Some _ _ _ _ _ eq_refl). cbn [stat set_input]. rewrite Hst.
  simpl. unfold ordinary. simpl. by rewrite (bind_Some _ _ _ _ _ H).
Qed.

(** The keys that send three characters. *)
Definition arrow (c : Z) : option (E unit) :=
  if c =? 0x41 then Some up_key else if c =? 0x42 then Some down_key
  else if c =? 0x44 then Some left_key else if c =? 0x43 then Some right_key else None.

Lemma read_arrow fuel s c op rest s' :
  stat s = WAIT_NORMAL -> ed_input s = 0x1b :: 0x5b :: c :: rest -> arrow c = Some op ->
  op (set_input rest s) = Some (tt, s') ->
  read_loop auto_complete (S (S (S fuel))) s = read_loop auto_complete fuel s'.
Proof.
  intros Hst Hi Hop H. destruct s as [st ch hc h l p cur inp]. simpl in Hst, Hi. subst.
  do 2 (erewrite read_loop_more; [|reflexivity|reflexivity]).
  eapply read_loop_more; [reflexivity|].
  unfold arrow in Hop. unfold handle_char. rewrite (bind_Some _ _ _ _ _ eq_refl). cbn [stat set_input set_stat].
  rewrite (proj2 (Z.eqb_neq c 0x1b)).
  2:{ intros ->. discriminate Hop. }
  rewrite (bind_Some _ _ _ tt _ eq_refl).
  destruct (c =? 0x41); [injection Hop as <-; by rewrite (bind_Some _ _ _ _ _ H)|].
  destruct (c =? 0x42); [injection Hop as <-; by rewrite (bind_Some _ _ _ _ _ H)|].
  destruct (c =? 0x44); [injection Hop as <-; by rewrite (bind_Some _ _ _ _ _ H)|].
  destruct (c =? 0x43); [injection Hop as <-; by rewrite (bind_Some _ _ _ _ _ H)|done].
Qed.

(** ** Each key does what is meant *)

Lemma split_at {A} (l : list A) n : (n <= length l)%nat -> exists t1 t2, l = t1 ++ t2 /\ n = length t1.
Proof.
  intros H. exists (take n l), (drop n l). rewrite take_drop, length_take. split; [done|lia].
Qed.

(** The line and the positions change, the history does not. *)
Lemma shows_line s v t cur l p c inp st :
  shows s v -> st = WAIT_NORMAL -> l = padded t -> fits t -> p = Z.of_nat (length t) ->
  c = Z.of_nat cur -> (cur <= length t)%nat ->
  shows (Editor st (current_history s) (history_count s) (cmd_history s) l p c inp)
    (View t cur (past v) (shown v)).
Proof. intros (_&_&_&_&_&_&?&?&?&?&?&?) -> -> Ht -> -> Hc. by split_and!. Qed.

Lemma press_char s v c rest :
  shows s v -> key_ok (KChar c) v -> ed_input s = c :: rest ->
  exists s', (forall fuel, read_loop auto_complete (S fuel) s = read_loop auto_complete fuel s') /\
    shows s' (press (KChar c) v) /\ ed_input s' = rest.
Proof.
  intros Hs (Hc & Hl) Hi. pose proof Hs as (Hst & Hline & (Hf & Hz) & Hp & Hcur & Hle & _).
  destruct s as [st ch hc h l p cur inp], v as [t n pst sh]; simpl in *; subst.
  destruct (split_at t n Hle) as (t1 & t2 & -> & ->). rewrite take_app_length, drop_app_length.
  eexists. split; [intros fuel; eapply read_printable; [done|done|done|exact (normal_char_eq _ _ _ _ _ t1 t2 c Hl)]|].
  split; [|done]. apply (shows_line _ _ _ _ _ _ _ rest _ Hs); try done; rewrite ?length_app in *; simpl in *; try lia.
  apply Forall_app in Hz as [Hz1 Hz2]. split; [rewrite length_app; simpl; lia|].
  apply Forall_app. split; [done|]. constructor; [lia|done].
Qed.

Lemma press_back s v rest :
  shows s v -> ed_input s = 127 :: rest ->
  exists s', (forall fuel, read_loop auto_complete (S fuel) s = read_loop auto_complete fuel s') /\
    shows s' (press KBack v) /\ ed_input s' = rest.
Proof.
  intros Hs Hi. pose proof Hs as (Hst & Hline & (Hf & Hz) & Hp & Hcur & Hle & _).
  destruct s as [st ch hc h l p cur inp], v as [t n pst sh]; simpl in *; subst.
  destruct n as [|n].
  - eexists. split; [intros fuel; eapply read_backspace; [done|done|reflexivity]|].
    split; [|done]. apply (shows_line _ _ _ _ _ _ _ rest _ Hs); try done.
  - destruct (split_at t (S n) Hle) as (t1 & t2 & -> & E1).
    destruct (exists_last (l := t1)) as (t0 & x & ->); [by destruct t1|].
    rewrite length_app in E1. simpl in E1. assert (n = length t0) as -> by lia.
    assert (drop (S (length t0)) ((t0 ++ [x]) ++ t2) = t2) as ->.
    { replace (S (length t0)) with (length (t0 ++ [x])) by (rewrite length_app; simpl; lia).
      apply drop_app_length. }
    change (pred (S (length t0))) with (length t0).
    rewrite <-app_assoc in *. rewrite take_app_length.
    eexists. split; [intros fuel; eapply read_backspace;
      [done|done|exact (backspace_eq _ _ _ _ _ t0 x t2 Hf)]|].
    split; [|done]. apply (shows_line _ _ _ _ _ _ _ rest _ Hs); try done;
      rewrite ?length_app in *; simpl in *; try lia.
    apply Forall_app in Hz as [Hz1 Hz2]. apply Forall_cons in Hz2 as [_ Hz2].
    split; [rewrite length_app; lia|by apply Forall_app].
Qed.

(** The arrow keys. *)
Lemma press_arrow s v c op k rest s' :
  shows s v -> ed_input s = key_bytes k ++ rest -> key_bytes k = [0x1b; 0x5b; c] -> arrow c = Some op ->
  op (set_input rest s) = Some (tt, s') ->
  forall fuel, read_loop auto_complete (length (key_bytes k) + fuel) s = read_loop auto_complete fuel s'.
Proof.
  intros (Hst & _) Hi Hk Hop H fuel. rewrite Hk in Hi |- *. simpl in Hi. by eapply read_arrow.
Qed.

Lemma left_ok s v rest :
  shows s v -> exists s', left_key (set_input rest s) = Some (tt, s') /\ shows s' (press KLeft v) /\ ed_input s' = rest.
Proof.
  intros Hs. pose proof Hs as (Hst & Hline & Hf & Hp & Hcur & Hle & _).
  destruct s as [st ch hc h l p cur inp], v as [t n pst sh]; simpl in *; subst.
  unfold left_key. rewrite (bind_Some _ _ _ _ _ eq_refl). cbn [line_curpos set_input].
  destruct n as [|n]; eexists; (split; [reflexivity|]); (split; [|done]);
    apply (shows_line _ _ _ _ _ _ _ rest _ Hs); try done; simpl; lia.
Qed.

Lemma right_ok s v rest :
  shows s v -> exists s', right_key (set_input rest s) = Some (tt, s') /\ shows s' (press KRight v) /\ ed_input s' = rest.
Proof.
  intros Hs. pose proof Hs as (Hst & Hline & Hf & Hp & Hcur & Hle & _).
  destruct s as [st ch hc h l p cur inp], v as [t n pst sh]; simpl in *; subst.
  unfold right_key. rewrite (bind_Some _ _ _ _ _ eq_refl), (bind_Some _ _ _ _ _ eq_refl).
  cbn [line_curpos line_position set_input]. destruct (Nat.ltb_spec n (length t)) as [Hlt|Hge].
  - rewrite (proj2 (Z.ltb_lt _ _)) by lia.
    destruct (zlookup_is_Some (padded t) (Z.of_nat n)) as [x Hx]; [rewrite padded_length by done; destruct Hf; lia|].
    rewrite bind_assoc, (bind_Some _ _ _ _ _ eq_refl). cbn [line].
    rewrite (bind_Some _ _ _ _ _ (slift_Some _ _ _ Hx)). eexists. split; [reflexivity|]. split; [|done].
    apply (shows_line _ _ _ _ _ _ _ rest _ Hs); try done; destruct Hf; simpl; try lia.
    unfold wrap. rewrite Z.mod_small; lia.
  - rewrite (proj2 (Z.ltb_ge _ _)) by lia. eexists. split; [reflexivity|]. split; [|done].
    by apply (shows_line _ _ _ _ _ _ _ rest _ Hs).
Qed.

(** A line of the history. *)
Lemma history_load_ok s v i rest :
  shows s v -> (i < length (past v))%nat ->
  exists s', history_load (set_current_history (Z.of_nat i) (set_input rest s)) = Some (tt, s') /\
    shows s' (recall i v) /\ ed_input s' = rest.
Proof.
  intros (Hst & _ & _ & _ & _ & _ & Hn & Hn5 & (free & Hh & Hh5) & Hpast & _ & _) Hi.
  destruct (lookup_lt_is_Some_2 (past v) i Hi) as [t Ht].
  assert (fits t) as Hfit by (by eapply Forall_lookup_1).
  destruct s as [st ch hc h l p cur inp]; simpl in *; subst.
  unfold history_load. rewrite (bind_Some _ _ _ _ _ eq_refl). cbn [cmd_history current_history id set_current_history set_input].
  match goal with |- context [slift (zlookup ?h ?i)] => assert (zlookup h i = Some (padded t)) as Hlk end.
  { unfold zlookup. rewrite (proj2 (Z.leb_le _ _)) by lia.
      rewrite Nat2Z.id, lookup_app_l by (by rewrite length_fmap). by rewrite list_lookup_fmap, Ht. }
  rewrite (bind_Some _ _ _ _ _ (slift_Some _ _ _ Hlk)).
  rewrite (bind_Some _ _ _ tt _ eq_refl). unfold line_end, line_strlen.
  rewrite bind_assoc, (bind_Some _ _ _ _ _ eq_refl). cbn [line set_line].
  rewrite padded_string, (proj2 (Nat.ltb_lt _ _)) by (rewrite ?padded_length; by destruct Hfit).
  rewrite (bind_Some _ _ _ _ _ (slift_Some _ _ _ eq_refl)), (bind_Some _ _ _ tt _ eq_refl).
  eexists. split; [reflexivity|]. split; [|done]. destruct Hfit as [Hf Hz].
  unfold recall. rewrite Ht. simpl. split_and!; try done; simpl; try (by exists free); try lia;
    unfold wrap; rewrite Z.mod_small; lia.
Qed.

Lemma shows_input s v rest : shows s v -> shows (set_input rest s) v.
Proof. done. Qed.

Lemma up_ok s v rest :
  shows s v -> exists s', up_key (set_input rest s) = Some (tt, s') /\ shows s' (press KUp v) /\ ed_input s' = rest.
Proof.
  intros Hs. pose proof Hs as (_&_&_&_&_&_&_&_&_&_&Hc&Hsh). unfold up_key.
  rewrite (bind_Some _ _ _ _ _ eq_refl). cbn [current_history set_input]. rewrite Hc. simpl.
  destruct (shown v) as [|i].
  - exists (set_input rest s). split_and!; done.
  - rewrite (proj2 (Z.ltb_lt _ _)) by lia. rewrite (bind_Some _ _ _ tt _ eq_refl).
    replace (Z.of_nat (S i) - 1) with (Z.of_nat i) by lia. by apply history_load_ok.
Qed.

Lemma down_ok s v rest :
  shows s v -> exists s', down_key (set_input rest s) = Some (tt, s') /\ shows s' (press KDown v) /\ ed_input s' = rest.
Proof.
  intros Hs. pose proof Hs as (_&_&_&_&_&_&Hn&Hn5&_&_&Hc&Hsh). unfold down_key.
  rewrite (bind_Some _ _ _ _ _ eq_refl), (bind_Some _ _ _ _ _ eq_refl).
  cbn [current_history history_count set_input]. rewrite Hc, Hn. simpl.
  destruct (past v) as [|t ts] eqn:Ep.
  - cbn [length Z.of_nat Z.eqb negb]. rewrite (proj2 (Z.ltb_ge (Z.of_nat (shown v)) _)) by lia. exists (set_input rest s). split_and!; done.
  - rewrite <-Ep in *. assert (0 < length (past v))%nat by (rewrite Ep; simpl; lia).
    destruct (Nat.ltb_spec (S (shown v)) (length (past v))).
    + rewrite (proj2 (Z.ltb_lt _ _)) by lia. rewrite (bind_Some _ _ _ tt _ eq_refl).
      replace (u16 (Z.of_nat (shown v) + 1)) with (Z.of_nat (S (shown v)))
        by (unfold wrap; rewrite Z.mod_small; lia). by apply history_load_ok.
    + rewrite (proj2 (Z.ltb_ge _ _)), (proj2 (Z.eqb_neq _ _)) by lia. simpl.
      rewrite (bind_Some _ _ _ tt _ eq_refl).
      replace (Z.of_nat (length (past v)) - 1) with (Z.of_nat (pred (length (past v)))) by lia.
      apply history_load_ok; [done|lia].
Qed.

(** Every key. *)
Lemma press_ok s v k rest :
  shows s v -> key_ok k v -> ed_input s = key_bytes k ++ rest ->
  exists s', (forall fuel, read_loop auto_complete (length (key_bytes k) + fuel) s = read_loop auto_complete fuel s') /\
    shows s' (press k v) /\ ed_input s' = rest.
Proof.
  intros Hs Hk Hi. destruct k as [c| | | | |].
  - by apply press_char.
  - by apply press_back.
  - destruct (left_ok s v rest Hs) as (s' & E0 & ?). exists s'. split; [|done]. by eapply press_arrow.
  - destruct (right_ok s v rest Hs) as (s' & E0 & ?). exists s'. split; [|done]. by eapply press_arrow.
  - destruct (up_ok s v rest Hs) as (s' & E0 & ?). exists s'. split; [|done]. by eapply press_arrow.
  - destruct (down_ok s v rest Hs) as (s' & E0 & ?). exists s'. split; [|done]. by eapply press_arrow.
Qed.

End keys.

(** ** The end of a line *)

Lemma history_store_eq st ch hc h t c inp i h1 x h2 :
  fits t -> h = h1 ++ x :: h2 -> i = Z.of_nat (length h1) ->
  history_store i (Editor st ch hc h (padded t) (Z.of_nat (length t)) c inp) =
  Some (tt, Editor st ch hc (h1 ++ padded t :: h2) (padded t) (Z.of_nat (length t)) c inp).
Proof.
  intros [Hl _] -> ->. unfold history_store. rewrite (bind_Some _ _ _ _ _ eq_refl).
  cbn [line line_position id cmd_history]. rewrite Nat2Z.id.
  assert (memcpy_at (clear FINSH_CMD_SIZE) 0 (take (length t) (padded t)) = Some (padded t)) as E0.
  { unfold padded. rewrite take_app_length. unfold clear.
    replace (Z.to_nat FINSH_CMD_SIZE) with (length t + (80 - length t))%nat by (unfold FINSH_CMD_SIZE; lia).
    rewrite replicate_add. apply (memcpy_mid []); [done|by rewrite length_replicate]. }
  rewrite (bind_Some _ _ _ _ _ (slift_Some _ _ _ E0)).
  assert (memcpy_at (h1 ++ x :: h2) (Z.of_nat (length h1)) [padded t] = Some (h1 ++ padded t :: h2)) as E1.
  { rewrite memcpy_at_Some by (rewrite ?length_app; simpl; lia). rewrite Nat2Z.id. simpl.
    rewrite insert_app_r_alt, Nat.sub_diag by lia. done. }
  by rewrite (bind_Some _ _ _ _ _ (slift_Some _ _ _ E1)).
Qed.

Lemma push_history_ok s v :
  shows s v ->
  exists s', shell_push_history s = Some (tt, s') /\ ed_input s' = ed_input s /\
    shows s' (View (text v) (cursor v) (remember (text v) (past v)) (length (remember (text v) (past v)))).
Proof.
  intros (Hst & Hline & Hfit & Hp & Hcur & Hle & Hn & Hn5 & (free & Hh & Hh5) & Hpast & Hc & Hsh).
  destruct s as [st ch hc h l p cur inp], v as [t n pst sh]; simpl in *; subst.
  unfold shell_push_history. rewrite (bind_Some _ _ _ _ _ eq_refl).
  cbn [line_position history_count cmd_history id]. unfold remember.
  rewrite length_app, length_fmap in Hh5. destruct (bool_decide_reflect (t = [])) as [-> | Ht].
  { rewrite (bind_Some _ _ _ tt _ eq_refl). eexists. split; [reflexivity|]. split; [done|].
    split_and!; try done; simpl; try lia. exists free. rewrite length_app, length_fmap. done. }
  assert (0 < length t)%nat by (destruct t; [done|simpl; lia]).
  rewrite (proj2 (Z.eqb_neq _ _)) by lia. unfold FINSH_HISTORY_LINES.
  destruct (Nat.leb_spec 5 (length pst)) as [H5|H5].
  - rewrite (proj2 (Z.leb_le _ _)) by lia. assert (free = []) as -> by (destruct free; [done|simpl in Hh5; lia]).
    destruct pst as [|p0 [|p1 [|p2 [|p3 [|p4 [|]]]]]]; simpl in Hn5, H5; try lia.
    change (Z.to_nat (5 - 1)) with 4%nat. simpl.
    rewrite bind_assoc, (bind_Some _ _ _ tt _ eq_refl). unfold set_cmd_history. simpl.
    rewrite bind_assoc, (bind_Some _ _ _ _ _ (history_store_eq _ _ _ _ t _ _ 4
      [padded p1; padded p2; padded p3; padded p4] (padded p4) [] Hfit eq_refl eq_refl)).
    rewrite (bind_Some _ _ _ tt _ eq_refl). eexists. split; [reflexivity|]. split; [done|].
    split_and!; try done; simpl; try lia.
    + by exists [].
    + apply Forall_cons in Hpast as [_ Hpast]. by apply (Forall_app_2 _ [p1; p2; p3; p4] [t]); [|constructor].
  - rewrite (proj2 (Z.leb_gt _ _)) by lia.
    destruct free as [|f free]; [simpl in Hh5; lia|]. simpl in Hh5.
    rewrite bind_assoc, (bind_Some _ _ _ _ _ (history_store_eq _ _ _ _ t _ _ (Z.of_nat (length pst))
      (padded <$> pst) f free Hfit eq_refl ltac:(by rewrite length_fmap))).
    rewrite (bind_Some _ _ _ tt _ eq_refl). eexists. split; [reflexivity|]. split; [done|].
    assert (u16 (Z.of_nat (length pst) + 1) = Z.of_nat (length (pst ++ [t]))) as E0.
    { unfold wrap. rewrite Z.mod_small, length_app; simpl; lia. }
    split_and!; try done; simpl; rewrite ?length_app; simpl; try lia; try (rewrite E0, length_app; done).
    + exists free. rewrite fmap_app, <-app_assoc. simpl. split; [done|].
      rewrite ?length_app, ?length_fmap. simpl. rewrite ?length_fmap. lia.
    + apply Forall_app_2; [done|by constructor].
Qed.

Lemma string_snoc t z : Forall (fun c => c <> 0) t -> z = [] \/ head z = Some 0 -> c_string (t ++ 59 :: z) = t ++ [59].
Proof.
  intros Ht Hz. induction Ht as [|c t Hc _ IH]; simpl.
  - by destruct Hz as [-> |Hz]; [|destruct z; simpl in *; simplify_eq/=].
  - rewrite (proj2 (Z.eqb_neq _ _)) by done. by rewrite IH.
Qed.

Lemma end_of_line_ok s v :
  shows s v ->
  exists s', end_of_line s =
      Some (EndOfLine (if bool_decide (text v = []) then None else Some (text v ++ [59])), s') /\
    ed_input s' = ed_input s /\ shows s' (enter v).
Proof.
  intros Hs. destruct (push_history_ok s v Hs) as (s1 & E1 & Hi & Hs1).
  destruct Hs1 as (Hst & Hline & [Hf Hz] & Hp & Hcur & Hle & Hn & Hn5 & Hh & Hpast & Hc & Hsh).
  destruct s1 as [st ch hc h l p cur inp], v as [t n pst sh]; simpl in *; subst.
  unfold end_of_line. rewrite (bind_Some _ _ _ _ _ E1), (bind_Some _ _ _ _ _ eq_refl). cbn [line_position].
  assert (padded t = t ++ 0 :: replicate (79 - length t) 0) as Epad by (unfold padded; by rewrite zeros_cons).
  rewrite Epad, (bind_Some _ _ _ _ _ (store_line_eq _ _ _ _ _ t 0 _ 59 _ _)), (bind_Some _ _ _ _ _ eq_refl).
  cbn [line]. do 3 rewrite (bind_Some _ _ _ tt _ eq_refl). rewrite string_snoc; [|done|].
  2:{ destruct (79 - length t)%nat; [by left|by right]. }
  exists (Editor WAIT_NORMAL (Z.of_nat (length (remember t pst))) (Z.of_nat (length (remember t pst))) h (clear FINSH_CMD_SIZE) 0 0 (ed_input s)).
  split; [|split; [reflexivity|]].
  - unfold mret, ST_ret. destruct t as [|c t]; reflexivity.
  - split_and!; try done; simpl; try lia. split; [simpl; lia|constructor].
Qed.

Section session.

Context (auto_complete : list Z -> list Z).

Lemma keys_read ks : forall s v rest,
  shows s v -> keys_ok ks v -> ed_input s = flat_map key_bytes ks ++ rest ->
  exists s', (forall fuel, read_loop auto_complete (length (flat_map key_bytes ks) + fuel) s
                           = read_loop auto_complete fuel s') /\
    shows s' (foldl (fun v k => press k v) v ks) /\ ed_input s' = rest.
Proof.
  induction ks as [|k ks IH]; intros s v rest Hs Hk Hi; simpl in *; [by exists s|].
  destruct Hk as (Hk & Hks). rewrite <-app_assoc in Hi.
  destruct (press_ok auto_complete s v k _ Hs Hk Hi) as (s1 & E1 & Hs1 & Hi1).
  destruct (IH s1 _ rest Hs1 Hks Hi1) as (s2 & E2 & Hs2 & Hi2).
  exists s2. split; [|done]. intros fuel. by rewrite length_app, <-Nat.add_assoc, E1, E2.
Qed.

(** C12. The line editor of the shell implements a text with a cursor: after any sequence of
    printable characters, backspaces and arrow keys that keeps the line below 80 characters,
    the end-of-line character makes the thread run exactly the text that the sequence
    produces, with a semicolon, or nothing when the text is empty; the editor is then empty
    and has the text at the end of its history of five lines. *)
Theorem finsh_line_edits ks s v rest fuel :
  shows s v -> keys_ok ks v -> ed_input s = flat_map key_bytes ks ++ 10 :: rest ->
  let v' := foldl (fun v k => press k v) v ks in
  exists s', read_loop auto_complete (length (flat_map key_bytes ks) + fuel) s =
      Some (if bool_decide (text v' = []) then None else Some (text v' ++ [59]), s') /\
    shows s' (enter v') /\ ed_input s' = rest.
Proof.
  intros Hs Hk Hi v'. destruct (keys_read ks s v _ Hs Hk Hi) as (s1 & E1 & Hs1 & Hi1).
  destruct (end_of_line_ok _ _ (shows_input _ _ rest Hs1)) as (s2 & E2 & Hi2 & Hs2).
  exists s2. split; [|split; [exact Hs2|exact Hi2]].
  assert (read_char auto_complete s1 = end_of_line (set_input rest s1)) as Er.
  { unfold read_char, device_read. rewrite bind_assoc, (bind_Some _ _ _ _ _ eq_refl), Hi1.
    rewrite bind_assoc, (bind_Some _ _ _ tt _ eq_refl), (bind_Some _ _ _ _ _ eq_refl).
    destruct Hs1 as (Hst & _). unfold handle_char. rewrite (bind_Some _ _ _ _ _ eq_refl).
    cbn [stat set_input]. by rewrite Hst. }
  rewrite E1. rewrite E2 in Er. destruct fuel; simpl; by rewrite (bind_Some _ _ _ _ _ Er).
Qed.

End session.

(** Typing [x1], left, backspace, [y], end of line. *)
Definition example_editor : finsh_shell :=
  Editor WAIT_NORMAL 0 0 (replicate 5 (replicate 80 0)) (replicate 80 0) 0 0
    [120; 49; 0x1b; 0x5b; 0x44; 127; 121; 10].

Lemma finsh_line_edits_witness :
  exists s', read_loop id 7 example_editor = Some (Some [121; 49; 59], s') /\
    shows s' (View [] 0 [[121; 49]] 1) /\ ed_input s' = [].
Proof.
  apply (finsh_line_edits id [KChar 120; KChar 49; KLeft; KBack; KChar 121] example_editor
    (View [] 0 [] 0) [] 0).
  - repeat split; try reflexivity; simpl; try lia; try constructor.
    exists (replicate 5 (replicate 80 0)). split; reflexivity.
  - simpl. lia.
  - reflexivity.
Defined.

(** ** Lines that are too long *)

Definition type_chars (n : nat) (more : list Z) : finsh_shell :=
  set_input (replicate n 97 ++ more) example_editor.

(** 80 characters and the end of the line: the semicolon is written behind the line. *)
Example long_line_overflows : read_loop id 200 (type_chars 80 [10]) = None.
Proof. by vm_compute. Qed.

(** 81 characters: the line is discarded but the cursor stays; the second backspace makes
    the position 255 and moves 176 bytes from behind the line. *)
Example long_line_backspace : read_loop id 200 (type_chars 81 [127; 127]) = None.
Proof. by vm_compute. Qed.

(** A carriage return that another character follows is lost. *)
Example return_swallowed :
  (fun r => r.1) <$> read_loop id 200 (type_chars 1 [13; 98; 10]) = Some (Some [97; 98; 59]).
Proof. by vm_compute. Qed.

