(* ===== verification/LwipMem.v ===== *)
(** * Memory and packet buffers of lwIP

    The data that the functions of components/net/lwip-1.4.1/src/core share:
    the bytes of the RAM, the packet buffers of include/lwip/pbuf.h, the byte
    order of core/def.c, and the actions of the monad in which the operations
    are written.

    The structures of the packet buffers are records in a map from addresses;
    their payloads are bytes of the RAM.  The heap is the one of the kernel
    ([mem_malloc] is [rt_malloc], see Heap): the answers that it gives to the
    calls to come are a field of the state, and so are the sizes that were asked
    for.  [None] is a failed [LWIP_ASSERT]
    or [LWIP_ERROR] (both end in [RT_ASSERT(0)] on this port), an access to an
    address that holds nothing, or a loop that does not end. *)

From S2P Require Import Prelude StateM.

(** ** Packet buffers: include/lwip/pbuf.h *)

Inductive pbuf_layer := PBUF_TRANSPORT | PBUF_IP | PBUF_LINK | PBUF_RAW.
Inductive pbuf_type := PBUF_RAM | PBUF_ROM | PBUF_REF | PBUF_POOL.

#[export] Instance pbuf_layer_eq_dec : EqDecision pbuf_layer.
Proof. solve_decision. Defined.
#[export] Instance pbuf_type_eq_dec : EqDecision pbuf_type.
Proof. solve_decision. Defined.

Record pbuf := Pbuf {
  pb_next : Z;
  pb_payload : Z;
  pb_tot_len : Z;
  pb_len : Z;
  pb_type : pbuf_type;
  pb_flags : Z;
  pb_ref : Z;
}.

Definition set_pb_next v b := Pbuf v (pb_payload b) (pb_tot_len b) (pb_len b) (pb_type b) (pb_flags b) (pb_ref b).
Definition set_pb_payload v b := Pbuf (pb_next b) v (pb_tot_len b) (pb_len b) (pb_type b) (pb_flags b) (pb_ref b).
Definition set_pb_tot_len v b := Pbuf (pb_next b) (pb_payload b) v (pb_len b) (pb_type b) (pb_flags b) (pb_ref b).
Definition set_pb_len v b := Pbuf (pb_next b) (pb_payload b) (pb_tot_len b) v (pb_type b) (pb_flags b) (pb_ref b).
Definition set_pb_flags v b := Pbuf (pb_next b) (pb_payload b) (pb_tot_len b) (pb_len b) (pb_type b) v (pb_ref b).
Definition set_pb_ref v b := Pbuf (pb_next b) (pb_payload b) (pb_tot_len b) (pb_len b) (pb_type b) (pb_flags b) v.

Record netmem := NetMem {
  ram : gmap Z Z;              (** the bytes *)
  pbufs : gmap Z pbuf;         (** the allocated packet buffers *)
  mallocs : list (option Z);   (** what the heap answers next *)
  pbuf_free_ooseq_pending : Z;
  tcpip_posts : list bool;     (** whether the mailbox of the TCP/IP thread takes
                                   the next messages *)
  ooseq_calls : Z;             (** the calls of [pbuf_free_ooseq] that it holds *)
  blocks : gmap Z Z;           (** the size that was asked for the block at an address *)
}.

Definition set_ram r st :=
  NetMem r (pbufs st) (mallocs st) (pbuf_free_ooseq_pending st) (tcpip_posts st) (ooseq_calls st) (blocks st).
Definition set_pbufs b st :=
  NetMem (ram st) b (mallocs st) (pbuf_free_ooseq_pending st) (tcpip_posts st) (ooseq_calls st) (blocks st).
Definition set_mallocs m st :=
  NetMem (ram st) (pbufs st) m (pbuf_free_ooseq_pending st) (tcpip_posts st) (ooseq_calls st) (blocks st).
Definition set_ooseq pending posts calls st :=
  NetMem (ram st) (pbufs st) (mallocs st) pending posts calls (blocks st).
Definition set_blocks b st :=
  NetMem (ram st) (pbufs st) (mallocs st) (pbuf_free_ooseq_pending st) (tcpip_posts st) (ooseq_calls st) b.

Abbreviation NULL := 0.

(** ** Bytes *)

(** The [n] bytes at address [a]. *)
Fixpoint read_bytes (m : gmap Z Z) (a : Z) (n : nat) : option (list Z) :=
  match n with
  | O => Some []
  | S n => b ← m !! a; r ← read_bytes m (a + 1) n; Some (b :: r)
  end.

(** [MEMCPY (a, bs, n)] of [bs] already read: every byte written must exist. *)
Fixpoint write_bytes (m : gmap Z Z) (a : Z) (bs : list Z) : option (gmap Z Z) :=
  match bs with
  | [] => Some m
  | b :: bs => _ ← m !! a; write_bytes (<[a := b]> m) (a + 1) bs
  end.

(** A 16-bit load on the little-endian processor. *)
Definition load16 (m : gmap Z Z) (a : Z) : option Z :=
  b0 ← m !! a; b1 ← m !! (a + 1); Some (b0 |. Z.shiftl b1 8).

Definition is_byte (b : Z) : Prop := 0 <= b < 256.

(** Every byte of the RAM is one. *)
Definition ram_ok (m : gmap Z Z) : Prop := map_Forall (fun _ b => is_byte b) m.

#[export] Instance is_byte_dec b : Decision (is_byte b).
Proof. unfold is_byte. apply _. Defined.
#[export] Instance ram_ok_dec m : Decision (ram_ok m).
Proof. unfold ram_ok. apply _. Defined.

Lemma read_bytes_length m a n bs : read_bytes m a n = Some bs -> length bs = n.
Proof.
  revert a bs. induction n as [|n IH]; intros a bs; simpl.
  - by intros [= <-].
  - destruct (m !! a); simpl; [|done]. destruct (read_bytes m (a + 1) n) eqn:E; simpl; [|done].
    intros [= <-]. simpl. f_equal. eauto.
Qed.

Lemma read_bytes_S m a n b bs :
  read_bytes m a (S n) = Some (b :: bs) <-> m !! a = Some b /\ read_bytes m (a + 1) n = Some bs.
Proof.
  simpl. destruct (m !! a) as [b'|]; simpl; [|naive_solver].
  destruct (read_bytes m (a + 1) n); simpl; naive_solver.
Qed.

Lemma read_bytes_app m a n1 n2 bs :
  read_bytes m a (n1 + n2) = Some bs <->
  exists b1 b2, bs = b1 ++ b2 /\ read_bytes m a n1 = Some b1 /\
    read_bytes m (a + Z.of_nat n1) n2 = Some b2.
Proof.
  revert a bs. induction n1 as [|n1 IH]; intros a bs.
  - change (0 + n2)%nat with n2. replace (a + Z.of_nat 0) with a by lia. split.
    + intros H. exists [], bs. done.
    + intros (b1 & b2 & -> & [= <-] & H). done.
  - change (S n1 + n2)%nat with (S (n1 + n2)). split.
    + intros H. pose proof (read_bytes_length _ _ _ _ H) as L.
      destruct bs as [|b bs]; [done|]. apply read_bytes_S in H as [H1 H2].
      apply IH in H2 as (b1 & b2 & -> & H3 & H4). exists (b :: b1), b2.
      split; [done|]. rewrite read_bytes_S.
      replace (a + Z.of_nat (S n1)) with (a + 1 + Z.of_nat n1) by lia. done.
    + intros (b1 & b2 & -> & H1 & H2). pose proof (read_bytes_length _ _ _ _ H1) as L.
      destruct b1 as [|b b1]; [done|]. apply read_bytes_S in H1 as [H1 H3].
      simpl app. apply read_bytes_S. split; [done|]. apply IH. exists b1, b2.
      replace (a + 1 + Z.of_nat n1) with (a + Z.of_nat (S n1)) by lia. done.
Qed.

Lemma read_bytes_byte m a n bs :
  ram_ok m -> read_bytes m a n = Some bs -> Forall is_byte bs.
Proof.
  intros Hm. revert a bs. induction n as [|n IH]; intros a bs; simpl.
  - intros [= <-]. constructor.
  - destruct (m !! a) as [b|] eqn:E; simpl; [|done].
    destruct (read_bytes m (a + 1) n) eqn:E'; simpl; [|done].
    intros [= <-]. constructor; [by apply (Hm a)|eauto].
Qed.

Lemma lor_bytes b0 b1 : is_byte b0 -> b0 |. Z.shiftl b1 8 = b0 + 256 * b1.
Proof.
  intros H. rewrite Z.shiftl_mul_pow2 by lia. change (2 ^ 8) with 256.
  rewrite <-Z.add_nocarry_lor; [lia|].
  apply Z.bits_inj'. intros n Hn. rewrite Z.land_spec, Z.bits_0.
  change 256 with (2 ^ 8). rewrite Z.mul_pow2_bits by lia.
  destruct (decide (n < 8)).
  - rewrite (Z.testbit_neg_r b1) by lia. apply andb_false_r.
  - rewrite <-(Z.mod_small b0 (2 ^ 8)) by (unfold is_byte in H; lia).
    rewrite Z.mod_pow2_bits_high by lia. done.
Qed.

(** ** Byte order: core/def.c *)

Definition lwip_htons (n : Z) : Z :=
  u16 (Z.shiftl (n &. 255) 8 |. Z.shiftr (n &. 65280) 8).
Definition lwip_ntohs (n : Z) : Z := lwip_htons n.

Definition lwip_htonl (n : Z) : Z :=
  u32 (Z.shiftl (n &. 255) 24 |. Z.shiftl (n &. 65280) 8 |.
       Z.shiftr (n &. 16711680) 8 |. Z.shiftr (n &. 4278190080) 24).
Definition lwip_ntohl (n : Z) : Z := lwip_htonl n.

Lemma land_255 n : n &. 255 = n mod 256.
Proof. change 255 with (Z.ones 8). by rewrite Z.land_ones by lia. Qed.

Lemma land_byte n k : 0 <= k -> Z.shiftr (n &. Z.shiftl 255 k) k = Z.shiftr n k mod 256.
Proof.
  intros. rewrite Z.shiftr_land, Z.shiftr_shiftl_l by lia.
  rewrite Z.sub_diag, Z.shiftl_0_r. apply land_255.
Qed.

(** The number of which [le_bytes] are the bytes. *)
Fixpoint le_num (bs : list Z) : Z :=
  match bs with [] => 0 | b :: bs => b + 256 * le_num bs end.

Lemma byte_mod b x : is_byte b -> (b + 256 * x) mod 256 = b.
Proof. unfold is_byte. intros. Z.div_mod_to_equations. lia. Qed.

Lemma byte_div b x : is_byte b -> (b + 256 * x) / 256 = x.
Proof. unfold is_byte. intros. Z.div_mod_to_equations. lia. Qed.

Lemma byte_shiftr b x k : is_byte b -> 0 <= k -> Z.shiftr (b + 256 * x) (8 + k) = Z.shiftr x k.
Proof.
  intros. rewrite <-Z.shiftr_shiftr, (Z.shiftr_div_pow2 _ 8) by lia. change (2 ^ 8) with 256.
  by rewrite byte_div.
Qed.

Lemma lwip_htons_bytes b0 b1 :
  is_byte b0 -> is_byte b1 -> lwip_htons (le_num [b0; b1]) = le_num [b1; b0].
Proof.
  intros H0 H1. unfold lwip_htons. simpl le_num.
  rewrite land_255. change 65280 with (Z.shiftl 255 8). rewrite land_byte by lia.
  rewrite Z.shiftr_div_pow2 by lia. change (2 ^ 8) with 256.
  rewrite byte_div, !byte_mod by done.
  rewrite Z.lor_comm, lor_bytes by done.
  rewrite wrap_small; unfold in_u, is_byte in *; lia.
Qed.

Lemma lwip_htonl_bytes b0 b1 b2 b3 :
  is_byte b0 -> is_byte b1 -> is_byte b2 -> is_byte b3 ->
  lwip_htonl (le_num [b0; b1; b2; b3]) = le_num [b3; b2; b1; b0].
Proof.
  intros H0 H1 H2 H3. unfold lwip_htonl.
  set (n := le_num [b0; b1; b2; b3]).
  assert (n mod 256 = b0 /\ Z.shiftr n 8 mod 256 = b1 /\ Z.shiftr n 16 mod 256 = b2 /\
          Z.shiftr n 24 mod 256 = b3) as (E0 & E1 & E2 & E3).
  { unfold n. simpl le_num. change 24 with (8 + (8 + (8 + 0))). change 16 with (8 + (8 + 0)).
    change (Z.shiftr ?x 8) with (Z.shiftr x (8 + 0)).
    by rewrite !byte_shiftr, !Z.shiftr_0_r, !byte_mod by (done || lia). }
  replace (Z.shiftl (n &. 65280) 8) with (Z.shiftl (Z.shiftr (n &. Z.shiftl 255 8) 8) 16).
  2: { apply Z.bits_inj'. intros i Hi. rewrite !Z.shiftl_spec by lia.
       destruct (decide (i < 8)); [rewrite !Z.testbit_neg_r by lia; done|].
       destruct (decide (i < 16)).
       - rewrite (Z.testbit_neg_r _ (i - 16)) by lia. rewrite Z.land_spec.
         change 65280 with (Z.shiftl 255 8). rewrite Z.shiftl_spec by lia.
         rewrite (Z.testbit_neg_r 255) by lia. by rewrite andb_false_r.
       - rewrite Z.shiftr_spec by lia. f_equal. lia. }
  replace (Z.shiftr (n &. 16711680) 8) with (Z.shiftl (Z.shiftr (n &. Z.shiftl 255 16) 16) 8).
  2: { apply Z.bits_inj'. intros i Hi. rewrite Z.shiftl_spec, (Z.shiftr_spec _ 8) by lia.
       destruct (decide (i < 8)).
       - rewrite (Z.testbit_neg_r _ (i - 8)) by lia. rewrite Z.land_spec.
         change 16711680 with (Z.shiftl 255 16). rewrite Z.shiftl_spec by lia.
         rewrite (Z.testbit_neg_r 255) by lia. by rewrite andb_false_r.
       - rewrite Z.shiftr_spec by lia. f_equal. lia. }
  change 4278190080 with (Z.shiftl 255 24).
  rewrite land_255, !land_byte, E0, E1, E2, E3 by lia.
  replace (Z.shiftl b0 24 |. Z.shiftl b1 16 |. Z.shiftl b2 8 |. b3)
    with (b3 |. Z.shiftl (b2 |. Z.shiftl (b1 |. Z.shiftl b0 8) 8) 8).
  - rewrite !lor_bytes by done. rewrite wrap_small; unfold in_u, is_byte in *; simpl le_num; lia.
  - rewrite !Z.shiftl_lor, !Z.shiftl_shiftl by lia. simpl (_ + _).
    rewrite (Z.lor_comm b3), !Z.lor_assoc. f_equal.
    rewrite (Z.lor_comm (Z.shiftl b0 24)), <-!Z.lor_assoc, Z.lor_comm, <-!Z.lor_assoc. done.
Qed.

(** ** Chains

    [pchain st q l]: the buffers that [next] links from [q] to the null pointer,
    with their structures. *)

Fixpoint pchain (bs : gmap Z pbuf) (q : Z) (l : list (Z * pbuf)) : Prop :=
  match l with
  | [] => q = NULL
  | (a, b) :: l => q = a /\ a <> NULL /\ bs !! a = Some b /\ pchain bs (pb_next b) l
  end.

(** The bytes of the payloads. *)
Fixpoint chain_data (m : gmap Z Z) (l : list (Z * pbuf)) : option (list Z) :=
  match l with
  | [] => Some []
  | (_, b) :: l =>
      d ← read_bytes m (pb_payload b) (Z.to_nat (pb_len b));
      r ← chain_data m l;
      Some (d ++ r)
  end.

Definition chain_len (l : list (Z * pbuf)) : Z := foldr (fun ab n => pb_len (ab.2) + n) 0 l.

(** The invariant of include/lwip/pbuf.h: [tot_len] is the length of the buffer
    and of those after it. *)
Fixpoint tot_lens (l : list (Z * pbuf)) : Prop :=
  match l with
  | [] => True
  | (_, b) :: l =>
      pb_tot_len b = pb_len b + chain_len l /\ tot_lens l
  end.

Definition pbuf_ok (b : pbuf) : Prop :=
  0 <= pb_len b < 65536 /\ 0 <= pb_tot_len b < 65536 /\
  0 <= pb_flags b < 256 /\ 0 <= pb_ref b < 65536.

Lemma pchain_app bs q l1 l2 :
  pchain bs q (l1 ++ l2) -> exists r, pchain bs r l2.
Proof.
  revert q. induction l1 as [|[a b] l1 IH]; intros q; simpl; [eauto|].
  intros (_ & _ & _ & H). eauto.
Qed.

Lemma pchain_fun bs q l1 l2 : pchain bs q l1 -> pchain bs q l2 -> l1 = l2.
Proof.
  revert q l2. induction l1 as [|[a b] l1 IH]; intros q [|[a' b'] l2]; simpl; try done.
  - intros -> (? & ? & _). congruence.
  - intros (-> & ? & _) ->. done.
  - intros (-> & ? & H & Hl) (<- & _ & H' & Hl'). rewrite H in H'. injection H' as <-.
    f_equal. eauto.
Qed.

(** A chain that ends has no cycle. *)
Lemma pchain_NoDup bs q l : pchain bs q l -> NoDup l.*1.
Proof.
  revert q. induction l as [|[a b] l IH]; intros q; simpl; [constructor|].
  intros (-> & Ha & Hb & Hl). constructor; [|eauto].
  intros Hin. apply list_elem_of_fmap in Hin as ([a' b'] & -> & Hin). simpl in *.
  apply list_elem_of_split in Hin as (l1 & l2 & ->).
  destruct (pchain_app _ _ _ _ Hl) as [r (-> & _ & Hb' & Hl2)].
  rewrite Hb in Hb'. injection Hb' as <-.
  pose proof (pchain_fun _ _ _ _ Hl Hl2) as E. apply (f_equal length) in E.
  rewrite length_app in E. simpl in E. lia.
Qed.

Lemma pchain_elem bs q l a b : pchain bs q l -> (a, b) ∈ l -> bs !! a = Some b.
Proof.
  revert q. induction l as [|[a' b'] l IH]; intros q; simpl; [by intros _ ?%not_elem_of_nil|].
  intros (-> & _ & Hb & Hl) [[= -> ->]|H]%elem_of_cons; eauto.
Qed.

Lemma pchain_size bs q l : pchain bs q l -> (length l <= size bs)%nat.
Proof.
  intros H. rewrite <-(length_fmap fst).
  rewrite <-(size_list_to_set (C:=gset Z)) by eapply pchain_NoDup, H.
  rewrite <-size_dom. apply subseteq_size. intros a Ha%elem_of_list_to_set.
  apply list_elem_of_fmap in Ha as ([a' b] & -> & Hin).
  apply elem_of_dom. exists b. by eapply pchain_elem.
Qed.

Lemma chain_data_cons m a b l bs :
  chain_data m ((a, b) :: l) = Some bs <->
  exists d r, bs = d ++ r /\ read_bytes m (pb_payload b) (Z.to_nat (pb_len b)) = Some d /\
    chain_data m l = Some r.
Proof.
  simpl. destruct (read_bytes _ _ _); simpl; [|naive_solver].
  destruct (chain_data m l); simpl; naive_solver.
Qed.

Lemma chain_data_byte m l bs : ram_ok m -> chain_data m l = Some bs -> Forall is_byte bs.
Proof.
  intros Hm. revert bs. induction l as [|[a b] l IH]; intros bs.
  - intros [= <-]. constructor.
  - intros (d & r & -> & Hd & Hr)%chain_data_cons. apply Forall_app. split; [|eauto].
    by eapply read_bytes_byte.
Qed.

(** ** Writing bytes *)

Lemma write_bytes_lookup m a bs m' i :
  write_bytes m a bs = Some m' ->
  m' !! i = if decide (a <= i < a + Z.of_nat (length bs)) then bs !! Z.to_nat (i - a) else m !! i.
Proof.
  revert m a. induction bs as [|b bs IH]; intros m a; simpl.
  - intros [= ->]. rewrite decide_False by lia. done.
  - destruct (m !! a); simpl; [|done]. intros H. rewrite (IH _ _ H).
    destruct (decide (i = a)) as [->|Hi].
    + rewrite decide_False, decide_True by lia. rewrite lookup_insert_eq, Z.sub_diag. done.
    + destruct (decide (a + 1 <= i < a + 1 + Z.of_nat (length bs))).
      * rewrite decide_True by lia.
        replace (Z.to_nat (i - a)) with (S (Z.to_nat (i - (a + 1)))) by lia. done.
      * rewrite decide_False by lia. by rewrite lookup_insert_ne by lia.
Qed.

Lemma read_bytes_ext m m' a n :
  (forall i, a <= i < a + Z.of_nat n -> m' !! i = m !! i) -> read_bytes m' a n = read_bytes m a n.
Proof.
  revert a. induction n as [|n IH]; intros a H; simpl; [done|].
  rewrite H by lia. rewrite IH; [done|]. intros i Hi. apply H. lia.
Qed.

Lemma read_write_frame m a bs m' a' n :
  write_bytes m a bs = Some m' -> a' + Z.of_nat n <= a \/ a + Z.of_nat (length bs) <= a' ->
  read_bytes m' a' n = read_bytes m a' n.
Proof.
  intros H Hd. apply read_bytes_ext. intros i Hi. rewrite (write_bytes_lookup _ _ _ _ _ H).
  rewrite decide_False by lia. done.
Qed.

Lemma read_bytes_lookup m a bs :
  (forall i, (i < length bs)%nat -> m !! (a + Z.of_nat i) = bs !! i) ->
  read_bytes m a (length bs) = Some bs.
Proof.
  revert a. induction bs as [|b bs IH]; intros a H; [done|].
  simpl length. apply read_bytes_S. split.
  - specialize (H 0%nat). simpl in H. rewrite Z.add_0_r in H. apply H. lia.
  - apply IH. intros i Hi. specialize (H (S i)). simpl in H.
    replace (a + 1 + Z.of_nat i) with (a + Z.of_nat (S i)) by lia. apply H. lia.
Qed.

Lemma read_write_same m a bs m' :
  write_bytes m a bs = Some m' -> read_bytes m' a (length bs) = Some bs.
Proof.
  intros H. apply read_bytes_lookup. intros i Hi. rewrite (write_bytes_lookup _ _ _ _ _ H).
  rewrite decide_True by lia. f_equal. lia.
Qed.

Lemma write_bytes_Some m a bs :
  is_Some (read_bytes m a (length bs)) -> is_Some (write_bytes m a bs).
Proof.
  revert m a. induction bs as [|b bs IH]; intros m a; simpl; [eauto|].
  destruct (m !! a) eqn:E; simpl; [|by intros [? ?]].
  destruct (read_bytes m (a + 1) (length bs)) eqn:E'; simpl; [|by intros [? ?]].
  intros _. apply IH. rewrite (read_bytes_ext m); [by rewrite E'|].
  intros i Hi. by rewrite lookup_insert_ne by lia.
Qed.

(** A write in the middle of what was read. *)
Lemma read_write_middle m a xs ys zs ws m' :
  read_bytes m a (length (xs ++ ys ++ zs)) = Some (xs ++ ys ++ zs) ->
  length ws = length ys -> write_bytes m (a + Z.of_nat (length xs)) ws = Some m' ->
  read_bytes m' a (length (xs ++ ys ++ zs)) = Some (xs ++ ws ++ zs).
Proof.
  intros Hr Hl Hw. rewrite !length_app in *. apply read_bytes_app in Hr as (x & r & E & Hx & Hr).
  pose proof (read_bytes_length _ _ _ _ Hx). apply app_inj_1 in E as [<- <-]; [|done].
  apply read_bytes_app in Hr as (y & z & E & Hy & Hz).
  pose proof (read_bytes_length _ _ _ _ Hy). apply app_inj_1 in E as [<- <-]; [|done].
  apply read_bytes_app. exists xs, (ws ++ zs). split_and!; [done| |].
  - erewrite read_write_frame; [done|done|lia].
  - apply read_bytes_app. exists ws, zs. split_and!; [done| |].
    + rewrite <-Hl. by eapply read_write_same.
    + erewrite read_write_frame; [done|done|lia].
Qed.

Lemma write_ram_ok m a bs m' :
  ram_ok m -> Forall is_byte bs -> write_bytes m a bs = Some m' -> ram_ok m'.
Proof.
  intros Hm Hb Hw i b. rewrite (write_bytes_lookup _ _ _ _ _ Hw).
  destruct (decide _); [|apply Hm]. intros H. by eapply Forall_lookup_1.
Qed.

Lemma le_bytes_byte n x : Forall is_byte (le_bytes n x).
Proof.
  revert x. induction n; intros; simpl; constructor; [|done]. apply Z.mod_pos_bound. lia.
Qed.

Lemma le_num_bytes n x : 0 <= x < 256 ^ Z.of_nat n -> le_num (le_bytes n x) = x.
Proof.
  revert x. induction n as [|n IH]; intros x; [simpl; lia|].
  rewrite Nat2Z.inj_succ, Z.pow_succ_r by lia. intros. simpl.
  rewrite IH; Z.div_mod_to_equations; lia.
Qed.

(** * Linked lists of the network stack

    The control blocks of core/udp.c and core/raw.c and the packet queues of
    netif/etharp.c are singly linked through a [next] field.  [lseg] says that
    the nodes from [p] up to [q] are the given ones, [lchain] that they end in
    the null pointer. *)

Section Chain.
Context {A : Type} (next : A -> Z).
Implicit Types (m : gmap Z A) (p q x : Z) (u : A) (l : list (Z * A)).

Fixpoint lseg m p l q : Prop :=
  match l with
  | [] => p = q
  | (x, u) :: l => p = x /\ x <> NULL /\ m !! x = Some u /\ lseg m (next u) l q
  end.

Definition lchain m p l : Prop := lseg m p l NULL.

Lemma lseg_app m p l1 l2 q : lseg m p (l1 ++ l2) q <-> exists r, lseg m p l1 r /\ lseg m r l2 q.
Proof.
  revert p. induction l1 as [|[x u] l1 IH]; intros p; simpl.
  - split; [eauto|]. by intros (r & -> & ?).
  - rewrite IH. naive_solver.
Qed.

Lemma lchain_fun m p l1 l2 : lchain m p l1 -> lchain m p l2 -> l1 = l2.
Proof.
  unfold lchain. revert p l2. induction l1 as [|[x u] l1 IH]; intros p [|[y v] l2] H1 H2; simpl in *; naive_solver.
Qed.

Lemma lseg_end m p l q q' : lseg m p l q -> lseg m p l q' -> q = q'.
Proof. revert p. induction l as [|[x u] l IH]; intros p; simpl; [congruence|]. naive_solver. Qed.

Lemma lseg_elem m p l q x u : lseg m p l q -> (x, u) ∈ l -> m !! x = Some u /\ x <> NULL.
Proof.
  revert p. induction l as [|[y v] l IH]; intros p; [by intros _ ?%not_elem_of_nil|].
  simpl. intros (_ & Hy & E & H) Hin. apply elem_of_cons in Hin as [[= -> ->]|Hin]; [done|eauto].
Qed.

(** A chain that ends has no node twice. *)
Lemma lchain_NoDup m p l : lchain m p l -> NoDup l.*1.
Proof.
  revert p. induction l as [|[x u] l IH]; intros p H; [constructor|].
  pose proof H as (-> & Hx & E & Hl). constructor; [|by eapply IH].
  intros ([y v] & Hy & Hin)%list_elem_of_fmap. simpl in Hy. subst y. apply list_elem_of_split in Hin as (l1 & l2 & ->).
  pose proof H as (_ & _ & _ & Hs). apply lseg_app in Hs as (r & _ & Hr). pose proof Hr as (-> & _).
  pose proof (lchain_fun m x _ _ H Hr) as Heq. apply (f_equal length) in Heq.
  rewrite length_cons, length_app, !length_cons in Heq. lia.
Qed.

Lemma lchain_size m p l : lchain m p l -> (length l <= size m)%nat.
Proof.
  intros H. pose proof (lchain_NoDup _ _ _ H) as Hd.
  rewrite <-(length_fmap fst), <-size_dom. rewrite <-(size_list_to_set (C := gset Z)) by done.
  apply subseteq_size. intros x Hx. apply elem_of_list_to_set, list_elem_of_fmap in Hx as ([y u] & -> & Hin).
  apply elem_of_dom. eapply lseg_elem in Hin as [E _]; [|done]. by eexists.
Qed.

Lemma lseg_agree m m' p l q : (forall x u, (x, u) ∈ l -> m' !! x = m !! x) -> lseg m p l q -> lseg m' p l q.
Proof.
  revert p. induction l as [|[x u] l IH]; intros p Ha; [done|]. simpl. intros (-> & Hx & E & H).
  split_and!; [done|done| |].
  - rewrite (Ha x u); [done|apply list_elem_of_here].
  - apply IH; [|done]. intros y v Hin. eapply Ha. by apply list_elem_of_further.
Qed.

Lemma lseg_insert m p l q x u : x ∉ l.*1 -> lseg m p l q -> lseg (<[x := u]> m) p l q.
Proof.
  intros Hx. apply lseg_agree. intros y v Hin. apply lookup_insert_ne. intros ->. apply Hx.
  apply list_elem_of_fmap. by exists (y, v).
Qed.

Lemma lseg_delete m p l q x : x ∉ l.*1 -> lseg m p l q -> lseg (delete x m) p l q.
Proof.
  intros Hx. apply lseg_agree. intros y v Hin. apply lookup_delete_ne. intros ->. apply Hx.
  apply list_elem_of_fmap. by exists (y, v).
Qed.

(** A node gets new fields: behind it the list starts at its new [next]. *)
Lemma lseg_update m p l1 x u l2 r u' :
  lseg m p (l1 ++ [(x, u)]) r -> x ∉ l1.*1 -> x ∉ l2.*1 -> lchain m (next u') l2 ->
  lchain (<[x := u']> m) p (l1 ++ (x, u') :: l2).
Proof.
  intros (r' & H1 & -> & Hx & _)%lseg_app Hd1 Hd2 H2. unfold lchain. apply lseg_app. exists x.
  split; [by apply lseg_insert|]. simpl. rewrite lookup_insert_eq. split_and!; [done..|]. by apply lseg_insert.
Qed.

(** A node in front. *)
Lemma lchain_push m p l x u :
  lchain m p l -> x ∉ l.*1 -> x <> NULL -> next u = p -> lchain (<[x := u]> m) x ((x, u) :: l).
Proof. intros H Hx Hn <-. split_and!; [done..|apply lookup_insert_eq|]. by apply lseg_insert. Qed.

(** New fields, same [next]. *)
Lemma lchain_set m p l1 x u l2 u' :
  lchain m p (l1 ++ (x, u) :: l2) -> next u' = next u -> lchain (<[x := u']> m) p (l1 ++ (x, u') :: l2).
Proof.
  intros H E. pose proof (lchain_NoDup _ _ _ H) as Hd. rewrite fmap_app in Hd. apply NoDup_app in Hd as (_ & Hd & Hd').
  apply NoDup_cons in Hd' as [Hx _]. unfold lchain in H.
  rewrite (cons_middle (x, u)), app_assoc in H. apply lseg_app in H as (r & H1 & H2).
  eapply lseg_update; [done| |done|].
  - intros Hin. eapply Hd; [done|]. apply list_elem_of_here.
  - rewrite E. apply lseg_app in H1 as (r' & _ & H1). simpl in H1. destruct H1 as (_ & _ & _ & ->). done.
Qed.

(** The node behind [w] leaves the list. *)
Lemma lchain_unlink m p l1 w uw x u l2 uw' :
  lchain m p (l1 ++ (w, uw) :: (x, u) :: l2) -> next uw' = next u ->
  lchain (<[w := uw']> m) p (l1 ++ (w, uw') :: l2).
Proof.
  intros H E. pose proof (lchain_NoDup _ _ _ H) as Hd. rewrite fmap_app in Hd. apply NoDup_app in Hd as (_ & Hd & Hd').
  rewrite !fmap_cons in *. apply NoDup_cons in Hd' as [Hw Hd']. apply not_elem_of_cons in Hw as [_ Hw]. unfold lchain in H.
  rewrite (cons_middle (w, uw)), app_assoc in H. apply lseg_app in H as (r & H1 & H2).
  eapply lseg_update; [done| |done|].
  - intros Hin. eapply Hd; [done|]. apply list_elem_of_here.
  - rewrite E. apply H2.
Qed.

Lemma lchain_split_NoDup m p l1 x u l2 :
  lchain m p (l1 ++ (x, u) :: l2) -> x ∉ l1.*1 /\ x ∉ l2.*1.
Proof.
  intros H%lchain_NoDup. rewrite fmap_app in H. apply NoDup_app in H as (_ & Hd & [Hx _]%NoDup_cons).
  split; [|done]. intros Hin. eapply Hd; [done|]. apply list_elem_of_here.
Qed.
End Chain.
