(* ===== verification/Chksum.v ===== *)
(** * Internet checksums: core/ipv4/inet_chksum.c

    [lwip_standard_chksum] is the second of the three versions in the file, the
    one that is compiled (LWIP_CHKSUM_ALGORITHM is 2): it sums 16-bit loads of
    the little-endian processor, aligns itself on odd addresses, and swaps the
    bytes of the result.  The specification is the one of RFC 1071, by one's
    complement addition of big-endian words. *)

From S2P Require Import Prelude StateM LwipMem.

(** ** The macros of include/ipv4/lwip/inet_chksum.h *)

Definition SWAP_BYTES_IN_WORD (w : Z) : Z :=
  Z.shiftl (w &. 255) 8 |. Z.shiftr (w &. 65280) 8.

Definition FOLD_U32T (u : Z) : Z := u32 (Z.shiftr u 16 + (u &. 65535)).

(** ** The sum over a piece of memory *)

(** [while (len > 1) { sum += *ps++; len -= 2; }] *)
Fixpoint chksum_words (fuel : nat) (m : gmap Z Z) (ps len sum : Z) : option (Z * Z * Z) :=
  match fuel with
  | O => None
  | S fuel =>
      if 1 <? len then
        w ← load16 m ps;
        chksum_words fuel m (ps + 2) (len - 2) (u32 (sum + w))
      else Some (ps, len, sum)
  end.

(** [odd] is the alignment of the first byte; [t0] and [t1] are the two bytes
    of [t], in the order of their addresses. *)
Definition lwip_standard_chksum (m : gmap Z Z) (dataptr len : Z) : option Z :=
  let odd := dataptr &. 1 in
  '(t1, pb, len) ←
    (if truthy odd && (0 <? len) then b ← m !! dataptr; Some (b, dataptr + 1, len - 1)
     else Some (0, dataptr, len));
  '(ps, len, sum) ← chksum_words (S (Z.to_nat len)) m pb len 0;
  t0 ← (if 0 <? len then m !! ps else Some 0);
  let t := t0 |. Z.shiftl t1 8 in
  let sum := u32 (sum + t) in
  let sum := FOLD_U32T sum in
  let sum := FOLD_U32T sum in
  let sum := if truthy odd then SWAP_BYTES_IN_WORD sum else sum in
  Some (u16 sum).

Definition inet_chksum (m : gmap Z Z) (dataptr len : Z) : option Z :=
  s ← lwip_standard_chksum m dataptr len; Some (u16 (Z.lnot s)).

(** ** The sum over a chain of packet buffers *)

(** The loop of [inet_chksum_pseudo] and [inet_chksum_pbuf], from [q] on; it
    gives [acc] and [swapped].  The fuel bounds the length of the chain. *)
Fixpoint chksum_chain (fuel : nat) (st : netmem) (q acc swapped : Z) : option (Z * Z) :=
  match fuel with
  | O => None
  | S fuel =>
      if q =? NULL then Some (acc, swapped)
      else
        b ← pbufs st !! q;
        s ← lwip_standard_chksum (ram st) (pb_payload b) (pb_len b);
        let acc := u32 (acc + s) in
        let acc := FOLD_U32T acc in
        if truthy (Z.rem (pb_len b) 2)
        then chksum_chain fuel st (pb_next b) (SWAP_BYTES_IN_WORD acc) (u8 (1 - swapped))
        else chksum_chain fuel st (pb_next b) acc swapped
  end.

(** The number of packet buffers bounds the length of every chain. *)
Definition chain_fuel (st : netmem) : nat := S (size (pbufs st)).

Definition inet_chksum_pbuf (st : netmem) (p : Z) : option Z :=
  '(acc, swapped) ← chksum_chain (chain_fuel st) st p 0 0;
  let acc := if truthy swapped then SWAP_BYTES_IN_WORD acc else acc in
  Some (u16 (Z.lnot (acc &. 65535))).

(** The addition of the pseudo header that ends [inet_chksum_pseudo] and
    [inet_chksum_pseudo_partial]. *)
Definition chksum_pseudo_header (acc src dest proto proto_len : Z) : Z :=
  let acc := u32 (acc + (src &. 65535)) in
  let acc := u32 (acc + (Z.shiftr src 16 &. 65535)) in
  let acc := u32 (acc + (dest &. 65535)) in
  let acc := u32 (acc + (Z.shiftr dest 16 &. 65535)) in
  let acc := u32 (acc + lwip_htons proto) in
  let acc := u32 (acc + lwip_htons proto_len) in
  let acc := FOLD_U32T acc in
  let acc := FOLD_U32T acc in
  u16 (Z.lnot (acc &. 65535)).

Definition inet_chksum_pseudo (st : netmem) (p src dest proto proto_len : Z) : option Z :=
  '(acc, swapped) ← chksum_chain (chain_fuel st) st p 0 0;
  let acc := if truthy swapped then SWAP_BYTES_IN_WORD acc else acc in
  Some (chksum_pseudo_header acc src dest proto proto_len).

(** The loop of [inet_chksum_pseudo_partial]. *)
Fixpoint chksum_chain_partial (fuel : nat) (st : netmem) (q chksum_len acc swapped : Z) :
    option (Z * Z) :=
  match fuel with
  | O => None
  | S fuel =>
      if (q =? NULL) || negb (0 <? chksum_len) then Some (acc, swapped)
      else
        b ← pbufs st !! q;
        let chklen := pb_len b in
        let chklen := if chksum_len <? chklen then chksum_len else chklen in
        s ← lwip_standard_chksum (ram st) (pb_payload b) chklen;
        let acc := u32 (acc + s) in
        let chksum_len := u16 (chksum_len - chklen) in
        if negb (chksum_len <? 32767) then None else
        let acc := FOLD_U32T acc in
        if truthy (Z.rem (pb_len b) 2)
        then chksum_chain_partial fuel st (pb_next b) chksum_len
               (SWAP_BYTES_IN_WORD acc) (u8 (1 - swapped))
        else chksum_chain_partial fuel st (pb_next b) chksum_len acc swapped
  end.

Definition inet_chksum_pseudo_partial
    (st : netmem) (p src dest proto proto_len chksum_len : Z) : option Z :=
  '(acc, swapped) ← chksum_chain_partial (chain_fuel st) st p chksum_len 0 0;
  let acc := if truthy swapped then SWAP_BYTES_IN_WORD acc else acc in
  Some (chksum_pseudo_header acc src dest proto proto_len).

(** ** RFC 1071 *)

(** One's complement addition of 16-bit words: the carry goes back in. *)
Definition ones_add (x y : Z) : Z := if x + y <? 65536 then x + y else x + y - 65535.

(** The sum of the big-endian words of the data, the last one padded. *)
Fixpoint rfc1071_sum (bs : list Z) : Z :=
  match bs with
  | [] => 0
  | [b] => 256 * b
  | b0 :: b1 :: bs => ones_add (256 * b0 + b1) (rfc1071_sum bs)
  end.

(** The checksum as it stands in the packet. *)
Definition rfc1071_chksum (bs : list Z) : Z := 65535 - rfc1071_sum bs.

Example rfc1071_example :
  rfc1071_sum [0; 1; 242; 3; 244; 245; 246; 247] = 56818.
Proof. reflexivity. Qed.

(** ** Arithmetic of one's complement

    [x ~ y] on natural numbers: congruent modulo 65535, and both zero or both
    not.  Every step of the algorithms keeps it, and it is equality between
    16-bit words. *)

Definition oeq (x y : Z) : Prop :=
  0 <= x /\ 0 <= y /\ (65535 | x - y) /\ (x = 0 <-> y = 0).

Infix "≈" := oeq (at level 70) : mint_scope.

Lemma oeq_refl x : 0 <= x -> x ≈ x.
Proof. intros. split_and!; try lia. exists 0. lia. Qed.

#[export] Instance oeq_sym : Symmetric oeq.
Proof.
  intros x y (? & ? & [k ?] & ?). split_and!; try lia. exists (- k). lia.
Qed.

#[export] Instance oeq_trans : Transitive oeq.
Proof.
  intros x y z (? & ? & [k ?] & ?) (? & ? & [k' ?] & ?).
  split_and!; try lia. exists (k + k'). lia.
Qed.

#[export] Instance oeq_add : Proper (oeq ==> oeq ==> oeq) Z.add.
Proof.
  intros x y (? & ? & [k ?] & ?) x' y' (? & ? & [k' ?] & ?).
  split_and!; try lia. exists (k + k'). lia.
Qed.

Lemma oeq_mul c x y : 0 < c -> x ≈ y -> c * x ≈ c * y.
Proof.
  intros Hc (? & ? & [k ?] & ?). split_and!; try nia. exists (c * k). nia.
Qed.

Lemma oeq_65536 x : 0 <= x -> 65536 * x ≈ x.
Proof. intros. split_and!; try lia. exists x. lia. Qed.

Lemma oeq_eq x y : x < 65536 -> y < 65536 -> x ≈ y -> x = y.
Proof. intros ? ? (? & ? & [k ?] & ?). assert (k = 0 \/ k = 1 \/ k = -1) by lia. lia. Qed.

Lemma ones_add_oeq x y : 0 <= x < 65536 -> 0 <= y < 65536 -> ones_add x y ≈ x + y.
Proof.
  intros. unfold ones_add. destruct (Z.ltb_spec (x + y) 65536); [apply oeq_refl; lia|].
  split_and!; try lia. exists (-1). lia.
Qed.

Lemma ones_add_range x y : 0 <= x < 65536 -> 0 <= y < 65536 -> 0 <= ones_add x y < 65536.
Proof. intros. unfold ones_add. destruct (Z.ltb_spec (x + y) 65536); lia. Qed.

Lemma FOLD_eq u : 0 <= u < 2 ^ 32 -> FOLD_U32T u = u / 65536 + u mod 65536.
Proof.
  intros. unfold FOLD_U32T. change 65535 with (Z.ones 16).
  rewrite Z.land_ones, Z.shiftr_div_pow2 by lia. change (2 ^ 16) with 65536.
  apply wrap_small. unfold in_u. Z.div_mod_to_equations. lia.
Qed.

Lemma FOLD_oeq u : 0 <= u < 2 ^ 32 -> FOLD_U32T u ≈ u.
Proof.
  intros. rewrite FOLD_eq by done. split_and!; try (Z.div_mod_to_equations; lia).
  exists (- (u / 65536)). Z.div_mod_to_equations. lia.
Qed.

Lemma FOLD_range u : 0 <= u <= 131070 -> 0 <= FOLD_U32T u < 65536.
Proof. intros. rewrite FOLD_eq by lia. Z.div_mod_to_equations. lia. Qed.

Lemma FOLD_twice u : 0 <= u < 2 ^ 32 -> 0 <= FOLD_U32T (FOLD_U32T u) < 65536.
Proof.
  intros. apply FOLD_range. rewrite FOLD_eq by done. Z.div_mod_to_equations. lia.
Qed.

Lemma FOLD_twice_oeq u : 0 <= u < 2 ^ 32 -> FOLD_U32T (FOLD_U32T u) ≈ u.
Proof.
  intros. transitivity (FOLD_U32T u); [apply FOLD_oeq|by apply FOLD_oeq].
  rewrite FOLD_eq by done. Z.div_mod_to_equations. lia.
Qed.

Lemma SWAP_htons w : 0 <= w < 65536 -> SWAP_BYTES_IN_WORD w = lwip_htons w.
Proof.
  intros. unfold SWAP_BYTES_IN_WORD, lwip_htons. rewrite wrap_small; [done|].
  rewrite land_255. change 65280 with (Z.shiftl 255 8). rewrite land_byte by lia.
  rewrite Z.lor_comm, lor_bytes by (apply Z.mod_pos_bound; lia).
  unfold in_u. rewrite Z.shiftr_div_pow2 by lia. Z.div_mod_to_equations. lia.
Qed.

(** ** The sum over a piece of memory *)

Lemma lwip_htons_eq w : 0 <= w < 65536 -> lwip_htons w = w / 256 + 256 * (w mod 256).
Proof.
  intros. pose proof (lwip_htons_bytes (w mod 256) (w / 256)) as H'. simpl le_num in H'.
  replace (w mod 256 + 256 * (w / 256 + 256 * 0)) with w in H'
    by (Z.div_mod_to_equations; lia).
  rewrite H' by (unfold is_byte; Z.div_mod_to_equations; lia). lia.
Qed.

Lemma htons_range w : 0 <= w < 65536 -> 0 <= lwip_htons w < 65536.
Proof. intros. rewrite lwip_htons_eq by done. Z.div_mod_to_equations. lia. Qed.

Lemma htons_oeq w : 0 <= w < 65536 -> lwip_htons w ≈ 256 * w.
Proof.
  intros. rewrite lwip_htons_eq by done. split_and!; try (Z.div_mod_to_equations; lia).
  exists (- (w / 256)). Z.div_mod_to_equations. lia.
Qed.

Lemma htons_involutive w : 0 <= w < 65536 -> lwip_htons (lwip_htons w) = w.
Proof.
  intros. rewrite (lwip_htons_eq (lwip_htons w)) by by apply htons_range.
  rewrite lwip_htons_eq by done. rewrite byte_div, byte_mod; Z.div_mod_to_equations; unfold is_byte; lia.
Qed.

Lemma le_num_nonneg bs : Forall is_byte bs -> 0 <= le_num bs.
Proof. induction 1 as [|b bs Hb _ IH]; simpl; unfold is_byte in *; lia. Qed.

Lemma le_num_app xs ys : le_num (xs ++ ys) = le_num xs + 256 ^ Z.of_nat (length xs) * le_num ys.
Proof.
  induction xs as [|x xs IH]; [simpl; lia|].
  simpl app. simpl le_num. rewrite IH. simpl length.
  rewrite Nat2Z.inj_succ, Z.pow_succ_r by lia. lia.
Qed.

(** Bytes after an even number of bytes count as they are, after an odd number
    of them swapped. *)
Lemma pow256_oeq n x :
  0 <= x -> 256 ^ Z.of_nat n * x ≈ (if Nat.even n then x else 256 * x).
Proof.
  intros Hx. induction n as [n IH] using lt_wf_ind. destruct n as [|[|n]].
  - simpl. rewrite Z.mul_1_l. by apply oeq_refl.
  - simpl Nat.even. simpl Z.of_nat. apply oeq_refl. lia.
  - change (Nat.even (S (S n))) with (Nat.even n).
    rewrite !Nat2Z.inj_succ, !Z.pow_succ_r by lia.
    replace (256 * (256 * 256 ^ Z.of_nat n) * x) with (65536 * (256 ^ Z.of_nat n * x)) by lia.
    transitivity (256 ^ Z.of_nat n * x); [apply oeq_65536; lia|]. apply IH. lia.
Qed.

Lemma le_num_app_oeq xs ys :
  Forall is_byte xs -> Forall is_byte ys ->
  le_num (xs ++ ys) ≈ le_num xs + (if Nat.even (length xs) then le_num ys else 256 * le_num ys).
Proof.
  intros Hx%le_num_nonneg Hy%le_num_nonneg. rewrite le_num_app.
  apply oeq_add; [by apply oeq_refl|]. by apply pow256_oeq.
Qed.

Fixpoint words_sum (bs : list Z) : Z :=
  match bs with b0 :: b1 :: bs => b0 + 256 * b1 + words_sum bs | _ => 0 end.
Fixpoint last_byte (bs : list Z) : Z :=
  match bs with [] => 0 | [b] => b | _ :: _ :: bs => last_byte bs end.

(** Induction two bytes at a time. *)
Lemma pairs_ind (P : list Z -> Prop) :
  P [] -> (forall b, is_byte b -> P [b]) ->
  (forall b0 b1 bs, is_byte b0 -> is_byte b1 -> Forall is_byte bs -> P bs -> P (b0 :: b1 :: bs)) ->
  forall bs, Forall is_byte bs -> P bs.
Proof.
  intros H0 H1 H2 bs. remember (length bs) as n eqn:E. revert bs E.
  induction n as [n IH] using lt_wf_ind. intros [|b0 [|b1 bs]] E Hb; [done| |].
  - apply H1. by inversion Hb.
  - inversion Hb as [|? ? ? Hb']. inversion Hb'. subst. apply H2; [done..|].
    eapply (IH (length bs)); [simpl in *; lia|done|done].
Qed.

Lemma words_sum_oeq bs : Forall is_byte bs -> words_sum bs + last_byte bs ≈ le_num bs.
Proof.
  revert bs. refine (pairs_ind _ _ _ _); [|intros b Hb|intros b0 b1 bs H0 H1 Hbs IH].
  - by apply oeq_refl.
  - simpl. unfold is_byte in Hb. rewrite Z.add_0_l, Z.add_0_r. apply oeq_refl. lia.
  - simpl. replace (b0 + 256 * (b1 + 256 * le_num bs)) with (b0 + 256 * b1 + 65536 * le_num bs) by lia.
    rewrite <-Z.add_assoc. apply oeq_add; [unfold is_byte in *; apply oeq_refl; lia|].
    rewrite IH. symmetry. by apply oeq_65536, le_num_nonneg.
Qed.

Lemma words_sum_bound bs :
  Forall is_byte bs ->
  0 <= words_sum bs /\ is_byte (last_byte bs) /\
  words_sum bs + last_byte bs <= 65535 * (Z.of_nat (length bs) + 1) / 2.
Proof.
  revert bs. refine (pairs_ind _ _ _ _); [|intros b Hb|intros b0 b1 bs H0 H1 Hbs IH];
    unfold is_byte in *; simpl length; simpl words_sum; simpl last_byte.
  - split_and!; try lia. Z.div_mod_to_equations. lia.
  - split_and!; try lia. Z.div_mod_to_equations. lia.
  - destruct IH as (IH1 & IH2 & IH3).
    replace (65535 * (Z.of_nat (S (S (length bs))) + 1))
      with (65535 * (Z.of_nat (length bs) + 1) + 65535 * 2) by lia.
    rewrite Z.div_add by lia. lia.
Qed.

Lemma load16_pair m a b0 b1 bs n :
  is_byte b0 -> read_bytes m a (S (S n)) = Some (b0 :: b1 :: bs) ->
  load16 m a = Some (b0 + 256 * b1) /\ read_bytes m (a + 2) n = Some bs.
Proof.
  intros Hb Hr. apply read_bytes_S in Hr as [H0 Hr]. apply read_bytes_S in Hr as [H1 H2]. unfold load16. rewrite H0. simpl.
  rewrite H1. simpl. rewrite lor_bytes by done. split; [done|].
  by replace (a + 2) with (a + 1 + 1) by lia.
Qed.

Lemma chksum_words_spec bs :
  Forall is_byte bs -> forall fuel m ps sum,
  read_bytes m ps (length bs) = Some bs -> (length bs < fuel)%nat ->
  0 <= sum -> sum + words_sum bs < 2 ^ 32 ->
  exists ps' len',
    chksum_words fuel m ps (Z.of_nat (length bs)) sum = Some (ps', len', sum + words_sum bs) /\
    (if 0 <? len' then m !! ps' else Some 0) = Some (last_byte bs).
Proof.
  revert bs. refine (pairs_ind _ _ _ _); [|intros b Hb|intros b0 b1 bs H0 H1 Hbs IH]; intros fuel m ps sum Hr Hf Hs Hb'.
  - destruct fuel; [simpl in *; lia|]. exists ps, 0. by rewrite Z.add_0_r.
  - destruct fuel; [simpl in *; lia|]. exists ps, 1. split; [by rewrite Z.add_0_r|].
    apply read_bytes_S in Hr as [Hr _]. done.
  - destruct fuel as [|fuel]; [lia|]. simpl length in *.
    apply load16_pair in Hr as [Hl Hr]; [|done]. simpl words_sum in *.
    pose proof (words_sum_bound _ Hbs) as (Hw & _ & _). unfold is_byte in H0, H1.
    destruct (IH fuel m (ps + 2) (sum + (b0 + 256 * b1))) as (ps' & len' & E & E'); [done|lia..|].
    exists ps', len'. split; [|done].
    cbn [chksum_words]. destruct (Z.ltb_spec 1 (Z.of_nat (S (S (length bs))))); [|lia].
    rewrite Hl. cbn. rewrite (wrap_small 32 (sum + _)) by (unfold in_u; lia).
    replace (Z.of_nat (S (S (length bs))) - 2) with (Z.of_nat (length bs)) by lia.
    rewrite E. by replace (sum + (b0 + 256 * b1) + words_sum bs)
      with (sum + (b0 + 256 * b1 + words_sum bs)) by lia.
Qed.

Lemma land_1_odd a : truthy (a &. 1) = Z.odd a.
Proof. change 1 with (2 ^ 0). by rewrite truthy_bit, Z.bit0_odd by lia. Qed.

(** The fold of a 32-bit sum to a 16-bit word, with the swap at an odd address. *)
Lemma fold_swap (odd : bool) sum x :
  0 <= sum < 2 ^ 32 -> (if odd then 256 * sum else sum) ≈ x ->
  exists s,
    u16 (let s := FOLD_U32T (FOLD_U32T sum) in if odd then SWAP_BYTES_IN_WORD s else s) = s /\
    0 <= s < 65536 /\ s ≈ x.
Proof.
  intros Hs Hx. cbv zeta. eexists. split; [done|].
  pose proof (FOLD_twice sum Hs) as R. pose proof (FOLD_twice_oeq sum Hs) as E.
  set (f := FOLD_U32T (FOLD_U32T sum)) in *. destruct odd.
  - rewrite SWAP_htons by done. pose proof (htons_range f R).
    rewrite wrap_small by done. split; [done|]. rewrite htons_oeq by done.
    rewrite <-Hx. apply oeq_mul; [lia|done].
  - rewrite wrap_small by done. split; [done|]. by rewrite E.
Qed.

(** From the loop over the words to the end. *)
Lemma chksum_tail m pb bs t1 (odd : bool) x :
  Forall is_byte bs -> read_bytes m pb (length bs) = Some bs -> Z.of_nat (length bs) < 65536 ->
  is_byte t1 ->
  (if odd then 256 * (words_sum bs + last_byte bs + 256 * t1)
   else words_sum bs + last_byte bs + 256 * t1) ≈ x ->
  exists s,
    ('(ps, len, sum) ← chksum_words (S (Z.to_nat (Z.of_nat (length bs)))) m pb (Z.of_nat (length bs)) 0;
     t0 ← (if 0 <? len then m !! ps else Some 0);
     let t := t0 |. Z.shiftl t1 8 in
     let sum := u32 (sum + t) in
     let sum := FOLD_U32T sum in
     let sum := FOLD_U32T sum in
     let sum := if odd then SWAP_BYTES_IN_WORD sum else sum in
     Some (u16 sum)) = Some s /\
    0 <= s < 65536 /\ s ≈ x.
Proof.
  intros Hb Hr Hl Ht Hx. pose proof (words_sum_bound _ Hb) as (W1 & W2 & W3).
  assert (words_sum bs + last_byte bs <= 2147450880)
    by (change 2147450880 with (65535 * 65536 / 2); Z.div_mod_to_equations; lia).
  destruct (chksum_words_spec bs Hb (S (Z.to_nat (Z.of_nat (length bs)))) m pb 0)
    as (ps & len & E & E'); [done|unfold is_byte in *; lia..|].
  rewrite E. cbn [mbind option_bind]. rewrite E'. cbn [mbind option_bind].
  rewrite lor_bytes by done. unfold is_byte in *. rewrite (wrap_small 32) by (unfold in_u; lia).
  replace (0 + words_sum bs + (last_byte bs + 256 * t1))
    with (words_sum bs + last_byte bs + 256 * t1) by lia.
  destruct (fold_swap odd (words_sum bs + last_byte bs + 256 * t1) x) as (s & Es & Rs);
    [lia|done|]. exists s. split; [by f_equal|done].
Qed.

(** [lwip_standard_chksum] of at most 65535 bytes, at any address. *)
Lemma lwip_standard_chksum_oeq m a bs :
  ram_ok m -> read_bytes m a (length bs) = Some bs -> Z.of_nat (length bs) < 65536 ->
  exists s, lwip_standard_chksum m a (Z.of_nat (length bs)) = Some s /\
    0 <= s < 65536 /\ s ≈ le_num bs.
Proof.
  intros Hm Hr Hl. pose proof (read_bytes_byte _ _ _ _ Hm Hr) as Hb.
  unfold lwip_standard_chksum. rewrite land_1_odd.
  destruct (Z.odd a && (0 <? Z.of_nat (length bs))) eqn:Ho.
  - apply andb_prop in Ho as [-> Hp%Z.ltb_lt].
    destruct bs as [|b bs]; [simpl in *; lia|]. simpl length in *.
    apply read_bytes_S in Hr as [Hb0 Hr]. rewrite Hb0. cbn [mbind option_bind].
    inversion Hb as [|? ? Hb1 Hbs]; subst.
    replace (Z.of_nat (S (length bs)) - 1) with (Z.of_nat (length bs)) by lia.
    apply (chksum_tail m (a + 1) bs b true); [done|done|lia|done|].
    replace (256 * (words_sum bs + last_byte bs + 256 * b))
      with (65536 * b + 256 * (words_sum bs + last_byte bs)) by lia.
    apply oeq_add; [apply oeq_65536; unfold is_byte in *; lia|].
    apply oeq_mul; [lia|]. by apply words_sum_oeq.
  - apply (chksum_tail m a bs 0 (Z.odd a)); [done..|by unfold is_byte|].
    rewrite Z.mul_0_r, Z.add_0_r. destruct (Z.odd a); [|by apply words_sum_oeq].
    destruct bs; [by apply oeq_refl|done].
Qed.

Lemma rfc1071_range bs : Forall is_byte bs -> 0 <= rfc1071_sum bs < 65536.
Proof.
  revert bs. refine (pairs_ind _ _ _ _); [done|intros b Hb|intros b0 b1 bs H0 H1 Hbs IH];
    simpl rfc1071_sum; unfold is_byte in *; [lia|]. apply ones_add_range; lia.
Qed.

Lemma rfc1071_oeq bs : Forall is_byte bs -> 256 * rfc1071_sum bs ≈ le_num bs.
Proof.
  revert bs. refine (pairs_ind _ _ _ _); [by apply oeq_refl|intros b Hb|intros b0 b1 bs H0 H1 Hbs IH].
  - simpl. rewrite Z.mul_assoc, Z.add_0_r. unfold is_byte in Hb. apply oeq_65536. lia.
  - simpl rfc1071_sum. simpl le_num. pose proof (rfc1071_range bs Hbs). unfold is_byte in *.
    transitivity (256 * (256 * b0 + b1 + rfc1071_sum bs));
      [apply oeq_mul; [lia|apply ones_add_oeq; lia]|].
    replace (256 * (256 * b0 + b1 + rfc1071_sum bs))
      with (65536 * b0 + (256 * b1 + 256 * rfc1071_sum bs)) by lia.
    replace (b0 + 256 * (b1 + 256 * le_num bs))
      with (b0 + (256 * b1 + 65536 * le_num bs)) by lia.
    apply oeq_add; [apply oeq_65536; lia|]. apply oeq_add; [apply oeq_refl; lia|].
    rewrite IH. symmetry. by apply oeq_65536, le_num_nonneg.
Qed.

(** A 16-bit word in the class of the data is the byte-swapped sum of RFC 1071. *)
Lemma oeq_rfc1071 bs s :
  Forall is_byte bs -> 0 <= s < 65536 -> s ≈ le_num bs -> s = lwip_htons (rfc1071_sum bs).
Proof.
  intros Hb Hs E. pose proof (rfc1071_range bs Hb) as R. pose proof (htons_range _ R).
  apply oeq_eq; [lia..|]. rewrite E, htons_oeq by done. symmetry. by apply rfc1071_oeq.
Qed.

Lemma lnot_u16 s : 0 <= s < 65536 -> u16 (Z.lnot s) = 65535 - s.
Proof.
  intros. unfold Z.lnot, wrap. change (2 ^ 16) with 65536. Z.div_mod_to_equations. lia.
Qed.

Lemma htons_lnot w : 0 <= w < 65536 -> 65535 - lwip_htons w = lwip_htons (65535 - w).
Proof. intros. rewrite !lwip_htons_eq by lia. Z.div_mod_to_equations. lia. Qed.

Lemma oeq_rfc1071_chksum bs s :
  Forall is_byte bs -> 0 <= s < 65536 -> s ≈ le_num bs ->
  u16 (Z.lnot s) = lwip_htons (rfc1071_chksum bs).
Proof.
  intros Hb Hs E. rewrite lnot_u16 by done. rewrite (oeq_rfc1071 bs s) by done.
  unfold rfc1071_chksum. apply htons_lnot. by apply rfc1071_range.
Qed.

(** ** The sum over a chain *)

Definition lens_ok (l : list (Z * pbuf)) : Prop := Forall (fun ab => 0 <= pb_len ab.2 < 65536) l.

Lemma swap_oeq w : 0 <= w < 65536 ->
  0 <= SWAP_BYTES_IN_WORD w < 65536 /\ SWAP_BYTES_IN_WORD w ≈ 256 * w.
Proof. intros. rewrite SWAP_htons by done. split; [by apply htons_range|by apply htons_oeq]. Qed.

(** What [acc] and [swapped] hold after the data [pre]: the class of [pre], its
    bytes swapped when their number is odd. *)
Definition acc_ok (pre : list Z) (acc swapped : Z) : Prop :=
  0 <= acc < 65536 /\
  swapped = (if Nat.even (length pre) then 0 else 1) /\
  acc ≈ (if Nat.even (length pre) then le_num pre else 256 * le_num pre).

Lemma acc_step pre d acc swapped s :
  Forall is_byte pre -> Forall is_byte d ->
  acc_ok pre acc swapped -> 0 <= s < 65536 -> s ≈ le_num d ->
  acc_ok (pre ++ d)
    (let acc := FOLD_U32T (u32 (acc + s)) in
     if Nat.even (length d) then acc else SWAP_BYTES_IN_WORD acc)
    (if Nat.even (length d) then swapped else u8 (1 - swapped)).
Proof.
  intros Hp Hd (Ra & -> & Ea) Rs Es. cbv zeta. rewrite (wrap_small 32) by (unfold in_u; lia).
  pose proof (FOLD_range (acc + s) ltac:(lia)) as Rf.
  pose proof (FOLD_oeq (acc + s) ltac:(lia)) as Ef. pose proof (swap_oeq _ Rf) as [Rw Ew].
  set (f := FOLD_U32T (acc + s)) in *.
  pose proof (transitivity Ef (oeq_add _ _ Ea _ _ Es)) as Ef'. clear Ef. rename Ef' into Ef.
  pose proof (le_num_app_oeq pre d Hp Hd) as Eapp.
  pose proof (le_num_nonneg _ Hp). pose proof (le_num_nonneg _ Hd).
  assert (65536 * le_num d ≈ le_num d) as E65 by by apply oeq_65536.
  assert (65536 * le_num pre ≈ le_num pre) as E65' by by apply oeq_65536.
  unfold acc_ok. rewrite length_app, Nat.even_add.
  destruct (Nat.even (length pre)), (Nat.even (length d)); simpl; split_and!; try done; try lia.
  - by rewrite Eapp.
  - rewrite Ew. apply oeq_mul; [lia|]. by rewrite Eapp.
  - rewrite Ef. transitivity (256 * (le_num pre + 256 * le_num d)).
    + rewrite Z.mul_add_distr_l, Z.mul_assoc. apply oeq_add; [apply oeq_refl; lia|by symmetry].
    + apply oeq_mul; [lia|by symmetry].
  - rewrite Ew. transitivity (256 * (256 * le_num pre + le_num d)); [by apply oeq_mul|].
    rewrite Eapp, Z.mul_add_distr_l, Z.mul_assoc. apply oeq_add; [done|apply oeq_refl; lia].
Qed.

Lemma rem_2 n : truthy (Z.rem (Z.of_nat n) 2) = negb (Nat.even n).
Proof.
  rewrite Z.rem_mod_nonneg by lia. change 2 with (Z.of_nat 2). rewrite <-Nat2Z.inj_mod.
  destruct (Nat.even n) eqn:E.
  - apply Nat.even_spec in E as [k ->]. by rewrite Nat.mul_comm, Nat.Div0.mod_mul.
  - assert (Nat.odd n = true) as [k ->]%Nat.odd_spec by by rewrite <-Nat.negb_even, E.
    by rewrite Nat.add_comm, Nat.mul_comm, Nat.Div0.mod_add.
Qed.

Lemma chksum_chain_spec st l :
  ram_ok (ram st) -> lens_ok l -> forall fuel q pre bs acc swapped,
  pchain (pbufs st) q l -> (length l < fuel)%nat ->
  chain_data (ram st) l = Some bs -> Forall is_byte pre -> acc_ok pre acc swapped ->
  exists acc' swapped', chksum_chain fuel st q acc swapped = Some (acc', swapped') /\
    acc_ok (pre ++ bs) acc' swapped'.
Proof.
  intros Hm. induction l as [|[a b] l IH]; intros Hl fuel q pre bs acc swapped Hc Hf Hd Hp Ha.
  - destruct fuel; [simpl in *; lia|]. simpl in Hc. subst q. injection Hd as <-.
    rewrite app_nil_r. eexists _, _. split; [done|done].
  - destruct fuel as [|fuel]; [lia|]. inversion Hl as [|? ? Hlen Hl']; subst. simpl in Hlen.
    destruct Hc as (-> & Hn & Hb & Hc).
    apply chain_data_cons in Hd as (d & r & -> & Hd & Hr).
    pose proof (read_bytes_length _ _ _ _ Hd) as Hdl.
    pose proof (read_bytes_byte _ _ _ _ Hm Hd) as Hdb.
    rewrite <-Hdl in Hd. destruct (lwip_standard_chksum_oeq _ _ _ Hm Hd) as (s & Es & Rs & Os); [lia|].
    simpl chksum_chain. destruct (Z.eqb_spec a NULL); [lia|]. rewrite Hb. simpl.
    rewrite Hdl, Z2Nat.id in Es by lia. rewrite Es. simpl.
    pose proof (acc_step _ _ _ _ _ Hp Hdb Ha Rs Os) as Ha'. cbv zeta in Ha'.
    replace (pb_len b) with (Z.of_nat (length d)) by lia. rewrite rem_2.
    simpl in Hf. rewrite app_assoc.
    destruct (Nat.even (length d)); simpl;
      (eapply IH; [done|done|lia|done|by apply Forall_app|done]).
Qed.

(** [if (swapped) acc = SWAP_BYTES_IN_WORD(acc)] after the loop. *)
Lemma acc_unswap bs acc swapped :
  Forall is_byte bs -> acc_ok bs acc swapped ->
  exists s, (if truthy swapped then SWAP_BYTES_IN_WORD acc else acc) = s /\
    0 <= s < 65536 /\ s ≈ le_num bs.
Proof.
  intros Hb%le_num_nonneg (R & -> & E). eexists. split; [done|].
  destruct (Nat.even (length bs)); simpl; [done|].
  destruct (swap_oeq acc R) as [R' E']. split; [done|].
  rewrite E'. transitivity (256 * (256 * le_num bs)); [by apply oeq_mul|].
  rewrite Z.mul_assoc. by apply oeq_65536.
Qed.

Lemma acc_ok_nil : acc_ok [] 0 0.
Proof. split_and!; try done. by apply oeq_refl. Qed.

(** The loop and the swap at its end, from the head of a chain. *)
Lemma chksum_chain_ok st p l bs :
  ram_ok (ram st) -> pchain (pbufs st) p l -> lens_ok l -> chain_data (ram st) l = Some bs ->
  exists acc swapped s, chksum_chain (chain_fuel st) st p 0 0 = Some (acc, swapped) /\
    (if truthy swapped then SWAP_BYTES_IN_WORD acc else acc) = s /\
    0 <= s < 65536 /\ s ≈ le_num bs.
Proof.
  intros Hm Hc Hl Hd. pose proof (pchain_size _ _ _ Hc).
  destruct (chksum_chain_spec st l Hm Hl (chain_fuel st) p [] bs 0 0)
    as (acc & sw & E & Ha); [done|unfold chain_fuel; lia|done|done|apply acc_ok_nil|].
  pose proof (chain_data_byte _ _ _ Hm Hd) as Hb.
  destruct (acc_unswap bs acc sw Hb Ha) as (s & Es & Hs). eauto 10.
Qed.

(** The pseudo header of TCP and UDP, as it would stand in memory; the
    addresses are in network order, that is, as little-endian numbers. *)
Definition pseudo_header (src dest proto proto_len : Z) : list Z :=
  le_bytes 4 src ++ le_bytes 4 dest ++ [0; proto] ++ [proto_len / 256; proto_len mod 256].

Lemma pseudo_header_byte src dest proto proto_len :
  is_byte proto -> 0 <= proto_len < 65536 -> Forall is_byte (pseudo_header src dest proto proto_len).
Proof.
  intros. unfold pseudo_header. repeat apply Forall_app_2; try apply le_bytes_byte.
  - repeat constructor; unfold is_byte in *; lia.
  - repeat constructor; unfold is_byte in *; Z.div_mod_to_equations; lia.
Qed.

Lemma halves_oeq x : 0 <= x < 2 ^ 32 -> (x &. 65535) + (Z.shiftr x 16 &. 65535) ≈ le_num (le_bytes 4 x).
Proof.
  intros. rewrite le_num_bytes by done. change 65535 with (Z.ones 16).
  rewrite !Z.land_ones, Z.shiftr_div_pow2 by lia. change (2 ^ 16) with 65536.
  rewrite (Z.mod_small (x / 65536)) by (Z.div_mod_to_equations; lia).
  split_and!; try (Z.div_mod_to_equations; lia). exists (- (x / 65536)). Z.div_mod_to_equations. lia.
Qed.

Lemma halves_bound x : 0 <= (x &. 65535) < 65536.
Proof. change 65535 with (Z.ones 16). rewrite Z.land_ones by lia. apply Z.mod_pos_bound. lia. Qed.

Lemma pseudo_header_oeq src dest proto proto_len bs :
  0 <= src < 2 ^ 32 -> 0 <= dest < 2 ^ 32 -> is_byte proto -> 0 <= proto_len < 65536 ->
  Forall is_byte bs ->
  le_num bs + ((src &. 65535) + (Z.shiftr src 16 &. 65535)) +
    ((dest &. 65535) + (Z.shiftr dest 16 &. 65535)) + lwip_htons proto + lwip_htons proto_len
  ≈ le_num (pseudo_header src dest proto proto_len ++ bs).
Proof.
  intros Hs Hd Hp Hl Hb.
  pose proof (le_num_nonneg _ Hb). pose proof (pseudo_header_byte src dest proto proto_len Hp Hl) as Hh.
  rewrite le_num_app_oeq by done.
  change (length (pseudo_header src dest proto proto_len)) with 12%nat. simpl Nat.even. cbv iota.
  transitivity (le_num bs + le_num (le_bytes 4 src) + le_num (le_bytes 4 dest)
    + le_num [0; proto] + le_num [proto_len / 256; proto_len mod 256]).
  - apply oeq_add; [apply oeq_add; [apply oeq_add; [apply oeq_add; [by apply oeq_refl|]|]|]|].
    + by apply halves_oeq.
    + by apply halves_oeq.
    + rewrite lwip_htons_eq by (unfold is_byte in *; lia). unfold is_byte in *.
      rewrite Z.div_small, Z.mod_small by lia. simpl le_num. rewrite Z.add_0_r. apply oeq_refl. lia.
    + rewrite lwip_htons_eq by done. simpl le_num. rewrite Z.mul_0_r, Z.add_0_r.
      apply oeq_refl. Z.div_mod_to_equations. lia.
  - pose proof (le_bytes_byte 4 src) as B1. pose proof (le_bytes_byte 4 dest) as B2.
    assert (Forall is_byte [0; proto]) as B3 by (repeat constructor; unfold is_byte in *; lia).
    assert (Forall is_byte [proto_len / 256; proto_len mod 256]) as B4
      by (repeat constructor; unfold is_byte in *; Z.div_mod_to_equations; lia).
    unfold pseudo_header.
    pose proof (le_num_app_oeq _ _ B3 B4) as E3.
    pose proof (le_num_app_oeq _ _ B2 (Forall_app_2 _ _ _ B3 B4)) as E2.
    pose proof (le_num_app_oeq _ _ B1 (Forall_app_2 _ _ _ B2 (Forall_app_2 _ _ _ B3 B4))) as E1.
    rewrite le_bytes_length in E1, E2. simpl Nat.even in E1, E2, E3. cbv iota in E1, E2, E3.
    apply le_num_nonneg in B1, B2, B3, B4.
    rewrite (Z.add_comm _ (le_num bs)). rewrite <-!Z.add_assoc.
    apply oeq_add; [by apply oeq_refl|]. rewrite E1. apply oeq_add; [by apply oeq_refl|].
    rewrite E2. apply oeq_add; [by apply oeq_refl|]. by symmetry.
Qed.

Lemma chksum_pseudo_header_ok acc src dest proto proto_len bs :
  0 <= acc < 65536 -> acc ≈ le_num bs -> Forall is_byte bs ->
  0 <= src < 2 ^ 32 -> 0 <= dest < 2 ^ 32 -> is_byte proto -> 0 <= proto_len < 65536 ->
  chksum_pseudo_header acc src dest proto proto_len =
  lwip_htons (rfc1071_chksum (pseudo_header src dest proto proto_len ++ bs)).
Proof.
  intros Ra Ea Hb Hs Hd Hp Hl. unfold chksum_pseudo_header.
  pose proof (pseudo_header_oeq src dest proto proto_len bs Hs Hd Hp Hl Hb) as E.
  assert (0 <= lwip_htons proto < 65536) as Rp by (apply htons_range; unfold is_byte in Hp; lia).
  pose proof (htons_range _ Hl) as Rl.
  pose proof (halves_bound src) as R1. pose proof (halves_bound (Z.shiftr src 16)) as R2.
  pose proof (halves_bound dest) as R3. pose proof (halves_bound (Z.shiftr dest 16)) as R4.
  revert E Rp Rl R1 R2 R3 R4.
  generalize (src &. 65535) (Z.shiftr src 16 &. 65535) (dest &. 65535) (Z.shiftr dest 16 &. 65535)
    (lwip_htons proto) (lwip_htons proto_len).
  intros s1 s2 d1 d2 hp hl E Rp Rl R1 R2 R3 R4. cbv zeta.
  rewrite (wrap_small 32 (acc + s1)), (wrap_small 32 (acc + s1 + s2)),
    (wrap_small 32 (acc + s1 + s2 + d1)), (wrap_small 32 (acc + s1 + s2 + d1 + d2)),
    (wrap_small 32 (acc + s1 + s2 + d1 + d2 + hp)), (wrap_small 32 (_ + hl))
    by (unfold in_u; lia).
  set (sum := acc + s1 + s2 + d1 + d2 + hp + hl).
  pose proof (FOLD_twice sum ltac:(lia)) as Rf. pose proof (FOLD_twice_oeq sum ltac:(lia)) as Ef.
  change 65535 with (Z.ones 16) at 1. rewrite Z.land_ones, Z.mod_small by lia.
  apply oeq_rfc1071_chksum; [|done|].
  - apply Forall_app_2; [by apply pseudo_header_byte|done].
  - rewrite Ef, <-E. unfold sum.
    replace (acc + s1 + s2 + d1 + d2 + hp + hl) with (acc + (s1 + s2) + (d1 + d2) + hp + hl) by lia.
    repeat (apply oeq_add; [|apply oeq_refl; lia]). done.
Qed.

(** ** Part of a chain *)

Lemma swap_swap w : 0 <= w < 65536 -> SWAP_BYTES_IN_WORD (SWAP_BYTES_IN_WORD w) = w.
Proof.
  intros. rewrite (SWAP_htons w), SWAP_htons by (done || by apply htons_range).
  by apply htons_involutive.
Qed.

Definition unswap (acc swapped : Z) : Z := if truthy swapped then SWAP_BYTES_IN_WORD acc else acc.

(** Swapping the sum and noting it changes nothing in the end. *)
Lemma unswap_toggle acc swapped :
  0 <= acc < 65536 -> swapped = 0 \/ swapped = 1 ->
  unswap (SWAP_BYTES_IN_WORD acc) (u8 (1 - swapped)) = unswap acc swapped.
Proof. intros R [-> | ->]; unfold unswap; simpl; [by apply swap_swap|done]. Qed.

Lemma read_bytes_take m a n bs k :
  read_bytes m a n = Some bs -> (k <= n)%nat -> read_bytes m a k = Some (take k bs).
Proof.
  intros H Hk. replace n with (k + (n - k))%nat in H by lia.
  apply read_bytes_app in H as (b1 & b2 & -> & H1 & H2).
  rewrite take_app_length'; [done|]. symmetry. by eapply read_bytes_length.
Qed.

(** The last buffer, of which only [n] bytes count: the loop swaps by the parity
    of the whole buffer, which the final swap undoes. *)
Lemma partial_end st b n pre d acc swapped :
  ram_ok (ram st) -> Forall is_byte pre -> acc_ok pre acc swapped ->
  0 <= n < pb_len b -> pb_len b < 65536 ->
  read_bytes (ram st) (pb_payload b) (Z.to_nat (pb_len b)) = Some d ->
  exists s, lwip_standard_chksum (ram st) (pb_payload b) n = Some s /\
    0 <= unswap (FOLD_U32T (u32 (acc + s))) swapped < 65536 /\
    unswap (FOLD_U32T (u32 (acc + s))) swapped ≈ le_num (pre ++ take (Z.to_nat n) d) /\
    unswap (SWAP_BYTES_IN_WORD (FOLD_U32T (u32 (acc + s)))) (u8 (1 - swapped)) =
    unswap (FOLD_U32T (u32 (acc + s))) swapped.
Proof.
  intros Hm Hp Ha Hn Hb Hd.
  assert (read_bytes (ram st) (pb_payload b) (Z.to_nat n) = Some (take (Z.to_nat n) d)) as Ht
    by (eapply read_bytes_take; [done|lia]).
  set (d' := take (Z.to_nat n) d) in *. pose proof (read_bytes_length _ _ _ _ Ht) as L.
  pose proof (read_bytes_byte _ _ _ _ Hm Ht) as Hdb. rewrite <-L in Ht.
  destruct (lwip_standard_chksum_oeq _ _ _ Hm Ht) as (s & Es & Rs & Os); [lia|].
  rewrite L, Z2Nat.id in Es by lia. exists s. split; [done|].
  pose proof (acc_step _ _ _ _ _ Hp Hdb Ha Rs Os) as Ha'. cbv zeta in Ha'.
  destruct Ha as (Ra & Hsw & _). rewrite (wrap_small 32) in * by (unfold in_u; lia).
  pose proof (FOLD_range (acc + s) ltac:(lia)) as Rf.
  assert (swapped = 0 \/ swapped = 1) as Hsw' by (destruct (Nat.even (length pre)); auto).
  pose proof (unswap_toggle _ _ Rf Hsw') as T.
  destruct (acc_unswap (pre ++ d') _ _ (Forall_app_2 _ _ _ Hp Hdb) Ha') as (r & Er & Rr & Or).
  fold (unswap (if Nat.even (length d') then FOLD_U32T (acc + s)
    else SWAP_BYTES_IN_WORD (FOLD_U32T (acc + s)))
    (if Nat.even (length d') then swapped else u8 (1 - swapped))) in Er.
  assert (unswap (FOLD_U32T (acc + s)) swapped = r) as E.
  { rewrite <-Er. destruct (Nat.even (length d')); [done|by symmetry]. }
  rewrite E. split_and!; [lia|lia|done|]. by rewrite <-E.
Qed.

Lemma chksum_chain_partial_spec st l :
  ram_ok (ram st) -> lens_ok l -> forall fuel q pre bs n acc swapped,
  pchain (pbufs st) q l -> (length l < fuel)%nat ->
  chain_data (ram st) l = Some bs -> Forall is_byte pre -> acc_ok pre acc swapped ->
  0 <= n < 32767 ->
  exists acc' swapped', chksum_chain_partial fuel st q n acc swapped = Some (acc', swapped') /\
    0 <= unswap acc' swapped' < 65536 /\
    unswap acc' swapped' ≈ le_num (pre ++ take (Z.to_nat n) bs).
Proof.
  intros Hm. induction l as [|[a b] l IH]; intros Hl fuel q pre bs n acc swapped Hc Hf Hd Hp Ha Hn;
    (destruct fuel as [|fuel]; [simpl in *; lia|]); simpl chksum_chain_partial.
  - simpl in Hc. subst q. injection Hd as <-. simpl. rewrite take_nil, app_nil_r.
    eexists _, _. split; [done|]. destruct (acc_unswap _ _ _ Hp Ha) as (s & Es & Hs).
    unfold unswap. by rewrite Es.
  - inversion Hl as [|? ? Hlen Hl']; subst. simpl in Hlen. destruct Hc as (-> & Hnn & Hb & Hc).
    apply chain_data_cons in Hd as (d & r & -> & Hd & Hr).
    pose proof (read_bytes_length _ _ _ _ Hd) as Hdl.
    destruct (Z.eqb_spec a NULL); [lia|]. simpl. destruct (Z.ltb_spec 0 n) as [Hn0|Hn0]; simpl.
    2: { replace (Z.to_nat n) with 0%nat by lia. rewrite take_0, app_nil_r.
         eexists _, _. split; [done|]. destruct (acc_unswap _ _ _ Hp Ha) as (s & Es & Hs).
         unfold unswap. by rewrite Es. }
    rewrite Hb. simpl. simpl in Hf. destruct (Z.ltb_spec n (pb_len b)) as [Hlt|Hge].
    + destruct (partial_end st b n pre d acc swapped) as (s & Es & R & O & T); [done..|lia|lia|done|].
      rewrite Es. simpl. rewrite Z.sub_diag. simpl.
      rewrite take_app_le by lia.
      destruct fuel as [|fuel]; [lia|].
      destruct (truthy (Z.rem (pb_len b) 2)); simpl; rewrite orb_true_r;
        (eexists _, _; split; [done|]); [rewrite T|]; done.
    + pose proof (read_bytes_byte _ _ _ _ Hm Hd) as Hdb. rewrite <-Hdl in Hd.
      destruct (lwip_standard_chksum_oeq _ _ _ Hm Hd) as (s & Es & Rs & Os); [lia|].
      rewrite Hdl, Z2Nat.id in Es by lia. rewrite Es. simpl.
      rewrite (wrap_small 16 (n - _)) by (unfold in_u; lia).
      destruct (Z.ltb_spec (n - pb_len b) 32767); [|lia]. simpl.
      pose proof (acc_step _ _ _ _ _ Hp Hdb Ha Rs Os) as Ha'. cbv zeta in Ha'.
      rewrite take_app_ge, app_assoc by lia.
      replace (Z.to_nat n - length d)%nat with (Z.to_nat (n - pb_len b)) by lia.
      assert (Forall is_byte (pre ++ d)) by by apply Forall_app_2.
      replace (Z.rem (pb_len b) 2) with (Z.rem (Z.of_nat (length d)) 2) by (f_equal; lia).
      rewrite rem_2.
      destruct (Nat.even (length d)); simpl;
        (eapply IH; [done|done|lia|done|done|done|lia]).
Qed.

(** ** The theorems *)

Lemma inet_chksum_ok m a bs :
  ram_ok m -> read_bytes m a (length bs) = Some bs -> Z.of_nat (length bs) < 65536 ->
  inet_chksum m a (Z.of_nat (length bs)) = Some (lwip_htons (rfc1071_chksum bs)).
Proof.
  intros Hm Hr Hl. destruct (lwip_standard_chksum_oeq m a bs Hm Hr Hl) as (s & Es & Rs & Os).
  unfold inet_chksum. rewrite Es. simpl. f_equal.
  apply oeq_rfc1071_chksum; [by eapply read_bytes_byte|done|done].
Qed.

Lemma inet_chksum_pbuf_ok st p l bs :
  ram_ok (ram st) -> pchain (pbufs st) p l -> lens_ok l -> chain_data (ram st) l = Some bs ->
  inet_chksum_pbuf st p = Some (lwip_htons (rfc1071_chksum bs)).
Proof.
  intros Hm Hc Hl Hd. pose proof (chain_data_byte _ _ _ Hm Hd) as Hb.
  destruct (chksum_chain_ok st p l bs Hm Hc Hl Hd) as (acc & sw & s & E & Es & Rs & Os).
  unfold inet_chksum_pbuf. rewrite E. simpl. rewrite Es. f_equal.
  change 65535 with (Z.ones 16). rewrite Z.land_ones, Z.mod_small by lia.
  by apply oeq_rfc1071_chksum.
Qed.

Lemma inet_chksum_pseudo_ok st p l bs src dest proto proto_len :
  ram_ok (ram st) -> pchain (pbufs st) p l -> lens_ok l -> chain_data (ram st) l = Some bs ->
  0 <= src < 2 ^ 32 -> 0 <= dest < 2 ^ 32 -> is_byte proto -> 0 <= proto_len < 65536 ->
  inet_chksum_pseudo st p src dest proto proto_len =
    Some (lwip_htons (rfc1071_chksum (pseudo_header src dest proto proto_len ++ bs))).
Proof.
  intros Hm Hc Hl Hd Hs Hde Hp Hpl. pose proof (chain_data_byte _ _ _ Hm Hd) as Hb.
  destruct (chksum_chain_ok st p l bs Hm Hc Hl Hd) as (acc & sw & s & E & Es & Rs & Os).
  unfold inet_chksum_pseudo. rewrite E. simpl. rewrite Es. f_equal.
  by apply chksum_pseudo_header_ok.
Qed.

(** C16. For every chain of packet buffers, whatever the alignment and the parity
    of its pieces, the loops end and the checksums are those of RFC 1071 over
    the concatenated data (with the pseudo header before it, and of a prefix of
    the data for the partial one), in network order. *)
Theorem inet_chksum_chain_correct st p l bs src dest proto proto_len n :
  ram_ok (ram st) -> pchain (pbufs st) p l -> lens_ok l -> chain_data (ram st) l = Some bs ->
  0 <= src < 2 ^ 32 -> 0 <= dest < 2 ^ 32 -> is_byte proto -> 0 <= proto_len < 65536 ->
  0 <= n < 32767 ->
  inet_chksum_pbuf st p = Some (lwip_htons (rfc1071_chksum bs)) /\
  inet_chksum_pseudo st p src dest proto proto_len =
    Some (lwip_htons (rfc1071_chksum (pseudo_header src dest proto proto_len ++ bs))) /\
  inet_chksum_pseudo_partial st p src dest proto proto_len n =
    Some (lwip_htons (rfc1071_chksum
      (pseudo_header src dest proto proto_len ++ take (Z.to_nat n) bs))).
Proof.
  intros Hm Hc Hl Hd Hs Hde Hp Hpl Hn. pose proof (chain_data_byte _ _ _ Hm Hd) as Hb.
  pose proof (pchain_size _ _ _ Hc).
  destruct (chksum_chain_partial_spec st l Hm Hl (chain_fuel st) p [] bs n 0 0)
    as (acc' & sw' & E' & R' & O'); [done|unfold chain_fuel; lia|done|done|apply acc_ok_nil|done|].
  split_and!; [by eapply inet_chksum_pbuf_ok|by eapply inet_chksum_pseudo_ok|].
  unfold inet_chksum_pseudo_partial. rewrite E'. simpl. fold (unswap acc' sw'). f_equal.
  apply chksum_pseudo_header_ok; try done. by apply Forall_take.
Qed.

(** Two buffers of odd length, the second one at an odd address. *)
Definition chksum_sample : netmem :=
  NetMem (list_to_map [(100, 69); (101, 0); (102, 17); (201, 34); (202, 51); (203, 68); (204, 85);
                       (205, 102)])
    {[ 8 := Pbuf 9 100 8 3 PBUF_RAM 0 1; 9 := Pbuf NULL 201 5 5 PBUF_POOL 0 1 ]} [] 0 [] 0 ∅.

Lemma inet_chksum_chain_correct_witness :
  inet_chksum_pseudo chksum_sample 8 33620160 16885952 17 8 =
    Some (lwip_htons (rfc1071_chksum
      (pseudo_header 33620160 16885952 17 8 ++ [69; 0; 17; 34; 51; 68; 85; 102]))).
Proof.
  refine (proj1 (proj2 (inet_chksum_chain_correct chksum_sample 8
    [(8, Pbuf 9 100 8 3 PBUF_RAM 0 1); (9, Pbuf NULL 201 5 5 PBUF_POOL 0 1)]
    [69; 0; 17; 34; 51; 68; 85; 102] 33620160 16885952 17 8 4 _ _ _ _ _ _ _ _ _))).
  - apply (bool_decide_unpack _). vm_compute. exact I.
  - repeat split; done.
  - unfold lens_ok. repeat constructor; simpl; lia.
  - vm_compute. reflexivity.
  - lia.
  - lia.
  - unfold is_byte. lia.
  - lia.
  - lia.
Defined.

Lemma rfc1071_oeq_zero bs :
  Forall is_byte bs -> rfc1071_chksum bs = 0 <-> le_num bs ≈ 65535.
Proof.
  intros Hb. pose proof (rfc1071_range _ Hb) as R. pose proof (rfc1071_oeq _ Hb) as E.
  unfold rfc1071_chksum. split.
  - intros H. assert (rfc1071_sum bs = 65535) as E' by lia. rewrite E' in E.
    rewrite <-E. split_and!; try lia. exists 255. lia.
  - intros H. rewrite H in E. enough (rfc1071_sum bs = 65535) by lia.
    apply oeq_eq; [lia..|]. transitivity (256 * (256 * rfc1071_sum bs)).
    + rewrite Z.mul_assoc. symmetry. apply oeq_65536. lia.
    + transitivity (256 * 65535); [by apply oeq_mul|]. split_and!; try lia. exists 255. lia.
Qed.

(** The class of data in which a 16-bit word at an even place is replaced. *)
Lemma le_num_replace xs ws ys :
  Forall is_byte xs -> Forall is_byte ws -> Forall is_byte ys ->
  Nat.even (length xs) -> length ws = 2%nat ->
  le_num (xs ++ ws ++ ys) ≈ le_num (xs ++ [0; 0] ++ ys) + le_num ws.
Proof.
  intros Hx Hw Hy He Hl. apply Is_true_true in He.
  assert (Forall is_byte ([0; 0] ++ ys)) as H0.
  { apply Forall_app_2; [|done]. repeat constructor; unfold is_byte; lia. }
  pose proof (le_num_app_oeq xs (ws ++ ys) Hx (Forall_app_2 _ _ _ Hw Hy)) as E1.
  pose proof (le_num_app_oeq xs ([0; 0] ++ ys) Hx H0) as E2. rewrite He in E1, E2.
  pose proof (le_num_app_oeq ws ys Hw Hy) as E3. rewrite Hl in E3. simpl Nat.even in E3. cbv iota in E3.
  apply le_num_nonneg in Hx, Hw, Hy.
  assert (le_num ([0; 0] ++ ys) ≈ le_num ys) as E4.
  { simpl le_num. rewrite !Z.add_0_l, Z.mul_assoc. by apply oeq_65536. }
  rewrite E1. transitivity (le_num xs + (le_num ws + le_num ys)); [by apply oeq_add; [apply oeq_refl|]|].
  transitivity (le_num xs + le_num ys + le_num ws).
  - replace (le_num xs + (le_num ws + le_num ys)) with (le_num xs + le_num ys + le_num ws) by lia.
    apply oeq_refl. lia.
  - apply oeq_add; [|by apply oeq_refl]. rewrite E2. apply oeq_add; [by apply oeq_refl|by symmetry].
Qed.

(** A packet at [a] whose checksum field, at the even offset [length xs], holds
    zero: what [inet_chksum] gives is stored there. *)
Lemma inet_chksum_stored m a xs ys c m1 :
  ram_ok m -> Nat.even (length xs) ->
  read_bytes m a (length (xs ++ [0; 0] ++ ys)) = Some (xs ++ [0; 0] ++ ys) ->
  Z.of_nat (length (xs ++ [0; 0] ++ ys)) < 65536 ->
  inet_chksum m a (Z.of_nat (length (xs ++ [0; 0] ++ ys))) = Some c ->
  write_bytes m (a + Z.of_nat (length xs)) (le_bytes 2 c) = Some m1 ->
  ram_ok m1 /\ read_bytes m1 a (length (xs ++ [0; 0] ++ ys)) = Some (xs ++ le_bytes 2 c ++ ys) /\
  le_num (xs ++ le_bytes 2 c ++ ys) ≈ 65535.
Proof.
  intros Hm He Hr Hl Hc Hw. pose proof (le_bytes_byte 2 c) as Hcb.
  split; [by eapply write_ram_ok|]. split; [by eapply read_write_middle|].
  pose proof (read_bytes_byte _ _ _ _ Hm Hr) as Hb.
  destruct (lwip_standard_chksum_oeq m a _ Hm Hr Hl) as (s & Es & Rs & Os).
  unfold inet_chksum in Hc. rewrite Es in Hc. injection Hc as <-. rewrite lnot_u16 in * by done.
  apply Forall_app in Hb as [Hx Hb]. apply Forall_app in Hb as [H0 Hy].
  rewrite le_num_replace by (done || apply le_bytes_length). rewrite le_num_bytes by (simpl; lia).
  transitivity (s + (65535 - s)); [apply oeq_add; [by symmetry|apply oeq_refl; lia]|].
  replace (s + (65535 - s)) with 65535 by lia. by apply oeq_refl.
Qed.

(** The stored checksum verifies (the receiver's [inet_chksum] is zero), and
    it notices the change of any one 16-bit word, except between 0x0000 and
    0xffff. *)
Theorem inet_chksum_verifies m a xs ys c m1 :
  ram_ok m -> Nat.even (length xs) ->
  read_bytes m a (length (xs ++ [0; 0] ++ ys)) = Some (xs ++ [0; 0] ++ ys) ->
  Z.of_nat (length (xs ++ [0; 0] ++ ys)) < 65536 ->
  inet_chksum m a (Z.of_nat (length (xs ++ [0; 0] ++ ys))) = Some c ->
  write_bytes m (a + Z.of_nat (length xs)) (le_bytes 2 c) = Some m1 ->
  inet_chksum m1 a (Z.of_nat (length (xs ++ [0; 0] ++ ys))) = Some 0 /\
  forall us w0 vs w m2,
    xs ++ le_bytes 2 c ++ ys = us ++ le_bytes 2 w0 ++ vs -> Nat.even (length us) ->
    0 <= w0 < 65536 -> 0 <= w < 65536 -> (w - w0) mod 65535 <> 0 ->
    write_bytes m1 (a + Z.of_nat (length us)) (le_bytes 2 w) = Some m2 ->
    exists c', inet_chksum m2 a (Z.of_nat (length (xs ++ [0; 0] ++ ys))) = Some c' /\ c' <> 0.
Proof.
  intros Hm He Hr Hl Hc Hw.
  destruct (inet_chksum_stored m a xs ys c m1 Hm He Hr Hl Hc Hw) as (Hm1 & Hr1 & E1).
  pose proof (read_bytes_byte _ _ _ _ Hm1 Hr1) as Hb1.
  assert (length (xs ++ [0; 0] ++ ys) = length (xs ++ le_bytes 2 c ++ ys)) as L
    by (by rewrite !length_app, le_bytes_length). rewrite L in *.
  split.
  - rewrite inet_chksum_ok by done. apply rfc1071_oeq_zero in E1; [|done]. by rewrite E1.
  - intros us w0 vs w m2 Eq Hu Hw0 Hww Hne Hw2. rewrite Eq in *.
    pose proof (le_bytes_byte 2 w) as Hwb.
    pose proof (write_ram_ok _ _ _ _ Hm1 Hwb Hw2) as Hm2.
    assert (read_bytes m2 a (length (us ++ le_bytes 2 w ++ vs)) = Some (us ++ le_bytes 2 w ++ vs)) as Hr2.
    { rewrite <-(read_write_middle m1 a us (le_bytes 2 w0) vs (le_bytes 2 w) m2) by done.
      by rewrite !length_app, !le_bytes_length. }
    assert (length (us ++ le_bytes 2 w0 ++ vs) = length (us ++ le_bytes 2 w ++ vs)) as L2
      by (by rewrite !length_app, !le_bytes_length). rewrite L2 in *.
    rewrite inet_chksum_ok by done. eexists. split; [done|].
    pose proof (read_bytes_byte _ _ _ _ Hm2 Hr2) as Hb2.
    apply Forall_app in Hb1 as [Bu Hb1]. apply Forall_app in Hb1 as [_ Bv].
    pose proof (le_num_replace us (le_bytes 2 w0) vs Bu (le_bytes_byte 2 w0) Bv Hu (le_bytes_length 2 w0)) as A.
    pose proof (le_num_replace us (le_bytes 2 w) vs Bu Hwb Bv Hu (le_bytes_length 2 w)) as B.
    rewrite le_num_bytes in A, B by (simpl; lia). rewrite E1 in A.
    pose proof (rfc1071_range _ Hb2) as R. intros Hz.
    assert (rfc1071_chksum (us ++ le_bytes 2 w ++ vs) = 0) as Hz'.
    { rewrite <-(htons_involutive (rfc1071_chksum _)) by (unfold rfc1071_chksum; lia). by rewrite Hz. }
    apply rfc1071_oeq_zero in Hz'; [|done]. rewrite Hz' in B.
    destruct A as (_ & _ & [k Hk] & _), B as (_ & _ & [j Hj] & _).
    apply Hne. replace (w - w0) with ((k - j) * 65535) by lia. apply Z_mod_mult.
Qed.

Definition ip_header_sample : gmap Z Z :=
  list_to_map (imap (fun i b => (Z.of_nat (1000 + i), b))
    [69; 0; 0; 60; 28; 70; 64; 0; 64; 6; 0; 0; 172; 16; 10; 99; 172; 16; 10; 12]).

Lemma inet_chksum_verifies_witness :
  exists m1, write_bytes ip_header_sample 1010 (le_bytes 2 (lwip_htons 45542)) = Some m1 /\
    inet_chksum m1 1000 20 = Some 0.
Proof.
  eexists. split; [vm_compute; reflexivity|].
  refine (proj1 (inet_chksum_verifies ip_header_sample 1000 [69; 0; 0; 60; 28; 70; 64; 0; 64; 6]
    [172; 16; 10; 99; 172; 16; 10; 12] (lwip_htons 45542) _ _ _ _ _ _ _)).
  - apply (bool_decide_unpack _). vm_compute. exact I.
  - exact I.
  - vm_compute. reflexivity.
  - simpl. lia.
  - vm_compute. reflexivity.
  - vm_compute. reflexivity.
Defined.
