(* ===== verification/IpAddr.v ===== *)
(** * IPv4 addresses: core/ipv4/ip_addr.c

    Classification of addresses and masks, and the conversions between the
    32-bit form (network order) and dotted text.  A C string is a list of bytes
    that contains its terminating zero; a pointer into it is the rest of the
    list, and [None] is a read past its end.  The buffer of [ipaddr_ntoa_r] is
    a list too, and a write outside of it is [None]. *)

From S2P Require Import Prelude StateM LwipMem.

Definition IPADDR_NONE : Z := 4294967295.
Definition IPADDR_ANY : Z := 0.
Definition IPADDR_BROADCAST : Z := 4294967295.

(** The fields of [struct netif] (include/lwip/netif.h) that the functions of
    the network layer read. *)
Record netif := Netif {
  ni_next : Z;
  ni_ip_addr : Z;
  ni_netmask : Z;
  ni_gw : Z;
  ni_mtu : Z;
  ni_hwaddr_len : Z;
  ni_hwaddr : list Z;
  ni_flags : Z;
}.

Definition NETIF_FLAG_UP : Z := 1.
Definition NETIF_FLAG_BROADCAST : Z := 2.

(** ** Classification *)

Definition ip_addr_netcmp (addr1 addr2 mask : Z) : bool := (addr1 &. mask) =? (addr2 &. mask).
Definition ip_addr_isany (addr : Z) : bool := addr =? IPADDR_ANY.
Definition ip_addr_ismulticast (addr : Z) : bool :=
  (addr &. lwip_htonl 4026531840) =? lwip_htonl 3758096384.
Definition ip_addr_islinklocal (addr : Z) : bool :=
  (addr &. lwip_htonl 4294901760) =? lwip_htonl 2851995648.

Definition ip4_addr_isbroadcast (addr : Z) (n : netif) : Z :=
  if (u32 (Z.lnot addr) =? IPADDR_ANY) || (addr =? IPADDR_ANY) then 1
  else if negb (truthy (ni_flags n &. NETIF_FLAG_BROADCAST)) then 0
  else if addr =? ni_ip_addr n then 0
  else if ip_addr_netcmp addr (ni_ip_addr n) (ni_netmask n) &&
          ((addr &. u32 (Z.lnot (ni_netmask n))) =?
           (IPADDR_BROADCAST &. u32 (Z.lnot (ni_netmask n)))) then 1
  else 0.

(** The two loops of [ip4_addr_netmask_valid]: the mask at the first zero bit,
    and whether no one bit follows. *)
Fixpoint first_zero (fuel : nat) (nm mask : Z) : option Z :=
  match fuel with
  | O => None
  | S fuel =>
      if mask =? 0 then Some mask
      else if (nm &. mask) =? 0 then Some mask
      else first_zero fuel nm (Z.shiftr mask 1)
  end.

Fixpoint no_one (fuel : nat) (nm mask : Z) : option Z :=
  match fuel with
  | O => None
  | S fuel =>
      if mask =? 0 then Some 1
      else if negb ((nm &. mask) =? 0) then Some 0
      else no_one fuel nm (Z.shiftr mask 1)
  end.

Definition ip4_addr_netmask_valid (netmask : Z) : option Z :=
  let nm_hostorder := lwip_htonl netmask in
  mask ← first_zero 33 nm_hostorder (Z.shiftl 1 31);
  no_one 33 nm_hostorder mask.

(** ** Text to address *)

Definition in_range (c lo up : Z) : bool := (lo <=? c) && (c <=? up).
Definition isdigit (c : Z) : bool := in_range c 48 57.
Definition isxdigit (c : Z) : bool := isdigit c || in_range c 97 102 || in_range c 65 70.
Definition islower (c : Z) : bool := in_range c 97 122.
Definition isspace (c : Z) : bool :=
  (c =? 32) || (c =? 12) || (c =? 10) || (c =? 13) || (c =? 9) || (c =? 11).

(** The loop over the digits of a number: its value and the rest of the text. *)
Fixpoint aton_number (base val : Z) (cp : list Z) : option (Z * list Z) :=
  match cp with
  | [] => None
  | c :: cp' =>
      if isdigit c then aton_number base (u32 (val * base + (c - 48))) cp'
      else if (base =? 16) && isxdigit c then
        aton_number base
          (u32 (Z.shiftl val 4) |. (c + 10 - (if islower c then 97 else 65))) cp'
      else Some (val, cp)
  end.

(** The outer loop.  [Some None] is [return (0)]; otherwise the parts before the
    last dot, the last value and the character after it.  It goes round at
    most four times. *)
Fixpoint aton_parts (fuel : nat) (parts cp : list Z) : option (option (list Z * Z * Z)) :=
  match fuel with
  | O => None
  | S fuel =>
      c ← head cp;
      if negb (isdigit c) then Some None else
      '(base, cp) ←
        (if c =? 48 then
           c' ← head (tail cp);
           if (c' =? 120) || (c' =? 88) then Some (16, tail (tail cp)) else Some (8, tail cp)
         else Some (10, cp));
      '(val, cp) ← aton_number base 0 cp;
      c ← head cp;
      if c =? 46 then
        if 3 <=? Z.of_nat (length parts) then Some None
        else aton_parts fuel (parts ++ [val]) (tail cp)
      else Some (Some (parts, val, c))
  end.

(** The [switch] over the number of parts. *)
Definition aton_concoct (parts : list Z) (val : Z) : option Z :=
  match parts with
  | [] => Some val
  | [p0] => if 16777215 <? val then None else Some (val |. u32 (Z.shiftl p0 24))
  | [p0; p1] =>
      if 65535 <? val then None
      else Some (val |. (u32 (Z.shiftl p0 24) |. u32 (Z.shiftl p1 16)))
  | [p0; p1; p2] =>
      if 255 <? val then None
      else Some (val |. (u32 (Z.shiftl p0 24) |. u32 (Z.shiftl p1 16) |. u32 (Z.shiftl p2 8)))
  | _ => None
  end.

(** [Some (Some addr)] is a return of 1 with [addr] stored, [Some None] one of 0. *)
Definition ipaddr_aton (cp : list Z) : option (option Z) :=
  r ← aton_parts 4 [] cp;
  match r with
  | None => Some None
  | Some (parts, val, c) =>
      if negb (c =? 0) && negb (isspace c) then Some None
      else match aton_concoct parts val with
           | None => Some None
           | Some val => Some (Some (lwip_htonl val))
           end
  end.

Definition ipaddr_addr (cp : list Z) : option Z :=
  r ← ipaddr_aton cp;
  Some (match r with Some addr => addr | None => IPADDR_NONE end).

(** ** Address to text *)

(** What is written: the number of characters counted, the next place of the
    buffer, the buffer. *)
Record ntoa_out := NtoaOut { no_len : Z; no_rp : Z; no_buf : list Z }.

(** [if (len++ >= buflen) return NULL; *rp++ = c]: [inr] is the return. *)
Definition ntoa_put (buflen c : Z) (o : ntoa_out) : option (ntoa_out + list Z) :=
  if buflen <=? no_len o then Some (inr (no_buf o))
  else
    buf ← memcpy_at (no_buf o) (no_rp o) [c];
    Some (inl (NtoaOut (no_len o + 1) (no_rp o + 1) buf)).

(** The [do] loop that leaves the digits in [inv], which has three places. *)
Fixpoint ntoa_digits (fuel : nat) (ap : Z) (inv : list Z) : option (list Z) :=
  match fuel with
  | O => None
  | S fuel =>
      let rem := Z.rem ap 10 in
      let ap := Z.quot ap 10 in
      if 3 <=? Z.of_nat (length inv) then None else
      let inv := inv ++ [u8 (48 + rem)] in
      if truthy ap then ntoa_digits fuel ap inv else Some inv
  end.

(** [while (i--) { ... *rp++ = inv[i]; }] *)
Fixpoint ntoa_flush (i : nat) (inv : list Z) (buflen : Z) (o : ntoa_out) :
    option (ntoa_out + list Z) :=
  match i with
  | O => Some (inl o)
  | S i =>
      c ← inv !! i;
      r ← ntoa_put buflen c o;
      match r with inr buf => Some (inr buf) | inl o => ntoa_flush i inv buflen o end
  end.

(** The loop over the four bytes. *)
Fixpoint ntoa_bytes (bytes : list Z) (buflen : Z) (o : ntoa_out) : option (ntoa_out + list Z) :=
  match bytes with
  | [] => Some (inl o)
  | ap :: bytes =>
      inv ← ntoa_digits 4 ap [];
      r ← ntoa_flush (length inv) inv buflen o;
      match r with
      | inr buf => Some (inr buf)
      | inl o =>
          r ← ntoa_put buflen 46 o;
          match r with inr buf => Some (inr buf) | inl o => ntoa_bytes bytes buflen o end
      end
  end.

(** The buffer at the return, and whether it is the result or [NULL] is. *)
Definition ipaddr_ntoa_r (addr : Z) (buf : list Z) (buflen : Z) : option (list Z * bool) :=
  r ← ntoa_bytes (le_bytes 4 addr) buflen (NtoaOut 0 0 buf);
  match r with
  | inr buf => Some (buf, false)
  | inl o =>
      buf ← memcpy_at (no_buf o) (no_rp o - 1) [0];
      Some (buf, true)
  end.

(** The static buffer [str[16]]. *)
Definition ipaddr_ntoa (addr : Z) (str : list Z) : option (list Z * bool) :=
  ipaddr_ntoa_r addr str 16.

Example aton_forms :
  ipaddr_aton [49; 57; 50; 46; 48; 120; 65; 56; 46; 48; 49; 46; 50; 49; 48; 0] =
    Some (Some (le_num [192; 168; 1; 210])) /\
  ipaddr_aton [49; 48; 46; 49; 0] = Some (Some (le_num [10; 0; 0; 1])) /\
  ipaddr_aton [49; 46; 0] = Some None.
Proof. by vm_compute. Qed.

(** ** Decimal text *)

Definition dec (b : Z) : list Z :=
  if b <? 10 then [48 + b]
  else if b <? 100 then [48 + b / 10; 48 + b mod 10]
  else [48 + b / 100; 48 + b / 10 mod 10; 48 + b mod 10].

(** Each byte with a dot after it; the text is this without the last dot. *)
Definition dots (bytes : list Z) : list Z := concat ((fun b => dec b ++ [46]) <$> bytes).
Definition dotted (addr : Z) : list Z := removelast (dots (le_bytes 4 addr)).

Lemma ntoa_digits_dec b : is_byte b -> ntoa_digits 4 b [] = Some (reverse (dec b)).
Proof.
  unfold is_byte. intros Hb.
  assert (forall n, 0 <= n < 256 -> ntoa_digits 4 n [] = Some (reverse (dec n))); [|eauto].
  intros n Hn. replace n with (Z.of_nat (Z.to_nat n)) by lia.
  assert (Z.to_nat n < 256)%nat as H by lia. revert H. generalize (Z.to_nat n). clear.
  assert (forallb (fun n => bool_decide (ntoa_digits 4 (Z.of_nat n) [] =
    Some (reverse (dec (Z.of_nat n))))) (seq 0 256) = true) as H by by vm_compute.
  intros n Hn. rewrite forallb_forall in H. specialize (H n).
  apply (bool_decide_eq_true_1 _), H, in_seq. lia.
Qed.

Fixpoint puts (buflen : Z) (cs : list Z) (o : ntoa_out) : option (ntoa_out + list Z) :=
  match cs with
  | [] => Some (inl o)
  | c :: cs =>
      r ← ntoa_put buflen c o;
      match r with inr buf => Some (inr buf) | inl o => puts buflen cs o end
  end.

Lemma puts_app buflen cs1 cs2 o :
  puts buflen (cs1 ++ cs2) o =
  (r ← puts buflen cs1 o; match r with inr buf => Some (inr buf) | inl o => puts buflen cs2 o end).
Proof.
  revert o. induction cs1 as [|c cs1 IH]; intros o; simpl; [done|].
  destruct (ntoa_put buflen c o) as [[o'|]|]; simpl; [apply IH|done|done].
Qed.

Lemma ntoa_flush_puts i inv buflen o :
  (i <= length inv)%nat -> ntoa_flush i inv buflen o = puts buflen (reverse (take i inv)) o.
Proof.
  revert o. induction i as [|i IH]; intros o Hi; [done|].
  destruct (lookup_lt_is_Some_2 inv i ltac:(lia)) as [c Hc].
  rewrite (take_S_r _ _ c) by done. rewrite reverse_app. simpl. rewrite Hc. simpl.
  destruct (ntoa_put buflen c o) as [[o'|]|]; simpl; [|done|done]. apply IH. lia.
Qed.

Lemma ntoa_bytes_puts bytes buflen o :
  Forall is_byte bytes -> ntoa_bytes bytes buflen o = puts buflen (dots bytes) o.
Proof.
  intros H. revert o. induction H as [|b bytes Hb _ IH]; intros o; [done|].
  cbn [ntoa_bytes]. rewrite ntoa_digits_dec by done. cbn [mbind option_bind].
  rewrite ntoa_flush_puts, take_ge, reverse_involutive by lia.
  change (dots (b :: bytes)) with ((dec b ++ [46]) ++ dots bytes).
  rewrite !puts_app. destruct (puts buflen (dec b) o) as [[o'|]|]; simpl; [|done|done].
  destruct (ntoa_put buflen 46 o') as [[o''|]|]; simpl; [apply IH|done|done].
Qed.

(** [puts] from the position [length pre]: everything when it fits, nothing at
    or after [buflen] otherwise. *)
Lemma puts_spec buflen cs pre rest :
  buflen <= Z.of_nat (length (pre ++ rest)) -> Z.of_nat (length pre) <= Z.max 0 buflen ->
  let k := Z.of_nat (length pre) in
  let n := Z.of_nat (length cs) in
  if k + n <=? Z.max 0 buflen then
    puts buflen cs (NtoaOut k k (pre ++ rest)) =
      Some (inl (NtoaOut (k + n) (k + n) (pre ++ cs ++ drop (length cs) rest)))
  else exists buf', puts buflen cs (NtoaOut k k (pre ++ rest)) = Some (inr buf') /\
    length buf' = length (pre ++ rest) /\
    drop (Z.to_nat buflen) buf' = drop (Z.to_nat buflen) (pre ++ rest).
Proof.
  revert pre rest. induction cs as [|c cs IH]; intros pre rest Hb Hk; cbv zeta.
  - simpl length. destruct (Z.leb_spec (Z.of_nat (length pre) + Z.of_nat 0) (Z.max 0 buflen)); [|lia].
    simpl. rewrite drop_0. by rewrite Z.add_0_r.
  - simpl puts. unfold ntoa_put at 1 2. cbn [no_len no_rp no_buf].
    destruct (Z.leb_spec buflen (Z.of_nat (length pre))) as [Hfull|Hfull].
    + cbn [mbind option_bind]. destruct (Z.leb_spec (Z.of_nat (length pre) + Z.of_nat (length (c :: cs)))
        (Z.max 0 buflen)); [simpl in *; lia|]. eauto.
    + destruct rest as [|r rest]; [rewrite app_nil_r in Hb; lia|].
      rewrite memcpy_at_Some by (rewrite ?length_app; simpl; lia). cbn [mbind option_bind].
      rewrite Nat2Z.id. simpl list_inserts. rewrite insert_app_r_alt, Nat.sub_diag by lia. simpl insert.
      specialize (IH (pre ++ [c]) rest). rewrite length_app in IH. simpl length in *.
      rewrite <-app_assoc in IH. simpl in IH. rewrite length_app in Hb, IH. simpl in Hb, IH.
      specialize (IH ltac:(lia) ltac:(lia)). cbv zeta in IH.
      replace (Z.of_nat (length pre + 1)) with (Z.of_nat (length pre) + 1) in IH by lia.
      replace (Z.of_nat (length pre) + 1 + Z.of_nat (length cs))
        with (Z.of_nat (length pre) + Z.of_nat (S (length cs))) in IH by lia.
      destruct (Z.leb_spec (Z.of_nat (length pre) + Z.of_nat (S (length cs))) (Z.max 0 buflen)).
      * rewrite IH. by rewrite <-app_assoc.
      * destruct IH as (buf' & -> & Hl & Hd). exists buf'. split; [done|].
        rewrite length_app. simpl. split; [lia|]. rewrite Hd.
        rewrite !drop_app_ge by lia. destruct (Z.to_nat buflen - length pre)%nat eqn:E; [lia|done].
Qed.

(** ** Parsing what was printed *)

Lemma isdigit_dec d : 0 <= d < 10 -> isdigit (48 + d) = true.
Proof.
  intros. unfold isdigit, in_range. apply andb_true_intro. split; apply Z.leb_le; lia.
Qed.

Lemma aton_number_digit base val d cp :
  0 <= d < 10 -> 0 <= val * base + d < 2 ^ 32 ->
  aton_number base val (48 + d :: cp) = aton_number base (val * base + d) cp.
Proof.
  intros Hd Hv. simpl. rewrite isdigit_dec by done.
  replace (48 + d - 48) with d by lia. rewrite wrap_small; done.
Qed.

(** The text of a byte and the character after it, a dot or the end. *)
Lemma aton_parts_dec fuel parts b c cp :
  is_byte b -> c = 46 \/ c = 0 ->
  aton_parts (S fuel) parts (dec b ++ c :: cp) =
  if c =? 46 then
    if 3 <=? Z.of_nat (length parts) then Some None else aton_parts fuel (parts ++ [b]) cp
  else Some (Some (parts, b, c)).
Proof.
  intros Hb Hc. unfold is_byte in Hb.
  assert (forall base, aton_number base b (c :: cp) = Some (b, c :: cp)) as Hend.
  { intros base. destruct Hc as [-> | ->]; simpl; rewrite andb_false_r; done. }
  assert (c =? 120 = false /\ c =? 88 = false) as [Hx1 Hx2] by (destruct Hc as [-> | ->]; done).
  unfold dec. destruct (Z.ltb_spec b 10) as [H1|H1]; [|destruct (Z.ltb_spec b 100) as [H2|H2]].
  - cbn [app aton_parts head tail mbind option_bind]. rewrite isdigit_dec by lia. cbn [negb].
    destruct (Z.eqb_spec (48 + b) 48) as [E|E].
    + assert (b = 0) as -> by lia. cbn [mbind option_bind]. rewrite Hx1, Hx2. cbn [orb mbind option_bind].
      rewrite Hend. done.
    + cbn [mbind option_bind]. rewrite aton_number_digit, Z.mul_0_l, Z.add_0_l by lia. by rewrite Hend.
  - assert (0 < b / 10 < 10) by (Z.div_mod_to_equations; lia).
    assert (0 <= b mod 10 < 10) by (apply Z.mod_pos_bound; lia).
    cbn [app aton_parts head tail mbind option_bind]. rewrite isdigit_dec by lia. cbn [negb].
    destruct (Z.eqb_spec (48 + b / 10) 48); [lia|]. cbn [mbind option_bind].
    rewrite !aton_number_digit by lia.
    replace ((0 * 10 + b / 10) * 10 + b mod 10) with b by (Z.div_mod_to_equations; lia).
    by rewrite Hend.
  - assert (0 < b / 100 < 10) by (Z.div_mod_to_equations; lia).
    assert (0 <= b mod 10 < 10) by (apply Z.mod_pos_bound; lia).
    assert (0 <= b / 10 mod 10 < 10) by (apply Z.mod_pos_bound; lia).
    cbn [app aton_parts head tail mbind option_bind]. rewrite isdigit_dec by lia. cbn [negb].
    destruct (Z.eqb_spec (48 + b / 100) 48); [lia|]. cbn [mbind option_bind].
    rewrite !aton_number_digit by lia.
    replace (((0 * 10 + b / 100) * 10 + b / 10 mod 10) * 10 + b mod 10) with b
      by (Z.div_mod_to_equations; lia).
    by rewrite Hend.
Qed.

Lemma aton_concoct_bytes b0 b1 b2 b3 :
  is_byte b0 -> is_byte b1 -> is_byte b2 -> is_byte b3 ->
  aton_concoct [b0; b1; b2] b3 = Some (le_num [b3; b2; b1; b0]).
Proof.
  intros H0 H1 H2 H3. unfold aton_concoct.
  destruct (Z.ltb_spec 255 b3); [unfold is_byte in *; lia|]. f_equal.
  rewrite !wrap_small.
  - transitivity (b3 |. Z.shiftl (b2 |. Z.shiftl (b1 |. Z.shiftl b0 8) 8) 8).
    + rewrite !Z.shiftl_lor, !Z.shiftl_shiftl by lia. simpl (_ + _). f_equal.
      rewrite Z.lor_assoc, Z.lor_comm. f_equal. apply Z.lor_comm.
    + rewrite !lor_bytes by done. simpl le_num. lia.
  - unfold in_u, is_byte in *. rewrite Z.shiftl_mul_pow2 by lia. lia.
  - unfold in_u, is_byte in *. rewrite Z.shiftl_mul_pow2 by lia. lia.
  - unfold in_u, is_byte in *. rewrite Z.shiftl_mul_pow2 by lia. lia.
Qed.

Lemma dec_ne b : dec b <> [].
Proof. unfold dec. repeat case_match; done. Qed.

Lemma dotted_eq b0 b1 b2 b3 :
  removelast (dots [b0; b1; b2; b3]) =
  dec b0 ++ 46 :: dec b1 ++ 46 :: dec b2 ++ 46 :: dec b3.
Proof.
  assert (dots [b0; b1; b2; b3] =
    (dec b0 ++ 46 :: dec b1 ++ 46 :: dec b2 ++ 46 :: dec b3) ++ [46]) as ->.
  - unfold dots. simpl. rewrite app_nil_r. repeat (rewrite <-app_assoc; simpl). done.
  - by rewrite removelast_last.
Qed.

Lemma aton_dotted addr rest :
  0 <= addr < 2 ^ 32 -> ipaddr_aton (dotted addr ++ 0 :: rest) = Some (Some addr).
Proof.
  intros Ha. unfold dotted. pose proof (le_bytes_byte 4 addr) as Hb.
  pose proof (le_num_bytes 4 addr Ha) as Hn.
  destruct (le_bytes 4 addr) as [|b0 [|b1 [|b2 [|b3 [|]]]]] eqn:E; try done.
  repeat match goal with H : Forall _ (_ :: _) |- _ => apply Forall_cons in H as [? H] end.
  rewrite dotted_eq. unfold ipaddr_aton.
  repeat (rewrite <-app_assoc; simpl app).
  rewrite !aton_parts_dec by auto. simpl length.
  change (3 <=? Z.of_nat 0) with false. change (3 <=? Z.of_nat 1) with false.
  change (3 <=? Z.of_nat 2) with false. cbn -[aton_concoct lwip_htonl].
  rewrite aton_concoct_bytes by done. by rewrite lwip_htonl_bytes, Hn by done.
Qed.

Lemma dotted_length addr : (7 <= length (dots (le_bytes 4 addr)) - 1 <= 15)%nat.
Proof.
  pose proof (le_bytes_byte 4 addr) as Hb. pose proof (le_bytes_length 4 addr) as Hl.
  destruct (le_bytes 4 addr) as [|b0 [|b1 [|b2 [|b3 [|]]]]]; try done.
  assert (forall b, 1 <= length (dec b) <= 3)%nat as Hd by (intros b; unfold dec; repeat case_match; simpl; lia).
  unfold dots. simpl. rewrite !length_app. simpl.
  pose proof (Hd b0). pose proof (Hd b1). pose proof (Hd b2). pose proof (Hd b3). lia.
Qed.

(** ** The theorems *)

(** C28. [ipaddr_ntoa_r] never writes at or after [buflen]; it returns [NULL]
    exactly when the dotted text and its terminator do not fit, and otherwise
    leaves the text, which [ipaddr_aton] reads back as the same address. *)
Theorem ipaddr_ntoa_aton addr buf buflen :
  0 <= addr < 2 ^ 32 -> buflen <= Z.of_nat (length buf) ->
  let fits := Z.of_nat (length (dotted addr)) <? buflen in
  exists buf', ipaddr_ntoa_r addr buf buflen = Some (buf', fits) /\
    length buf' = length buf /\
    drop (Z.to_nat buflen) buf' = drop (Z.to_nat buflen) buf /\
    (fits = true -> buf' = dotted addr ++ 0 :: drop (S (length (dotted addr))) buf /\
       ipaddr_aton buf' = Some (Some addr)).
Proof.
  intros Ha Hb fits. set (T := dots (le_bytes 4 addr)).
  pose proof (dotted_length addr) as HT. fold T in HT.
  assert (T = dotted addr ++ [46]) as ET.
  { unfold T, dotted. pose proof (le_bytes_length 4 addr) as Hl.
    destruct (le_bytes 4 addr) as [|b0 [|b1 [|b2 [|b3 [|]]]]]; try done.
    rewrite dotted_eq. unfold dots. simpl. rewrite app_nil_r.
    repeat (rewrite <-app_assoc; simpl). done. }
  assert (length T = S (length (dotted addr))) as LT by (rewrite ET, length_app; simpl; lia).
  unfold ipaddr_ntoa_r. rewrite ntoa_bytes_puts by apply le_bytes_byte. fold T.
  pose proof (puts_spec buflen T [] buf Hb ltac:(simpl; lia)) as P. cbv zeta in P.
  change (Z.of_nat (length [])) with 0 in P. rewrite !Z.add_0_l in P. simpl app in P. rewrite LT in P. unfold fits. clear fits.
  destruct (Z.leb_spec (Z.of_nat (S (length (dotted addr)))) (Z.max 0 buflen)) as [Hf|Hf].
  - rewrite P. cbn [mbind option_bind no_buf no_rp].
    destruct (Z.ltb_spec (Z.of_nat (length (dotted addr))) buflen); [|lia].
    rewrite memcpy_at_Some; [|lia|rewrite length_app; simpl; lia]. cbn [mbind option_bind].
    replace (Z.to_nat (Z.of_nat (S (length (dotted addr))) - 1)) with (length (dotted addr)) by lia.
    eexists. split; [done|]. simpl list_inserts. rewrite ET, <-app_assoc.
    rewrite insert_app_r_alt, Nat.sub_diag by lia. simpl insert.
    split_and!.
    + rewrite length_app. simpl. rewrite length_drop. lia.
    + rewrite drop_app_ge by lia. simpl.
      destruct (Z.to_nat buflen - length (dotted addr))%nat eqn:E; [lia|].
      simpl. rewrite drop_drop. f_equal. lia.
    + intros _. split; [done|]. by apply aton_dotted.
  - destruct P as (buf' & -> & Hl & Hd). simpl. exists buf'.
    destruct (Z.ltb_spec (Z.of_nat (length (dotted addr))) buflen); [lia|]. done.
Qed.

Lemma ipaddr_ntoa_aton_witness :
  exists buf', ipaddr_ntoa (le_num [192; 168; 1; 210]) (replicate 16 7) = Some (buf', true) /\
    ipaddr_aton buf' = Some (Some (le_num [192; 168; 1; 210])).
Proof.
  destruct (ipaddr_ntoa_aton (le_num [192; 168; 1; 210]) (replicate 16 7) 16
    ltac:(simpl; lia) ltac:(simpl; lia)) as (buf' & H & _ & _ & Hf).
  exists buf'. split; [exact H|]. apply Hf. vm_compute. reflexivity.
Defined.

(** *** Net masks *)

Lemma land_pow2 x k : 0 <= k -> ((x &. 2 ^ k) =? 0) = negb (Z.testbit x k).
Proof. intros. rewrite <-truthy_bit by done. unfold truthy. by rewrite negb_involutive. Qed.

Lemma first_zero_spec k fuel nm :
  (k < fuel)%nat ->
  exists mask, first_zero fuel nm (if decide (k = 0)%nat then 0 else 2 ^ (Z.of_nat k - 1)) = Some mask /\
    exists j, (j <= k)%nat /\ mask = (if decide (j = 0)%nat then 0 else 2 ^ (Z.of_nat j - 1)) /\
      (forall i, Z.of_nat j <= i < Z.of_nat k -> Z.testbit nm i = true) /\
      (j <> 0%nat -> Z.testbit nm (Z.of_nat j - 1) = false).
Proof.
  revert fuel. induction k as [|k IH]; intros [|fuel] Hf; [lia| |lia|].
  - exists 0. split; [done|]. exists 0%nat. split_and!; [lia|done|lia|done].
  - rewrite decide_False by lia. replace (Z.of_nat (S k) - 1) with (Z.of_nat k) by lia.
    cbn [first_zero]. destruct (Z.eqb_spec (2 ^ Z.of_nat k) 0); [lia|].
    rewrite land_pow2 by lia. destruct (Z.testbit nm (Z.of_nat k)) eqn:E; simpl negb; cbv iota.
    + replace (Z.shiftr (2 ^ Z.of_nat k) 1) with (if decide (k = 0)%nat then 0 else 2 ^ (Z.of_nat k - 1)).
      * destruct (IH fuel ltac:(lia)) as (mask & H & j & Hj & Hm & H1 & H0).
        exists mask. split; [done|]. exists j. split_and!; [lia|done| |done].
        intros i Hi. destruct (decide (i = Z.of_nat k)) as [->|]; [done|]. apply H1. lia.
      * destruct (decide (k = 0)%nat) as [->|]; [done|].
        rewrite Z.shiftr_div_pow2, <-Z.pow_sub_r by lia. done.
    + exists (2 ^ Z.of_nat k). split; [done|]. exists (S k). split_and!; [lia| |lia|].
      * rewrite decide_False by lia. f_equal. lia.
      * intros _. replace (Z.of_nat (S k) - 1) with (Z.of_nat k) by lia. done.
Qed.

Lemma no_one_spec k fuel nm :
  (k < fuel)%nat ->
  exists r, no_one fuel nm (if decide (k = 0)%nat then 0 else 2 ^ (Z.of_nat k - 1)) = Some r /\
    (r = 0 \/ r = 1) /\
    (r = 1 <-> forall i, 0 <= i < Z.of_nat k -> Z.testbit nm i = false).
Proof.
  revert fuel. induction k as [|k IH]; intros [|fuel] Hf; [lia| |lia|].
  - exists 1. split_and!; [done|by right|]. split; [lia|done].
  - rewrite decide_False by lia. replace (Z.of_nat (S k) - 1) with (Z.of_nat k) by lia.
    cbn [no_one]. destruct (Z.eqb_spec (2 ^ Z.of_nat k) 0); [lia|].
    rewrite land_pow2 by lia. destruct (Z.testbit nm (Z.of_nat k)) eqn:E; simpl negb; cbv iota.
    + exists 0. split_and!; [done|by left|]. split; [done|]. intros H.
      rewrite H in E by lia. done.
    + replace (Z.shiftr (2 ^ Z.of_nat k) 1) with (if decide (k = 0)%nat then 0 else 2 ^ (Z.of_nat k - 1)).
      * destruct (IH fuel ltac:(lia)) as (r & H & Hr & Hi). exists r. split_and!; [done|done|].
        rewrite Hi. split; intros H' i Hi'; [|apply H'; lia].
        destruct (decide (i = Z.of_nat k)) as [->|]; [done|]. apply H'. lia.
      * destruct (decide (k = 0)%nat) as [->|]; [done|].
        rewrite Z.shiftr_div_pow2, <-Z.pow_sub_r by lia. done.
Qed.

(** [ip4_addr_netmask_valid] returns 1 exactly for the masks whose first [n]
    bits, in host order, are ones and the others zeros, and 0 otherwise. *)
Theorem ip4_addr_netmask_valid_iff netmask :
  exists r, ip4_addr_netmask_valid netmask = Some r /\ (r = 0 \/ r = 1) /\
    (r = 1 <-> exists n, 0 <= n <= 32 /\ lwip_htonl netmask = 2 ^ 32 - 2 ^ (32 - n)).
Proof.
  unfold ip4_addr_netmask_valid. set (nm := lwip_htonl netmask).
  assert (0 <= nm < 2 ^ 32) as Hn by (unfold nm, lwip_htonl; apply wrap_range; lia).
  destruct (first_zero_spec 32 33 nm ltac:(lia)) as (mask & H1 & j & Hj & -> & Hones & Hz).
  change (Z.shiftl 1 31) with (if decide (32 = 0)%nat then 0 else 2 ^ (Z.of_nat 32 - 1)).
  rewrite H1. cbn [mbind option_bind].
  destruct (no_one_spec j 33 nm ltac:(lia)) as (r & H2 & Hr & Hi). exists r. split_and!; [done|done|].
  rewrite Hi. split.
  - intros Hzero. exists (32 - Z.of_nat j). split; [lia|].
    replace (32 - (32 - Z.of_nat j)) with (Z.of_nat j) by lia.
    replace (2 ^ 32 - 2 ^ Z.of_nat j) with (Z.shiftl (Z.ones (32 - Z.of_nat j)) (Z.of_nat j)).
    + apply Z.bits_inj'. intros i Hi0. rewrite Z.shiftl_spec by lia.
      destruct (decide (i < Z.of_nat j)).
      * rewrite Hzero, Z.testbit_neg_r by lia. done.
      * rewrite Z.testbit_ones_nonneg by lia. destruct (decide (i < 32)).
        -- rewrite Hones by lia. symmetry. apply Z.ltb_lt. lia.
        -- rewrite <-(Z.mod_small nm (2 ^ 32)), Z.mod_pow2_bits_high by lia.
           symmetry. apply Z.ltb_ge. lia.
    + rewrite Z.shiftl_mul_pow2, Z.ones_equiv by lia.
      rewrite <-(Z.sub_1_r (2 ^ _)), Z.mul_sub_distr_r, <-Z.pow_add_r by lia.
      replace (32 - Z.of_nat j + Z.of_nat j) with 32 by lia. lia.
  - intros (n & Hn' & E) i Hi'.
    assert (nm = Z.shiftl (Z.ones n) (32 - n)) as E'.
    { rewrite Z.shiftl_mul_pow2, Z.ones_equiv, <-(Z.sub_1_r (2 ^ _)), Z.mul_sub_distr_r, <-Z.pow_add_r by lia.
      replace (n + (32 - n)) with 32 by lia. lia. }
    assert (forall i, 0 <= i < 32 -> Z.testbit nm i = bool_decide (32 - n <= i)) as Hb.
    { intros k Hk. rewrite E', Z.shiftl_spec by lia. destruct (bool_decide_reflect (32 - n <= k)).
      - rewrite Z.testbit_ones_nonneg by lia. apply Z.ltb_lt. lia.
      - apply Z.testbit_neg_r. lia. }
    rewrite Hb by lia. apply bool_decide_eq_false_2.
    specialize (Hz ltac:(lia)). rewrite Hb in Hz by lia. apply bool_decide_eq_false_1 in Hz. lia.
Qed.

(** *** A part over 255

    Only the last part is compared with its bound, so 256.0.0.1 is read as
    0.0.0.1. *)
Example aton_part_overflow :
  ipaddr_aton [50; 53; 54; 46; 48; 46; 48; 46; 49; 0] = Some (Some (le_num [0; 0; 0; 1])).
Proof. by vm_compute. Qed.

(** "0x" and octal digits above seven are accepted too. *)
Example aton_bad_digits :
  ipaddr_aton [48; 120; 46; 48; 57; 46; 48; 46; 49; 0] = Some (Some (le_num [0; 9; 0; 1])).
Proof. by vm_compute. Qed.
