(* ===== verification/Pbuf.v ===== *)
(** * Packet buffers: core/pbuf.c

    The operations on the buffers of LwipMem, in the configuration of
    lwipopts.h: the heap behind [memp_malloc] and [mem_malloc] is the kernel's
    (MEMP_MEM_MALLOC and MEM_LIBC_MALLOC are set), [mem_trim] is the identity,
    there are no custom buffers.

    The loops over a chain take the number of allocated buffers as their bound,
    so [None] is also a walk around a cycle. *)

From S2P Require Import Prelude StateM LwipMem Chksum.

Abbreviation NM := (ST netmem).

(** ** Accesses *)

(** [LWIP_ASSERT] and [LWIP_ERROR]: both halt when the condition is false. *)
Definition lassert (b : bool) : NM unit := fun st => if b then Some (tt, st) else None.

Definition getp (p : Z) : NM pbuf := fun st => (fun b => (b, st)) <$> pbufs st !! p.

Definition updp (p : Z) (f : pbuf -> pbuf) : NM unit := fun st =>
  b ← pbufs st !! p; Some (tt, set_pbufs (<[p := f b]> (pbufs st)) st).

(** [memp_malloc] of a structure that is a record of a map of its own: the next answer
    of the heap, the null pointer when it has none left. *)
Definition memp_malloc : NM Z := fun st =>
  match mallocs st with
  | Some p :: r => Some (p, set_mallocs r st)
  | None :: r => Some (NULL, set_mallocs r st)
  | [] => Some (NULL, st)
  end.

(** [mem_malloc (size)]: the block that is given has the size that was asked for. *)
Definition mem_malloc (size : Z) : NM Z :=
  p ← memp_malloc;
  swhen (negb (p =? NULL)) (supd (fun st => set_blocks (<[p := size]> (blocks st)) st)) ;;
  mret p.

Definition mem_free (p : Z) : NM unit := fun st =>
  _ ← pbufs st !! p; Some (tt, set_pbufs (delete p (pbufs st)) st).

(** The structure at [p] comes into being. *)
Definition newp (p : Z) (b : pbuf) : NM unit := fun st =>
  Some (tt, set_pbufs (<[p := b]> (pbufs st)) st).

Definition MEMCPY (dst src n : Z) : NM unit := fun st =>
  bs ← read_bytes (ram st) src (Z.to_nat n);
  m ← write_bytes (ram st) dst bs;
  Some (tt, set_ram m st).

Definition load8 (a : Z) : NM Z := fun st => (fun b => (b, st)) <$> ram st !! a.

Definition chain_bound : NM nat := sget chain_fuel.

(** ** Constants and alignment *)

Definition PBUF_LINK_HLEN : Z := 16.
Definition PBUF_IP_HLEN : Z := 20.
Definition PBUF_TRANSPORT_HLEN : Z := 20.
Definition TCP_MSS : Z := 1460.
Definition MEM_ALIGNMENT : Z := 4.
Definition LWIP_MEM_ALIGN_SIZE (size : Z) : Z := u32 (size + MEM_ALIGNMENT - 1) &~ (MEM_ALIGNMENT - 1).
Definition LWIP_MEM_ALIGN (addr : Z) : Z := u32 (addr + MEM_ALIGNMENT - 1) &~ (MEM_ALIGNMENT - 1).
Definition SIZEOF_STRUCT_PBUF : Z := LWIP_MEM_ALIGN_SIZE 16.
Definition PBUF_POOL_BUFSIZE : Z := LWIP_MEM_ALIGN_SIZE (TCP_MSS + 40 + PBUF_LINK_HLEN).
Definition PBUF_POOL_BUFSIZE_ALIGNED : Z := LWIP_MEM_ALIGN_SIZE PBUF_POOL_BUFSIZE.

(** The elements of the pools of include/lwip/memp_std.h that hold packet buffers. *)
Definition MEMP_PBUF_SIZE : Z := SIZEOF_STRUCT_PBUF + LWIP_MEM_ALIGN_SIZE 0.
Definition MEMP_PBUF_POOL_SIZE : Z := SIZEOF_STRUCT_PBUF + LWIP_MEM_ALIGN_SIZE PBUF_POOL_BUFSIZE.

Definition ERR_OK : Z := 0.
Definition ERR_VAL : Z := -6.
Definition ERR_ARG : Z := -14.

(** ** Reference counts *)

(** [while (p != NULL) { ... }] of [pbuf_free], with [count]. *)
Fixpoint free_loop (fuel : nat) (p count : Z) : NM Z :=
  match fuel with
  | O => fun _ => None
  | S fuel =>
      if p =? NULL then mret count
      else
        b ← getp p;
        lassert (0 <? pb_ref b) ;;
        let ref := u16 (pb_ref b - 1) in
        updp p (set_pb_ref ref) ;;
        if ref =? 0 then
          let q := pb_next b in
          mem_free p ;;
          free_loop fuel q (u8 (count + 1))
        else mret count
  end.

Definition pbuf_free (p : Z) : NM Z :=
  lassert (negb (p =? NULL)) ;;
  n ← chain_bound;
  free_loop n p 0.

Definition pbuf_ref (p : Z) : NM unit :=
  if p =? NULL then mret tt
  else b ← getp p; updp p (set_pb_ref (u16 (pb_ref b + 1))).

(** ** Allocation *)

(** [pbuf_pool_is_empty]: one call of [pbuf_free_ooseq] is posted to the
    TCP/IP thread, unless one is waiting. *)
Definition pbuf_pool_is_empty : NM unit := fun st =>
  let queued := pbuf_free_ooseq_pending st in
  if truthy queued then Some (tt, set_ooseq 1 (tcpip_posts st) (ooseq_calls st) st)
  else
    match tcpip_posts st with
    | true :: r => Some (tt, set_ooseq 1 r (ooseq_calls st + 1) st)
    | _ :: r => Some (tt, set_ooseq 0 r (ooseq_calls st) st)
    | [] => Some (tt, set_ooseq 0 [] (ooseq_calls st) st)
    end.

Definition layer_offset (layer : pbuf_layer) : Z :=
  match layer with
  | PBUF_TRANSPORT => PBUF_LINK_HLEN + PBUF_IP_HLEN + PBUF_TRANSPORT_HLEN
  | PBUF_IP => PBUF_LINK_HLEN + PBUF_IP_HLEN
  | PBUF_LINK => PBUF_LINK_HLEN
  | PBUF_RAW => 0
  end.

(** The loop that allocates the tail of a pool chain; [false] is the exit
    [return NULL]. *)
Fixpoint alloc_tail (fuel : nat) (p r rem_len : Z) : NM bool :=
  match fuel with
  | O => fun _ => None
  | S fuel =>
      if 0 <? rem_len then
        q ← mem_malloc MEMP_PBUF_POOL_SIZE;
        if q =? NULL then
          pbuf_pool_is_empty ;;
          pbuf_free p ;;
          mret false
        else
          updp r (set_pb_next q) ;;
          lassert (rem_len <? 65535) ;;
          let len := Z.min (u16 rem_len) PBUF_POOL_BUFSIZE_ALIGNED in
          newp q (Pbuf NULL (q + SIZEOF_STRUCT_PBUF) (u16 rem_len) len PBUF_POOL 0 1) ;;
          lassert (Z.rem (q + SIZEOF_STRUCT_PBUF) MEM_ALIGNMENT =? 0) ;;
          b ← getp p;
          lassert (pb_payload b + pb_len b <=? p + SIZEOF_STRUCT_PBUF + PBUF_POOL_BUFSIZE_ALIGNED) ;;
          alloc_tail fuel p q (rem_len - len)
      else mret true
  end.

Definition alloc_pool (offset length : Z) : NM Z :=
  p ← mem_malloc MEMP_PBUF_POOL_SIZE;
  if p =? NULL then pbuf_pool_is_empty ;; mret NULL
  else
    let payload := LWIP_MEM_ALIGN (p + (SIZEOF_STRUCT_PBUF + offset)) in
    lassert (Z.rem payload MEM_ALIGNMENT =? 0) ;;
    let len := u16 (Z.min length (PBUF_POOL_BUFSIZE_ALIGNED - LWIP_MEM_ALIGN_SIZE offset)) in
    newp p (Pbuf NULL payload length len PBUF_POOL 0 1) ;;
    lassert (payload + len <=? p + SIZEOF_STRUCT_PBUF + PBUF_POOL_BUFSIZE_ALIGNED) ;;
    lassert (0 <? PBUF_POOL_BUFSIZE_ALIGNED - LWIP_MEM_ALIGN_SIZE offset) ;;
    let rem_len := length - len in
    ok ← alloc_tail (S (Z.to_nat rem_len)) p p rem_len;
    mret (if (ok : bool) then p else NULL).

Definition alloc_ram (offset length : Z) : NM Z :=
  p ← mem_malloc (LWIP_MEM_ALIGN_SIZE (SIZEOF_STRUCT_PBUF + offset) + LWIP_MEM_ALIGN_SIZE length);
  if p =? NULL then mret NULL
  else
    let payload := LWIP_MEM_ALIGN (p + SIZEOF_STRUCT_PBUF + offset) in
    newp p (Pbuf NULL payload length length PBUF_RAM 0 1) ;;
    lassert (Z.rem payload MEM_ALIGNMENT =? 0) ;;
    mret p.

Definition alloc_ref (length : Z) (type : pbuf_type) : NM Z :=
  p ← mem_malloc MEMP_PBUF_SIZE;
  if p =? NULL then mret NULL
  else newp p (Pbuf NULL NULL length length type 0 1) ;; mret p.

Definition pbuf_alloc (layer : pbuf_layer) (length : Z) (type : pbuf_type) : NM Z :=
  let offset := layer_offset layer in
  p ← match type with
      | PBUF_POOL => alloc_pool offset length
      | PBUF_RAM => alloc_ram offset length
      | PBUF_ROM | PBUF_REF => alloc_ref length type
      end;
  if p =? NULL then mret NULL
  else
    updp p (set_pb_ref 1) ;;
    updp p (set_pb_flags 0) ;;
    mret p.

(** ** Headers and lengths *)

Definition pbuf_header (p header_size_increment : Z) : NM Z :=
  lassert (negb (p =? NULL)) ;;
  if header_size_increment =? 0 then mret 0
  else
    b ← getp p;
    let increment_magnitude :=
      if header_size_increment <? 0 then u16 (- header_size_increment)
      else u16 header_size_increment in
    lassert (if header_size_increment <? 0 then increment_magnitude <=? pb_len b else true) ;;
    let finish :=
      updp p (fun b => set_pb_tot_len (u16 (pb_tot_len b + header_size_increment))
                         (set_pb_len (u16 (pb_len b + header_size_increment)) b)) ;;
      mret 0 in
    match pb_type b with
    | PBUF_RAM | PBUF_POOL =>
        let payload := pb_payload b - header_size_increment in
        if payload <? p + SIZEOF_STRUCT_PBUF then mret 1
        else updp p (set_pb_payload payload) ;; finish
    | PBUF_REF | PBUF_ROM =>
        if (header_size_increment <? 0) && (increment_magnitude <=? pb_len b) then
          updp p (set_pb_payload (pb_payload b - header_size_increment)) ;; finish
        else mret 1
    end.

(** The loop of [pbuf_realloc] that steps over the buffers that stay. *)
Fixpoint realloc_keep (fuel : nat) (q rem_len grow : Z) : NM (Z * Z) :=
  match fuel with
  | O => fun _ => None
  | S fuel =>
      b ← getp q;
      if pb_len b <? rem_len then
        lassert (grow <? 65535) ;;
        updp q (set_pb_tot_len (u16 (pb_tot_len b + u16 grow))) ;;
        lassert (negb (pb_next b =? NULL)) ;;
        realloc_keep fuel (pb_next b) (u16 (rem_len - pb_len b)) grow
      else mret (q, rem_len)
  end.

Definition pbuf_realloc (p new_len : Z) : NM unit :=
  lassert (negb (p =? NULL)) ;;
  b ← getp p;
  if pb_tot_len b <=? new_len then mret tt
  else
    let grow := new_len - pb_tot_len b in
    n ← chain_bound;
    '(q, rem_len) ← realloc_keep n p new_len grow;
    updp q (set_pb_len rem_len) ;;
    updp q (fun b => set_pb_tot_len (pb_len b) b) ;;
    b ← getp q;
    swhen (negb (pb_next b =? NULL)) (pbuf_free (pb_next b) ;; mret tt) ;;
    updp q (set_pb_next NULL).

(** ** Chains *)

Fixpoint clen_loop (fuel : nat) (p len : Z) : NM Z :=
  match fuel with
  | O => fun _ => None
  | S fuel =>
      if p =? NULL then mret len
      else b ← getp p; clen_loop fuel (pb_next b) (u8 (len + 1))
  end.

Definition pbuf_clen (p : Z) : NM Z := n ← chain_bound; clen_loop n p 0.

(** The loop of [pbuf_cat]; it gives the last buffer of the first chain. *)
Fixpoint cat_loop (fuel : nat) (p t : Z) : NM Z :=
  match fuel with
  | O => fun _ => None
  | S fuel =>
      b ← getp p;
      if pb_next b =? NULL then mret p
      else
        bt ← getp t;
        updp p (set_pb_tot_len (u16 (pb_tot_len b + pb_tot_len bt))) ;;
        cat_loop fuel (pb_next b) t
  end.

Definition pbuf_cat (h t : Z) : NM unit :=
  lassert (negb (h =? NULL) && negb (t =? NULL)) ;;
  n ← chain_bound;
  p ← cat_loop n h t;
  b ← getp p;
  lassert (pb_tot_len b =? pb_len b) ;;
  lassert (pb_next b =? NULL) ;;
  bt ← getp t;
  updp p (set_pb_tot_len (u16 (pb_tot_len b + pb_tot_len bt))) ;;
  updp p (set_pb_next t).

Definition pbuf_chain (h t : Z) : NM unit := pbuf_cat h t ;; pbuf_ref t.

Definition pbuf_dechain (p : Z) : NM Z :=
  b ← getp p;
  let q := pb_next b in
  tail_gone ←
    (if q =? NULL then mret 1
     else
       bq ← getp q;
       lassert (pb_tot_len bq =? pb_tot_len b - pb_len b) ;;
       updp q (set_pb_tot_len (u16 (pb_tot_len b - pb_len b))) ;;
       updp p (set_pb_next NULL) ;;
       updp p (fun b => set_pb_tot_len (pb_len b) b) ;;
       pbuf_free q);
  b ← getp p;
  lassert (pb_tot_len b =? pb_len b) ;;
  mret (if 0 <? tail_gone then NULL else q).

(** ** Copying *)

(** The [do ... while (p_from)] loop of [pbuf_copy]. *)
Fixpoint copy_loop (fuel : nat) (p_to p_from offset_to offset_from : Z) : NM Z :=
  match fuel with
  | O => fun _ => None
  | S fuel =>
      bt ← getp p_to;
      bf ← getp p_from;
      let len :=
        if pb_len bf - offset_from <=? pb_len bt - offset_to
        then u16 (pb_len bf - offset_from) else u16 (pb_len bt - offset_to) in
      MEMCPY (pb_payload bt + offset_to) (pb_payload bf + offset_from) len ;;
      let offset_to := u16 (offset_to + len) in
      let offset_from := u16 (offset_from + len) in
      lassert (offset_to <=? pb_len bt) ;;
      lassert (offset_from <=? pb_len bf) ;;
      let '(offset_from, p_from) :=
        if pb_len bf <=? offset_from then (0, pb_next bf) else (offset_from, p_from) in
      '(offset_to, p_to) ←
        (if offset_to =? pb_len bt then
           lassert (negb (pb_next bt =? NULL) || (p_from =? NULL)) ;; mret (0, pb_next bt)
         else mret (offset_to, p_to));
      swhen (negb (p_from =? NULL))
        (b ← getp p_from;
         swhen (pb_len b =? pb_tot_len b) (lassert (pb_next b =? NULL))) ;;
      swhen (negb (p_to =? NULL))
        (b ← getp p_to;
         swhen (pb_len b =? pb_tot_len b) (lassert (pb_next b =? NULL))) ;;
      if p_from =? NULL then mret ERR_OK
      else copy_loop fuel p_to p_from offset_to offset_from
  end.

Definition pbuf_copy (p_to p_from : Z) : NM Z :=
  lassert (negb (p_to =? NULL) && negb (p_from =? NULL)) ;;
  bt ← getp p_to;
  bf ← getp p_from;
  lassert (pb_tot_len bf <=? pb_tot_len bt) ;;
  n ← chain_bound;
  copy_loop (2 * n) p_to p_from 0 0.

(** The loop of [pbuf_copy_partial]; it gives [copied_total]. *)
Fixpoint copy_partial_loop (fuel : nat) (p dataptr left len offset copied_total : Z) : NM Z :=
  match fuel with
  | O => fun _ => None
  | S fuel =>
      if (len =? 0) || (p =? NULL) then mret copied_total
      else
        b ← getp p;
        if negb (offset =? 0) && (pb_len b <=? offset) then
          copy_partial_loop fuel (pb_next b) dataptr left len (u16 (offset - pb_len b)) copied_total
        else
          let buf_copy_len := u16 (pb_len b - offset) in
          let buf_copy_len := if len <? buf_copy_len then len else buf_copy_len in
          MEMCPY (dataptr + left) (pb_payload b + offset) buf_copy_len ;;
          copy_partial_loop fuel (pb_next b) dataptr (u16 (left + buf_copy_len))
            (u16 (len - buf_copy_len)) 0 (u16 (copied_total + buf_copy_len))
  end.

Definition pbuf_copy_partial (buf dataptr len offset : Z) : NM Z :=
  lassert (negb (buf =? NULL)) ;;
  lassert (negb (dataptr =? NULL)) ;;
  n ← chain_bound;
  copy_partial_loop n buf dataptr 0 len offset 0.

(** The loop of [pbuf_take]; it gives [copied_total]. *)
Fixpoint take_loop (fuel : nat) (p dataptr total_copy_len copied_total : Z) : NM Z :=
  match fuel with
  | O => fun _ => None
  | S fuel =>
      if total_copy_len =? 0 then mret copied_total
      else
        lassert (negb (p =? NULL)) ;;
        b ← getp p;
        let buf_copy_len := if pb_len b <? total_copy_len then pb_len b else total_copy_len in
        MEMCPY (pb_payload b) (dataptr + copied_total) buf_copy_len ;;
        take_loop fuel (pb_next b) dataptr (u16 (total_copy_len - buf_copy_len))
          (u16 (copied_total + buf_copy_len))
  end.

Definition pbuf_take (buf dataptr len : Z) : NM Z :=
  lassert (negb (buf =? NULL)) ;;
  lassert (negb (dataptr =? NULL)) ;;
  b ← getp buf;
  if pb_tot_len b <? len then mret ERR_ARG
  else
    n ← chain_bound;
    copied_total ← take_loop n buf dataptr len 0;
    lassert (copied_total =? len) ;;
    mret ERR_OK.

Definition pbuf_coalesce (p : Z) (layer : pbuf_layer) : NM Z :=
  b ← getp p;
  if pb_next b =? NULL then mret p
  else
    q ← pbuf_alloc layer (pb_tot_len b) PBUF_RAM;
    if q =? NULL then mret p
    else
      err ← pbuf_copy q p;
      lassert (err =? ERR_OK) ;;
      pbuf_free p ;;
      mret q.

(** ** Searching *)

(** The [while] loop of [pbuf_get_at] and [pbuf_memcmp]: the buffer of an offset
    and the offset in it. *)
Fixpoint locate (fuel : nat) (q copy_from : Z) : NM (Z * Z) :=
  match fuel with
  | O => fun _ => None
  | S fuel =>
      if q =? NULL then mret (q, copy_from)
      else
        b ← getp q;
        if pb_len b <=? copy_from then locate fuel (pb_next b) (u16 (copy_from - pb_len b))
        else mret (q, copy_from)
  end.

Definition pbuf_get_at (p offset : Z) : NM Z :=
  n ← chain_bound;
  '(q, copy_from) ← locate n p offset;
  if q =? NULL then mret 0
  else b ← getp q; load8 (pb_payload b + copy_from).

(** [for (i = 0; i < n; i++)] of [pbuf_memcmp]. *)
Fixpoint memcmp_loop (fuel : nat) (q start s2 n i : Z) : NM Z :=
  match fuel with
  | O => fun _ => None
  | S fuel =>
      if i <? n then
        a ← pbuf_get_at q (u16 (start + i));
        b ← load8 (s2 + i);
        if negb (a =? b) then mret (u16 (i + 1)) else memcmp_loop fuel q start s2 n (u16 (i + 1))
      else mret 0
  end.

Definition pbuf_memcmp (p offset s2 n : Z) : NM Z :=
  f ← chain_bound;
  '(q, start) ← locate f p offset;
  if q =? NULL then mret 65535
  else memcmp_loop (S (Z.to_nat n)) q start s2 n 0.

(** [for (i = start_offset; i <= max; )] of [pbuf_memfind]. *)
Fixpoint memfind_loop (fuel : nat) (p mem mem_len max i : Z) : NM Z :=
  match fuel with
  | O => fun _ => None
  | S fuel =>
      if i <=? max then
        plus ← pbuf_memcmp p i mem mem_len;
        if plus =? 0 then mret i else memfind_loop fuel p mem mem_len max (u16 (i + plus))
      else mret 65535
  end.

Definition pbuf_memfind (p mem mem_len start_offset : Z) : NM Z :=
  b ← getp p;
  let max := u16 (pb_tot_len b - mem_len) in
  if mem_len + start_offset <=? pb_tot_len b
  then memfind_loop (Z.to_nat 65537) p mem mem_len max start_offset
  else mret 65535.

(** [strlen] of the text at [a]. *)
Fixpoint strlen (fuel : nat) (a : Z) : NM Z :=
  match fuel with
  | O => fun _ => None
  | S fuel => c ← load8 a; if c =? 0 then mret 0 else n ← strlen fuel (a + 1); mret (n + 1)
  end.

Definition pbuf_strstr (p substr : Z) : NM Z :=
  if substr =? NULL then mret 65535
  else
    c ← load8 substr;
    b ← getp p;
    if (c =? 0) || (pb_tot_len b =? 65535) then mret 65535
    else
      f ← sget (fun st => S (size (ram st)));
      substr_len ← strlen f substr;
      if 65535 <=? substr_len then mret 65535
      else pbuf_memfind p substr (u16 substr_len) 0.

(** ** Running the operations *)

Section Run.
Context {A : Type}.
Implicit Types (f : unit -> NM A) (st : netmem).

Lemma bind_lassert b f st : b = true -> (lassert b ≫= f) st = f tt st.
Proof. by intros ->. Qed.

Lemma bind_getp p b (f : pbuf -> NM A) st :
  pbufs st !! p = Some b -> (getp p ≫= f) st = f b st.
Proof. intros H. unfold mbind, ST_bind, getp. by rewrite H. Qed.

Lemma bind_updp p b g f st :
  pbufs st !! p = Some b ->
  (updp p g ≫= f) st = f tt (set_pbufs (<[p := g b]> (pbufs st)) st).
Proof. intros H. unfold mbind, ST_bind, updp. by rewrite H. Qed.

Lemma bind_mem_free p f st :
  is_Some (pbufs st !! p) ->
  (mem_free p ≫= f) st = f tt (set_pbufs (delete p (pbufs st)) st).
Proof. intros [b H]. unfold mbind, ST_bind, mem_free. by rewrite H. Qed.

Lemma bind_mret {B} (a : B) (f : B -> NM A) st : ((mret a : NM B) ≫= f) st = f a st.
Proof. done. Qed.

Lemma bind_malloc_Some q ms size (f : Z -> NM A) st :
  mallocs st = Some q :: ms -> q <> NULL ->
  (mem_malloc size ≫= f) st = f q (set_blocks (<[q := size]> (blocks st)) (set_mallocs ms st)).
Proof.
  intros E Hq%Z.eqb_neq. unfold mem_malloc, memp_malloc, mbind, ST_bind. rewrite E. cbv beta iota. by rewrite Hq.
Qed.

Lemma bind_malloc_NULL ms size (f : Z -> NM A) st :
  mallocs st = None :: ms -> (mem_malloc size ≫= f) st = f NULL (set_mallocs ms st).
Proof. intros E. unfold mem_malloc, memp_malloc, mbind, ST_bind. by rewrite E. Qed.

Lemma bind_malloc_nil size (f : Z -> NM A) st :
  mallocs st = [] -> (mem_malloc size ≫= f) st = f NULL st.
Proof. intros E. unfold mem_malloc, memp_malloc, mbind, ST_bind. by rewrite E. Qed.

Lemma bind_newp p b f st : (newp p b ≫= f) st = f tt (set_pbufs (<[p := b]> (pbufs st)) st).
Proof. done. Qed.

Lemma bind_chain_bound (f : nat -> NM A) st : (chain_bound ≫= f) st = f (chain_fuel st) st.
Proof. done. Qed.

Lemma bind_MEMCPY dst src n bs m f st :
  read_bytes (ram st) src (Z.to_nat n) = Some bs -> write_bytes (ram st) dst bs = Some m ->
  (MEMCPY dst src n ≫= f) st = f tt (set_ram m st).
Proof. intros H1 H2. unfold mbind, ST_bind, MEMCPY. rewrite H1. simpl. by rewrite H2. Qed.
End Run.

Lemma updp_Some p b g st :
  pbufs st !! p = Some b -> updp p g st = Some (tt, set_pbufs (<[p := g b]> (pbufs st)) st).
Proof. intros H. unfold updp. by rewrite H. Qed.

Lemma set_pbufs_id st : set_pbufs (pbufs st) st = st.
Proof. by destruct st. Qed.

Lemma set_pbufs_pbufs x y st : set_pbufs x (set_pbufs y st) = set_pbufs x st.
Proof. done. Qed.

(** ** Chains under updates *)

Lemma pchain_insert bs q l a b : a ∉ l.*1 -> pchain bs q l -> pchain (<[a := b]> bs) q l.
Proof.
  revert q. induction l as [|[a' b'] l IH]; intros q; simpl; [done|].
  intros [Ha Hl]%not_elem_of_cons (-> & Hn & Hb & Hc).
  split_and!; [done|done| |by apply IH]. by rewrite lookup_insert_ne.
Qed.

Lemma pchain_delete bs q l a : a ∉ l.*1 -> pchain bs q l -> pchain (delete a bs) q l.
Proof.
  revert q. induction l as [|[a' b'] l IH]; intros q; simpl; [done|].
  intros [Ha Hl]%not_elem_of_cons (-> & Hn & Hb & Hc).
  split_and!; [done|done| |by apply IH]. by rewrite lookup_delete_ne.
Qed.

(** Only the chain itself matters. *)
Lemma pchain_agree bs bs' q l :
  pchain bs q l -> (forall a b, (a, b) ∈ l -> bs' !! a = Some b) -> pchain bs' q l.
Proof.
  revert q. induction l as [|[a b] l IH]; intros q; simpl; [done|].
  intros (-> & Hn & Hb & Hc) H. split_and!; [done|done|apply H; left|].
  apply IH; [done|]. intros a' b' Hin. apply H. by right.
Qed.

Lemma chain_fuel_length st q l : pchain (pbufs st) q l -> (length l < chain_fuel st)%nat.
Proof. intros H%pchain_size. unfold chain_fuel. lia. Qed.
