(* ===== verification/PbufRef.v ===== *)
(** * Reference counts of packet buffers

    include/lwip/pbuf.h says of the field [ref]: "the reference count always
    equals the number of pointers that refer to this pbuf", from the
    application, the stack, or [next] of another buffer.  Here this is an
    invariant [refs_ok], with the pointers of the application and the stack as
    a list [owners]; the operations of Pbuf that change references keep it. *)

From S2P Require Import Prelude StateM LwipMem Chksum Pbuf.

(** How many buffers have [p] as their [next]. *)
Definition nexts (p : Z) (bs : gmap Z pbuf) : nat :=
  size (filter (fun ab => pb_next ab.2 = p) bs).

Definition refs (owners : list Z) (bs : gmap Z pbuf) (p : Z) : Z :=
  Z.of_nat (count_occ Z.eq_dec owners p) + Z.of_nat (nexts p bs).

Record refs_ok (owners : list Z) (bs : gmap Z pbuf) : Prop := {
  ro_null : bs !! NULL = None;
  ro_ref p b : bs !! p = Some b -> pb_ref b = refs owners bs p /\ 0 < pb_ref b < 65536;
  ro_owner p : p ∈ owners -> is_Some (bs !! p);
  ro_chain p b : bs !! p = Some b -> exists l, pchain bs (pb_next b) l;
}.

(** ** Counting *)

Lemma nexts_insert_None p q b bs :
  bs !! q = None ->
  nexts p (<[q := b]> bs) = (nexts p bs + if decide (pb_next b = p) then 1 else 0)%nat.
Proof.
  intros H. unfold nexts. destruct (decide (pb_next b = p)).
  - rewrite map_filter_insert_True by done. rewrite map_size_insert_None; [lia|].
    by apply map_lookup_filter_None_2; left.
  - rewrite map_filter_insert_False by done. rewrite delete_id by done. lia.
Qed.

Lemma nexts_delete p q b bs :
  bs !! q = Some b ->
  nexts p bs = (nexts p (delete q bs) + if decide (pb_next b = p) then 1 else 0)%nat.
Proof.
  intros H. rewrite <-(insert_delete_id bs q b H) at 1. apply nexts_insert_None, lookup_delete_eq.
Qed.

Lemma nexts_insert p q b b' bs :
  bs !! q = Some b ->
  (nexts p (<[q := b']> bs) + (if decide (pb_next b = p) then 1 else 0) =
   nexts p bs + if decide (pb_next b' = p) then 1 else 0)%nat.
Proof.
  intros H. rewrite (nexts_delete p q b bs H).
  rewrite <-insert_delete_eq, nexts_insert_None by apply lookup_delete_eq. lia.
Qed.

Lemma nexts_insert_same p q b b' bs :
  bs !! q = Some b -> pb_next b' = pb_next b -> nexts p (<[q := b']> bs) = nexts p bs.
Proof. intros H E. pose proof (nexts_insert p q b b' bs H) as H'. rewrite E in H'. lia. Qed.

Lemma nexts_pos p q b bs : bs !! q = Some b -> pb_next b = p -> (0 < nexts p bs)%nat.
Proof. intros H E. rewrite (nexts_delete p q b bs H), decide_True by done. lia. Qed.

(** A buffer inside a chain is its head or the [next] of another one. *)
Lemma pchain_pred bs q l p :
  pchain bs q l -> p ∈ l.*1 -> p = q \/ (0 < nexts p bs)%nat.
Proof.
  revert q. induction l as [|[a b] l IH]; intros q; simpl; [by intros _ ?%not_elem_of_nil|].
  intros (-> & Hn & Hb & Hc) [->|Hin]%elem_of_cons; [by left|]. right.
  destruct (IH _ Hc Hin) as [->|]; [|done]. by eapply nexts_pos.
Qed.

(** A change that leaves [next] alone leaves the chains. *)
Lemma pchain_upd bs q l p b b' :
  bs !! p = Some b -> pb_next b' = pb_next b -> pchain bs q l ->
  exists l', pchain (<[p := b']> bs) q l' /\ l'.*1 = l.*1.
Proof.
  intros Hp E. revert q. induction l as [|[a c] l IH]; intros q; simpl.
  - intros ->. by exists [].
  - intros (-> & Hn & Hb & Hc). destruct (IH _ Hc) as (l' & Hl' & El).
    destruct (decide (a = p)) as [->|Hne].
    + rewrite Hp in Hb. injection Hb as <-. exists ((p, b') :: l').
      split; [|csimpl; by rewrite El]. simpl. by rewrite lookup_insert_eq, E.
    + exists ((a, c) :: l').
      split; [|csimpl; by rewrite El]. simpl. by rewrite lookup_insert_ne.
Qed.

Lemma refs_cons owners bs p a :
  refs (p :: owners) bs a = refs owners bs a + (if decide (p = a) then 1 else 0).
Proof. unfold refs. simpl. repeat case_match; try done; lia. Qed.

Lemma count_zero (owners : list Z) p : p ∉ owners -> count_occ Z.eq_dec owners p = 0%nat.
Proof. intros H. apply count_occ_not_In. by rewrite <-list_elem_of_In. Qed.

Lemma count_pos (owners : list Z) p : p ∈ owners -> (0 < count_occ Z.eq_dec owners p)%nat.
Proof. intros H. apply count_occ_In. by rewrite <-list_elem_of_In. Qed.

Lemma refs_ok_ne owners bs p b : refs_ok owners bs -> bs !! p = Some b -> p <> NULL.
Proof. intros H Hp ->. rewrite (ro_null _ _ H) in Hp. done. Qed.

(** A change of one buffer that leaves [next], with a change of the owners that
    matches the one of [ref]. *)
Lemma refs_ok_upd owners owners' bs p b b' :
  refs_ok owners bs -> bs !! p = Some b -> pb_next b' = pb_next b -> 0 < pb_ref b' < 65536 ->
  pb_ref b' - pb_ref b = refs owners' bs p - refs owners bs p ->
  (forall a, a <> p -> refs owners' bs a = refs owners bs a) ->
  (forall a, a ∈ owners' -> is_Some (bs !! a)) ->
  refs_ok owners' (<[p := b']> bs).
Proof.
  intros H Hp En Hr Hd Ho Hs. constructor.
  - rewrite lookup_insert_ne; [by apply H|]. by eapply refs_ok_ne.
  - intros a c. unfold refs. rewrite (nexts_insert_same a p b) by done. fold (refs owners' bs a).
    destruct (decide (a = p)) as [->|Hne].
    + rewrite lookup_insert_eq. intros [= <-]. simpl. pose proof (ro_ref _ _ H _ _ Hp). lia.
    + rewrite lookup_insert_ne by done. intros Hc. rewrite Ho by done. by apply (ro_ref _ _ H).
  - intros a Ha. destruct (decide (a = p)) as [->|]; [rewrite lookup_insert_eq; eauto|].
    rewrite lookup_insert_ne by done. by apply Hs.
  - intros a c Hc. assert (exists c0, bs !! a = Some c0 /\ pb_next c = pb_next c0) as (c0 & Hc0 & ->).
    { destruct (decide (a = p)) as [->|].
      - rewrite lookup_insert_eq in Hc. injection Hc as <-. eauto.
      - rewrite lookup_insert_ne in Hc by done. eauto. }
    destruct (ro_chain _ _ H _ _ Hc0) as [l Hl].
    destruct (pchain_upd _ _ _ p b b' Hp En Hl) as (l' & ? & _). eauto.
Qed.

(** A change of the fields other than [next] and [ref]. *)
Lemma refs_ok_modify owners bs p b b' :
  refs_ok owners bs -> bs !! p = Some b -> pb_next b' = pb_next b -> pb_ref b' = pb_ref b ->
  refs_ok owners (<[p := b']> bs).
Proof.
  intros H Hp En Er. apply (refs_ok_upd owners owners bs p b); try done.
  - rewrite Er. by eapply (ro_ref _ _ H p b Hp).
  - lia.
  - by apply H.
Qed.

(** ** pbuf_free *)

(** The reference that the loop holds: none when it has reached the end. *)
Definition with_head (p : Z) (owners : list Z) : list Z := if p =? NULL then owners else p :: owners.

Lemma refs_with_head owners bs p a :
  a <> NULL -> refs (with_head p owners) bs a = refs owners bs a + (if decide (p = a) then 1 else 0).
Proof.
  intros Ha. unfold with_head. destruct (Z.eqb_spec p NULL) as [->|]; [|apply refs_cons].
  rewrite decide_False by done. lia.
Qed.

(** The last reference goes: the buffer is freed and its [next] becomes the
    reference that the loop holds. *)
Lemma refs_ok_delete owners bs p b :
  refs_ok (p :: owners) bs -> bs !! p = Some b -> pb_ref b = 1 ->
  refs_ok (with_head (pb_next b) owners) (delete p bs).
Proof.
  intros H Hp Hr. pose proof (refs_ok_ne _ _ _ _ H Hp) as Hnull.
  destruct (ro_ref _ _ H _ _ Hp) as [E _]. rewrite refs_cons, decide_True in E by done.
  unfold refs in E. assert (nexts p bs = 0)%nat as Hn0 by lia.
  assert (p ∉ owners) as Hno by (intros ?%count_pos; lia).
  assert (forall q l, q <> p -> pchain bs q l -> pchain (delete p bs) q l) as Hch.
  { intros q l Hq Hl. apply pchain_delete; [|done]. intros Hin.
    destruct (pchain_pred _ _ _ _ Hl Hin); [congruence|lia]. }
  assert (forall a c, bs !! a = Some c -> pb_next c <> p) as Hnx.
  { intros a c Hc Ec. pose proof (nexts_pos _ _ _ _ Hc Ec). lia. }
  constructor.
  - rewrite lookup_delete_ne by done. apply H.
  - intros a c [Hne Hc]%lookup_delete_Some. destruct (ro_ref _ _ H _ _ Hc) as [Ec Rc].
    split; [|done]. rewrite Ec, refs_with_head, refs_cons by by eapply refs_ok_ne.
    rewrite (decide_False (P := p = a)) by done. unfold refs. rewrite (nexts_delete a p b) by done.
    destruct (decide (pb_next b = a)); lia.
  - intros a Ha. assert (a = pb_next b /\ pb_next b <> NULL \/ a ∈ owners) as [[-> Hb]|Ho].
    { unfold with_head in Ha. destruct (Z.eqb_spec (pb_next b) NULL); [by right|].
      apply elem_of_cons in Ha as [->|]; auto. }
    + destruct (ro_chain _ _ H _ _ Hp) as [[|[a c] l] Hl]; simpl in Hl; [done|].
      destruct Hl as (Eq & _ & Hc & _). exists c. rewrite Eq, lookup_delete_ne; [done|].
      intros Ep. apply (Hnx p b Hp). congruence.
    + rewrite lookup_delete_ne by congruence. apply (ro_owner _ _ H). by right.
  - intros a c [Hne Hc]%lookup_delete_Some. destruct (ro_chain _ _ H _ _ Hc) as [l Hl].
    exists l. apply Hch; [|done]. by eapply Hnx.
Qed.

(** What freeing leaves: the same buffers but for their counts. *)
Definition refs_only (bs bs' : gmap Z pbuf) : Prop :=
  forall a b', bs' !! a = Some b' -> exists b, bs !! a = Some b /\ b' = set_pb_ref (pb_ref b') b.

#[export] Instance refs_only_trans : Transitive refs_only.
Proof.
  intros x y z H1 H2 a b' Hb'. destruct (H2 _ _ Hb') as (b & Hb & E).
  destruct (H1 _ _ Hb) as (b0 & Hb0 & E0). exists b0. split; [done|]. rewrite E, E0. done.
Qed.

Lemma free_loop_refs fuel : forall l st p owners count,
  pchain (pbufs st) p l -> (length l < fuel)%nat ->
  refs_ok (with_head p owners) (pbufs st) ->
  exists n bs, free_loop fuel p count st = Some (n, set_pbufs bs st) /\
    refs_ok owners bs /\ refs_only (pbufs st) bs.
Proof.
  induction fuel as [|fuel IH]; intros l st p owners count Hc Hf H; [lia|].
  simpl free_loop. unfold with_head in H. destruct (Z.eqb_spec p NULL) as [->|Hp].
  - exists count, (pbufs st). rewrite set_pbufs_id. split_and!; [done|done|].
    intros a b' Hb'. exists b'. by destruct b'.
  - destruct l as [|[a b] l]; [done|]. destruct Hc as (<- & _ & Hb & Hc).
    destruct (ro_ref _ _ H _ _ Hb) as [E R]. rewrite refs_cons, decide_True in E by done.
    rewrite (bind_getp _ _ _ _ Hb), bind_lassert by (apply Z.ltb_lt; lia).
    rewrite (bind_updp _ _ _ _ _ Hb). rewrite wrap_small by (unfold in_u; lia).
    destruct (Z.eqb_spec (pb_ref b - 1) 0) as [E1|E1].
    + rewrite bind_mem_free by (simpl; rewrite lookup_insert_eq; eauto). simpl pbufs.
      rewrite set_pbufs_pbufs, delete_insert_eq.
      destruct (IH l (set_pbufs (delete p (pbufs st)) st) (pb_next b) owners (u8 (count + 1)))
        as (n & bs & En & Ho & Hr).
      * apply pchain_delete; [|done]. pose proof (pchain_NoDup (pbufs st) p ((p, b) :: l)) as Hnd.
        simpl in Hnd. specialize (Hnd (conj eq_refl (conj Hp (conj Hb Hc)))).
        by inversion Hnd.
      * simpl in Hf. lia.
      * apply refs_ok_delete; [done|done|lia].
      * exists n, bs. rewrite En. split_and!; [done|done|]. etrans; [|done].
        intros x y Hy. simpl in Hy. apply lookup_delete_Some in Hy as [_ Hy]. exists y. by destruct y.
    + eexists _, _. split; [done|]. split.
      * apply (refs_ok_upd (p :: owners) owners _ p b); [done|done|done|simpl; lia| | |].
        -- rewrite refs_cons, decide_True by done. simpl. lia.
        -- intros a Ha. rewrite refs_cons, decide_False by done. lia.
        -- intros a Ha. apply (ro_owner _ _ H). by right.
      * intros a c. destruct (decide (a = p)) as [->|].
        -- rewrite lookup_insert_eq. intros [= <-]. eauto.
        -- rewrite lookup_insert_ne by done. intros Hx. exists c. by destruct c.
Qed.

Lemma pbuf_free_refs st p owners :
  refs_ok (p :: owners) (pbufs st) ->
  exists n bs, pbuf_free p st = Some (n, set_pbufs bs st) /\
    refs_ok owners bs /\ refs_only (pbufs st) bs.
Proof.
  intros H. destruct (ro_owner _ _ H p) as [b Hb]; [by left|].
  pose proof (refs_ok_ne _ _ _ _ H Hb) as Hn. destruct (ro_chain _ _ H _ _ Hb) as [l Hl].
  unfold pbuf_free. rewrite bind_lassert by (apply negb_true_iff; by apply Z.eqb_neq).
  rewrite bind_chain_bound.
  assert (pchain (pbufs st) p ((p, b) :: l)) as Hc by done.
  apply (free_loop_refs _ ((p, b) :: l)); [done|by eapply chain_fuel_length|].
  unfold with_head. destruct (Z.eqb_spec p NULL); [done|done].
Qed.

Lemma pbuf_ref_refs st p owners b :
  refs_ok owners (pbufs st) -> pbufs st !! p = Some b -> pb_ref b < 65535 ->
  exists bs, pbuf_ref p st = Some (tt, set_pbufs bs st) /\
    refs_ok (p :: owners) bs /\ refs_only (pbufs st) bs.
Proof.
  intros H Hb Hr. pose proof (refs_ok_ne _ _ _ _ H Hb) as Hn.
  destruct (ro_ref _ _ H _ _ Hb) as [E R].
  unfold pbuf_ref. destruct (Z.eqb_spec p NULL); [done|].
  rewrite (bind_getp _ _ _ _ Hb), (updp_Some _ _ _ _ Hb).
  rewrite wrap_small by (unfold in_u; lia). eexists. split; [done|]. split.
  - apply (refs_ok_upd owners _ _ p b); [done|done|done|simpl; lia| | |].
    + rewrite refs_cons, decide_True by done. simpl. lia.
    + intros a Ha. rewrite refs_cons, decide_False by done. lia.
    + intros a [->|Ha]%elem_of_cons; [eauto|by apply (ro_owner _ _ H)].
  - intros a c. destruct (decide (a = p)) as [->|].
    + rewrite lookup_insert_eq. intros [= <-]. eauto.
    + rewrite lookup_insert_ne by done. intros Hx. exists c. by destruct c.
Qed.

(** ** pbuf_cat, pbuf_chain *)

(** The changes of [pbuf_cat] before it links: [tot_len] only. *)
Definition tots_only (bs bs' : gmap Z pbuf) : Prop :=
  forall a b', bs' !! a = Some b' ->
    exists b, bs !! a = Some b /\ b' = set_pb_tot_len (pb_tot_len b') b /\
      (pb_next b = NULL -> b' = b).

Lemma cat_loop_refs fuel : forall l st p t owners,
  pchain (pbufs st) p l -> l <> [] -> (length l < fuel)%nat ->
  refs_ok owners (pbufs st) -> is_Some (pbufs st !! t) ->
  exists e b bs, cat_loop fuel p t st = Some (e, set_pbufs bs st) /\ refs_ok owners bs /\
    e ∈ l.*1 /\ pbufs st !! e = Some b /\ bs !! e = Some b /\ pb_next b = NULL /\
    (forall q lq, pchain (pbufs st) q lq -> exists lq', pchain bs q lq' /\ lq'.*1 = lq.*1) /\
    dom bs = dom (pbufs st) /\ tots_only (pbufs st) bs.
Proof.
  induction fuel as [|fuel IH]; intros l st p t owners Hc Hne Hf H [bt Ht]; [lia|].
  destruct l as [|[a b] l]; [done|]. pose proof (pchain_NoDup _ _ _ Hc) as Hnd.
  destruct Hc as (<- & Hn & Hb & Hc). simpl cat_loop. rewrite (bind_getp _ _ _ _ Hb).
  destruct (Z.eqb_spec (pb_next b) NULL) as [E|E].
  - exists p, b, (pbufs st). rewrite set_pbufs_id. csimpl.
    split_and!; [done|done|by left|done|done|done|eauto|done|].
    intros x y Hy. exists y. by destruct y.
  - destruct l as [|[a' b1] l]; [done|]. rewrite (bind_getp _ _ _ _ Ht), (bind_updp _ _ _ _ _ Hb).
    set (b' := set_pb_tot_len _ b).
    apply NoDup_cons in Hnd as [Hni Hnd].
    assert (refs_ok owners (<[p := b']> (pbufs st))) as H' by by apply (refs_ok_modify _ _ p b).
    destruct (IH ((a', b1) :: l) (set_pbufs (<[p := b']> (pbufs st)) st) (pb_next b) t owners)
      as (e & be & bs & Ee & Ho & Hin & He & He' & Hen & Hch & Hd & Ht').
    + apply pchain_insert; [done|done].
    + done.
    + simpl in *. lia.
    + done.
    + simpl. destruct (decide (t = p)) as [->|]; [rewrite lookup_insert_eq; eauto|].
      rewrite lookup_insert_ne by done. eauto.
    + exists e, be, bs. simpl in *. rewrite Ee.
      assert (e <> p) as Hep by (intros ->; done). rewrite lookup_insert_ne in He by done.
      split_and!; [done|done| |done|done|done| | |].
      * csimpl. by right.
      * intros q lq Hq. destruct (pchain_upd _ _ _ p b b' Hb eq_refl Hq) as (lq1 & Hq1 & E1).
        destruct (Hch _ _ Hq1) as (lq2 & Hq2 & E2). exists lq2. by rewrite E2.
      * rewrite Hd, dom_insert_L. apply elem_of_dom_2 in Hb. set_solver.
      * intros x y Hy. destruct (Ht' _ _ Hy) as (z & Hz & Ey). destruct (decide (x = p)) as [->|].
        -- rewrite lookup_insert_eq in Hz. injection Hz as <-. exists b. split; [done|].
           destruct Ey as [Ey _]. rewrite Ey. done.
        -- rewrite lookup_insert_ne in Hz by done. eauto.
Qed.

(** A chain that ends at [p] goes on with the chain of [t]. *)
Lemma pchain_link bs q l p b b' t lt :
  bs !! p = Some b -> pb_next b = NULL -> pb_next b' = t ->
  pchain bs t lt -> p ∉ lt.*1 -> pchain bs q l ->
  exists l', pchain (<[p := b']> bs) q l'.
Proof.
  intros Hp En Et Ht Hni. revert q. induction l as [|[a c] l IH]; intros q; simpl.
  - intros ->. by exists [].
  - intros (-> & Hn & Hb & Hc). destruct (decide (a = p)) as [->|Hne].
    + exists ((p, b') :: lt). simpl. rewrite lookup_insert_eq, Et.
      split_and!; [done|done|done|]. by apply pchain_insert.
    + destruct (IH _ Hc) as [l' Hl']. exists ((a, c) :: l'). simpl.
      by rewrite lookup_insert_ne.
Qed.

(** The reference to [t] passes from an owner to the [next] of [p]. *)
Lemma refs_ok_link owners bs p b b' t lt :
  refs_ok (t :: owners) bs -> bs !! p = Some b -> pb_next b = NULL ->
  pb_next b' = t -> pb_ref b' = pb_ref b -> pchain bs t lt -> p ∉ lt.*1 ->
  refs_ok owners (<[p := b']> bs).
Proof.
  intros H Hp En Et Er Hl Hni. pose proof (refs_ok_ne _ _ _ _ H Hp) as Hn.
  assert (forall a, a <> NULL -> refs owners (<[p := b']> bs) a = refs (t :: owners) bs a) as Hrefs.
  { intros a Ha. rewrite refs_cons. unfold refs. pose proof (nexts_insert a p b b' bs Hp) as Hx.
    rewrite (decide_False (P := pb_next b = a)) in Hx by congruence. rewrite Et in Hx.
    destruct (decide (t = a)); lia. }
  constructor.
  - rewrite lookup_insert_ne by done. apply H.
  - intros a c Hc. assert (a <> NULL) as Ha.
    { intros ->. rewrite lookup_insert_ne, (ro_null _ _ H) in Hc; done. }
    rewrite Hrefs by done. destruct (decide (a = p)) as [->|].
    + rewrite lookup_insert_eq in Hc. injection Hc as <-. rewrite Er. by apply (ro_ref _ _ H).
    + rewrite lookup_insert_ne in Hc by done. by apply (ro_ref _ _ H).
  - intros a Ha. destruct (decide (a = p)) as [->|]; [rewrite lookup_insert_eq; eauto|].
    rewrite lookup_insert_ne by done. apply (ro_owner _ _ H). by right.
  - intros a c Hc. destruct (decide (a = p)) as [->|].
    + rewrite lookup_insert_eq in Hc. injection Hc as <-. exists lt. rewrite Et. by apply pchain_insert.
    + rewrite lookup_insert_ne in Hc by done. destruct (ro_chain _ _ H _ _ Hc) as [l Hl'].
      by eapply pchain_link.
Qed.

(** The last buffer of a packet: its [tot_len] is its [len]. *)
Definition last_ok (bs : gmap Z pbuf) : Prop :=
  map_Forall (fun _ b => pb_next b = NULL -> pb_tot_len b = pb_len b) bs.

Lemma last_ok_refs_only bs bs' : last_ok bs -> refs_only bs bs' -> last_ok bs'.
Proof. intros H Hr a b' Hb'. destruct (Hr _ _ Hb') as (b & Hb & ->). apply (H _ _ Hb). Qed.

Lemma pbuf_cat_refs st h t lh lt owners :
  refs_ok (t :: owners) (pbufs st) -> last_ok (pbufs st) ->
  h <> NULL -> pchain (pbufs st) h lh -> pchain (pbufs st) t lt ->
  (forall a, a ∈ lh.*1 -> a ∉ lt.*1) ->
  exists bs, pbuf_cat h t st = Some (tt, set_pbufs bs st) /\ refs_ok owners bs /\ last_ok bs /\
    dom bs = dom (pbufs st) /\
    (forall a b', bs !! a = Some b' -> exists b, pbufs st !! a = Some b /\ pb_ref b' = pb_ref b).
Proof.
  intros H Hlast Hh Hlh Hlt Hdisj. destruct (ro_owner _ _ H t) as [bt Ht]; [by left|].
  pose proof (refs_ok_ne _ _ _ _ H Ht) as Htn.
  unfold pbuf_cat. rewrite bind_lassert
    by (apply andb_true_intro; split; apply negb_true_iff, Z.eqb_neq; done).
  rewrite bind_chain_bound.
  destruct (cat_loop_refs (chain_fuel st) lh st h t (t :: owners)) as
    (e & b & bs & Ee & Ho & Hin & He & He' & Hen & Hch & Hd & Ht'); [done| |by eapply chain_fuel_length|done|eauto|].
  { intros ->. done. }
  rewrite (bind_Some _ _ _ _ _ Ee). rewrite (bind_getp e b) by done.
  rewrite bind_lassert by (apply Z.eqb_eq; by apply (Hlast e)).
  rewrite bind_lassert by by apply Z.eqb_eq.
  destruct (Hch _ _ Hlt) as (lt' & Hlt' & Elt).
  assert (exists bt', bs !! t = Some bt') as [bt' Hbt'].
  { apply elem_of_dom. rewrite Hd. by eapply elem_of_dom_2. }
  rewrite (bind_getp t bt') by done. rewrite (bind_updp e b) by done.
  rewrite (updp_Some e (set_pb_tot_len (u16 (pb_tot_len b + pb_tot_len bt')) b))
    by (simpl; apply lookup_insert_eq).
  simpl pbufs. rewrite insert_insert_eq, !set_pbufs_pbufs. eexists. split; [done|]. split_and!.
  - apply (refs_ok_link _ _ e b _ t lt'); [done..|]. rewrite Elt. by apply Hdisj.
  - intros a c. destruct (decide (a = e)) as [->|].
    + rewrite lookup_insert_eq. by intros [= <-].
    + rewrite lookup_insert_ne by done. intros Hc Hcn. destruct (Ht' _ _ Hc) as (c0 & Hc0 & Ec & E0).
      assert (pb_next c0 = NULL) as E1 by (rewrite Ec in Hcn; done).
      rewrite (E0 E1). by apply (Hlast a).
  - rewrite dom_insert_L, Hd. apply elem_of_dom_2 in He. set_solver.
  - intros a c. destruct (decide (a = e)) as [->|].
    + rewrite lookup_insert_eq. intros [= <-]. eauto.
    + rewrite lookup_insert_ne by done. intros Hc. destruct (Ht' _ _ Hc) as (c0 & Hc0 & Ec & _).
      exists c0. split; [done|]. by rewrite Ec.
Qed.

(** ** Fresh chains *)

(** [bs] is [bs0] and the new chain [l] at [p], to each of whose buffers there is
    one reference. *)
Record built (bs bs0 : gmap Z pbuf) (p : Z) (l : list (Z * pbuf)) : Prop := {
  bl_chain : pchain bs p l;
  bl_rest a : a ∉ l.*1 -> bs !! a = bs0 !! a;
  bl_fresh a : a ∈ l.*1 -> bs0 !! a = None;
  bl_ref : Forall (fun ab => pb_ref ab.2 = 1) l;
}.

Lemma built_tail bs bs0 p b q l :
  built bs bs0 p ((q, b) :: l) -> built (delete p bs) bs0 (pb_next b) l.
Proof.
  intros [Hc Hr Hf Hr1]. pose proof (pchain_NoDup _ _ _ Hc) as Hnd. csimpl in *.
  destruct Hc as (<- & Hn & Hb & Hc). apply NoDup_cons in Hnd as [Hni Hnd].
  inversion Hr1; subst. constructor; [by apply pchain_delete| | |done].
  - intros a Ha. destruct (decide (a = p)) as [->|].
    + rewrite lookup_delete_eq. symmetry. apply Hf. by left.
    + rewrite lookup_delete_ne by done. apply Hr. by apply not_elem_of_cons.
  - intros a Ha. apply Hf. by right.
Qed.

Lemma built_nil bs bs0 p : built bs bs0 p [] -> bs = bs0.
Proof. intros [_ Hr _ _]. apply map_eq. intros a. apply Hr. by apply not_elem_of_nil. Qed.

Lemma free_loop_built fuel : forall l st p bs0 count,
  built (pbufs st) bs0 p l -> (length l < fuel)%nat ->
  exists n, free_loop fuel p count st = Some (n, set_pbufs bs0 st).
Proof.
  induction fuel as [|fuel IH]; intros l st p bs0 count H Hf; [lia|]. simpl free_loop.
  destruct l as [|[a b] l].
  - pose proof (bl_chain _ _ _ _ H) as E. simpl in E. subst p. simpl.
    apply built_nil in H as <-. exists count. by rewrite set_pbufs_id.
  - pose proof (built_tail _ _ _ _ _ _ H) as H'. pose proof (bl_ref _ _ _ _ H) as Hr.
    inversion Hr as [|? ? Hr1 _]; subst. simpl in Hr1.
    destruct (bl_chain _ _ _ _ H) as (<- & Hn & Hb & _).
    destruct (Z.eqb_spec p NULL); [done|].
    rewrite (bind_getp _ _ _ _ Hb), bind_lassert by (apply Z.ltb_lt; lia).
    rewrite (bind_updp _ _ _ _ _ Hb). rewrite Hr1. change (u16 (1 - 1)) with 0. simpl (0 =? 0).
    cbv iota. rewrite bind_mem_free by (simpl; rewrite lookup_insert_eq; eauto).
    simpl pbufs. rewrite set_pbufs_pbufs, delete_insert_eq.
    destruct (IH l (set_pbufs (delete p (pbufs st)) st) (pb_next b) bs0 (u8 (count + 1))) as [k Ek];
      [done|simpl in *; lia|]. exists k. by rewrite Ek.
Qed.

Lemma pbuf_free_built st p bs0 l :
  built (pbufs st) bs0 p l -> p <> NULL -> exists n, pbuf_free p st = Some (n, set_pbufs bs0 st).
Proof.
  intros H Hp. unfold pbuf_free. rewrite bind_lassert by by apply negb_true_iff, Z.eqb_neq.
  rewrite bind_chain_bound. eapply free_loop_built; [done|].
  eapply chain_fuel_length, bl_chain, H.
Qed.

Lemma pchain_snoc bs p l r br q bq :
  pchain bs p (l ++ [(r, br)]) -> bs !! q = None -> q <> NULL -> pb_next bq = NULL ->
  pchain (<[q := bq]> (<[r := set_pb_next q br]> bs)) p (l ++ [(r, set_pb_next q br); (q, bq)]).
Proof.
  intros Hc Hq Hqn Hbq. pose proof (pchain_NoDup _ _ _ Hc) as Hnd. revert p Hc.
  induction l as [|[a b] l IH]; intros p Hc; simpl in *.
  - destruct Hc as (-> & Hn & Hb & Hc). assert (q <> r) by congruence.
    rewrite lookup_insert_ne, lookup_insert_eq, lookup_insert_eq by done. done.
  - destruct Hc as (-> & Hn & Hb & Hc). csimpl in Hnd. apply NoDup_cons in Hnd as [Hni Hnd].
    assert (q <> a) by congruence. assert (r <> a).
    { intros ->. apply Hni. rewrite fmap_app. apply elem_of_app. right. by left. }
    rewrite !lookup_insert_ne by done. split_and!; [done..|]. by apply IH.
Qed.

Lemma built_snoc bs bs0 p l r br q bq :
  built bs bs0 p (l ++ [(r, br)]) -> bs !! q = None -> q <> NULL ->
  pb_next bq = NULL -> pb_ref bq = 1 ->
  built (<[q := bq]> (<[r := set_pb_next q br]> bs)) bs0 p (l ++ [(r, set_pb_next q br); (q, bq)]).
Proof.
  intros [Hc Hr Hf Hr1] Hq Hqn Hn Hb1.
  assert (q ∉ (l ++ [(r, br)]).*1) as Hqni.
  { intros Hin. apply list_elem_of_fmap in Hin as ([a b] & -> & Hin).
    simpl in *. rewrite (pchain_elem _ _ _ _ _ Hc Hin) in Hq. done. }
  rewrite fmap_app in *. constructor.
  - by apply pchain_snoc.
  - intros a Ha. rewrite fmap_app in Ha. csimpl in Ha.
    apply not_elem_of_app in Ha as [Ha1 Ha2]. apply not_elem_of_cons in Ha2 as [Ha2 Ha3].
    apply not_elem_of_cons in Ha3 as [Ha3 _]. rewrite !lookup_insert_ne by done. apply Hr.
    csimpl. apply not_elem_of_app. split; [done|]. by apply not_elem_of_cons; split; [|apply not_elem_of_nil].
  - intros a Ha. rewrite fmap_app in Ha. csimpl in *. apply elem_of_app in Ha as [Ha|Ha].
    + apply Hf. apply elem_of_app. by left.
    + apply elem_of_cons in Ha as [->|Ha].
      * apply Hf. apply elem_of_app. right. by left.
      * apply list_elem_of_singleton in Ha as ->. rewrite <-Hr by done. done.
  - apply Forall_app in Hr1 as [H1 H2]. apply Forall_app. split; [done|].
    inversion H2; subst. repeat constructor; done.
Qed.

(** ** pbuf_alloc *)

(** The heap's answers: aligned addresses, different from each other and from
    the buffers that exist (see [rt_malloc_ok] in Heap). *)
Definition fresh_answers (ms : list (option Z)) (bs : gmap Z pbuf) : Prop :=
  Forall (fun o => match o with
                   | Some q => q mod 4 = 0 /\ 0 < q < 2 ^ 32 - 4096 /\ bs !! q = None
                   | None => True
                   end) ms /\
  NoDup (omap id ms).

Lemma fresh_cons_Some q ms bs :
  fresh_answers (Some q :: ms) bs ->
  q mod 4 = 0 /\ 0 < q < 2 ^ 32 - 4096 /\ bs !! q = None /\ q ∉ omap id ms /\ fresh_answers ms bs.
Proof.
  intros [H1 H2]. apply Forall_cons in H1 as [(Ha & Hb & Hc) Hr]. csimpl in H2.
  apply NoDup_cons in H2 as [Hn Hnd]. done.
Qed.

Lemma fresh_cons_None ms bs : fresh_answers (None :: ms) bs -> fresh_answers ms bs.
Proof. intros [H1 H2]. inversion H1; subst. done. Qed.

Lemma fresh_insert ms bs a b :
  fresh_answers ms bs -> a ∉ omap id ms -> fresh_answers ms (<[a := b]> bs).
Proof.
  intros [H1 H2] Ha. split; [|done]. clear H2. induction H1 as [|o ms Ho _ IH]; [constructor|].
  csimpl in Ha. constructor.
  - destruct o as [q|]; [|done]. destruct Ho as (? & ? & ?). simpl in Ha.
    apply not_elem_of_cons in Ha as [? ?]. by rewrite lookup_insert_ne by done.
  - apply IH. destruct o; [|done]. simpl in Ha. by apply not_elem_of_cons in Ha as [_ ?].
Qed.

Lemma fresh_not_used ms bs a b : fresh_answers ms bs -> bs !! a = Some b -> a ∉ omap id ms.
Proof.
  intros [H1 _] Ha Hin. apply list_elem_of_omap in Hin as (o & Ho & E). simpl in E. subst o.
  rewrite Forall_forall in H1. destruct (H1 _ Ho) as (_ & _ & H). congruence.
Qed.

Lemma pool_is_empty_run st :
  exists st', pbuf_pool_is_empty st = Some (tt, st') /\ pbufs st' = pbufs st /\ ram st' = ram st.
Proof.
  unfold pbuf_pool_is_empty. destruct (truthy _); [eauto|]. destruct (tcpip_posts st) as [|[] r]; eauto.
Qed.

(** A buffer of the pool's tail. *)
Definition tail_buf (ab : Z * pbuf) : Prop :=
  pb_type ab.2 = PBUF_POOL /\ pb_flags ab.2 = 0 /\ ab.1 mod 4 = 0 /\
  pb_payload ab.2 = ab.1 + SIZEOF_STRUCT_PBUF /\ 0 < pb_len ab.2 <= PBUF_POOL_BUFSIZE_ALIGNED.

Definition head_addr (l : list (Z * pbuf)) : Z := match l with [] => NULL | (a, _) :: _ => a end.

Definition pool_sizes_ok (p : Z) (b : pbuf) : Prop :=
  pb_payload b + pb_len b <= p + SIZEOF_STRUCT_PBUF + PBUF_POOL_BUFSIZE_ALIGNED.

Lemma built_head bs bs0 p l b : built bs bs0 p l -> bs !! p = Some b -> p <> NULL ->
  exists l', l = (p, b) :: l'.
Proof.
  intros [Hc _ _ _] Hb Hn. destruct l as [|[a c] l]; [by simpl in Hc|].
  destruct Hc as (-> & _ & Hc & _). rewrite Hb in Hc. injection Hc as <-. eauto.
Qed.

(** The head of the chain is the same structure but for its [next]. *)
Definition head_like (p : Z) (b0 : pbuf) (bs : gmap Z pbuf) : Prop :=
  exists n, bs !! p = Some (set_pb_next n b0).

Lemma alloc_tail_spec fuel : forall st bs0 p b0 l r br rem,
  built (pbufs st) bs0 p (l ++ [(r, br)]) -> p <> NULL -> head_like p b0 (pbufs st) ->
  pool_sizes_ok p b0 -> fresh_answers (mallocs st) (pbufs st) ->
  0 <= rem < 65535 -> (Z.to_nat rem < fuel)%nat ->
  (exists st', alloc_tail fuel p r rem st = Some (false, st') /\
     pbufs st' = bs0 /\ ram st' = ram st) \/
  (exists st' l', alloc_tail fuel p r rem st = Some (true, st') /\ ram st' = ram st /\
     built (pbufs st') bs0 p (l ++ (r, set_pb_next (head_addr l') br) :: l') /\
     chain_len l' = rem /\ tot_lens l' /\ Forall tail_buf l' /\
     Forall (fun ab => blocks st' !! ab.1 = Some MEMP_PBUF_POOL_SIZE) l' /\
     (forall a, is_Some (pbufs st !! a) -> blocks st' !! a = blocks st !! a)).
Proof.
  induction fuel as [|fuel IH]; intros st bs0 p b0 l r br rem Hb Hp Hh Hsz Hf Hrem Hfuel; [lia|].
  assert (pb_next br = NULL) as Hbr.
  { destruct (pchain_app _ _ _ _ (bl_chain _ _ _ _ Hb)) as [x (_ & _ & _ & Hx)]. done. }
  simpl alloc_tail. destruct (Z.ltb_spec 0 rem) as [Hr|Hr].
  2: { right. exists st, []. assert (rem = 0) as -> by lia. simpl head_addr.
       replace (set_pb_next NULL br) with br by (unfold set_pb_next; destruct br; simpl in *; congruence).
       split_and!; try done. }
  assert (forall ms, (exists st', (pbuf_pool_is_empty ;; pbuf_free p ;; mret false)
            (set_mallocs ms st) = Some (false, st') /\ pbufs st' = bs0 /\ ram st' = ram st)) as Hfail.
  { intros ms. destruct (pool_is_empty_run (set_mallocs ms st)) as (st1 & E1 & P1 & R1).
    rewrite (bind_Some _ _ _ _ _ E1). simpl in P1, R1.
    destruct (pbuf_free_built st1 p bs0 (l ++ [(r, br)])) as [n En]; [by rewrite P1|done|].
    rewrite (bind_Some _ _ _ _ _ En). eexists. split; [done|]. simpl. done. }
  destruct (mallocs st) as [|[q|] ms] eqn:Em.
  - left. rewrite (bind_malloc_nil _ _ _ Em). simpl (NULL =? NULL). cbv iota. destruct (Hfail []) as (st' & E & H).
    replace (set_mallocs [] st) with st in E by (unfold set_mallocs; destruct st; simpl in *; congruence). eauto.
  - apply fresh_cons_Some in Hf as (Hq4 & Hq0 & Hqn & Hqm & Hf).
    rewrite (bind_malloc_Some _ _ _ _ _ Em) by lia.
    destruct (Z.eqb_spec q NULL); [lia|].
    assert (pbufs st !! r = Some br) as Hrb.
    { eapply pchain_elem; [apply Hb|]. apply elem_of_app. right. by left. }
    rewrite (bind_updp r br) by done. rewrite bind_lassert by (apply Z.ltb_lt; lia).
    rewrite bind_newp.
    rewrite (wrap_small 16 rem) by (unfold in_u; lia).
    set (len := Z.min rem PBUF_POOL_BUFSIZE_ALIGNED).
    change PBUF_POOL_BUFSIZE_ALIGNED with 1516 in len.
    set (bq := Pbuf NULL (q + SIZEOF_STRUCT_PBUF) rem len PBUF_POOL 0 1).
    assert (q <> r) as Hqr by congruence.
    set (st1 := set_pbufs _ _).
    assert (built (pbufs st1) bs0 p (l ++ [(r, set_pb_next q br); (q, bq)])) as Hb1.
    { apply built_snoc; try done. }
    rewrite bind_lassert.
    2: { apply Z.eqb_eq. change SIZEOF_STRUCT_PBUF with 16. unfold MEM_ALIGNMENT.
         rewrite Z.rem_mod_nonneg by lia. Z.div_mod_to_equations. lia. }
    destruct Hh as [nx Hh].
    assert (head_like p b0 (pbufs st1)) as [nx' Hh1].
    { unfold head_like. simpl. destruct (decide (p = q)) as [->|]; [congruence|].
      rewrite lookup_insert_ne by done. destruct (decide (p = r)) as [->|].
      - rewrite lookup_insert_eq. exists q. rewrite Hrb in Hh. injection Hh as ->. done.
      - rewrite lookup_insert_ne by done. eauto. }
    rewrite (bind_getp _ _ _ _ Hh1), bind_lassert by (apply Z.leb_le; apply Hsz).
    destruct (IH st1 bs0 p b0 (l ++ [(r, set_pb_next q br)]) q bq (rem - len))
      as [(st' & E & H)|(st' & l' & E & Hram & Hb' & Hl & Ht & Hfa & Hbk & Hold)].
    + by rewrite <-app_assoc.
    + done.
    + by exists nx'.
    + done.
    + simpl. apply fresh_insert; [|done]. apply fresh_insert; [done|]. by eapply fresh_not_used.
    + lia.
    + lia.
    + left. exists st'. done.
    + right. exists st', ((q, set_pb_next (head_addr l') bq) :: l'). rewrite E.
      rewrite <-app_assoc in Hb'. split_and!; try done.
      * simpl. rewrite Hl. lia.
      * simpl. split; [|done]. rewrite Hl. lia.
      * constructor; [|done]. split_and!; try done; simpl; change PBUF_POOL_BUFSIZE_ALIGNED with 1516; lia.
      * constructor; [|done]. simpl. rewrite Hold by (simpl; rewrite lookup_insert_eq; eauto). simpl. apply lookup_insert_eq.
      * intros a [c Ha]. assert (a <> q) as Haq by congruence. rewrite Hold; [simpl; by rewrite lookup_insert_ne|].
        simpl. rewrite lookup_insert_ne by done. apply lookup_insert_is_Some'. eauto.
  - left. rewrite (bind_malloc_NULL _ _ _ _ Em). simpl (NULL =? NULL). cbv iota. destruct (Hfail ms) as (st' & E & H). eauto.
Qed.

Lemma LWIP_MEM_ALIGN_eq x : 0 <= x < 2 ^ 32 - 3 -> LWIP_MEM_ALIGN x = x + (- x) mod 4.
Proof. apply RT_ALIGN_4. Qed.

Lemma LWIP_MEM_ALIGN_id x : 0 <= x < 2 ^ 32 - 3 -> x mod 4 = 0 -> LWIP_MEM_ALIGN x = x.
Proof. intros. rewrite LWIP_MEM_ALIGN_eq by done. Z.div_mod_to_equations. lia. Qed.

Lemma LWIP_MEM_ALIGN_SIZE_ge x : 0 <= x < 2 ^ 32 - 3 -> x <= LWIP_MEM_ALIGN_SIZE x.
Proof.
  intros. change (LWIP_MEM_ALIGN_SIZE x) with (LWIP_MEM_ALIGN x). rewrite LWIP_MEM_ALIGN_eq by done.
  pose proof (Z.mod_pos_bound (- x) 4). lia.
Qed.

Lemma layer_offset_ok layer :
  layer_offset layer mod 4 = 0 /\ 0 <= layer_offset layer <= 56 /\
  LWIP_MEM_ALIGN_SIZE (layer_offset layer) = layer_offset layer.
Proof. by destruct layer. Qed.

(** A payload behind the structure and inside the block. *)
Definition in_block (blk : Z) (ab : Z * pbuf) : Prop :=
  ab.1 + SIZEOF_STRUCT_PBUF <= pb_payload ab.2 /\ pb_payload ab.2 + pb_len ab.2 <= ab.1 + blk.

(** The new buffers [l], and the sizes [bks] that the heap was asked for. *)
Record allocated (layer : pbuf_layer) (length : Z) (type : pbuf_type) (bks : gmap Z Z) (l : list (Z * pbuf)) : Prop := {
  al_len : chain_len l = length;
  al_tot : tot_lens l;
  al_type : Forall (fun ab => pb_type ab.2 = type /\ pb_flags ab.2 = 0 /\ 0 <= pb_len ab.2 < 65536) l;
  al_block : Forall (fun ab => exists n, bks !! ab.1 = Some n /\ SIZEOF_STRUCT_PBUF <= n /\
    (type = PBUF_RAM \/ type = PBUF_POOL -> in_block n ab)) l;
  al_head a b l' : type = PBUF_RAM \/ type = PBUF_POOL -> l = (a, b) :: l' ->
    pb_payload b = a + SIZEOF_STRUCT_PBUF + layer_offset layer;
}.

Lemma built_single p b bs :
  bs !! p = None -> p <> NULL -> pb_next b = NULL -> pb_ref b = 1 -> built (<[p := b]> bs) bs p [(p, b)].
Proof.
  intros Hp Hn Hb Hr. constructor.
  - simpl. by rewrite lookup_insert_eq.
  - csimpl. intros a [Ha _]%not_elem_of_cons. by rewrite lookup_insert_ne.
  - csimpl. by intros a ->%list_elem_of_singleton.
  - by repeat constructor.
Qed.

Lemma alloc_pool_ok st layer length :
  fresh_answers (mallocs st) (pbufs st) -> 0 <= length < 65536 ->
  (exists st', alloc_pool (layer_offset layer) length st = Some (NULL, st') /\
     pbufs st' = pbufs st /\ ram st' = ram st) \/
  (exists p st' l, alloc_pool (layer_offset layer) length st = Some (p, st') /\ ram st' = ram st /\
     p <> NULL /\ built (pbufs st') (pbufs st) p l /\ allocated layer length PBUF_POOL (blocks st') l).
Proof.
  intros Hf Hlen. destruct (layer_offset_ok layer) as (O4 & O1 & O2). unfold alloc_pool.
  assert (forall ms, exists st', (pbuf_pool_is_empty ;; mret NULL) (set_mallocs ms st) = Some (NULL, st') /\
     pbufs st' = pbufs st /\ ram st' = ram st) as Hfail.
  { intros ms. destruct (pool_is_empty_run (set_mallocs ms st)) as (st1 & E1 & P1 & R1).
    rewrite (bind_Some _ _ _ _ _ E1). eexists. done. }
  destruct (mallocs st) as [|[p|] ms] eqn:Em.
  - left. rewrite (bind_malloc_nil _ _ _ Em). destruct (Hfail []) as (st' & E & H).
    replace (set_mallocs [] st) with st in E by (unfold set_mallocs; destruct st; simpl in *; congruence).
    eauto.
  - apply fresh_cons_Some in Hf as (Hp4 & Hp0 & Hpn & Hpm & Hf). rewrite (bind_malloc_Some _ _ _ _ _ Em) by lia.
    destruct (Z.eqb_spec p NULL); [lia|]. rewrite O2. cbv zeta.
    change SIZEOF_STRUCT_PBUF with 16. change PBUF_POOL_BUFSIZE_ALIGNED with 1516.
    rewrite LWIP_MEM_ALIGN_id by (try lia; Z.div_mod_to_equations; lia).
    rewrite wrap_small by (unfold in_u; lia).
    set (len := Z.min length _). set (b0 := Pbuf NULL _ length len PBUF_POOL 0 1).
    rewrite bind_lassert.
    2: { apply Z.eqb_eq. unfold MEM_ALIGNMENT. rewrite Z.rem_mod_nonneg by lia.
         Z.div_mod_to_equations. lia. }
    rewrite bind_newp, bind_lassert by (apply Z.leb_le; lia).
    rewrite bind_lassert by (apply Z.ltb_lt; lia).
    set (st1 := set_pbufs _ _).
    assert (built (pbufs st1) (pbufs st) p ([] ++ [(p, b0)])) as Hb1 by by apply built_single.
    destruct (alloc_tail_spec (S (Z.to_nat (length - len))) st1 (pbufs st) p b0 [] p b0 (length - len))
      as [(st' & E & H)|(st' & l' & E & Hram & Hb' & Hl & Ht & Hfa & Hbk & Hold)].
    + done.
    + done.
    + exists NULL. simpl. apply lookup_insert_eq.
    + unfold pool_sizes_ok, b0, len. simpl. change SIZEOF_STRUCT_PBUF with 16.
      change PBUF_POOL_BUFSIZE_ALIGNED with 1516. lia.
    + simpl. by apply fresh_insert.
    + lia.
    + lia.
    + left. rewrite (bind_Some _ _ _ _ _ E). eauto.
    + right. rewrite (bind_Some _ _ _ _ _ E). eexists p, st', _. split_and!; [done|done|done|done|].
      simpl app. constructor.
      * simpl. rewrite Hl. lia.
      * simpl. rewrite Hl. split; [lia|done].
      * constructor; [simpl; split_and!; try done; lia|]. eapply Forall_impl; [exact Hfa|].
        intros ab (? & ? & _ & _ & Hx). change PBUF_POOL_BUFSIZE_ALIGNED with 1516 in Hx.
        split_and!; try done; lia.
      * change MEMP_PBUF_POOL_SIZE with 1532 in Hbk. constructor.
        -- exists 1532. change SIZEOF_STRUCT_PBUF with 16. split_and!; [|lia|].
           ++ simpl. rewrite Hold by (simpl; rewrite lookup_insert_eq; eauto). simpl. apply lookup_insert_eq.
           ++ intros _. unfold in_block. change SIZEOF_STRUCT_PBUF with 16. simpl. lia.
        -- apply Forall_forall. intros [a b] Hin. rewrite Forall_forall in Hfa, Hbk.
           destruct (Hfa _ Hin) as (_ & _ & _ & Ep & Hx). exists 1532. split_and!; [by apply (Hbk (a, b))|done|].
           intros _. unfold in_block. rewrite Ep. change PBUF_POOL_BUFSIZE_ALIGNED with 1516 in Hx.
           change SIZEOF_STRUCT_PBUF with 16. simpl in *. pose proof Hx. lia.
      * intros a b l'' _ [= <- <- <-]. simpl. change SIZEOF_STRUCT_PBUF with 16. lia.
  - left. rewrite (bind_malloc_NULL _ _ _ _ Em). destruct (Hfail ms) as (st' & E & H). eauto.
Qed.

(** The other types: one structure, and its payload behind it for [PBUF_RAM]. *)
Lemma alloc_single_ok st layer length type :
  fresh_answers (mallocs st) (pbufs st) -> 0 <= length < 65536 -> type <> PBUF_POOL ->
  let m := match type with PBUF_RAM => alloc_ram (layer_offset layer) length
           | _ => alloc_ref length type end in
  (exists st', m st = Some (NULL, st') /\ pbufs st' = pbufs st /\ ram st' = ram st) \/
  (exists p st' l, m st = Some (p, st') /\ ram st' = ram st /\
     p <> NULL /\ built (pbufs st') (pbufs st) p l /\ allocated layer length type (blocks st') l).
Proof.
  intros Hf Hlen Ht. destruct (layer_offset_ok layer) as (O4 & O1 & O2).
  destruct (mallocs st) as [|[p|] ms] eqn:Em.
  - left. exists st. destruct type; try done; cbv zeta; unfold alloc_ram, alloc_ref;
      by rewrite (bind_malloc_nil _ _ _ Em).
  - apply fresh_cons_Some in Hf as (Hp4 & Hp0 & Hpn & Hpm & Hf). right. cbv zeta.
    assert (LWIP_MEM_ALIGN (p + SIZEOF_STRUCT_PBUF + layer_offset layer) =
            p + SIZEOF_STRUCT_PBUF + layer_offset layer) as Ea.
    { change SIZEOF_STRUCT_PBUF with 16. apply LWIP_MEM_ALIGN_id; [lia|]. Z.div_mod_to_equations. lia. }
    exists p. set (pl := match type with PBUF_RAM => p + SIZEOF_STRUCT_PBUF + layer_offset layer
                         | _ => NULL end).
    set (size := match type with
                 | PBUF_RAM => LWIP_MEM_ALIGN_SIZE (SIZEOF_STRUCT_PBUF + layer_offset layer) + LWIP_MEM_ALIGN_SIZE length
                 | _ => MEMP_PBUF_SIZE end).
    exists (set_pbufs (<[p := Pbuf NULL pl length length type 0 1]> (pbufs st))
              (set_blocks (<[p := size]> (blocks st)) (set_mallocs ms st))),
      [(p, Pbuf NULL pl length length type 0 1)].
    split_and!.
    + destruct type; try done; unfold alloc_ram, alloc_ref;
        rewrite (bind_malloc_Some _ _ _ _ _ Em) by lia; destruct (Z.eqb_spec p NULL); try lia; cbv zeta.
      * rewrite bind_newp, Ea, bind_lassert; [done|]. apply Z.eqb_eq.
        change SIZEOF_STRUCT_PBUF with 16. unfold MEM_ALIGNMENT.
        rewrite Z.rem_mod_nonneg by lia. Z.div_mod_to_equations. lia.
      * by rewrite bind_newp.
      * by rewrite bind_newp.
    + done.
    + lia.
    + apply built_single; try done. lia.
    + constructor; try done.
      * simpl. lia.
      * simpl. split; [lia|done].
      * repeat constructor; simpl; lia.
      * constructor; [|constructor]. exists size. simpl. rewrite lookup_insert_eq. split; [done|].
        pose proof (LWIP_MEM_ALIGN_SIZE_ge length ltac:(lia)).
        pose proof (LWIP_MEM_ALIGN_SIZE_ge (SIZEOF_STRUCT_PBUF + layer_offset layer)
          ltac:(change SIZEOF_STRUCT_PBUF with 16; lia)).
        split; [unfold size; destruct type; try done; lia|].
        intros [->|]; [|done]. unfold in_block, pl, size. simpl. lia.
      * intros a b l' [->|] E; [|done]. injection E as <- <- <-. done.
  - left. exists (set_mallocs ms st). destruct type; try done; cbv zeta; unfold alloc_ram, alloc_ref;
      by rewrite (bind_malloc_NULL _ _ _ _ Em).
Qed.

Lemma set_ref_flags_id b : pb_ref b = 1 -> pb_flags b = 0 -> set_pb_flags 0 (set_pb_ref 1 b) = b.
Proof. unfold set_pb_flags, set_pb_ref. destruct b; simpl. by intros -> ->. Qed.

Lemma pbuf_alloc_run st layer length type :
  fresh_answers (mallocs st) (pbufs st) -> 0 <= length < 65536 ->
  exists p st', pbuf_alloc layer length type st = Some (p, st') /\ ram st' = ram st /\
    ((p = NULL /\ pbufs st' = pbufs st) \/
     (p <> NULL /\ exists l, built (pbufs st') (pbufs st) p l /\ allocated layer length type (blocks st') l)).
Proof.
  intros Hf Hlen. unfold pbuf_alloc. set (m := match type with PBUF_RAM => _ | _ => _ end).
  assert ((exists st', m st = Some (NULL, st') /\ pbufs st' = pbufs st /\ ram st' = ram st) \/
    (exists p st' l, m st = Some (p, st') /\ ram st' = ram st /\
     p <> NULL /\ built (pbufs st') (pbufs st) p l /\ allocated layer length type (blocks st') l)) as H.
  { unfold m. destruct type; [apply (alloc_single_ok st layer length PBUF_RAM)
      |apply (alloc_single_ok st layer length PBUF_ROM)|apply (alloc_single_ok st layer length PBUF_REF)
      |by apply alloc_pool_ok]; done. }
  destruct H as [(st' & E & P & R)|(p & st' & l & E & R & Hp & Hb & Ha)].
  - rewrite (bind_Some _ _ _ _ _ E). exists NULL, st'. simpl. eauto.
  - rewrite (bind_Some _ _ _ _ _ E). destruct (Z.eqb_spec p NULL); [done|].
    destruct l as [|[a b] l]; [by destruct Hb as [[=]]|].
    pose proof (bl_chain _ _ _ _ Hb) as (<- & _ & Hpb & _).
    pose proof (bl_ref _ _ _ _ Hb) as Hr%Forall_inv. pose proof (al_type _ _ _ _ _ Ha) as Ht%Forall_inv.
    simpl in Hr, Ht. destruct Ht as (_ & Hfl & _).
    rewrite (bind_updp _ _ _ _ _ Hpb).
    rewrite (bind_updp p (set_pb_ref 1 b)) by (simpl; apply lookup_insert_eq).
    simpl pbufs. rewrite insert_insert_eq, set_pbufs_pbufs, set_ref_flags_id by done.
    rewrite insert_id, set_pbufs_id by done. exists p, st'. split_and!; [done|done|]. right. eauto.
Qed.

(** C17. [pbuf_alloc] either fails and leaves no buffer behind, also when the pool
    runs out in the middle of a chain, or makes a chain of new buffers with one
    reference each, whose lengths add up to the length asked for, whose structures and
    payloads lie inside the blocks of the sizes that the heap was asked for, and which
    leaves room before the first payload for the headers of the layers below.  No assertion
    fails on the way.  The heap is assumed to answer with aligned addresses that are not in
    use. *)
Theorem pbuf_alloc_ok st layer length type :
  fresh_answers (mallocs st) (pbufs st) -> 0 <= length < 65536 ->
  exists p st', pbuf_alloc layer length type st = Some (p, st') /\ ram st' = ram st /\
    ((p = NULL /\ pbufs st' = pbufs st) \/
     (p <> NULL /\ exists l, built (pbufs st') (pbufs st) p l /\ allocated layer length type (blocks st') l)).
Proof. apply pbuf_alloc_run. Qed.

Definition alloc_sample : netmem := NetMem ∅ ∅ [Some 4096; Some 8192; Some 12288; None] 0 [true] 0 ∅.

Lemma pbuf_alloc_ok_witness :
  exists p st', pbuf_alloc PBUF_RAW 4000 PBUF_POOL alloc_sample = Some (p, st') /\ p <> NULL.
Proof.
  destruct (pbuf_alloc_ok alloc_sample PBUF_RAW 4000 PBUF_POOL) as (p & st' & E & _ & H).
  - split; [|by apply (bool_decide_unpack _); vm_compute]. repeat constructor; simpl; lia.
  - lia.
  - exists p, st'. split; [exact E|]. destruct H as [[-> _]|[H _]]; [|exact H].
    vm_compute in E. discriminate E.
Defined.

(** *** One more owner *)

(** A new buffer in front takes over a reference. *)
Lemma refs_ok_cons owners bs p b :
  refs_ok (with_head (pb_next b) owners) bs -> bs !! p = None -> p <> NULL -> pb_ref b = 1 ->
  (pb_next b = NULL \/ is_Some (bs !! pb_next b)) ->
  refs_ok (p :: owners) (<[p := b]> bs).
Proof.
  intros H Hp Hn Hr Hx.
  assert (nexts p bs = 0)%nat as Hn0.
  { destruct (nexts p bs) eqn:E; [done|]. exfalso. unfold nexts in E.
    destruct (map_choose (filter (fun ab => pb_next ab.2 = p) bs)) as (a & c & Hc).
    { intros E'. rewrite E', map_size_empty in E. done. }
    apply map_lookup_filter_Some in Hc as [Hc Ec]. simpl in Ec.
    destruct (ro_chain _ _ H _ _ Hc) as [[|[d e] l] Hl]; simpl in Hl; [congruence|].
    destruct Hl as (Eq & _ & Hd & _). congruence. }
  assert (forall a, a ∈ with_head (pb_next b) owners -> a <> p) as Hown.
  { intros a Ha ->. destruct (ro_owner _ _ H _ Ha). congruence. }
  assert (p ∉ owners) as Hpo.
  { intros Hin. apply (Hown p); [|done]. unfold with_head. destruct (_ =? _); [done|by right]. }
  assert (forall q l, pchain bs q l -> pchain (<[p := b]> bs) q l) as Hch.
  { intros q l Hl. apply pchain_insert; [|done]. intros Hin.
    apply list_elem_of_fmap in Hin as ([a c] & -> & Hin). simpl in *.
    rewrite (pchain_elem _ _ _ _ _ Hl Hin) in Hp. done. }
  constructor.
  - rewrite lookup_insert_ne by done. apply H.
  - intros a c. rewrite refs_cons. unfold refs. rewrite nexts_insert_None by done.
    destruct (decide (a = p)) as [->|Hne].
    + rewrite lookup_insert_eq. intros [= <-]. split; [|lia]. rewrite count_zero, Hn0, Hr by done.
      rewrite (decide_True (P := p = p)), decide_False; [lia| |done].
      intros E. destruct Hx as [Hx|[c Hx]]; congruence.
    + rewrite lookup_insert_ne by done. intros Hc. destruct (ro_ref _ _ H _ _ Hc) as [E R].
      split; [|done]. rewrite E, refs_with_head by by eapply refs_ok_ne.
      unfold refs. rewrite (decide_False (P := p = a)) by done. destruct (decide (pb_next b = a)); lia.
  - intros a [->|Ha]%elem_of_cons; [rewrite lookup_insert_eq; eauto|].
    assert (a <> p) by congruence. rewrite lookup_insert_ne by done. apply (ro_owner _ _ H).
    unfold with_head. destruct (_ =? _); [done|by right].
  - intros a c. destruct (decide (a = p)) as [->|].
    + rewrite lookup_insert_eq. intros [= <-]. destruct Hx as [->|[c Hc]].
      * by exists [].
      * destruct (ro_chain _ _ H _ _ Hc) as [l Hl]. exists ((pb_next b, c) :: l). apply Hch. simpl.
        split_and!; try done. intros E. rewrite E, (ro_null _ _ H) in Hc. done.
    + rewrite lookup_insert_ne by done. intros Hc. destruct (ro_chain _ _ H _ _ Hc) as [l Hl]. eauto.
Qed.

Lemma built_refs_ok owners bs0 : forall l bs p,
  built bs bs0 p l -> refs_ok owners bs0 -> refs_ok (with_head p owners) bs.
Proof.
  induction l as [|[a b] l IH]; intros bs p Hb H.
  - pose proof (bl_chain _ _ _ _ Hb) as E. simpl in E. subst p. apply built_nil in Hb as ->. done.
  - pose proof (built_tail _ _ _ _ _ _ Hb) as Hb'. specialize (IH _ _ Hb' H).
    pose proof (bl_chain _ _ _ _ Hb) as (<- & Hn & Hpb & Hc).
    pose proof (bl_ref _ _ _ _ Hb) as Hr%Forall_inv. simpl in Hr.
    unfold with_head at 1. destruct (Z.eqb_spec p NULL); [done|].
    rewrite <-(insert_delete_id bs p b Hpb). apply refs_ok_cons; [done|apply lookup_delete_eq|done|done|].
    destruct l as [|[c d] l]; [by left|]. right.
    pose proof (bl_chain _ _ _ _ Hb') as (-> & _ & Hd & _). eauto.
Qed.

(** ** pbuf_dechain *)

Lemma pchain_cut bs q l p b' :
  pb_next b' = NULL -> pchain bs q l -> exists l', pchain (<[p := b']> bs) q l'.
Proof.
  intros En. revert q. induction l as [|[a c] l IH]; intros q; simpl.
  - intros ->. by exists [].
  - intros (-> & Hn & Hb & Hc). destruct (decide (a = p)) as [->|Hne].
    + exists [(p, b')]. simpl. by rewrite lookup_insert_eq.
    + destruct (IH _ Hc) as [l' Hl']. exists ((a, c) :: l'). simpl. by rewrite lookup_insert_ne.
Qed.

(** The reference to [q] passes from the [next] of [p] to an owner. *)
Lemma refs_ok_unlink owners bs p b b' q :
  refs_ok owners bs -> bs !! p = Some b -> pb_next b = q -> q <> NULL ->
  pb_next b' = NULL -> pb_ref b' = pb_ref b -> refs_ok (q :: owners) (<[p := b']> bs).
Proof.
  intros H Hp Eq Hq En Er. pose proof (refs_ok_ne _ _ _ _ H Hp) as Hn.
  assert (forall a, a <> NULL -> refs (q :: owners) (<[p := b']> bs) a = refs owners bs a) as Hrefs.
  { intros a Ha. rewrite refs_cons. unfold refs. pose proof (nexts_insert a p b b' bs Hp) as Hx.
    rewrite (decide_False (P := pb_next b' = a)), Eq in Hx by congruence.
    destruct (decide (q = a)); lia. }
  assert (is_Some (bs !! q)) as [bq Hbq].
  { destruct (ro_chain _ _ H _ _ Hp) as [[|[c d] l] Hl]; simpl in Hl; [congruence|].
    destruct Hl as (E & _ & Hd & _). rewrite <-Eq, E. eauto. }
  constructor.
  - rewrite lookup_insert_ne by done. apply H.
  - intros a c Hc. assert (a <> NULL) as Ha.
    { intros ->. rewrite lookup_insert_ne, (ro_null _ _ H) in Hc; done. }
    rewrite Hrefs by done. destruct (decide (a = p)) as [->|].
    + rewrite lookup_insert_eq in Hc. injection Hc as <-. rewrite Er. by apply (ro_ref _ _ H).
    + rewrite lookup_insert_ne in Hc by done. by apply (ro_ref _ _ H).
  - intros a Ha. destruct (decide (a = p)) as [->|]; [rewrite lookup_insert_eq; eauto|].
    rewrite lookup_insert_ne by done. apply elem_of_cons in Ha as [->|]; [eauto|by apply (ro_owner _ _ H)].
  - intros a c Hc. destruct (decide (a = p)) as [->|].
    + rewrite lookup_insert_eq in Hc. injection Hc as <-. exists []. done.
    + rewrite lookup_insert_ne in Hc by done. destruct (ro_chain _ _ H _ _ Hc) as [l Hl].
      by eapply pchain_cut.
Qed.

Lemma pbuf_dechain_refs st p b bq owners :
  refs_ok owners (pbufs st) -> last_ok (pbufs st) ->
  p ∈ owners -> pbufs st !! p = Some b -> 0 <= pb_tot_len b - pb_len b < 65536 ->
  (pb_next b <> NULL -> pbufs st !! pb_next b = Some bq /\ pb_tot_len bq = pb_tot_len b - pb_len b) ->
  exists q bs, pbuf_dechain p st = Some (q, set_pbufs bs st) /\ refs_ok owners bs /\ last_ok bs.
Proof.
  intros H Hl Hown Hp Hr Hq. unfold pbuf_dechain. rewrite (bind_getp _ _ _ _ Hp).
  destruct (Z.eqb_spec (pb_next b) NULL) as [E|E].
  - rewrite bind_mret.
    rewrite (bind_getp _ _ _ _ Hp), bind_lassert by (apply Z.eqb_eq; by apply (Hl p)).
    exists NULL, (pbufs st). by rewrite set_pbufs_id.
  - destruct (Hq E) as [Hbq Et]. set (q := pb_next b) in *.
    assert (q <> p) as Hqp.
    { intros Eqp. destruct (ro_chain _ _ H _ _ Hp) as [l Hc]. fold q in Hc. rewrite Eqp in Hc.
      assert (pchain (pbufs st) p ((p, b) :: l)) as Hc2.
      { simpl. split_and!; [done|by eapply refs_ok_ne|done|]. fold q. by rewrite Eqp. }
      pose proof (pchain_fun _ _ _ _ Hc Hc2) as El. apply (f_equal length) in El. simpl in El. lia. }
    unfold mbind at 1, ST_bind at 1. rewrite (bind_getp _ _ _ _ Hbq).
    rewrite bind_lassert by by apply Z.eqb_eq.
    rewrite (bind_updp _ _ _ _ _ Hbq). rewrite wrap_small by done.
    rewrite (bind_updp p b) by (simpl; by rewrite lookup_insert_ne).
    rewrite (bind_updp p (set_pb_next NULL b)) by (simpl; apply lookup_insert_eq).
    simpl pbufs. rewrite !set_pbufs_pbufs, insert_insert_eq.
    set (bq' := set_pb_tot_len _ bq). set (b' := set_pb_tot_len _ _).
    set (bs1 := <[p := b']> (<[q := bq']> (pbufs st))).
    assert (refs_ok (q :: owners) bs1) as H1.
    { apply (refs_ok_unlink owners _ p b b' q); try done; [|by rewrite lookup_insert_ne].
      by apply (refs_ok_modify _ _ q bq). }
    destruct (pbuf_free_refs (set_pbufs bs1 st) q owners H1) as (n & bs & En & Ho & Hro).
    rewrite En. simpl in Hro.
    assert (last_ok bs1) as Hl1.
    { intros a c. unfold bs1. destruct (decide (a = p)) as [->|].
      - rewrite lookup_insert_eq. by intros [= <-].
      - rewrite lookup_insert_ne by done. destruct (decide (a = q)) as [->|].
        + rewrite lookup_insert_eq. intros [= <-]. simpl. rewrite <-Et. apply (Hl _ _ Hbq).
        + rewrite lookup_insert_ne by done. apply Hl. }
    pose proof (last_ok_refs_only _ _ Hl1 Hro) as Hl2.
    destruct (ro_owner _ _ Ho p Hown) as [b2 Hb2]. destruct (Hro _ _ Hb2) as (b3 & Hb3 & Eb).
    unfold bs1 in Hb3. rewrite lookup_insert_eq in Hb3. injection Hb3 as <-.
    rewrite (bind_getp p b2) by done.
    rewrite bind_lassert by (apply Z.eqb_eq; rewrite Eb; done).
    eexists _, bs. split; [done|]. done.
Qed.

(** ** pbuf_chain *)

Lemma pbuf_chain_refs st h t lh lt owners b :
  refs_ok (t :: owners) (pbufs st) -> last_ok (pbufs st) ->
  h <> NULL -> pchain (pbufs st) h lh -> pchain (pbufs st) t lt ->
  (forall a, a ∈ lh.*1 -> a ∉ lt.*1) -> pbufs st !! t = Some b -> pb_ref b < 65535 ->
  exists bs, pbuf_chain h t st = Some (tt, set_pbufs bs st) /\ refs_ok (t :: owners) bs /\ last_ok bs.
Proof.
  intros H Hl Hh Hlh Hlt Hd Hb Hr.
  destruct (pbuf_cat_refs st h t lh lt owners H Hl Hh Hlh Hlt Hd) as (bs & E & Ho & Hlo & Edom & Hrefs).
  assert (is_Some (bs !! t)) as [b' Hb'] by (apply elem_of_dom; rewrite Edom; by eapply elem_of_dom_2).
  destruct (Hrefs _ _ Hb') as (b0 & Hb0 & Er). rewrite Hb in Hb0. injection Hb0 as <-.
  destruct (pbuf_ref_refs (set_pbufs bs st) t owners b') as (bs' & E' & Ho' & Hro); [done|done|lia|].
  exists bs'. unfold pbuf_chain. rewrite (bind_Some _ _ _ _ _ E), E'. split; [done|]. split; [done|].
  by eapply last_ok_refs_only.
Qed.

(** ** pbuf_realloc *)

(** Freeing a chain does not look at a buffer outside of it. *)
Lemma free_loop_frame fuel q c : forall l st p count n bs,
  pchain (pbufs st) p l -> q ∉ l.*1 -> free_loop fuel p count st = Some (n, set_pbufs bs st) ->
  free_loop fuel p count (set_pbufs (<[q := c]> (pbufs st)) st) = Some (n, set_pbufs (<[q := c]> bs) st) /\
  bs !! q = pbufs st !! q.
Proof.
  induction fuel as [|fuel IH]; intros l st p count n bs Hc Hq; [done|]. simpl free_loop.
  destruct (Z.eqb_spec p NULL) as [->|Hp].
  - intros [= -> E]. apply (f_equal pbufs) in E. simpl in E. by subst bs.
  - destruct l as [|[a b] l]; [done|]. pose proof (pchain_NoDup _ _ _ Hc) as Hnd. csimpl in *.
    destruct Hc as (<- & _ & Hb & Hc). apply not_elem_of_cons in Hq as [Hqp Hq]. apply NoDup_cons in Hnd as [Hpl _].
    rewrite (bind_getp _ _ _ _ Hb), (bind_getp p b) by (simpl; by rewrite lookup_insert_ne).
    destruct (0 <? pb_ref b) eqn:E0; [|unfold lassert, mbind, ST_bind; done].
    rewrite !bind_lassert by done. rewrite (bind_updp _ _ _ _ _ Hb), (bind_updp p b) by (simpl; by rewrite lookup_insert_ne).
    simpl pbufs. rewrite set_pbufs_pbufs. destruct (u16 (pb_ref b - 1) =? 0).
    + rewrite !bind_mem_free by (simpl; rewrite lookup_insert_eq; eauto). simpl pbufs.
      rewrite !set_pbufs_pbufs, !delete_insert_eq. intros E.
      destruct (IH l (set_pbufs (delete p (pbufs st)) st) (pb_next b) (u8 (count + 1)) n bs) as [E1 E2]; [|done|done|].
      * by apply pchain_delete.
      * simpl in E1, E2. rewrite set_pbufs_pbufs in E1. rewrite delete_insert_ne by done. rewrite E1.
        split; [done|]. rewrite E2. by rewrite lookup_delete_ne.
    + intros [= -> <-].
      rewrite (insert_insert_ne _ p q) by done. split; [done|]. by rewrite lookup_insert_ne.
Qed.

(** The loop over the buffers that stay changes lengths only. *)
Lemma realloc_keep_refs fuel : forall st q rem_len grow r st' owners,
  realloc_keep fuel q rem_len grow st = Some (r, st') -> refs_ok owners (pbufs st) -> last_ok (pbufs st) ->
  exists bs, st' = set_pbufs bs st /\ refs_ok owners bs /\ last_ok bs.
Proof.
  induction fuel as [|fuel IH]; intros st q rem_len grow r st' owners; [done|]. simpl realloc_keep.
  intros (b & s1 & Eb & E)%bind_inv Hr Hl. unfold getp in Eb. destruct (pbufs st !! q) as [b1|] eqn:Hb; [|done].
  injection Eb as -> <-. destruct (pb_len b <? rem_len).
  2: { injection E as _ <-. exists (pbufs st). by rewrite set_pbufs_id. }
  apply bind_inv in E as ([] & s2 & Ea & E). unfold lassert in Ea. destruct (grow <? 65535); [|done]. injection Ea as <-.
  rewrite (bind_updp _ _ _ _ _ Hb) in E. apply bind_inv in E as ([] & s3 & Ea & E). unfold lassert in Ea.
  destruct (Z.eqb_spec (pb_next b) NULL) as [|Hn]; [done|]. injection Ea as <-.
  apply (IH _ _ _ _ _ _ owners) in E as (bs & -> & Ho & Hlo).
  - exists bs. split_and!; [by rewrite set_pbufs_pbufs|done|done].
  - simpl. by eapply refs_ok_modify.
  - simpl. intros a c. destruct (decide (a = q)) as [->|].
    + rewrite lookup_insert_eq. intros [= <-]. by simpl.
    + rewrite lookup_insert_ne by done. apply Hl.
Qed.

(** The tail behind [q] is freed and then cut off. *)
Lemma cut_refs owners st q b n st1 st2 :
  refs_ok owners (pbufs st) -> pbufs st !! q = Some b -> pb_next b <> NULL ->
  pbuf_free (pb_next b) st = Some (n, st1) -> updp q (set_pb_next NULL) st1 = Some (tt, st2) ->
  exists bs, st2 = set_pbufs bs st /\ refs_ok owners bs /\ refs_only (<[q := set_pb_next NULL b]> (pbufs st)) bs.
Proof.
  intros H Hb Hn E1 E2. destruct (ro_chain _ _ H _ _ Hb) as [l Hl].
  assert (q ∉ l.*1) as Hq.
  { assert (pchain (pbufs st) q ((q, b) :: l)) as Hc by (simpl; split_and!; try done; by eapply refs_ok_ne).
    by apply pchain_NoDup, NoDup_cons in Hc as [? _]. }
  set (bs1 := <[q := set_pb_next NULL b]> (pbufs st)).
  assert (refs_ok (pb_next b :: owners) bs1) as H1 by by apply (refs_ok_unlink _ _ q b).
  destruct (pbuf_free_refs (set_pbufs bs1 st) (pb_next b) owners H1) as (k & bs & Ek & Ho & Hro).
  unfold pbuf_free in E1, Ek. rewrite bind_lassert, bind_chain_bound in E1, Ek by by apply negb_true_iff, Z.eqb_neq.
  rewrite set_pbufs_pbufs in Ek.
  destruct (free_loop_frame (chain_fuel (set_pbufs bs1 st)) q b l (set_pbufs bs1 st) (pb_next b) 0 k bs) as [Ef Eq];
    [by apply pchain_insert|done|by rewrite set_pbufs_pbufs|].
  change (pbufs (set_pbufs bs1 st)) with bs1 in Ef, Eq. rewrite !set_pbufs_pbufs in Ef.
  assert (chain_fuel (set_pbufs bs1 st) = chain_fuel st) as Ec.
  { unfold chain_fuel. simpl. unfold bs1. rewrite map_size_insert_Some by done. done. }
  assert (<[q := b]> bs1 = pbufs st) as Eb by (unfold bs1; by rewrite insert_insert_eq, insert_id).
  rewrite Eb, set_pbufs_id, Ec, E1 in Ef. injection Ef as <- ->.
  rewrite (updp_Some q b) in E2 by (simpl; apply lookup_insert_eq). injection E2 as <-.
  exists bs. simpl. rewrite !set_pbufs_pbufs, insert_insert_eq, insert_id; [done|].
  rewrite Eq. unfold bs1. apply lookup_insert_eq.
Qed.

Lemma pbuf_realloc_refs st p new_len st' owners :
  refs_ok owners (pbufs st) -> last_ok (pbufs st) -> pbuf_realloc p new_len st = Some (tt, st') ->
  refs_ok owners (pbufs st') /\ last_ok (pbufs st').
Proof.
  intros H Hl. unfold pbuf_realloc.
  intros ([] & s1 & E1 & E)%bind_inv. unfold lassert in E1. destruct (negb _); [|done]. injection E1 as <-.
  apply bind_inv in E as (b & s1 & E1 & E). unfold getp in E1. destruct (pbufs st !! p); [|done]. injection E1 as -> <-.
  destruct (_ <=? _); [by injection E as <-|]. rewrite bind_chain_bound in E.
  apply bind_inv in E as ([q rem_len] & s1 & Ek & E).
  destruct (realloc_keep_refs _ _ _ _ _ _ _ _ Ek H Hl) as (bs & -> & Ho & Hlo).
  apply bind_inv in E as ([] & s2 & Eu & E). destruct (bs !! q) as [c|] eqn:Hc; [|unfold updp in Eu; simpl in Eu; by rewrite Hc in Eu].
  rewrite (updp_Some q c) in Eu by done. injection Eu as <-. simpl pbufs in E. rewrite set_pbufs_pbufs in E.
  rewrite (bind_updp q (set_pb_len rem_len c)) in E by (simpl; apply lookup_insert_eq). simpl pbufs in E.
  rewrite set_pbufs_pbufs, insert_insert_eq in E. simpl pb_len in E.
  set (c' := set_pb_tot_len rem_len (set_pb_len rem_len c)) in E. set (bs1 := <[q := c']> bs) in E.
  assert (refs_ok owners bs1) as H1 by by apply (refs_ok_modify _ _ q c).
  assert (bs1 !! q = Some c') as Hc' by apply lookup_insert_eq.
  rewrite (bind_getp q c') in E by done.
  assert (last_ok (<[q := set_pb_next NULL c']> bs1)) as Hl1.
  { intros a d. unfold bs1. rewrite insert_insert_eq. destruct (decide (a = q)) as [->|].
    - rewrite lookup_insert_eq. by intros [= <-].
    - rewrite lookup_insert_ne by done. apply Hlo. }
  destruct (Z.eqb_spec (pb_next c') NULL) as [En|En].
  - change (swhen (negb true) _) with (mret tt : NM unit) in E. rewrite bind_mret, (updp_Some q c') in E by done.
    injection E as <-. simpl. replace (set_pb_next NULL c') with c' in * by (unfold set_pb_next; destruct c'; simpl in *; congruence).
    by rewrite insert_id in * by done.
  - cbn [negb swhen] in E. rewrite bind_assoc in E. apply bind_inv in E as (n & s3 & Ef & E). rewrite bind_mret in E.
    destruct (cut_refs owners (set_pbufs bs1 st) q c' n s3 st' H1 Hc' En Ef E) as (bs2 & -> & Ho2 & Hro). simpl in *.
    split; [done|]. by eapply last_ok_refs_only.
Qed.

(** ** Sequences of calls *)

(** Every buffer is referenced, so when nobody owns any there is none. *)
Lemma refs_ok_no_owner bs : refs_ok [] bs -> bs = ∅.
Proof.
  intros H. destruct (decide (bs = ∅)) as [|Hne]; [done|]. exfalso.
  assert (forall n, exists p b l, pchain bs p ((p, b) :: l) /\ (n <= length l)%nat) as Hlong.
  { induction n as [|n (p & b & l & Hc & Hn)].
    - apply map_choose in Hne as (p & b & Hb). destruct (ro_chain _ _ H _ _ Hb) as [l Hl].
      exists p, b, l. split; [|lia]. simpl. split_and!; try done. by eapply refs_ok_ne.
    - destruct Hc as (_ & Hp & Hb & Hc). destruct (ro_ref _ _ H _ _ Hb) as [E R].
      unfold refs in E. simpl in E. unfold nexts in E.
      destruct (map_choose (filter (fun ab => pb_next ab.2 = p) bs)) as (a & c & Ha).
      { intros E'. rewrite E', map_size_empty in E. lia. }
      apply map_lookup_filter_Some in Ha as [Ha Ec]. simpl in Ec.
      exists a, c, ((p, b) :: l). split; [|simpl; lia]. simpl. rewrite Ec.
      split_and!; try done. by eapply refs_ok_ne. }
  destruct (Hlong (size bs)) as (p & b & l & Hc & Hn). pose proof (pchain_size _ _ _ Hc) as Hs.
  simpl in Hs. lia.
Qed.

Lemma refs_ok_perm owners owners' bs : owners ≡ₚ owners' -> refs_ok owners bs -> refs_ok owners' bs.
Proof.
  intros E [H1 H2 H3 H4]. constructor; [done| | |done].
  - intros p b Hb. destruct (H2 _ _ Hb) as [Er R]. split; [|done]. rewrite Er. unfold refs.
    by rewrite (proj1 (Permutation_count_occ Z.eq_dec owners owners') E).
  - intros p Hp. apply H3. by rewrite E.
Qed.

(** What a program may do with packet buffers.  The list holds the references that it
    owns; a call that consumes one takes it from the list.  A reference is added only to a
    buffer with less than 65535 of them: the source does not check the 16-bit count. *)
Inductive pb_reach : list Z -> netmem -> Prop :=
| pr_init st : pbufs st = ∅ -> pb_reach [] st
| pr_alloc owners st layer length type p st' :
    pb_reach owners st -> fresh_answers (mallocs st) (pbufs st) -> 0 <= length < 65536 ->
    pbuf_alloc layer length type st = Some (p, st') -> pb_reach (with_head p owners) st'
| pr_free owners st p owners' n st' :
    pb_reach owners st -> owners ≡ₚ p :: owners' -> pbuf_free p st = Some (n, st') ->
    pb_reach owners' st'
| pr_ref owners st p b st' :
    pb_reach owners st -> pbufs st !! p = Some b -> pb_ref b < 65535 ->
    pbuf_ref p st = Some (tt, st') -> pb_reach (p :: owners) st'
| pr_cat owners st h t owners' lh lt st' :
    pb_reach owners st -> owners ≡ₚ t :: owners' -> h <> NULL ->
    pchain (pbufs st) h lh -> pchain (pbufs st) t lt -> (forall a, a ∈ lh.*1 -> a ∉ lt.*1) ->
    pbuf_cat h t st = Some (tt, st') -> pb_reach owners' st'
| pr_dechain owners st p b bq q st' :
    pb_reach owners st -> p ∈ owners -> pbufs st !! p = Some b ->
    0 <= pb_tot_len b - pb_len b < 65536 ->
    (pb_next b <> NULL -> pbufs st !! pb_next b = Some bq /\ pb_tot_len bq = pb_tot_len b - pb_len b) ->
    pbuf_dechain p st = Some (q, st') -> pb_reach owners st'
| pr_chain owners st h t owners' lh lt b st' :
    pb_reach owners st -> owners ≡ₚ t :: owners' -> h <> NULL ->
    pchain (pbufs st) h lh -> pchain (pbufs st) t lt -> (forall a, a ∈ lh.*1 -> a ∉ lt.*1) ->
    pbufs st !! t = Some b -> pb_ref b < 65535 ->
    pbuf_chain h t st = Some (tt, st') -> pb_reach owners st'
| pr_realloc owners st p new_len st' :
    pb_reach owners st -> p ∈ owners -> 0 <= new_len < 65536 ->
    pbuf_realloc p new_len st = Some (tt, st') -> pb_reach owners st'.

Lemma allocated_last_ok layer length type bks l bs bs0 p :
  last_ok bs0 -> built bs bs0 p l -> allocated layer length type bks l -> last_ok bs.
Proof.
  intros Hl Hb Ha a c Hc Hn. destruct (decide (a ∈ l.*1)) as [Hin|Hni].
  - apply list_elem_of_fmap in Hin as ([a' b] & -> & Hin). simpl in *.
    pose proof (pchain_elem _ _ _ _ _ (bl_chain _ _ _ _ Hb) Hin) as Hb'.
    rewrite Hc in Hb'. injection Hb' as <-.
    apply list_elem_of_split in Hin as (l1 & l2 & ->).
    pose proof (bl_chain _ _ _ _ Hb) as Hch. apply pchain_app in Hch as [r (_ & _ & _ & Hch)].
    rewrite Hn in Hch. pose proof (pchain_fun _ _ _ [] Hch eq_refl) as ->.
    pose proof (al_tot _ _ _ _ _ Ha) as Ht. clear -Ht.
    induction l1 as [|[x y] l1 IH]; simpl in Ht; [lia|]. destruct Ht as [_ Ht]. by apply IH.
  - rewrite (bl_rest _ _ _ _ Hb) in Hc by done. by apply (Hl a).
Qed.

Lemma pb_reach_ok owners st : pb_reach owners st -> refs_ok owners (pbufs st) /\ last_ok (pbufs st).
Proof.
  induction 1 as [st E|owners st layer length type p st' _ [IH Il] Hf Hl E
    |owners st p owners' n st' _ [IH Il] Ep E|owners st p b st' _ [IH Il] Hb Hr E
    |owners st h t owners' lh lt st' _ [IH Il] Ep Hh Hlh Hlt Hd E
    |owners st p b bq q st' _ [IH Il] Hin Hb Hr Hq E
    |owners st h t owners' lh lt b st' _ [IH Il] Ep Hh Hlh Hlt Hd Hb Hr E
    |owners st p new_len st' _ [IH Il] Hin Hn E].
  - rewrite E. split; [|intros ? ? ?; done]. constructor; try done.
    by intros p ?%not_elem_of_nil.
  - destruct (pbuf_alloc_run st layer length type Hf Hl) as (p' & st1 & E1 & _ & H1).
    rewrite E in E1. injection E1 as <- <-. destruct H1 as [[-> Eb]|(Hp & l & Hb & Ha)].
    + by rewrite Eb.
    + split; [by eapply built_refs_ok|by eapply allocated_last_ok].
  - apply (refs_ok_perm _ _ _ Ep) in IH. destruct (pbuf_free_refs st p owners' IH) as (k & bs & E1 & Ho & Hro).
    rewrite E in E1. injection E1 as <- ->. split; [done|]. by eapply last_ok_refs_only.
  - destruct (pbuf_ref_refs st p owners b IH Hb Hr) as (bs & E1 & Ho & Hro).
    rewrite E in E1. injection E1 as ->. split; [done|]. by eapply last_ok_refs_only.
  - apply (refs_ok_perm _ _ _ Ep) in IH.
    destruct (pbuf_cat_refs st h t lh lt owners' IH Il Hh Hlh Hlt Hd) as (bs & E1 & Ho & Hlo & _).
    rewrite E in E1. injection E1 as ->. done.
  - destruct (pbuf_dechain_refs st p b bq owners IH Il Hin Hb Hr Hq) as (q' & bs & E1 & Ho & Hlo).
    rewrite E in E1. injection E1 as <- ->. done.
  - pose proof (refs_ok_perm _ _ _ Ep IH) as IH'.
    destruct (pbuf_chain_refs st h t lh lt owners' b IH' Il Hh Hlh Hlt Hd Hb Hr) as (bs & E1 & Ho & Hlo).
    rewrite E in E1. injection E1 as ->. split; [|done]. by eapply refs_ok_perm.
  - by eapply pbuf_realloc_refs.
Qed.

(** C15. Over every sequence of allocations, frees, references, concatenations, chainings,
    dechainings and truncations ([pbuf_realloc]) in which each call owns the reference
    that it gives up, chains that are joined are disjoint, and no buffer has 65535
    references when one is added (the 16-bit count would wrap): each count is exactly the
    number of owners and [next] pointers of its buffer; every owner's pointer is to a live
    buffer, on which [pbuf_free] ends without a failed assertion and leaves all still
    referenced buffers unchanged but for their counts; and when nothing is owned,
    everything has been freed. *)
Theorem pbuf_refcounts owners st :
  pb_reach owners st ->
  (forall p b, pbufs st !! p = Some b -> pb_ref b = refs owners (pbufs st) p /\ 0 < pb_ref b) /\
  (forall p owners', owners ≡ₚ p :: owners' ->
     exists n bs, pbuf_free p st = Some (n, set_pbufs bs st) /\ refs_only (pbufs st) bs /\
       forall a, a ∈ owners' -> is_Some (bs !! a)) /\
  (owners = [] -> pbufs st = ∅).
Proof.
  intros [H _]%pb_reach_ok. split_and!.
  - intros p b Hb. destruct (ro_ref _ _ H _ _ Hb). split; [done|lia].
  - intros p owners' Ep. apply (refs_ok_perm _ _ _ Ep) in H.
    destruct (pbuf_free_refs st p owners' H) as (n & bs & E & Ho & Hr).
    exists n, bs. split_and!; [done|done|]. apply Ho.
  - intros ->. by apply refs_ok_no_owner.
Qed.

(** The count of a buffer with 65535 references wraps to zero. *)
Example pbuf_ref_wraps :
  let st := NetMem ∅ {[ 4096 := Pbuf NULL 4112 4 4 PBUF_RAM 0 65535 ]} [] 0 [] 0 ∅ in
  pbuf_ref 4096 st = Some (tt, set_pbufs {[ 4096 := Pbuf NULL 4112 4 4 PBUF_RAM 0 0 ]} st) /\
  (pbuf_ref 4096 ;; pbuf_free 4096) st = None.
Proof. by vm_compute. Qed.

(** A transport buffer and a payload, concatenated, shared, cut and freed twice. *)
Lemma pbuf_refcounts_witness :
  exists st, pb_reach [] st /\ pbufs st = ∅.
Proof.
  set (st0 := NetMem ∅ ∅ [Some 4096; Some 8192] 0 [] 0 ∅).
  assert (pb_reach [] st0) as H0 by by apply pr_init.
  eassert (pb_reach _ _) as H1.
  { eapply (pr_alloc [] st0 PBUF_TRANSPORT 20 PBUF_RAM); [done| |lia|vm_compute; reflexivity].
    split; [|by apply (bool_decide_unpack _); vm_compute]. repeat constructor; simpl; lia. }
  eassert (pb_reach _ _) as H2.
  { eapply (pr_alloc _ _ PBUF_RAW 100 PBUF_RAM); [exact H1| |lia|vm_compute; reflexivity].
    split; [|by apply (bool_decide_unpack _); vm_compute]. repeat constructor; simpl; lia. }
  eassert (pb_reach _ _) as H3.
  { eapply (pr_cat _ _ 4096 8192 [4096] [(4096, _)] [(8192, _)]); [exact H2|reflexivity|lia| | | |vm_compute; reflexivity].
    - simpl. split_and!; [reflexivity|lia|vm_compute; reflexivity|reflexivity].
    - simpl. split_and!; [reflexivity|lia|vm_compute; reflexivity|reflexivity].
    - csimpl. intros a ->%list_elem_of_singleton. by intros ?%list_elem_of_singleton. }
  eassert (pb_reach _ _) as H4.
  { eapply (pr_ref _ _ 8192); [exact H3|vm_compute; reflexivity|vm_compute; reflexivity|vm_compute; reflexivity]. }
  eassert (pb_reach _ _) as H5'.
  { eapply (pr_realloc _ _ 4096 10); [exact H4|apply list_elem_of_further, list_elem_of_here|lia|vm_compute; reflexivity]. }
  eassert (pb_reach _ _) as H5.
  { eapply (pr_free _ _ 4096 [8192]); [exact H5'|apply Permutation_swap|vm_compute; reflexivity]. }
  eassert (pb_reach _ _) as H6.
  { eapply (pr_free _ _ 8192 []); [exact H5|reflexivity|vm_compute; reflexivity]. }
  eexists. split; [exact H6|]. apply (pbuf_refcounts [] _ H6). reflexivity.
Defined.
