(* ===== verification/PbufData.v ===== *)
(** * The contents of packet buffers

    What the operations of Pbuf do to the bytes of a chain, seen as one sequence
    [chain_data]: reading, searching, copying out and in, hiding and revealing
    headers, shrinking. *)

From S2P Require Import Prelude StateM LwipMem Chksum Pbuf PbufRef.

Lemma chain_data_length m l bs :
  lens_ok l -> chain_data m l = Some bs -> Z.of_nat (length bs) = chain_len l.
Proof.
  intros Hl. revert bs. induction Hl as [|[a b] l Hb _ IH]; intros bs.
  - by intros [= <-].
  - intros (d & r & -> & Hd & Hr)%chain_data_cons. rewrite length_app, Nat2Z.inj_add, (IH _ Hr).
    rewrite (read_bytes_length _ _ _ _ Hd). simpl in *. lia.
Qed.

Lemma chain_len_nonneg l : lens_ok l -> 0 <= chain_len l.
Proof. induction 1; simpl in *; [done|]. lia. Qed.

Lemma read_bytes_nth m a n d i :
  read_bytes m a n = Some d -> (i < n)%nat -> m !! (a + Z.of_nat i) = d !! i.
Proof.
  revert a n d. induction i as [|i IH]; intros a n d Hr Hi; (destruct n as [|n]; [lia|]);
    pose proof (read_bytes_length _ _ _ _ Hr) as L; (destruct d as [|b d]; [done|]);
    apply read_bytes_S in Hr as [Hb Hr].
  - by rewrite Z.add_0_r.
  - simpl lookup. rewrite <-(IH _ _ _ Hr) by lia. f_equal. lia.
Qed.

(** ** Searching *)

(** Where [locate] stops: at the end, or at a suffix of the chain. *)
Definition located (st : netmem) (bs : list Z) (from : Z) (r : Z * Z) : Prop :=
  (Z.of_nat (length bs) <= from /\ r.1 = NULL) \/
  (exists b l2 pre d, r.1 <> NULL /\ bs = pre ++ d /\
     pchain (pbufs st) r.1 ((r.1, b) :: l2) /\ lens_ok ((r.1, b) :: l2) /\
     chain_data (ram st) ((r.1, b) :: l2) = Some d /\
     0 <= r.2 < pb_len b /\ from = Z.of_nat (length pre) + r.2).

Lemma locate_spec l : forall fuel st q from bs,
  lens_ok l -> pchain (pbufs st) q l -> (length l < fuel)%nat ->
  chain_data (ram st) l = Some bs -> 0 <= from < 65536 ->
  exists r, locate fuel q from st = Some (r, st) /\ located st bs from r.
Proof.
  induction l as [|[a b] l IH]; intros [|fuel] st q from bs Hl Hc Hf Hd Hfr; try (simpl in *; lia).
  - simpl in Hc. subst q. injection Hd as <-. eexists. split; [done|]. left. simpl. lia.
  - pose proof Hc as Hc0. pose proof Hd as Hd0. destruct Hc as (-> & Hn & Hb & Hc).
    inversion Hl as [|? ? Hlen Hl']; subst. simpl in Hlen.
    apply chain_data_cons in Hd as (d & r & -> & Hd & Hr).
    pose proof (read_bytes_length _ _ _ _ Hd) as L.
    simpl locate. destruct (Z.eqb_spec a NULL); [done|]. rewrite (bind_getp _ _ _ _ Hb).
    destruct (Z.leb_spec (pb_len b) from) as [Hle|Hlt].
    + rewrite wrap_small by (unfold in_u; lia).
      destruct (IH fuel st (pb_next b) (from - pb_len b) r) as (x & E & Hx); [done..|simpl in *; lia|done|lia|].
      exists x. split; [done|]. destruct Hx as [[Hx1 Hx2]|(b2 & l2 & pre & d2 & H1 & -> & H3 & H4 & H5 & H6 & H7)].
      * left. rewrite length_app. split; [lia|done].
      * right. exists b2, l2, (d ++ pre), d2. rewrite <-app_assoc, length_app.
        split_and!; try done; lia.
    + exists (a, from). split; [done|]. right. exists b, l, [], (d ++ r). simpl. split_and!; try done; lia.
Qed.

Lemma pbuf_get_at_run l st p offset bs :
  lens_ok l -> pchain (pbufs st) p l -> chain_data (ram st) l = Some bs -> 0 <= offset < 65536 ->
  pbuf_get_at p offset st = Some (default 0 (bs !! Z.to_nat offset), st).
Proof.
  intros Hl Hc Hd Ho. unfold pbuf_get_at. rewrite bind_chain_bound.
  destruct (locate_spec l (chain_fuel st) st p offset bs Hl Hc) as ([q off] & E & Hx);
    [by eapply chain_fuel_length|done|done|]. rewrite (bind_Some _ _ _ _ _ E).
  destruct Hx as [[Hx1 Hx2]|(b2 & l2 & pre & d2 & H1 & -> & H3 & H4 & H5 & H6 & H7)]; simpl in *.
  - subst q. simpl. rewrite lookup_ge_None_2 by lia. done.
  - destruct (Z.eqb_spec q NULL); [done|]. destruct H3 as (_ & _ & Hb & _).
    rewrite (bind_getp _ _ _ _ Hb). apply (chain_data_cons _ q) in H5 as (d & r & -> & Hr & _).
    pose proof (read_bytes_length _ _ _ _ Hr) as L.
    unfold load8. rewrite <-(Z2Nat.id off) at 1 by lia.
    rewrite (read_bytes_nth _ _ _ _ _ Hr) by lia.
    rewrite lookup_app_r by lia. replace (Z.to_nat offset - length pre)%nat with (Z.to_nat off) by lia.
    rewrite lookup_app_l by lia.
    destruct (lookup_lt_is_Some_2 d (Z.to_nat off) ltac:(lia)) as [x Hx]. by rewrite Hx.
Qed.

(** The bytes that [pbuf_memcmp] compares: those of the packet, and zeros after
    its end. *)
Definition view (bs : list Z) (offset i : Z) : Z := default 0 (bs !! Z.to_nat (offset + i)).

(** [i + 1] for the first difference from [i] on, 0 when there is none. *)
Fixpoint first_diff (n : nat) (f g : Z -> Z) (i : Z) : Z :=
  match n with
  | O => 0
  | S n => if f i =? g i then first_diff n f g (i + 1) else i + 1
  end.

Lemma memcmp_loop_run l st q start s2 s bs : forall fuel n i,
  lens_ok l -> pchain (pbufs st) q l -> chain_data (ram st) l = Some bs ->
  read_bytes (ram st) s2 (length s) = Some s ->
  0 <= start -> 0 <= i -> i + Z.of_nat n = Z.of_nat (length s) ->
  start + Z.of_nat (length s) <= 65536 -> Z.of_nat (length s) < 65536 -> (n < fuel)%nat ->
  memcmp_loop fuel q start s2 (Z.of_nat (length s)) i st =
  Some (first_diff n (view bs start) (fun i => default 0 (s !! Z.to_nat i)) i, st).
Proof.
  induction fuel as [|fuel IH]; intros n i Hl Hc Hd Hs H0 Hi Hn Hb Hb2 Hf; [lia|].
  simpl memcmp_loop. destruct (Z.ltb_spec i (Z.of_nat (length s))) as [Hlt|Hge].
  - destruct n as [|n]; [lia|]. rewrite (wrap_small 16 (start + i)) by (unfold in_u; lia).
    rewrite (bind_Some _ _ _ _ _ (pbuf_get_at_run l st q (start + i) bs Hl Hc Hd ltac:(lia))).
    destruct (lookup_lt_is_Some_2 s (Z.to_nat i) ltac:(lia)) as [c Hc'].
    assert (load8 (s2 + i) st = Some (c, st)) as El.
    { unfold load8. rewrite <-(Z2Nat.id i) at 1 by lia.
      rewrite (read_bytes_nth _ _ _ _ _ Hs) by lia. by rewrite Hc'. }
    rewrite (bind_Some _ _ _ _ _ El). cbn [first_diff]. rewrite Hc'. unfold view at 1. simpl default.
    destruct (Z.eqb_spec (default 0 (bs !! Z.to_nat (start + i))) c); simpl negb; cbv iota.
    + rewrite wrap_small by (unfold in_u; lia). apply IH; try done; lia.
    + rewrite wrap_small by (unfold in_u; lia). done.
  - destruct n as [|n]; [done|lia].
Qed.

Lemma pbuf_memcmp_run l st p offset s2 s bs :
  lens_ok l -> pchain (pbufs st) p l -> chain_data (ram st) l = Some bs ->
  read_bytes (ram st) s2 (length s) = Some s -> 0 <= offset < 65536 ->
  offset + Z.of_nat (length s) <= 65536 -> Z.of_nat (length s) < 65536 ->
  pbuf_memcmp p offset s2 (Z.of_nat (length s)) st =
  Some (if Z.of_nat (length bs) <=? offset then 65535
        else first_diff (length s) (view bs offset) (fun i => default 0 (s !! Z.to_nat i)) 0, st).
Proof.
  intros Hl Hc Hd Hs Ho Hb Hb2. unfold pbuf_memcmp. rewrite bind_chain_bound.
  destruct (locate_spec l (chain_fuel st) st p offset bs Hl Hc) as ([q off] & E & Hx);
    [by eapply chain_fuel_length|done|done|]. rewrite (bind_Some _ _ _ _ _ E).
  destruct Hx as [[Hx1 Hx2]|(b2 & l2 & pre & d2 & H1 & -> & H3 & H4 & H5 & H6 & H7)]; cbv beta iota.
  - simpl in Hx2. subst q. simpl. destruct (Z.leb_spec (Z.of_nat (length bs)) offset); [done|lia].
  - simpl in H1, H3, H4, H5, H6, H7. destruct (Z.eqb_spec q NULL); [done|].
    pose proof (chain_data_length _ _ _ H4 H5) as L2.
    assert (0 <= chain_len l2) by (inversion H4; by apply chain_len_nonneg).
    destruct (Z.leb_spec (Z.of_nat (length (pre ++ d2))) offset);
      [rewrite length_app in *; simpl in L2; lia|].
    rewrite (memcmp_loop_run ((q, b2) :: l2) st q off s2 s d2 _ (length s) 0); try done; try lia.
    do 2 f_equal. assert (forall n i, 0 <= i ->
      first_diff n (view d2 off) (fun i => default 0 (s !! Z.to_nat i)) i =
      first_diff n (view (pre ++ d2) offset) (fun i => default 0 (s !! Z.to_nat i)) i) as Hext; [|by apply Hext].
    intros k. induction k as [|k IH]; intros i Hi; simpl; [done|]. rewrite (IH (i + 1)) by lia.
    assert (view d2 off i = view (pre ++ d2) offset i) as ->; [|done].
    unfold view. rewrite lookup_app_r by lia. do 2 f_equal. lia.
Qed.

Lemma first_diff_range n f g i : 0 <= i -> 0 <= first_diff n f g i <= i + Z.of_nat n.
Proof.
  revert i. induction n as [|n IH]; intros i Hi; cbn [first_diff]; [lia|].
  destruct (f i =? g i); [specialize (IH (i + 1)); lia|lia].
Qed.

Lemma first_diff_zero n f g i :
  0 <= i -> first_diff n f g i = 0 -> forall j, i <= j < i + Z.of_nat n -> f j = g j.
Proof.
  revert i. induction n as [|n IH]; intros i Hi H j Hj; [lia|]. cbn [first_diff] in H.
  destruct (Z.eqb_spec (f i) (g i)) as [E|E]; [|lia].
  destruct (decide (j = i)) as [->|]; [done|]. apply (IH (i + 1)); [lia|done|lia].
Qed.

(** No difference: the bytes stand at [i]. *)
Lemma view_match bs s i :
  0 <= i -> i + Z.of_nat (length s) <= Z.of_nat (length bs) ->
  first_diff (length s) (view bs i) (fun i => default 0 (s !! Z.to_nat i)) 0 = 0 ->
  take (length s) (drop (Z.to_nat i) bs) = s.
Proof.
  intros Hi Hl H. apply list_eq. intros j. destruct (decide (j < length s)%nat) as [Hj|Hj].
  - rewrite lookup_take_lt, lookup_drop by done.
    pose proof (first_diff_zero _ _ _ 0 ltac:(lia) H (Z.of_nat j) ltac:(lia)) as E.
    unfold view in E. cbv beta in E. rewrite Nat2Z.id in E.
    replace (Z.to_nat (i + Z.of_nat j)) with (Z.to_nat i + j)%nat in E by lia.
    destruct (lookup_lt_is_Some_2 s j Hj) as [x Hx].
    destruct (lookup_lt_is_Some_2 bs (Z.to_nat i + j) ltac:(lia)) as [y Hy].
    rewrite Hx, Hy in *. simpl in E. congruence.
  - rewrite (lookup_ge_None_2 s) by lia. apply lookup_ge_None_2. rewrite length_take. lia.
Qed.

Lemma memfind_loop_run l st p mem s bs : forall fuel i,
  lens_ok l -> pchain (pbufs st) p l -> chain_data (ram st) l = Some bs ->
  read_bytes (ram st) mem (length s) = Some s -> (0 < length s)%nat ->
  Z.of_nat (length bs) < 65536 -> Z.of_nat (length s) <= Z.of_nat (length bs) ->
  0 <= i <= Z.of_nat (length bs) -> (Z.to_nat (65536 - i) < fuel)%nat ->
  exists r, memfind_loop fuel p mem (Z.of_nat (length s))
              (Z.of_nat (length bs) - Z.of_nat (length s)) i st = Some (r, st) /\
    (r = 65535 \/ i <= r /\ take (length s) (drop (Z.to_nat r) bs) = s).
Proof.
  induction fuel as [|fuel IH]; intros i Hl Hc Hd Hs Hp Hb Hsb Hi Hf; [lia|].
  simpl memfind_loop. destruct (Z.leb_spec i (Z.of_nat (length bs) - Z.of_nat (length s))) as [Hle|Hgt].
  2: { exists 65535. eauto. }
  rewrite (bind_Some _ _ _ _ _ (pbuf_memcmp_run l st p i mem s bs Hl Hc Hd Hs ltac:(lia) ltac:(lia) ltac:(lia))).
  destruct (Z.leb_spec (Z.of_nat (length bs)) i); [lia|].
  pose proof (first_diff_range (length s) (view bs i) (fun i => default 0 (s !! Z.to_nat i)) 0 ltac:(lia)) as R.
  destruct (Z.eqb_spec (first_diff (length s) (view bs i) (fun i => default 0 (s !! Z.to_nat i)) 0) 0) as [E|E].
  - exists i. split; [done|]. right. split; [lia|]. apply view_match; [lia|lia|done].
  - rewrite wrap_small by (unfold in_u; lia).
    destruct (IH (i + first_diff (length s) (view bs i) (fun i => default 0 (s !! Z.to_nat i)) 0))
      as (r & Er & Hr); [done..|lia|lia|]. exists r. split; [done|].
    destruct Hr as [|[? ?]]; [by left|right; split; [lia|done]].
Qed.

(** Reading one byte, comparing and searching in a chain of buffers all end
    and leave the state; a byte is the one of the data at its offset (0 after
    the end), the comparison gives the first difference, and where the search
    finds the text, the text stands. *)
Theorem pbuf_search_sound st p l bs b mem s offset :
  lens_ok l -> pchain (pbufs st) p l -> chain_data (ram st) l = Some bs ->
  pbufs st !! p = Some b -> pb_tot_len b = Z.of_nat (length bs) -> Z.of_nat (length bs) < 65536 ->
  read_bytes (ram st) mem (length s) = Some s -> (0 < length s)%nat ->
  0 <= offset -> offset + Z.of_nat (length s) <= 65536 -> Z.of_nat (length s) < 65536 ->
  pbuf_get_at p (u16 offset) st = Some (default 0 (bs !! Z.to_nat (u16 offset)), st) /\
  pbuf_memcmp p offset mem (Z.of_nat (length s)) st =
    Some (if Z.of_nat (length bs) <=? offset then 65535
          else first_diff (length s) (view bs offset) (fun i => default 0 (s !! Z.to_nat i)) 0, st) /\
  exists r, pbuf_memfind p mem (Z.of_nat (length s)) offset st = Some (r, st) /\
    (r = 65535 \/ offset <= r /\ take (length s) (drop (Z.to_nat r) bs) = s).
Proof.
  intros Hl Hc Hd Hb Ht Hbl Hs Hp Ho Hos Hsl. split_and!.
  - apply (pbuf_get_at_run l); try done. apply (wrap_range 16). lia.
  - apply (pbuf_memcmp_run l); try done; lia.
  - unfold pbuf_memfind. rewrite (bind_getp _ _ _ _ Hb), Ht.
    destruct (Z.leb_spec (Z.of_nat (length s) + offset) (Z.of_nat (length bs))) as [H|H]; [|eauto].
    rewrite wrap_small by (unfold in_u; lia).
    apply (memfind_loop_run l); try done; lia.
Qed.

Definition search_sample : netmem :=
  NetMem (list_to_map [(100, 71); (101, 69); (200, 84); (201, 32); (202, 47); (300, 84); (301, 32)])
    {[ 8 := Pbuf 9 100 5 2 PBUF_RAM 0 1; 9 := Pbuf NULL 200 3 3 PBUF_POOL 0 1 ]} [] 0 [] 0 ∅.

(** "T " is found in "GE", "T /" at offset 2. *)
Lemma pbuf_search_sound_witness :
  exists r, pbuf_memfind 8 300 2 1 search_sample = Some (r, search_sample) /\ r = 2 /\
    take 2 (drop (Z.to_nat r) [71; 69; 84; 32; 47]) = [84; 32].
Proof.
  destruct (pbuf_search_sound search_sample 8
    [(8, Pbuf 9 100 5 2 PBUF_RAM 0 1); (9, Pbuf NULL 200 3 3 PBUF_POOL 0 1)]
    [71; 69; 84; 32; 47] (Pbuf 9 100 5 2 PBUF_RAM 0 1) 300 [84; 32] 1)
    as (_ & _ & r & E & H).
  - unfold lens_ok. repeat constructor; simpl; lia.
  - repeat split; done.
  - vm_compute. reflexivity.
  - vm_compute. reflexivity.
  - reflexivity.
  - simpl. lia.
  - vm_compute. reflexivity.
  - simpl. lia.
  - lia.
  - simpl. lia.
  - simpl. lia.
  - exists r. split; [exact E|].
    assert (pbuf_memfind 8 300 2 1 search_sample = Some (2, search_sample)) as E2
      by (vm_compute; reflexivity).
    assert (r = 2) as -> by (change (Z.of_nat (length [84; 32])) with 2 in E; congruence).
    split; [reflexivity|]. destruct H as [H|[_ H]]; [discriminate H|exact H].
Defined.

(** After a partial match the search skips the bytes that matched and the one
    that did not, and so misses "ab" in "aab". *)
Definition miss_sample : netmem :=
  NetMem (list_to_map [(100, 97); (101, 97); (102, 98); (300, 97); (301, 98); (302, 0)])
    {[ 8 := Pbuf NULL 100 3 3 PBUF_RAM 0 1 ]} [] 0 [] 0 ∅.

Example memfind_misses :
  pbuf_strstr 8 300 miss_sample = Some (65535, miss_sample) /\
  take 2 (drop 1 [97; 97; 98]) = [97; 98].
Proof. split; vm_compute; reflexivity. Qed.

(** A packet that is too short compares as if zeros followed it. *)
Example memcmp_past_end : pbuf_memcmp 8 2 301 2 miss_sample = Some (0, miss_sample).
Proof. vm_compute. reflexivity. Qed.

(** ** Copying out *)

(** The payloads are outside of the [n] bytes at [a]. *)
Definition apart (a n : Z) (l : list (Z * pbuf)) : Prop :=
  Forall (fun ab => pb_payload ab.2 + pb_len ab.2 <= a \/ a + n <= pb_payload ab.2) l.

Lemma write_bytes_app m a xs ys :
  write_bytes m a (xs ++ ys) = m' ← write_bytes m a xs; write_bytes m' (a + Z.of_nat (length xs)) ys.
Proof.
  revert m a. induction xs as [|x xs IH]; intros m a.
  - simpl. by rewrite Z.add_0_r.
  - simpl app. cbn [write_bytes]. destruct (m !! a); simpl; [|done]. rewrite IH.
    replace (a + Z.of_nat (S (length xs))) with (a + 1 + Z.of_nat (length xs)) by lia. done.
Qed.

Lemma chain_data_write m a xs m' l :
  write_bytes m a xs = Some m' -> lens_ok l -> apart a (Z.of_nat (length xs)) l ->
  chain_data m' l = chain_data m l.
Proof.
  intros Hw Hl. induction Hl as [|[p b] l Hb _ IH]; intros Ha; [done|].
  inversion Ha as [|? ? Ha1 Ha2]; subst. simpl in *. rewrite (read_write_frame _ _ _ _ _ _ Hw) by lia.
  by rewrite IH.
Qed.

Lemma apart_le a n n' l : n' <= n -> apart a n l -> apart a n' l.
Proof. intros Hn H. eapply Forall_impl; [done|]. intros ab. simpl. lia. Qed.

Lemma read_bytes_drop m a n d k :
  read_bytes m a n = Some d -> (k <= n)%nat -> read_bytes m (a + Z.of_nat k) (n - k) = Some (drop k d).
Proof.
  intros H Hk. replace n with (k + (n - k))%nat in H by lia.
  apply read_bytes_app in H as (b1 & b2 & -> & H1 & H2). pose proof (read_bytes_length _ _ _ _ H1).
  rewrite drop_app_length' by done. done.
Qed.

Lemma read_bytes_is_Some m a n k :
  is_Some (read_bytes m a n) -> (k <= n)%nat -> is_Some (read_bytes m a k).
Proof. intros [d H] Hk. rewrite (read_bytes_take _ _ _ _ _ H Hk). eauto. Qed.

(** [MEMCPY] of a part of a payload. *)
Lemma read_slice m a n d off k :
  read_bytes m a n = Some d -> 0 <= off -> 0 <= k -> off + k <= Z.of_nat n ->
  read_bytes m (a + off) (Z.to_nat k) = Some (take (Z.to_nat k) (drop (Z.to_nat off) d)).
Proof.
  intros H H0 Hk Ho. rewrite <-(Z2Nat.id off) at 1 by done.
  eapply read_bytes_take; [apply (read_bytes_drop _ _ _ _ _ H); lia|lia].
Qed.

Lemma take_drop_app (d r : list Z) n k :
  (k <= length d)%nat ->
  take n (drop k (d ++ r)) = take n (drop k d) ++ take (n - (length d - k)) r.
Proof. intros Hk. rewrite drop_app_le by done. rewrite take_app. by rewrite length_drop. Qed.

Lemma copy_partial_loop_run l : forall fuel st p dataptr left len offset bs,
  lens_ok l -> pchain (pbufs st) p l -> (length l < fuel)%nat ->
  chain_data (ram st) l = Some bs -> 0 <= offset < 65536 -> 0 <= left -> 0 <= len -> left + len < 65536 ->
  apart (dataptr + left) len l -> is_Some (read_bytes (ram st) (dataptr + left) (Z.to_nat len)) ->
  let data := take (Z.to_nat len) (drop (Z.to_nat offset) bs) in
  exists m, write_bytes (ram st) (dataptr + left) data = Some m /\
    copy_partial_loop fuel p dataptr left len offset left st =
      Some (left + Z.of_nat (length data), set_ram m st).
Proof.
  induction l as [|[a b] l IH]; intros [|fuel] st p dataptr left len offset bs Hl Hc Hf Hd Ho Hle Hlen Hsum Ha Hw;
    try (simpl in *; lia); cbv zeta; cbn [copy_partial_loop].
  - simpl in Hc. subst p. injection Hd as <-. rewrite drop_nil, take_nil. exists (ram st).
    split; [done|]. rewrite orb_true_r. simpl. rewrite Z.add_0_r. by destruct st.
  - destruct Hc as (-> & Hn & Hb & Hc). inversion Hl as [|? ? Hbl Hl']; subst. simpl in Hbl.
    apply chain_data_cons in Hd as (d & r & -> & Hd & Hr). pose proof (read_bytes_length _ _ _ _ Hd) as L.
    inversion Ha as [|? ? Ha1 Ha2]; subst. simpl in Ha1, Hf.
    destruct (Z.eqb_spec len 0) as [->|Hlen0].
    { exists (ram st). split; [done|]. simpl. rewrite Z.add_0_r. by destruct st. }
    destruct (Z.eqb_spec a NULL); [done|]. cbn [orb]. rewrite (bind_getp _ _ _ _ Hb).
    destruct (Z.leb_spec (pb_len b) offset) as [Hskip|Hcopy].
    + destruct (Z.eqb_spec offset 0) as [->|Ho0]; cbn [negb andb].
      * (* an empty buffer *)
        assert (pb_len b = 0) as Eb by lia. rewrite Eb in *. change (u16 (0 - 0)) with 0.
        destruct (Z.ltb_spec len 0); [lia|].
        rewrite (bind_MEMCPY _ _ 0 [] (ram st)) by done.
        rewrite Z.add_0_r. rewrite !(wrap_small 16) by (unfold in_u; lia). rewrite Z.sub_0_r.
        destruct d; [|simpl in L; lia]. simpl app.
        destruct (IH fuel (set_ram (ram st) st) (pb_next b) dataptr left len 0 r) as (m & Hm & E); try done; try lia.
        exists m. split; [done|]. rewrite E. done.
      * rewrite wrap_small by (unfold in_u; lia).
        destruct (IH fuel st (pb_next b) dataptr left len (offset - pb_len b) r) as (m & Hm & E); try done; try lia.
        exists m. rewrite drop_app_ge by lia.
        replace (Z.to_nat offset - length d)%nat with (Z.to_nat (offset - pb_len b)) by lia. done.
    + rewrite andb_false_r. cbv iota. rewrite (wrap_small 16 (pb_len b - offset)) by (unfold in_u; lia).
      replace (if len <? pb_len b - offset then len else pb_len b - offset)
        with (Z.min len (pb_len b - offset)) by (destruct (Z.ltb_spec len (pb_len b - offset)); lia).
      set (k := Z.min len (pb_len b - offset)).
      pose proof (read_slice _ _ _ _ offset k Hd ltac:(lia) ltac:(lia) ltac:(lia)) as Hs.
      set (xs := take (Z.to_nat k) (drop (Z.to_nat offset) d)) in *.
      pose proof (read_bytes_length _ _ _ _ Hs) as Lx.
      destruct (write_bytes_Some (ram st) (dataptr + left) xs) as [m1 Hm1].
      { rewrite Lx. eapply read_bytes_is_Some; [done|lia]. }
      rewrite (bind_MEMCPY _ _ k xs m1) by done.
      rewrite !(wrap_small 16) by (unfold in_u; lia).
      assert (chain_data m1 l = Some r) as Hr1.
      { rewrite (chain_data_write _ _ _ _ _ Hm1); [done|done|]. eapply apart_le; [|done]. lia. }
      destruct (IH fuel (set_ram m1 st) (pb_next b) dataptr (left + k) (len - k) 0 r)
        as (m & Hm & E); try done; try lia.
      * eapply Forall_impl; [done|]. intros ab. simpl. lia.
      * simpl. rewrite Z.add_assoc, (read_write_frame _ _ _ _ _ _ Hm1) by lia.
        destruct Hw as [dd Hw]. replace (Z.to_nat (len - k)) with (Z.to_nat len - Z.to_nat k)%nat by lia.
        replace (dataptr + left + k) with (dataptr + left + Z.of_nat (Z.to_nat k)) by lia.
        rewrite (read_bytes_drop _ _ _ _ _ Hw) by lia. eauto.
      * simpl in Hm. rewrite drop_0 in Hm, E.
        assert (take (Z.to_nat len) (drop (Z.to_nat offset) (d ++ r)) = xs ++ take (Z.to_nat (len - k)) r) as Ed.
        { rewrite take_drop_app by lia. unfold xs. destruct (decide (len <= pb_len b - offset)).
          - replace k with len by lia. replace (Z.to_nat len - (length d - Z.to_nat offset))%nat with 0%nat by lia.
            replace (len - len) with 0 by lia. done.
          - replace k with (pb_len b - offset) by lia. f_equal.
            + rewrite !take_ge; [done|rewrite length_drop; lia..].
            + f_equal. lia. }
        rewrite Ed. exists m. rewrite write_bytes_app, Hm1. simpl. rewrite Lx, Z2Nat.id by lia.
        split; [by rewrite <-Z.add_assoc|].
        rewrite E, length_app, Lx. do 2 f_equal. lia.
Qed.

(** [pbuf_copy_partial] copies exactly the bytes of the packet from [offset]
    on, at most [len] of them, to the buffer, and returns their number. *)
Theorem pbuf_copy_partial_ok st p l bs dataptr len offset :
  lens_ok l -> pchain (pbufs st) p l -> p <> NULL -> chain_data (ram st) l = Some bs ->
  0 <= len < 65536 -> 0 <= offset < 65536 -> dataptr <> NULL ->
  apart dataptr len l -> is_Some (read_bytes (ram st) dataptr (Z.to_nat len)) ->
  let data := take (Z.to_nat len) (drop (Z.to_nat offset) bs) in
  exists m, pbuf_copy_partial p dataptr len offset st = Some (Z.of_nat (length data), set_ram m st) /\
    write_bytes (ram st) dataptr data = Some m.
Proof.
  intros Hl Hc Hp Hd Hlen Ho Hdp Ha Hw data. unfold pbuf_copy_partial.
  rewrite !bind_lassert by by apply negb_true_iff, Z.eqb_neq. rewrite bind_chain_bound.
  destruct (copy_partial_loop_run l (chain_fuel st) st p dataptr 0 len offset bs)
    as (m & Hm & E); try done; try lia.
  - by eapply chain_fuel_length.
  - by rewrite Z.add_0_r.
  - by rewrite Z.add_0_r.
  - exists m. rewrite Z.add_0_r in Hm. rewrite E. done.
Qed.

Lemma pbuf_copy_partial_ok_witness :
  exists m, pbuf_copy_partial 8 300 2 1 search_sample = Some (2, set_ram m search_sample) /\
    write_bytes (ram search_sample) 300 [69; 84] = Some m.
Proof.
  refine (pbuf_copy_partial_ok search_sample 8
    [(8, Pbuf 9 100 5 2 PBUF_RAM 0 1); (9, Pbuf NULL 200 3 3 PBUF_POOL 0 1)]
    [71; 69; 84; 32; 47] 300 2 1 _ _ _ _ _ _ _ _ _).
  - unfold lens_ok. repeat constructor; simpl; lia.
  - repeat split; done.
  - lia.
  - vm_compute. reflexivity.
  - lia.
  - lia.
  - lia.
  - unfold apart. repeat constructor; simpl; lia.
  - vm_compute. eauto.
Defined.

(** ** Copying in *)

(** The payloads of a chain do not overlap. *)
Fixpoint disjoint (l : list (Z * pbuf)) : Prop :=
  match l with
  | [] => True
  | (_, b) :: l => apart (pb_payload b) (pb_len b) l /\ disjoint l
  end.

(** The addresses outside of the payloads. *)
Definition outside (l : list (Z * pbuf)) (i : Z) : Prop :=
  Forall (fun ab => ~ (pb_payload ab.2 <= i < pb_payload ab.2 + pb_len ab.2)) l.

Lemma write_over m a d xs m' :
  read_bytes m a (length d) = Some d -> (length xs <= length d)%nat -> write_bytes m a xs = Some m' ->
  read_bytes m' a (length d) = Some (xs ++ drop (length xs) d).
Proof.
  intros Hr Hl Hw.
  pose proof (read_write_middle m a [] (take (length xs) d) (drop (length xs) d) xs m') as H.
  simpl in H. rewrite take_drop, Z.add_0_r in H. apply H; [done| |done]. rewrite length_take. lia.
Qed.

Lemma take_loop_run l : forall fuel st p dataptr len copied bs data,
  lens_ok l -> disjoint l -> pchain (pbufs st) p l -> (length l < fuel)%nat ->
  chain_data (ram st) l = Some bs -> 0 <= copied -> 0 <= len -> copied + len < 65536 ->
  len <= chain_len l -> apart (dataptr + copied) len l ->
  read_bytes (ram st) (dataptr + copied) (Z.to_nat len) = Some data ->
  exists m, take_loop fuel p dataptr len copied st = Some (copied + len, set_ram m st) /\
    chain_data m l = Some (data ++ drop (Z.to_nat len) bs) /\
    (forall i, outside l i -> m !! i = ram st !! i).
Proof.
  induction l as [|[a b] l IH]; intros [|fuel] st p dataptr len copied bs data Hl Hdj Hc Hf Hd Hcp Hlen Hsum Htot Ha Hr;
    try (simpl in *; lia); cbn [take_loop].
  - simpl in *. assert (len = 0) as -> by lia. injection Hd as <-. injection Hr as <-.
    exists (ram st). rewrite Z.add_0_r. split_and!; [by destruct st|done|done].
  - pose proof Hl as Hl0. inversion Hl as [|? ? Hbl Hl']; subst. simpl in Hbl, Hf, Htot.
    destruct Hc as (-> & Hn & Hb & Hc). destruct Hdj as [Hdj1 Hdj2].
    pose proof (chain_len_nonneg _ Hl'). pose proof Hd as Hd0.
    apply chain_data_cons in Hd as (d & r & -> & Hd & Hrr). pose proof (read_bytes_length _ _ _ _ Hd) as L.
    pose proof (read_bytes_length _ _ _ _ Hr) as Lr.
    inversion Ha as [|? ? Ha1 Ha2]; subst. simpl in Ha1.
    destruct (Z.eqb_spec len 0) as [->|Hlen0].
    { exists (ram st). rewrite Z.add_0_r. split_and!; [by destruct st| |done].
      destruct data; [|simpl in *; lia]. rewrite Hd0. done. }
    rewrite bind_lassert by by apply negb_true_iff, Z.eqb_neq. rewrite (bind_getp _ _ _ _ Hb).
    replace (if pb_len b <? len then pb_len b else len) with (Z.min len (pb_len b))
      by (destruct (Z.ltb_spec (pb_len b) len); lia).
    set (k := Z.min len (pb_len b)).
    pose proof (read_slice _ _ _ _ 0 k Hr ltac:(lia) ltac:(lia) ltac:(lia)) as Hs.
    rewrite Z.add_0_r, drop_0 in Hs. set (xs := take (Z.to_nat k) data) in *.
    pose proof (read_bytes_length _ _ _ _ Hs) as Lx.
    destruct (write_bytes_Some (ram st) (pb_payload b) xs) as [m1 Hm1].
    { rewrite Lx. eapply read_bytes_is_Some; [by rewrite Hd|lia]. }
    rewrite (bind_MEMCPY _ _ k xs m1) by done. rewrite !(wrap_small 16) by (unfold in_u; lia).
    assert (chain_data m1 l = Some r) as Hr1.
    { rewrite (chain_data_write _ _ _ _ _ Hm1); [done|done|]. eapply apart_le; [|done]. lia. }
    rewrite <-L in Hd. pose proof (write_over (ram st) (pb_payload b) d xs m1 Hd ltac:(lia) Hm1) as Hd1.
    destruct (IH fuel (set_ram m1 st) (pb_next b) dataptr (len - k) (copied + k) r (drop (Z.to_nat k) data))
      as (m & E & Hm & Hout); try done; try lia.
    + eapply Forall_impl; [done|]. intros ab. simpl. lia.
    + simpl. rewrite Z.add_assoc, (read_write_frame _ _ _ _ _ _ Hm1) by lia.
      replace (Z.to_nat (len - k)) with (Z.to_nat len - Z.to_nat k)%nat by lia.
      replace (dataptr + copied + k) with (dataptr + copied + Z.of_nat (Z.to_nat k)) by lia.
      apply read_bytes_drop; [done|lia].
    + exists m. rewrite E. split_and!; [do 2 f_equal; lia| |].
      * apply (chain_data_cons _ a). exists (xs ++ drop (length xs) d), (drop (Z.to_nat k) data ++ drop (Z.to_nat (len - k)) r).
        split_and!; [| |done].
        -- rewrite Lx. destruct (decide (len <= pb_len b)).
           ++ rewrite (drop_ge data) by lia.
              replace (Z.to_nat (len - k)) with 0%nat by lia. rewrite drop_0. simpl app.
              unfold xs. rewrite take_ge by lia. rewrite drop_app_le, <-app_assoc by lia.
              do 3 f_equal. lia.
           ++ rewrite (drop_ge d) by lia. rewrite app_nil_r.
              rewrite drop_app_ge by lia. rewrite app_assoc. unfold xs. rewrite take_drop.
              f_equal. f_equal. lia.
        -- rewrite <-Hd1, L. apply read_bytes_ext. intros i Hi. apply Hout.
           eapply Forall_impl; [exact Hdj1|]. intros ab. simpl. lia.
      * intros i Hi. inversion Hi as [|? ? Hi1 Hi2]; subst. simpl in Hi1. rewrite Hout by done. simpl.
        rewrite (write_bytes_lookup _ _ _ _ _ Hm1), decide_False by lia. done.
Qed.

(** [pbuf_take] puts the data into the chain, across its pieces, and changes
    nothing else; a packet that is too small is refused.  What it put there,
    [pbuf_copy_partial] gets out again. *)
Theorem pbuf_take_ok st p l b bs dataptr len data :
  lens_ok l -> disjoint l -> pchain (pbufs st) p l -> p <> NULL -> pbufs st !! p = Some b ->
  pb_tot_len b = chain_len l -> chain_data (ram st) l = Some bs ->
  0 <= len < 65536 -> dataptr <> NULL -> apart dataptr len l ->
  read_bytes (ram st) dataptr (Z.to_nat len) = Some data ->
  if pb_tot_len b <? len then pbuf_take p dataptr len st = Some (ERR_ARG, st)
  else exists m, pbuf_take p dataptr len st = Some (ERR_OK, set_ram m st) /\
    chain_data m l = Some (data ++ drop (Z.to_nat len) bs) /\
    (forall i, outside l i -> m !! i = ram st !! i) /\
    forall out, out <> NULL -> apart out len l -> is_Some (read_bytes m out (Z.to_nat len)) ->
      exists m', pbuf_copy_partial p out len 0 (set_ram m st) = Some (len, set_ram m' st) /\
        write_bytes m out data = Some m'.
Proof.
  intros Hl Hdj Hc Hp Hb Ht Hd Hlen Hdp Ha Hr.
  unfold pbuf_take. rewrite !bind_lassert by by apply negb_true_iff, Z.eqb_neq.
  rewrite (bind_getp _ _ _ _ Hb). destruct (Z.ltb_spec (pb_tot_len b) len) as [|Hge]; [done|].
  rewrite bind_chain_bound.
  destruct (take_loop_run l (chain_fuel st) st p dataptr len 0 bs data) as (m & E & Hm & Hout); try done; try lia.
  - by eapply chain_fuel_length.
  - by rewrite Z.add_0_r.
  - by rewrite Z.add_0_r.
  - exists m. rewrite (bind_Some _ _ _ _ _ E), bind_lassert by (apply Z.eqb_eq; lia).
    split_and!; [done|done|done|]. intros out Ho Hoa Hos.
    pose proof (read_bytes_length _ _ _ _ Hr) as Lr.
    destruct (copy_partial_loop_run l (chain_fuel st) (set_ram m st) p out 0 len 0 (data ++ drop (Z.to_nat len) bs))
      as (m' & Hm' & E'); try done; try lia.
    + by eapply chain_fuel_length.
    + by rewrite Z.add_0_r.
    + by rewrite Z.add_0_r.
    + rewrite drop_0, take_app_length' in Hm', E' by done. rewrite Z.add_0_r in Hm'.
      exists m'. split; [|done]. unfold pbuf_copy_partial.
      rewrite !bind_lassert by by apply negb_true_iff, Z.eqb_neq. rewrite bind_chain_bound.
      change (chain_fuel (set_ram m st)) with (chain_fuel st). rewrite E'. do 2 f_equal. lia.
Qed.

Definition take_sample : netmem :=
  NetMem (list_to_map [(100, 0); (101, 0); (200, 0); (201, 0); (202, 9);
                       (300, 1); (301, 2); (302, 3); (303, 4); (400, 0); (401, 0); (402, 0); (403, 0)])
    {[ 8 := Pbuf 9 100 5 2 PBUF_RAM 0 1; 9 := Pbuf NULL 200 3 3 PBUF_POOL 0 1 ]} [] 0 [] 0 ∅.

Lemma pbuf_take_ok_witness :
  exists m, pbuf_take 8 300 4 take_sample = Some (ERR_OK, set_ram m take_sample) /\
    chain_data m [(8, Pbuf 9 100 5 2 PBUF_RAM 0 1); (9, Pbuf NULL 200 3 3 PBUF_POOL 0 1)] =
      Some [1; 2; 3; 4; 9].
Proof.
  destruct (pbuf_take_ok take_sample 8
    [(8, Pbuf 9 100 5 2 PBUF_RAM 0 1); (9, Pbuf NULL 200 3 3 PBUF_POOL 0 1)]
    (Pbuf 9 100 5 2 PBUF_RAM 0 1) [0; 0; 0; 0; 9] 300 4 [1; 2; 3; 4]) as (m & E & Hd & _).
  - unfold lens_ok. repeat constructor; simpl; lia.
  - simpl. unfold apart. repeat constructor; simpl; lia.
  - repeat split; done.
  - lia.
  - vm_compute. reflexivity.
  - reflexivity.
  - vm_compute. reflexivity.
  - lia.
  - lia.
  - unfold apart. repeat constructor; simpl; lia.
  - vm_compute. reflexivity.
  - exists m. split; [exact E|exact Hd].
Defined.

(** ** Headers *)

(** The types whose payload stands behind the structure. *)
Definition own_payload (b : pbuf) : Prop := pb_type b = PBUF_RAM \/ pb_type b = PBUF_POOL.

Definition moved (b : pbuf) (inc : Z) : pbuf :=
  Pbuf (pb_next b) (pb_payload b - inc) (pb_tot_len b + inc) (pb_len b + inc)
    (pb_type b) (pb_flags b) (pb_ref b).

Lemma pbuf_header_move st p b inc :
  pbufs st !! p = Some b -> p <> NULL -> -32768 <= inc < 32768 -> inc <> 0 ->
  0 <= pb_len b < 65536 -> 0 <= pb_tot_len b < 65536 ->
  0 <= pb_len b + inc < 65536 -> 0 <= pb_tot_len b + inc < 65536 ->
  (own_payload b /\ p + SIZEOF_STRUCT_PBUF <= pb_payload b - inc) \/ inc < 0 /\ ~ own_payload b ->
  pbuf_header p inc st = Some (0, set_pbufs (<[p := moved b inc]> (pbufs st)) st).
Proof.
  intros Hb Hp Hi H0 Hl Ht Hl' Ht' Hcase. unfold pbuf_header.
  rewrite bind_lassert by by apply negb_true_iff, Z.eqb_neq.
  destruct (Z.eqb_spec inc 0); [done|]. rewrite (bind_getp _ _ _ _ Hb).
  rewrite bind_lassert.
  2: { destruct (Z.ltb_spec inc 0); [|done]. apply Z.leb_le. rewrite wrap_small; unfold in_u; lia. }
  assert (forall st' b', pbufs st' = <[p := b']> (pbufs st) -> pb_len b' = pb_len b -> pb_tot_len b' = pb_tot_len b ->
    (updp p (fun b => set_pb_tot_len (u16 (pb_tot_len b + inc)) (set_pb_len (u16 (pb_len b + inc)) b)) ;; (mret 0 : NM Z)) st' =
    Some (0, set_pbufs (<[p := set_pb_tot_len (pb_tot_len b + inc) (set_pb_len (pb_len b + inc) b')]> (pbufs st')) st')) as Hfin.
  { intros st' b' E El Et. rewrite (bind_updp p b') by (rewrite E; apply lookup_insert_eq).
    rewrite El, Et, !wrap_small by (unfold in_u; lia). done. }
  destruct (pb_type b) eqn:Ety; unfold own_payload in Hcase; rewrite Ety in Hcase.
  - destruct (Z.ltb_spec (pb_payload b - inc) (p + SIZEOF_STRUCT_PBUF)); [destruct Hcase as [[_ ?]|[_ []]]; auto; lia|].
    rewrite (bind_updp _ _ _ _ _ Hb), (Hfin _ (set_pb_payload (pb_payload b - inc) b)) by done.
    simpl. rewrite insert_insert_eq. destruct b; done.
  - destruct Hcase as [[[|] _]|[Hneg _]]; [done|done|].
    destruct (Z.ltb_spec inc 0); [|lia]. cbn [andb].
    destruct (Z.leb_spec (u16 (- inc)) (pb_len b)) as [|Hx]; [|rewrite wrap_small in Hx; unfold in_u; lia].
    rewrite (bind_updp _ _ _ _ _ Hb), (Hfin _ (set_pb_payload (pb_payload b - inc) b)) by done.
    simpl. rewrite insert_insert_eq. destruct b; done.
  - destruct Hcase as [[[|] _]|[Hneg _]]; [done|done|].
    destruct (Z.ltb_spec inc 0); [|lia]. cbn [andb].
    destruct (Z.leb_spec (u16 (- inc)) (pb_len b)) as [|Hx]; [|rewrite wrap_small in Hx; unfold in_u; lia].
    rewrite (bind_updp _ _ _ _ _ Hb), (Hfin _ (set_pb_payload (pb_payload b - inc) b)) by done.
    simpl. rewrite insert_insert_eq. destruct b; done.
  - destruct (Z.ltb_spec (pb_payload b - inc) (p + SIZEOF_STRUCT_PBUF)); [destruct Hcase as [[_ ?]|[_ []]]; auto; lia|].
    rewrite (bind_updp _ _ _ _ _ Hb), (Hfin _ (set_pb_payload (pb_payload b - inc) b)) by done.
    simpl. rewrite insert_insert_eq. destruct b; done.
Qed.

Lemma pbuf_header_refuse st p b inc :
  pbufs st !! p = Some b -> p <> NULL -> 0 < inc < 32768 ->
  (own_payload b -> pb_payload b - inc < p + SIZEOF_STRUCT_PBUF) ->
  pbuf_header p inc st = Some (1, st).
Proof.
  intros Hb Hp Hi Hx. unfold pbuf_header. rewrite bind_lassert by by apply negb_true_iff, Z.eqb_neq.
  destruct (Z.eqb_spec inc 0); [lia|]. rewrite (bind_getp _ _ _ _ Hb).
  destruct (Z.ltb_spec inc 0); [lia|]. rewrite bind_lassert by done. unfold own_payload in Hx.
  destruct (pb_type b); try done;
    (destruct (Z.ltb_spec (pb_payload b - inc) (p + SIZEOF_STRUCT_PBUF)); [done|]); exfalso;
    specialize (Hx ltac:(auto)); lia.
Qed.

Lemma moved_back b n : moved (moved b (- n)) n = b.
Proof. destruct b. unfold moved. simpl. f_equal; lia. Qed.

(** [pbuf_header] with a negative increment hides the first bytes of the
    packet, and with the opposite increment reveals the same bytes again and
    restores the state; a buffer that only refers to its payload refuses to
    grow.  An increment that would move the payload into the structure is
    refused and changes nothing. *)
Theorem pbuf_header_ok st p b l bs n :
  pchain (pbufs st) p ((p, b) :: l) -> lens_ok ((p, b) :: l) -> pb_tot_len b = chain_len ((p, b) :: l) ->
  pb_tot_len b < 65536 -> chain_data (ram st) ((p, b) :: l) = Some bs ->
  0 < n <= pb_len b -> n < 32768 -> (own_payload b -> p + SIZEOF_STRUCT_PBUF <= pb_payload b) ->
  let st' := set_pbufs (<[p := moved b (- n)]> (pbufs st)) st in
  pbuf_header p (- n) st = Some (0, st') /\
  pchain (pbufs st') p ((p, moved b (- n)) :: l) /\
  pb_tot_len (moved b (- n)) = chain_len ((p, moved b (- n)) :: l) /\
  chain_data (ram st') ((p, moved b (- n)) :: l) = Some (drop (Z.to_nat n) bs) /\
  pbuf_header p n st' = (if decide (own_payload b) then Some (0, st) else Some (1, st')) /\
  (own_payload b -> forall k, pb_payload b - p - SIZEOF_STRUCT_PBUF < k < 32768 -> 0 < k ->
     pbuf_header p k st = Some (1, st)).
Proof.
  intros Hc Hl Ht Htl Hd Hn Hn2 Hp st'. pose proof (pchain_NoDup _ _ _ Hc) as Hnd. csimpl in Hnd.
  destruct Hc as (_ & Hp0 & Hb & Hc). inversion Hl as [|? ? Hbl Hl']; subst. simpl in Hbl, Ht.
  pose proof (chain_len_nonneg _ Hl'). apply NoDup_cons in Hnd as [Hni _].
  apply (chain_data_cons _ p) in Hd as (d & r & -> & Hd & Hr). pose proof (read_bytes_length _ _ _ _ Hd) as L.
  assert (forall x, set_pbufs (<[p := x]> (pbufs st')) st' = set_pbufs (<[p := x]> (pbufs st)) st) as Eins.
  { intros x. unfold st'. simpl. by rewrite insert_insert_eq. }
  split_and!.
  - apply pbuf_header_move; try done; try lia.
    destruct (decide (pb_type b = PBUF_RAM \/ pb_type b = PBUF_POOL)) as [Ho|Ho].
    + left. split; [done|]. specialize (Hp Ho). lia.
    + right. split; [lia|done].
  - simpl. rewrite lookup_insert_eq. split_and!; [done|done|done|]. by apply pchain_insert.
  - simpl. lia.
  - apply (chain_data_cons _ p). exists (drop (Z.to_nat n) d), r. split_and!; [|simpl|done].
    + by rewrite drop_app_le by lia.
    + replace (pb_payload b - - n) with (pb_payload b + Z.of_nat (Z.to_nat n)) by lia.
      replace (Z.to_nat (pb_len b + - n)) with (Z.to_nat (pb_len b) - Z.to_nat n)%nat by lia.
      apply read_bytes_drop; [done|lia].
  - destruct (decide (own_payload b)) as [Ho|Ho].
    + rewrite (pbuf_header_move st' p (moved b (- n))); try done; simpl; try lia.
      * rewrite Eins, moved_back.
        rewrite insert_id by done. by rewrite set_pbufs_id.
      * apply lookup_insert_eq.
      * left. split; [done|]. specialize (Hp Ho). lia.
    + apply (pbuf_header_refuse st' p (moved b (- n))); [apply lookup_insert_eq|done|lia|done].
  - intros Ho k Hk Hk0. apply (pbuf_header_refuse st p b); [done|done|lia|lia].
Qed.

Lemma pbuf_header_ok_witness :
  pbuf_header 8 (-1) (set_pbufs {[ 8 := Pbuf NULL 100 2 2 PBUF_RAM 0 1 ]} search_sample) =
    Some (0, set_pbufs {[ 8 := Pbuf NULL 101 1 1 PBUF_RAM 0 1 ]} search_sample) /\
  chain_data (ram search_sample) [(8, Pbuf NULL 101 1 1 PBUF_RAM 0 1)] = Some [69].
Proof.
  set (st := set_pbufs {[ 8 := Pbuf NULL 100 2 2 PBUF_RAM 0 1 ]} search_sample).
  destruct (pbuf_header_ok st 8 (Pbuf NULL 100 2 2 PBUF_RAM 0 1) [] [71; 69] 1) as (E & _ & _ & Hd & _).
  - repeat split; done.
  - unfold lens_ok. repeat constructor; simpl; lia.
  - reflexivity.
  - simpl. lia.
  - vm_compute. reflexivity.
  - simpl. lia.
  - lia.
  - intros _. vm_compute. discriminate.
  - split; [exact E|exact Hd].
Defined.

(** ** Shrinking *)

Definition grown (grow : Z) (ab : Z * pbuf) : Z * pbuf :=
  (ab.1, set_pb_tot_len (pb_tot_len ab.2 + grow) ab.2).

Lemma grown_fst grow l : (grown grow <$> l).*1 = l.*1.
Proof. rewrite <-list_fmap_compose. by apply list_fmap_ext. Qed.

Lemma chain_len_app l1 l2 : chain_len (l1 ++ l2) = chain_len l1 + chain_len l2.
Proof. induction l1 as [|[a b] l1 IH]; simpl; lia. Qed.

(** The loop: the kept buffers get their new totals, the last one is found. *)
Lemma realloc_keep_run l : forall fuel st q rem grow,
  lens_ok l -> tot_lens l -> pchain (pbufs st) q l -> l <> [] -> (length l < fuel)%nat ->
  0 <= rem <= chain_len l -> rem < 65536 -> chain_len l < 65536 -> -65536 < grow < 0 -> rem = chain_len l + grow ->
  exists l1 a b l2 bs,
    l = l1 ++ (a, b) :: l2 /\ 0 <= rem - chain_len l1 <= pb_len b /\
    realloc_keep fuel q rem grow st = Some ((a, rem - chain_len l1), set_pbufs bs st) /\
    pchain bs q ((grown grow <$> l1) ++ (a, b) :: l2) /\
    (forall x, x ∉ l1.*1 -> bs !! x = pbufs st !! x).
Proof.
  induction l as [|[a b] l IH]; intros [|fuel] st q rem grow Hl Ht Hc Hne Hf Hrem Hr16 Hc16 Hg Er; try (simpl in *; lia).
  pose proof (pchain_NoDup _ _ _ Hc) as Hnd. csimpl in Hnd. apply NoDup_cons in Hnd as [Hni _].
  pose proof Hc as Hc0. inversion Hl as [|? ? Hbl Hl']; subst. simpl in *. destruct Ht as [Ht Ht'].
  destruct Hc as (-> & Hn & Hb & Hc). pose proof (chain_len_nonneg _ Hl').
  set (rem := pb_len b + chain_len l + grow) in *.
  rewrite (bind_getp _ _ _ _ Hb). destruct (Z.ltb_spec (pb_len b) rem) as [Hlt|Hge].
  - rewrite bind_lassert by (apply Z.ltb_lt; lia). rewrite (bind_updp _ _ _ _ _ Hb).
    assert (u16 (pb_tot_len b + u16 grow) = pb_tot_len b + grow) as Eg.
    { rewrite Z.add_comm, wrap_add_l, Z.add_comm by lia. apply wrap_small. unfold in_u. lia. }
    rewrite Eg. set (b' := set_pb_tot_len _ b).
    assert (l <> []) as Hln by (intros ->; simpl in *; lia).
    destruct l as [|[a2 b2] l]; [done|]. rewrite bind_lassert.
    2: { destruct Hc as (-> & Hc & _). by apply negb_true_iff, Z.eqb_neq. }
    rewrite wrap_small by (unfold in_u; lia).
    destruct (IH fuel (set_pbufs (<[a := b']> (pbufs st)) st) (pb_next b) (rem - pb_len b) grow)
      as (l1 & a' & c & l2 & bs & El & Hc1 & E & Hch & Hrest); try done; try lia.
    + by apply pchain_insert.
    + exists ((a, b) :: l1), a', c, l2, bs. split_and!; [by rewrite El|simpl; lia|simpl; lia| |simpl| ].
      * rewrite E. do 3 f_equal. simpl. lia.
      * split_and!; try done. rewrite Hrest.
        -- simpl. apply lookup_insert_eq.
        -- rewrite El in Hc0. apply (pchain_NoDup (pbufs st) a ((a, b) :: l1 ++ (a', c) :: l2)) in Hc0.
           csimpl in Hc0.
           rewrite fmap_app in Hc0. apply NoDup_cons in Hc0 as [Hx _].
           by apply not_elem_of_app in Hx as [? _].
      * csimpl. intros x [Hx1 Hx2]%not_elem_of_cons. rewrite Hrest by done. simpl. by rewrite lookup_insert_ne.
  - exists [], a, b, l, (pbufs st). split_and!; try done; simpl; try lia.
    rewrite set_pbufs_id. rewrite Z.sub_0_r. done.
Qed.

Lemma built_deletes bs q l :
  pchain bs q l -> Forall (fun ab => pb_ref ab.2 = 1) l ->
  exists bs', built bs bs' q l /\ forall a, bs' !! a = if decide (a ∈ l.*1) then None else bs !! a.
Proof.
  intros Hc Hr. exists (filter (fun ab => ab.1 ∉ l.*1) bs).
  assert (forall a, filter (fun ab : Z * pbuf => ab.1 ∉ l.*1) bs !! a =
    if decide (a ∈ l.*1) then None else bs !! a) as Hl.
  { intros a. destruct (decide (a ∈ l.*1)) as [Ha|Ha].
    - apply map_lookup_filter_None_2. right. intros x _ Hx. simpl in Hx. done.
    - destruct (bs !! a) as [x|] eqn:E.
      + by apply map_lookup_filter_Some_2.
      + by apply map_lookup_filter_None_2; left. }
  split; [|done]. constructor; [done| | |done].
  - intros a Ha. by rewrite Hl, decide_False.
  - intros a Ha. by rewrite Hl, decide_True.
Qed.

Lemma pchain_replace bs q l1 a b l2 b' :
  pchain bs q (l1 ++ (a, b) :: l2) -> pb_next b' = pb_next b ->
  pchain (<[a := b']> bs) q (l1 ++ (a, b') :: l2).
Proof.
  intros Hc E. pose proof (pchain_NoDup _ _ _ Hc) as Hnd. revert q Hc.
  induction l1 as [|[c d] l1 IH]; intros q Hc; simpl in *; csimpl in Hnd;
    apply NoDup_cons in Hnd as [Hni Hnd]; destruct Hc as (-> & Hn & Hb & Hc).
  - rewrite lookup_insert_eq, E. split_and!; try done. by apply pchain_insert.
  - rewrite lookup_insert_ne.
    + split_and!; try done. by apply IH.
    + intros ->. apply Hni. rewrite fmap_app. apply elem_of_app. right. by left.
Qed.

Lemma tot_lens_app l1 l2 : tot_lens (l1 ++ l2) -> tot_lens l2.
Proof. induction l1 as [|[a b] l1 IH]; simpl; [done|]. intros [_ ?]. by apply IH. Qed.

Lemma chain_data_app m l1 l2 bs :
  chain_data m (l1 ++ l2) = Some bs <->
  exists d1 d2, bs = d1 ++ d2 /\ chain_data m l1 = Some d1 /\ chain_data m l2 = Some d2.
Proof.
  revert bs. induction l1 as [|[a b] l1 IH]; intros bs.
  - simpl. split; [intros H; exists [], bs; done|]. by intros (d1 & d2 & -> & [= <-] & ?).
  - simpl app. rewrite chain_data_cons. split.
    + intros (d & r & -> & Hd & Hr). apply IH in Hr as (d1 & d2 & -> & H1 & H2).
      exists (d ++ d1), d2. rewrite <-app_assoc. split_and!; [done| |done]. apply chain_data_cons. eauto 10.
    + intros (d1 & d2 & -> & Hd & H2). apply chain_data_cons in Hd as (d & r & -> & Hd & Hr).
      exists d, (r ++ d2). rewrite <-app_assoc. split_and!; [done|done|]. apply IH. eauto 10.
Qed.

Lemma chain_data_grown m grow l : chain_data m (grown grow <$> l) = chain_data m l.
Proof. induction l as [|[a b] l IH]; [done|]. csimpl. by rewrite IH. Qed.

Lemma chain_len_grown grow l : chain_len (grown grow <$> l) = chain_len l.
Proof. induction l as [|[a b] l IH]; [done|]. csimpl in *. by rewrite IH. Qed.

(** The totals after the last buffer is cut to [k] bytes. *)
Lemma tot_lens_cut grow l1 a b l2 b' :
  tot_lens (l1 ++ (a, b) :: l2) -> chain_len (l1 ++ (a, b) :: l2) + grow = chain_len l1 + pb_len b' ->
  pb_tot_len b' = pb_len b' -> tot_lens ((grown grow <$> l1) ++ [(a, b')]).
Proof.
  induction l1 as [|[c d] l1 IH]; intros Ht E Eb; csimpl in *; [lia|].
  destruct Ht as [Hd Ht]. split; [|apply IH; [done|lia|done]].
  rewrite chain_len_app, chain_len_grown. simpl. lia.
Qed.

Lemma pchain_cut_at bs bs' l1 a b b2 l2 q :
  pb_next b2 = NULL -> (forall x y, x ∈ l1.*1 -> bs !! x = Some y -> bs' !! x = Some y) ->
  bs' !! a = Some b2 -> pchain bs q (l1 ++ (a, b) :: l2) -> pchain bs' q (l1 ++ [(a, b2)]).
Proof.
  intros En Hk Ha. revert q. induction l1 as [|[c d] l1 IH]; intros q; csimpl in *.
  - intros (-> & Hn & _ & _). done.
  - intros (-> & Hn & Hb & Hc). split_and!; [done|done|apply Hk; [left|done]|].
    apply IH; [|done]. intros x y Hx. apply Hk. by right.
Qed.

Lemma pbuf_realloc_run st bs0 p l bs new_len :
  built (pbufs st) bs0 p l -> p <> NULL -> lens_ok l -> tot_lens l -> chain_len l < 65536 ->
  chain_data (ram st) l = Some bs -> 0 <= new_len < chain_len l ->
  exists bs' l', pbuf_realloc p new_len st = Some (tt, set_pbufs bs' st) /\
    built bs' bs0 p l' /\ tot_lens l' /\ chain_data (ram st) l' = Some (take (Z.to_nat new_len) bs).
Proof.
  intros Hbl Hp Hl Ht Htot Hd Hn. pose proof (bl_chain _ _ _ _ Hbl) as Hc.
  pose proof (pchain_NoDup _ _ _ Hc) as Hnd.
  assert (l <> []) as Hne by (intros ->; simpl in *; lia).
  assert (exists b0, pbufs st !! p = Some b0 /\ pb_tot_len b0 = chain_len l) as (b0 & Hb0 & E0).
  { destruct l as [|[a b] l]; [done|]. destruct Hc as (-> & _ & Hb & _). destruct Ht as [Ht _]. eauto. }
  unfold pbuf_realloc. rewrite bind_lassert by by apply negb_true_iff, Z.eqb_neq.
  rewrite (bind_getp _ _ _ _ Hb0), E0. destruct (Z.leb_spec (chain_len l) new_len); [lia|].
  rewrite bind_chain_bound. set (grow := new_len - chain_len l).
  destruct (realloc_keep_run l (chain_fuel st) st p new_len grow) as
    (l1 & a & b & l2 & bs1 & El & Hk & E1 & Hc1 & Hrest); try done; try lia.
  { by eapply chain_fuel_length. }
  rewrite (bind_Some _ _ _ _ _ E1). set (k := new_len - chain_len l1) in *.
  assert (bs1 !! a = Some b) as Hba.
  { eapply pchain_elem; [done|]. apply elem_of_app. right. by left. }
  rewrite (bind_updp a b) by done. rewrite (bind_updp a (set_pb_len k b)) by (simpl; apply lookup_insert_eq).
  simpl pbufs. rewrite insert_insert_eq, !set_pbufs_pbufs. simpl pb_len.
  set (b' := set_pb_tot_len k (set_pb_len k b)). set (bs2 := <[a := b']> bs1).
  assert (pchain bs2 p ((grown grow <$> l1) ++ (a, b') :: l2)) as Hc2 by by apply (pchain_replace _ _ _ _ b).
  rewrite (bind_getp a b') by (simpl; apply lookup_insert_eq). change (pb_next b') with (pb_next b).
  assert (NoDup ((grown grow <$> l1) ++ (a, b') :: l2).*1) as Hnd2 by by eapply pchain_NoDup.
  rewrite fmap_app, grown_fst in Hnd2. csimpl in Hnd2. apply NoDup_app in Hnd2 as (_ & Hd1 & Hnd2).
  apply NoDup_cons in Hnd2 as [Hal2 _].
  assert (a ∉ l1.*1) as Hal1 by (intros Hx; apply (Hd1 _ Hx); by left).
  pose proof (bl_ref _ _ _ _ Hbl) as Hr. rewrite El in Hr. apply Forall_app in Hr as [Hr1 Hr2].
  apply Forall_cons in Hr2 as [Hrb Hr2]. simpl in Hrb.
  assert (pchain bs2 (pb_next b) l2) as Hc3.
  { destruct (pchain_app _ _ _ _ Hc2) as [x (_ & _ & _ & Hx)]. done. }
  (* the tail goes *)
  destruct (built_deletes bs2 (pb_next b) l2 Hc3 Hr2) as (bs3 & Hb3 & Hl3).
  assert ((swhen (negb (pb_next b =? NULL)) (pbuf_free (pb_next b) ;; mret tt)) (set_pbufs bs2 st) =
    Some (tt, set_pbufs bs3 st)) as E3.
  { destruct (Z.eqb_spec (pb_next b) NULL) as [En|En]; simpl.
    - rewrite En in Hc3. destruct l2 as [|[x y] l2]; [|destruct Hc3 as (<- & ? & _); done].
      rewrite (built_nil _ _ _ Hb3). done.
    - destruct (pbuf_free_built (set_pbufs bs2 st) (pb_next b) bs3 l2 Hb3 En) as [n En'].
      rewrite (bind_Some _ _ _ _ _ En'). done. }
  rewrite (bind_Some _ _ _ _ _ E3).
  assert (bs3 !! a = Some b') as Hb3a by (rewrite Hl3, decide_False by done; apply lookup_insert_eq).
  rewrite (updp_Some a b') by done. simpl pbufs. rewrite set_pbufs_pbufs.
  set (b2 := set_pb_next NULL b'). eexists _, ((grown grow <$> l1) ++ [(a, b2)]).
  split; [done|]. subst l. split_and!.
  - constructor.
    + apply (pchain_cut_at bs2 _ _ a b' b2 l2); [done| |apply lookup_insert_eq|done].
      rewrite grown_fst. intros x y Hx Hy. rewrite lookup_insert_ne by (intros ->; done).
      rewrite Hl3, decide_False; [done|]. intros Hx2. apply (Hd1 _ Hx). by right.
    + intros x Hx. rewrite fmap_app, grown_fst in Hx. csimpl in Hx.
      apply not_elem_of_app in Hx as [Hx1 Hx2]. apply not_elem_of_cons in Hx2 as [Hx2 _].
      rewrite lookup_insert_ne by done. rewrite Hl3. destruct (decide (x ∈ l2.*1)) as [Hin|Hni].
      * symmetry. apply (bl_fresh _ _ _ _ Hbl). rewrite fmap_app. csimpl. apply elem_of_app. right. by right.
      * unfold bs2. rewrite lookup_insert_ne, Hrest by done. apply (bl_rest _ _ _ _ Hbl).
        rewrite fmap_app. csimpl. apply not_elem_of_app. split; [done|]. by apply not_elem_of_cons.
    + intros x Hx. rewrite fmap_app, grown_fst in Hx. csimpl in Hx. apply (bl_fresh _ _ _ _ Hbl).
      rewrite fmap_app. csimpl. apply elem_of_app. apply elem_of_app in Hx as [Hx|Hx]; [by left|right].
      apply list_elem_of_singleton in Hx as ->. by left.
    + apply Forall_app. split; [|by repeat constructor].
      apply Forall_fmap. eapply Forall_impl; [exact Hr1|]. by intros [x y].
  - eapply tot_lens_cut; [done| |done]. simpl. lia.
  - apply chain_data_app in Hd as (d1 & d2 & -> & Hd1' & Hd2).
    apply (chain_data_cons _ a) in Hd2 as (d & r & -> & Hd2 & _).
    pose proof (read_bytes_length _ _ _ _ Hd2) as L2.
    apply Forall_app in Hl as [Hl1 Hl2]. pose proof (chain_data_length _ _ _ Hl1 Hd1') as L1.
    inversion Hl2 as [|? ? Hlb _]; subst. simpl in Hlb.
    apply chain_data_app. exists d1, (take (Z.to_nat k) d). split_and!.
    + rewrite take_app_ge by lia. f_equal. rewrite take_app_le by lia. f_equal. lia.
    + by rewrite chain_data_grown.
    + apply (chain_data_cons _ a). exists (take (Z.to_nat k) d), []. rewrite app_nil_r.
      split_and!; [done| |done]. simpl. eapply read_bytes_take; [done|lia].
Qed.

(** [pbuf_realloc] cuts a packet to its first [new_len] bytes: the buffers
    behind the cut are freed, all totals are right again, nothing else changes;
    it never makes a packet longer. *)
Theorem pbuf_realloc_ok st bs0 p l bs new_len :
  built (pbufs st) bs0 p l -> p <> NULL -> lens_ok l -> tot_lens l -> chain_len l < 65536 ->
  chain_data (ram st) l = Some bs -> 0 <= new_len ->
  exists bs' l', pbuf_realloc p new_len st = Some (tt, set_pbufs bs' st) /\
    built bs' bs0 p l' /\ tot_lens l' /\ chain_data (ram st) l' = Some (take (Z.to_nat new_len) bs).
Proof.
  intros Hbl Hp Hl Ht Htot Hd Hn. destruct (decide (new_len < chain_len l)).
  { by apply (pbuf_realloc_run st bs0 p l bs new_len). }
  exists (pbufs st), l. rewrite set_pbufs_id. split_and!; [|done|done|].
  - pose proof (bl_chain _ _ _ _ Hbl) as Hc. destruct l as [|[a b] l]; [done|].
    destruct Hc as (-> & _ & Hb & _). destruct Ht as [Ht _].
    unfold pbuf_realloc. rewrite bind_lassert by by apply negb_true_iff, Z.eqb_neq.
    rewrite (bind_getp _ _ _ _ Hb). destruct (Z.leb_spec (pb_tot_len b) new_len); [done|].
    simpl in *. lia.
  - rewrite take_ge; [done|]. pose proof (chain_data_length _ _ _ Hl Hd). lia.
Qed.

Lemma pbuf_realloc_ok_witness :
  exists bs' l', pbuf_realloc 8 1 search_sample = Some (tt, set_pbufs bs' search_sample) /\
    chain_data (ram search_sample) l' = Some [71] /\ bs' = {[ 8 := Pbuf NULL 100 1 1 PBUF_RAM 0 1 ]}.
Proof.
  destruct (pbuf_realloc_ok search_sample ∅ 8
    [(8, Pbuf 9 100 5 2 PBUF_RAM 0 1); (9, Pbuf NULL 200 3 3 PBUF_POOL 0 1)]
    [71; 69; 84; 32; 47] 1) as (bs' & l' & E & Hb & _ & Hd).
  - constructor.
    + repeat split; done.
    + csimpl. intros a [Ha [Hb _]%not_elem_of_cons]%not_elem_of_cons.
      change (pbufs search_sample) with
        (<[8 := Pbuf 9 100 5 2 PBUF_RAM 0 1]> {[ 9 := Pbuf NULL 200 3 3 PBUF_POOL 0 1 ]} : gmap Z pbuf).
      rewrite lookup_insert_ne, lookup_singleton_ne by done. reflexivity.
    + done.
    + repeat constructor.
  - lia.
  - unfold lens_ok. repeat constructor; simpl; lia.
  - simpl. lia.
  - simpl. lia.
  - vm_compute. reflexivity.
  - lia.
  - exists bs', l'. split; [exact E|]. split; [exact Hd|]. vm_compute in E. injection E as <-.
    vm_compute. reflexivity.
Defined.

(** ** Copying between chains *)

(** [d] with [xs] written at [off]. *)
Definition splice (off : nat) (xs d : list Z) : list Z := take off d ++ xs ++ drop (off + length xs) d.

Lemma splice_splice off xs ys d :
  (off + length xs + length ys <= length d)%nat ->
  splice (off + length xs) ys (splice off xs d) = splice off (xs ++ ys) d.
Proof.
  intros H. unfold splice at 1.
  assert (splice off xs d = (take off d ++ xs) ++ drop (off + length xs) d) as -> by apply app_assoc.
  assert (length (take off d ++ xs) = off + length xs)%nat as L by (rewrite length_app, length_take; lia).
  rewrite take_app_length', drop_app_ge, drop_drop, L by lia. unfold splice.
  rewrite <-!app_assoc, length_app. do 4 f_equal. lia.
Qed.

Lemma splice_length off xs d :
  (off + length xs <= length d)%nat -> length (splice off xs d) = length d.
Proof. intros H. unfold splice. rewrite !length_app, length_take, length_drop. lia. Qed.

Lemma splice_app_l off xs d r :
  (off + length xs <= length d)%nat -> splice off xs (d ++ r) = splice off xs d ++ r.
Proof.
  intros H. unfold splice. rewrite take_app_le, drop_app_le by lia. by rewrite <-!app_assoc.
Qed.

Lemma splice_end off xs ys d r :
  (off + length xs = length d)%nat ->
  splice off (xs ++ ys) (d ++ r) = splice off xs d ++ splice 0 ys r.
Proof.
  intros H. unfold splice. rewrite take_app_le by lia. rewrite length_app.
  rewrite drop_app_ge by lia. rewrite (drop_ge d) by lia. rewrite app_nil_r. simpl.
  rewrite <-!app_assoc. do 4 f_equal. lia.
Qed.

Lemma write_splice m a d off xs m' :
  read_bytes m a (length d) = Some d -> (off + length xs <= length d)%nat ->
  write_bytes m (a + Z.of_nat off) xs = Some m' ->
  read_bytes m' a (length d) = Some (splice off xs d).
Proof.
  intros Hr Hl Hw.
  pose proof (read_write_middle m a (take off d) (take (length xs) (drop off d))
    (drop (length xs) (drop off d)) xs m') as H.
  rewrite !take_drop, (length_take_le d) in H by lia. rewrite H; [|done| |done].
  - unfold splice. by rewrite drop_drop.
  - rewrite length_take, length_drop. lia.
Qed.

Definition lens_pos (l : list (Z * pbuf)) : Prop := Forall (fun ab => 0 < pb_len ab.2 < 65536) l.

Lemma lens_pos_ok l : lens_pos l -> lens_ok l.
Proof. intros H. eapply Forall_impl; [done|]. intros ab. simpl. lia. Qed.

Lemma lens_pos_nil l : lens_pos l -> chain_len l <= 0 -> l = [].
Proof.
  destruct l as [|[a b] l]; [done|]. intros H Hc. inversion H as [|? ? H1 H2]; subst. simpl in *.
  apply lens_pos_ok, chain_len_nonneg in H2. lia.
Qed.

(** The check that a chain is one packet and not a queue. *)
Lemma queue_check st q l :
  lens_pos l -> tot_lens l -> pchain (pbufs st) q l ->
  swhen (negb (q =? NULL))
    (b ← getp q; swhen (pb_len b =? pb_tot_len b) (lassert (pb_next b =? NULL))) st = Some (tt, st).
Proof.
  intros Hl Ht Hc. destruct (Z.eqb_spec q NULL) as [|Hq]; [done|]. simpl.
  destruct l as [|[a b] l]; [done|]. destruct Hc as (-> & _ & Hb & Hc). destruct Ht as [Ht _].
  rewrite (bind_getp _ _ _ _ Hb). destruct (Z.eqb_spec (pb_len b) (pb_tot_len b)) as [E|]; [|done].
  inversion Hl as [|? ? _ Hl']; subst. rewrite (lens_pos_nil l) in Hc by (done || lia).
  simpl in Hc. simpl. rewrite Hc. done.
Qed.

(** Every payload of the first chain is apart from those of the second. *)
Definition apart2 (l1 l2 : list (Z * pbuf)) : Prop :=
  Forall (fun ab => apart (pb_payload ab.2) (pb_len ab.2) l2) l1.

(** A cursor in a chain, moved on by [k] bytes of its first buffer. *)
Definition advance (l : list (Z * pbuf)) (off k : Z) : list (Z * pbuf) * Z :=
  match l with
  | [] => ([], 0)
  | (_, b) :: l' => if off + k =? pb_len b then (l', 0) else (l, off + k)
  end.

Lemma pchain_head bs q l : pchain bs q l -> q = head_addr l.
Proof. destruct l as [|[a b] l]; [done|]. by intros [-> _]. Qed.

Lemma advance_chain bs a b l off k :
  pchain bs a ((a, b) :: l) ->
  (if off + k =? pb_len b then pb_next b else a) = head_addr (advance ((a, b) :: l) off k).1 /\
  pchain bs (head_addr (advance ((a, b) :: l) off k).1) (advance ((a, b) :: l) off k).1.
Proof.
  intros H. unfold advance. destruct (off + k =? pb_len b); simpl fst; [|done].
  destruct H as (_ & _ & _ & Hc). rewrite <-(pchain_head _ _ _ Hc). done.
Qed.

Lemma advance_pos a b l off k :
  lens_pos ((a, b) :: l) -> lens_pos (advance ((a, b) :: l) off k).1.
Proof. unfold advance. destruct (off + k =? pb_len b); [|done]. simpl. by intros ?%Forall_inv_tail. Qed.

Lemma advance_tot a b l off k :
  tot_lens ((a, b) :: l) -> tot_lens (advance ((a, b) :: l) off k).1.
Proof. unfold advance. destruct (off + k =? pb_len b); [|done]. simpl. by intros [_ ?]. Qed.

(** One round of the loop: the copy, and both cursors moved on. *)
Lemma copy_step fuel st pt pf bt lt bf lf ot ofr k xs m1 :
  let lts := (pt, bt) :: lt in
  let lfs := (pf, bf) :: lf in
  lens_pos lts -> lens_pos lfs -> tot_lens lts -> tot_lens lfs ->
  pchain (pbufs st) pt lts -> pchain (pbufs st) pf lfs ->
  0 <= ot < pb_len bt -> 0 <= ofr < pb_len bf ->
  k = Z.min (pb_len bf - ofr) (pb_len bt - ot) ->
  read_bytes (ram st) (pb_payload bf + ofr) (Z.to_nat k) = Some xs ->
  write_bytes (ram st) (pb_payload bt + ot) xs = Some m1 ->
  ((advance lts ot k).1 = [] -> (advance lfs ofr k).1 = []) ->
  copy_loop (S fuel) pt pf ot ofr st =
  if head_addr (advance lfs ofr k).1 =? NULL then Some (ERR_OK, set_ram m1 st)
  else copy_loop fuel (head_addr (advance lts ot k).1) (head_addr (advance lfs ofr k).1)
         (advance lts ot k).2 (advance lfs ofr k).2 (set_ram m1 st).
Proof.
  intros lts lfs Pt Pf Tt Tf Ct Cf Hot Hof Ek Hx Hm1 Hroom.
  destruct (advance_chain _ _ _ _ ot k Ct) as [Et Ct'].
  destruct (advance_chain _ _ _ _ ofr k Cf) as [Ef Cf'].
  pose proof (advance_pos _ _ _ ot k Pt) as Pt'. pose proof (advance_pos _ _ _ ofr k Pf) as Pf'.
  pose proof (advance_tot _ _ _ ot k Tt) as Tt'. pose proof (advance_tot _ _ _ ofr k Tf) as Tf'.
  pose proof (Forall_inv Pt) as Bt. pose proof (Forall_inv Pf) as Bf. simpl in Bt, Bf.
  pose proof (queue_check (set_ram m1 st) _ _ Pf' Tf' Cf') as Qf.
  pose proof (queue_check (set_ram m1 st) _ _ Pt' Tt' Ct') as Qt.
  assert (advance lts ot k = ((advance lts ot k).1, if ot + k =? pb_len bt then 0 else ot + k)) as Eat
    by (unfold lts, advance; by destruct (ot + k =? pb_len bt)).
  assert (advance lfs ofr k = ((advance lfs ofr k).1, if ofr + k =? pb_len bf then 0 else ofr + k)) as Eaf
    by (unfold lfs, advance; by destruct (ofr + k =? pb_len bf)).
  destruct Ct as (_ & _ & Hbt & _). destruct Cf as (_ & _ & Hbf & _).
  fold lts in Et, Ct', Pt', Tt', Qt. fold lfs in Ef, Cf', Pf', Tf', Qf.
  revert Et Ct' Ef Cf' Hroom Qf Qt Eat Eaf. clear Pt' Tt' Pf' Tf' Pt Tt Pf Tf.
  generalize (advance lts ot k) (advance lfs ofr k). intros [lt' ot'] [lf' of']. simpl fst. simpl snd.
  intros Et Ct' Ef Cf' Hroom Qf Qt [= ->] [= ->].
  cbn [copy_loop]. rewrite (bind_getp _ _ _ _ Hbt), (bind_getp _ _ _ _ Hbf). cbv zeta.
  replace (if pb_len bf - ofr <=? pb_len bt - ot then u16 (pb_len bf - ofr) else u16 (pb_len bt - ot))
    with k by (destruct (Z.leb_spec (pb_len bf - ofr) (pb_len bt - ot)); rewrite wrap_small; unfold in_u; lia).
  rewrite (bind_MEMCPY _ _ k xs m1) by done.
  rewrite (wrap_small 16 (ot + k)), (wrap_small 16 (ofr + k)) by (unfold in_u; lia).
  rewrite !bind_lassert by (apply Z.leb_le; lia).
  replace (if pb_len bf <=? ofr + k then (0, pb_next bf) else (ofr + k, pf))
    with (if ofr + k =? pb_len bf then 0 else ofr + k, head_addr lf').
  2: { rewrite <-Ef. destruct (Z.eqb_spec (ofr + k) (pb_len bf)), (Z.leb_spec (pb_len bf) (ofr + k));
       try lia; done. }
  cbv iota. set (m2 := (if ot + k =? pb_len bt then _ else _)).
  assert (m2 (set_ram m1 st) = Some ((if ot + k =? pb_len bt then 0 else ot + k, head_addr lt'), set_ram m1 st)) as E2.
  { unfold m2. rewrite <-Et. destruct (Z.eqb_spec (ot + k) (pb_len bt)) as [E|E]; [|done].
    rewrite bind_lassert; [done|]. rewrite Et. destruct lt' as [|[x y] lt']; simpl head_addr.
    - rewrite Hroom by done. done.
    - destruct Ct' as (_ & Hx0 & _). simpl in Hx0. destruct (Z.eqb_spec x NULL); done. }
  rewrite (bind_Some _ _ _ _ _ E2). cbv iota beta.
  rewrite (bind_Some _ _ _ _ _ Qf), (bind_Some _ _ _ _ _ Qt).
  by destruct (head_addr lf' =? NULL).
Qed.

(** The memory after one copy. *)
Lemma copy_data m pt bt lt lfs ot xs m1 dto :
  lens_pos ((pt, bt) :: lt) -> lens_pos lfs -> disjoint ((pt, bt) :: lt) ->
  apart (pb_payload bt) (pb_len bt) lfs ->
  chain_data m ((pt, bt) :: lt) = Some dto ->
  0 <= ot -> ot + Z.of_nat (length xs) <= pb_len bt ->
  write_bytes m (pb_payload bt + ot) xs = Some m1 ->
  chain_data m1 ((pt, bt) :: lt) = Some (splice (Z.to_nat ot) xs dto) /\
  chain_data m1 lt = chain_data m lt /\ chain_data m1 lfs = chain_data m lfs /\
  (forall i, outside ((pt, bt) :: lt) i -> m1 !! i = m !! i).
Proof.
  intros Pt Pf [Dt1 Dt2] Ap Dto Hot Hl Hm1.
  apply (chain_data_cons _ pt) in Dto as (d & r & -> & Hd & Hr).
  pose proof (read_bytes_length _ _ _ _ Hd) as Ld. pose proof (Forall_inv Pt) as Pb. simpl in Pb.
  assert (chain_data m1 lt = chain_data m lt) as Hr1.
  { apply (chain_data_write _ _ _ _ _ Hm1); [by apply lens_pos_ok, (Forall_inv_tail Pt)|].
    eapply Forall_impl; [exact Dt1|]. intros ab. simpl. lia. }
  split_and!; [|done| |].
  - apply (chain_data_cons _ pt). exists (splice (Z.to_nat ot) xs d), r. split_and!; [| |by rewrite Hr1].
    + apply splice_app_l. lia.
    + rewrite <-Ld in Hd |- *. apply (write_splice m); [done|lia|]. by rewrite Z2Nat.id by lia.
  - apply (chain_data_write _ _ _ _ _ Hm1); [by apply lens_pos_ok|].
    eapply Forall_impl; [exact Ap|]. intros ab. simpl. lia.
  - intros i Hi%Forall_inv. simpl in Hi.
    rewrite (write_bytes_lookup _ _ _ _ _ Hm1), decide_False by lia. done.
Qed.

(** What the cursor has still to read. *)
Lemma advance_data m a b l off k ds :
  lens_pos ((a, b) :: l) -> chain_data m ((a, b) :: l) = Some ds ->
  0 <= off -> 0 <= k -> off + k <= pb_len b ->
  let r := advance ((a, b) :: l) off k in
  exists ds', chain_data m r.1 = Some ds' /\
    drop (Z.to_nat r.2) ds' = drop (Z.to_nat (off + k)) ds /\ 0 <= r.2 /\
    match r.1 with [] => r.2 = 0 | (_, b') :: _ => r.2 < pb_len b' end /\
    (r.1 = [] -> ds' = []).
Proof.
  intros Hp Hd Ho Hk Hb. unfold advance. destruct (Z.eqb_spec (off + k) (pb_len b)) as [E|E]; cbv zeta; simpl.
  - apply (chain_data_cons _ a) in Hd as (d & r & -> & Hd & Hr). exists r.
    pose proof (read_bytes_length _ _ _ _ Hd) as L. pose proof (Forall_inv_tail Hp) as Hp'. split_and!; try done.
    + rewrite E, <-L, drop_app_length. done.
    + destruct l as [|[a' b'] l]; [done|]. apply Forall_inv in Hp'. simpl in Hp'. lia.
    + intros ->. injection Hr as <-. done.
  - exists ds. split_and!; try done; lia.
Qed.

Lemma remaining_nonempty m l off ds :
  lens_pos l -> chain_data m l = Some ds -> 0 <= off ->
  match l with [] => True | (_, b) :: _ => off < pb_len b end ->
  drop (Z.to_nat off) ds = [] -> l = [].
Proof.
  intros Hp Hd Ho Hb E. destruct l as [|[a b] l]; [done|]. exfalso.
  apply (f_equal length) in E. rewrite length_drop in E. simpl in E.
  pose proof (chain_data_length _ _ _ (lens_pos_ok _ Hp) Hd) as L.
  pose proof (chain_len_nonneg _ (lens_pos_ok _ (Forall_inv_tail Hp))). simpl in L. lia.
Qed.

Lemma copy_loop_run fuel : forall st pt pf bt lt bf lf ot ofr dto dfrom,
  lens_pos ((pt, bt) :: lt) -> lens_pos ((pf, bf) :: lf) ->
  tot_lens ((pt, bt) :: lt) -> tot_lens ((pf, bf) :: lf) ->
  pchain (pbufs st) pt ((pt, bt) :: lt) -> pchain (pbufs st) pf ((pf, bf) :: lf) ->
  disjoint ((pt, bt) :: lt) -> apart2 ((pt, bt) :: lt) ((pf, bf) :: lf) ->
  chain_data (ram st) ((pt, bt) :: lt) = Some dto -> chain_data (ram st) ((pf, bf) :: lf) = Some dfrom ->
  0 <= ot < pb_len bt -> 0 <= ofr < pb_len bf ->
  (length dfrom - Z.to_nat ofr <= length dto - Z.to_nat ot)%nat ->
  (length lt + length lf + 1 < fuel)%nat ->
  exists m, copy_loop fuel pt pf ot ofr st = Some (ERR_OK, set_ram m st) /\
    chain_data m ((pt, bt) :: lt) = Some (splice (Z.to_nat ot) (drop (Z.to_nat ofr) dfrom) dto) /\
    (forall i, outside ((pt, bt) :: lt) i -> m !! i = ram st !! i).
Proof.
  induction fuel as [|fuel IH];
    intros st pt pf bt lt bf lf ot ofr dto dfrom Pt Pf Tt Tf Ct Cf Dt Ap Dto Dfrom Hot Hof Hfit Hfuel; [lia|].
  set (k := Z.min (pb_len bf - ofr) (pb_len bt - ot)).
  assert (0 < k /\ k <= pb_len bf - ofr /\ k <= pb_len bt - ot /\ (k = pb_len bf - ofr \/ k = pb_len bt - ot))
    as (K0 & K1 & K2 & K3) by lia.
  assert (k = Z.min (pb_len bf - ofr) (pb_len bt - ot)) as Ek by done. clearbody k.
  pose proof Dfrom as Dfrom'. apply (chain_data_cons _ pf) in Dfrom' as (e & s & Ee & He & _).
  pose proof Dto as Dto'. apply (chain_data_cons _ pt) in Dto' as (d & r & Ed & Hd & Hr).
  pose proof (read_bytes_length _ _ _ _ He) as Le. pose proof (read_bytes_length _ _ _ _ Hd) as Ld.
  pose proof (read_slice _ _ _ _ ofr k He ltac:(lia) ltac:(lia) ltac:(lia)) as Hx.
  set (xs := take (Z.to_nat k) (drop (Z.to_nat ofr) e)) in *.
  assert (xs = take (Z.to_nat k) (drop (Z.to_nat ofr) dfrom)) as Exs.
  { unfold xs. rewrite Ee, drop_app_le by lia. rewrite take_app_le; [done|]. rewrite length_drop. lia. }
  clearbody xs. pose proof (read_bytes_length _ _ _ _ Hx) as Lx.
  destruct (write_bytes_Some (ram st) (pb_payload bt + ot) xs) as [m1 Hm1].
  { rewrite Lx, (read_slice _ _ _ _ ot k Hd) by lia. eauto. }
  destruct (copy_data (ram st) pt bt lt ((pf, bf) :: lf) ot xs m1 dto Pt Pf Dt (Forall_inv Ap) Dto ltac:(lia) ltac:(lia) Hm1)
    as (Dto1 & Dlt1 & Dfr1 & Out1). rewrite Dfrom in Dfr1. rewrite Hr in Dlt1.
  assert (drop (Z.to_nat ofr) dfrom = xs ++ drop (Z.to_nat (ofr + k)) dfrom) as Edf.
  { rewrite Exs, Z2Nat.inj_add, <-drop_drop by lia. symmetry. apply take_drop. }
  destruct (advance_data m1 _ _ _ ofr k dfrom Pf Dfr1 ltac:(lia) ltac:(lia) ltac:(lia))
    as (dfrom' & Df' & Edf' & Hof0 & Hof' & Hnil).
  pose proof (advance_pos _ _ _ ofr k Pf) as Pf'.
  assert (length dfrom' - Z.to_nat (advance ((pf, bf) :: lf) ofr k).2 =
          length dfrom - Z.to_nat ofr - Z.to_nat k)%nat as Elen.
  { apply (f_equal length) in Edf'. rewrite !length_drop in Edf'. lia. }
  rewrite (copy_step fuel st pt pf bt lt bf lf ot ofr k xs m1); [|done..|].
  2: { intros Hlt. apply (remaining_nonempty m1 _ (advance ((pf, bf) :: lf) ofr k).2 dfrom'); [done|done|done| |].
       - destruct (advance ((pf, bf) :: lf) ofr k).1 as [|[? ?] ?]; done.
       - apply length_zero_iff_nil. rewrite length_drop, Elen.
         unfold advance in Hlt. destruct (Z.eqb_spec (ot + k) (pb_len bt)); [|done]. simpl in Hlt. subst lt.
         injection Hr as <-. rewrite app_nil_r in Ed. subst dto. lia. }
  rewrite Edf. pose proof (advance_tot _ _ _ ofr k Tf) as Tf'.
  destruct (advance_chain _ _ _ _ ofr k Cf) as [_ Cf'].
  assert (apart2 ((pt, bt) :: lt) (advance ((pf, bf) :: lf) ofr k).1) as Ap'.
  { eapply Forall_impl; [exact Ap|]. intros ab. unfold advance.
    destruct (ofr + k =? pb_len bf); [|done]. by intros ?%Forall_inv_tail. }
  assert (length (advance ((pf, bf) :: lf) ofr k).1 <= S (length lf))%nat as Lf'
    by (unfold advance; destruct (ofr + k =? pb_len bf); simpl; lia).
  assert (ofr + k = pb_len bf -> (advance ((pf, bf) :: lf) ofr k).1 = lf) as Ef'
    by (intros E'; unfold advance; rewrite E', Z.eqb_refl; done).
  rewrite <-Edf'.
  revert Hof0 Hof' Hnil Df' Pf' Tf' Cf' Ap' Lf' Ef' Elen.
  destruct (advance ((pf, bf) :: lf) ofr k) as [[|[pf' bf'] lf'] of']; simpl fst; simpl snd;
    intros Hof0 Hof' Hnil Df' Pf' Tf' Cf' Ap' Lf' Ef' Elen.
  - simpl. rewrite Hnil, drop_nil, app_nil_r by done. eauto.
  - simpl in Hof'. simpl head_addr in *. destruct (Z.eqb_spec pf' NULL); [by destruct Cf' as (_ & ? & _)|].
    unfold advance. destruct (Z.eqb_spec (ot + k) (pb_len bt)) as [Et|Et]; simpl fst; simpl snd.
    + (* on to the next target *)
      destruct lt as [|[pt' bt'] lt].
      { exfalso. injection Hr as <-. rewrite app_nil_r in Ed. subst dto.
        pose proof (chain_data_length _ _ _ (lens_pos_ok _ Pf') Df') as L.
        pose proof (chain_len_nonneg _ (lens_pos_ok _ (Forall_inv_tail Pf'))). simpl in L.
        clear -L H Elen Hfit Ld Et K0 Hof' Hof0 Hot. lia. }
      pose proof (Forall_inv (Forall_inv_tail Pt)) as Pbt'. simpl in Pbt'.
      destruct Ct as (_ & _ & _ & Ct). destruct Tt as [_ Tt]. destruct Dt as [Dt1 Dt2].
      pose proof (pchain_head _ _ _ Ct) as Eh. simpl in Eh. rewrite Eh in Ct. simpl head_addr.
      destruct (IH (set_ram m1 st) pt' pf' bt' lt bf' lf' 0 of' r dfrom') as (m & E & Hm & Hout).
      { exact (Forall_inv_tail Pt). } { exact Pf'. } { exact Tt. } { exact Tf'. } { exact Ct. }
      { exact Cf'. } { exact Dt2. } { exact (Forall_inv_tail Ap'). } { exact Dlt1. } { exact Df'. }
      { lia. } { lia. } { rewrite Ed, length_app in Hfit. clear -Hfit Elen Ld Et K0 Hot. lia. }
      { clear -Hfuel Lf'. simpl in Hfuel, Lf'. lia. }
      exists m. split; [exact E|]. split.
      * apply (chain_data_cons _ pt). exists (splice (Z.to_nat ot) xs d), (splice 0 (drop (Z.to_nat of') dfrom') r).
        split_and!; [rewrite Ed; apply splice_end; lia| |exact Hm].
        apply (chain_data_cons _ pt) in Dto1 as (d1 & r1 & Eq & Hd1 & Hr1).
        rewrite Hr1 in Dlt1. injection Dlt1 as ->. rewrite Ed, splice_app_l in Eq by lia.
        apply app_inj_2 in Eq as [<- _]; [|done]. rewrite <-Hd1. apply read_bytes_ext.
        intros i Hi. apply Hout. eapply Forall_impl; [exact Dt1|]. intros ab. simpl. clear -Hi. lia.
      * intros i Hi. rewrite Hout by exact (Forall_inv_tail Hi). by apply Out1.
    + (* the target has room left *)
      assert (ofr + k = pb_len bf) as Eof by lia. specialize (Ef' Eof).
      destruct (IH (set_ram m1 st) pt pf' bt lt bf' lf' (ot + k) of' (splice (Z.to_nat ot) xs dto) dfrom')
        as (m & E & Hm & Hout).
      { exact Pt. } { exact Pf'. } { exact Tt. } { exact Tf'. } { exact Ct. } { exact Cf'. } { exact Dt. }
      { exact Ap'. } { exact Dto1. } { exact Df'. } { lia. } { lia. }
      { rewrite splice_length by (rewrite Ed, length_app; lia). lia. }
      { clear -Hfuel Ef'. rewrite <-Ef' in Hfuel. simpl in Hfuel. lia. }
      exists m. split; [exact E|]. split.
      * rewrite Hm. f_equal. replace (Z.to_nat (ot + k)) with (Z.to_nat ot + length xs)%nat by lia.
        apply splice_splice. rewrite length_drop. clear -Elen Lx Hfit K0 Hot Hof Ed Ld K2. rewrite Ed, length_app in *. lia.
      * intros i Hi. rewrite Hout by exact Hi. by apply Out1.
Qed.

Lemma pbuf_copy_run st pt pf bt lt bf lf dto dfrom :
  lens_pos ((pt, bt) :: lt) -> lens_pos ((pf, bf) :: lf) ->
  tot_lens ((pt, bt) :: lt) -> tot_lens ((pf, bf) :: lf) ->
  pchain (pbufs st) pt ((pt, bt) :: lt) -> pchain (pbufs st) pf ((pf, bf) :: lf) ->
  disjoint ((pt, bt) :: lt) -> apart2 ((pt, bt) :: lt) ((pf, bf) :: lf) ->
  chain_data (ram st) ((pt, bt) :: lt) = Some dto -> chain_data (ram st) ((pf, bf) :: lf) = Some dfrom ->
  pb_tot_len bf <= pb_tot_len bt ->
  exists m, pbuf_copy pt pf st = Some (ERR_OK, set_ram m st) /\
    chain_data m ((pt, bt) :: lt) = Some (dfrom ++ drop (length dfrom) dto) /\
    (forall i, outside ((pt, bt) :: lt) i -> m !! i = ram st !! i).
Proof.
  intros Pt Pf Tt Tf Ct Cf Dt Ap Dto Dfrom Hle.
  pose proof (chain_data_length _ _ _ (lens_pos_ok _ Pt) Dto) as Lt.
  pose proof (chain_data_length _ _ _ (lens_pos_ok _ Pf) Dfrom) as Lf.
  destruct (Forall_inv Pt) as [Bt _]. destruct (Forall_inv Pf) as [Bf _]. simpl in Bt, Bf.
  pose proof (pchain_size _ _ _ Ct) as St. pose proof (pchain_size _ _ _ Cf) as Sf. simpl in St, Sf.
  unfold pbuf_copy. destruct (Ct) as (_ & Hpt & Hbt & _). destruct (Cf) as (_ & Hpf & Hbf & _).
  rewrite bind_lassert by (apply andb_true_intro; split; by apply negb_true_iff, Z.eqb_neq).
  rewrite (bind_getp _ _ _ _ Hbt), (bind_getp _ _ _ _ Hbf).
  rewrite bind_lassert by by apply Z.leb_le. rewrite bind_chain_bound.
  destruct Tt as [Tt1 Tt]. destruct Tf as [Tf1 Tf]. simpl in Lt, Lf.
  destruct (copy_loop_run (2 * chain_fuel st) st pt pf bt lt bf lf 0 0 dto dfrom)
    as (m & E & Hm & Hout); [done|done|done|done|done|done|done|done|done|done|lia|lia|lia| |].
  { unfold chain_fuel. lia. }
  exists m. split; [done|]. split; [|done]. rewrite Hm. by rewrite drop_0.
Qed.

(** [pbuf_copy] writes the bytes of one packet over the first bytes of
    another that is at least as long, however the two are cut into buffers; it
    ends, and changes nothing outside of the payloads of the target. *)
Theorem pbuf_copy_ok st pt pf bt lt bf lf dto dfrom :
  lens_pos ((pt, bt) :: lt) -> lens_pos ((pf, bf) :: lf) ->
  tot_lens ((pt, bt) :: lt) -> tot_lens ((pf, bf) :: lf) ->
  pchain (pbufs st) pt ((pt, bt) :: lt) -> pchain (pbufs st) pf ((pf, bf) :: lf) ->
  disjoint ((pt, bt) :: lt) -> apart2 ((pt, bt) :: lt) ((pf, bf) :: lf) ->
  chain_data (ram st) ((pt, bt) :: lt) = Some dto -> chain_data (ram st) ((pf, bf) :: lf) = Some dfrom ->
  pb_tot_len bf <= pb_tot_len bt ->
  exists m, pbuf_copy pt pf st = Some (ERR_OK, set_ram m st) /\
    chain_data m ((pt, bt) :: lt) = Some (dfrom ++ drop (length dfrom) dto) /\
    (forall i, outside ((pt, bt) :: lt) i -> m !! i = ram st !! i).
Proof. intros. by eapply pbuf_copy_run. Qed.

Definition copy_sample : netmem :=
  NetMem (list_to_map [(100, 1); (101, 2); (200, 3); (201, 4); (202, 5);
                       (300, 0); (301, 0); (302, 0); (400, 0); (401, 0); (402, 9)])
    {[ 8 := Pbuf 9 100 5 2 PBUF_RAM 0 1; 9 := Pbuf NULL 200 3 3 PBUF_POOL 0 1;
       10 := Pbuf 11 300 6 3 PBUF_RAM 0 1; 11 := Pbuf NULL 400 3 3 PBUF_RAM 0 1 ]} [] 0 [] 0 ∅.

Lemma pbuf_copy_ok_witness :
  exists m, pbuf_copy 10 8 copy_sample = Some (ERR_OK, set_ram m copy_sample) /\
    chain_data m [(10, Pbuf 11 300 6 3 PBUF_RAM 0 1); (11, Pbuf NULL 400 3 3 PBUF_RAM 0 1)] =
      Some [1; 2; 3; 4; 5; 9].
Proof.
  destruct (pbuf_copy_ok copy_sample 10 8 (Pbuf 11 300 6 3 PBUF_RAM 0 1)
    [(11, Pbuf NULL 400 3 3 PBUF_RAM 0 1)] (Pbuf 9 100 5 2 PBUF_RAM 0 1)
    [(9, Pbuf NULL 200 3 3 PBUF_POOL 0 1)] [0; 0; 0; 0; 0; 9] [1; 2; 3; 4; 5]) as (m & E & Hd & _).
  - unfold lens_pos. repeat constructor; simpl; lia.
  - unfold lens_pos. repeat constructor; simpl; lia.
  - simpl. lia.
  - simpl. lia.
  - repeat split; done.
  - repeat split; done.
  - simpl. unfold apart. repeat constructor; simpl; lia.
  - unfold apart2, apart. repeat constructor; simpl; lia.
  - vm_compute. reflexivity.
  - vm_compute. reflexivity.
  - simpl. lia.
  - exists m. split; [exact E|exact Hd].
Defined.
