(* ===== verification/TcpData.v ===== *)
(** * Data of TCP: include/lwip/tcp.h, include/lwip/tcp_impl.h

    The control blocks and segments of TCP, the globals of core/tcp.c and
    core/tcp_in.c, and the list of timeouts of core/timers.c.  Function pointers
    are numbers, of which the code only asks whether they are null.

    A control block in the state LISTEN is the smaller structure
    [tcp_pcb_listen]: it has the fields up to [local_port] of the record, and
    the accesses to the others (see [gett] in TcpBase) fail.  [callback_arg] and
    the function pointers are opaque to the code. *)

From S2P Require Import Prelude StateM LwipMem.

Inductive tcp_state :=
  | CLOSED | LISTEN | SYN_SENT | SYN_RCVD | ESTABLISHED | FIN_WAIT_1 | FIN_WAIT_2
  | CLOSE_WAIT | CLOSING | LAST_ACK | TIME_WAIT.

#[export] Instance tcp_state_eq_dec : EqDecision tcp_state.
Proof. solve_decision. Defined.

(** The values of the enumeration, which the code compares. *)
Definition tcp_state_num (s : tcp_state) : Z :=
  match s with
  | CLOSED => 0 | LISTEN => 1 | SYN_SENT => 2 | SYN_RCVD => 3 | ESTABLISHED => 4 | FIN_WAIT_1 => 5
  | FIN_WAIT_2 => 6 | CLOSE_WAIT => 7 | CLOSING => 8 | LAST_ACK => 9 | TIME_WAIT => 10
  end.

(** ** Control blocks *)

Record tcp_pcb := TcpPcb {
  t_next : Z;
  t_local_ip : Z;
  t_remote_ip : Z;
  t_so_options : Z;
  t_tos : Z;
  t_ttl : Z;
  t_callback_arg : Z;
  t_accept : Z;
  t_state : tcp_state;
  t_prio : Z;
  t_local_port : Z;
  t_remote_port : Z;
  t_flags : Z;
  t_polltmr : Z;
  t_pollinterval : Z;
  t_last_timer : Z;
  t_tmr : Z;
  t_rcv_nxt : Z;
  t_rcv_wnd : Z;
  t_rcv_ann_wnd : Z;
  t_rcv_ann_right_edge : Z;
  t_rtime : Z;
  t_mss : Z;
  t_rttest : Z;
  t_rtseq : Z;
  t_sa : Z;
  t_sv : Z;
  t_rto : Z;
  t_nrtx : Z;
  t_dupacks : Z;
  t_lastack : Z;
  t_cwnd : Z;
  t_ssthresh : Z;
  t_snd_nxt : Z;
  t_snd_wl1 : Z;
  t_snd_wl2 : Z;
  t_snd_lbb : Z;
  t_snd_wnd : Z;
  t_snd_wnd_max : Z;
  t_acked : Z;
  t_snd_buf : Z;
  t_snd_queuelen : Z;
  t_unsent_oversize : Z;
  t_unsent : Z;
  t_unacked : Z;
  t_ooseq : Z;
  t_refused_data : Z;
  t_sent : Z;
  t_recv : Z;
  t_connected : Z;
  t_poll : Z;
  t_errf : Z;
  t_keep_idle : Z;
  t_persist_cnt : Z;
  t_persist_backoff : Z;
  t_keep_cnt_sent : Z;
}.

Definition eta_pcb (p : tcp_pcb) : tcp_pcb :=
  TcpPcb (t_next p) (t_local_ip p) (t_remote_ip p) (t_so_options p) (t_tos p) (t_ttl p)
  (t_callback_arg p) (t_accept p) (t_state p) (t_prio p) (t_local_port p) (t_remote_port p)
  (t_flags p) (t_polltmr p) (t_pollinterval p) (t_last_timer p) (t_tmr p) (t_rcv_nxt p) (t_rcv_wnd
  p) (t_rcv_ann_wnd p) (t_rcv_ann_right_edge p) (t_rtime p) (t_mss p) (t_rttest p) (t_rtseq p)
  (t_sa p) (t_sv p) (t_rto p) (t_nrtx p) (t_dupacks p) (t_lastack p) (t_cwnd p) (t_ssthresh p)
  (t_snd_nxt p) (t_snd_wl1 p) (t_snd_wl2 p) (t_snd_lbb p) (t_snd_wnd p) (t_snd_wnd_max p) (t_acked
  p) (t_snd_buf p) (t_snd_queuelen p) (t_unsent_oversize p) (t_unsent p) (t_unacked p) (t_ooseq p)
  (t_refused_data p) (t_sent p) (t_recv p) (t_connected p) (t_poll p) (t_errf p) (t_keep_idle p)
  (t_persist_cnt p) (t_persist_backoff p) (t_keep_cnt_sent p).

Definition set_t_next : Z -> tcp_pcb -> tcp_pcb := ltac:(field_setter eta_pcb t_next).
Definition set_t_local_ip : Z -> tcp_pcb -> tcp_pcb := ltac:(field_setter eta_pcb t_local_ip).
Definition set_t_remote_ip : Z -> tcp_pcb -> tcp_pcb := ltac:(field_setter eta_pcb t_remote_ip).
Definition set_t_so_options : Z -> tcp_pcb -> tcp_pcb := ltac:(field_setter eta_pcb t_so_options).
Definition set_t_tos : Z -> tcp_pcb -> tcp_pcb := ltac:(field_setter eta_pcb t_tos).
Definition set_t_ttl : Z -> tcp_pcb -> tcp_pcb := ltac:(field_setter eta_pcb t_ttl).
Definition set_t_callback_arg : Z -> tcp_pcb -> tcp_pcb := ltac:(field_setter eta_pcb t_callback_arg).
Definition set_t_accept : Z -> tcp_pcb -> tcp_pcb := ltac:(field_setter eta_pcb t_accept).
Definition set_t_state : tcp_state -> tcp_pcb -> tcp_pcb := ltac:(field_setter eta_pcb t_state).
Definition set_t_prio : Z -> tcp_pcb -> tcp_pcb := ltac:(field_setter eta_pcb t_prio).
Definition set_t_local_port : Z -> tcp_pcb -> tcp_pcb := ltac:(field_setter eta_pcb t_local_port).
Definition set_t_remote_port : Z -> tcp_pcb -> tcp_pcb := ltac:(field_setter eta_pcb t_remote_port).
Definition set_t_flags : Z -> tcp_pcb -> tcp_pcb := ltac:(field_setter eta_pcb t_flags).
Definition set_t_polltmr : Z -> tcp_pcb -> tcp_pcb := ltac:(field_setter eta_pcb t_polltmr).
Definition set_t_pollinterval : Z -> tcp_pcb -> tcp_pcb := ltac:(field_setter eta_pcb t_pollinterval).
Definition set_t_last_timer : Z -> tcp_pcb -> tcp_pcb := ltac:(field_setter eta_pcb t_last_timer).
Definition set_t_tmr : Z -> tcp_pcb -> tcp_pcb := ltac:(field_setter eta_pcb t_tmr).
Definition set_t_rcv_nxt : Z -> tcp_pcb -> tcp_pcb := ltac:(field_setter eta_pcb t_rcv_nxt).
Definition set_t_rcv_wnd : Z -> tcp_pcb -> tcp_pcb := ltac:(field_setter eta_pcb t_rcv_wnd).
Definition set_t_rcv_ann_wnd : Z -> tcp_pcb -> tcp_pcb := ltac:(field_setter eta_pcb t_rcv_ann_wnd).
Definition set_t_rcv_ann_right_edge : Z -> tcp_pcb -> tcp_pcb := ltac:(field_setter eta_pcb t_rcv_ann_right_edge).
Definition set_t_rtime : Z -> tcp_pcb -> tcp_pcb := ltac:(field_setter eta_pcb t_rtime).
Definition set_t_mss : Z -> tcp_pcb -> tcp_pcb := ltac:(field_setter eta_pcb t_mss).
Definition set_t_rttest : Z -> tcp_pcb -> tcp_pcb := ltac:(field_setter eta_pcb t_rttest).
Definition set_t_rtseq : Z -> tcp_pcb -> tcp_pcb := ltac:(field_setter eta_pcb t_rtseq).
Definition set_t_sa : Z -> tcp_pcb -> tcp_pcb := ltac:(field_setter eta_pcb t_sa).
Definition set_t_sv : Z -> tcp_pcb -> tcp_pcb := ltac:(field_setter eta_pcb t_sv).
Definition set_t_rto : Z -> tcp_pcb -> tcp_pcb := ltac:(field_setter eta_pcb t_rto).
Definition set_t_nrtx : Z -> tcp_pcb -> tcp_pcb := ltac:(field_setter eta_pcb t_nrtx).
Definition set_t_dupacks : Z -> tcp_pcb -> tcp_pcb := ltac:(field_setter eta_pcb t_dupacks).
Definition set_t_lastack : Z -> tcp_pcb -> tcp_pcb := ltac:(field_setter eta_pcb t_lastack).
Definition set_t_cwnd : Z -> tcp_pcb -> tcp_pcb := ltac:(field_setter eta_pcb t_cwnd).
Definition set_t_ssthresh : Z -> tcp_pcb -> tcp_pcb := ltac:(field_setter eta_pcb t_ssthresh).
Definition set_t_snd_nxt : Z -> tcp_pcb -> tcp_pcb := ltac:(field_setter eta_pcb t_snd_nxt).
Definition set_t_snd_wl1 : Z -> tcp_pcb -> tcp_pcb := ltac:(field_setter eta_pcb t_snd_wl1).
Definition set_t_snd_wl2 : Z -> tcp_pcb -> tcp_pcb := ltac:(field_setter eta_pcb t_snd_wl2).
Definition set_t_snd_lbb : Z -> tcp_pcb -> tcp_pcb := ltac:(field_setter eta_pcb t_snd_lbb).
Definition set_t_snd_wnd : Z -> tcp_pcb -> tcp_pcb := ltac:(field_setter eta_pcb t_snd_wnd).
Definition set_t_snd_wnd_max : Z -> tcp_pcb -> tcp_pcb := ltac:(field_setter eta_pcb t_snd_wnd_max).
Definition set_t_acked : Z -> tcp_pcb -> tcp_pcb := ltac:(field_setter eta_pcb t_acked).
Definition set_t_snd_buf : Z -> tcp_pcb -> tcp_pcb := ltac:(field_setter eta_pcb t_snd_buf).
Definition set_t_snd_queuelen : Z -> tcp_pcb -> tcp_pcb := ltac:(field_setter eta_pcb t_snd_queuelen).
Definition set_t_unsent_oversize : Z -> tcp_pcb -> tcp_pcb := ltac:(field_setter eta_pcb t_unsent_oversize).
Definition set_t_unsent : Z -> tcp_pcb -> tcp_pcb := ltac:(field_setter eta_pcb t_unsent).
Definition set_t_unacked : Z -> tcp_pcb -> tcp_pcb := ltac:(field_setter eta_pcb t_unacked).
Definition set_t_ooseq : Z -> tcp_pcb -> tcp_pcb := ltac:(field_setter eta_pcb t_ooseq).
Definition set_t_refused_data : Z -> tcp_pcb -> tcp_pcb := ltac:(field_setter eta_pcb t_refused_data).
Definition set_t_sent : Z -> tcp_pcb -> tcp_pcb := ltac:(field_setter eta_pcb t_sent).
Definition set_t_recv : Z -> tcp_pcb -> tcp_pcb := ltac:(field_setter eta_pcb t_recv).
Definition set_t_connected : Z -> tcp_pcb -> tcp_pcb := ltac:(field_setter eta_pcb t_connected).
Definition set_t_poll : Z -> tcp_pcb -> tcp_pcb := ltac:(field_setter eta_pcb t_poll).
Definition set_t_errf : Z -> tcp_pcb -> tcp_pcb := ltac:(field_setter eta_pcb t_errf).
Definition set_t_keep_idle : Z -> tcp_pcb -> tcp_pcb := ltac:(field_setter eta_pcb t_keep_idle).
Definition set_t_persist_cnt : Z -> tcp_pcb -> tcp_pcb := ltac:(field_setter eta_pcb t_persist_cnt).
Definition set_t_persist_backoff : Z -> tcp_pcb -> tcp_pcb := ltac:(field_setter eta_pcb t_persist_backoff).
Definition set_t_keep_cnt_sent : Z -> tcp_pcb -> tcp_pcb := ltac:(field_setter eta_pcb t_keep_cnt_sent).

(** ** Segments *)

Record tcp_seg := TcpSeg {
  sg_next : Z;
  sg_p : Z;
  sg_len : Z;
  sg_flags : Z;
  sg_tcphdr : Z;
}.

Definition set_sg_next v s := TcpSeg v (sg_p s) (sg_len s) (sg_flags s) (sg_tcphdr s).
Definition set_sg_p v s := TcpSeg (sg_next s) v (sg_len s) (sg_flags s) (sg_tcphdr s).
Definition set_sg_len v s := TcpSeg (sg_next s) (sg_p s) v (sg_flags s) (sg_tcphdr s).

(** ** Globals

    [g_iss] is the static variable of [tcp_next_iss]; [g_hdr], [g_seqno],
    [g_ackno], [g_in_flags] and [g_tcplen] are [tcphdr], [seqno], [ackno],
    [flags] and [tcplen] of core/tcp_in.c. *)

Record tcp_globals := TcpGlobals {
  g_pcb_map : gmap Z tcp_pcb;
  g_seg_map : gmap Z tcp_seg;
  g_bound_pcbs : Z;
  g_listen_pcbs : Z;
  g_active_pcbs : Z;
  g_tw_pcbs : Z;
  g_active_pcbs_changed : bool;
  g_ticks : Z;
  g_timer : Z;
  g_timer_ctr : Z;
  g_port : Z;
  g_iss : Z;
  g_input_pcb : Z;
  g_inseg : tcp_seg;
  g_hdr : Z;
  g_seqno : Z;
  g_ackno : Z;
  g_in_flags : Z;
  g_tcplen : Z;
  g_recv_flags : Z;
  g_recv_data : Z;
}.

Definition eta_tcp (g : tcp_globals) : tcp_globals :=
  TcpGlobals (g_pcb_map g) (g_seg_map g) (g_bound_pcbs g) (g_listen_pcbs g) (g_active_pcbs g)
  (g_tw_pcbs g) (g_active_pcbs_changed g) (g_ticks g) (g_timer g) (g_timer_ctr g) (g_port g) (g_iss
  g) (g_input_pcb g) (g_inseg g) (g_hdr g) (g_seqno g) (g_ackno g) (g_in_flags g) (g_tcplen g)
  (g_recv_flags g) (g_recv_data g).

Definition set_g_pcb_map : gmap Z tcp_pcb -> tcp_globals -> tcp_globals := ltac:(field_setter eta_tcp g_pcb_map).
Definition set_g_seg_map : gmap Z tcp_seg -> tcp_globals -> tcp_globals := ltac:(field_setter eta_tcp g_seg_map).
Definition set_g_bound_pcbs : Z -> tcp_globals -> tcp_globals := ltac:(field_setter eta_tcp g_bound_pcbs).
Definition set_g_listen_pcbs : Z -> tcp_globals -> tcp_globals := ltac:(field_setter eta_tcp g_listen_pcbs).
Definition set_g_active_pcbs : Z -> tcp_globals -> tcp_globals := ltac:(field_setter eta_tcp g_active_pcbs).
Definition set_g_tw_pcbs : Z -> tcp_globals -> tcp_globals := ltac:(field_setter eta_tcp g_tw_pcbs).
Definition set_g_active_pcbs_changed : bool -> tcp_globals -> tcp_globals := ltac:(field_setter eta_tcp g_active_pcbs_changed).
Definition set_g_ticks : Z -> tcp_globals -> tcp_globals := ltac:(field_setter eta_tcp g_ticks).
Definition set_g_timer : Z -> tcp_globals -> tcp_globals := ltac:(field_setter eta_tcp g_timer).
Definition set_g_timer_ctr : Z -> tcp_globals -> tcp_globals := ltac:(field_setter eta_tcp g_timer_ctr).
Definition set_g_port : Z -> tcp_globals -> tcp_globals := ltac:(field_setter eta_tcp g_port).
Definition set_g_iss : Z -> tcp_globals -> tcp_globals := ltac:(field_setter eta_tcp g_iss).
Definition set_g_input_pcb : Z -> tcp_globals -> tcp_globals := ltac:(field_setter eta_tcp g_input_pcb).
Definition set_g_inseg : tcp_seg -> tcp_globals -> tcp_globals := ltac:(field_setter eta_tcp g_inseg).
Definition set_g_hdr : Z -> tcp_globals -> tcp_globals := ltac:(field_setter eta_tcp g_hdr).
Definition set_g_seqno : Z -> tcp_globals -> tcp_globals := ltac:(field_setter eta_tcp g_seqno).
Definition set_g_ackno : Z -> tcp_globals -> tcp_globals := ltac:(field_setter eta_tcp g_ackno).
Definition set_g_in_flags : Z -> tcp_globals -> tcp_globals := ltac:(field_setter eta_tcp g_in_flags).
Definition set_g_tcplen : Z -> tcp_globals -> tcp_globals := ltac:(field_setter eta_tcp g_tcplen).
Definition set_g_recv_flags : Z -> tcp_globals -> tcp_globals := ltac:(field_setter eta_tcp g_recv_flags).
Definition set_g_recv_data : Z -> tcp_globals -> tcp_globals := ltac:(field_setter eta_tcp g_recv_data).

(** ** Timeouts: core/timers.c *)

Record sys_timeo := SysTimeo {
  to_next : Z;
  to_time : Z;
  to_h : Z;
  to_arg : Z;
}.

Definition set_to_next v t := SysTimeo v (to_time t) (to_h t) (to_arg t).
Definition set_to_time v t := SysTimeo (to_next t) v (to_h t) (to_arg t).

Record tmo_globals := TmoGlobals {
  timeo_map : gmap Z sys_timeo;
  next_timeout : Z;
  tcpip_tcp_timer_active : bool;
}.

(** The initial values. *)
Definition tcp_start : tcp_globals :=
  TcpGlobals ∅ ∅ NULL NULL NULL NULL false 0 0 0 49152 6510 NULL (TcpSeg NULL NULL 0 0 NULL) NULL 0 0 0 0 0 NULL.

Definition tmo_start : tmo_globals := TmoGlobals ∅ NULL false.
