(* ===== verification/NetState.v ===== *)
(** * The state of the network stack

    The globals of the protocols of components/net/lwip-1.4.1/src: the
    interfaces of core/netif.c, the address resolution table of
    netif/etharp.c, the current packet of core/ipv4/ip.c, the control blocks of
    core/udp.c and core/raw.c, on top of the memory of LwipMem; and the actions
    on them.

    Pointers to structures are addresses into maps.  The frames that the stack
    hands to [netif->linkoutput] are recorded in [link_sent]; what that function
    returns is up to the driver, so its results are a field of the state, as are
    the answers of the heap.  A receive function of the application takes over
    the packet buffer: [udp_rx] and [raw_rx] record its arguments. *)

From S2P Require Import Prelude StateM LwipMem TcpData Chksum IpAddr Pbuf.

(** ** netif/etharp.c and include/netif/etharp.h *)

Inductive etharp_state :=
  | ETHARP_STATE_EMPTY | ETHARP_STATE_PENDING | ETHARP_STATE_STABLE
  | ETHARP_STATE_STABLE_REREQUESTING.

#[export] Instance etharp_state_eq_dec : EqDecision etharp_state.
Proof. solve_decision. Defined.

Record etharp_q_entry := EtharpQ { qe_next : Z; qe_p : Z }.

Record etharp_entry := EtharpEntry {
  ae_q : Z;
  ae_ipaddr : Z;
  ae_netif : Z;
  ae_ethaddr : list Z;
  ae_state : etharp_state;
  ae_ctime : Z;
}.

Definition set_ae_q v e := EtharpEntry v (ae_ipaddr e) (ae_netif e) (ae_ethaddr e) (ae_state e) (ae_ctime e).
Definition set_ae_ipaddr v e := EtharpEntry (ae_q e) v (ae_netif e) (ae_ethaddr e) (ae_state e) (ae_ctime e).
Definition set_ae_netif v e := EtharpEntry (ae_q e) (ae_ipaddr e) v (ae_ethaddr e) (ae_state e) (ae_ctime e).
Definition set_ae_ethaddr v e := EtharpEntry (ae_q e) (ae_ipaddr e) (ae_netif e) v (ae_state e) (ae_ctime e).
Definition set_ae_state v e := EtharpEntry (ae_q e) (ae_ipaddr e) (ae_netif e) (ae_ethaddr e) v (ae_ctime e).
Definition set_ae_ctime v e := EtharpEntry (ae_q e) (ae_ipaddr e) (ae_netif e) (ae_ethaddr e) (ae_state e) v.

Record arp_globals := ArpGlobals {
  arp_table : list etharp_entry;
  etharp_cached_entry : Z;
  arp_queue : gmap Z etharp_q_entry;   (** the allocated queue entries *)
}.

(** ** core/ipv4/ip.c *)

Record ip_globals := IpGlobals {
  ip_id : Z;
  current_netif : Z;
  current_header : Z;
  current_iphdr_src : Z;
  current_iphdr_dest : Z;
}.

(** ** core/udp.c and core/raw.c

    [up_recv] and [rp_recv] are the function pointers, of which only whether
    they are null matters. *)

Record udp_pcb := UdpPcb {
  up_next : Z;
  up_local_ip : Z;
  up_remote_ip : Z;
  up_so_options : Z;
  up_tos : Z;
  up_ttl : Z;
  up_flags : Z;
  up_local_port : Z;
  up_remote_port : Z;
  up_recv : Z;
}.

Definition set_up_next v u := UdpPcb v (up_local_ip u) (up_remote_ip u) (up_so_options u) (up_tos u) (up_ttl u) (up_flags u) (up_local_port u) (up_remote_port u) (up_recv u).
Definition set_up_local v p u := UdpPcb (up_next u) v (up_remote_ip u) (up_so_options u) (up_tos u) (up_ttl u) (up_flags u) p (up_remote_port u) (up_recv u).
Definition set_up_remote v p f u := UdpPcb (up_next u) (up_local_ip u) v (up_so_options u) (up_tos u) (up_ttl u) f (up_local_port u) p (up_recv u).
Definition set_up_options v u := UdpPcb (up_next u) (up_local_ip u) (up_remote_ip u) v (up_tos u) (up_ttl u) (up_flags u) (up_local_port u) (up_remote_port u) (up_recv u).
Definition set_up_recv v u := UdpPcb (up_next u) (up_local_ip u) (up_remote_ip u) (up_so_options u) (up_tos u) (up_ttl u) (up_flags u) (up_local_port u) (up_remote_port u) v.

(** A bit of [so_options], of include/ipv4/lwip/ip.h. *)
Definition SOF_REUSEADDR : Z := 4.

Record raw_pcb := RawPcb {
  rp_next : Z;
  rp_local_ip : Z;
  rp_remote_ip : Z;
  rp_tos : Z;
  rp_ttl : Z;
  rp_protocol : Z;
  rp_recv : Z;
}.

Definition set_rp_next v u := RawPcb v (rp_local_ip u) (rp_remote_ip u) (rp_tos u) (rp_ttl u) (rp_protocol u) (rp_recv u).

Record udp_globals := UdpGlobals {
  udp_pcb_map : gmap Z udp_pcb;
  udp_pcbs : Z;
  udp_port : Z;
  udp_rx : list (Z * Z * Z * Z);   (** control block, buffer, source address and port *)
}.

Record raw_globals := RawGlobals {
  raw_pcb_map : gmap Z raw_pcb;
  raw_pcbs : Z;
  raw_answers : list Z;            (** what the receive functions return *)
  raw_rx : list (Z * Z * Z);       (** control block, buffer, source address *)
}.

Record net := Net {
  n_mem : netmem;
  n_ifs : gmap Z netif;
  netif_list : Z;
  netif_default : Z;
  n_arp : arp_globals;
  link_results : list Z;
  link_sent : list (Z * list Z);
  n_ip : ip_globals;
  n_udp : udp_globals;
  n_raw : raw_globals;
  n_tcp : tcp_globals;
  n_tmo : tmo_globals;
}.

Definition eta_net (s : net) : net :=
  Net (n_mem s) (n_ifs s) (netif_list s) (netif_default s) (n_arp s) (link_results s) (link_sent s) (n_ip s) (n_udp s)
    (n_raw s) (n_tcp s) (n_tmo s).

Definition set_mem : netmem -> net -> net := ltac:(field_setter eta_net n_mem).
Definition set_ifs : gmap Z netif -> net -> net := ltac:(field_setter eta_net n_ifs).
Definition set_netif_list : Z -> net -> net := ltac:(field_setter eta_net netif_list).
Definition set_netif_default : Z -> net -> net := ltac:(field_setter eta_net netif_default).
Definition set_arp : arp_globals -> net -> net := ltac:(field_setter eta_net n_arp).
Definition set_ip : ip_globals -> net -> net := ltac:(field_setter eta_net n_ip).
Definition set_udp : udp_globals -> net -> net := ltac:(field_setter eta_net n_udp).
Definition set_raw : raw_globals -> net -> net := ltac:(field_setter eta_net n_raw).
Definition set_tcp : tcp_globals -> net -> net := ltac:(field_setter eta_net n_tcp).
Definition set_tmo : tmo_globals -> net -> net := ltac:(field_setter eta_net n_tmo).

Definition set_link r l s :=
  Net (n_mem s) (n_ifs s) (netif_list s) (netif_default s) (n_arp s) r l (n_ip s) (n_udp s) (n_raw s) (n_tcp s) (n_tmo s).

Abbreviation NetM := (ST net).

(** ** Actions *)

(** An operation on the memory. *)
Definition on_mem {A} (m : NM A) : NetM A := fun s =>
  match m (n_mem s) with
  | Some (a, st) => Some (a, set_mem st s)
  | None => None
  end.

(** [LWIP_ASSERT] and [LWIP_ERROR] above the memory. *)
Definition nassert (b : bool) : NetM unit := fun s => if b then Some (tt, s) else None.

Definition getif (n : Z) : NetM netif := fun s => (fun i => (i, s)) <$> n_ifs s !! n.

Definition load (a n : Z) : NM (list Z) := fun st =>
  (fun bs => (bs, st)) <$> read_bytes (ram st) a (Z.to_nat n).

Definition store (a : Z) (bs : list Z) : NM unit := fun st =>
  (fun m => (tt, set_ram m st)) <$> write_bytes (ram st) a bs.

(** Fields of packed structures, as the little-endian processor sees them. *)
Definition load_le (a n : Z) : NM Z := bs ← load a n; mret (le_num bs).
Definition store_le (a n v : Z) : NM unit := store a (le_bytes (Z.to_nat n) v).

(** The bytes that the driver sends: the payloads along [next]. *)
Fixpoint gather (fuel : nat) (q : Z) : NM (list Z) :=
  match fuel with
  | O => fun _ => None
  | S fuel =>
      if q =? NULL then mret []
      else
        b ← getp q;
        d ← load (pb_payload b) (pb_len b);
        r ← gather fuel (pb_next b);
        mret (d ++ r)
  end.

Definition link_send (netif : Z) (frame : list Z) : NetM Z := fun s =>
  let sent := link_sent s ++ [(netif, frame)] in
  match link_results s with
  | e :: r => Some (e, set_link r sent s)
  | [] => Some (ERR_OK, set_link [] sent s)
  end.

(** [netif->linkoutput (netif, p)]. *)
Definition linkoutput (netif p : Z) : NetM Z :=
  n ← on_mem chain_bound;
  frame ← on_mem (gather n p);
  link_send netif frame.
