(* ===== verification/Etharp.v ===== *)
(** * Address resolution: netif/etharp.c

    The table that maps IP addresses to Ethernet addresses, with the queues of
    packets that wait for an answer, in the configuration of lwipopts.h: ten
    entries, queueing, no static entries, no address hints, no VLAN, no DHCP and
    no AutoIP; ETHARP_TRUST_IP_MAC is off.  [ethernet_input] is in NetInput. *)

From S2P Require Import Prelude StateM LwipMem Chksum IpAddr Pbuf NetState.

Definition ARP_TABLE_SIZE : Z := 10.
Definition ARP_MAXAGE : Z := 240.
Definition ARP_AGE_REREQUEST_USED : Z := ARP_MAXAGE - 12.
Definition ARP_MAXPENDING : Z := 2.
Definition HWTYPE_ETHERNET : Z := 1.
Definition ETHARP_FLAG_TRY_HARD : Z := 1.
Definition ETHARP_FLAG_FIND_ONLY : Z := 2.
Definition ETHARP_HWADDR_LEN : Z := 6.
Definition SIZEOF_ETH_HDR : Z := 14.
Definition SIZEOF_ETHARP_HDR : Z := 28.
Definition SIZEOF_ETHARP_PACKET : Z := SIZEOF_ETH_HDR + SIZEOF_ETHARP_HDR.
Definition ETHTYPE_ARP : Z := 2054.
Definition ETHTYPE_IP : Z := 2048.
Definition ARP_REQUEST : Z := 1.
Definition ARP_REPLY : Z := 2.
Definition LL_MULTICAST_ADDR_0 : Z := 1.
Definition LL_MULTICAST_ADDR_1 : Z := 0.
Definition LL_MULTICAST_ADDR_2 : Z := 94.
Definition ethbroadcast : list Z := [255; 255; 255; 255; 255; 255].
Definition ethzero : list Z := [0; 0; 0; 0; 0; 0].

Definition ERR_MEM : Z := -1.
Definition ERR_BUF : Z := -2.
Definition ERR_RTE : Z := -4.
Definition ERR_USE : Z := -8.

(** ** Accesses to the table *)

Definition get_entry (i : Z) : NetM etharp_entry := fun s =>
  if i <? 0 then None else (fun e => (e, s)) <$> arp_table (n_arp s) !! Z.to_nat i.

Definition set_table (t : list etharp_entry) (s : net) : net :=
  set_arp (ArpGlobals t (etharp_cached_entry (n_arp s)) (arp_queue (n_arp s))) s.

Definition upd_entry (i : Z) (f : etharp_entry -> etharp_entry) : NetM unit := fun s =>
  if i <? 0 then None else
  e ← arp_table (n_arp s) !! Z.to_nat i;
  Some (tt, set_table (<[Z.to_nat i := f e]> (arp_table (n_arp s))) s).

Definition set_queue (q : gmap Z etharp_q_entry) (s : net) : net :=
  set_arp (ArpGlobals (arp_table (n_arp s)) (etharp_cached_entry (n_arp s)) q) s.

Definition getq (q : Z) : NetM etharp_q_entry := fun s =>
  (fun e => (e, s)) <$> arp_queue (n_arp s) !! q.

(** The structure at [q] is written; [memp_free] takes it away. *)
Definition putq (q : Z) (e : etharp_q_entry) : NetM unit :=
  supd (fun s => set_queue (<[q := e]> (arp_queue (n_arp s))) s).
Definition freeq (q : Z) : NetM unit :=
  supd (fun s => set_queue (delete q (arp_queue (n_arp s))) s).

Definition queue_bound : NetM nat := sget (fun s => S (size (arp_queue (n_arp s)))).

Definition ETHARP_SET_HINT (hint : Z) : NetM unit :=
  supd (fun s => set_arp (ArpGlobals (arp_table (n_arp s)) hint (arp_queue (n_arp s))) s).

(** [state >= ETHARP_STATE_STABLE] *)
Definition ge_stable (s : etharp_state) : bool :=
  match s with
  | ETHARP_STATE_STABLE | ETHARP_STATE_STABLE_REREQUESTING => true
  | _ => false
  end.

Abbreviation is_state e s := (bool_decide (ae_state e = s)).

(** [for (i = 0; i < ARP_TABLE_SIZE; ++i)] *)
Definition table_indices : list Z := seqZ 0 ARP_TABLE_SIZE.

Fixpoint for_each (l : list Z) (body : Z -> NetM unit) : NetM unit :=
  match l with
  | [] => mret tt
  | i :: l => body i ;; for_each l body
  end.

(** ** Freeing *)

Fixpoint free_q_loop (fuel : nat) (q : Z) : NetM unit :=
  match fuel with
  | O => fun _ => None
  | S fuel =>
      if q =? NULL then mret tt
      else
        r ← getq q;
        nassert (negb (qe_p r =? NULL)) ;;
        on_mem (pbuf_free (qe_p r)) ;;
        freeq q ;;
        free_q_loop fuel (qe_next r)
  end.

Definition free_etharp_q (q : Z) : NetM unit :=
  nassert (negb (q =? NULL)) ;;
  r ← getq q;
  nassert (negb (qe_p r =? NULL)) ;;
  n ← queue_bound;
  free_q_loop n q.

Definition etharp_free_entry (i : Z) : NetM unit :=
  e ← get_entry i;
  swhen (negb (ae_q e =? NULL)) (
    free_etharp_q (ae_q e) ;;
    upd_entry i (set_ae_q NULL)) ;;
  upd_entry i (set_ae_state ETHARP_STATE_EMPTY).

(** ** The timer *)

(** The body of the loop of [etharp_tmr]. *)
Definition tmr_entry (i : Z) : NetM unit :=
  e ← get_entry i;
  if is_state e ETHARP_STATE_EMPTY then mret tt
  else
    upd_entry i (fun e => set_ae_ctime (u8 (ae_ctime e + 1)) e) ;;
    e ← get_entry i;
    if (ARP_MAXAGE <=? ae_ctime e) ||
       (is_state e ETHARP_STATE_PENDING && (ARP_MAXPENDING <=? ae_ctime e))
    then etharp_free_entry i
    else if is_state e ETHARP_STATE_STABLE_REREQUESTING
    then upd_entry i (set_ae_state ETHARP_STATE_STABLE)
    else mret tt.

Definition etharp_tmr : NetM unit := for_each table_indices tmr_entry.

(** ** Looking for an entry *)

(** The candidates that the search of [etharp_find_entry] remembers. *)
Record candidates := Candidates {
  old_pending : Z; age_pending : Z;
  old_stable : Z; age_stable : Z;
  old_queue : Z; age_queue : Z;
  cand_empty : Z;
}.

(** One round of the search: [inl i] when the address is found. *)
Definition find_step (ipaddr : option Z) (i : Z) (e : etharp_entry) (c : candidates) : Z + candidates :=
  if (cand_empty c =? ARP_TABLE_SIZE) && is_state e ETHARP_STATE_EMPTY then
    inr (Candidates (old_pending c) (age_pending c) (old_stable c) (age_stable c)
           (old_queue c) (age_queue c) i)
  else if negb (is_state e ETHARP_STATE_EMPTY) then
    if match ipaddr with Some a => a =? ae_ipaddr e | None => false end then inl i
    else if is_state e ETHARP_STATE_PENDING then
      if negb (ae_q e =? NULL) then
        if age_queue c <=? ae_ctime e
        then inr (Candidates (old_pending c) (age_pending c) (old_stable c) (age_stable c)
                    i (ae_ctime e) (cand_empty c))
        else inr c
      else
        if age_pending c <=? ae_ctime e
        then inr (Candidates i (ae_ctime e) (old_stable c) (age_stable c)
                    (old_queue c) (age_queue c) (cand_empty c))
        else inr c
    else
      if age_stable c <=? ae_ctime e
      then inr (Candidates (old_pending c) (age_pending c) i (ae_ctime e)
                  (old_queue c) (age_queue c) (cand_empty c))
      else inr c
  else inr c.

Fixpoint find_scan (ipaddr : option Z) (l : list Z) (c : candidates) : NetM (Z + candidates) :=
  match l with
  | [] => mret (inr c)
  | i :: l =>
      e ← get_entry i;
      match find_step ipaddr i e c with
      | inl i => mret (inl i)
      | inr c => find_scan ipaddr l c
      end
  end.

(** The entry is freed if it was in use, and gets the address. *)
Definition find_claim (ipaddr : option Z) (recycle : bool) (i : Z) : NetM Z :=
  swhen recycle (
    nassert (i <? ARP_TABLE_SIZE) ;;
    etharp_free_entry i) ;;
  nassert (i <? ARP_TABLE_SIZE) ;;
  e ← get_entry i;
  nassert (is_state e ETHARP_STATE_EMPTY) ;;
  match ipaddr with
  | Some a => upd_entry i (set_ae_ipaddr a)
  | None => mret tt
  end ;;
  upd_entry i (set_ae_ctime 0) ;;
  mret i.

Definition etharp_find_entry (ipaddr : option Z) (flags : Z) : NetM Z :=
  r ← find_scan ipaddr table_indices
        (Candidates ARP_TABLE_SIZE 0 ARP_TABLE_SIZE 0 ARP_TABLE_SIZE 0 ARP_TABLE_SIZE);
  match r with
  | inl i => mret i
  | inr c =>
      if truthy (flags &. ETHARP_FLAG_FIND_ONLY) ||
         ((cand_empty c =? ARP_TABLE_SIZE) && negb (truthy (flags &. ETHARP_FLAG_TRY_HARD)))
      then mret ERR_MEM
      else if cand_empty c <? ARP_TABLE_SIZE then find_claim ipaddr false (cand_empty c)
      else if old_stable c <? ARP_TABLE_SIZE then
        e ← get_entry (old_stable c);
        nassert (ae_q e =? NULL) ;;
        find_claim ipaddr true (old_stable c)
      else if old_pending c <? ARP_TABLE_SIZE then find_claim ipaddr true (old_pending c)
      else if old_queue c <? ARP_TABLE_SIZE then find_claim ipaddr true (old_queue c)
      else mret ERR_MEM
  end.

(** ** Sending *)

(** [src] and [dst] are the six bytes behind the pointers. *)
Definition etharp_send_ip (netif p : Z) (src dst : list Z) : NetM Z :=
  b ← on_mem (getp p);
  let ethhdr := pb_payload b in
  n ← getif netif;
  nassert (ni_hwaddr_len n =? ETHARP_HWADDR_LEN) ;;
  on_mem (store ethhdr dst) ;;
  on_mem (store (ethhdr + 6) src) ;;
  on_mem (store_le (ethhdr + 12) 2 (lwip_htons ETHTYPE_IP)) ;;
  linkoutput netif p.

(** The loop of [etharp_update_arp_entry] over the queue of entry [i]. *)
Fixpoint send_queue (fuel : nat) (netif i ethaddr : Z) : NetM unit :=
  match fuel with
  | O => fun _ => None
  | S fuel =>
      e ← get_entry i;
      if ae_q e =? NULL then mret tt
      else
        q ← getq (ae_q e);
        upd_entry i (set_ae_q (qe_next q)) ;;
        let p := qe_p q in
        freeq (ae_q e) ;;
        n ← getif netif;
        dst ← on_mem (load ethaddr ETHARP_HWADDR_LEN);
        etharp_send_ip netif p (ni_hwaddr n) dst ;;
        on_mem (pbuf_free p) ;;
        send_queue fuel netif i ethaddr
  end.

(** [ethaddr] points to the six bytes of the address. *)
Definition etharp_update_arp_entry (netif ipaddr ethaddr flags : Z) : NetM Z :=
  n ← getif netif;
  nassert (ni_hwaddr_len n =? ETHARP_HWADDR_LEN) ;;
  if ip_addr_isany ipaddr || truthy (ip4_addr_isbroadcast ipaddr n) || ip_addr_ismulticast ipaddr
  then mret ERR_ARG
  else
    i ← etharp_find_entry (Some ipaddr) flags;
    if i <? 0 then mret i
    else
      upd_entry i (set_ae_state ETHARP_STATE_STABLE) ;;
      upd_entry i (set_ae_netif netif) ;;
      mac ← on_mem (load ethaddr ETHARP_HWADDR_LEN);
      upd_entry i (set_ae_ethaddr mac) ;;
      upd_entry i (set_ae_ctime 0) ;;
      fuel ← queue_bound;
      send_queue fuel netif i ethaddr ;;
      mret ERR_OK.

Definition cleanup_entry (netif i : Z) : NetM unit :=
  e ← get_entry i;
  swhen (negb (is_state e ETHARP_STATE_EMPTY) && (ae_netif e =? netif)) (etharp_free_entry i).

Definition etharp_cleanup_netif (netif : Z) : NetM unit :=
  for_each table_indices (cleanup_entry netif).

(** The result, and the addresses of the entry if one is returned. *)
Definition etharp_find_addr (ipaddr : Z) : NetM (Z * option (list Z * Z)) :=
  i ← etharp_find_entry (Some ipaddr) ETHARP_FLAG_FIND_ONLY;
  if 0 <=? i then
    e ← get_entry i;
    if ge_stable (ae_state e) then mret (i, Some (ae_ethaddr e, ae_ipaddr e))
    else mret (-1, None)
  else mret (-1, None).

(** An ARP packet in a new buffer; the addresses are the bytes behind the
    pointers. *)
Definition etharp_raw (netif : Z) (ethsrc_addr ethdst_addr hwsrc_addr : list Z) (ipsrc_addr : Z)
    (hwdst_addr : list Z) (ipdst_addr opcode : Z) : NetM Z :=
  p ← on_mem (pbuf_alloc PBUF_RAW SIZEOF_ETHARP_PACKET PBUF_RAM);
  if p =? NULL then mret ERR_MEM
  else
    b ← on_mem (getp p);
    nassert (SIZEOF_ETHARP_PACKET <=? pb_len b) ;;
    let ethhdr := pb_payload b in
    let hdr := ethhdr + SIZEOF_ETH_HDR in
    on_mem (store_le (hdr + 6) 2 (lwip_htons opcode)) ;;
    n ← getif netif;
    nassert (ni_hwaddr_len n =? ETHARP_HWADDR_LEN) ;;
    on_mem (store (hdr + 8) hwsrc_addr) ;;
    on_mem (store (hdr + 18) hwdst_addr) ;;
    on_mem (store ethhdr ethdst_addr) ;;
    on_mem (store (ethhdr + 6) ethsrc_addr) ;;
    on_mem (store_le (hdr + 14) 4 ipsrc_addr) ;;
    on_mem (store_le (hdr + 24) 4 ipdst_addr) ;;
    on_mem (store_le hdr 2 (lwip_htons HWTYPE_ETHERNET)) ;;
    on_mem (store_le (hdr + 2) 2 (lwip_htons ETHTYPE_IP)) ;;
    on_mem (store_le (hdr + 4) 1 ETHARP_HWADDR_LEN) ;;
    on_mem (store_le (hdr + 5) 1 4) ;;
    on_mem (store_le (ethhdr + 12) 2 (lwip_htons ETHTYPE_ARP)) ;;
    result ← linkoutput netif p;
    on_mem (pbuf_free p) ;;
    mret result.

Definition etharp_request (netif ipaddr : Z) : NetM Z :=
  n ← getif netif;
  etharp_raw netif (ni_hwaddr n) ethbroadcast (ni_hwaddr n) (ni_ip_addr n) ethzero ipaddr ARP_REQUEST.

Definition etharp_output_to_arp_index (netif q arp_idx : Z) : NetM Z :=
  e ← get_entry arp_idx;
  nassert (ge_stable (ae_state e)) ;;
  swhen (is_state e ETHARP_STATE_STABLE && (ARP_AGE_REREQUEST_USED <=? ae_ctime e)) (
    result ← etharp_request netif (ae_ipaddr e);
    swhen (result =? ERR_OK) (upd_entry arp_idx (set_ae_state ETHARP_STATE_STABLE_REREQUESTING))) ;;
  n ← getif netif;
  e ← get_entry arp_idx;
  etharp_send_ip netif q (ni_hwaddr n) (ae_ethaddr e).

(** ** Queueing *)

(** [while (p)] of [etharp_query]: the first buffer that is not in ROM, or the
    null pointer; [copy_needed] is whether there is one. *)
Fixpoint copy_scan (fuel : nat) (p : Z) : NM Z :=
  match fuel with
  | O => fun _ => None
  | S fuel =>
      if p =? NULL then mret NULL
      else
        b ← getp p;
        lassert (negb (pb_len b =? pb_tot_len b) || (pb_next b =? NULL)) ;;
        if negb (bool_decide (pb_type b = PBUF_ROM)) then mret p
        else copy_scan fuel (pb_next b)
  end.

(** The packet for the queue: a copy or a further reference. *)
Definition query_take (q : Z) : NM Z :=
  n ← chain_bound;
  p ← copy_scan n q;
  if negb (p =? NULL) then
    b ← getp p;
    p ← pbuf_alloc PBUF_RAW (pb_tot_len b) PBUF_RAM;
    if negb (p =? NULL) then
      err ← pbuf_copy p q;
      if negb (err =? ERR_OK) then pbuf_free p ;; mret NULL else mret p
    else mret NULL
  else pbuf_ref q ;; mret q.

(** [while (r->next != NULL) r = r->next] *)
Fixpoint queue_last (fuel : nat) (r : Z) : NetM Z :=
  match fuel with
  | O => fun _ => None
  | S fuel =>
      e ← getq r;
      if qe_next e =? NULL then mret r else queue_last fuel (qe_next e)
  end.

(** Packet [p] at the end of the queue of entry [i]. *)
Definition query_enqueue (i p : Z) : NetM Z :=
  new_entry ← on_mem memp_malloc;
  if negb (new_entry =? NULL) then
    putq new_entry (EtharpQ NULL p) ;;
    e ← get_entry i;
    if negb (ae_q e =? NULL) then
      n ← queue_bound;
      r ← queue_last n (ae_q e);
      re ← getq r;
      putq r (EtharpQ new_entry (qe_p re)) ;;
      mret ERR_OK
    else
      upd_entry i (set_ae_q new_entry) ;;
      mret ERR_OK
  else
    on_mem (pbuf_free p) ;;
    mret ERR_MEM.

(** What [etharp_query] does with the packet [q] once the entry is known. *)
Definition query_packet (netif i q result : Z) : NetM Z :=
  nassert (negb (q =? NULL)) ;;
  e ← get_entry i;
  if ge_stable (ae_state e) then
    ETHARP_SET_HINT i ;;
    n ← getif netif;
    etharp_send_ip netif q (ni_hwaddr n) (ae_ethaddr e)
  else if is_state e ETHARP_STATE_PENDING then
    p ← on_mem (query_take q);
    if negb (p =? NULL) then query_enqueue i p else mret ERR_MEM
  else mret result.

Definition etharp_query (netif ipaddr q : Z) : NetM Z :=
  n ← getif netif;
  if truthy (ip4_addr_isbroadcast ipaddr n) || ip_addr_ismulticast ipaddr || ip_addr_isany ipaddr
  then mret ERR_ARG
  else
    i ← etharp_find_entry (Some ipaddr) ETHARP_FLAG_TRY_HARD;
    if i <? 0 then mret i
    else
      e ← get_entry i;
      swhen (is_state e ETHARP_STATE_EMPTY) (upd_entry i (set_ae_state ETHARP_STATE_PENDING)) ;;
      e ← get_entry i;
      nassert (is_state e ETHARP_STATE_PENDING || ge_stable (ae_state e)) ;;
      if is_state e ETHARP_STATE_PENDING || (q =? NULL) then
        result ← etharp_request netif ipaddr;
        if q =? NULL then mret result else query_packet netif i q result
      else query_packet netif i q ERR_MEM.

(** ** Output *)

Definition output_stable (dst_addr i : Z) : NetM bool :=
  e ← get_entry i;
  mret (ge_stable (ae_state e) && (dst_addr =? ae_ipaddr e)).

(** The loop over the stable entries. *)
Fixpoint output_scan (l : list Z) (netif q dst_addr : Z) : NetM Z :=
  match l with
  | [] => etharp_query netif dst_addr q
  | i :: l =>
      hit ← output_stable dst_addr i;
      if (hit : bool) then
        ETHARP_SET_HINT i ;;
        etharp_output_to_arp_index netif q i
      else output_scan l netif q dst_addr
  end.

Definition output_unicast (netif q dst_addr : Z) : NetM Z :=
  c ← sget (fun s => etharp_cached_entry (n_arp s));
  hit ← output_stable dst_addr c;
  if (hit : bool) then etharp_output_to_arp_index netif q c
  else output_scan table_indices netif q dst_addr.

Definition ip4_addr_byte (k : nat) (ipaddr : Z) : Z := nth k (le_bytes 4 ipaddr) 0.

Definition etharp_output (netif q ipaddr : Z) : NetM Z :=
  n ← getif netif;
  nassert (negb (q =? NULL)) ;;
  r ← on_mem (pbuf_header q SIZEOF_ETH_HDR);
  if negb (r =? 0) then mret ERR_BUF
  else if truthy (ip4_addr_isbroadcast ipaddr n) then
    etharp_send_ip netif q (ni_hwaddr n) ethbroadcast
  else if ip_addr_ismulticast ipaddr then
    etharp_send_ip netif q (ni_hwaddr n)
      [LL_MULTICAST_ADDR_0; LL_MULTICAST_ADDR_1; LL_MULTICAST_ADDR_2;
       ip4_addr_byte 1 ipaddr &. 127; ip4_addr_byte 2 ipaddr; ip4_addr_byte 3 ipaddr]
  else if negb (ip_addr_netcmp ipaddr (ni_ip_addr n) (ni_netmask n)) &&
          negb (ip_addr_islinklocal ipaddr) then
    if negb (ip_addr_isany (ni_gw n)) then output_unicast netif q (ni_gw n)
    else mret ERR_RTE
  else output_unicast netif q ipaddr.

(** ** Input *)

(** The answer to a request, in the buffer of the request; [ethaddr] are the
    bytes of the address of the interface. *)
Definition arp_reply (netif : Z) (ethaddr : list Z) (ethhdr hdr p : Z) : NetM unit :=
  on_mem (store_le (hdr + 6) 2 (lwip_htons ARP_REPLY)) ;;
  s ← on_mem (load (hdr + 14) 4);
  on_mem (store (hdr + 24) s) ;;
  n ← getif netif;
  on_mem (store_le (hdr + 14) 4 (ni_ip_addr n)) ;;
  nassert (ni_hwaddr_len n =? ETHARP_HWADDR_LEN) ;;
  h ← on_mem (load (hdr + 8) 6);
  on_mem (store (hdr + 18) h) ;;
  h ← on_mem (load (hdr + 8) 6);
  on_mem (store ethhdr h) ;;
  on_mem (store (hdr + 8) ethaddr) ;;
  on_mem (store (ethhdr + 6) ethaddr) ;;
  linkoutput netif p ;;
  mret tt.

Definition etharp_arp_input (netif : Z) (ethaddr : list Z) (p : Z) : NetM unit :=
  n ← getif netif;
  b ← on_mem (getp p);
  if pb_len b <? SIZEOF_ETHARP_PACKET then on_mem (pbuf_free p) ;; mret tt
  else
    let ethhdr := pb_payload b in
    let hdr := ethhdr + SIZEOF_ETH_HDR in
    hwtype ← on_mem (load_le hdr 2);
    hwlen ← on_mem (load_le (hdr + 4) 1);
    protolen ← on_mem (load_le (hdr + 5) 1);
    proto ← on_mem (load_le (hdr + 2) 2);
    if negb (hwtype =? lwip_htons HWTYPE_ETHERNET) || negb (hwlen =? ETHARP_HWADDR_LEN) ||
       negb (protolen =? 4) || negb (proto =? lwip_htons ETHTYPE_IP)
    then on_mem (pbuf_free p) ;; mret tt
    else
      sipaddr ← on_mem (load_le (hdr + 14) 4);
      dipaddr ← on_mem (load_le (hdr + 24) 4);
      let for_us := if ip_addr_isany (ni_ip_addr n) then false else dipaddr =? ni_ip_addr n in
      etharp_update_arp_entry netif sipaddr (hdr + 8)
        (if for_us then ETHARP_FLAG_TRY_HARD else ETHARP_FLAG_FIND_ONLY) ;;
      opcode ← on_mem (load_le (hdr + 6) 2);
      swhen (opcode =? lwip_htons ARP_REQUEST) (
        swhen for_us (arp_reply netif ethaddr ethhdr hdr p)) ;;
      on_mem (pbuf_free p) ;;
      mret tt.
