(* ===== verification/IpOut.v ===== *)
(** * Sending IP packets: core/ipv4/ip.c

    Routing and the construction of the header, with the checksum summed up
    while the header is written (CHECKSUM_GEN_IP_INLINE); no options, no
    fragmentation and no loopback, as configured.  [netif->output] is
    [etharp_output] (netif/ethernetif.c). *)

From S2P Require Import Prelude StateM LwipMem Chksum IpAddr Pbuf NetState Etharp.

Definition IP_HLEN : Z := 20.
Definition IP_PROTO_ICMP : Z := 1.
Definition IP_PROTO_TCP : Z := 6.
Definition IP_PROTO_UDP : Z := 17.

Definition netif_is_up (n : netif) : bool := truthy (ni_flags n &. NETIF_FLAG_UP).

Definition if_bound : NetM nat := sget (fun s => S (size (n_ifs s))).

(** The loop of [ip_route] over the interfaces. *)
Fixpoint route_loop (fuel : nat) (netif dest : Z) : NetM Z :=
  match fuel with
  | O => fun _ => None
  | S fuel =>
      if netif =? NULL then
        d ← sget netif_default;
        if d =? NULL then mret NULL
        else
          n ← getif d;
          if negb (netif_is_up n) then mret NULL else mret d
      else
        n ← getif netif;
        if netif_is_up n && ip_addr_netcmp dest (ni_ip_addr n) (ni_netmask n) then mret netif
        else route_loop fuel (ni_next n) dest
  end.

Definition ip_route (dest : Z) : NetM Z :=
  l ← sget netif_list;
  n ← if_bound;
  route_loop n l dest.

(** On a little-endian processor. *)
Definition LWIP_MAKE_U16 (a b : Z) : Z := Z.shiftl a 8 |. b.

(** [chk_sum] after the additions, folded and inverted. *)
Definition chksum_inline (proto ttl dest tos v_hl len id src : Z) : Z :=
  let chk_sum := u32 (0 + LWIP_MAKE_U16 proto ttl) in
  let chk_sum := u32 (chk_sum + (dest &. 65535)) in
  let chk_sum := u32 (chk_sum + Z.shiftr dest 16) in
  let chk_sum := u32 (chk_sum + LWIP_MAKE_U16 tos v_hl) in
  let chk_sum := u32 (chk_sum + len) in
  let chk_sum := u32 (chk_sum + id) in
  let chk_sum := u32 (chk_sum + (src &. 65535)) in
  let chk_sum := u32 (chk_sum + Z.shiftr src 16) in
  let chk_sum := u32 (Z.shiftr chk_sum 16 + (chk_sum &. 65535)) in
  let chk_sum := u32 (Z.shiftr chk_sum 16 + chk_sum) in
  let chk_sum := u32 (Z.lnot chk_sum) in
  u16 chk_sum.

(** The header of [ip_output_if], written in front of the payload of [p]: 0 or
    an error. *)
Definition ip_build (p : Z) (src : option Z) (dest ttl tos proto netif : Z) : NetM Z :=
  r ← on_mem (pbuf_header p IP_HLEN);
  if negb (r =? 0) then mret ERR_BUF
  else
    b ← on_mem (getp p);
    let iphdr := pb_payload b in
    nassert (IP_HLEN <=? pb_len b) ;;
    on_mem (store_le (iphdr + 8) 1 ttl) ;;
    on_mem (store_le (iphdr + 9) 1 proto) ;;
    on_mem (store_le (iphdr + 16) 4 dest) ;;
    let v_hl := Z.shiftl 4 4 |. Z.quot IP_HLEN 4 in
    on_mem (store_le iphdr 1 v_hl) ;;
    on_mem (store_le (iphdr + 1) 1 tos) ;;
    let len := lwip_htons (pb_tot_len b) in
    on_mem (store_le (iphdr + 2) 2 len) ;;
    on_mem (store_le (iphdr + 6) 2 0) ;;
    g ← sget n_ip;
    let id := lwip_htons (ip_id g) in
    on_mem (store_le (iphdr + 4) 2 id) ;;
    supd (set_ip (IpGlobals (u16 (ip_id g + 1)) (current_netif g) (current_header g)
                    (current_iphdr_src g) (current_iphdr_dest g))) ;;
    n ← getif netif;
    let s := match src with
             | Some a => if ip_addr_isany a then ni_ip_addr n else a
             | None => ni_ip_addr n
             end in
    on_mem (store_le (iphdr + 12) 4 s) ;;
    on_mem (store_le (iphdr + 10) 2 (chksum_inline proto ttl dest tos v_hl len id s)) ;;
    mret 0.

(** [dest] is [None] for [IP_HDRINCL]: the packet has its header already. *)
Definition ip_output_if (p : Z) (src dest : option Z) (ttl tos proto netif : Z) : NetM Z :=
  b ← on_mem (getp p);
  nassert (pb_ref b =? 1) ;;
  match dest with
  | Some d =>
      r ← ip_build p src d ttl tos proto netif;
      if negb (r =? 0) then mret r else etharp_output netif p d
  | None =>
      d ← on_mem (load_le (pb_payload b + 16) 4);
      etharp_output netif p d
  end.

Definition ip_output (p : Z) (src : option Z) (dest ttl tos proto : Z) : NetM Z :=
  b ← on_mem (getp p);
  nassert (pb_ref b =? 1) ;;
  netif ← ip_route dest;
  if netif =? NULL then mret ERR_RTE
  else ip_output_if p src (Some dest) ttl tos proto netif.
