(* ===== verification/Icmp.v ===== *)
(** * ICMP: core/ipv4/icmp.c

    Answering echo requests and reporting unreachable destinations.  Requests
    to broadcast and multicast addresses are not answered (LWIP_BROADCAST_PING
    and LWIP_MULTICAST_PING are off). *)

From S2P Require Import Prelude StateM LwipMem Chksum IpAddr Pbuf NetState Etharp IpOut.

Definition ICMP_ER : Z := 0.
Definition ICMP_DUR : Z := 3.
Definition ICMP_ECHO : Z := 8.
Definition ICMP_DUR_PROTO : Z := 2.
Definition ICMP_DUR_PORT : Z := 3.
Definition ICMP_TTL : Z := 255.
Definition SIZEOF_ICMP_ECHO_HDR : Z := 8.
Definition ICMP_DEST_UNREACH_DATASIZE : Z := 8.

Definition load_chksum {A} (f : netmem -> option A) : NM A := fun st => (fun c => (c, st)) <$> f st.

(** [IPH_HL (iphdr) * 4] *)
Definition ip_hlen (iphdr : Z) : NM Z := v_hl ← load_le iphdr 1; mret (4 * (v_hl &. 15)).

Definition icmp_send_response (p type code : Z) : NetM unit :=
  let n := SIZEOF_ICMP_ECHO_HDR + IP_HLEN + ICMP_DEST_UNREACH_DATASIZE in
  q ← on_mem (pbuf_alloc PBUF_IP n PBUF_RAM);
  if q =? NULL then mret tt
  else
    qb ← on_mem (getp q);
    nassert (n <=? pb_len qb) ;;
    b ← on_mem (getp p);
    let iphdr := pb_payload b in
    let icmphdr := pb_payload qb in
    on_mem (store_le icmphdr 1 type) ;;
    on_mem (store_le (icmphdr + 1) 1 code) ;;
    on_mem (store_le (icmphdr + 4) 2 0) ;;
    on_mem (store_le (icmphdr + 6) 2 0) ;;
    on_mem (MEMCPY (icmphdr + SIZEOF_ICMP_ECHO_HDR) (pb_payload b)
              (IP_HLEN + ICMP_DEST_UNREACH_DATASIZE)) ;;
    on_mem (store_le (icmphdr + 2) 2 0) ;;
    c ← on_mem (load_chksum (fun st => inet_chksum (ram st) icmphdr (pb_len qb)));
    on_mem (store_le (icmphdr + 2) 2 c) ;;
    src ← on_mem (load_le (iphdr + 12) 4);
    ip_output q None src ICMP_TTL 0 IP_PROTO_ICMP ;;
    on_mem (pbuf_free q) ;;
    mret tt.

Definition icmp_dest_unreach (p t : Z) : NetM unit := icmp_send_response p ICMP_DUR t.

(** Room for the headers of the answer: the same buffer, or a copy of the
    packet.  The buffer and the address of its IP header, or [None] when there
    is no memory for a copy. *)
Definition echo_room (p iphdr hlen : Z) : NM (option (Z * Z)) :=
  r ← pbuf_header p (PBUF_IP_HLEN + PBUF_LINK_HLEN);
  if negb (r =? 0) then
    r ← pbuf_header p hlen;
    lassert (r =? 0) ;;
    b ← getp p;
    r ← pbuf_alloc PBUF_LINK (pb_tot_len b) PBUF_RAM;
    if r =? NULL then mret None
    else
      rb ← getp r;
      lassert (hlen + SIZEOF_ICMP_ECHO_HDR <=? pb_len rb) ;;
      err ← pbuf_copy r p;
      lassert (err =? ERR_OK) ;;
      e ← pbuf_header r (- hlen);
      lassert (e =? 0) ;;
      pbuf_free p ;;
      mret (Some (r, pb_payload rb))
  else
    r ← pbuf_header p (- (PBUF_IP_HLEN + PBUF_LINK_HLEN));
    lassert (r =? 0) ;;
    mret (Some (p, iphdr)).

(** The request in [p] becomes the answer, and is sent. *)
Definition echo_answer (p iphdr hlen inp : Z) : NetM unit :=
  b ← on_mem (getp p);
  let iecho := pb_payload b in
  g ← sget n_ip;
  on_mem (store_le (iphdr + 12) 4 (current_iphdr_dest g)) ;;
  on_mem (store_le (iphdr + 16) 4 (current_iphdr_src g)) ;;
  on_mem (store_le iecho 1 ICMP_ER) ;;
  chksum ← on_mem (load_le (iecho + 2) 2);
  on_mem (store_le (iecho + 2) 2
    (if lwip_htons (65535 - Z.shiftl ICMP_ECHO 8) <=? chksum
     then u16 (chksum + (lwip_htons (Z.shiftl ICMP_ECHO 8) + 1))
     else u16 (chksum + lwip_htons (Z.shiftl ICMP_ECHO 8)))) ;;
  on_mem (store_le (iphdr + 8) 1 ICMP_TTL) ;;
  on_mem (store_le (iphdr + 10) 2 0) ;;
  c ← on_mem (load_chksum (fun st => inet_chksum (ram st) iphdr IP_HLEN));
  on_mem (store_le (iphdr + 10) 2 c) ;;
  r ← on_mem (pbuf_header p hlen);
  nassert (r =? 0) ;;
  ip_output_if p (Some (current_iphdr_dest g)) None ICMP_TTL 0 IP_PROTO_ICMP inp ;;
  mret tt.

Definition icmp_input (p inp : Z) : NetM unit :=
  b ← on_mem (getp p);
  let iphdr := pb_payload b in
  hlen ← on_mem (ip_hlen iphdr);
  r ← on_mem (pbuf_header p (- hlen));
  b ← on_mem (getp p);
  if negb (r =? 0) || (pb_tot_len b <? 4) then on_mem (pbuf_free p) ;; mret tt
  else
    type ← on_mem (load_le (pb_payload b) 1);
    if type =? ICMP_ECHO then
      g ← sget n_ip;
      n ← getif inp;
      if ip_addr_ismulticast (current_iphdr_dest g) || truthy (ip4_addr_isbroadcast (current_iphdr_dest g) n)
      then on_mem (pbuf_free p) ;; mret tt
      else if pb_tot_len b <? SIZEOF_ICMP_ECHO_HDR then on_mem (pbuf_free p) ;; mret tt
      else
        c ← on_mem (load_chksum (fun st => inet_chksum_pbuf st p));
        if negb (c =? 0) then on_mem (pbuf_free p) ;; mret tt
        else
          room ← on_mem (echo_room p iphdr hlen);
          match room with
          | None => on_mem (pbuf_free p) ;; mret tt
          | Some (p, iphdr) =>
              echo_answer p iphdr hlen inp ;;
              on_mem (pbuf_free p) ;; mret tt
          end
    else on_mem (pbuf_free p) ;; mret tt.
