(* ===== verification/Udp.v ===== *)
(** * UDP: core/udp.c

    Control blocks in a linked list, demultiplexing with the move to the front
    of the list, sending, binding with the option SO_REUSE of rtconfig.h.  The
    broadcast options, SO_REUSE_RXTOALL, UDP-Lite, DHCP and IGMP are not
    configured. *)

From S2P Require Import Prelude StateM LwipMem Chksum IpAddr Pbuf NetState Etharp IpOut Icmp.

Definition UDP_HLEN : Z := 8.
Definition UDP_TTL : Z := 255.
Definition UDP_FLAGS_NOCHKSUM : Z := 1.
Definition UDP_FLAGS_CONNECTED : Z := 4.
Definition UDP_LOCAL_PORT_RANGE_START : Z := 49152.
Definition UDP_LOCAL_PORT_RANGE_END : Z := 65535.

(** ** Accesses *)

Definition getu (p : Z) : NetM udp_pcb := fun s => (fun u => (u, s)) <$> udp_pcb_map (n_udp s) !! p.

Definition set_udp_map m s :=
  set_udp (UdpGlobals m (udp_pcbs (n_udp s)) (udp_port (n_udp s)) (udp_rx (n_udp s))) s.

Definition putu (p : Z) (u : udp_pcb) : NetM unit :=
  supd (fun s => set_udp_map (<[p := u]> (udp_pcb_map (n_udp s))) s).

Definition set_udp_pcbs (p : Z) : NetM unit :=
  supd (fun s => set_udp (UdpGlobals (udp_pcb_map (n_udp s)) p (udp_port (n_udp s)) (udp_rx (n_udp s))) s).

Definition set_udp_port (n : Z) : NetM unit :=
  supd (fun s => set_udp (UdpGlobals (udp_pcb_map (n_udp s)) (udp_pcbs (n_udp s)) n (udp_rx (n_udp s))) s).

(** [pcb->recv (pcb->recv_arg, pcb, p, addr, port)] *)
Definition udp_recv_call (pcb p addr port : Z) : NetM unit :=
  supd (fun s => set_udp (UdpGlobals (udp_pcb_map (n_udp s)) (udp_pcbs (n_udp s)) (udp_port (n_udp s))
                            (udp_rx (n_udp s) ++ [(pcb, p, addr, port)])) s).

Definition pcb_bound : NetM nat := sget (fun s => S (size (udp_pcb_map (n_udp s)))).

(** ** Ports *)

(** [for (pcb = udp_pcbs; ...) if (pcb->local_port == udp_port)] *)
Fixpoint port_used (fuel : nat) (pcb port : Z) : NetM bool :=
  match fuel with
  | O => fun _ => None
  | S fuel =>
      if pcb =? NULL then mret false
      else
        u ← getu pcb;
        if up_local_port u =? port then mret true else port_used fuel (up_next u) port
  end.

(** From the label [again]. *)
Fixpoint new_port_loop (fuel : nat) (n : Z) : NetM Z :=
  match fuel with
  | O => fun _ => None
  | S fuel =>
      port ← sget (fun s => udp_port (n_udp s));
      let port := if port =? UDP_LOCAL_PORT_RANGE_END then UDP_LOCAL_PORT_RANGE_START
                  else u16 (port + 1) in
      set_udp_port port ;;
      first ← sget (fun s => udp_pcbs (n_udp s));
      b ← pcb_bound;
      used ← port_used b first port;
      if (used : bool) then
        let n := u16 (n + 1) in
        if UDP_LOCAL_PORT_RANGE_END - UDP_LOCAL_PORT_RANGE_START <? n then mret 0
        else new_port_loop fuel n
      else mret port
  end.

Definition udp_new_port : NetM Z := new_port_loop (Z.to_nat 16385) 0.

(** ** Control blocks *)

(** [ip_get_option], [ip_set_option] and [ip_reset_option] of a UDP control block. *)
Definition ip_get_option (u : udp_pcb) (opt : Z) : bool := truthy (up_so_options u &. opt).

Definition ip_set_option (pcb opt : Z) : NetM unit :=
  u ← getu pcb; putu pcb (set_up_options (u8 (up_so_options u |. opt)) u).

Definition ip_reset_option (pcb opt : Z) : NetM unit :=
  u ← getu pcb; putu pcb (set_up_options (u8 (up_so_options u &~ opt)) u).

(** The loop of [udp_bind]: [None] for an address in use, otherwise whether the
    control block is in the list. *)
Fixpoint bind_loop (fuel : nat) (ipcb pcb ipaddr port : Z) (rebind : bool) : NetM (option bool) :=
  match fuel with
  | O => fun _ => None
  | S fuel =>
      if ipcb =? NULL then mret (Some rebind)
      else
        u ← getu ipcb;
        if pcb =? ipcb then
          nassert (negb rebind) ;;
          bind_loop fuel (up_next u) pcb ipaddr port true
        else
          w ← getu pcb;
          if negb (ip_get_option w SOF_REUSEADDR) && negb (ip_get_option u SOF_REUSEADDR) &&
             ((up_local_port u =? port) &&
              (ip_addr_isany (up_local_ip u) || ip_addr_isany ipaddr || (up_local_ip u =? ipaddr)))
          then mret None
          else bind_loop fuel (up_next u) pcb ipaddr port rebind
  end.

(** [pcb->next = udp_pcbs; udp_pcbs = pcb] *)
Definition udp_push (pcb : Z) : NetM unit :=
  first ← sget (fun s => udp_pcbs (n_udp s));
  u ← getu pcb;
  putu pcb (set_up_next first u) ;;
  set_udp_pcbs pcb.

Definition udp_bind (pcb ipaddr port : Z) : NetM Z :=
  first ← sget (fun s => udp_pcbs (n_udp s));
  b ← pcb_bound;
  r ← bind_loop b first pcb ipaddr port false;
  match r with
  | None => mret ERR_USE
  | Some rebind =>
      u ← getu pcb;
      putu pcb (set_up_local ipaddr (up_local_port u) u) ;;
      port ← (if port =? 0 then udp_new_port else mret port);
      if port =? 0 then mret ERR_USE
      else
        u ← getu pcb;
        putu pcb (set_up_local (up_local_ip u) port u) ;;
        swhen (negb rebind) (udp_push pcb) ;;
        mret ERR_OK
  end.

Fixpoint connected_loop (fuel : nat) (ipcb pcb : Z) : NetM bool :=
  match fuel with
  | O => fun _ => None
  | S fuel =>
      if ipcb =? NULL then mret false
      else if pcb =? ipcb then mret true
      else u ← getu ipcb; connected_loop fuel (up_next u) pcb
  end.

Definition udp_connect (pcb ipaddr port : Z) : NetM Z :=
  u ← getu pcb;
  err ← (if up_local_port u =? 0 then udp_bind pcb (up_local_ip u) (up_local_port u) else mret ERR_OK);
  if negb (err =? ERR_OK) then mret err
  else
    u ← getu pcb;
    putu pcb (set_up_remote ipaddr port (up_flags u |. UDP_FLAGS_CONNECTED) u) ;;
    first ← sget (fun s => udp_pcbs (n_udp s));
    b ← pcb_bound;
    active ← connected_loop b first pcb;
    swhen (negb active) (udp_push pcb) ;;
    mret ERR_OK.

Definition udp_disconnect (pcb : Z) : NetM unit :=
  u ← getu pcb;
  putu pcb (set_up_remote IPADDR_ANY 0 (up_flags u &~ UDP_FLAGS_CONNECTED) u).

Definition udp_recv (pcb recv : Z) : NetM unit :=
  u ← getu pcb; putu pcb (set_up_recv recv u).

(** The loop of [udp_remove] that unlinks [pcb], whose [next] is [next]. *)
Fixpoint remove_loop (fuel : nat) (pcb2 pcb next : Z) : NetM unit :=
  match fuel with
  | O => fun _ => None
  | S fuel =>
      if pcb2 =? NULL then mret tt
      else
        u ← getu pcb2;
        if negb (up_next u =? NULL) && (up_next u =? pcb) then
          putu pcb2 (set_up_next next u) ;;
          remove_loop fuel next pcb next
        else remove_loop fuel (up_next u) pcb next
  end.

Definition udp_remove (pcb : Z) : NetM unit :=
  first ← sget (fun s => udp_pcbs (n_udp s));
  u ← getu pcb;
  (if first =? pcb then set_udp_pcbs (up_next u)
   else b ← pcb_bound; remove_loop b first pcb (up_next u)) ;;
  supd (fun s => set_udp_map (delete pcb (udp_pcb_map (n_udp s))) s).

Definition udp_new : NetM Z :=
  pcb ← on_mem memp_malloc;
  swhen (negb (pcb =? NULL)) (putu pcb (UdpPcb NULL 0 0 0 0 UDP_TTL 0 0 0 NULL)) ;;
  mret pcb.

(** ** Input *)

(** [local_match] of the loop of [udp_input]. *)
Definition udp_local_match (u : udp_pcb) (dest daddr : Z) (broadcast : bool) (n : netif) : bool :=
  (up_local_port u =? dest) &&
  ((negb broadcast && ip_addr_isany (up_local_ip u)) ||
   (up_local_ip u =? daddr) ||
   (broadcast && (ip_addr_isany (up_local_ip u) || ip_addr_netcmp (up_local_ip u) daddr (ni_netmask n)))).

(** The search of [udp_input]; a match behind the first block is moved to the
    front of the list.  The control block that is found, or the first
    unconnected one with the local address, or null. *)
Fixpoint udp_match (fuel : nat) (pcb prev uncon_pcb dest src daddr saddr : Z) (broadcast : bool) (n : netif) :
    NetM Z :=
  match fuel with
  | O => fun _ => None
  | S fuel =>
      if pcb =? NULL then mret uncon_pcb
      else
        u ← getu pcb;
        let local_match := udp_local_match u dest daddr broadcast n in
        let uncon_pcb := if local_match && (uncon_pcb =? NULL) &&
                            negb (truthy (up_flags u &. UDP_FLAGS_CONNECTED))
                         then pcb else uncon_pcb in
        if local_match && (up_remote_port u =? src) &&
           (ip_addr_isany (up_remote_ip u) || (up_remote_ip u =? saddr))
        then
          swhen (negb (prev =? NULL)) (
            up ← getu prev;
            putu prev (set_up_next (up_next u) up) ;;
            udp_push pcb) ;;
          mret pcb
        else udp_match fuel (up_next u) pcb uncon_pcb dest src daddr saddr broadcast n
  end.

(** The packet behind its UDP header goes to [pcb], or is refused. *)
Definition udp_deliver (p inp pcb iphdr hlen src : Z) (broadcast : bool) : NetM unit :=
  g ← sget n_ip;
  if negb (pcb =? NULL) then
    u ← getu pcb;
    if negb (up_recv u =? NULL) then udp_recv_call pcb p (current_iphdr_src g) src
    else on_mem (pbuf_free p) ;; mret tt
  else
    swhen (negb broadcast && negb (ip_addr_ismulticast (current_iphdr_dest g))) (
      on_mem (pbuf_header p (hlen + UDP_HLEN)) ;;
      b ← on_mem (getp p);
      nassert (pb_payload b =? iphdr) ;;
      icmp_dest_unreach p ICMP_DUR_PORT) ;;
    on_mem (pbuf_free p) ;; mret tt.

Definition udp_input (p inp : Z) : NetM unit :=
  b ← on_mem (getp p);
  let iphdr := pb_payload b in
  hlen ← on_mem (ip_hlen iphdr);
  r ← (if pb_tot_len b <? hlen + UDP_HLEN then mret 1 else on_mem (pbuf_header p (- hlen)));
  if negb (r =? 0) then on_mem (pbuf_free p) ;; mret tt
  else
    b ← on_mem (getp p);
    let udphdr := pb_payload b in
    g ← sget n_ip;
    n ← getif inp;
    let broadcast := truthy (ip4_addr_isbroadcast (current_iphdr_dest g) n) in
    s ← on_mem (load_le udphdr 2);
    d ← on_mem (load_le (udphdr + 2) 2);
    let src := lwip_ntohs s in
    let dest := lwip_ntohs d in
    first ← sget (fun s => udp_pcbs (n_udp s));
    bound ← pcb_bound;
    pcb ← udp_match bound first NULL NULL dest src (current_iphdr_dest g) (current_iphdr_src g) broadcast n;
    if negb (pcb =? NULL) || (ni_ip_addr n =? current_iphdr_dest g) then
      chksum ← on_mem (load_le (udphdr + 6) 2);
      c ← (if negb (chksum =? 0)
           then on_mem (load_chksum (fun st => inet_chksum_pseudo st p (current_iphdr_src g)
                          (current_iphdr_dest g) IP_PROTO_UDP (pb_tot_len b)))
           else mret 0);
      if negb (c =? 0) then on_mem (pbuf_free p) ;; mret tt
      else
        r ← on_mem (pbuf_header p (- UDP_HLEN));
        nassert (r =? 0) ;;
        udp_deliver p inp pcb iphdr hlen src broadcast
    else on_mem (pbuf_free p) ;; mret tt.

(** ** Output *)

(** The header of the datagram in [q], and its checksum. *)
Definition udp_fill (q : Z) (u : udp_pcb) (dst_ip dst_port src_ip : Z) : NetM unit :=
  b ← on_mem (getp q);
  let udphdr := pb_payload b in
  on_mem (store_le (udphdr + 4) 2 (lwip_htons (pb_tot_len b))) ;;
  swhen (negb (truthy (up_flags u &. UDP_FLAGS_NOCHKSUM))) (
    c ← on_mem (load_chksum (fun st => inet_chksum_pseudo st q src_ip dst_ip IP_PROTO_UDP (pb_tot_len b)));
    on_mem (store_le (udphdr + 6) 2 (if c =? 0 then 65535 else c))).

(** The buffer that is sent: [p] with the header in front, or a new one that is
    chained to it; [None] without memory. *)
Definition udp_room (p : Z) : NM Z :=
  r ← pbuf_header p UDP_HLEN;
  if negb (r =? 0) then
    q ← pbuf_alloc PBUF_IP UDP_HLEN PBUF_RAM;
    if q =? NULL then mret NULL
    else
      b ← getp p;
      swhen (negb (pb_tot_len b =? 0)) (pbuf_chain q p) ;;
      mret q
  else mret p.

Definition udp_sendto_if (pcb p dst_ip dst_port netif : Z) : NetM Z :=
  u ← getu pcb;
  err ← (if up_local_port u =? 0 then udp_bind pcb (up_local_ip u) (up_local_port u) else mret ERR_OK);
  if negb (err =? ERR_OK) then mret err
  else
    q ← on_mem (udp_room p);
    if q =? NULL then mret ERR_MEM
    else
      qb ← on_mem (getp q);
      nassert (UDP_HLEN <=? pb_len qb) ;;
      u ← getu pcb;
      let udphdr := pb_payload qb in
      on_mem (store_le udphdr 2 (lwip_htons (up_local_port u))) ;;
      on_mem (store_le (udphdr + 2) 2 (lwip_htons dst_port)) ;;
      on_mem (store_le (udphdr + 6) 2 0) ;;
      n ← getif netif;
      if negb (ip_addr_isany (up_local_ip u)) && negb (up_local_ip u =? ni_ip_addr n) then
        swhen (negb (q =? p)) (on_mem (pbuf_free q) ;; mret tt) ;;
        mret ERR_VAL
      else
        let src_ip := if ip_addr_isany (up_local_ip u) then ni_ip_addr n else up_local_ip u in
        udp_fill q u dst_ip dst_port src_ip ;;
        err ← ip_output_if q (Some src_ip) (Some dst_ip) (up_ttl u) (up_tos u) IP_PROTO_UDP netif;
        swhen (negb (q =? p)) (on_mem (pbuf_free q) ;; mret tt) ;;
        mret err.

Definition udp_sendto (pcb p dst_ip dst_port : Z) : NetM Z :=
  netif ← ip_route dst_ip;
  if netif =? NULL then mret ERR_RTE
  else udp_sendto_if pcb p dst_ip dst_port netif.

Definition udp_send (pcb p : Z) : NetM Z :=
  u ← getu pcb;
  udp_sendto pcb p (up_remote_ip u) (up_remote_port u).
