(* ===== verification/Raw.v ===== *)
(** * Raw control blocks: core/raw.c

    Applications that want whole IP packets of a protocol register a control
    block; its receive function says whether it took the packet. *)

From S2P Require Import Prelude StateM LwipMem Chksum IpAddr Pbuf NetState Etharp IpOut.

Definition RAW_TTL : Z := 255.

Definition getr (p : Z) : NetM raw_pcb := fun s => (fun u => (u, s)) <$> raw_pcb_map (n_raw s) !! p.

Definition set_raw_map m s :=
  set_raw (RawGlobals m (raw_pcbs (n_raw s)) (raw_answers (n_raw s)) (raw_rx (n_raw s))) s.

Definition putr (p : Z) (u : raw_pcb) : NetM unit :=
  supd (fun s => set_raw_map (<[p := u]> (raw_pcb_map (n_raw s))) s).

Definition set_raw_pcbs (p : Z) : NetM unit :=
  supd (fun s => set_raw (RawGlobals (raw_pcb_map (n_raw s)) p (raw_answers (n_raw s)) (raw_rx (n_raw s))) s).

(** [pcb->recv (pcb->recv_arg, pcb, p, addr)]; 0 when the list of answers is
    over. *)
Definition raw_recv_call (pcb p addr : Z) : NetM Z := fun s =>
  let g := n_raw s in
  let rx := raw_rx g ++ [(pcb, p, addr)] in
  match raw_answers g with
  | a :: r => Some (a, set_raw (RawGlobals (raw_pcb_map g) (raw_pcbs g) r rx) s)
  | [] => Some (0, set_raw (RawGlobals (raw_pcb_map g) (raw_pcbs g) [] rx) s)
  end.

Definition raw_bound : NetM nat := sget (fun s => S (size (raw_pcb_map (n_raw s)))).

(** [pcb->next = raw_pcbs; raw_pcbs = pcb] *)
Definition raw_push (pcb : Z) : NetM unit :=
  first ← sget (fun s => raw_pcbs (n_raw s));
  u ← getr pcb;
  putr pcb (set_rp_next first u) ;;
  set_raw_pcbs pcb.

Fixpoint raw_input_loop (fuel : nat) (pcb prev p proto : Z) : NetM Z :=
  match fuel with
  | O => fun _ => None
  | S fuel =>
      if pcb =? NULL then mret 0
      else
        u ← getr pcb;
        g ← sget n_ip;
        eaten ← (if (rp_protocol u =? proto) &&
                    (ip_addr_isany (rp_local_ip u) || (rp_local_ip u =? current_iphdr_dest g)) &&
                    negb (rp_recv u =? NULL)
                 then raw_recv_call pcb p (current_iphdr_src g) else mret 0);
        if negb (eaten =? 0) then
          swhen (negb (prev =? NULL)) (
            up ← getr prev;
            u ← getr pcb;
            putr prev (set_rp_next (rp_next u) up) ;;
            raw_push pcb) ;;
          mret 1
        else raw_input_loop fuel (rp_next u) pcb p proto
  end.

Definition raw_input (p inp : Z) : NetM Z :=
  b ← on_mem (getp p);
  proto ← on_mem (load_le (pb_payload b + 9) 1);
  first ← sget (fun s => raw_pcbs (n_raw s));
  n ← raw_bound;
  raw_input_loop n first NULL p proto.

Definition raw_bind (pcb ipaddr : Z) : NetM Z :=
  u ← getr pcb;
  putr pcb (RawPcb (rp_next u) ipaddr (rp_remote_ip u) (rp_tos u) (rp_ttl u) (rp_protocol u) (rp_recv u)) ;;
  mret ERR_OK.

Definition raw_connect (pcb ipaddr : Z) : NetM Z :=
  u ← getr pcb;
  putr pcb (RawPcb (rp_next u) (rp_local_ip u) ipaddr (rp_tos u) (rp_ttl u) (rp_protocol u) (rp_recv u)) ;;
  mret ERR_OK.

Definition raw_recv (pcb recv : Z) : NetM unit :=
  u ← getr pcb;
  putr pcb (RawPcb (rp_next u) (rp_local_ip u) (rp_remote_ip u) (rp_tos u) (rp_ttl u) (rp_protocol u) recv).

(** The buffer that is sent, as in [udp_sendto_if]. *)
Definition raw_room (p : Z) : NM Z :=
  r ← pbuf_header p IP_HLEN;
  if negb (r =? 0) then
    q ← pbuf_alloc PBUF_IP 0 PBUF_RAM;
    if q =? NULL then mret NULL
    else
      b ← getp p;
      swhen (negb (pb_tot_len b =? 0)) (pbuf_chain q p) ;;
      mret q
  else
    r ← pbuf_header p (- IP_HLEN);
    lassert (r =? 0) ;;
    mret p.

Definition raw_sendto (pcb p ipaddr : Z) : NetM Z :=
  u ← getr pcb;
  q ← on_mem (raw_room p);
  if q =? NULL then mret ERR_MEM
  else
    netif ← ip_route ipaddr;
    if netif =? NULL then
      swhen (negb (q =? p)) (on_mem (pbuf_free q) ;; mret tt) ;;
      mret ERR_RTE
    else
      n ← getif netif;
      let src_ip := if ip_addr_isany (rp_local_ip u) then ni_ip_addr n else rp_local_ip u in
      err ← ip_output_if q (Some src_ip) (Some ipaddr) (rp_ttl u) (rp_tos u) (rp_protocol u) netif;
      swhen (negb (q =? p)) (on_mem (pbuf_free q) ;; mret tt) ;;
      mret err.

Definition raw_send (pcb p : Z) : NetM Z :=
  u ← getr pcb;
  raw_sendto pcb p (rp_remote_ip u).

Fixpoint raw_remove_loop (fuel : nat) (pcb2 pcb next : Z) : NetM unit :=
  match fuel with
  | O => fun _ => None
  | S fuel =>
      if pcb2 =? NULL then mret tt
      else
        u ← getr pcb2;
        if negb (rp_next u =? NULL) && (rp_next u =? pcb) then
          putr pcb2 (set_rp_next next u) ;;
          raw_remove_loop fuel next pcb next
        else raw_remove_loop fuel (rp_next u) pcb next
  end.

Definition raw_remove (pcb : Z) : NetM unit :=
  first ← sget (fun s => raw_pcbs (n_raw s));
  u ← getr pcb;
  (if first =? pcb then set_raw_pcbs (rp_next u)
   else n ← raw_bound; raw_remove_loop n first pcb (rp_next u)) ;;
  supd (fun s => set_raw_map (delete pcb (raw_pcb_map (n_raw s))) s).

Definition raw_new (proto : Z) : NetM Z :=
  pcb ← on_mem memp_malloc;
  swhen (negb (pcb =? NULL)) (
    putr pcb (RawPcb NULL 0 0 0 RAW_TTL proto NULL) ;;
    raw_push pcb) ;;
  mret pcb.
