(* ===== verification/NetTimers.v ===== *)
(** * Timeouts of the network thread: core/timers.c

    The timeouts are a linked list in which every entry holds the time between
    the previous one and itself. *)

From S2P Require Import Prelude StateM LwipMem TcpData Chksum IpAddr Pbuf NetState.

(** The functions of timers.c, as function pointers. *)
Definition H_TCPIP_TCP_TIMER : Z := 1.
Definition H_ARP_TIMER : Z := 2.
Definition H_DNS_TIMER : Z := 3.

Definition TCP_TMR_INTERVAL : Z := 250.
Definition ARP_TMR_INTERVAL : Z := 5000.
Definition DNS_TMR_INTERVAL : Z := 1000.

Definition get_o (t : Z) : NetM sys_timeo := fun s => (fun e => (e, s)) <$> timeo_map (n_tmo s) !! t.

Definition set_timeo_map m s := set_tmo (TmoGlobals m (next_timeout (n_tmo s)) (tcpip_tcp_timer_active (n_tmo s))) s.
Definition set_next_timeout t s := set_tmo (TmoGlobals (timeo_map (n_tmo s)) t (tcpip_tcp_timer_active (n_tmo s))) s.
Definition set_tcp_timer_active b s := set_tmo (TmoGlobals (timeo_map (n_tmo s)) (next_timeout (n_tmo s)) b) s.

Definition put_o (t : Z) (e : sys_timeo) : NetM unit :=
  supd (fun s => set_timeo_map (<[t := e]> (timeo_map (n_tmo s))) s).

Definition upd_o (t : Z) (f : sys_timeo -> sys_timeo) : NetM unit := e ← get_o t; put_o t (f e).

Definition free_o (t : Z) : NetM unit :=
  supd (fun s => set_timeo_map (delete t (timeo_map (n_tmo s))) s).

Definition timeo_bound : NetM nat := sget (fun s => S (size (timeo_map (n_tmo s)))).

(** The loop of [sys_timeout] that looks for the place of [timeout] behind [t]. *)
Fixpoint timeout_loop (fuel : nat) (t timeout : Z) : NetM unit :=
  match fuel with
  | O => fun _ => None
  | S fuel =>
      if t =? NULL then mret tt
      else
        e ← get_o t;
        upd_o timeout (fun n => set_to_time (u32 (to_time n - to_time e)) n) ;;
        n ← get_o timeout;
        later ← (if to_next e =? NULL then mret true
                 else x ← get_o (to_next e); mret (to_time n <? to_time x));
        if later : bool then
          swhen (negb (to_next e =? NULL))
            (upd_o (to_next e) (fun x => set_to_time (u32 (to_time x - to_time n)) x)) ;;
          put_o timeout (set_to_next (to_next e) n) ;;
          upd_o t (set_to_next timeout)
        else timeout_loop fuel (to_next e) timeout
  end.

Definition sys_timeout (msecs handler arg : Z) : NetM unit :=
  timeout ← on_mem memp_malloc;
  nassert (negb (timeout =? NULL)) ;;
  put_o timeout (SysTimeo NULL msecs handler arg) ;;
  first ← sget (fun s => next_timeout (n_tmo s));
  if first =? NULL then supd (set_next_timeout timeout)
  else
    e ← get_o first;
    if msecs <? to_time e then
      upd_o first (set_to_time (u32 (to_time e - msecs))) ;;
      upd_o timeout (set_to_next first) ;;
      supd (set_next_timeout timeout)
    else b ← timeo_bound; timeout_loop b first timeout.

Fixpoint untimeout_loop (fuel : nat) (t prev_t handler arg : Z) : NetM unit :=
  match fuel with
  | O => fun _ => None
  | S fuel =>
      if t =? NULL then mret tt
      else
        e ← get_o t;
        if (to_h e =? handler) && (to_arg e =? arg) then
          (if prev_t =? NULL then supd (set_next_timeout (to_next e))
           else upd_o prev_t (set_to_next (to_next e))) ;;
          swhen (negb (to_next e =? NULL))
            (upd_o (to_next e) (fun x => set_to_time (u32 (to_time x + to_time e)) x)) ;;
          free_o t
        else untimeout_loop fuel (to_next e) t handler arg
  end.

Definition sys_untimeout (handler arg : Z) : NetM unit :=
  first ← sget (fun s => next_timeout (n_tmo s));
  if first =? NULL then mret tt
  else b ← timeo_bound; untimeout_loop b first NULL handler arg.

Definition tcp_timer_needed : NetM unit :=
  s ← sget id;
  if negb (tcpip_tcp_timer_active (n_tmo s)) &&
     (truthy (g_active_pcbs (n_tcp s)) || truthy (g_tw_pcbs (n_tcp s)))
  then
    supd (set_tcp_timer_active true) ;;
    sys_timeout TCP_TMR_INTERVAL H_TCPIP_TCP_TIMER NULL
  else mret tt.
