(* ===== verification/TcpBase.v ===== *)
(** * TCP: macros, lists and segments

    The macros of include/lwip/tcp_impl.h (sequence numbers, header fields, lists
    of control blocks), and the functions of core/tcp.c that both directions
    use.  The header of a segment is bytes of the RAM, in network byte order
    until [tcp_input] converts it in place. *)

From S2P Require Import Prelude StateM LwipMem TcpData Chksum IpAddr Pbuf NetState NetTimers Etharp IpOut Icmp.

(** ** Constants of lwipopts.h, tcp.h and tcp_impl.h *)

Definition TCP_WND : Z := 8192.
Definition TCP_MSS : Z := 1460.
Definition TCP_SND_BUF : Z := 8192.
Definition TCP_SND_QUEUELEN : Z := 4 * TCP_SND_BUF / TCP_MSS.
Definition TCP_SNDQUEUELEN_OVERFLOW : Z := 65535 - 3.
Definition TCP_WND_UPDATE_THRESHOLD : Z := TCP_WND / 4.
Definition TCP_TTL : Z := 255.
Definition TCP_MAXRTX : Z := 12.
Definition TCP_SYNMAXRTX : Z := 4.
Definition TCP_HLEN : Z := 20.
Definition TCP_SLOW_INTERVAL : Z := 2 * TCP_TMR_INTERVAL.
Definition TCP_FIN_WAIT_TIMEOUT : Z := 20000.
Definition TCP_SYN_RCVD_TIMEOUT : Z := 20000.
Definition TCP_OOSEQ_TIMEOUT : Z := 6.
Definition TCP_MSL : Z := 60000.
Definition TCP_KEEPIDLE_DEFAULT : Z := 7200000.
Definition TCP_KEEPINTVL_DEFAULT : Z := 75000.
Definition TCP_MAXIDLE : Z := 9 * TCP_KEEPINTVL_DEFAULT.
Definition TCP_PRIO_NORMAL : Z := 64.
Definition TCP_PRIO_MAX : Z := 127.

Definition TCP_FIN : Z := 1.
Definition TCP_SYN : Z := 2.
Definition TCP_RST : Z := 4.
Definition TCP_PSH : Z := 8.
Definition TCP_ACK : Z := 16.
Definition TCP_FLAGS : Z := 63.

Definition TF_ACK_DELAY : Z := 1.
Definition TF_ACK_NOW : Z := 2.
Definition TF_INFR : Z := 4.
Definition TF_RXCLOSED : Z := 16.
Definition TF_FIN : Z := 32.
Definition TF_NODELAY : Z := 64.
Definition TF_NAGLEMEMERR : Z := 128.

(** Flags of [recv_flags]. *)
Definition TF_RESET : Z := 8.
Definition TF_CLOSED : Z := 16.
Definition TF_GOT_FIN : Z := 32.

Definition TF_SEG_OPTS_MSS : Z := 1.

Definition TCP_WRITE_FLAG_COPY : Z := 1.
Definition TCP_WRITE_FLAG_MORE : Z := 2.

Definition PBUF_FLAG_PUSH : Z := 1.
Definition PBUF_FLAG_TCP_FIN : Z := 32.

Definition SOF_ACCEPTCONN : Z := 2.
Definition SOF_KEEPALIVE : Z := 8.
Definition SOF_INHERITED : Z := 4 |. 8 |. 128.

Definition ERR_VAL : Z := -6.
Definition ERR_ABRT : Z := -10.
Definition ERR_RST : Z := -11.
Definition ERR_CLSD : Z := -12.
Definition ERR_CONN : Z := -13.
Definition ERR_ARG : Z := -14.

(** ** Sequence numbers *)

Definition TCP_SEQ_LT (a b : Z) : bool := i32 (u32 (u32 a - u32 b)) <? 0.
Definition TCP_SEQ_LEQ (a b : Z) : bool := i32 (u32 (u32 a - u32 b)) <=? 0.
Definition TCP_SEQ_GT (a b : Z) : bool := 0 <? i32 (u32 (u32 a - u32 b)).
Definition TCP_SEQ_GEQ (a b : Z) : bool := 0 <=? i32 (u32 (u32 a - u32 b)).
Definition TCP_SEQ_BETWEEN (a b c : Z) : bool := TCP_SEQ_GEQ a b && TCP_SEQ_LEQ a c.

(** ** Accesses *)

Definition tcpg {A} (f : tcp_globals -> A) : NetM A := sget (fun s => f (n_tcp s)).
Definition tcpu (f : tcp_globals -> tcp_globals) : NetM unit := supd (fun s => set_tcp (f (n_tcp s)) s).

(** The common fields of a control block, and all of them. *)
Definition getc (p : Z) : NetM tcp_pcb := fun s => (fun b => (b, s)) <$> g_pcb_map (n_tcp s) !! p.

Definition gett (p : Z) : NetM tcp_pcb :=
  b ← getc p;
  nassert (negb (bool_decide (t_state b = LISTEN))) ;;
  mret b.

Definition putt (p : Z) (b : tcp_pcb) : NetM unit :=
  tcpu (fun g => set_g_pcb_map (<[p := b]> (g_pcb_map g)) g).

Definition updc (p : Z) (f : tcp_pcb -> tcp_pcb) : NetM unit := b ← getc p; putt p (f b).
Definition updt (p : Z) (f : tcp_pcb -> tcp_pcb) : NetM unit := b ← gett p; putt p (f b).

Definition freet (p : Z) : NetM unit :=
  _ ← getc p; tcpu (fun g => set_g_pcb_map (delete p (g_pcb_map g)) g).

Definition gets (p : Z) : NetM tcp_seg := fun s => (fun b => (b, s)) <$> g_seg_map (n_tcp s) !! p.
Definition puts (p : Z) (b : tcp_seg) : NetM unit :=
  tcpu (fun g => set_g_seg_map (<[p := b]> (g_seg_map g)) g).
Definition upds (p : Z) (f : tcp_seg -> tcp_seg) : NetM unit := b ← gets p; puts p (f b).
Definition frees (p : Z) : NetM unit :=
  _ ← gets p; tcpu (fun g => set_g_seg_map (delete p (g_seg_map g)) g).

(** Bounds for the walks over the lists. *)
Definition tpcb_bound : NetM nat := tcpg (fun g => S (size (g_pcb_map g))).
Definition seg_bound : NetM nat := tcpg (fun g => S (size (g_seg_map g))).

Definition is_st (b : tcp_pcb) (st : tcp_state) : bool := bool_decide (t_state b = st).
Definition has_flag (b : tcp_pcb) (f : Z) : bool := truthy (t_flags b &. f).
Definition has_opt (b : tcp_pcb) (f : Z) : bool := truthy (t_so_options b &. f).
Definition add_flag (f : Z) (b : tcp_pcb) : tcp_pcb := set_t_flags (t_flags b |. f) b.
Definition del_flag (f : Z) (b : tcp_pcb) : tcp_pcb := set_t_flags (u8 (t_flags b &~ f)) b.

(** ** The header of a segment *)

Definition hdr_src (h : Z) : Z := h.
Definition hdr_dest (h : Z) : Z := h + 2.
Definition hdr_seqno (h : Z) : Z := h + 4.
Definition hdr_ackno (h : Z) : Z := h + 8.
Definition hdr_lenflags (h : Z) : Z := h + 12.
Definition hdr_wnd (h : Z) : Z := h + 14.
Definition hdr_chksum (h : Z) : Z := h + 16.
Definition hdr_urgp (h : Z) : Z := h + 18.

Definition TCPH_HDRLEN (h : Z) : NM Z := v ← load_le (hdr_lenflags h) 2; mret (Z.shiftr (lwip_ntohs v) 12).
Definition TCPH_FLAGS (h : Z) : NM Z := v ← load_le (hdr_lenflags h) 2; mret (lwip_ntohs v &. TCP_FLAGS).

Definition TCPH_HDRLEN_FLAGS_SET (h len flags : Z) : NM unit :=
  store_le (hdr_lenflags h) 2 (lwip_htons (u16 (Z.shiftl len 12 |. flags))).

Definition TCPH_FLAGS_SET (h flags : Z) : NM unit :=
  v ← load_le (hdr_lenflags h) 2;
  store_le (hdr_lenflags h) 2 ((v &. lwip_htons (65535 - TCP_FLAGS)) |. lwip_htons flags).

Definition TCPH_SET_FLAG (h flags : Z) : NM unit :=
  v ← load_le (hdr_lenflags h) 2;
  store_le (hdr_lenflags h) 2 (v |. lwip_htons flags).

(** [ntohl(seg->tcphdr->seqno)] of a segment to be sent. *)
Definition seg_seqno (seg : Z) : NetM Z :=
  b ← gets seg; v ← on_mem (load_le (hdr_seqno (sg_tcphdr b)) 4); mret (lwip_ntohl v).

(** [next->tcphdr->seqno] of a received segment. *)
Definition rseg_seqno (seg : Z) : NetM Z :=
  b ← gets seg; on_mem (load_le (hdr_seqno (sg_tcphdr b)) 4).

Definition tcplen_of (b : tcp_seg) : NetM Z :=
  f ← on_mem (TCPH_FLAGS (sg_tcphdr b));
  mret (sg_len b + (if truthy (f &. (TCP_FIN |. TCP_SYN)) then 1 else 0)).

Definition TCP_TCPLEN (seg : Z) : NetM Z := b ← gets seg; tcplen_of b.

Definition LWIP_TCP_OPT_LENGTH (flags : Z) : Z := if truthy (flags &. TF_SEG_OPTS_MSS) then 4 else 0.

Definition TCP_BUILD_MSS_OPTION (mss : Z) : Z := lwip_htonl (33816576 |. (mss &. 65535)).

(** ** Lists of control blocks *)

Inductive pcb_list := tcp_listen_pcbs | tcp_bound_pcbs | tcp_active_pcbs | tcp_tw_pcbs.

Definition pcbs (l : pcb_list) (g : tcp_globals) : Z :=
  match l with
  | tcp_listen_pcbs => g_listen_pcbs g
  | tcp_bound_pcbs => g_bound_pcbs g
  | tcp_active_pcbs => g_active_pcbs g
  | tcp_tw_pcbs => g_tw_pcbs g
  end.

Definition set_pcbs (l : pcb_list) (v : Z) (g : tcp_globals) : tcp_globals :=
  match l with
  | tcp_listen_pcbs => set_g_listen_pcbs v g
  | tcp_bound_pcbs => set_g_bound_pcbs v g
  | tcp_active_pcbs => set_g_active_pcbs v g
  | tcp_tw_pcbs => set_g_tw_pcbs v g
  end.

Definition tcp_pcb_lists : list pcb_list := [tcp_listen_pcbs; tcp_bound_pcbs; tcp_active_pcbs; tcp_tw_pcbs].

Definition TCP_REG (l : pcb_list) (npcb : Z) : NetM unit :=
  first ← tcpg (pcbs l);
  updc npcb (set_t_next first) ;;
  tcpu (set_pcbs l npcb) ;;
  tcp_timer_needed.

Fixpoint rmv_loop (fuel : nat) (tmp npcb : Z) : NetM unit :=
  match fuel with
  | O => fun _ => None
  | S fuel =>
      if tmp =? NULL then mret tt
      else
        b ← getc tmp;
        if t_next b =? npcb then n ← getc npcb; updc tmp (set_t_next (t_next n))
        else rmv_loop fuel (t_next b) npcb
  end.

Definition TCP_RMV (l : pcb_list) (npcb : Z) : NetM unit :=
  first ← tcpg (pcbs l);
  (if first =? npcb then b ← getc first; tcpu (set_pcbs l (t_next b))
   else n ← tpcb_bound; rmv_loop n first npcb) ;;
  updc npcb (set_t_next NULL).

Definition TCP_REG_ACTIVE (npcb : Z) : NetM unit :=
  TCP_REG tcp_active_pcbs npcb ;; tcpu (set_g_active_pcbs_changed true).

Definition TCP_RMV_ACTIVE (npcb : Z) : NetM unit :=
  TCP_RMV tcp_active_pcbs npcb ;; tcpu (set_g_active_pcbs_changed true).

Definition tcp_ack (b : tcp_pcb) : tcp_pcb :=
  if has_flag b TF_ACK_DELAY then add_flag TF_ACK_NOW (del_flag TF_ACK_DELAY b)
  else add_flag TF_ACK_DELAY b.

Definition tcp_ack_now (b : tcp_pcb) : tcp_pcb := add_flag TF_ACK_NOW b.

(** ** Segments: core/tcp.c *)

Definition tcp_seg_free (seg : Z) : NetM unit :=
  if seg =? NULL then mret tt
  else
    b ← gets seg;
    swhen (negb (sg_p b =? NULL)) (on_mem (pbuf_free (sg_p b)) ;; mret tt) ;;
    frees seg.

Fixpoint segs_free_loop (fuel : nat) (seg : Z) : NetM unit :=
  match fuel with
  | O => fun _ => None
  | S fuel =>
      if seg =? NULL then mret tt
      else b ← gets seg; tcp_seg_free seg ;; segs_free_loop fuel (sg_next b)
  end.

Definition tcp_segs_free (seg : Z) : NetM unit := n ← seg_bound; segs_free_loop n seg.

(** A copy of [inseg]. *)
Definition tcp_seg_copy (b : tcp_seg) : NetM Z :=
  cseg ← on_mem memp_malloc;
  if cseg =? NULL then mret NULL
  else puts cseg b ;; on_mem (pbuf_ref (sg_p b)) ;; mret cseg.

(** [for (s = seg; s->next != NULL; s = s->next);] *)
Fixpoint last_seg (fuel : nat) (seg : Z) : NetM Z :=
  match fuel with
  | O => fun _ => None
  | S fuel =>
      b ← gets seg;
      if sg_next b =? NULL then mret seg else last_seg fuel (sg_next b)
  end.

Definition tcp_next_iss : NetM Z :=
  g ← tcpg id;
  let iss := u32 (g_iss g + g_ticks g) in
  tcpu (set_g_iss iss) ;;
  mret iss.

Definition tcp_eff_send_mss (sendmss addr : Z) : NetM Z :=
  outif ← ip_route addr;
  if outif =? NULL then mret sendmss
  else
    n ← getif outif;
    if ni_mtu n =? 0 then mret sendmss
    else mret (Z.min sendmss (u16 (ni_mtu n - IP_HLEN - TCP_HLEN))).
