(* ===== verification/TcpOut.v ===== *)
(** * TCP output: core/tcp_out.c

    Segments are built from the application's data ([tcp_write]) or from flags
    ([tcp_enqueue_flags]), wait in the list [unsent], are sent by [tcp_output]
    as the windows allow and then wait in [unacked].  Timestamps and checksums on
    copying are not configured. *)

From S2P Require Import Prelude StateM LwipMem TcpData Chksum IpAddr Pbuf NetState NetTimers Etharp IpOut Icmp TcpBase.

(** [tcphdr->chksum = inet_chksum_pseudo(p, ...)] *)
Definition tcp_chksum (tcphdr p local_ip remote_ip : Z) : NM unit :=
  b ← getp p;
  c ← load_chksum (fun st => inet_chksum_pseudo st p local_ip remote_ip IP_PROTO_TCP (pb_tot_len b));
  store_le (hdr_chksum tcphdr) 2 c.

Definition tcp_output_alloc_header (pcb optlen datalen seqno_be : Z) : NetM Z :=
  t ← gett pcb;
  p ← on_mem (pbuf_alloc PBUF_IP (u16 (TCP_HLEN + optlen + datalen)) PBUF_RAM);
  swhen (negb (p =? NULL)) (
    b ← on_mem (getp p);
    nassert (TCP_HLEN + optlen <=? pb_len b) ;;
    let tcphdr := pb_payload b in
    on_mem (store_le (hdr_src tcphdr) 2 (lwip_htons (t_local_port t)) ;;
            store_le (hdr_dest tcphdr) 2 (lwip_htons (t_remote_port t)) ;;
            store_le (hdr_seqno tcphdr) 4 seqno_be ;;
            store_le (hdr_ackno tcphdr) 4 (lwip_htonl (t_rcv_nxt t)) ;;
            TCPH_HDRLEN_FLAGS_SET tcphdr (5 + optlen / 4) TCP_ACK ;;
            store_le (hdr_wnd tcphdr) 2 (lwip_htons (t_rcv_ann_wnd t)) ;;
            store_le (hdr_chksum tcphdr) 2 0 ;;
            store_le (hdr_urgp tcphdr) 2 0) ;;
    updt pcb (fun t => set_t_rcv_ann_right_edge (u32 (t_rcv_nxt t + t_rcv_ann_wnd t)) t)) ;;
  mret p.

Definition tcp_create_segment (pcb p flags seqno optflags : Z) : NetM Z :=
  let optlen := LWIP_TCP_OPT_LENGTH optflags in
  seg ← on_mem memp_malloc;
  if seg =? NULL then on_mem (pbuf_free p) ;; mret NULL
  else
    b ← on_mem (getp p);
    puts seg (TcpSeg NULL p (u16 (pb_tot_len b - optlen)) optflags NULL) ;;
    r ← on_mem (pbuf_header p TCP_HLEN);
    if negb (r =? 0) then tcp_seg_free seg ;; mret NULL
    else
      t ← gett pcb;
      b ← on_mem (getp p);
      let tcphdr := pb_payload b in
      upds seg (fun s => TcpSeg (sg_next s) (sg_p s) (sg_len s) (sg_flags s) tcphdr) ;;
      on_mem (store_le (hdr_src tcphdr) 2 (lwip_htons (t_local_port t)) ;;
              store_le (hdr_dest tcphdr) 2 (lwip_htons (t_remote_port t)) ;;
              store_le (hdr_seqno tcphdr) 4 (lwip_htonl seqno) ;;
              TCPH_HDRLEN_FLAGS_SET tcphdr (5 + optlen / 4) flags ;;
              store_le (hdr_urgp tcphdr) 2 0) ;;
      mret seg.

(** ** Flags *)

Definition tcp_enqueue_flags (pcb flags : Z) : NetM Z :=
  nassert (truthy (flags &. (TCP_SYN |. TCP_FIN))) ;;
  t ← gett pcb;
  if (TCP_SND_QUEUELEN <=? t_snd_queuelen t) || (TCP_SNDQUEUELEN_OVERFLOW <? t_snd_queuelen t)
  then updt pcb (add_flag TF_NAGLEMEMERR) ;; mret ERR_MEM
  else
    let optflags := if truthy (flags &. TCP_SYN) then TF_SEG_OPTS_MSS else 0 in
    let optlen := LWIP_TCP_OPT_LENGTH optflags in
    if t_snd_buf t =? 0 then mret ERR_MEM
    else
      p ← on_mem (pbuf_alloc PBUF_TRANSPORT optlen PBUF_RAM);
      if p =? NULL then updt pcb (add_flag TF_NAGLEMEMERR) ;; mret ERR_MEM
      else
        b ← on_mem (getp p);
        nassert (optlen <=? pb_len b) ;;
        seg ← tcp_create_segment pcb p flags (t_snd_lbb t) optflags;
        if seg =? NULL then updt pcb (add_flag TF_NAGLEMEMERR) ;; mret ERR_MEM
        else
          sg ← gets seg;
          nassert (sg_tcphdr sg mod 4 =? 0) ;;
          nassert (sg_len sg =? 0) ;;
          t ← gett pcb;
          (if t_unsent t =? NULL then updt pcb (set_t_unsent seg)
           else n ← seg_bound; useg ← last_seg n (t_unsent t); upds useg (set_sg_next seg)) ;;
          updt pcb (set_t_unsent_oversize 0) ;;
          swhen (truthy (flags &. TCP_SYN) || truthy (flags &. TCP_FIN))
            (updt pcb (fun t => set_t_snd_buf (u16 (t_snd_buf t - 1)) (set_t_snd_lbb (u32 (t_snd_lbb t + 1)) t))) ;;
          swhen (truthy (flags &. TCP_FIN)) (updt pcb (add_flag TF_FIN)) ;;
          n ← on_mem (pbuf_clen p);
          updt pcb (fun t => set_t_snd_queuelen (u16 (t_snd_queuelen t + n)) t) ;;
          t ← gett pcb;
          swhen (negb (t_snd_queuelen t =? 0))
            (nassert (negb (t_unacked t =? NULL) || negb (t_unsent t =? NULL))) ;;
          mret ERR_OK.

Definition tcp_send_fin (pcb : Z) : NetM Z :=
  t ← gett pcb;
  done ← (if t_unsent t =? NULL then mret false
          else
            n ← seg_bound;
            last_unsent ← last_seg n (t_unsent t);
            sg ← gets last_unsent;
            f ← on_mem (TCPH_FLAGS (sg_tcphdr sg));
            if truthy (f &. (TCP_SYN |. TCP_FIN |. TCP_RST)) then mret false
            else
              on_mem (TCPH_SET_FLAG (sg_tcphdr sg) TCP_FIN) ;;
              updt pcb (add_flag TF_FIN) ;;
              mret true);
  if done : bool then mret ERR_OK else tcp_enqueue_flags pcb TCP_FIN.

(** ** Data *)

Definition tcp_pbuf_prealloc (layer : pbuf_layer) (length max_length pcb apiflags : Z) (first_seg : bool) :
    NetM (Z * Z) :=
  t ← gett pcb;
  let alloc :=
    if (length <? max_length) &&
       (truthy (apiflags &. TCP_WRITE_FLAG_MORE) ||
        (negb (has_flag t TF_NODELAY) &&
         (negb first_seg || negb (t_unsent t =? NULL) || negb (t_unacked t =? NULL))))
    then u16 (Z.min max_length (LWIP_MEM_ALIGN_SIZE (length + TCP_MSS))) else length in
  p ← on_mem (pbuf_alloc layer alloc PBUF_RAM);
  if p =? NULL then mret (NULL, 0)
  else
    b ← on_mem (getp p);
    nassert (pb_next b =? NULL) ;;
    on_mem (updp p (fun b => set_pb_len length (set_pb_tot_len length b))) ;;
    mret (p, u16 (pb_len b - length)).

Definition tcp_write_checks (pcb len : Z) : NetM Z :=
  t ← gett pcb;
  if negb (is_st t ESTABLISHED) && negb (is_st t CLOSE_WAIT) && negb (is_st t SYN_SENT) && negb (is_st t SYN_RCVD)
  then mret ERR_CONN
  else if len =? 0 then mret ERR_OK
  else if t_snd_buf t <? len then updt pcb (add_flag TF_NAGLEMEMERR) ;; mret ERR_MEM
  else if (TCP_SND_QUEUELEN <=? t_snd_queuelen t) || (TCP_SNDQUEUELEN_OVERFLOW <? t_snd_queuelen t)
  then updt pcb (add_flag TF_NAGLEMEMERR) ;; mret ERR_MEM
  else
    nassert (if negb (t_snd_queuelen t =? 0) then negb (t_unacked t =? NULL) || negb (t_unsent t =? NULL)
             else (t_unacked t =? NULL) && (t_unsent t =? NULL)) ;;
    mret ERR_OK.

(** [MEMCPY (dst, src, len)] *)
Definition memcpy (dst src len : Z) : NM unit := d ← load src len; store dst d.

(** The variables of [tcp_write] that its phases share. *)
Record write_vars := WriteVars {
  w_concat_p : Z;
  w_seg : Z;
  w_queue : Z;
  w_prev_seg : Z;
  w_pos : Z;
  w_queuelen : Z;
  w_oversize : Z;
  w_oversize_used : Z;
}.

(** Phase 1 and 2, for a list of unsent segments: the room behind the last one, and
    a buffer that extends it.  [None] without memory. *)
Definition write_tail (pcb arg len apiflags mss_local last_unsent queuelen : Z) : NetM (option write_vars) :=
  t ← gett pcb;
  sg ← gets last_unsent;
  let unsent_optlen := LWIP_TCP_OPT_LENGTH (sg_flags sg) in
  let space := u16 (mss_local - (sg_len sg + unsent_optlen)) in
  let oversize := t_unsent_oversize t in
  nassert (negb (0 <? oversize) || (0 <=? space)) ;;
  let oversize_used := if 0 <? oversize then (if oversize <? len then oversize else len) else 0 in
  let seg := if 0 <? oversize then last_unsent else NULL in
  let pos := oversize_used in
  let oversize := u16 (oversize - oversize_used) in
  let space := u16 (space - oversize_used) in
  nassert ((oversize =? 0) || (pos =? len)) ;;
  if (pos <? len) && (0 <? space) && (0 <? sg_len sg) then
    let seglen := if space <? len - pos then space else len - pos in
    '(concat_p, oversize) ←
      (if truthy (apiflags &. TCP_WRITE_FLAG_COPY) then
         '(p, o) ← tcp_pbuf_prealloc PBUF_RAW seglen space pcb apiflags true;
         (if p =? NULL then mret tt
          else b ← on_mem (getp p); on_mem (memcpy (pb_payload b) (arg + pos) seglen)) ;;
         mret (p, o)
       else
         p ← on_mem (pbuf_alloc PBUF_RAW seglen PBUF_ROM);
         (if p =? NULL then mret tt else on_mem (updp p (set_pb_payload (arg + pos)))) ;;
         mret (p, oversize));
    if concat_p =? NULL then mret None
    else
      n ← on_mem (pbuf_clen concat_p);
      mret (Some (WriteVars concat_p last_unsent NULL NULL (u16 (pos + seglen)) (u16 (queuelen + n)) oversize oversize_used))
  else mret (Some (WriteVars NULL seg NULL NULL pos queuelen oversize oversize_used)).

(** The buffer of a new segment with [seglen] bytes of the data, and [oversize]. *)
Definition write_buf (pcb arg apiflags mss_local seglen : Z) (w : write_vars) : NetM (Z * Z) :=
  if truthy (apiflags &. TCP_WRITE_FLAG_COPY) then
    '(p, o) ← tcp_pbuf_prealloc PBUF_TRANSPORT seglen mss_local pcb apiflags (w_queue w =? NULL);
    (if p =? NULL then mret tt
     else
       b ← on_mem (getp p);
       nassert (seglen <=? pb_len b) ;;
       on_mem (memcpy (pb_payload b) (arg + w_pos w) seglen)) ;;
    mret (p, o)
  else
    nassert (w_oversize w =? 0) ;;
    p2 ← on_mem (pbuf_alloc PBUF_TRANSPORT seglen PBUF_ROM);
    if p2 =? NULL then mret (NULL, 0)
    else
      on_mem (updp p2 (set_pb_payload (arg + w_pos w))) ;;
      p ← on_mem (pbuf_alloc PBUF_TRANSPORT 0 PBUF_RAM);
      if p =? NULL then on_mem (pbuf_free p2) ;; mret (NULL, 0)
      else on_mem (pbuf_cat p p2) ;; mret (p, 0).

(** Every new segment lengthens the queue, which is limited. *)
Definition write_bound : nat := Z.to_nat (TCP_SND_QUEUELEN + 2).

(** Phase 3: new segments.  The flag is false without memory. *)
Fixpoint write_loop (fuel : nat) (pcb arg len apiflags mss_local : Z) (w : write_vars) : NetM (bool * write_vars) :=
  match fuel with
  | O => fun _ => None
  | S fuel =>
      if w_pos w <? len then
        let left := u16 (len - w_pos w) in
        let seglen := if mss_local <? left then mss_local else left in
        '(p, oversize) ← write_buf pcb arg apiflags mss_local seglen w;
        if p =? NULL then mret (false, w)
        else
          n ← on_mem (pbuf_clen p);
          let queuelen := u16 (w_queuelen w + n) in
          if (TCP_SND_QUEUELEN <? queuelen) || (TCP_SNDQUEUELEN_OVERFLOW <? queuelen)
          then on_mem (pbuf_free p) ;; mret (false, w)
          else
            t ← gett pcb;
            seg ← tcp_create_segment pcb p 0 (u32 (t_snd_lbb t + w_pos w)) 0;
            if seg =? NULL then mret (false, w)
            else
              (if w_queue w =? NULL then mret tt
               else nassert (negb (w_prev_seg w =? NULL)) ;; upds (w_prev_seg w) (set_sg_next seg)) ;;
              write_loop fuel pcb arg len apiflags mss_local
                (WriteVars (w_concat_p w) seg (if w_queue w =? NULL then seg else w_queue w) seg
                   (u16 (w_pos w + seglen)) queuelen oversize (w_oversize_used w))
      else mret (true, w)
  end.

(** The loop that appends [used] bytes to the last buffer of a chain. *)
Fixpoint oversize_loop (fuel : nat) (p arg used : Z) : NM unit :=
  match fuel with
  | O => fun _ => None
  | S fuel =>
      if p =? NULL then mret tt
      else
        updp p (fun b => set_pb_tot_len (u16 (pb_tot_len b + used)) b) ;;
        b ← getp p;
        (if pb_next b =? NULL then
           memcpy (pb_payload b + pb_len b) arg used ;;
           updp p (set_pb_len (u16 (pb_len b + used)))
         else mret tt) ;;
        oversize_loop fuel (pb_next b) arg used
  end.

(** The label [memerr]. *)
Definition write_memerr (pcb concat_p queue : Z) : NetM Z :=
  updt pcb (add_flag TF_NAGLEMEMERR) ;;
  swhen (negb (concat_p =? NULL)) (on_mem (pbuf_free concat_p) ;; mret tt) ;;
  swhen (negb (queue =? NULL)) (tcp_segs_free queue) ;;
  t ← gett pcb;
  swhen (negb (t_snd_queuelen t =? 0)) (nassert (negb (t_unacked t =? NULL) || negb (t_unsent t =? NULL))) ;;
  mret ERR_MEM.

(** All the memory is there: the data is committed to the lists. *)
Definition write_commit (pcb arg len apiflags last_unsent : Z) (w : write_vars) : NetM Z :=
  swhen (0 <? w_oversize_used w) (
    sg ← gets last_unsent;
    on_mem (n ← chain_bound; oversize_loop n (sg_p sg) arg (w_oversize_used w)) ;;
    upds last_unsent (fun sg => set_sg_len (u16 (sg_len sg + w_oversize_used w)) sg)) ;;
  updt pcb (set_t_unsent_oversize (w_oversize w)) ;;
  swhen (negb (w_concat_p w =? NULL)) (
    nassert (negb (last_unsent =? NULL)) ;;
    sg ← gets last_unsent;
    on_mem (pbuf_cat (sg_p sg) (w_concat_p w)) ;;
    c ← on_mem (getp (w_concat_p w));
    upds last_unsent (fun sg => set_sg_len (u16 (sg_len sg + pb_tot_len c)) sg)) ;;
  (if last_unsent =? NULL then updt pcb (set_t_unsent (w_queue w))
   else upds last_unsent (set_sg_next (w_queue w))) ;;
  updt pcb (fun t => set_t_snd_queuelen (w_queuelen w) (set_t_snd_buf (u16 (t_snd_buf t - len))
                       (set_t_snd_lbb (u32 (t_snd_lbb t + len)) t))) ;;
  t ← gett pcb;
  swhen (negb (t_snd_queuelen t =? 0)) (nassert (negb (t_unacked t =? NULL) || negb (t_unsent t =? NULL))) ;;
  swhen (negb (w_seg w =? NULL) && negb (truthy (apiflags &. TCP_WRITE_FLAG_MORE))) (
    sg ← gets (w_seg w);
    swhen (negb (sg_tcphdr sg =? NULL)) (on_mem (TCPH_SET_FLAG (sg_tcphdr sg) TCP_PSH))) ;;
  mret ERR_OK.

Definition tcp_write (pcb arg len apiflags : Z) : NetM Z :=
  t ← gett pcb;
  let mss_local := Z.min (t_mss t) (t_snd_wnd_max t / 2) in
  nassert (negb (arg =? NULL)) ;;
  err ← tcp_write_checks pcb len;
  if negb (err =? ERR_OK) then mret err
  else
    t ← gett pcb;
    last_unsent ← (if t_unsent t =? NULL then nassert (t_unsent_oversize t =? 0) ;; mret NULL
                   else n ← seg_bound; last_seg n (t_unsent t));
    tail ← (if last_unsent =? NULL then mret (Some (WriteVars NULL NULL NULL NULL 0 (t_snd_queuelen t) 0 0))
            else write_tail pcb arg len apiflags mss_local last_unsent (t_snd_queuelen t));
    match tail with
    | None => write_memerr pcb NULL NULL
    | Some w =>
        '(ok, w) ← write_loop write_bound pcb arg len apiflags mss_local w;
        if ok : bool then write_commit pcb arg len apiflags last_unsent w
        else write_memerr pcb (w_concat_p w) (w_queue w)
    end.

(** ** Sending *)

Definition tcp_send_empty_ack (pcb : Z) : NetM Z :=
  t ← gett pcb;
  p ← tcp_output_alloc_header pcb 0 0 (lwip_htonl (t_snd_nxt t));
  if p =? NULL then mret ERR_BUF
  else
    b ← on_mem (getp p);
    updt pcb (del_flag (TF_ACK_DELAY |. TF_ACK_NOW)) ;;
    on_mem (tcp_chksum (pb_payload b) p (t_local_ip t) (t_remote_ip t)) ;;
    ip_output p (Some (t_local_ip t)) (t_remote_ip t) (t_ttl t) (t_tos t) IP_PROTO_TCP ;;
    on_mem (pbuf_free p) ;;
    mret ERR_OK.

Definition tcp_do_output_nagle (pcb : Z) : NetM bool :=
  t ← gett pcb;
  if (t_unacked t =? NULL) || has_flag t (TF_NODELAY |. TF_INFR) then mret true
  else
    full ← (if t_unsent t =? NULL then mret false
            else u ← gets (t_unsent t); mret (negb (sg_next u =? NULL) || (t_mss t <=? sg_len u)));
    mret (full || (t_snd_buf t =? 0) || (TCP_SND_QUEUELEN <=? t_snd_queuelen t)).

(** From [pcb->rttest] to the end of [tcp_output_segment]. *)
Definition segment_send (seg pcb : Z) : NetM unit :=
  sg ← gets seg;
  t ← gett pcb;
  swhen (t_rttest t =? 0) (
    ticks ← tcpg g_ticks;
    n ← seg_seqno seg;
    updt pcb (fun t => set_t_rtseq n (set_t_rttest ticks t))) ;;
  b ← on_mem (getp (sg_p sg));
  let len := u16 (sg_tcphdr sg - pb_payload b) in
  on_mem (updp (sg_p sg) (fun b => set_pb_payload (sg_tcphdr sg)
            (set_pb_tot_len (u16 (pb_tot_len b - len)) (set_pb_len (u16 (pb_len b - len)) b)))) ;;
  on_mem (store_le (hdr_chksum (sg_tcphdr sg)) 2 0) ;;
  on_mem (tcp_chksum (sg_tcphdr sg) (sg_p sg) (t_local_ip t) (t_remote_ip t)) ;;
  ip_output (sg_p sg) (Some (t_local_ip t)) (t_remote_ip t) (t_ttl t) (t_tos t) IP_PROTO_TCP ;;
  mret tt.

Definition tcp_output_segment (seg pcb : Z) : NetM unit :=
  sg ← gets seg;
  t ← gett pcb;
  on_mem (store_le (hdr_ackno (sg_tcphdr sg)) 4 (lwip_htonl (t_rcv_nxt t))) ;;
  on_mem (store_le (hdr_wnd (sg_tcphdr sg)) 2 (lwip_htons (t_rcv_ann_wnd t))) ;;
  updt pcb (fun t => set_t_rcv_ann_right_edge (u32 (t_rcv_nxt t + t_rcv_ann_wnd t)) t) ;;
  swhen (truthy (sg_flags sg &. TF_SEG_OPTS_MSS)) (
    mss ← tcp_eff_send_mss TCP_MSS (t_remote_ip t);
    on_mem (store_le (sg_tcphdr sg + TCP_HLEN) 4 (TCP_BUILD_MSS_OPTION mss))) ;;
  swhen (t_rtime t =? -1) (updt pcb (set_t_rtime 0)) ;;
  if ip_addr_isany (t_local_ip t) then
    netif ← ip_route (t_remote_ip t);
    if netif =? NULL then mret tt
    else n ← getif netif; updt pcb (set_t_local_ip (ni_ip_addr n)) ;; segment_send seg pcb
  else segment_send seg pcb.

(** The walk of [cur_seg] to the place of a segment with number [n] in a list
    ordered by numbers: the segment in front, or null, and the one behind. *)
Fixpoint seg_place (fuel : nat) (prev cur n : Z) : NetM (Z * Z) :=
  match fuel with
  | O => fun _ => None
  | S fuel =>
      if cur =? NULL then mret (prev, cur)
      else
        m ← seg_seqno cur;
        if TCP_SEQ_LT m n then c ← gets cur; seg_place fuel cur (sg_next c) n
        else mret (prev, cur)
  end.

(** [unacked] takes over a segment that was sent; [useg] is its last one. *)
Definition to_unacked (seg useg pcb : Z) : NetM Z :=
  upds seg (set_sg_next NULL) ;;
  t ← gett pcb;
  if t_unacked t =? NULL then updt pcb (set_t_unacked seg) ;; mret seg
  else
    n ← seg_seqno seg;
    m ← seg_seqno useg;
    if TCP_SEQ_LT n m then
      b ← seg_bound;
      '(prev, cur) ← seg_place b NULL (t_unacked t) n;
      upds seg (set_sg_next cur) ;;
      (if prev =? NULL then updt pcb (set_t_unacked seg) else upds prev (set_sg_next seg)) ;;
      mret useg
    else upds useg (set_sg_next seg) ;; mret seg.

(** The loop of [tcp_output]. *)
Fixpoint output_loop (fuel : nat) (pcb seg useg wnd : Z) : NetM unit :=
  match fuel with
  | O => fun _ => None
  | S fuel =>
      if seg =? NULL then mret tt
      else
        sg ← gets seg;
        n ← seg_seqno seg;
        t ← gett pcb;
        if wnd <? u32 (n - t_lastack t + sg_len sg) then mret tt
        else
          f ← on_mem (TCPH_FLAGS (sg_tcphdr sg));
          nassert (negb (truthy (f &. TCP_RST))) ;;
          nagle ← tcp_do_output_nagle pcb;
          if negb nagle && negb (has_flag t (TF_NAGLEMEMERR |. TF_FIN)) then mret tt
          else
            updt pcb (set_t_unsent (sg_next sg)) ;;
            swhen (negb (is_st t SYN_SENT)) (
              on_mem (TCPH_SET_FLAG (sg_tcphdr sg) TCP_ACK) ;;
              updt pcb (del_flag (TF_ACK_DELAY |. TF_ACK_NOW))) ;;
            tcp_output_segment seg pcb ;;
            n ← seg_seqno seg;
            l ← TCP_TCPLEN seg;
            let snd_nxt := u32 (n + l) in
            t ← gett pcb;
            swhen (TCP_SEQ_LT (t_snd_nxt t) snd_nxt) (updt pcb (set_t_snd_nxt snd_nxt)) ;;
            useg ← (if 0 <? l then to_unacked seg useg pcb else tcp_seg_free seg ;; mret useg);
            t ← gett pcb;
            output_loop fuel pcb (t_unsent t) useg wnd
  end.

Definition tcp_output (pcb : Z) : NetM Z :=
  t0 ← getc pcb;
  nassert (negb (is_st t0 LISTEN)) ;;
  input_pcb ← tcpg g_input_pcb;
  if input_pcb =? pcb then mret ERR_OK
  else
    t ← gett pcb;
    let wnd := Z.min (t_snd_wnd t) (t_cwnd t) in
    let seg := t_unsent t in
    empty ← (if has_flag t TF_ACK_NOW then
               if seg =? NULL then mret true
               else sg ← gets seg; n ← seg_seqno seg; mret (wnd <? u32 (n - t_lastack t + sg_len sg))
             else mret false);
    if empty : bool then tcp_send_empty_ack pcb
    else
      b ← seg_bound;
      useg ← (if t_unacked t =? NULL then mret NULL else last_seg b (t_unacked t));
      output_loop b pcb seg useg wnd ;;
      t ← gett pcb;
      swhen (t_unsent t =? NULL) (updt pcb (set_t_unsent_oversize 0)) ;;
      updt pcb (del_flag TF_NAGLEMEMERR) ;;
      mret ERR_OK.

Definition tcp_rst (seqno ackno local_ip remote_ip local_port remote_port : Z) : NetM unit :=
  p ← on_mem (pbuf_alloc PBUF_IP TCP_HLEN PBUF_RAM);
  if p =? NULL then mret tt
  else
    b ← on_mem (getp p);
    nassert (TCP_HLEN <=? pb_len b) ;;
    let tcphdr := pb_payload b in
    on_mem (store_le (hdr_src tcphdr) 2 (lwip_htons local_port) ;;
            store_le (hdr_dest tcphdr) 2 (lwip_htons remote_port) ;;
            store_le (hdr_seqno tcphdr) 4 (lwip_htonl seqno) ;;
            store_le (hdr_ackno tcphdr) 4 (lwip_htonl ackno) ;;
            TCPH_HDRLEN_FLAGS_SET tcphdr (TCP_HLEN / 4) (TCP_RST |. TCP_ACK) ;;
            store_le (hdr_wnd tcphdr) 2 (lwip_htons TCP_WND) ;;
            store_le (hdr_chksum tcphdr) 2 0 ;;
            store_le (hdr_urgp tcphdr) 2 0 ;;
            tcp_chksum tcphdr p local_ip remote_ip) ;;
    ip_output p (Some local_ip) remote_ip TCP_TTL 0 IP_PROTO_TCP ;;
    on_mem (pbuf_free p) ;;
    mret tt.

(** ** Retransmission *)

Definition tcp_rexmit_rto (pcb : Z) : NetM unit :=
  t ← gett pcb;
  if t_unacked t =? NULL then mret tt
  else
    b ← seg_bound;
    seg ← last_seg b (t_unacked t);
    upds seg (set_sg_next (t_unsent t)) ;;
    updt pcb (fun t => set_t_rttest 0 (set_t_nrtx (u8 (t_nrtx t + 1))
                         (set_t_unacked NULL (set_t_unsent (t_unacked t) t)))) ;;
    tcp_output pcb ;;
    mret tt.

Definition tcp_rexmit (pcb : Z) : NetM unit :=
  t ← gett pcb;
  if t_unacked t =? NULL then mret tt
  else
    let seg := t_unacked t in
    sg ← gets seg;
    updt pcb (set_t_unacked (sg_next sg)) ;;
    n ← seg_seqno seg;
    b ← seg_bound;
    '(prev, cur) ← seg_place b NULL (t_unsent t) n;
    upds seg (set_sg_next cur) ;;
    (if prev =? NULL then updt pcb (set_t_unsent seg) else upds prev (set_sg_next seg)) ;;
    swhen (cur =? NULL) (updt pcb (set_t_unsent_oversize 0)) ;;
    updt pcb (fun t => set_t_rttest 0 (set_t_nrtx (u8 (t_nrtx t + 1)) t)).

Definition tcp_rexmit_fast (pcb : Z) : NetM unit :=
  t ← gett pcb;
  if (t_unacked t =? NULL) || has_flag t TF_INFR then mret tt
  else
    tcp_rexmit pcb ;;
    t ← gett pcb;
    let ssthresh := if t_snd_wnd t <? t_cwnd t then t_snd_wnd t / 2 else t_cwnd t / 2 in
    let ssthresh := if ssthresh <? 2 * t_mss t then u16 (2 * t_mss t) else ssthresh in
    updt pcb (fun t => add_flag TF_INFR (set_t_cwnd (u16 (ssthresh + 3 * t_mss t)) (set_t_ssthresh ssthresh t))).

Definition tcp_keepalive (pcb : Z) : NetM unit :=
  t ← gett pcb;
  p ← tcp_output_alloc_header pcb 0 0 (lwip_htonl (u32 (t_snd_nxt t - 1)));
  if p =? NULL then mret tt
  else
    b ← on_mem (getp p);
    on_mem (tcp_chksum (pb_payload b) p (t_local_ip t) (t_remote_ip t)) ;;
    ip_output p (Some (t_local_ip t)) (t_remote_ip t) (t_ttl t) 0 IP_PROTO_TCP ;;
    on_mem (pbuf_free p) ;;
    mret tt.

Definition tcp_zero_window_probe (pcb : Z) : NetM unit :=
  t ← gett pcb;
  let seg := if t_unacked t =? NULL then t_unsent t else t_unacked t in
  if seg =? NULL then mret tt
  else
    sg ← gets seg;
    f ← on_mem (TCPH_FLAGS (sg_tcphdr sg));
    let is_fin := truthy (f &. TCP_FIN) && (sg_len sg =? 0) in
    n ← on_mem (load_le (hdr_seqno (sg_tcphdr sg)) 4);
    p ← tcp_output_alloc_header pcb 0 (if is_fin then 0 else 1) n;
    if p =? NULL then mret tt
    else
      b ← on_mem (getp p);
      let tcphdr := pb_payload b in
      (if is_fin then on_mem (TCPH_FLAGS_SET tcphdr (TCP_ACK |. TCP_FIN))
       else
         q ← on_mem (getp (sg_p sg));
         on_mem (pbuf_copy_partial (sg_p sg) (tcphdr + TCP_HLEN) 1 (u16 (pb_tot_len q - sg_len sg))) ;;
         mret tt) ;;
      on_mem (tcp_chksum tcphdr p (t_local_ip t) (t_remote_ip t)) ;;
      ip_output p (Some (t_local_ip t)) (t_remote_ip t) (t_ttl t) 0 IP_PROTO_TCP ;;
      on_mem (pbuf_free p) ;;
      mret tt.
