(* ===== verification/Tcp.v ===== *)
(** * TCP connections: core/tcp.c

    Opening, closing and aborting connections, the lists of control blocks,
    ports, the window that is announced, and the timers.  The functions that the
    application registers are the parameter [tcp_app]; each is given the
    function pointer by which it was registered, and may do anything to the
    state, in particular call the functions of this file. *)

From S2P Require Import Prelude StateM LwipMem TcpData Chksum IpAddr Pbuf NetState NetTimers Etharp IpOut Icmp TcpBase TcpOut.

(** Function pointer, [callback_arg], control block, and the other arguments. *)
Class tcp_app := {
  app_accept : Z -> Z -> Z -> Z -> NetM Z;
  app_recv : Z -> Z -> Z -> Z -> Z -> NetM Z;
  app_sent : Z -> Z -> Z -> Z -> NetM Z;
  app_connected : Z -> Z -> Z -> Z -> NetM Z;
  app_poll : Z -> Z -> Z -> NetM Z;
  app_err : Z -> Z -> Z -> NetM unit;
}.

(** The addresses of [tcp_recv_null] and [tcp_accept_null]. *)
Definition TCP_RECV_NULL : Z := 1.
Definition TCP_ACCEPT_NULL : Z := 1.

Definition TCP_LOCAL_PORT_RANGE_START : Z := 49152.
Definition TCP_LOCAL_PORT_RANGE_END : Z := 65535.

Definition tcp_backoff : list Z := [1; 2; 3; 4; 5; 6; 7; 7; 7; 7; 7; 7; 7].
Definition tcp_persist_backoff : list Z := [3; 6; 12; 24; 48; 96; 120].

(** ** Freeing what a connection holds *)

Definition tcp_pcb_purge (pcb : Z) : NetM unit :=
  c ← getc pcb;
  if is_st c CLOSED || is_st c TIME_WAIT || is_st c LISTEN then mret tt
  else
    t ← gett pcb;
    swhen (negb (t_refused_data t =? NULL)) (
      on_mem (pbuf_free (t_refused_data t)) ;;
      updt pcb (set_t_refused_data NULL)) ;;
    tcp_segs_free (t_ooseq t) ;;
    updt pcb (set_t_ooseq NULL) ;;
    updt pcb (set_t_rtime (-1)) ;;
    tcp_segs_free (t_unsent t) ;;
    tcp_segs_free (t_unacked t) ;;
    updt pcb (fun t => set_t_unsent_oversize 0 (set_t_unacked NULL (set_t_unsent NULL t))).

Definition tcp_pcb_remove (l : pcb_list) (pcb : Z) : NetM unit :=
  TCP_RMV l pcb ;;
  tcp_pcb_purge pcb ;;
  c ← getc pcb;
  swhen (negb (is_st c TIME_WAIT) && negb (is_st c LISTEN) && has_flag c TF_ACK_DELAY) (
    updt pcb (add_flag TF_ACK_NOW) ;;
    tcp_output pcb ;; mret tt) ;;
  c ← getc pcb;
  swhen (negb (is_st c LISTEN)) (
    nassert (t_unsent c =? NULL) ;;
    nassert (t_unacked c =? NULL) ;;
    nassert (t_ooseq c =? NULL)) ;;
  updc pcb (set_t_state CLOSED).

Definition TCP_PCB_REMOVE_ACTIVE (pcb : Z) : NetM unit :=
  tcp_pcb_remove tcp_active_pcbs pcb ;; tcpu (set_g_active_pcbs_changed true).

(** ** Closing *)

(** [TIME_WAIT] from the list of the active ones. *)
Definition to_time_wait (pcb : Z) : NetM unit :=
  updt pcb (set_t_state TIME_WAIT) ;; TCP_REG tcp_tw_pcbs pcb.

Definition tcp_close_shutdown (pcb : Z) (rst_on_unacked_data : bool) : NetM Z :=
  c ← getc pcb;
  let data_lost := rst_on_unacked_data && (is_st c ESTABLISHED || is_st c CLOSE_WAIT) &&
                   (negb (t_refused_data c =? NULL) || negb (t_rcv_wnd c =? TCP_WND)) in
  if data_lost : bool then
    nassert (has_flag c TF_RXCLOSED) ;;
    tcp_rst (t_snd_nxt c) (t_rcv_nxt c) (t_local_ip c) (t_remote_ip c) (t_local_port c) (t_remote_port c) ;;
    tcp_pcb_purge pcb ;;
    TCP_RMV_ACTIVE pcb ;;
    t ← gett pcb;
    (if is_st t ESTABLISHED then to_time_wait pcb else freet pcb) ;;
    mret ERR_OK
  else
    match t_state c with
    | CLOSED =>
        swhen (negb (t_local_port c =? 0)) (TCP_RMV tcp_bound_pcbs pcb) ;;
        freet pcb ;; mret ERR_OK
    | LISTEN => tcp_pcb_remove tcp_listen_pcbs pcb ;; freet pcb ;; mret ERR_OK
    | SYN_SENT => TCP_PCB_REMOVE_ACTIVE pcb ;; freet pcb ;; mret ERR_OK
    | SYN_RCVD | ESTABLISHED | CLOSE_WAIT =>
        err ← tcp_send_fin pcb;
        if err =? ERR_OK then
          updt pcb (set_t_state (if is_st c CLOSE_WAIT then LAST_ACK else FIN_WAIT_1)) ;;
          tcp_output pcb ;;
          mret err
        else mret err
    | _ => mret ERR_OK
    end.

Definition tcp_close (pcb : Z) : NetM Z :=
  c ← getc pcb;
  swhen (negb (is_st c LISTEN)) (updt pcb (add_flag TF_RXCLOSED)) ;;
  tcp_close_shutdown pcb true.

Definition tcp_shutdown (pcb : Z) (shut_rx shut_tx : bool) : NetM Z :=
  c ← getc pcb;
  if is_st c LISTEN then mret ERR_CONN
  else
    swhen shut_rx (updt pcb (add_flag TF_RXCLOSED)) ;;
    if shut_rx && shut_tx then tcp_close_shutdown pcb true
    else
      swhen (shut_rx && negb (t_refused_data c =? NULL)) (
        on_mem (pbuf_free (t_refused_data c)) ;;
        updt pcb (set_t_refused_data NULL)) ;;
      if shut_tx then
        match t_state c with
        | SYN_RCVD | ESTABLISHED | CLOSE_WAIT => tcp_close_shutdown pcb shut_rx
        | _ => mret ERR_CONN
        end
      else mret ERR_OK.

(** ** Ports *)

(** Is there a control block that satisfies [f] in a list, in some lists. *)
Fixpoint list_exists (fuel : nat) (p : Z) (f : tcp_pcb -> bool) : NetM bool :=
  match fuel with
  | O => fun _ => None
  | S fuel =>
      if p =? NULL then mret false
      else c ← getc p; if f c then mret true else list_exists fuel (t_next c) f
  end.

Fixpoint lists_exist (ls : list pcb_list) (f : tcp_pcb -> bool) : NetM bool :=
  match ls with
  | [] => mret false
  | l :: ls =>
      p ← tcpg (pcbs l);
      n ← tpcb_bound;
      r ← list_exists n p f;
      if r : bool then mret true else lists_exist ls f
  end.

(** [n] ports were found in use. *)
Fixpoint tcp_port_loop (fuel : nat) (n : Z) : NetM Z :=
  match fuel with
  | O => fun _ => None
  | S fuel =>
      p ← tcpg g_port;
      let port := if p =? TCP_LOCAL_PORT_RANGE_END then TCP_LOCAL_PORT_RANGE_START else u16 (p + 1) in
      tcpu (set_g_port port) ;;
      used ← lists_exist tcp_pcb_lists (fun c => t_local_port c =? port);
      if used : bool then
        if TCP_LOCAL_PORT_RANGE_END - TCP_LOCAL_PORT_RANGE_START <? n + 1 then mret 0
        else tcp_port_loop fuel (n + 1)
      else mret port
  end.

Definition tcp_new_port : NetM Z := tcp_port_loop (Z.to_nat 16385) 0.

Definition bind_conflict (t : tcp_pcb) (ipaddr port : Z) (c : tcp_pcb) : bool :=
  (t_local_port c =? port) &&
  ((negb (has_opt t SOF_REUSEADDR) || negb (has_opt c SOF_REUSEADDR)) &&
   (ip_addr_isany (t_local_ip c) || ip_addr_isany ipaddr || (t_local_ip c =? ipaddr))).

Definition tcp_bind (pcb ipaddr port : Z) : NetM Z :=
  t ← getc pcb;
  nassert (is_st t CLOSED) ;;
  port ← (if port =? 0 then tcp_new_port else mret port);
  if port =? 0 then mret ERR_BUF
  else
    let lists := if has_opt t SOF_REUSEADDR then [tcp_listen_pcbs; tcp_bound_pcbs; tcp_active_pcbs] else tcp_pcb_lists in
    used ← lists_exist lists (bind_conflict t ipaddr port);
    if used : bool then mret ERR_USE
    else
      swhen (negb (ip_addr_isany ipaddr)) (updc pcb (set_t_local_ip ipaddr)) ;;
      updc pcb (set_t_local_port port) ;;
      TCP_REG tcp_bound_pcbs pcb ;;
      mret ERR_OK.

(** The structure [tcp_pcb_listen]: the fields behind [local_port] do not exist. *)
Definition listen_pcb (t : tcp_pcb) : tcp_pcb :=
  TcpPcb NULL (t_local_ip t) 0 (t_so_options t |. SOF_ACCEPTCONN) (t_tos t) (t_ttl t) (t_callback_arg t) TCP_ACCEPT_NULL
    LISTEN (t_prio t) (t_local_port t) 0 0 0 0 0 0
    0 0 0 0 0 0 0 0 0 0 0 0 0 0 0 0
    0 0 0 0 0 0 0 0 0 0 0 0 0 0
    0 0 0 0 0 0 0 0 0.

Definition tcp_listen_with_backlog (pcb : Z) : NetM Z :=
  t ← getc pcb;
  nassert (is_st t CLOSED) ;;
  first ← tcpg g_listen_pcbs;
  n ← tpcb_bound;
  taken ← (if has_opt t SOF_REUSEADDR then
             list_exists n first (fun c => (t_local_port c =? t_local_port t) && (t_local_ip c =? t_local_ip t))
           else mret false);
  if taken : bool then mret NULL
  else
    lpcb ← on_mem memp_malloc;
    if lpcb =? NULL then mret NULL
    else
      swhen (negb (t_local_port t =? 0)) (TCP_RMV tcp_bound_pcbs pcb) ;;
      freet pcb ;;
      putt lpcb (listen_pcb t) ;;
      TCP_REG tcp_listen_pcbs lpcb ;;
      mret lpcb.

(** ** The receive window *)

Definition tcp_update_rcv_ann_wnd (pcb : Z) : NetM Z :=
  t ← gett pcb;
  let new_right_edge := u32 (t_rcv_nxt t + t_rcv_wnd t) in
  if TCP_SEQ_GEQ new_right_edge (t_rcv_ann_right_edge t + Z.min (TCP_WND / 2) (t_mss t)) then
    updt pcb (set_t_rcv_ann_wnd (t_rcv_wnd t)) ;;
    mret (u32 (new_right_edge - t_rcv_ann_right_edge t))
  else if TCP_SEQ_GT (t_rcv_nxt t) (t_rcv_ann_right_edge t) then
    updt pcb (set_t_rcv_ann_wnd 0) ;; mret 0
  else
    let new_rcv_ann_wnd := u32 (t_rcv_ann_right_edge t - t_rcv_nxt t) in
    nassert (new_rcv_ann_wnd <=? 65535) ;;
    updt pcb (set_t_rcv_ann_wnd new_rcv_ann_wnd) ;; mret 0.

Definition tcp_recved (pcb len : Z) : NetM unit :=
  t ← gett pcb;
  nassert (len <=? 65535 - t_rcv_wnd t) ;;
  let w := u16 (t_rcv_wnd t + len) in
  updt pcb (set_t_rcv_wnd (if TCP_WND <? w then TCP_WND else w)) ;;
  r ← tcp_update_rcv_ann_wnd pcb;
  let wnd_inflation := i32 r in
  if TCP_WND_UPDATE_THRESHOLD <=? wnd_inflation then
    updt pcb tcp_ack_now ;; tcp_output pcb ;; mret tt
  else mret tt.

(** ** Opening *)

Definition tcp_connect (pcb ipaddr port connected : Z) : NetM Z :=
  t ← getc pcb;
  nassert (is_st t CLOSED) ;;
  updt pcb (fun t => set_t_remote_port port (set_t_remote_ip ipaddr t)) ;;
  netif ← (if ip_addr_isany (t_local_ip t) then ip_route ipaddr else mret NULL);
  if ip_addr_isany (t_local_ip t) && (netif =? NULL) then mret ERR_RTE
  else
    swhen (ip_addr_isany (t_local_ip t)) (n ← getif netif; updt pcb (set_t_local_ip (ni_ip_addr n))) ;;
    let old_local_port := t_local_port t in
    swhen (old_local_port =? 0) (p ← tcp_new_port; updt pcb (set_t_local_port p)) ;;
    t ← gett pcb;
    if t_local_port t =? 0 then mret ERR_BUF
    else
      used ← (if has_opt t SOF_REUSEADDR then
                lists_exist [tcp_active_pcbs; tcp_tw_pcbs] (fun c =>
                  (t_local_port c =? t_local_port t) && (t_remote_port c =? port) &&
                  (t_local_ip c =? t_local_ip t) && (t_remote_ip c =? ipaddr))
              else mret false);
      if used : bool then mret ERR_USE
      else
        iss ← tcp_next_iss;
        updt pcb (fun t =>
          set_t_snd_wnd TCP_WND (set_t_rcv_ann_right_edge 0 (set_t_rcv_ann_wnd TCP_WND (set_t_rcv_wnd TCP_WND
            (set_t_snd_lbb (u32 (iss - 1)) (set_t_lastack (u32 (iss - 1)) (set_t_snd_nxt iss (set_t_rcv_nxt 0 t)))))))) ;;
        mss ← tcp_eff_send_mss 536 ipaddr;
        updt pcb (fun t =>
          set_t_connected connected (set_t_ssthresh (u16 (mss * 10)) (set_t_cwnd 1 (set_t_mss mss t)))) ;;
        ret ← tcp_enqueue_flags pcb TCP_SYN;
        if ret =? ERR_OK then
          updt pcb (set_t_state SYN_SENT) ;;
          swhen (negb (old_local_port =? 0)) (TCP_RMV tcp_bound_pcbs pcb) ;;
          TCP_REG_ACTIVE pcb ;;
          tcp_output pcb ;;
          mret ret
        else mret ret.

Definition tcp_arg (pcb arg : Z) : NetM unit := updc pcb (set_t_callback_arg arg).
Definition tcp_recv (pcb recv : Z) : NetM unit := updt pcb (set_t_recv recv).
Definition tcp_sent (pcb sent : Z) : NetM unit := updt pcb (set_t_sent sent).
Definition tcp_err (pcb err : Z) : NetM unit := updt pcb (set_t_errf err).
Definition tcp_accept (pcb accept : Z) : NetM unit := updc pcb (set_t_accept accept).
Definition tcp_poll (pcb poll interval : Z) : NetM unit :=
  updt pcb (fun t => set_t_pollinterval interval (set_t_poll poll t)).
Definition tcp_setprio (pcb prio : Z) : NetM unit := updc pcb (set_t_prio prio).

Section App.
Context `{app : tcp_app}.

(** ** Calls of the application *)

Definition tcp_recv_null (pcb p err : Z) : NetM Z :=
  if negb (p =? NULL) then
    b ← on_mem (getp p);
    tcp_recved pcb (pb_tot_len b) ;;
    on_mem (pbuf_free p) ;;
    mret ERR_OK
  else if err =? ERR_OK then tcp_close pcb
  else mret ERR_OK.

(** [pcb->recv (...)] *)
Definition call_recv (recv arg pcb p err : Z) : NetM Z :=
  if recv =? TCP_RECV_NULL then tcp_recv_null pcb p err else app_recv recv arg pcb p err.

Definition TCP_EVENT_ACCEPT (pcb err : Z) : NetM Z :=
  t ← getc pcb;
  if t_accept t =? NULL then mret ERR_ARG
  else if t_accept t =? TCP_ACCEPT_NULL then mret ERR_ABRT
  else app_accept (t_accept t) (t_callback_arg t) pcb err.

Definition TCP_EVENT_SENT (pcb space : Z) : NetM Z :=
  t ← gett pcb;
  if t_sent t =? NULL then mret ERR_OK else app_sent (t_sent t) (t_callback_arg t) pcb space.

Definition TCP_EVENT_RECV (pcb p err : Z) : NetM Z :=
  t ← gett pcb;
  if t_recv t =? NULL then tcp_recv_null pcb p err else call_recv (t_recv t) (t_callback_arg t) pcb p err.

Definition TCP_EVENT_CLOSED (pcb : Z) : NetM Z :=
  t ← gett pcb;
  if t_recv t =? NULL then mret ERR_OK else call_recv (t_recv t) (t_callback_arg t) pcb NULL ERR_OK.

Definition TCP_EVENT_CONNECTED (pcb err : Z) : NetM Z :=
  t ← gett pcb;
  if t_connected t =? NULL then mret ERR_OK else app_connected (t_connected t) (t_callback_arg t) pcb err.

Definition TCP_EVENT_POLL (pcb : Z) : NetM Z :=
  t ← gett pcb;
  if t_poll t =? NULL then mret ERR_OK else app_poll (t_poll t) (t_callback_arg t) pcb.

Definition TCP_EVENT_ERR (errf arg err : Z) : NetM unit :=
  if errf =? NULL then mret tt else app_err errf arg err.

(** ** Aborting *)

Definition tcp_abandon (pcb : Z) (reset : bool) : NetM unit :=
  c ← getc pcb;
  nassert (negb (is_st c LISTEN)) ;;
  if is_st c TIME_WAIT then tcp_pcb_remove tcp_tw_pcbs pcb ;; freet pcb
  else
    TCP_PCB_REMOVE_ACTIVE pcb ;;
    t ← gett pcb;
    swhen (negb (t_unacked t =? NULL)) (tcp_segs_free (t_unacked t)) ;;
    swhen (negb (t_unsent t =? NULL)) (tcp_segs_free (t_unsent t)) ;;
    swhen (negb (t_ooseq t =? NULL)) (tcp_segs_free (t_ooseq t)) ;;
    swhen reset
      (tcp_rst (t_snd_nxt c) (t_rcv_nxt c) (t_local_ip t) (t_remote_ip t) (t_local_port t) (t_remote_port t)) ;;
    freet pcb ;;
    TCP_EVENT_ERR (t_errf c) (t_callback_arg c) ERR_ABRT.

Definition tcp_abort (pcb : Z) : NetM unit := tcp_abandon pcb true.

Definition tcp_process_refused_data (pcb : Z) : NetM Z :=
  t ← gett pcb;
  let refused_data := t_refused_data t in
  b ← on_mem (getp refused_data);
  updt pcb (set_t_refused_data NULL) ;;
  err ← TCP_EVENT_RECV pcb refused_data ERR_OK;
  if err =? ERR_OK then
    if truthy (pb_flags b &. PBUF_FLAG_TCP_FIN) then
      t ← gett pcb;
      swhen (negb (t_rcv_wnd t =? TCP_WND)) (updt pcb (set_t_rcv_wnd (u16 (t_rcv_wnd t + 1)))) ;;
      err ← TCP_EVENT_CLOSED pcb;
      mret (if err =? ERR_ABRT then ERR_ABRT else ERR_OK)
    else mret ERR_OK
  else if err =? ERR_ABRT then mret ERR_ABRT
  else updt pcb (set_t_refused_data refused_data) ;; mret ERR_OK.

(** ** Allocating *)

(** The block of the list that has been idle longest, at the lowest priority. *)
Fixpoint kill_prio_loop (fuel : nat) (pcb prio mprio inactivity inactive ticks : Z) : NetM Z :=
  match fuel with
  | O => fun _ => None
  | S fuel =>
      if pcb =? NULL then mret inactive
      else
        t ← gett pcb;
        if (t_prio t <=? prio) && (t_prio t <=? mprio) && (inactivity <=? u32 (ticks - t_tmr t))
        then kill_prio_loop fuel (t_next t) prio (t_prio t) (u32 (ticks - t_tmr t)) pcb ticks
        else kill_prio_loop fuel (t_next t) prio mprio inactivity inactive ticks
  end.

Definition tcp_kill_prio (prio : Z) : NetM unit :=
  g ← tcpg id;
  n ← tpcb_bound;
  inactive ← kill_prio_loop n (g_active_pcbs g) prio TCP_PRIO_MAX 0 NULL (g_ticks g);
  if inactive =? NULL then mret tt else tcp_abort inactive.

Fixpoint kill_timewait_loop (fuel : nat) (pcb inactivity inactive ticks : Z) : NetM Z :=
  match fuel with
  | O => fun _ => None
  | S fuel =>
      if pcb =? NULL then mret inactive
      else
        t ← gett pcb;
        if inactivity <=? u32 (ticks - t_tmr t)
        then kill_timewait_loop fuel (t_next t) (u32 (ticks - t_tmr t)) pcb ticks
        else kill_timewait_loop fuel (t_next t) inactivity inactive ticks
  end.

Definition tcp_kill_timewait : NetM unit :=
  g ← tcpg id;
  n ← tpcb_bound;
  inactive ← kill_timewait_loop n (g_tw_pcbs g) 0 NULL (g_ticks g);
  if inactive =? NULL then mret tt else tcp_abort inactive.

(** The block after [memset] and the assignments of [tcp_alloc]. *)
Definition new_pcb (prio iss ticks timer_ctr : Z) : tcp_pcb :=
  let zero := TcpPcb NULL 0 0 0 0 0 0 NULL CLOSED 0 0 0 0 0 0 0 0
    0 0 0 0 0 0 0 0 0 0 0 0 0 0 0 0
    0 0 0 0 0 0 0 0 0 0 NULL NULL NULL NULL
    NULL NULL NULL NULL NULL 0 0 0 0 in
  set_t_prio prio (set_t_snd_buf TCP_SND_BUF (set_t_rcv_wnd TCP_WND (set_t_rcv_ann_wnd TCP_WND (set_t_ttl TCP_TTL
    (set_t_mss 536 (set_t_rto (3000 / TCP_SLOW_INTERVAL) (set_t_sv (3000 / TCP_SLOW_INTERVAL) (set_t_rtime (-1) (set_t_cwnd 1
    (set_t_snd_wl2 iss (set_t_snd_nxt iss (set_t_lastack iss (set_t_snd_lbb iss (set_t_tmr ticks (set_t_last_timer timer_ctr
    (set_t_recv TCP_RECV_NULL (set_t_keep_idle TCP_KEEPIDLE_DEFAULT zero))))))))))))))))).

Definition tcp_alloc (prio : Z) : NetM Z :=
  pcb ← on_mem memp_malloc;
  pcb ← (if pcb =? NULL then
           tcp_kill_timewait ;;
           pcb ← on_mem memp_malloc;
           if pcb =? NULL then tcp_kill_prio prio ;; on_mem memp_malloc else mret pcb
         else mret pcb);
  if pcb =? NULL then mret NULL
  else
    iss ← tcp_next_iss;
    g ← tcpg id;
    putt pcb (new_pcb prio iss (g_ticks g) (g_timer_ctr g)) ;;
    mret pcb.

Definition tcp_new : NetM Z := tcp_alloc TCP_PRIO_NORMAL.

(** ** Timers *)

(** The counts of the retransmissions and of the persist timer; is the connection
    to be removed? *)
Definition slow_rexmit (pcb : Z) : NetM bool :=
  t ← gett pcb;
  if is_st t SYN_SENT && (t_nrtx t =? TCP_SYNMAXRTX) then mret true
  else if t_nrtx t =? TCP_MAXRTX then mret true
  else if 0 <? t_persist_backoff t then
    let cnt := u8 (t_persist_cnt t + 1) in
    limit ← slift (tcp_persist_backoff !! Z.to_nat (t_persist_backoff t - 1));
    if limit <=? cnt then
      updt pcb (fun t => set_t_persist_backoff
        (if t_persist_backoff t <? Z.of_nat (length tcp_persist_backoff) then t_persist_backoff t + 1 else t_persist_backoff t)
        (set_t_persist_cnt 0 t)) ;;
      tcp_zero_window_probe pcb ;;
      mret false
    else updt pcb (set_t_persist_cnt cnt) ;; mret false
  else
    swhen (0 <=? t_rtime t) (updt pcb (set_t_rtime (i16 (t_rtime t + 1)))) ;;
    t ← gett pcb;
    if negb (t_unacked t =? NULL) && (t_rto t <=? t_rtime t) then
      backoff ← (if is_st t SYN_SENT then mret 0 else slift (tcp_backoff !! Z.to_nat (t_nrtx t)));
      let rto := if is_st t SYN_SENT then t_rto t
                 else i16 (Z.shiftl (Z.shiftr (t_sa t) 3 + t_sv t) backoff) in
      let eff_wnd := Z.min (t_cwnd t) (t_snd_wnd t) in
      let ssthresh := Z.shiftr eff_wnd 1 in
      let ssthresh := if ssthresh <? Z.shiftl (t_mss t) 1 then u16 (Z.shiftl (t_mss t) 1) else ssthresh in
      updt pcb (fun t => set_t_cwnd (t_mss t) (set_t_ssthresh ssthresh (set_t_rtime 0 (set_t_rto rto t)))) ;;
      tcp_rexmit_rto pcb ;;
      mret false
    else mret false.

(** The other reasons to remove a connection, and whether it is then reset. *)
Definition slow_expired (pcb : Z) : NetM (bool * bool) :=
  t ← gett pcb;
  ticks ← tcpg g_ticks;
  let age := u32 (ticks - t_tmr t) in
  let fin_wait := is_st t FIN_WAIT_2 && has_flag t TF_RXCLOSED && (TCP_FIN_WAIT_TIMEOUT / TCP_SLOW_INTERVAL <? age) in
  dead ← (if has_opt t SOF_KEEPALIVE && (is_st t ESTABLISHED || is_st t CLOSE_WAIT) then
            if u32 (t_keep_idle t + TCP_MAXIDLE) / TCP_SLOW_INTERVAL <? age then mret true
            else
              swhen (u32 (t_keep_idle t + u32 (t_keep_cnt_sent t * TCP_KEEPINTVL_DEFAULT)) / TCP_SLOW_INTERVAL <? age) (
                tcp_keepalive pcb ;;
                updt pcb (fun t => set_t_keep_cnt_sent (u8 (t_keep_cnt_sent t + 1)) t)) ;;
              mret false
          else mret false);
  t ← gett pcb;
  swhen (negb (t_ooseq t =? NULL) && (u32 (t_rto t * TCP_OOSEQ_TIMEOUT) <=? u32 (ticks - t_tmr t))) (
    tcp_segs_free (t_ooseq t) ;;
    updt pcb (set_t_ooseq NULL)) ;;
  let syn_rcvd := is_st t SYN_RCVD && (TCP_SYN_RCVD_TIMEOUT / TCP_SLOW_INTERVAL <? age) in
  let last_ack := is_st t LAST_ACK && (2 * TCP_MSL / TCP_SLOW_INTERVAL <? age) in
  mret (fin_wait || dead || syn_rcvd || last_ack, dead).

(** Takes [pcb], which follows [prev] or is the first, out of a list. *)
Definition timer_unlink (l : pcb_list) (prev pcb : Z) : NetM unit :=
  first ← tcpg (pcbs l);
  t ← getc pcb;
  if negb (prev =? NULL) then
    nassert (negb (pcb =? first)) ;;
    updc prev (set_t_next (t_next t))
  else
    nassert (first =? pcb) ;;
    tcpu (set_pcbs l (t_next t)).

(** The list of active connections is walked again from its start when a function of
    the application changed it. *)
Fixpoint slow_active (fuel : nat) (prev pcb : Z) : NetM unit :=
  match fuel with
  | O => fun _ => None
  | S fuel =>
      if pcb =? NULL then mret tt
      else
        t ← getc pcb;
        nassert (negb (is_st t CLOSED) && negb (is_st t LISTEN) && negb (is_st t TIME_WAIT)) ;;
        ctr ← tcpg g_timer_ctr;
        if t_last_timer t =? ctr then slow_active fuel prev (t_next t)
        else
          updt pcb (set_t_last_timer ctr) ;;
          r1 ← slow_rexmit pcb;
          '(r2, pcb_reset) ← slow_expired pcb;
          if r1 || r2 then
            tcp_pcb_purge pcb ;;
            timer_unlink tcp_active_pcbs prev pcb ;;
            t ← gett pcb;
            swhen pcb_reset
              (tcp_rst (t_snd_nxt t) (t_rcv_nxt t) (t_local_ip t) (t_remote_ip t) (t_local_port t) (t_remote_port t)) ;;
            t ← gett pcb;
            freet pcb ;;
            tcpu (set_g_active_pcbs_changed false) ;;
            TCP_EVENT_ERR (t_errf t) (t_callback_arg t) ERR_ABRT ;;
            g ← tcpg id;
            if g_active_pcbs_changed g then slow_active fuel NULL (g_active_pcbs g)
            else slow_active fuel prev (t_next t)
          else
            t ← gett pcb;
            let polltmr := u8 (t_polltmr t + 1) in
            if t_pollinterval t <=? polltmr then
              updt pcb (set_t_polltmr 0) ;;
              tcpu (set_g_active_pcbs_changed false) ;;
              err ← TCP_EVENT_POLL pcb;
              g ← tcpg id;
              if g_active_pcbs_changed g then slow_active fuel NULL (g_active_pcbs g)
              else
                swhen (err =? ERR_OK) (tcp_output pcb ;; mret tt) ;;
                slow_active fuel pcb (t_next t)
            else
              updt pcb (set_t_polltmr polltmr) ;;
              slow_active fuel pcb (t_next t)
  end.

Fixpoint slow_tw (fuel : nat) (prev pcb : Z) : NetM unit :=
  match fuel with
  | O => fun _ => None
  | S fuel =>
      if pcb =? NULL then mret tt
      else
        t ← getc pcb;
        nassert (is_st t TIME_WAIT) ;;
        ticks ← tcpg g_ticks;
        if 2 * TCP_MSL / TCP_SLOW_INTERVAL <? u32 (ticks - t_tmr t) then
          tcp_pcb_purge pcb ;;
          timer_unlink tcp_tw_pcbs prev pcb ;;
          t ← getc pcb;
          freet pcb ;;
          slow_tw fuel prev (t_next t)
        else slow_tw fuel pcb (t_next t)
  end.

Definition tcp_slowtmr (fuel : nat) : NetM unit :=
  tcpu (fun g => set_g_timer_ctr (u8 (g_timer_ctr g + 1)) (set_g_ticks (u32 (g_ticks g + 1)) g)) ;;
  g ← tcpg id;
  slow_active fuel NULL (g_active_pcbs g) ;;
  g ← tcpg id;
  n ← tpcb_bound;
  slow_tw n NULL (g_tw_pcbs g).

Fixpoint fast_loop (fuel : nat) (pcb : Z) : NetM unit :=
  match fuel with
  | O => fun _ => None
  | S fuel =>
      if pcb =? NULL then mret tt
      else
        t ← gett pcb;
        ctr ← tcpg g_timer_ctr;
        if negb (t_last_timer t =? ctr) then
          updt pcb (set_t_last_timer ctr) ;;
          swhen (has_flag t TF_ACK_DELAY) (
            updt pcb tcp_ack_now ;;
            tcp_output pcb ;;
            updt pcb (del_flag (TF_ACK_DELAY |. TF_ACK_NOW))) ;;
          t ← gett pcb;
          if negb (t_refused_data t =? NULL) then
            tcpu (set_g_active_pcbs_changed false) ;;
            tcp_process_refused_data pcb ;;
            g ← tcpg id;
            if g_active_pcbs_changed g then fast_loop fuel (g_active_pcbs g)
            else fast_loop fuel (t_next t)
          else fast_loop fuel (t_next t)
        else fast_loop fuel pcb
  end.

Definition tcp_fasttmr (fuel : nat) : NetM unit :=
  tcpu (fun g => set_g_timer_ctr (u8 (g_timer_ctr g + 1)) g) ;;
  g ← tcpg id;
  fast_loop fuel (g_active_pcbs g).

Definition tcp_tmr (fuel : nat) : NetM unit :=
  tcp_fasttmr fuel ;;
  tcpu (fun g => set_g_timer (u8 (g_timer g + 1)) g) ;;
  timer ← tcpg g_timer;
  if truthy (timer &. 1) then tcp_slowtmr fuel else mret tt.
End App.
