(* ===== verification/TcpIn.v ===== *)
(** * TCP input: core/tcp_in.c

    [tcp_input] finds the connection of a segment, [tcp_process] is the state
    machine of RFC 793, [tcp_receive] handles acknowledgements and data,
    [tcp_parseopt] the options.  Segments that arrive out of order are kept in
    the list [ooseq], without the limits TCP_OOSEQ_MAX_BYTES and
    TCP_OOSEQ_MAX_PBUFS, which are not configured.  The globals of the file are
    fields of [tcp_globals]. *)

From S2P Require Import Prelude StateM LwipMem TcpData Chksum IpAddr Pbuf NetState NetTimers Etharp IpOut Icmp TcpBase TcpOut Tcp.

(** ** Options *)

Fixpoint opt_loop (fuel : nat) (pcb opts c max_c : Z) : NetM unit :=
  match fuel with
  | O => fun _ => None
  | S fuel =>
      if c <? max_c then
        opt ← on_mem (load_le (opts + c) 1);
        if opt =? 0 then mret tt
        else if opt =? 1 then opt_loop fuel pcb opts (u16 (c + 1)) max_c
        else if opt =? 2 then
          len ← on_mem (load_le (opts + c + 1) 1);
          if negb (len =? 4) || (max_c <? c + 4) then mret tt
          else
            hi ← on_mem (load_le (opts + c + 2) 1);
            lo ← on_mem (load_le (opts + c + 3) 1);
            let mss := Z.shiftl hi 8 |. lo in
            updt pcb (set_t_mss (if (TCP_MSS <? mss) || (mss =? 0) then TCP_MSS else mss)) ;;
            opt_loop fuel pcb opts (u16 (c + 4)) max_c
        else
          len ← on_mem (load_le (opts + c + 1) 1);
          if len =? 0 then mret tt else opt_loop fuel pcb opts (u16 (c + len)) max_c
      else mret tt
  end.

Definition tcp_parseopt (pcb : Z) : NetM unit :=
  tcphdr ← tcpg g_hdr;
  hdrlen ← on_mem (TCPH_HDRLEN tcphdr);
  if 5 <? hdrlen then
    let max_c := Z.shiftl (hdrlen - 5) 2 in
    opt_loop (S (Z.to_nat max_c)) pcb (tcphdr + TCP_HLEN) 0 max_c
  else mret tt.

(** ** Acknowledgements *)

(** Frees the segments at the head of a list that are acknowledged: [acknowledged] of the
    number behind the segment. *)
Definition ack_one (pcb next : Z) : NetM unit :=
  sg ← gets next;
  n ← on_mem (pbuf_clen (sg_p sg));
  t ← gett pcb;
  nassert (n <=? t_snd_queuelen t) ;;
  f ← on_mem (TCPH_FLAGS (sg_tcphdr sg));
  swhen (negb (t_acked t =? 0) && truthy (f &. TCP_FIN)) (updt pcb (set_t_acked (u16 (t_acked t - 1)))) ;;
  updt pcb (fun t => set_t_snd_queuelen (u16 (t_snd_queuelen t - n)) t) ;;
  tcp_seg_free next ;;
  t ← gett pcb;
  swhen (negb (t_snd_queuelen t =? 0)) (nassert (negb (t_unacked t =? NULL) || negb (t_unsent t =? NULL))).

Fixpoint unacked_loop (fuel : nat) (pcb : Z) : NetM unit :=
  match fuel with
  | O => fun _ => None
  | S fuel =>
      t ← gett pcb;
      if t_unacked t =? NULL then mret tt
      else
        n ← seg_seqno (t_unacked t);
        l ← TCP_TCPLEN (t_unacked t);
        ackno ← tcpg g_ackno;
        if TCP_SEQ_LEQ (n + l) ackno then
          sg ← gets (t_unacked t);
          updt pcb (set_t_unacked (sg_next sg)) ;;
          ack_one pcb (t_unacked t) ;;
          unacked_loop fuel pcb
        else mret tt
  end.

Fixpoint unsent_loop (fuel : nat) (pcb : Z) : NetM unit :=
  match fuel with
  | O => fun _ => None
  | S fuel =>
      t ← gett pcb;
      if t_unsent t =? NULL then mret tt
      else
        n ← seg_seqno (t_unsent t);
        l ← TCP_TCPLEN (t_unsent t);
        ackno ← tcpg g_ackno;
        if TCP_SEQ_BETWEEN ackno (n + l) (t_snd_nxt t) then
          sg ← gets (t_unsent t);
          updt pcb (set_t_unsent (sg_next sg)) ;;
          swhen (sg_next sg =? NULL) (updt pcb (set_t_unsent_oversize 0)) ;;
          ack_one pcb (t_unsent t) ;;
          unsent_loop fuel pcb
        else mret tt
  end.

(** The window of the sender. *)
Definition update_window (seqno ackno wnd : Z) (t : tcp_pcb) : tcp_pcb :=
  if TCP_SEQ_LT (t_snd_wl1 t) seqno ||
     ((t_snd_wl1 t =? seqno) && TCP_SEQ_LT (t_snd_wl2 t) ackno) ||
     ((t_snd_wl2 t =? ackno) && (t_snd_wnd t <? wnd))
  then
    let t := set_t_snd_wnd wnd t in
    let t := if t_snd_wnd_max t <? wnd then set_t_snd_wnd_max wnd t else t in
    let t := set_t_snd_wl2 ackno (set_t_snd_wl1 seqno t) in
    if wnd =? 0 then
      if t_persist_backoff t =? 0 then set_t_persist_backoff 1 (set_t_persist_cnt 0 t) else t
    else if 0 <? t_persist_backoff t then set_t_persist_backoff 0 t else t
  else t.

(** An acknowledgement that is not new. *)
Definition ack_old (pcb ackno tcplen right_wnd_edge : Z) : NetM unit :=
  updt pcb (set_t_acked 0) ;;
  t ← gett pcb;
  let dupack := (tcplen =? 0) && (u32 (t_snd_wl2 t + t_snd_wnd t) =? right_wnd_edge) && (0 <=? t_rtime t) &&
                (t_lastack t =? ackno) in
  if dupack : bool then
    let dupacks := if t_dupacks t <? u8 (t_dupacks t + 1) then t_dupacks t + 1 else t_dupacks t in
    updt pcb (set_t_dupacks dupacks) ;;
    if 3 <? dupacks then
      swhen (t_cwnd t <? u16 (t_cwnd t + t_mss t)) (updt pcb (set_t_cwnd (u16 (t_cwnd t + t_mss t))))
    else if dupacks =? 3 then tcp_rexmit_fast pcb
    else mret tt
  else updt pcb (set_t_dupacks 0).

(** The fields after a new acknowledgement. *)
Definition ack_fields (ackno : Z) (t : tcp_pcb) : option tcp_pcb :=
  let t := if has_flag t TF_INFR then set_t_cwnd (t_ssthresh t) (del_flag TF_INFR t) else t in
  let t := set_t_rto (i16 (Z.shiftr (t_sa t) 3 + t_sv t)) (set_t_nrtx 0 t) in
  let acked := u16 (ackno - t_lastack t) in
  let t := set_t_snd_buf (u16 (t_snd_buf t + acked)) (set_t_acked acked t) in
  let t := set_t_lastack ackno (set_t_dupacks 0 t) in
  if 4 <=? tcp_state_num (t_state t) then
    if t_cwnd t <? t_ssthresh t then
      Some (if t_cwnd t <? u16 (t_cwnd t + t_mss t) then set_t_cwnd (u16 (t_cwnd t + t_mss t)) t else t)
    else if t_cwnd t =? 0 then None
    else
      let new_cwnd := u16 (t_cwnd t + t_mss t * t_mss t / t_cwnd t) in
      Some (if t_cwnd t <? new_cwnd then set_t_cwnd new_cwnd t else t)
  else Some t.

Definition ack_new (pcb ackno : Z) : NetM unit :=
  t ← gett pcb;
  t ← slift (ack_fields ackno t);
  putt pcb t ;;
  b ← seg_bound;
  unacked_loop b pcb ;;
  updt pcb (fun t => set_t_polltmr 0 (set_t_rtime (if t_unacked t =? NULL then -1 else 0) t)).

(** The estimate of the round trip time. *)
Definition rtt_update (ticks : Z) (t : tcp_pcb) : tcp_pcb :=
  let m := i16 (u32 (ticks - t_rttest t)) in
  let m := i16 (m - Z.shiftr (t_sa t) 3) in
  let sa := i16 (t_sa t + m) in
  let m := if m <? 0 then i16 (- m) else m in
  let m := i16 (m - Z.shiftr (t_sv t) 2) in
  let sv := i16 (t_sv t + m) in
  set_t_rttest 0 (set_t_rto (i16 (Z.shiftr sa 3 + sv)) (set_t_sv sv (set_t_sa sa t))).

Definition receive_ack (pcb : Z) : NetM unit :=
  g ← tcpg id;
  let seqno := g_seqno g in
  let ackno := g_ackno g in
  wnd ← on_mem (load_le (hdr_wnd (g_hdr g)) 2);
  t ← gett pcb;
  let right_wnd_edge := u32 (t_snd_wnd t + t_snd_wl2 t) in
  updt pcb (update_window seqno ackno wnd) ;;
  (if TCP_SEQ_LEQ ackno (t_lastack t) then ack_old pcb ackno (g_tcplen g) right_wnd_edge
   else if TCP_SEQ_BETWEEN ackno (t_lastack t + 1) (t_snd_nxt t) then ack_new pcb ackno
   else updt pcb (set_t_acked 0)) ;;
  b ← seg_bound;
  unsent_loop b pcb ;;
  t ← gett pcb;
  ticks ← tcpg g_ticks;
  swhen (negb (t_rttest t =? 0) && TCP_SEQ_LT (t_rtseq t) ackno) (updt pcb (rtt_update ticks)).

(** ** Data in order *)

Definition inseg : NetM tcp_seg := tcpg g_inseg.
Definition upd_inseg (f : tcp_seg -> tcp_seg) : NetM unit := tcpu (fun g => set_g_inseg (f (g_inseg g)) g).

(** The loop that skips [off] bytes of a chain of buffers. *)
Fixpoint trim_head_loop (fuel : nat) (p off new_tot_len : Z) : NM (Z * Z) :=
  match fuel with
  | O => fun _ => None
  | S fuel =>
      b ← getp p;
      if pb_len b <? off then
        updp p (fun b => set_pb_len 0 (set_pb_tot_len new_tot_len b)) ;;
        trim_head_loop fuel (pb_next b) (off - pb_len b) new_tot_len
      else mret (p, off)
  end.

(** A segment that starts before [rcv_nxt]: the bytes in front are cut off. *)
Definition trim_head (rcv_nxt : Z) : NetM unit :=
  g ← tcpg id;
  let off := i32 (u32 (rcv_nxt - g_seqno g)) in
  let p := sg_p (g_inseg g) in
  nassert (negb (p =? NULL)) ;;
  nassert (off <? 32767) ;;
  b ← on_mem (getp p);
  r ← (if pb_len b <? off then
         nassert (off <=? pb_tot_len b) ;;
         on_mem (n ← chain_bound;
                 '(p, off) ← trim_head_loop n p off (u16 (pb_tot_len b - off));
                 pbuf_header p (- off))
       else on_mem (pbuf_header p (- off)));
  nassert (r =? 0) ;;
  upd_inseg (fun s => set_sg_len (u16 (sg_len s - u16 (rcv_nxt - g_seqno g))) s) ;;
  on_mem (store_le (hdr_seqno (sg_tcphdr (g_inseg g))) 4 rcv_nxt) ;;
  tcpu (set_g_seqno rcv_nxt).

Definition in_tcplen : NetM Z := s ← inseg; tcplen_of s.

(** [inseg] is cut to [len] bytes, its FIN included. *)
Definition trim_tail (len : Z) : NetM unit :=
  s ← inseg;
  f ← on_mem (TCPH_FLAGS (sg_tcphdr s));
  let len := if truthy (f &. TCP_SYN) then u16 (len - 1) else len in
  upd_inseg (set_sg_len len) ;;
  on_mem (pbuf_realloc (sg_p s) len) ;;
  l ← in_tcplen;
  tcpu (set_g_tcplen (u16 l)).

(** The segment does not fit into the window. *)
Definition trim_window (pcb : Z) : NetM unit :=
  t ← gett pcb;
  s ← inseg;
  f ← on_mem (TCPH_FLAGS (sg_tcphdr s));
  swhen (truthy (f &. TCP_FIN)) (on_mem (TCPH_FLAGS_SET (sg_tcphdr s) (f &~ TCP_FIN))) ;;
  trim_tail (t_rcv_wnd t) ;;
  g ← tcpg id;
  nassert (u32 (g_seqno g + g_tcplen g) =? u32 (t_rcv_nxt t + t_rcv_wnd t)).

(** The queued segments that the new one covers are freed: the first that is left. *)
Fixpoint ooseq_covered (fuel : nat) (next : Z) : NetM Z :=
  match fuel with
  | O => fun _ => None
  | S fuel =>
      if next =? NULL then mret NULL
      else
        sg ← gets next;
        n ← rseg_seqno next;
        g ← tcpg id;
        if TCP_SEQ_GEQ (g_seqno g + g_tcplen g) (n + sg_len sg) then
          f ← on_mem (TCPH_FLAGS (sg_tcphdr sg));
          fi ← on_mem (TCPH_FLAGS (sg_tcphdr (g_inseg g)));
          swhen (truthy (f &. TCP_FIN) && negb (truthy (fi &. TCP_SYN))) (
            on_mem (TCPH_SET_FLAG (sg_tcphdr (g_inseg g)) TCP_FIN) ;;
            l ← in_tcplen;
            tcpu (set_g_tcplen (u16 l))) ;;
          tcp_seg_free next ;;
          ooseq_covered fuel (sg_next sg)
        else mret next
  end.

Fixpoint ooseq_clear (fuel : nat) (pcb : Z) : NetM unit :=
  match fuel with
  | O => fun _ => None
  | S fuel =>
      t ← gett pcb;
      if t_ooseq t =? NULL then mret tt
      else
        sg ← gets (t_ooseq t);
        updt pcb (set_t_ooseq (sg_next sg)) ;;
        tcp_seg_free (t_ooseq t) ;;
        ooseq_clear fuel pcb
  end.

(** The new segment and the queued ones. *)
Definition ooseq_merge (pcb : Z) : NetM unit :=
  t ← gett pcb;
  s ← inseg;
  f ← on_mem (TCPH_FLAGS (sg_tcphdr s));
  b ← seg_bound;
  if truthy (f &. TCP_FIN) then ooseq_clear b pcb
  else
    next ← ooseq_covered b (t_ooseq t);
    g ← tcpg id;
    swhen (negb (next =? NULL)) (
      n ← rseg_seqno next;
      swhen (TCP_SEQ_GT (g_seqno g + g_tcplen g) n) (
        trim_tail (u16 (n - g_seqno g)) ;;
        g ← tcpg id;
        nassert (u32 (g_seqno g + g_tcplen g) =? n))) ;;
    updt pcb (set_t_ooseq next).

(** The queued segments that have become the next ones are delivered. *)
Fixpoint ooseq_deliver (fuel : nat) (pcb : Z) : NetM unit :=
  match fuel with
  | O => fun _ => None
  | S fuel =>
      t ← gett pcb;
      if t_ooseq t =? NULL then mret tt
      else
        let cseg := t_ooseq t in
        n ← rseg_seqno cseg;
        if n =? t_rcv_nxt t then
          sg ← gets cseg;
          tcpu (set_g_seqno n) ;;
          l ← TCP_TCPLEN cseg;
          nassert (l <=? t_rcv_wnd t) ;;
          updt pcb (fun t => set_t_rcv_wnd (u16 (t_rcv_wnd t - l)) (set_t_rcv_nxt (u32 (t_rcv_nxt t + l)) t)) ;;
          tcp_update_rcv_ann_wnd pcb ;;
          b ← on_mem (getp (sg_p sg));
          swhen (0 <? pb_tot_len b) (
            recv_data ← tcpg g_recv_data;
            (if recv_data =? NULL then tcpu (set_g_recv_data (sg_p sg))
             else on_mem (pbuf_cat recv_data (sg_p sg))) ;;
            upds cseg (set_sg_p NULL)) ;;
          f ← on_mem (TCPH_FLAGS (sg_tcphdr sg));
          swhen (truthy (f &. TCP_FIN)) (
            tcpu (fun g => set_g_recv_flags (g_recv_flags g |. TF_GOT_FIN) g) ;;
            t ← gett pcb;
            swhen (is_st t ESTABLISHED) (updt pcb (set_t_state CLOSE_WAIT))) ;;
          updt pcb (set_t_ooseq (sg_next sg)) ;;
          tcp_seg_free cseg ;;
          ooseq_deliver fuel pcb
        else mret tt
  end.

(** The segment starts at [rcv_nxt]. *)
Definition receive_next (pcb : Z) : NetM unit :=
  l ← in_tcplen;
  tcpu (set_g_tcplen (u16 l)) ;;
  t ← gett pcb;
  g ← tcpg id;
  swhen (t_rcv_wnd t <? g_tcplen g) (trim_window pcb) ;;
  swhen (negb (t_ooseq t =? NULL)) (ooseq_merge pcb) ;;
  g ← tcpg id;
  nassert (g_tcplen g <=? t_rcv_wnd t) ;;
  updt pcb (fun t => set_t_rcv_wnd (u16 (t_rcv_wnd t - g_tcplen g)) (set_t_rcv_nxt (u32 (g_seqno g + g_tcplen g)) t)) ;;
  tcp_update_rcv_ann_wnd pcb ;;
  s ← inseg;
  b ← on_mem (getp (sg_p s));
  swhen (0 <? pb_tot_len b) (
    tcpu (set_g_recv_data (sg_p s)) ;;
    upd_inseg (set_sg_p NULL)) ;;
  f ← on_mem (TCPH_FLAGS (sg_tcphdr s));
  swhen (truthy (f &. TCP_FIN)) (tcpu (fun g => set_g_recv_flags (g_recv_flags g |. TF_GOT_FIN) g)) ;;
  n ← seg_bound;
  ooseq_deliver n pcb ;;
  updt pcb tcp_ack.

(** ** Data out of order *)

(** Frees the segments from [next] that [cseg] covers; the first that is left. *)
Fixpoint oos_covered (fuel : nat) (cseg next : Z) : NetM Z :=
  match fuel with
  | O => fun _ => None
  | S fuel =>
      if next =? NULL then mret NULL
      else
        c ← gets cseg;
        sg ← gets next;
        n ← rseg_seqno next;
        seqno ← tcpg g_seqno;
        if TCP_SEQ_GEQ (seqno + sg_len c) (n + sg_len sg) then
          f ← on_mem (TCPH_FLAGS (sg_tcphdr sg));
          swhen (truthy (f &. TCP_FIN)) (on_mem (TCPH_SET_FLAG (sg_tcphdr c) TCP_FIN)) ;;
          tcp_seg_free next ;;
          oos_covered fuel cseg (sg_next sg)
        else mret next
  end.

Definition tcp_oos_insert_segment (cseg next : Z) : NetM unit :=
  c ← gets cseg;
  f ← on_mem (TCPH_FLAGS (sg_tcphdr c));
  next ←
    (if truthy (f &. TCP_FIN) then tcp_segs_free next ;; mret NULL
     else
       b ← seg_bound;
       next ← oos_covered b cseg next;
       swhen (negb (next =? NULL)) (
         n ← rseg_seqno next;
         seqno ← tcpg g_seqno;
         c ← gets cseg;
         swhen (TCP_SEQ_GT (seqno + sg_len c) n) (
           upds cseg (set_sg_len (u16 (n - seqno))) ;;
           on_mem (pbuf_realloc (sg_p c) (u16 (n - seqno))))) ;;
       mret next);
  upds cseg (set_sg_next next).

(** The segment [s] is cut at the start of the new one. *)
Definition oos_cut (s : Z) : NetM unit :=
  sg ← gets s;
  n ← rseg_seqno s;
  seqno ← tcpg g_seqno;
  swhen (TCP_SEQ_GT (n + sg_len sg) seqno) (
    upds s (set_sg_len (u16 (seqno - n))) ;;
    on_mem (pbuf_realloc (sg_p sg) (u16 (seqno - n)))).

(** A new last segment behind [next], cut to the window. *)
Definition oos_append (pcb next : Z) : NetM unit :=
  s ← inseg;
  c ← tcp_seg_copy s;
  upds next (set_sg_next c) ;;
  if c =? NULL then mret tt
  else
    oos_cut next ;;
    g ← tcpg id;
    t ← gett pcb;
    swhen (u32 (t_rcv_nxt t + t_rcv_wnd t) <? u32 (g_tcplen g + g_seqno g)) (
      f ← on_mem (TCPH_FLAGS (sg_tcphdr s));
      swhen (truthy (f &. TCP_FIN)) (on_mem (TCPH_FLAGS_SET (sg_tcphdr s) (f &~ TCP_FIN))) ;;
      let len := u16 (t_rcv_nxt t + t_rcv_wnd t - g_seqno g) in
      upds c (set_sg_len len) ;;
      on_mem (pbuf_realloc (sg_p s) len) ;;
      l ← TCP_TCPLEN c;
      tcpu (set_g_tcplen (u16 l)) ;;
      nassert (u32 (g_seqno g + u16 l) =? u32 (t_rcv_nxt t + t_rcv_wnd t))).

(** [prev] is the segment in front of [next], or null. *)
Fixpoint oos_loop (fuel : nat) (pcb prev next : Z) : NetM unit :=
  match fuel with
  | O => fun _ => None
  | S fuel =>
      if next =? NULL then mret tt
      else
        s ← inseg;
        seqno ← tcpg g_seqno;
        sg ← gets next;
        n ← rseg_seqno next;
        if seqno =? n then
          if sg_len sg <? sg_len s then
            cseg ← tcp_seg_copy s;
            if cseg =? NULL then mret tt
            else
              (if prev =? NULL then updt pcb (set_t_ooseq cseg) else upds prev (set_sg_next cseg)) ;;
              tcp_oos_insert_segment cseg next
          else mret tt
        else
          before ← (if prev =? NULL then mret (TCP_SEQ_LT seqno n)
                    else m ← rseg_seqno prev; mret (TCP_SEQ_BETWEEN seqno (m + 1) (n - 1)));
          if before : bool then
            cseg ← tcp_seg_copy s;
            if cseg =? NULL then mret tt
            else
              (if prev =? NULL then updt pcb (set_t_ooseq cseg)
               else oos_cut prev ;; upds prev (set_sg_next cseg)) ;;
              tcp_oos_insert_segment cseg next
          else if (sg_next sg =? NULL) && TCP_SEQ_GT seqno n then
            f ← on_mem (TCPH_FLAGS (sg_tcphdr sg));
            if truthy (f &. TCP_FIN) then mret tt else oos_append pcb next
          else oos_loop fuel pcb next (sg_next sg)
  end.

Definition receive_later (pcb : Z) : NetM unit :=
  tcp_send_empty_ack pcb ;;
  t ← gett pcb;
  if t_ooseq t =? NULL then s ← inseg; c ← tcp_seg_copy s; updt pcb (set_t_ooseq c)
  else n ← seg_bound; oos_loop n pcb NULL (t_ooseq t).

(** ** A segment of a connection *)

Definition receive_data (pcb : Z) : NetM unit :=
  g ← tcpg id;
  t ← gett pcb;
  (if TCP_SEQ_BETWEEN (t_rcv_nxt t) (g_seqno g + 1) (g_seqno g + g_tcplen g - 1) then trim_head (t_rcv_nxt t)
   else swhen (TCP_SEQ_LT (g_seqno g) (t_rcv_nxt t)) (updt pcb tcp_ack_now)) ;;
  seqno ← tcpg g_seqno;
  if TCP_SEQ_BETWEEN seqno (t_rcv_nxt t) (t_rcv_nxt t + t_rcv_wnd t - 1) then
    if t_rcv_nxt t =? seqno then receive_next pcb else receive_later pcb
  else tcp_send_empty_ack pcb ;; mret tt.

Definition tcp_receive (pcb : Z) : NetM unit :=
  t ← gett pcb;
  nassert (4 <=? tcp_state_num (t_state t)) ;;
  g ← tcpg id;
  swhen (truthy (g_in_flags g &. TCP_ACK)) (receive_ack pcb) ;;
  t ← gett pcb;
  if (0 <? g_tcplen g) && (tcp_state_num (t_state t) <? 7) then receive_data pcb
  else
    swhen (negb (TCP_SEQ_BETWEEN (g_seqno g) (t_rcv_nxt t) (t_rcv_nxt t + t_rcv_wnd t - 1)))
      (updt pcb tcp_ack_now).

Section App.
Context `{app : tcp_app}.

(** The answer to a segment that does not belong here. *)
Definition rst_answer : NetM unit :=
  g ← tcpg id;
  i ← sget n_ip;
  dest ← on_mem (load_le (hdr_dest (g_hdr g)) 2);
  src ← on_mem (load_le (hdr_src (g_hdr g)) 2);
  tcp_rst (g_ackno g) (u32 (g_seqno g + g_tcplen g)) (current_iphdr_dest i) (current_iphdr_src i) dest src.

(** The answer to our SYN. *)
Definition syn_sent_ack (pcb : Z) : NetM Z :=
  g ← tcpg id;
  wnd ← on_mem (load_le (hdr_wnd (g_hdr g)) 2);
  updt pcb (fun t =>
    set_t_state ESTABLISHED (set_t_snd_wl1 (u32 (g_seqno g - 1)) (set_t_snd_wnd_max wnd (set_t_snd_wnd wnd
      (set_t_lastack (g_ackno g) (set_t_rcv_ann_right_edge (u32 (g_seqno g + 1)) (set_t_rcv_nxt (u32 (g_seqno g + 1))
        (set_t_snd_buf (u16 (t_snd_buf t + 1)) t)))))))) ;;
  t ← gett pcb;
  mss ← tcp_eff_send_mss (t_mss t) (t_remote_ip t);
  updt pcb (fun t => set_t_cwnd (if t_cwnd t =? 1 then u16 (mss * 2) else mss) (set_t_ssthresh (u16 (mss * 10)) (set_t_mss mss t))) ;;
  t ← gett pcb;
  nassert (0 <? t_snd_queuelen t) ;;
  rseg ← gets (t_unacked t);
  updt pcb (fun t => set_t_unacked (sg_next rseg) (set_t_snd_queuelen (u16 (t_snd_queuelen t - 1)) t)) ;;
  tcp_seg_free (t_unacked t) ;;
  updt pcb (fun t => if sg_next rseg =? NULL then set_t_rtime (-1) t else set_t_nrtx 0 (set_t_rtime 0 t)) ;;
  err ← TCP_EVENT_CONNECTED pcb ERR_OK;
  if err =? ERR_ABRT then mret ERR_ABRT
  else updt pcb tcp_ack_now ;; mret ERR_OK.

(** The acknowledgement of our SYN, ACK. *)
Definition syn_rcvd_ack (pcb : Z) : NetM Z :=
  updt pcb (set_t_state ESTABLISHED) ;;
  t ← gett pcb;
  nassert (negb (t_accept t =? NULL)) ;;
  err ← TCP_EVENT_ACCEPT pcb ERR_OK;
  if negb (err =? ERR_OK) then
    swhen (negb (err =? ERR_ABRT)) (tcp_abort pcb) ;;
    mret ERR_ABRT
  else
    t ← gett pcb;
    let old_cwnd := t_cwnd t in
    tcp_receive pcb ;;
    updt pcb (fun t => set_t_cwnd (if old_cwnd =? 1 then u16 (t_mss t * 2) else t_mss t)
                         (if t_acked t =? 0 then t else set_t_acked (u16 (t_acked t - 1)) t)) ;;
    g ← tcpg id;
    swhen (truthy (g_recv_flags g &. TF_GOT_FIN)) (updt pcb (fun t => set_t_state CLOSE_WAIT (tcp_ack_now t))) ;;
    mret ERR_OK.

(** Both sides have closed. *)
Definition enter_time_wait (pcb : Z) : NetM unit :=
  tcp_pcb_purge pcb ;;
  TCP_RMV_ACTIVE pcb ;;
  to_time_wait pcb.

Definition tcp_process (pcb : Z) : NetM Z :=
  g ← tcpg id;
  let flags := g_in_flags g in
  t ← gett pcb;
  if truthy (flags &. TCP_RST) then
    let acceptable := if is_st t SYN_SENT then g_ackno g =? t_snd_nxt t
                      else TCP_SEQ_BETWEEN (g_seqno g) (t_rcv_nxt t) (t_rcv_nxt t + t_rcv_wnd t) in
    if acceptable : bool then
      nassert (negb (is_st t CLOSED)) ;;
      tcpu (fun g => set_g_recv_flags (g_recv_flags g |. TF_RESET) g) ;;
      updt pcb (del_flag TF_ACK_DELAY) ;;
      mret ERR_RST
    else mret ERR_OK
  else if truthy (flags &. TCP_SYN) && negb (is_st t SYN_SENT) && negb (is_st t SYN_RCVD) then
    updt pcb tcp_ack_now ;; mret ERR_OK
  else
    updt pcb (fun t => set_t_keep_cnt_sent 0 (if has_flag t TF_RXCLOSED then t else set_t_tmr (g_ticks g) t)) ;;
    tcp_parseopt pcb ;;
    let got_fin := tcpg (fun g => truthy (g_recv_flags g &. TF_GOT_FIN)) in
    let acks_all := t ← gett pcb; mret (truthy (flags &. TCP_ACK) && (g_ackno g =? t_snd_nxt t)) in
    match t_state t with
    | SYN_SENT =>
        answer ← (if truthy (flags &. TCP_ACK) && truthy (flags &. TCP_SYN)
                  then n ← seg_seqno (t_unacked t); mret (g_ackno g =? u32 (n + 1))
                  else mret false);
        if answer : bool then syn_sent_ack pcb
        else swhen (truthy (flags &. TCP_ACK)) rst_answer ;; mret ERR_OK
    | SYN_RCVD =>
        if truthy (flags &. TCP_ACK) then
          if TCP_SEQ_BETWEEN (g_ackno g) (t_lastack t + 1) (t_snd_nxt t) then syn_rcvd_ack pcb
          else rst_answer ;; mret ERR_OK
        else
          swhen (truthy (flags &. TCP_SYN) && (g_seqno g =? u32 (t_rcv_nxt t - 1))) (tcp_rexmit pcb) ;;
          mret ERR_OK
    | CLOSE_WAIT | ESTABLISHED =>
        tcp_receive pcb ;;
        fin ← got_fin;
        swhen fin (updt pcb (fun t => set_t_state CLOSE_WAIT (tcp_ack_now t))) ;;
        mret ERR_OK
    | FIN_WAIT_1 =>
        tcp_receive pcb ;;
        fin ← got_fin;
        acked ← acks_all;
        (if fin : bool then
           updt pcb tcp_ack_now ;;
           if acked : bool then enter_time_wait pcb else updt pcb (set_t_state CLOSING)
         else swhen acked (updt pcb (set_t_state FIN_WAIT_2))) ;;
        mret ERR_OK
    | FIN_WAIT_2 =>
        tcp_receive pcb ;;
        fin ← got_fin;
        swhen fin (updt pcb tcp_ack_now ;; enter_time_wait pcb) ;;
        mret ERR_OK
    | CLOSING =>
        tcp_receive pcb ;;
        acked ← acks_all;
        swhen acked (enter_time_wait pcb) ;;
        mret ERR_OK
    | LAST_ACK =>
        tcp_receive pcb ;;
        acked ← acks_all;
        swhen acked (tcpu (fun g => set_g_recv_flags (g_recv_flags g |. TF_CLOSED) g)) ;;
        mret ERR_OK
    | _ => mret ERR_OK
    end.

(** ** Segments to listening and closed connections *)

Definition tcp_listen_input (pcb : Z) : NetM Z :=
  g ← tcpg id;
  let flags := g_in_flags g in
  if truthy (flags &. TCP_RST) then mret ERR_OK
  else if truthy (flags &. TCP_ACK) then rst_answer ;; mret ERR_OK
  else if truthy (flags &. TCP_SYN) then
    l ← getc pcb;
    npcb ← tcp_alloc (t_prio l);
    if npcb =? NULL then mret ERR_MEM
    else
      l ← getc pcb;
      i ← sget n_ip;
      src ← on_mem (load_le (hdr_src (g_hdr g)) 2);
      wnd ← on_mem (load_le (hdr_wnd (g_hdr g)) 2);
      let rcv_nxt := u32 (g_seqno g + 1) in
      updt npcb (fun t =>
        set_t_so_options (t_so_options l &. SOF_INHERITED) (set_t_accept (t_accept l) (set_t_callback_arg (t_callback_arg l)
        (set_t_snd_wl1 (u32 (g_seqno g - 1)) (set_t_ssthresh wnd (set_t_snd_wnd_max wnd (set_t_snd_wnd wnd
        (set_t_rcv_ann_right_edge rcv_nxt (set_t_rcv_nxt rcv_nxt (set_t_state SYN_RCVD (set_t_remote_port src
        (set_t_remote_ip (current_iphdr_src i) (set_t_local_port (t_local_port l) (set_t_local_ip (current_iphdr_dest i) t)))))))))))))) ;;
      TCP_REG_ACTIVE npcb ;;
      tcp_parseopt npcb ;;
      t ← gett npcb;
      mss ← tcp_eff_send_mss (t_mss t) (t_remote_ip t);
      updt npcb (set_t_mss mss) ;;
      rc ← tcp_enqueue_flags npcb (TCP_SYN |. TCP_ACK);
      if negb (rc =? ERR_OK) then tcp_abandon npcb false ;; mret rc
      else tcp_output npcb
  else mret ERR_OK.

Definition tcp_timewait_input (pcb : Z) : NetM Z :=
  g ← tcpg id;
  let flags := g_in_flags g in
  if truthy (flags &. TCP_RST) then mret ERR_OK
  else
    t ← gett pcb;
    if truthy (flags &. TCP_SYN) && TCP_SEQ_BETWEEN (g_seqno g) (t_rcv_nxt t) (t_rcv_nxt t + t_rcv_wnd t)
    then rst_answer ;; mret ERR_OK
    else
      swhen (negb (truthy (flags &. TCP_SYN)) && truthy (flags &. TCP_FIN)) (updt pcb (set_t_tmr (g_ticks g))) ;;
      if 0 <? g_tcplen g then updt pcb (add_flag TF_ACK_NOW) ;; tcp_output pcb
      else mret ERR_OK.

(** ** Finding the connection *)

(** The four addresses of a segment. *)
Record tcp_key := TcpKey { k_src : Z; k_sport : Z; k_dest : Z; k_dport : Z }.

Definition key_match (k : tcp_key) (t : tcp_pcb) : bool :=
  (t_remote_port t =? k_sport k) && (t_local_port t =? k_dport k) &&
  (t_remote_ip t =? k_src k) && (t_local_ip t =? k_dest k).

(** The connection is moved to the front of the list. *)
Fixpoint find_active (fuel : nat) (k : tcp_key) (prev pcb : Z) : NetM Z :=
  match fuel with
  | O => fun _ => None
  | S fuel =>
      if pcb =? NULL then mret NULL
      else
        t ← getc pcb;
        nassert (negb (is_st t CLOSED) && negb (is_st t TIME_WAIT) && negb (is_st t LISTEN)) ;;
        if key_match k t then
          nassert (negb (t_next t =? pcb)) ;;
          swhen (negb (prev =? NULL)) (
            updc prev (set_t_next (t_next t)) ;;
            first ← tcpg g_active_pcbs;
            updc pcb (set_t_next first) ;;
            tcpu (set_g_active_pcbs pcb)) ;;
          t ← getc pcb;
          nassert (negb (t_next t =? pcb)) ;;
          mret pcb
        else find_active fuel k pcb (t_next t)
  end.

Fixpoint find_tw (fuel : nat) (k : tcp_key) (pcb : Z) : NetM Z :=
  match fuel with
  | O => fun _ => None
  | S fuel =>
      if pcb =? NULL then mret NULL
      else
        t ← getc pcb;
        nassert (is_st t TIME_WAIT) ;;
        if key_match k t then mret pcb else find_tw fuel k (t_next t)
  end.

(** The listening block bound to the address, or else the last one that is bound to
    any, with its predecessor. *)
Fixpoint find_listen (fuel : nat) (k : tcp_key) (prev lpcb lpcb_prev lpcb_any : Z) : NetM (Z * Z) :=
  match fuel with
  | O => fun _ => None
  | S fuel =>
      if lpcb =? NULL then mret (lpcb_prev, lpcb_any)
      else
        t ← getc lpcb;
        if t_local_port t =? k_dport k then
          if t_local_ip t =? k_dest k then mret (prev, lpcb)
          else if ip_addr_isany (t_local_ip t) then find_listen fuel k lpcb (t_next t) prev lpcb
          else find_listen fuel k lpcb (t_next t) lpcb_prev lpcb_any
        else find_listen fuel k lpcb (t_next t) lpcb_prev lpcb_any
  end.

(** ** The segment of a connection, and the calls of the application *)

(** The label [aborted]. *)
Definition input_end : NetM unit :=
  tcpu (fun g => set_g_recv_data NULL (set_g_input_pcb NULL g)) ;;
  s ← inseg;
  swhen (negb (sg_p s =? NULL)) (
    on_mem (pbuf_free (sg_p s)) ;;
    upd_inseg (set_sg_p NULL)).

(** The end of [tcp_input] for FIN; false for [goto aborted]. *)
Definition deliver_fin (pcb : Z) : NetM bool :=
  t ← gett pcb;
  if negb (t_refused_data t =? NULL) then
    on_mem (updp (t_refused_data t) (fun b => set_pb_flags (pb_flags b |. PBUF_FLAG_TCP_FIN) b)) ;; mret true
  else
    swhen (negb (t_rcv_wnd t =? TCP_WND)) (updt pcb (set_t_rcv_wnd (u16 (t_rcv_wnd t + 1)))) ;;
    err ← TCP_EVENT_CLOSED pcb;
    mret (negb (err =? ERR_ABRT)).

(** The data for the application; false for [goto aborted]. *)
Definition deliver_data (pcb : Z) : NetM bool :=
  recv_data ← tcpg g_recv_data;
  if recv_data =? NULL then mret true
  else
    t ← gett pcb;
    nassert (t_refused_data t =? NULL) ;;
    if has_flag t TF_RXCLOSED then
      on_mem (pbuf_free recv_data) ;;
      tcp_abort pcb ;;
      mret false
    else
      err ← TCP_EVENT_RECV pcb recv_data ERR_OK;
      if err =? ERR_ABRT then mret false
      else
        swhen (negb (err =? ERR_OK)) (updt pcb (set_t_refused_data recv_data)) ;;
        mret true.

(** What [tcp_input] does after [tcp_process]; false for [goto aborted]. *)
Definition input_events (pcb : Z) : NetM bool :=
  t ← gett pcb;
  err ← (if 0 <? t_acked t then TCP_EVENT_SENT pcb (t_acked t) else mret ERR_OK);
  if err =? ERR_ABRT then mret false
  else
    ok ← deliver_data pcb;
    if negb ok then mret false
    else
      g ← tcpg id;
      ok ← (if truthy (g_recv_flags g &. TF_GOT_FIN) then deliver_fin pcb else mret true);
      if negb ok then mret false
      else
        tcpu (set_g_input_pcb NULL) ;;
        tcp_output pcb ;;
        mret true.

(** A segment of the connection [pcb]. *)
Definition input_pcb (pcb p : Z) : NetM unit :=
  b ← on_mem (getp p);
  tcpu (fun g => set_g_recv_flags 0 (set_g_recv_data NULL
    (set_g_inseg (TcpSeg NULL p (pb_tot_len b) (sg_flags (g_inseg g)) (g_hdr g)) g))) ;;
  g ← tcpg id;
  swhen (truthy (g_in_flags g &. TCP_PSH)) (on_mem (updp p (fun b => set_pb_flags (pb_flags b |. PBUF_FLAG_PUSH) b))) ;;
  t ← gett pcb;
  go ← (if t_refused_data t =? NULL then mret true
        else
          r ← tcp_process_refused_data pcb;
          if r =? ERR_ABRT then mret false
          else t ← gett pcb; mret (negb (negb (t_refused_data t =? NULL) && (0 <? g_tcplen g))));
  swhen go (
    tcpu (set_g_input_pcb pcb) ;;
    err ← tcp_process pcb;
    if err =? ERR_ABRT then mret tt
    else
      g ← tcpg id;
      if truthy (g_recv_flags g &. TF_RESET) then
        t ← gett pcb;
        TCP_EVENT_ERR (t_errf t) (t_callback_arg t) ERR_RST ;;
        tcp_pcb_remove tcp_active_pcbs pcb ;;
        freet pcb
      else if truthy (g_recv_flags g &. TF_CLOSED) then
        t ← gett pcb;
        swhen (negb (has_flag t TF_RXCLOSED)) (TCP_EVENT_ERR (t_errf t) (t_callback_arg t) ERR_CLSD) ;;
        tcp_pcb_remove tcp_active_pcbs pcb ;;
        freet pcb
      else input_events pcb ;; mret tt) ;;
  input_end.

(** From the search on. *)
Definition input_dispatch (p : Z) (k : tcp_key) : NetM unit :=
  n ← tpcb_bound;
  g ← tcpg id;
  pcb ← find_active n k NULL (g_active_pcbs g);
  if negb (pcb =? NULL) then input_pcb pcb p
  else
    tw ← find_tw n k (g_tw_pcbs g);
    if negb (tw =? NULL) then tcp_timewait_input tw ;; on_mem (pbuf_free p) ;; mret tt
    else
      '(prev, lpcb) ← find_listen n k NULL (g_listen_pcbs g) NULL NULL;
      if negb (lpcb =? NULL) then
        swhen (negb (prev =? NULL)) (
          l ← getc lpcb;
          updc prev (set_t_next (t_next l)) ;;
          updc lpcb (set_t_next (g_listen_pcbs g)) ;;
          tcpu (set_g_listen_pcbs lpcb)) ;;
        tcp_listen_input lpcb ;;
        on_mem (pbuf_free p) ;;
        mret tt
      else
        f ← on_mem (TCPH_FLAGS (g_hdr g));
        swhen (negb (truthy (f &. TCP_RST))) rst_answer ;;
        on_mem (pbuf_free p) ;;
        mret tt.

(** The header in host byte order, and the globals. *)
Definition input_header (p : Z) : NetM tcp_key :=
  tcphdr ← tcpg g_hdr;
  b ← on_mem (getp p);
  src ← on_mem (load_le (hdr_src tcphdr) 2);
  dest ← on_mem (load_le (hdr_dest tcphdr) 2);
  seqno ← on_mem (load_le (hdr_seqno tcphdr) 4);
  ackno ← on_mem (load_le (hdr_ackno tcphdr) 4);
  wnd ← on_mem (load_le (hdr_wnd tcphdr) 2);
  on_mem (store_le (hdr_src tcphdr) 2 (lwip_ntohs src) ;;
          store_le (hdr_dest tcphdr) 2 (lwip_ntohs dest) ;;
          store_le (hdr_seqno tcphdr) 4 (lwip_ntohl seqno) ;;
          store_le (hdr_ackno tcphdr) 4 (lwip_ntohl ackno) ;;
          store_le (hdr_wnd tcphdr) 2 (lwip_ntohs wnd)) ;;
  flags ← on_mem (TCPH_FLAGS tcphdr);
  tcpu (fun g =>
    set_g_tcplen (u16 (pb_tot_len b + (if truthy (flags &. (TCP_FIN |. TCP_SYN)) then 1 else 0)))
      (set_g_in_flags flags (set_g_ackno (lwip_ntohl ackno) (set_g_seqno (lwip_ntohl seqno) g)))) ;;
  i ← sget n_ip;
  mret (TcpKey (current_iphdr_src i) (lwip_ntohs src) (current_iphdr_dest i) (lwip_ntohs dest)).

Definition tcp_input (p inp : Z) : NetM unit :=
  b ← on_mem (getp p);
  let iphdr := pb_payload b in
  hlen ← on_mem (ip_hlen iphdr);
  let tcphdr := iphdr + hlen in
  tcpu (set_g_hdr tcphdr) ;;
  let dropped := on_mem (pbuf_free p) ;; mret tt in
  r ← on_mem (pbuf_header p (- hlen));
  b ← on_mem (getp p);
  if negb (r =? 0) || (pb_tot_len b <? 20) then dropped
  else
    i ← sget n_ip;
    n ← getif inp;
    if truthy (ip4_addr_isbroadcast (current_iphdr_dest i) n) || ip_addr_ismulticast (current_iphdr_dest i) then dropped
    else
      c ← on_mem (load_chksum (fun st => inet_chksum_pseudo st p (current_iphdr_src i) (current_iphdr_dest i) IP_PROTO_TCP (pb_tot_len b)));
      if negb (c =? 0) then dropped
      else
        hdrlen ← on_mem (TCPH_HDRLEN tcphdr);
        r ← on_mem (pbuf_header p (- (hdrlen * 4)));
        if negb (r =? 0) then dropped
        else k ← input_header p; input_dispatch p k.
End App.
