(* ===== verification/NetInput.v ===== *)
(** * Received frames: [ip_input] of core/ipv4/ip.c and [ethernet_input] of
    netif/etharp.c

    No forwarding, no reassembly, options are accepted, no IGMP, no address
    hooks.  TCP is a parameter: [tcp_input] takes over the packet. *)

From S2P Require Import Prelude StateM LwipMem Chksum IpAddr Pbuf NetState Etharp IpOut Icmp Udp Raw.

Definition IP_MF : Z := 8192.
Definition IP_OFFMASK : Z := 8191.
Definition NETIF_FLAG_ETHARP : Z := 32.
Definition PBUF_FLAG_LLMCAST : Z := 16.
Definition PBUF_FLAG_LLBCAST : Z := 8.

(** The [do] loop of [ip_input] over the interfaces: the one that the packet is
    for, or null. *)
Fixpoint accept_loop (fuel : nat) (inp netif dest : Z) (first : bool) : NetM Z :=
  match fuel with
  | O => fun _ => None
  | S fuel =>
      n ← getif netif;
      if netif_is_up n && negb (ip_addr_isany (ni_ip_addr n)) &&
         ((dest =? ni_ip_addr n) || truthy (ip4_addr_isbroadcast dest n))
      then mret netif
      else
        l ← sget netif_list;
        let netif := if first then l else ni_next n in
        netif ← (if netif =? inp then i ← getif inp; mret (ni_next i) else mret netif);
        if netif =? NULL then mret NULL else accept_loop fuel inp netif dest false
  end.

Definition set_current (netif header src dest : Z) : NetM unit :=
  supd (fun s => set_ip (IpGlobals (ip_id (n_ip s)) netif header src dest) s).

Section Input.
Context (tcp_input : Z -> Z -> NetM unit).

(** The packet to its protocol. *)
Definition ip_dispatch (p inp iphdr : Z) : NetM unit :=
  g ← sget n_ip;
  raw ← raw_input p inp;
  if raw =? 0 then
    proto ← on_mem (load_le (iphdr + 9) 1);
    if proto =? IP_PROTO_UDP then udp_input p inp
    else if proto =? IP_PROTO_TCP then tcp_input p inp
    else if proto =? IP_PROTO_ICMP then icmp_input p inp
    else
      n ← getif inp;
      swhen (negb (truthy (ip4_addr_isbroadcast (current_iphdr_dest g) n)) &&
             negb (ip_addr_ismulticast (current_iphdr_dest g))) (
        on_mem (updp p (set_pb_payload iphdr)) ;;
        icmp_dest_unreach p ICMP_DUR_PROTO) ;;
      on_mem (pbuf_free p) ;; mret tt
  else mret tt.

Definition ip_input (p inp : Z) : NetM Z :=
  b ← on_mem (getp p);
  let iphdr := pb_payload b in
  v_hl ← on_mem (load_le iphdr 1);
  if negb (Z.shiftr v_hl 4 =? 4) then on_mem (pbuf_free p) ;; mret ERR_OK
  else
    let iphdr_hlen := 4 * (v_hl &. 15) in
    len ← on_mem (load_le (iphdr + 2) 2);
    let iphdr_len := lwip_ntohs len in
    if (pb_len b <? iphdr_hlen) || (pb_tot_len b <? iphdr_len) then on_mem (pbuf_free p) ;; mret ERR_OK
    else
      c ← on_mem (load_chksum (fun st => inet_chksum (ram st) iphdr iphdr_hlen));
      if negb (c =? 0) then on_mem (pbuf_free p) ;; mret ERR_OK
      else
        on_mem (pbuf_realloc p iphdr_len) ;;
        dest ← on_mem (load_le (iphdr + 16) 4);
        src ← on_mem (load_le (iphdr + 12) 4);
        g ← sget n_ip;
        set_current (current_netif g) (current_header g) src dest ;;
        bound ← if_bound;
        netif ← accept_loop (S bound) inp inp dest true;
        n ← getif inp;
        if truthy (ip4_addr_isbroadcast src n) || ip_addr_ismulticast src
        then on_mem (pbuf_free p) ;; mret ERR_OK
        else if netif =? NULL then on_mem (pbuf_free p) ;; mret ERR_OK
        else
          offset ← on_mem (load_le (iphdr + 6) 2);
          if truthy (offset &. lwip_htons (IP_OFFMASK |. IP_MF))
          then on_mem (pbuf_free p) ;; mret ERR_OK
          else
            set_current inp iphdr src dest ;;
            ip_dispatch p inp iphdr ;;
            set_current NULL NULL IPADDR_ANY IPADDR_ANY ;;
            mret ERR_OK.

(** The [switch] of [ethernet_input]. *)
Definition ethernet_dispatch (p netif type : Z) : NetM Z :=
  n ← getif netif;
  if type =? lwip_htons ETHTYPE_IP then
    if negb (truthy (ni_flags n &. NETIF_FLAG_ETHARP)) then on_mem (pbuf_free p) ;; mret ERR_OK
    else
      r ← on_mem (pbuf_header p (- SIZEOF_ETH_HDR));
      nassert (r =? 0) ;;
      ip_input p netif ;;
      mret ERR_OK
  else if type =? lwip_htons ETHTYPE_ARP then
    if negb (truthy (ni_flags n &. NETIF_FLAG_ETHARP)) then on_mem (pbuf_free p) ;; mret ERR_OK
    else
      etharp_arp_input netif (ni_hwaddr n) p ;;
      mret ERR_OK
  else on_mem (pbuf_free p) ;; mret ERR_OK.

Definition ethernet_input (p netif : Z) : NetM Z :=
  b ← on_mem (getp p);
  if pb_len b <=? SIZEOF_ETH_HDR then on_mem (pbuf_free p) ;; mret ERR_OK
  else
    let ethhdr := pb_payload b in
    type ← on_mem (load_le (ethhdr + 12) 2);
    dest ← on_mem (load ethhdr 6);
    (match dest with
     | d0 :: d1 :: d2 :: _ =>
         swhen (truthy (d0 &. 1)) (
           if d0 =? LL_MULTICAST_ADDR_0 then
             swhen ((d1 =? LL_MULTICAST_ADDR_1) && (d2 =? LL_MULTICAST_ADDR_2))
               (on_mem (updp p (fun b => set_pb_flags (pb_flags b |. PBUF_FLAG_LLMCAST) b)))
           else
             swhen (bool_decide (dest = ethbroadcast))
               (on_mem (updp p (fun b => set_pb_flags (pb_flags b |. PBUF_FLAG_LLBCAST) b))))
     | _ => fun _ => None
     end) ;;
    ethernet_dispatch p netif type.
End Input.
