(* ===== verification/Packet.v ===== *)
(** * Packets in one buffer

    What the proofs about the protocols need to know about the operations of
    Pbuf on a packet that is a single buffer with room in front, as the Ethernet
    driver and [pbuf_alloc] make them: [packet st0 st p a w off len] says that
    [st] is the memory [st0] with a buffer at [p] in addition, that the bytes
    [w] are at address [a] in it, and that the payload of the buffer is the
    window of [len] bytes at [a + off].  The rules [nwp_...] run an action of
    the network stack on such a memory. *)

From S2P Require Import Prelude StateM LwipMem Chksum IpAddr Pbuf PbufRef PbufData NetState Etharp Icmp.

(** ** Running an action *)

Definition nwp {A} (m : NetM A) (Q : A -> net -> Prop) (s : net) : Prop :=
  exists a s', m s = Some (a, s') /\ Q a s'.

Lemma nwp_ret {A} (a : A) (Q : A -> net -> Prop) s : Q a s -> nwp (mret a) Q s.
Proof. intros H. by exists a, s. Qed.

Lemma nwp_bind {A B} (m : NetM A) (f : A -> NetM B) Q s :
  nwp m (fun a => nwp (f a) Q) s -> nwp (m ≫= f) Q s.
Proof.
  intros (a & s1 & E & b & s2 & E2 & H). exists b, s2. split; [|done]. by rewrite (bind_Some _ _ _ _ _ E).
Qed.

Lemma nwp_mono {A} (m : NetM A) (Q Q' : A -> net -> Prop) s :
  nwp m Q s -> (forall a s', Q a s' -> Q' a s') -> nwp m Q' s.
Proof. intros (a & s' & E & H) HQ. exists a, s'. eauto. Qed.

Lemma nwp_run {A} (m : NetM A) (Q : A -> net -> Prop) s a s' : m s = Some (a, s') -> Q a s' -> nwp m Q s.
Proof. intros E H. by exists a, s'. Qed.

Lemma nwp_assert b (Q : unit -> net -> Prop) s : b = true -> Q tt s -> nwp (nassert b) Q s.
Proof. intros -> H. by exists tt, s. Qed.

Lemma nwp_sget {A} (f : net -> A) (Q : A -> net -> Prop) s : Q (f s) s -> nwp (sget f) Q s.
Proof. intros H. by exists (f s), s. Qed.

Lemma nwp_supd f (Q : unit -> net -> Prop) s : Q tt (f s) -> nwp (supd f) Q s.
Proof. intros H. by exists tt, (f s). Qed.

Lemma nwp_when b (m : NetM unit) Q s :
  (b = true -> nwp m Q s) -> (b = false -> Q tt s) -> nwp (swhen b m) Q s.
Proof. destruct b; simpl; intros H1 H2; [by apply H1|]. exists tt, s. by split; [|apply H2]. Qed.

Lemma nwp_mem {A} (m : NM A) (Q : A -> net -> Prop) s st a st' :
  m st = Some (a, st') -> Q a (set_mem st' s) -> nwp (on_mem m) Q (set_mem st s).
Proof. intros E H. exists a, (set_mem st' s). unfold on_mem. simpl. by rewrite E. Qed.

Lemma nwp_getif i n (Q : netif -> net -> Prop) s : n_ifs s !! i = Some n -> Q n s -> nwp (getif i) Q s.
Proof. intros E H. exists n, s. unfold getif. by rewrite E. Qed.

Lemma set_mem_id s : set_mem (n_mem s) s = s.
Proof. by destruct s. Qed.

(** ** The packet *)

Definition rambuf (a len flags : Z) : pbuf := Pbuf NULL a len len PBUF_RAM flags 1.

Record packet (st0 st : netmem) (p a : Z) (w : list Z) (off len flags : Z) : Prop := {
  pk_eq : st = set_ram (ram st) (set_pbufs (<[p := rambuf (a + off) len flags]> (pbufs st0)) st0);
  pk_new : pbufs st0 !! p = None;
  pk_null : p <> NULL;
  pk_base : p + SIZEOF_STRUCT_PBUF <= a + off;
  pk_len : 0 <= len /\ off + len <= Z.of_nat (length w) < 65536;
  pk_ram : ram_ok (ram st);
  pk_bytes : read_bytes (ram st) a (length w) = Some w;
  pk_out i : ~ a <= i < a + Z.of_nat (length w) -> ram st !! i = ram st0 !! i;
}.

Section Packet.
Context (st0 : netmem) (p a : Z).
Implicit Types (st : netmem) (w xs : list Z) (off len flags : Z).

Abbreviation pk st w off len flags := (packet st0 st p a w off len flags).

Lemma pk_lookup st w off len flags : pk st w off len flags -> pbufs st !! p = Some (rambuf (a + off) len flags).
Proof. intros H. rewrite (pk_eq _ _ _ _ _ _ _ _ H). apply lookup_insert_eq. Qed.

Lemma pk_set st w off len flags b :
  pk st w off len flags ->
  set_pbufs (<[p := b]> (pbufs st)) st = set_ram (ram st) (set_pbufs (<[p := b]> (pbufs st0)) st0).
Proof.
  intros H. pose proof (pk_eq _ _ _ _ _ _ _ _ H) as E. revert E. destruct st. simpl.
  unfold set_ram, set_pbufs. simpl. intros [= E1 E2 E3 E4 E5]. subst. by rewrite insert_insert_eq.
Qed.

Lemma pk_byte st w off len flags : pk st w off len flags -> Forall is_byte w.
Proof. intros H. eapply read_bytes_byte; [apply H|]. apply (pk_bytes _ _ _ _ _ _ _ _ H). Qed.

Lemma pk_read st w off len flags k n :
  pk st w off len flags -> (k + n <= length w)%nat ->
  read_bytes (ram st) (a + Z.of_nat k) n = Some (take n (drop k w)).
Proof.
  intros H Hk. pose proof (pk_bytes _ _ _ _ _ _ _ _ H) as Hr.
  rewrite <-(take_drop k w), length_app, length_take_le in Hr by lia.
  apply read_bytes_app in Hr as (b1 & b2 & E & H1 & H2).
  apply app_inj_1 in E as [<- <-]; [|rewrite length_take; apply read_bytes_length in H1; lia].
  rewrite <-(take_drop n (drop k w)), length_app, (length_take_le (drop k w)) in H2
    by (rewrite length_drop; lia).
  apply read_bytes_app in H2 as (b3 & b4 & E & H3 & H4).
  rewrite H3. f_equal. apply app_inj_1 in E as [<- _]; [done|].
  rewrite length_take, length_drop. apply read_bytes_length in H3. lia.
Qed.

Lemma packet_load st w off len flags k addr n :
  pk st w off len flags -> addr = a + Z.of_nat k -> (k + Z.to_nat n <= length w)%nat ->
  load addr n st = Some (take (Z.to_nat n) (drop k w), st).
Proof. intros H -> Hk. unfold load. by rewrite (pk_read _ _ _ _ _ _ _ H Hk). Qed.

Lemma packet_load_le st w off len flags k addr n :
  pk st w off len flags -> addr = a + Z.of_nat k -> (k + Z.to_nat n <= length w)%nat ->
  load_le addr n st = Some (le_num (take (Z.to_nat n) (drop k w)), st).
Proof. intros H E Hk. unfold load_le. by rewrite (bind_Some _ _ _ _ _ (packet_load _ _ _ _ _ _ _ _ H E Hk)). Qed.

Lemma packet_store st w off len flags k addr xs :
  pk st w off len flags -> addr = a + Z.of_nat k -> (k + length xs <= length w)%nat -> Forall is_byte xs ->
  exists st', store addr xs st = Some (tt, st') /\ pk st' (splice k xs w) off len flags.
Proof.
  intros H -> Hk Hb.
  destruct (write_bytes_Some (ram st) (a + Z.of_nat k) xs) as [m Hm].
  { rewrite (pk_read _ _ _ _ _ _ _ H Hk). eauto. }
  exists (set_ram m st). unfold store. rewrite Hm. split; [done|].
  pose proof (splice_length k xs w Hk) as L. destruct H as [E Hne0 Hz Hba Hl0 Hr Hw Ho].
  constructor; try done; rewrite ?L; try done.
  - by rewrite E.
  - by eapply write_ram_ok.
  - simpl. by eapply write_splice.
  - intros i Hi. simpl. rewrite (write_bytes_lookup _ _ _ _ _ Hm).
    rewrite decide_False by lia. by apply Ho.
Qed.

Lemma packet_flags st w off len flags f :
  pk st w off len flags ->
  exists st', updp p (set_pb_flags f) st = Some (tt, st') /\ pk st' w off len f.
Proof.
  intros H. pose proof (pk_lookup _ _ _ _ _ H) as Hb. unfold updp. rewrite Hb. simpl.
  rewrite (pk_set _ _ _ _ _ _ H).
  eexists. split; [done|]. destruct H as [E Hne0 Hz Hba Hl0 Hr Hw Ho]. by constructor.
Qed.

(** The window moves by [inc] bytes to the front. *)
Lemma packet_header st w off len flags inc :
  pk st w off len flags -> -32768 <= inc < 32768 -> 0 <= len + inc < 65536 ->
  p + SIZEOF_STRUCT_PBUF <= a + off - inc -> len < 65536 ->
  exists st', pbuf_header p inc st = Some (0, st') /\ pk st' w (off - inc) (len + inc) flags.
Proof.
  intros H Hi Hl Hp Hlen. pose proof (pk_lookup _ _ _ _ _ H) as Hb.
  assert (0 <= len) by apply (pk_len _ _ _ _ _ _ _ _ H).
  destruct (decide (inc = 0)) as [->|Hne].
  - exists st. split.
    + unfold pbuf_header. rewrite bind_lassert by (apply negb_true_iff, Z.eqb_neq, (pk_null _ _ _ _ _ _ _ _ H)).
      done.
    + by replace (off - 0) with off by lia; replace (len + 0) with len by lia.
  - eexists. split.
    + apply pbuf_header_move; [exact Hb|apply (pk_null _ _ _ _ _ _ _ _ H)|lia|done|simpl; lia..|].
      left. split; [by left|simpl; lia].
    + rewrite (pk_set _ _ _ _ _ _ H).
      destruct H as [E Hne0 Hz Hba Hl' Hr Hw Ho]. constructor; try done; [|lia..].
      unfold moved, rambuf. simpl.
      by replace (a + off - inc) with (a + (off - inc)) by lia.
Qed.

(** No room in front. *)
Lemma packet_header_refuse st w off len flags inc :
  pk st w off len flags -> 0 < inc < 32768 -> a + off - inc < p + SIZEOF_STRUCT_PBUF ->
  pbuf_header p inc st = Some (1, st).
Proof.
  intros H Hi Hp. eapply pbuf_header_refuse; [by eapply pk_lookup|apply H|done|simpl; lia].
Qed.

Lemma packet_realloc st w off len flags n :
  pk st w off len flags -> 0 <= n <= len -> len < 65536 ->
  exists st', pbuf_realloc p n st = Some (tt, st') /\ pk st' w off n flags.
Proof.
  intros H Hn Hlen. pose proof (pk_lookup _ _ _ _ _ H) as Hb. unfold pbuf_realloc.
  rewrite bind_lassert by (apply negb_true_iff, Z.eqb_neq, (pk_null _ _ _ _ _ _ _ _ H)).
  rewrite (bind_getp _ _ _ _ Hb). change (pb_tot_len (rambuf (a + off) len flags)) with len.
  destruct (Z.leb_spec len n) as [Hle|Hlt].
  - exists st. split; [done|]. by replace n with len by lia.
  - rewrite bind_chain_bound. unfold chain_fuel. cbn [realloc_keep].
    rewrite bind_assoc, (bind_getp _ _ _ _ Hb). change (pb_len (rambuf (a + off) len flags)) with len.
    destruct (Z.ltb_spec len n); [lia|]. rewrite bind_mret.
    rewrite (bind_updp _ _ _ _ _ Hb).
    rewrite (bind_updp p (set_pb_len n (rambuf (a + off) len flags))) by apply lookup_insert_eq.
    rewrite (bind_getp p (rambuf (a + off) n flags)) by apply lookup_insert_eq.
    change (swhen (negb (pb_next (rambuf (a + off) n flags) =? NULL))
      (pbuf_free (pb_next (rambuf (a + off) n flags)) ;; mret tt)) with (mret tt : NM unit).
    rewrite bind_mret. unfold updp. simpl. rewrite lookup_insert_eq. simpl.
    rewrite !insert_insert_eq. eexists. split; [done|].
    set (b := set_pb_next _ _). change (set_pbufs (<[p := b]> (pbufs st)) _)
      with (set_pbufs (<[p := b]> (pbufs st)) st). rewrite (pk_set _ _ _ _ _ b H).
    destruct H as [E Hne Hz Hba Hl' Hr Hw Ho]. constructor; try done. lia.
Qed.

Lemma packet_free st w off len flags :
  pk st w off len flags -> exists n, pbuf_free p st = Some (n, set_ram (ram st) st0).
Proof.
  intros H. pose proof (pk_lookup _ _ _ _ _ H) as Hb. unfold pbuf_free.
  rewrite bind_lassert by (apply negb_true_iff, Z.eqb_neq, (pk_null _ _ _ _ _ _ _ _ H)).
  rewrite bind_chain_bound. unfold chain_fuel. cbn [free_loop].
  destruct (Z.eqb_spec p NULL) as [Hp|_]; [by destruct (pk_null _ _ _ _ _ _ _ _ H)|].
  rewrite (bind_getp _ _ _ _ Hb), bind_lassert by done.
  rewrite (bind_updp _ _ _ _ _ Hb). change (u16 (pb_ref (rambuf (a + off) len flags) - 1)) with 0.
  cbn [Z.eqb]. rewrite bind_mem_free by (simpl; rewrite lookup_insert_eq; eauto).
  change (pb_next (rambuf (a + off) len flags)) with NULL.
  assert (size (pbufs st) <> 0%nat) as Hs.
  { intros Hz. apply map_size_empty_iff in Hz. rewrite Hz in Hb. done. }
  destruct (size (pbufs st)); [done|]. cbn [free_loop Z.eqb].
  eexists. unfold mret, ST_ret. do 2 f_equal.
  pose proof (pk_eq _ _ _ _ _ _ _ _ H) as E. pose proof (pk_new _ _ _ _ _ _ _ _ H) as Hnew.
  clear -E Hnew. revert E. destruct st. unfold set_ram, set_pbufs. simpl.
  intros [= E1 E2 E3 E4 E5]. subst. by rewrite insert_insert_eq, delete_insert_id.
Qed.

Lemma packet_chain st w off len flags :
  pk st w off len flags -> pchain (pbufs st) p [(p, rambuf (a + off) len flags)].
Proof.
  intros H. simpl. pose proof (pk_lookup _ _ _ _ _ H). by split_and!; [|apply H| |].
Qed.

Lemma packet_data st w k len flags :
  pk st w (Z.of_nat k) len flags ->
  chain_data (ram st) [(p, rambuf (a + Z.of_nat k) len flags)] = Some (take (Z.to_nat len) (drop k w)).
Proof.
  intros H. simpl. rewrite (pk_read _ _ _ _ _ k _ H).
  - simpl. by rewrite app_nil_r.
  - pose proof (pk_len _ _ _ _ _ _ _ _ H). lia.
Qed.

Lemma packet_gather st w k len flags fuel :
  pk st w (Z.of_nat k) len flags -> (1 < fuel)%nat ->
  gather fuel p st = Some (take (Z.to_nat len) (drop k w), st).
Proof.
  intros H Hf. destruct fuel as [|[|fuel]]; [lia|lia|]. cbn [gather].
  destruct (Z.eqb_spec p NULL) as [Hp|_]; [by destruct (pk_null _ _ _ _ _ _ _ _ H)|].
  rewrite (bind_getp _ _ _ _ (pk_lookup _ _ _ _ _ H)). pose proof (pk_len _ _ _ _ _ _ _ _ H).
  rewrite (bind_Some _ _ _ _ _ (packet_load _ _ _ _ _ k (a + Z.of_nat k) len H eq_refl ltac:(lia))).
  change (pb_next (rambuf (a + Z.of_nat k) len flags)) with NULL. cbn [Z.eqb]. rewrite bind_mret.
  by rewrite app_nil_r.
Qed.

Lemma packet_chksum st w off len flags k addr n :
  pk st w off len flags -> addr = a + Z.of_nat k -> 0 <= n -> (k + Z.to_nat n <= length w)%nat ->
  load_chksum (fun st => inet_chksum (ram st) addr n) st =
    Some (lwip_htons (rfc1071_chksum (take (Z.to_nat n) (drop k w))), st).
Proof.
  intros H -> Hn Hk. pose proof (pk_len _ _ _ _ _ _ _ _ H). unfold load_chksum.
  assert (length (take (Z.to_nat n) (drop k w)) = Z.to_nat n) as L
    by (rewrite length_take, length_drop; lia).
  pose proof (inet_chksum_ok (ram st) (a + Z.of_nat k) (take (Z.to_nat n) (drop k w))) as E.
  rewrite L, Z2Nat.id in E by done. rewrite E; [done|apply H| |lia].
  by eapply pk_read.
Qed.

Lemma packet_chksum_pbuf st w k len flags :
  pk st w (Z.of_nat k) len flags -> len < 65536 ->
  load_chksum (fun st => inet_chksum_pbuf st p) st =
    Some (lwip_htons (rfc1071_chksum (take (Z.to_nat len) (drop k w))), st).
Proof.
  intros H Hl. pose proof (pk_len _ _ _ _ _ _ _ _ H). unfold load_chksum.
  rewrite (inet_chksum_pbuf_ok st p _ _ (pk_ram _ _ _ _ _ _ _ _ H) (packet_chain _ _ _ _ _ H)
    ltac:(repeat constructor; simpl; lia) (packet_data _ _ _ _ _ H)). done.
Qed.

Lemma packet_chksum_pseudo st w k len flags src dest proto n :
  pk st w (Z.of_nat k) len flags -> len < 65536 ->
  0 <= src < 2 ^ 32 -> 0 <= dest < 2 ^ 32 -> is_byte proto -> 0 <= n < 65536 ->
  load_chksum (fun st => inet_chksum_pseudo st p src dest proto n) st =
    Some (lwip_htons (rfc1071_chksum (pseudo_header src dest proto n ++ take (Z.to_nat len) (drop k w))), st).
Proof.
  intros H Hl Hs Hd Hp Hn. pose proof (pk_len _ _ _ _ _ _ _ _ H). unfold load_chksum.
  rewrite (inet_chksum_pseudo_ok st p _ _ src dest proto n (pk_ram _ _ _ _ _ _ _ _ H) (packet_chain _ _ _ _ _ H)
    ltac:(repeat constructor; simpl; lia) (packet_data _ _ _ _ _ H)) by done. done.
Qed.
End Packet.

(** ** Rules *)

Section Rules.
Context {st0 : netmem} {p a : Z} {st : netmem} {w : list Z} {off len flags : Z}.
Context (H : packet st0 st p a w off len flags).

Lemma nwp_getp (Q : pbuf -> net -> Prop) s :
  Q (rambuf (a + off) len flags) (set_mem st s) -> nwp (on_mem (getp p)) Q (set_mem st s).
Proof. intros HQ. eapply nwp_mem; [|done]. unfold getp. by rewrite (pk_lookup _ _ _ _ _ _ _ _ H). Qed.

Lemma nwp_store k addr xs (Q : unit -> net -> Prop) s :
  addr = a + Z.of_nat k -> (k + length xs <= length w)%nat -> Forall is_byte xs ->
  (forall st', packet st0 st' p a (splice k xs w) off len flags -> Q tt (set_mem st' s)) ->
  nwp (on_mem (store addr xs)) Q (set_mem st s).
Proof.
  intros Ha Hk Hb HQ. destruct (packet_store _ _ _ _ _ _ _ _ k addr xs H) as (st' & E & H'); [done..|].
  eapply nwp_mem; [done|]. by apply HQ.
Qed.

Lemma nwp_store_le k addr n v (Q : unit -> net -> Prop) s :
  addr = a + Z.of_nat k -> (k + Z.to_nat n <= length w)%nat ->
  (forall st', packet st0 st' p a (splice k (le_bytes (Z.to_nat n) v) w) off len flags -> Q tt (set_mem st' s)) ->
  nwp (on_mem (store_le addr n v)) Q (set_mem st s).
Proof. intros Ha Hk HQ. eapply nwp_store; [done|by rewrite le_bytes_length|apply le_bytes_byte|done]. Qed.

Lemma nwp_load_le k addr n (Q : Z -> net -> Prop) s :
  addr = a + Z.of_nat k -> (k + Z.to_nat n <= length w)%nat ->
  Q (le_num (take (Z.to_nat n) (drop k w))) (set_mem st s) -> nwp (on_mem (load_le addr n)) Q (set_mem st s).
Proof. intros Ha Hk HQ. eapply nwp_mem; [by eapply packet_load_le|done]. Qed.

Lemma nwp_header inc (Q : Z -> net -> Prop) s :
  -32768 <= inc < 32768 -> 0 <= len + inc < 65536 -> p + SIZEOF_STRUCT_PBUF <= a + off - inc -> len < 65536 ->
  (forall st', packet st0 st' p a w (off - inc) (len + inc) flags -> Q 0 (set_mem st' s)) ->
  nwp (on_mem (pbuf_header p inc)) Q (set_mem st s).
Proof.
  intros. destruct (packet_header _ _ _ _ _ _ _ _ inc H) as (st' & E & H'); [done..|].
  eapply nwp_mem; eauto.
Qed.

Lemma nwp_free (Q : Z -> net -> Prop) s :
  (forall c, Q c (set_mem (set_ram (ram st) st0) s)) -> nwp (on_mem (pbuf_free p)) Q (set_mem st s).
Proof. intros HQ. destruct (packet_free _ _ _ _ _ _ _ _ H) as [c E]. eapply nwp_mem; [exact E|apply HQ]. Qed.
End Rules.

(** ** Sending *)

Section Send.
Context (st0 : netmem) (p a : Z).
Implicit Types (st : netmem) (w : list Z) (s : net).

Lemma nwp_linkoutput st w k len flags netif (Q : Z -> net -> Prop) s :
  packet st0 st p a w (Z.of_nat k) len flags ->
  (forall r e, Q e (set_mem st (set_link r (link_sent s ++ [(netif, take (Z.to_nat len) (drop k w))]) s))) ->
  nwp (linkoutput netif p) Q (set_mem st s).
Proof.
  intros H HQ. unfold linkoutput. apply nwp_bind. eapply nwp_mem; [done|].
  apply nwp_bind. eapply nwp_mem.
  - eapply packet_gather; [done|]. unfold chain_fuel.
    assert (size (pbufs st) <> 0%nat); [|lia].
    intros Hz. apply map_size_empty_iff in Hz. pose proof (pk_lookup _ _ _ _ _ _ _ _ H) as Hb. by rewrite Hz in Hb.
  - unfold link_send, nwp. cbn. destruct (link_results s) as [|e r]; eexists _, _; (split; [done|apply HQ]).
Qed.

(** The frame of an IP packet whose header space is in the window already. *)
Lemma nwp_send_ip st w k len flags netif n src dst (Q : Z -> net -> Prop) s :
  packet st0 st p a w (Z.of_nat k) len flags -> 14 <= len ->
  n_ifs s !! netif = Some n -> ni_hwaddr_len n = 6 ->
  length src = 6%nat -> length dst = 6%nat -> Forall is_byte src -> Forall is_byte dst ->
  (forall st' r e,
     packet st0 st' p a (splice k (dst ++ src ++ [8; 0]) w) (Z.of_nat k) len flags ->
     Q e (set_mem st' (set_link r (link_sent s ++
            [(netif, dst ++ src ++ [8; 0] ++ take (Z.to_nat len - 14) (drop (k + 14) w))]) s))) ->
  nwp (etharp_send_ip netif p src dst) Q (set_mem st s).
Proof.
  intros H Hlen Hn Hhl Ls Ld Bs Bd HQ. pose proof (pk_len _ _ _ _ _ _ _ _ H) as Hwin.
  unfold etharp_send_ip. apply nwp_bind. eapply nwp_mem.
  { unfold getp. by rewrite (pk_lookup _ _ _ _ _ _ _ _ H). }
  apply nwp_bind. eapply nwp_getif; [done|]. apply nwp_bind, nwp_assert; [by rewrite Hhl|].
  change (pb_payload (rambuf (a + Z.of_nat k) len flags)) with (a + Z.of_nat k).
  destruct (packet_store _ _ _ _ _ _ _ _ k (a + Z.of_nat k) dst H) as (st1 & E1 & H1); [done|lia|done|].
  apply nwp_bind. eapply nwp_mem; [exact E1|].
  destruct (packet_store _ _ _ _ _ _ _ _ (k + 6) (a + Z.of_nat k + 6) src H1) as (st2 & E2 & H2);
    [lia|rewrite splice_length; lia|done|].
  apply nwp_bind. eapply nwp_mem; [exact E2|].
  replace (k + 6)%nat with (k + length dst)%nat in H2 by lia. rewrite splice_splice in H2 by lia.
  destruct (packet_store _ _ _ _ _ _ _ _ (k + 12) (a + Z.of_nat k + 12) (le_bytes 2 (lwip_htons ETHTYPE_IP)) H2)
    as (st3 & E3 & H3); [lia|rewrite splice_length; rewrite ?length_app; simpl; lia|apply le_bytes_byte|].
  apply nwp_bind. eapply nwp_mem; [exact E3|].
  replace (k + 12)%nat with (k + length (dst ++ src))%nat in H3 by (rewrite length_app; lia).
  rewrite splice_splice in H3 by (rewrite length_app; simpl; lia). rewrite <-app_assoc in H3.
  change (le_bytes 2 (lwip_htons ETHTYPE_IP)) with [8; 0] in H3.
  eapply nwp_linkoutput; [exact H3|]. intros r e.
  replace (take (Z.to_nat len) (drop k (splice k (dst ++ src ++ [8; 0]) w)))
    with (dst ++ src ++ [8; 0] ++ take (Z.to_nat len - 14) (drop (k + 14) w)); [by apply HQ|].
  assert (length (dst ++ src ++ [8; 0]) = 14%nat) as L by (rewrite !length_app; simpl; lia).
  unfold splice. rewrite drop_app_length' by (rewrite length_take; lia). rewrite L.
  rewrite (take_app (dst ++ src ++ [8; 0])), L, (take_ge (dst ++ src ++ [8; 0])) by lia. by rewrite <-!app_assoc.
Qed.
End Send.

(** ** Resolved addresses *)

(** The table has a stable entry for [ip], all of them give [mac], and none is
    so old that it would be requested again. *)
Record resolves (s : net) (ip : Z) (mac : list Z) : Prop := {
  rs_len : length (arp_table (n_arp s)) = Z.to_nat ARP_TABLE_SIZE;
  rs_cached : 0 <= etharp_cached_entry (n_arp s) < ARP_TABLE_SIZE;
  rs_some : exists e, e ∈ arp_table (n_arp s) /\ ge_stable (ae_state e) = true /\ ae_ipaddr e = ip;
  rs_all e : e ∈ arp_table (n_arp s) -> ge_stable (ae_state e) = true -> ae_ipaddr e = ip ->
    ae_ethaddr e = mac /\ (ae_state e = ETHARP_STATE_STABLE -> ae_ctime e < ARP_AGE_REREQUEST_USED);
  rs_mac : length mac = 6%nat /\ Forall is_byte mac;
}.

Record if_ok (n : netif) : Prop := {
  io_len : ni_hwaddr_len n = 6;
  io_hw : length (ni_hwaddr n) = 6%nat /\ Forall is_byte (ni_hwaddr n);
  io_ip : 0 <= ni_ip_addr n < 2 ^ 32;
}.

Section Resolved.
Context (st0 : netmem) (p a : Z) (n : netif) (netif : Z) (ip : Z) (mac : list Z).
Context (st : netmem) (w : list Z) (k : nat) (len flags : Z).
Context (H : packet st0 st p a w (Z.of_nat k) len flags) (Hlen : 14 <= len) (Hif : if_ok n).

(** What sending leaves behind: the frame is out, the table is the same. *)
Definition sent_post (Q : Z -> net -> Prop) (s : net) : Prop :=
  forall st' g r e,
    packet st0 st' p a (splice k (mac ++ ni_hwaddr n ++ [8; 0]) w) (Z.of_nat k) len flags ->
    arp_table g = arp_table (n_arp s) -> arp_queue g = arp_queue (n_arp s) ->
    Q e (set_mem st' (set_link r (link_sent s ++
           [(netif, mac ++ ni_hwaddr n ++ [8; 0] ++ take (Z.to_nat len - 14) (drop (k + 14) w))])
           (set_arp g s))).

Lemma get_entry_run i e s :
  0 <= i -> arp_table (n_arp s) !! Z.to_nat i = Some e -> get_entry i s = Some (e, s).
Proof. intros Hi He. unfold get_entry. destruct (Z.ltb_spec i 0); [lia|]. by rewrite He. Qed.

Lemma entry_at s i :
  length (arp_table (n_arp s)) = Z.to_nat ARP_TABLE_SIZE -> 0 <= i < ARP_TABLE_SIZE ->
  exists e, arp_table (n_arp s) !! Z.to_nat i = Some e.
Proof. intros L Hi. apply lookup_lt_is_Some. rewrite L. lia. Qed.

Lemma nwp_arp_index s i e Q :
  n_ifs s !! netif = Some n -> resolves s ip mac -> 0 <= i ->
  arp_table (n_arp s) !! Z.to_nat i = Some e -> ge_stable (ae_state e) = true -> ae_ipaddr e = ip ->
  sent_post Q s -> nwp (etharp_output_to_arp_index netif p i) Q (set_mem st s).
Proof.
  intros Hn Hr Hi He Hst Hip HQ.
  destruct (rs_all _ _ _ Hr e) as [Hmac Hage]; [by eapply list_elem_of_lookup_2|done|done|].
  unfold etharp_output_to_arp_index. apply nwp_bind. eapply nwp_run; [by apply get_entry_run|].
  apply nwp_bind, nwp_assert; [done|].
  destruct (bool_decide (ae_state e = ETHARP_STATE_STABLE) && (ARP_AGE_REREQUEST_USED <=? ae_ctime e)) eqn:Eage.
  { apply andb_prop in Eage as [E1%bool_decide_eq_true E2%Z.leb_le]. specialize (Hage E1). lia. }
  apply nwp_bind, nwp_ret. apply nwp_bind. eapply nwp_getif; [done|].
  apply nwp_bind. eapply nwp_run; [by apply get_entry_run|]. rewrite Hmac.
  destruct (io_hw _ Hif), (rs_mac _ _ _ Hr).
  eapply nwp_send_ip; [done|done|done|apply Hif|done..|].
  intros st' r e' Hp'.
  replace s with (set_arp (n_arp s) s) at 2 by by destruct s.
  by apply HQ.
Qed.

Lemma nwp_output_scan s Q l :
  n_ifs s !! netif = Some n -> resolves s ip mac -> Forall (fun i => 0 <= i < ARP_TABLE_SIZE) l ->
  (exists i e, i ∈ l /\ arp_table (n_arp s) !! Z.to_nat i = Some e /\ ge_stable (ae_state e) = true /\ ae_ipaddr e = ip) ->
  sent_post Q s -> nwp (output_scan l netif p ip) Q (set_mem st s).
Proof.
  intros Hn Hr Hl Hex HQ. induction Hl as [|i l Hi Hl IH].
  { destruct Hex as (i & e & Hin & _). by apply not_elem_of_nil in Hin. }
  cbn [output_scan]. destruct (entry_at s i (rs_len _ _ _ Hr) Hi) as [e He].
  apply nwp_bind. eapply nwp_run.
  { unfold output_stable. rewrite (bind_Some _ _ _ e (set_mem st s)); [done|]. apply get_entry_run; [lia|done]. }
  destruct (ge_stable (ae_state e) && (ip =? ae_ipaddr e)) eqn:Eh.
  - apply andb_prop in Eh as [E1 E2%Z.eqb_eq]. apply nwp_bind, nwp_supd.
    change (set_arp _ (set_mem st s)) with
      (set_mem st (set_arp (ArpGlobals (arp_table (n_arp s)) i (arp_queue (n_arp s))) s)).
    eapply nwp_arp_index; [done| |lia|done|done|done|].
    + destruct Hr. by constructor.
    + intros st' g r e' Hp' Hg1 Hg2. by apply (HQ st' g r e').
  - apply IH. destruct Hex as (j & e' & Hin & He' & Hst & Hip). exists j, e'.
    apply elem_of_cons in Hin as [->|Hin]; [|done].
    rewrite He in He'. injection He' as <-. rewrite Hst, Hip, Z.eqb_refl in Eh. done.
Qed.

Lemma nwp_output_unicast s Q :
  n_ifs s !! netif = Some n -> resolves s ip mac -> sent_post Q s ->
  nwp (output_unicast netif p ip) Q (set_mem st s).
Proof.
  intros Hn Hr HQ. unfold output_unicast. apply nwp_bind, nwp_sget.
  change (etharp_cached_entry (n_arp (set_mem st s))) with (etharp_cached_entry (n_arp s)).
  destruct (entry_at s (etharp_cached_entry (n_arp s)) (rs_len _ _ _ Hr) (rs_cached _ _ _ Hr)) as [e He].
  pose proof (rs_cached _ _ _ Hr) as Hc. apply nwp_bind. eapply nwp_run.
  { unfold output_stable. rewrite (bind_Some _ _ _ e (set_mem st s)); [done|]. apply get_entry_run; [lia|done]. }
  destruct (ge_stable (ae_state e) && (ip =? ae_ipaddr e)) eqn:Eh.
  - apply andb_prop in Eh as [E1 E2%Z.eqb_eq]. eapply nwp_arp_index; try done. lia.
  - apply nwp_output_scan; [done|done| | |done].
    + apply Forall_forall. intros i Hi%elem_of_seqZ. lia.
    + destruct (rs_some _ _ _ Hr) as (e' & Hin & Hst & Hip). apply list_elem_of_lookup in Hin as [j Hj].
      exists (Z.of_nat j), e'. rewrite Nat2Z.id. split_and!; try done.
      apply elem_of_seqZ. apply lookup_lt_Some in Hj. rewrite (rs_len _ _ _ Hr) in Hj. lia.
Qed.
End Resolved.
