(* ===== verification/Frames.v ===== *)
(** * Frames on the wire

    The formats of Ethernet, IPv4, ICMP and UDP as byte sequences, and the way
    of a received frame through [ethernet_input] and [ip_input] to its
    protocol. *)

From S2P Require Import Prelude StateM LwipMem TcpData Chksum IpAddr Pbuf PbufRef PbufData NetState Etharp IpOut Icmp Udp Raw NetInput Packet.

(** ** Formats *)

(** A 16-bit field in network order. *)
Definition be16 (x : Z) : list Z := [x / 256; x mod 256].

(** An Ethernet frame that carries IP. *)
Definition ip_frame (dst src packet : list Z) : list Z := dst ++ src ++ [8; 0] ++ packet.

(** An IPv4 header without options. *)
Definition ip_header (tos len id frag ttl proto chksum src dst : Z) : list Z :=
  [69; tos] ++ be16 len ++ be16 id ++ be16 frag ++ [ttl; proto] ++ be16 chksum ++
  le_bytes 4 src ++ le_bytes 4 dst.

(** A word in network order, read by the processor. *)
Lemma le_num_be16 x : 0 <= x < 65536 -> le_num (be16 x) = lwip_htons x.
Proof.
  intros. unfold be16. rewrite lwip_htons_eq by done. simpl. Z.div_mod_to_equations. lia.
Qed.

Lemma be16_le_bytes x : 0 <= x < 65536 -> le_bytes 2 (lwip_htons x) = be16 x.
Proof.
  intros. rewrite lwip_htons_eq by done. unfold be16. simpl.
  f_equal; [Z.div_mod_to_equations; lia|]. f_equal. Z.div_mod_to_equations. lia.
Qed.

Lemma ntohs_be16 x : 0 <= x < 65536 -> lwip_ntohs (le_num (be16 x)) = x.
Proof. intros. rewrite le_num_be16 by done. by apply htons_involutive. Qed.

Lemma be16_byte x : 0 <= x < 65536 -> Forall is_byte (be16 x).
Proof. intros. unfold be16. repeat constructor; Z.div_mod_to_equations; lia. Qed.

Lemma le_num_4 x : 0 <= x < 2 ^ 32 -> le_num (le_bytes 4 x) = x.
Proof. intros. apply le_num_bytes. simpl. lia. Qed.

Lemma ip_header_length tos len id frag ttl proto chksum src dst :
  length (ip_header tos len id frag ttl proto chksum src dst) = 20%nat.
Proof. done. Qed.

(** ** Checksums that verify *)

(** Data in which the checksum replaces zeros. *)
Lemma chksum_fill xs ys :
  Forall is_byte xs -> Forall is_byte ys -> Nat.even (length xs) ->
  rfc1071_chksum (xs ++ be16 (rfc1071_chksum (xs ++ [0; 0] ++ ys)) ++ ys) = 0.
Proof.
  intros Hx Hy He.
  assert (Forall is_byte (xs ++ [0; 0] ++ ys)) as Hb.
  { apply Forall_app_2; [done|]. apply Forall_app_2; [|done]. repeat constructor; unfold is_byte; lia. }
  pose proof (rfc1071_range _ Hb) as R. set (c := rfc1071_chksum (xs ++ [0; 0] ++ ys)).
  assert (0 <= c < 65536) as Rc by (unfold c, rfc1071_chksum; lia).
  pose proof (be16_byte c Rc) as Hcb.
  apply rfc1071_oeq_zero; [by repeat apply Forall_app_2|].
  rewrite le_num_replace by done. rewrite le_num_be16 by done.
  unfold c, rfc1071_chksum. rewrite <-htons_lnot by done. pose proof (htons_range _ R).
  transitivity (lwip_htons (rfc1071_sum (xs ++ [0; 0] ++ ys)) +
    (65535 - lwip_htons (rfc1071_sum (xs ++ [0; 0] ++ ys)))).
  - apply oeq_add; [|apply oeq_refl; lia]. rewrite htons_oeq by done. symmetry. by apply rfc1071_oeq.
  - rewrite Zplus_minus. by apply oeq_refl.
Qed.

(** The header that [ip_output_if] and [icmp_input] complete. *)
Lemma ip_header_chksum tos len id frag ttl proto src dst :
  Forall is_byte (ip_header tos len id frag ttl proto 0 src dst) ->
  rfc1071_chksum (ip_header tos len id frag ttl proto
    (rfc1071_chksum (ip_header tos len id frag ttl proto 0 src dst)) src dst) = 0.
Proof.
  intros H. set (xs := [69; tos] ++ be16 len ++ be16 id ++ be16 frag ++ [ttl; proto]).
  set (ys := le_bytes 4 src ++ le_bytes 4 dst).
  assert (forall c, ip_header tos len id frag ttl proto c src dst = xs ++ be16 c ++ ys) as E by done.
  rewrite E, !Forall_app in H. rewrite !E. apply chksum_fill; [apply H|apply H|done].
Qed.

(** ** Reading fields *)

Section Fields.
Context (st0 : netmem) (p a : Z) (st : netmem) (w : list Z) (off len flags : Z) (k : nat) (v : list Z).
Context (H : packet st0 st p a w off len flags) (Hv : drop k w = v).

Lemma field_le i addr n :
  addr = a + Z.of_nat k + Z.of_nat i -> 0 < n -> (i + Z.to_nat n <= length v)%nat ->
  load_le addr n st = Some (le_num (take (Z.to_nat n) (drop i v)), st).
Proof.
  intros Ha Hn Hl. pose proof (length_drop w k) as Hd. rewrite Hv in Hd.
  rewrite (packet_load_le _ _ _ _ _ _ _ _ (k + i) addr n H) by lia.
  by rewrite <-drop_drop, Hv.
Qed.

Lemma field_chksum i addr n :
  addr = a + Z.of_nat k + Z.of_nat i -> 0 < n -> (i + Z.to_nat n <= length v)%nat ->
  load_chksum (fun st => inet_chksum (ram st) addr n) st =
    Some (lwip_htons (rfc1071_chksum (take (Z.to_nat n) (drop i v))), st).
Proof.
  intros Ha Hn Hl. pose proof (length_drop w k) as Hd. rewrite Hv in Hd.
  rewrite (packet_chksum _ _ _ _ _ _ _ _ (k + i) addr n H) by lia.
  by rewrite <-drop_drop, Hv.
Qed.
End Fields.

(** ** The IP layer *)

Lemma nwp_set_current i h c d (Q : unit -> net -> Prop) st s :
  Q tt (set_mem st (set_ip (IpGlobals (ip_id (n_ip s)) i h c d) s)) ->
  nwp (set_current i h c d) Q (set_mem st s).
Proof. intros HQ. by apply nwp_supd. Qed.

Lemma unicast_not_any n ip : ip4_addr_isbroadcast ip n = 0 -> ip <> IPADDR_ANY.
Proof. intros H ->. unfold ip4_addr_isbroadcast in H. by rewrite orb_true_r in H. Qed.

(** Without raw control blocks the packet goes to the protocol of its header. *)
Lemma nwp_raw_none {st0 st p a w k len flags} inp (Q : Z -> net -> Prop) s' :
  packet st0 st p a w (Z.of_nat k) len flags -> (k + 10 <= length w)%nat -> raw_pcbs (n_raw s') = NULL ->
  Q 0 (set_mem st s') -> nwp (raw_input p inp) Q (set_mem st s').
Proof.
  intros H Hk Hraw HQ. unfold raw_input. apply nwp_bind, (nwp_getp H).
  apply nwp_bind, (nwp_load_le H (k + 9)); [simpl; lia|simpl; lia|].
  apply nwp_bind, nwp_sget. change (raw_pcbs (n_raw (set_mem st s'))) with (raw_pcbs (n_raw s')). rewrite Hraw.
  apply nwp_bind, nwp_sget. cbn [raw_input_loop]. by apply nwp_ret.
Qed.
(** A host address that may send us something. *)
Record sender (n : netif) (src : Z) : Prop := {
  sd_range : 0 <= src < 2 ^ 32;
  sd_unicast : ip4_addr_isbroadcast src n = 0 /\ ip_addr_ismulticast src = false;
}.

(** An interface that takes packets for its address. *)
Record if_up (n : netif) : Prop := {
  iu_up : netif_is_up n = true;
  iu_arp : truthy (ni_flags n &. NETIF_FLAG_ETHARP) = true;
  iu_unicast : ip4_addr_isbroadcast (ni_ip_addr n) n = 0 /\ ip_addr_ismulticast (ni_ip_addr n) = false;
  iu_ok : if_ok n;
}.

Section Input.
Context (tcp_input : Z -> Z -> NetM unit).
Context (st0 : netmem) (p a : Z) (inp : Z) (n : netif) (s : net).
Context (Hn : n_ifs s !! inp = Some n) (Hinp : inp <> NULL) (Hup : if_up n).
Context (tos id frag ttl proto chksum src : Z) (body pad : list Z).
Let L := 20 + Z.of_nat (length body).
Let hdr := ip_header tos L id frag ttl proto chksum src (ni_ip_addr n).
Context (Hsrc : sender n src) (Hfrag : 0 <= frag < 65536 /\ frag &. 16383 = 0).
Context (Hchk : rfc1071_chksum hdr = 0).

Lemma frag_land : truthy (lwip_htons frag &. lwip_htons (IP_OFFMASK |. IP_MF)) = false.
Proof.
  destruct Hfrag as [Hr Hz]. unfold truthy. apply negb_false_iff, Z.eqb_eq.
  change (lwip_htons (IP_OFFMASK |. IP_MF)) with 65343.
  assert (frag = 0 \/ frag = 16384 \/ frag = 32768 \/ frag = 49152) as Hc.
  { change 16383 with (Z.ones 14) in Hz. rewrite Z.land_ones in Hz by lia.
    apply Z.mod_divide in Hz as [z Hz]; [|lia]. simpl in Hz. lia. }
  by destruct Hc as [->|[->|[->| ->]]].
Qed.

Lemma nwp_ip_input st w k len flags (Q : Z -> net -> Prop) :
  packet st0 st p a w (Z.of_nat k) len flags -> drop k w = hdr ++ body ++ pad ->
  Z.of_nat k + len = Z.of_nat (length w) ->
  (forall st', packet st0 st' p a w (Z.of_nat k) L flags ->
     nwp (ip_dispatch tcp_input p inp (a + Z.of_nat k))
       (fun _ s' => Q ERR_OK (set_ip (IpGlobals (ip_id (n_ip s')) NULL NULL IPADDR_ANY IPADDR_ANY) s'))
       (set_mem st' (set_ip (IpGlobals (ip_id (n_ip s)) inp (a + Z.of_nat k) src (ni_ip_addr n)) s))) ->
  nwp (ip_input tcp_input p inp) Q (set_mem st s).
Proof.
  intros H Hw Hall HQ. pose proof (pk_len _ _ _ _ _ _ _ _ H) as Hwin.
  pose proof (length_drop w k) as Hd. rewrite Hw, !length_app in Hd. change (length hdr) with 20%nat in Hd.
  assert (0 <= L < 65536) as HL by (unfold L; lia).
  destruct Hsrc as [Hsr [Hb Hm]]. destruct Hup as [Hu _ [Hany%unicast_not_any _] [_ _ Hip]].
  unfold ip_input. apply nwp_bind. eapply nwp_mem.
  { unfold getp. by rewrite (pk_lookup _ _ _ _ _ _ _ _ H). }
  change (pb_payload (rambuf (a + Z.of_nat k) len flags)) with (a + Z.of_nat k).
  change (pb_len (rambuf (a + Z.of_nat k) len flags)) with len.
  change (pb_tot_len (rambuf (a + Z.of_nat k) len flags)) with len.
  apply nwp_bind. eapply nwp_mem.
  { eapply (field_le _ _ _ _ _ _ _ _ k _ H Hw 0); [lia|lia|rewrite !length_app; simpl; lia]. }
  change (le_num (take (Z.to_nat 1) (drop 0 (hdr ++ body ++ pad)))) with 69. cbn [Z.shiftr Z.eqb negb].
  change (negb (Z.shiftr 69 4 =? 4)) with false. cbv iota. change (4 * (69 &. 15)) with 20.
  apply nwp_bind. eapply nwp_mem.
  { eapply (field_le _ _ _ _ _ _ _ _ k _ H Hw 2); [lia|lia|rewrite !length_app; simpl; lia]. }
  change (take (Z.to_nat 2) (drop 2 (hdr ++ body ++ pad))) with (be16 L). rewrite ntohs_be16 by done.
  destruct (Z.ltb_spec len 20); [lia|]. destruct (Z.ltb_spec len L); [unfold L in *; lia|]. cbv [orb].
  apply nwp_bind. eapply nwp_mem.
  { eapply (field_chksum _ _ _ _ _ _ _ _ k _ H Hw 0); [lia|lia|rewrite !length_app; simpl; lia]. }
  change (take (Z.to_nat 20) (drop 0 (hdr ++ body ++ pad))) with hdr. rewrite Hchk. cbn [negb].
  change (negb (lwip_htons 0 =? 0)) with false. cbv iota.
  destruct (packet_realloc _ _ _ _ _ _ _ _ L H) as (st1 & E1 & Hp1); [lia|lia|].
  apply nwp_bind. eapply nwp_mem; [exact E1|].
  apply nwp_bind. eapply nwp_mem.
  { eapply (field_le _ _ _ _ _ _ _ _ k _ Hp1 Hw 16); [lia|lia|rewrite !length_app; simpl; lia]. }
  change (take (Z.to_nat 4) (drop 16 (hdr ++ body ++ pad))) with (le_bytes 4 (ni_ip_addr n)). rewrite le_num_4 by done.
  apply nwp_bind. eapply nwp_mem.
  { eapply (field_le _ _ _ _ _ _ _ _ k _ Hp1 Hw 12); [lia|lia|rewrite !length_app; simpl; lia]. }
  change (take (Z.to_nat 4) (drop 12 (hdr ++ body ++ pad))) with (le_bytes 4 src). rewrite le_num_4 by done.
  apply nwp_bind, nwp_sget. apply nwp_bind, nwp_set_current. apply nwp_bind, nwp_sget. apply nwp_bind.
  cbn [accept_loop]. apply nwp_bind. eapply nwp_getif; [exact Hn|]. rewrite Hu.
  unfold ip_addr_isany. destruct (Z.eqb_spec (ni_ip_addr n) IPADDR_ANY); [done|]. rewrite Z.eqb_refl.
  cbn [andb negb orb]. apply nwp_ret. apply nwp_bind. eapply nwp_getif; [exact Hn|].
  rewrite Hb, Hm. change (truthy 0 || false) with false. cbv iota.
  destruct (Z.eqb_spec inp NULL) as [|_]; [done|].
  apply nwp_bind. eapply nwp_mem.
  { eapply (field_le _ _ _ _ _ _ _ _ k _ Hp1 Hw 6); [lia|lia|rewrite !length_app; simpl; lia]. }
  change (take (Z.to_nat 2) (drop 6 (hdr ++ body ++ pad))) with (be16 frag).
  rewrite le_num_be16 by apply Hfrag. rewrite frag_land.
  apply nwp_bind, nwp_set_current. apply nwp_bind.
  eapply nwp_mono; [by apply HQ|]. intros ? s' HQ'. apply nwp_bind, nwp_supd, nwp_ret, HQ'.
Qed.
End Input.

(** ** The Ethernet layer *)

(** A frame in a buffer as the driver allocates it, [pbuf_alloc (PBUF_LINK,
    length, PBUF_RAM)]. *)
Record received (st : netmem) (p : Z) (frame : list Z) : Prop := {
  rc_buf : pbufs st !! p =
    Some (rambuf (p + SIZEOF_STRUCT_PBUF + PBUF_LINK_HLEN) (Z.of_nat (length frame)) 0);
  rc_null : p <> NULL;
  rc_len : Z.of_nat (length frame) < 65536;
  rc_ram : ram_ok (ram st);
  rc_bytes : read_bytes (ram st) (p + SIZEOF_STRUCT_PBUF + PBUF_LINK_HLEN) (length frame) = Some frame;
}.

(** The memory without the buffer. *)
Definition without (p : Z) (st : netmem) : netmem := set_pbufs (delete p (pbufs st)) st.

Lemma packet_alone st p a w off len flags :
  pbufs st !! p = Some (rambuf (a + off) len flags) -> p <> NULL -> p + SIZEOF_STRUCT_PBUF <= a + off ->
  0 <= len /\ off + len <= Z.of_nat (length w) < 65536 -> ram_ok (ram st) ->
  read_bytes (ram st) a (length w) = Some w ->
  packet (without p st) st p a w off len flags.
Proof.
  intros Hb Hn Hbase Hl Hr Hd. constructor; try done.
  - unfold without, set_ram, set_pbufs. simpl. rewrite insert_delete_eq, insert_id by done. by destruct st.
  - apply lookup_delete_eq.
Qed.

Lemma received_packet st p frame :
  received st p frame ->
  packet (without p st) st p (p + SIZEOF_STRUCT_PBUF + PBUF_LINK_HLEN) frame 0 (Z.of_nat (length frame)) 0.
Proof.
  intros [Hb Hn Hl Hr Hd]. apply packet_alone; try done; [by rewrite Z.add_0_r|unfold PBUF_LINK_HLEN; lia|lia].
Qed.

Section Ethernet.
Context (tcp_input : Z -> Z -> NetM unit).
Context (st0 : netmem) (p a : Z) (inp : Z) (n : netif) (s : net).
Context (Hn : n_ifs s !! inp = Some n) (Harp : truthy (ni_flags n &. NETIF_FLAG_ETHARP) = true).

(** Marking a multicast or broadcast frame. *)
Lemma nwp_mark st w off len flags f (Q : unit -> net -> Prop) :
  packet st0 st p a w off len flags ->
  (forall st' flags', packet st0 st' p a w off len flags' -> Q tt (set_mem st' s)) ->
  nwp (on_mem (updp p (fun b => set_pb_flags (pb_flags b |. f) b))) Q (set_mem st s).
Proof.
  intros H HQ. destruct (packet_flags _ _ _ _ _ _ _ _ (flags |. f) H) as (st' & E & H').
  eapply nwp_mem; [|by eapply HQ]. rewrite <-E. unfold updp. by rewrite (pk_lookup _ _ _ _ _ _ _ _ H).
Qed.

(** Up to the [switch]. *)
Lemma nwp_ethernet st dmac smac type pkt flags (Q : Z -> net -> Prop) :
  let w := dmac ++ smac ++ be16 type ++ pkt in
  packet st0 st p a w 0 (Z.of_nat (length w)) flags ->
  length dmac = 6%nat -> length smac = 6%nat -> 0 <= type < 65536 -> pkt <> [] ->
  (forall st' flags', packet st0 st' p a w 0 (Z.of_nat (length w)) flags' ->
     nwp (ethernet_dispatch tcp_input p inp (lwip_htons type)) Q (set_mem st' s)) ->
  nwp (ethernet_input tcp_input p inp) Q (set_mem st s).
Proof.
  intros w H Ld Ls Ht Hpkt HQ.
  destruct dmac as [|d0 [|d1 [|d2 [|d3 [|d4 [|d5 [|]]]]]]]; try done.
  destruct smac as [|e0 [|e1 [|e2 [|e3 [|e4 [|e5 [|]]]]]]]; try done. clear Ld Ls.
  assert (length w = 14 + length pkt)%nat as Lw by done.
  destruct pkt as [|x pkt]; [done|]. clear Hpkt.
  change (length (x :: pkt)) with (S (length pkt)) in Lw. set (len := Z.of_nat (length w)) in *.
  unfold ethernet_input. apply nwp_bind, (nwp_getp H).
  change (pb_len (rambuf (a + 0) len flags)) with len.
  change (pb_payload (rambuf (a + 0) len flags)) with (a + 0).
  destruct (Z.leb_spec len SIZEOF_ETH_HDR) as [Hle|_]; [unfold len, SIZEOF_ETH_HDR in Hle; lia|].
  apply nwp_bind, (nwp_load_le H 12); [lia|rewrite Lw; simpl; lia|].
  change (take (Z.to_nat 2) (drop 12 w)) with (be16 type). rewrite le_num_be16 by done.
  apply nwp_bind. eapply nwp_mem.
  { eapply (packet_load _ _ _ _ _ _ _ _ 0 _ 6 H); [lia|rewrite Lw; simpl; lia]. }
  change (take (Z.to_nat 6) (drop 0 w)) with [d0; d1; d2; d3; d4; d5]. cbv iota. apply nwp_bind.
  apply nwp_when; intros _; [|by eapply HQ].
  destruct (d0 =? LL_MULTICAST_ADDR_0); apply nwp_when; intros _; try (by eapply HQ);
    (eapply nwp_mark; [exact H|]; intros; by eapply HQ).
Qed.

Lemma nwp_ethernet_ip st dmac smac pkt flags (Q : Z -> net -> Prop) :
  let w := ip_frame dmac smac pkt in
  packet st0 st p a w 0 (Z.of_nat (length w)) flags ->
  length dmac = 6%nat -> length smac = 6%nat -> pkt <> [] -> p + SIZEOF_STRUCT_PBUF <= a ->
  (forall st' flags', packet st0 st' p a w (Z.of_nat 14) (Z.of_nat (length pkt)) flags' ->
     nwp (ip_input tcp_input p inp) (fun _ => Q ERR_OK) (set_mem st' s)) ->
  nwp (ethernet_input tcp_input p inp) Q (set_mem st s).
Proof.
  intros w H Ld Ls Hpkt Hroom HQ. change w with (dmac ++ smac ++ be16 ETHTYPE_IP ++ pkt) in *.
  assert (length (dmac ++ smac ++ be16 ETHTYPE_IP ++ pkt) = 14 + length pkt)%nat as Lw by (rewrite !length_app, Ld, Ls; done).
  pose proof (pk_len _ _ _ _ _ _ _ _ H) as Hwin. clear w.
  eapply nwp_ethernet; [exact H|done|done|done|done|]. intros st1 f1 H1. unfold ethernet_dispatch.
  apply nwp_bind. eapply nwp_getif; [exact Hn|]. rewrite Z.eqb_refl, Harp. cbn [negb].
  apply nwp_bind, (nwp_header H1); [unfold SIZEOF_ETH_HDR; lia..|]. intros st2 H2.
  apply nwp_bind, nwp_assert; [done|]. apply nwp_bind. eapply nwp_mono; [|intros ? s' Hs'; apply nwp_ret, Hs'].
  apply (HQ st2 f1). replace (Z.of_nat 14) with (0 - - SIZEOF_ETH_HDR) by done.
  replace (Z.of_nat (length pkt)) with (Z.of_nat (length (dmac ++ smac ++ be16 ETHTYPE_IP ++ pkt)) + - SIZEOF_ETH_HDR); [done|].
  rewrite Lw. unfold SIZEOF_ETH_HDR. lia.
Qed.
End Ethernet.

(** ** Output through a resolved address *)

Definition next_hop (n : netif) (ip : Z) : Z :=
  if negb (ip_addr_netcmp ip (ni_ip_addr n) (ni_netmask n)) && negb (ip_addr_islinklocal ip)
  then ni_gw n else ip.

(** A host that the interface reaches. *)
Record reaches (s : net) (n : netif) (ip : Z) (mac : list Z) : Prop := {
  re_unicast : ip4_addr_isbroadcast ip n = 0 /\ ip_addr_ismulticast ip = false;
  re_hop : next_hop n ip <> IPADDR_ANY;
  re_mac : resolves s (next_hop n ip) mac;
}.

Lemma reaches_arp s s' n ip mac : n_arp s' = n_arp s -> reaches s n ip mac -> reaches s' n ip mac.
Proof. intros E [? ? []]. split; [done..|]. constructor; by rewrite ?E. Qed.

Lemma nwp_etharp_output st0 st p a w k len flags netif n ip mac s (Q : Z -> net -> Prop) :
  packet st0 st p a w (Z.of_nat (k + 14)) len flags -> p + SIZEOF_STRUCT_PBUF <= a + Z.of_nat k ->
  n_ifs s !! netif = Some n -> if_ok n -> reaches s n ip mac ->
  sent_post st0 p a n netif mac w k (len + 14) flags Q s ->
  nwp (etharp_output netif p ip) Q (set_mem st s).
Proof.
  intros H Hp Hn Hif [[Hb Hm] Hhop Hr] HQ. pose proof (pk_len _ _ _ _ _ _ _ _ H) as Hwin.
  unfold etharp_output. apply nwp_bind. eapply nwp_getif; [done|].
  apply nwp_bind, nwp_assert; [apply negb_true_iff, Z.eqb_neq; apply H|].
  destruct (packet_header _ _ _ _ _ _ _ _ SIZEOF_ETH_HDR H) as (st1 & E1 & H1); [unfold SIZEOF_ETH_HDR; lia..|].
  apply nwp_bind. eapply nwp_mem; [exact E1|]. cbn [Z.eqb negb]. rewrite Hb, Hm. cbn [truthy].
  change (truthy 0) with false. cbv iota.
  replace (Z.of_nat (k + 14) - SIZEOF_ETH_HDR) with (Z.of_nat k) in H1 by (unfold SIZEOF_ETH_HDR; lia).
  change SIZEOF_ETH_HDR with 14 in H1. unfold next_hop in *.
  destruct (negb (ip_addr_netcmp ip (ni_ip_addr n) (ni_netmask n)) && negb (ip_addr_islinklocal ip)).
  - unfold ip_addr_isany. destruct (Z.eqb_spec (ni_gw n) IPADDR_ANY); [done|]. cbn [negb].
    eapply nwp_output_unicast; [exact H1|lia|exact Hif|done|done|done].
  - eapply nwp_output_unicast; [exact H1|lia|exact Hif|done|done|done].
Qed.

(** ** Writing fields *)

Section Write.
Context (d e : list Z) (Hd : length d = 6%nat) (He : length e = 6%nat).
Implicit Types (tos len id frag ttl proto chksum src dst x : Z) (b : list Z).

Ltac by_bytes :=
  destruct d as [|? [|? [|? [|? [|? [|? [|]]]]]]]; try discriminate Hd;
  destruct e as [|? [|? [|? [|? [|? [|? [|]]]]]]]; try discriminate He; reflexivity.

Lemma write_ttl tos len id frag ttl proto chksum src dst b x :
  splice 22 [x] (ip_frame d e (ip_header tos len id frag ttl proto chksum src dst ++ b)) =
  ip_frame d e (ip_header tos len id frag x proto chksum src dst ++ b).
Proof. by_bytes. Qed.

Lemma write_chksum tos len id frag ttl proto chksum src dst b x :
  splice 24 (be16 x) (ip_frame d e (ip_header tos len id frag ttl proto chksum src dst ++ b)) =
  ip_frame d e (ip_header tos len id frag ttl proto x src dst ++ b).
Proof. by_bytes. Qed.

Lemma write_src tos len id frag ttl proto chksum src dst b x :
  splice 26 (le_bytes 4 x) (ip_frame d e (ip_header tos len id frag ttl proto chksum src dst ++ b)) =
  ip_frame d e (ip_header tos len id frag ttl proto chksum x dst ++ b).
Proof. by_bytes. Qed.

Lemma write_dst tos len id frag ttl proto chksum src dst b x :
  splice 30 (le_bytes 4 x) (ip_frame d e (ip_header tos len id frag ttl proto chksum src dst ++ b)) =
  ip_frame d e (ip_header tos len id frag ttl proto chksum src x ++ b).
Proof. by_bytes. Qed.

(** Into the body of the IP packet. *)
Lemma write_body k tos len id frag ttl proto chksum src dst b xs :
  splice (34 + k) xs (ip_frame d e (ip_header tos len id frag ttl proto chksum src dst ++ b)) =
  ip_frame d e (ip_header tos len id frag ttl proto chksum src dst ++ splice k xs b).
Proof. by_bytes. Qed.

Lemma write_macs d' e' b :
  length d' = 6%nat -> length e' = 6%nat ->
  splice 0 (d' ++ e' ++ [8; 0]) (ip_frame d e b) = ip_frame d' e' b.
Proof.
  intros Hd' He'. unfold splice. rewrite !length_app, Hd', He'. simpl.
  destruct d as [|? [|? [|? [|? [|? [|? [|]]]]]]]; try discriminate Hd;
  destruct e as [|? [|? [|? [|? [|? [|? [|]]]]]]]; try discriminate He. unfold ip_frame. simpl.
  rewrite drop_0. by rewrite <-!app_assoc.
Qed.

Lemma drop_frame b : drop 14 (ip_frame d e b) = b.
Proof.
  destruct d as [|? [|? [|? [|? [|? [|? [|]]]]]]]; try discriminate Hd;
  destruct e as [|? [|? [|? [|? [|? [|? [|]]]]]]]; try discriminate He; apply drop_0.
Qed.

Lemma drop_body tos len id frag ttl proto chksum src dst b :
  drop 34 (ip_frame d e (ip_header tos len id frag ttl proto chksum src dst ++ b)) = b.
Proof. change 34%nat with (14 + 20)%nat. rewrite <-drop_drop, drop_frame. apply drop_0. Qed.

Lemma ip_frame_length b : length (ip_frame d e b) = (14 + length b)%nat.
Proof. unfold ip_frame. rewrite !length_app, Hd, He. done. Qed.
End Write.

(** ** A board with a frame

    The addresses of the configuration, one host in the table, and a frame that
    the driver has just put into a buffer. *)

Definition ip4 (b0 b1 b2 b3 : Z) : Z := le_num [b0; b1; b2; b3].
Definition sample_mac : list Z := [0; 4; 163; 17; 34; 51].
Definition sample_host : list Z := [2; 11; 12; 13; 14; 15].

Definition sample_if : netif :=
  Netif NULL (ip4 192 168 1 210) (ip4 255 255 255 0) (ip4 192 168 1 1) 1500 6 sample_mac 35.

Definition empty_entry : etharp_entry := EtharpEntry NULL 0 NULL ethzero ETHARP_STATE_EMPTY 0.

Definition sample_arp : arp_globals :=
  ArpGlobals (repeat empty_entry 4 ++
    EtharpEntry NULL (ip4 192 168 1 5) 50 sample_host ETHARP_STATE_STABLE 3 :: repeat empty_entry 5) 0 ∅.

Definition sample_mem (frame : list Z) : netmem :=
  NetMem (list_to_map (zip (seqZ 4128 (Z.of_nat (length frame))) frame))
    {[ 4096 := rambuf 4128 (Z.of_nat (length frame)) 0 ]} [] 0 [] 0 ∅.

Definition sample_net (frame : list Z) : net :=
  Net (sample_mem frame) {[ 50 := sample_if ]} 50 50 sample_arp [] [] (IpGlobals 7 NULL NULL 0 0)
    (UdpGlobals ∅ NULL 49152 []) (RawGlobals ∅ NULL [] []) tcp_start tmo_start.

Lemma sample_if_up : if_up sample_if.
Proof.
  constructor; [done..|]. constructor; [done| |by compute].
  split; [done|]. apply Forall_forall. intros b Hb. unfold sample_if, sample_mac in Hb. simpl in Hb.
  repeat (apply elem_of_cons in Hb as [->|Hb]; [unfold is_byte; lia|]). by apply not_elem_of_nil in Hb.
Qed.

Lemma sample_sender : sender sample_if (ip4 192 168 1 5).
Proof. constructor; [by compute|done]. Qed.

Lemma sample_reaches frame : reaches (sample_net frame) sample_if (ip4 192 168 1 5) sample_host.
Proof.
  constructor; [done..|]. change (next_hop sample_if (ip4 192 168 1 5)) with (ip4 192 168 1 5).
  assert (forall e, e ∈ arp_table sample_arp -> e = empty_entry \/
    e = EtharpEntry NULL (ip4 192 168 1 5) 50 sample_host ETHARP_STATE_STABLE 3) as Hall.
  { intros e [He|He]%elem_of_app; [left; by apply list_elem_of_In, repeat_spec in He|].
    apply elem_of_cons in He as [->|He]; [by right|]. left. by apply list_elem_of_In, repeat_spec in He. }
  constructor; [done|by compute| |intros e [->| ->]%Hall; done|].
  - eexists. split; [by apply elem_of_app; right; apply list_elem_of_here|done].
  - split; [done|]. unfold sample_host. by repeat apply Forall_cons_2.
Qed.
