(* ===== verification/Echo.v ===== *)
(** * Echo requests are answered

    The whole way of an ICMP echo request: from the Ethernet frame through
    [ethernet_input], [ip_input], [icmp_input], [ip_output_if] and
    [etharp_output] to the frame with the answer. *)

From S2P Require Import Prelude StateM LwipMem Chksum IpAddr Pbuf PbufRef PbufData NetState Etharp IpOut Icmp Udp Raw NetInput Packet Frames.

(** An ICMP echo message; [rest] holds identifier, sequence number and data. *)
Definition echo_message (type code chksum : Z) (rest : list Z) : list Z :=
  [type; code] ++ be16 chksum ++ rest.

Lemma echo_length type code c rest :
  20 + Z.of_nat (length (echo_message type code c rest)) = 24 + Z.of_nat (length rest).
Proof. unfold echo_message. rewrite !length_app. simpl. lia. Qed.

(** ** The checksum of the answer *)

(** [iecho->chksum] after the type has changed from 8 to 0. *)
Definition echo_chksum (chksum : Z) : Z :=
  if lwip_htons (65535 - Z.shiftl ICMP_ECHO 8) <=? chksum
  then u16 (chksum + (lwip_htons (Z.shiftl ICMP_ECHO 8) + 1))
  else u16 (chksum + lwip_htons (Z.shiftl ICMP_ECHO 8)).

Lemma le_num_zero bs : Forall is_byte bs -> le_num bs = 0 -> Forall (fun b => b = 0) bs.
Proof.
  induction 1 as [|b bs Hb Hbs IH]; [constructor|]. simpl. intros H.
  pose proof (le_num_nonneg _ Hbs). unfold is_byte in Hb. constructor; [lia|]. apply IH. lia.
Qed.

(** The difference of the sums is a multiple of 65535. *)
Lemma echo_chksum_ok code c rest :
  is_byte code -> 0 <= c < 65536 -> Forall is_byte rest -> Exists (fun b => b <> 0) (code :: rest) ->
  rfc1071_chksum ([8; code] ++ le_bytes 2 c ++ rest) = 0 ->
  rfc1071_chksum ([0; code] ++ le_bytes 2 (echo_chksum c) ++ rest) = 0.
Proof.
  intros Hc Rc Hr Hex H.
  assert (forall t x, is_byte t -> Forall is_byte ([t; code] ++ le_bytes 2 x ++ rest)) as Hb.
  { intros t x Ht. apply Forall_app_2; [by repeat apply Forall_cons_2|]. apply Forall_app_2; [apply le_bytes_byte|done]. }
  assert (forall t x, 0 <= x < 65536 -> le_num ([t; code] ++ le_bytes 2 x ++ rest) =
    t + 256 * (code + 256 * (x + 65536 * le_num rest))) as Hle.
  { intros t x Hx. change (le_num ([t; code] ++ ?l)) with (t + 256 * (code + 256 * le_num l)).
    rewrite le_num_app, le_num_bytes by (simpl; lia). done. }
  apply rfc1071_oeq_zero in H; [|apply Hb; unfold is_byte; lia]. apply rfc1071_oeq_zero; [apply Hb; unfold is_byte; lia|].
  assert (0 <= echo_chksum c < 65536) as Re.
  { unfold echo_chksum. destruct (_ <=? _); apply (wrap_range 16); lia. }
  rewrite Hle in * by done. pose proof (le_num_nonneg _ Hr) as Rr.
  assert (code + 65536 * le_num rest > 0) as Hpos.
  { destruct (decide (code = 0)) as [->|]; [|unfold is_byte in Hc; lia].
    destruct (decide (le_num rest = 0)) as [E|]; [|lia]. exfalso. apply le_num_zero in E; [|done].
    apply Exists_cons in Hex as [|Hex]; [done|]. apply Exists_exists in Hex as (b & Hin & Hne).
    rewrite Forall_forall in E. by specialize (E _ Hin). }
  transitivity (8 + 256 * (code + 256 * (c + 65536 * le_num rest))); [|done].
  unfold is_byte in Hc. split_and!; [lia|lia| |lia].
  unfold echo_chksum. change (lwip_htons (65535 - Z.shiftl ICMP_ECHO 8)) with 65527.
  change (lwip_htons (Z.shiftl ICMP_ECHO 8)) with 8.
  destruct (Z.leb_spec 65527 c); unfold wrap; change (2 ^ 16) with 65536.
  - replace ((c + (8 + 1)) mod 65536) with (c + 9 - 65536) by (Z.div_mod_to_equations; lia).
    exists (8 - 65536). lia.
  - rewrite Z.mod_small by lia. exists 8. lia.
Qed.

(** ** The way of the packet *)

Section Echo.
Context (tcp_input : Z -> Z -> NetM unit).
Context (st0 : netmem) (p a inp : Z) (n : netif) (s : net).
Context (Hn : n_ifs s !! inp = Some n) (Hinp : inp <> NULL) (Hup : if_up n).
Context (Hroom : p + SIZEOF_STRUCT_PBUF + 2 <= a).
Context (dmac smac mac : list Z) (Hd : length dmac = 6%nat) (Hs : length smac = 6%nat).
Context (tos id frag ttl chksum src code c : Z) (rest pad : list Z).
Context (Hsrc : 0 <= src < 2 ^ 32) (Hre : reaches s n src mac) (Hc : 0 <= c < 65536).

Let L := 20 + Z.of_nat (length (echo_message 8 code c rest)).
Let me := ni_ip_addr n.
Context (HL : L < 65500).

(** The answer. *)
Definition echo_reply : list Z :=
  let hc := rfc1071_chksum (ip_header tos L id frag 255 1 0 me src) in
  ip_header tos L id frag 255 1 hc me src ++ [0; code] ++ le_bytes 2 (echo_chksum (lwip_htons c)) ++ rest.

Lemma nwp_echo_answer st flags (Q : unit -> net -> Prop) g0 :
  packet st0 st p a (ip_frame dmac smac (ip_header tos L id frag ttl 1 chksum src me ++
                       echo_message 8 code c rest ++ pad)) (Z.of_nat 34) (L - 20) flags ->
  current_iphdr_dest g0 = me -> current_iphdr_src g0 = src ->
  (forall st' g r w, packet st0 st' p a w 0 (L + 14) flags -> length w = (14 + Z.to_nat L + length pad)%nat ->
     arp_table g = arp_table (n_arp s) -> arp_queue g = arp_queue (n_arp s) ->
     Q tt (set_mem st' (set_link r (link_sent s ++ [(inp, ip_frame mac (ni_hwaddr n) echo_reply)])
             (set_arp g (set_ip g0 s))))) ->
  nwp (echo_answer p (a + Z.of_nat 14) 20 inp) Q (set_mem st (set_ip g0 s)).
Proof.
  intros H Hg1 Hg2 HQ. pose proof (echo_length 8 code c rest : L = _) as EL. pose proof (htons_range c Hc) as Rc.
  assert (forall tos len id frag ttl proto chksum src dst b,
    length (ip_frame dmac smac (ip_header tos len id frag ttl proto chksum src dst ++ b)) = (34 + length b)%nat) as Lf.
  { intros. rewrite ip_frame_length, length_app by done. simpl. lia. }
  assert (forall x y, length (x :: y :: be16 c ++ rest ++ pad) = (4 + length rest + length pad)%nat) as Lb.
  { intros. simpl. by rewrite length_app. }
  unfold echo_answer. apply nwp_bind. apply (nwp_getp H).
  change (pb_payload (rambuf (a + Z.of_nat 34) (L - 20) flags)) with (a + Z.of_nat 34).
  apply nwp_bind, nwp_sget. change (n_ip (set_mem st (set_ip g0 s))) with g0. rewrite Hg1, Hg2.
  unfold echo_message in H. rewrite <-!app_assoc in H. cbn [app] in H.
  apply nwp_bind. apply (nwp_store_le H 26); [lia|rewrite Lf, Lb; simpl; lia|].
  intros st1 H1. rewrite write_src in H1 by done.
  apply nwp_bind. apply (nwp_store_le H1 30); [lia|rewrite Lf, Lb; simpl; lia|].
  intros st2 H2. rewrite write_dst in H2 by done.
  apply nwp_bind. apply (nwp_store_le H2 34); [lia|rewrite Lf, Lb; simpl; lia|].
  intros st3 H3. change 34%nat with (34 + 0)%nat in H3 at 1. rewrite write_body in H3 by done.
  change (splice 0 (le_bytes (Z.to_nat 1) ICMP_ER) (8 :: code :: be16 c ++ rest ++ pad))
    with (0 :: code :: be16 c ++ rest ++ pad) in H3.
  apply nwp_bind. apply (nwp_load_le H3 36); [lia|rewrite Lf, Lb; simpl; lia|].
  change 36%nat with (34 + 2)%nat. rewrite <-drop_drop, drop_body by done.
  change (take (Z.to_nat 2) (drop 2 (0 :: code :: be16 c ++ rest ++ pad))) with (be16 c).
  rewrite le_num_be16 by done. fold (echo_chksum (lwip_htons c)).
  apply nwp_bind. apply (nwp_store_le H3 36); [lia|rewrite Lf, Lb; simpl; lia|].
  intros st4 H4. change 36%nat with (34 + 2)%nat in H4. rewrite write_body in H4 by done.
  set (x := echo_chksum (lwip_htons c)) in *.
  change (splice 2 (le_bytes (Z.to_nat 2) x) (0 :: code :: be16 c ++ rest ++ pad))
    with (0 :: code :: le_bytes 2 x ++ drop 0 (rest ++ pad)) in H4. rewrite drop_0 in H4.
  assert (length (0 :: code :: le_bytes 2 x ++ rest ++ pad) = (4 + length rest + length pad)%nat) as Lx.
  { simpl. by rewrite length_app. }
  set (body := 0 :: code :: le_bytes 2 x ++ rest ++ pad) in *.
  apply nwp_bind. apply (nwp_store_le H4 22); [lia|rewrite Lf, Lx; simpl; lia|].
  intros st5 H5. change (le_bytes (Z.to_nat 1) ICMP_TTL) with [255] in H5. rewrite write_ttl in H5 by done.
  apply nwp_bind. apply (nwp_store_le H5 24); [lia|rewrite Lf, Lx; simpl; lia|].
  intros st6 H6. change (le_bytes (Z.to_nat 2) 0) with (be16 0) in H6. rewrite write_chksum in H6 by done.
  apply nwp_bind. eapply nwp_mem.
  { eapply (packet_chksum _ _ _ _ _ _ _ _ 14); [exact H6|lia|done|rewrite Lf, Lx; change (Z.to_nat IP_HLEN) with 20%nat; lia]. }
  rewrite drop_frame by done. set (hdr0 := ip_header tos L id frag 255 1 0 me src) in *.
  change (take (Z.to_nat IP_HLEN) (hdr0 ++ body)) with hdr0. set (hc := rfc1071_chksum hdr0).
  assert (0 <= hc < 65536) as Rhc.
  { assert (Forall is_byte hdr0) as Hb0.
    { pose proof (pk_byte _ _ _ _ _ _ _ _ H6) as Hw. unfold ip_frame in Hw.
      rewrite !Forall_app in Hw. apply Hw. }
    pose proof (rfc1071_range _ Hb0). unfold hc, rfc1071_chksum. lia. }
  unfold hdr0 in H6. apply nwp_bind. apply (nwp_store_le H6 24); [lia|rewrite Lf, Lx; simpl; lia|].
  intros st7 H7. change (le_bytes (Z.to_nat 2)) with (le_bytes 2) in H7.
  rewrite be16_le_bytes, write_chksum in H7 by done.
  apply nwp_bind. apply (nwp_header H7); [lia|lia|lia|lia|]. intros st8 H8.
  apply nwp_bind, nwp_assert; [done|]. apply nwp_bind. unfold ip_output_if.
  apply nwp_bind. apply (nwp_getp H8). apply nwp_bind, nwp_assert; [done|].
  change (pb_payload (rambuf (a + (Z.of_nat 34 - 20)) (L - 20 + 20) flags)) with (a + (Z.of_nat 34 - 20)).
  apply nwp_bind. apply (nwp_load_le H8 30); [lia|rewrite Lf, Lx; simpl; lia|].
  change 30%nat with (14 + 16)%nat. rewrite <-drop_drop, drop_frame by done.
  change (take (Z.to_nat 4) (drop 16 (ip_header tos L id frag 255 1 hc me src ++ body))) with (le_bytes 4 src).
  rewrite le_num_4 by done.
  replace (Z.of_nat 34 - 20) with (Z.of_nat (0 + 14)) in H8 by lia.
  eapply (nwp_etharp_output _ _ _ _ _ 0); [exact H8|simpl; lia|exact Hn|apply Hup|by apply (reaches_arp s)|].
  intros st9 g r e H9 Hg3 Hg4. apply nwp_ret.
  destruct (rs_mac _ _ _ (re_mac _ _ _ _ Hre)) as [Lm _]. destruct (io_hw _ (iu_ok _ Hup)) as [Lh _].
  rewrite write_macs in H9 by done.
  replace (L - 20 + 20 + 14) with (L + 14) in H9 by lia.
  replace (mac ++ ni_hwaddr n ++ [8; 0] ++ _) with (ip_frame mac (ni_hwaddr n) echo_reply).
  { eapply HQ; [exact H9| |done|done]. rewrite ip_frame_length, length_app, Lx by done.
    change (length (ip_header _ _ _ _ _ _ _ _ _)) with 20%nat. lia. }
  unfold ip_frame at 1. do 3 f_equal. simpl (0 + 14)%nat. rewrite drop_frame by done.
  unfold echo_reply. fold hdr0 hc. change (ip_header tos L id frag 255 1 hc me src ++ body) with
    ((ip_header tos L id frag 255 1 hc me src ++ [0; code] ++ le_bytes 2 x) ++ rest ++ pad).
  rewrite take_app_ge; [|simpl; lia].
  rewrite take_app_le; [|simpl; lia]. rewrite take_ge; [|simpl; lia]. by rewrite <-!app_assoc.
Qed.

(** The buffer has room for the headers. *)
Lemma echo_room_same st w len flags iphdr hlen :
  packet st0 st p a w (Z.of_nat 34) len flags -> 0 <= len < 65500 ->
  exists st', echo_room p iphdr hlen st = Some (Some (p, iphdr), st') /\
    packet st0 st' p a w (Z.of_nat 34) len flags.
Proof.
  intros H Hl. pose proof (pk_len _ _ _ _ _ _ _ _ H) as Hw. unfold PBUF_IP_HLEN, PBUF_LINK_HLEN in *.
  destruct (packet_header _ _ _ _ _ _ _ _ 36 H) as (st1 & E1 & H1); [lia..|].
  unfold echo_room. rewrite (bind_Some _ _ _ _ _ E1). cbn [Z.eqb negb].
  destruct (packet_header _ _ _ _ _ _ _ _ (-36) H1) as (st2 & E2 & H2); [lia..|].
  change (- (PBUF_IP_HLEN + PBUF_LINK_HLEN)) with (-36). rewrite (bind_Some _ _ _ _ _ E2).
  exists st2. split; [done|].
  by replace (Z.of_nat 34 - 36 - -36) with (Z.of_nat 34) in H2 by lia; replace (len + 36 + -36) with len in H2 by lia.
Qed.

(** [icmp_input] answers the request in the same buffer and releases it. *)
Lemma nwp_icmp_echo st flags (Q : unit -> net -> Prop) g0 :
  packet st0 st p a (ip_frame dmac smac (ip_header tos L id frag ttl 1 chksum src me ++
                       echo_message 8 code c rest ++ pad)) (Z.of_nat 14) L flags ->
  (4 <= length rest)%nat -> rfc1071_chksum (echo_message 8 code c rest) = 0 ->
  current_iphdr_dest g0 = me -> current_iphdr_src g0 = src ->
  (forall m g r, arp_table g = arp_table (n_arp s) -> arp_queue g = arp_queue (n_arp s) ->
     Q tt (set_mem (set_ram m st0) (set_link r (link_sent s ++ [(inp, ip_frame mac (ni_hwaddr n) echo_reply)])
             (set_arp g (set_ip g0 s))))) ->
  nwp (icmp_input p inp) Q (set_mem st (set_ip g0 s)).
Proof.
  intros H Hrest Hchk Hg1 Hg2 HQ. pose proof (echo_length 8 code c rest : L = _) as EL.
  set (msg := echo_message 8 code c rest) in *.
  assert (length msg = (4 + length rest)%nat) as Lm by done.
  unfold icmp_input. apply nwp_bind, (nwp_getp H).
  change (pb_payload (rambuf (a + Z.of_nat 14) L flags)) with (a + Z.of_nat 14).
  apply nwp_bind. eapply nwp_mem.
  { unfold ip_hlen. rewrite (bind_Some _ _ _ 69 st); [done|].
    rewrite (field_le _ _ _ _ _ _ _ _ 14 _ H (drop_frame _ _ Hd Hs _) 0); [done|lia|lia|].
    rewrite length_app. simpl. lia. }
  change (4 * (69 &. 15)) with 20.
  apply nwp_bind, (nwp_header H); [lia|lia|unfold SIZEOF_STRUCT_PBUF in *; lia|lia|]. intros st1 H1.
  apply nwp_bind, (nwp_getp H1). change (Z.opp 20) with (-20) in *. change (Z.of_nat 14 - -20) with (Z.of_nat 34) in *. cbn [Z.eqb negb orb].
  change (pb_tot_len (rambuf (a + Z.of_nat 34) (L + -20) flags)) with (L + -20).
  change (pb_payload (rambuf (a + Z.of_nat 34) (L + -20) flags)) with (a + Z.of_nat 34).
  destruct (Z.ltb_spec (L + -20) 4); [lia|]. change (negb (0 =? 0) || false) with false. cbv iota.
  apply nwp_bind, (nwp_load_le H1 34); [lia|rewrite ip_frame_length, !length_app, Lm by done; simpl; lia|].
  rewrite drop_body by done. change (le_num (take (Z.to_nat 1) (msg ++ pad))) with ICMP_ECHO. rewrite Z.eqb_refl.
  apply nwp_bind, nwp_sget. apply nwp_bind. eapply nwp_getif; [exact Hn|].
  change (n_ip (set_mem st1 (set_ip g0 s))) with g0. rewrite Hg1.
  destruct (iu_unicast _ Hup) as [Hb Hm]. fold me in Hb, Hm. rewrite Hb, Hm.
  destruct (Z.ltb_spec (L + -20) SIZEOF_ICMP_ECHO_HDR) as [Hx|_]; [unfold SIZEOF_ICMP_ECHO_HDR in Hx; lia|].
  change (false || truthy 0) with false. cbv iota.
  apply nwp_bind. eapply nwp_mem; [eapply packet_chksum_pbuf; [exact H1|lia]|].
  rewrite drop_body by done. replace (Z.to_nat (L + -20)) with (length msg) by lia.
  rewrite take_app_length, Hchk. change (negb (lwip_htons 0 =? 0)) with false. cbv iota.
  destruct (echo_room_same _ _ _ _ (a + Z.of_nat 14) 20 H1) as (st2 & E2 & H2); [lia..|].
  apply nwp_bind. eapply nwp_mem; [exact E2|]. cbv iota. apply nwp_bind.
  apply (nwp_echo_answer st2 flags); [exact H2|done|done|].
  intros st3 g r w H3 Lw Hg3 Hg4. apply nwp_bind, (nwp_free H3). intros ?. apply nwp_ret. by apply HQ.
Qed.

End Echo.

(** ** The whole way *)

(** The frame of an echo request to [me]. *)
Definition echo_request dmac smac tos id frag ttl chksum src me code c rest pad : list Z :=
  ip_frame dmac smac (ip_header tos (24 + Z.of_nat (length rest)) id frag ttl 1 chksum src me ++
    echo_message 8 code c rest ++ pad).

(** It is whole, complete and correct. *)
Record echo_ok tos id frag ttl chksum src me code c (rest : list Z) : Prop := {
  eo_frag : 0 <= frag < 65536 /\ frag &. 16383 = 0;
  eo_len : (4 <= length rest)%nat /\ 24 + Z.of_nat (length rest) < 65500;
  eo_header : rfc1071_chksum (ip_header tos (24 + Z.of_nat (length rest)) id frag ttl 1 chksum src me) = 0;
  eo_chksum : 0 <= c < 65536 /\ rfc1071_chksum (echo_message 8 code c rest) = 0;
}.

Lemma ping_run tcp_input s p inp n dmac smac mac tos id frag ttl chksum src code c rest pad :
  n_ifs s !! inp = Some n -> inp <> NULL -> if_up n -> raw_pcbs (n_raw s) = NULL ->
  length dmac = 6%nat -> length smac = 6%nat -> sender n src -> reaches s n src mac ->
  echo_ok tos id frag ttl chksum src (ni_ip_addr n) code c rest ->
  received (n_mem s) p (echo_request dmac smac tos id frag ttl chksum src (ni_ip_addr n) code c rest pad) ->
  nwp (ethernet_input tcp_input p inp) (fun err s' =>
    err = ERR_OK /\
    link_sent s' = link_sent s ++ [(inp, ip_frame mac (ni_hwaddr n) (echo_reply n tos id frag src code c rest))] /\
    pbufs (n_mem s') = delete p (pbufs (n_mem s)) /\ arp_table (n_arp s') = arp_table (n_arp s)) s.
Proof.
  intros Hn Hinp Hup Hraw Ld Ls Hsrc Hre [Hfrag [Hlen HL] Hhdr [Hc Hchk]] Hrc.
  pose proof (received_packet _ _ _ Hrc) as H. set (me := ni_ip_addr n) in *.
  set (a := p + SIZEOF_STRUCT_PBUF + PBUF_LINK_HLEN) in *. set (msg := echo_message 8 code c rest) in *.
  set (L := 24 + Z.of_nat (length rest)) in *.
  assert (20 + Z.of_nat (length msg) = L) as EL by (unfold L, msg, echo_message; simpl; lia).
  rewrite <-(set_mem_id s).
  eapply (nwp_ethernet_ip _ _ _ _ _ n); [exact Hn|apply Hup|exact H|done|done|done|unfold a, PBUF_LINK_HLEN; lia|].
  intros st1 f1 H1. pose proof (pk_len _ _ _ _ _ _ _ _ H1) as Hwin. rewrite ip_frame_length in Hwin by done.
  eapply (nwp_ip_input _ _ _ _ _ n s Hn Hinp Hup tos id frag ttl 1 chksum src msg pad);
    [done|done|by rewrite EL|exact H1| |rewrite ip_frame_length by done; lia|].
  { rewrite EL. by apply drop_frame. }
  rewrite EL. intros st2 H2. unfold ip_dispatch. apply nwp_bind, nwp_sget. apply nwp_bind.
  eapply nwp_raw_none; [exact H2| |done|].
  { rewrite ip_frame_length, length_app by done. simpl. lia. }
  cbn [Z.eqb]. apply nwp_bind, (nwp_load_le H2 23); [lia|rewrite ip_frame_length, length_app by done; simpl; lia|].
  change 23%nat with (14 + 9)%nat. rewrite <-drop_drop, drop_frame by done.
  change (le_num _) with 1. change (1 =? IP_PROTO_UDP) with false. change (1 =? IP_PROTO_TCP) with false.
  change (1 =? IP_PROTO_ICMP) with true. cbv iota.
  eapply (nwp_icmp_echo (without p (n_mem s)) p a inp n s Hn Hup ltac:(unfold a, PBUF_LINK_HLEN; lia)
    dmac smac mac Ld Ls tos id frag ttl chksum src code c rest pad);
    [apply Hsrc|done|done|fold msg; lia|fold msg; rewrite EL; exact H2|done|done|done|done|].
  intros m g r Hg1 Hg2. done.
Qed.

(** The answer carries checksums that verify. *)
Lemma echo_reply_ok n tos id frag ttl chksum src code c rest :
  echo_ok tos id frag ttl chksum src (ni_ip_addr n) code c rest ->
  Forall is_byte (ip_header tos (24 + Z.of_nat (length rest)) id frag ttl 1 chksum src (ni_ip_addr n)) ->
  is_byte code -> Forall is_byte rest ->
  exists hc rc, 0 <= rc < 65536 /\
    echo_reply n tos id frag src code c rest =
      ip_header tos (24 + Z.of_nat (length rest)) id frag 255 1 hc (ni_ip_addr n) src ++ echo_message 0 code rc rest /\
    rfc1071_chksum (ip_header tos (24 + Z.of_nat (length rest)) id frag 255 1 hc (ni_ip_addr n) src) = 0 /\
    (Exists (fun b => b <> 0) (code :: rest) -> rfc1071_chksum (echo_message 0 code rc rest) = 0).
Proof.
  intros [_ _ _ [Hc Hchk]] Hb Hcode Hrest. set (L := 24 + Z.of_nat (length rest)) in *.
  set (x := echo_chksum (lwip_htons c)). assert (0 <= x < 65536) as Rx.
  { unfold x, echo_chksum. destruct (_ <=? _); apply (wrap_range 16); lia. }
  exists (rfc1071_chksum (ip_header tos L id frag 255 1 0 (ni_ip_addr n) src)), (lwip_htons x).
  assert (le_bytes 2 x = be16 (lwip_htons x)) as Ex by (rewrite <-be16_le_bytes, htons_involutive by (try apply htons_range; done); done).
  split; [by apply htons_range|]. split_and!.
  - unfold echo_message. rewrite <-Ex. unfold echo_reply. rewrite echo_length. done.
  - apply ip_header_chksum. unfold ip_header in *. rewrite !Forall_app in *. destruct Hb as (Ha & Hl & Hi & Hf & Ht & _).
    apply Forall_cons in Ht as [_ Ht]. split_and!; try done; try apply le_bytes_byte; [by apply Forall_cons_2|by apply be16_byte].
  - intros Hex. unfold echo_message. rewrite <-Ex. apply echo_chksum_ok; [done|by apply htons_range|done..|].
    by rewrite be16_le_bytes.
Qed.


(** A request for eleven bytes. *)
Definition sample_echo : list Z :=
  echo_request sample_mac sample_host 0 1 16384 64 46771 (ip4 192 168 1 5) (ip4 192 168 1 210) 0 51762
    [1; 2; 3; 4; 97; 98; 99; 100; 101] [0; 0; 0].

