(* ===== verification/UdpList.v ===== *)
(** * The control blocks of core/udp.c

    The operations of Udp work on a linked list.  Here they are related to an
    abstract state, the order of the control blocks and their fields: which
    block gets a datagram, which ports are given out, and that two blocks never
    claim the same port. *)

From S2P Require Import Prelude StateM LwipMem Chksum IpAddr Pbuf NetState Etharp IpOut Icmp Udp Raw NetInput Packet Frames.

(** ** The abstract state *)

Definition strip (m : gmap Z udp_pcb) : gmap Z udp_pcb := set_up_next NULL <$> m.

(** The blocks in the list, in order. *)
Definition udp_order (g : udp_globals) (o : list Z) : Prop :=
  exists l, lchain up_next (udp_pcb_map g) (udp_pcbs g) l /\ l.*1 = o.

Lemma strip_lookup m x : strip m !! x = set_up_next NULL <$> m !! x.
Proof. apply lookup_fmap. Qed.

Lemma strip_next m x u v : m !! x = Some u -> strip (<[x := set_up_next v u]> m) = strip m.
Proof.
  intros Hu. apply map_eq. intros y. rewrite !strip_lookup. destruct (decide (y = x)) as [->|].
  - by rewrite lookup_insert_eq, Hu.
  - by rewrite lookup_insert_ne.
Qed.

Lemma nwp_getu pcb u (Q : udp_pcb -> net -> Prop) s :
  udp_pcb_map (n_udp s) !! pcb = Some u -> Q u s -> nwp (getu pcb) Q s.
Proof. intros Hu HQ. eapply nwp_run; [|done]. unfold getu. by rewrite Hu. Qed.

(** ** Demultiplexing *)

Section Demux.
Context (dest src daddr saddr : Z) (broadcast : bool) (n : netif).

(** The block is connected to the sender of the datagram. *)
Definition perfect (m : gmap Z udp_pcb) (x : Z) : bool :=
  match m !! x with
  | Some u => udp_local_match u dest daddr broadcast n && (up_remote_port u =? src) &&
              (ip_addr_isany (up_remote_ip u) || (up_remote_ip u =? saddr))
  | None => false
  end.

(** It is not connected, and bound to the address. *)
Definition open (m : gmap Z udp_pcb) (x : Z) : bool :=
  match m !! x with
  | Some u => udp_local_match u dest daddr broadcast n && negb (truthy (up_flags u &. UDP_FLAGS_CONNECTED))
  | None => false
  end.

Definition first_of (f : Z -> bool) (o : list Z) : option Z := head (base.filter f o).

(** The block for a datagram: a connected one before an open one. *)
Definition demux (m : gmap Z udp_pcb) (o : list Z) : Z :=
  match first_of (perfect m) o with
  | Some x => x
  | None => default NULL (first_of (open m) o)
  end.

(** A connected block moves to the front of the list. *)
Definition demux_order (m : gmap Z udp_pcb) (o : list Z) : list Z :=
  match first_of (perfect m) o with
  | Some x => x :: base.filter (fun y => y <> x) o
  | None => o
  end.

Lemma first_of_cons f x o : first_of f (x :: o) = if f x then Some x else first_of f o.
Proof. unfold first_of. rewrite filter_cons. by destruct (f x); case_decide. Qed.

Lemma first_of_app f o1 o2 :
  first_of f (o1 ++ o2) = match first_of f o1 with Some x => Some x | None => first_of f o2 end.
Proof. unfold first_of. rewrite filter_app. by destruct (base.filter f o1). Qed.

(** The move to the front: [w] is the block before [x]. *)
Lemma nwp_to_front g l1 w uw x u l2 s (Q : unit -> net -> Prop) :
  n_udp s = g -> lchain up_next (udp_pcb_map g) (udp_pcbs g) (l1 ++ (w, uw) :: (x, u) :: l2) ->
  (forall g', udp_order g' (x :: l1.*1 ++ w :: l2.*1) -> strip (udp_pcb_map g') = strip (udp_pcb_map g) ->
     udp_port g' = udp_port g -> udp_rx g' = udp_rx g -> Q tt (set_udp g' s)) ->
  nwp (up ← getu w; putu w (set_up_next (up_next u) up) ;; udp_push x) Q s.
Proof.
  intros <- H HQ. set (g := n_udp s) in *.
  assert (lchain up_next (udp_pcb_map g) (udp_pcbs g) ((l1 ++ [(w, uw)]) ++ (x, u) :: l2)) as Hxs by by rewrite <-app_assoc.
  apply lchain_split_NoDup in Hxs as [Hx1 Hx2]. rewrite fmap_app in Hx1. apply not_elem_of_app in Hx1 as [Hx1 Hxw].
  assert (udp_pcb_map g !! w = Some uw /\ udp_pcb_map g !! x = Some u /\ x <> NULL) as (Ew & Ex & Hx).
  { split; [|split]; eapply (lseg_elem _ _ _ _ _ _ _ H); apply elem_of_app; right; repeat constructor. }
  assert (x <> w) as Hne by (intros ->; apply Hxw, list_elem_of_here).
  pose proof (lchain_unlink _ _ _ _ _ _ _ _ _ (set_up_next (up_next u) uw) H eq_refl) as H'.
  set (m1 := <[w := set_up_next (up_next u) uw]> (udp_pcb_map g)) in *.
  assert (m1 !! x = Some u) as Ex1 by (unfold m1; by rewrite lookup_insert_ne).
  apply nwp_bind. eapply nwp_getu; [exact Ew|]. apply nwp_bind, nwp_supd.
  unfold udp_push. apply nwp_bind, nwp_sget. apply nwp_bind. eapply nwp_getu; [exact Ex1|].
  apply nwp_bind, nwp_supd, nwp_supd.
  set (g' := UdpGlobals (<[x := set_up_next (udp_pcbs g) u]> m1) x (udp_port g) (udp_rx g)).
  apply (HQ g'); [|simpl|done..].
  - eexists. split; [apply (lchain_push up_next m1 (udp_pcbs g)); [exact H'| |done|done]|by rewrite fmap_cons, fmap_app].
    rewrite fmap_app, fmap_cons. apply not_elem_of_app. split; [done|]. apply not_elem_of_cons. split; done.
  - rewrite strip_next by done. unfold m1. by rewrite strip_next.
Qed.

(** What the search leaves behind. *)
Definition demuxed (s : net) (o : list Z) (r : Z) (s' : net) : Prop :=
  let g := n_udp s in
  exists g', s' = set_udp g' s /\ r = demux (udp_pcb_map g) o /\
    udp_order g' (demux_order (udp_pcb_map g) o) /\ strip (udp_pcb_map g') = strip (udp_pcb_map g) /\
    udp_port g' = udp_port g /\ udp_rx g' = udp_rx g.

Lemma first_of_elem f o y : first_of f o = Some y -> y ∈ o.
Proof.
  unfold first_of. intros H. assert (y ∈ base.filter f o) as [_ Hin]%list_elem_of_filter; [|done].
  destruct (base.filter f o); [done|]. injection H as ->. apply list_elem_of_here.
Qed.

Lemma filter_out (x : Z) (o : list Z) : x ∉ o -> base.filter (fun y => y <> x) o = o.
Proof.
  induction o as [|y o IH]; [done|]. intros [H1 H2]%not_elem_of_cons. rewrite filter_cons, decide_True by done.
  by rewrite IH.
Qed.

Lemma nwp_udp_match s l1 l2 fuel (pcb prev uncon : Z) (o := l1.*1 ++ l2.*1) :
  let m := udp_pcb_map (n_udp s) in
  lchain up_next m (udp_pcbs (n_udp s)) (l1 ++ l2) -> lseg up_next m (udp_pcbs (n_udp s)) l1 pcb ->
  (length l2 < fuel)%nat -> prev = default NULL (last l1.*1) ->
  first_of (perfect m) l1.*1 = None -> uncon = default NULL (first_of (open m) l1.*1) ->
  nwp (udp_match fuel pcb prev uncon dest src daddr saddr broadcast n) (demuxed s o) s.
Proof.
  intros m H Hs Hf Hprev Hper Hun. revert l1 pcb prev uncon fuel o H Hs Hf Hprev Hper Hun.
  induction l2 as [|[x u] l2 IH]; intros l1 pcb prev uncon fuel o H Hs Hf Hprev Hper Hun;
    (destruct fuel as [|fuel]; [simpl in Hf; lia|]); cbn [udp_match].
  - rewrite app_nil_r in H. assert (pcb = NULL) as ->.
    { by eapply lseg_end. }
    rewrite Z.eqb_refl. apply nwp_ret. exists (n_udp s). unfold o. rewrite app_nil_r. unfold demux, demux_order.
    fold m. rewrite Hper. split_and!; try done; [by destruct s|by exists l1].
  - assert (pcb = x /\ x <> NULL /\ m !! x = Some u) as (-> & Hx & Ex).
    { pose proof H as (r & Hr & -> & ? & ? & _)%lseg_app. split_and!; [by eapply lseg_end|done..]. }
    destruct (Z.eqb_spec x NULL) as [|_]; [done|]. apply nwp_bind. eapply nwp_getu; [exact Ex|].
    assert (perfect m x = udp_local_match u dest daddr broadcast n && (up_remote_port u =? src) &&
              (ip_addr_isany (up_remote_ip u) || (up_remote_ip u =? saddr))) as Ep by (unfold perfect; by rewrite Ex).
    rewrite <-Ep. destruct (perfect m x) eqn:Epx.
    + destruct (lchain_split_NoDup _ _ _ _ _ _ _ H) as [N1 N2].
      assert (first_of (perfect m) o = Some x) as Efirst.
      { unfold o. rewrite first_of_app, Hper, fmap_cons, first_of_cons. simpl fst. by rewrite Epx. }
      assert (demux_order m o = x :: l1.*1 ++ l2.*1) as Eord.
      { unfold demux_order. rewrite Efirst. unfold o. rewrite filter_app, fmap_cons, filter_cons, decide_False by naive_solver.
        by rewrite !filter_out. }
      assert (demux m o = x) as Ed by (unfold demux; by rewrite Efirst).
      destruct l1 as [|[w uw] l1' _] using rev_ind.
      * simpl in Hprev. subst prev. cbn [Z.eqb negb swhen]. apply nwp_bind, nwp_ret, nwp_ret.
        exists (n_udp s). fold m. rewrite Eord, Ed. split_and!; try done; [by destruct s|by exists ((x, u) :: l2)].
      * rewrite fmap_app, last_app in Hprev. simpl in Hprev. subst prev.
        assert (w <> NULL) as Hw.
        { eapply (lseg_elem _ _ _ _ _ _ _ H). apply elem_of_app. left. apply elem_of_app. right. apply list_elem_of_here. }
        destruct (Z.eqb_spec w NULL) as [|_]; [done|]. cbn [negb swhen]. apply nwp_bind.
        rewrite <-app_assoc in H. eapply nwp_to_front; [done|exact H|].
        intros g' Ho Hst Hp Hrx. apply nwp_ret. exists g'. fold m. rewrite Eord, Ed. split_and!; try done.
        by rewrite fmap_app, <-app_assoc.
    + replace o with ((l1 ++ [(x, u)]).*1 ++ l2.*1) by (unfold o; rewrite fmap_app, <-app_assoc; done).
      apply IH; [by rewrite <-app_assoc| |simpl in Hf; lia| | |].
      * apply lseg_app. exists x. split; [done|]. done.
      * by rewrite fmap_app, last_app.
      * rewrite fmap_app, first_of_app, Hper. change ([(x, u)].*1) with [x]. by rewrite first_of_cons, Epx.
      * rewrite fmap_app, first_of_app. change ([(x, u)].*1) with [x]. rewrite first_of_cons.
        assert (open m x = udp_local_match u dest daddr broadcast n && negb (truthy (up_flags u &. UDP_FLAGS_CONNECTED))) as Eo
          by (unfold open; by rewrite Ex).
        rewrite Eo. subst uncon. destruct (first_of (open m) l1.*1) as [y|] eqn:Ey; simpl default.
        -- destruct (Z.eqb_spec y NULL) as [|_]; [|by rewrite andb_false_r]. exfalso. subst y.
           apply first_of_elem, list_elem_of_fmap in Ey as ([y v] & Ey & Hin). simpl in Ey. subst y.
           destruct (lseg_elem _ _ _ _ _ _ _ Hs Hin) as [_ Hy]. done.
        -- rewrite Z.eqb_refl, andb_true_r. by destruct (udp_local_match u dest daddr broadcast n), (truthy (up_flags u &. UDP_FLAGS_CONNECTED)).
Qed.
End Demux.

(** The whole search, with the bound that [udp_input] gives it. *)
Lemma nwp_udp_demux dest src daddr saddr broadcast n s o :
  udp_order (n_udp s) o ->
  nwp (udp_match (S (size (udp_pcb_map (n_udp s)))) (udp_pcbs (n_udp s)) NULL NULL dest src daddr saddr broadcast n)
    (demuxed dest src daddr saddr broadcast n s o) s.
Proof.
  intros (l & H & <-). eapply (nwp_udp_match _ _ _ _ _ _ s [] l); try done.
  pose proof (lchain_size _ _ _ _ H). lia.
Qed.

(** ** Ports *)

(** Some block of the list has the port. *)
Definition port_in (m : gmap Z udp_pcb) (o : list Z) (port : Z) : Prop :=
  exists x u, x ∈ o /\ m !! x = Some u /\ up_local_port u = port.

Lemma port_used_ok s l p port fuel :
  lchain up_next (udp_pcb_map (n_udp s)) p l -> (length l < fuel)%nat ->
  exists b, port_used fuel p port s = Some (b, s) /\ (b = true <-> port_in (udp_pcb_map (n_udp s)) l.*1 port).
Proof.
  revert p fuel. induction l as [|[x u] l IH]; intros p fuel H Hf; (destruct fuel as [|fuel]; [simpl in Hf; lia|]);
    simpl in H; cbn [port_used].
  - rewrite H. exists false. split; [done|]. split; [done|]. by intros (x & u & Hx%not_elem_of_nil & _).
  - destruct H as (-> & Hx & Eu & H). destruct (Z.eqb_spec x NULL); [done|].
    rewrite (bind_Some _ _ _ u s) by (unfold getu; by rewrite Eu).
    destruct (Z.eqb_spec (up_local_port u) port) as [E|E].
    + exists true. split; [done|]. split; [|done]. intros _. exists x, u. split; [apply list_elem_of_here|done].
    + destruct (IH (up_next u) fuel H) as (b & -> & Hb); [simpl in Hf; lia|]. exists b. split; [done|]. rewrite Hb.
      split; intros (y & v & Hy & Ev & Ep); exists y, v; (split; [|done]).
      * by apply list_elem_of_further.
      * rewrite fmap_cons in Hy. apply elem_of_cons in Hy as [Hy|]; [|done]. simpl in Hy. subst y. congruence.
Qed.

Definition with_port (q : Z) (s : net) : net :=
  set_udp (UdpGlobals (udp_pcb_map (n_udp s)) (udp_pcbs (n_udp s)) q (udp_rx (n_udp s))) s.

(** The [i]-th port after [p], around the range. *)
Definition port_after (p i : Z) : Z :=
  UDP_LOCAL_PORT_RANGE_START + (p - UDP_LOCAL_PORT_RANGE_START + i) mod 16384.

Definition port_ok (p : Z) : Prop := UDP_LOCAL_PORT_RANGE_START <= p <= UDP_LOCAL_PORT_RANGE_END.

Lemma port_after_next p : port_ok p ->
  (if p =? UDP_LOCAL_PORT_RANGE_END then UDP_LOCAL_PORT_RANGE_START else u16 (p + 1)) = port_after p 1.
Proof.
  unfold port_ok, port_after, UDP_LOCAL_PORT_RANGE_START, UDP_LOCAL_PORT_RANGE_END. intros H.
  destruct (Z.eqb_spec p 65535) as [->|]; [done|]. rewrite wrap_small by (unfold in_u; lia).
  rewrite Z.mod_small by lia. lia.
Qed.

Lemma port_after_ok p i : port_ok (port_after p i).
Proof. unfold port_ok, port_after, UDP_LOCAL_PORT_RANGE_START, UDP_LOCAL_PORT_RANGE_END. Z.div_mod_to_equations. lia. Qed.

Lemma port_after_add p i j : port_after (port_after p i) j = port_after p (i + j).
Proof. unfold port_after. f_equal. rewrite Z.add_simpl_l, Zplus_mod_idemp_l. f_equal. lia. Qed.

Lemma port_after_all p q : port_ok p -> port_ok q -> exists i, 1 <= i <= 16384 /\ q = port_after p i.
Proof.
  unfold port_ok, port_after, UDP_LOCAL_PORT_RANGE_START, UDP_LOCAL_PORT_RANGE_END. intros Hp Hq.
  destruct (decide (p < q)); [exists (q - p)|exists (q - p + 16384)]; (split; [lia|]).
  - rewrite Z.mod_small; lia.
  - replace (p - 49152 + (q - p + 16384)) with (q - 49152 + 1 * 16384) by lia. rewrite Z.mod_add, Z.mod_small; lia.
Qed.

Lemma new_port_loop_ok s o fuel n :
  udp_order (n_udp s) o -> port_ok (udp_port (n_udp s)) -> 0 <= n < 16384 -> 16384 - n <= Z.of_nat fuel ->
  exists r q, new_port_loop fuel n s = Some (r, with_port q s) /\ port_ok q /\
    ((r = q /\ ~ port_in (udp_pcb_map (n_udp s)) o r) \/
     (r = 0 /\ forall i, 1 <= i <= 16384 - n -> port_in (udp_pcb_map (n_udp s)) o (port_after (udp_port (n_udp s)) i))).
Proof.
  revert s n. induction fuel as [|fuel IH]; intros s n (l & Hl & <-) Hp Hn Hf; [lia|].
  cbn [new_port_loop]. rewrite (bind_Some _ _ _ (udp_port (n_udp s)) s) by done. rewrite port_after_next by done.
  set (q := port_after (udp_port (n_udp s)) 1).
  rewrite (bind_Some _ _ _ tt (with_port q s)) by done.
  rewrite (bind_Some _ _ _ (udp_pcbs (n_udp s)) (with_port q s)) by done.
  rewrite (bind_Some _ _ _ (S (size (udp_pcb_map (n_udp s)))) (with_port q s)) by done.
  destruct (port_used_ok (with_port q s) l (udp_pcbs (n_udp s)) q (S (size (udp_pcb_map (n_udp s)))) Hl) as (b & Eb & Hb).
  { pose proof (lchain_size _ _ _ _ Hl). lia. }
  rewrite (bind_Some _ _ _ _ _ Eb). change (udp_pcb_map (n_udp (with_port q s))) with (udp_pcb_map (n_udp s)) in Hb.
  destruct b.
  - rewrite wrap_small by (unfold in_u; lia). change (UDP_LOCAL_PORT_RANGE_END - UDP_LOCAL_PORT_RANGE_START) with 16383.
    destruct (Z.ltb_spec 16383 (n + 1)).
    + exists 0, q. split; [done|]. split; [apply port_after_ok|]. right. split; [done|]. intros i Hi.
      replace i with 1 by lia. by apply Hb.
    + destruct (IH (with_port q s) (n + 1)) as (r & q' & E & Hq' & Hr); [by exists l|apply port_after_ok|lia|lia|].
      exists r, q'. split; [exact E|]. split; [done|]. destruct Hr as [Hr|[-> Hr]]; [by left|]. right. split; [done|].
      intros i Hi. destruct (decide (i = 1)) as [->|]; [by apply Hb|].
      replace i with (1 + (i - 1)) by lia. rewrite <-port_after_add. apply Hr. lia.
  - exists q, q. split; [done|]. split; [apply port_after_ok|]. left. split; [done|]. rewrite <-Hb. done.
Qed.

(** ** Binding *)

Definition with_map (m : gmap Z udp_pcb) (g : udp_globals) : udp_globals :=
  UdpGlobals m (udp_pcbs g) (udp_port g) (udp_rx g).

(** Both would take a datagram to the same port, and neither has the option to
    share it. *)
Definition conflict (u v : udp_pcb) : bool :=
  negb (ip_get_option u SOF_REUSEADDR) && negb (ip_get_option v SOF_REUSEADDR) &&
  ((up_local_port u =? up_local_port v) &&
   (ip_addr_isany (up_local_ip u) || ip_addr_isany (up_local_ip v) || (up_local_ip u =? up_local_ip v))).

Record udp_inv (g : udp_globals) (o : list Z) : Prop := {
  ui_order : udp_order g o;
  ui_next : port_ok (udp_port g);
  ui_null : udp_pcb_map g !! NULL = None;
  ui_range x u : udp_pcb_map g !! x = Some u -> 0 <= up_local_port u < 65536;
  ui_bound x u : udp_pcb_map g !! x = Some u -> x ∈ o <-> up_local_port u <> 0;
  ui_excl x y u v : udp_pcb_map g !! x = Some u -> udp_pcb_map g !! y = Some v -> x ∈ o -> y ∈ o -> x <> y ->
    conflict u v = false;
}.

Lemma udp_order_set g o x u u' :
  udp_order g o -> udp_pcb_map g !! x = Some u -> up_next u' = up_next u ->
  udp_order (with_map (<[x := u']> (udp_pcb_map g)) g) o.
Proof.
  intros (l & H & <-) Eu En. destruct (decide (x ∈ l.*1)) as [Hin|Hin].
  - apply list_elem_of_fmap in Hin as ([y v] & Hy & Hin). simpl in Hy. subst y.
    pose proof (lseg_elem _ _ _ _ _ _ _ H Hin) as [Ev _]. rewrite Eu in Ev. injection Ev as <-.
    apply list_elem_of_split in Hin as (l1 & l2 & ->). exists (l1 ++ (x, u') :: l2).
    split; [by eapply lchain_set|]. by rewrite !fmap_app.
  - exists l. split; [|done]. by apply lseg_insert.
Qed.

Lemma udp_order_push g o x u :
  udp_order g o -> x ∉ o -> x <> NULL ->
  udp_order (UdpGlobals (<[x := set_up_next (udp_pcbs g) u]> (udp_pcb_map g)) x (udp_port g) (udp_rx g)) (x :: o).
Proof. intros (l & H & <-) Hx Hn. eexists. split; [by apply (lchain_push up_next _ (udp_pcbs g))|done]. Qed.

Lemma bind_loop_ok s l p pcb w ip port fuel rebind :
  lchain up_next (udp_pcb_map (n_udp s)) p l -> udp_pcb_map (n_udp s) !! pcb = Some w ->
  (length l < fuel)%nat -> (rebind = true -> pcb ∉ l.*1) ->
  exists r, bind_loop fuel p pcb ip port rebind s = Some (r, s) /\
    match r with
    | Some b => b = rebind || bool_decide (pcb ∈ l.*1) /\
        forall x u, (x, u) ∈ l -> x <> pcb -> conflict u (set_up_local ip port w) = false
    | None => exists x u, (x, u) ∈ l /\ x <> pcb /\ conflict u (set_up_local ip port w) = true
    end.
Proof.
  intros H Ew. revert p fuel rebind H. induction l as [|[x u] l IH]; intros p fuel rebind H Hf Hre;
    (destruct fuel as [|fuel]; [simpl in Hf; lia|]); cbn [bind_loop].
  - simpl in H. rewrite H. exists (Some rebind). split; [done|]. rewrite bool_decide_eq_false_2 by apply not_elem_of_nil.
    split; [by rewrite orb_false_r|]. by intros x u ?%not_elem_of_nil.
  - pose proof (lchain_NoDup _ _ _ _ H) as [Hx Hd]%NoDup_cons. destruct H as (-> & Hn & Eu & H). simpl in Hf.
    destruct (Z.eqb_spec x NULL); [done|]. rewrite (bind_Some _ _ _ u s) by (unfold getu; by rewrite Eu).
    rewrite fmap_cons in *. destruct (Z.eqb_spec pcb x) as [->|Hne].
    + destruct rebind; [destruct Hre; [done|apply list_elem_of_here]|]. rewrite (bind_Some _ _ _ tt s) by done.
      destruct (IH (up_next u) fuel true H) as (r & E & Hr); [lia|done|]. exists r. split; [done|].
      rewrite bool_decide_eq_true_2 by apply list_elem_of_here. destruct r as [b|].
      * destruct Hr as [-> Hr]. split; [done|]. intros y v [[= -> ->]|Hin]%elem_of_cons Hy; [done|eauto].
      * destruct Hr as (y & v & Hin & Hy & E'). exists y, v. split; [by apply list_elem_of_further|done].
    + rewrite (bind_Some _ _ _ w s) by (unfold getu; by rewrite Ew).
      rewrite (andb_comm (negb (ip_get_option w _))).
      change (negb (ip_get_option u SOF_REUSEADDR) && negb (ip_get_option w SOF_REUSEADDR) && _) with
        (conflict u (set_up_local ip port w)).
      destruct (conflict _ _) eqn:Ec.
      * exists None. split; [done|]. exists x, u. split; [apply list_elem_of_here|done].
      * destruct (IH (up_next u) fuel rebind H) as (r & E & Hr);
          [lia|intros Hb; by apply Hre, not_elem_of_cons in Hb as [_ ?]|].
        exists r. split; [done|]. destruct r as [b|].
        -- destruct Hr as [-> Hr]. split; [f_equal; apply bool_decide_ext; rewrite elem_of_cons; naive_solver|].
           intros y v [[= -> ->]|Hin]%elem_of_cons Hy; [done|eauto].
        -- destruct Hr as (y & v & Hin & Hy & E'). exists y, v. split; [by apply list_elem_of_further|done].
Qed.

Lemma strip_inv m m' x u :
  strip m' = strip m -> m' !! x = Some u -> exists v, m !! x = Some v /\ set_up_next NULL u = set_up_next NULL v.
Proof.
  intros E Hu. apply (f_equal (lookup x)) in E. rewrite !strip_lookup, Hu in E.
  destruct (m !! x) as [v|]; [|done]. injection E as E. exists v. split; [done|]. unfold set_up_next. by f_equal.
Qed.

Lemma strip_fields u v : set_up_next NULL u = set_up_next NULL v ->
  up_local_port u = up_local_port v /\ up_local_ip u = up_local_ip v /\ up_so_options u = up_so_options v /\
  up_recv u = up_recv v.
Proof.
  intros E. split_and!; [apply (f_equal up_local_port E)|apply (f_equal up_local_ip E)|apply (f_equal up_so_options E)|apply (f_equal up_recv E)].
Qed.

Lemma conflict_strip u v u' v' :
  set_up_next NULL u = set_up_next NULL u' -> set_up_next NULL v = set_up_next NULL v' -> conflict u v = conflict u' v'.
Proof.
  intros (E1 & E2 & E5 & _)%strip_fields (E3 & E4 & E6 & _)%strip_fields. unfold conflict, ip_get_option.
  by rewrite E1, E2, E3, E4, E5, E6.
Qed.

Lemma conflict_comm u v : conflict u v = conflict v u.
Proof.
  unfold conflict. rewrite (Z.eqb_sym (up_local_port u)), (Z.eqb_sym (up_local_ip u)).
  by rewrite (orb_comm (ip_addr_isany (up_local_ip u))), (andb_comm (negb (ip_get_option u _))).
Qed.

(** The block [x] takes an address that nobody else in the list claims. *)
Lemma udp_inv_bind g o x u ip port g' o' :
  udp_inv g o -> udp_pcb_map g !! x = Some u -> 0 < port < 65536 ->
  (forall y v, y ∈ o -> y <> x -> udp_pcb_map g !! y = Some v -> conflict v (set_up_local ip port u) = false) ->
  udp_order g' o' -> (forall y, y ∈ o' <-> y = x \/ y ∈ o) ->
  strip (udp_pcb_map g') = strip (<[x := set_up_local ip port u]> (udp_pcb_map g)) -> port_ok (udp_port g') ->
  udp_inv g' o'.
Proof.
  intros [_ _ Hnull Hr Hb Hex] Eu Hport Hcon Ho' Hel Hst Hp'.
  assert (x <> NULL) as Hx by (intros ->; congruence).
  assert (forall y v, udp_pcb_map g' !! y = Some v ->
    exists v0, set_up_next NULL v = set_up_next NULL v0 /\
      ((y = x /\ v0 = set_up_local ip port u) \/ (y <> x /\ udp_pcb_map g !! y = Some v0))) as Hlk.
  { intros y v Hv. destruct (strip_inv _ _ _ _ Hst Hv) as (v0 & E0 & Es). exists v0. split; [done|].
    destruct (decide (y = x)) as [->|Hne].
    - rewrite lookup_insert_eq in E0. left. by simplify_eq.
    - rewrite lookup_insert_ne in E0 by done. by right. }
  constructor; [done|done| | | |].
  - destruct (udp_pcb_map g' !! NULL) as [v|] eqn:E; [|done]. destruct (Hlk _ _ E) as (v0 & _ & [[? _]|[_ ?]]); congruence.
  - intros y v Hv. destruct (Hlk _ _ Hv) as (v0 & (Ep & _)%strip_fields & [[_ ->]|[_ E]]); rewrite Ep; [simpl; lia|eauto].
  - intros y v Hv. rewrite Hel. destruct (Hlk _ _ Hv) as (v0 & (Ep & _)%strip_fields & [[-> ->]|[Hne E]]); rewrite Ep.
    + split; [simpl; lia|by left].
    + rewrite <-(Hb _ _ E). naive_solver.
  - intros y z v w Hv Hw Hy%Hel Hz%Hel Hne.
    destruct (Hlk _ _ Hv) as (v0 & Ev & Cv), (Hlk _ _ Hw) as (w0 & Ew & Cw).
    rewrite (conflict_strip v w v0 w0) by done.
    destruct Cv as [[-> ->]|[Hyx Cv]], Cw as [[-> ->]|[Hzx Cw]]; [done| | |].
    + rewrite conflict_comm. apply (Hcon z); naive_solver.
    + apply (Hcon y); naive_solver.
    + eapply Hex; [exact Cv|exact Cw|naive_solver..].
Qed.

(** What a successful [udp_bind] leaves. *)
Definition bound_to (g : udp_globals) (o : list Z) (pcb : Z) (u : udp_pcb) (ip port : Z) (g' : udp_globals) : Prop :=
  let o' := if decide (pcb ∈ o) then o else pcb :: o in
  udp_inv g' o' /\ strip (udp_pcb_map g') = strip (<[pcb := set_up_local ip port u]> (udp_pcb_map g)) /\
  udp_rx g' = udp_rx g.

Lemma udp_bind_finish s g o pcb u ip port :
  udp_inv g o -> udp_pcb_map g !! pcb = Some u -> 0 < port < 65536 ->
  (forall y v, y ∈ o -> y <> pcb -> udp_pcb_map g !! y = Some v -> conflict v (set_up_local ip port u) = false) ->
  forall u1, set_up_next NULL u1 = set_up_next NULL (set_up_local ip (up_local_port u) u) -> up_next u1 = up_next u ->
  forall q, port_ok q ->
  nwp (u ← getu pcb;
       putu pcb (set_up_local (up_local_ip u) port u) ;;
       swhen (negb (bool_decide (pcb ∈ o))) (udp_push pcb) ;;
       mret ERR_OK)
    (fun r s' => r = ERR_OK /\ exists g', s' = set_udp g' s /\ bound_to g o pcb u ip port g')
    (set_udp (UdpGlobals (<[pcb := u1]> (udp_pcb_map g)) (udp_pcbs g) q (udp_rx g)) s).
Proof.
  intros Hinv Eu Hport Hcon u1 Es En q Hq.
  assert (pcb <> NULL) as Hp by (intros ->; rewrite (ui_null _ _ Hinv) in Eu; done).
  apply nwp_bind. eapply nwp_getu; [apply lookup_insert_eq|]. apply nwp_bind, nwp_supd.
  assert (set_up_local (up_local_ip u1) port u1 = set_up_local ip port u) as ->.
  { unfold set_up_local, set_up_next in *. simpl in *. injection Es. intros. f_equal; done. }
  set (g1 := UdpGlobals (<[pcb := set_up_local ip port u]> (udp_pcb_map g)) (udp_pcbs g) q (udp_rx g)).
  change (nwp (swhen (negb (bool_decide (pcb ∈ o))) (udp_push pcb) ;; mret ERR_OK)
    (fun r s' => r = ERR_OK /\ exists g', s' = set_udp g' s /\ bound_to g o pcb u ip port g')
    (set_udp (UdpGlobals (<[pcb := set_up_local ip port u]> (<[pcb := u1]> (udp_pcb_map g))) (udp_pcbs g) q (udp_rx g)) s)).
  rewrite insert_insert_eq. fold g1.
  assert (udp_order g1 o) as Ho1.
  { destruct (udp_order_set g o pcb u (set_up_local ip port u) (ui_order _ _ Hinv) Eu eq_refl) as (l & Hl & <-). by exists l. }
  apply nwp_bind. destruct (decide (pcb ∈ o)) as [Hin|Hin].
  - rewrite bool_decide_eq_true_2 by done. apply nwp_ret, nwp_ret. split; [done|]. exists g1. split; [done|].
    unfold bound_to. rewrite decide_True by done. split; [|done].
    eapply (udp_inv_bind g o pcb u ip port); try done. naive_solver.
  - rewrite bool_decide_eq_false_2 by done. cbn [negb swhen]. unfold udp_push. apply nwp_bind, nwp_sget.
    apply nwp_bind. eapply nwp_getu; [apply lookup_insert_eq|]. apply nwp_bind, nwp_supd, nwp_supd, nwp_ret.
    set (g2 := UdpGlobals (<[pcb := set_up_next (udp_pcbs g) (set_up_local ip port u)]> (udp_pcb_map g1)) pcb q (udp_rx g)).
    split; [done|]. exists g2. split; [done|].
    assert (strip (udp_pcb_map g2) = strip (<[pcb := set_up_local ip port u]> (udp_pcb_map g))) as Hst2.
    { unfold g2. simpl. rewrite insert_insert_eq. unfold strip. by rewrite !fmap_insert. }
    unfold bound_to. rewrite decide_False by done. split; [|done].
    eapply (udp_inv_bind g o pcb u ip port); try done; [|intros y; by rewrite elem_of_cons].
    by apply (udp_order_push g1).
Qed.

Lemma udp_bind_run s o pcb u ip port :
  udp_inv (n_udp s) o -> udp_pcb_map (n_udp s) !! pcb = Some u -> 0 <= port < 65536 ->
  nwp (udp_bind pcb ip port)
    (fun r s' => exists g', s' = set_udp g' s /\
      ((r = ERR_OK /\ exists port', (if port =? 0 then port_ok port' else port' = port) /\
          bound_to (n_udp s) o pcb u ip port' g') \/
       (r = ERR_USE /\ g' = n_udp s /\ exists x v, x ∈ o /\ x <> pcb /\ udp_pcb_map (n_udp s) !! x = Some v /\
          conflict v (set_up_local ip port u) = true) \/
       (r = ERR_USE /\ port = 0 /\ forall q, port_ok q -> port_in (udp_pcb_map (n_udp s)) o q))) s.
Proof.
  intros Hinv Eu Hport. set (g := n_udp s) in *. pose proof (ui_order _ _ Hinv) as (l & Hl & Ho).
  unfold udp_bind. apply nwp_bind, nwp_sget. apply nwp_bind, nwp_sget. fold g.
  destruct (bind_loop_ok s l (udp_pcbs g) pcb u ip port (S (size (udp_pcb_map g))) false Hl Eu) as (r & E & Hr);
    [pose proof (lchain_size _ _ _ _ Hl); lia|done|].
  apply nwp_bind. eapply nwp_run; [exact E|]. rewrite Ho in Hr. destruct r as [b|].
  - destruct Hr as [-> Hr]. cbn [orb].
    assert (forall y v, y ∈ o -> udp_pcb_map g !! y = Some v -> (y, v) ∈ l) as Hin.
    { intros y v Hy Ev. rewrite <-Ho in Hy. apply list_elem_of_fmap in Hy as ([y' v'] & Ey & Hin). simpl in Ey. subst y'.
      destruct (lseg_elem _ _ _ _ _ _ _ Hl Hin) as [Ev' _]. by simplify_eq. }
    apply nwp_bind. eapply nwp_getu; [exact Eu|]. apply nwp_bind, nwp_supd. fold g.
    set (u1 := set_up_local ip (up_local_port u) u). set (m1 := <[pcb := u1]> (udp_pcb_map g)).
    set (s1 := set_udp (UdpGlobals m1 (udp_pcbs g) (udp_port g) (udp_rx g)) s).
    change (set_udp_map _ s) with s1. apply nwp_bind. destruct (Z.eqb_spec port 0) as [->|Hp0].
    + assert (udp_order (n_udp s1) o) as Ho1.
      { by apply (udp_order_set g o pcb u u1 (ui_order _ _ Hinv) Eu). }
      assert (forall q, port_in m1 o q <-> port_in (udp_pcb_map g) o q) as Hpi.
      { intros q. unfold port_in, m1. split; intros (x & v & Hx & Ev & Ep).
        - destruct (decide (x = pcb)) as [->|].
          + rewrite lookup_insert_eq in Ev. injection Ev as <-. by exists pcb, u.
          + rewrite lookup_insert_ne in Ev by done. by exists x, v.
        - destruct (decide (x = pcb)) as [->|].
          + exists pcb, u1. rewrite lookup_insert_eq. simplify_eq. done.
          + exists x, v. by rewrite lookup_insert_ne. }
      destruct (new_port_loop_ok s1 o (Z.to_nat 16385) 0 Ho1 (ui_next _ _ Hinv)) as (r & q & En & Hq & Hr'); [lia|lia|].
      eapply nwp_run; [exact En|]. change (udp_pcb_map (n_udp s1)) with m1 in Hr'.
      destruct Hr' as [[-> Hfree]|[-> Hall]].
      * destruct (Z.eqb_spec q 0) as [->|_]; [unfold port_ok, UDP_LOCAL_PORT_RANGE_START in Hq; lia|].
        eapply nwp_mono; [apply (udp_bind_finish s g o pcb u ip q Hinv Eu) with (u1 := u1) (q := q); try done|].
        -- unfold port_ok, UDP_LOCAL_PORT_RANGE_START, UDP_LOCAL_PORT_RANGE_END in Hq. lia.
        -- intros y v Hy Hne Ev. unfold conflict. simpl up_local_port. destruct (Z.eqb_spec (up_local_port v) q) as [Ep|].
           ++ exfalso. apply Hfree, Hpi. by exists y, v.
           ++ apply andb_false_r.
        -- intros r s' (-> & g' & -> & Hb). exists g'. split; [done|]. left. split; [done|]. by exists q.
      * cbn [Z.eqb]. apply nwp_ret. eexists. split; [done|]. right; right. split; [done|]. split; [done|].
        intros q' Hq'. destruct (port_after_all (udp_port g) q' (ui_next _ _ Hinv) Hq') as (i & Hi & ->).
        apply Hpi, Hall. lia.
    + apply nwp_ret. destruct (Z.eqb_spec port 0) as [|_]; [done|].
      eapply nwp_mono; [apply (udp_bind_finish s g o pcb u ip port Hinv Eu) with (u1 := u1) (q := udp_port g); try done|].
      * lia.
      * intros y v Hy Hne Ev. apply (Hr y v); [by apply Hin|done].
      * apply (ui_next _ _ Hinv).
      * intros r s' (-> & g' & -> & Hb). exists g'. split; [done|]. left. split; [done|]. by exists port.
  - destruct Hr as (x & v & Hin & Hne & Ec). apply nwp_ret. exists g. split; [by destruct s|]. right; left.
    split; [done|]. split; [done|]. destruct (lseg_elem _ _ _ _ _ _ _ Hl Hin) as [Ev _]. exists x, v. split_and!; try done.
    rewrite <-Ho. apply list_elem_of_fmap. by exists (x, v).
Qed.

(** ** Removing *)

Lemma getu_run pcb u s : udp_pcb_map (n_udp s) !! pcb = Some u -> getu pcb s = Some (u, s).
Proof. intros E. unfold getu. by rewrite E. Qed.

Lemma remove_skip s p l pcb next fuel :
  lchain up_next (udp_pcb_map (n_udp s)) p l -> (length l < fuel)%nat -> pcb ∉ l.*1 -> 
  remove_loop fuel p pcb next s = Some (tt, s).
Proof.
  revert p fuel. induction l as [|[x u] l IH]; intros p fuel H Hf Hp; (destruct fuel as [|fuel]; [simpl in Hf; lia|]);
    cbn [remove_loop]; simpl in Hf.
  - simpl in H. by rewrite H.
  - destruct H as (-> & Hx & Eu & H). rewrite fmap_cons in Hp. apply not_elem_of_cons in Hp as [_ Hp].
    destruct (Z.eqb_spec x NULL); [done|]. rewrite (bind_Some _ _ _ _ _ (getu_run _ _ _ Eu)).
    replace (negb (up_next u =? NULL) && (up_next u =? pcb)) with false; [apply IH; [done|lia|done]|].
    symmetry. destruct l as [|[y v] l]; simpl in H.
    + by rewrite H.
    + destruct H as (E & _). rewrite E. apply not_elem_of_cons in Hp as [Hp _]. simpl in Hp.
      destruct (Z.eqb_spec y pcb); [done|]. apply andb_false_r.
Qed.

Lemma remove_loop_ok s p l1 w uw pcb u l2 fuel :
  lchain up_next (udp_pcb_map (n_udp s)) p (l1 ++ (w, uw) :: (pcb, u) :: l2) ->
  (length l1 + length l2 + 2 < fuel)%nat ->
  remove_loop fuel p pcb (up_next u) s =
    Some (tt, set_udp (with_map (<[w := set_up_next (up_next u) uw]> (udp_pcb_map (n_udp s))) (n_udp s)) s).
Proof.
  revert p fuel. induction l1 as [|[x v] l1 IH]; intros p fuel H Hf; (destruct fuel as [|fuel]; [simpl in Hf; lia|]);
    cbn [remove_loop]; simpl in Hf.
  - pose proof (lchain_NoDup _ _ _ _ H) as [Hw [Hpd _]%NoDup_cons]%NoDup_cons.
    destruct H as (-> & Hwn & Ew & E & Hpn & Eu & H). destruct (Z.eqb_spec w NULL); [done|].
    rewrite (bind_Some _ _ _ _ _ (getu_run _ _ _ Ew)), E, Z.eqb_refl.
    destruct (Z.eqb_spec pcb NULL); [done|]. cbn [negb andb].
    rewrite (bind_Some _ _ _ tt (set_udp (with_map (<[w := set_up_next (up_next u) uw]> (udp_pcb_map (n_udp s))) (n_udp s)) s))
      by done.
    apply (remove_skip _ _ l2); [|lia|done]. apply lseg_insert; [|done].
    by apply not_elem_of_cons in Hw as [_ Hw].
  - assert (up_next v <> pcb) as Hne.
    { assert (lchain up_next (udp_pcb_map (n_udp s)) p (((x, v) :: l1 ++ [(w, uw)]) ++ (pcb, u) :: l2)) as H'
        by (by rewrite <-app_comm_cons, <-app_assoc).
      apply lchain_split_NoDup in H' as [Hs _]. rewrite fmap_cons, fmap_app in Hs. apply not_elem_of_cons in Hs as [_ Hs].
      intros E. destruct H as (_ & _ & _ & H). destruct l1 as [|[y z] l1]; simpl in H; destruct H as (E' & _);
        rewrite E' in E; subst; apply Hs; apply list_elem_of_here. }
    destruct H as (-> & Hx & Ev & H). destruct (Z.eqb_spec x NULL); [done|].
    rewrite (bind_Some _ _ _ _ _ (getu_run _ _ _ Ev)). destruct (Z.eqb_spec (up_next v) pcb); [done|].
    rewrite andb_false_r. apply IH; [done|lia].
Qed.

Lemma udp_remove_run s o pcb u :
  udp_inv (n_udp s) o -> udp_pcb_map (n_udp s) !! pcb = Some u ->
  exists g', udp_remove pcb s = Some (tt, set_udp g' s) /\
    udp_order g' (base.filter (fun y => y <> pcb) o) /\
    strip (udp_pcb_map g') = delete pcb (strip (udp_pcb_map (n_udp s))) /\
    udp_port g' = udp_port (n_udp s) /\ udp_rx g' = udp_rx (n_udp s).
Proof.
  intros Hinv Eu. set (g := n_udp s) in *. pose proof (ui_order _ _ Hinv) as (l & Hl & <-).
  pose proof (lchain_size _ _ _ _ Hl) as Hsz.
  assert (forall m p, strip m = strip (udp_pcb_map g) ->
    strip (udp_pcb_map (UdpGlobals (delete pcb m) p (udp_port g) (udp_rx g))) = delete pcb (strip (udp_pcb_map g))) as Hdel.
  { intros m p E. simpl. rewrite <-E. unfold strip. apply fmap_delete. }
  unfold udp_remove. rewrite (bind_Some _ _ _ (udp_pcbs g) s) by done. rewrite (bind_Some _ _ _ _ _ (getu_run _ _ _ Eu)).
  destruct (Z.eqb_spec (udp_pcbs g) pcb) as [Hfirst|Hfirst].
  - rewrite (bind_Some _ _ _ tt (set_udp (UdpGlobals (udp_pcb_map g) (up_next u) (udp_port g) (udp_rx g)) s)) by done.
    exists (UdpGlobals (delete pcb (udp_pcb_map g)) (up_next u) (udp_port g) (udp_rx g)). split; [done|].
    split; [|split_and!; [by apply Hdel|done..]].
    destruct l as [|[x v] l]; [simpl in Hl; rewrite Hl in Hfirst; subst; by rewrite (ui_null _ _ Hinv) in Eu|].
    pose proof (lchain_NoDup _ _ _ _ Hl) as [Hx _]%NoDup_cons. destruct Hl as (E & _ & Ev & Hl). subst x.
    rewrite Hfirst in *. rewrite Eu in Ev. injection Ev as <-. exists l. split; [by apply lseg_delete|].
    rewrite fmap_cons, filter_cons, decide_False by naive_solver. by rewrite filter_out.
  - destruct (decide (pcb ∈ l.*1)) as [Hin|Hin].
    + apply list_elem_of_fmap in Hin as ([x v] & Ex & Hin). simpl in Ex. subst x.
      destruct (lseg_elem _ _ _ _ _ _ _ Hl Hin) as [Ev _]. rewrite Eu in Ev. injection Ev as <-.
      apply list_elem_of_split in Hin as (l1 & l2 & ->).
      destruct l1 as [|[w uw] l1 _] using rev_ind; [by destruct Hl as [? _]|]. rewrite <-app_assoc in Hl. simpl in Hl.
      assert (lchain up_next (udp_pcb_map g) (udp_pcbs g) ((l1 ++ [(w, uw)]) ++ (pcb, u) :: l2)) as [N1 N2]%lchain_split_NoDup
        by by rewrite <-app_assoc.
      pose proof (lchain_unlink _ _ _ _ _ _ _ _ _ (set_up_next (up_next u) uw) Hl eq_refl) as Hl'.
      destruct (lseg_elem _ _ _ _ _ w uw Hl) as [Ew _]; [apply elem_of_app; right; apply list_elem_of_here|].
      set (m1 := <[w := set_up_next (up_next u) uw]> (udp_pcb_map g)) in *.
      erewrite bind_Some; [|rewrite (bind_Some _ _ _ (S (size (udp_pcb_map g))) s) by done; eapply remove_loop_ok; [exact Hl|]].
      2: { rewrite !length_app in Hsz. simpl in Hsz. lia. }
      exists (UdpGlobals (delete pcb m1) (udp_pcbs g) (udp_port g) (udp_rx g)). split; [done|].
      split; [|split_and!; [apply Hdel; unfold m1; by apply strip_next|done..]].
      exists (l1 ++ (w, set_up_next (up_next u) uw) :: l2). rewrite fmap_app in N1. apply not_elem_of_app in N1 as [N1 Nw].
      split.
      * apply lseg_delete; [|done]. rewrite fmap_app, fmap_cons. apply not_elem_of_app. split; [done|].
        apply not_elem_of_cons. split; [|done]. intros ->. apply Nw, list_elem_of_here.
      * rewrite !fmap_app, !fmap_cons, !filter_app. simpl fst. rewrite (filter_cons _ pcb), decide_False by naive_solver.
        rewrite !filter_out by done. by rewrite <-app_assoc.
    + erewrite bind_Some; [|rewrite (bind_Some _ _ _ (S (size (udp_pcb_map g))) s) by done; eapply remove_skip; [exact Hl|lia|done]].
      exists (UdpGlobals (delete pcb (udp_pcb_map g)) (udp_pcbs g) (udp_port g) (udp_rx g)). split; [done|].
      split; [|split_and!; [by apply Hdel|done..]]. exists l. split; [by apply lseg_delete|by rewrite filter_out].
Qed.

Lemma udp_inv_remove g o pcb g' :
  udp_inv g o -> udp_order g' (base.filter (fun y => y <> pcb) o) ->
  strip (udp_pcb_map g') = delete pcb (strip (udp_pcb_map g)) -> udp_port g' = udp_port g ->
  udp_inv g' (base.filter (fun y => y <> pcb) o).
Proof.
  intros [_ Hp Hnull Hr Hb Hex] Ho Hst Hport.
  assert (forall y v, udp_pcb_map g' !! y = Some v -> y <> pcb /\
    exists v0, set_up_next NULL v = set_up_next NULL v0 /\ udp_pcb_map g !! y = Some v0) as Hlk.
  { intros y v Hv. apply (f_equal (lookup y)) in Hst. rewrite strip_lookup, Hv in Hst.
    destruct (decide (y = pcb)) as [->|]; [by rewrite lookup_delete_eq in Hst|].
    rewrite lookup_delete_ne, strip_lookup in Hst by done. destruct (udp_pcb_map g !! y) as [v0|]; [|done].
    split; [done|]. exists v0. split; [by apply (inj Some) in Hst|done]. }
  constructor; [done|by rewrite Hport| | | |].
  - destruct (udp_pcb_map g' !! NULL) as [v|] eqn:E; [|done]. destruct (Hlk _ _ E) as (_ & v0 & _ & ?). congruence.
  - intros y v Hv. destruct (Hlk _ _ Hv) as (_ & v0 & (-> & _)%strip_fields & E). eauto.
  - intros y v Hv. destruct (Hlk _ _ Hv) as (Hne & v0 & (-> & _)%strip_fields & E).
    rewrite list_elem_of_filter, <-(Hb _ _ E). naive_solver.
  - intros y z v w Hv Hw [_ Hy]%list_elem_of_filter [_ Hz]%list_elem_of_filter Hne.
    destruct (Hlk _ _ Hv) as (_ & v0 & Ev & Cv), (Hlk _ _ Hw) as (_ & w0 & Ew & Cw).
    rewrite (conflict_strip v w v0 w0) by done. eauto.
Qed.

(** ** The other operations *)

Lemma udp_inv_set g o x u u' :
  udp_inv g o -> udp_pcb_map g !! x = Some u -> up_next u' = up_next u ->
  up_local_port u' = up_local_port u -> up_local_ip u' = up_local_ip u ->
  (ip_get_option u SOF_REUSEADDR = true -> ip_get_option u' SOF_REUSEADDR = true) ->
  udp_inv (with_map (<[x := u']> (udp_pcb_map g)) g) o.
Proof.
  intros [Ho Hp Hnull Hr Hb Hex] Eu En Ep Ei Eo.
  assert (forall y v, <[x := u']> (udp_pcb_map g) !! y = Some v ->
    exists v0, udp_pcb_map g !! y = Some v0 /\ up_local_port v = up_local_port v0 /\ up_local_ip v = up_local_ip v0 /\
      (ip_get_option v0 SOF_REUSEADDR = true -> ip_get_option v SOF_REUSEADDR = true)) as Hlk.
  { intros y v Hv. destruct (decide (y = x)) as [->|].
    - rewrite lookup_insert_eq in Hv. injection Hv as <-. by exists u.
    - rewrite lookup_insert_ne in Hv by done. by exists v. }
  constructor; [by eapply udp_order_set|done| ..]; simpl.
  - destruct (<[x := u']> (udp_pcb_map g) !! NULL) as [v|] eqn:E; [|done]. destruct (Hlk _ _ E) as (v0 & ? & _). congruence.
  - intros y v Hv. destruct (Hlk _ _ Hv) as (v0 & E & -> & _). eauto.
  - intros y v Hv. destruct (Hlk _ _ Hv) as (v0 & E & -> & _). eauto.
  - intros y z v w Hv Hw Hy Hz Hne. destruct (Hlk _ _ Hv) as (v0 & E & E1 & E2 & E5), (Hlk _ _ Hw) as (w0 & E' & E3 & E4 & E6).
    specialize (Hex _ _ _ _ E E' Hy Hz Hne). unfold conflict in *. rewrite E1, E2, E3, E4.
    destruct (ip_get_option v0 _); [by rewrite E5|]. destruct (ip_get_option w0 _); [by rewrite E6, andb_false_r|].
    rewrite Hex in * || idtac. simpl in Hex. rewrite Hex. apply andb_false_r.
Qed.

(** Only the order within the list changes. *)
Lemma udp_inv_order g o g' o' :
  udp_inv g o -> udp_order g' o' -> (forall x, x ∈ o' <-> x ∈ o) -> strip (udp_pcb_map g') = strip (udp_pcb_map g) ->
  udp_port g' = udp_port g -> udp_inv g' o'.
Proof.
  intros [_ Hp Hnull Hr Hb Hex] Ho Hel Hst Hport.
  constructor; [done|by rewrite Hport| | | |].
  - destruct (udp_pcb_map g' !! NULL) as [v|] eqn:E; [|done]. destruct (strip_inv _ _ _ _ Hst E) as (v0 & ? & _). congruence.
  - intros y v Hv. destruct (strip_inv _ _ _ _ Hst Hv) as (v0 & E & (-> & _)%strip_fields). eauto.
  - intros y v Hv. destruct (strip_inv _ _ _ _ Hst Hv) as (v0 & E & (-> & _)%strip_fields). rewrite Hel. eauto.
  - intros y z v w Hv Hw Hy%Hel Hz%Hel Hne. destruct (strip_inv _ _ _ _ Hst Hv) as (v0 & E & Ev).
    destruct (strip_inv _ _ _ _ Hst Hw) as (w0 & E' & Ew). rewrite (conflict_strip v w v0 w0) by done. eauto.
Qed.

Lemma udp_inv_new g o x :
  udp_inv g o -> x <> NULL -> udp_pcb_map g !! x = None ->
  udp_inv (with_map (<[x := UdpPcb NULL 0 0 0 0 UDP_TTL 0 0 0 NULL]> (udp_pcb_map g)) g) o.
Proof.
  intros [(l & Hl & <-) Hp Hnull Hr Hb Hex] Hx Hnew.
  assert (x ∉ l.*1) as Hxl.
  { intros ([y v] & Ey & Hin)%list_elem_of_fmap. simpl in Ey. subst y.
    destruct (lseg_elem _ _ _ _ _ _ _ Hl Hin) as [E _]. congruence. }
  constructor; [by exists l; split; [apply lseg_insert|]|done| ..]; simpl.
  - by rewrite lookup_insert_ne.
  - intros y v Hv. destruct (decide (y = x)) as [->|]; [rewrite lookup_insert_eq in Hv|rewrite lookup_insert_ne in Hv by done; eauto].
    injection Hv as <-. simpl. lia.
  - intros y v Hv. destruct (decide (y = x)) as [->|]; [rewrite lookup_insert_eq in Hv|rewrite lookup_insert_ne in Hv by done; eauto].
    injection Hv as <-. simpl. naive_solver.
  - intros y z v w Hv Hw Hy Hz Hne. rewrite lookup_insert_ne in Hv, Hw by (intros ->; done). eauto.
Qed.

Lemma connected_loop_ok s l p pcb fuel :
  lchain up_next (udp_pcb_map (n_udp s)) p l -> (length l < fuel)%nat ->
  connected_loop fuel p pcb s = Some (bool_decide (pcb ∈ l.*1), s).
Proof.
  revert p fuel. induction l as [|[x u] l IH]; intros p fuel H Hf; (destruct fuel as [|fuel]; [simpl in Hf; lia|]);
    cbn [connected_loop]; simpl in Hf.
  - simpl in H. rewrite H. by rewrite bool_decide_eq_false_2 by apply not_elem_of_nil.
  - destruct H as (-> & Hx & Eu & H). destruct (Z.eqb_spec x NULL); [done|]. rewrite fmap_cons. simpl fst.
    destruct (Z.eqb_spec pcb x) as [->|Hne]; [by rewrite bool_decide_eq_true_2 by apply list_elem_of_here|].
    rewrite (bind_Some _ _ _ _ _ (getu_run _ _ _ Eu)), (IH _ _ H) by lia.
    do 2 f_equal. apply bool_decide_ext. rewrite elem_of_cons. naive_solver.
Qed.

(** A port that [udp_bind] may give out is free. *)
Definition free_port (g : udp_globals) (o : list Z) : Prop :=
  exists q, port_ok q /\ ~ port_in (udp_pcb_map g) o q.

Lemma nwp_udp_connect s o pcb u ip port :
  udp_inv (n_udp s) o -> udp_pcb_map (n_udp s) !! pcb = Some u -> free_port (n_udp s) o ->
  nwp (udp_connect pcb ip port)
    (fun r s' => exists g' o', s' = set_udp g' s /\ udp_inv g' o' /\
       (r = ERR_OK -> pcb ∈ o' /\ exists u', udp_pcb_map g' !! pcb = Some u' /\ up_remote_ip u' = ip /\ up_remote_port u' = port)) s.
Proof.
  intros Hinv Eu (q0 & Hq0 & Hfree). unfold udp_connect. apply nwp_bind. eapply nwp_getu; [exact Eu|]. apply nwp_bind.
  assert (forall s1 o1, (exists g1, s1 = set_udp g1 s) -> udp_inv (n_udp s1) o1 -> pcb ∈ o1 ->
    nwp (u ← getu pcb;
         putu pcb (set_up_remote ip port (up_flags u |. UDP_FLAGS_CONNECTED) u) ;;
         first ← sget (fun s => udp_pcbs (n_udp s));
         b ← pcb_bound;
         active ← connected_loop b first pcb;
         swhen (negb active) (udp_push pcb) ;;
         mret ERR_OK)
      (fun r s' => exists g' o', s' = set_udp g' s /\ udp_inv g' o' /\
         (r = ERR_OK -> pcb ∈ o' /\ exists u', udp_pcb_map g' !! pcb = Some u' /\ up_remote_ip u' = ip /\ up_remote_port u' = port)) s1)
    as Hrest.
  { intros s1 o1 (g1 & ->) Hinv1 Hin. simpl in Hinv1. pose proof (ui_order _ _ Hinv1) as (l1 & Hl1 & <-).
    pose proof Hin as ([x u1] & Ex & Hin')%list_elem_of_fmap. simpl in Ex. subst x.
    destruct (lseg_elem _ _ _ _ _ _ _ Hl1 Hin') as [Eu1 _].
    apply nwp_bind. eapply nwp_getu; [exact Eu1|]. apply nwp_bind, nwp_supd.
    set (u2 := set_up_remote _ _ _ u1). set (g2 := with_map (<[pcb := u2]> (udp_pcb_map g1)) g1).
    pose proof (udp_inv_set g1 _ pcb u1 u2 Hinv1 Eu1 eq_refl eq_refl eq_refl id) as Hinv2. fold g2 in Hinv2.
    pose proof (ui_order _ _ Hinv2) as (l2 & Hl2 & El).
    apply nwp_bind, nwp_sget. apply nwp_bind, nwp_sget. apply nwp_bind. change (set_udp_map _ _) with (set_udp g2 s).
    eapply nwp_run; [apply (connected_loop_ok (set_udp g2 s) l2); [exact Hl2|pose proof (lchain_size _ _ _ _ Hl2); simpl in *; lia]|].
    rewrite El, bool_decide_eq_true_2 by done. cbn [negb swhen]. apply nwp_bind, nwp_ret, nwp_ret.
    exists g2, l1.*1. split; [done|]. split; [done|]. intros _. split; [done|]. exists u2. simpl. by rewrite lookup_insert_eq. }
  destruct (Z.eqb_spec (up_local_port u) 0) as [E0|E0].
  - rewrite E0. eapply nwp_mono; [by apply (udp_bind_run s o pcb u)|]. cbv beta.
    intros r s' (g' & -> & [(-> & p' & _ & (Hinv' & _))|[(-> & -> & _)|(-> & _ & Hall)]]).
    + cbn [Z.eqb negb]. eapply Hrest; [by exists g'|exact Hinv'|]. case_decide; [done|apply list_elem_of_here].
    + cbn. apply nwp_ret. exists (n_udp s), o. split; [by destruct s|]. split; [done|]. done.
    + by destruct Hfree; apply Hall.
  - apply nwp_ret. cbn [Z.eqb negb]. apply (Hrest s o); [exists (n_udp s); by destruct s|done|].
    by apply (ui_bound _ _ Hinv _ _ Eu).
Qed.

(** ** The interface as a whole *)

Inductive udp_call :=
  | CallNew | CallBind (pcb ip port : Z) | CallConnect (pcb ip port : Z) | CallDisconnect (pcb : Z)
  | CallRecv (pcb recv : Z) | CallRemove (pcb : Z) | CallSetOption (pcb opt : Z) | CallResetOption (pcb opt : Z).

Definition udp_api (c : udp_call) : NetM Z :=
  match c with
  | CallNew => udp_new
  | CallBind pcb ip port => udp_bind pcb ip port
  | CallConnect pcb ip port => udp_connect pcb ip port
  | CallDisconnect pcb => udp_disconnect pcb ;; mret ERR_OK
  | CallRecv pcb recv => udp_recv pcb recv ;; mret ERR_OK
  | CallRemove pcb => udp_remove pcb ;; mret ERR_OK
  | CallSetOption pcb opt => ip_set_option pcb opt ;; mret ERR_OK
  | CallResetOption pcb opt => ip_reset_option pcb opt ;; mret ERR_OK
  end.

(** The application passes control blocks that it has, the heap gives out memory
    that is not in use, the ports are not all taken, and the permission to share a
    port is not taken back. *)
Definition call_ok (c : udp_call) (s : net) (o : list Z) : Prop :=
  let m := udp_pcb_map (n_udp s) in
  match c with
  | CallNew => forall x r, mallocs (n_mem s) = Some x :: r -> x <> NULL /\ m !! x = None
  | CallBind pcb _ port => is_Some (m !! pcb) /\ 0 <= port < 65536 /\ free_port (n_udp s) o
  | CallConnect pcb _ _ => is_Some (m !! pcb) /\ free_port (n_udp s) o
  | CallDisconnect pcb | CallRecv pcb _ | CallRemove pcb | CallSetOption pcb _ => is_Some (m !! pcb)
  | CallResetOption pcb opt => is_Some (m !! pcb) /\ Z.testbit opt 2 = false
  end.

Lemma reuse_bit u : ip_get_option u SOF_REUSEADDR = Z.testbit (up_so_options u) 2.
Proof.
  unfold ip_get_option, SOF_REUSEADDR. change 4 with (2 ^ 2). by apply truthy_bit.
Qed.

Lemma u8_testbit x i : 0 <= i < 8 -> Z.testbit (u8 x) i = Z.testbit x i.
Proof. intros Hi. unfold wrap. by rewrite Z.mod_pow2_bits_low by lia. Qed.

Lemma udp_api_inv c s o :
  udp_inv (n_udp s) o -> call_ok c s o ->
  nwp (udp_api c) (fun _ s' => exists o', udp_inv (n_udp s') o') s.
Proof.
  intros Hinv Hc. destruct c as [|pcb ip port|pcb ip port|pcb|pcb recv|pcb|pcb opt|pcb opt]; simpl in *.
  - unfold udp_new. apply nwp_bind.
    assert (forall st, nwp (swhen (negb (NULL =? NULL)) (putu NULL (UdpPcb NULL 0 0 0 0 UDP_TTL 0 0 0 NULL)) ;; mret NULL)
      (fun _ s' => exists o', udp_inv (n_udp s') o') (set_mem st s)) as Hnull by (intros; apply nwp_bind, nwp_ret, nwp_ret; by exists o).
    destruct (mallocs (n_mem s)) as [|[x|] r] eqn:Em.
    + eapply (nwp_run _ _ _ NULL (set_mem (n_mem s) s)); [|apply Hnull]. unfold on_mem, memp_malloc. by rewrite Em.
    + destruct (Hc x r eq_refl) as [Hx Hnew].
      eapply (nwp_run _ _ _ x (set_mem (set_mallocs r (n_mem s)) s)); [unfold on_mem, memp_malloc; by rewrite Em|].
      destruct (Z.eqb_spec x NULL); [done|]. cbn [negb swhen]. apply nwp_bind, nwp_supd, nwp_ret. exists o.
      by apply (udp_inv_new (n_udp s)).
    + eapply (nwp_run _ _ _ NULL (set_mem (set_mallocs r (n_mem s)) s)); [|apply Hnull]. unfold on_mem, memp_malloc. by rewrite Em.
  - destruct Hc as ([u Eu] & Hp & q & Hq & Hfree). eapply nwp_mono; [by apply (udp_bind_run s o pcb u)|]. cbv beta.
    intros r s' (g' & -> & [(-> & p' & _ & (Hinv' & _))|[(-> & -> & _)|(-> & _ & Hall)]]);
      [by eexists|by exists o|by destruct Hfree; apply Hall].
  - destruct Hc as ([u Eu] & Hfree). eapply nwp_mono; [by apply (nwp_udp_connect s o pcb u)|].
    intros r s' (g' & o' & -> & Hinv' & _). by exists o'.
  - destruct Hc as [u Eu]. unfold udp_disconnect. apply nwp_bind, nwp_bind. eapply nwp_getu; [exact Eu|]. apply nwp_supd, nwp_ret.
    exists o. by apply (udp_inv_set (n_udp s) o pcb u).
  - destruct Hc as [u Eu]. unfold udp_recv. apply nwp_bind, nwp_bind. eapply nwp_getu; [exact Eu|]. apply nwp_supd, nwp_ret.
    exists o. by apply (udp_inv_set (n_udp s) o pcb u).
  - destruct Hc as [u Eu]. destruct (udp_remove_run s o pcb u Hinv Eu) as (g' & E & Ho & Hst & Hp & _).
    apply nwp_bind. eapply nwp_run; [exact E|]. apply nwp_ret. eexists. by eapply udp_inv_remove.
  - destruct Hc as [u Eu]. unfold ip_set_option. apply nwp_bind, nwp_bind. eapply nwp_getu; [exact Eu|]. apply nwp_supd, nwp_ret.
    exists o. apply (udp_inv_set (n_udp s) o pcb u); try done. rewrite !reuse_bit. cbn [up_so_options set_up_options]. intros H.
    by rewrite u8_testbit, Z.lor_spec, H by lia.
  - destruct Hc as [[u Eu] Ho]. change (Z.testbit opt 2 = false) in Ho. unfold ip_reset_option. apply nwp_bind, nwp_bind. eapply nwp_getu; [exact Eu|]. apply nwp_supd, nwp_ret.
    exists o. apply (udp_inv_set (n_udp s) o pcb u); try done. rewrite !reuse_bit. cbn [up_so_options set_up_options]. intros H.
    by rewrite u8_testbit, Z.ldiff_spec, H, Ho by lia.
Qed.

(** Sequences of calls. *)
Inductive udp_calls : net -> net -> Prop :=
  | calls_nil s : udp_calls s s
  | calls_step s c r s1 s2 :
      (forall o, udp_order (n_udp s) o -> call_ok c s o) -> udp_api c s = Some (r, s1) -> udp_calls s1 s2 -> udp_calls s s2.

(** C22. No call of the interface of udp.c fails an assertion or loses the list of
    control blocks, and after any sequence of calls two control blocks never claim
    the same port on the same address, unless one of them has SOF_REUSEADDR. *)
Theorem udp_ports_exclusive s s' o :
  udp_inv (n_udp s) o -> udp_calls s s' ->
  (exists o', udp_inv (n_udp s') o') /\
  forall c, (forall o', udp_order (n_udp s') o' -> call_ok c s' o') -> is_Some (udp_api c s').
Proof.
  intros Hinv Hcs. assert (exists o', udp_inv (n_udp s') o') as [o' Hinv'].
  { revert o Hinv. induction Hcs as [s|s c r s1 s2 Hok E _ IH]; intros o Hinv; [by exists o|].
    destruct (udp_api_inv c s o Hinv) as (r' & s1' & E' & o1 & Hinv1); [apply Hok, Hinv|].
    rewrite E in E'. injection E' as <- <-. by apply (IH o1). }
  split; [by exists o'|]. intros c Hc. destruct (udp_api_inv c s' o' Hinv') as (r & s2 & E & _); [apply Hc, Hinv'|]. by eexists.
Qed.

(** Two applications that want the same port. *)
Definition sample_board : net := set_mem (set_mallocs [Some 256; Some 320] (sample_mem [])) (sample_net []).
Definition board_pcb : net := default sample_board (snd <$> udp_new sample_board).
Definition board_bound : net := default board_pcb (snd <$> udp_bind 256 IPADDR_ANY 53 board_pcb).

Lemma sample_udp_inv : udp_inv (n_udp sample_board) [].
Proof.
  constructor; try done. by exists [].
Qed.

Lemma board_free s o : (forall x u, udp_pcb_map (n_udp s) !! x = Some u -> up_local_port u < 49152) -> free_port (n_udp s) o.
Proof.
  intros H. exists 49152. split; [by unfold port_ok, UDP_LOCAL_PORT_RANGE_START, UDP_LOCAL_PORT_RANGE_END|].
  intros (x & u & _ & E & Ep). apply H in E. lia.
Qed.

Lemma udp_ports_exclusive_witness : is_Some (udp_api (CallRemove 256) board_bound).
Proof.
  assert (forall x u, udp_pcb_map (n_udp board_pcb) !! x = Some u -> up_local_port u < 49152) as Hp.
  { intros x u. change (udp_pcb_map (n_udp board_pcb)) with
      (<[256 := UdpPcb NULL 0 0 0 0 UDP_TTL 0 0 0 NULL]> (∅ : gmap Z udp_pcb)).
    rewrite lookup_insert_Some, lookup_empty. intros [[_ <-]|[_ ?]]; [simpl; lia|done]. }
  refine (proj2 (udp_ports_exclusive sample_board board_bound [] sample_udp_inv _) (CallRemove 256) _).
  - apply (calls_step _ CallNew 256 board_pcb); [|by vm_compute|].
    { intros o _ x r [= <- <-]. by split. }
    apply (calls_step _ (CallBind 256 IPADDR_ANY 53) ERR_OK board_bound); [|by vm_compute|apply calls_nil].
    intros o _. split; [by eexists|]. split; [lia|]. by apply board_free.
  - intros o' _. simpl. eexists. by vm_compute.
Defined.

(** The search of [udp_input] ends, and finds the first control block that is
    connected to the sender, or else the first unconnected one that is bound to
    the destination.  A connected one moves to the front of the list; the fields
    and the other blocks stay as they are. *)
Theorem udp_match_finds dest src daddr saddr broadcast n s o :
  udp_order (n_udp s) o ->
  let m := udp_pcb_map (n_udp s) in
  exists g', udp_match (S (size m)) (udp_pcbs (n_udp s)) NULL NULL dest src daddr saddr broadcast n s =
      Some (demux dest src daddr saddr broadcast n m o, set_udp g' s) /\
    udp_order g' (demux_order dest src daddr saddr broadcast n m o) /\
    strip (udp_pcb_map g') = strip m /\ udp_rx g' = udp_rx (n_udp s).
Proof.
  intros Ho m. destruct (nwp_udp_demux dest src daddr saddr broadcast n s o Ho) as (r & s' & E & g' & -> & -> & Ho' & Hst & _ & Hrx).
  by exists g'.
Qed.

(** An open block in front of one that is connected to 192.168.1.5:7. *)
Definition two_pcbs : udp_globals :=
  UdpGlobals {[ 256 := UdpPcb 320 0 0 0 0 UDP_TTL 0 53 0 1; 320 := UdpPcb NULL 0 (ip4 192 168 1 5) 0 0 UDP_TTL UDP_FLAGS_CONNECTED 53 7 1 ]}
    256 49152 [].

Lemma udp_match_finds_witness :
  let s := set_udp two_pcbs (sample_net []) in
  exists g', udp_match 3 256 NULL NULL 53 7 (ip4 192 168 1 210) (ip4 192 168 1 5) false sample_if s =
      Some (320, set_udp g' s) /\ udp_order g' [320; 256].
Proof.
  intros s. destruct (udp_match_finds 53 7 (ip4 192 168 1 210) (ip4 192 168 1 5) false sample_if s [256; 320])
    as (g' & E & Ho & _).
  - exists [(256, UdpPcb 320 0 0 0 0 UDP_TTL 0 53 0 1); (320, UdpPcb NULL 0 (ip4 192 168 1 5) 0 0 UDP_TTL UDP_FLAGS_CONNECTED 53 7 1)].
    split; [|done]. by repeat split.
  - exists g'. split; [exact E|exact Ho].
Defined.

(** [udp_bind] ends with one of: the control block has the address and the port
    that was asked for, or an unused one of the dynamic range for port 0, and is in
    the list; or it reports that another block claims the address, and changes
    nothing; or, for port 0, that all 16384 ports of the range are taken. *)
Theorem udp_bind_ok s o pcb u ip port :
  udp_inv (n_udp s) o -> udp_pcb_map (n_udp s) !! pcb = Some u -> 0 <= port < 65536 ->
  let m := udp_pcb_map (n_udp s) in
  exists r g', udp_bind pcb ip port s = Some (r, set_udp g' s) /\
    ((r = ERR_OK /\ exists port', (if port =? 0 then port_ok port' else port' = port) /\
        udp_inv g' (if decide (pcb ∈ o) then o else pcb :: o) /\
        strip (udp_pcb_map g') = strip (<[pcb := set_up_local ip port' u]> m)) \/
     (r = ERR_USE /\ g' = n_udp s /\ exists x v, x ∈ o /\ x <> pcb /\ m !! x = Some v /\
        conflict v (set_up_local ip port u) = true) \/
     (r = ERR_USE /\ port = 0 /\ forall q, port_ok q -> port_in m o q)).
Proof.
  intros Hinv Eu Hp m. destruct (udp_bind_run s o pcb u ip port Hinv Eu Hp) as (r & s' & E & g' & -> & H).
  exists r, g'. split; [done|]. destruct H as [(-> & p' & H1 & H2 & H3 & _)|H]; [left; eauto|by right].
Qed.

Lemma udp_bind_ok_witness :
  exists g', udp_bind 256 IPADDR_ANY 53 board_pcb = Some (ERR_OK, set_udp g' board_pcb) /\ udp_inv g' [256].
Proof.
  destruct (udp_bind_ok board_pcb [] 256 (UdpPcb NULL 0 0 0 0 UDP_TTL 0 0 0 NULL) IPADDR_ANY 53) as (r & g' & E & H).
  - apply (udp_inv_new (n_udp sample_board)); [apply sample_udp_inv|done|done].
  - by vm_compute.
  - lia.
  - destruct H as [(-> & p' & _ & Hi & _)|[(_ & _ & x & v & Hx & _)|(_ & ? & _)]]; [by exists g'|by apply not_elem_of_nil in Hx|done].
Defined.
