(* ===== verification/Datagram.v ===== *)
(** * Datagrams from board to board

    What [udp_sendto] puts on the wire, and what [ethernet_input] does with it
    on the other side. *)

From S2P Require Import Prelude StateM LwipMem TcpData Chksum IpAddr Pbuf PbufRef PbufData NetState Etharp IpOut Icmp Udp Raw NetInput Packet Frames UdpList.

(** ** The header checksum of [ip_output_if] *)

(** The 32-bit sum does not overflow, and two folds are enough. *)
Lemma chksum_inline_sum proto ttl dest tos len id src :
  is_byte proto -> is_byte ttl -> is_byte tos ->
  0 <= dest < 2 ^ 32 -> 0 <= src < 2 ^ 32 -> 0 <= len < 65536 -> 0 <= id < 65536 ->
  let sum := ttl + 256 * proto + dest mod 65536 + dest / 65536 + (69 + 256 * tos) + len + id +
             src mod 65536 + src / 65536 in
  chksum_inline proto ttl dest tos 69 len id src = u16 (Z.lnot (FOLD_U32T (FOLD_U32T sum))).
Proof.
  intros Hp Ht Ho Hd Hs Hl Hi sum. unfold is_byte in *.
  assert (0 <= dest / 65536 < 65536 /\ 0 <= src / 65536 < 65536) as [Rd Rs].
  { split; (split; [apply Z.div_pos; lia|apply Z.div_lt_upper_bound; lia]). }
  pose proof (Z.mod_pos_bound dest 65536 ltac:(lia)) as Md. pose proof (Z.mod_pos_bound src 65536 ltac:(lia)) as Ms.
  unfold chksum_inline, LWIP_MAKE_U16. rewrite !(Z.lor_comm (Z.shiftl _ 8)), !lor_bytes by (unfold is_byte; lia).
  change 65535 with (Z.ones 16). rewrite !Z.land_ones, !Z.shiftr_div_pow2 by lia. change (2 ^ 16) with 65536.
  replace (u32 (u32 (u32 (u32 (u32 (u32 (u32 (u32 _ + _) + _) + _) + _) + _) + _) + _)) with sum.
  2: { repeat match goal with
       | |- context [wrap 32 ?e] => lazymatch e with context [wrap 32 _] => fail | _ => rewrite (wrap_small 32 e) by (unfold in_u; lia) end
       end. unfold sum. lia. }
  assert (0 <= sum <= 9 * 65535) as Rsum by lia.
  rewrite !FOLD_eq; [|lia|rewrite FOLD_eq by lia; Z.div_mod_to_equations; lia]. clearbody sum.
  assert (0 <= sum / 65536 + sum mod 65536 <= 131070) as RF by (Z.div_mod_to_equations; lia).
  set (F := sum / 65536 + sum mod 65536) in *. rewrite (wrap_small 32 F) by (unfold in_u; lia).
  assert (0 <= F / 65536 <= 1) by (Z.div_mod_to_equations; lia).
  rewrite (wrap_small 32 (_ + F)) by (unfold in_u; lia). unfold Z.lnot, wrap.
  change (2 ^ 16) with 65536. change (2 ^ 32) with 4294967296. Z.div_mod_to_equations. lia.
Qed.

Lemma rfc1071_chksum_range bs : Forall is_byte bs -> 0 <= rfc1071_chksum bs < 65536.
Proof. intros H%rfc1071_range. unfold rfc1071_chksum. lia. Qed.

(** The bytes of an address as two words. *)
Lemma words_addr x bs : 0 <= x < 2 ^ 32 -> words_sum (le_bytes 4 x ++ bs) = x mod 65536 + x / 65536 + words_sum bs.
Proof.
  intros Hx. simpl. rewrite !Z.div_div by lia. change (256 * (256 * 256)) with 16777216. change (256 * 256) with 65536.
  Z.div_mod_to_equations. lia.
Qed.

Lemma ip_header_byte tos len id frag ttl proto chksum src dst :
  is_byte tos -> is_byte ttl -> is_byte proto -> 0 <= len < 65536 -> 0 <= id < 65536 -> 0 <= frag < 65536 ->
  0 <= chksum < 65536 -> Forall is_byte (ip_header tos len id frag ttl proto chksum src dst).
Proof.
  intros. unfold ip_header. repeat apply Forall_app_2; try (by apply be16_byte); try apply le_bytes_byte;
    repeat apply Forall_cons_2; try done; unfold is_byte; lia.
Qed.

Lemma chksum_inline_ok proto ttl dest tos len id src :
  is_byte proto -> is_byte ttl -> is_byte tos ->
  0 <= dest < 2 ^ 32 -> 0 <= src < 2 ^ 32 -> 0 <= len < 65536 -> 0 <= id < 65536 ->
  chksum_inline proto ttl dest tos 69 (lwip_htons len) (lwip_htons id) src =
    lwip_htons (rfc1071_chksum (ip_header tos len id 0 ttl proto 0 src dest)).
Proof.
  intros Hp Ht Ho Hd Hs Hl Hi.
  assert (Forall is_byte (ip_header tos len id 0 ttl proto 0 src dest)) as Hb by by apply ip_header_byte.
  rewrite chksum_inline_sum by (done || by apply htons_range).
  pose proof (words_sum_oeq _ Hb) as E.
  assert (last_byte (ip_header tos len id 0 ttl proto 0 src dest) = 0) as El by done.
  rewrite El, Z.add_0_r in E.
  assert (words_sum (ip_header tos len id 0 ttl proto 0 src dest) =
    ttl + 256 * proto + dest mod 65536 + dest / 65536 + (69 + 256 * tos) + lwip_htons len + lwip_htons id +
    src mod 65536 + src / 65536) as Ew.
  { rewrite !lwip_htons_eq by done. unfold ip_header.
    cbn [app be16 words_sum]. rewrite words_addr by done.
    rewrite <-(app_nil_r (le_bytes 4 dest)), words_addr by done. change (0 / 256) with 0. change (0 mod 256) with 0. cbn [words_sum]. lia. }
  rewrite Ew in E. set (sum := _ + src / 65536) in *.
  pose proof (words_sum_bound _ Hb) as (W & _ & W'). rewrite Ew, El in W'. rewrite Ew in W.
  change (length _) with 20%nat in W'. assert (0 <= sum < 2 ^ 32) as Rs by (Z.div_mod_to_equations; lia).
  apply oeq_rfc1071_chksum; [done|by apply FOLD_twice|]. by rewrite FOLD_twice_oeq.
Qed.

(** ** Writing a header *)

Lemma splice_prefix pre i xs m : splice (length pre + i) xs (pre ++ m) = pre ++ splice i xs m.
Proof. unfold splice. rewrite take_app_add, <-Nat.add_assoc, drop_app_add. by rewrite <-app_assoc. Qed.

(** A store into a header of at least [N] bytes behind [pre]. *)
Lemma nwp_store_at {st0 st p a pre m off len flags} (N : nat) i addr k v (Q : unit -> net -> Prop) s :
  packet st0 st p a (pre ++ m) off len flags -> (N <= length m)%nat ->
  addr = a + Z.of_nat (length pre) + Z.of_nat i -> (i + Z.to_nat k <= N)%nat ->
  (forall st', let m' := splice i (le_bytes (Z.to_nat k) v) m in
     packet st0 st' p a (pre ++ m') off len flags -> (N <= length m')%nat -> Q tt (set_mem st' s)) ->
  nwp (on_mem (store_le addr k v)) Q (set_mem st s).
Proof.
  intros H HN Ha Hi HQ. apply (nwp_store_le H (length pre + i)); [lia|rewrite length_app; lia|].
  intros st' H'. rewrite splice_prefix in H'. apply (HQ st' H').
  rewrite splice_length; [done|]. rewrite le_bytes_length. lia.
Qed.

Lemma le_bytes_1 x : is_byte x -> le_bytes 1 x = [x].
Proof. unfold is_byte. intros. simpl. by rewrite Z.mod_small by lia. Qed.

(** The stores of [ip_build], in its order. *)
Lemma header_fields v0 x2 x3 ttl proto dst tos len id chksum src body :
  length v0 = 20%nat -> x2 = be16 0 -> x3 = be16 id ->
  splice 10 (be16 chksum) (splice 12 (le_bytes 4 src) (splice 4 x3 (splice 6 x2 (splice 2 (be16 len)
    (splice 1 [tos] (splice 0 [69] (splice 16 (le_bytes 4 dst) (splice 9 [proto]
    (splice 8 [ttl] (v0 ++ body)))))))))) = ip_header tos len id 0 ttl proto chksum src dst ++ body.
Proof.
  intros L -> ->. do 20 (destruct v0 as [|? v0]; [done|]). destruct v0; [|done]. done.
Qed.

Section Build.
Context (st0 : netmem) (p a : Z) (inp : Z) (n : netif) (s : net).
Context (Hn : n_ifs s !! inp = Some n) (Hif : if_ok n).
Context (dst ttl tos proto : Z) (Hdst : 0 <= dst < 2 ^ 32).
Context (Httl : is_byte ttl) (Htos : is_byte tos) (Hproto : is_byte proto).
Context (Hid : 0 <= ip_id (n_ip s) < 65536).

Definition next_id : ip_globals :=
  IpGlobals (u16 (ip_id (n_ip s) + 1)) (current_netif (n_ip s)) (current_header (n_ip s))
    (current_iphdr_src (n_ip s)) (current_iphdr_dest (n_ip s)).

(** The header that goes in front of [len - 20] bytes. *)
Definition out_header (len src : Z) : list Z :=
  ip_header tos len (ip_id (n_ip s)) 0 ttl proto
    (rfc1071_chksum (ip_header tos len (ip_id (n_ip s)) 0 ttl proto 0 src dst)) src dst.

Lemma nwp_ip_build st pre old body len flags src (Q : Z -> net -> Prop) :
  packet st0 st p a (pre ++ old ++ body) (Z.of_nat (length pre + 20)) len flags ->
  length old = 20%nat -> len + 20 < 65536 -> p + SIZEOF_STRUCT_PBUF <= a + Z.of_nat (length pre) ->
  0 <= src < 2 ^ 32 -> src = IPADDR_ANY \/ src = ni_ip_addr n ->
  (forall st', packet st0 st' p a (pre ++ out_header (len + 20) (ni_ip_addr n) ++ body) (Z.of_nat (length pre)) (len + 20) flags ->
     Q 0 (set_mem st' (set_ip next_id s))) ->
  nwp (ip_build p (Some src) dst ttl tos proto inp) Q (set_mem st s).
Proof.
  intros H Lo Hl Hroom Rsrc Hsrc HQ. pose proof (pk_len _ _ _ _ _ _ _ _ H) as Hwin.
  assert (20 <= length (old ++ body))%nat as N0 by (rewrite length_app; lia).
  unfold ip_build. apply nwp_bind. apply (nwp_header H); [unfold IP_HLEN; lia..|]. change IP_HLEN with 20.
  intros st1 H1. replace (Z.of_nat (length pre + 20) - 20) with (Z.of_nat (length pre)) in H1 by lia.
  cbn [Z.eqb negb]. apply nwp_bind, (nwp_getp H1).
  change (pb_payload (rambuf (a + Z.of_nat (length pre)) (len + 20) flags)) with (a + Z.of_nat (length pre)).
  change (pb_len (rambuf (a + Z.of_nat (length pre)) (len + 20) flags)) with (len + 20).
  change (pb_tot_len (rambuf (a + Z.of_nat (length pre)) (len + 20) flags)) with (len + 20).
  apply nwp_bind, nwp_assert; [apply Z.leb_le; lia|].
  apply nwp_bind. eapply (nwp_store_at 20 8); [exact H1|done|lia|simpl; lia|]. intros st2 m2 H2 N2.
  apply nwp_bind. eapply (nwp_store_at 20 9); [exact H2|done|lia|simpl; lia|]. intros st3 m3 H3 N3.
  apply nwp_bind. eapply (nwp_store_at 20 16); [exact H3|done|lia|simpl; lia|]. intros st4 m4 H4 N4.
  apply nwp_bind. eapply (nwp_store_at 20 0); [exact H4|done|lia|simpl; lia|]. intros st5 m5 H5 N5.
  apply nwp_bind. eapply (nwp_store_at 20 1); [exact H5|done|lia|simpl; lia|]. intros st6 m6 H6 N6.
  apply nwp_bind. eapply (nwp_store_at 20 2); [exact H6|done|lia|simpl; lia|]. intros st7 m7 H7 N7.
  apply nwp_bind. eapply (nwp_store_at 20 6); [exact H7|done|lia|simpl; lia|]. intros st8 m8 H8 N8.
  apply nwp_bind, nwp_sget.
  apply nwp_bind. eapply (nwp_store_at 20 4); [exact H8|done|lia|simpl; lia|]. intros st9 m9 H9 N9.
  apply nwp_bind, nwp_supd. apply nwp_bind. eapply nwp_getif; [exact Hn|].
  replace (if ip_addr_isany src then ni_ip_addr n else src) with (ni_ip_addr n).
  2: { unfold ip_addr_isany. destruct (Z.eqb_spec src IPADDR_ANY); [done|]. by destruct Hsrc. }
  change (set_ip _ (set_mem st9 s)) with (set_mem st9 (set_ip next_id s)).
  apply nwp_bind. eapply (nwp_store_at 20 12); [exact H9|done|lia|simpl; lia|]. intros st10 m10 H10 N10.
  apply nwp_bind. eapply (nwp_store_at 20 10); [exact H10|done|lia|simpl; lia|]. intros st11 m11 H11 _.
  apply nwp_ret, HQ. change (n_ip (set_mem st8 s)) with (n_ip s) in *.
  change (Z.shiftl 4 4 |. Z.quot IP_HLEN 4) with 69 in *.
  assert (m11 = out_header (len + 20) (ni_ip_addr n) ++ body) as E.
  { unfold out_header. rewrite <-(header_fields old (be16 0) (be16 (ip_id (n_ip s)))) by done.
    unfold m11, m10, m9, m8, m7, m6, m5, m4, m3, m2.
    change (Z.to_nat 1) with 1%nat. change (Z.to_nat 2) with 2%nat. change (Z.to_nat 4) with 4%nat.
    rewrite (chksum_inline_ok proto ttl dst tos (len + 20)) by (done || lia || apply Hif).
    pose proof (rfc1071_chksum_range _ (ip_header_byte tos (len + 20) (ip_id (n_ip s)) 0 ttl proto 0 (ni_ip_addr n) dst
      Htos Httl Hproto ltac:(lia) Hid ltac:(lia) ltac:(lia))).
    rewrite !be16_le_bytes, !le_bytes_1 by (done || lia || (unfold is_byte; lia)). done. }
  by rewrite <-E.
Qed.

(** The packet leaves in a frame for [mac]. *)
Lemma nwp_ip_output_if st pre old body len flags src k mac (Q : Z -> net -> Prop) :
  packet st0 st p a (pre ++ old ++ body) (Z.of_nat (length pre + 20)) len flags ->
  length pre = (k + 14)%nat -> length old = 20%nat -> len + 34 < 65536 ->
  p + SIZEOF_STRUCT_PBUF <= a + Z.of_nat k ->
  0 <= src < 2 ^ 32 -> src = IPADDR_ANY \/ src = ni_ip_addr n -> reaches s n dst mac ->
  (forall st' g r e w, packet st0 st' p a w (Z.of_nat k) (len + 34) flags ->
     arp_table g = arp_table (n_arp s) -> arp_queue g = arp_queue (n_arp s) ->
     Q e (set_mem st' (set_link r (link_sent s ++
       [(inp, ip_frame mac (ni_hwaddr n) (out_header (len + 20) (ni_ip_addr n) ++ take (Z.to_nat len) body))])
       (set_arp g (set_ip next_id s))))) ->
  nwp (ip_output_if p (Some src) (Some dst) ttl tos proto inp) Q (set_mem st s).
Proof.
  intros H Lp Lo Hl Hroom Rsrc Hsrc Hre HQ. pose proof (pk_len _ _ _ _ _ _ _ _ H) as Hwin.
  unfold ip_output_if. apply nwp_bind, (nwp_getp H). apply nwp_bind, nwp_assert; [done|].
  apply nwp_bind. eapply nwp_ip_build; [exact H|done|lia|lia|done|done|]. intros st1 H1. cbn [Z.eqb negb].
  rewrite Lp in H1.
  eapply (nwp_etharp_output _ _ _ _ _ k); [exact H1|lia|exact Hn|done|by apply (reaches_arp s)|].
  intros st2 g r e H2 Hg1 Hg2. replace (len + 20 + 14) with (len + 34) in * by lia.
  replace (mac ++ ni_hwaddr n ++ [8; 0] ++ _) with
    (ip_frame mac (ni_hwaddr n) (out_header (len + 20) (ni_ip_addr n) ++ take (Z.to_nat len) body)).
  { by eapply HQ. }
  unfold ip_frame. do 3 f_equal. rewrite <-Lp, drop_app_length, take_app.
  change (length (out_header _ _)) with 20%nat. rewrite (take_ge (out_header _ _)) by (change (length (out_header _ _)) with 20%nat; lia).
  do 2 f_equal. lia.
Qed.
End Build.

(** ** UDP *)

Definition udp_datagram (sport dport chksum : Z) (data : list Z) : list Z :=
  be16 sport ++ be16 dport ++ be16 (8 + Z.of_nat (length data)) ++ be16 chksum ++ data.

(** The sum that the checksum is about. *)
Definition udp_sum (src dst sport dport chksum : Z) (data : list Z) : Z :=
  rfc1071_chksum (pseudo_header src dst 17 (8 + Z.of_nat (length data)) ++ udp_datagram sport dport chksum data).

Definition udp_chksum (src dst sport dport : Z) (data : list Z) : Z :=
  if udp_sum src dst sport dport 0 data =? 0 then 65535 else udp_sum src dst sport dport 0 data.

Lemma udp_datagram_byte sport dport chksum data :
  0 <= sport < 65536 -> 0 <= dport < 65536 -> 0 <= chksum < 65536 -> Forall is_byte data ->
  8 + Z.of_nat (length data) < 65536 -> Forall is_byte (udp_datagram sport dport chksum data).
Proof. intros. unfold udp_datagram. repeat apply Forall_app_2; try apply be16_byte; try done. lia. Qed.

Lemma udp_fields v0 x0 sport dport chksum data :
  length v0 = 8%nat -> x0 = be16 0 ->
  splice 4 (be16 (8 + Z.of_nat (length data))) (splice 6 x0 (splice 2 (be16 dport) (splice 0 (be16 sport) (v0 ++ data)))) =
    udp_datagram sport dport 0 data /\
  splice 6 (be16 chksum) (udp_datagram sport dport 0 data) = udp_datagram sport dport chksum data.
Proof.
  intros L ->. do 8 (destruct v0 as [|? v0]; [done|]). destruct v0; [|done]. done.
Qed.

(** What is sent verifies. *)
Lemma udp_chksum_ok src dst sport dport data :
  0 <= sport < 65536 -> 0 <= dport < 65536 -> Forall is_byte data -> 8 + Z.of_nat (length data) < 65536 ->
  0 < udp_chksum src dst sport dport data < 65536 /\
  udp_sum src dst sport dport (udp_chksum src dst sport dport data) data = 0.
Proof.
  intros Hs Hd Hb Hl. set (n := 8 + Z.of_nat (length data)) in *.
  assert (Forall is_byte (pseudo_header src dst 17 n)) as Hp by (apply pseudo_header_byte; unfold is_byte; lia).
  set (xs := pseudo_header src dst 17 n ++ be16 sport ++ be16 dport ++ be16 n).
  assert (Forall is_byte xs) as Hx.
  { apply Forall_app_2; [done|]. repeat apply Forall_app_2; apply be16_byte; try done. unfold n in *. lia. }
  assert (forall c, udp_sum src dst sport dport c data = rfc1071_chksum (xs ++ be16 c ++ data)) as E.
  { intros c. unfold udp_sum, xs, udp_datagram. by rewrite <-!app_assoc. }
  assert (0 <= udp_sum src dst sport dport 0 data < 65536) as R.
  { rewrite E. apply rfc1071_chksum_range. apply Forall_app_2; [done|]. apply Forall_app_2; [by apply be16_byte|done]. }
  pose proof (chksum_fill xs data Hx Hb I) as Hf. change [0; 0] with (be16 0) in Hf. rewrite <-!E in Hf.
  unfold udp_chksum. destruct (Z.eqb_spec (udp_sum src dst sport dport 0 data) 0) as [E0|E0]; [|split; [lia|done]].
  split; [lia|]. rewrite E in E0 |- *.
  assert (forall c, 0 <= c < 65536 -> Forall is_byte (xs ++ be16 c ++ data)) as Hall.
  { intros. apply Forall_app_2; [done|]. apply Forall_app_2; [by apply be16_byte|done]. }
  apply rfc1071_oeq_zero in E0; [|by apply Hall]. apply rfc1071_oeq_zero; [by apply Hall|].
  rewrite le_num_replace, le_num_be16 by (done || by apply be16_byte).
  change (be16 0) with [0; 0] in E0. transitivity (65535 + 65535); [apply oeq_add; [done|by apply oeq_refl]|].
  split_and!; try lia. exists 1. lia.
Qed.

(** A control block that sends from the address of the interface. *)
Record sends (u : udp_pcb) (n : netif) : Prop := {
  sn_port : 0 < up_local_port u < 65536;
  sn_ip : up_local_ip u = IPADDR_ANY \/ up_local_ip u = ni_ip_addr n;
  sn_chksum : truthy (up_flags u &. UDP_FLAGS_NOCHKSUM) = false;
  sn_bytes : is_byte (up_ttl u) /\ is_byte (up_tos u);
}.

(** Data with room for the headers in front, as [pbuf_alloc (PBUF_TRANSPORT,
    length, PBUF_RAM)] gives it: [k] bytes, then the places of the three
    headers. *)
Record to_send (st0 st : netmem) (p a : Z) (k : nat) (front data : list Z) (flags : Z) : Prop := {
  ts_packet : packet st0 st p a (front ++ data) (Z.of_nat (k + 42)) (Z.of_nat (length data)) flags;
  ts_front : length front = (k + 42)%nat;
  ts_room : p + SIZEOF_STRUCT_PBUF <= a + Z.of_nat k;
}.

Section SendUdp.
Context (st0 : netmem) (p a : Z) (inp : Z) (n : netif) (s : net).
Context (Hn : n_ifs s !! inp = Some n) (Hif : if_ok n) (Hinp : inp <> NULL).
Context (pcb : Z) (u : udp_pcb) (Hu : udp_pcb_map (n_udp s) !! pcb = Some u) (Hsend : sends u n).
Context (dst dport : Z) (Hdst : 0 <= dst < 2 ^ 32) (Hdport : 0 <= dport < 65536).
Context (Hid : 0 <= ip_id (n_ip s) < 65536).
Context (mac : list Z) (Hre : reaches s n dst mac).

(** The datagram, complete. *)
Definition udp_frame (data : list Z) : list Z :=
  let sport := up_local_port u in
  ip_frame mac (ni_hwaddr n)
    (out_header s dst (up_ttl u) (up_tos u) 17 (28 + Z.of_nat (length data)) (ni_ip_addr n) ++
     udp_datagram sport dport (udp_chksum (ni_ip_addr n) dst sport dport data) data).

Lemma udp_room_same st w k len flags :
  packet st0 st p a w (Z.of_nat (k + 8)) len flags -> len < 65000 -> p + SIZEOF_STRUCT_PBUF <= a + Z.of_nat k ->
  exists st', udp_room p st = Some (p, st') /\ packet st0 st' p a w (Z.of_nat k) (len + 8) flags.
Proof.
  intros H Hl Hroom. pose proof (pk_len _ _ _ _ _ _ _ _ H) as Hw.
  destruct (packet_header _ _ _ _ _ _ _ _ 8 H) as (st1 & E1 & H1); [lia..|].
  replace (Z.of_nat (k + 8) - 8) with (Z.of_nat k) in H1 by lia. exists st1. split; [|done].
  unfold udp_room. rewrite (bind_Some _ _ _ _ _ E1). done.
Qed.

Lemma nwp_udp_chksum st pre data flags (Q : unit -> net -> Prop) s' sport :
  let src := ni_ip_addr n in
  packet st0 st p a (pre ++ udp_datagram sport dport 0 data) (Z.of_nat (length pre)) (8 + Z.of_nat (length data)) flags ->
  0 <= sport < 65536 ->
  (forall st', packet st0 st' p a (pre ++ udp_datagram sport dport (udp_chksum src dst sport dport data) data)
     (Z.of_nat (length pre)) (8 + Z.of_nat (length data)) flags -> Q tt (set_mem st' s')) ->
  nwp (c ← on_mem (load_chksum (fun st => inet_chksum_pseudo st p src dst IP_PROTO_UDP (8 + Z.of_nat (length data))));
       on_mem (store_le (a + Z.of_nat (length pre) + 6) 2 (if c =? 0 then 65535 else c))) Q (set_mem st s').
Proof.
  intros src H Hsp HQ. pose proof (pk_len _ _ _ _ _ _ _ _ H) as Hwin.
  assert (length (udp_datagram sport dport 0 data) = (8 + length data)%nat) as Ld by done.
  rewrite length_app, Ld in Hwin. pose proof (pk_byte _ _ _ _ _ _ _ _ H) as Hb. apply Forall_app in Hb as [_ Hb].
  assert (Forall is_byte data) as Hdata.
  { unfold udp_datagram in Hb. rewrite !Forall_app in Hb. apply Hb. }
  apply nwp_bind. eapply nwp_mem.
  { eapply packet_chksum_pseudo; [exact H|lia|apply Hif|done|unfold is_byte, IP_PROTO_UDP; lia|lia]. }
  rewrite drop_app_length, take_ge by lia. change IP_PROTO_UDP with 17.
  change (rfc1071_chksum _) with (udp_sum src dst sport dport 0 data).
  destruct (udp_chksum_ok src dst sport dport data) as [Rc _]; [done..|lia|].
  assert (0 <= udp_sum src dst sport dport 0 data < 65536) as Rs.
  { apply rfc1071_chksum_range, Forall_app_2; [|done]. apply pseudo_header_byte; unfold is_byte; lia. }
  replace (if lwip_htons (udp_sum src dst sport dport 0 data) =? 0 then 65535 else lwip_htons (udp_sum src dst sport dport 0 data))
    with (lwip_htons (udp_chksum src dst sport dport data)).
  2: { unfold udp_chksum. destruct (Z.eqb_spec (udp_sum src dst sport dport 0 data) 0) as [->|Hne]; [done|].
       destruct (Z.eqb_spec (lwip_htons (udp_sum src dst sport dport 0 data)) 0) as [E|]; [|done].
       rewrite <-(htons_involutive (udp_sum src dst sport dport 0 data)), E in Hne by done. done. }
  eapply (nwp_store_at 8 6); [exact H|lia|lia|simpl; lia|]. intros st' m H' _. apply HQ. unfold m in H'.
  change (Z.to_nat 2) with 2%nat in H'. rewrite be16_le_bytes in H' by lia.
  by rewrite (proj2 (udp_fields (repeat 0 8) (be16 0) sport dport _ data eq_refl eq_refl)) in H'.
Qed.

(** The way from the data to the frame. *)
Lemma nwp_udp_sendto_if st k front data flags (Q : Z -> net -> Prop) :
  to_send st0 st p a k front data flags -> 42 + Z.of_nat (length data) < 65000 ->
  (forall st' g r e w, packet st0 st' p a w (Z.of_nat k) (42 + Z.of_nat (length data)) flags ->
     arp_table g = arp_table (n_arp s) -> arp_queue g = arp_queue (n_arp s) ->
     Q e (set_mem st' (set_link r (link_sent s ++ [(inp, udp_frame data)]) (set_arp g (set_ip (next_id s) s))))) ->
  nwp (udp_sendto_if pcb p dst dport inp) Q (set_mem st s).
Proof.
  intros [H Lf Hroom] Hl HQ. destruct Hsend as [Hp Hip Hck [Httl Htos]].
  rewrite <-(take_drop (k + 34) front), <-app_assoc in H.
  set (pre := take (k + 34) front) in *. set (v0 := drop (k + 34) front) in *.
  assert (length pre = (k + 34)%nat) as Lp by (unfold pre; rewrite length_take; lia).
  assert (length v0 = 8%nat) as Lv by (unfold v0; rewrite length_drop; lia).
  unfold udp_sendto_if. apply nwp_bind. eapply nwp_getu; [exact Hu|].
  destruct (Z.eqb_spec (up_local_port u) 0) as [|_]; [lia|]. apply nwp_bind, nwp_ret. cbn [Z.eqb negb].
  replace (k + 42)%nat with (k + 34 + 8)%nat in H by lia.
  destruct (udp_room_same _ _ _ _ _ H) as (st1 & E1 & H1); [lia|lia|].
  apply nwp_bind. eapply nwp_mem; [exact E1|]. destruct (Z.eqb_spec p NULL) as [Hz|_]; [by destruct (pk_null _ _ _ _ _ _ _ _ H)|].
  apply nwp_bind, (nwp_getp H1). rewrite <-Lp in H1 |- *. replace (_ + 8) with (8 + Z.of_nat (length data)) in * by lia.
  set (n8 := 8 + Z.of_nat (length data)) in *.
  change (pb_payload (rambuf (a + Z.of_nat (length pre)) n8 flags)) with (a + Z.of_nat (length pre)).
  apply nwp_bind, nwp_assert; [apply Z.leb_le; unfold UDP_HLEN, n8; simpl; lia|].
  apply nwp_bind. eapply nwp_getu; [exact Hu|].
  assert (8 <= length (v0 ++ data))%nat as N0 by (rewrite length_app; lia).
  apply nwp_bind. eapply (nwp_store_at 8 0); [exact H1|done|lia|simpl; lia|]. intros st2 m2 H2 N2.
  apply nwp_bind. eapply (nwp_store_at 8 2); [exact H2|done|lia|simpl; lia|]. intros st3 m3 H3 N3.
  apply nwp_bind. eapply (nwp_store_at 8 6); [exact H3|done|lia|simpl; lia|]. intros st4 m4 H4 N4.
  apply nwp_bind. eapply nwp_getif; [exact Hn|].
  replace (negb (ip_addr_isany (up_local_ip u)) && negb (up_local_ip u =? ni_ip_addr n)) with false.
  2: { unfold ip_addr_isany. destruct (Z.eqb_spec (up_local_ip u) IPADDR_ANY); [done|]. destruct Hip as [|E]; [done|].
       by rewrite E, Z.eqb_refl. }
  cbv iota. replace (if ip_addr_isany (up_local_ip u) then ni_ip_addr n else up_local_ip u) with (ni_ip_addr n).
  2: { unfold ip_addr_isany. destruct (Z.eqb_spec (up_local_ip u) IPADDR_ANY); [done|]. by destruct Hip. }
  apply nwp_bind. unfold udp_fill. apply nwp_bind, (nwp_getp H4).
  change (pb_payload (rambuf (a + Z.of_nat (length pre)) n8 flags)) with (a + Z.of_nat (length pre)).
  change (pb_tot_len (rambuf (a + Z.of_nat (length pre)) n8 flags)) with n8.
  apply nwp_bind. eapply (nwp_store_at 8 4); [exact H4|done|lia|simpl; lia|]. intros st5 m5 H5 _. rewrite Hck. cbn [negb].
  assert (m5 = udp_datagram (up_local_port u) dport 0 data) as E5.
  { rewrite <-(proj1 (udp_fields v0 (be16 0) (up_local_port u) dport 0 data Lv eq_refl)).
    unfold m5, m4, m3, m2. change (Z.to_nat 2) with 2%nat. rewrite !be16_le_bytes by (unfold n8 in *; lia). done. }
  rewrite E5 in H5. unfold swhen. apply (nwp_udp_chksum st5 pre data flags _ s (up_local_port u)); [exact H5|lia|].
  intros st6 H6. set (dg := udp_datagram _ _ _ _) in H6.
  rewrite <-(take_drop (k + 14) pre), <-app_assoc in H6. set (pre0 := take (k + 14) pre) in *.
  assert (length pre0 = (k + 14)%nat) as Lp0 by (unfold pre0; rewrite length_take; lia).
  apply nwp_bind.
  eapply (nwp_ip_output_if st0 p a inp n s Hn Hif dst (up_ttl u) (up_tos u) 17 Hdst Httl Htos ltac:(unfold is_byte; lia) Hid
    st6 pre0 (drop (k + 14) pre) dg n8 flags (ni_ip_addr n) k mac); [|done|rewrite length_drop; lia|unfold n8; lia|lia|apply Hif|by right|done|].
  { replace (length pre0 + 20)%nat with (length (pre0 ++ drop (k + 14) pre)) by (rewrite length_app, length_drop; lia). exact H6. }
  intros st7 g r e w H7 Hg1 Hg2. rewrite Z.eqb_refl. cbn [negb]. apply nwp_bind, nwp_ret, nwp_ret.
  replace (n8 + 34) with (42 + Z.of_nat (length data)) in H7 by (unfold n8; lia).
  rewrite take_ge by (change (length dg) with (8 + length data)%nat; unfold n8; lia).
  replace (n8 + 20) with (28 + Z.of_nat (length data)) by (unfold n8; lia). by eapply HQ.
Qed.
End SendUdp.

(** ** The other side *)

Section ReceiveUdp.
Context (st0 : netmem) (p a : Z) (inp : Z) (n : netif) (s : net).
Context (Hn : n_ifs s !! inp = Some n) (Hup : if_up n).
Context (Hroom : p + SIZEOF_STRUCT_PBUF <= a).
Context (dmac smac : list Z) (Hd : length dmac = 6%nat) (Hs : length smac = 6%nat).
Context (tos id frag ttl chksum src sport dport c : Z) (data pad : list Z).
Context (Hsrc : 0 <= src < 2 ^ 32) (Hsport : 0 <= sport < 65536) (Hdport : 0 <= dport < 65536) (Hc : 0 <= c < 65536).
Context (HL : 28 + Z.of_nat (length data) < 65500).

Let me := ni_ip_addr n.
Let L := 28 + Z.of_nat (length data).
Let w := ip_frame dmac smac (ip_header tos L id frag ttl 17 chksum src me ++ udp_datagram sport dport c data ++ pad).

(** The control block that the datagram is for. *)
Context (o : list Z) (pcb : Z) (u : udp_pcb).
Context (Ho : udp_order (n_udp s) o) (Hpcb : pcb <> NULL).
Context (Hdem : demux dport sport me src false n (udp_pcb_map (n_udp s)) o = pcb).
Context (Hu : udp_pcb_map (n_udp s) !! pcb = Some u) (Hrecv : up_recv u <> NULL).

Lemma nwp_udp_receive st flags (Q : unit -> net -> Prop) g0 :
  packet st0 st p a w (Z.of_nat 14) L flags ->
  c = 0 \/ udp_sum src me sport dport c data = 0 ->
  current_iphdr_dest g0 = me -> current_iphdr_src g0 = src ->
  (forall st' g', packet st0 st' p a w (Z.of_nat 42) (Z.of_nat (length data)) flags ->
     strip (udp_pcb_map g') = strip (udp_pcb_map (n_udp s)) ->
     udp_rx g' = udp_rx (n_udp s) ++ [(pcb, p, src, sport)] ->
     Q tt (set_mem st' (set_udp g' (set_ip g0 s)))) ->
  nwp (udp_input p inp) Q (set_mem st (set_ip g0 s)).
Proof.
  intros H Hchk Hg1 Hg2 HQ. set (dg := udp_datagram sport dport c data) in *.
  assert (length dg = (8 + length data)%nat) as Ldg by done.
  assert (drop 34 w = dg ++ pad) as D34 by by apply drop_body.
  pose proof (pk_len _ _ _ _ _ _ _ _ H) as Hwin.
  unfold udp_input. apply nwp_bind, (nwp_getp H).
  change (pb_payload (rambuf (a + Z.of_nat 14) L flags)) with (a + Z.of_nat 14).
  change (pb_tot_len (rambuf (a + Z.of_nat 14) L flags)) with L.
  apply nwp_bind. eapply nwp_mem.
  { unfold ip_hlen. rewrite (bind_Some _ _ _ 69 st); [done|].
    rewrite (field_le _ _ _ _ _ _ _ _ 14 _ H (drop_frame _ _ Hd Hs _) 0); [done|lia|lia|].
    rewrite length_app. simpl. lia. }
  change (4 * (69 &. 15)) with 20. destruct (Z.ltb_spec L (20 + UDP_HLEN)) as [Hx|_]; [unfold L, UDP_HLEN in Hx; lia|].
  apply nwp_bind, (nwp_header H); [lia|unfold L; lia|unfold SIZEOF_STRUCT_PBUF in *; lia|unfold L; lia|]. intros st1 H1.
  change (Z.opp 20) with (-20) in *. change (Z.of_nat 14 - -20) with (Z.of_nat 34) in *.
  replace (L + -20) with (8 + Z.of_nat (length data)) in H1 by (unfold L; lia). cbn [Z.eqb negb].
  apply nwp_bind, (nwp_getp H1). set (n8 := 8 + Z.of_nat (length data)) in *.
  change (pb_payload (rambuf (a + Z.of_nat 34) n8 flags)) with (a + Z.of_nat 34).
  change (pb_tot_len (rambuf (a + Z.of_nat 34) n8 flags)) with n8.
  apply nwp_bind, nwp_sget. apply nwp_bind. eapply nwp_getif; [exact Hn|].
  change (n_ip (set_mem st1 (set_ip g0 s))) with g0. rewrite Hg1, Hg2.
  destruct (iu_unicast _ Hup) as [Hb _]. fold me in Hb. rewrite Hb. change (truthy 0) with false.
  assert (8 <= length (dg ++ pad))%nat as L8 by (rewrite length_app; lia).
  apply nwp_bind. eapply nwp_mem; [eapply (field_le _ _ _ _ _ _ _ _ 34 _ H1 D34 0); [lia|lia|simpl; lia]|].
  apply nwp_bind. eapply nwp_mem; [eapply (field_le _ _ _ _ _ _ _ _ 34 _ H1 D34 2); [lia|lia|simpl; lia]|].
  change (take (Z.to_nat 2) (drop 0 (dg ++ pad))) with (be16 sport).
  change (take (Z.to_nat 2) (drop 2 (dg ++ pad))) with (be16 dport). rewrite !ntohs_be16 by done.
  apply nwp_bind, nwp_sget. apply nwp_bind, nwp_sget. apply nwp_bind. set (s1 := set_mem st1 (set_ip g0 s)).
  eapply nwp_mono; [apply (nwp_udp_demux dport sport me src false n s1 o Ho)|].
  intros r s' (g1 & -> & -> & _ & Hst & _ & Hrx). change (n_udp s1) with (n_udp s) in *. rewrite Hdem.
  destruct (Z.eqb_spec pcb NULL) as [|_]; [done|]. cbn [negb orb].
  change (set_udp g1 s1) with (set_mem st1 (set_udp g1 (set_ip g0 s))).
  apply nwp_bind. eapply nwp_mem; [eapply (field_le _ _ _ _ _ _ _ _ 34 _ H1 D34 6); [lia|lia|simpl; lia]|].
  change (take (Z.to_nat 2) (drop 6 (dg ++ pad))) with (be16 c). rewrite le_num_be16 by done.
  assert (nwp (if negb (lwip_htons c =? 0)
     then on_mem (load_chksum (fun st => inet_chksum_pseudo st p src me IP_PROTO_UDP n8)) else mret 0)
     (fun r s' => r = 0 /\ s' = set_mem st1 (set_udp g1 (set_ip g0 s))) (set_mem st1 (set_udp g1 (set_ip g0 s)))) as Hck.
  { destruct (Z.eqb_spec (lwip_htons c) 0) as [E|E]; cbn [negb]; [by apply nwp_ret|].
    eapply nwp_mem; [eapply packet_chksum_pseudo; [exact H1|unfold n8; lia|done|apply Hup|unfold is_byte, IP_PROTO_UDP; lia|unfold n8; lia]|].
    split; [|done]. rewrite D34, take_app_le, take_ge by (unfold n8; lia). change IP_PROTO_UDP with 17.
    change (rfc1071_chksum _) with (udp_sum src me sport dport c data). destruct Hchk as [->|E']; [done|]. by rewrite E'. }
  apply nwp_bind. eapply nwp_mono; [exact Hck|]. intros ? ? [-> ->]. cbn [Z.eqb negb].
  apply nwp_bind, (nwp_header H1); [unfold UDP_HLEN; lia|unfold UDP_HLEN, n8; lia|unfold UDP_HLEN, SIZEOF_STRUCT_PBUF in *; lia|unfold n8; lia|].
  intros st2 H2. change (Z.of_nat 34 - - UDP_HLEN) with (Z.of_nat 42) in H2.
  replace (n8 + - UDP_HLEN) with (Z.of_nat (length data)) in H2 by (unfold n8, UDP_HLEN; lia).
  apply nwp_bind, nwp_assert; [done|]. unfold udp_deliver. apply nwp_bind, nwp_sget.
  destruct (Z.eqb_spec pcb NULL) as [|_]; [done|]. cbn [negb].
  assert (exists u1, udp_pcb_map g1 !! pcb = Some u1 /\ up_recv u1 = up_recv u) as (u1 & Eu1 & Er).
  { symmetry in Hst. destruct (strip_inv _ _ _ _ Hst Hu) as (u1 & E & (_ & _ & _ & ->)%strip_fields). by exists u1. }
  apply nwp_bind. eapply nwp_getu; [exact Eu1|]. rewrite Er. destruct (Z.eqb_spec (up_recv u) NULL); [done|]. cbn [negb].
  apply nwp_supd. change (current_iphdr_src _) with (current_iphdr_src g0). rewrite Hg2.
  apply (HQ st2 (UdpGlobals (udp_pcb_map g1) (udp_pcbs g1) (udp_port g1) (udp_rx g1 ++ [(pcb, p, src, sport)]))); [done|done|].
  simpl. by rewrite Hrx.
Qed.
End ReceiveUdp.

(** ** From board to board *)

(** The buffer [p] holds [data] behind the headers. *)
Definition holds (st : netmem) (p : Z) (data : list Z) : Prop :=
  exists b, pbufs st !! p = Some b /\ pb_next b = NULL /\
    pb_len b = Z.of_nat (length data) /\ pb_tot_len b = Z.of_nat (length data) /\
    read_bytes (ram st) (pb_payload b) (length data) = Some data.

Lemma packet_holds st0 st p a pre data post flags :
  packet st0 st p a (pre ++ data ++ post) (Z.of_nat (length pre)) (Z.of_nat (length data)) flags -> holds st p data.
Proof.
  intros H. eexists. split; [by eapply pk_lookup|]. split_and!; [done..|]. simpl.
  rewrite (pk_read _ _ _ _ _ _ _ _ (length pre) (length data) H) by (rewrite !length_app; lia).
  by rewrite drop_app_length, take_app_length.
Qed.

(** The receiver: a control block takes what comes for [dport] from [src]. *)
Record listens (s : net) (n : netif) (src sport dport : Z) (pcb : Z) : Prop := {
  li_raw : raw_pcbs (n_raw s) = NULL;
  li_null : pcb <> NULL;
  li_demux : exists o, udp_order (n_udp s) o /\ demux dport sport (ni_ip_addr n) src false n (udp_pcb_map (n_udp s)) o = pcb;
  li_recv : exists u, udp_pcb_map (n_udp s) !! pcb = Some u /\ up_recv u <> NULL;
}.

Lemma udp_arrives tcp_input s p inp n dmac smac tos id frag ttl chksum src sport dport c data pad pcb :
  let L := 28 + Z.of_nat (length data) in
  let hdr := ip_header tos L id frag ttl 17 chksum src (ni_ip_addr n) in
  n_ifs s !! inp = Some n -> inp <> NULL -> if_up n -> length dmac = 6%nat -> length smac = 6%nat ->
  sender n src -> 0 <= frag < 65536 /\ frag &. 16383 = 0 -> L < 65500 ->
  0 <= sport < 65536 -> 0 <= dport < 65536 -> 0 <= c < 65536 ->
  rfc1071_chksum hdr = 0 -> c = 0 \/ udp_sum src (ni_ip_addr n) sport dport c data = 0 ->
  listens s n src sport dport pcb ->
  received (n_mem s) p (ip_frame dmac smac (hdr ++ udp_datagram sport dport c data ++ pad)) ->
  nwp (ethernet_input tcp_input p inp) (fun err s' =>
    err = ERR_OK /\ udp_rx (n_udp s') = udp_rx (n_udp s) ++ [(pcb, p, src, sport)] /\ holds (n_mem s') p data) s.
Proof.
  intros L hdr Hn Hinp Hup Ld Ls Hsrc Hfrag HL Hsp Hdp Hc Hhdr Hchk [Hraw Hnull (o & Ho & Hdem) (u & Hu & Hr)] Hrc.
  pose proof (received_packet _ _ _ Hrc) as H. set (me := ni_ip_addr n) in *.
  set (a := p + SIZEOF_STRUCT_PBUF + PBUF_LINK_HLEN) in *. set (dg := udp_datagram sport dport c data) in *.
  assert (20 + Z.of_nat (length dg) = L) as EL by (unfold L; change (length dg) with (8 + length data)%nat; lia).
  rewrite <-(set_mem_id s).
  eapply (nwp_ethernet_ip _ _ _ _ _ n); [exact Hn|apply Hup|exact H|done|done|done|unfold a, PBUF_LINK_HLEN; lia|].
  intros st1 f1 H1.
  eapply (nwp_ip_input _ _ _ _ _ n s Hn Hinp Hup tos id frag ttl 17 chksum src dg pad);
    [done|done|by rewrite EL|exact H1| |rewrite ip_frame_length by done; lia|].
  { rewrite EL. by apply drop_frame. }
  rewrite EL. intros st2 H2. unfold ip_dispatch. apply nwp_bind, nwp_sget. apply nwp_bind.
  eapply nwp_raw_none; [exact H2| |done|].
  { rewrite ip_frame_length, length_app by done. simpl. lia. }
  cbn [Z.eqb]. apply nwp_bind, (nwp_load_le H2 23); [lia|rewrite ip_frame_length, length_app by done; simpl; lia|].
  change 23%nat with (14 + 9)%nat. rewrite <-drop_drop, drop_frame by done.
  change (le_num _) with 17. change (17 =? IP_PROTO_UDP) with true. cbv iota.
  eapply (nwp_udp_receive (without p (n_mem s)) p a inp n s Hn Hup ltac:(unfold a, PBUF_LINK_HLEN; lia) dmac smac Ld Ls
    tos id frag ttl chksum src sport dport c data pad (sd_range _ _ Hsrc) Hsp Hdp Hc HL o pcb u Ho Hnull Hdem Hu Hr); [exact H2|done|done|done|].
  intros st' g' H' _ Hrx. split; [done|]. split; [exact Hrx|].
  set (pre := dmac ++ smac ++ [8; 0] ++ hdr ++ be16 sport ++ be16 dport ++ be16 (8 + Z.of_nat (length data)) ++ be16 c).
  assert (length pre = 42%nat) as Lp by (unfold pre; rewrite !length_app, Ld, Ls; done).
  eapply (packet_holds _ _ _ a pre data pad). rewrite Lp.
  unfold pre. unfold ip_frame, udp_datagram in H'. rewrite <-!app_assoc in *. exact H'.
Qed.

Lemma udp_sendto_run s p a k front data flags inp n pcb u dst dport mac :
  n_ifs s !! inp = Some n -> inp <> NULL -> if_ok n -> ip_route dst s = Some (inp, s) ->
  udp_pcb_map (n_udp s) !! pcb = Some u -> sends u n -> 0 <= dst < 2 ^ 32 -> 0 <= dport < 65536 ->
  0 <= ip_id (n_ip s) < 65536 -> reaches s n dst mac -> 42 + Z.of_nat (length data) < 65000 ->
  to_send (without p (n_mem s)) (n_mem s) p a k front data flags ->
  nwp (udp_sendto pcb p dst dport) (fun _ s' =>
    link_sent s' = link_sent s ++ [(inp, udp_frame n s u dst dport mac data)] /\
    arp_table (n_arp s') = arp_table (n_arp s) /\ is_Some (pbufs (n_mem s') !! p) /\
    ip_id (n_ip s') = u16 (ip_id (n_ip s) + 1)) s.
Proof.
  intros Hn Hinp Hif Hroute Hu Hsend Hdst Hdp Hid Hre Hl Hts. unfold udp_sendto. apply nwp_bind. eapply nwp_run; [exact Hroute|].
  destruct (Z.eqb_spec inp NULL) as [|_]; [done|]. rewrite <-(set_mem_id s).
  eapply (nwp_udp_sendto_if _ p a inp n s Hn Hif pcb u Hu Hsend dst dport Hdst Hdp Hid mac Hre); [exact Hts|done|].
  intros st' g r e w H' Hg _. split_and!; [done|done| |done]. simpl. rewrite (pk_lookup _ _ _ _ _ _ _ _ H'). by eexists.
Qed.

(** C19. What [udp_sendto] sends arrives: the frame that it hands to the driver,
    received by another board with the destination address (and padded by the
    link), gives the data, with the address and the port of the sender, to the
    control block there. *)
Theorem udp_roundtrip s p a k front data flags inp n pcb u dst dport mac :
  n_ifs s !! inp = Some n -> inp <> NULL -> if_ok n -> ip_route dst s = Some (inp, s) ->
  udp_pcb_map (n_udp s) !! pcb = Some u -> sends u n -> 0 <= dst < 2 ^ 32 -> 0 <= dport < 65536 ->
  0 <= ip_id (n_ip s) < 65536 -> reaches s n dst mac -> 42 + Z.of_nat (length data) < 65000 ->
  to_send (without p (n_mem s)) (n_mem s) p a k front data flags ->
  exists e s' frame, udp_sendto pcb p dst dport s = Some (e, s') /\ link_sent s' = link_sent s ++ [(inp, frame)] /\
    forall tcp_input s2 p2 inp2 n2 pcb2 pad,
      n_ifs s2 !! inp2 = Some n2 -> inp2 <> NULL -> if_up n2 -> ni_ip_addr n2 = dst -> sender n2 (ni_ip_addr n) ->
      listens s2 n2 (ni_ip_addr n) (up_local_port u) dport pcb2 -> received (n_mem s2) p2 (frame ++ pad) ->
      exists s2', ethernet_input tcp_input p2 inp2 s2 = Some (ERR_OK, s2') /\
        udp_rx (n_udp s2') = udp_rx (n_udp s2) ++ [(pcb2, p2, ni_ip_addr n, up_local_port u)] /\
        holds (n_mem s2') p2 data.
Proof.
  intros Hn Hinp Hif Hroute Hu Hsend Hdst Hdp Hid Hre Hl Hts.
  destruct (udp_sendto_run s p a k front data flags inp n pcb u dst dport mac) as (e & s' & E & Hsent & _); [done..|].
  exists e, s', (udp_frame n s u dst dport mac data). split; [done|]. split; [done|].
  intros tcp_input s2 p2 inp2 n2 pcb2 pad Hn2 Hinp2 Hup2 Hme Hsnd Hli Hrc.
  destruct Hsend as [Hport _ _ [Httl Htos]]. pose proof (pk_byte _ _ _ _ _ _ _ _ (ts_packet _ _ _ _ _ _ _ _ Hts)) as Hb.
  apply Forall_app in Hb as [_ Hb]. set (sport := up_local_port u) in *.
  destruct (udp_chksum_ok (ni_ip_addr n) dst sport dport data) as [Rc Hc]; [unfold sport; lia|done|done|lia|].
  destruct (rs_mac _ _ _ (re_mac _ _ _ _ Hre)) as [Lm _]. destruct (io_hw _ Hif) as [Lh _].
  destruct (udp_arrives tcp_input s2 p2 inp2 n2 mac (ni_hwaddr n) (up_tos u) (ip_id (n_ip s)) 0 (up_ttl u)
    (rfc1071_chksum (ip_header (up_tos u) (28 + Z.of_nat (length data)) (ip_id (n_ip s)) 0 (up_ttl u) 17 0 (ni_ip_addr n) dst))
    (ni_ip_addr n) sport dport (udp_chksum (ni_ip_addr n) dst sport dport data) data pad pcb2)
    as (err & s2' & E2 & -> & Hrx & Hh); [done|done|done|done|done|done|done|lia|unfold sport; lia|done|lia| | |done| |].
  - rewrite Hme. apply ip_header_chksum, ip_header_byte; (done || lia || (unfold is_byte; lia)).
  - right. by rewrite Hme.
  - rewrite Hme. unfold udp_frame, out_header, ip_frame in Hrc. rewrite <-!app_assoc in Hrc. exact Hrc.
  - by exists s2'.
Qed.

(** Two bytes from 192.168.1.210:9000 to 192.168.1.5:7. *)
Definition send_sample : net :=
  Net (NetMem (list_to_map (zip (seqZ 4112 58) (repeat 0 56 ++ [104; 105]))) {[ 4096 := rambuf 4168 2 0 ]} [] 0 [] 0 ∅)
    {[ 50 := sample_if ]} 50 50 sample_arp [] [] (IpGlobals 7 NULL NULL 0 0)
    (UdpGlobals {[ 256 := UdpPcb NULL 0 0 0 0 UDP_TTL 0 9000 0 1 ]} 256 49152 []) (RawGlobals ∅ NULL [] []) tcp_start tmo_start.

Definition sample_frame : list Z :=
  match link_sent <$> (snd <$> udp_sendto 256 4096 (ip4 192 168 1 5) 7 send_sample) with
  | Some [(_, frame)] => frame
  | _ => []
  end.

Definition host_if : netif :=
  Netif NULL (ip4 192 168 1 5) (ip4 255 255 255 0) (ip4 192 168 1 1) 1500 6 sample_host 35.

Definition host_pcb : udp_pcb := UdpPcb NULL 0 0 0 0 UDP_TTL 0 7 0 1.

Definition receive_sample : net :=
  Net (sample_mem (sample_frame ++ repeat 0 16)) {[ 50 := host_if ]} 50 50 sample_arp [] [] (IpGlobals 7 NULL NULL 0 0)
    (UdpGlobals {[ 256 := host_pcb ]} 256 49152 []) (RawGlobals ∅ NULL [] []) tcp_start tmo_start.

Lemma host_if_up : if_up host_if.
Proof.
  constructor; [done..|]. constructor; [done| |by compute]. split; [done|]. by repeat apply Forall_cons_2.
Qed.

Lemma sample_to_send :
  to_send (without 4096 (n_mem send_sample)) (n_mem send_sample) 4096 4112 14 (repeat 0 56) [104; 105] 0.
Proof.
  constructor; [|done|by compute]. apply packet_alone; [done|done|by compute|simpl; lia| |by vm_compute].
  apply (bool_decide_unpack _). by vm_compute.
Qed.

Lemma host_sender : sender host_if (ip4 192 168 1 210).
Proof. constructor; [by compute|done]. Qed.

Lemma host_listens : listens receive_sample host_if (ip4 192 168 1 210) 9000 7 256.
Proof.
  constructor; [done|done| |by exists host_pcb].
  exists [256]. split; [|by vm_compute]. exists [(256, host_pcb)]. by repeat split.
Qed.

Lemma host_received : received (n_mem receive_sample) 4096 (sample_frame ++ repeat 0 16).
Proof.
  constructor; [by vm_compute|done|by vm_compute| |by vm_compute]. apply (bool_decide_unpack _). by vm_compute.
Qed.

Lemma udp_roundtrip_witness :
  exists s2, ethernet_input (fun _ _ => mret tt) 4096 50 receive_sample = Some (ERR_OK, s2) /\
    udp_rx (n_udp s2) = [(256, 4096, ip4 192 168 1 210, 9000)] /\ holds (n_mem s2) 4096 [104; 105].
Proof.
  destruct (udp_roundtrip send_sample 4096 4112 14 (repeat 0 56) [104; 105] 0 50 sample_if 256 (UdpPcb NULL 0 0 0 0 UDP_TTL 0 9000 0 1)
    (ip4 192 168 1 5) 7 sample_host) as (e & s' & frame & E & Hs & H).
  - done.
  - done.
  - apply sample_if_up.
  - by vm_compute.
  - done.
  - constructor; [by compute|by left|done|]. unfold is_byte. simpl. unfold UDP_TTL. lia.
  - by compute.
  - by compute.
  - by compute.
  - apply (reaches_arp (sample_net [])); [done|apply sample_reaches].
  - simpl. lia.
  - apply sample_to_send.
  - assert (frame = sample_frame) as -> by (unfold sample_frame; rewrite E; simpl; by rewrite Hs).
    exact (H _ receive_sample 4096 50 host_if 256 (repeat 0 16) eq_refl ltac:(discriminate) host_if_up eq_refl
      host_sender host_listens host_received).
Defined.
