(* ===== verification/ArpTable.v ===== *)
(** * The address resolution table

    The invariant of netif/etharp.c: ten entries, each with its own queue of
    packet buffers, and every queued buffer counted as a reference.  The timer,
    the search for an entry and the cleanup keep it. *)

From S2P Require Import Prelude StateM LwipMem Chksum IpAddr Pbuf PbufRef TcpData NetState Etharp Packet.

(** ** References *)

#[export] Instance refs_ok_perm : Proper (Permutation ==> eq ==> iff) refs_ok.
Proof.
  intros o o' Ho bs ? <-.
  assert (forall o o', o ≡ₚ o' -> refs_ok o bs -> refs_ok o' bs) as H.
  { clear. intros o o' Ho [Hn Hr Hown Hc]. constructor; [done| | |done].
    - intros p b Hb. destruct (Hr p b Hb) as [E R]. split; [|done]. rewrite E. unfold refs. do 2 f_equal.
      by apply (Permutation_count_occ Z.eq_dec).
    - intros p Hp. apply Hown. by rewrite Ho. }
  split; [by apply H|]. by apply H.
Qed.

Definition queued (l : list (Z * etharp_q_entry)) : list Z := qe_p ∘ snd <$> l.

(** What an action on a state changes: the buffers and the table. *)
Definition arp_effect (s s' : net) : Prop :=
  exists bs g, s' = set_mem (set_pbufs bs (n_mem s)) (set_arp g s) /\ refs_only (pbufs (n_mem s)) bs /\
    arp_queue g ⊆ arp_queue (n_arp s).

Lemma refs_only_refl bs : refs_only bs bs.
Proof. intros a b Hb. exists b. split; [done|]. by destruct b. Qed.

#[export] Instance arp_effect_refl : Reflexive arp_effect.
Proof.
  intros s. exists (pbufs (n_mem s)), (n_arp s). split; [|split; [apply refs_only_refl|done]]. by destruct s as [[] ? ? ? ? ? ? ? ? ?].
Qed.

Lemma arp_effect_arp s g : arp_queue g ⊆ arp_queue (n_arp s) -> arp_effect s (set_arp g s).
Proof.
  intros H. exists (pbufs (n_mem s)), g. split; [|split; [apply refs_only_refl|done]]. by destruct s as [[] ? ? ? ? ? ? ? ? ?].
Qed.

#[export] Instance arp_effect_trans : Transitive arp_effect.
Proof.
  intros s1 s2 s3 (bs & g & -> & H1 & H1') (bs' & g' & -> & H2 & H2'). exists bs', g'. split; [done|].
  split; [by transitivity bs|by transitivity (arp_queue g)].
Qed.

(** ** Queues *)

Lemma free_q_loop_ok l s q owners fuel :
  lchain qe_next (arp_queue (n_arp s)) q l -> (length l < fuel)%nat ->
  refs_ok (queued l ++ owners) (pbufs (n_mem s)) ->
  exists s', free_q_loop fuel q s = Some (tt, s') /\ arp_effect s s' /\ refs_ok owners (pbufs (n_mem s')) /\
    arp_table (n_arp s') = arp_table (n_arp s) /\ etharp_cached_entry (n_arp s') = etharp_cached_entry (n_arp s) /\
    forall x, arp_queue (n_arp s') !! x = if decide (x ∈ l.*1) then None else arp_queue (n_arp s) !! x.
Proof.
  revert s q fuel. induction l as [|[x e] l IH]; intros s q fuel H Hf Hr; (destruct fuel as [|fuel]; [simpl in Hf; lia|]);
    cbn [free_q_loop]; simpl in Hf.
  - simpl in H. rewrite H. exists s. split; [done|]. split; [done|]. split; [done|]. split_and!; [done|done|].
    intros x. by rewrite decide_False by apply not_elem_of_nil.
  - pose proof (lchain_NoDup _ _ _ _ H) as [Hx _]%NoDup_cons. destruct H as (-> & Hxn & Ee & H).
    destruct (Z.eqb_spec x NULL); [done|]. rewrite (bind_Some _ _ _ e s) by (unfold getq; by rewrite Ee).
    change (queued ((x, e) :: l) ++ owners) with (qe_p e :: (queued l ++ owners)) in Hr.
    assert (qe_p e <> NULL) as Hp.
    { intros E. destruct (ro_owner _ _ Hr (qe_p e)) as [b Hb]; [apply list_elem_of_here|].
      rewrite E, (ro_null _ _ Hr) in Hb. done. }
    rewrite (bind_Some _ _ _ tt s) by (unfold nassert; by destruct (Z.eqb_spec (qe_p e) NULL)).
    destruct (pbuf_free_refs (n_mem s) (qe_p e) _ Hr) as (c & bs & E & Hr' & Hro).
    set (s1 := set_mem (set_pbufs bs (n_mem s)) s). rewrite (bind_Some _ _ _ c s1) by (unfold on_mem; by rewrite E).
    set (s2 := set_queue (delete x (arp_queue (n_arp s))) s1). rewrite (bind_Some _ _ _ tt s2) by done.
    destruct (IH s2 (qe_next e) fuel) as (s' & E' & Heff & Ho & Ht & Hce & Hq); [by apply lseg_delete|lia|done|].
    exists s'. split; [done|]. split; [|split; [done|split; [by rewrite Ht|split; [by rewrite Hce|]]]].
    + transitivity s2; [|done]. exists bs, (ArpGlobals (arp_table (n_arp s)) (etharp_cached_entry (n_arp s)) (delete x (arp_queue (n_arp s)))).
      split_and!; [done|done|apply delete_subseteq].
    + intros y. rewrite Hq. simpl arp_queue. destruct (decide (y ∈ l.*1)) as [Hy|Hy].
      * by rewrite decide_True by (by apply list_elem_of_further).
      * destruct (decide (y = x)) as [->|Hne].
        -- by rewrite lookup_delete_eq, decide_True by apply list_elem_of_here.
        -- rewrite lookup_delete_ne by done. rewrite decide_False; [done|]. rewrite fmap_cons. by intros [?|?]%elem_of_cons.
Qed.

(** ** The invariant

    [rest] are the owners of buffers outside of the table, [qs] the queues of the
    entries. *)

Record arp_inv (rest : list Z) (qs : list (list (Z * etharp_q_entry))) (s : net) : Prop := {
  ai_len : length (arp_table (n_arp s)) = Z.to_nat ARP_TABLE_SIZE;
  ai_queues : Forall2 (fun e l => lchain qe_next (arp_queue (n_arp s)) (ae_q e) l) (arp_table (n_arp s)) qs;
  ai_disjoint : NoDup (concat qs).*1;
  ai_all x : is_Some (arp_queue (n_arp s) !! x) -> x ∈ (concat qs).*1;
  ai_refs : refs_ok (queued (concat qs) ++ rest) (pbufs (n_mem s));
  ai_pending e : e ∈ arp_table (n_arp s) -> ae_state e <> ETHARP_STATE_PENDING -> ae_q e = NULL;
  ai_ctime e : e ∈ arp_table (n_arp s) -> 0 <= ae_ctime e < 256;
}.

Lemma elem_concat {A} (qs : list (list A)) l x : l ∈ qs -> x ∈ l -> x ∈ concat qs.
Proof. intros Hl Hx. apply list_elem_of_In, in_concat. exists l. split; by apply list_elem_of_In. Qed.

Lemma concat_delete {A} (qs : list (list A)) i l :
  qs !! i = Some l -> concat qs ≡ₚ l ++ concat (<[i := []]> qs).
Proof.
  revert i. induction qs as [|k qs IH]; intros [|i]; simpl; [done|done|by intros [= ->]|].
  intros H. rewrite (IH i H). by rewrite Permutation_app_swap_app.
Qed.

Definition emptied (e : etharp_entry) : etharp_entry := set_ae_state ETHARP_STATE_EMPTY (set_ae_q NULL e).

Lemma get_entry_run' i e s :
  arp_table (n_arp s) !! i = Some e -> get_entry (Z.of_nat i) s = Some (e, s).
Proof. intros H. apply get_entry_run; [lia|by rewrite Nat2Z.id]. Qed.

Lemma upd_entry_run i f e s :
  arp_table (n_arp s) !! i = Some e ->
  upd_entry (Z.of_nat i) f s = Some (tt, set_table (<[i := f e]> (arp_table (n_arp s))) s).
Proof. intros H. unfold upd_entry. destruct (Z.ltb_spec (Z.of_nat i) 0); [lia|]. by rewrite Nat2Z.id, H. Qed.

(** An entry changes, its queue stays. *)
Lemma arp_inv_set rest qs s i e e' :
  arp_inv rest qs s -> arp_table (n_arp s) !! i = Some e -> ae_q e' = ae_q e ->
  (ae_state e' <> ETHARP_STATE_PENDING -> ae_q e' = NULL) -> 0 <= ae_ctime e' < 256 ->
  arp_inv rest qs (set_table (<[i := e']> (arp_table (n_arp s))) s).
Proof.
  intros [Hl Hq Hd Ha Hr Hp Hc] He Eq Hst Hct. constructor; try done; simpl.
  - by rewrite length_insert.
  - destruct (Forall2_lookup_l _ _ _ _ _ Hq He) as (l & El & Hlc).
    rewrite <-(list_insert_id qs i l El). apply Forall2_insert; [done|]. by rewrite Eq.
  - intros x [j Hj]%list_elem_of_lookup. destruct (decide (j = i)) as [->|Hne].
    + apply list_lookup_insert_Some in Hj as [(_ & -> & _)|[? _]]; done.
    + rewrite list_lookup_insert_ne in Hj by done. apply Hp. by eapply list_elem_of_lookup_2.
  - intros x [j Hj]%list_elem_of_lookup. destruct (decide (j = i)) as [->|Hne].
    + apply list_lookup_insert_Some in Hj as [(_ & -> & _)|[? _]]; done.
    + rewrite list_lookup_insert_ne in Hj by done. apply Hc. by eapply list_elem_of_lookup_2.
Qed.

(** The queue of an entry is gone. *)
Lemma arp_inv_drop rest qs s i e' l s1 :
  arp_inv rest qs s -> qs !! i = Some l -> arp_table (n_arp s1) = <[i := e']> (arp_table (n_arp s)) ->
  ae_q e' = NULL -> 0 <= ae_ctime e' < 256 ->
  refs_ok (queued (concat (<[i := []]> qs)) ++ rest) (pbufs (n_mem s1)) ->
  (forall x, arp_queue (n_arp s1) !! x = if decide (x ∈ l.*1) then None else arp_queue (n_arp s) !! x) ->
  arp_inv rest (<[i := []]> qs) s1.
Proof.
  intros [Hl Hq Hd Ha Hr Hp Hc] El Ht1 Hq0 Hct Hr1 Hq1. pose proof (concat_delete qs i l El) as Hperm.
  assert (NoDup (l ++ concat (<[i := []]> qs)).*1) as Hd' by by rewrite <-Hperm.
  rewrite fmap_app in Hd'. apply NoDup_app in Hd' as (_ & Hdis & Hd').
  constructor; rewrite ?Ht1, ?length_insert; try done.
  - apply Forall2_same_length_lookup_2; [by rewrite !length_insert, (Forall2_length _ _ _ Hq)|].
    intros j e1 k' He' Hk'. destruct (decide (j = i)) as [->|Hne].
    + apply list_lookup_insert_Some in He' as [(_ & <- & _)|[? _]]; [|done].
       apply list_lookup_insert_Some in Hk' as [(_ & <- & _)|[? _]]; done.
    + rewrite list_lookup_insert_ne in He' by done. rewrite list_lookup_insert_ne in Hk' by done.
       pose proof (Forall2_lookup_lr _ _ _ _ _ _ Hq He' Hk') as Hk. eapply lseg_agree; [|exact Hk].
       intros z v Hin. rewrite Hq1, decide_False; [done|]. intros Hzl. eapply Hdis; [exact Hzl|].
       apply list_elem_of_fmap. exists (z, v). split; [done|]. eapply elem_concat; [|exact Hin].
       eapply (list_elem_of_lookup_2 _ j). by rewrite list_lookup_insert_ne.
  - intros z Hz. rewrite Hq1 in Hz. destruct (decide (z ∈ l.*1)) as [|Hzl]; [by destruct Hz|].
    apply Ha in Hz. rewrite Hperm, fmap_app in Hz. by apply elem_of_app in Hz as [|].
  - intros x' [j Hj]%list_elem_of_lookup Hst. destruct (decide (j = i)) as [->|Hne].
    + apply list_lookup_insert_Some in Hj as [(_ & <- & _)|[? _]]; done.
    + rewrite list_lookup_insert_ne in Hj by done. apply Hp; [by eapply list_elem_of_lookup_2|done].
  - intros x' [j Hj]%list_elem_of_lookup. destruct (decide (j = i)) as [->|Hne].
    + apply list_lookup_insert_Some in Hj as [(_ & <- & _)|[? _]]; done.
    + rewrite list_lookup_insert_ne in Hj by done. apply Hc. by eapply list_elem_of_lookup_2.
Qed.

(** Freeing an entry releases its queue and nothing else. *)
Lemma etharp_free_entry_ok rest qs s i e :
  arp_inv rest qs s -> arp_table (n_arp s) !! i = Some e ->
  exists s', etharp_free_entry (Z.of_nat i) s = Some (tt, s') /\ arp_effect s s' /\
    arp_inv rest (<[i := []]> qs) s' /\ arp_table (n_arp s') = <[i := emptied e]> (arp_table (n_arp s)) /\
    etharp_cached_entry (n_arp s') = etharp_cached_entry (n_arp s).
Proof.
  intros Hinv He. pose proof Hinv as [Hl Hq Hd Ha Hr Hp Hc].
  destruct (Forall2_lookup_l _ _ _ _ _ Hq He) as (l & El & Hlc).
  pose proof (concat_delete qs i l El) as Hperm.
  assert (0 <= ae_ctime e < 256) as Hct by (apply Hc; by eapply list_elem_of_lookup_2).
  unfold etharp_free_entry. rewrite (bind_Some _ _ _ _ _ (get_entry_run' _ _ _ He)).
  destruct (Z.eqb_spec (ae_q e) NULL) as [E0|E0]; cbn [negb swhen].
  - rewrite (bind_Some _ _ _ tt s) by done. rewrite (upd_entry_run _ _ _ _ He).
    assert (l = []) as -> by (eapply lchain_fun; [exact Hlc|done]).
    eexists. split; [done|]. rewrite (list_insert_id qs i [] El).
    assert (set_ae_state ETHARP_STATE_EMPTY e = emptied e) as -> by (unfold emptied; destruct e; simpl in *; by rewrite E0).
    split; [by apply arp_effect_arp|split; [by eapply arp_inv_set|done]].
  - assert (exists x y k, l = (x, y) :: k /\ ae_q e = x /\ x <> NULL /\ arp_queue (n_arp s) !! x = Some y) as (x & y & k & El' & Ex & Hx & Ey).
    { destruct l as [|[x y] k]; [done|]. destruct Hlc as (? & ? & ? & _). naive_solver. }
    destruct (free_q_loop_ok l s (ae_q e) (queued (concat (<[i := []]> qs)) ++ rest) (S (size (arp_queue (n_arp s)))))
      as (s1 & E1 & Heff & Hr1 & Ht1 & Hce1 & Hq1); [done|pose proof (lchain_size _ _ _ _ Hlc); lia| |].
    { rewrite app_assoc. unfold queued. rewrite <-fmap_app, <-Hperm. done. }
    assert (qe_p y <> NULL) as Hyp.
    { intros E. destruct (ro_owner _ _ Hr (qe_p y)) as [b Hb].
      - apply elem_of_app. left. apply list_elem_of_fmap. exists (x, y). split; [done|]. rewrite Hperm, El'. apply list_elem_of_here.
      - rewrite E, (ro_null _ _ Hr) in Hb. done. }
    assert (free_etharp_q (ae_q e) s = Some (tt, s1)) as Ef.
    { unfold free_etharp_q. rewrite (bind_Some _ _ _ tt s) by (unfold nassert; by destruct (Z.eqb_spec (ae_q e) NULL)).
      rewrite (bind_Some _ _ _ y s) by (unfold getq; by rewrite Ex, Ey).
      rewrite (bind_Some _ _ _ tt s) by (unfold nassert; by destruct (Z.eqb_spec (qe_p y) NULL)).
      by rewrite (bind_Some _ _ _ (S (size (arp_queue (n_arp s)))) s). }
    assert (arp_table (n_arp s1) !! i = Some e) as He1 by by rewrite Ht1.
    erewrite bind_Some; [|rewrite (bind_Some _ _ _ _ _ Ef); by apply upd_entry_run].
    assert (i < length (arp_table (n_arp s)))%nat as Hi by by eapply lookup_lt_Some.
    erewrite upd_entry_run by (simpl; rewrite Ht1; by apply list_lookup_insert_eq).
    change (arp_table (n_arp (set_table ?t ?s))) with t. rewrite Ht1, list_insert_insert_eq. fold (emptied e).
    eexists. split; [done|]. split; [|split; [|split; [done|done]]].
    + transitivity s1; [done|].
      by apply (arp_effect_arp s1 (ArpGlobals (<[i := emptied e]> (arp_table (n_arp s))) (etharp_cached_entry (n_arp s1)) (arp_queue (n_arp s1)))).
    + by apply (arp_inv_drop rest qs s i (emptied e) l).
Qed.

(** ** The timer *)

(** What five seconds do to an entry. *)
Definition aged (e : etharp_entry) : etharp_entry :=
  let t := u8 (ae_ctime e + 1) in
  match ae_state e with
  | ETHARP_STATE_EMPTY => e
  | ETHARP_STATE_PENDING =>
      if ARP_MAXPENDING <=? t then emptied (set_ae_ctime t e) else set_ae_ctime t e
  | _ =>
      if ARP_MAXAGE <=? t then emptied (set_ae_ctime t e) else set_ae_state ETHARP_STATE_STABLE (set_ae_ctime t e)
  end.

Lemma set_table_table t t' s : set_table t (set_table t' s) = set_table t s.
Proof. done. Qed.

(** The same, as the loop decides it. *)
Lemma aged_eq e :
  ae_state e <> ETHARP_STATE_EMPTY ->
  let e1 := set_ae_ctime (u8 (ae_ctime e + 1)) e in
  aged e = if (ARP_MAXAGE <=? ae_ctime e1) || (is_state e ETHARP_STATE_PENDING && (ARP_MAXPENDING <=? ae_ctime e1))
           then emptied e1
           else if is_state e ETHARP_STATE_STABLE_REREQUESTING then set_ae_state ETHARP_STATE_STABLE e1 else e1.
Proof.
  intros Es e1. change (ae_ctime e1) with (u8 (ae_ctime e + 1)). unfold aged. fold e1. set (t := u8 (ae_ctime e + 1)) in *.
  destruct e as [q ip nf eth st ct]. simpl in *. destruct st; [done| | |]; cbn [andb]; rewrite ?orb_false_r; try done.
  unfold ARP_MAXAGE, ARP_MAXPENDING. change (bool_decide (ETHARP_STATE_PENDING = ETHARP_STATE_PENDING)) with true. cbn [andb].
  destruct (Z.leb_spec 2 t), (Z.leb_spec 240 t); try done. lia.
Qed.

Lemma tmr_entry_ok rest qs s i e :
  arp_inv rest qs s -> arp_table (n_arp s) !! i = Some e ->
  exists s' qs', tmr_entry (Z.of_nat i) s = Some (tt, s') /\ arp_effect s s' /\ arp_inv rest qs' s' /\
    arp_table (n_arp s') = <[i := aged e]> (arp_table (n_arp s)) /\
    etharp_cached_entry (n_arp s') = etharp_cached_entry (n_arp s) /\
    qs' = (if bool_decide (ae_state (aged e) = ETHARP_STATE_EMPTY) then <[i := []]> qs else qs).
Proof.
  intros Hinv He. pose proof (list_elem_of_lookup_2 _ _ _ He) as Hin.
  assert (i < length (arp_table (n_arp s)))%nat as Hi by by eapply lookup_lt_Some.
  set (t := u8 (ae_ctime e + 1)). assert (0 <= t < 256) as Rt by (apply (wrap_range 8); lia).
  unfold tmr_entry. rewrite (bind_Some _ _ _ _ _ (get_entry_run' _ _ _ He)).
  destruct (decide (ae_state e = ETHARP_STATE_EMPTY)) as [Es|Es].
  { rewrite bool_decide_eq_true_2 by done. exists s, qs.
    assert (aged e = e) as -> by (unfold aged; by rewrite Es).
    split_and!; [done|done|done|by rewrite list_insert_id|done|]. rewrite bool_decide_eq_true_2 by done.
    destruct (Forall2_lookup_l _ _ _ _ _ (ai_queues _ _ _ Hinv) He) as (l & El & Hl).
    rewrite (ai_pending _ _ _ Hinv e Hin) in Hl by (by rewrite Es).
    assert (l = []) as -> by (eapply lchain_fun; [exact Hl|done]). by rewrite list_insert_id. }
  rewrite bool_decide_eq_false_2 by done. rewrite (bind_Some _ _ _ _ _ (upd_entry_run _ _ _ _ He)). fold t.
  set (e1 := set_ae_ctime t e). set (s1 := set_table (<[i := e1]> (arp_table (n_arp s))) s).
  assert (arp_table (n_arp s1) !! i = Some e1) as He1 by by apply list_lookup_insert_eq.
  assert (arp_inv rest qs s1) as Hinv1.
  { eapply arp_inv_set; [done|done|done|simpl|done]. intros ?. by apply (ai_pending _ _ _ Hinv). }
  rewrite (bind_Some _ _ _ _ _ (get_entry_run' _ _ _ He1)). change (ae_ctime e1) with t. change (ae_state e1) with (ae_state e).
  assert (arp_effect s s1) as Heff1 by by apply arp_effect_arp.
  assert (forall s' e', arp_table (n_arp s') = <[i := e']> (arp_table (n_arp s1)) ->
    arp_table (n_arp s') = <[i := e']> (arp_table (n_arp s))) as Htab.
  { intros s' e' ->. unfold s1. simpl. apply list_insert_insert_eq. }
  pose proof (aged_eq e Es) as Ea. cbv zeta in Ea. fold t e1 in Ea. change (ae_ctime e1) with t in Ea.
  revert Ea. destruct ((ARP_MAXAGE <=? t) || (is_state e ETHARP_STATE_PENDING && (ARP_MAXPENDING <=? t))); intros Ea.
  - destruct (etharp_free_entry_ok rest qs s1 i e1 Hinv1 He1) as (s' & E & Heff & Hinv' & Ht & Hce).
    exists s', (<[i := []]> qs). rewrite Ea. split_and!; [done|by transitivity s1|done|rewrite Ht; apply list_insert_insert_eq|done|done].
  - destruct (is_state e ETHARP_STATE_STABLE_REREQUESTING) eqn:Er.
    + apply bool_decide_eq_true in Er. rewrite (upd_entry_run _ _ _ _ He1). eexists _, qs. rewrite Ea.
      split_and!; [done|etrans; [exact Heff1|by apply arp_effect_arp]| |by apply Htab|done|done].
      eapply arp_inv_set; [done|done|done| |done]. intros _. apply (ai_pending _ _ _ Hinv e); [done|]. by rewrite Er.
    + exists s1, qs. rewrite Ea. split_and!; [done..|]. by rewrite bool_decide_eq_false_2.
Qed.

(** A loop over the table whose body handles one entry. *)
Section Loop.
Context (rest : list Z) (body : Z -> NetM unit) (f : etharp_entry -> etharp_entry).
Context (Hbody : forall s qs i e, arp_inv rest qs s -> arp_table (n_arp s) !! i = Some e ->
  exists s' qs', body (Z.of_nat i) s = Some (tt, s') /\ arp_effect s s' /\ arp_inv rest qs' s' /\
    arp_table (n_arp s') = <[i := f e]> (arp_table (n_arp s)) /\
    etharp_cached_entry (n_arp s') = etharp_cached_entry (n_arp s)).

Lemma for_each_ok k n s qs :
  arp_inv rest qs s -> (k + n <= length (arp_table (n_arp s)))%nat ->
  exists s' qs', for_each (Z.of_nat <$> seq k n) body s = Some (tt, s') /\ arp_effect s s' /\ arp_inv rest qs' s' /\
    (forall j, arp_table (n_arp s') !! j =
       if decide (k <= j < k + n)%nat then f <$> arp_table (n_arp s) !! j else arp_table (n_arp s) !! j) /\
    etharp_cached_entry (n_arp s') = etharp_cached_entry (n_arp s).
Proof.
  revert k s qs. induction n as [|n IH]; intros k s qs Hinv Hk; simpl.
  - exists s, qs. split_and!; try done. intros j. by rewrite decide_False by lia.
  - destruct (lookup_lt_is_Some_2 (arp_table (n_arp s)) k) as [e He]; [lia|].
    destruct (Hbody s qs k e Hinv He) as (s1 & qs1 & E1 & Heff1 & Hinv1 & Ht1 & Hc1).
    destruct (IH (S k) s1 qs1 Hinv1) as (s' & qs' & E' & Heff' & Hinv' & Ht' & Hc').
    { rewrite Ht1, length_insert. lia. }
    exists s', qs'. rewrite (bind_Some _ _ _ _ _ E1). split_and!; [done|by transitivity s1|done| |by rewrite Hc'].
    intros j. rewrite Ht', Ht1. destruct (decide (j = k)) as [->|Hne].
    + rewrite list_lookup_insert_eq by lia. rewrite decide_False, decide_True by lia. by rewrite He.
    + rewrite list_lookup_insert_ne by done. repeat case_decide; try done; lia.
Qed.

Lemma for_each_table s qs :
  arp_inv rest qs s ->
  exists s' qs', for_each table_indices body s = Some (tt, s') /\ arp_effect s s' /\ arp_inv rest qs' s' /\
    arp_table (n_arp s') = f <$> arp_table (n_arp s) /\ etharp_cached_entry (n_arp s') = etharp_cached_entry (n_arp s).
Proof.
  intros Hinv. pose proof (ai_len _ _ _ Hinv) as Hl. change (Z.to_nat ARP_TABLE_SIZE) with 10%nat in Hl.
  destruct (for_each_ok 0 10 s qs Hinv) as (s' & qs' & E & Heff & Hinv' & Ht & Hc); [lia|].
  exists s', qs'. split_and!; try done. apply list_eq. intros j. rewrite Ht, list_lookup_fmap.
  case_decide; [done|]. rewrite lookup_ge_None_2 by lia. done.
Qed.
End Loop.

Lemma etharp_tmr_run rest qs s :
  arp_inv rest qs s ->
  exists s' qs', etharp_tmr s = Some (tt, s') /\ arp_effect s s' /\ arp_inv rest qs' s' /\
    arp_table (n_arp s') = aged <$> arp_table (n_arp s) /\
    etharp_cached_entry (n_arp s') = etharp_cached_entry (n_arp s).
Proof.
  apply for_each_table. intros s1 qs1 i e Hinv He.
  destruct (tmr_entry_ok rest qs1 s1 i e Hinv He) as (s' & qs' & E & Heff & Hinv' & Ht & Hc & _). by exists s', qs'.
Qed.

(** The timer [n] times. *)
Fixpoint ticks (n : nat) : NetM unit :=
  match n with O => mret tt | S n => etharp_tmr ;; ticks n end.

Lemma ticks_run rest n qs s :
  arp_inv rest qs s ->
  exists s' qs', ticks n s = Some (tt, s') /\ arp_effect s s' /\ arp_inv rest qs' s' /\
    arp_table (n_arp s') = Nat.iter n aged <$> arp_table (n_arp s).
Proof.
  revert qs s. induction n as [|n IH]; intros qs s Hinv; simpl.
  - exists s, qs. split_and!; try done. by rewrite list_fmap_id.
  - destruct (etharp_tmr_run rest qs s Hinv) as (s1 & qs1 & E1 & Heff1 & Hinv1 & Ht1 & _).
    destruct (IH qs1 s1 Hinv1) as (s' & qs' & E' & Heff' & Hinv' & Ht'). exists s', qs'.
    rewrite (bind_Some _ _ _ _ _ E1). split_and!; [done|by transitivity s1|done|].
    rewrite Ht', Ht1, <-list_fmap_compose. apply list_fmap_ext. intros _ e _. simpl.
    clear. induction n as [|n IH]; [done|]. simpl. by rewrite <-IH.
Qed.

(** ** Ages *)

Lemma aged_empty n e : ae_state e = ETHARP_STATE_EMPTY -> Nat.iter n aged e = e.
Proof. intros E. induction n as [|n IH]; [done|]. simpl. rewrite IH. unfold aged. by rewrite E. Qed.

Lemma iter_S n (e : etharp_entry) : Nat.iter (S n) aged e = Nat.iter n aged (aged e).
Proof. induction n as [|n IH]; [done|]. simpl in *. by rewrite IH. Qed.

(** How long an entry lives. *)
Definition lifetime (e : etharp_entry) : Z :=
  match ae_state e with
  | ETHARP_STATE_EMPTY => 0
  | ETHARP_STATE_PENDING => ARP_MAXPENDING - ae_ctime e
  | _ => ARP_MAXAGE - ae_ctime e
  end.

Lemma aged_lives n : forall e, 0 <= ae_ctime e -> Z.of_nat n < lifetime e ->
  let e' := Nat.iter n aged e in
  ae_ctime e' = ae_ctime e + Z.of_nat n /\ ae_ipaddr e' = ae_ipaddr e /\ ae_ethaddr e' = ae_ethaddr e /\
  ae_netif e' = ae_netif e /\ ae_q e' = ae_q e /\
  (ge_stable (ae_state e) = true -> ge_stable (ae_state e') = true) /\
  (ae_state e = ETHARP_STATE_PENDING -> ae_state e' = ETHARP_STATE_PENDING).
Proof.
  induction n as [|n IH]; intros e Hc Hn; cbv zeta; [simpl; split_and!; (done || lia)|]. rewrite iter_S.
  assert (ae_ctime (aged e) = ae_ctime e + 1 /\ ae_ipaddr (aged e) = ae_ipaddr e /\ ae_ethaddr (aged e) = ae_ethaddr e /\
    ae_netif (aged e) = ae_netif e /\ ae_q (aged e) = ae_q e /\ lifetime (aged e) = lifetime e - 1 /\
    (ge_stable (ae_state e) = true -> ge_stable (ae_state (aged e)) = true) /\
    (ae_state e = ETHARP_STATE_PENDING -> ae_state (aged e) = ETHARP_STATE_PENDING)) as (H1 & H2 & H3 & H4 & H5 & H6 & H7 & H8).
  { unfold lifetime, ARP_MAXAGE, ARP_MAXPENDING in *. unfold aged, ARP_MAXAGE, ARP_MAXPENDING.
    destruct (ae_state e) eqn:Es; [lia| | |]; rewrite (wrap_small 8) by (unfold in_u; lia);
      ((destruct (Z.leb_spec 2 (ae_ctime e + 1)); [lia|]) || (destruct (Z.leb_spec 240 (ae_ctime e + 1)); [lia|])); simpl; rewrite ?Es; split_and!; (done || lia). }
  destruct (IH (aged e)) as (I1 & I2 & I3 & I4 & I5 & I6 & I7); [lia|lia|].
  rewrite I1, I2, I3, I4, I5, H1, H2, H3, H4, H5. split_and!; [lia|done..|auto|auto].
Qed.

(** An entry in use has time left. *)
Definition young (e : etharp_entry) : Prop :=
  0 <= ae_ctime e /\ (ae_state e = ETHARP_STATE_EMPTY -> ae_q e = NULL) /\
  (ae_state e <> ETHARP_STATE_EMPTY -> 0 < lifetime e).

Lemma aged_young e : young e -> ae_ctime e < 256 ->
  young (aged e) /\ (ae_state (aged e) = ETHARP_STATE_EMPTY \/ lifetime (aged e) = lifetime e - 1).
Proof.
  intros (Hc & He & Hl) Hc'. assert (0 <= u8 (ae_ctime e + 1)) by (apply (wrap_range 8); lia).
  unfold young, lifetime, aged, ARP_MAXAGE, ARP_MAXPENDING in *.
  destruct (ae_state e) eqn:Es; [|specialize (Hl ltac:(done))..].
  - rewrite Es. split; [|by left]. split_and!; [done|auto|done].
  - rewrite wrap_small by (unfold in_u; lia). destruct (Z.leb_spec 2 (ae_ctime e + 1)); simpl; rewrite ?Es.
    + split; [|by left]. split_and!; [lia|done|done].
    + split; [|right; lia]. split_and!; [lia|done|lia].
  - rewrite wrap_small by (unfold in_u; lia). destruct (Z.leb_spec 240 (ae_ctime e + 1)); simpl.
    + split; [|by left]. split_and!; [lia|done|done].
    + split; [|right; lia]. split_and!; [lia|done|lia].
  - rewrite wrap_small by (unfold in_u; lia). destruct (Z.leb_spec 240 (ae_ctime e + 1)); simpl.
    + split; [|by left]. split_and!; [lia|done|done].
    + split; [|right; lia]. split_and!; [lia|done|lia].
Qed.

Lemma young_ctime e : young e -> ae_state e <> ETHARP_STATE_EMPTY -> ae_ctime e < 240.
Proof.
  intros (_ & _ & H) Hs. specialize (H Hs). unfold lifetime, ARP_MAXAGE, ARP_MAXPENDING in H. destruct (ae_state e); (done || lia).
Qed.

Lemma aged_dies n : forall e, young e -> lifetime e <= Z.of_nat n ->
  ae_state (Nat.iter n aged e) = ETHARP_STATE_EMPTY /\ ae_q (Nat.iter n aged e) = NULL.
Proof.
  induction n as [|n IH]; intros e Hy Hn.
  - simpl. destruct Hy as (_ & He & Hl). destruct (decide (ae_state e = ETHARP_STATE_EMPTY)) as [E|E]; [auto|].
    specialize (Hl E). simpl in Hn. lia.
  - destruct (decide (ae_state e = ETHARP_STATE_EMPTY)) as [E|E].
    + rewrite aged_empty by done. split; [done|]. by apply Hy.
    + pose proof (young_ctime e Hy E). destruct (aged_young e Hy) as [Hy' Hl']; [lia|].
      rewrite iter_S. apply IH; [done|]. destruct Hl' as [E'|E']; [unfold lifetime; rewrite E'; lia|lia].
Qed.

(** A table of empty queues holds no references. *)
Lemma arp_inv_no_queue rest qs s :
  arp_inv rest qs s -> (forall e, e ∈ arp_table (n_arp s) -> ae_q e = NULL) ->
  arp_queue (n_arp s) = ∅ /\ refs_ok rest (pbufs (n_mem s)).
Proof.
  intros [Hl Hq Hd Ha Hr Hp Hc] Hn.
  assert (concat qs = []) as E.
  { clear -Hq Hn. induction Hq as [|e l t qs H _ IH]; [done|]. simpl. rewrite IH by (intros; apply Hn; by apply list_elem_of_further).
    rewrite (Hn e) in H by apply list_elem_of_here. by rewrite (lchain_fun _ _ _ _ [] H). }
  rewrite E in *. split; [|done]. apply map_empty. intros x.
  destruct (arp_queue (n_arp s) !! x) as [q|] eqn:Eq; [|done]. specialize (Ha x ltac:(by eexists)). by apply not_elem_of_nil in Ha.
Qed.

(** C25. [etharp_tmr] always ends, and expires the entries in time: an entry that is
    not refreshed keeps resolving its address until the 240th tick, a pending one
    is given up at the second, and what expires releases its queued packets.  With
    every entry gone no queue and no reference is left. *)
Theorem arp_expiry rest qs s n :
  arp_inv rest qs s -> (forall e, e ∈ arp_table (n_arp s) -> young e) ->
  exists s' qs', ticks n s = Some (tt, s') /\ arp_inv rest qs' s' /\ link_sent s' = link_sent s /\
    (forall i e, arp_table (n_arp s) !! i = Some e -> exists e', arp_table (n_arp s') !! i = Some e' /\
       if Z.of_nat n <? lifetime e
       then ae_ipaddr e' = ae_ipaddr e /\ ae_ethaddr e' = ae_ethaddr e /\ ae_q e' = ae_q e /\
            ge_stable (ae_state e') = ge_stable (ae_state e)
       else ae_state e' = ETHARP_STATE_EMPTY) /\
    (ARP_MAXAGE <= Z.of_nat n -> arp_queue (n_arp s') = ∅ /\ refs_ok rest (pbufs (n_mem s'))).
Proof.
  intros Hinv Hy. destruct (ticks_run rest n qs s Hinv) as (s' & qs' & E & (bs & g & -> & _ & _) & Hinv' & Ht).
  eexists _, qs'. split; [exact E|]. split; [done|]. split; [done|]. rewrite Ht. split.
  - intros i e He. exists (Nat.iter n aged e). split; [by rewrite list_lookup_fmap, He|].
    pose proof (Hy e (list_elem_of_lookup_2 _ _ _ He)) as Hye. destruct (Z.ltb_spec (Z.of_nat n) (lifetime e)) as [Hlt|Hge].
    + destruct (aged_lives n e) as (_ & H2 & H3 & _ & H5 & H6 & H7); [apply Hye|done|].
      split_and!; [done..|]. unfold lifetime in Hlt. destruct (ae_state e) eqn:Es; [lia| | |].
      * by rewrite (H7 eq_refl).
      * by apply H6.
      * by apply H6.
    + by apply aged_dies.
  - intros Hn. eapply arp_inv_no_queue; [exact Hinv'|]. intros x. rewrite Ht. intros (e & -> & He)%list_elem_of_fmap.
    apply aged_dies; [auto|]. destruct (Hy e He) as (Hc & _ & _). unfold lifetime, ARP_MAXAGE, ARP_MAXPENDING in *.
    destruct (ae_state e); lia.
Qed.

(** A resolved address, and a request that waits with one packet. *)
Definition sample_arp_queue : net :=
  let e q ip st t := EtharpEntry q ip 50 [2; 11; 12; 13; 14; 15] st t in
  Net (NetMem ∅ {[ 4096 := Pbuf NULL 4200 60 60 PBUF_RAM 0 1 ]} [] 0 [] 0 ∅) ∅ NULL NULL
    (ArpGlobals (e NULL 83994816 ETHARP_STATE_STABLE 3 :: e 700 100772032 ETHARP_STATE_PENDING 0 ::
       repeat (EtharpEntry NULL 0 NULL ethzero ETHARP_STATE_EMPTY 0) 8) 0 {[ 700 := EtharpQ NULL 4096 ]})
    [] [] (IpGlobals 0 NULL NULL 0 0) (UdpGlobals ∅ NULL 49152 []) (RawGlobals ∅ NULL [] []) tcp_start tmo_start.

Lemma sample_arp_inv : arp_inv [] ([] :: [(700, EtharpQ NULL 4096)] :: repeat [] 8) sample_arp_queue.
Proof.
  constructor; [done|by repeat constructor| | | | |].
  - simpl. apply NoDup_cons. split; [apply not_elem_of_nil|constructor].
  - intros x [q Hq]. simpl in *. apply lookup_singleton_Some in Hq as [<- _]. apply list_elem_of_here.
  - simpl. constructor; [done| | |].
    + intros p b [<- <-]%lookup_singleton_Some. split; [by vm_compute|simpl; lia].
    + intros p [->|?%not_elem_of_nil]%elem_of_cons; [by eexists|done].
    + intros p b [<- <-]%lookup_singleton_Some. by exists [].
  - intros e He. simpl in He. repeat (apply elem_of_cons in He as [->|He]; [done|]). by apply not_elem_of_nil in He.
  - intros e He. simpl in He. repeat (apply elem_of_cons in He as [->|He]; [simpl; lia|]). by apply not_elem_of_nil in He.
Qed.

Lemma arp_expiry_witness :
  exists s', ticks 240 sample_arp_queue = Some (tt, s') /\ arp_queue (n_arp s') = ∅ /\ refs_ok [] (pbufs (n_mem s')).
Proof.
  destruct (arp_expiry [] _ sample_arp_queue 240 sample_arp_inv) as (s' & qs' & E & _ & _ & _ & H).
  - intros e He. simpl in He.
    repeat (apply elem_of_cons in He as [->|He]; [split_and!; [simpl; lia|done|unfold lifetime, ARP_MAXAGE, ARP_MAXPENDING; simpl; (done || lia)]|]).
    by apply not_elem_of_nil in He.
  - exists s'. split; [done|]. apply H. unfold ARP_MAXAGE. lia.
Defined.

(** * Looking up and claiming entries

    [etharp_find_entry] of netif/etharp.c: an address that is known is found;
    otherwise an empty entry is taken, and under pressure the oldest entry of the
    least valuable kind. *)

(** ** The kinds of entries *)

Definition is_empty (e : etharp_entry) : bool := is_state e ETHARP_STATE_EMPTY.
Definition is_stable (e : etharp_entry) : bool := ge_stable (ae_state e).
Definition is_waiting (e : etharp_entry) : bool := is_state e ETHARP_STATE_PENDING && (ae_q e =? NULL).
Definition is_queueing (e : etharp_entry) : bool := is_state e ETHARP_STATE_PENDING && negb (ae_q e =? NULL).
Definition is_hit (ip : Z) (e : etharp_entry) : bool := negb (is_empty e) && (ip =? ae_ipaddr e).

(** The oldest entry of a kind among the first [k]. *)
Definition oldest (P : etharp_entry -> bool) (t : list etharp_entry) (k : nat) (old age : Z) : Prop :=
  (old = ARP_TABLE_SIZE /\ age = 0 /\ forall e, e ∈ take k t -> P e = false) \/
  (exists i e, old = Z.of_nat i /\ t !! i = Some e /\ P e = true /\ age = ae_ctime e /\
     forall e', e' ∈ take k t -> P e' = true -> ae_ctime e' <= age).

(** The first empty one. *)
Definition first_empty (t : list etharp_entry) (k : nat) (i : Z) : Prop :=
  (i = ARP_TABLE_SIZE /\ forall e, e ∈ take k t -> is_empty e = false) \/
  (exists j e, i = Z.of_nat j /\ t !! j = Some e /\ is_empty e = true).

Record scanned (ip : option Z) (t : list etharp_entry) (k : nat) (c : candidates) : Prop := {
  sc_hit e a : ip = Some a -> e ∈ take k t -> is_hit a e = false;
  sc_stable : oldest is_stable t k (old_stable c) (age_stable c);
  sc_waiting : oldest is_waiting t k (old_pending c) (age_pending c);
  sc_queueing : oldest is_queueing t k (old_queue c) (age_queue c);
  sc_empty : first_empty t k (cand_empty c);
}.

Lemma take_step {A} (t : list A) k e x : t !! k = Some e -> x ∈ take (S k) t <-> x ∈ take k t \/ x = e.
Proof. intros H. rewrite (take_S_r _ _ _ H), elem_of_app, list_elem_of_singleton. done. Qed.

(** An entry of another kind, or a younger one. *)
Lemma oldest_skip P t k e old age :
  oldest P t k old age -> t !! k = Some e -> (P e = true -> 0 <= ae_ctime e < age) ->
  oldest P t (S k) old age.
Proof.
  intros [(-> & -> & H)|(i & e0 & -> & He0 & Hp & -> & H)] He Hn.
  - left. split_and!; [done|done|]. intros x [Hx| ->]%(take_step _ _ _ _ He); [auto|].
    destruct (P e); [|done]. specialize (Hn eq_refl). lia.
  - right. exists i, e0. split_and!; try done. intros x [Hx| ->]%(take_step _ _ _ _ He) Hpx; [auto|]. specialize (Hn Hpx). lia.
Qed.

Lemma oldest_take P t k e old age :
  oldest P t k old age -> t !! k = Some e -> P e = true -> age <= ae_ctime e ->
  oldest P t (S k) (Z.of_nat k) (ae_ctime e).
Proof.
  intros H He Hp Ha. right. exists k, e. split_and!; try done. intros x [Hx| ->]%(take_step _ _ _ _ He) Hpx; [|lia].
  destruct H as [(_ & _ & H)|(i & e0 & _ & _ & _ & -> & H)]; [by rewrite (H x Hx) in Hpx|]. specialize (H x Hx Hpx). lia.
Qed.

Lemma kinds e :
  (is_empty e = true /\ is_stable e = false /\ is_waiting e = false /\ is_queueing e = false) \/
  (is_empty e = false /\ is_stable e = true /\ is_waiting e = false /\ is_queueing e = false) \/
  (is_empty e = false /\ is_stable e = false /\ is_waiting e = true /\ is_queueing e = false) \/
  (is_empty e = false /\ is_stable e = false /\ is_waiting e = false /\ is_queueing e = true).
Proof.
  unfold is_empty, is_stable, is_waiting, is_queueing. destruct (ae_state e), (ae_q e =? NULL); simpl; naive_solver.
Qed.

(** One round. *)
Lemma find_step_ok ip t k e c :
  scanned ip t k c -> t !! k = Some e -> 0 <= ae_ctime e -> 
  match find_step ip (Z.of_nat k) e c with
  | inl i => i = Z.of_nat k /\ exists a, ip = Some a /\ is_hit a e = true
  | inr c' => scanned ip t (S k) c'
  end.
Proof.
  intros [Hh Hs Hw Hq Hem] He Hc.
  assert (forall c' : candidates, (forall a, ip = Some a -> is_hit a e = false) ->
    oldest is_stable t (S k) (old_stable c') (age_stable c') -> oldest is_waiting t (S k) (old_pending c') (age_pending c') ->
    oldest is_queueing t (S k) (old_queue c') (age_queue c') -> first_empty t (S k) (cand_empty c') ->
    scanned ip t (S k) c') as Hmk.
  { intros c' Hno H1 H2 H3 H4. constructor; try done. intros x a Ha [Hx| ->]%(take_step _ _ _ _ He); eauto. }
  assert (is_empty e = false -> first_empty t (S k) (cand_empty c)) as Hfe.
  { intros E. destruct Hem as [[-> H]|H]; [|by right]. left. split; [done|]. intros x [Hx| ->]%(take_step _ _ _ _ He); auto. }
  unfold find_step. fold (is_empty e). destruct (is_empty e) eqn:Ee; cbn [negb].
  - destruct (kinds e) as [(_ & K1 & K2 & K3)|[(K & _)|[(K & _)|(K & _)]]]; [|congruence ..].
    rewrite andb_true_r. destruct (Z.eqb_spec (cand_empty c) ARP_TABLE_SIZE) as [E|E].
    + apply Hmk; simpl; try (eapply oldest_skip; [done|done|congruence]); [intros; unfold is_hit; by rewrite Ee|].
      right. exists k, e. done.
    + apply Hmk; try (eapply oldest_skip; [done|done|congruence]); [intros; unfold is_hit; by rewrite Ee|].
      destruct Hem as [[? _]|H]; [done|by right].
  - rewrite andb_false_r. destruct (match ip with Some a => a =? ae_ipaddr e | None => false end) eqn:Eip.
    { split; [done|]. destruct ip as [a|]; [|done]. exists a. split; [done|]. unfold is_hit. by rewrite Ee, Eip. }
    assert (forall a, ip = Some a -> is_hit a e = false) as Hno.
    { intros a ->. unfold is_hit. by rewrite Ee, Eip. }
    specialize (Hfe eq_refl).
    destruct (kinds e) as [(K & _)|[(_ & K1 & K2 & K3)|[(_ & K1 & K2 & K3)|(_ & K1 & K2 & K3)]]]; [congruence| ..].
    + assert (is_state e ETHARP_STATE_PENDING = false) as -> by (unfold is_stable in K1; destruct (ae_state e); done).
      destruct (Z.leb_spec (age_stable c) (ae_ctime e)); apply Hmk; simpl; try done;
        (by eapply oldest_take) || (by eapply oldest_skip; [done|done|intros; (congruence || lia)]).
    + pose proof K2 as [-> Kq]%andb_prop. unfold is_waiting in K2. rewrite Kq. cbn [negb].
      destruct (Z.leb_spec (age_pending c) (ae_ctime e)); apply Hmk; simpl; try done;
        (by eapply oldest_take; [done|done|unfold is_waiting|]) || (by eapply oldest_skip; [done|done|intros; (congruence || lia)]).
    + pose proof K3 as [-> Kq]%andb_prop. rewrite Kq.
      destruct (Z.leb_spec (age_queue c) (ae_ctime e)); apply Hmk; simpl; try done;
        (by eapply oldest_take) || (by eapply oldest_skip; [done|done|intros; (congruence || lia)]).
Qed.

Lemma find_scan_ok ip s n k c :
  let t := arp_table (n_arp s) in
  scanned ip t k c -> (k + n = length t)%nat -> (forall e, e ∈ t -> 0 <= ae_ctime e) ->
  exists r, find_scan ip (Z.of_nat <$> seq k n) c s = Some (r, s) /\
    match r with
    | inl i => exists j e a, i = Z.of_nat j /\ t !! j = Some e /\ ip = Some a /\ is_hit a e = true
    | inr c' => scanned ip t (length t) c'
    end.
Proof.
  intros t. revert k c. induction n as [|n IH]; intros k c Hsc Hk Hct; simpl.
  - exists (inr c). split; [done|]. by replace (length t) with k by lia.
  - destruct (lookup_lt_is_Some_2 t k) as [e He]; [lia|].
    rewrite (bind_Some _ _ _ _ _ (get_entry_run' _ _ _ He)).
    pose proof (find_step_ok ip t k e c Hsc He) as Hstep. specialize (Hstep (Hct e (list_elem_of_lookup_2 _ _ _ He))).
    destruct (find_step ip (Z.of_nat k) e c) as [i|c'].
    + destruct Hstep as (-> & a & Ha & Hh). exists (inl (Z.of_nat k)). split; [done|]. by exists k, e, a.
    + apply IH; [done|lia|done].
Qed.

Lemma scanned_nil ip t :
  scanned ip t 0 (Candidates ARP_TABLE_SIZE 0 ARP_TABLE_SIZE 0 ARP_TABLE_SIZE 0 ARP_TABLE_SIZE).
Proof.
  constructor; simpl.
  - intros e a _ He. by apply not_elem_of_nil in He.
  - left. split_and!; [done|done|]. by intros e ?%not_elem_of_nil.
  - left. split_and!; [done|done|]. by intros e ?%not_elem_of_nil.
  - left. split_and!; [done|done|]. by intros e ?%not_elem_of_nil.
  - left. split_and!; [done|]. by intros e ?%not_elem_of_nil.
Qed.

(** ** Claiming *)

Definition claimed (ip : option Z) (e : etharp_entry) : etharp_entry :=
  let e := emptied e in
  set_ae_ctime 0 (match ip with Some a => set_ae_ipaddr a e | None => e end).

Lemma find_claim_ok rest qs s ip i e (recycle : bool) :
  arp_inv rest qs s -> arp_table (n_arp s) !! i = Some e -> (recycle = false -> is_empty e = true) ->
  exists s' qs', find_claim ip recycle (Z.of_nat i) s = Some (Z.of_nat i, s') /\ arp_effect s s' /\ arp_inv rest qs' s' /\
    arp_table (n_arp s') = <[i := claimed ip e]> (arp_table (n_arp s)) /\
    etharp_cached_entry (n_arp s') = etharp_cached_entry (n_arp s).
Proof.
  intros Hinv He Hrec. pose proof (ai_len _ _ _ Hinv) as Hl. pose proof (lookup_lt_Some _ _ _ He) as Hi.
  assert (Z.of_nat i < ARP_TABLE_SIZE) as Hlt by (unfold ARP_TABLE_SIZE in *; lia).
  assert (exists s1 qs1, (swhen recycle (nassert (Z.of_nat i <? ARP_TABLE_SIZE) ;; etharp_free_entry (Z.of_nat i))) s = Some (tt, s1) /\
    arp_effect s s1 /\ arp_inv rest qs1 s1 /\ arp_table (n_arp s1) = <[i := emptied e]> (arp_table (n_arp s)) /\
    etharp_cached_entry (n_arp s1) = etharp_cached_entry (n_arp s)) as (s1 & qs1 & E1 & Heff1 & Hinv1 & Ht1 & Hc1).
  { destruct recycle; simpl.
    - destruct (etharp_free_entry_ok rest qs s i e Hinv He) as (s1 & E1 & H1). exists s1, (<[i := []]> qs).
      rewrite (bind_Some _ _ _ tt s) by (unfold nassert; by destruct (Z.ltb_spec (Z.of_nat i) ARP_TABLE_SIZE); [|lia]). done.
    - exists s, qs. split_and!; [done..| |done]. specialize (Hrec eq_refl). apply bool_decide_eq_true in Hrec.
      rewrite list_insert_id; [done|]. rewrite He. f_equal. unfold emptied.
      pose proof (ai_pending _ _ _ Hinv e (list_elem_of_lookup_2 _ _ _ He)) as Hq. rewrite Hrec in Hq.
      destruct e; simpl in *. by rewrite (Hq ltac:(done)), Hrec. }
  unfold find_claim. rewrite (bind_Some _ _ _ _ _ E1).
  rewrite (bind_Some _ _ _ tt s1) by (unfold nassert; by destruct (Z.ltb_spec (Z.of_nat i) ARP_TABLE_SIZE); [|lia]).
  assert (arp_table (n_arp s1) !! i = Some (emptied e)) as He1 by (rewrite Ht1; by apply list_lookup_insert_eq).
  rewrite (bind_Some _ _ _ _ _ (get_entry_run' _ _ _ He1)), (bind_Some _ _ _ tt s1) by done.
  set (e2 := match ip with Some a => set_ae_ipaddr a (emptied e) | None => emptied e end).
  set (s2 := set_table (<[i := e2]> (arp_table (n_arp s1))) s1).
  assert ((match ip with Some a => upd_entry (Z.of_nat i) (set_ae_ipaddr a) | None => mret tt end) s1 = Some (tt, s2)) as E2.
  { destruct ip as [a|]; [by rewrite (upd_entry_run _ _ _ _ He1)|]. unfold s2, e2. rewrite list_insert_id by done. 
    unfold set_table. by destruct s1 as [? ? ? ? [] ? ? ? ? ?]. }
  rewrite (bind_Some _ _ _ _ _ E2).
  assert (arp_table (n_arp s2) !! i = Some e2) as He2.
  { unfold s2. simpl. apply list_lookup_insert_eq. rewrite Ht1, length_insert. done. }
  rewrite (bind_Some _ _ _ _ _ (upd_entry_run _ _ _ _ He2)).
  exists (set_table (<[i := claimed ip e]> (arp_table (n_arp s1))) s1), qs1. split_and!.
  - change (set_table _ s2) with (set_table (<[i := claimed ip e]> (<[i := e2]> (arp_table (n_arp s1)))) s1).
    by rewrite list_insert_insert_eq.
  - transitivity s1; [done|by apply arp_effect_arp].
  - eapply arp_inv_set; [exact Hinv1|exact He1| | |simpl; lia]; [by destruct ip|]. intros _. by destruct ip.
  - simpl. rewrite Ht1, list_insert_insert_eq. done.
  - done.
Qed.

(** The entry that gives way when the table is full. *)
Definition victim (t : list etharp_entry) (e : etharp_entry) : Prop :=
  (is_stable e = true /\ forall e', e' ∈ t -> is_stable e' = true -> ae_ctime e' <= ae_ctime e) \/
  ((forall e', e' ∈ t -> is_stable e' = false) /\ is_waiting e = true /\
     forall e', e' ∈ t -> is_waiting e' = true -> ae_ctime e' <= ae_ctime e) \/
  ((forall e', e' ∈ t -> is_queueing e' = true) /\ is_queueing e = true /\
     forall e', e' ∈ t -> ae_ctime e' <= ae_ctime e).

(** What the search does: it finds the address, gives up, or claims an entry. *)
Inductive found (ip : option Z) (flags : Z) (t : list etharp_entry) : Z -> list etharp_entry -> Prop :=
  | found_hit i e a :
      t !! i = Some e -> ip = Some a -> is_hit a e = true -> found ip flags t (Z.of_nat i) t
  | found_none :
      (forall e a, ip = Some a -> e ∈ t -> is_hit a e = false) ->
      truthy (flags &. ETHARP_FLAG_FIND_ONLY) = true \/
        (truthy (flags &. ETHARP_FLAG_TRY_HARD) = false /\ forall e, e ∈ t -> is_empty e = false) ->
      found ip flags t ERR_MEM t
  | found_claim i e :
      (forall e a, ip = Some a -> e ∈ t -> is_hit a e = false) ->
      truthy (flags &. ETHARP_FLAG_FIND_ONLY) = false -> t !! i = Some e ->
      is_empty e = true \/
        (truthy (flags &. ETHARP_FLAG_TRY_HARD) = true /\ (forall e, e ∈ t -> is_empty e = false) /\ victim t e) ->
      found ip flags t (Z.of_nat i) (<[i := claimed ip e]> t).

Lemma oldest_all P t old age :
  oldest P t (length t) old age ->
  (old = ARP_TABLE_SIZE /\ forall e, e ∈ t -> P e = false) \/
  (exists i e, old = Z.of_nat i /\ t !! i = Some e /\ P e = true /\ forall e', e' ∈ t -> P e' = true -> ae_ctime e' <= ae_ctime e).
Proof.
  unfold oldest. rewrite (take_ge t) by done. intros [(-> & _ & H)|(i & e & -> & He & Hp & -> & H)]; [by left|right]. by exists i, e.
Qed.

Lemma etharp_find_entry_run rest qs s ip flags :
  arp_inv rest qs s ->
  exists r s' qs', etharp_find_entry ip flags s = Some (r, s') /\ arp_effect s s' /\ arp_inv rest qs' s' /\
    found ip flags (arp_table (n_arp s)) r (arp_table (n_arp s')) /\
    etharp_cached_entry (n_arp s') = etharp_cached_entry (n_arp s) /\
    (forall e a, e ∈ arp_table (n_arp s) -> ip = Some a -> is_hit a e = true -> s' = s /\ qs' = qs).
Proof.
  intros Hinv. pose proof (ai_len _ _ _ Hinv) as Hl. change (Z.to_nat ARP_TABLE_SIZE) with 10%nat in Hl.
  set (t := arp_table (n_arp s)) in *.
  destruct (find_scan_ok ip s 10 0 _ (scanned_nil ip t)) as (r & E & Hr);
    [done|intros e He; by apply (ai_ctime _ _ _ Hinv)|].
  unfold etharp_find_entry. change table_indices with (Z.of_nat <$> seq 0 10). rewrite (bind_Some _ _ _ _ _ E).
  destruct r as [i|c].
  { destruct Hr as (j & e & a & -> & He & Ha & Hh). exists (Z.of_nat j), s, qs. split_and!; try done. by eapply found_hit. }
  destruct Hr as [Hhit Hst Hwa Hqu Hem]. fold t in Hhit, Hst, Hwa, Hqu, Hem.
  rewrite (take_ge t) in Hhit by done. unfold first_empty in Hem. rewrite (take_ge t) in Hem by done.
  apply oldest_all in Hst, Hwa, Hqu.
  assert (forall i e b, t !! i = Some e -> (b = false -> is_empty e = true) ->
    truthy (flags &. ETHARP_FLAG_FIND_ONLY) = false ->
    is_empty e = true \/ (truthy (flags &. ETHARP_FLAG_TRY_HARD) = true /\ (forall e, e ∈ t -> is_empty e = false) /\ victim t e) ->
    exists r s' qs', find_claim ip b (Z.of_nat i) s = Some (r, s') /\ arp_effect s s' /\ arp_inv rest qs' s' /\
      found ip flags t r (arp_table (n_arp s')) /\ etharp_cached_entry (n_arp s') = etharp_cached_entry (n_arp s) /\
      (forall e a, e ∈ t -> ip = Some a -> is_hit a e = true -> s' = s /\ qs' = qs)) as Hclaim.
  { intros i e b He Hb Hf Hv. destruct (find_claim_ok rest qs s ip i e b Hinv He Hb) as (s' & qs' & E' & Heff & Hinv' & Ht' & Hc').
    exists (Z.of_nat i), s', qs'. split_and!; try done; [|by intros x a Hx Ha Hh; rewrite (Hhit x a) in Hh].
    rewrite Ht'. apply found_claim; [by intros; eapply Hhit|done|done|done]. }
  destruct (truthy (flags &. ETHARP_FLAG_FIND_ONLY)) eqn:Ef; cbn [orb].
  { exists ERR_MEM, s, qs. split_and!; try done. apply found_none; [by intros; eapply Hhit|by left]. }
  destruct Hem as [[Hce Hno]|(j & e & Hce & He & Hee)]; rewrite Hce.
  2: { assert (Z.of_nat j < 10) by (apply lookup_lt_Some in He; lia). unfold ARP_TABLE_SIZE.
       destruct (Z.eqb_spec (Z.of_nat j) 10); [lia|]. destruct (Z.ltb_spec (Z.of_nat j) 10); [|lia]. cbn [andb].
       eapply Hclaim; [done|done|done|by left]. }
  rewrite Z.eqb_refl, Z.ltb_irrefl. cbn [andb].
  destruct (truthy (flags &. ETHARP_FLAG_TRY_HARD)) eqn:Et; cbn [negb].
  2: { exists ERR_MEM, s, qs. split_and!; try done. apply found_none; [by intros; eapply Hhit|by right]. }
  assert (forall i e, t !! i = Some e -> (Z.of_nat i <? ARP_TABLE_SIZE) = true) as Hlt.
  { intros i e He. apply lookup_lt_Some in He. apply Z.ltb_lt. unfold ARP_TABLE_SIZE. lia. }
  destruct Hst as [[Ho Hns]|(i & e & Ho & He & Hs & Hold)]; rewrite Ho.
  2: { rewrite (Hlt _ _ He), (bind_Some _ _ _ _ _ (get_entry_run' _ _ _ He)).
       assert (ae_q e = NULL) as Eq.
       { apply (ai_pending _ _ _ Hinv); [by eapply list_elem_of_lookup_2|]. unfold is_stable in Hs. by destruct (ae_state e). }
       rewrite (bind_Some _ _ _ tt s) by (unfold nassert; by rewrite Eq).
       eapply Hclaim; [done|done|done|]. right. split_and!; [done|done|]. by left. }
  rewrite Z.ltb_irrefl. destruct Hwa as [[Hw Hnw]|(i & e & Hw & He & Hs & Hold)]; rewrite Hw.
  2: { rewrite (Hlt _ _ He). eapply Hclaim; [done|done|done|]. right. split_and!; [done|done|]. right; left. done. }
  rewrite Z.ltb_irrefl.
  assert (forall e, e ∈ t -> is_queueing e = true) as Hall.
  { intros e He. destruct (kinds e) as [(K & _)|[(_ & K & _)|[(_ & _ & K & _)|(_ & _ & _ & K)]]];
      rewrite ?Hno, ?Hns, ?Hnw in K by done; done. }
  destruct Hqu as [[_ Hnq]|(i & e & Hq & He & Hs & Hold)].
  { destruct (lookup_lt_is_Some_2 t 0) as [e He]; [lia|]. apply list_elem_of_lookup_2 in He.
    specialize (Hall e He). by rewrite Hnq in Hall. }
  rewrite Hq, (Hlt _ _ He). eapply Hclaim; [done|done|done|]. right. split_and!; [done|done|]. right; right. split_and!; auto.
Qed.

(** [etharp_find_entry] never fails an assertion and keeps the table
    consistent.  A known address is found; an unknown one gets an empty entry; when
    the table is full and the caller insists, the oldest stable entry gives way, or
    without one the oldest pending entry without packets, or else the oldest one. *)
Theorem etharp_find_entry_ok rest qs s ip flags :
  arp_inv rest qs s ->
  exists r s' qs', etharp_find_entry ip flags s = Some (r, s') /\ arp_inv rest qs' s' /\
    found ip flags (arp_table (n_arp s)) r (arp_table (n_arp s')) /\ link_sent s' = link_sent s.
Proof.
  intros Hinv. destruct (etharp_find_entry_run rest qs s ip flags Hinv) as (r & s' & qs' & E & (bs & g & -> & _ & _) & Hinv' & Hf & _).
  by exists r, (set_mem (set_pbufs bs (n_mem s)) (set_arp g s)), qs'.
Qed.

Lemma etharp_find_entry_ok_witness :
  exists r s', etharp_find_entry (Some 1) ETHARP_FLAG_TRY_HARD sample_arp_queue = Some (r, s') /\
    found (Some 1) ETHARP_FLAG_TRY_HARD (arp_table (n_arp sample_arp_queue)) r (arp_table (n_arp s')).
Proof.
  destruct (etharp_find_entry_ok [] _ sample_arp_queue (Some 1) ETHARP_FLAG_TRY_HARD sample_arp_inv) as (r & s' & _ & E & _ & Hf & _).
  by exists r, s'.
Defined.
