(* ===== verification/ArpQueue.v ===== *)
(** * Packets that wait for an address

    When [etharp_update_arp_entry] of netif/etharp.c learns an address, it sends
    the packets in the queue of the entry, in their order, and releases them. *)

From S2P Require Import Prelude StateM LwipMem Chksum IpAddr Pbuf PbufRef PbufData TcpData NetState Etharp IpOut Icmp Udp Raw NetInput Packet Frames ArpTable.

(** ** Where the bytes of a packet are *)

Definition area (ab : Z * pbuf) : Z * Z := (pb_payload ab.2, pb_len ab.2).

Definition chain_areas (bs : gmap Z pbuf) (p : Z) (ar : list (Z * Z)) : Prop :=
  exists l, pchain bs p l /\ area <$> l = ar.

Fixpoint area_data (m : gmap Z Z) (ar : list (Z * Z)) : option (list Z) :=
  match ar with
  | [] => Some []
  | (a, n) :: ar =>
      d ← read_bytes m a (Z.to_nat n);
      r ← area_data m ar;
      Some (d ++ r)
  end.

Lemma chain_area_data m l : chain_data m l = area_data m (area <$> l).
Proof. induction l as [|[a b] l IH]; [done|]. simpl. by rewrite IH. Qed.

Lemma area_data_ext m m' ar :
  Forall (fun an => forall i, an.1 <= i < an.1 + an.2 -> m' !! i = m !! i) ar -> area_data m' ar = area_data m ar.
Proof.
  induction 1 as [|[a n] ar H _ IH]; [done|]. simpl. rewrite IH.
  destruct (decide (0 <= n)) as [Hn|Hn].
  - rewrite (read_bytes_ext m m'); [done|]. intros i Hi. apply H. simpl. lia.
  - replace (Z.to_nat n) with 0%nat by lia. done.
Qed.

(** The chain of an owner survives when other references are given up. *)
Lemma chain_areas_free bs bs' owners p ar :
  chain_areas bs p ar -> refs_only bs bs' -> refs_ok owners bs' -> p ∈ owners -> chain_areas bs' p ar.
Proof.
  intros (l & Hl & <-) Hro Hok Hp.
  assert (forall l p, pchain bs p l -> (p = NULL \/ is_Some (bs' !! p)) -> exists l', pchain bs' p l' /\ area <$> l' = area <$> l) as H.
  { clear l p Hl Hp. intros l. induction l as [|[a b] l IH]; intros p Hl Hp; simpl in Hl.
    - exists []. split; [done|done].
    - destruct Hl as (-> & Ha & Hb & Hl). destruct Hp as [|[b' Hb']]; [done|].
      destruct (Hro _ _ Hb') as (b0 & Hb0 & E). rewrite Hb in Hb0. injection Hb0 as <-.
      destruct (IH (pb_next b) Hl) as (l' & Hl' & E').
      { destruct (ro_chain _ _ Hok _ _ Hb') as (k & Hk). rewrite E in Hk. simpl in Hk.
        destruct k as [|[x y] k]; simpl in Hk; [by left|]. destruct Hk as (-> & _ & Hy & _). right. by exists y. }
      exists ((a, b') :: l'). rewrite E. split; [simpl; split_and!; [done|done|by rewrite <-E|done]|].
      rewrite !fmap_cons, E'. done. }
  destruct (H l p Hl) as (l' & Hl' & E); [right; by apply (ro_owner _ _ Hok)|]. by exists l'.
Qed.

(** The bytes behind the link header. *)
Definition behind (ar : list (Z * Z)) : list (Z * Z) :=
  match ar with [] => [] | (a, n) :: ar => (a + 14, n - 14) :: ar end.

Definition start (ar : list (Z * Z)) : Z := match ar with [] => 0 | (a, _) :: _ => a end.

(** A packet whose first buffer has the space for the link header. *)
Record ready (st : netmem) (p : Z) (ar : list (Z * Z)) (d : list Z) : Prop := {
  rd_chain : chain_areas (pbufs st) p ar;
  rd_first : exists a n ar', ar = (a, n) :: ar' /\ 14 <= n;
  rd_header : is_Some (read_bytes (ram st) (start ar) 14);
  rd_data : area_data (ram st) (behind ar) = Some d;
}.

(** Writing the header of one packet does not touch another one. *)
Definition clear_of (a : Z) (ar : list (Z * Z)) : Prop :=
  Forall (fun bn => a + 14 <= bn.1 \/ bn.1 + bn.2 <= a) (behind ar).

Definition same_outside (a : Z) (m m' : gmap Z Z) : Prop :=
  (forall i, ~ a <= i < a + 14 -> m' !! i = m !! i) /\ forall i, is_Some (m !! i) -> is_Some (m' !! i).

Lemma read_is_Some m a n : is_Some (read_bytes m a n) <-> forall i, a <= i < a + Z.of_nat n -> is_Some (m !! i).
Proof.
  revert a. induction n as [|n IH]; intros a; simpl.
  - split; [intros _ i Hi; lia|by eexists].
  - split.
    + intros [bs Hbs] i Hi. destruct (m !! a) as [b|] eqn:Ea; [|done]. simpl in Hbs.
      destruct (read_bytes m (a + 1) n) as [r|] eqn:Er; [|done]. destruct (decide (i = a)) as [->|]; [by eexists|].
      apply (proj1 (IH (a + 1))); [by eexists|lia].
    + intros H. destruct (H a ltac:(lia)) as [b ->]. simpl.
      destruct (proj2 (IH (a + 1))) as [r ->]; [intros i Hi; apply H; lia|]. by eexists.
Qed.

Lemma ready_outside st p ar d a m' :
  ready st p ar d -> same_outside a (ram st) m' -> clear_of a ar -> ready (set_ram m' st) p ar d.
Proof.
  intros [Hc Hf Hh Hd] [Ho Hs] Hcl. constructor; [done|done| |]; change (ram (set_ram m' st)) with m'.
  - apply read_is_Some. intros i Hi. apply Hs. by apply (proj1 (read_is_Some _ _ _) Hh).
  - rewrite (area_data_ext (ram st)); [done|]. eapply Forall_impl; [exact Hcl|]. intros [b n] H i Hi. apply Ho. simpl in *. lia.
Qed.

Lemma ready_free st p ar d bs owners :
  ready st p ar d -> refs_only (pbufs st) bs -> refs_ok owners bs -> p ∈ owners -> ready (set_pbufs bs st) p ar d.
Proof. intros [Hc Hf Hh Hd] Hro Hok Hp. constructor; try done. simpl. by eapply chain_areas_free. Qed.

(** ** Sending *)

Lemma gather_ok st l : forall p bs fuel,
  pchain (pbufs st) p l -> chain_data (ram st) l = Some bs -> (length l < fuel)%nat -> gather fuel p st = Some (bs, st).
Proof.
  induction l as [|[a b] l IH]; intros p bs fuel Hl Hd Hf; (destruct fuel as [|fuel]; [simpl in Hf; lia|]); cbn [gather]; simpl in Hf.
  - simpl in Hl, Hd. rewrite Hl. by injection Hd as <-.
  - destruct Hl as (-> & Ha & Hb & Hl). apply chain_data_cons in Hd as (d & r & -> & Hd & Hr).
    destruct (Z.eqb_spec a NULL); [done|]. rewrite (bind_getp _ _ _ _ Hb).
    rewrite (bind_Some _ _ _ d st) by (unfold load; by rewrite Hd).
    rewrite (bind_Some _ _ _ r st) by (apply IH; [done|done|lia]). done.
Qed.

(** The fourteen bytes of the link header. *)
Lemma write_header m a dst src :
  length dst = 6%nat -> length src = 6%nat -> is_Some (read_bytes m a 14) ->
  exists m1 m2 m3, write_bytes m a dst = Some m1 /\ write_bytes m1 (a + 6) src = Some m2 /\
    write_bytes m2 (a + 12) [8; 0] = Some m3 /\ same_outside a m m3 /\
    read_bytes m3 a 14 = Some (dst ++ src ++ [8; 0]) /\
    (ram_ok m -> Forall is_byte dst -> Forall is_byte src -> ram_ok m3).
Proof.
  intros Ld Ls H. pose proof (proj1 (read_is_Some _ _ _) H) as Hs.
  destruct (write_bytes_Some m a dst) as [m1 E1].
  { rewrite Ld. apply read_is_Some. intros i Hi. apply Hs. lia. }
  assert (forall m bs a' m', write_bytes m a' bs = Some m' -> forall i, is_Some (m !! i) -> is_Some (m' !! i)) as Hkeep.
  { clear. intros m bs a' m' E i Hi. rewrite (write_bytes_lookup _ _ _ _ _ E). case_decide; [|done].
    apply lookup_lt_is_Some. lia. }
  destruct (write_bytes_Some m1 (a + 6) src) as [m2 E2].
  { rewrite Ls. apply read_is_Some. intros i Hi. eapply Hkeep; [done|]. apply Hs. lia. }
  destruct (write_bytes_Some m2 (a + 12) [8; 0]) as [m3 E3].
  { apply read_is_Some. intros i Hi. eapply Hkeep; [done|]. eapply Hkeep; [done|]. apply Hs. simpl in Hi. lia. }
  exists m1, m2, m3. split_and!; try done.
  - split; [|eauto]. intros i Hi. rewrite (write_bytes_lookup _ _ _ _ _ E3), decide_False by (simpl; lia).
    rewrite (write_bytes_lookup _ _ _ _ _ E2), decide_False by lia.
    by rewrite (write_bytes_lookup _ _ _ _ _ E1), decide_False by lia.
  - change 14%nat with (6 + (6 + 2))%nat. apply read_bytes_app. exists dst, (src ++ [8; 0]). split; [done|]. split.
    + rewrite (read_write_frame m2 _ _ m3), (read_write_frame m1 _ _ m2) by (done || lia).
      rewrite <-Ld. by eapply read_write_same.
    + apply read_bytes_app. exists src, [8; 0]. split; [done|]. split.
      * rewrite (read_write_frame m2 _ _ m3) by (done || (simpl; lia)). change (Z.of_nat 6) with 6. rewrite <-Ls. by eapply read_write_same.
      * replace (a + Z.of_nat 6 + Z.of_nat 6) with (a + 12) by lia. exact (read_write_same m2 (a + 12) [8; 0] m3 E3).
  - intros Hm Bd Bs. apply (write_ram_ok m2 (a + 12) [8; 0] m3); [|by repeat constructor|done].
    apply (write_ram_ok m1 (a + 6) src m2); [|done|done]. by apply (write_ram_ok m a dst m1).
Qed.

Lemma etharp_send_ip_ready netif n p src dst ar d s :
  ready (n_mem s) p ar d -> clear_of (start ar) ar -> n_ifs s !! netif = Some n -> ni_hwaddr_len n = 6 ->
  length dst = 6%nat -> length src = 6%nat ->
  exists e r m', etharp_send_ip netif p src dst s =
      Some (e, set_mem (set_ram m' (n_mem s)) (set_link r (link_sent s ++ [(netif, dst ++ src ++ [8; 0] ++ d)]) s)) /\
    same_outside (start ar) (ram (n_mem s)) m' /\
    (ram_ok (ram (n_mem s)) -> Forall is_byte dst -> Forall is_byte src -> ram_ok m').
Proof.
  intros [(l & Hl & Ear) (a & n0 & ar' & -> & Hn0) Hh Hd] Hcl Hn Hlen Ld Ls. simpl start in *. simpl behind in Hd.
  destruct l as [|[p' b] l]; [done|]. rewrite fmap_cons in Ear. injection Ear as Ea En Ear.
  pose proof Hl as (-> & Hp & Hb & Hl'). 
  destruct (write_header (ram (n_mem s)) a dst src Ld Ls Hh) as (m1 & m2 & m3 & E1 & E2 & E3 & Hso & Hr & Hok).
  unfold etharp_send_ip.
  rewrite (bind_Some _ _ _ b s) by (unfold on_mem, getp; rewrite Hb; simpl; by rewrite set_mem_id). rewrite Ea.
  rewrite (bind_Some _ _ _ n s) by (unfold getif; by rewrite Hn).
  rewrite (bind_Some _ _ _ tt s) by (unfold nassert; by rewrite Hlen).
  rewrite (bind_Some _ _ _ tt (set_mem (set_ram m1 (n_mem s)) s)) by (unfold on_mem, store; by rewrite E1).
  rewrite (bind_Some _ _ _ tt (set_mem (set_ram m2 (n_mem s)) s))
    by (unfold on_mem, store; change (ram (n_mem (set_mem (set_ram m1 (n_mem s)) s))) with m1; by rewrite E2).
  rewrite (bind_Some _ _ _ tt (set_mem (set_ram m3 (n_mem s)) s))
    by (unfold on_mem, store_le, store; change (ram (n_mem (set_mem (set_ram m2 (n_mem s)) s))) with m2;
        change (le_bytes (Z.to_nat 2) (lwip_htons ETHTYPE_IP)) with [8; 0]; by rewrite E3).
  set (s3 := set_mem (set_ram m3 (n_mem s)) s).
  assert (chain_data m3 ((p', b) :: l) = Some ((dst ++ src ++ [8; 0]) ++ d)) as Hdata.
  { rewrite chain_area_data, fmap_cons, Ear. unfold area. simpl. rewrite Ea, En.
    rewrite <-(area_data_ext (ram (n_mem s)) m3) in Hd.
    2: { eapply Forall_impl; [exact Hcl|]. intros [x k] H i Hi. apply Hso. simpl in *. lia. }
    simpl in Hd. destruct (read_bytes m3 (a + 14) (Z.to_nat (n0 - 14))) as [d1|] eqn:E14; [|done]. simpl in Hd.
    destruct (area_data m3 ar') as [d2|]; [|done]. injection Hd as <-.
    replace (Z.to_nat n0) with (14 + Z.to_nat (n0 - 14))%nat by lia.
    rewrite (proj2 (read_bytes_app m3 a 14 (Z.to_nat (n0 - 14)) ((dst ++ src ++ [8; 0]) ++ d1))) by (by exists (dst ++ src ++ [8; 0]), d1).
    simpl. by rewrite <-!app_assoc. }
  unfold linkoutput. rewrite (bind_Some _ _ _ (chain_fuel (n_mem s3)) s3) by done.
  rewrite (bind_Some _ _ _ ((dst ++ src ++ [8; 0]) ++ d) s3).
  2: { unfold on_mem. rewrite (gather_ok (n_mem s3) ((p', b) :: l) p' ((dst ++ src ++ [8; 0]) ++ d)); [done|done|done|]. by apply (chain_fuel_length _ p'). }
  unfold link_send. rewrite <-!app_assoc. simpl link_results.
  destruct (link_results s) as [|e r]; eexists _, _, m3; (split; [done|split; [exact Hso|exact Hok]]).
Qed.

(** What sending the queue of entry [i] leaves. *)
Record queue_sent (s : net) (i : nat) (l : list (Z * etharp_q_entry)) (frames : list (Z * list Z))
    (starts : list Z) (owners : list Z) (s' : net) : Prop := {
  qs_frame : exists m bs r g, s' = set_mem (set_ram m (set_pbufs bs (n_mem s))) (set_link r (link_sent s ++ frames) (set_arp g s)) /\
    refs_only (pbufs (n_mem s)) bs /\ forall j, (forall a, a ∈ starts -> ~ a <= j < a + 14) -> m !! j = ram (n_mem s) !! j;
  qs_refs : refs_ok owners (pbufs (n_mem s'));
  qs_table : arp_table (n_arp s') = alter (set_ae_q NULL) i (arp_table (n_arp s));
  qs_cached : etharp_cached_entry (n_arp s') = etharp_cached_entry (n_arp s);
  qs_queue x : arp_queue (n_arp s') !! x = if decide (x ∈ l.*1) then None else arp_queue (n_arp s) !! x;
}.

Section SendQueue.
Context (netif : Z) (n : IpAddr.netif) (ethaddr : Z) (mac : list Z) (i : nat).

Definition queue_frame (ad : list (Z * Z) * list Z) : Z * list Z :=
  (netif, mac ++ ni_hwaddr n ++ [8; 0] ++ ad.2).

(** The packets of the queue can be sent one after the other. *)
Record sendable (s : net) (l : list (Z * etharp_q_entry)) (ads : list (list (Z * Z) * list Z)) : Prop := {
  sb_ready : Forall2 (fun xq ad => ready (n_mem s) (qe_p xq.2) ad.1 ad.2) l ads;
  sb_clear ad ad' : ad ∈ ads -> ad' ∈ ads -> clear_of (start ad.1) ad'.1;
  sb_mac : read_bytes (ram (n_mem s)) ethaddr 6 = Some mac;
  sb_apart ad : ad ∈ ads -> start ad.1 + 14 <= ethaddr \/ ethaddr + 6 <= start ad.1;
}.

Lemma send_queue_ok l : forall s e ads owners fuel,
  n_ifs s !! netif = Some n -> ni_hwaddr_len n = 6 -> length (ni_hwaddr n) = 6%nat ->
  arp_table (n_arp s) !! i = Some e -> lchain qe_next (arp_queue (n_arp s)) (ae_q e) l -> (length l < fuel)%nat ->
  sendable s l ads -> refs_ok (queued l ++ owners) (pbufs (n_mem s)) ->
  exists s', send_queue fuel netif (Z.of_nat i) ethaddr s = Some (tt, s') /\
    queue_sent s i l (queue_frame <$> ads) ((fun ad => start ad.1) <$> ads) owners s' /\
    (ram_ok (ram (n_mem s)) -> Forall is_byte (ni_hwaddr n) -> ram_ok (ram (n_mem s'))).
Proof.
  induction l as [|[x q] l IH]; intros s e ads owners fuel Hn Hlen Lh He Hl Hf Hsb Hr;
    (destruct fuel as [|fuel]; [simpl in Hf; lia|]); cbn [send_queue]; simpl in Hf;
    rewrite (bind_Some _ _ _ _ _ (get_entry_run' _ _ _ He)).
  - simpl in Hl. rewrite Hl, Z.eqb_refl. destruct Hsb as [Hrd _ _ _]. apply Forall2_nil_inv_l in Hrd as ->.
    exists s. split; [done|]. split; [|done]. constructor; [|done| |done|].
    + exists (ram (n_mem s)), (pbufs (n_mem s)), (link_results s), (n_arp s).
      split; [by destruct s as [[] ? ? ? ? ? ? ? ? ?]; rewrite app_nil_r|]. split; [apply refs_only_refl|done].
    + symmetry. apply list_eq. intros j. destruct (decide (j = i)) as [->|].
      * rewrite list_lookup_alter_eq, He. simpl. f_equal. destruct e. simpl in *. by rewrite Hl.
      * by rewrite list_lookup_alter_ne.
    + intros y. by rewrite decide_False by apply not_elem_of_nil.
  - pose proof (lchain_NoDup _ _ _ _ Hl) as [Hxl _]%NoDup_cons. destruct Hl as (Eq & Hx & Ex & Hl). rewrite Eq.
    destruct (Z.eqb_spec x NULL); [done|]. rewrite (bind_Some _ _ _ q s) by (unfold getq; by rewrite Ex).
    rewrite (bind_Some _ _ _ _ _ (upd_entry_run _ _ _ _ He)).
    set (s1 := set_table (<[i := set_ae_q (qe_next q) e]> (arp_table (n_arp s))) s).
    set (s2 := set_queue (delete x (arp_queue (n_arp s))) s1). rewrite (bind_Some _ _ _ tt s2) by done.
    rewrite (bind_Some _ _ _ n s2) by (unfold getif; simpl; by rewrite Hn).
    destruct Hsb as [Hrd Hcl Hmac Hap]. apply Forall2_cons_inv_l in Hrd as ([ar d] & ads' & Hrd0 & Hrd & ->). simpl in Hrd0.
    rewrite (bind_Some _ _ _ mac s2).
    2: { unfold on_mem, load. change (ram (n_mem s2)) with (ram (n_mem s)). change (Z.to_nat ETHARP_HWADDR_LEN) with 6%nat.
         by rewrite Hmac. }
    pose proof (read_bytes_length _ _ _ _ Hmac) as Lm.
    destruct (etharp_send_ip_ready netif n (qe_p q) (ni_hwaddr n) mac ar d s2) as (er & r & m' & Es & Hso & Hok); [done| |done|done|done|done|].
    { apply (Hcl (ar, d) (ar, d)); apply list_elem_of_here. }
    rewrite (bind_Some _ _ _ _ _ Es). set (s3 := set_mem _ _) in *.
    change (queued ((x, q) :: l) ++ owners) with (qe_p q :: queued l ++ owners) in Hr.
    destruct (pbuf_free_refs (n_mem s3) (qe_p q) (queued l ++ owners)) as (c & bs & Ef & Hr' & Hro); [done|].
    set (s4 := set_mem (set_pbufs bs (n_mem s3)) s3).
    rewrite (bind_Some _ _ _ c s4) by (unfold on_mem; by rewrite Ef).
    assert (Hi := lookup_lt_Some _ _ _ He).
    destruct (IH s4 (set_ae_q (qe_next q) e) ads' owners fuel) as (s' & E' & [Hfr Hrf Htb Hca Hqu] & Hok');
      [done|done|done|by apply list_lookup_insert_eq|by apply lseg_delete|lia| |done|].
    { constructor.
      - apply Forall2_same_length_lookup_2; [by eapply Forall2_length|]. intros j [y z] [ar' d'] Hj Hj'.
        pose proof (Forall2_lookup_lr _ _ _ _ _ _ Hrd Hj Hj') as Hrj. simpl in Hrj |- *.
        change (ready (set_pbufs bs (set_ram m' (n_mem s))) (qe_p z) ar' d').
        eapply ready_free; [|exact Hro|exact Hr'|].
        + eapply ready_outside; [exact Hrj|exact Hso|]. apply (Hcl (ar, d) (ar', d')); [apply list_elem_of_here|].
          apply list_elem_of_further. by eapply list_elem_of_lookup_2.
        + apply elem_of_app. left. apply list_elem_of_fmap. exists (y, z). split; [done|]. by eapply list_elem_of_lookup_2.
      - intros ad ad' H H'. apply Hcl; by apply list_elem_of_further.
      - change (ram (n_mem s4)) with m'. rewrite (read_bytes_ext (ram (n_mem s))); [done|]. intros j Hj. apply Hso.
        specialize (Hap (ar, d) ltac:(apply list_elem_of_here)). simpl in Hap. lia.
      - intros ad H. apply Hap. by apply list_elem_of_further. }
    exists s'. split; [exact E'|]. split.
    2: { intros Hm Bh. apply Hok'; [|done]. apply Hok; [done| |done]. by eapply read_bytes_byte. }
    constructor; [|done| |by rewrite Hca|].
    + destruct Hfr as (m5 & bs5 & r5 & g5 & -> & Hro5 & Hm5). exists m5, bs5, r5, g5. split; [|split].
      * unfold s4, s3, s2, s1. simpl. by rewrite <-app_assoc.
      * transitivity bs; done.
      * intros j Hj. rewrite Hm5; [|intros a Ha; apply Hj; by apply list_elem_of_further]. simpl.
        apply Hso. apply (Hj (start ar)). apply list_elem_of_here.
    + rewrite Htb. simpl. apply list_eq. intros j. destruct (decide (j = i)) as [->|].
      * rewrite !list_lookup_alter_eq, list_lookup_insert_eq, He by done. done.
      * rewrite !list_lookup_alter_ne, list_lookup_insert_ne by done. done.
    + intros y. rewrite Hqu. simpl arp_queue. rewrite fmap_cons. destruct (decide (y ∈ l.*1)) as [Hy|Hy].
      * by rewrite decide_True by (by apply list_elem_of_further).
      * destruct (decide (y = x)) as [->|Hne].
        -- by rewrite lookup_delete_eq, decide_True by apply list_elem_of_here.
        -- rewrite lookup_delete_ne by done. rewrite decide_False; [done|]. by intros [?|?]%elem_of_cons.
Qed.
End SendQueue.

(** ** Learning an address *)

(** No address is in the table twice. *)
Definition unique (t : list etharp_entry) : Prop :=
  forall i j e e', t !! i = Some e -> t !! j = Some e' -> is_empty e = false -> is_empty e' = false ->
    ae_ipaddr e = ae_ipaddr e' -> i = j.

(** The packets that wait for [ip]. *)
Definition waiting (s : net) (qs : list (list (Z * etharp_q_entry))) (ip : Z) (l : list (Z * etharp_q_entry)) : Prop :=
  (exists i e, arp_table (n_arp s) !! i = Some e /\ is_hit ip e = true /\ qs !! i = Some l) \/
  ((forall e, e ∈ arp_table (n_arp s) -> is_hit ip e = false) /\ l = []).

Definition learnt (netif ip : Z) (mac : list Z) (e : etharp_entry) : etharp_entry :=
  EtharpEntry NULL ip netif mac ETHARP_STATE_STABLE 0.

Lemma is_hit_spec ip e : is_hit ip e = true <-> is_empty e = false /\ ae_ipaddr e = ip.
Proof.
  unfold is_hit. rewrite andb_true_iff, negb_true_iff, Z.eqb_eq. naive_solver.
Qed.

Lemma unique_learn t i e netif ip mac :
  unique t -> t !! i = Some e -> (forall j e', j <> i -> t !! j = Some e' -> is_hit ip e' = false) ->
  unique (<[i := learnt netif ip mac e]> t).
Proof.
  intros Hu He Hno j k e1 e2 H1 H2 N1 N2 E.
  assert (forall j e1, <[i := learnt netif ip mac e]> t !! j = Some e1 -> is_empty e1 = false ->
    (j = i /\ ae_ipaddr e1 = ip) \/ (j <> i /\ t !! j = Some e1 /\ ae_ipaddr e1 <> ip)) as Hc.
  { clear -Hno He. intros j e1 H N. destruct (decide (j = i)) as [->|Hne].
    - apply list_lookup_insert_Some in H as [(_ & <- & _)|[? _]]; [by left|done].
    - rewrite list_lookup_insert_ne in H by done. right. split_and!; [done|done|]. intros Eip.
      specialize (Hno j e1 Hne H). rewrite (proj2 (is_hit_spec ip e1)) in Hno; done. }
  destruct (Hc _ _ H1 N1) as [[-> E1]|(Hj & T1 & E1)], (Hc _ _ H2 N2) as [[-> E2]|(Hk & T2 & E2)]; [done|congruence..|].
  by eapply Hu.
Qed.

(** The entry that [etharp_find_entry] gives for [ip]. *)
Lemma learn_slot rest qs s ip ethaddr mac l ads :
  arp_inv rest qs s -> unique (arp_table (n_arp s)) -> waiting s qs ip l -> sendable ethaddr mac s l ads ->
  let t := arp_table (n_arp s) in
  exists i e0 e1 s1 qs1, etharp_find_entry (Some ip) ETHARP_FLAG_TRY_HARD s = Some (Z.of_nat i, s1) /\
    arp_effect s s1 /\ arp_inv rest qs1 s1 /\ t !! i = Some e0 /\ arp_table (n_arp s1) !! i = Some e1 /\
    ae_ipaddr e1 = ip /\ qs1 !! i = Some l /\ (forall x, <[i := x]> (arp_table (n_arp s1)) = <[i := x]> t) /\
    (forall j e', j <> i -> t !! j = Some e' -> is_hit ip e' = false) /\ sendable ethaddr mac s1 l ads.
Proof.
  intros Hinv Hu Hw Hsb t.
  destruct (etharp_find_entry_run rest qs s (Some ip) ETHARP_FLAG_TRY_HARD Hinv)
    as (r & s1 & qs1 & E1 & Heff & Hinv1 & Hf & _ & Hsame). fold t in Hf, Hsame. revert E1.
  inversion Hf as [i e a He Ea Hh Er Et|Hno Hfl Er Et|i e Hno Hfl He Hv Er Et]; intros E1.
  - injection Ea as <-. destruct (Hsame e ip (list_elem_of_lookup_2 _ _ _ He) eq_refl Hh) as [-> ->].
    pose proof (proj1 (is_hit_spec _ _) Hh) as [Hne Eip]. exists i, e, e, s, qs. split_and!; try done.
    + destruct Hw as [(k & e' & He' & Hh' & Hk)|[Hno _]].
      * apply is_hit_spec in Hh' as [Hne' Eip']. rewrite (Hu i k e e') by congruence. done.
      * rewrite (Hno e) in Hh; [done|]. by eapply list_elem_of_lookup_2.
    + intros j e' Hj He'. destruct (is_hit ip e') eqn:Hh'; [|done]. apply is_hit_spec in Hh' as [Hne' Eip'].
      destruct Hj. symmetry. apply (Hu i j e e'); congruence.
  - exfalso. destruct Hfl as [|[? _]]; done.
  - assert (forall e', e' ∈ t -> is_hit ip e' = false) as Hno' by (intros; by apply (Hno _ ip)).
    assert (l = []) as ->.
    { destruct Hw as [(k & e' & He' & Hh' & _)|[_ Hl]]; [|done]. rewrite Hno' in Hh'; [done|]. by eapply list_elem_of_lookup_2. }
    assert (arp_table (n_arp s1) !! i = Some (claimed (Some ip) e)) as He1.
    { rewrite <-Et. apply list_lookup_insert_eq. by eapply lookup_lt_Some. }
    exists i, e, (claimed (Some ip) e), s1, qs1. split_and!; try done.
    + destruct (Forall2_lookup_l _ _ _ _ _ (ai_queues _ _ _ Hinv1) He1) as (l & El & Hl). rewrite El. f_equal.
      by eapply lchain_fun.
    + intros x. rewrite <-Et. apply list_insert_insert_eq.
    + intros j e' _ He'. apply Hno'. by eapply list_elem_of_lookup_2.
    + destruct Heff as (bs & g & -> & _ & _). destruct Hsb as [Hrd Hcl Hmac Hap]. apply Forall2_nil_inv_l in Hrd as ->.
      by constructor.
Qed.

Lemma arp_learn_run rest qs s netif n ip ethaddr mac l ads :
  arp_inv rest qs s -> unique (arp_table (n_arp s)) ->
  n_ifs s !! netif = Some n -> ni_hwaddr_len n = 6 -> length (ni_hwaddr n) = 6%nat ->
  ip4_addr_isbroadcast ip n = 0 -> ip_addr_ismulticast ip = false -> ip <> IPADDR_ANY ->
  waiting s qs ip l -> sendable ethaddr mac s l ads ->
  exists s' qs' i e, etharp_update_arp_entry netif ip ethaddr ETHARP_FLAG_TRY_HARD s = Some (ERR_OK, s') /\
    arp_inv rest qs' s' /\ arp_table (n_arp s) !! i = Some e /\
    arp_table (n_arp s') = <[i := learnt netif ip mac e]> (arp_table (n_arp s)) /\ unique (arp_table (n_arp s')) /\
    link_sent s' = link_sent s ++ (queue_frame netif n mac <$> ads) /\
    (exists m bs r g, s' = set_mem (set_ram m (set_pbufs bs (n_mem s))) (set_link r (link_sent s') (set_arp g s)) /\
       refs_only (pbufs (n_mem s)) bs /\ arp_queue g ⊆ arp_queue (n_arp s) /\
       (forall j, (forall ad, ad ∈ ads -> ~ start ad.1 <= j < start ad.1 + 14) -> m !! j = ram (n_mem s) !! j) /\
       (ram_ok (ram (n_mem s)) -> Forall is_byte (ni_hwaddr n) -> ram_ok m)).
Proof.
  intros Hinv Hu Hn Hlen Lh Hb Hm Hany Hw Hsb. unfold etharp_update_arp_entry.
  rewrite (bind_Some _ _ _ n s) by (unfold getif; by rewrite Hn).
  rewrite (bind_Some _ _ _ tt s) by (unfold nassert; by rewrite Hlen).
  replace (ip_addr_isany ip || truthy (ip4_addr_isbroadcast ip n) || ip_addr_ismulticast ip) with false.
  2: { rewrite Hb, Hm. unfold ip_addr_isany. by destruct (Z.eqb_spec ip IPADDR_ANY). }
  destruct (learn_slot rest qs s ip ethaddr mac l ads Hinv Hu Hw Hsb)
    as (i & e0 & e1 & s1 & qs1 & E1 & (bs1 & g1 & Es1 & Hro1 & Hsub1) & Hinv1 & He0 & He1 & Eip & Hqi & Htab & Hoth & Hsb1).
  rewrite (bind_Some _ _ _ _ _ E1). destruct (Z.ltb_spec (Z.of_nat i) 0) as [|_]; [lia|].
  pose proof (lookup_lt_Some _ _ _ He1) as Hi.
  set (t1 := arp_table (n_arp s1)) in *.
  assert (forall e f (k : NetM Z), (upd_entry (Z.of_nat i) f ;; k) (set_table (<[i := e]> t1) s1) = k (set_table (<[i := f e]> t1) s1)) as Hupd.
  { intros e f k. erewrite bind_Some by (apply upd_entry_run; by apply list_lookup_insert_eq).
    change (set_table _ (set_table _ s1)) with (set_table (<[i := f e]> (<[i := e]> t1)) s1). by rewrite list_insert_insert_eq. }
  rewrite (bind_Some _ _ _ _ _ (upd_entry_run _ _ _ _ He1)). fold t1. rewrite Hupd.
  rewrite (bind_Some _ _ _ mac (set_table (<[i := set_ae_netif netif (set_ae_state ETHARP_STATE_STABLE e1)]> t1) s1)).
  2: { unfold on_mem, load. change (Z.to_nat ETHARP_HWADDR_LEN) with 6%nat. cbn -[read_bytes].
       by rewrite (sb_mac _ _ _ _ _ Hsb1). }
  rewrite Hupd, Hupd. set (e2 := set_ae_ctime 0 _). set (s2 := set_table (<[i := e2]> t1) s1).
  rewrite (bind_Some _ _ _ (S (size (arp_queue (n_arp s1)))) s2) by done.
  assert (lchain qe_next (arp_queue (n_arp s1)) (ae_q e1) l) as Hl.
  { by apply (Forall2_lookup_lr _ _ _ _ _ _ (ai_queues _ _ _ Hinv1) He1). }
  destruct (send_queue_ok netif n ethaddr mac i l s2 e2 ads (queued (concat (<[i := []]> qs1)) ++ rest)
    (S (size (arp_queue (n_arp s1))))) as (s' & E' & [Hfr Hrf Htb Hca Hqu] & Hok).
  - subst s1. done.
  - done.
  - done.
  - by apply list_lookup_insert_eq.
  - done.
  - pose proof (lchain_size _ _ _ _ Hl). lia.
  - destruct Hsb1. by constructor.
  - rewrite app_assoc. unfold queued. rewrite <-fmap_app, <-(concat_delete qs1 i l Hqi). apply (ai_refs _ _ _ Hinv1).
  - rewrite (bind_Some _ _ _ _ _ E').
    assert (arp_table (n_arp s') = <[i := learnt netif ip mac e0]> (arp_table (n_arp s))) as Ht'.
    { rewrite Htb. simpl. rewrite <-Htab. apply list_eq. intros j. destruct (decide (j = i)) as [->|].
      - rewrite list_lookup_alter_eq, !list_lookup_insert_eq by done. simpl. f_equal. unfold learnt, e2, set_ae_q. simpl. by rewrite Eip.
      - by rewrite list_lookup_alter_ne, !list_lookup_insert_ne by done. }
    exists s', (<[i := []]> qs1), i, e0. split; [done|]. split_and!; [|done|done| | |].
    + eapply (arp_inv_drop rest qs1 s1 i (learnt netif ip mac e0) l); [done|done| |done|simpl; lia|done|done].
      by rewrite Ht', <-Htab.
    + rewrite Ht'. by apply unique_learn.
    + destruct Hfr as (m & bs & r & g & -> & _). subst s1. done.
    + destruct Hfr as (m & bs & r & g & -> & Hro & Hmm). exists m, bs, r, g. subst s1. split_and!; [done| | | |].
      * by transitivity bs1.
      * transitivity (arp_queue g1); [|done]. apply map_subseteq_spec. intros x y Hx. specialize (Hqu x). simpl in Hqu.
        rewrite Hx in Hqu. by destruct (decide (x ∈ l.*1)).
      * intros j Hj. apply Hmm. intros a (ad & -> & Had)%list_elem_of_fmap. by apply Hj.
      * exact Hok.
Qed.

Lemma find_addr_hit rest qs s i e ip :
  arp_inv rest qs s -> unique (arp_table (n_arp s)) -> arp_table (n_arp s) !! i = Some e ->
  is_hit ip e = true -> ge_stable (ae_state e) = true ->
  etharp_find_addr ip s = Some ((Z.of_nat i, Some (ae_ethaddr e, ip)), s).
Proof.
  intros Hinv Hu He Hh Hst. pose proof (list_elem_of_lookup_2 _ _ _ He) as Hin.
  destruct (etharp_find_entry_run rest qs s (Some ip) ETHARP_FLAG_FIND_ONLY Hinv) as (r & s1 & qs1 & E & _ & _ & Hf & _ & Hsame).
  destruct (Hsame e ip Hin eq_refl Hh) as [-> ->]. unfold etharp_find_addr. rewrite (bind_Some _ _ _ _ _ E).
  pose proof (proj1 (is_hit_spec _ _) Hh) as [Hne Eip].
  inversion Hf as [j e' a He' Ea Hh' Er Et|Hno Hfl Er Et|j e' Hno Hfl He' Hv Er Et]; [|by rewrite (Hno e ip) in Hh|done].
  injection Ea as <-. apply is_hit_spec in Hh' as [Hne' Eip'].
  assert (i = j) as <- by (apply (Hu i j e e'); congruence). rewrite He in He'. injection He' as <-.
  destruct (Z.leb_spec 0 (Z.of_nat i)); [|lia].
  rewrite (bind_Some _ _ _ _ _ (get_entry_run' _ _ _ He)), Hst, Eip. done.
Qed.

(** C24. When an address becomes known, [etharp_update_arp_entry] sends the packets
    that wait for it, each behind a link header with that address, in the order in
    which they were queued, and releases them; afterwards the address is found.
    The invariant of the table is kept, and no address is in it twice. *)
Theorem arp_learn_sends rest qs s netif n ip ethaddr mac l ads :
  arp_inv rest qs s -> unique (arp_table (n_arp s)) ->
  n_ifs s !! netif = Some n -> ni_hwaddr_len n = 6 -> length (ni_hwaddr n) = 6%nat ->
  ip4_addr_isbroadcast ip n = 0 -> ip_addr_ismulticast ip = false ->
  waiting s qs ip l -> sendable ethaddr mac s l ads ->
  exists s' qs', etharp_update_arp_entry netif ip ethaddr ETHARP_FLAG_TRY_HARD s = Some (ERR_OK, s') /\
    link_sent s' = link_sent s ++ (queue_frame netif n mac <$> ads) /\
    (exists i, etharp_find_addr ip s' = Some ((i, Some (mac, ip)), s')) /\
    arp_inv rest qs' s' /\ unique (arp_table (n_arp s')) /\ waiting s' qs' ip [].
Proof.
  intros Hinv Hu Hn Hlen Lh Hb Hm Hw Hsb. pose proof (unicast_not_any n ip Hb) as Hany.
  destruct (arp_learn_run rest qs s netif n ip ethaddr mac l ads) as (s' & qs' & i & e & E & Hinv' & He & Ht & Hu' & Hs & _);
    [done..|].
  assert (arp_table (n_arp s') !! i = Some (learnt netif ip mac e)) as He'.
  { rewrite Ht. apply list_lookup_insert_eq. by eapply lookup_lt_Some. }
  assert (is_hit ip (learnt netif ip mac e) = true) as Hh by by apply is_hit_spec.
  exists s', qs'. split_and!; try done.
  - exists (Z.of_nat i). by apply (find_addr_hit rest qs' s' i (learnt netif ip mac e)).
  - left. exists i, (learnt netif ip mac e). split_and!; try done.
    destruct (Forall2_lookup_l _ _ _ _ _ (ai_queues _ _ _ Hinv') He') as (k & Ek & Hk). rewrite Ek. f_equal. by eapply lchain_fun.
Qed.

(** The packet that waits for 192.168.1.6, and the address in an answer. *)
Definition sample_learn : net :=
  set_mem (set_ram (list_to_map (zip (seqZ 4200 60) (repeat 7 60) ++ zip (seqZ 5000 6) [2; 1; 2; 3; 4; 5])) (n_mem sample_arp_queue))
    (Net (n_mem sample_arp_queue) {[ 50 := sample_if ]} 50 50 (n_arp sample_arp_queue) [] []
       (n_ip sample_arp_queue) (n_udp sample_arp_queue) (n_raw sample_arp_queue) tcp_start tmo_start).

Lemma sample_learn_inv : arp_inv [] ([] :: [(700, EtharpQ NULL 4096)] :: repeat [] 8) sample_learn.
Proof. destruct sample_arp_inv. by constructor. Qed.

Lemma sample_unique : unique (arp_table (n_arp sample_learn)).
Proof.
  assert (forall k e, arp_table (n_arp sample_learn) !! k = Some e -> is_empty e = false ->
    (k = 0%nat /\ ae_ipaddr e = 83994816) \/ (k = 1%nat /\ ae_ipaddr e = 100772032)) as H.
  { intros [|[|k]] e He Hne; [left; by injection He as <-|right; by injection He as <-|].
    change (repeat (EtharpEntry NULL 0 NULL ethzero ETHARP_STATE_EMPTY 0) 8 !! k = Some e) in He.
    apply list_elem_of_lookup_2, list_elem_of_In, repeat_spec in He. by subst. }
  intros i j e e' Hi Hj Hne Hne' Heq. destruct (H _ _ Hi Hne) as [[-> E]|[-> E]], (H _ _ Hj Hne') as [[-> E']|[-> E']]; lia.
Qed.

Lemma sample_sendable :
  sendable 5000 [2; 1; 2; 3; 4; 5] sample_learn [(700, EtharpQ NULL 4096)] [([(4200, 60)], repeat 7 46)].
Proof.
  constructor.
  - apply Forall2_cons_2; [|constructor]. constructor.
    + exists [(4096, Pbuf NULL 4200 60 60 PBUF_RAM 0 1)]. split; [by repeat split|done].
    + by exists 4200, 60, [].
    + eexists. by vm_compute.
    + by vm_compute.
  - intros ad ad' ->%list_elem_of_singleton ->%list_elem_of_singleton. apply Forall_cons_2; [left; simpl; lia|constructor].
  - by vm_compute.
  - intros ad ->%list_elem_of_singleton. simpl. lia.
Qed.

Lemma arp_learn_sends_witness :
  exists s', etharp_update_arp_entry 50 (ip4 192 168 1 6) 5000 ETHARP_FLAG_TRY_HARD sample_learn = Some (ERR_OK, s') /\
    link_sent s' = [(50, [2; 1; 2; 3; 4; 5] ++ sample_mac ++ [8; 0] ++ repeat 7 46)].
Proof.
  destruct (arp_learn_sends [] ([] :: [(700, EtharpQ NULL 4096)] :: repeat [] 8) sample_learn 50 sample_if (ip4 192 168 1 6) 5000
    [2; 1; 2; 3; 4; 5] [(700, EtharpQ NULL 4096)] [([(4200, 60)], repeat 7 46)]) as (s' & qs' & E & Hs & _).
  - apply sample_learn_inv.
  - apply sample_unique.
  - done.
  - done.
  - done.
  - done.
  - done.
  - left. by eexists 1%nat, _.
  - apply sample_sendable.
  - exists s'. split; [done|]. by rewrite Hs.
Defined.

(** * Address resolution requests are answered

    The whole way of an ARP request for our address: [ethernet_input],
    [etharp_arp_input], the table, and the frame with the answer. *)

(** An Ethernet frame with an ARP packet. *)
Definition arp_frame (dst src : list Z) (op : Z) (shw : list Z) (sip : Z) (thw : list Z) (tip : Z) : list Z :=
  dst ++ src ++ [8; 6] ++ [0; 1; 8; 0; 6; 4] ++ be16 op ++ shw ++ le_bytes 4 sip ++ thw ++ le_bytes 4 tip.

Ltac six l H := destruct l as [|? [|? [|? [|? [|? [|? [|]]]]]]]; try discriminate H.

Section Reply.
Context (st0 : netmem) (p a : Z) (inp : Z) (n : netif) (s : net).
Context (Hn : n_ifs s !! inp = Some n) (Hif : if_ok n).
Context (dmac smac shw thw pad : list Z) (sip : Z).
Context (Hd : length dmac = 6%nat) (Hs : length smac = 6%nat) (Hsh : length shw = 6%nat) (Hth : length thw = 6%nat).
Context (Rsip : 0 <= sip < 2 ^ 32).

Let me := ni_ip_addr n.
Let w := arp_frame dmac smac 1 shw sip thw me ++ pad.
Let reply := arp_frame shw (ni_hwaddr n) 2 (ni_hwaddr n) me shw sip.

Lemma arp_length d e op h x t y : length d = 6%nat -> length e = 6%nat -> length h = 6%nat -> length t = 6%nat ->
  length (arp_frame d e op h x t y ++ pad) = (42 + length pad)%nat.
Proof. intros H1 H2 H3 H4. unfold arp_frame. rewrite !length_app, !le_bytes_length, H1, H2, H3, H4. done. Qed.

(** The stores of the answer. *)
Lemma reply_fields hw :
  length hw = 6%nat ->
  splice 6 hw (splice 22 hw (splice 0 shw (splice 32 shw (splice 28 (le_bytes 4 me) (splice 38 (le_bytes 4 sip)
    (splice 20 (be16 2) w)))))) = arp_frame shw hw 2 hw me shw sip ++ pad.
Proof.
  intros Hh. unfold w, arp_frame. six dmac Hd. six smac Hs. six shw Hsh. six thw Hth. six hw Hh. reflexivity.
Qed.

Lemma nwp_arp_reply st flags (Q : unit -> net -> Prop) :
  packet st0 st p a w 0 (Z.of_nat (length w)) flags ->
  (forall st' r, packet st0 st' p a (reply ++ pad) 0 (Z.of_nat (length w)) flags ->
     Q tt (set_mem st' (set_link r (link_sent s ++ [(inp, reply ++ pad)]) s))) ->
  nwp (arp_reply inp (ni_hwaddr n) a (a + SIZEOF_ETH_HDR) p) Q (set_mem st s).
Proof.
  intros H HQ. pose proof (arp_length dmac smac 1 shw sip thw me Hd Hs Hsh Hth) as Lw. fold w in Lw.
  destruct (io_hw _ Hif) as [Lh Bh]. change SIZEOF_ETH_HDR with 14.
  pose proof (pk_byte _ _ _ _ _ _ _ _ H) as Bw.
  assert (Forall is_byte shw) as Bs.
  { unfold w, arp_frame in Bw. rewrite !Forall_app in Bw. apply Bw. }
  unfold arp_reply. apply nwp_bind. apply (nwp_store_le H 20); [lia|rewrite Lw; simpl; lia|]. intros st1 H1.
  change (le_bytes (Z.to_nat 2) (lwip_htons ARP_REPLY)) with (be16 2) in H1. set (w1 := splice 20 (be16 2) w) in *.
  assert (length w1 = length w) as L1 by (apply splice_length; rewrite Lw; simpl; lia).
  apply nwp_bind. eapply nwp_mem; [eapply (packet_load _ _ _ _ _ _ _ _ 28 _ 4 H1); [lia|rewrite L1, Lw; simpl; lia]|].
  replace (take (Z.to_nat 4) (drop 28 w1)) with (le_bytes 4 sip).
  2: { unfold w1, w, arp_frame. six dmac Hd. six smac Hs. six shw Hsh. reflexivity. }
  apply nwp_bind. apply (nwp_store H1 38); [lia|rewrite L1, Lw; simpl; lia|apply le_bytes_byte|]. intros st2 H2.
  set (w2 := splice 38 (le_bytes 4 sip) w1) in *. assert (length w2 = length w) as L2.
  { unfold w2. rewrite splice_length; [done|]. rewrite L1, Lw. simpl. lia. }
  apply nwp_bind. eapply nwp_getif; [exact Hn|]. fold me.
  apply nwp_bind. apply (nwp_store_le H2 28); [lia|rewrite L2, Lw; simpl; lia|]. intros st3 H3.
  change (Z.to_nat 4) with 4%nat in H3. set (w3 := splice 28 (le_bytes 4 me) w2) in *.
  assert (length w3 = length w) as L3 by (unfold w3; rewrite splice_length; [done|]; rewrite L2, Lw; simpl; lia).
  apply nwp_bind, nwp_assert; [by rewrite (io_len _ Hif)|].
  assert (take (Z.to_nat 6) (drop 22 w3) = shw) as E22.
  { unfold w3, w2, w1, w, arp_frame. six dmac Hd. six smac Hs. six shw Hsh. six thw Hth. reflexivity. }
  apply nwp_bind. eapply nwp_mem; [eapply (packet_load _ _ _ _ _ _ _ _ 22 _ 6 H3); [lia|rewrite L3, Lw; simpl; lia]|]. rewrite E22.
  apply nwp_bind. apply (nwp_store H3 32); [lia|rewrite L3, Lw, Hsh; lia|done|]. intros st4 H4. set (w4 := splice 32 shw w3) in *.
  assert (length w4 = length w) as L4 by (unfold w4; rewrite splice_length; [done|]; rewrite L3, Lw, Hsh; lia).
  assert (take (Z.to_nat 6) (drop 22 w4) = shw) as E22'.
  { unfold w4, w3, w2, w1, w, arp_frame. six dmac Hd. six smac Hs. six shw Hsh. six thw Hth. reflexivity. }
  apply nwp_bind. eapply nwp_mem; [eapply (packet_load _ _ _ _ _ _ _ _ 22 _ 6 H4); [lia|rewrite L4, Lw; simpl; lia]|]. rewrite E22'.
  apply nwp_bind. apply (nwp_store H4 0); [lia|rewrite L4, Lw, Hsh; lia|done|]. intros st5 H5. set (w5 := splice 0 shw w4) in *.
  assert (length w5 = length w) as L5 by (unfold w5; rewrite splice_length; [done|]; rewrite L4, Lw, Hsh; lia).
  apply nwp_bind. apply (nwp_store H5 22); [lia|rewrite L5, Lw, Lh; lia|done|]. intros st6 H6. set (w6 := splice 22 (ni_hwaddr n) w5) in *.
  assert (length w6 = length w) as L6 by (unfold w6; rewrite splice_length; [done|]; rewrite L5, Lw, Lh; lia).
  apply nwp_bind. apply (nwp_store H6 6); [lia|rewrite L6, Lw, Lh; lia|done|]. intros st7 H7.
  unfold w6, w5, w4, w3, w2, w1 in H7. rewrite (reply_fields _ Lh) in H7. fold reply in H7.
  apply nwp_bind. change 0 with (Z.of_nat 0) in H7. eapply nwp_linkoutput; [exact H7|]. intros r e. apply nwp_ret.
  rewrite drop_0, take_ge by (unfold reply; rewrite arp_length, Lw by done; lia). by apply HQ.
Qed.
End Reply.

(** ** The buffer of the request *)

Lemma arp_inv_mem rest qs s st :
  arp_inv rest qs s -> refs_ok (queued (concat qs) ++ rest) (pbufs st) -> arp_inv rest qs (set_mem st s).
Proof. intros [] H. by constructor. Qed.

(** The driver is the only owner of the buffer, before and after the table was
    changed. *)
Lemma single_owner rest qs s s' qs' p b m bs r l g :
  arp_inv (p :: rest) qs s -> arp_inv (p :: rest) qs' s' ->
  s' = set_mem (set_ram m (set_pbufs bs (n_mem s))) (set_link r l (set_arp g s)) ->
  refs_only (pbufs (n_mem s)) bs -> arp_queue g ⊆ arp_queue (n_arp s) -> p ∉ rest ->
  pbufs (n_mem s) !! p = Some b -> pb_ref b = 1 -> bs !! p = Some b.
Proof.
  intros Hinv Hinv' Es Hro Hsub Hp Hb Hb1. pose proof (ai_refs _ _ _ Hinv) as Hr. pose proof (ai_refs _ _ _ Hinv') as Hr'.
  rewrite Es in Hr'. simpl in Hr'.
  destruct (ro_owner _ _ Hr' p) as [b' Hb']; [apply elem_of_app; right; apply list_elem_of_here|].
  destruct (Hro _ _ Hb') as (b0 & Hb0 & E). rewrite Hb in Hb0. injection Hb0 as <-.
  destruct (ro_ref _ _ Hr _ _ Hb) as [E1 _], (ro_ref _ _ Hr' _ _ Hb') as [E2 P2].
  assert (forall (q : list Z), count_occ Z.eq_dec (q ++ p :: rest) p = S (count_occ Z.eq_dec q p)) as Hcount.
  { intros q. rewrite count_occ_app, (count_occ_cons_eq _ _ eq_refl), (count_zero rest p Hp). lia. }
  unfold refs in E1, E2. rewrite Hcount in E1, E2.
  assert (nexts p bs <= nexts p (pbufs (n_mem s)))%nat as Hnx.
  { unfold nexts. rewrite <-!(size_dom (D := gset Z)). apply subseteq_size. intros x Hx.
    apply elem_of_dom in Hx as [y Hy]. apply map_lookup_filter_Some in Hy as [Hy Hn]. destruct (Hro _ _ Hy) as (y0 & Hy0 & Ey).
    apply elem_of_dom. exists y0. apply map_lookup_filter_Some. split; [done|]. by rewrite Ey in Hn. }
  assert (p ∉ queued (concat qs)) as Hnq.
  { intros Hin. apply count_pos in Hin. lia. }
  assert (p ∉ queued (concat qs')) as Hnq'.
  { intros ([x q] & Ep & Hin)%list_elem_of_fmap. simpl in Ep. apply Hnq.
    apply list_elem_of_In, in_concat in Hin as (k & Hk & Hin). apply list_elem_of_In, list_elem_of_lookup in Hk as [j Hk].
    destruct (Forall2_lookup_r _ _ _ _ _ (ai_queues _ _ _ Hinv') Hk) as (e & _ & Hl).
    apply list_elem_of_In in Hin. destruct (lseg_elem _ _ _ _ _ _ _ Hl Hin) as [Ex _]. rewrite Es in Ex. simpl in Ex.
    eapply lookup_weaken in Ex; [|exact Hsub].
    assert (x ∈ (concat qs).*1) as ([x' q'] & Ex' & Hin')%list_elem_of_fmap by (apply (ai_all _ _ _ Hinv); by eexists).
    simpl in Ex'. subst x'. apply list_elem_of_fmap. exists (x, q'). split; [|done].
    apply list_elem_of_In, in_concat in Hin' as (k' & Hk' & Hin'). apply list_elem_of_In, list_elem_of_lookup in Hk' as [j' Hk'].
    destruct (Forall2_lookup_r _ _ _ _ _ (ai_queues _ _ _ Hinv) Hk') as (e' & _ & Hl').
    apply list_elem_of_In in Hin'. destruct (lseg_elem _ _ _ _ _ _ _ Hl' Hin') as [Ex2 _]. simpl. congruence. }
  apply count_zero in Hnq, Hnq'. assert (pb_ref b' = pb_ref b) as Er by lia. rewrite Hb', E, Er. f_equal. by destruct b.
Qed.

(** ** The whole way *)

(** The packets [l] can be sent, with the data and the places in [ads], and they are apart
    from the buffer of the request, at [p], whose frame has [len] bytes at [a]. *)
Record queue_ready (st : netmem) (p a len : Z) (l : list (Z * etharp_q_entry)) (ads : list (list (Z * Z) * list Z)) : Prop := {
  qr_ready : Forall2 (fun xq ad => ready (without p st) (qe_p xq.2) ad.1 ad.2) l ads;
  qr_clear ad ad' : ad ∈ ads -> ad' ∈ ads -> clear_of (start ad.1) ad'.1;
  qr_apart ad : ad ∈ ads -> start ad.1 + 14 <= a \/ a + len <= start ad.1;
}.

Lemma ready_without st p q ar d : ready (without p st) q ar d -> ready st q ar d.
Proof.
  intros [Hc Hf Hh Hd]. constructor; try done. destruct Hc as (l & Hl & E). exists l. split; [|done].
  eapply pchain_agree; [exact Hl|]. intros x b Hx. eapply pchain_elem in Hx; [|exact Hl]. simpl in Hx.
  by apply lookup_delete_Some in Hx as [_ Hx].
Qed.

(** The buffer got other flags. *)
Lemma queue_ready_packet st st1 p a w flags l ads :
  read_bytes (ram st) a (length w) = Some w -> packet (without p st) st1 p a w 0 (Z.of_nat (length w)) flags ->
  queue_ready st p a (Z.of_nat (length w)) l ads -> queue_ready st1 p a (Z.of_nat (length w)) l ads.
Proof.
  intros Hr H [H1 H2 H3]. constructor; [|done|done].
  assert (ram st1 = ram st) as Em.
  { apply map_eq. intros i. destruct (decide (a <= i < a + Z.of_nat (length w))) as [Hi|Hi]; [|by rewrite (pk_out _ _ _ _ _ _ _ _ H)].
    replace i with (a + Z.of_nat (Z.to_nat (i - a))) by lia.
    by rewrite (read_bytes_nth _ _ _ _ _ Hr), (read_bytes_nth _ _ _ _ _ (pk_bytes _ _ _ _ _ _ _ _ H)) by lia. }
  assert (pbufs (without p st1) = pbufs (without p st)) as Eb.
  { rewrite (pk_eq _ _ _ _ _ _ _ _ H). simpl. by rewrite delete_insert_eq, delete_delete_eq. }
  eapply Forall2_impl; [exact H1|]. intros xq ad [Hc Hf Hh Hd]. constructor; [by rewrite Eb|done| |].
  - change (ram (without p st1)) with (ram st1). by rewrite Em.
  - change (ram (without p st1)) with (ram st1). by rewrite Em.
Qed.

Section Request.
Context (rest : list Z) (qs : list (list (Z * etharp_q_entry))) (p inp : Z) (n : netif) (s : net).
Context (dmac smac shw thw pad : list Z) (sip : Z).
Context (Hd : length dmac = 6%nat) (Hs : length smac = 6%nat) (Hsh : length shw = 6%nat) (Hth : length thw = 6%nat).
Context (Hsip : sender n sip) (Hup : if_up n) (Hp : p ∉ rest).
Let a := p + SIZEOF_STRUCT_PBUF + PBUF_LINK_HLEN.
Let me := ni_ip_addr n.
Let w := arp_frame dmac smac 1 shw sip thw me ++ pad.
Let reply := arp_frame shw (ni_hwaddr n) 2 (ni_hwaddr n) me shw sip.

Lemma request_fields :
  take 2 (drop 14 w) = [0; 1] /\ take 1 (drop 18 w) = [6] /\ take 1 (drop 19 w) = [4] /\ take 2 (drop 16 w) = [8; 0] /\
  take 4 (drop 28 w) = le_bytes 4 sip /\ take 4 (drop 38 w) = le_bytes 4 me /\ take 2 (drop 20 w) = be16 1 /\
  take 6 (drop 22 w) = shw.
Proof.
  unfold w, arp_frame. six dmac Hd. six smac Hs. six shw Hsh. six thw Hth. by repeat split.
Qed.

(** What is left when the request has been handled. *)
Definition answered (ads : list (list (Z * Z) * list Z)) (s' : net) : Prop :=
  link_sent s' = link_sent s ++ (queue_frame inp n shw <$> ads) ++ [(inp, reply ++ pad)] /\
  exists qs', arp_inv rest qs' s' /\ unique (arp_table (n_arp s')) /\
    exists i, etharp_find_addr sip s' = Some ((i, Some (shw, sip)), s').

Lemma nwp_arp_request st flags l ads :
  let s1 := set_mem st s in
  n_ifs s !! inp = Some n ->
  arp_inv (p :: rest) qs s1 -> unique (arp_table (n_arp s)) -> waiting s qs sip l ->
  packet (without p (n_mem s)) st p a w 0 (Z.of_nat (length w)) flags -> queue_ready st p a (Z.of_nat (length w)) l ads ->
  nwp (etharp_arp_input inp (ni_hwaddr n) p) (fun _ => answered ads) s1.
Proof.
  intros s1 Hn Hinv Hu Hw H Hq. destruct Hsip as [Rsip [Hb Hm]]. pose proof (iu_ok _ Hup) as Hif.
  pose proof (arp_length pad dmac smac 1 shw sip thw me Hd Hs Hsh Hth) as Lw. fold w in Lw.
  destruct request_fields as (F14 & F18 & F19 & F16 & F28 & F38 & F20 & F22).
  unfold etharp_arp_input. apply nwp_bind. eapply nwp_getif; [exact Hn|]. apply nwp_bind, (nwp_getp H).
  change (pb_len (rambuf (a + 0) (Z.of_nat (length w)) flags)) with (Z.of_nat (length w)).
  change (pb_payload (rambuf (a + 0) (Z.of_nat (length w)) flags)) with (a + 0). rewrite Z.add_0_r.
  destruct (Z.ltb_spec (Z.of_nat (length w)) SIZEOF_ETHARP_PACKET) as [Hx|_]; [unfold SIZEOF_ETHARP_PACKET, SIZEOF_ETH_HDR, SIZEOF_ETHARP_HDR in Hx; lia|].
  change SIZEOF_ETH_HDR with 14.
  apply nwp_bind, (nwp_load_le H 14); [lia|rewrite Lw; simpl; lia|]. change (Z.to_nat 2) with 2%nat. rewrite F14.
  apply nwp_bind, (nwp_load_le H 18); [lia|rewrite Lw; simpl; lia|]. change (Z.to_nat 1) with 1%nat. rewrite F18.
  apply nwp_bind, (nwp_load_le H 19); [lia|rewrite Lw; simpl; lia|]. change (Z.to_nat 1) with 1%nat. rewrite F19.
  apply nwp_bind, (nwp_load_le H 16); [lia|rewrite Lw; simpl; lia|]. change (Z.to_nat 2) with 2%nat. rewrite F16.
  change (negb (le_num [0; 1] =? lwip_htons HWTYPE_ETHERNET) || negb (le_num [6] =? ETHARP_HWADDR_LEN) ||
    negb (le_num [4] =? 4) || negb (le_num [8; 0] =? lwip_htons ETHTYPE_IP)) with false. cbv iota.
  apply nwp_bind, (nwp_load_le H 28); [lia|rewrite Lw; simpl; lia|].
  change (Z.to_nat 4) with 4%nat. rewrite F28.
  apply nwp_bind, (nwp_load_le H 38); [lia|rewrite Lw; simpl; lia|].
  change (Z.to_nat 4) with 4%nat. rewrite F38.
  rewrite !le_num_4 by (done || apply Hif).
  replace (if ip_addr_isany (ni_ip_addr n) then false else me =? ni_ip_addr n) with true.
  2: { fold me. rewrite Z.eqb_refl. unfold ip_addr_isany. destruct (iu_unicast _ Hup) as [Hany%unicast_not_any _].
       by destruct (Z.eqb_spec me IPADDR_ANY). }
  cbv iota. replace (a + 14 + 8) with (a + Z.of_nat 22) by lia.
  pose proof (pk_lookup _ _ _ _ _ _ _ _ H) as Hb0. pose proof (pk_len _ _ _ _ _ _ _ _ H) as Hwin.
  pose proof (unicast_not_any n sip Hb) as Hany.
  destruct (arp_learn_run (p :: rest) qs s1 inp n sip (a + Z.of_nat 22) shw l ads)
    as (s2 & qs2 & i & e & E & Hinv2 & He & Ht & Hu2 & Hsent & (m & bs & r & g & Es2 & Hro & Hsub & Hmm & Hmok));
    [done|done|done|apply Hif|apply Hif|done|done|done| | |].
  { destruct Hw as [Hw|Hw]; [by left|by right]. }
  { destruct Hq as [Hq1 Hq2 Hq3]. constructor; [|done| |].
    - eapply Forall2_impl; [exact Hq1|]. intros xq ad. by apply ready_without.
    - change (ram (n_mem s1)) with (ram st). rewrite (pk_read _ _ _ _ _ _ _ _ 22 6 H) by lia. by rewrite F22.
    - intros ad Had. specialize (Hq3 ad Had). lia. }
  assert (read_bytes m a (length w) = Some w) as Hmw.
  { rewrite <-(pk_bytes _ _ _ _ _ _ _ _ H). apply read_bytes_ext. intros j Hj. apply Hmm. intros ad Had.
    specialize (qr_apart _ _ _ _ _ _ Hq ad Had). lia. }
  assert (ram_ok m) as Hmr by (apply Hmok; [apply H|apply Hif]).
  pose proof (single_owner rest qs s1 s2 qs2 p _ _ bs r _ g Hinv Hinv2 Es2 Hro Hsub Hp Hb0 eq_refl) as Hb2.
  set (st2 := set_ram m (set_pbufs bs st)).
  assert (packet (without p st2) st2 p a w 0 (Z.of_nat (length w)) flags) as H2.
  { apply packet_alone; [done|apply H|apply H|done|done|done]. }
  apply nwp_bind. eapply nwp_run; [exact E|]. replace s2 with (set_mem st2 s2) by (rewrite Es2; done).
  apply nwp_bind, (nwp_load_le H2 20); [lia|rewrite Lw; simpl; lia|]. change (Z.to_nat 2) with 2%nat. rewrite F20.
  change (le_num (be16 1) =? lwip_htons ARP_REQUEST) with true. cbn [swhen]. apply nwp_bind.
  eapply (nwp_arp_reply _ p a inp n s2); [by rewrite Es2|done|exact Hd|exact Hs|exact Hsh|exact Hth|exact H2|].
  intros st3 r3 H3. apply nwp_bind, (nwp_free H3). intros c. apply nwp_ret.
  set (s4 := set_mem _ _). split; [unfold s4; simpl; by rewrite Hsent, <-app_assoc|].
  assert (arp_inv rest qs2 s4) as Hinv4.
  { assert (refs_ok (queued (concat qs2) ++ rest) (delete p bs)) as Hr.
    { pose proof (ai_refs _ _ _ Hinv2) as Hr. rewrite Es2 in Hr. simpl in Hr.
      rewrite <-Permutation_middle in Hr. apply (refs_ok_delete _ _ _ _ Hr Hb2 eq_refl). }
    destruct Hinv2. by constructor. }
  assert (arp_table (n_arp s2) !! i = Some (learnt inp sip shw e)) as He4.
  { rewrite Ht. apply list_lookup_insert_eq. by eapply lookup_lt_Some. }
  exists qs2. split; [done|]. split; [done|]. exists (Z.of_nat i).
  by apply (find_addr_hit rest qs2 s4 i (learnt inp sip shw e)); [..|apply is_hit_spec|].
Qed.
End Request.

(** C23. A request for the address of an interface that is up, from a sender with a unicast
    address, is answered with our hardware address, in one frame to the hardware address
    in the request.  The packets [l] that waited for the address of the sender, if there are
    any, are sent before that, in their order; each has room for its link header, apart
    from the other packets and from the buffer of the request ([queue_ready]).  The table
    then resolves the address of the sender, stays consistent, and the buffer of the request
    is released. *)
Theorem arp_request_answered tcp_input rest qs p inp n s dmac smac shw thw pad sip l ads :
  length dmac = 6%nat -> length smac = 6%nat -> length shw = 6%nat -> length thw = 6%nat ->
  n_ifs s !! inp = Some n -> if_up n -> sender n sip -> p ∉ rest ->
  arp_inv (p :: rest) qs s -> unique (arp_table (n_arp s)) -> waiting s qs sip l ->
  received (n_mem s) p (arp_frame dmac smac 1 shw sip thw (ni_ip_addr n) ++ pad) ->
  queue_ready (n_mem s) p (p + SIZEOF_STRUCT_PBUF + PBUF_LINK_HLEN) (Z.of_nat (42 + length pad)) l ads ->
  exists s' qs' i, ethernet_input tcp_input p inp s = Some (ERR_OK, s') /\
    link_sent s' = link_sent s ++ (queue_frame inp n shw <$> ads) ++
      [(inp, arp_frame shw (ni_hwaddr n) 2 (ni_hwaddr n) (ni_ip_addr n) shw sip ++ pad)] /\
    etharp_find_addr sip s' = Some ((i, Some (shw, sip)), s') /\
    arp_inv rest qs' s' /\ unique (arp_table (n_arp s')).
Proof.
  intros Hd Hs Hsh Hth Hn Hup Hsip Hp Hinv Hu Hw Hrc Hq. pose proof (received_packet _ _ _ Hrc) as H.
  set (w := arp_frame dmac smac 1 shw sip thw (ni_ip_addr n) ++ pad) in *.
  rewrite <-(arp_length pad dmac smac 1 shw sip thw (ni_ip_addr n) Hd Hs Hsh Hth) in Hq. fold w in Hq.
  assert (exists pkt, w = dmac ++ smac ++ be16 ETHTYPE_ARP ++ pkt /\ pkt <> []) as (pkt & Ew & Hpkt).
  { unfold w, arp_frame. rewrite <-!app_assoc. eexists. split; [reflexivity|done]. }
  assert (nwp (ethernet_input tcp_input p inp) (fun err s' => err = ERR_OK /\ answered rest inp n s shw pad sip ads s') s)
    as (err & s' & E & -> & Hs' & qs' & Hinv' & Hu' & i & Hi).
  { rewrite <-(set_mem_id s). rewrite Ew in H. eapply (nwp_ethernet tcp_input _ _ _ inp s); [exact H|done|done|done|done|].
    rewrite <-Ew. intros st1 f1 H1. unfold ethernet_dispatch. apply nwp_bind. eapply nwp_getif; [exact Hn|].
    change (lwip_htons ETHTYPE_ARP =? lwip_htons ETHTYPE_IP) with false. rewrite Z.eqb_refl, (iu_arp _ Hup). cbn [negb].
    apply nwp_bind. eapply nwp_mono; [eapply (nwp_arp_request rest qs p inp n s dmac smac shw thw pad sip Hd Hs Hsh Hth Hsip Hup Hp _ _ l ads)|];
      [done| |done|done|exact H1|eapply queue_ready_packet; [apply Hrc|exact H1|exact Hq]|by intros; apply nwp_ret].
    apply arp_inv_mem; [done|]. rewrite (pk_eq _ _ _ _ _ _ _ _ H1). simpl. rewrite insert_delete_eq.
    eapply refs_ok_modify; [apply (ai_refs _ _ _ Hinv)|apply Hrc|done|done]. }
  by exists s', qs', i.
Qed.

(** A packet waits for 192.168.1.6, which asks who has 192.168.1.210; the request is in the
    buffer at 8192. *)
Definition sample_request : list Z :=
  arp_frame [255; 255; 255; 255; 255; 255] sample_host 1 sample_host (ip4 192 168 1 6) [0; 0; 0; 0; 0; 0] (ip4 192 168 1 210) ++ repeat 0 18.
Definition sample_asked : net :=
  set_mem (set_ram (list_to_map (zip (seqZ 8224 60) sample_request ++ zip (seqZ 4200 60) (repeat 7 60)))
    (set_pbufs (<[8192 := rambuf 8224 60 0]> (pbufs (n_mem sample_learn))) (n_mem sample_learn))) sample_learn.

Lemma sample_asked_inv : arp_inv [8192] ([] :: [(700, EtharpQ NULL 4096)] :: repeat [] 8) sample_asked.
Proof.
  assert (refs_ok (8192 :: [4096]) (pbufs (n_mem sample_asked))) as Hr.
  { apply refs_ok_cons; [|done|done|done|by left]. apply (ai_refs _ _ _ sample_learn_inv). }
  destruct sample_learn_inv. constructor; try done. apply (PbufRef.refs_ok_perm (8192 :: [4096])); [apply Permutation_swap|exact Hr].
Qed.

Lemma arp_request_answered_witness :
  exists s', ethernet_input (fun _ _ => mret tt) 8192 50 sample_asked = Some (ERR_OK, s') /\
    link_sent s' = [(50, sample_host ++ sample_mac ++ [8; 0] ++ repeat 7 46);
      (50, arp_frame sample_host sample_mac 2 sample_mac (ip4 192 168 1 210) sample_host (ip4 192 168 1 6) ++ repeat 0 18)].
Proof.
  destruct (arp_request_answered (fun _ _ => mret tt) [] ([] :: [(700, EtharpQ NULL 4096)] :: repeat [] 8) 8192 50 sample_if sample_asked
    [255; 255; 255; 255; 255; 255] sample_host sample_host [0; 0; 0; 0; 0; 0] (repeat 0 18) (ip4 192 168 1 6)
    [(700, EtharpQ NULL 4096)] [([(4200, 60)], repeat 7 46)])
    as (s' & qs' & i & E & Hs & _);
    [done|done|done|done|done|apply sample_if_up| |apply not_elem_of_nil|apply sample_asked_inv|apply sample_unique| | | |].
  - constructor; [by compute|done].
  - left. by eexists 1%nat, _.
  - constructor; [by vm_compute|done|by vm_compute| |by vm_compute]. apply (bool_decide_unpack _). by vm_compute.
  - apply Build_queue_ready.
    + apply Forall2_cons_2; [|apply Forall2_nil_2]. constructor.
      * exists [(4096, Pbuf NULL 4200 60 60 PBUF_RAM 0 1)]. split; [by repeat split|done].
      * by exists 4200, 60, [].
      * eexists. by vm_compute.
      * by vm_compute.
    + intros ad ad' ->%list_elem_of_singleton ->%list_elem_of_singleton. apply Forall_cons_2; [left; simpl; lia|constructor].
    + intros ad ->%list_elem_of_singleton. left. vm_compute. discriminate.
  - exists s'. split; [exact E|exact Hs].
Defined.
