(* ===== verification/NetLimits.v ===== *)
(** * Packets that the stack does not handle

    Concrete packets on which the code of components/net/lwip-1.4.1 does not do
    what it means to. *)

From S2P Require Import Prelude StateM LwipMem TcpData Chksum IpAddr Pbuf PbufRef PbufData NetState Etharp IpOut Icmp Udp Raw NetInput Packet Frames Echo UdpList.

Definition no_tcp : Z -> Z -> NetM unit := fun _ _ => mret tt.

(** The header of a packet from 192.168.1.5 to the board. *)
Definition sample_header (len proto : Z) : list Z :=
  let hdr c := ip_header 0 len 1 0 64 proto c (ip4 192 168 1 5) (ip4 192 168 1 210) in
  hdr (rfc1071_chksum (hdr 0)).

(** An ICMP packet whose total length is less than its header passes the checks of
    [ip_input]; [pbuf_header] in [icmp_input] then fails its assertion. *)
Example short_packet_halts :
  rfc1071_chksum (sample_header 10 1) = 0 /\
  ethernet_input no_tcp 4096 50
    (sample_net (ip_frame sample_mac sample_host (sample_header 10 1 ++ repeat 0 26))) = None /\
  is_Some (ethernet_input no_tcp 4096 50
    (sample_net (ip_frame sample_mac sample_host (sample_header 20 1 ++ repeat 0 26)))).
Proof. split_and!; [by vm_compute..|]. apply (bool_decide_unpack _). by vm_compute. Qed.

(** The answer to a request that is all zeros behind its type has the checksum
    0x0000 instead of 0xffff, and does not verify. *)
Example zero_echo_bad_chksum :
  let rest := repeat 0 12 in
  let c := rfc1071_chksum (echo_message 8 0 0 rest) in
  rfc1071_chksum (echo_message 8 0 c rest) = 0 /\
  let hdr c := ip_header 0 36 1 0 255 1 c (ip4 192 168 1 210) (ip4 192 168 1 5) in
  link_sent <$> (snd <$> ethernet_input no_tcp 4096 50
     (sample_net (ip_frame sample_mac sample_host (sample_header 36 1 ++ echo_message 8 0 c rest)))) =
   Some [(50, ip_frame sample_host sample_mac (hdr (rfc1071_chksum (hdr 0)) ++ echo_message 0 0 0 rest))] /\
  rfc1071_chksum (echo_message 0 0 0 rest) <> 0.
Proof. split_and!; by vm_compute. Qed.

(** The message about an unknown protocol quotes eight bytes behind the header even
    if the packet has none: they are read from behind its end. *)
Example unreachable_reads_behind :
  let board frame :=
    let st := sample_mem frame in
    set_mem (set_mallocs [Some 6000] (set_ram (ram st ∪ list_to_map (zip (seqZ 6000 200) (repeat 0 200))) st)) (sample_net frame) in
  let frame rest := ip_frame sample_mac sample_host (sample_header (20 + Z.of_nat (length rest)) 99 ++ rest) in
  ethernet_input no_tcp 4096 50 (board (frame [])) = None /\
  length <$> (link_sent <$> (snd <$> ethernet_input no_tcp 4096 50 (board (frame (repeat 1 8))))) = Some 1%nat.
Proof. split; by vm_compute. Qed.

(** [etharp_query] does not record the interface in a new entry, so that
    [etharp_cleanup_netif] leaves it, with its packet, in the table. *)
Example cleanup_leaves_pending :
  let st := NetMem (list_to_map (zip (seqZ 4200 200) (repeat 0 200))) {[ 4096 := Pbuf NULL 4300 40 40 PBUF_ROM 0 1 ]}
    [Some 4200; Some 700] 0 [] 0 ∅ in
  let s := Net st {[ 50 := sample_if ]} 50 50 (ArpGlobals (repeat empty_entry 10) 0 ∅) [] [] (IpGlobals 7 NULL NULL 0 0)
    (UdpGlobals ∅ NULL 49152 []) (RawGlobals ∅ NULL [] []) tcp_start tmo_start in
  let q := etharp_query 50 (ip4 192 168 1 9) 4096 ;; etharp_cleanup_netif 50 in
  ((fun s => (ae_state <$> head (arp_table (n_arp s)), arp_queue (n_arp s) !! 700)) ∘ snd) <$> q s =
    Some (Some ETHARP_STATE_PENDING, Some (EtharpQ NULL 4096)).
Proof. by vm_compute. Qed.

(** A packet that starts in ROM and goes on in RAM: the copy that [etharp_query]
    makes for the queue has room for the part in RAM only, and [pbuf_copy] fails its
    check. *)
Example rom_chain_halts :
  let st := NetMem (list_to_map (zip (seqZ 4200 100) (repeat 0 100) ++ zip (seqZ 6000 200) (repeat 0 200)))
    {[ 4096 := Pbuf 4120 4200 40 20 PBUF_ROM 0 1; 4120 := Pbuf NULL 4240 20 20 PBUF_RAM 0 1 ]} [Some 6000] 0 [] 0 ∅ in
  query_take 4096 st = None /\ is_Some (pbuf_alloc PBUF_RAW 40 PBUF_RAM st).
Proof. split; [by vm_compute|]. apply (bool_decide_unpack _). by vm_compute. Qed.

(** A control block with the option SOF_REUSEADDR gets a port that another one has
    without it; the comment in [udp_bind] asks for the option on all of them. *)
Example reuse_one_sided :
  let calls := udp_new ;; udp_bind 256 IPADDR_ANY 53 ;; udp_new ;; ip_set_option 320 SOF_REUSEADDR ;; udp_bind 320 IPADDR_ANY 53 in
  let refused := udp_new ;; udp_bind 256 IPADDR_ANY 53 ;; udp_new ;; udp_bind 320 IPADDR_ANY 53 in
  fst <$> calls sample_board = Some ERR_OK /\ fst <$> refused sample_board = Some ERR_USE.
Proof. split; by vm_compute. Qed.
