(* ===== verification/TcpFrame.v ===== *)
(** * What the operations of TCP leave alone

    [keeps R m] says that every run of [m] that returns relates the states before
    and after by [R].  The protocols below TCP do not touch its state ([low]);
    sending and receiving keep the lists of control blocks and the fields by
    which connections are found ([frame]); and nothing but the explicit
    assignments of the state machine changes the state of a connection
    ([states]). *)

From S2P Require Import Prelude StateM LwipMem TcpData Chksum IpAddr Pbuf NetState NetTimers Etharp IpOut Icmp TcpBase TcpOut Tcp TcpIn.

Definition keeps {A} (R : net -> net -> Prop) (m : NetM A) : Prop :=
  forall s a s', m s = Some (a, s') -> R s s'.

Create HintDb keeps.

Section Rules.
Context {R : net -> net -> Prop} `{!PreOrder R}.

Lemma keeps_ret {A} (a : A) : keeps R (mret a).
Proof. intros s a' s' [= _ <-]. reflexivity. Qed.

Lemma keeps_bind {A B} (m : NetM A) (f : A -> NetM B) :
  keeps R m -> (forall a, keeps R (f a)) -> keeps R (m ≫= f).
Proof. intros Hm Hf s b s' (a & s1 & E1 & E2)%bind_inv. etrans; [by eapply Hm|by eapply Hf]. Qed.

Lemma keeps_when b m : keeps R m -> keeps R (swhen b m).
Proof. intros H. destruct b; [done|apply keeps_ret]. Qed.

Lemma keeps_fail {A} : keeps R (fun _ : net => None : option (A * net)).
Proof. by intros s a s'. Qed.

Lemma keeps_sget {A} (f : net -> A) : keeps R (sget f).
Proof. intros s a s' [= _ <-]. reflexivity. Qed.

Lemma keeps_slift {A} (o : option A) : keeps R (slift o).
Proof. intros s a s'. unfold slift. destruct o; intros [= _ <-]. reflexivity. Qed.

Lemma keeps_assert b : keeps R (nassert b).
Proof. intros s a s'. unfold nassert. destruct b; intros [= _ <-]. reflexivity. Qed.

Lemma keeps_supd f : (forall s, R s (f s)) -> keeps R (supd f).
Proof. intros H s a s' [= _ <-]. apply H. Qed.

(** An access to a map. *)
Lemma keeps_lookup {A} (f : net -> option A) : keeps R (fun s => (fun b => (b, s)) <$> f s).
Proof. intros s a s'. simpl. destruct (f s); intros [= _ <-]. reflexivity. Qed.

Lemma keeps_run {A} (m : NetM A) s a s' : m s = Some (a, s') -> keeps R m -> R s s'.
Proof. intros E H. exact (H _ _ _ E). Qed.

Lemma keeps_weaken {A} (R' : net -> net -> Prop) (m : NetM A) :
  (forall s s', R s s' -> R' s s') -> keeps R m -> keeps R' m.
Proof. intros H Hm s a s' E. by apply H, (Hm s a). Qed.
End Rules.

#[export] Hint Extern 1 (keeps _ _) =>
  first [apply keeps_ret | apply keeps_sget | apply keeps_slift | apply keeps_assert] : keeps.
#[export] Hint Extern 1 (keeps _ (fun _ => None)) => apply keeps_fail : keeps.

(** One step along the structure of a function. *)
Ltac keep1 :=
  match goal with
  | |- forall _, _ => intros ?
  | |- keeps _ (mbind _ _) => apply keeps_bind
  | |- keeps _ (swhen _ _) => apply keeps_when
  | |- keeps _ (if ?b then _ else _) => destruct b
  | |- keeps _ (match ?x with _ => _ end) => destruct x
  | |- keeps _ (let _ := _ in _) => cbv zeta
  | |- _ => solve [eauto 2 with keeps]
  end.
Ltac keep := repeat (progress (repeat keep1)).

(** ** Below TCP *)

(** The same interfaces. *)
Definition wires (s s' : net) : Prop :=
  n_ifs s' = n_ifs s /\ netif_list s' = netif_list s /\ netif_default s' = netif_default s.

#[export] Instance wires_preorder : PreOrder wires.
Proof. split; [done|]. intros s1 s2 s3 (E1 & E2 & E3) (E4 & E5 & E6). repeat split; congruence. Qed.

Definition low (s s' : net) : Prop := (n_tcp s' = n_tcp s /\ n_tmo s' = n_tmo s) /\ wires s s'.

#[export] Instance low_preorder : PreOrder low.
Proof.
  split; [done|]. intros s1 s2 s3 [[E1 E2] W1] [[E3 E4] W2]. split; [split; congruence|by etrans].
Qed.

Lemma low_mem {A} (m : NM A) : keeps low (on_mem m).
Proof. intros s a s'. unfold on_mem. destruct (m (n_mem s)) as [[b st]|]; [|done]. by intros [= _ <-]. Qed.

Lemma low_getif n : keeps low (getif n).
Proof. apply keeps_lookup. Qed.

Lemma low_link n f : keeps low (link_send n f).
Proof. intros s a s'. unfold link_send. destruct (link_results s); by intros [= _ <-]. Qed.

#[export] Hint Resolve low_mem low_getif low_link : keeps.
#[export] Hint Extern 2 (keeps low (supd _)) => apply keeps_supd; intros ?; repeat split; reflexivity : keeps.

Lemma low_linkoutput n p : keeps low (linkoutput n p).
Proof. unfold linkoutput. keep. Qed.

Lemma low_get_entry i : keeps low (get_entry i).
Proof. intros s a s'. unfold get_entry. destruct (i <? 0); [done|]. destruct (_ !! _); by intros [= _ <-]. Qed.

Lemma low_upd_entry i f : keeps low (upd_entry i f).
Proof. intros s a s'. unfold upd_entry. destruct (i <? 0); [done|]. destruct (_ !! _); by intros [= _ <-]. Qed.

Lemma low_getq q : keeps low (getq q).
Proof. apply keeps_lookup. Qed.

Lemma low_putq q e : keeps low (putq q e).
Proof. by apply keeps_supd. Qed.

Lemma low_freeq q : keeps low (freeq q).
Proof. by apply keeps_supd. Qed.

Lemma low_queue_bound : keeps low queue_bound.
Proof. apply keeps_sget. Qed.

Lemma low_hint h : keeps low (ETHARP_SET_HINT h).
Proof. by apply keeps_supd. Qed.

#[export] Hint Resolve low_linkoutput low_get_entry low_upd_entry low_getq low_putq low_freeq low_queue_bound low_hint : keeps.

Lemma low_free_q_loop fuel q : keeps low (free_q_loop fuel q).
Proof. revert q. induction fuel; intros q; cbn [free_q_loop]; keep. Qed.
#[export] Hint Resolve low_free_q_loop : keeps.

Lemma low_free_etharp_q q : keeps low (free_etharp_q q).
Proof. unfold free_etharp_q. keep. Qed.
#[export] Hint Resolve low_free_etharp_q : keeps.

Lemma low_free_entry i : keeps low (etharp_free_entry i).
Proof. unfold etharp_free_entry. keep. Qed.
#[export] Hint Resolve low_free_entry : keeps.

Lemma low_find_scan ip l c : keeps low (find_scan ip l c).
Proof. revert c. induction l; intros c; cbn [find_scan]; keep. Qed.
#[export] Hint Resolve low_find_scan : keeps.

Lemma low_find_claim ip b i : keeps low (find_claim ip b i).
Proof. unfold find_claim. keep. Qed.
#[export] Hint Resolve low_find_claim : keeps.

Lemma low_find_entry ip f : keeps low (etharp_find_entry ip f).
Proof. unfold etharp_find_entry. keep. Qed.

Lemma low_send_ip n p src dst : keeps low (etharp_send_ip n p src dst).
Proof. unfold etharp_send_ip. keep. Qed.

Lemma low_raw n a b c d e f g : keeps low (etharp_raw n a b c d e f g).
Proof. unfold etharp_raw. keep. Qed.
#[export] Hint Resolve low_find_entry low_send_ip low_raw : keeps.

Lemma low_request n ip : keeps low (etharp_request n ip).
Proof. unfold etharp_request. keep. Qed.
#[export] Hint Resolve low_request : keeps.

Lemma low_arp_index n q i : keeps low (etharp_output_to_arp_index n q i).
Proof. unfold etharp_output_to_arp_index. keep. Qed.

Lemma low_queue_last fuel r : keeps low (queue_last fuel r).
Proof. revert r. induction fuel; intros r; cbn [queue_last]; keep. Qed.
#[export] Hint Resolve low_arp_index low_queue_last : keeps.

Lemma low_enqueue i p : keeps low (query_enqueue i p).
Proof. unfold query_enqueue. keep. Qed.
#[export] Hint Resolve low_enqueue : keeps.

Lemma low_query_packet n i q r : keeps low (query_packet n i q r).
Proof. unfold query_packet. keep. Qed.
#[export] Hint Resolve low_query_packet : keeps.

Lemma low_query n ip q : keeps low (etharp_query n ip q).
Proof. unfold etharp_query. keep. Qed.
#[export] Hint Resolve low_query : keeps.

Lemma low_output_stable d i : keeps low (output_stable d i).
Proof. unfold output_stable. keep. Qed.
#[export] Hint Resolve low_output_stable : keeps.

Lemma low_output_scan l n q d : keeps low (output_scan l n q d).
Proof. induction l; cbn [output_scan]; keep. Qed.
#[export] Hint Resolve low_output_scan : keeps.

Lemma low_output_unicast n q d : keeps low (output_unicast n q d).
Proof. unfold output_unicast. keep. Qed.
#[export] Hint Resolve low_output_unicast : keeps.

Lemma low_output n q ip : keeps low (etharp_output n q ip).
Proof. unfold etharp_output. keep. Qed.

Lemma low_route_loop fuel n d : keeps low (route_loop fuel n d).
Proof. revert n. induction fuel; intros n; cbn [route_loop]; keep. Qed.
#[export] Hint Resolve low_output low_route_loop : keeps.

Lemma low_route d : keeps low (ip_route d).
Proof. unfold ip_route, if_bound. keep. Qed.

Lemma low_build p src dest ttl tos proto n : keeps low (ip_build p src dest ttl tos proto n).
Proof. unfold ip_build. keep. Qed.
#[export] Hint Resolve low_route low_build : keeps.

Lemma low_output_if p src dest ttl tos proto n : keeps low (ip_output_if p src dest ttl tos proto n).
Proof. unfold ip_output_if. keep. Qed.
#[export] Hint Resolve low_output_if : keeps.

Lemma low_ip_output p src dest ttl tos proto : keeps low (ip_output p src dest ttl tos proto).
Proof. unfold ip_output. keep. Qed.
#[export] Hint Resolve low_ip_output : keeps.

(** ** Sending and receiving *)

(** The fields by which a connection is listed and found. *)
Definition core (t : tcp_pcb) :=
  (t_next t, t_state t, t_local_port t, t_remote_port t, t_remote_ip t, t_prio t, t_so_options t, t_accept t,
   t_callback_arg t, t_errf t).

Definition heads (g : tcp_globals) :=
  (g_listen_pcbs g, g_bound_pcbs g, g_active_pcbs g, g_tw_pcbs g, g_in_flags g, g_ackno g, g_hdr g, g_ticks g,
   g_recv_flags g).

Definition frame (s s' : net) : Prop :=
  (core <$> g_pcb_map (n_tcp s') = core <$> g_pcb_map (n_tcp s) /\ heads (n_tcp s') = heads (n_tcp s)) /\ wires s s'.

#[export] Instance frame_preorder : PreOrder frame.
Proof.
  split; [done|]. intros s1 s2 s3 [[E1 E2] W1] [[E3 E4] W2]. split; [split; congruence|by etrans].
Qed.

Lemma frame_low {A} (m : NetM A) : keeps low m -> keeps frame m.
Proof. apply keeps_weaken. intros s s' [[E _] W]. unfold frame. by rewrite E. Qed.

Lemma frame_getc p : keeps frame (getc p).
Proof. apply keeps_lookup. Qed.

Lemma frame_gets p : keeps frame (gets p).
Proof. apply keeps_lookup. Qed.

Lemma frame_tcpg {A} (f : tcp_globals -> A) : keeps frame (tcpg f).
Proof. apply keeps_sget. Qed.

Lemma frame_tcpu f : (forall g, g_pcb_map (f g) = g_pcb_map g /\ heads (f g) = heads g) -> keeps frame (tcpu f).
Proof.
  intros H. apply keeps_supd. intros s. destruct (H (n_tcp s)) as [E1 E2]. split; [|done]. split; simpl; [by rewrite E1|done].
Qed.

#[export] Hint Resolve frame_getc frame_gets frame_tcpg : keeps.
#[export] Hint Extern 2 (keeps frame (tcpu _)) => apply frame_tcpu; intros ?; split; reflexivity : keeps.
#[export] Hint Extern 5 (keeps frame _) => apply frame_low; solve [eauto 2 with keeps] : keeps.

Lemma frame_gett p : keeps frame (gett p).
Proof. unfold gett. keep. Qed.
#[export] Hint Resolve frame_gett : keeps.

Lemma frame_put p f (get : NetM tcp_pcb) :
  (forall s t s', get s = Some (t, s') -> s' = s /\ g_pcb_map (n_tcp s) !! p = Some t) ->
  (forall t, core (f t) = core t) -> keeps frame (t ← get; putt p (f t)).
Proof.
  intros Hget Hf s a s' (t & s1 & E1 & E2)%bind_inv. destruct (Hget _ _ _ E1) as [-> E]. injection E2 as _ <-.
  split; [|done]. split; [|done]. simpl. rewrite fmap_insert, insert_id; [done|]. by rewrite lookup_fmap, E, Hf.
Qed.

Lemma getc_inv p s t s' : getc p s = Some (t, s') -> s' = s /\ g_pcb_map (n_tcp s) !! p = Some t.
Proof. unfold getc. destruct (_ !! _) as [t'|] eqn:E; [|done]. by intros [= -> ->]. Qed.

Lemma gett_inv p s t s' : gett p s = Some (t, s') ->
  s' = s /\ g_pcb_map (n_tcp s) !! p = Some t /\ t_state t <> LISTEN.
Proof.
  unfold gett. intros (t1 & s1 & [-> E1]%getc_inv & H)%bind_inv. apply bind_inv in H as ([] & s2 & E2 & [= -> ->]).
  unfold nassert in E2. destruct (bool_decide (t_state t = LISTEN)) eqn:E; [done|]. injection E2 as <-.
  split; [done|]. split; [done|]. by apply bool_decide_eq_false in E.
Qed.

Lemma frame_updt p f : (forall t, core (f t) = core t) -> keeps frame (updt p f).
Proof. intros Hf. apply frame_put; [|done]. intros s t s' (? & ? & _)%gett_inv. done. Qed.

Lemma frame_updc p f : (forall t, core (f t) = core t) -> keeps frame (updc p f).
Proof. intros Hf. apply frame_put; [|done]. apply getc_inv. Qed.

#[export] Hint Extern 2 (keeps frame (updt _ _)) =>
  apply frame_updt; intros ?; repeat (reflexivity || case_match) : keeps.

Lemma frame_puts p b : keeps frame (puts p b).
Proof. unfold puts. keep. Qed.
#[export] Hint Resolve frame_puts : keeps.

Lemma frame_upds p f : keeps frame (upds p f).
Proof. unfold upds. keep. Qed.

Lemma frame_frees p : keeps frame (frees p).
Proof. unfold frees. keep. Qed.

Lemma frame_seg_bound : keeps frame seg_bound.
Proof. unfold seg_bound. keep. Qed.

Lemma frame_seg_seqno p : keeps frame (seg_seqno p).
Proof. unfold seg_seqno. keep. Qed.

Lemma frame_rseg_seqno p : keeps frame (rseg_seqno p).
Proof. unfold rseg_seqno. keep. Qed.

Lemma frame_tcplen_of b : keeps frame (tcplen_of b).
Proof. unfold tcplen_of. keep. Qed.
#[export] Hint Resolve frame_upds frame_frees frame_seg_bound frame_seg_seqno frame_rseg_seqno frame_tcplen_of : keeps.

Lemma frame_tcplen p : keeps frame (TCP_TCPLEN p).
Proof. unfold TCP_TCPLEN. keep. Qed.

Lemma frame_seg_free p : keeps frame (tcp_seg_free p).
Proof. unfold tcp_seg_free. keep. Qed.
#[export] Hint Resolve frame_tcplen frame_seg_free : keeps.

Lemma frame_segs_free_loop fuel p : keeps frame (segs_free_loop fuel p).
Proof. revert p. induction fuel; intros p; cbn [segs_free_loop]; keep. Qed.
#[export] Hint Resolve frame_segs_free_loop : keeps.

Lemma frame_segs_free p : keeps frame (tcp_segs_free p).
Proof. unfold tcp_segs_free. keep. Qed.

Lemma frame_seg_copy b : keeps frame (tcp_seg_copy b).
Proof. unfold tcp_seg_copy. keep. Qed.

Lemma frame_last_seg fuel p : keeps frame (last_seg fuel p).
Proof. revert p. induction fuel; intros p; cbn [last_seg]; keep. Qed.

Lemma frame_eff_mss m a : keeps frame (tcp_eff_send_mss m a).
Proof. unfold tcp_eff_send_mss. keep. Qed.
#[export] Hint Resolve frame_segs_free frame_seg_copy frame_last_seg frame_eff_mss : keeps.

Lemma frame_alloc_header p a b c : keeps frame (tcp_output_alloc_header p a b c).
Proof. unfold tcp_output_alloc_header. keep. Qed.

Lemma frame_create p a b c d : keeps frame (tcp_create_segment p a b c d).
Proof. unfold tcp_create_segment. keep. Qed.
#[export] Hint Resolve frame_alloc_header frame_create : keeps.

Lemma frame_enqueue p f : keeps frame (tcp_enqueue_flags p f).
Proof. unfold tcp_enqueue_flags. keep. Qed.
#[export] Hint Resolve frame_enqueue : keeps.

Lemma frame_send_fin p : keeps frame (tcp_send_fin p).
Proof. unfold tcp_send_fin. keep. Qed.

Lemma frame_empty_ack p : keeps frame (tcp_send_empty_ack p).
Proof. unfold tcp_send_empty_ack. keep. Qed.

Lemma frame_nagle p : keeps frame (tcp_do_output_nagle p).
Proof. unfold tcp_do_output_nagle. keep. Qed.

Lemma frame_segment_send a p : keeps frame (segment_send a p).
Proof. unfold segment_send. keep. Qed.
#[export] Hint Resolve frame_send_fin frame_empty_ack frame_nagle frame_segment_send : keeps.

Lemma frame_output_segment a p : keeps frame (tcp_output_segment a p).
Proof. unfold tcp_output_segment. keep. Qed.

Lemma frame_seg_place fuel a b n : keeps frame (seg_place fuel a b n).
Proof. revert a b. induction fuel; intros a b; cbn [seg_place]; keep. Qed.
#[export] Hint Resolve frame_output_segment frame_seg_place : keeps.

Lemma frame_to_unacked a b p : keeps frame (to_unacked a b p).
Proof. unfold to_unacked. keep. Qed.
#[export] Hint Resolve frame_to_unacked : keeps.

Lemma frame_output_loop fuel p a b w : keeps frame (output_loop fuel p a b w).
Proof. revert a b. induction fuel; intros a b; cbn [output_loop]; keep. Qed.
#[export] Hint Resolve frame_output_loop : keeps.

Lemma frame_output p : keeps frame (tcp_output p).
Proof. unfold tcp_output. keep. Qed.

Lemma frame_rst a b c d e f : keeps frame (tcp_rst a b c d e f).
Proof. unfold tcp_rst. keep. Qed.

Lemma frame_rexmit p : keeps frame (tcp_rexmit p).
Proof. unfold tcp_rexmit. keep. Qed.
#[export] Hint Resolve frame_output frame_rst frame_rexmit : keeps.

Lemma frame_rexmit_fast p : keeps frame (tcp_rexmit_fast p).
Proof. unfold tcp_rexmit_fast. keep. Qed.
#[export] Hint Resolve frame_rexmit_fast : keeps.

Lemma frame_prealloc l a b p f c : keeps frame (tcp_pbuf_prealloc l a b p f c).
Proof. unfold tcp_pbuf_prealloc. keep. Qed.

Lemma frame_write_checks p n : keeps frame (tcp_write_checks p n).
Proof. unfold tcp_write_checks. keep. Qed.
#[export] Hint Resolve frame_prealloc frame_write_checks : keeps.

Lemma frame_write_tail p a b c d e f : keeps frame (write_tail p a b c d e f).
Proof. unfold write_tail. keep. Qed.

Lemma frame_write_buf p a b c d w : keeps frame (write_buf p a b c d w).
Proof. unfold write_buf. keep. Qed.
#[export] Hint Resolve frame_write_tail frame_write_buf : keeps.

Lemma frame_write_loop fuel p a b c d w : keeps frame (write_loop fuel p a b c d w).
Proof. revert w. induction fuel; intros w; cbn [write_loop]; keep. Qed.

Lemma frame_write_memerr p a b : keeps frame (write_memerr p a b).
Proof. unfold write_memerr. keep. Qed.

Lemma frame_write_commit p a b c d w : keeps frame (write_commit p a b c d w).
Proof. unfold write_commit. keep. Qed.
#[export] Hint Resolve frame_write_loop frame_write_memerr frame_write_commit : keeps.

Lemma frame_write p a b c : keeps frame (tcp_write p a b c).
Proof. unfold tcp_write. keep. Qed.

Lemma frame_opt_loop fuel p a b c : keeps frame (opt_loop fuel p a b c).
Proof. revert b. induction fuel; intros b; cbn [opt_loop]; keep. Qed.
#[export] Hint Resolve frame_opt_loop : keeps.

Lemma frame_parseopt p : keeps frame (tcp_parseopt p).
Proof. unfold tcp_parseopt. keep. Qed.
#[export] Hint Resolve frame_parseopt : keeps.

(** *** Acknowledgements *)

Lemma frame_ack_one p a : keeps frame (ack_one p a).
Proof. unfold ack_one. keep. Qed.
#[export] Hint Resolve frame_ack_one : keeps.

Lemma frame_unacked_loop fuel p : keeps frame (unacked_loop fuel p).
Proof. induction fuel; cbn [unacked_loop]; keep. Qed.

Lemma frame_unsent_loop fuel p : keeps frame (unsent_loop fuel p).
Proof. induction fuel; cbn [unsent_loop]; keep. Qed.

Lemma frame_ack_old p a b c : keeps frame (ack_old p a b c).
Proof. unfold ack_old. keep. Qed.
#[export] Hint Resolve frame_unacked_loop frame_unsent_loop frame_ack_old : keeps.

Lemma frame_gett_slift {A} p (f : tcp_pcb -> option tcp_pcb) (k : tcp_pcb -> tcp_pcb -> NetM A) :
  (forall t t', f t = Some t' -> core t' = core t) -> (forall t t', keeps frame (k t t')) ->
  keeps frame (t ← gett p; t' ← slift (f t); putt p t' ;; k t t').
Proof.
  intros Hf Hk s r s' (t & s1 & (-> & Et & _)%gett_inv & H)%bind_inv.
  apply bind_inv in H as (t' & s2 & E2 & H). unfold slift in E2. destruct (f t) as [u|] eqn:Ef; [|done].
  injection E2 as <- <-. apply bind_inv in H as ([] & s3 & E3 & H). etrans; [|exact (Hk _ _ _ _ _ H)].
  injection E3 as <-. split; [|done]. split; [|reflexivity]. cbn. rewrite fmap_insert, insert_id; [done|].
  by rewrite lookup_fmap, Et, (Hf _ _ Ef).
Qed.

Lemma core_ack_fields a t t' : ack_fields a t = Some t' -> core t' = core t.
Proof. unfold ack_fields. repeat case_match; intros [= <-]; reflexivity. Qed.

Lemma frame_ack_new p a : keeps frame (ack_new p a).
Proof. unfold ack_new. apply frame_gett_slift; [apply core_ack_fields|]. keep. Qed.
#[export] Hint Resolve frame_ack_new : keeps.

Lemma frame_update_window p a b c : keeps frame (updt p (update_window a b c)).
Proof.
  apply frame_updt. intros t. unfold update_window. case_match; [|done]. cbv zeta.
  repeat case_match; reflexivity.
Qed.
#[export] Hint Resolve frame_update_window : keeps.

Lemma frame_receive_ack p : keeps frame (receive_ack p).
Proof. unfold receive_ack. keep. Qed.

(** *** Data *)

Lemma frame_inseg : keeps frame inseg.
Proof. unfold inseg. keep. Qed.

Lemma frame_upd_inseg f : keeps frame (upd_inseg f).
Proof. unfold upd_inseg. keep. Qed.
#[export] Hint Resolve frame_receive_ack frame_inseg frame_upd_inseg : keeps.

Lemma frame_trim_head a : keeps frame (trim_head a).
Proof. unfold trim_head. keep. Qed.

Lemma frame_in_tcplen : keeps frame in_tcplen.
Proof. unfold in_tcplen. keep. Qed.
#[export] Hint Resolve frame_trim_head frame_in_tcplen : keeps.

Lemma frame_trim_tail a : keeps frame (trim_tail a).
Proof. unfold trim_tail. keep. Qed.
#[export] Hint Resolve frame_trim_tail : keeps.

Lemma frame_trim_window a : keeps frame (trim_window a).
Proof. unfold trim_window. keep. Qed.

Lemma frame_ooseq_covered fuel a : keeps frame (ooseq_covered fuel a).
Proof. revert a. induction fuel; intros a; cbn [ooseq_covered]; keep. Qed.

Lemma frame_ooseq_clear fuel a : keeps frame (ooseq_clear fuel a).
Proof. induction fuel; cbn [ooseq_clear]; keep. Qed.
#[export] Hint Resolve frame_trim_window frame_ooseq_covered frame_ooseq_clear : keeps.

Lemma frame_ooseq_merge a : keeps frame (ooseq_merge a).
Proof. unfold ooseq_merge. keep. Qed.

Lemma frame_ann_wnd p : keeps frame (tcp_update_rcv_ann_wnd p).
Proof. unfold tcp_update_rcv_ann_wnd. keep. Qed.

Lemma frame_oos_covered fuel a b : keeps frame (oos_covered fuel a b).
Proof. revert b. induction fuel; intros b; cbn [oos_covered]; keep. Qed.
#[export] Hint Resolve frame_ooseq_merge frame_ann_wnd frame_oos_covered : keeps.

Lemma frame_oos_insert a b : keeps frame (tcp_oos_insert_segment a b).
Proof. unfold tcp_oos_insert_segment. keep. Qed.

Lemma frame_oos_cut a : keeps frame (oos_cut a).
Proof. unfold oos_cut. keep. Qed.
#[export] Hint Resolve frame_oos_insert frame_oos_cut : keeps.

Lemma frame_oos_append p a : keeps frame (oos_append p a).
Proof. unfold oos_append. keep. Qed.
#[export] Hint Resolve frame_oos_append : keeps.

Lemma frame_oos_loop fuel p a b : keeps frame (oos_loop fuel p a b).
Proof. revert a b. induction fuel; intros a b; cbn [oos_loop]; keep. Qed.
#[export] Hint Resolve frame_oos_loop : keeps.

Lemma frame_receive_later p : keeps frame (receive_later p).
Proof. unfold receive_later. keep. Qed.
#[export] Hint Resolve frame_receive_later : keeps.

(** ** The states of the connections *)

(** What the state machine reads of the segment, and what it has found out. *)
Definition marks (g : tcp_globals) := (g_in_flags g, g_ackno g, g_recv_flags g).

(** The same control blocks, with the same [f]. *)
Definition same {A} (f : tcp_pcb -> A) (s s' : net) : Prop :=
  f <$> g_pcb_map (n_tcp s') = f <$> g_pcb_map (n_tcp s) /\ marks (n_tcp s') = marks (n_tcp s).

#[export] Instance same_preorder {A} (f : tcp_pcb -> A) : PreOrder (same f).
Proof. split; [done|]. intros s1 s2 s3 [E1 E2] [E3 E4]. split; congruence. Qed.

Lemma same_fun {A B} (f : tcp_pcb -> A) (h : A -> B) s s' : same f s s' -> same (h ∘ f) s s'.
Proof. intros [E M]. split; [|done]. by rewrite !map_fmap_compose, E. Qed.

Definition state_next (t : tcp_pcb) := (t_state t, t_snd_nxt t).

Lemma same_state s s' : same state_next s s' -> same t_state s s'.
Proof. apply (same_fun state_next fst). Qed.

Lemma frame_same s s' : frame s s' -> same t_state s s'.
Proof.
  intros [[E M] _]. split; [|unfold heads, marks in *; congruence].
  pose (h := fun c : Z * tcp_state * Z * Z * Z * Z * Z * Z * Z * Z =>
    let '(_, q, _, _, _, _, _, _, _, _) := c in q).
  change t_state with (h ∘ core). by rewrite !map_fmap_compose, E.
Qed.

Lemma same_low {A B} (f : tcp_pcb -> B) (m : NetM A) : keeps low m -> keeps (same f) m.
Proof. apply keeps_weaken. intros s s' [[E _] _]. unfold same. by rewrite E. Qed.

Lemma same_getc p : keeps (same state_next) (getc p).
Proof. apply keeps_lookup. Qed.

Lemma same_gets p : keeps (same state_next) (gets p).
Proof. apply keeps_lookup. Qed.

Lemma same_tcpg {A} (f : tcp_globals -> A) : keeps (same state_next) (tcpg f).
Proof. apply keeps_sget. Qed.

Lemma same_tcpu f : (forall g, g_pcb_map (f g) = g_pcb_map g /\ marks (f g) = marks g) -> keeps (same state_next) (tcpu f).
Proof. intros H. apply keeps_supd. intros s. destruct (H (n_tcp s)) as [E1 E2]. split; simpl; [by rewrite E1|done]. Qed.

#[export] Hint Resolve same_getc same_gets same_tcpg : keeps.
#[export] Hint Extern 2 (keeps (same _) (tcpu _)) => apply same_tcpu; intros []; split; reflexivity : keeps.
#[export] Hint Extern 5 (keeps (same _) _) => apply same_low; solve [eauto 2 with keeps] : keeps.

Lemma same_gett p : keeps (same state_next) (gett p).
Proof. unfold gett. keep. Qed.
#[export] Hint Resolve same_gett : keeps.

Lemma same_put p f (get : NetM tcp_pcb) :
  (forall s t s', get s = Some (t, s') -> s' = s /\ g_pcb_map (n_tcp s) !! p = Some t) ->
  (forall t, state_next (f t) = state_next t) -> keeps (same state_next) (t ← get; putt p (f t)).
Proof.
  intros Hget Hf s a s' (t & s1 & E1 & E2)%bind_inv. destruct (Hget _ _ _ E1) as [-> E]. injection E2 as _ <-.
  split; [|done]. simpl. rewrite fmap_insert, insert_id; [done|]. by rewrite lookup_fmap, E, Hf.
Qed.

Lemma same_updt p f : (forall t, state_next (f t) = state_next t) -> keeps (same state_next) (updt p f).
Proof. intros Hf. apply same_put; [|done]. intros s t s' (? & ? & _)%gett_inv. done. Qed.

Lemma same_updc p f : (forall t, state_next (f t) = state_next t) -> keeps (same state_next) (updc p f).
Proof. intros Hf. apply same_put; [|done]. apply getc_inv. Qed.

#[export] Hint Extern 2 (keeps (same _) (updt _ _)) =>
  apply same_updt; intros ?; repeat (reflexivity || case_match) : keeps.
#[export] Hint Extern 2 (keeps (same _) (updc _ _)) =>
  apply same_updc; intros ?; reflexivity : keeps.

(** *** Lists, timers and the release of segments *)

Notation same_sn := (same state_next).

Lemma same_supd f : (forall s, n_tcp (f s) = n_tcp s) -> keeps same_sn (supd f).
Proof. intros H. apply keeps_supd. intros s. unfold same. by rewrite H. Qed.
#[export] Hint Extern 3 (keeps (same _) (supd _)) => apply same_supd; intros ?; reflexivity : keeps.

Lemma same_get_o t : keeps same_sn (get_o t).
Proof. apply keeps_lookup. Qed.

Lemma same_put_o t e : keeps same_sn (put_o t e).
Proof. unfold put_o. keep. Qed.
#[export] Hint Resolve same_get_o same_put_o : keeps.

Lemma same_upd_o t f : keeps same_sn (upd_o t f).
Proof. unfold upd_o. keep. Qed.

Lemma same_timeo_bound : keeps same_sn timeo_bound.
Proof. apply keeps_sget. Qed.
#[export] Hint Resolve same_upd_o same_timeo_bound : keeps.

Lemma same_timeout_loop fuel t n : keeps same_sn (timeout_loop fuel t n).
Proof. revert t. induction fuel; intros t; cbn [timeout_loop]; keep. Qed.
#[export] Hint Resolve same_timeout_loop : keeps.

Lemma same_sys_timeout a b c : keeps same_sn (sys_timeout a b c).
Proof. unfold sys_timeout. keep. Qed.
#[export] Hint Resolve same_sys_timeout : keeps.

Lemma same_timer_needed : keeps same_sn tcp_timer_needed.
Proof. unfold tcp_timer_needed. keep. Qed.
#[export] Hint Resolve same_timer_needed : keeps.

Lemma same_set_pcbs l p : keeps same_sn (tcpu (set_pcbs l p)).
Proof. apply same_tcpu. intros g. destruct l; split; reflexivity. Qed.
#[export] Hint Resolve same_set_pcbs : keeps.

Lemma same_REG l p : keeps same_sn (TCP_REG l p).
Proof. unfold TCP_REG. keep. Qed.

Lemma same_tpcb_bound : keeps same_sn tpcb_bound.
Proof. unfold tpcb_bound. keep. Qed.

Lemma same_rmv_loop fuel a b : keeps same_sn (rmv_loop fuel a b).
Proof. revert a. induction fuel; intros a; cbn [rmv_loop]; keep. Qed.
#[export] Hint Resolve same_REG same_tpcb_bound same_rmv_loop : keeps.

Lemma same_RMV l p : keeps same_sn (TCP_RMV l p).
Proof. unfold TCP_RMV. keep. Qed.
#[export] Hint Resolve same_RMV : keeps.

Lemma same_RMV_ACTIVE p : keeps same_sn (TCP_RMV_ACTIVE p).
Proof. unfold TCP_RMV_ACTIVE. keep. Qed.

Lemma same_frees p : keeps same_sn (frees p).
Proof. unfold frees. keep. Qed.
#[export] Hint Resolve same_RMV_ACTIVE same_frees : keeps.

Lemma same_seg_free p : keeps same_sn (tcp_seg_free p).
Proof. unfold tcp_seg_free. keep. Qed.
#[export] Hint Resolve same_seg_free : keeps.

Lemma same_segs_free_loop fuel p : keeps same_sn (segs_free_loop fuel p).
Proof. revert p. induction fuel; intros p; cbn [segs_free_loop]; keep. Qed.

Lemma same_seg_bound : keeps same_sn seg_bound.
Proof. unfold seg_bound. keep. Qed.
#[export] Hint Resolve same_segs_free_loop same_seg_bound : keeps.

Lemma same_segs_free p : keeps same_sn (tcp_segs_free p).
Proof. unfold tcp_segs_free. keep. Qed.
#[export] Hint Resolve same_segs_free : keeps.

Lemma same_purge p : keeps same_sn (tcp_pcb_purge p).
Proof. unfold tcp_pcb_purge. keep. Qed.
#[export] Hint Resolve same_purge : keeps.
