(* ===== verification/TcpProcess.v ===== *)
(** * The state machine of a connection: tcp_process and RFC 793

    [tcp_process] of core/tcp_in.c reads the flags and the acknowledgement number
    of a segment, and learns from [tcp_receive] whether the stream has come to the
    FIN of the peer.  [lwip_next] is what it makes of these ([tcp_process_next]).
    [rfc_next] is the table of RFC 793 (figure 6 and section 3.9), with its tests of the
    sequence and acknowledgement numbers; [tcp_process_rfc] says that [tcp_process]
    follows it for the segments that [conforms] describes, and the examples behind it show
    the segments for which it does not. *)

From S2P Require Import Prelude StateM LwipMem TcpData Chksum IpAddr Pbuf NetState NetTimers Etharp IpOut Icmp TcpBase TcpOut Tcp TcpIn TcpFrame.

(** ** The table of the code *)

Definition flag (g : tcp_globals) (f : Z) : bool := truthy (g_in_flags g &. f).

(** The state after a segment.  [fin]: the FIN of the peer has arrived, in order;
    [acked]: the segment acknowledges all that was sent, our FIN included;
    [opened]: it acknowledges our SYN. *)
Definition lwip_next (g : tcp_globals) (fin acked opened : bool) (q : tcp_state) : tcp_state :=
  if flag g TCP_RST then q
  else match q with
       | SYN_SENT => if flag g TCP_SYN && flag g TCP_ACK && opened then ESTABLISHED else SYN_SENT
       | SYN_RCVD => if flag g TCP_ACK && opened then (if fin then CLOSE_WAIT else ESTABLISHED) else SYN_RCVD
       | _ =>
           if flag g TCP_SYN then q
           else match q with
                | ESTABLISHED => if fin then CLOSE_WAIT else ESTABLISHED
                | FIN_WAIT_1 =>
                    match fin, acked with
                    | true, true => TIME_WAIT
                    | true, false => CLOSING
                    | false, true => FIN_WAIT_2
                    | false, false => FIN_WAIT_1
                    end
                | FIN_WAIT_2 => if fin then TIME_WAIT else FIN_WAIT_2
                | CLOSING => if acked then TIME_WAIT else CLOSING
                | LAST_ACK => if acked then CLOSED else LAST_ACK
                | _ => q
                end
       end.

(** ** The states before and after *)

Definition st (c : Z) (s : net) : option tcp_state := t_state <$> g_pcb_map (n_tcp s) !! c.

(** The flags that [tcp_input] looks at after [tcp_process]. *)
Definition recv_flag (s : net) (f : Z) : bool := truthy (g_recv_flags (n_tcp s) &. f).
Definition got_fin (s : net) : bool := recv_flag s TF_GOT_FIN.

(** Nothing changes but that the connection [pcb] may see the end of the stream. *)
Definition advance (pcb : Z) (s s' : net) : Prop :=
  (forall c, c <> pcb -> st c s' = st c s) /\
  g_recv_flags (n_tcp s') ∈ [g_recv_flags (n_tcp s); g_recv_flags (n_tcp s) |. TF_GOT_FIN] /\
  (st pcb s' = st pcb s \/ (st pcb s = Some ESTABLISHED /\ st pcb s' = Some CLOSE_WAIT /\ got_fin s' = true)).

Lemma truthy_or f m : 0 < m -> truthy ((f |. m) &. m) = true.
Proof.
  intros Hm. unfold truthy. apply negb_true_iff, Z.eqb_neq. intros E.
  apply (f_equal (fun n => Z.testbit n (Z.log2 m))) in E.
  rewrite Z.land_spec, Z.lor_spec, Z.bit_log2, Z.bits_0, orb_true_r in E by done. done.
Qed.

Lemma got_fin_or f : truthy ((f |. TF_GOT_FIN) &. TF_GOT_FIN) = true.
Proof. by apply truthy_or. Qed.

(** The other flags stay. *)
Lemma flags_stay f m (s' : net) :
  g_recv_flags (n_tcp s') ∈ [f; f |. TF_GOT_FIN] -> TF_GOT_FIN &. m = 0 -> recv_flag s' m = truthy (f &. m).
Proof.
  intros H Hm. unfold recv_flag. apply elem_of_cons in H as [-> | ->%list_elem_of_singleton]; [done|].
  by rewrite Z.land_lor_distr_l, Hm, Z.lor_0_r.
Qed.

#[export] Instance advance_preorder pcb : PreOrder (advance pcb).
Proof.
  split; [intros s; split; [done|]; split; [by left|by left]|].
  intros s1 s2 s3 (A1 & F1 & S1) (A2 & F2 & S2).
  rewrite elem_of_cons, list_elem_of_singleton in F1, F2. split; [|split].
  - intros c Hc. by rewrite A2, A1.
  - rewrite elem_of_cons, list_elem_of_singleton.
    destruct F1 as [E1|E1], F2 as [E2|E2]; rewrite E1 in E2; rewrite E2; [by left|by right|by right|].
    right. by rewrite <-Z.lor_assoc.
  - destruct S1 as [E1|(E1 & E1' & G1)], S2 as [E2|(E2 & E2' & G2)]; [left; congruence| | |congruence].
    + right. split; [congruence|done].
    + right. split; [done|]. split; [congruence|]. unfold got_fin, recv_flag in *.
      destruct F2 as [->| ->]; [done|apply got_fin_or].
Qed.

Lemma same_st s s' c : same t_state s s' -> st c s' = st c s.
Proof. intros [E _]. unfold st. by rewrite <-!lookup_fmap, E. Qed.

Lemma same_marks {A} (f : tcp_pcb -> A) s s' : same f s s' -> g_recv_flags (n_tcp s') = g_recv_flags (n_tcp s).
Proof. intros [_ M]. by injection M. Qed.

Lemma same_advance pcb s s' : same t_state s s' -> advance pcb s s'.
Proof.
  intros H. split; [intros c _; by apply same_st|].
  split; [rewrite (same_marks _ _ _ H); by left|]. left. by apply same_st.
Qed.

Lemma advance_frame {A} pcb (m : NetM A) : keeps frame m -> keeps (advance pcb) m.
Proof. apply keeps_weaken. intros s s' H. by apply same_advance, frame_same. Qed.

#[export] Hint Extern 6 (keeps (advance _) _) => apply advance_frame; solve [eauto 2 with keeps] : keeps.

Lemma advance_set_fin pcb : keeps (advance pcb) (tcpu (fun g => set_g_recv_flags (g_recv_flags g |. TF_GOT_FIN) g)).
Proof.
  apply keeps_supd. intros s. split; [done|]. split; [|by left]. right. by left.
Qed.
#[export] Hint Resolve advance_set_fin : keeps.

(** The FIN of a segment that was out of order. *)
Lemma advance_close_wait pcb :
  keeps (advance pcb) (tcpu (fun g => set_g_recv_flags (g_recv_flags g |. TF_GOT_FIN) g) ;;
    t ← gett pcb; swhen (is_st t ESTABLISHED) (updt pcb (set_t_state CLOSE_WAIT))).
Proof.
  intros s [] s' ([] & s1 & E1 & (t & s2 & (-> & Et & _)%gett_inv & E2)%bind_inv)%bind_inv.
  etrans; [exact (advance_set_fin _ _ _ _ E1)|]. unfold swhen in E2.
  destruct (is_st t ESTABLISHED) eqn:Hq; [|injection E2 as <-; reflexivity].
  apply bind_inv in E2 as (t' & s3 & (-> & Et' & _)%gett_inv & [= <-]). rewrite Et in Et'. injection Et' as <-.
  injection E1 as <-. unfold is_st in Hq. apply bool_decide_eq_true in Hq.
  split; [|split; [by left|right]].
  - intros c Hc. unfold st. cbn. by rewrite lookup_insert_ne by done.
  - split; [unfold st; by rewrite Et; simpl; rewrite Hq|]. split; [|apply got_fin_or].
    unfold st. cbn. by rewrite lookup_insert_eq.
Qed.

Lemma advance_deliver fuel pcb : keeps (advance pcb) (ooseq_deliver fuel pcb).
Proof.
  induction fuel; cbn [ooseq_deliver]; [keep|].
  repeat (apply advance_close_wait || keep1).
Qed.
#[export] Hint Resolve advance_deliver : keeps.

Lemma frame_tcp_ack pcb : keeps frame (updt pcb tcp_ack).
Proof. apply frame_updt. intros t. unfold tcp_ack. by destruct (has_flag t TF_ACK_DELAY). Qed.
#[export] Hint Resolve frame_tcp_ack : keeps.

Lemma advance_next pcb : keeps (advance pcb) (receive_next pcb).
Proof. unfold receive_next. keep. Qed.
#[export] Hint Resolve advance_next : keeps.

Lemma advance_receive_data pcb : keeps (advance pcb) (receive_data pcb).
Proof. unfold receive_data. keep. Qed.
#[export] Hint Resolve advance_receive_data : keeps.

Lemma advance_receive pcb : keeps (advance pcb) (tcp_receive pcb).
Proof. unfold tcp_receive. keep. Qed.


(** An assignment of the state. *)
Definition sn (c : Z) (s : net) : option Z := t_snd_nxt <$> g_pcb_map (n_tcp s) !! c.

Definition moves (pcb : Z) (q : tcp_state) (s s' : net) : Prop :=
  (forall c, c <> pcb -> st c s' = st c s) /\ st pcb s' = Some q /\ sn pcb s' = sn pcb s /\
  g_recv_flags (n_tcp s') = g_recv_flags (n_tcp s).

Lemma same_sn_of s s' c : same_sn s s' -> st c s' = st c s /\ sn c s' = sn c s.
Proof.
  intros H. split; [apply same_st, same_state, H|]. destruct (same_fun _ snd _ _ H) as [E _].
  unfold sn. rewrite <-!lookup_fmap. by change t_snd_nxt with (snd ∘ state_next); rewrite E.
Qed.

Lemma same_moves pcb q s1 s2 s3 : same_sn s1 s2 -> moves pcb q s2 s3 -> moves pcb q s1 s3.
Proof.
  intros H (A & S & N & F). split; [|split; [done|]].
  - intros c Hc. rewrite A by done. by apply same_sn_of.
  - rewrite N, F, (same_marks _ _ _ H). split; [|done]. by apply same_sn_of.
Qed.

Lemma moves_same pcb q s1 s2 s3 : moves pcb q s1 s2 -> same_sn s2 s3 -> moves pcb q s1 s3.
Proof.
  intros (A & S & N & F) H. destruct (same_sn_of _ _ pcb H) as [E1 E2].
  split; [|rewrite E1, E2, (same_marks _ _ _ H); done].
  intros c Hc. rewrite <-A by done. by apply same_sn_of.
Qed.

Lemma updt_moves pcb q f s s' : (forall t, t_state (f t) = q) -> (forall t, t_snd_nxt (f t) = t_snd_nxt t) ->
  updt pcb f s = Some (tt, s') -> moves pcb q s s'.
Proof.
  intros Hf Hn (t & s1 & (-> & Et & _)%gett_inv & [= <-])%bind_inv. split; [|split; [|split; [|done]]].
  - intros c Hc. unfold st. cbn. by rewrite lookup_insert_ne by done.
  - unfold st. cbn. rewrite lookup_insert_eq. cbn. by rewrite Hf.
  - unfold sn. cbn. rewrite lookup_insert_eq, Et. cbn. by rewrite Hn.
Qed.

Lemma enter_time_wait_moves pcb s s' : enter_time_wait pcb s = Some (tt, s') -> moves pcb TIME_WAIT s s'.
Proof.
  unfold enter_time_wait, to_time_wait.
  intros ([] & s1 & E1 & ([] & s2 & E2 & ([] & s3 & E3 & E4)%bind_inv)%bind_inv)%bind_inv.
  eapply same_moves; [exact (same_purge _ _ _ _ E1)|]. eapply same_moves; [exact (same_RMV_ACTIVE _ _ _ _ E2)|].
  eapply moves_same; [|exact (same_REG _ _ _ _ _ E4)]. by eapply updt_moves; [..|exact E3].
Qed.

(** ** One segment *)

(** A connection whose last acknowledgement has come is closed: [tcp_input] frees it. *)
Definition tcp_state_of (s : net) (t : tcp_pcb) : tcp_state :=
  if recv_flag s TF_CLOSED then CLOSED else t_state t.

(** The segment acknowledges the SYN of the connection. *)
Definition opens (s : net) (t : tcp_pcb) : bool :=
  match t_state t with
  | SYN_SENT => match seg_seqno (t_unacked t) s with
                | Some (n, _) => g_ackno (n_tcp s) =? u32 (n + 1)
                | None => false
                end
  | _ => TCP_SEQ_BETWEEN (g_ackno (n_tcp s)) (t_lastack t + 1) (t_snd_nxt t)
  end.

(** What the segment of state [s] makes of the connection [pcb] with the block [t]. *)
Definition transition (pcb : Z) (t : tcp_pcb) (s s' : net) : Prop :=
  (forall c, c <> pcb -> st c s' = st c s) /\
  exists t', g_pcb_map (n_tcp s') !! pcb = Some t' /\
    tcp_state_of s' t' =
      lwip_next (n_tcp s) (got_fin s') (flag (n_tcp s) TCP_ACK && (g_ackno (n_tcp s) =? t_snd_nxt t')) (opens s t) (t_state t).

Lemma advance_pcb pcb s s' t : advance pcb s s' -> g_pcb_map (n_tcp s) !! pcb = Some t ->
  exists t', g_pcb_map (n_tcp s') !! pcb = Some t' /\
    (t_state t' = t_state t \/ (t_state t = ESTABLISHED /\ t_state t' = CLOSE_WAIT /\ got_fin s' = true)).
Proof.
  intros (_ & _ & H) Et. unfold st in H. rewrite Et in H.
  destruct (g_pcb_map (n_tcp s') !! pcb) as [t'|]; [|destruct H as [?|(_ & ? & _)]; done].
  exists t'. split; [done|]. destruct H as [[= E]|([= E1] & [= E2] & G)]; [by left|by right].
Qed.

Lemma moves_pcb pcb q s s' t : moves pcb q s s' -> g_pcb_map (n_tcp s) !! pcb = Some t ->
  exists t', g_pcb_map (n_tcp s') !! pcb = Some t' /\ t_state t' = q /\ t_snd_nxt t' = t_snd_nxt t.
Proof.
  intros (_ & H & N & _) Et. unfold st, sn in *. rewrite Et in N.
  destruct (g_pcb_map (n_tcp s') !! pcb) as [t'|]; [|done]. injection H as H. injection N as N. by exists t'.
Qed.

Lemma moves_refl pcb s t : g_pcb_map (n_tcp s) !! pcb = Some t -> moves pcb (t_state t) s s.
Proof. intros E. split; [done|]. split; [|done]. unfold st. by rewrite E. Qed.

Lemma transition_moves pcb t s s2 s' t2 q :
  g_recv_flags (n_tcp s) = 0 -> advance pcb s s2 -> g_pcb_map (n_tcp s2) !! pcb = Some t2 -> moves pcb q s2 s' ->
  lwip_next (n_tcp s) (got_fin s2) (flag (n_tcp s) TCP_ACK && (g_ackno (n_tcp s) =? t_snd_nxt t2)) (opens s t) (t_state t) = q ->
  transition pcb t s s'.
Proof.
  intros F0 (A & F & _) Et2 M <-. destruct (moves_pcb _ _ _ _ _ M Et2) as (t' & Et' & Eq & En).
  destruct M as (A' & _ & _ & F'). split; [intros c Hc; by rewrite A', A|]. exists t'. split; [done|].
  unfold tcp_state_of, got_fin. rewrite <-F' in F. rewrite F0 in F. rewrite (flags_stay 0 TF_CLOSED s' F eq_refl).
  rewrite Eq, En. unfold recv_flag. by rewrite F'.
Qed.

(** The end of the cases of [tcp_process]. *)
Lemma when_moves pcb (b : bool) q (m : NetM unit) s s' t :
  (forall s1, m s = Some (tt, s1) -> moves pcb q s s1) -> g_pcb_map (n_tcp s) !! pcb = Some t ->
  swhen b m s = Some (tt, s') -> moves pcb (if b then q else t_state t) s s'.
Proof. intros Hm Et H. destruct b; [by apply Hm|]. injection H as <-. by apply moves_refl. Qed.

Lemma ack_now_moves pcb q m s s' : (forall s1, m s1 = Some (tt, s') -> moves pcb q s1 s') ->
  (updt pcb tcp_ack_now ;; m) s = Some (tt, s') -> moves pcb q s s'.
Proof.
  intros Hm ([] & s1 & E1 & E2)%bind_inv. eapply same_moves; [|by apply Hm].
  refine (same_updt _ _ _ _ _ _ E1). done.
Qed.

Ltac mstep H :=
  match type of H with
  | (mbind _ _) _ = Some _ =>
      let a := fresh "a" in let s := fresh "s" in let E := fresh "E" in
      apply bind_inv in H as (a & s & E & H); lazymatch type of a with unit => destruct a | _ => idtac end
  end.

Lemma established_transition pcb t s s1 s' r :
  t_state t = ESTABLISHED \/ t_state t = CLOSE_WAIT -> flag (n_tcp s) TCP_RST = false -> flag (n_tcp s) TCP_SYN = false ->
  g_pcb_map (n_tcp s) !! pcb = Some t -> g_recv_flags (n_tcp s) = 0 -> advance pcb s s1 ->
  (tcp_receive pcb ;; fin ← tcpg (fun g => truthy (g_recv_flags g &. TF_GOT_FIN));
   swhen fin (updt pcb (fun t => set_t_state CLOSE_WAIT (tcp_ack_now t))) ;; mret ERR_OK) s1 = Some (r, s') ->
  r = ERR_OK /\ transition pcb t s s'.
Proof.
  intros Hq Hr Hs Et F0 Ha H. mstep H. rename s0 into s2. assert (advance pcb s s2) as Ha2.
  { etrans; [exact Ha|]. exact (advance_receive _ _ _ _ E). }
  mstep H. injection E0 as <- <-. mstep H. injection H as <- <-. split; [done|].
  destruct (advance_pcb _ _ _ _ Ha2 Et) as (t2 & Et2 & Hst).
  eapply (transition_moves _ _ _ s2 _ t2 _ F0 Ha2 Et2).
  { eapply (when_moves _ _ CLOSE_WAIT); [|exact Et2|exact E0]. intros s3. by apply updt_moves. }
  unfold lwip_next. rewrite Hr, Hs. unfold got_fin, recv_flag in *.
  destruct (truthy (g_recv_flags (n_tcp s2) &. TF_GOT_FIN)), Hq as [Hq|Hq]; rewrite Hq in *; simpl;
    destruct Hst as [Hst|(H1 & H2 & H3)]; congruence.
Qed.

(** The other states leave [tcp_receive] as they enter it. *)
Lemma receive_stays pcb t s s1 s2 :
  t_state t <> ESTABLISHED -> g_pcb_map (n_tcp s) !! pcb = Some t -> advance pcb s s1 ->
  tcp_receive pcb s1 = Some (tt, s2) ->
  advance pcb s s2 /\ exists t2, g_pcb_map (n_tcp s2) !! pcb = Some t2 /\ t_state t2 = t_state t.
Proof.
  intros Hq Et Ha E. assert (advance pcb s s2) as Ha2.
  { etrans; [exact Ha|]. exact (advance_receive _ _ _ _ E). }
  split; [done|]. destruct (advance_pcb _ _ _ _ Ha2 Et) as (t2 & Et2 & [Hst|(? & _)]); [by exists t2|done].
Qed.

(** The test of the acknowledgement number. *)
Notation acks_all pcb g := (t ← gett pcb; mret (truthy (g_in_flags g &. TCP_ACK) && (g_ackno g =? t_snd_nxt t))).

Lemma acks_all_inv pcb g s t (b : bool) s' : g_pcb_map (n_tcp s) !! pcb = Some t ->
  (acks_all pcb g : NetM bool) s = Some (b, s') -> s' = s /\ b = flag g TCP_ACK && (g_ackno g =? t_snd_nxt t).
Proof.
  intros Et (t' & s1 & (-> & Et' & _)%gett_inv & [= <- <-])%bind_inv. rewrite Et in Et'. by injection Et' as <-.
Qed.

Section Fin.
Context {pcb : Z} {t : tcp_pcb} {s s1 s' : net} {r : Z}.
Hypothesis Hr : flag (n_tcp s) TCP_RST = false.
Hypothesis Hs : flag (n_tcp s) TCP_SYN = false.
Hypothesis Et : g_pcb_map (n_tcp s) !! pcb = Some t.
Hypothesis F0 : g_recv_flags (n_tcp s) = 0.
Hypothesis Ha : advance pcb s s1.
Let g := n_tcp s.

Lemma fin_wait_1_transition : t_state t = FIN_WAIT_1 ->
  (tcp_receive pcb ;; fin ← tcpg (fun g => truthy (g_recv_flags g &. TF_GOT_FIN));
   acked ← acks_all pcb g;
   (if fin : bool then
      updt pcb tcp_ack_now ;;
      if acked : bool then enter_time_wait pcb else updt pcb (set_t_state CLOSING)
    else swhen acked (updt pcb (set_t_state FIN_WAIT_2))) ;;
   mret ERR_OK) s1 = Some (r, s') ->
  r = ERR_OK /\ transition pcb t s s'.
Proof.
  intros Hq H. mstep H. rename s0 into s2.
  destruct (receive_stays _ _ _ _ _ ltac:(by rewrite Hq) Et Ha E) as (Ha2 & t2 & Et2 & Hq2).
  mstep H. injection E0 as <- <-. mstep H. destruct (acks_all_inv _ _ _ _ _ _ Et2 E0) as [-> ->].
  mstep H. injection H as <- <-. split; [done|]. eapply (transition_moves _ _ _ _ _ t2 _ F0 Ha2 Et2).
  2: { unfold lwip_next. rewrite Hr, Hs, Hq. reflexivity. }
  unfold got_fin, recv_flag. fold g in E1 |- *. destruct (truthy (g_recv_flags (n_tcp s2) &. TF_GOT_FIN)).
  - eapply ack_now_moves; [|exact E1]. intros s3. simpl. case_match; [apply enter_time_wait_moves|by apply updt_moves].
  - rewrite <-Hq, <-Hq2. eapply when_moves; [|done|exact E1]. intros s3. by apply updt_moves.
Qed.

Lemma fin_wait_2_transition : t_state t = FIN_WAIT_2 ->
  (tcp_receive pcb ;; fin ← tcpg (fun g => truthy (g_recv_flags g &. TF_GOT_FIN));
   swhen fin (updt pcb tcp_ack_now ;; enter_time_wait pcb) ;;
   mret ERR_OK) s1 = Some (r, s') ->
  r = ERR_OK /\ transition pcb t s s'.
Proof.
  intros Hq H. mstep H. rename s0 into s2.
  destruct (receive_stays _ _ _ _ _ ltac:(by rewrite Hq) Et Ha E) as (Ha2 & t2 & Et2 & Hq2).
  mstep H. injection E0 as <- <-. mstep H. injection H as <- <-. split; [done|].
  eapply (transition_moves _ _ _ _ _ t2 _ F0 Ha2 Et2).
  2: { unfold lwip_next. rewrite Hr, Hs, Hq. reflexivity. }
  rewrite <-Hq, <-Hq2. eapply when_moves; [|done|exact E0]. intros s3 H.
  eapply ack_now_moves; [|exact H]. intros s4. apply enter_time_wait_moves.
Qed.

Lemma closing_transition : t_state t = CLOSING ->
  (tcp_receive pcb ;; acked ← acks_all pcb g; swhen acked (enter_time_wait pcb) ;; mret ERR_OK) s1 = Some (r, s') ->
  r = ERR_OK /\ transition pcb t s s'.
Proof.
  intros Hq H. mstep H. rename s0 into s2.
  destruct (receive_stays _ _ _ _ _ ltac:(by rewrite Hq) Et Ha E) as (Ha2 & t2 & Et2 & Hq2).
  mstep H. destruct (acks_all_inv _ _ _ _ _ _ Et2 E0) as [-> ->].
  mstep H. injection H as <- <-. split; [done|]. eapply (transition_moves _ _ _ _ _ t2 _ F0 Ha2 Et2).
  2: { unfold lwip_next. rewrite Hr, Hs, Hq. reflexivity. }
  rewrite <-Hq, <-Hq2. eapply when_moves; [|done|exact E1]. intros s3. apply enter_time_wait_moves.
Qed.

Lemma last_ack_transition : t_state t = LAST_ACK ->
  (tcp_receive pcb ;; acked ← acks_all pcb g;
   swhen acked (tcpu (fun g => set_g_recv_flags (g_recv_flags g |. TF_CLOSED) g)) ;; mret ERR_OK) s1 = Some (r, s') ->
  r = ERR_OK /\ transition pcb t s s'.
Proof.
  intros Hq H. mstep H. rename s0 into s2.
  destruct (receive_stays _ _ _ _ _ ltac:(by rewrite Hq) Et Ha E) as (Ha2 & t2 & Et2 & Hq2).
  mstep H. destruct (acks_all_inv _ _ _ _ _ _ Et2 E0) as [-> ->].
  mstep H. injection H as <- <-. split; [done|]. destruct Ha2 as (A & F & _).
  rewrite F0 in F. assert (recv_flag s2 TF_CLOSED = false) as Hc by exact (flags_stay 0 TF_CLOSED s2 F eq_refl).
  unfold transition, lwip_next. rewrite Hr, Hs, Hq.
  destruct (_ && _) eqn:Hk in E1; injection E1 as <-; (split; [exact A|]; exists t2; split; [done|]);
    fold g; rewrite Hk; unfold tcp_state_of.
  - change (recv_flag _ _) with (truthy ((g_recv_flags (n_tcp s2) |. TF_CLOSED) &. TF_CLOSED)).
    by rewrite truthy_or by done.
  - by rewrite Hc, Hq2.
Qed.
End Fin.

(** ** Opening *)

(** The run [E] of a function that changes no state. *)
Ltac kept E :=
  match type of E with
  | _ ?s = Some (_, ?s') =>
      let M := fresh "M" in assert (same t_state s s') as M by (apply (keeps_run _ _ _ _ E); keep); clear E
  end.

Lemma same_state_frame {A} (m : NetM A) : keeps frame m -> keeps (same t_state) m.
Proof. apply keeps_weaken, frame_same. Qed.

Lemma same_state_sn {A} (m : NetM A) : keeps same_sn m -> keeps (same t_state) m.
Proof. apply keeps_weaken, same_state. Qed.

#[export] Hint Extern 6 (keeps (same t_state) _) => apply same_state_frame; solve [eauto 2 with keeps] : keeps.
#[export] Hint Extern 7 (keeps (same t_state) _) => apply same_state_sn; solve [eauto 2 with keeps] : keeps.

Lemma transition_st pcb t s s' q :
  (forall c, c <> pcb -> st c s' = st c s) -> st pcb s' = Some q ->
  g_recv_flags (n_tcp s') ∈ [0; 0 |. TF_GOT_FIN] ->
  (forall k, lwip_next (n_tcp s) (got_fin s') k (opens s t) (t_state t) = q) -> transition pcb t s s'.
Proof.
  intros A S F H. split; [done|]. unfold st in S. destruct (g_pcb_map (n_tcp s') !! pcb) as [t'|] eqn:E; [|done].
  injection S as S. exists t'. split; [done|]. unfold tcp_state_of.
  by rewrite (flags_stay 0 TF_CLOSED s' F eq_refl), S, H.
Qed.

Section App.
Context `{app : tcp_app}.
Hypothesis accept_keeps : forall f arg pcb err, keeps (same t_state) (app_accept f arg pcb err).
Hypothesis connected_keeps : forall f arg pcb err, keeps (same t_state) (app_connected f arg pcb err).

#[local] Hint Resolve accept_keeps connected_keeps : keeps.

Lemma same_event_accept pcb e : keeps (same t_state) (TCP_EVENT_ACCEPT pcb e).
Proof. unfold TCP_EVENT_ACCEPT. keep. Qed.

Lemma same_event_connected pcb e : keeps (same t_state) (TCP_EVENT_CONNECTED pcb e).
Proof. unfold TCP_EVENT_CONNECTED. keep. Qed.

#[local] Hint Resolve same_event_accept same_event_connected : keeps.

Lemma moves_state pcb q s1 s2 s3 : moves pcb q s1 s2 -> same t_state s2 s3 ->
  (forall c, c <> pcb -> st c s3 = st c s1) /\ st pcb s3 = Some q /\ g_recv_flags (n_tcp s3) = g_recv_flags (n_tcp s1).
Proof.
  intros (A & S & _ & F) H. rewrite (same_marks _ _ _ H), (same_st _ _ pcb H). split; [|done].
  intros c Hc. rewrite <-A by done. by apply same_st.
Qed.

Lemma syn_sent_ack_ok pcb s r s' : syn_sent_ack pcb s = Some (r, s') -> r <> ERR_ABRT ->
  r = ERR_OK /\ (forall c, c <> pcb -> st c s' = st c s) /\ st pcb s' = Some ESTABLISHED /\
  g_recv_flags (n_tcp s') = g_recv_flags (n_tcp s).
Proof.
  intros H Hr. unfold syn_sent_ack in H. mstep H. injection E as <- <-. mstep H. mstep H.
  apply (updt_moves _ ESTABLISHED) in E0; [|done..].
  assert (r = ERR_OK /\ same t_state s1 s') as [-> M].
  { do 9 (mstep H; kept E1). mstep H. kept E1. destruct (a4 =? ERR_ABRT); [by injection H as <-|].
    mstep H. kept E1. injection H as <- <-. split; [done|]. repeat (etrans; [eassumption|]). done. }
  kept E. destruct (moves_state _ _ _ _ _ E0 M) as (A & S & F). split; [done|].
  rewrite F, (same_marks _ _ _ M0). split; [|done]. intros c Hc. rewrite A by done. by apply same_st.
Qed.

Lemma syn_rcvd_ack_ok pcb s r s' : g_recv_flags (n_tcp s) = 0 -> syn_rcvd_ack pcb s = Some (r, s') -> r <> ERR_ABRT ->
  r = ERR_OK /\ (forall c, c <> pcb -> st c s' = st c s) /\
  st pcb s' = Some (if got_fin s' then CLOSE_WAIT else ESTABLISHED) /\
  g_recv_flags (n_tcp s') ∈ [0; 0 |. TF_GOT_FIN].
Proof.
  intros F0 H Hr. unfold syn_rcvd_ack in H. mstep H. apply (updt_moves _ ESTABLISHED) in E; [|done..].
  mstep H. kept E0. mstep H. kept E0. mstep H. kept E0.
  destruct (negb (a0 =? ERR_OK)).
  { mstep H. by injection H as <- <-. }
  mstep H. kept E0. assert (same t_state s0 s4) as Ms by (repeat (etrans; [eassumption|]); done).
  destruct (moves_state _ _ _ _ _ E Ms) as (A & S & F). clear E M M0 M1 M2 Ms.
  mstep H. apply advance_receive in E. mstep H. kept E0. apply (same_advance pcb) in M.
  assert (advance pcb s4 s6) as (A' & F' & S') by by etrans. clear E M.
  mstep H. injection E as <- <-. mstep H. injection H as <- <-. split; [done|]. rewrite F, F0 in F'.
  assert (exists q t6, moves pcb q s6 s7 /\ q = (if got_fin s6 then CLOSE_WAIT else t_state t6) /\
                       g_pcb_map (n_tcp s6) !! pcb = Some t6) as (q & t6 & M & Hq & E6).
  { rewrite S in S'. unfold st in S'. destruct (g_pcb_map (n_tcp s6) !! pcb) as [t6|] eqn:E6;
      [|exfalso; naive_solver].
    eexists _, t6. split; [eapply (when_moves _ _ CLOSE_WAIT); [|exact E6|exact E]|done].
    intros s8. by apply updt_moves. }
  destruct M as (A2 & S2 & _ & F2). split; [intros c Hc; by rewrite A2, A', A|].
  unfold got_fin, recv_flag in *. rewrite F2. split; [|done]. rewrite S2, Hq. f_equal.
  rewrite S in S'. unfold st in S'. rewrite E6 in S'. destruct (truthy _); [done|].
  destruct S' as [[= ->]|(_ & _ & ?)]; done.
Qed.
End App.

(** ** All cases *)

(** What [opens] reads is not changed in front of the cases. *)
Definition looks (s s' : net) : Prop := n_mem s' = n_mem s /\ g_seg_map (n_tcp s') = g_seg_map (n_tcp s).

#[export] Instance looks_preorder : PreOrder looks.
Proof. split; [done|]. intros s1 s2 s3 [E1 E2] [E3 E4]. split; congruence. Qed.

Lemma load_le_pure a n m v m' : load_le a n m = Some (v, m') -> m' = m.
Proof.
  intros (bs & m1 & E & [= _ <-])%bind_inv. unfold load in E. cbn in E.
  destruct (read_bytes (ram m) a (Z.to_nat n)); [by injection E|done].
Qed.

Lemma hdrlen_pure h m v m' : TCPH_HDRLEN h m = Some (v, m') -> m' = m.
Proof. by intros (w & m1 & ->%load_le_pure & [= _ <-])%bind_inv. Qed.

Lemma looks_on_mem {A} (m : NM A) : (forall st v st', m st = Some (v, st') -> st' = st) -> keeps looks (on_mem m).
Proof.
  intros H s v s'. unfold on_mem. destruct (m (n_mem s)) as [[w st]|] eqn:E; [|done].
  intros [= _ <-]. by rewrite (H _ _ _ E).
Qed.

Lemma looks_load a n : keeps looks (on_mem (load_le a n)).
Proof. apply looks_on_mem, load_le_pure. Qed.

Lemma looks_hdrlen h : keeps looks (on_mem (TCPH_HDRLEN h)).
Proof. apply looks_on_mem, hdrlen_pure. Qed.

Lemma looks_updt p f : keeps looks (updt p f).
Proof. intros s [] s' (t & s1 & (-> & _)%gett_inv & [= <-])%bind_inv. done. Qed.
#[export] Hint Resolve looks_load looks_hdrlen looks_updt : keeps.

Lemma looks_opt_loop fuel pcb o c m : keeps looks (opt_loop fuel pcb o c m).
Proof. revert c. induction fuel; intros c; cbn [opt_loop]; keep. Qed.
#[export] Hint Resolve looks_opt_loop : keeps.

Lemma looks_parseopt pcb : keeps looks (tcp_parseopt pcb).
Proof. unfold tcp_parseopt, tcpg. keep. Qed.

Lemma looks_seg_seqno p s s1 n s2 : looks s s1 -> seg_seqno p s1 = Some (n, s2) ->
  s2 = s1 /\ exists s3, seg_seqno p s = Some (n, s3).
Proof.
  intros [E1 E2] (b & s4 & H1 & (v & s5 & H2 & [= <- <-])%bind_inv)%bind_inv. unfold gets in H1. rewrite E2 in H1.
  destruct (g_seg_map (n_tcp s) !! p) as [b'|] eqn:Eb; [|done]. injection H1 as -> <-.
  unfold on_mem in H2. rewrite E1 in H2. destruct (load_le _ _ (n_mem s)) as [[w m]|] eqn:El; [|done].
  injection H2 as -> <-. rewrite (load_le_pure _ _ _ _ _ El). split; [rewrite <-E1; by destruct s1|].
  exists s. unfold seg_seqno, gets, mbind, ST_bind. cbn. rewrite Eb. cbn. unfold on_mem. rewrite El.
  cbn. rewrite (load_le_pure _ _ _ _ _ El). by destruct s.
Qed.

Section Process.
Context `{app : tcp_app}.
Hypothesis accept_keeps : forall f arg pcb err, keeps (same t_state) (app_accept f arg pcb err).
Hypothesis connected_keeps : forall f arg pcb err, keeps (same t_state) (app_connected f arg pcb err).

Lemma syn_sent_transition pcb t s s1 r s' :
  t_state t = SYN_SENT -> flag (n_tcp s) TCP_RST = false -> g_pcb_map (n_tcp s) !! pcb = Some t ->
  g_recv_flags (n_tcp s) = 0 -> same t_state s s1 -> looks s s1 ->
  (answer ← (if flag (n_tcp s) TCP_ACK && flag (n_tcp s) TCP_SYN
             then n ← seg_seqno (t_unacked t); mret (g_ackno (n_tcp s) =? u32 (n + 1))
             else mret false);
   if answer : bool then syn_sent_ack pcb
   else swhen (flag (n_tcp s) TCP_ACK) rst_answer ;; mret ERR_OK) s1 = Some (r, s') ->
  r <> ERR_ABRT -> r = ERR_OK /\ transition pcb t s s'.
Proof.
  intros Hq Hr Et F0 Hs Hl H Hne. mstep H.
  assert (s0 = s1 /\ a = flag (n_tcp s) TCP_SYN && flag (n_tcp s) TCP_ACK && opens s t) as [-> Ha].
  { unfold opens. rewrite Hq. destruct (flag (n_tcp s) TCP_ACK), (flag (n_tcp s) TCP_SYN); cbn [andb] in *;
      [|by injection E as <- <-..].
    apply bind_inv in E as (n & s2 & (-> & s3 & ->)%(looks_seg_seqno _ _ _ _ _ Hl) & [= <- <-]). done. }
  clear E. destruct a.
  - apply syn_sent_ack_ok in H as (-> & A & S & F); [|done..]. split; [done|].
    eapply transition_st; [|exact S| |].
    + intros c Hc. rewrite A by done. by apply same_st.
    + rewrite F, (same_marks _ _ _ Hs), F0. by left.
    + intros k. unfold lwip_next. by rewrite Hr, Hq, <-Ha.
  - mstep H. injection H as <- <-. split; [done|].
    assert (same t_state s s0) as Hs0.
    { etrans; [exact Hs|]. apply (keeps_run _ _ _ _ E). unfold rst_answer. keep. }
    eapply (transition_st _ _ _ _ SYN_SENT); [intros c _; by apply same_st| | |].
    + rewrite (same_st _ _ pcb Hs0). unfold st. by rewrite Et, <-Hq.
    + rewrite (same_marks _ _ _ Hs0), F0. by left.
    + intros k. unfold lwip_next. by rewrite Hr, Hq, <-Ha.
Qed.

Lemma syn_rcvd_transition pcb t s s1 r s' :
  t_state t = SYN_RCVD -> flag (n_tcp s) TCP_RST = false -> g_pcb_map (n_tcp s) !! pcb = Some t ->
  g_recv_flags (n_tcp s) = 0 -> same t_state s s1 ->
  (if flag (n_tcp s) TCP_ACK then
     if TCP_SEQ_BETWEEN (g_ackno (n_tcp s)) (t_lastack t + 1) (t_snd_nxt t) then syn_rcvd_ack pcb
     else rst_answer ;; mret ERR_OK
   else
     swhen (flag (n_tcp s) TCP_SYN && (g_seqno (n_tcp s) =? u32 (t_rcv_nxt t - 1))) (tcp_rexmit pcb) ;;
     mret ERR_OK) s1 = Some (r, s') ->
  r <> ERR_ABRT -> r = ERR_OK /\ transition pcb t s s'.
Proof.
  intros Hq Hr Et F0 Hs H Hne.
  assert (opens s t = TCP_SEQ_BETWEEN (g_ackno (n_tcp s)) (t_lastack t + 1) (t_snd_nxt t)) as Ho.
  { unfold opens. by rewrite Hq. }
  destruct (flag (n_tcp s) TCP_ACK && opens s t) eqn:Ha.
  - apply andb_true_iff in Ha as [Hk Ho']. rewrite Hk, <-Ho, Ho' in H.
    apply syn_rcvd_ack_ok in H as (-> & A & S & F); [|by rewrite ?(same_marks _ _ _ Hs)..]. split; [done|].
    eapply transition_st; [|exact S|exact F|].
    + intros c Hc. rewrite A by done. by apply same_st.
    + intros k. unfold lwip_next. by rewrite Hr, Hq, Hk, Ho'.
  - assert (r = ERR_OK /\ same t_state s1 s') as [-> Hs1].
    { rewrite <-Ho in H. destruct (flag (n_tcp s) TCP_ACK); cbn [andb] in Ha; [rewrite Ha in H|];
        mstep H; injection H as <- <-; (split; [done|]); apply (keeps_run _ _ _ _ E); unfold rst_answer; keep. }
    split; [done|]. assert (same t_state s s') as Hs0 by by etrans.
    eapply (transition_st _ _ _ _ SYN_RCVD); [intros c _; by apply same_st| | |].
    + rewrite (same_st _ _ pcb Hs0). unfold st. by rewrite Et, <-Hq.
    + rewrite (same_marks _ _ _ Hs0), F0. by left.
    + intros k. unfold lwip_next. by rewrite Hr, Hq, Ha.
Qed.
End Process.

Section Rfc.
Context `{app : tcp_app}.
Hypothesis accept_keeps : forall f arg pcb err, keeps (same t_state) (app_accept f arg pcb err).
Hypothesis connected_keeps : forall f arg pcb err, keeps (same t_state) (app_connected f arg pcb err).

(** The test of a reset in the code. *)
Definition rst_acceptable (g : tcp_globals) (t : tcp_pcb) : bool :=
  if is_st t SYN_SENT then g_ackno g =? t_snd_nxt t
  else TCP_SEQ_BETWEEN (g_seqno g) (t_rcv_nxt t) (t_rcv_nxt t + t_rcv_wnd t).

(** Nothing but the reset is noted. *)
Lemma transition_none pcb t s s' :
  g_pcb_map (n_tcp s) !! pcb = Some t -> (forall c, st c s' = st c s) -> recv_flag s' TF_CLOSED = false ->
  (forall fin k, lwip_next (n_tcp s) fin k (opens s t) (t_state t) = t_state t) -> transition pcb t s s'.
Proof.
  intros Et A F H. split; [by intros c _|]. specialize (A pcb). unfold st in A. rewrite Et in A.
  destruct (g_pcb_map (n_tcp s') !! pcb) as [t'|]; [|done]. injection A as A. exists t'. split; [done|].
  unfold tcp_state_of. by rewrite F, H.
Qed.

Lemma rst_transition pcb t s s' r :
  flag (n_tcp s) TCP_RST = true -> g_pcb_map (n_tcp s) !! pcb = Some t -> g_recv_flags (n_tcp s) = 0 ->
  (if rst_acceptable (n_tcp s) t then
     nassert (negb (is_st t CLOSED)) ;;
     tcpu (fun g => set_g_recv_flags (g_recv_flags g |. TF_RESET) g) ;;
     updt pcb (del_flag TF_ACK_DELAY) ;;
     mret ERR_RST
   else mret ERR_OK) s = Some (r, s') ->
  r = (if rst_acceptable (n_tcp s) t then ERR_RST else ERR_OK) /\ transition pcb t s s'.
Proof.
  intros Hr Et F0 H. assert (forall fin k o q, lwip_next (n_tcp s) fin k o q = q) as Hn by (intros; unfold lwip_next; by rewrite Hr).
  destruct (rst_acceptable (n_tcp s) t); [|injection H as <- <-].
  - mstep H. kept E. mstep H. injection E as <-. mstep H. kept E. injection H as <- <-. split; [done|].
    pose proof (same_marks _ _ _ M) as F1. pose proof (same_marks _ _ _ M0) as F2.
    apply transition_none; [done| |unfold recv_flag|done].
    + intros c. rewrite (same_st _ _ c M0). exact (same_st _ _ c M).
    + rewrite F2. change (g_recv_flags (n_tcp (set_tcp ?g s0))) with (g_recv_flags g). cbn. by rewrite F1, F0.
  - split; [done|]. apply transition_none; [done|done|unfold recv_flag; by rewrite F0|done].
Qed.

(** When [tcp_process] returns without an abort by the application, the connection is in
    the state that [lwip_next] gives for its former state, the flags of the segment, whether
    the FIN of the peer has arrived in order, and whether the segment acknowledges the SYN
    or everything up to [snd_nxt]; no other connection has changed its state. *)
Lemma tcp_process_next pcb t s r s' :
  g_pcb_map (n_tcp s) !! pcb = Some t -> g_recv_flags (n_tcp s) = 0 ->
  tcp_process pcb s = Some (r, s') -> r <> ERR_ABRT ->
  r = (if flag (n_tcp s) TCP_RST && rst_acceptable (n_tcp s) t then ERR_RST else ERR_OK) /\ transition pcb t s s'.
Proof.
  intros Et F0 H Hne. unfold tcp_process in H. mstep H. injection E as <- <-.
  mstep H. apply gett_inv in E as (-> & Et' & Hl). rewrite Et in Et'. injection Et' as <-.
  fold (flag (n_tcp s) TCP_RST) (flag (n_tcp s) TCP_SYN) (flag (n_tcp s) TCP_ACK) (rst_acceptable (n_tcp s) t) in H.
  destruct (flag (n_tcp s) TCP_RST) eqn:Hr; [by apply rst_transition|]. cbn [andb].
  destruct (flag (n_tcp s) TCP_SYN && negb (is_st t SYN_SENT) && negb (is_st t SYN_RCVD)) eqn:Hs.
  { mstep H. kept E. injection H as <- <-. split; [done|]. apply transition_none; [done|intros c; by apply same_st| |].
    - unfold recv_flag. by rewrite (same_marks _ _ _ M), F0.
    - intros fin k. unfold lwip_next. apply andb_true_iff in Hs as [[-> Hs]%andb_true_iff Hs'].
      rewrite Hr. unfold is_st in *. destruct (t_state t); done. }
  mstep H. pose proof (looks_updt _ _ _ _ _ E) as L1. kept E. mstep H. pose proof (looks_parseopt _ _ _ _ E) as L2.
  kept E. assert (looks s s1) as L by by etrans. assert (same t_state s s1) as Ms by by etrans.
  pose proof (same_advance pcb _ _ Ms) as Ma. clear L1 L2 M M0. unfold is_st in Hs.
  assert (t_state t = CLOSED \/ t_state t = TIME_WAIT -> flag (n_tcp s) TCP_SYN = false ->
          (mret ERR_OK : NetM Z) s1 = Some (r, s') -> r = ERR_OK /\ transition pcb t s s') as Hother.
  { intros Hq Hs' [= <- <-]. split; [done|]. apply transition_none; [done|intros c; by apply same_st| |].
    - unfold recv_flag. by rewrite (same_marks _ _ _ Ms), F0.
    - intros fin k. unfold lwip_next. rewrite Hr, Hs'. by destruct Hq as [-> | ->]. }
  destruct (t_state t) eqn:Hq; try (rewrite !bool_decide_false in Hs by done; rewrite !andb_true_r in Hs); try by (apply Hother; [auto | ..]).
  - by eapply syn_sent_transition.
  - by eapply syn_rcvd_transition.
  - eapply established_transition; by eauto.
  - by eapply fin_wait_1_transition.
  - by eapply fin_wait_2_transition.
  - eapply established_transition; by eauto.
  - by eapply closing_transition.
  - by eapply last_ack_transition.
Qed.

Lemma process_not_listen pcb t s r s' :
  g_pcb_map (n_tcp s) !! pcb = Some t -> tcp_process pcb s = Some (r, s') -> t_state t <> LISTEN.
Proof.
  intros Et H. unfold tcp_process in H. mstep H. injection E as <- <-. mstep H.
  apply gett_inv in E as (-> & Et' & Hl). congruence.
Qed.

(** An accepted reset is noted for [tcp_input], which frees the connection. *)
Lemma reset_noted pcb s s' : tcp_process pcb s = Some (ERR_RST, s') ->
  flag (n_tcp s) TCP_RST = true -> g_recv_flags (n_tcp s) = 0 -> recv_flag s' TF_RESET = true.
Proof.
  intros H Hr F0. unfold tcp_process in H. mstep H. injection E as <- <-.
  mstep H. apply gett_inv in E as (-> & _ & _). cbv zeta in H.
  fold (flag (n_tcp s) TCP_RST) in H. rewrite Hr in H.
  match type of H with (if ?b then _ else _) _ = _ => destruct b end; [|discriminate H].
  mstep H. kept E. mstep H. injection E as <-. mstep H. kept E. injection H as <-.
  pose proof (same_marks _ _ _ M) as F1. unfold recv_flag. rewrite (same_marks _ _ _ M0).
  change (g_recv_flags (n_tcp (set_tcp ?g s0))) with (g_recv_flags g). cbn. by rewrite F1, F0.
Qed.
End Rfc.

(** ** The table of RFC 793 *)

(** What the RFC looks at: the control bits, whether the segment is acceptable (its
    sequence numbers are in the window), whether it acknowledges only what was sent, and our
    SYN or our FIN, and whether the FIN of the peer has arrived with all that precedes it. *)
Record segment_view := SegmentView {
  v_rst : bool;
  v_syn : bool;
  v_ack : bool;
  v_acceptable : bool;
  v_ack_valid : bool;
  v_syn_acked : bool;
  v_fin_acked : bool;
  v_fin : bool;
}.

(** Section 3.9, "SEGMENT ARRIVES".  A reset is sent in answer to a SYN inside of the
    window and ends the connection. *)
Definition rfc_next (v : segment_view) (q : tcp_state) : tcp_state :=
  match q with
  | CLOSED | LISTEN => q
  | SYN_SENT =>
      if v_ack v && negb (v_syn_acked v) then SYN_SENT
      else if v_rst v then (if v_ack v then CLOSED else SYN_SENT)
      else if v_syn v then (if v_ack v then ESTABLISHED else SYN_RCVD)
      else SYN_SENT
  | _ =>
      if negb (v_acceptable v) then q
      else if v_rst v then CLOSED
      else if v_syn v then CLOSED
      else if negb (v_ack v && v_ack_valid v) then q
      else match q with
           | SYN_RCVD => if v_syn_acked v then (if v_fin v then CLOSE_WAIT else ESTABLISHED) else SYN_RCVD
           | ESTABLISHED => if v_fin v then CLOSE_WAIT else ESTABLISHED
           | FIN_WAIT_1 =>
               if v_fin v then (if v_fin_acked v then TIME_WAIT else CLOSING)
               else (if v_fin_acked v then FIN_WAIT_2 else FIN_WAIT_1)
           | FIN_WAIT_2 => if v_fin v then TIME_WAIT else FIN_WAIT_2
           | CLOSING => if v_fin_acked v then TIME_WAIT else CLOSING
           | LAST_ACK => if v_fin_acked v then CLOSED else LAST_ACK
           | _ => q
           end
  end.

(** The test of the sequence number (section 3.3), with offsets modulo 2^32. *)
Definition in_window (seqno len rcv_nxt wnd : Z) : bool :=
  let inside x := u32 (x - rcv_nxt) <? wnd in
  if len =? 0 then (if wnd =? 0 then seqno =? rcv_nxt else inside seqno)
  else if wnd =? 0 then false else inside seqno || inside (seqno + len - 1).

(** The segment of the state [s] for the connection [t], which becomes [t'] in [s'].  The
    last number that will be sent, [snd_lbb], is that of our FIN once there is one. *)
Definition seen (s : net) (t : tcp_pcb) (s' : net) (t' : tcp_pcb) : segment_view :=
  let g := n_tcp s in {|
  v_rst := flag g TCP_RST;
  v_syn := flag g TCP_SYN;
  v_ack := flag g TCP_ACK;
  v_acceptable := in_window (g_seqno g) (g_tcplen g) (t_rcv_nxt t) (t_rcv_wnd t);
  v_ack_valid := TCP_SEQ_LEQ (g_ackno g) (t_snd_nxt t);
  v_syn_acked := match t_state t with
                 | SYN_SENT => g_ackno g =? t_snd_nxt t
                 | _ => TCP_SEQ_BETWEEN (g_ackno g) (t_lastack t + 1) (t_snd_nxt t)
                 end;
  v_fin_acked := g_ackno g =? t_snd_lbb t';
  v_fin := got_fin s' |}.

(** The segments for which lwIP follows the RFC.  In SYN-SENT: all but a reset or a SYN
    without an acknowledgement.  Elsewhere: resets without data whose number is not the
    one behind the window; and acceptable segments without SYN that acknowledge something
    that was sent, when, in the states that wait for the acknowledgement of our FIN, it and
    all before it have been sent and none of it waits to be sent again ([snd_nxt] is then
    [snd_lbb]). *)
Definition conforms (s : net) (t : tcp_pcb) (t' : tcp_pcb) : bool :=
  let g := n_tcp s in
  match t_state t with
  | SYN_SENT => if flag g TCP_RST then flag g TCP_ACK else flag g TCP_ACK || negb (flag g TCP_SYN)
  | _ =>
      if flag g TCP_RST then
        (g_tcplen g =? 0) && ((t_rcv_wnd t =? 0) || negb (u32 (g_seqno g - t_rcv_nxt t) =? t_rcv_wnd t))
      else
        in_window (g_seqno g) (g_tcplen g) (t_rcv_nxt t) (t_rcv_wnd t) && negb (flag g TCP_SYN) &&
        flag g TCP_ACK && TCP_SEQ_LEQ (g_ackno g) (t_snd_nxt t) &&
        match t_state t with
        | FIN_WAIT_1 | CLOSING | LAST_ACK => t_snd_nxt t' =? t_snd_lbb t'
        | _ => true
        end
  end.

(** The state after the segment: an accepted reset makes [tcp_input] free the connection. *)
Definition state_after (r : Z) (s' : net) (t' : tcp_pcb) : tcp_state :=
  if r =? ERR_RST then CLOSED else tcp_state_of s' t'.

Lemma seq_between_offset a b w :
  in_u 32 a -> in_u 32 b -> 0 <= w < 65536 -> TCP_SEQ_BETWEEN a b (b + w) = (u32 (a - b) <=? w).
Proof.
  unfold in_u, TCP_SEQ_BETWEEN, TCP_SEQ_GEQ, TCP_SEQ_LEQ, swrap, wrap. intros Ha Hb Hw.
  rewrite (Z.mod_small a), (Z.mod_small b) by lia. rewrite Zminus_mod_idemp_r, !Zplus_mod_idemp_l.
  change (2 ^ (32 - 1)) with 2147483648 in *. change (2 ^ 32) with 4294967296 in *.
  apply Bool.eq_iff_eq_true. rewrite andb_true_iff, !Z.leb_le. Z.div_mod_to_equations. lia.
Qed.

(** A reset without data. *)
Lemma rst_test_agrees seqno rcv_nxt wnd :
  in_u 32 seqno -> in_u 32 rcv_nxt -> 0 <= wnd < 65536 ->
  (wnd =? 0) || negb (u32 (seqno - rcv_nxt) =? wnd) = true ->
  TCP_SEQ_BETWEEN seqno rcv_nxt (rcv_nxt + wnd) = in_window seqno 0 rcv_nxt wnd.
Proof.
  intros Hs Hr Hw H. rewrite seq_between_offset by done. unfold in_window. cbn [Z.eqb].
  apply Bool.eq_iff_eq_true. unfold in_u, wrap in *. change (2 ^ 32) with 4294967296 in *.
  destruct (Z.eqb_spec wnd 0) as [->|Hne].
  - rewrite Z.leb_le, Z.eqb_eq. Z.div_mod_to_equations. lia.
  - cbn [orb] in H. apply negb_true_iff, Z.eqb_neq in H. rewrite Z.leb_le, Z.ltb_lt. lia.
Qed.

(** The two tables agree. *)
Lemma tables_agree s t s' t' r :
  in_u 32 (g_seqno (n_tcp s)) -> in_u 32 (t_rcv_nxt t) -> 0 <= t_rcv_wnd t < 65536 ->
  opens s t = v_syn_acked (seen s t s' t') -> t_state t <> CLOSED -> t_state t <> LISTEN ->
  conforms s t t' = true ->
  r = (if flag (n_tcp s) TCP_RST && rst_acceptable (n_tcp s) t then ERR_RST else ERR_OK) ->
  tcp_state_of s' t' = lwip_next (n_tcp s) (got_fin s')
    (flag (n_tcp s) TCP_ACK && (g_ackno (n_tcp s) =? t_snd_nxt t')) (opens s t) (t_state t) ->
  state_after r s' t' = rfc_next (seen s t s' t') (t_state t).
Proof.
  intros Hs Hn Hw Ho Hcl Hli Hc Hr Hst. unfold state_after. rewrite Hst, Ho. clear Hst Ho.
  unfold conforms in Hc. unfold rst_acceptable, is_st in Hr.
  destruct (flag (n_tcp s) TCP_RST) eqn:Er.
  - unfold lwip_next. rewrite Er. cbn [andb] in Hr.
    assert (t_state t <> SYN_SENT -> TCP_SEQ_BETWEEN (g_seqno (n_tcp s)) (t_rcv_nxt t) (t_rcv_nxt t + t_rcv_wnd t) =
      v_acceptable (seen s t s' t')) as Hw'.
    { intros Hq. assert ((g_tcplen (n_tcp s) =? 0) && ((t_rcv_wnd t =? 0) ||
        negb (u32 (g_seqno (n_tcp s) - t_rcv_nxt t) =? t_rcv_wnd t)) = true) as H by by destruct (t_state t).
      apply andb_true_iff in H as [H0%Z.eqb_eq H]. unfold seen. cbn [v_acceptable]. rewrite H0. by apply rst_test_agrees. }
    assert (v_rst (seen s t s' t') = true) as Hv by exact Er.
    destruct (t_state t) eqn:Hq; try done.
    2-9: rewrite bool_decide_false, Hw' in Hr by done; unfold rfc_next; rewrite Hv;
      destruct (v_acceptable _); subst r; done.
    rewrite bool_decide_true in Hr by done. unfold rfc_next, seen. cbn [v_ack v_syn_acked v_rst]. rewrite Hq, Hc, Er.
    destruct (_ =? t_snd_nxt t); by subst r.
  - cbn [andb] in Hr. rewrite Hr. change (ERR_OK =? ERR_RST) with false. cbv iota.
    unfold lwip_next, rfc_next, seen. cbn [v_ack v_syn_acked v_rst v_syn v_acceptable v_ack_valid v_fin v_fin_acked]. rewrite Er.
    destruct (t_state t) eqn:Hq; try done.
    { destruct (flag (n_tcp s) TCP_SYN), (flag (n_tcp s) TCP_ACK); try done; cbn [andb negb]; by destruct (_ =? _). }
    all: rewrite !andb_true_iff in Hc; destruct Hc as ((((Hw' & Hsyn%negb_true_iff) & Hack) & Hv) & Hf);
      rewrite Hw', Hsyn, Hack, Hv; cbn [andb negb]; try done;
      apply Z.eqb_eq in Hf; rewrite Hf; by destruct (got_fin s').
Qed.


(** ** Where the code does not follow the RFC *)

(** The segments that [conforms] leaves out, in the two tables. *)
Definition plain (flags : Z) : tcp_globals := set_g_in_flags flags tcp_start.

(** A bare SYN in SYN-SENT, the simultaneous opening of figure 8, is ignored. *)
Example simultaneous_open_ignored fin acked opened a va sa fa f :
  lwip_next (plain TCP_SYN) fin acked opened SYN_SENT = SYN_SENT /\
  rfc_next (SegmentView false true false a va sa fa f) SYN_SENT = SYN_RCVD.
Proof. done. Qed.

(** A SYN inside of the window of an open connection is answered by an ACK, not a reset. *)
Example syn_in_window_kept fin acked opened va sa fa f q :
  q ∈ [ESTABLISHED; FIN_WAIT_1; FIN_WAIT_2; CLOSE_WAIT; CLOSING; LAST_ACK; TIME_WAIT] ->
  lwip_next (plain (TCP_SYN |. TCP_ACK)) fin acked opened q = q /\
  rfc_next (SegmentView false true true true va sa fa f) q = CLOSED.
Proof. rewrite !elem_of_cons, elem_of_nil. naive_solver. Qed.

(** A FIN without ACK is accepted. *)
Example fin_without_ack acked opened va sa fa :
  lwip_next (plain TCP_FIN) true acked opened ESTABLISHED = CLOSE_WAIT /\
  rfc_next (SegmentView false false false true va sa fa true) ESTABLISHED = ESTABLISHED.
Proof. done. Qed.
