(* ===== verification/TcpDemo.v ===== *)
(** * Two boards that talk TCP

    A concrete pair of stacks, one frame at a time, on which the definitions of
    TCP are run: opening, data, closing, and the cases in which the code fails.
    The board [a] connects to port 80 of the board [b]. *)

From S2P Require Import Prelude StateM LwipMem Chksum IpAddr Pbuf TcpData NetState Etharp IpOut Icmp Udp Raw NetTimers TcpBase TcpOut Tcp TcpIn NetInput Packet Frames TcpFrame TcpProcess.

(** An application that takes all data and says so. *)
#[export] Instance reader : tcp_app := {|
  app_accept _ _ pcb _ := tcp_recv pcb 7 ;; mret ERR_OK;
  app_recv _ _ pcb p _ :=
    (if p =? NULL then mret ERR_OK
     else b ← on_mem (getp p); tcp_recved pcb (pb_tot_len b) ;; on_mem (pbuf_free p) ;; mret ERR_OK);
  app_sent _ _ _ _ := mret ERR_OK;
  app_connected _ _ _ _ := mret ERR_OK;
  app_poll _ _ _ := mret ERR_OK;
  app_err _ _ _ := mret tt;
|}.

(** ** The boards *)

Definition pool : list (option Z) := (fun k => Some (20000 + k * 200)) <$> seqZ 0 30.
Definition ram0 : gmap Z Z := list_to_map (zip (seqZ 20000 6000) (repeat 0 6000) ++ zip (seqZ 5000 100) (repeat 0 100)).
Definition host_if : netif :=
  Netif NULL (ip4 192 168 1 5) (ip4 255 255 255 0) (ip4 192 168 1 1) 1500 6 sample_host 35.
Definition arp_of (ip : Z) (mac : list Z) : arp_globals :=
  ArpGlobals (EtharpEntry NULL ip 50 mac ETHARP_STATE_STABLE 3 :: repeat empty_entry 9) 0 ∅.
Definition board (i : netif) (arp : arp_globals) : net :=
  Net (NetMem ram0 ∅ pool 0 [] 0 ∅) {[50 := i]} 50 50 arp [] [] (IpGlobals 7 NULL NULL 0 0)
    (UdpGlobals ∅ NULL 49152 []) (RawGlobals ∅ NULL [] []) tcp_start tmo_start.
Definition board_a : net := board sample_if (arp_of (ip4 192 168 1 5) sample_host).
Definition board_b : net := board host_if (arp_of (ip4 192 168 1 210) sample_mac).

(** The driver: a frame is copied into a new buffer and given to the stack. *)
Definition rx (frame : list Z) : NetM unit :=
  p ← on_mem (mem_malloc (SIZEOF_STRUCT_PBUF + Z.of_nat (length frame)));
  let a := p + 16 in
  on_mem (store a frame) ;;
  supd (fun s => set_mem (set_pbufs (<[p := rambuf a (Z.of_nat (length frame)) 0]> (pbufs (n_mem s))) (n_mem s)) s) ;;
  ethernet_input tcp_input p 50 ;; mret tt.

Fixpoint rxs (fs : list (list Z)) : NetM unit :=
  match fs with [] => mret tt | f :: fs => rx f ;; rxs fs end.

Definition pair : Type := net * net.
Definition on_a {A} (m : NetM A) (ab : pair) : option pair := '(_, a) ← m ab.1; Some (a, ab.2).
Definition on_b {A} (m : NetM A) (ab : pair) : option pair := '(_, b) ← m ab.2; Some (ab.1, b).

(** The frames of one board reach the other. *)
Definition a_to_b (ab : pair) : option pair :=
  on_b (rxs (snd <$> link_sent ab.1)) (set_link [] [] ab.1, ab.2).
Definition b_to_a (ab : pair) : option pair :=
  on_a (rxs (snd <$> link_sent ab.2)) (ab.1, set_link [] [] ab.2).

(** ** A connection *)

Definition pcb_a : Z := 20000.
Definition pcb_b : Z := 20600.

Definition opened : option pair :=
  b ← (p ← tcp_new; tcp_bind p 0 80 ;; l ← tcp_listen_with_backlog p; tcp_accept l 7) board_b;
  a ← (p ← tcp_new; tcp_recv p 7 ;; tcp_connect p (ip4 192 168 1 5) 80 9) board_a;
  Some (a.2, b.2).
Definition syn_received : option pair := ab ← opened; a_to_b ab.
Definition connected : option pair := ab ← syn_received; ab ← b_to_a ab; a_to_b ab.
Definition sent : option pair :=
  ab ← connected;
  ab ← on_a (on_mem (store 5000 [104; 101; 108; 108; 111]) ;; tcp_write pcb_a 5000 5 1 ;; tcp_output pcb_a) ab;
  a_to_b ab.
Definition closing : option pair := ab ← sent; ab ← b_to_a ab; on_a (tcp_close pcb_a) ab.

Definition states_of (s : net) : list (Z * tcp_state) :=
  (fun kv => (kv.1, t_state kv.2)) <$> map_to_list (g_pcb_map (n_tcp s)).
Definition show (o : option pair) : option (list (Z * tcp_state) * list (Z * tcp_state)) :=
  (fun ab => (states_of ab.1, states_of ab.2)) <$> o.
Definition answered : option pair := ab ← closing; ab ← a_to_b ab; b_to_a ab.
Definition closed : option pair := ab ← answered; ab ← on_b (tcp_close pcb_b) ab; ab ← b_to_a ab; a_to_b ab.

(** The three-way handshake, five bytes, and the two halves of the close. *)
Example connection_runs :
  show opened = Some ([(pcb_a, SYN_SENT)], [(20200, LISTEN)]) /\
  show syn_received = Some ([(pcb_a, SYN_SENT)], [(pcb_b, SYN_RCVD); (20200, LISTEN)]) /\
  show connected = Some ([(pcb_a, ESTABLISHED)], [(pcb_b, ESTABLISHED); (20200, LISTEN)]) /\
  show closing = Some ([(pcb_a, FIN_WAIT_1)], [(pcb_b, ESTABLISHED); (20200, LISTEN)]) /\
  show answered = Some ([(pcb_a, FIN_WAIT_2)], [(pcb_b, CLOSE_WAIT); (20200, LISTEN)]) /\
  show closed = Some ([(pcb_a, TIME_WAIT)], [(20200, LISTEN)]).
Proof. vm_compute. repeat split. Qed.

(** ** A step of the state machine *)

(** A segment that acknowledges all the board has sent. *)
Definition all_acked (s : net) (t : tcp_pcb) : net :=
  set_tcp (set_g_hdr 5000 (set_g_in_flags TCP_ACK (set_g_seqno (t_rcv_nxt t)
    (set_g_ackno (t_snd_nxt t) (set_g_tcplen 0 (set_g_recv_flags 0 (n_tcp s))))))) s.

Definition ack_of (o : option pair) : net :=
  match o with
  | Some (a, _) => match g_pcb_map (n_tcp a) !! pcb_a with Some t => all_acked a t | None => a end
  | None => board_a
  end.

(** The board [a] has sent its FIN, and it is acknowledged. *)
Definition fin_acked : net := ack_of closing.

Definition u32_b (x : Z) : bool := (0 <=? x) && (x <? 2 ^ 32).

Lemma u32_b_ok x : u32_b x = true -> in_u 32 x.
Proof. intros [H1%Z.leb_le H2%Z.ltb_lt]%andb_true_iff. done. Qed.

Definition finished (s : net) : bool :=
  match g_pcb_map (n_tcp s) !! pcb_a, tcp_process pcb_a s with
  | Some t, Some (r, s') =>
      match g_pcb_map (n_tcp s') !! pcb_a with
      | Some t' =>
          bool_decide (t_state t = FIN_WAIT_1) && (r =? ERR_OK) && (g_recv_flags (n_tcp s) =? 0) &&
          u32_b (g_seqno (n_tcp s)) && u32_b (t_rcv_nxt t) && (0 <=? t_rcv_wnd t) && (t_rcv_wnd t <? 65536) &&
          conforms s t t' && bool_decide (rfc_next (seen s t s' t') FIN_WAIT_1 = FIN_WAIT_2)
      | None => false
      end
  | _, _ => false
  end.

Lemma reader_accept f arg pcb err : keeps (same t_state) (app_accept f arg pcb err).
Proof. cbn. unfold tcp_recv. keep. Qed.

Lemma reader_connected f arg pcb err : keeps (same t_state) (app_connected f arg pcb err).
Proof. apply keeps_ret. Qed.


(** * Where the code of TCP fails

    Inputs on which the functions of core/tcp.c and core/tcp_out.c do not do what
    they are meant to. *)

(** [tcp_write] accepts a connection in SYN-SENT.  Its largest window is still 0, so
    [mss_local] is 0 and the loop makes empty segments until the queue is full. *)
Example tcp_write_syn_sent :
  (ab ← opened; '(r, s) ← tcp_write pcb_a 5000 5 1 ab.1; Some (r, states_of s)) = Some (ERR_MEM, [(pcb_a, SYN_SENT)]).
Proof. vm_compute. reflexivity. Qed.

(** Once the connection is open the same bytes are taken. *)
Example tcp_write_established :
  (ab ← connected; '(r, s) ← tcp_write pcb_a 5000 5 1 ab.1; Some (r, states_of s)) = Some (ERR_OK, [(pcb_a, ESTABLISHED)]).
Proof. vm_compute. reflexivity. Qed.

(** The end of the stream that was not sent.  The congestion window admits four bytes; four
    more and the FIN wait.  The acknowledgement of the first four is taken for one of the
    FIN, because it is [snd_nxt]: the connection is in FIN-WAIT-2 while the FIN is still in
    the queue.  By the table of the RFC it stays in FIN-WAIT-1. *)
Definition fin_unsent : option pair :=
  ab ← connected;
  on_a (updt pcb_a (set_t_cwnd 4) ;;
        on_mem (store 5000 [1; 2; 3; 4; 5; 6; 7; 8]) ;; tcp_write pcb_a 5000 4 1 ;; tcp_output pcb_a ;;
        tcp_write pcb_a 5004 4 1 ;; tcp_close pcb_a) ab.

Example fin_acked_unsent :
  let s := ack_of fin_unsent in
  (t ← g_pcb_map (n_tcp s) !! pcb_a; '(r, s') ← tcp_process pcb_a s; t' ← g_pcb_map (n_tcp s') !! pcb_a;
   Some (t_state t, state_after r s' t', bool_decide (t_unsent t' = NULL), rfc_next (seen s t s' t') (t_state t))) =
  Some (FIN_WAIT_1, FIN_WAIT_2, false, FIN_WAIT_1).
Proof. vm_compute. reflexivity. Qed.

Section Timers.
Context `{app : tcp_app}.

(** A connection that was visited in this tick: the loop of [tcp_fasttmr] does not go
    on to the next one, so that after a restart it stays at the first. *)
Theorem fast_loop_spins pcb t s fuel :
  pcb <> NULL -> g_pcb_map (n_tcp s) !! pcb = Some t -> t_state t <> LISTEN -> t_last_timer t = g_timer_ctr (n_tcp s) ->
  fast_loop (S fuel) pcb s = fast_loop fuel pcb s.
Proof.
  intros Hp Et Hl Hc. cbn [fast_loop]. rewrite (proj2 (Z.eqb_neq pcb NULL) Hp).
  assert (gett pcb s = Some (t, s)) as Eg.
  { unfold gett, getc, mbind, ST_bind. rewrite Et. cbn. by rewrite bool_decide_false. }
  rewrite (bind_Some _ _ _ _ _ Eg), (bind_Some _ _ s (g_timer_ctr (n_tcp s)) s) by done.
  by rewrite Hc, Z.eqb_refl.
Qed.

Theorem fast_loop_never_returns pcb t s fuel :
  pcb <> NULL -> g_pcb_map (n_tcp s) !! pcb = Some t -> t_state t <> LISTEN -> t_last_timer t = g_timer_ctr (n_tcp s) ->
  fast_loop fuel pcb s = None.
Proof. intros. induction fuel; [done|]. by erewrite fast_loop_spins. Qed.

(** A connection that [tcp_slowtmr] skips does not become [prev]... *)
Theorem slow_skip_keeps_prev prev pcb t s fuel :
  pcb <> NULL -> g_pcb_map (n_tcp s) !! pcb = Some t -> t_state t ∉ [CLOSED; LISTEN; TIME_WAIT] ->
  t_last_timer t = g_timer_ctr (n_tcp s) ->
  slow_active (S fuel) prev pcb s = slow_active fuel prev (t_next t) s.
Proof.
  intros Hp Et Hl Hc. cbn [slow_active]. rewrite (proj2 (Z.eqb_neq pcb NULL) Hp).
  assert (getc pcb s = Some (t, s)) as Eg by (unfold getc; by rewrite Et).
  rewrite (bind_Some _ _ _ _ _ Eg), (bind_Some _ _ s tt s).
  2: { unfold nassert, is_st. rewrite !bool_decide_false by set_solver. done. }
  rewrite (bind_Some _ _ s (g_timer_ctr (n_tcp s)) s) by done. by rewrite Hc, Z.eqb_refl.
Qed.

(** ... and the removal of the connection behind it asserts that it is the first. *)
Theorem unlink_without_prev pcb s :
  g_active_pcbs (n_tcp s) <> pcb -> timer_unlink tcp_active_pcbs NULL pcb s = None.
Proof.
  intros Hn. unfold timer_unlink. rewrite (bind_Some _ _ s (g_active_pcbs (n_tcp s)) s) by done.
  unfold getc, mbind, ST_bind. destruct (g_pcb_map (n_tcp s) !! pcb); [|done]. cbn.
  unfold nassert. by rewrite (proj2 (Z.eqb_neq _ _) Hn).
Qed.
End Timers.
