(* ===== verification/TcpSeq.v ===== *)
(** * Sequence numbers and options

    The comparisons of sequence numbers modulo 2^32, and the loop over the options
    of a segment. *)

From S2P Require Import Prelude StateM LwipMem TcpData Chksum IpAddr Pbuf NetState NetTimers Etharp IpOut Icmp TcpBase TcpOut Tcp TcpIn TcpFrame.

(** ** Comparisons *)

(** The signed difference of two positions less than 2^31 apart. *)
Lemma seq_diff w x y : 0 <= x < 2147483648 -> 0 <= y < 2147483648 ->
  i32 (u32 (u32 (u32 (w + x)) - u32 (u32 (w + y)))) = x - y.
Proof.
  intros Hx Hy. rewrite !wrap_idem by lia.
  assert (u32 (u32 (w + x) - u32 (w + y)) = u32 (x - y)) as ->.
  { unfold wrap. rewrite <-Zminus_mod. f_equal. lia. }
  unfold swrap, wrap. rewrite Zplus_mod_idemp_l. rewrite Z.mod_small; lia.
Qed.

(** On positions of a window of 2^31 bytes that starts anywhere, also where the
    numbers wrap around, the comparisons of sequence numbers are those of the
    positions. *)
Theorem seq_compare w x y z :
  0 <= x < 2147483648 -> 0 <= y < 2147483648 -> 0 <= z < 2147483648 ->
  TCP_SEQ_LT (u32 (w + x)) (u32 (w + y)) = (x <? y) /\
  TCP_SEQ_LEQ (u32 (w + x)) (u32 (w + y)) = (x <=? y) /\
  TCP_SEQ_GT (u32 (w + x)) (u32 (w + y)) = (y <? x) /\
  TCP_SEQ_GEQ (u32 (w + x)) (u32 (w + y)) = (y <=? x) /\
  TCP_SEQ_BETWEEN (u32 (w + x)) (u32 (w + y)) (u32 (w + z)) = (y <=? x) && (x <=? z).
Proof.
  intros Hx Hy Hz. unfold TCP_SEQ_LT, TCP_SEQ_GT, TCP_SEQ_BETWEEN, TCP_SEQ_LEQ, TCP_SEQ_GEQ.
  rewrite !seq_diff by done. split_and!; [..|f_equal]; apply Bool.eq_iff_eq_true;
    rewrite ?Z.ltb_lt, ?Z.leb_le; lia.
Qed.

Lemma seq_compare_witness :
  TCP_SEQ_LT (u32 (4294967290 + 3)) (u32 (4294967290 + 10)) = true /\ u32 (4294967290 + 10) = 4.
Proof.
  destruct (seq_compare 4294967290 3 10 12) as [E _]; [lia..|]. split; [exact E|reflexivity].
Defined.

(** ** Options *)

Lemma load1 st a b : ram st !! a = Some b -> load_le a 1 st = Some (b, st).
Proof.
  intros E. unfold load_le, load, mbind, ST_bind. change (Z.to_nat 1) with 1%nat. cbn [read_bytes]. rewrite E. cbn.
  by rewrite Z.add_0_r.
Qed.

Definition with_pcb (p : Z) (t : tcp_pcb) (s : net) : net := set_tcp (set_g_pcb_map (<[p := t]> (g_pcb_map (n_tcp s))) (n_tcp s)) s.

Lemma on_mem_load1 s a b : ram (n_mem s) !! a = Some b -> on_mem (load_le a 1) s = Some (b, s).
Proof. intros E. unfold on_mem. rewrite (load1 _ _ _ E). by destruct s. Qed.

Lemma updt_eq p f s t : g_pcb_map (n_tcp s) !! p = Some t -> t_state t <> LISTEN -> updt p f s = Some (tt, with_pcb p (f t) s).
Proof.
  intros E Hl. unfold updt, gett, getc, mbind, ST_bind. rewrite E. cbn. by rewrite bool_decide_false.
Qed.

Lemma with_pcb_same p t s : g_pcb_map (n_tcp s) !! p = Some t -> with_pcb p t s = s.
Proof. intros E. unfold with_pcb. rewrite insert_id by done.
  assert (forall g, set_g_pcb_map (g_pcb_map g) g = g) as -> by by intros []. by destruct s. Qed.

(** Nothing of the block changes but its segment size, which stays in range. *)
Definition mss_only (t t' : tcp_pcb) : Prop :=
  t' = set_t_mss (t_mss t') t /\ (t_mss t' = t_mss t \/ 1 <= t_mss t' <= TCP_MSS).

Lemma mss_only_refl t : mss_only t t.
Proof. split; [by destruct t|by left]. Qed.

Lemma opt_mss_range hi lo : 0 <= hi < 256 -> 0 <= lo < 256 ->
  let mss := Z.shiftl hi 8 |. lo in 1 <= (if (TCP_MSS <? mss) || (mss =? 0) then TCP_MSS else mss) <= TCP_MSS.
Proof.
  intros Hh Hl mss. assert (0 <= mss) by (apply Z.lor_nonneg; split; [apply Z.shiftl_nonneg|]; lia).
  change TCP_MSS with 1460 in *. destruct (Z.ltb_spec 1460 mss), (Z.eqb_spec mss 0); simpl; lia.
Qed.

Section Options.
Context (pcb opts max_c : Z).

(** The options can be read, and a byte behind them. *)
Definition readable (s : net) : Prop :=
  forall i, 0 <= i <= max_c -> exists b, ram (n_mem s) !! (opts + i) = Some b /\ 0 <= b < 256.

Lemma read_opt s i : readable s -> 0 <= i <= max_c ->
  exists b, on_mem (load_le (opts + i) 1) s = Some (b, s) /\ 0 <= b < 256.
Proof. intros H Hi. destruct (H i Hi) as (b & E & Hb). exists b. split; [by apply on_mem_load1|done]. Qed.

Definition parsed (m : NetM unit) (t : tcp_pcb) (s : net) : Prop :=
  exists t', m s = Some (tt, with_pcb pcb t' s) /\ mss_only t t'.

Lemma parsed_ret t s : g_pcb_map (n_tcp s) !! pcb = Some t -> parsed (mret tt) t s.
Proof. intros E. exists t. rewrite with_pcb_same by done. split; [done|apply mss_only_refl]. Qed.

Lemma opt_loop_ok fuel : forall s t c,
  g_pcb_map (n_tcp s) !! pcb = Some t -> t_state t <> LISTEN -> readable s ->
  0 <= c -> max_c <= 40 -> Z.max 0 (max_c - c) < Z.of_nat fuel -> parsed (opt_loop fuel pcb opts c max_c) t s.
Proof.
  induction fuel as [|fuel IH]; intros s t c Et Hl Hr Hc Hmax Hf; [lia|]. cbn [opt_loop].
  destruct (Z.ltb_spec c max_c); [|by apply parsed_ret].
  destruct (read_opt s c Hr) as (opt & E0 & H0); [lia|]. destruct (read_opt s (c + 1) Hr) as (len & E1 & H1); [lia|].
  rewrite Z.add_assoc in E1. unfold parsed. rewrite (bind_Some _ _ _ _ _ E0).
  destruct (opt =? 0); [by apply parsed_ret|]. destruct (opt =? 1).
  { rewrite wrap_small by (unfold in_u; lia). apply IH; [done..|lia|done|lia]. }
  destruct (opt =? 2).
  - rewrite (bind_Some _ _ _ _ _ E1). destruct (Z.eqb_spec len 4) as [->|]; [|by apply parsed_ret].
    destruct (Z.ltb_spec max_c (c + 4)); [by apply parsed_ret|]. cbn [negb orb].
    destruct (read_opt s (c + 2) Hr) as (hi & E2 & Hhi); [lia|]. destruct (read_opt s (c + 3) Hr) as (lo & E3 & Hlo); [lia|].
    rewrite Z.add_assoc in E2, E3. rewrite (bind_Some _ _ _ _ _ E2), (bind_Some _ _ _ _ _ E3). cbv zeta.
    pose proof (opt_mss_range hi lo Hhi Hlo) as Hm. cbv zeta in Hm. set (mss := if _ || _ then _ else _) in *.
    rewrite (bind_Some _ _ _ _ _ (updt_eq _ _ _ _ Et Hl)), wrap_small by (unfold in_u; lia).
    destruct (IH (with_pcb pcb (set_t_mss mss t) s) (set_t_mss mss t) (c + 4)) as (t' & E & [M1 M2]);
      [apply lookup_insert_eq|by destruct t|done|lia|done|lia|].
    exists t'. rewrite E. split; [unfold with_pcb; cbn; by rewrite insert_insert_eq|].
    split; [rewrite M1; by destruct t|]. right. by destruct M2 as [->|?]; [destruct t|].
  - rewrite (bind_Some _ _ _ _ _ E1). destruct (Z.eqb_spec len 0); [by apply parsed_ret|].
    rewrite wrap_small by (unfold in_u; lia). apply IH; [done..|lia|done|lia].
Qed.
End Options.

(** C27. Whatever bytes stand in the options of a segment, [tcp_parseopt] returns.  It
    changes nothing but the segment size of the connection, and a size it takes from
    an option is between 1 and [TCP_MSS]. *)
Theorem tcp_parseopt_terminates pcb t s h n :
  g_pcb_map (n_tcp s) !! pcb = Some t -> t_state t <> LISTEN -> g_hdr (n_tcp s) = h ->
  on_mem (TCPH_HDRLEN h) s = Some (n, s) -> n < 16 -> readable (h + TCP_HLEN) (4 * (n - 5)) s ->
  exists t', tcp_parseopt pcb s = Some (tt, with_pcb pcb t' s) /\ mss_only t t'.
Proof.
  intros Et Hl Hh En Hn Hr. unfold tcp_parseopt. rewrite (bind_Some _ _ s h s) by (unfold tcpg, sget; by rewrite Hh).
  rewrite (bind_Some _ _ _ _ _ En). destruct (Z.ltb_spec 5 n); [|by apply parsed_ret].
  replace (Z.shiftl (n - 5) 2) with (4 * (n - 5)) by (rewrite Z.shiftl_mul_pow2 by lia; lia). cbv zeta.
  apply opt_loop_ok; [done..|lia|lia|lia].
Qed.

(** ** Examples *)

(** A header of [n] words with the given options at address 1000. *)
Definition opt_ram (n : Z) (opts : list Z) : gmap Z Z :=
  list_to_map (zip (seqZ 1000 100) (repeat 0 12 ++ [n * 16; 2] ++ repeat 0 6 ++ opts)).
Definition opt_pcb : tcp_pcb := set_t_mss 536 (set_t_state SYN_SENT (new_pcb 64 0 0 0)).
Definition opt_net (n : Z) (opts : list Z) : net :=
  Net (NetMem (opt_ram n opts) ∅ [] 0 [] 0 ∅) ∅ NULL NULL (ArpGlobals [] 0 ∅) [] [] (IpGlobals 0 NULL NULL 0 0)
    (UdpGlobals ∅ NULL 49152 []) (RawGlobals ∅ NULL [] [])
    (set_g_hdr 1000 (set_g_pcb_map {[500 := opt_pcb]} tcp_start)) tmo_start.

Lemma readable_dec opts max_c s :
  Forall (fun i => exists b, ram (n_mem s) !! (opts + i) = Some b /\ 0 <= b < 256) (seqZ 0 (max_c + 1)) -> readable opts max_c s.
Proof. intros H i Hi. apply (proj1 (Forall_forall _ _) H), elem_of_seqZ. lia. Qed.

(** A size of 1400, an unknown option, and the end. *)
Lemma tcp_parseopt_terminates_witness :
  exists t', tcp_parseopt 500 (opt_net 8 [2; 4; 5; 120; 99; 3; 0; 0; 0; 0; 0; 0; 0]) =
    Some (tt, with_pcb 500 t' (opt_net 8 [2; 4; 5; 120; 99; 3; 0; 0; 0; 0; 0; 0; 0])) /\ mss_only opt_pcb t'.
Proof.
  apply (tcp_parseopt_terminates 500 opt_pcb (opt_net 8 [2; 4; 5; 120; 99; 3; 0; 0; 0; 0; 0; 0; 0]) 1000 8);
    [vm_compute; reflexivity|discriminate|reflexivity|vm_compute; reflexivity|lia|].
  apply readable_dec. vm_compute seqZ.
  repeat (apply Forall_cons; split; [eexists; split; [vm_compute; reflexivity|lia]|]). constructor.
Defined.

(** The length of an option whose first byte is the last of the header is read from
    behind the header. *)
Example opt_overread : tcp_parseopt 500 (opt_net 6 [1; 1; 1; 3]) = None.
Proof. vm_compute. reflexivity. Qed.
