(* ===== verification/TimeoutList.v ===== *)
(** * The list of timeouts keeps every deadline

    Every entry of the list of core/timers.c holds its time relative to the entry
    before it.  [agenda] are the absolute deadlines.  [sys_timeout] adds a deadline
    behind all that are not later, [sys_untimeout] takes the first of a handler out,
    and neither moves another one. *)

From Stdlib Require Import Sorting.Sorted.
From S2P Require Import Prelude StateM LwipMem Chksum IpAddr Pbuf TcpData NetState Etharp IpOut Icmp NetTimers TcpBase TcpOut Tcp.

(** ** Deadlines *)

(** A handler and its argument. *)
Definition callback (e : sys_timeo) : Z * Z := (to_h e, to_arg e).

Fixpoint agenda (now : Z) (l : list (Z * sys_timeo)) : list (Z * (Z * Z)) :=
  match l with
  | [] => []
  | (_, e) :: l => (now + to_time e, callback e) :: agenda (now + to_time e) l
  end.

(** A new deadline, behind the equal ones. *)
Fixpoint schedule (d : Z) (x : Z * Z) (q : list (Z * (Z * Z))) : list (Z * (Z * Z)) :=
  match q with
  | [] => [(d, x)]
  | (d', y) :: r => if d <? d' then (d, x) :: q else (d', y) :: schedule d x r
  end.

(** The first deadline of a callback goes. *)
Fixpoint cancel (x : Z * Z) (q : list (Z * (Z * Z))) : list (Z * (Z * Z)) :=
  match q with
  | [] => []
  | (d, y) :: q => if decide (y = x) then q else (d, y) :: cancel x q
  end.

Definition bounded (now : Z) (l : list (Z * sys_timeo)) : Prop :=
  Forall (fun xe => 0 <= to_time xe.2) l /\ Forall (fun dx => dx.1 < 4294967296) (agenda now l).

(** The list in memory and the deadlines it stands for. *)
Definition timeouts (s : net) (q : list (Z * (Z * Z))) : Prop :=
  exists l, lchain to_next (timeo_map (n_tmo s)) (next_timeout (n_tmo s)) l /\ bounded 0 l /\ agenda 0 l = q.

Lemma bounded_cons now x e l : bounded now ((x, e) :: l) <->
  0 <= to_time e /\ now + to_time e < 4294967296 /\ bounded (now + to_time e) l.
Proof. unfold bounded. simpl. rewrite !Forall_cons. naive_solver. Qed.

(** The first entry with another time, and what is in front of it moved by as much. *)
Lemma agenda_shift now x e l d :
  agenda now ((x, e) :: l) = agenda (now + d) ((x, set_to_time (to_time e - d) e) :: l).
Proof. simpl. by replace (now + d + (to_time e - d)) with (now + to_time e) by lia. Qed.

Lemma bounded_shift now x e l d : 0 <= to_time e - d ->
  bounded now ((x, e) :: l) -> bounded (now + d) ((x, set_to_time (to_time e - d) e) :: l).
Proof.
  intros Hd. rewrite !bounded_cons. simpl. intros (H1 & H2 & H3).
  replace (now + d + (to_time e - d)) with (now + to_time e) by lia. split; [lia|]. by split; [lia|].
Qed.

Lemma agenda_least now l : Forall (fun xe => 0 <= to_time xe.2) l -> Forall (fun dx => now <= dx.1) (agenda now l).
Proof.
  revert now. induction l as [|[x e] l IH]; intros now H; [constructor|].
  apply Forall_cons in H as [H Hl]. simpl in *. constructor; [simpl; lia|].
  eapply Forall_impl; [by apply IH|]. simpl. lia.
Qed.

(** The deadlines are in order. *)
Lemma agenda_sorted now l : Forall (fun xe => 0 <= to_time xe.2) l -> Sorted (fun a b => a.1 <= b.1) (agenda now l).
Proof.
  revert now. induction l as [|[x e] l IH]; intros now H; [constructor|].
  apply Forall_cons in H as [H Hl]. simpl. constructor; [by apply IH|].
  destruct l as [|[y f] l]; simpl; constructor. apply Forall_cons in Hl as [Hf _]. simpl in *. lia.
Qed.

(** ** Accesses *)

Notation tmap s := (timeo_map (n_tmo s)).

Lemma get_o_eq t s e : tmap s !! t = Some e -> get_o t s = Some (e, s).
Proof. unfold get_o. by intros ->. Qed.

Lemma put_o_eq t s e : put_o t e s = Some (tt, set_timeo_map (<[t := e]> (tmap s)) s).
Proof. done. Qed.

Lemma upd_o_eq t s e f : tmap s !! t = Some e -> upd_o t f s = Some (tt, set_timeo_map (<[t := f e]> (tmap s)) s).
Proof. intros E. unfold upd_o. by rewrite (bind_Some _ _ _ _ _ (get_o_eq _ _ _ E)). Qed.

(** A node is linked in behind [t]. *)
Lemma lchain_link m p l1 t e l2 n un e' :
  lchain to_next m p (l1 ++ (t, e) :: l2) -> n ∉ (l1 ++ (t, e) :: l2).*1 -> n <> NULL ->
  to_next un = to_next e -> to_next e' = n ->
  lchain to_next (<[t := e']> (<[n := un]> m)) p (l1 ++ (t, e') :: (n, un) :: l2).
Proof.
  intros H Hn Hn0 Eu Ee. destruct (lchain_split_NoDup _ _ _ _ _ _ _ H) as [Ht1 Ht2].
  rewrite fmap_app, fmap_cons in Hn. apply not_elem_of_app in Hn as [Hn1 [Hnt Hn2]%not_elem_of_cons].
  unfold lchain in H. rewrite (cons_middle (t, e)), app_assoc in H. apply lseg_app in H as (r & H1 & H2).
  apply (lseg_update _ _ _ _ _ e _ r).
  - apply lseg_insert; [|done]. rewrite fmap_app. apply not_elem_of_app. split; [done|].
    simpl. intros ?%list_elem_of_singleton. done.
  - done.
  - rewrite fmap_cons. apply not_elem_of_cons. split; [intros E; by apply Hnt|done].
  - rewrite Ee. apply (lchain_push to_next m r); [done|done|done|]. rewrite Eu.
    apply lseg_app in H1 as (r' & _ & H1). simpl in H1. by destruct H1 as (_ & _ & _ & ->).
Qed.

(** ** Adding a timeout *)

Lemma u32_small z : 0 <= z < 4294967296 -> u32 z = z.
Proof. intros H. by apply wrap_small. Qed.

Lemma chain_next m p l1 x e l2 : lchain to_next m p (l1 ++ (x, e) :: l2) ->
  m !! x = Some e /\ x <> NULL /\ lchain to_next m (to_next e) l2.
Proof. intros (r & _ & H)%lseg_app. simpl in H. naive_solver. Qed.

(** The new node behind [t], in front of [x]: the branch of the loop that links it. *)
Lemma timeo_link_ok s p l1 t e l2 n un :
  lchain to_next (tmap s) p (l1 ++ (t, e) :: l2) -> n ∉ (l1 ++ (t, e) :: l2).*1 -> n <> NULL ->
  (put_o n (set_to_next (to_next e) un) ;; upd_o t (set_to_next n)) s =
    Some (tt, set_timeo_map (<[t := set_to_next n e]> (<[n := set_to_next (to_next e) un]> (tmap s))) s) /\
  lchain to_next (<[t := set_to_next n e]> (<[n := set_to_next (to_next e) un]> (tmap s))) p
    (l1 ++ (t, set_to_next n e) :: (n, set_to_next (to_next e) un) :: l2).
Proof.
  intros H Hn Hn0. split; [|by eapply lchain_link]. destruct (chain_next _ _ _ _ _ _ H) as (Et & _).
  rewrite (bind_Some _ _ _ _ _ (put_o_eq _ _ _)). erewrite upd_o_eq; [done|].
  cbn. rewrite lookup_insert_ne; [done|]. intros ->. apply Hn. rewrite fmap_app. set_solver.
Qed.

(** The new node between [t] and a later [x], whose time becomes relative to it. *)
Lemma timeo_link_between s p l1 t e x ex l3 n un now :
  lchain to_next (tmap s) p (l1 ++ (t, e) :: (x, ex) :: l3) -> n ∉ (l1 ++ (t, e) :: (x, ex) :: l3).*1 -> n <> NULL ->
  bounded now ((t, e) :: (x, ex) :: l3) -> 0 <= now -> 0 <= to_time un < to_time ex ->
  exists m lx,
    (upd_o x (fun x => set_to_time (u32 (to_time x - to_time un)) x) ;;
     put_o n (set_to_next x un) ;; upd_o t (set_to_next n)) s = Some (tt, set_timeo_map m s) /\
    lchain to_next m p (l1 ++ lx) /\ bounded now lx /\
    agenda now lx = schedule (now + to_time e + to_time un) (callback un) (agenda now ((t, e) :: (x, ex) :: l3)).
Proof.
  intros H Hn Hn0 Hb Hnow Hun. destruct (chain_next _ _ _ _ _ _ H) as (_ & _ & H2).
  destruct (chain_next (tmap s) p (l1 ++ [(t, e)]) x ex l3) as (Ex & Hx0 & _); [by rewrite <-app_assoc|].
  apply bounded_cons in Hb as (He & He2 & (Hex & Hex2 & Hb3)%bounded_cons).
  rewrite (bind_Some _ _ _ _ _ (upd_o_eq _ _ _ _ Ex)), u32_small by lia.
  set (ex' := set_to_time (to_time ex - to_time un) ex). set (s2 := set_timeo_map (<[x := ex']> (tmap s)) s).
  assert (lchain to_next (tmap s2) p (l1 ++ (t, e) :: (x, ex') :: l3)) as H3.
  { rewrite (cons_middle (t, e)), app_assoc. apply (lchain_set _ _ _ _ _ ex); [by rewrite <-app_assoc|done]. }
  destruct (timeo_link_ok s2 p l1 t e ((x, ex') :: l3) n un H3) as [E Hl]; [by rewrite fmap_app in *|done|].
  assert (to_next e = x) as Hx by apply H2. rewrite Hx in E, Hl. rewrite E.
  assert (now + to_time e + to_time un + (to_time ex - to_time un) = now + to_time e + to_time ex) as Esum by lia.
  eexists _, (_ :: _ :: _ :: l3). split; [reflexivity|]. split; [exact Hl|]. split.
  - rewrite !bounded_cons. cbn. rewrite Esum. split_and!; [lia..|done].
  - cbn. rewrite Esum. destruct (Z.ltb_spec (now + to_time e + to_time un) (now + to_time e)); [lia|].
    destruct (Z.ltb_spec (now + to_time e + to_time un) (now + to_time e + to_time ex)); [done|lia].
Qed.

Lemma timeout_loop_ok l2 : forall fuel s p l1 t e now n un,
  lchain to_next (tmap s) p (l1 ++ (t, e) :: l2) -> n ∉ (l1 ++ (t, e) :: l2).*1 -> n <> NULL ->
  tmap s !! n = Some un -> bounded now ((t, e) :: l2) -> 0 <= now -> to_time e <= to_time un ->
  now + to_time un < 4294967296 -> (length l2 < fuel)%nat ->
  exists m lx, timeout_loop fuel t n s = Some (tt, set_timeo_map m s) /\
    lchain to_next m p (l1 ++ lx) /\ bounded now lx /\
    agenda now lx = schedule (now + to_time un) (callback un) (agenda now ((t, e) :: l2)).
Proof.
  induction l2 as [|[x ex] l3 IH]; intros fuel s p l1 t e now n un H Hn Hn0 En Hb Hnow Hle Hd Hf;
    (destruct fuel as [|fuel]; [simpl in Hf; lia|]); cbn [timeout_loop];
    destruct (chain_next _ _ _ _ _ _ H) as (Et & Ht0 & H2); pose proof (proj1 (bounded_cons _ _ _ _) Hb) as (He & _ & Hb2);
    rewrite (proj2 (Z.eqb_neq t NULL) Ht0), (bind_Some _ _ _ _ _ (get_o_eq _ _ _ Et)),
      (bind_Some _ _ _ _ _ (upd_o_eq _ _ _ _ En)), u32_small by lia;
    set (un1 := set_to_time (to_time un - to_time e) un); set (s1 := set_timeo_map (<[n := un1]> (tmap s)) s);
    rewrite (bind_Some _ _ s1 un1 s1) by (apply get_o_eq; apply lookup_insert_eq).
  - simpl in H2. rewrite H2. change (NULL =? NULL) with true. cbn [negb].
    rewrite (bind_Some _ _ s1 true s1), (bind_Some _ _ s1 tt s1) by done.
    assert (lchain to_next (tmap s1) p (l1 ++ [(t, e)])) as H1 by by apply lseg_insert.
    rewrite <-H2. destruct (timeo_link_ok s1 p l1 t e [] n un1 H1 Hn Hn0) as [-> Hl].
    eexists _, [_; _]. split; [reflexivity|]. split; [exact Hl|]. cbn.
    destruct (Z.ltb_spec (now + to_time un) (now + to_time e)); [lia|].
    replace (now + to_time e + (to_time un - to_time e)) with (now + to_time un) by lia.
    split; [|done]. rewrite !bounded_cons. cbn. split_and!; [lia..|done].
  - assert (lchain to_next (tmap s1) p (l1 ++ (t, e) :: (x, ex) :: l3)) as H1 by by apply lseg_insert.
    destruct (chain_next (tmap s1) p (l1 ++ [(t, e)]) x ex l3) as (Ex & Hx0 & _); [by rewrite <-app_assoc|].
    assert (to_next e = x) as -> by apply H2. rewrite (proj2 (Z.eqb_neq x NULL) Hx0). cbn [negb].
    rewrite (bind_Some _ _ s1 (to_time un1 <? to_time ex) s1) by (by rewrite (bind_Some _ _ _ _ _ (get_o_eq _ _ _ Ex))).
    pose proof (proj1 (bounded_cons _ _ _ _) Hb) as (_ & He2 & _). pose proof (proj1 (bounded_cons _ _ _ _) Hb2) as (Hex & Hex2 & Hb3).
    cbn [swhen].
    assert (now + to_time e + to_time un1 = now + to_time un) as Esum by (cbn; lia).
    destruct (Z.ltb_spec (to_time un1) (to_time ex)) as [Hlt|Hge].
    + destruct (timeo_link_between s1 p l1 t e x ex l3 n un1 now H1 Hn Hn0 Hb Hnow) as (m & lx & E & Hl); [cbn in *; lia|].
      exists m, lx. by rewrite <-Esum.
    + destruct (IH fuel s1 p (l1 ++ [(t, e)]) x ex (now + to_time e) n un1) as (m & lx & E & Hl & Hbx & Ha).
      * by rewrite <-app_assoc.
      * by rewrite <-app_assoc.
      * done.
      * apply lookup_insert_eq.
      * done.
      * lia.
      * lia.
      * lia.
      * simpl in Hf. lia.
      * exists m, ((t, e) :: lx). split; [exact E|]. rewrite <-app_assoc in Hl. split; [exact Hl|].
        split; [rewrite bounded_cons; by split_and!|]. cbn [agenda]. rewrite Ha, Esum. cbn [schedule].
        destruct (Z.ltb_spec (now + to_time un) (now + to_time e)); [lia|done].
Qed.

Lemma not_in_chain m p l n : lchain to_next m p l -> m !! n = None -> n ∉ l.*1.
Proof.
  intros H Hn ([x e] & -> & Hin)%list_elem_of_fmap. destruct (lseg_elem _ _ _ _ _ _ _ H Hin) as [E _]. simpl in Hn. congruence.
Qed.

Lemma timeo_bound_ok s : timeo_bound s = Some (S (size (tmap s)), s).
Proof. done. Qed.

(** C26. [sys_timeout] gives the list of timeouts one more deadline, [msecs] from now,
    behind all that are not later, and leaves every other deadline where it was. *)
Theorem sys_timeout_schedules s q msecs handler arg n r :
  timeouts s q -> 0 <= msecs < 4294967296 ->
  mallocs (n_mem s) = Some n :: r -> n <> NULL -> timeo_map (n_tmo s) !! n = None ->
  exists s', sys_timeout msecs handler arg s = Some (tt, s') /\ timeouts s' (schedule msecs (handler, arg) q).
Proof.
  intros (l & Hl & Hb & <-) Hms Hm Hn0 Hn. unfold sys_timeout.
  set (s1 := set_mem (set_mallocs r (n_mem s)) s). set (un := SysTimeo NULL msecs handler arg).
  set (s2 := set_timeo_map (<[n := un]> (tmap s)) s1).
  rewrite (bind_Some _ _ s n s1) by (unfold on_mem, memp_malloc; by rewrite Hm).
  rewrite (bind_Some _ _ s1 tt s1) by (unfold nassert; by rewrite (proj2 (Z.eqb_neq n NULL) Hn0)).
  rewrite (bind_Some _ _ s1 tt s2), (bind_Some _ _ s2 (next_timeout (n_tmo s)) s2) by done.
  pose proof (not_in_chain _ _ _ _ Hl Hn) as Hnl.
  assert (lchain to_next (tmap s2) (next_timeout (n_tmo s)) l) as H2 by by apply lseg_insert.
  destruct l as [|[t e] l].
  - simpl in Hl. rewrite Hl. change (NULL =? NULL) with true. cbv match. eexists. split; [reflexivity|].
    exists [(n, un)]. split; [|split; [|done]].
    + apply (lchain_push to_next (tmap s) NULL []); [done|apply not_elem_of_nil|done|done].
    + rewrite bounded_cons. cbn. split_and!; [lia..|done].
  - pose proof Hl as (Hp & Ht0 & Et & Hl'). rewrite Hp in *. rewrite (proj2 (Z.eqb_neq t NULL) Ht0).
    assert (tmap s2 !! t = Some e) as Et2 by apply H2.
    rewrite (bind_Some _ _ _ _ _ (get_o_eq _ _ _ Et2)). pose proof (proj1 (bounded_cons _ _ _ _) Hb) as (He & Hd & Hb').
    destruct (Z.ltb_spec msecs (to_time e)) as [Hlt|Hge].
    + rewrite u32_small by lia. set (e' := set_to_time (to_time e - msecs) e).
      rewrite (bind_Some _ _ _ _ _ (upd_o_eq _ _ _ _ Et2)). set (s3 := set_timeo_map (<[t := e']> (tmap s2)) s2).
      assert (tmap s3 !! n = Some un) as En.
      { cbn. rewrite lookup_insert_ne; [apply lookup_insert_eq|]. intros ->. apply Hnl. apply list_elem_of_here. }
      rewrite (bind_Some _ _ _ _ _ (upd_o_eq _ _ _ _ En)). eexists. split; [reflexivity|].
      exists ((n, set_to_next t un) :: (t, e') :: l). split; [|split].
      * apply (lchain_push to_next (tmap s3) t); [|done..].
        by apply (lchain_set to_next (tmap s2) t [] t e l e').
      * rewrite !bounded_cons. cbn. replace (0 + msecs + (to_time e - msecs)) with (0 + to_time e) by lia.
        split_and!; [lia..|done].
      * cbn [agenda schedule]. rewrite (proj2 (Z.ltb_lt msecs (0 + to_time e))) by lia. cbn.
        by replace (0 + msecs + (to_time e - msecs)) with (0 + to_time e) by lia.
    + rewrite (bind_Some _ _ _ _ _ (timeo_bound_ok _)).
      destruct (timeout_loop_ok l (S (size (tmap s2))) s2 t [] t e 0 n un) as (m & lx & E & Hc & Hbx & Ha);
        [done|done|done|apply lookup_insert_eq|done|lia|cbn; lia|cbn; lia| |].
      { pose proof (lchain_size _ _ _ _ H2). simpl in *. lia. }
      eexists. split; [exact E|]. exists lx. split; [|by split]. by change (next_timeout _) with (next_timeout (n_tmo s)); rewrite Hp.
Qed.

(** ** Taking a timeout out *)

(** The time from the start of a list to its end. *)
Fixpoint total (l : list (Z * sys_timeo)) : Z := match l with [] => 0 | (_, e) :: l => to_time e + total l end.

Lemma agenda_app now l1 l2 : agenda now (l1 ++ l2) = agenda now l1 ++ agenda (now + total l1) l2.
Proof.
  revert now. induction l1 as [|[x e] l1 IH]; intros now; cbn; [by rewrite Z.add_0_r|].
  by rewrite IH, Z.add_assoc.
Qed.

Lemma bounded_app now l1 l2 : bounded now (l1 ++ l2) <-> bounded now l1 /\ bounded (now + total l1) l2.
Proof.
  unfold bounded. rewrite agenda_app, !Forall_app. naive_solver.
Qed.

(** The last entry with another [next]. *)
Lemma agenda_relink now l w uw v : agenda now (l ++ [(w, set_to_next v uw)]) = agenda now (l ++ [(w, uw)]).
Proof. by rewrite !agenda_app. Qed.

Definition last_key (l : list (Z * sys_timeo)) : Z := from_option fst NULL (last l).

Lemma bounded_relink now l w uw v : bounded now (l ++ [(w, set_to_next v uw)]) <-> bounded now (l ++ [(w, uw)]).
Proof. unfold bounded. by rewrite agenda_relink, !Forall_app, !Forall_cons. Qed.

Notation next_t s := (next_timeout (n_tmo s)).

(** The entry [t] behind [l1] is linked out. *)
Lemma timeo_unlink_ok s l1 t e l2 :
  lchain to_next (tmap s) (next_t s) (l1 ++ (t, e) :: l2) -> bounded 0 l1 ->
  exists s' l1', (if last_key l1 =? NULL then supd (set_next_timeout (to_next e))
                  else upd_o (last_key l1) (set_to_next (to_next e))) s = Some (tt, s') /\
    lchain to_next (tmap s') (next_t s') (l1' ++ l2) /\ t ∉ (l1' ++ l2).*1 /\ tmap s' !! t = Some e /\
    agenda 0 l1' = agenda 0 l1 /\ total l1' = total l1 /\ bounded 0 l1'.
Proof.
  intros H Hb. destruct (lchain_split_NoDup _ _ _ _ _ _ _ H) as [Ht1 Ht2].
  destruct (chain_next _ _ _ _ _ _ H) as (Et & _ & Hn). unfold last_key.
  destruct l1 as [|[w uw] l0 _] using rev_ind.
  - eexists _, []. split; [reflexivity|]. split; [exact Hn|]. by split.
  - rewrite last_snoc. cbn. rewrite <-app_assoc in H. destruct (chain_next _ _ _ _ _ _ H) as (Ew & Hw & _).
    rewrite (proj2 (Z.eqb_neq w NULL) Hw), (upd_o_eq _ _ _ _ Ew).
    eexists _, (l0 ++ [(w, set_to_next (to_next e) uw)]). split; [reflexivity|].
    rewrite <-app_assoc. split; [exact (lchain_unlink to_next _ _ l0 w uw t e l2 (set_to_next (to_next e) uw) H eq_refl)|].
    rewrite fmap_app in Ht1. apply not_elem_of_app in Ht1 as [Ht0 Htw].
    split; [rewrite !fmap_app; cbn; set_solver|]. split; [cbn; rewrite lookup_insert_ne; [done|set_solver]|].
    rewrite agenda_relink, bounded_relink. split; [done|]. split; [|done].
    clear. induction l0 as [|[x f] l0 IH]; cbn in *; [done|by rewrite IH].
Qed.

(** The time of the entry that is gone goes to the next one. *)
Lemma inherit_ok s l1 t e l2 :
  lchain to_next (tmap s) (next_t s) (l1 ++ l2) -> to_next e = from_option fst NULL (head l2) ->
  t ∉ (l1 ++ l2).*1 -> tmap s !! t = Some e -> bounded (total l1) ((t, e) :: l2) -> 0 <= total l1 ->
  exists s' l2', (swhen (negb (to_next e =? NULL)) (upd_o (to_next e) (fun x => set_to_time (u32 (to_time x + to_time e)) x)) ;;
                  free_o t) s = Some (tt, s') /\
    lchain to_next (tmap s') (next_t s') (l1 ++ l2') /\ bounded (total l1) l2' /\
    agenda (total l1) l2' = agenda (total l1 + to_time e) l2.
Proof.
  intros H En Ht Et (He & Hd & Hb)%bounded_cons H0. destruct l2 as [|[x ex] l2]; cbn in En; rewrite En.
  - change (NULL =? NULL) with true. cbn [negb swhen]. eexists _, []. split; [reflexivity|].
    split; [|done]. by apply lseg_delete.
  - destruct (chain_next _ _ _ _ _ _ H) as (Ex & Hx & _). rewrite (proj2 (Z.eqb_neq x NULL) Hx). cbn [negb swhen].
    apply bounded_cons in Hb as (Hex & Hdx & Hb).
    rewrite (bind_Some _ _ _ _ _ (upd_o_eq _ _ _ _ Ex)), u32_small by lia.
    eexists _, ((x, set_to_time (to_time ex + to_time e) ex) :: l2). split; [reflexivity|].
    assert (total l1 + (to_time ex + to_time e) = total l1 + to_time e + to_time ex) as Esum by lia.
    split; [|rewrite bounded_cons; cbn; rewrite Esum; split; [split_and!; [lia..|done]|done]].
    apply lseg_delete; [by rewrite fmap_app in *|]. by eapply lchain_set.
Qed.

Lemma timeo_chain_head m p l1 t e l2 : lchain to_next m p (l1 ++ (t, e) :: l2) -> to_next e = from_option fst NULL (head l2).
Proof.
  intros (_ & _ & H)%chain_next. destruct l2 as [|[x ex] l2]; [done|]. by destruct H as [-> _].
Qed.

Lemma total_nonneg now l : bounded now l -> 0 <= total l.
Proof. intros [H _]. induction H as [|[x e] l He _ IH]; cbn in *; lia. Qed.

Lemma untimeout_loop_ok handler arg l2 : forall fuel s l1 t,
  lchain to_next (tmap s) (next_t s) (l1 ++ l2) -> lseg to_next (tmap s) t l2 NULL ->
  bounded 0 (l1 ++ l2) -> (length l2 < fuel)%nat ->
  exists s', untimeout_loop fuel t (last_key l1) handler arg s = Some (tt, s') /\
    timeouts s' (agenda 0 l1 ++ cancel (handler, arg) (agenda (total l1) l2)).
Proof.
  induction l2 as [|[t' e] l2 IH]; intros fuel s l1 t H Ht Hb Hf; (destruct fuel as [|fuel]; [simpl in Hf; lia|]);
    cbn [untimeout_loop]; simpl in Ht.
  - rewrite Ht. change (NULL =? NULL) with true. exists s. split; [done|]. exists (l1 ++ []).
    split; [done|]. split; [done|]. by rewrite agenda_app.
  - destruct Ht as (-> & Ht0 & Et & Hl2). rewrite (proj2 (Z.eqb_neq t' NULL) Ht0), (bind_Some _ _ _ _ _ (get_o_eq _ _ _ Et)).
    pose proof (proj1 (bounded_app _ _ _) Hb) as [Hb1 Hb2]. cbn [agenda cancel].
    destruct (decide (callback e = (handler, arg))) as [Eq|Hne].
    + injection Eq as -> ->. rewrite !Z.eqb_refl. cbn [andb].
      destruct (timeo_unlink_ok _ _ _ _ _ H Hb1) as (s1 & l1' & E1 & H1 & Hn1 & Et1 & Ea & Etot & Hb1').
      rewrite (bind_Some _ _ _ _ _ E1).
      destruct (inherit_ok s1 l1' t' e l2 H1) as (s2 & l2' & E2 & H2 & Hb2' & Ea2);
        [by eapply timeo_chain_head|done|done|by rewrite Etot|rewrite Etot; by eapply total_nonneg|].
      exists s2. split; [exact E2|]. exists (l1' ++ l2'). split; [done|].
      rewrite bounded_app, agenda_app, Ea, !Z.add_0_l, Ea2, Etot. rewrite Etot in Hb2'. done.
    + assert ((to_h e =? handler) && (to_arg e =? arg) = false) as ->.
      { apply not_true_is_false. intros [E1%Z.eqb_eq E2%Z.eqb_eq]%andb_true_iff. apply Hne. by rewrite <-E1, <-E2. }
      destruct (IH fuel s (l1 ++ [(t', e)]) (to_next e)) as (s' & E & Hs').
      * by rewrite <-app_assoc.
      * done.
      * by rewrite <-app_assoc.
      * simpl in Hf. lia.
      * unfold last_key in E at 1. rewrite last_snoc in E. exists s'. split; [exact E|].
        rewrite agenda_app, <-app_assoc in Hs'. cbn in Hs'.
        replace (total (l1 ++ [(t', e)])) with (total l1 + to_time e) in Hs'; [exact Hs'|].
        clear. induction l1 as [|[x f] l1 IH]; cbn in *; lia.
Qed.

(** [sys_untimeout] removes the first timeout with the handler and the argument, and
    no other deadline moves. *)
Theorem sys_untimeout_cancels s q handler arg :
  timeouts s q -> exists s', sys_untimeout handler arg s = Some (tt, s') /\ timeouts s' (cancel (handler, arg) q).
Proof.
  intros (l & Hl & Hb & <-). unfold sys_untimeout. rewrite (bind_Some _ _ s (next_t s) s) by done.
  destruct l as [|[t e] l].
  - simpl in Hl. rewrite Hl. exists s. split; [done|]. by exists [].
  - pose proof Hl as (Hp & Ht0 & _). assert (lseg to_next (tmap s) t ((t, e) :: l) NULL) as Hl' by by rewrite <-Hp at 1.
    rewrite Hp, (proj2 (Z.eqb_neq t NULL) Ht0), (bind_Some _ _ _ _ _ (timeo_bound_ok _)).
    apply (untimeout_loop_ok handler arg ((t, e) :: l) _ s [] t Hl Hl' Hb).
    pose proof (lchain_size _ _ _ _ Hl). lia.
Qed.

(** ** Two timeouts *)

Definition waiting : net :=
  Net (NetMem ∅ ∅ [Some 300] 0 [] 0 ∅) ∅ NULL NULL (ArpGlobals [] 0 ∅) [] [] (IpGlobals 0 NULL NULL 0 0)
    (UdpGlobals ∅ NULL 49152 []) (RawGlobals ∅ NULL [] []) tcp_start
    (TmoGlobals {[100 := SysTimeo 200 1000 H_DNS_TIMER NULL; 200 := SysTimeo NULL 4000 H_ARP_TIMER NULL]} 100 false).

Lemma waiting_timeouts : timeouts waiting [(1000, (H_DNS_TIMER, NULL)); (5000, (H_ARP_TIMER, NULL))].
Proof.
  exists [(100, SysTimeo 200 1000 H_DNS_TIMER NULL); (200, SysTimeo NULL 4000 H_ARP_TIMER NULL)].
  split; [by repeat split|]. split; [|done]. rewrite !bounded_cons. cbn. split_and!; [lia..|by split].
Qed.

Lemma sys_timeout_schedules_witness :
  exists s', sys_timeout 1000 H_TCPIP_TCP_TIMER NULL waiting = Some (tt, s') /\
    timeouts s' [(1000, (H_DNS_TIMER, NULL)); (1000, (H_TCPIP_TCP_TIMER, NULL)); (5000, (H_ARP_TIMER, NULL))].
Proof.
  exact (sys_timeout_schedules waiting _ 1000 H_TCPIP_TCP_TIMER NULL 300 [] waiting_timeouts
    ltac:(lia) eq_refl ltac:(discriminate) eq_refl).
Defined.

Lemma sys_untimeout_cancels_witness :
  exists s', sys_untimeout H_DNS_TIMER NULL waiting = Some (tt, s') /\ timeouts s' [(5000, (H_ARP_TIMER, NULL))].
Proof. exact (sys_untimeout_cancels waiting _ H_DNS_TIMER NULL waiting_timeouts). Defined.

(** * The timers of the protocols, and waiting for messages: core/timers.c

    The periodic functions that put themselves into the list of timeouts again,
    and [sys_timeouts_mbox_fetch], in which the network thread waits for a message
    and calls the functions whose time has come.  A call of a function pointer and
    the mailbox are parameters: [fetch] waits for at most the given time and
    returns the time it took, or [SYS_ARCH_TIMEOUT]. *)

Definition SYS_ARCH_TIMEOUT : Z := 4294967295.

Definition tcpip_tcp_timer `{app : tcp_app} (fuel : nat) : NetM unit :=
  tcp_tmr fuel ;;
  g ← tcpg id;
  if truthy (g_active_pcbs g) || truthy (g_tw_pcbs g) then sys_timeout TCP_TMR_INTERVAL H_TCPIP_TCP_TIMER NULL
  else supd (set_tcp_timer_active false).

Definition arp_timer : NetM unit :=
  etharp_tmr ;; sys_timeout ARP_TMR_INTERVAL H_ARP_TIMER NULL.

Definition sys_timeouts_init : NetM unit :=
  sys_timeout ARP_TMR_INTERVAL H_ARP_TIMER NULL ;;
  sys_timeout DNS_TMR_INTERVAL H_DNS_TIMER NULL.

Section Fetch.
Context (fetch : Z -> NetM Z) (call : Z -> Z -> NetM unit).

(** The first timeout leaves the list and its function is called. *)
Definition expire (t : Z) : NetM unit :=
  e ← get_o t;
  supd (set_next_timeout (to_next e)) ;;
  free_o t ;;
  swhen (negb (to_h e =? NULL)) (call (to_h e) (to_arg e)).

Fixpoint sys_timeouts_mbox_fetch (fuel : nat) : NetM unit :=
  match fuel with
  | O => fun _ => None
  | S fuel =>
      first ← sget (fun s => next_timeout (n_tmo s));
      if first =? NULL then _ ← fetch 0; mret tt
      else
        e ← get_o first;
        time_needed ← (if 0 <? to_time e then fetch (to_time e) else mret SYS_ARCH_TIMEOUT);
        if time_needed =? SYS_ARCH_TIMEOUT then
          expire first ;; sys_timeouts_mbox_fetch fuel
        else
          first ← sget (fun s => next_timeout (n_tmo s));
          upd_o first (fun e => set_to_time (if time_needed <? to_time e then u32 (to_time e - time_needed) else 0) e)
  end.
End Fetch.

(** ** What the list looks like afterwards *)

(** Every deadline comes nearer by [w]. *)
Definition sooner (w : Z) (q : list (Z * (Z * Z))) : list (Z * (Z * Z)) := (fun dx => (dx.1 - w, dx.2)) <$> q.

Lemma agenda_sooner now w l : agenda (now - w) l = sooner w (agenda now l).
Proof.
  revert now. induction l as [|[x e] l IH]; intros now; [done|]. unfold sooner in *.
  cbn [agenda]. rewrite fmap_cons, <-IH. cbn [fst snd].
  by replace (now - w + to_time e) with (now + to_time e - w) by lia.
Qed.

Lemma bounded_sooner now w l : 0 <= w -> bounded now l -> bounded (now - w) l.
Proof.
  intros Hw [H1 H2]. split; [done|]. rewrite agenda_sooner. unfold sooner. rewrite Forall_fmap.
  eapply Forall_impl; [exact H2|]. intros [d x]. cbn. lia.
Qed.

(** The head of the list of timeouts. *)
Lemma timeouts_head s d x q : timeouts s ((d, x) :: q) ->
  exists t e, next_timeout (n_tmo s) = t /\ t <> NULL /\ timeo_map (n_tmo s) !! t = Some e /\ to_time e = d /\ callback e = x /\ 0 <= d < 4294967296.
Proof.
  intros ([|[t e] l] & Hl & Hb & Ha); [done|]. destruct Hl as (Hp & Ht & Et & _). cbn in Ha. injection Ha as <- <- _.
  exists t, e. apply bounded_cons in Hb as (? & ? & _). split_and!; [done..|lia|lia].
Qed.

Section FetchOk.
Context (fetch : Z -> NetM Z) (call : Z -> Z -> NetM unit).

(** A message that arrives [w] milliseconds into the wait brings every timeout of
    the list nearer by [w], and none past its time. *)
Theorem mbox_fetch_message fuel s d x q w s1 :
  timeouts s ((d, x) :: q) -> 0 < d -> fetch d s = Some (w, s1) -> n_tmo s1 = n_tmo s -> 0 <= w -> w <> SYS_ARCH_TIMEOUT ->
  exists s', sys_timeouts_mbox_fetch fetch call (S fuel) s = Some (tt, s') /\
    timeouts s' (sooner (Z.min w d) ((d, x) :: q)).
Proof.
  intros Hq Hd E En Hw Hw'. pose proof Hq as (l & Hl & Hb & Ha).
  destruct (timeouts_head _ _ _ _ Hq) as (t & e & Hp & Ht & Et & <- & <- & Hr). cbn [sys_timeouts_mbox_fetch].
  rewrite (bind_Some _ _ s t s) by (by rewrite <-Hp). rewrite (proj2 (Z.eqb_neq t NULL) Ht).
  rewrite (bind_Some _ _ _ _ _ (get_o_eq _ _ _ Et)), (proj2 (Z.ltb_lt 0 (to_time e)) Hd), (bind_Some _ _ _ _ _ E).
  rewrite (proj2 (Z.eqb_neq w SYS_ARCH_TIMEOUT) Hw'). rewrite (bind_Some _ _ s1 t s1) by (by rewrite <-Hp, <-En).
  assert (timeo_map (n_tmo s1) !! t = Some e) as Et1 by by rewrite En.
  rewrite (upd_o_eq _ _ _ _ Et1). eexists. split; [reflexivity|]. destruct l as [|[t' e'] l]; [done|].
  assert (t' = t /\ e' = e) as [-> ->].
  { destruct Hl as (? & _ & Et' & _). split; [congruence|]. rewrite <-Hp in Et. congruence. }
  set (v := if w <? to_time e then u32 (to_time e - w) else 0).
  assert (v = to_time e - Z.min w (to_time e)) as Ev.
  { unfold v. destruct (Z.ltb_spec w (to_time e)); [rewrite u32_small by lia|]; lia. }
  exists ((t, set_to_time v e) :: l). cbn in Ha. injection Ha as Ha. apply bounded_cons in Hb as (He & Hlt & Hb).
  split; [|split].
  - change (lchain to_next (<[t := set_to_time v e]> (tmap s1)) (next_t s1) ((t, set_to_time v e) :: l)). rewrite En.
    by apply (lchain_set to_next (tmap s) (next_t s) [] t e l (set_to_time v e)).
  - rewrite bounded_cons. cbn. rewrite Ev. replace (to_time e - Z.min w (to_time e)) with (0 + to_time e - Z.min w (to_time e)) by lia.
    split_and!; [lia..|]. apply bounded_sooner; [lia|done].
  - unfold sooner. rewrite fmap_cons, <-Ha. cbn. rewrite Ev. f_equal. fold (sooner (Z.min w (to_time e)) (agenda (0 + to_time e) l)).
    rewrite <-agenda_sooner. by replace (0 + (to_time e - w `min` to_time e)) with (0 + to_time e - w `min` to_time e) by lia.
Qed.

(** When the wait for the first timeout is over, its function is called with its
    argument, in a state in which it has left the list and the deadlines of all
    others are nearer by the time that was waited. *)
Theorem expire_calls_first s d h a q :
  timeouts s ((d, (h, a)) :: q) -> h <> NULL ->
  exists s1, expire call (next_timeout (n_tmo s)) s = call h a s1 /\ timeouts s1 (sooner d q) /\ n_tcp s1 = n_tcp s /\ n_mem s1 = n_mem s.
Proof.
  intros Hq Hh. pose proof Hq as (l & Hl & Hb & Ha).
  destruct (timeouts_head _ _ _ _ Hq) as (t & e & Hp & Ht & Et & Hd & Hx & Hr). rewrite Hp. unfold expire.
  rewrite (bind_Some _ _ _ _ _ (get_o_eq _ _ _ Et)). rewrite (bind_Some _ _ s tt (set_next_timeout (to_next e) s)) by done.
  injection Hx as Ex Ey. rewrite Ex, Ey, (proj2 (Z.eqb_neq h NULL) Hh). cbn [negb swhen].
  eexists. split.
  { unfold free_o. rewrite (bind_Some _ _ _ tt (set_timeo_map (delete t (timeo_map (n_tmo s))) (set_next_timeout (to_next e) s))) by done. reflexivity. }
  split; [|done]. destruct l as [|[t' e'] l]; [done|]. pose proof (lchain_NoDup _ _ _ _ Hl) as [Hn _]%NoDup_cons.
  destruct Hl as (Hp' & _ & Et' & Hl). assert (t' = t) as -> by congruence. rewrite Et in Et'. injection Et' as <-.
  apply bounded_cons in Hb as (He & Hlt & Hb). cbn in Ha. injection Ha as _ _ _ Ha. exists l. cbn. split; [|split].
  - by apply lseg_delete.
  - replace 0 with (0 + to_time e - to_time e) by lia. apply bounded_sooner; [lia|done].
  - rewrite <-Ha, <-agenda_sooner. rewrite <-Hd. by replace (0 + to_time e - to_time e) with 0 by lia.
Qed.
End FetchOk.

Lemma mbox_fetch_message_witness :
  exists s', sys_timeouts_mbox_fetch (fun _ => mret 300) (fun _ _ => mret tt) 1 waiting = Some (tt, s') /\
    timeouts s' [(700, (H_DNS_TIMER, NULL)); (4700, (H_ARP_TIMER, NULL))].
Proof.
  exact (mbox_fetch_message (fun _ => mret 300) (fun _ _ => mret tt) 0 waiting 1000 (H_DNS_TIMER, NULL)
    [(5000, (H_ARP_TIMER, NULL))] 300 waiting waiting_timeouts ltac:(lia) eq_refl eq_refl ltac:(lia) ltac:(discriminate)).
Defined.

Lemma expire_calls_first_witness :
  exists s', expire (fun h _ => supd (set_next_timeout h)) 100 waiting = supd (set_next_timeout H_DNS_TIMER) s' /\
    timeouts s' [(4000, (H_ARP_TIMER, NULL))].
Proof.
  destruct (expire_calls_first (fun h _ => supd (set_next_timeout h)) waiting 1000 H_DNS_TIMER NULL
    [(5000, (H_ARP_TIMER, NULL))] waiting_timeouts ltac:(discriminate)) as (s' & E & H & _).
  exists s'. split; [exact E|exact H].
Defined.
