(* ===== verification/KMem.v ===== *)
(** * Blocks of memory: rt_memset, rt_memcpy, rt_memmove of src/kservice.c

    The routines work by words where they can.  They are shown to be the plain
    filling and copying of bytes; [rt_memmove] also on regions that overlap. *)

From S2P Require Import Prelude StateM LwipMem PbufData.

Definition MM := ST (gmap Z Z).

Definition rd (a : Z) : MM Z := fun m => (fun b => (b, m)) <$> m !! a.
Definition wr (a : Z) (bs : list Z) : MM unit := fun m => (fun m' => (tt, m')) <$> write_bytes m a bs.

(** A 32-bit word on the little-endian processor. *)
Definition rd32 (a : Z) : MM Z := fun m => (fun bs => (le_num bs, m)) <$> read_bytes m a 4.
Definition wr32 (a v : Z) : MM unit := wr a (le_bytes 4 v).

Definition LBLOCKSIZE : Z := 4.
Definition UNALIGNED (x : Z) : bool := truthy (x &. (LBLOCKSIZE - 1)).

(** ** Filling *)

Fixpoint memset_blocks (fuel : nat) (a count buffer : Z) : MM (Z * Z) :=
  match fuel with
  | O => fun _ => None
  | S fuel =>
      if LBLOCKSIZE * 4 <=? count then
        wr32 a buffer ;; wr32 (a + 4) buffer ;; wr32 (a + 8) buffer ;; wr32 (a + 12) buffer ;;
        memset_blocks fuel (a + 16) (count - 4 * LBLOCKSIZE) buffer
      else mret (a, count)
  end.

Fixpoint memset_words (fuel : nat) (a count buffer : Z) : MM (Z * Z) :=
  match fuel with
  | O => fun _ => None
  | S fuel =>
      if LBLOCKSIZE <=? count then wr32 a buffer ;; memset_words fuel (a + 4) (count - LBLOCKSIZE) buffer
      else mret (a, count)
  end.

Fixpoint memset_bytes (count : nat) (m d : Z) : MM unit :=
  match count with
  | O => mret tt
  | S count => wr m [d] ;; memset_bytes count (m + 1) d
  end.

Definition rt_memset (s c count : Z) : MM Z :=
  let d := c &. 255 in
  let fuel := S (Z.to_nat count) in
  '(m, count) ←
    (if negb (count <? LBLOCKSIZE) && negb (UNALIGNED s) then
       let buffer := u32 (Z.shiftl d 8) |. d in
       let buffer := buffer |. u32 (Z.shiftl buffer 16) in
       '(a, count) ← memset_blocks fuel s count buffer;
       memset_words fuel a count buffer
     else mret (s, count));
  memset_bytes (Z.to_nat count) m d ;;
  mret s.

(** ** Copying *)

Definition BIGBLOCKSIZE : Z := 16.

Definition copy_word (dst src : Z) : MM unit := v ← rd32 src; wr32 dst v.

Fixpoint memcpy_blocks (fuel : nat) (dst src len : Z) : MM (Z * Z * Z) :=
  match fuel with
  | O => fun _ => None
  | S fuel =>
      if BIGBLOCKSIZE <=? len then
        copy_word dst src ;; copy_word (dst + 4) (src + 4) ;; copy_word (dst + 8) (src + 8) ;;
        copy_word (dst + 12) (src + 12) ;;
        memcpy_blocks fuel (dst + 16) (src + 16) (len - BIGBLOCKSIZE)
      else mret (dst, src, len)
  end.

Fixpoint memcpy_words (fuel : nat) (dst src len : Z) : MM (Z * Z * Z) :=
  match fuel with
  | O => fun _ => None
  | S fuel =>
      if LBLOCKSIZE <=? len then copy_word dst src ;; memcpy_words fuel (dst + 4) (src + 4) (len - LBLOCKSIZE)
      else mret (dst, src, len)
  end.

Fixpoint memcpy_bytes (len : nat) (dst src : Z) : MM unit :=
  match len with
  | O => mret tt
  | S len => b ← rd src; wr dst [b] ;; memcpy_bytes len (dst + 1) (src + 1)
  end.

Definition rt_memcpy (dst src count : Z) : MM Z :=
  let fuel := S (Z.to_nat count) in
  '(d, s, len) ←
    (if negb (count <? BIGBLOCKSIZE) && negb (UNALIGNED src || UNALIGNED dst) then
       '(d, s, len) ← memcpy_blocks fuel dst src count;
       memcpy_words fuel d s len
     else mret (dst, src, count));
  memcpy_bytes (Z.to_nat len) d s ;;
  mret dst.

(** From the last byte to the first. *)
Fixpoint memmove_down (n : nat) (tmp s : Z) : MM unit :=
  match n with
  | O => mret tt
  | S n => b ← rd (s - 1); wr (tmp - 1) [b] ;; memmove_down n (tmp - 1) (s - 1)
  end.

Definition rt_memmove (dest src n : Z) : MM Z :=
  (if (src <? dest) && (dest <? src + n) then memmove_down (Z.to_nat n) (dest + n) (src + n)
   else memcpy_bytes (Z.to_nat n) dest src) ;;
  mret dest.

(** ** Filling is filling *)

Lemma wr_eq a bs m m' : write_bytes m a bs = Some m' -> wr a bs m = Some (tt, m').
Proof. unfold wr. by intros ->. Qed.

(** What is left to fill. *)
Definition fill (m : gmap Z Z) (a n d : Z) (m' : gmap Z Z) : Prop :=
  0 <= n /\ write_bytes m a (replicate (Z.to_nat n) d) = Some m'.

Lemma fill_step m a n d m' k : fill m a n d m' -> 0 <= k <= n ->
  exists m1, wr a (replicate (Z.to_nat k) d) m = Some (tt, m1) /\ fill m1 (a + k) (n - k) d m'.
Proof.
  intros [Hn H] Hk. replace (Z.to_nat n) with (Z.to_nat k + Z.to_nat (n - k))%nat in H by lia.
  rewrite replicate_add, write_bytes_app, length_replicate, Z2Nat.id in H by lia.
  destruct (write_bytes m a _) as [m1|] eqn:E; [|done]. exists m1. split; [by apply wr_eq|]. by split; [lia|].
Qed.

(** The word of four equal bytes. *)
Definition word_of (d : Z) : Z := let b := u32 (Z.shiftl d 8) |. d in b |. u32 (Z.shiftl b 16).

Lemma word_bytes d : is_byte d -> le_bytes 4 (word_of d) = replicate 4 d.
Proof.
  intros Hd. assert (Forall (fun d => le_bytes 4 (word_of d) = replicate 4 d) (seqZ 0 256)) as H.
  { apply (bool_decide_unpack _). vm_compute. exact I. }
  by apply (proj1 (Forall_forall _ _) H), elem_of_seqZ.
Qed.

Lemma wr32_fill m a n d m' : is_byte d -> fill m a n d m' -> 4 <= n ->
  exists m1, wr32 a (word_of d) m = Some (tt, m1) /\ fill m1 (a + 4) (n - 4) d m'.
Proof. intros Hd H Hn. unfold wr32. rewrite word_bytes by done. by apply (fill_step m a n d m' 4). Qed.

Lemma memset_blocks_ok d m' fuel : is_byte d -> forall m a n,
  fill m a n d m' -> n < Z.of_nat fuel ->
  exists a1 n1 m1, memset_blocks fuel a n (word_of d) m = Some (a1, n1, m1) /\ fill m1 a1 n1 d m' /\ n1 <= n.
Proof.
  intros Hd. induction fuel as [|fuel IH]; intros m a n H Hf; [destruct H; lia|]. cbn [memset_blocks].
  destruct (Z.leb_spec (LBLOCKSIZE * 4) n) as [Hn|Hn]; change (LBLOCKSIZE * 4) with 16 in Hn.
  - destruct (wr32_fill m a n d m' Hd H) as (m1 & E1 & H1); [lia|]. rewrite (bind_Some _ _ _ _ _ E1).
    destruct (wr32_fill m1 (a + 4) (n - 4) d m' Hd H1) as (m2 & E2 & H2); [lia|]. rewrite (bind_Some _ _ _ _ _ E2).
    replace (a + 4 + 4) with (a + 8) in H2 by lia.
    destruct (wr32_fill m2 _ _ d m' Hd H2) as (m3 & E3 & H3); [lia|]. rewrite (bind_Some _ _ _ _ _ E3).
    replace (a + 8 + 4) with (a + 12) in H3 by lia.
    destruct (wr32_fill m3 _ _ d m' Hd H3) as (m4 & E4 & H4); [lia|]. rewrite (bind_Some _ _ _ _ _ E4).
    replace (a + 12 + 4) with (a + 16) in H4 by lia. replace (n - 4 - 4 - 4 - 4) with (n - 4 * LBLOCKSIZE) in H4 by (unfold LBLOCKSIZE; lia).
    destruct (IH m4 (a + 16) _ H4) as (a1 & n1 & m5 & E & H5 & Hle); [unfold LBLOCKSIZE; lia|].
    exists a1, n1, m5. split; [done|]. split; [done|]. unfold LBLOCKSIZE in *. lia.
  - exists a, n, m. split; [done|]. by split; [|lia].
Qed.

Lemma memset_words_ok d m' fuel : is_byte d -> forall m a n,
  fill m a n d m' -> n < Z.of_nat fuel ->
  exists a1 n1 m1, memset_words fuel a n (word_of d) m = Some (a1, n1, m1) /\ fill m1 a1 n1 d m'.
Proof.
  intros Hd. induction fuel as [|fuel IH]; intros m a n H Hf; [destruct H; lia|]. cbn [memset_words].
  destruct (Z.leb_spec LBLOCKSIZE n) as [Hn|Hn]; unfold LBLOCKSIZE in *.
  - destruct (wr32_fill m a n d m' Hd H) as (m1 & E1 & H1); [lia|]. rewrite (bind_Some _ _ _ _ _ E1). apply IH; [done|lia].
  - by exists a, n, m.
Qed.

Lemma memset_bytes_ok d n : forall m a m', write_bytes m a (replicate n d) = Some m' -> memset_bytes n a d m = Some (tt, m').
Proof.
  induction n as [|n IH]; intros m a m' H; [by injection H as <-|]. cbn [memset_bytes].
  simpl in H. destruct (m !! a) eqn:E; [|done]. rewrite (bind_Some _ _ m tt (<[a := d]> m)); [by apply IH|].
  apply wr_eq. simpl. by rewrite E.
Qed.

(** [rt_memset] fills exactly the [count] bytes at [s] with the low byte of [c], by
    words or not, and returns [s]. *)
Theorem rt_memset_fills s c count m m' :
  0 <= count -> write_bytes m s (replicate (Z.to_nat count) (c mod 256)) = Some m' ->
  rt_memset s c count m = Some (s, m').
Proof.
  intros Hn H. unfold rt_memset. rewrite land_255. set (d := c mod 256) in *.
  assert (is_byte d) as Hd by (apply Z.mod_pos_bound; lia). assert (fill m s count d m') as Hf by done.
  match goal with |- (?x ≫= _) m = _ => assert (exists a n m1, x m = Some (a, n, m1) /\ fill m1 a n d m') as (a & n & m1 & E & [_ H1]) end.
  { destruct (_ && _); [|by exists s, count, m]. fold (word_of d).
    destruct (memset_blocks_ok d m' (S (Z.to_nat count)) Hd m s count Hf) as (a1 & n1 & m1 & E & H1 & Hle); [lia|].
    rewrite (bind_Some _ _ _ _ _ E). apply memset_words_ok; [done|done|lia]. }
  rewrite (bind_Some _ _ _ _ _ E), (bind_Some _ _ _ _ _ (memset_bytes_ok _ _ _ _ _ H1)). done.
Qed.

(** ** Copying is copying *)

Lemma le_bytes_num bs : Forall is_byte bs -> le_bytes (length bs) (le_num bs) = bs.
Proof.
  induction 1 as [|b bs Hb _ IH]; [done|]. cbn [length le_bytes le_num].
  by rewrite byte_mod, byte_div, IH.
Qed.

Lemma write_is_Some_read m a bs : is_Some (write_bytes m a bs) -> is_Some (read_bytes m a (length bs)).
Proof.
  revert m a. induction bs as [|b bs IH]; intros m a H; [by eexists|]. simpl in *.
  destruct (m !! a) eqn:E; [|by destruct H]. simpl in *. apply IH in H as [r Hr].
  rewrite (read_bytes_ext m) in Hr; [by rewrite Hr; eexists|]. intros i Hi. apply lookup_insert_ne. lia.
Qed.

(** What is left to copy.  The destination does not begin inside of the source behind
    its first byte. *)
Definition copies (m : gmap Z Z) (dst src n : Z) (m' : gmap Z Z) : Prop :=
  0 <= n /\ ~ (src < dst < src + n) /\
  exists bs, read_bytes m src (Z.to_nat n) = Some bs /\ Forall is_byte bs /\ write_bytes m dst bs = Some m'.

Lemma copies_step m dst src n m' k : copies m dst src n m' -> 0 <= k <= n ->
  exists bs m1, read_bytes m src (Z.to_nat k) = Some bs /\ Forall is_byte bs /\ write_bytes m dst bs = Some m1 /\
    copies m1 (dst + k) (src + k) (n - k) m'.
Proof.
  intros (Hn & Hd & bs & Hr & Hb & Hw) Hk. replace (Z.to_nat n) with (Z.to_nat k + Z.to_nat (n - k))%nat in Hr by lia.
  apply read_bytes_app in Hr as (b1 & b2 & -> & H1 & H2). pose proof (read_bytes_length _ _ _ _ H1) as L1.
  pose proof (read_bytes_length _ _ _ _ H2) as L2.
  rewrite write_bytes_app in Hw. destruct (write_bytes m dst b1) as [m1|] eqn:E; [|done]. simpl in Hw.
  apply Forall_app in Hb as [Hb1 Hb2]. exists b1, m1. do 3 (split; [done|]). split; [lia|]. split; [intros [? ?]; apply Hd; lia|].
  exists b2. rewrite L1, Z2Nat.id in * by lia. split_and!; [|done|done].
  rewrite (read_write_frame _ _ _ _ _ _ E); [done|]. lia.
Qed.

Lemma copy_word_ok m dst src n m' : copies m dst src n m' -> 4 <= n ->
  exists m1, copy_word dst src m = Some (tt, m1) /\ copies m1 (dst + 4) (src + 4) (n - 4) m'.
Proof.
  intros H Hn. destruct (copies_step _ _ _ _ _ 4 H) as (bs & m1 & Hr & Hb & Hw & H1); [lia|].
  exists m1. split; [|done]. unfold copy_word. rewrite (bind_Some _ _ m (le_num bs) m).
  - unfold wr32. apply wr_eq. change 4%nat with (Z.to_nat 4). rewrite <-(read_bytes_length _ _ _ _ Hr). by rewrite le_bytes_num.
  - unfold rd32. change (Z.to_nat 4) with 4%nat in Hr. by rewrite Hr.
Qed.

Lemma memcpy_blocks_ok m' fuel : forall m dst src n,
  copies m dst src n m' -> n < Z.of_nat fuel ->
  exists d1 s1 n1 m1, memcpy_blocks fuel dst src n m = Some (d1, s1, n1, m1) /\ copies m1 d1 s1 n1 m' /\ n1 <= n.
Proof.
  induction fuel as [|fuel IH]; intros m dst src n H Hf; [destruct H; lia|]. cbn [memcpy_blocks]. unfold BIGBLOCKSIZE in *.
  destruct (Z.leb_spec 16 n) as [Hn|Hn].
  - destruct (copy_word_ok _ _ _ _ _ H) as (m1 & E1 & H1); [lia|]. rewrite (bind_Some _ _ _ _ _ E1).
    destruct (copy_word_ok _ _ _ _ _ H1) as (m2 & E2 & H2); [lia|]. rewrite (bind_Some _ _ _ _ _ E2).
    rewrite <-!Z.add_assoc in H2. destruct (copy_word_ok _ _ _ _ _ H2) as (m3 & E3 & H3); [lia|]. rewrite (bind_Some _ _ _ _ _ E3).
    rewrite <-!Z.add_assoc in H3. destruct (copy_word_ok _ _ _ _ _ H3) as (m4 & E4 & H4); [lia|]. rewrite (bind_Some _ _ _ _ _ E4).
    rewrite <-!Z.add_assoc in H4. replace (n - 4 - 4 - 4 - 4) with (n - 16) in H4 by lia.
    destruct (IH _ _ _ _ H4) as (d1 & s1 & n1 & m5 & E & H5 & Hle); [lia|].
    exists d1, s1, n1, m5. split; [exact E|]. split; [done|lia].
  - exists dst, src, n, m. split; [done|]. by split; [|lia].
Qed.

Lemma memcpy_words_ok m' fuel : forall m dst src n,
  copies m dst src n m' -> n < Z.of_nat fuel ->
  exists d1 s1 n1 m1, memcpy_words fuel dst src n m = Some (d1, s1, n1, m1) /\ copies m1 d1 s1 n1 m'.
Proof.
  induction fuel as [|fuel IH]; intros m dst src n H Hf; [destruct H; lia|]. cbn [memcpy_words]. unfold LBLOCKSIZE in *.
  destruct (Z.leb_spec 4 n) as [Hn|Hn]; [|by exists dst, src, n, m].
  destruct (copy_word_ok _ _ _ _ _ H) as (m1 & E1 & H1); [lia|]. rewrite (bind_Some _ _ _ _ _ E1). apply IH; [done|lia].
Qed.

Lemma rd_eq m a b : m !! a = Some b -> rd a m = Some (b, m).
Proof. unfold rd. by intros ->. Qed.

Lemma memcpy_bytes_ok m' n : forall m dst src,
  ~ (src < dst < src + Z.of_nat n) ->
  (exists bs, read_bytes m src n = Some bs /\ write_bytes m dst bs = Some m') -> memcpy_bytes n dst src m = Some (tt, m').
Proof.
  induction n as [|n IH]; intros m dst src Hd (bs & Hr & Hw); [injection Hr as <-; by injection Hw as <-|].
  destruct bs as [|b bs]; [by apply read_bytes_length in Hr|]. apply read_bytes_S in Hr as [Hb Hr]. cbn [memcpy_bytes].
  rewrite (bind_Some _ _ _ _ _ (rd_eq _ _ _ Hb)). simpl in Hw. destruct (m !! dst) eqn:E; [|done].
  rewrite (bind_Some _ _ m tt (<[dst := b]> m)); [|apply wr_eq; simpl; by rewrite E].
  apply IH; [lia|]. exists bs. split; [|done]. rewrite (read_bytes_ext m); [done|].
  intros i Hi. rewrite lookup_insert_ne; [done|lia].
Qed.

(** [rt_memcpy] writes to [dst] the [count] bytes that stood at [src], by words or not,
    and nothing else, if [dst] is not behind the start of the source inside of it. *)
Theorem rt_memcpy_copies dst src count m bs m' :
  0 <= count -> ~ (src < dst < src + count) ->
  read_bytes m src (Z.to_nat count) = Some bs -> Forall is_byte bs -> write_bytes m dst bs = Some m' ->
  rt_memcpy dst src count m = Some (dst, m').
Proof.
  intros Hn Hd Hr Hb Hw. unfold rt_memcpy. assert (copies m dst src count m') as H by (split_and!; [done|done|by exists bs]).
  match goal with |- (?x ≫= _) m = _ =>
    assert (exists d s n m1, x m = Some (d, s, n, m1) /\ copies m1 d s n m') as (d & s & n & m1 & E & H1 & H2 & bs1 & Hr1 & _ & Hw1) end.
  { destruct (_ && _); [|by exists dst, src, count, m].
    destruct (memcpy_blocks_ok m' (S (Z.to_nat count)) m dst src count H) as (d1 & s1 & n1 & m1 & E & H1 & Hle); [lia|].
    rewrite (bind_Some _ _ _ _ _ E). apply memcpy_words_ok; [done|lia]. }
  rewrite (bind_Some _ _ _ _ _ E). rewrite (bind_Some _ _ m1 tt m'); [done|].
  apply memcpy_bytes_ok; [lia|]. by exists bs1.
Qed.

Lemma memmove_down_ok n : forall m dst src bs,
  src < dst -> read_bytes m src n = Some bs -> is_Some (write_bytes m dst bs) ->
  exists m', memmove_down n (dst + Z.of_nat n) (src + Z.of_nat n) m = Some (tt, m') /\ write_bytes m dst bs = Some m'.
Proof.
  induction n as [|n IH]; intros m dst src bs Hd Hr Hw.
  - injection Hr as <-. by exists m.
  - replace (S n) with (n + 1)%nat in Hr by lia. apply read_bytes_app in Hr as (b1 & b2 & -> & H1 & H2).
    destruct b2 as [|b [|? ?]]; [by apply read_bytes_length in H2| |by apply read_bytes_length in H2].
    apply read_bytes_S in H2 as [Hb _]. cbn [memmove_down].
    replace (src + Z.of_nat (S n) - 1) with (src + Z.of_nat n) by lia.
    replace (dst + Z.of_nat (S n) - 1) with (dst + Z.of_nat n) by lia.
    rewrite (bind_Some _ _ _ _ _ (rd_eq _ _ _ Hb)). pose proof (read_bytes_length _ _ _ _ H1) as L1.
    destruct Hw as [m2 Hw]. pose proof Hw as Hw'. rewrite write_bytes_app, L1 in Hw.
    destruct (write_bytes m dst b1) as [m3|] eqn:E3; [|done]. cbn [mbind option_bind write_bytes] in Hw.
    destruct (m3 !! (dst + Z.of_nat n)) as [b0|] eqn:E0; [|done]. injection Hw as Hw.
    assert (m !! (dst + Z.of_nat n) = Some b0) as E0'.
    { rewrite (write_bytes_lookup _ _ _ _ _ E3) in E0. by rewrite decide_False in E0 by lia. }
    set (m1 := <[dst + Z.of_nat n := b]> m).
    rewrite (bind_Some _ _ m tt m1) by (apply wr_eq; simpl; by rewrite E0').
    destruct (IH m1 dst src b1 Hd) as (m4 & E4 & Hw4).
    + rewrite (read_bytes_ext m); [done|]. intros i Hi. apply lookup_insert_ne. lia.
    + apply write_bytes_Some. rewrite L1, (read_bytes_ext m).
      * rewrite <-L1. apply write_is_Some_read. by eexists.
      * intros i Hi. apply lookup_insert_ne. lia.
    + exists m4. split; [exact E4|]. rewrite Hw'. f_equal. rewrite <-Hw. apply map_eq. intros i.
      rewrite (write_bytes_lookup _ _ _ _ _ Hw4). destruct (decide (i = dst + Z.of_nat n)) as [->|Hi].
      * rewrite lookup_insert_eq, decide_False by lia. unfold m1. by rewrite lookup_insert_eq.
      * rewrite lookup_insert_ne by done. rewrite (write_bytes_lookup _ _ _ _ _ E3). unfold m1.
        by rewrite lookup_insert_ne by done.
Qed.

(** C33. [rt_memmove] writes to [dest] the [n] bytes that stood at [src] before the call, also
    where the two regions overlap. *)
Theorem rt_memmove_moves dest src n m bs m' :
  0 <= n -> read_bytes m src (Z.to_nat n) = Some bs -> write_bytes m dest bs = Some m' ->
  rt_memmove dest src n m = Some (dest, m').
Proof.
  intros Hn Hr Hw. unfold rt_memmove. destruct (Z.ltb_spec src dest), (Z.ltb_spec dest (src + n)); cbn [andb].
  2-4: rewrite (bind_Some _ _ m tt m'); [done|]; apply memcpy_bytes_ok; [lia|by exists bs].
  destruct (memmove_down_ok (Z.to_nat n) m dest src bs) as (m1 & E & Hw1); [done|done|by eexists|].
  rewrite Z2Nat.id in E by done. rewrite (bind_Some _ _ _ _ _ E). rewrite Hw in Hw1. by injection Hw1 as ->.
Qed.

(** ** Examples *)

Definition bytes_at (a : Z) (bs : list Z) : gmap Z Z := list_to_map (zip (seqZ a (Z.of_nat (length bs))) bs).

(** Twenty-two bytes: one block, one word, two bytes. *)
Lemma rt_memset_fills_witness :
  exists m', rt_memset 8 511 22 (bytes_at 8 (repeat 1 30)) = Some (8, m') /\ m' !! 29 = Some 255 /\ m' !! 30 = Some 1.
Proof.
  destruct (write_bytes (bytes_at 8 (repeat 1 30)) 8 (replicate 22 (511 mod 256))) as [m'|] eqn:E;
    [|vm_compute in E; discriminate E].
  exists m'. split; [apply (rt_memset_fills 8 511 22 _ m'); [lia|exact E]|].
  rewrite !(write_bytes_lookup _ _ _ _ _ E). by vm_compute.
Defined.

Lemma rt_memcpy_copies_witness :
  exists m', rt_memcpy 100 8 23 (bytes_at 8 (seqZ 0 30) ∪ bytes_at 100 (repeat 0 30)) = Some (100, m') /\ m' !! 122 = Some 22.
Proof.
  set (m := bytes_at 8 (seqZ 0 30) ∪ bytes_at 100 (repeat 0 30)).
  destruct (write_bytes m 100 (seqZ 0 23)) as [m'|] eqn:E; [|vm_compute in E; discriminate E].
  exists m'. split.
  - apply (rt_memcpy_copies 100 8 23 m (seqZ 0 23) m'); [lia|lia|vm_compute; reflexivity| |exact E].
    apply Forall_forall. intros x Hx%elem_of_seqZ. unfold is_byte. lia.
  - rewrite (write_bytes_lookup _ _ _ _ _ E). by vm_compute.
Defined.

(** Overlapping regions, upwards. *)
Lemma rt_memmove_moves_witness :
  exists m', rt_memmove 12 8 20 (bytes_at 8 (seqZ 0 30)) = Some (12, m') /\ m' !! 31 = Some 19.
Proof.
  destruct (write_bytes (bytes_at 8 (seqZ 0 30)) 12 (seqZ 0 20)) as [m'|] eqn:E; [|vm_compute in E; discriminate E].
  exists m'. split.
  - apply (rt_memmove_moves 12 8 20 _ (seqZ 0 20) m'); [lia|vm_compute; reflexivity|exact E].
  - rewrite (write_bytes_lookup _ _ _ _ _ E). by vm_compute.
Defined.
