(* ===== verification/Printf.v ===== *)
(** * Formatted output: rt_vsnprintf of src/kservice.c

    [rt_vsnprintf] with the numbers of [print_number], in the configuration of the
    file (precisions, no long long, no prefixes).  The format and the strings are
    sequences of characters; the output goes to memory at a pointer that advances
    also where nothing is stored.  [loop_text] is what the loop writes as a sequence of
    characters, and [vsnprintf_stores] says that it is stored, cut to the buffer; what a
    format means is said in PrintfSpec. *)

From Stdlib Require Import Strings.String Strings.Ascii.
From S2P Require Import Prelude StateM LwipMem Chksum PbufData.

(** The characters of a string. *)
Definition codes (s : string) : list Z := (fun c => Z.of_nat (Ascii.nat_of_ascii c)) <$> list_ascii_of_string s.

(** The memory and [str]. *)
Definition PM := ST (gmap Z Z * Z).

(** A value of the argument list: an integer, or a string, [None] for a null pointer. *)
Inductive va := VInt (n : Z) | VStr (s : option (list Z)).

Definition ZEROPAD : Z := 1.
Definition SIGN : Z := 2.
Definition PLUS : Z := 4.
Definition SPACE : Z := 8.
Definition LEFT : Z := 16.
Definition SPECIAL : Z := 32.
Definition LARGE : Z := 64.

Definition has (flags f : Z) : bool := truthy (flags &. f).

Definition isdigit (c : Z) : bool := u32 (c - 48) <? 10.

(** The quotient and the remainder. *)
Definition divide (n base : Z) : Z * Z :=
  let b := if base =? 10 then 10 else 16 in (u32 n mod b, i32 (u32 n / b)).

Fixpoint skip_atoi (i : Z) (s : list Z) : Z * list Z :=
  match s with
  | c :: s' => if isdigit c then skip_atoi (i32 (i * 10 + c - 48)) s' else (i, s)
  | [] => (i, [])
  end.

(** ** Output *)

Section Out.
(** [end] *)
Context (e : Z).

(** [if (str <= end) *str = c; ++ str;]; the text is shorter than the address space, so that
    [str] does not wrap around. *)
Definition emit (c : Z) : PM unit := fun '(m, str) =>
  if str <=? e then (fun m => (tt, (m, str + 1))) <$> write_bytes m str [c] else Some (tt, (m, str + 1)).

Fixpoint emits (l : list Z) : PM unit :=
  match l with [] => mret tt | c :: l => emit c ;; emits l end.

Definition pos : PM Z := fun s => Some (s.2, s).

(** [while (size-- > 0)]; the size after the loop. *)
Definition pad (c size : Z) : PM Z := emits (replicate (Z.to_nat size) c) ;; mret (Z.min size 0 - 1).

Definition digit (large : bool) (d : Z) : Z := if d <? 10 then 48 + d else if large then 55 + d else 87 + d.

Fixpoint digits_loop (fuel : nat) (large : bool) (num base : Z) : list Z :=
  match fuel with
  | O => []
  | S fuel => if num =? 0 then [] else let '(res, n) := divide num base in digit large res :: digits_loop fuel large n base
  end.

Definition print_number (num base s precision type : Z) : PM unit :=
  let type := if has type LEFT then type &~ ZEROPAD else type in
  let c := if has type ZEROPAD then 48 else 32 in
  let sign := if has type SIGN then if num <? 0 then 45 else if has type PLUS then 43 else if has type SPACE then 32 else 0 else 0 in
  let num := if has type SIGN && (num <? 0) then i32 (- num) else num in
  let tmp := if num =? 0 then [48] else digits_loop 16 (has type LARGE) num base in
  let i := Z.of_nat (length tmp) in
  let precision := if precision <? i then i else precision in
  let size := s - precision in
  size ← (if negb (has type (ZEROPAD |. LEFT))
          then pad 32 (if negb (sign =? 0) && (0 <? size) then size - 1 else size)
          else mret size);
  size ← (if sign =? 0 then mret size
          else str ← pos; emit sign ;; mret (if str <=? e then size - 1 else size));
  size ← (if has type LEFT then mret size else pad c size);
  emits (replicate (Z.to_nat (precision - i)) 48) ;;
  emits (rev tmp) ;;
  pad 32 size ;; mret tt.

(** ** Directives *)

Fixpoint parse_flags (flags : Z) (fmt : list Z) : Z * list Z :=
  match fmt with
  | 45 :: f => parse_flags (flags |. LEFT) f
  | 43 :: f => parse_flags (flags |. PLUS) f
  | 32 :: f => parse_flags (flags |. SPACE) f
  | 35 :: f => parse_flags (flags |. SPECIAL) f
  | 48 :: f => parse_flags (flags |. ZEROPAD) f
  | f => (flags, f)
  end.

Definition next_int (args : list va) : option (Z * list va) :=
  match args with VInt n :: args => Some (i32 n, args) | _ => None end.

Definition parse_width (flags : Z) (fmt : list Z) (args : list va) : option (Z * Z * list Z * list va) :=
  if isdigit (hd 0 fmt) then let '(w, f) := skip_atoi 0 fmt in Some (w, flags, f, args)
  else if hd 0 fmt =? 42 then
    '(w, args) ← next_int args;
    Some (if w <? 0 then (i32 (- w), flags |. LEFT, tl fmt, args) else (w, flags, tl fmt, args))
  else Some (-1, flags, fmt, args).

Definition parse_precision (fmt : list Z) (args : list va) : option (Z * list Z * list va) :=
  if hd 0 fmt =? 46 then
    let fmt := tl fmt in
    '(p, f, args) ←
      (if isdigit (hd 0 fmt) then let '(p, f) := skip_atoi 0 fmt in Some (p, f, args)
       else if hd 0 fmt =? 42 then '(p, args) ← next_int args; Some (p, tl fmt, args)
       else Some (-1, fmt, args));
    Some (if p <? 0 then 0 else p, f, args)
  else Some (-1, fmt, args).

Definition parse_qualifier (fmt : list Z) : Z * list Z :=
  if (hd 0 fmt =? 104) || (hd 0 fmt =? 108) then (hd 0 fmt, tl fmt) else (0, fmt).

(** The argument of an integer conversion, as the [long] that [print_number] gets. *)
Definition int_arg (flags qualifier : Z) (n : Z) : Z :=
  if qualifier =? 104 then let n := u16 n in i32 (if has flags SIGN then i16 n else n) else i32 (u32 n).

Definition put_char (flags width c : Z) : PM unit :=
  width ← (if has flags LEFT then mret width
           else emits (replicate (Z.to_nat (width - 1)) 32) ;; mret (Z.min (width - 1) 0));
  emit (u8 c) ;;
  emits (replicate (Z.to_nat (width - 1)) 32).

Definition null_string : list Z := [40; 78; 85; 76; 76; 41].

Definition put_string (flags width precision : Z) (s : option (list Z)) : PM unit :=
  let s := default null_string s in
  let len := Z.of_nat (length s) in
  let len := if (0 <? precision) && (precision <? len) then precision else len in
  width ← (if has flags LEFT then mret width
           else emits (replicate (Z.to_nat (width - len)) 32) ;; mret (Z.min width len - 1));
  emits (take (Z.to_nat len) s) ;;
  emits (replicate (Z.to_nat (width - len)) 32).

(** One conversion: base and flags of the integer ones. *)
Definition int_conv (conv flags : Z) : option (Z * Z) :=
  if conv =? 111 then Some (8, flags)
  else if conv =? 88 then Some (16, flags |. LARGE)
  else if conv =? 120 then Some (16, flags)
  else if (conv =? 100) || (conv =? 105) then Some (10, flags |. SIGN)
  else if conv =? 117 then Some (10, flags)
  else None.

Definition put_conv (conv flags width precision qualifier : Z) (args : list va) : PM (list va) :=
  if conv =? 99 then
    '(c, args) ← slift (next_int args); put_char flags width c ;; mret args
  else if conv =? 115 then
    match args with VStr s :: args => put_string flags width precision s ;; mret args | _ => fun _ => None end
  else if conv =? 112 then
    '(n, args) ← slift (next_int args);
    (if width =? -1 then print_number n 16 8 precision (flags |. ZEROPAD) else print_number n 16 width precision flags) ;;
    mret args
  else if conv =? 37 then emit 37 ;; mret args
  else
    match int_conv conv flags with
    | Some (base, flags) =>
        '(n, args) ← slift (next_int args);
        print_number (int_arg flags qualifier n) base width precision flags ;; mret args
    | None => emit 37 ;; (if conv =? 0 then mret tt else emit conv) ;; mret args
    end.

Fixpoint vsn_loop (fuel : nat) (fmt : list Z) (args : list va) : PM unit :=
  match fuel with
  | O => fun _ => None
  | S fuel =>
      match fmt with
      | [] => mret tt
      | c :: fmt =>
          if negb (c =? 37) then emit c ;; vsn_loop fuel fmt args
          else
            let '(flags, fmt) := parse_flags 0 fmt in
            '(width, flags, fmt, args) ← slift (parse_width flags fmt args);
            '(precision, fmt, args) ← slift (parse_precision fmt args);
            let '(qualifier, fmt) := parse_qualifier fmt in
            args ← put_conv (hd 0 fmt) flags width precision qualifier args;
            vsn_loop fuel (tl fmt) args
      end
  end.
End Out.

Definition rt_vsnprintf (buf size : Z) (fmt : list Z) (args : list va) : ST (gmap Z Z) Z := fun m =>
  let e := u32 (buf + size - 1) in
  let e := if e <? buf then 4294967295 else e in
  '(_, (m, str)) ← vsn_loop e (S (length fmt)) fmt args (m, buf);
  (fun m => (i32 (str - buf), m)) <$> write_bytes m (if str <=? e then str else e) [0].

Definition rt_snprintf := rt_vsnprintf.
Definition rt_vsprintf (buf : Z) := rt_vsnprintf buf 4294967295.
Definition rt_sprintf := rt_vsprintf.

(** ** The text of the loop

    A step towards the specification in PrintfSpec: the loop of [rt_vsnprintf] with the same
    readers of directives, but with the sequence of its characters as the result. *)

(** The digits of a number, most significant first. *)
Fixpoint num_digits (fuel : nat) (large : bool) (base n : Z) : list Z :=
  match fuel with
  | O => []
  | S fuel => if n <? base then [digit large n] else num_digits fuel large base (n / base) ++ [digit large (n mod base)]
  end.

Definition spaces (n : Z) : list Z := replicate (Z.to_nat n) 32.
Definition zeros (n : Z) : list Z := replicate (Z.to_nat n) 48.

(** A number: the sign, at least [precision] digits, and [width] characters in all, the
    gap on the left, between sign and digits, or on the right. *)
Definition number_text (num base width precision flags : Z) : list Z :=
  let signed := has flags SIGN in
  let sg := if signed && (num <? 0) then [45]
            else if signed && has flags PLUS then [43] else if signed && has flags SPACE then [32] else [] in
  let ds := num_digits 16 (has flags LARGE) (if base =? 10 then 10 else 16)
              (if signed then Z.abs num else u32 num) in
  let body := zeros (precision - Z.of_nat (length ds)) ++ ds in
  let gap := width - Z.of_nat (length sg) - Z.of_nat (length body) in
  if has flags LEFT then sg ++ body ++ spaces gap
  else if has flags ZEROPAD then sg ++ zeros gap ++ body
  else spaces gap ++ sg ++ body.

(** A text in a field. *)
Definition field (flags width : Z) (s : list Z) : list Z :=
  let gap := width - Z.of_nat (length s) in
  if has flags LEFT then s ++ spaces gap else spaces gap ++ s.

Definition conv_text (conv flags width precision qualifier : Z) (args : list va) : option (list Z * list va) :=
  if conv =? 99 then '(c, args) ← next_int args; Some (field flags width [u8 c], args)
  else if conv =? 115 then
    match args with
    | VStr s :: args =>
        let s := default null_string s in
        Some (field flags width (if 0 <? precision then take (Z.to_nat precision) s else s), args)
    | _ => None
    end
  else if conv =? 112 then
    '(n, args) ← next_int args;
    Some (if width =? -1 then number_text n 16 8 precision (flags |. ZEROPAD) else number_text n 16 width precision flags, args)
  else if conv =? 37 then Some ([37], args)
  else
    match int_conv conv flags with
    | Some (base, flags) => '(n, args) ← next_int args; Some (number_text (int_arg flags qualifier n) base width precision flags, args)
    | None => Some (37 :: if conv =? 0 then [] else [conv], args)
    end.

Fixpoint loop_text (fuel : nat) (fmt : list Z) (args : list va) : option (list Z) :=
  match fuel with
  | O => None
  | S fuel =>
      match fmt with
      | [] => Some []
      | c :: fmt =>
          if negb (c =? 37) then out ← loop_text fuel fmt args; Some (c :: out)
          else
            let '(flags, fmt) := parse_flags 0 fmt in
            '(width, flags, fmt, args) ← parse_width flags fmt args;
            '(precision, fmt, args) ← parse_precision fmt args;
            let '(qualifier, fmt) := parse_qualifier fmt in
            '(out, args) ← conv_text (hd 0 fmt) flags width precision qualifier args;
            rest ← loop_text fuel (tl fmt) args;
            Some (out ++ rest)
      end
  end.

(** ** Numbers *)

Lemma option_bind_inv {A B} (o : option A) (f : A -> option B) b :
  (x ← o; f x) = Some b -> exists a, o = Some a /\ f a = Some b.
Proof. destruct o as [a|]; [|done]. by exists a. Qed.

Lemma has_or t f g : has t (f |. g) = has t f || has t g.
Proof.
  unfold has, truthy. rewrite Z.land_lor_distr_r.
  destruct (Z.eqb_spec (t &. f) 0) as [->|H1]; [by rewrite Z.lor_0_l|].
  destruct (Z.eqb_spec ((t &. f) |. (t &. g)) 0) as [H%Z.lor_eq_0_iff|]; [by destruct H|done].
Qed.

Lemma has_diff t f g : f &. g = 0 -> has (t &~ f) g = has t g.
Proof.
  intros H. unfold has. f_equal. apply Z.bits_inj'. intros n Hn.
  apply (f_equal (fun z => Z.testbit z n)) in H. rewrite !Z.land_spec, Z.ldiff_spec in *. rewrite Z.bits_0 in H.
  destruct (Z.testbit t n), (Z.testbit f n), (Z.testbit g n); done.
Qed.

Lemma has_diff_self t f : has (t &~ f) f = false.
Proof.
  unfold has. replace ((t &~ f) &. f) with 0; [done|]. apply Z.bits_inj'. intros n Hn.
  rewrite Z.land_spec, Z.ldiff_spec, Z.bits_0. by destruct (Z.testbit t n), (Z.testbit f n).
Qed.

Lemma i32_u32 n : u32 (i32 n) = u32 n.
Proof.
  unfold swrap, wrap. change (2 ^ (32 - 1)) with 2147483648. change (2 ^ 32) with 4294967296.
  Z.div_mod_to_equations. lia.
Qed.

Lemma digits_loop_ok large base fuel : forall num, let b := if base =? 10 then 10 else 16 in
  u32 num <> 0 -> u32 num < b ^ Z.of_nat fuel -> rev (digits_loop fuel large num base) = num_digits fuel large b (u32 num).
Proof.
  induction fuel as [|fuel IH]; intros num b Hn Hlt; [done|]. cbn [digits_loop num_digits].
  assert (10 <= b <= 16) as Hb by (unfold b; destruct (base =? 10); lia).
  assert (0 <= u32 num < 2 ^ 32) as Hu by (apply wrap_range; lia).
  destruct (Z.eqb_spec num 0) as [->|]; [done|]. unfold divide. fold b. cbn [rev].
  set (q := u32 num / b). assert (u32 (i32 q) = q) as Eq.
  { rewrite i32_u32. apply wrap_small. unfold in_u. split; [apply Z.div_pos; lia|]. apply Z.div_lt_upper_bound; lia. }
  destruct (Z.ltb_spec (u32 num) b) as [Hs|Hs].
  - assert (q = 0) as Hq by (apply Z.div_small; lia). rewrite Hq. change (i32 0) with 0.
    rewrite Z.mod_small by lia. by destruct fuel.
  - assert (1 <= q) as Hq by (apply Z.div_le_lower_bound; lia). specialize (IH (i32 q)). cbv zeta in IH. fold b in IH.
    rewrite IH, Eq; [done|rewrite Eq; lia|]. rewrite Eq. apply Z.div_lt_upper_bound; [lia|].
    rewrite Nat2Z.inj_succ, Z.pow_succ_r in Hlt by lia. lia.
Qed.

(** The buffer [tmp] of [print_number], read backwards. *)
Lemma tmp_digits large base num : - 2147483648 <= num < 2147483648 ->
  rev (if num =? 0 then [48] else digits_loop 16 large num base) =
  num_digits 16 large (if base =? 10 then 10 else 16) (u32 num).
Proof.
  intros Hr. destruct (Z.eqb_spec num 0) as [->|Hn]; [by destruct (base =? 10)|]. apply digits_loop_ok.
  - unfold wrap. change (2 ^ 32) with 4294967296. Z.div_mod_to_equations. lia.
  - assert (0 <= u32 num < 2 ^ 32) by (apply wrap_range; lia). destruct (base =? 10); lia.
Qed.

Lemma i32_range n : - 2147483648 <= i32 n < 2147483648.
Proof. unfold swrap. change (2 ^ (32 - 1)) with 2147483648. change (2 ^ 32) with 4294967296. Z.div_mod_to_equations. lia. Qed.

(** ** Where the output goes *)

Section Outs.
Context (m0 : gmap Z Z) (buf size : Z).
Hypothesis Hsize : 0 < size.
Hypothesis Hroom : is_Some (read_bytes m0 buf (Z.to_nat size)).
Let e := buf + size - 1.

(** The characters [l] have been written; those that fit are in the buffer. *)
Definition outs (l : list Z) (o : gmap Z Z * Z) : Prop :=
  write_bytes m0 buf (take (Z.to_nat size) l) = Some o.1 /\
  (o.2 = buf + Z.of_nat (length l) \/ (e < o.2 /\ e < buf + Z.of_nat (length l))).

Lemma write_fits l : Z.of_nat (length l) <= size -> is_Some (write_bytes m0 buf l).
Proof.
  intros Hl. apply write_bytes_Some. destruct Hroom as [bs Hr].
  rewrite (read_bytes_take _ _ _ _ (length l) Hr) by lia. by eexists.
Qed.

Lemma emit_outs c l o : outs l o -> exists o', emit e c o = Some (tt, o') /\ outs (l ++ [c]) o' /\
  o'.2 = o.2 + 1.
Proof.
  destruct o as [m str]. intros [Hw Hp]. unfold emit. cbn in *. destruct (Z.leb_spec str e) as [Hs|Hs].
  - assert (str = buf + Z.of_nat (length l)) as -> by lia.
    destruct (write_fits (l ++ [c])) as [m' Hm']; [rewrite length_app; simpl; unfold e in *; lia|].
    assert (write_bytes m (buf + Z.of_nat (length l)) [c] = Some m') as E.
    { rewrite write_bytes_app in Hm'. rewrite take_ge in Hw by (unfold e in *; lia). by rewrite Hw in Hm'. }
    unfold write_bytes in E |- *. rewrite E. eexists. split; [done|]. split; [|done].
    split; [cbn; rewrite take_ge; [done|]|left; cbn; rewrite length_app; simpl; lia].
    rewrite length_app. simpl. unfold e in *. lia.
  - eexists. split; [done|]. split; [|done]. split; cbn; [|rewrite length_app; simpl; lia].
    rewrite take_app_le by (unfold e in *; lia). done.
Qed.

(** The program [M] writes [x] and returns [a]. *)
Definition puts {A} (M : PM A) (x : list Z) (a : A) : Prop :=
  forall l o, outs l o -> exists o', M o = Some (a, o') /\ outs (l ++ x) o' /\ o.2 <= o'.2.

Lemma puts_ret {A} (a : A) : puts (mret a) [] a.
Proof. intros l o H. exists o. rewrite app_nil_r. split; [done|]. by split; [|lia]. Qed.

Lemma puts_bind {A B} (M : PM A) (N : A -> PM B) x y a b : puts M x a -> puts (N a) y b -> puts (M ≫= N) (x ++ y) b.
Proof.
  intros HM HN l o H. destruct (HM _ _ H) as (o1 & E1 & H1 & L1). destruct (HN _ _ H1) as (o2 & E2 & H2 & L2).
  exists o2. rewrite (bind_Some _ _ _ _ _ E1), app_assoc. split; [done|]. split; [done|lia].
Qed.

Lemma puts_bind_nil {A B} (M : PM A) (N : A -> PM B) y a b : puts M [] a -> puts (N a) y b -> puts (M ≫= N) y b.
Proof. apply (puts_bind M N []). Qed.

Lemma puts_bind_end {A B} (M : PM A) (N : A -> PM B) x a b : puts M x a -> puts (N a) [] b -> puts (M ≫= N) x b.
Proof. intros HM HN. rewrite <-(app_nil_r x). by eapply puts_bind. Qed.

Lemma puts_lift {A B} (f : option A) (a : A) (N : A -> PM B) y b : f = Some a -> puts (N a) y b -> puts (slift f ≫= N) y b.
Proof. intros ->. apply (puts_bind _ _ []). apply puts_ret. Qed.

Lemma puts_emit c : puts (emit e c) [c] tt.
Proof. intros l o H. destruct (emit_outs c l o H) as (o' & E & H' & L). exists o'. split; [done|]. split; [done|lia]. Qed.

Lemma puts_emits x : puts (emits e x) x tt.
Proof. induction x as [|c x IH]; [apply puts_ret|]. apply (puts_bind (emit e c) (fun _ => emits e x) [c] x tt tt); [apply puts_emit|done]. Qed.

Lemma puts_emits_ret {A} x (a : A) : puts (emits e x ;; mret a) x a.
Proof. rewrite <-(app_nil_r x) at 2. eapply puts_bind; [apply puts_emits|apply puts_ret]. Qed.

Lemma puts_pad c n : puts (pad e c n) (replicate (Z.to_nat n) c) (Z.min n 0 - 1).
Proof. apply puts_emits_ret. Qed.

(** Behind the end of the buffer it does not matter what is written. *)
Lemma puts_past {A} (M : PM A) x y a l o : puts M x a -> outs l o -> e < o.2 ->
  exists o', M o = Some (a, o') /\ outs (l ++ y) o' /\ o.2 <= o'.2.
Proof.
  intros HM H Hp. destruct (HM _ _ H) as (o' & E & [Hw' _] & L). exists o'. split; [done|]. split; [|done].
  assert (size <= Z.of_nat (length l)) by (destruct H as [_ [?|[? ?]]]; unfold e in *; lia).
  split; [|right; rewrite length_app; unfold e in *; lia]. rewrite <-Hw'. by rewrite !take_app_le by lia.
Qed.

(** The part of [print_number] behind the sign. *)
Definition number_tail (type c precision i size : Z) (tmp : list Z) : PM unit :=
  size ← (if has type LEFT then mret size else pad e c size);
  emits e (replicate (Z.to_nat (precision - i)) 48) ;;
  emits e (rev tmp) ;;
  pad e 32 size ;; mret tt.

Definition tail_list (type c precision i size : Z) (tmp : list Z) : list Z :=
  (if has type LEFT then [] else replicate (Z.to_nat size) c) ++ zeros (precision - i) ++ rev tmp ++
  (if has type LEFT then spaces size else []).

Lemma puts_tail type c precision i size' tmp :
  puts (number_tail type c precision i size' tmp) (tail_list type c precision i size' tmp) tt.
Proof.
  unfold number_tail, tail_list. destruct (has type LEFT).
  - rewrite app_nil_l. apply puts_bind_nil with size'; [apply puts_ret|]. eapply puts_bind; [apply puts_emits|].
    eapply puts_bind; [apply puts_emits|]. rewrite <-(app_nil_r (spaces size')).
    eapply puts_bind; [apply puts_pad|apply puts_ret].
  - eapply puts_bind; [apply puts_pad|]. eapply puts_bind; [apply puts_emits|].
    eapply puts_bind; [apply puts_emits|]. apply puts_bind_nil with (Z.min (Z.min size' 0 - 1) 0 - 1); [|apply puts_ret].
    pose proof (puts_pad 32 (Z.min size' 0 - 1)) as H. by replace (Z.to_nat (Z.min size' 0 - 1)) with 0%nat in H by lia.
Qed.

(** The sign, and the count that is not decremented behind the end of the buffer. *)
Lemma puts_sign sign type c precision i size' tmp : sign <> 0 ->
  puts (size'' ← (if sign =? 0 then mret size'
                  else str ← pos; emit e sign ;; mret (if str <=? e then size' - 1 else size'));
        number_tail type c precision i size'' tmp)
    ([sign] ++ tail_list type c precision i (size' - 1) tmp) tt.
Proof.
  intros Hs l o H. destruct (Z.eqb_spec sign 0) as [|_]; [done|].
  destruct (emit_outs sign l o H) as (o1 & E1 & H1 & L1).
  rewrite (bind_Some _ _ o (if o.2 <=? e then size' - 1 else size') o1).
  2: { rewrite (bind_Some _ _ o o.2 o) by done. by rewrite (bind_Some _ _ _ _ _ E1). }
  rewrite app_assoc.
  destruct (Z.leb_spec o.2 e) as [Hl|Hl].
  - destruct (puts_tail type c precision i (size' - 1) tmp _ _ H1) as (o2 & E2 & H2 & L2).
    exists o2. split; [exact E2|]. split; [done|lia].
  - destruct (puts_past _ _ (tail_list type c precision i (size' - 1) tmp) _ _ _ (puts_tail type c precision i size' tmp) H1)
      as (o2 & E2 & H2 & L2); [lia|]. exists o2. split; [exact E2|]. split; [done|lia].
Qed.

(** [print_number] behind the conversion: [s] is the width without the digits. *)
Definition number_fields (type c sign precision i s : Z) (tmp : list Z) : PM unit :=
  size ← (if negb (has type (ZEROPAD |. LEFT))
          then pad e 32 (if negb (sign =? 0) && (0 <? s) then s - 1 else s)
          else mret s);
  size ← (if sign =? 0 then mret size
          else str ← pos; emit e sign ;; mret (if str <=? e then size - 1 else size));
  number_tail type c precision i size tmp.

Definition sign_list (sign : Z) : list Z := if sign =? 0 then [] else [sign].

Lemma puts_sign_tail sign type c precision i s tmp :
  puts (size ← (if sign =? 0 then mret s
                else str ← pos; emit e sign ;; mret (if str <=? e then s - 1 else s));
        number_tail type c precision i size tmp)
    (sign_list sign ++ tail_list type c precision i (s - Z.of_nat (length (sign_list sign))) tmp) tt.
Proof.
  unfold sign_list. destruct (Z.eq_dec sign 0) as [->|Hs].
  - cbn. rewrite Z.sub_0_r. apply puts_bind_nil with s; [apply puts_ret|]. apply puts_tail.
  - pose proof (puts_sign sign type c precision i s tmp Hs) as H. destruct (Z.eqb_spec sign 0); [done|]. exact H.
Qed.

Lemma puts_number_fields type c sign precision i s tmp : has type LEFT && has type ZEROPAD = false ->
  c = (if has type ZEROPAD then 48 else 32) ->
  let gap := s - Z.of_nat (length (sign_list sign)) in
  let body := zeros (precision - i) ++ rev tmp in
  puts (number_fields type c sign precision i s tmp)
    (if has type LEFT then sign_list sign ++ body ++ spaces gap
     else if has type ZEROPAD then sign_list sign ++ zeros gap ++ body
     else spaces gap ++ sign_list sign ++ body) tt.
Proof.
  intros Hlz Hc gap body. unfold number_fields. rewrite has_or. pose proof (puts_sign_tail sign type c precision i) as H.
  unfold tail_list in H. destruct (has type LEFT) eqn:EL, (has type ZEROPAD) eqn:EZ; try done; cbn [negb orb].
  - apply puts_bind_nil with s; [apply puts_ret|]. specialize (H s tmp). fold gap in H. unfold body. by rewrite <-app_assoc.
  - apply puts_bind_nil with s; [apply puts_ret|]. specialize (H s tmp). fold gap in H. unfold body, zeros. subst c.
    by rewrite app_nil_r in H.
  - set (s1 := if negb (sign =? 0) && (0 <? s) then s - 1 else s).
    assert (replicate (Z.to_nat s1) 32 = spaces gap) as E1.
    { unfold spaces, s1, gap, sign_list. f_equal. destruct (sign =? 0), (Z.ltb_spec 0 s); simpl; lia. }
    eapply puts_bind; [rewrite <-E1; apply puts_pad|]. specialize (H (Z.min s1 0 - 1) tmp). rewrite app_nil_r in H.
    replace (Z.to_nat (Z.min s1 0 - 1 - Z.of_nat (length (sign_list sign)))) with 0%nat in H by lia. exact H.
Qed.

Lemma print_number_puts num base width precision type :
  - 2147483648 <= num < 2147483648 ->
  puts (print_number e num base width precision type) (number_text num base width precision type) tt.
Proof.
  intros Hr. unfold print_number, number_text.
  set (type' := if has type LEFT then type &~ ZEROPAD else type).
  assert (forall f, f &. ZEROPAD = 0 -> has type' f = has type f) as Eb.
  { intros f Hf. unfold type'. destruct (has type LEFT); [|done]. apply has_diff. by rewrite Z.land_comm. }
  assert (has type' ZEROPAD = negb (has type LEFT) && has type ZEROPAD) as EZ.
  { unfold type'. destruct (has type LEFT) eqn:E; [by rewrite has_diff_self|done]. }
  rewrite <-(Eb LEFT), <-(Eb SIGN), <-(Eb PLUS), <-(Eb SPACE), <-(Eb LARGE) by done.
  set (sign := if has type' SIGN then _ else _). set (n := if has type' SIGN && (num <? 0) then i32 (- num) else num).
  set (tmp := if n =? 0 then [48] else _). cbv zeta.
  assert (- 2147483648 <= n < 2147483648) as Hn.
  { unfold n. destruct (has type' SIGN && (num <? 0)); [|exact Hr]. unfold swrap. change (2 ^ (32 - 1)) with 2147483648. change (2 ^ 32) with 4294967296.
    Z.div_mod_to_equations. lia. }
  assert (u32 n = if has type' SIGN then Z.abs num else u32 num) as Eu.
  { unfold n. destruct (has type' SIGN); [|done]. destruct (Z.ltb_spec num 0); cbn [andb].
    - rewrite i32_u32, wrap_small by (unfold in_u; lia). lia.
    - rewrite wrap_small by (unfold in_u; lia). lia. }
  pose proof (tmp_digits (has type' LARGE) base n Hn) as Ed. fold tmp in Ed. rewrite Eu in Ed. rewrite <-Ed, length_rev.
  set (i := Z.of_nat (length tmp)). set (p := if precision <? i then i else precision).
  pose proof (puts_number_fields type' (if has type' ZEROPAD then 48 else 32) sign p i (width - p) tmp) as H.
  unfold number_fields, number_tail in H.
  assert (forall sg, sg = sign_list sign ->
    (if has type' LEFT then sg ++ (zeros (precision - i) ++ rev tmp) ++ spaces (width - Z.of_nat (length sg) - Z.of_nat (length (zeros (precision - i) ++ rev tmp)))
     else if has type ZEROPAD then sg ++ zeros (width - Z.of_nat (length sg) - Z.of_nat (length (zeros (precision - i) ++ rev tmp))) ++ zeros (precision - i) ++ rev tmp
     else spaces (width - Z.of_nat (length sg) - Z.of_nat (length (zeros (precision - i) ++ rev tmp))) ++ sg ++ zeros (precision - i) ++ rev tmp) =
    (if has type' LEFT then sign_list sign ++ (zeros (p - i) ++ rev tmp) ++ spaces (width - p - Z.of_nat (length (sign_list sign)))
     else if has type' ZEROPAD then sign_list sign ++ zeros (width - p - Z.of_nat (length (sign_list sign))) ++ zeros (p - i) ++ rev tmp
     else spaces (width - p - Z.of_nat (length (sign_list sign))) ++ sign_list sign ++ zeros (p - i) ++ rev tmp)) as Hsame.
  { intros sg ->. assert (zeros (precision - i) = zeros (p - i)) as ->.
    { unfold zeros, p. f_equal. destruct (Z.ltb_spec precision i); lia. }
    assert (Z.of_nat (length (zeros (p - i) ++ rev tmp)) = p) as ->.
    { rewrite length_app, length_rev. unfold zeros. rewrite length_replicate. unfold p. fold i.
      destruct (Z.ltb_spec precision i); unfold i in *; lia. }
    replace (width - Z.of_nat (length (sign_list sign)) - p) with (width - p - Z.of_nat (length (sign_list sign))) by lia.
    rewrite EZ, (Eb LEFT) by done. by destruct (has type LEFT). }
  rewrite Hsame.
  - apply H; [|done]. rewrite EZ, (Eb LEFT) by done. by destruct (has type LEFT), (has type ZEROPAD).
  - unfold sign_list, sign. destruct (has type' SIGN); [|done]. cbn [andb].
    destruct (num <? 0); [done|]. destruct (has type' PLUS); [done|]. by destruct (has type' SPACE).
Qed.

(** ** Directives *)

Lemma field_cases flags width s : field flags width s =
  if has flags LEFT then s ++ spaces (width - Z.of_nat (length s)) else spaces (width - Z.of_nat (length s)) ++ s.
Proof. done. Qed.

Lemma puts_spaces n : puts (emits e (replicate (Z.to_nat n) 32)) (spaces n) tt.
Proof. apply puts_emits. Qed.

Lemma put_char_puts flags width c : puts (put_char e flags width c) (field flags width [u8 c]) tt.
Proof.
  unfold put_char. rewrite field_cases. change (Z.of_nat (length [u8 c])) with 1. destruct (has flags LEFT).
  - apply puts_bind_nil with width; [apply puts_ret|]. eapply puts_bind; [apply puts_emit|apply puts_spaces].
  - eapply puts_bind; [apply puts_emits_ret|]. eapply puts_bind_end; [apply puts_emit|].
    pose proof (puts_spaces (Z.min (width - 1) 0 - 1)) as H. unfold spaces in H.
    by replace (Z.to_nat (Z.min (width - 1) 0 - 1)) with 0%nat in * by lia.
Qed.

Lemma put_string_puts flags width precision s :
  puts (put_string e flags width precision s)
    (let s := default null_string s in field flags width (if 0 <? precision then take (Z.to_nat precision) s else s)) tt.
Proof.
  unfold put_string. set (t := default null_string s). cbv zeta.
  set (len := if (0 <? precision) && (precision <? Z.of_nat (length t)) then precision else Z.of_nat (length t)).
  assert ((if 0 <? precision then take (Z.to_nat precision) t else t) = take (Z.to_nat len) t /\
          Z.of_nat (length (take (Z.to_nat len) t)) = len) as [Et El].
  { unfold len. destruct (Z.ltb_spec 0 precision), (Z.ltb_spec precision (Z.of_nat (length t))); cbn [andb];
      rewrite length_take, ?(take_ge t) by lia; split; (done || lia). }
  rewrite Et, field_cases, El. destruct (has flags LEFT).
  - apply puts_bind_nil with width; [apply puts_ret|]. eapply puts_bind; [apply puts_emits|apply puts_spaces].
  - eapply puts_bind; [apply puts_emits_ret|]. eapply puts_bind_end; [apply puts_emits|].
    pose proof (puts_spaces (Z.min width len - 1 - len)) as H. unfold spaces in H.
    by replace (Z.to_nat (Z.min width len - 1 - len)) with 0%nat in * by lia.
Qed.

Lemma int_arg_range flags q n : - 2147483648 <= int_arg flags q n < 2147483648.
Proof. unfold int_arg. destruct (q =? 104); apply i32_range. Qed.

Lemma next_int_Some args n args' : next_int args = Some (n, args') -> exists v, args = VInt v :: args' /\ n = i32 v.
Proof. destruct args as [|[v|s] args]; intros [= <- <-]. by exists v. Qed.

Lemma put_conv_puts conv flags width precision q args out args' :
  conv_text conv flags width precision q args = Some (out, args') ->
  puts (put_conv e conv flags width precision q args) out args'.
Proof.
  assert (forall M x, puts M x tt -> puts (M ;; mret args') x args') as Hret.
  { intros M x HM. eapply puts_bind_end; [exact HM|apply puts_ret]. }
  unfold conv_text, put_conv. destruct (conv =? 99).
  { intros ((c & a) & E & [= <- <-])%option_bind_inv. eapply puts_lift; [exact E|]. apply Hret, put_char_puts. }
  destruct (conv =? 115).
  { destruct args as [|[n|s] args]; [done..|]. intros [= <- <-]. apply Hret, put_string_puts. }
  destruct (conv =? 112).
  { intros ((n & a) & E & [= <- <-])%option_bind_inv. eapply puts_lift; [exact E|]. apply Hret.
    apply next_int_Some in E as (v & _ & ->). destruct (width =? -1); apply print_number_puts, i32_range. }
  destruct (conv =? 37); [intros [= <- <-]; apply Hret, puts_emit|].
  destruct (int_conv conv flags) as [[base fl]|].
  - intros ((n & a) & E & [= <- <-])%option_bind_inv. eapply puts_lift; [exact E|]. apply Hret, print_number_puts, int_arg_range.
  - intros [= <- <-]. apply (puts_bind _ _ [37]) with tt; [apply puts_emit|].
    destruct (conv =? 0); [apply Hret, puts_ret|apply Hret, puts_emit].
Qed.

Lemma vsn_loop_puts fuel : forall fmt args out, loop_text fuel fmt args = Some out -> puts (vsn_loop e fuel fmt args) out tt.
Proof.
  induction fuel as [|fuel IH]; intros fmt args out; [done|]. cbn [loop_text vsn_loop].
  destruct fmt as [|c fmt]; [intros [= <-]; apply puts_ret|]. destruct (negb (c =? 37)).
  - intros (o & E & [= <-])%option_bind_inv. apply (puts_bind _ _ [c]) with tt; [apply puts_emit|by apply IH].
  - destruct (parse_flags 0 fmt) as [fl f].
    intros ([[[w fl'] f'] args1] & E1 & ([[p f''] args2] & E2 & H)%option_bind_inv)%option_bind_inv.
    eapply puts_lift; [exact E1|]. eapply puts_lift; [exact E2|]. cbv beta match in *. destruct (parse_qualifier f'') as [q f3].
    apply option_bind_inv in H as ((o & args3) & E3 & (rest & E4 & [= <-])%option_bind_inv).
    eapply puts_bind; [by apply put_conv_puts|by apply IH].
Qed.
End Outs.

Lemma vsnprintf_stores m buf size fmt args out :
  0 < size -> 0 <= buf -> buf + size <= 4294967296 -> is_Some (read_bytes m buf (Z.to_nat size)) ->
  loop_text (S (length fmt)) fmt args = Some out ->
  exists n m', rt_vsnprintf buf size fmt args m = Some (i32 n, m') /\
    write_bytes m buf (take (Z.to_nat (size - 1)) out ++ [0]) = Some m' /\
    (if Z.of_nat (length out) <? size then n = Z.of_nat (length out) else size <= n).
Proof.
  intros Hs Hb He Hr Hout. unfold rt_vsnprintf. rewrite wrap_small by (unfold in_u; lia).
  rewrite (proj2 (Z.ltb_ge (buf + size - 1) buf)) by lia.
  destruct (vsn_loop_puts m buf size Hs Hr (S (length fmt)) fmt args out Hout [] (m, buf)) as ([m1 str] & E & [Hw Hp] & _).
  { split; [by rewrite take_nil|]. left. simpl. lia. }
  rewrite app_nil_l in *. cbn [fst snd] in *. rewrite E. cbn [mbind option_bind]. exists (str - buf).
  set (n := Z.to_nat (size - 1)). assert (Z.to_nat size = S n) as Es by lia. rewrite Es in Hw.
  assert (is_Some (write_bytes m buf (take n out ++ [0]))) as [m' Hm'].
  { apply (write_fits m buf size Hs Hr). rewrite length_app, length_take. simpl. lia. }
  exists m'. split; [|split; [done|]].
  - pose proof Hm' as Hm''. rewrite write_bytes_app in Hm''. destruct (Z.ltb_spec (Z.of_nat (length out)) size) as [Hl|Hl].
    + rewrite take_ge in Hw, Hm'' by lia. rewrite Hw in Hm''. cbn [mbind option_bind] in Hm''.
      destruct (Z.leb_spec str (buf + size - 1)); [|lia]. replace str with (buf + Z.of_nat (length out)) at 1 by lia. by rewrite Hm''.
    + destruct (Z.leb_spec str (buf + size - 1)); [lia|].
      destruct (lookup_lt_is_Some_2 out n) as [x Hx]; [lia|]. rewrite (take_S_r _ _ _ Hx), write_bytes_app in Hw.
      rewrite length_take, Nat.min_l in * by lia.
      destruct (write_bytes m buf (take n out)) as [m2|] eqn:E2; [|done]. cbn [mbind option_bind] in *.
      replace (buf + size - 1) with (buf + Z.of_nat n) by lia. cbn [write_bytes] in *.
      destruct (m2 !! (buf + Z.of_nat n)) eqn:E3; [|done]. injection Hw as <-. injection Hm'' as <-.
      rewrite lookup_insert_eq. cbn. by rewrite insert_insert_eq.
  - destruct (Z.ltb_spec (Z.of_nat (length out)) size); lia.
Qed.

(** ** Reading a number back *)

Lemma isdigit_digit d : 0 <= d < 10 -> isdigit (48 + d) = true.
Proof.
  intros H. unfold isdigit. replace (48 + d - 48) with d by lia. rewrite wrap_small by (unfold in_u; lia).
  apply Z.ltb_lt. lia.
Qed.

Lemma skip_atoi_snoc d : 0 <= d < 10 -> forall s i v, skip_atoi i s = (v, []) -> - 2147483648 <= v * 10 + d < 2147483648 ->
  skip_atoi i (s ++ [48 + d]) = (v * 10 + d, []).
Proof.
  intros Hd s. induction s as [|c s IH]; intros i v.
  - intros [= ->] Hv. cbn [app skip_atoi]. rewrite isdigit_digit by done.
    replace (v * 10 + (48 + d) - 48) with (v * 10 + d) by lia. by rewrite swrap_small by (simpl; lia).
  - cbn [skip_atoi app]. destruct (isdigit c); [apply IH|done].
Qed.

Lemma skip_atoi_digits fuel : forall n, 0 <= n < 2147483648 -> n < 10 ^ Z.of_nat fuel ->
  skip_atoi 0 (num_digits fuel false 10 n) = (n, []).
Proof.
  induction fuel as [|fuel IH]; intros n Hn Hf; [simpl in Hf; assert (n = 0) as -> by lia; done|]. cbn [num_digits].
  destruct (Z.ltb_spec n 10) as [Hl|Hl].
  - unfold digit. rewrite (proj2 (Z.ltb_lt n 10)) by lia. apply (skip_atoi_snoc n ltac:(lia) [] 0 0); [done|lia].
  - unfold digit. rewrite (proj2 (Z.ltb_lt (n mod 10) 10)) by (apply Z.mod_pos_bound; lia).
    rewrite (skip_atoi_snoc (n mod 10) ltac:(apply Z.mod_pos_bound; lia) _ 0 (n / 10)).
    + f_equal. Z.div_mod_to_equations. lia.
    + apply IH; [Z.div_mod_to_equations; lia|]. rewrite Nat2Z.inj_succ, Z.pow_succ_r in Hf by lia.
      apply Z.div_lt_upper_bound; lia.
    + Z.div_mod_to_equations. lia.
Qed.

(** ** Examples *)

Definition text_ram : gmap Z Z := list_to_map (zip (seqZ 1000 200) (repeat 170 200)).

(** The result for a buffer of [size] bytes at 1000, and the first [k] bytes of the
    memory there. *)
Definition printed (size : Z) (k : nat) (fmt : string) (args : list va) : option (Z * list Z) :=
  '(n, m) ← rt_vsnprintf 1000 size (codes fmt) args text_ram;
  bs ← read_bytes m 1000 k; Some (n, bs).

Example several_directives :
  printed 30 21 "a%5d|%-4x|%+d|%s%%%c" [VInt (-12); VInt 255; VInt 7; VStr (Some (codes "xyz")); VInt 65] =
  Some (20, codes "a  -12|ff  |+7|xyz%A" ++ [0]).
Proof. vm_compute. reflexivity. Qed.

(** The octal directive prints the hexadecimal digits: [divide] knows 10 and 16 only. *)
Example octal_is_hexadecimal : printed 30 3 "%o" [VInt 26] = Some (2, codes "1a" ++ [0]).
Proof. vm_compute. reflexivity. Qed.

(** A size of 0 is taken as no limit: four bytes are written. *)
Example size_zero_unbounded : printed 0 4 "abc" [] = Some (3, codes "abc" ++ [0]).
Proof. vm_compute. reflexivity. Qed.

(** A precision of 0 does not cut a string. *)
Example precision_zero_prints_all : printed 30 3 "%.0s" [VStr (Some (codes "ab"))] = Some (2, codes "ab" ++ [0]).
Proof. vm_compute. reflexivity. Qed.

(** The number of bytes that would have been written depends on the buffer: the sign is
    only taken off the width of the field if it is stored. *)
Example cut_sign_changes_length :
  fst <$> printed 30 7 "ab%04d" [VInt (-1)] = Some 6 /\ fst <$> printed 2 2 "ab%04d" [VInt (-1)] = Some 7.
Proof. split; vm_compute; reflexivity. Qed.
