(* ===== verification/PrintfSpec.v ===== *)
(** * What a format means: the specification of rt_vsnprintf of src/kservice.c

    A format as a sequence of characters and directives of ISO C (7.19.6.1), how it is
    written as a string, and the text that ISO C says it gives.  Nothing here reads a
    format: the theorem [rt_vsnprintf_renders] says that the readers of [rt_vsnprintf] find
    in the string the directives that were written to it.  [deviates] lists the directives
    whose text is another one in [rt_vsnprintf]. *)

From Stdlib Require Import Strings.String Strings.Ascii.
From S2P Require Import Prelude StateM LwipMem Chksum PbufData Printf.

(** ** Formats *)

(** The flag [#] is missing: RT_PRINTF_SPECIAL is not configured. *)
Inductive flag := Minus | Plus | Blank | Zero.
Inductive amount := Number (n : Z) | Star.
Inductive size_mod := Short | Long.
Inductive conversion := Conv_d | Conv_i | Conv_u | Conv_o | Conv_x | Conv_X | Conv_c | Conv_s | Conv_p.

#[global] Instance flag_eq_dec : EqDecision flag.
Proof. solve_decision. Defined.

(** Flags may be repeated, in any order; a precision may be a point alone. *)
Record directive := Directive {
  d_flags : list flag;
  d_width : option amount;
  d_precision : option (option amount);
  d_size : option size_mod;
  d_conv : conversion;
}.

Inductive piece := Char (c : Z) | Percent | Dir (d : directive).

(** ** How they are written *)

Definition digit_chars (upper : bool) : list Z := codes (if upper then "0123456789ABCDEF" else "0123456789abcdef").

(** The numeral of a number of 32 bits, in any base from 2 to 16. *)
Fixpoint numeral_loop (fuel : nat) (upper : bool) (base n : Z) : list Z :=
  match fuel with
  | O => []
  | S fuel =>
      (if n <? base then [] else numeral_loop fuel upper base (n / base)) ++
      [nth (Z.to_nat (n mod base)) (digit_chars upper) 0]
  end.
Definition numeral (upper : bool) (base n : Z) : list Z := numeral_loop 32 upper base n.

Definition flag_char (f : flag) : Z := match f with Minus => 45 | Plus => 43 | Blank => 32 | Zero => 48 end.
Definition conv_char (c : conversion) : Z :=
  match c with
  | Conv_d => 100 | Conv_i => 105 | Conv_u => 117 | Conv_o => 111 | Conv_x => 120 | Conv_X => 88
  | Conv_c => 99 | Conv_s => 115 | Conv_p => 112
  end.

Definition write_amount (a : amount) : list Z := match a with Number n => numeral false 10 n | Star => [42] end.

Definition write_end (d : directive) : list Z :=
  match d_size d with None => [] | Some Short => [104] | Some Long => [108] end ++ [conv_char (d_conv d)].

Definition write_precision (d : directive) : list Z :=
  match d_precision d with None => [] | Some a => 46 :: match a with None => [] | Some a => write_amount a end end.

Definition write_width (d : directive) : list Z := match d_width d with None => [] | Some a => write_amount a end.

Definition write_piece (p : piece) : list Z :=
  match p with
  | Char c => [c]
  | Percent => [37; 37]
  | Dir d => 37 :: (flag_char <$> d_flags d) ++ write_width d ++ write_precision d ++ write_end d
  end.

Definition write_format (ps : list piece) : list Z := concat (write_piece <$> ps).

(** A width starts with a digit that is not 0, which would be a flag; amounts are of type
    int; sizes are for integers. *)
Definition directive_ok (d : directive) : Prop :=
  match d_width d with Some (Number n) => 0 < n < 2147483648 | _ => True end /\
  match d_precision d with Some (Some (Number n)) => 0 <= n < 2147483648 | _ => True end /\
  match d_conv d with Conv_c | Conv_s | Conv_p => d_size d = None | _ => True end.

Definition piece_ok (p : piece) : Prop :=
  match p with Char c => c <> 37 /\ c <> 0 | Percent => True | Dir d => directive_ok d end.

(** ** What they mean *)

(** A directive with its arguments. *)
Record style := Style {
  minus : bool; plus : bool; blank : bool; zero : bool;
  width : option Z;
  prec : option Z;
}.

Inductive item :=
  | IChar (c : Z)
  | INumber (st : style) (signed upper : bool) (base v : Z)
  | IString (st : style) (s : list Z).

Definition va_int (args : list va) : option (Z * list va) :=
  match args with VInt n :: args => Some (swrap 32 n, args) | _ => None end.

Definition amount_of (a : amount) (args : list va) : option (Z * list va) :=
  match a with Number n => Some (n, args) | Star => va_int args end.

Definition width_of (d : directive) (args : list va) : option (option Z * list va) :=
  match d_width d with None => Some (None, args) | Some a => '(w, args) ← amount_of a args; Some (Some w, args) end.

(** A negative precision counts as none. *)
Definition precision_of (d : directive) (args : list va) : option (option Z * list va) :=
  match d_precision d with
  | None => Some (None, args)
  | Some None => Some (Some 0, args)
  | Some (Some a) => '(p, args) ← amount_of a args; Some (if p <? 0 then None else Some p, args)
  end.

(** A negative width is the flag - and a width; that of [- 2 ^ 31] is too large. *)
Definition style_of (d : directive) (args : list va) : option (style * list va) :=
  '(w, args) ← width_of d args;
  '(p, args) ← precision_of d args;
  if default 0 w <? -2147483647 then None
  else Some (Style (bool_decide (Minus ∈ d_flags d) || (default 0 w <? 0)) (bool_decide (Plus ∈ d_flags d))
               (bool_decide (Blank ∈ d_flags d)) (bool_decide (Zero ∈ d_flags d)) (Z.abs <$> w) p, args).

Definition value_of (signed : bool) (sz : option size_mod) (n : Z) : Z :=
  match sz with
  | Some Short => if signed then swrap 16 n else wrap 16 n
  | _ => if signed then swrap 32 n else wrap 32 n
  end.

Definition number_of (d : directive) (st : style) (signed upper : bool) (base : Z) (args : list va) : option (item * list va) :=
  '(n, args) ← va_int args; Some (INumber st signed upper base (value_of signed (d_size d) n), args).

Definition no_prec (st : style) : style := Style (minus st) (plus st) (blank st) (zero st) (width st) None.

(** Pointers without a width are shown with eight digits. *)
Definition pointer_style (st : style) : style :=
  match width st with Some _ => st | None => Style (minus st) (plus st) (blank st) true (Some 8) (prec st) end.

Definition convert (d : directive) (st : style) (args : list va) : option (item * list va) :=
  match d_conv d with
  | Conv_d | Conv_i => number_of d st true false 10 args
  | Conv_u => number_of d st false false 10 args
  | Conv_o => number_of d st false false 8 args
  | Conv_x => number_of d st false false 16 args
  | Conv_X => number_of d st false true 16 args
  | Conv_p => number_of d (pointer_style st) false false 16 args
  | Conv_c => '(n, args) ← va_int args; Some (IString (no_prec st) [wrap 8 n], args)
  | Conv_s => match args with VStr s :: args => Some (IString st (default (codes "(NULL)") s), args) | _ => None end
  end.

Definition item_of (d : directive) (args : list va) : option (item * list va) :=
  '(st, args) ← style_of d args; convert d st args.

(** The items of a format; [None] if the arguments do not fit it. *)
Fixpoint items (ps : list piece) (args : list va) : option (list item) :=
  match ps with
  | [] => Some []
  | Char c :: ps => cons (IChar c) <$> items ps args
  | Percent :: ps => cons (IChar 37) <$> items ps args
  | Dir d :: ps => '(i, args) ← item_of d args; cons i <$> items ps args
  end.

Definition sign_text (st : style) (signed : bool) (v : Z) : list Z :=
  if signed then if v <? 0 then [45] else if plus st then [43] else if blank st then [32] else [] else [].

(** At least as many digits as the precision says, 1 if there is none; the number 0 has no
    digits with the precision 0. *)
Definition digits_text (st : style) (upper : bool) (base v : Z) : list Z :=
  let ds := if (v =? 0) && bool_decide (prec st = Some 0) then [] else numeral upper base (Z.abs v) in
  zeros (default 1 (prec st) - Z.of_nat (length ds)) ++ ds.

Definition shown (i : item) : list Z :=
  match i with
  | IChar c => [c]
  | INumber st signed upper base v =>
      let sg := sign_text st signed v in
      let ds := digits_text st upper base v in
      let gap := default 0 (width st) - Z.of_nat (length (sg ++ ds)) in
      if minus st then sg ++ ds ++ spaces gap
      else if zero st && bool_decide (prec st = None) then sg ++ zeros gap ++ ds
      else spaces gap ++ sg ++ ds
  | IString st s =>
      let s := match prec st with Some p => take (Z.to_nat p) s | None => s end in
      let gap := default 0 (width st) - Z.of_nat (length s) in
      if minus st then s ++ spaces gap else spaces gap ++ s
  end.

(** Where the text of [rt_vsnprintf] is another one: octal numbers are shown in
    hexadecimal, the flag 0 is obeyed in spite of a precision, the number 0 has a digit with
    the precision 0, and the precision 0 does not cut a string. *)
Definition deviates (i : item) : bool :=
  match i with
  | IChar _ => false
  | INumber st _ _ base v =>
      (base =? 8) || (zero st && negb (minus st) && bool_decide (prec st <> None)) ||
      ((v =? 0) && bool_decide (prec st = Some 0))
  | IString st _ => bool_decide (prec st = Some 0)
  end.

Definition format_text (its : list item) : list Z := concat (shown <$> its).

(** ** Numerals *)

Lemma digit_nth upper n : 0 <= n < 16 -> nth (Z.to_nat n) (digit_chars upper) 0 = digit upper n.
Proof.
  intros Hn. assert (forallb (fun n => nth (Z.to_nat n) (digit_chars upper) 0 =? digit upper n) (seqZ 0 16) = true) as H
    by (destruct upper; vm_compute; reflexivity).
  rewrite forallb_forall in H. apply Z.eqb_eq, H, list_elem_of_In, elem_of_seqZ. lia.
Qed.

Lemma numeral_digits upper base fuel' : 2 <= base <= 16 -> forall fuel n, 0 <= n ->
  n < base ^ Z.of_nat fuel -> n < base ^ Z.of_nat fuel' -> (0 < fuel)%nat -> (0 < fuel')%nat ->
  numeral_loop fuel upper base n = num_digits fuel' upper base n.
Proof.
  intros Hb. induction fuel' as [|fuel' IH]; intros fuel n Hn H1 H2 Hf Hf'; [lia|]. destruct fuel as [|fuel]; [lia|].
  cbn [numeral_loop num_digits]. pose proof (Z.mod_pos_bound n base ltac:(lia)). rewrite digit_nth by lia.
  destruct (Z.ltb_spec n base) as [Hl|Hl]; [by rewrite Z.mod_small by lia|].
  assert (1 <= n / base) as Hq by (apply Z.div_le_lower_bound; lia).
  rewrite Nat2Z.inj_succ, Z.pow_succ_r in H1, H2 by lia.
  rewrite (IH fuel); [done|lia|apply Z.div_lt_upper_bound; lia..| |].
  - destruct fuel; [simpl in H1|]; lia.
  - destruct fuel'; [simpl in H2|]; lia.
Qed.

Lemma numeral_ok upper base n : base = 10 \/ base = 16 -> 0 <= n < 4294967296 -> numeral upper base n = num_digits 16 upper base n.
Proof. intros Hb Hn. apply numeral_digits; destruct Hb as [-> | ->]; simpl; lia. Qed.

(** Not empty, all digits, and without a leading 0 but for the number 0. *)
Lemma numeral_head fuel : forall n, 0 <= n -> exists c l, numeral_loop (S fuel) false 10 n = c :: l /\ 48 <= c <= 57 /\
  (0 < n < 10 ^ Z.of_nat (S fuel) -> c <> 48).
Proof.
  induction fuel as [|fuel IH]; intros n Hn.
  all: pose proof (Z.mod_pos_bound n 10 ltac:(lia)); pose proof (digit_nth false (n mod 10) ltac:(lia)) as Ed;
    assert (digit false (n mod 10) = 48 + n mod 10) as Ed' by (unfold digit; by rewrite (proj2 (Z.ltb_lt _ _)) by lia).
  - exists (48 + n mod 10), []. cbn [numeral_loop]. rewrite Ed, Ed'. destruct (n <? 10); (split; [done|split; [lia|]]);
      intros ?; rewrite Z.mod_small by (simpl in *; lia); lia.
  - destruct (IH (n / 10) ltac:(apply Z.div_pos; lia)) as (c & l & E & Hc & Hz). revert E. remember (S fuel) as k. intros E.
    cbn [numeral_loop]. rewrite Ed, Ed', E. destruct (Z.ltb_spec n 10).
    + eexists _, _. split; [reflexivity|]. split; [lia|]. intros ?. rewrite Z.mod_small by lia. lia.
    + exists c, (l ++ [48 + n mod 10]). split; [done|]. split; [done|]. intros [_ Hlt]. apply Hz.
      rewrite Nat2Z.inj_succ, Z.pow_succ_r in Hlt by lia. split; [|apply Z.div_lt_upper_bound; lia].
      pose proof (Z.div_le_lower_bound n 10 1). lia.
Qed.

Lemma isdigit_spec c : 0 <= c < 256 -> isdigit c = (48 <=? c) && (c <=? 57).
Proof.
  intros Hc. unfold isdigit. destruct (Z.leb_spec 48 c).
  - rewrite wrap_small by (unfold in_u; lia). cbn [andb]. destruct (Z.leb_spec c 57), (Z.ltb_spec (c - 48) 10); lia.
  - cbn [andb]. apply Z.ltb_ge. unfold wrap. change (2 ^ 32) with 4294967296. Z.div_mod_to_equations. lia.
Qed.

Lemma skip_atoi_app s rest : forall i v, skip_atoi i s = (v, []) -> isdigit (hd 0 rest) = false -> skip_atoi i (s ++ rest) = (v, rest).
Proof.
  induction s as [|c s IH]; intros i v; cbn [skip_atoi app].
  - intros [= ->] Hr. destruct rest as [|c rest]; [done|]. cbn [skip_atoi]. cbn [hd] in Hr. by rewrite Hr.
  - destruct (isdigit c); [apply IH|done].
Qed.

Lemma skip_atoi_written n rest : 0 <= n < 2147483648 -> isdigit (hd 0 rest) = false ->
  skip_atoi 0 (numeral false 10 n ++ rest) = (n, rest).
Proof.
  intros Hn Hr. apply skip_atoi_app; [|done]. rewrite numeral_ok by (auto; lia). apply skip_atoi_digits; [done|simpl; lia].
Qed.

Lemma numeral_starts n rest : 0 <= n < 2147483648 -> exists c, hd 0 (numeral false 10 n ++ rest) = c /\ 48 <= c <= 57 /\ (0 < n -> c <> 48).
Proof.
  intros Hn. destruct (numeral_head 31 n ltac:(lia)) as (c & l & E & Hc & Hz). exists c. unfold numeral. rewrite E.
  split; [done|]. split; [done|]. intros ?. apply Hz. simpl. lia.
Qed.

(** ** Reading directives *)

Definition flag_bit (f : flag) : Z := match f with Minus => LEFT | Plus => PLUS | Blank => SPACE | Zero => ZEROPAD end.
Definition flag_bits (fs : list flag) : Z := foldr (fun f a => flag_bit f |. a) 0 fs.

Lemma parse_flags_stop fl rest : hd 0 rest ∉ [45; 43; 32; 35; 48] -> parse_flags fl rest = (fl, rest).
Proof.
  destruct rest as [|c rest]; [done|]. cbn [hd]. intros Hc. rewrite !not_elem_of_cons in Hc.
  destruct Hc as (H1 & H2 & H3 & H4 & H5 & _).
  destruct c as [|c|c]; [done| |done]. do 6 (destruct c as [c|c|]; try done).
Qed.

Lemma parse_flags_written fs rest : hd 0 rest ∉ [45; 43; 32; 35; 48] ->
  forall fl, parse_flags fl ((flag_char <$> fs) ++ rest) = (fl |. flag_bits fs, rest).
Proof.
  intros Hr. induction fs as [|f fs IH]; intros fl; cbn [fmap list_fmap app flag_bits foldr].
  - rewrite Z.lor_0_r. by apply parse_flags_stop.
  - fold (flag_bits fs). rewrite Z.lor_assoc. destruct f; apply IH.
Qed.

Lemma has_lor t u f : has (t |. u) f = has t f || has u f.
Proof.
  unfold has, truthy. rewrite Z.land_lor_distr_l.
  destruct (Z.eqb_spec (t &. f) 0) as [->|H1]; [by rewrite Z.lor_0_l|].
  destruct (Z.eqb_spec ((t &. f) |. (u &. f)) 0) as [H%Z.lor_eq_0_iff|]; [by destruct H|done].
Qed.

Lemma has_flag_bits fs f : has (flag_bits fs) (flag_bit f) = bool_decide (f ∈ fs).
Proof.
  induction fs as [|g fs IH]; [by destruct f|]. cbn [flag_bits foldr]. fold (flag_bits fs). rewrite has_lor, IH.
  destruct (decide (f = g)) as [->|Hn].
  - rewrite (bool_decide_true (g ∈ g :: fs)) by (by left). by destruct g.
  - replace (has (flag_bit g) (flag_bit f)) with false by (by destruct f, g). cbn [orb].
    apply bool_decide_ext. rewrite elem_of_cons. naive_solver.
Qed.

Lemma has_flag_bits_other fs f : f = SIGN \/ f = LARGE -> has (flag_bits fs) f = false.
Proof.
  intros Hf. induction fs as [|g fs IH]; [by destruct Hf as [-> | ->]|]. cbn [flag_bits foldr]. fold (flag_bits fs).
  rewrite has_lor, IH. by destruct Hf as [-> | ->], g.
Qed.

(** The characters behind the width, the precision and the flags. *)
Lemma tail_head d rest : exists c, hd 0 (write_end d ++ rest) = c /\ 88 <= c <= 120 /\ c <> 42.
Proof. unfold write_end. destruct (d_size d) as [[]|], (d_conv d); by eexists. Qed.

Lemma precision_head d rest : exists c, hd 0 (write_precision d ++ write_end d ++ rest) = c /\ (c = 46 \/ 88 <= c <= 120).
Proof.
  unfold write_precision. destruct (d_precision d); [by eexists; split; [|left]|].
  destruct (tail_head d rest) as (c & E & Hc & _). exists c. auto.
Qed.

Lemma width_head d rest : directive_ok d ->
  hd 0 (write_width d ++ write_precision d ++ write_end d ++ rest) ∉ [45; 43; 32; 35; 48].
Proof.
  intros (Hw & _). assert (forall c, c <> 45 -> c <> 43 -> c <> 32 -> c <> 35 -> c <> 48 -> c ∉ [45; 43; 32; 35; 48]) as Hc
    by (intros; rewrite !elem_of_cons, elem_of_nil; naive_solver).
  unfold write_width, write_amount. destruct (d_width d) as [[n|]|].
  - destruct (numeral_starts n (write_precision d ++ write_end d ++ rest) ltac:(lia)) as (c & -> & H1 & H2).
    specialize (H2 ltac:(lia)). apply Hc; lia.
  - by apply Hc.
  - destruct (precision_head d rest) as (c & E & Hr). cbn [app]. rewrite E. apply Hc; lia.
Qed.

Lemma va_int_range args n args' : va_int args = Some (n, args') -> -2147483648 <= n < 2147483648.
Proof. destruct args as [|[v|s] args]; [done| |done]. cbn [va_int]. intros H. assert (n = i32 v) as -> by congruence. apply i32_range. Qed.

Lemma parse_width_written d fl rest args w args' :
  directive_ok d -> width_of d args = Some (w, args') -> -2147483647 <= default 0 w ->
  parse_width fl (write_width d ++ write_precision d ++ write_end d ++ rest) args =
    Some (from_option Z.abs (-1) w, if default 0 w <? 0 then fl |. LEFT else fl, write_precision d ++ write_end d ++ rest, args').
Proof.
  intros (Hw & _) E Hmin. set (tl := write_precision d ++ write_end d ++ rest).
  destruct (precision_head d rest) as (c & Ec & Hc). fold tl in Ec.
  assert (isdigit c = false) as Hd by (rewrite isdigit_spec by lia; destruct (Z.leb_spec 48 c), (Z.leb_spec c 57); (done || lia)).
  unfold width_of, write_width in *. destruct (d_width d) as [[n|]|]; cbn [amount_of write_amount mbind option_bind] in *.
  - injection E as <- <-. unfold parse_width. destruct (numeral_starts n tl ltac:(lia)) as (c' & -> & H1 & _).
    rewrite (isdigit_spec c'), (proj2 (Z.leb_le 48 c')), (proj2 (Z.leb_le c' 57)) by lia. cbn [andb].
    rewrite skip_atoi_written by (rewrite ?Ec; (done || lia)). simpl. rewrite Z.abs_eq, (proj2 (Z.ltb_ge n 0)) by lia. done.
  - destruct (va_int args) as [[n a]|] eqn:Ea; [|done]. cbn [mbind option_bind] in E. injection E as <- <-.
    unfold parse_width. change (isdigit (hd 0 ([42] ++ tl))) with false. change (next_int args) with (va_int args).
    cbn -[swrap va_int]. rewrite Ea. cbn -[swrap]. simpl in Hmin.
    pose proof (va_int_range _ _ _ Ea).
    destruct (Z.ltb_spec n 0); [|by rewrite Z.abs_eq by lia].
    rewrite swrap_small by (simpl; lia). by rewrite Z.abs_neq by lia.
  - injection E as <- <-. unfold parse_width. cbn [app]. rewrite Ec, Hd.
    rewrite (proj2 (Z.eqb_neq c 42)) by lia. done.
Qed.

Lemma parse_precision_written d rest args p args' :
  directive_ok d -> precision_of d args = Some (p, args') ->
  exists pz, parse_precision (write_precision d ++ write_end d ++ rest) args = Some (pz, write_end d ++ rest, args') /\
    match p with Some p => pz = p /\ 0 <= p | None => pz <= 0 end.
Proof.
  intros (_ & Hp & _) E. set (tl := write_end d ++ rest).
  destruct (tail_head d rest) as (c & Ec & Hc & Hc'). fold tl in Ec.
  assert (isdigit c = false) as Hd by (rewrite isdigit_spec by lia; destruct (Z.leb_spec 48 c), (Z.leb_spec c 57); (done || lia)).
  unfold precision_of, write_precision in *. destruct (d_precision d) as [[[n|]|]|]; cbn [amount_of write_amount mbind option_bind] in *.
  - injection E as <- <-. rewrite (proj2 (Z.ltb_ge n 0)) by lia. exists n. split; [|lia]. unfold parse_precision. cbn [app hd List.tl Z.eqb].
    destruct (numeral_starts n tl ltac:(lia)) as (c' & -> & H1 & _).
    rewrite (isdigit_spec c'), (proj2 (Z.leb_le 48 c')), (proj2 (Z.leb_le c' 57)) by lia. cbn [andb].
    rewrite skip_atoi_written by (rewrite ?Ec; (done || lia)). simpl. by rewrite (proj2 (Z.ltb_ge n 0)) by lia.
  - destruct (va_int args) as [[n a]|] eqn:Ea; [|done]. cbn [mbind option_bind] in E. injection E as <- <-.
    exists (if n <? 0 then 0 else n). split; [|destruct (Z.ltb_spec n 0); lia].
    unfold parse_precision. cbn [app hd List.tl Z.eqb]. change (isdigit 42) with false. change (next_int args) with (va_int args).
    cbn -[va_int]. by rewrite Ea.
  - injection E as <- <-. exists 0. split; [|done]. unfold parse_precision. cbn [app hd List.tl]. rewrite Z.eqb_refl, Ec, Hd.
    by rewrite (proj2 (Z.eqb_neq c 42)) by lia.
  - injection E as <- <-. exists (-1). split; [|lia]. unfold parse_precision. cbn [app]. rewrite Ec.
    by rewrite (proj2 (Z.eqb_neq c 46)) by lia.
Qed.

Definition qualifier_of (sz : option size_mod) : Z := match sz with None => 0 | Some Short => 104 | Some Long => 108 end.

Lemma parse_qualifier_written d rest :
  parse_qualifier (write_end d ++ rest) = (qualifier_of (d_size d), conv_char (d_conv d) :: rest).
Proof. unfold write_end. destruct (d_size d) as [[]|], (d_conv d); reflexivity. Qed.

(** ** Conversions *)

(** What the flags, the width and the precision of the loop say of the style. *)
Record reads (fl w p : Z) (st : style) : Prop := {
  rd_minus : has fl LEFT = minus st;
  rd_plus : has fl PLUS = plus st;
  rd_blank : has fl SPACE = blank st;
  rd_zero : has fl ZEROPAD = zero st;
  rd_sign : has fl SIGN = false;
  rd_large : has fl LARGE = false;
  rd_width : match width st with Some x => w = x /\ 0 <= x | None => w = -1 end;
  rd_prec : match prec st with Some x => p = x /\ 0 <= x | None => p <= 0 end;
}.

Lemma num_digits_pos fuel large base n : (1 <= length (num_digits (S fuel) large base n))%nat.
Proof. cbn [num_digits]. destruct (n <? base); [done|]. rewrite length_app. simpl. lia. Qed.

Lemma spaces_neg n : n <= 0 -> spaces n = [].
Proof. intros. unfold spaces. by rewrite Z2Nat.nonpos by lia. Qed.
Lemma zeros_neg n : n <= 0 -> zeros n = [].
Proof. intros. unfold zeros. by rewrite Z2Nat.nonpos by lia. Qed.

Lemma number_shown fl w p st signed upper base num v :
  has fl LEFT = minus st -> has fl PLUS = plus st -> has fl SPACE = blank st -> has fl ZEROPAD = zero st ->
  has fl SIGN = signed -> has fl LARGE = upper ->
  match width st with Some x => w = x /\ 0 <= x | None => w = -1 end ->
  match prec st with Some x => p = x /\ 0 <= x | None => p <= 0 end ->
  base = 10 \/ base = 16 -> Z.abs v < 4294967296 -> (if signed then num = v else u32 num = v /\ 0 <= v) ->
  deviates (INumber st signed upper base v) = false ->
  number_text num base w p fl = shown (INumber st signed upper base v).
Proof.
  intros HL HP HS HZ Hsg HU Hw Hp Hb Hv Hn Hdev. unfold number_text. rewrite HL, HP, HS, HZ, Hsg, HU.
  assert ((if base =? 10 then 10 else 16) = base) as -> by (by destruct Hb as [-> | ->]).
  assert ((if signed then Z.abs num else u32 num) = Z.abs v) as ->.
  { destruct signed; [by subst|]. destruct Hn as [-> ?]. lia. }
  cbn [shown]. unfold digits_text, sign_text. cbn [deviates] in Hdev. apply orb_false_iff in Hdev as [Hdev H0].
  apply orb_false_iff in Hdev as [_ Hz]. rewrite H0. rewrite numeral_ok by (auto; lia). cbv zeta.
  set (ds := num_digits 16 upper base (Z.abs v)).
  assert (1 <= Z.of_nat (length ds)) as Hds by (pose proof (num_digits_pos 15 upper base (Z.abs v)) as H; fold ds in H; lia).
  assert (zeros (default 1 (prec st) - Z.of_nat (length ds)) = zeros (p - Z.of_nat (length ds))) as ->.
  { destruct (prec st) as [x|]; [by destruct Hp as [-> _]|]. simpl. by rewrite !zeros_neg by lia. }
  set (body := zeros (p - Z.of_nat (length ds)) ++ ds).
  assert ((if signed && (num <? 0) then [45] else if signed && plus st then [43] else if signed && blank st then [32] else []) =
          (if signed then if v <? 0 then [45] else if plus st then [43] else if blank st then [32] else [] else [])) as ->.
  { destruct signed; [|done]. by subst. }
  set (sg := if signed then _ else _).
  assert (1 <= Z.of_nat (length body)) as Hbody by (unfold body; rewrite length_app; lia).
  assert (forall f : Z -> list Z, (forall n, n <= 0 -> f n = []) ->
    f (w - Z.of_nat (length sg) - Z.of_nat (length body)) = f (default 0 (width st) - Z.of_nat (length (sg ++ body)))) as Hgap.
  { intros f Hf. rewrite length_app. destruct (width st) as [x|]; simpl.
    - destruct Hw as [-> _]. f_equal. lia.
    - rewrite !Hf by lia. done. }
  rewrite (Hgap spaces spaces_neg), (Hgap zeros zeros_neg).
  destruct (minus st); [done|]. destruct (zero st); [|done]. cbn [andb negb] in *.
  apply bool_decide_eq_false in Hz. by rewrite bool_decide_true by (by destruct (prec st); [destruct Hz|]).
Qed.

Lemma string_shown fl w p st s : reads fl w p st -> prec st <> Some 0 ->
  field fl w (if 0 <? p then take (Z.to_nat p) s else s) = shown (IString st s).
Proof.
  intros R Hp. unfold field. rewrite (rd_minus _ _ _ _ R). cbn [shown].
  assert ((if 0 <? p then take (Z.to_nat p) s else s) = match prec st with Some p => take (Z.to_nat p) s | None => s end) as ->.
  { pose proof (rd_prec _ _ _ _ R) as H. destruct (prec st) as [x|].
    - destruct H as [-> ?]. rewrite (proj2 (Z.ltb_lt 0 x)); [done|]. assert (x <> 0) by congruence. lia.
    - by rewrite (proj2 (Z.ltb_ge 0 p)) by lia. }
  generalize (match prec st with Some p => take (Z.to_nat p) s | None => s end). intros t.
  assert (spaces (w - Z.of_nat (length t)) = spaces (default 0 (width st) - Z.of_nat (length t))) as ->; [|done].
  pose proof (rd_width _ _ _ _ R) as H. destruct (width st) as [x|]; [by destruct H as [-> _]|]. by rewrite !spaces_neg by (simpl; lia).
Qed.

Lemma int_arg_value sz n signed fl : has fl SIGN = signed ->
  if signed then int_arg fl (qualifier_of sz) (i32 n) = value_of true sz (i32 n)
  else u32 (int_arg fl (qualifier_of sz) (i32 n)) = value_of false sz (i32 n) /\ 0 <= value_of false sz (i32 n).
Proof.
  intros <-. unfold int_arg, value_of. assert (forall k, i32 (u32 k) = i32 k) as Hiu.
  { intros k. unfold swrap, wrap. change (2 ^ (32 - 1)) with 2147483648. change (2 ^ 32) with 4294967296. Z.div_mod_to_equations. lia. }
  assert (forall k, - 32768 <= i16 k < 32768) as H16.
  { intros k. unfold swrap. change (2 ^ (16 - 1)) with 32768. change (2 ^ 16) with 65536. Z.div_mod_to_equations. lia. }
  assert (0 <= wrap 16 (i32 n) < 2 ^ 16 /\ 0 <= wrap 32 (i32 n) < 2 ^ 32) as [Hw16 Hw32] by (split; apply wrap_range; lia).
  assert (forall k, i16 (u16 k) = i16 k) as H16u.
  { intros k. unfold swrap, wrap. change (2 ^ (16 - 1)) with 32768. change (2 ^ 16) with 65536. Z.div_mod_to_equations. lia. }
  destruct sz as [[]|], (has fl SIGN); cbn [qualifier_of Z.eqb Pos.eqb]; rewrite ?H16u, ?Hiu; try done.
  - rewrite swrap_small; [done|lia|]. specialize (H16 (i32 n)). simpl in *. lia.
  - rewrite i32_u32. split; [|lia]. apply wrap_small. unfold in_u. simpl in *. lia.
  - rewrite i32_u32. split; [done|lia].
  - rewrite i32_u32. split; [done|lia].
Qed.

Lemma value_range signed sz n : Z.abs (value_of signed sz n) < 4294967296.
Proof.
  unfold value_of, swrap, wrap. change (2 ^ (32 - 1)) with 2147483648. change (2 ^ 32) with 4294967296.
  change (2 ^ (16 - 1)) with 32768. change (2 ^ 16) with 65536.
  destruct sz as [[]|], signed; Z.div_mod_to_equations; lia.
Qed.

Lemma number_converts d st fl w p (signed upper : bool) base args it args' fl' :
  reads fl w p st -> base = 10 \/ base = 16 ->
  fl' = (fl |. if signed then SIGN else if upper then LARGE else 0) -> signed && upper = false ->
  number_of d st signed upper base args = Some (it, args') -> deviates it = false ->
  next_int args ≫= (fun '(n, args) => Some (number_text (int_arg fl' (qualifier_of (d_size d)) n) base w p fl', args)) =
    Some (shown it, args').
Proof.
  intros R Hb Hfl Hsu H Hdev. unfold number_of in H. change (next_int args) with (va_int args).
  destruct args as [|[v|s] args]; [done| |done]. cbn [va_int mbind option_bind] in H |- *.
  injection H as <- <-. f_equal. f_equal. destruct R as [R1 R2 R3 R4 R5 R6 R7 R8].
  assert (forall f, has fl' f = has fl f || has (if signed then SIGN else if upper then LARGE else 0) f) as Hf
    by (intros f; rewrite Hfl; apply has_lor).
  assert (has fl' SIGN = signed) as Hs by (rewrite Hf, R5; by destruct signed, upper).
  pose proof (int_arg_value (d_size d) v signed fl' Hs) as Hn. pose proof (value_range signed (d_size d) (i32 v)).
  apply number_shown; try done; try (by destruct signed); rewrite Hf, ?R1, ?R2, ?R3, ?R4, ?R6.
  all: destruct signed, upper; try done; apply orb_false_r.
Qed.

(** The styles of [%c] and [%p]. *)
Lemma reads_no_prec fl w p st : reads fl w p st -> reads fl w (-1) (no_prec st).
Proof. intros [? ? ? ? ? ? ? ?]. by split. Qed.

Lemma reads_pointer fl w p st : reads fl w p st -> width st = None -> reads (fl |. ZEROPAD) 8 p (pointer_style st).
Proof.
  intros [R1 R2 R3 R4 R5 R6 R7 R8] Hw. unfold pointer_style. rewrite Hw.
  split; cbn [minus plus blank zero width prec]; rewrite ?has_lor, ?R1, ?R2, ?R3, ?R4, ?R5, ?R6; try done; try apply orb_false_r.
  by destruct (zero st).
Qed.

Lemma pointer_converts d st fl w p args it args' :
  reads fl w p st -> d_size d = None -> number_of d st false false 16 args = Some (it, args') -> deviates it = false ->
  next_int args ≫= (fun '(n, args) => Some (number_text n 16 w p fl, args)) = Some (shown it, args').
Proof.
  intros R Hsz H Hdev.
  destruct args as [|[v|s] args]; [done| |done]. unfold number_of in H. cbn [va_int next_int mbind option_bind] in H |- *.
  injection H as <- <-. f_equal. f_equal. rewrite Hsz in *. destruct R. pose proof (value_range false None (i32 v)).
  apply number_shown; try done; [auto|]. split; [done|]. apply wrap_range. lia.
Qed.

Lemma conv_shown d st fl w p args it args' :
  directive_ok d -> reads fl w p st -> convert d st args = Some (it, args') -> deviates it = false ->
  conv_text (conv_char (d_conv d)) fl w p (qualifier_of (d_size d)) args = Some (shown it, args').
Proof.
  intros (_ & _ & Hsz) R H Hdev. unfold convert, conv_text in *. destruct (d_conv d); cbn [conv_char Z.eqb Pos.eqb orb int_conv].
  - by eapply number_converts; eauto.
  - by eapply number_converts; eauto.
  - eapply (number_converts _ _ _ _ _ false false); eauto. by rewrite Z.lor_0_r.
  - exfalso. unfold number_of in H. destruct (va_int args) as [[v a]|]; [|done]. injection H as <- <-. done.
  - eapply (number_converts _ _ _ _ _ false false); eauto. by rewrite Z.lor_0_r.
  - by eapply (number_converts _ _ _ _ _ false true); eauto.
  - change (next_int args) with (va_int args). destruct (va_int args) as [[v a]|]; [|done]. cbn [mbind option_bind] in *.
    injection H as <- <-. f_equal. f_equal. apply (string_shown fl w (-1) (no_prec st) [wrap 8 v]); [by eapply reads_no_prec|done].
  - destruct args as [|[v|s] args]; [done..|]. injection H as <- <-. f_equal. f_equal.
    cbn [deviates] in Hdev. apply bool_decide_eq_false in Hdev. exact (string_shown fl w p st _ R Hdev).
  - unfold pointer_style in H. pose proof (rd_width _ _ _ _ R) as Hw. destruct (width st) as [x|] eqn:Ew.
    + rewrite (proj2 (Z.eqb_neq w (-1))) by lia. by eapply pointer_converts.
    + subst w. eapply pointer_converts; [by eapply reads_pointer|done| |done]. unfold pointer_style. by rewrite Ew.
Qed.

(** ** Formats *)

Lemma loop_directive fuel d rest args it args' out :
  directive_ok d -> item_of d args = Some (it, args') -> deviates it = false -> loop_text fuel rest args' = Some out ->
  loop_text (S fuel) (write_piece (Dir d) ++ rest) args = Some (shown it ++ out).
Proof.
  intros Hok H Hdev Hrest. unfold item_of, style_of in H.
  apply option_bind_inv in H as ([st a3] & ([w a1] & Ew & ([p a2] & Ep & Est)%option_bind_inv)%option_bind_inv & Hc).
  cbv beta match in Est, Hc. destruct (Z.ltb_spec (default 0 w) (-2147483647)) as [|Hmin]; [done|]. injection Est as Est <-.
  cbn [write_piece app loop_text]. rewrite Z.eqb_refl. cbn [negb]. rewrite <-!app_assoc.
  rewrite parse_flags_written by (by apply width_head). rewrite Z.lor_0_l. set (fl := flag_bits (d_flags d)).
  rewrite (parse_width_written d fl rest args w a1 Hok Ew Hmin). cbn [mbind option_bind].
  destruct (parse_precision_written d rest a1 p a2 Hok Ep) as (pz & -> & Hpz). cbn [mbind option_bind].
  rewrite parse_qualifier_written. cbn [hd List.tl].
  set (fl' := if default 0 w <? 0 then fl |. LEFT else fl).
  assert (reads fl' (from_option Z.abs (-1) w) pz st) as R.
  { assert (forall f, has fl' f = has fl f || ((default 0 w <? 0) && has LEFT f)) as Hf.
    { intros f. unfold fl'. destruct (default 0 w <? 0); [apply has_lor|symmetry; apply orb_false_r]. }
    subst st. split; cbn [minus plus blank zero width prec]; rewrite ?Hf; unfold fl.
    - rewrite (has_flag_bits _ Minus). by rewrite andb_true_r.
    - rewrite (has_flag_bits _ Plus), andb_false_r. apply orb_false_r.
    - rewrite (has_flag_bits _ Blank), andb_false_r. apply orb_false_r.
    - rewrite (has_flag_bits _ Zero), andb_false_r. apply orb_false_r.
    - rewrite has_flag_bits_other by auto. apply andb_false_r.
    - rewrite has_flag_bits_other by auto. apply andb_false_r.
    - destruct w as [w|]; [|done]. simpl. lia.
    - done. }
  rewrite (conv_shown d st _ _ _ _ _ _ Hok R Hc Hdev). cbn [mbind option_bind]. by rewrite Hrest.
Qed.

Lemma write_piece_pos p : (1 <= length (write_piece p))%nat.
Proof. destruct p; simpl; lia. Qed.

Lemma loop_format ps : forall fuel args its, (length (write_format ps) < fuel)%nat -> Forall piece_ok ps ->
  items ps args = Some its -> Forall (fun it => deviates it = false) its ->
  loop_text fuel (write_format ps) args = Some (format_text its).
Proof.
  induction ps as [|p ps IH]; intros fuel args its Hf Hok Hi Hdev.
  { destruct fuel; [simpl in Hf; lia|]. by injection Hi as <-. }
  unfold write_format in *. cbn [fmap list_fmap concat] in *. fold (write_format ps) in *. rewrite length_app in Hf.
  pose proof (write_piece_pos p) as Hp. destruct fuel as [|fuel]; [lia|]. apply Forall_cons in Hok as [Hp0 Hok].
  destruct p as [c| |d]; cbn [items] in Hi.
  - destruct (items ps args) as [its'|] eqn:E; [|done]. injection Hi as <-. apply Forall_cons in Hdev as [_ Hdev].
    cbn [write_piece app loop_text]. rewrite (proj2 (Z.eqb_neq c 37)) by apply Hp0. cbn [negb].
    rewrite (IH fuel args its') by (done || lia). done.
  - destruct (items ps args) as [its'|] eqn:E; [|done]. injection Hi as <-. apply Forall_cons in Hdev as [_ Hdev].
    assert (loop_text (S fuel) (write_piece Percent ++ write_format ps) args =
      loop_text fuel (write_format ps) args ≫= (fun rest => Some ([37] ++ rest))) as -> by reflexivity.
    rewrite (IH fuel args its') by (done || (simpl in Hf; lia)). done.
  - apply option_bind_inv in Hi as ([it a] & Ei & Hi). destruct (items ps a) as [its'|] eqn:E; [|done]. injection Hi as <-.
    apply Forall_cons in Hdev as [Hd Hdev]. unfold format_text. cbn [fmap list_fmap concat]. fold (format_text its').
    eapply loop_directive; [done|exact Ei|done|]. apply IH; (done || lia).
Qed.


(** ** Examples *)

(** The format [n=%-4d|%+05i|%.3s|%*x|%hu%%]. *)
Definition demo_format : list piece :=
  [Char 110; Char 61; Dir (Directive [Minus] (Some (Number 4)) None None Conv_d); Char 124;
   Dir (Directive [Plus; Zero] (Some (Number 5)) None None Conv_i); Char 124;
   Dir (Directive [] None (Some (Some (Number 3))) None Conv_s); Char 124;
   Dir (Directive [] (Some Star) None None Conv_x); Char 124;
   Dir (Directive [] None None (Some Short) Conv_u); Percent].
Definition demo_args : list va := [VInt (-12); VInt 7; VStr (Some (codes "zigbee")); VInt (-6); VInt 255; VInt 65541].

Example demo_format_written : write_format demo_format = codes "n=%-4d|%+05i|%.3s|%*x|%hu%%".
Proof. vm_compute. reflexivity. Qed.


(** The text of ISO C and that of [rt_vsnprintf]. *)
Definition both (d : directive) (args : list va) : option (list Z * list Z) :=
  its ← items [Dir d] args;
  '(n, m) ← rt_vsnprintf 1000 30 (write_format [Dir d]) args text_ram;
  bs ← read_bytes m 1000 (Z.to_nat n); Some (format_text its, bs).

(** The deviations are real: [%o], [%05.3d], [%.0d] and [%.0s]. *)
Example directives_deviate :
  both (Directive [] None None None Conv_o) [VInt 26] = Some (codes "32", codes "1a") /\
  both (Directive [Zero] (Some (Number 5)) (Some (Some (Number 3))) None Conv_d) [VInt 7] = Some (codes "  007", codes "00007") /\
  both (Directive [] None (Some (Some (Number 0))) None Conv_d) [VInt 0] = Some ([], codes "0") /\
  both (Directive [] None (Some (Some (Number 0))) None Conv_s) [VStr (Some (codes "ab"))] = Some ([], codes "ab").
Proof. split_and!; vm_compute; reflexivity. Qed.
