(* ===== verification/HeapAlign.v ===== *)
(** * Aligned memory: rt_malloc_align and rt_free_align of src/kservice.c

    A block of the heap is taken that is larger by the alignment; the pointer that is
    handed out is aligned inside of it, and the word in front of it keeps the pointer
    that the heap returned. *)

From S2P Require Import Prelude Heap LwipMem.

Module HeapAlign.
Import Heap.

(** ** Operations *)

Fixpoint poke (o : Z) (bs : list Z) (m : gmap Z Z) : gmap Z Z :=
  match bs with
  | [] => m
  | b :: bs => poke (o + 1) bs (<[o := b]> m)
  end.

(** A word at an address of the heap. *)
Definition store_word (a v : Z) (h : heap) : option heap :=
  let o := a - heap_ptr h in
  guard ((0 <=? o) && (o + 4 <=? heap_end h + SIZEOF_STRUCT_MEM));;
  Some (set_bytes (poke o (le_bytes 4 v) (bytes h)) h).

Definition load_word (a : Z) (h : heap) : option Z :=
  le_num <$> read_bytes (bytes h) (a - heap_ptr h) 4.

Section Align.
Context (garbage : Z -> Z).

Definition rt_malloc_align (nest size align : Z) (h : heap) : option (option Z * heap) :=
  let align := u32 (align + 3) &~ 3 in
  let align_size := u32 ((u32 (size + 3) &~ 3) + align) in
  '(ptr, h) ← rt_malloc garbage nest align_size h;
  match ptr with
  | None => Some (None, h)
  | Some ptr =>
      let align_ptr := if ptr &. u32 (align - 1) =? 0 then u32 (ptr + align)
                       else u32 (ptr + u32 (align - 1)) &~ u32 (align - 1) in
      h ← store_word (u32 (align_ptr - 4)) ptr h;
      Some (Some align_ptr, h)
  end.

Definition rt_free_align (nest ptr : Z) (h : heap) : option heap :=
  real_ptr ← load_word (u32 (ptr - 4)) h;
  rt_free nest (if real_ptr =? 0 then None else Some real_ptr) h.
End Align.

(** ** The word in front *)

Lemma poke_lookup bs : forall o m i, i < o -> poke o bs m !! i = m !! i.
Proof.
  induction bs as [|b bs IH]; intros o m i Hi; [done|]. simpl. rewrite IH by lia. by rewrite lookup_insert_ne by lia.
Qed.

Lemma read_poke bs : forall o m, read_bytes (poke o bs m) o (length bs) = Some bs.
Proof.
  induction bs as [|b bs IH]; intros o m; [done|]. simpl.
  rewrite poke_lookup by lia. rewrite lookup_insert_eq. simpl. by rewrite IH.
Qed.

(** ** Blocks that are used *)

Lemma used_split bl : forall e o next, (o, next) ∈ used_blocks bl e ->
  exists l1 l2, bl = l1 ++ (o, true) :: l2 /\ next = first l2 e.
Proof.
  induction bl as [|[x u] bl IH]; intros e o next; simpl; [by intros ?%elem_of_nil|].
  destruct u; [intros [[= -> ->]|Hin]%elem_of_cons|intros Hin].
  - by exists [], bl.
  - destruct (IH _ _ _ Hin) as (l1 & l2 & -> & ->). by exists ((x, true) :: l1), l2.
  - destruct (IH _ _ _ Hin) as (l1 & l2 & -> & ->). by exists ((x, false) :: l1), l2.
Qed.

Lemma used_blocks_start hd p l e x : hchain hd p l e -> x ∈ used_blocks l e -> x.1 < x.2.
Proof.
  revert p. induction l as [|[o u] l IH]; intros p; simpl; [by intros _ []%elem_of_nil|].
  intros (_ & H1 & _ & H2). unfold SIZEOF_STRUCT_MEM in H1.
  destruct u; [intros [->|Hin]%elem_of_cons; [simpl; lia|]|intros Hin]; by eapply IH.
Qed.

(** The block that starts at [o] splits the used blocks in one way only. *)
Lemma used_unique (o n n' : Z) (x y x' y' : list (Z * Z)) :
  x ++ (o, n) :: y = x' ++ (o, n') :: y' -> (forall z, z ∈ x -> z.1 < o) -> (forall z, z ∈ x' -> z.1 < o) ->
  x = x' /\ y = y'.
Proof.
  revert x'. induction x as [|z x IH]; intros [|z' x'] E Hx Hx'; simpl in E; simplify_eq.
  - done.
  - specialize (Hx' (o, n) ltac:(left)). simpl in Hx'. lia.
  - specialize (Hx (o, n') ltac:(left)). simpl in Hx. lia.
  - destruct (IH x') as [-> ->]; try done; intros; [apply Hx|apply Hx']; by right.
Qed.

Lemma used_before h l1 o u l2 x :
  heap_core h (l1 ++ (o, u) :: l2) -> x ∈ used_blocks l1 o -> x.1 < o.
Proof.
  intros C Hx. pose proof (ho_chain _ _ C) as H. apply hchain_app in H as [H _]. simpl in H.
  pose proof (used_blocks_start _ _ _ _ _ H Hx). pose proof (used_blocks_left _ _ _ _ _ H Hx). lia.
Qed.

(** ** Taking and giving back *)

Lemma ldiff_pow2 a k : 0 <= k -> 0 <= a -> a &~ (2 ^ k - 1) = a - a mod 2 ^ k.
Proof.
  intros Hk Ha. rewrite Z.sub_1_r, <-Z.ones_equiv, Z.ldiff_ones_r, Z.shiftl_mul_pow2, Z.shiftr_div_pow2 by lia.
  pose proof (Z.div_mod a (2 ^ k) ltac:(apply Z.pow_nonzero; lia)). lia.
Qed.

Lemma land_pow2_mask a k : 0 <= k -> a &. (2 ^ k - 1) = a mod 2 ^ k.
Proof. intros Hk. by rewrite Z.sub_1_r, <-Z.ones_equiv, Z.land_ones by lia. Qed.

(** The pointer that is handed out: aligned, at least a word and at most [A] behind the
    pointer of the heap. *)
Lemma align_ptr_spec ptr k A : A = 2 ^ k -> 2 <= k <= 31 -> ptr mod 4 = 0 -> 0 < ptr -> ptr + A < 2 ^ 32 ->
  let a := if ptr &. u32 (A - 1) =? 0 then u32 (ptr + A) else u32 (ptr + u32 (A - 1)) &~ u32 (A - 1) in
  a mod A = 0 /\ ptr + 4 <= a <= ptr + A /\ a mod 4 = 0.
Proof.
  intros EA Hk H4 Hp Hlt. assert (0 < A <= 2 ^ 31) as HA.
  { rewrite EA. split; [apply Z.pow_pos_nonneg; lia|apply Z.pow_le_mono_r; lia]. }
  assert (exists q, A = 4 * q /\ 0 < q) as (q & Eq & Hq).
  { exists (2 ^ (k - 2)). split; [|apply Z.pow_pos_nonneg; lia].
    rewrite EA. replace k with (2 + (k - 2)) at 1 by lia. rewrite Z.pow_add_r by lia. done. }
  assert (forall x, x mod A = 0 -> x mod 4 = 0) as Hdiv.
  { intros x Hx. apply Z.mod_divide in Hx as [z ->]; [|lia]. rewrite Eq. apply Z.mod_divide; [lia|].
    exists (z * q). lia. }
  rewrite (wrap_small 32 (A - 1)) by (unfold in_u; lia). rewrite !wrap_small by (unfold in_u; lia).
  assert (A - 1 = 2 ^ k - 1) as -> by lia. rewrite land_pow2_mask, ldiff_pow2 by lia. rewrite <-EA. cbv zeta.
  pose proof (Z.mod_pos_bound ptr A ltac:(lia)) as Hm. destruct (Z.eqb_spec (ptr mod A) 0) as [E0|E0].
  - assert ((ptr + A) mod A = 0) as E by (rewrite Z.add_mod, E0, Z.mod_same by lia; apply Z.mod_0_l; lia).
    split; [done|]. split; [lia|by apply Hdiv].
  - set (x := ptr + (A - 1)). assert ((x - x mod A) mod A = 0) as E.
    { rewrite Zminus_mod, Zmod_mod, Z.sub_diag. apply Z.mod_0_l. lia. }
    split; [done|]. pose proof (Z.mod_pos_bound x A ltac:(lia)).
    pose proof (Hdiv _ E) as E4. split; [|done]. split; [|lia].
    assert (x mod A = ptr mod A - 1) as Ex.
    { symmetry. apply (Z.mod_unique x A (ptr / A + 1)); [lia|]. unfold x. pose proof (Z.div_mod ptr A ltac:(lia)). lia. }
    destruct (Z.le_gt_cases (ptr + 4) (x - x mod A)); [done|]. exfalso.
    apply Z.mod_divide in H4 as [y Hy]; [|lia]. apply Z.mod_divide in E4 as [z Hz]; [|lia]. lia.
Qed.

Lemma round4 x : 0 <= x <= 2 ^ 32 - 4 -> u32 (x + 3) &~ 3 = x + (- x) mod 4.
Proof.
  intros Hx. rewrite wrap_small by (unfold in_u; lia). rewrite ldiff_3 by lia.
  pose proof (Z.mod_pos_bound (x + 3) 4 ltac:(lia)). Z.div_mod_to_equations. lia.
Qed.

Section Align.
Context (garbage : Z -> Z).

(** C32. [rt_malloc_align] returns, for an alignment that is a power of two of at least 4,
    null with the heap unchanged, or an aligned pointer with room for the requested size
    inside of a new block of the heap; [rt_free_align] of that pointer gives the block
    back, and the allocated blocks are those of before. *)
Theorem rt_malloc_align_ok h bl size k :
  heap_ok h bl -> MIN_SIZE_ALIGNED <= mem_size_aligned h -> 2 <= k <= 31 -> 0 <= size ->
  size + 2 ^ k <= 2 ^ 32 - 8 ->
  exists r h', rt_malloc_align garbage 0 size (2 ^ k) h = Some (r, h') /\
    match r with
    | None => h' = h
    | Some a => a mod 2 ^ k = 0 /\
        exists bl' o next, heap_ok h' bl' /\ (o, next) ∈ used_blocks bl' (heap_end h) /\
          (forall x, x ∈ used_blocks bl (heap_end h) -> x ∈ used_blocks bl' (heap_end h) /\ (x.2 <= o \/ next <= x.1)) /\
          heap_ptr h + o + SIZEOF_STRUCT_MEM + 4 <= a /\ a + size <= heap_ptr h + next /\
          exists h'' bl'', rt_free_align 0 a h' = Some h'' /\ heap_ok h'' bl'' /\
            used_blocks bl'' (heap_end h) = used_blocks bl (heap_end h)
    end.
Proof.
  intros K Hmin Hk Hs Hmax. set (A := 2 ^ k). assert (4 <= A) as HA4.
  { change 4 with (2 ^ 2). apply Z.pow_le_mono_r; lia. }
  assert (A mod 4 = 0) as HAm.
  { apply Z.mod_divide; [lia|]. exists (2 ^ (k - 2)). unfold A. replace k with (2 + (k - 2)) at 1 by lia.
    rewrite Z.pow_add_r by lia. lia. }
  fold A in Hmax. unfold rt_malloc_align. cbv zeta.
  assert (u32 (A + 3) &~ 3 = A) as EA.
  { rewrite round4 by lia. assert ((- A) mod 4 = 0) as -> by (rewrite Z.mod_opp_l_z by lia; done). lia. }
  rewrite EA, round4 by lia. set (sz := size + (- size) mod 4).
  assert (size <= sz < size + 4) as Hsz by (unfold sz; pose proof (Z.mod_pos_bound (- size) 4 ltac:(lia)); lia).
  rewrite (wrap_small 32 (sz + A)) by (unfold in_u; lia).
  destruct (malloc_spec garbage h bl (sz + A) K Hmin ltac:(lia)) as (r & h1 & E1 & Hr). rewrite E1. cbn [mbind option_bind].
  destruct r as [ptr|]; [|exists None, h1; by destruct Hr as [-> _]].
  destruct Hr as (l1 & o & l2 & bl1 & next & -> & -> & Hp4 & Hroom & Hapart & Sm & K1 & Eu & _).
  pose proof Sm as (Ep & _ & _). pose proof K1 as (C1 & _ & _). pose proof (ho_addr _ _ C1) as [Ha1 Ha2].
  pose proof (same_end _ _ Sm) as Ee. rewrite Ee, Ep in Ha2. rewrite Ep in Ha1.
  assert ((o, next) ∈ used_blocks bl1 (heap_end h)) as Hin by (rewrite Eu; set_solver).
  destruct (used_split _ _ _ _ Hin) as (m1 & m2 & -> & Enext).
  destruct (core_block _ _ _ _ _ C1) as (_ & Ho & Hob). rewrite Ee, <-Enext in Hob.
  assert (sz + A <= request (sz + A)) as Hreq.
  { unfold request. pose proof (RT_ALIGN_spec (sz + A) ltac:(lia)). lia. }
  unfold SIZEOF_STRUCT_MEM in *. set (ptr := heap_ptr h + o + 12) in *.
  destruct (align_ptr_spec ptr k A eq_refl Hk Hp4 ltac:(lia) ltac:(lia)) as (Hmod & Hrange & Hm4). cbv zeta in *.
  set (a := if _ =? 0 then _ else _) in *. rewrite (wrap_small 32 (a - 4)) by (unfold in_u; lia).
  unfold store_word. rewrite Ep, Ee. unfold guard, SIZEOF_STRUCT_MEM.
  rewrite (proj2 (Z.leb_le _ _)), (proj2 (Z.leb_le _ _)) by lia. cbn [andb mbind option_bind].
  set (h2 := set_bytes _ h1). assert (heap_ok h2 (m1 ++ (o, true) :: m2)) as K2 by (by apply heap_ok_bytes).
  eexists (Some a), h2. split; [done|]. split; [done|]. exists (m1 ++ (o, true) :: m2), o, next.
  split; [done|]. split; [done|].
  assert (used_blocks (l1 ++ (o, false) :: l2) (heap_end h) = used_blocks l1 o ++ used_blocks l2 (heap_end h)) as Ebl
    by (by rewrite used_blocks_app).
  split; [intros x Hx; split; [rewrite Eu; rewrite Ebl in Hx; set_solver|by apply Hapart]|]. split; [lia|]. split; [lia|].
  destruct (free_used h2 m1 o m2 K2) as (h3 & bl3 & E3 & S3 & K3 & U3 & _).
  change (heap_ptr h2) with (heap_ptr h1) in E3. change (heap_end h2) with (heap_end h1) in U3. rewrite Ep in E3. rewrite Ee in U3.
  exists h3, bl3. split; [|split; [done|]].
  - unfold rt_free_align, load_word. rewrite (wrap_small 32 (a - 4)) by (unfold in_u; lia).
    change (heap_ptr h2) with (heap_ptr h1). rewrite Ep. change (bytes h2) with (poke (a - 4 - heap_ptr h) (le_bytes 4 ptr) (bytes h1)).
    change 4%nat with (length (le_bytes 4 ptr)) at 2. rewrite read_poke. cbn [fmap option_fmap option_map mbind option_bind].
    rewrite le_num_bytes by (simpl; lia). rewrite (proj2 (Z.eqb_neq _ _)) by lia. exact E3.
  - rewrite U3, Ebl. rewrite used_blocks_app in Eu. cbn [first used_blocks] in Eu.
    destruct (used_unique _ _ _ _ _ _ _ Eu) as [<- <-].
    + intros z Hz. by eapply used_before.
    + intros z Hz. destruct K as (C & _). exact (used_before h l1 o false l2 z C Hz).
    + done.
Qed.
End Align.

Lemma rt_malloc_align_ok_witness :
  exists a h', rt_malloc_align no_garbage 0 100 (2 ^ 6) demo_heap = Some (Some a, h') /\ a mod 64 = 0 /\
    exists h'' bl'', rt_free_align 0 a h' = Some h'' /\ used_blocks bl'' 1012 = [].
Proof.
  destruct (rt_malloc_align_ok no_garbage demo_heap [(0, false)] 100 6 demo_heap_ok ltac:(ev) ltac:(lia) ltac:(lia) ltac:(lia))
    as (r & h' & E & H). destruct r as [a|].
  - destruct H as (Ha & bl' & o & next & _ & _ & _ & _ & _ & h'' & bl'' & Ef & _ & Eu).
    exists a, h'. split; [exact E|]. split; [exact Ha|]. exists h'', bl''. split; [exact Ef|exact Eu].
  - vm_compute in E. discriminate E.
Defined.

End HeapAlign.
