(* ===== verification/Driver.v ===== *)
(** * Devices and the communication of drivers: the state

    struct rt_device of include/rtdef.h and the structures of
    components/drivers/include/rtdevice.h as records, and the state [drivers]: the
    kernel, the memory of the text buffers, and the objects that src/device.c,
    src/kservice.c and components/drivers/src/ work on.  [D] is the monad of their
    operations, [on_k] runs an operation of the kernel in it.

    The functions of a driver are behind function pointers.  A pointer is a number here,
    [None] is the null pointer, and the class [driver_fns] says what is behind them.

    The thread lists of an object at [p] are [QSuspend p] and, where it has two,
    [QSender p]: the readers (or those that wait for data), and the writers. *)

From S2P Require Import Prelude RingBuffer Kernel Scheduler Object Timer Thread KernelOk Ipc StateM.

Record rt_device := Device {
  dev_type : Z;
  dev_flag : Z;
  open_flag : Z;
  ref_count : Z;
  device_id : Z;
  rx_indicate : option Z;
  tx_complete : option Z;
  dev_init : option Z;
  dev_open : option Z;
  dev_close : option Z;
  dev_read : option Z;
  dev_write : option Z;
  dev_control : option Z;
  dev_user_data : Z;
}.

Definition set_dev_type (x : Z) (r : rt_device) : rt_device :=
  Device x (dev_flag r) (open_flag r) (ref_count r) (device_id r) (rx_indicate r)
    (tx_complete r) (dev_init r) (dev_open r) (dev_close r) (dev_read r) (dev_write r)
    (dev_control r) (dev_user_data r).
Definition set_dev_flag (x : Z) (r : rt_device) : rt_device :=
  Device (dev_type r) x (open_flag r) (ref_count r) (device_id r) (rx_indicate r)
    (tx_complete r) (dev_init r) (dev_open r) (dev_close r) (dev_read r) (dev_write r)
    (dev_control r) (dev_user_data r).
Definition set_open_flag (x : Z) (r : rt_device) : rt_device :=
  Device (dev_type r) (dev_flag r) x (ref_count r) (device_id r) (rx_indicate r)
    (tx_complete r) (dev_init r) (dev_open r) (dev_close r) (dev_read r) (dev_write r)
    (dev_control r) (dev_user_data r).
Definition set_ref_count (x : Z) (r : rt_device) : rt_device :=
  Device (dev_type r) (dev_flag r) (open_flag r) x (device_id r) (rx_indicate r)
    (tx_complete r) (dev_init r) (dev_open r) (dev_close r) (dev_read r) (dev_write r)
    (dev_control r) (dev_user_data r).
Definition set_device_id (x : Z) (r : rt_device) : rt_device :=
  Device (dev_type r) (dev_flag r) (open_flag r) (ref_count r) x (rx_indicate r)
    (tx_complete r) (dev_init r) (dev_open r) (dev_close r) (dev_read r) (dev_write r)
    (dev_control r) (dev_user_data r).
Definition set_rx_indicate (x : option Z) (r : rt_device) : rt_device :=
  Device (dev_type r) (dev_flag r) (open_flag r) (ref_count r) (device_id r) x
    (tx_complete r) (dev_init r) (dev_open r) (dev_close r) (dev_read r) (dev_write r)
    (dev_control r) (dev_user_data r).
Definition set_tx_complete (x : option Z) (r : rt_device) : rt_device :=
  Device (dev_type r) (dev_flag r) (open_flag r) (ref_count r) (device_id r)
    (rx_indicate r) x (dev_init r) (dev_open r) (dev_close r) (dev_read r) (dev_write
    r) (dev_control r) (dev_user_data r).
Definition set_dev_init (x : option Z) (r : rt_device) : rt_device :=
  Device (dev_type r) (dev_flag r) (open_flag r) (ref_count r) (device_id r)
    (rx_indicate r) (tx_complete r) x (dev_open r) (dev_close r) (dev_read r)
    (dev_write r) (dev_control r) (dev_user_data r).
Definition set_dev_open (x : option Z) (r : rt_device) : rt_device :=
  Device (dev_type r) (dev_flag r) (open_flag r) (ref_count r) (device_id r)
    (rx_indicate r) (tx_complete r) (dev_init r) x (dev_close r) (dev_read r)
    (dev_write r) (dev_control r) (dev_user_data r).
Definition set_dev_close (x : option Z) (r : rt_device) : rt_device :=
  Device (dev_type r) (dev_flag r) (open_flag r) (ref_count r) (device_id r)
    (rx_indicate r) (tx_complete r) (dev_init r) (dev_open r) x (dev_read r)
    (dev_write r) (dev_control r) (dev_user_data r).
Definition set_dev_read (x : option Z) (r : rt_device) : rt_device :=
  Device (dev_type r) (dev_flag r) (open_flag r) (ref_count r) (device_id r)
    (rx_indicate r) (tx_complete r) (dev_init r) (dev_open r) (dev_close r) x
    (dev_write r) (dev_control r) (dev_user_data r).
Definition set_dev_write (x : option Z) (r : rt_device) : rt_device :=
  Device (dev_type r) (dev_flag r) (open_flag r) (ref_count r) (device_id r)
    (rx_indicate r) (tx_complete r) (dev_init r) (dev_open r) (dev_close r) (dev_read
    r) x (dev_control r) (dev_user_data r).
Definition set_dev_control (x : option Z) (r : rt_device) : rt_device :=
  Device (dev_type r) (dev_flag r) (open_flag r) (ref_count r) (device_id r)
    (rx_indicate r) (tx_complete r) (dev_init r) (dev_open r) (dev_close r) (dev_read
    r) (dev_write r) x (dev_user_data r).
Definition set_dev_user_data (x : Z) (r : rt_device) : rt_device :=
  Device (dev_type r) (dev_flag r) (open_flag r) (ref_count r) (device_id r)
    (rx_indicate r) (tx_complete r) (dev_init r) (dev_open r) (dev_close r) (dev_read
    r) (dev_write r) (dev_control r) x.

Record rt_data_queue := DataQueue {
  dq_size : Z;
  lwm : Z;
  waiting_lwm : bool;
  get_index : Z;
  put_index : Z;
  dq_queue : list (Z * Z); (* data_ptr and data_size of each item *)
  evt_notify : option Z;
}.

Definition set_dq_size (x : Z) (r : rt_data_queue) : rt_data_queue :=
  DataQueue x (lwm r) (waiting_lwm r) (get_index r) (put_index r) (dq_queue r)
    (evt_notify r).
Definition set_lwm (x : Z) (r : rt_data_queue) : rt_data_queue :=
  DataQueue (dq_size r) x (waiting_lwm r) (get_index r) (put_index r) (dq_queue r)
    (evt_notify r).
Definition set_waiting_lwm (x : bool) (r : rt_data_queue) : rt_data_queue :=
  DataQueue (dq_size r) (lwm r) x (get_index r) (put_index r) (dq_queue r) (evt_notify
    r).
Definition set_get_index (x : Z) (r : rt_data_queue) : rt_data_queue :=
  DataQueue (dq_size r) (lwm r) (waiting_lwm r) x (put_index r) (dq_queue r)
    (evt_notify r).
Definition set_put_index (x : Z) (r : rt_data_queue) : rt_data_queue :=
  DataQueue (dq_size r) (lwm r) (waiting_lwm r) (get_index r) x (dq_queue r)
    (evt_notify r).
Definition set_dq_queue (x : list (Z * Z)) (r : rt_data_queue) : rt_data_queue :=
  DataQueue (dq_size r) (lwm r) (waiting_lwm r) (get_index r) (put_index r) x
    (evt_notify r).
Definition set_evt_notify (x : option Z) (r : rt_data_queue) : rt_data_queue :=
  DataQueue (dq_size r) (lwm r) (waiting_lwm r) (get_index r) (put_index r) (dq_queue
    r) x.

Record rt_pipe_device := Pipe {
  ringbuffer : RingBuffer.rt_ringbuffer;
  pipe_flag : Z;
}.

Definition set_ringbuffer (x : RingBuffer.rt_ringbuffer) (r : rt_pipe_device) :
    rt_pipe_device :=
  Pipe x (pipe_flag r).
Definition set_pipe_flag (x : Z) (r : rt_pipe_device) : rt_pipe_device :=
  Pipe (ringbuffer r) x.

Record drivers := Drivers {
  kern : kernel;
  ram : gmap Z Z;
  errno : Z; (* _errno *)
  console_device : option ptr;
  devices : gmap ptr rt_device;
  data_queues : gmap ptr rt_data_queue;
  completions : gmap ptr Z; (* the flag of each completion *)
  pipes : gmap ptr rt_pipe_device;
}.

Definition set_kern (x : kernel) (r : drivers) : drivers :=
  Drivers x (ram r) (errno r) (console_device r) (devices r) (data_queues r)
    (completions r) (pipes r).
Definition set_ram (x : gmap Z Z) (r : drivers) : drivers :=
  Drivers (kern r) x (errno r) (console_device r) (devices r) (data_queues r)
    (completions r) (pipes r).
Definition set_errno (x : Z) (r : drivers) : drivers :=
  Drivers (kern r) (ram r) x (console_device r) (devices r) (data_queues r)
    (completions r) (pipes r).
Definition set_console_device (x : option ptr) (r : drivers) : drivers :=
  Drivers (kern r) (ram r) (errno r) x (devices r) (data_queues r) (completions r)
    (pipes r).
Definition set_devices (x : gmap ptr rt_device) (r : drivers) : drivers :=
  Drivers (kern r) (ram r) (errno r) (console_device r) x (data_queues r) (completions
    r) (pipes r).
Definition set_data_queues (x : gmap ptr rt_data_queue) (r : drivers) : drivers :=
  Drivers (kern r) (ram r) (errno r) (console_device r) (devices r) x (completions r)
    (pipes r).
Definition set_completions (x : gmap ptr Z) (r : drivers) : drivers :=
  Drivers (kern r) (ram r) (errno r) (console_device r) (devices r) (data_queues r) x
    (pipes r).
Definition set_pipes (x : gmap ptr rt_pipe_device) (r : drivers) : drivers :=
  Drivers (kern r) (ram r) (errno r) (console_device r) (devices r) (data_queues r)
    (completions r) x.

Definition RT_ENOSYS : Z := 6.
Definition RT_EBUSY : Z := 7.

(** ** The monad *)

(** Operations of the kernel keep their own monad. *)
#[export] Typeclasses Opaque K.

Abbreviation D := (ST drivers).

Definition on_k {A} (m : K A) : D A :=
  fun d => (fun r => (r.1, set_kern r.2 d)) <$> m (kern d).

(** [p->...] and [p->f = ...] *)
Definition at_ptr {V} (heap : drivers -> gmap ptr V) (p : ptr) : D V :=
  fun d => (fun v => (v, d)) <$> heap d !! p.

Definition put_device (p : ptr) (x : rt_device) : D unit := supd (fun d => set_devices (<[p := x]> (devices d)) d).
Definition put_dq (p : ptr) (x : rt_data_queue) : D unit :=
  supd (fun d => set_data_queues (<[p := x]> (data_queues d)) d).
Definition put_completion (p : ptr) (x : Z) : D unit :=
  supd (fun d => set_completions (<[p := x]> (completions d)) d).
Definition put_pipe (p : ptr) (x : rt_pipe_device) : D unit := supd (fun d => set_pipes (<[p := x]> (pipes d)) d).

Definition upd_device (p : ptr) (f : rt_device -> rt_device) : D unit := x ← at_ptr devices p; put_device p (f x).
Definition upd_dq (p : ptr) (f : rt_data_queue -> rt_data_queue) : D unit := x ← at_ptr data_queues p; put_dq p (f x).

(** The functions of the drivers and of the application.  A read returns the bytes and
    their number; it may wait. *)
Class driver_fns := {
  fn_init : Z -> ptr -> D Z;
  fn_open : Z -> ptr -> Z -> D Z;
  fn_close : Z -> ptr -> D Z;
  fn_read : Z -> ptr -> Z -> Z -> D (waiting (list Z * Z));
  fn_write : Z -> ptr -> Z -> list Z -> Z -> D (waiting Z);
  fn_control : Z -> ptr -> Z -> Z -> D Z;
  fn_rx_indicate : Z -> ptr -> Z -> D Z;
  fn_evt_notify : Z -> ptr -> Z -> D unit;
}.

(** ** Reasoning *)

(** Started in [d], the operation returns, and what it returns satisfies [Q]. *)
Definition dwp {A} (m : D A) (Q : A -> drivers -> Prop) (d : drivers) : Prop :=
  match m d with
  | Some (a, d') => Q a d'
  | None => False
  end.

Lemma dwp_ret {A} (a : A) Q d : Q a d -> dwp (mret a) Q d.
Proof. done. Qed.

Lemma dwp_bind {A B} (m : D A) (f : A -> D B) Q d : dwp m (fun a d' => dwp (f a) Q d') d -> dwp (m ≫= f) Q d.
Proof. unfold dwp, mbind, ST_bind. by destruct (m d) as [[a d']|]. Qed.

Lemma dwp_mono {A} (m : D A) (P Q : A -> drivers -> Prop) d :
  dwp m P d -> (forall a d', P a d' -> Q a d') -> dwp m Q d.
Proof. unfold dwp. destruct (m d) as [[a d']|]; auto. Qed.

Lemma dwp_exists {A} (m : D A) Q d : dwp m Q d <-> exists a d', m d = Some (a, d') /\ Q a d'.
Proof.
  unfold dwp. destruct (m d) as [[a d']|]; [|naive_solver].
  split; [eauto|]. intros (? & ? & [= <- <-] & ?). done.
Qed.

Lemma dwp_on_k {A} (m : K A) (Q : A -> drivers -> Prop) d :
  wp m (fun a k => Q a (set_kern k d)) (kern d) -> dwp (on_k m) Q d.
Proof. unfold wp, dwp, on_k. destruct (m (kern d)) as [[a k]|]; auto. Qed.

Lemma dwp_at {V} (heap : drivers -> gmap ptr V) p v (Q : V -> drivers -> Prop) d :
  heap d !! p = Some v -> Q v d -> dwp (at_ptr heap p) Q d.
Proof. unfold dwp, at_ptr. by intros ->. Qed.

Lemma dwp_upd (f : drivers -> drivers) (Q : unit -> drivers -> Prop) d : Q tt (f d) -> dwp (supd f) Q d.
Proof. done. Qed.

Lemma dwp_get {A} (f : drivers -> A) (Q : A -> drivers -> Prop) d : Q (f d) d -> dwp (sget f) Q d.
Proof. done. Qed.

Lemma dwp_upd_device p f v (Q : unit -> drivers -> Prop) d : devices d !! p = Some v ->
  Q tt (set_devices (<[p := f v]> (devices d)) d) -> dwp (upd_device p f) Q d.
Proof. intros Hv HQ. apply dwp_bind, (dwp_at _ _ v); [done|]. by apply dwp_upd. Qed.

Lemma dwp_upd_dq p f v (Q : unit -> drivers -> Prop) d : data_queues d !! p = Some v ->
  Q tt (set_data_queues (<[p := f v]> (data_queues d)) d) -> dwp (upd_dq p f) Q d.
Proof. intros Hv HQ. apply dwp_bind, (dwp_at _ _ v); [done|]. by apply dwp_upd. Qed.

Lemma set_kern_id d : set_kern (kern d) d = d.
Proof. by destruct d. Qed.

Lemma set_kern_twice k k' d : set_kern k (set_kern k' d) = set_kern k d.
Proof. done. Qed.

(** [rt_thread_suspend(thread); rt_list_insert_before(list, &thread->tlist)] is the
    suspension of the IPC objects in the order of arrival. *)
Lemma suspend_insert {A} q t (rest : K A) k :
  (rt_thread_suspend t;; tlist_insert_before q t;; rest : K A) k =
  (rt_ipc_list_suspend q t RT_IPC_FLAG_FIFO;; rest : K A) k.
Proof.
  unfold rt_ipc_list_suspend, mbind, K_bind. destruct (rt_thread_suspend t k) as [[r k']|]; [|done].
  reflexivity.
Qed.

(** The first thread of a list is taken off it and made ready. *)
Definition resume_first (q : qid) : K unit := t ← tlist_first q; rt_thread_resume t;; mret tt.

Lemma resume_first_ipc {A} q (rest : K A) k :
  (resume_first q;; rest : K A) k = (rt_ipc_list_resume q;; rest : K A) k.
Proof.
  unfold resume_first, rt_ipc_list_resume, mbind, K_bind. destruct (tlist_first q k) as [[t k']|]; [|done].
  by destruct (rt_thread_resume t k') as [[r k'']|].
Qed.

(** The wait of the operations below: suspend, arm the timer, schedule. *)
Definition wait_on (check : K unit) (q : qid) (t : ptr) (timeout : Z) : K unit :=
  rt_thread_suspend t;;
  tlist_insert_before q t;;
  check;;
  when (timeout >? 0) (
    rt_timer_control (TimerOf t) RT_TIMER_CTRL_SET_TIME timeout;;
    rt_timer_start (TimerOf t);;
    mret tt);;
  rt_schedule;;
  mret tt.

Lemma wp_wait_on check k t th q timeout (Q : unit -> kernel -> Prop) :
  caller k t th -> (exists p, q = QSuspend p \/ q = QSender p) -> time_ok timeout ->
  (forall k', rt_interrupt_nest k' = 0 -> check k' = Some (tt, k')) ->
  (forall k', kernel_ok Task k' -> blocked_state k t th q RT_IPC_FLAG_FIFO timeout k' -> Q tt k') ->
  wp (wait_on check q t timeout) Q k.
Proof.
  intros [O Hc Ht Hs Hid Hn Hlk] Hq Htime Hch HQ. unfold wait_on, wp. rewrite suspend_insert.
  change (wp (rt_ipc_list_suspend q t RT_IPC_FLAG_FIFO;; check;;
    when (timeout >? 0) (rt_timer_control (TimerOf t) RT_TIMER_CTRL_SET_TIME timeout;;
      rt_timer_start (TimerOf t);; mret tt);; rt_schedule;; mret tt) Q k).
  destruct (ready_timer_inactive k t th O Ht Hs) as (tm & Etm & Ha).
  apply wp_bind, (wp_ipc_list_suspend Task k t th); try done; [by left|].
  intros l1 l2 g El Hpos O1. apply wp_bind. unfold wp at 1. rewrite Hch by done.
  apply (wp_wait _ t (set_stat RT_THREAD_SUSPEND th) tm); try done.
  { simpl. by rewrite lookup_insert_eq. }
  intros l ts n p c O2 H1 H2 H3. apply wp_ret, HQ; [done|].
  exists l1, l2, g, l, ts, n, p, c. split_and!; try done.
  destruct (H3 Hlk) as (t' & -> & He). by exists t'.
Qed.

(** [if (!rt_list_isempty(list)) { resume the first; schedule }] *)
Definition wake_first (q : qid) : K unit :=
  empty ← tlist_isempty q;
  if negb (empty : bool) then resume_first q;; rt_schedule;; mret tt else mret tt.

Lemma wp_wake m k q (Q : unit -> kernel -> Prop) :
  kernel_ok m k -> (exists p, q = QSuspend p \/ q = QSender p) ->
  (forall k', kernel_ok m k' -> woken_first q k k' -> Q tt k') -> wp (wake_first q) Q k.
Proof.
  intros O Hq HQ. enough (wp (empty ← tlist_isempty q;
    if negb empty then rt_ipc_list_resume q;; rt_schedule;; mret tt else mret tt) Q k) as Hw.
  { revert Hw. unfold wp, wake_first. unfold mbind at 1 4, K_bind at 1 4.
    destruct (tlist_isempty q k) as [[[] k']|]; [done| |done]. cbn [negb]. by rewrite resume_first_ipc. }
  apply (wp_wake_first m); [done|done|]. auto.
Qed.

Lemma wp_resume_first m k q t l (Q : unit -> kernel -> Prop) :
  kernel_ok m k -> (exists p, q = QSuspend p \/ q = QSender p) -> tl k q = t :: l ->
  (forall k', kernel_ok m k' -> woken_first q k k' -> Q tt k') -> wp (resume_first q;; rt_schedule;; mret tt) Q k.
Proof.
  intros O Hq El HQ. pose proof (wp_wake m k q Q O Hq HQ) as Hw. revert Hw. unfold wp, wake_first.
  assert (tlist_isempty q k = Some (false, k)) as E by (unfold tlist_isempty, mbind, K_bind, gets; by rewrite El).
  unfold mbind at 1, K_bind at 1. by rewrite E.
Qed.

(** The drivers at the start of the system. *)
Definition drivers_bss (k : kernel) : drivers := Drivers k ∅ 0 None ∅ ∅ ∅ ∅.

