(* ===== verification/Completion.v ===== *)
(** * Completions: components/drivers/src/completion.c

    One thread waits for an event that an interrupt or another thread reports. *)

From S2P Require Import Prelude RingBuffer Kernel Scheduler Object Timer Thread KernelOk ThreadSpec Ipc StateM Driver.

Definition RT_COMPLETED : Z := 1.
Definition RT_UNCOMPLETED : Z := 0.

(** ** Operations *)

Definition rt_completion_init (p : ptr) : D unit :=
  put_completion p RT_UNCOMPLETED;; on_k (tlist_init (QSuspend p)).

Definition rt_completion_wait (p : ptr) (timeout : Z) : D (waiting Z) :=
  thread ← on_k rt_thread_self;
  flag ← at_ptr completions p;
  if negb (flag =? RT_COMPLETED) then
    empty ← on_k (tlist_isempty (QSuspend p));
    on_k (RT_ASSERT empty);;
    if timeout =? 0 then mret (Returns (- RT_ETIMEOUT))
    else
      t ← slift thread;
      on_k (upd_thread t (set_error RT_EOK));;
      on_k (wait_on RT_DEBUG_NOT_IN_INTERRUPT (QSuspend p) t timeout);;
      mret (Waits timeout 0)
  else mret (Returns RT_EOK).

(** What the thread does when it is woken. *)
Definition rt_completion_wait_resume (p t : ptr) : D Z :=
  th ← on_k (deref threads t);
  put_completion p RT_UNCOMPLETED;;
  mret (error th).

Definition rt_completion_done (p : ptr) : D unit :=
  flag ← at_ptr completions p;
  if flag =? RT_COMPLETED then mret tt
  else
    put_completion p RT_COMPLETED;;
    on_k (wake_first (QSuspend p)).

(** ** The handshake *)

(** C38. A thread that waits for a completion is suspended on its list with its timer armed
    for the time limit; when the completion is then reported the thread is ready again,
    its wait returns RT_EOK, and the completion is as it was before the wait. *)
Theorem completion_handshake d t th p timeout :
  caller (kern d) t th -> completions d !! p = Some RT_UNCOMPLETED -> tl (kern d) (QSuspend p) = [] ->
  timeout <> 0 -> time_ok timeout ->
  exists d1, rt_completion_wait p timeout d = Some (Waits timeout 0, d1) /\
    tl (kern d1) (QSuspend p) = [t] /\
    (0 < timeout -> TimerOf t ∈ rt_timer_list (kern d1) /\ due (timers (kern d1)) (rt_tick (kern d)) (TimerOf t) = timeout) /\
    exists d2 th2, rt_completion_done p d1 = Some (tt, d2) /\ kernel_ok Task (kern d2) /\
      threads (kern d2) !! t = Some th2 /\ stat th2 = RT_THREAD_READY /\
      exists d3, rt_completion_wait_resume p t d2 = Some (RT_EOK, d3) /\
        completions d3 !! p = Some RT_UNCOMPLETED /\ tl (kern d3) (QSuspend p) = [].
Proof.
  intros C Hp Hl H0 Htime.
  enough (dwp (rt_completion_wait p timeout) (fun r d1 => r = Waits timeout 0 /\
    kernel_ok Task (kern d1) /\ completions d1 = completions d /\
    blocked_state (set_threads (<[t := set_error RT_EOK th]> (threads (kern d))) (kern d)) t
      (set_error RT_EOK th) (QSuspend p) RT_IPC_FLAG_FIFO timeout (kern d1)) d) as Hw.
  { apply dwp_exists in Hw as (r & d1 & E1 & -> & O1 & Ec & B). exists d1. split; [done|].
    assert (tl (kern d1) (QSuspend p) = [t]) as El.
    { destruct (blocked_list _ _ _ _ _ _ _ B) as (l1 & l2 & El & -> & _).
      change (tl (set_threads _ _) _) with (tl (kern d) (QSuspend p)) in El. rewrite Hl in El.
      symmetry in El. by apply app_nil in El as [-> ->]. }
    split; [done|]. split.
    { intros Ht. destruct B as (l1 & l2 & g & l & ts & n & p' & c & _ & _ & -> & Hd & _). by apply Hd. }
    destruct (blocked_thread _ _ _ _ _ _ _ B) as [Et1 _].
    enough (dwp (rt_completion_done p) (fun _ d2 => kernel_ok Task (kern d2) /\
      completions d2 = <[p := RT_COMPLETED]> (completions d) /\ woken_first (QSuspend p) (kern d1) (kern d2)) d1) as Hd.
    { apply dwp_exists in Hd as ([] & d2 & E2 & O2 & Ec2 & W). unfold woken_first in W. rewrite El in W.
      destruct W as (El2 & th2 & Et2 & Eth). rewrite Et1 in Et2. injection Et2 as <-.
      assert (threads (kern d2) !! t = Some (set_stat RT_THREAD_READY (set_stat RT_THREAD_SUSPEND (set_error RT_EOK th))))
        as Ed2 by (rewrite Eth; apply lookup_insert_eq).
      eexists d2, _. split; [done|]. split; [done|]. split; [done|]. split; [done|]. eexists. split.
      - unfold rt_completion_wait_resume. erewrite bind_Some.
        2:{ unfold on_k, deref. rewrite Ed2. reflexivity. } reflexivity.
      - simpl. rewrite lookup_insert_eq. split; [done|exact El2]. }
    unfold rt_completion_done. apply dwp_bind, (dwp_at _ _ RT_UNCOMPLETED); [by rewrite Ec|]. cbn [Z.eqb RT_COMPLETED RT_UNCOMPLETED].
    apply dwp_bind, dwp_upd, dwp_on_k, (wp_wake Task); [done|by eauto|]. intros k' O' W. split; [done|].
    split; [by rewrite <-Ec|done]. }
  unfold rt_completion_wait. apply dwp_bind, dwp_on_k, wp_gets. rewrite set_kern_id, (ca_current _ _ _ C).
  apply dwp_bind, (dwp_at _ _ RT_UNCOMPLETED); [done|]. cbn [Z.eqb negb RT_COMPLETED RT_UNCOMPLETED].
  apply dwp_bind, dwp_on_k. unfold tlist_isempty. apply wp_bind, wp_gets. rewrite Hl. apply wp_ret. rewrite set_kern_id.
  apply dwp_bind, dwp_on_k, wp_ret. rewrite set_kern_id, (proj2 (Z.eqb_neq _ _) H0). apply dwp_bind, dwp_ret.
  apply dwp_bind, dwp_on_k, (wp_upd_thread _ _ th); [apply C|].
  assert (caller (set_threads (<[t := set_error RT_EOK th]> (threads (kern d))) (kern d)) t (set_error RT_EOK th)) as C1
    by (by eapply caller_update).
  apply dwp_bind, dwp_on_k, (wp_wait_on _ _ t (set_error RT_EOK th)); [done|by eauto|done| |].
  { intros k' E. unfold RT_DEBUG_NOT_IN_INTERRUPT, mbind, K_bind, gets. by rewrite E. }
  intros k' O' B. apply dwp_ret. done.
Qed.

(** ** Examples *)

(** A completion at 61440. *)
Definition demo_completion (flag : Z) : drivers := set_completions {[61440 := flag]} (drivers_bss demo).

Lemma completion_handshake_witness :
  exists d1 d2 d3, rt_completion_wait 61440 10 (demo_completion 0) = Some (Waits 10 0, d1) /\
    rt_completion_done 61440 d1 = Some (tt, d2) /\ rt_completion_wait_resume 61440 4096 d2 = Some (RT_EOK, d3).
Proof.
  destruct (completion_handshake (demo_completion 0) 4096 (demo_th 4096) 61440 10 ltac:(ev_caller) eq_refl
    ltac:(vm_compute; reflexivity) ltac:(lia) ltac:(ev)) as (d1 & E1 & _ & _ & d2 & th2 & E2 & _ & _ & _ & d3 & E3 & _).
  exists d1, d2, d3. split; [exact E1|]. split; [exact E2|exact E3].
Defined.

(** An event that was reported before the wait is not used up by it: the next wait also
    returns at once. *)
Example done_before_wait :
  (fst <$> (rt_completion_done 61440;; a ← rt_completion_wait 61440 10; b ← rt_completion_wait 61440 10; mret (a, b))
    (demo_completion 0)) = Some (Returns RT_EOK, Returns RT_EOK).
Proof. vm_compute. reflexivity. Qed.
