(* ===== verification/DataQueue.v ===== *)
(** * Data queues: components/drivers/src/dataqueue.c

    A bounded queue of items (a pointer and a size) in an array whose size is a power of
    two, with 16-bit indices that are never reduced, a list of threads that wait for room
    and one of threads that wait for data. *)

From S2P Require Import Prelude RingBuffer Kernel Scheduler Object Timer Thread KernelOk ThreadSpec Ipc StateM Driver.

Definition RT_DATAQUEUE_EVENT_POP : Z := 0x01.
Definition RT_DATAQUEUE_EVENT_PUSH : Z := 0x02.
Definition RT_DATAQUEUE_EVENT_LWM : Z := 0x03.

(** ** Operations *)

(** [mem]: what [rt_malloc] returned for the array. *)
Definition rt_data_queue_init (p : ptr) (size lwm : Z) (evt_notify : option Z) (mem : option (list (Z * Z))) : D Z :=
  put_dq p (DataQueue (u16 size) (u16 lwm) false 0 0 (default [] mem) evt_notify);;
  on_k (tlist_init (QSender p));;
  on_k (tlist_init (QSuspend p));;
  mret (match mem with None => - RT_ENOMEM | Some _ => RT_EOK end).

(** The comparisons are on [int], to which the 16-bit indices are converted. *)
Definition dq_full (q : rt_data_queue) : bool := put_index q - get_index q =? dq_size q.
Definition dq_empty (q : rt_data_queue) : bool := get_index q =? put_index q.

Definition dq_mask (q : rt_data_queue) : Z := u16 (dq_size q - 1).

Section Notify.
Context {fns : driver_fns}.

(** [if ((result == RT_EOK) && queue->evt_notify != RT_NULL) ...]; behind a wake-up the
    report is made when the caller runs again. *)
Definition notify (p : ptr) (event : Z) : D unit :=
  q ← at_ptr data_queues p;
  match evt_notify q with
  | Some f => fn_evt_notify f p event
  | None => mret tt
  end.

(** Behind the [while] of [rt_data_queue_push]. *)
Definition dq_put (p : ptr) (item : Z * Z) : D Z :=
  q ← at_ptr data_queues p;
  arr ← slift (memcpy_at (dq_queue q) (put_index q &. dq_mask q) [item]);
  put_dq p (set_put_index (u16 (put_index q + 1)) (set_dq_queue arr q));;
  empty ← on_k (tlist_isempty (QSuspend p));
  if negb (empty : bool) then
    on_k (resume_first (QSuspend p));;
    on_k rt_schedule;;
    mret RT_EOK
  else
    notify p RT_DATAQUEUE_EVENT_PUSH;;
    mret RT_EOK.

(** The wait on a list, which the two loops share. *)
Definition dq_wait (q : qid) (thread : option ptr) (timeout : Z) : D unit :=
  on_k RT_DEBUG_NOT_IN_INTERRUPT;;
  t ← slift thread;
  on_k (upd_thread t (set_error RT_EOK));;
  on_k (wait_on (mret tt) q t timeout).

Definition rt_data_queue_push_loop (p : ptr) (thread : option ptr) (item : Z * Z) (timeout : Z) : D (waiting Z) :=
  q ← at_ptr data_queues p;
  if dq_full q then
    upd_dq p (set_waiting_lwm true);;
    if timeout =? 0 then mret (Returns (- RT_ETIMEOUT))
    else
      dq_wait (QSender p) thread timeout;;
      mret (Waits timeout 0)
  else
    r ← dq_put p item; mret (Returns r).

Definition rt_data_queue_push (p : ptr) (item : Z * Z) (timeout : Z) : D (waiting Z) :=
  thread ← on_k rt_thread_self;
  rt_data_queue_push_loop p thread item timeout.

(** What the thread does when it is woken: it tries again, with the whole time limit. *)
Definition rt_data_queue_push_resume (p t : ptr) (item : Z * Z) (timeout : Z) : D (waiting Z) :=
  th ← on_k (deref threads t);
  if negb (error th =? RT_EOK) then mret (Returns (error th))
  else rt_data_queue_push_loop p (Some t) item timeout.

Definition dq_get (p : ptr) : D (Z * option (Z * Z)) :=
  q ← at_ptr data_queues p;
  item ← slift (zlookup (dq_queue q) (get_index q &. dq_mask q));
  let q := set_get_index (u16 (get_index q + 1)) q in
  put_dq p q;;
  if waiting_lwm q && (put_index q - get_index q <=? lwm q) then
    put_dq p (set_waiting_lwm false q);;
    on_k (wake_first (QSender p));;
    notify p RT_DATAQUEUE_EVENT_LWM;;
    mret (RT_EOK, Some item)
  else
    notify p RT_DATAQUEUE_EVENT_POP;;
    mret (RT_EOK, Some item).

Definition rt_data_queue_pop_loop (p : ptr) (thread : option ptr) (timeout : Z) : D (waiting (Z * option (Z * Z))) :=
  q ← at_ptr data_queues p;
  if dq_empty q then
    if timeout =? 0 then mret (Returns (- RT_ETIMEOUT, None))
    else
      dq_wait (QSuspend p) thread timeout;;
      mret (Waits timeout 0)
  else
    r ← dq_get p; mret (Returns r).

Definition rt_data_queue_pop (p : ptr) (timeout : Z) : D (waiting (Z * option (Z * Z))) :=
  thread ← on_k rt_thread_self;
  rt_data_queue_pop_loop p thread timeout.

Definition rt_data_queue_pop_resume (p t : ptr) (timeout : Z) : D (waiting (Z * option (Z * Z))) :=
  th ← on_k (deref threads t);
  if negb (error th =? RT_EOK) then mret (Returns (error th, None))
  else rt_data_queue_pop_loop p (Some t) timeout.
End Notify.

Definition rt_data_queue_peak (p : ptr) : D (Z * option (Z * Z)) :=
  q ← at_ptr data_queues p;
  if dq_empty q then mret (- RT_EEMPTY, None)
  else
    item ← slift (zlookup (dq_queue q) (get_index q &. dq_mask q));
    mret (RT_EOK, Some item).

(** The two loops are those of [rt_ipc_list_resume_all]. *)
Definition rt_data_queue_reset (p : ptr) : D unit :=
  on_k rt_enter_critical;;
  on_k (rt_ipc_list_resume_all (QSuspend p));;
  on_k (rt_ipc_list_resume_all (QSender p));;
  on_k rt_exit_critical;;
  on_k rt_schedule.

(** ** The queue of items *)

Record dq_ok (q : rt_data_queue) : Prop := {
  dq_power : exists n, 0 <= n < 16 /\ dq_size q = 2 ^ n;
  dq_array : Z.of_nat (length (dq_queue q)) = dq_size q;
  dq_indices : 0 <= get_index q <= put_index q /\ put_index q < 65536;
  dq_bound : put_index q - get_index q <= dq_size q;
}.

(** The items, oldest first. *)
Definition items (q : rt_data_queue) : list (Z * Z) :=
  (fun i => default (0, 0) (zlookup (dq_queue q) (i mod dq_size q))) <$>
    seqZ (get_index q) (put_index q - get_index q).

Lemma items_length q : dq_ok q -> Z.of_nat (length (items q)) = put_index q - get_index q.
Proof. intros [_ _ ? _]. unfold items. rewrite length_fmap, length_seqZ. lia. Qed.

Lemma dq_size_range q : dq_ok q -> 0 < dq_size q < 65536.
Proof.
  intros [(n & Hn & ->) _ _ _]. split; [apply Z.pow_pos_nonneg; lia|]. change 65536 with (2 ^ 16).
  apply Z.pow_lt_mono_r; lia.
Qed.

Lemma mask_mod q i : dq_ok q -> 0 <= i -> i &. dq_mask q = i mod dq_size q.
Proof.
  intros O Hi. pose proof (dq_size_range q O). unfold dq_mask. rewrite wrap_small by (unfold in_u; lia).
  destruct O as [(n & Hn & ->) _ _ _]. rewrite <-Z.land_ones by lia. by rewrite Z.ones_equiv, Z.sub_1_r.
Qed.

Lemma mod_window i j s : 0 < s -> i < j < i + s -> i mod s <> j mod s.
Proof.
  intros Hs Hij E. assert ((j - i) mod s = 0) as E0 by (rewrite Zminus_mod, E, Z.sub_diag; apply Z.mod_0_l; lia).
  rewrite Z.mod_small in E0 by lia. lia.
Qed.

Lemma items_put q item : dq_ok q -> put_index q - get_index q < dq_size q -> put_index q < 65535 ->
  exists arr, memcpy_at (dq_queue q) (put_index q &. dq_mask q) [item] = Some arr /\
    let q' := set_put_index (u16 (put_index q + 1)) (set_dq_queue arr q) in
    dq_ok q' /\ items q' = items q ++ [item].
Proof.
  intros O Hroom Hp. pose proof (dq_size_range q O) as Hs. pose proof O as [Hpow Harr Hi Hb].
  rewrite mask_mod by (done || lia). pose proof (Z.mod_pos_bound (put_index q) (dq_size q) ltac:(lia)) as Hm.
  set (arr := list_inserts (Z.to_nat (put_index q mod dq_size q)) [item] (dq_queue q)).
  assert (memcpy_at (dq_queue q) (put_index q mod dq_size q) [item] = Some arr) as Em
    by (apply memcpy_at_Some; simpl; lia).
  exists arr. split; [done|]. cbv zeta. rewrite wrap_small by (unfold in_u; lia).
  pose proof (memcpy_at_length _ _ _ _ Em) as Hlen.
  split; [split; simpl; try done; lia|]. unfold items. cbn [set_put_index set_dq_queue put_index get_index dq_queue dq_size].
  replace (put_index q + 1 - get_index q) with (put_index q - get_index q + 1) by lia.
  rewrite seqZ_app, fmap_app by lia. f_equal.
  - apply list_fmap_ext. intros k i Hk. apply lookup_seqZ in Hk as [-> Hk]. rewrite (memcpy_at_lookup _ _ _ _ _ Em).
    destruct (_ && _) eqn:Eb; [|done]. apply andb_true_iff in Eb as [E1%Z.leb_le E2%Z.ltb_lt]. simpl in E2.
    exfalso. apply (mod_window (get_index q + Z.of_nat k) (put_index q) (dq_size q)); lia.
  - replace (get_index q + (put_index q - get_index q)) with (put_index q) by lia. simpl. f_equal.
    rewrite (memcpy_at_lookup _ _ _ _ _ Em). rewrite Z.add_0_l, Z.sub_diag.
    by rewrite (proj2 (Z.leb_le _ _)), (proj2 (Z.ltb_lt _ _)) by (simpl; lia).
Qed.

Lemma items_get q : dq_ok q -> get_index q < put_index q ->
  exists item, zlookup (dq_queue q) (get_index q &. dq_mask q) = Some item /\
    let q' := set_get_index (u16 (get_index q + 1)) q in dq_ok q' /\ items q = item :: items q'.
Proof.
  intros O Hne. pose proof (dq_size_range q O) as Hs. pose proof O as [Hpow Harr Hi Hb].
  rewrite mask_mod by (done || lia). pose proof (Z.mod_pos_bound (get_index q) (dq_size q) ltac:(lia)) as Hm.
  destruct (zlookup_is_Some (dq_queue q) (get_index q mod dq_size q)) as [item Ei]; [lia|].
  exists item. split; [done|]. cbv zeta. rewrite wrap_small by (unfold in_u; lia).
  split; [split; simpl; try done; lia|]. unfold items. cbn [set_get_index put_index get_index dq_queue dq_size].
  rewrite seqZ_cons by lia. rewrite fmap_cons, Ei. do 3 f_equal; lia.
Qed.

(** ** The calls *)

Section Calls.
Context {fns : driver_fns}.

(** The event is reported to [f], the last thing that the call does. *)
Definition reported {A} (f : option Z) (p : ptr) (event : Z) (r : A) (d : drivers) : option (A * drivers) :=
  match f with
  | Some f => (fn_evt_notify f p event;; mret r) d
  | None => Some (r, d)
  end.

Lemma notify_eq {A} p q event (r : A) d : data_queues d !! p = Some q ->
  (notify p event;; mret r) d = reported (evt_notify q) p event r d.
Proof.
  intros Hq. unfold notify, mbind at 1, ST_bind at 1, mbind at 1, ST_bind at 1, at_ptr. rewrite Hq. cbn.
  by destruct (evt_notify q).
Qed.

Lemma kern_run {A} (m : K A) (P : A -> kernel -> Prop) d : wp m P (kern d) ->
  exists a k', on_k m d = Some (a, set_kern k' d) /\ P a k'.
Proof. unfold wp, on_k. destruct (m (kern d)) as [[a k']|]; [|done]. intros HP. by exists a, k'. Qed.

(** C37. Take a queue whose size is a power of two and to which less than 65535 items were
    pushed since its initialisation, so that its 16-bit indices have not wrapped around
    ([dq_ok] and the bound on [put_index]; [odd_size_overwrites] and
    [wrapped_queue_overflows] show that items are lost otherwise).  [rt_data_queue_push] on
    such a queue with room, from a thread or an interrupt, appends the item and makes the
    first thread that waits for data ready, or, if there is none, reports the event; on a
    full one it returns -RT_ETIMEOUT if it may not wait, and only notes that somebody wanted
    to push. *)
Theorem rt_data_queue_push_refines m d p q item timeout :
  kernel_ok m (kern d) -> data_queues d !! p = Some q -> dq_ok q -> put_index q < 65535 ->
  (Z.of_nat (length (items q)) < dq_size q ->
     exists d1 q1, data_queues d1 !! p = Some q1 /\ dq_ok q1 /\ items q1 = items q ++ [item] /\
       kernel_ok m (kern d1) /\ woken_first (QSuspend p) (kern d) (kern d1) /\
       rt_data_queue_push p item timeout d =
         if bool_decide (tl (kern d) (QSuspend p) = [])
         then reported (evt_notify q) p RT_DATAQUEUE_EVENT_PUSH (Returns RT_EOK) d1
         else Some (Returns RT_EOK, d1)) /\
  (Z.of_nat (length (items q)) = dq_size q -> timeout = 0 ->
     rt_data_queue_push p item timeout d =
       Some (Returns (- RT_ETIMEOUT), set_data_queues (<[p := set_waiting_lwm true q]> (data_queues d)) d)).
Proof.
  intros O Hq M Hp. rewrite items_length by done. unfold rt_data_queue_push, rt_data_queue_push_loop.
  erewrite bind_Some by reflexivity. cbn [fst snd]. rewrite set_kern_id.
  erewrite bind_Some by (unfold at_ptr; rewrite Hq; reflexivity). unfold dq_full. split.
  2:{ intros E ->. rewrite (proj2 (Z.eqb_eq _ _) E). erewrite bind_Some.
      2:{ unfold upd_dq, mbind, ST_bind, at_ptr. rewrite Hq. reflexivity. } reflexivity. }
  intros Hroom. rewrite (proj2 (Z.eqb_neq _ _)) by lia.
  destruct (items_put q item M Hroom Hp) as (arr & Ea & M1 & Ei).
  set (q1 := set_put_index _ _) in *. set (d0 := set_data_queues (<[p := q1]> (data_queues d)) d).
  assert (data_queues d0 !! p = Some q1) as Hq1 by (simpl; by rewrite lookup_insert_eq).
  unfold dq_put. rewrite bind_assoc. erewrite bind_Some by (unfold at_ptr; rewrite Hq; reflexivity).
  rewrite bind_assoc. erewrite bind_Some by (by apply slift_Some). rewrite bind_assoc.
  erewrite bind_Some by reflexivity. rewrite bind_assoc.
  unfold tlist_isempty. erewrite bind_Some by reflexivity. cbn [fst snd]. change (tl _ (QSuspend p)) with (tl (kern d) (QSuspend p)).
  destruct (tl (kern d) (QSuspend p)) as [|t l] eqn:El; cbn [negb].
  - exists d0, q1. split; [done|]. split; [done|]. split; [done|]. split; [done|]. split; [by unfold woken_first; rewrite El|].
    rewrite bool_decide_true by done. change (set_kern _ _) with d0. rewrite bind_assoc.
    by apply (notify_eq p q1).
  - destruct (kern_run (resume_first (QSuspend p);; rt_schedule;; mret tt : K unit)
      (fun _ k' => kernel_ok m k' /\ woken_first (QSuspend p) (kern d) k') d0) as ([] & k' & E & O' & W).
    { apply (wp_resume_first m _ _ t l); eauto. }
    exists (set_kern k' d0), q1. split; [done|]. split; [done|]. split; [done|]. split; [done|]. split; [done|].
    rewrite bool_decide_false by done. change (set_kern _ _) with d0 at 1. revert E.
    unfold on_k, mbind, ST_bind, K_bind. destruct (resume_first (QSuspend p) (kern d0)) as [[[] k1]|]; [|done]. simpl.
    destruct (rt_schedule k1) as [[[] k2]|]; [|done]. simpl. intros E. assert (set_kern k2 d0 = set_kern k' d0) as <- by congruence. done.
Qed.

(** [rt_data_queue_pop] on a queue with items takes the oldest one.  If a push failed
    for want of room before and not more than the low water mark are left, it forgets
    that, makes the first thread that waits for room ready and reports so; otherwise it
    reports the pop.  On an empty queue it returns -RT_ETIMEOUT if it may not wait. *)
Theorem rt_data_queue_pop_refines m d p q timeout :
  kernel_ok m (kern d) -> data_queues d !! p = Some q -> dq_ok q ->
  match items q with
  | item :: rest =>
      exists d1 q1, data_queues d1 !! p = Some q1 /\ dq_ok q1 /\ items q1 = rest /\ kernel_ok m (kern d1) /\
        if waiting_lwm q && (Z.of_nat (length rest) <=? lwm q)
        then waiting_lwm q1 = false /\ woken_first (QSender p) (kern d) (kern d1) /\
          rt_data_queue_pop p timeout d =
            reported (evt_notify q) p RT_DATAQUEUE_EVENT_LWM (Returns (RT_EOK, Some item)) d1
        else kern d1 = kern d /\
          rt_data_queue_pop p timeout d =
            reported (evt_notify q) p RT_DATAQUEUE_EVENT_POP (Returns (RT_EOK, Some item)) d1
  | [] => timeout = 0 -> rt_data_queue_pop p timeout d = Some (Returns (- RT_ETIMEOUT, None), d)
  end.
Proof.
  intros O Hq M. pose proof (items_length q M) as Hlen.
  unfold rt_data_queue_pop, rt_data_queue_pop_loop. erewrite bind_Some by reflexivity. cbn [fst snd].
  rewrite set_kern_id. erewrite bind_Some by (unfold at_ptr; rewrite Hq; reflexivity). unfold dq_empty.
  destruct (items q) as [|item rest] eqn:Ei.
  { intros ->. simpl in Hlen. by rewrite (proj2 (Z.eqb_eq _ _)) by lia. }
  cbn [length] in Hlen. rewrite (proj2 (Z.eqb_neq _ _)) by lia.
  destruct (items_get q M) as (item' & Ea & M1 & Ei'); [lia|]. set (q1 := set_get_index _ _) in *.
  rewrite Ei in Ei'. injection Ei' as <- Er. pose proof (items_length q1 M1) as Hlen1. rewrite <-Er in Hlen1.
  unfold dq_get. rewrite bind_assoc. erewrite bind_Some by (unfold at_ptr; rewrite Hq; reflexivity).
  rewrite bind_assoc. erewrite bind_Some by (by apply slift_Some). cbv zeta. fold q1.
  change (waiting_lwm q1) with (waiting_lwm q). change (lwm q1) with (lwm q). rewrite <-Hlen1.
  rewrite bind_assoc. erewrite bind_Some by reflexivity.
  set (d0 := set_data_queues (<[p := q1]> (data_queues d)) d).
  assert (data_queues d0 !! p = Some q1) as Hq1 by (simpl; by rewrite lookup_insert_eq).
  destruct (waiting_lwm q && _).
  2:{ exists d0, q1. split_and!; try done. rewrite bind_assoc. by apply (notify_eq p q1). }
  set (q2 := set_waiting_lwm false q1). set (d2 := set_data_queues (<[p := q2]> (data_queues d0)) d0).
  assert (data_queues d2 !! p = Some q2) as Hq2 by (simpl; by rewrite lookup_insert_eq).
  destruct (kern_run (wake_first (QSender p)) (fun _ k' => kernel_ok m k' /\ woken_first (QSender p) (kern d) k') d2)
    as ([] & k' & E & O' & W); [apply (wp_wake m); eauto|].
  exists (set_kern k' d2), q2. split; [done|]. split; [by destruct M1|]. split; [done|]. split; [done|].
  split; [done|]. split; [done|]. rewrite bind_assoc. erewrite bind_Some by reflexivity. fold d2.
  rewrite bind_assoc. erewrite bind_Some by exact E. rewrite bind_assoc. by apply (notify_eq p q2).
Qed.

(** A thread that pops from an empty queue with a time limit waits on the list of the
    readers, behind those that came before, with its timer armed, and leaves the queue
    alone; when it goes on with an error code it returns that, and otherwise tries again
    with the whole time limit. *)
Theorem rt_data_queue_pop_waits d t th p q timeout :
  caller (kern d) t th -> data_queues d !! p = Some q -> get_index q = put_index q -> timeout <> 0 -> time_ok timeout ->
  exists d1, rt_data_queue_pop p timeout d = Some (Waits timeout 0, d1) /\
    data_queues d1 = data_queues d /\ kernel_ok Task (kern d1) /\
    tl (kern d1) (QSuspend p) = tl (kern d) (QSuspend p) ++ [t] /\
    (0 < timeout -> TimerOf t ∈ rt_timer_list (kern d1) /\ due (timers (kern d1)) (rt_tick (kern d)) (TimerOf t) = timeout) /\
    (forall d2 th2, threads (kern d2) !! t = Some th2 ->
       rt_data_queue_pop_resume p t timeout d2 =
         if error th2 =? RT_EOK then rt_data_queue_pop_loop p (Some t) timeout d2
         else Some (Returns (error th2, None), d2)).
Proof.
  intros C Hq He H0 Htime.
  enough (dwp (rt_data_queue_pop p timeout) (fun r d1 => r = Waits timeout 0 /\ data_queues d1 = data_queues d /\
    kernel_ok Task (kern d1) /\
    blocked_state (set_threads (<[t := set_error RT_EOK th]> (threads (kern d))) (kern d)) t
      (set_error RT_EOK th) (QSuspend p) RT_IPC_FLAG_FIFO timeout (kern d1)) d) as Hw.
  { apply dwp_exists in Hw as (r & d1 & E1 & -> & Ec & O1 & B). exists d1. split; [done|]. split; [done|].
    split; [done|]. split.
    { destruct (blocked_list _ _ _ _ _ _ _ B) as (l1 & l2 & El & -> & [Hf _]). rewrite (Hf eq_refl) in *.
      change (tl (set_threads _ _) _) with (tl (kern d) (QSuspend p)) in El. by rewrite El, app_nil_r. }
    split.
    { intros Ht. destruct B as (l1 & l2 & g & l & ts & n & p' & c & _ & _ & -> & Hd & _). by apply Hd. }
    intros d2 th2 Et. unfold rt_data_queue_pop_resume. erewrite bind_Some.
    2:{ unfold on_k, deref. rewrite Et. reflexivity. }
    cbn [fst snd]. rewrite set_kern_id. by destruct (error th2 =? RT_EOK). }
  unfold rt_data_queue_pop, rt_data_queue_pop_loop. apply dwp_bind, dwp_on_k, wp_gets. rewrite set_kern_id, (ca_current _ _ _ C).
  apply dwp_bind, (dwp_at _ _ q); [done|]. unfold dq_empty. rewrite He, Z.eqb_refl, (proj2 (Z.eqb_neq _ _) H0).
  unfold dq_wait. apply dwp_bind, dwp_bind, dwp_on_k. unfold RT_DEBUG_NOT_IN_INTERRUPT. apply wp_bind, wp_gets, wp_assert.
  { by rewrite (ca_nest _ _ _ C). }
  rewrite set_kern_id. apply dwp_bind, dwp_ret.
  apply dwp_bind, dwp_on_k, (wp_upd_thread _ _ th); [apply C|].
  assert (caller (set_threads (<[t := set_error RT_EOK th]> (threads (kern d))) (kern d)) t (set_error RT_EOK th)) as C1
    by (by eapply caller_update).
  apply dwp_on_k, (wp_wait_on _ _ t (set_error RT_EOK th)); [done|by eauto|done|done|].
  intros k' O' B. apply dwp_ret. done.
Qed.
End Calls.

(** ** Examples *)

Definition silent_fns : driver_fns := {|
  fn_init f p := mret RT_EOK;
  fn_open f p o := mret RT_EOK;
  fn_close f p := mret RT_EOK;
  fn_read f p pos n := mret (Returns ([], 0));
  fn_write f p pos b n := mret (Returns n);
  fn_control f p c a := mret RT_EOK;
  fn_rx_indicate f p n := mret RT_EOK;
  fn_evt_notify f p e := mret tt;
|}.
#[local] Existing Instance silent_fns.

(** A queue at 61440 with [n] places. *)
Definition demo_q (i : Z) (n : nat) (low : Z) : rt_data_queue := DataQueue (Z.of_nat n) low false i i (replicate n (0, 0)) None.
Definition demo_dq (i : Z) (n : nat) (low : Z) : drivers :=
  set_data_queues {[61440 := demo_q i n low]} (drivers_bss demo).

Definition push (x : Z) : D Z :=
  r ← rt_data_queue_push 61440 (x, 1) 0; match r with Returns r => mret r | Waits _ _ => mret 1 end.
Definition pop : D (Z * option Z) :=
  r ← rt_data_queue_pop 61440 0; match r with Returns r => mret (r.1, fst <$> r.2) | Waits _ _ => mret (1, None) end.

Example fifo : (fst <$> (push 5;; push 6;; a ← pop; push 7;; b ← pop; c ← pop; d ← pop; mret [a; b; c; d]) (demo_dq 0 2 1)) =
  Some [(0, Some 5); (0, Some 6); (0, Some 7); (- RT_ETIMEOUT, None)].
Proof. vm_compute. reflexivity. Qed.

Lemma rt_data_queue_push_refines_witness :
  exists d1 q1, rt_data_queue_push 61440 (5, 1) 0 (demo_dq 0 2 1) = Some (Returns RT_EOK, d1) /\
    data_queues d1 !! 61440 = Some q1 /\ items q1 = [(5, 1)].
Proof.
  destruct (rt_data_queue_push_refines Task (demo_dq 0 2 1) 61440 (demo_q 0 2 1) (5, 1) 0 demo_ok eq_refl
    ltac:(split; simpl; [exists 1; lia|lia..]) ltac:(simpl; lia)) as [H _].
  destruct (H ltac:(vm_compute; reflexivity)) as (d1 & q1 & E1 & _ & Ei & _ & _ & E).
  exists d1, q1. split; [exact E|]. split; [exact E1|exact Ei].
Defined.

Definition demo_q1 : rt_data_queue := DataQueue 2 1 false 0 1 [(5, 1); (0, 0)] None.
Definition demo_dq1 : drivers := set_data_queues {[61440 := demo_q1]} (drivers_bss demo).

Lemma rt_data_queue_pop_refines_witness :
  exists d1 q1, rt_data_queue_pop 61440 0 demo_dq1 = Some (Returns (RT_EOK, Some (5, 1)), d1) /\
    data_queues d1 !! 61440 = Some q1 /\ items q1 = [].
Proof.
  destruct (rt_data_queue_pop_refines Task demo_dq1 61440 demo_q1 0 demo_ok eq_refl
    ltac:(split; simpl; [exists 1; lia|lia..])) as (d1 & q1 & E1 & _ & Ei & _ & _ & E).
  exists d1, q1. split; [exact E|]. split; [exact E1|exact Ei].
Defined.

Lemma rt_data_queue_pop_waits_witness :
  exists d1, rt_data_queue_pop 61440 10 (demo_dq 0 2 1) = Some (Waits 10 0, d1) /\
    tl (kern d1) (QSuspend 61440) = [4096].
Proof.
  destruct (rt_data_queue_pop_waits (demo_dq 0 2 1) 4096 (demo_th 4096) 61440 (demo_q 0 2 1) 10
    ltac:(ev_caller) eq_refl eq_refl ltac:(lia) ltac:(ev)) as (d1 & E & _ & _ & El & _).
  exists d1. split; [exact E|exact El].
Defined.

(** The indices wrap around at 2^16, the comparison does not: behind the wrap-around of
    [put_index] a full queue takes more items, which replace the oldest ones. *)
Example wrapped_queue_overflows :
  (fst <$> (push 1;; push 2;; push 3;; a ← push 4; b ← push 5; c ← pop; mret (a, b, c)) (demo_dq 65534 4 1)) =
    Some (RT_EOK, RT_EOK, (RT_EOK, Some 5)) /\
  (fst <$> (push 1;; push 2;; push 3;; a ← push 4; b ← push 5; c ← pop; mret (a, b, c)) (demo_dq 65530 4 1)) =
    Some (RT_EOK, - RT_ETIMEOUT, (RT_EOK, Some 1)).
Proof. split; vm_compute; reflexivity. Qed.

(** A size that is not a power of two is accepted; places are used twice. *)
Example odd_size_overwrites : (fst <$> (push 1;; push 2;; push 3;; pop) (demo_dq 0 3 1)) = Some (RT_EOK, Some 2).
Proof. vm_compute. reflexivity. Qed.

(** Two threads wait for room.  The first pop at the low water mark wakes one of them and
    forgets that anybody waits; the queue is then emptied, and the other one still waits. *)
Definition writers_left : D (Z * list Z) :=
  push 1;; push 2;;
  rt_data_queue_push 61440 (3, 1) (-1);; (* thread 4096 *)
  rt_data_queue_push 61440 (4, 1) (-1);; (* thread 8192 *)
  pop;;
  rt_data_queue_push_resume 61440 4096 (3, 1) (-1);;
  pop;; pop;;
  n ← sget (fun d => default 0 ((fun q => put_index q - get_index q) <$> data_queues d !! 61440));
  l ← on_k (gets (fun k => tl k (QSender 61440)));
  mret (n, l).

Example writer_forgotten : (fst <$> writers_left (demo_dq 0 2 1)) = Some (0, [8192]).
Proof. vm_compute. reflexivity. Qed.
