(* ===== verification/Device.v ===== *)
(** * The device framework: src/device.c, and the console of src/kservice.c

    Finding, registering, opening and closing devices, the dispatch to the functions of
    their drivers, and the console: [rt_kprintf] formats into a static buffer and writes
    that to the console device.  [opened] is what open and close promise: a device is in
    use as long as somebody who opened it has not closed it. *)

From S2P Require Import Prelude KString RingBuffer Kernel Scheduler Object Timer Thread KernelOk ThreadSpec Ipc Lifecycle StateM LwipMem Chksum PbufData Printf PrintfSpec Driver.

Definition RT_DEVICE_FLAG_RDWR : Z := 0x003.
Definition RT_DEVICE_FLAG_STANDALONE : Z := 0x008.
Definition RT_DEVICE_FLAG_ACTIVATED : Z := 0x010.
Definition RT_DEVICE_FLAG_STREAM : Z := 0x040.
Definition RT_DEVICE_OFLAG_CLOSE : Z := 0x000.
Definition RT_DEVICE_OFLAG_RDWR : Z := 0x003.
Definition RT_DEVICE_OFLAG_OPEN : Z := 0x008.

(** ** Operations *)

(** In an interrupt, and before the first thread runs, there is one error number for
    all. *)
Definition rt_set_errno (e : Z) : D unit :=
  nest ← on_k (gets rt_interrupt_nest);
  if negb (nest =? 0) then supd (set_errno e)
  else
    tid ← on_k rt_thread_self;
    match tid with
    | None => supd (set_errno e)
    | Some t => on_k (upd_thread t (set_error e))
    end.

Definition rt_get_errno : D Z :=
  nest ← on_k (gets rt_interrupt_nest);
  if negb (nest =? 0) then sget errno
  else
    tid ← on_k rt_thread_self;
    match tid with
    | None => sget errno
    | Some t => th ← on_k (deref threads t); mret (error th)
    end.

(** [if (rt_thread_self() != RT_NULL) f();] *)
Definition if_self (f : K unit) : K unit :=
  self ← rt_thread_self; when (bool_decide (self <> None)) f.

Fixpoint device_find_loop (name : list Z) (l : list ref) : K (option ref) :=
  match l with
  | [] => if_self rt_exit_critical;; mret None
  | r :: l' =>
      o ← deref objects r;
      c ← lift (KString.rt_strncmp (obj_name o) name RT_NAME_MAX);
      if c =? 0 then if_self rt_exit_critical;; mret (Some r)
      else device_find_loop name l'
  end.

Definition rt_device_find (name : list Z) : K (option ref) :=
  if_self rt_enter_critical;;
  l ← deref object_container RT_Object_Class_Device;
  device_find_loop name l.

(** [None] for a null pointer. *)
Definition rt_device_register (dev : option ptr) (name : list Z) (flags : Z) : D Z :=
  match dev with
  | None => mret (- RT_ERROR)
  | Some p =>
      found ← on_k (rt_device_find name);
      match found with
      | Some _ => mret (- RT_ERROR)
      | None =>
          on_k (rt_object_init (Obj p) RT_Object_Class_Device name);;
          upd_device p (fun x => set_ref_count 0 (set_dev_flag (u16 flags) x));;
          mret RT_EOK
      end
  end.

Definition rt_device_unregister (p : ptr) : D Z :=
  on_k (rt_object_detach (Obj p));; mret RT_EOK.

(** ** Dispatch *)

Section Driver.
Context {fns : driver_fns}.

Definition rt_device_read (p : ptr) (pos size : Z) : D (waiting (list Z * Z)) :=
  dev ← at_ptr devices p;
  if ref_count dev =? 0 then rt_set_errno (- RT_ERROR);; mret (Returns ([], 0))
  else
    match dev_read dev with
    | Some f => fn_read f p pos size
    | None => rt_set_errno (- RT_ENOSYS);; mret (Returns ([], 0))
    end.

Definition rt_device_write (p : ptr) (pos : Z) (buffer : list Z) (size : Z) : D (waiting Z) :=
  dev ← at_ptr devices p;
  if ref_count dev =? 0 then rt_set_errno (- RT_ERROR);; mret (Returns 0)
  else
    match dev_write dev with
    | Some f => fn_write f p pos buffer size
    | None => rt_set_errno (- RT_ENOSYS);; mret (Returns 0)
    end.

Definition rt_device_control (p : ptr) (cmd arg : Z) : D Z :=
  dev ← at_ptr devices p;
  match dev_control dev with
  | Some f => fn_control f p cmd arg
  | None => mret RT_EOK
  end.

Definition rt_device_set_rx_indicate (p : ptr) (rx_ind : option Z) : D Z :=
  upd_device p (set_rx_indicate rx_ind);; mret RT_EOK.

Definition rt_device_set_tx_complete (p : ptr) (tx_done : option Z) : D Z :=
  upd_device p (set_tx_complete tx_done);; mret RT_EOK.

(** ** The console *)

(** The static buffer of [rt_kprintf]. *)
Context (rt_log_buf : Z).

Definition on_ram {A} (m : ST (gmap Z Z) A) : D A :=
  fun d => (fun r => (r.1, set_ram r.2 d)) <$> m (ram d).

Definition RT_CONSOLEBUF_SIZE : Z := 128.

Definition read_log (buf n : Z) : ST (gmap Z Z) (list Z) :=
  fun m => (fun bs => (bs, m)) <$> read_bytes m buf (Z.to_nat n).

(** Without a console device the text goes to [rt_hw_console_output], which is empty.  A
    console device that waits is a failure of the model. *)
Definition rt_kprintf (fmt : list Z) (args : list va) : D unit :=
  length ← on_ram (rt_vsnprintf rt_log_buf (RT_CONSOLEBUF_SIZE - 1) fmt args);
  let length := u32 length in
  let length := if RT_CONSOLEBUF_SIZE - 1 <? length then RT_CONSOLEBUF_SIZE - 1 else length in
  console ← sget console_device;
  match console with
  | None => mret tt
  | Some p =>
      dev ← at_ptr devices p;
      upd_device p (set_dev_flag (dev_flag dev |. RT_DEVICE_FLAG_STREAM));;
      buf ← on_ram (read_log rt_log_buf length);
      w ← rt_device_write p 0 buf length;
      match w with
      | Returns _ => upd_device p (set_dev_flag (dev_flag dev))
      | Waits _ _ => fun _ => None
      end
  end.

(** The name of an object as a string: it ends at the null character. *)
Fixpoint name_string (nm : list Z) : list Z :=
  match nm with
  | [] => []
  | c :: nm => if c =? 0 then [] else c :: name_string nm
  end.

Definition init_failed (p : ptr) (result : Z) : D unit :=
  o ← on_k (deref objects (Obj p));
  rt_kprintf (codes "To initialize device:%s failed. The error code is %d" ++ [10])
    [VStr (Some (name_string (obj_name o))); VInt result].

(** [result = dev->init(dev)] with the message; true if the device is active now. *)
Definition run_init (f : Z) (p : ptr) : D Z :=
  result ← fn_init f p;
  if negb (result =? RT_EOK) then init_failed p result;; mret result
  else mret result.

Definition activate (p : ptr) : D unit :=
  upd_device p (fun x => set_dev_flag (dev_flag x |. RT_DEVICE_FLAG_ACTIVATED) x).

Definition is_active (dev : rt_device) : bool := truthy (dev_flag dev &. RT_DEVICE_FLAG_ACTIVATED).

Definition rt_device_init (p : ptr) : D Z :=
  dev ← at_ptr devices p;
  match dev_init dev with
  | None => mret RT_EOK
  | Some f =>
      if is_active dev then mret RT_EOK
      else
        result ← run_init f p;
        (if result =? RT_EOK then activate p else mret tt);;
        mret result
  end.

Fixpoint init_all_loop (l : list ref) : D Z :=
  match l with
  | Obj p :: l' => rt_device_init p;; init_all_loop l'
  | TimerOf _ :: _ => fun _ => None
  | [] => mret RT_EOK
  end.

(** The initialisation functions register no devices. *)
Definition rt_device_init_all : D Z :=
  l ← on_k (deref object_container RT_Object_Class_Device);
  init_all_loop l.

(** The second half of [rt_device_open], for an initialised device. *)
Definition device_open (p : ptr) (oflag : Z) : D Z :=
  dev ← at_ptr devices p;
  if truthy (dev_flag dev &. RT_DEVICE_FLAG_STANDALONE) && truthy (open_flag dev &. RT_DEVICE_OFLAG_OPEN)
  then mret (- RT_EBUSY)
  else
    upd_device p (fun x => set_ref_count (u8 (ref_count x + 1)) x);;
    dev ← at_ptr devices p;
    on_k (RT_ASSERT (negb (ref_count dev =? 0)));;
    result ← (match dev_open dev with Some f => fn_open f p oflag | None => mret RT_EOK end);
    (if (result =? RT_EOK) || (result =? - RT_ENOSYS)
     then upd_device p (set_open_flag (oflag |. RT_DEVICE_OFLAG_OPEN)) else mret tt);;
    mret result.

Definition rt_device_open (p : ptr) (oflag : Z) : D Z :=
  dev ← at_ptr devices p;
  if is_active dev then device_open p oflag
  else
    result ← (match dev_init dev with Some f => run_init f p | None => mret RT_EOK end);
    if negb (result =? RT_EOK) then mret result
    else activate p;; device_open p oflag.

Definition rt_device_close (p : ptr) : D Z :=
  dev ← at_ptr devices p;
  if ref_count dev =? 0 then mret (- RT_ERROR)
  else
    upd_device p (fun x => set_ref_count (u8 (ref_count x - 1)) x);;
    dev ← at_ptr devices p;
    if negb (ref_count dev =? 0) then mret RT_EOK
    else
      result ← (match dev_close dev with Some f => fn_close f p | None => mret RT_EOK end);
      (if (result =? RT_EOK) || (result =? - RT_ENOSYS)
       then upd_device p (set_open_flag RT_DEVICE_OFLAG_CLOSE) else mret tt);;
      mret result.

Definition rt_console_get_device : D (option ptr) := sget console_device.

Definition rt_console_set_device (name : list Z) : D (option ptr) :=
  old ← sget console_device;
  new ← on_k (rt_device_find name);
  match new with
  | Some (Obj p) =>
      (match old with Some o => rt_device_close o;; mret tt | None => mret tt end);;
      supd (set_console_device (Some p));;
      rt_device_open p RT_DEVICE_OFLAG_RDWR;;
      mret old
  | _ => mret old
  end.
End Driver.

(** ** The console prints what the format says *)

Lemma u32_len (l : list Z) : Z.of_nat (length l) < 127 -> u32 (i32 (Z.of_nat (length l))) = Z.of_nat (length l).
Proof. intros Hl. rewrite i32_u32. apply wrap_small. unfold in_u. lia. Qed.

Section Console.
Context {fns : driver_fns} (rt_log_buf : Z).
Hypothesis Hbuf : 0 <= rt_log_buf.
Hypothesis Hend : rt_log_buf + RT_CONSOLEBUF_SIZE <= 4294967296.

(** [rt_kprintf] of a text that fits its buffer calls the write function of the console
    device once, with exactly the formatted text, in stream mode, and restores the flags
    of the device behind it.  The format is one of those of [rt_vsnprintf_renders]. *)
Theorem rt_kprintf_prints d ps args its p dev f :
  is_Some (read_bytes (ram d) rt_log_buf 127) ->
  Forall piece_ok ps -> items ps args = Some its -> Forall (fun it => deviates it = false) its ->
  Z.of_nat (length (format_text its)) < 127 -> console_device d = Some p -> devices d !! p = Some dev ->
  ref_count dev <> 0 -> dev_write dev = Some f ->
  exists m, write_bytes (ram d) rt_log_buf (format_text its ++ [0]) = Some m /\
    let stream := set_dev_flag (dev_flag dev |. RT_DEVICE_FLAG_STREAM) dev in
    forall n d' dev',
      fn_write f p 0 (format_text its) (Z.of_nat (length (format_text its)))
        (set_devices (<[p := stream]> (devices d)) (set_ram m d)) = Some (Returns n, d') ->
      devices d' !! p = Some dev' ->
      rt_kprintf rt_log_buf (write_format ps) args d =
        Some (tt, set_devices (<[p := set_dev_flag (dev_flag dev) dev']> (devices d')) d').
Proof.
  intros Hr Hok Hi Hdv Hl Hc Hd Hn Hw. unfold RT_CONSOLEBUF_SIZE in Hend.
  set (out := format_text its) in *. set (fmt := write_format ps).
  assert (loop_text (S (length fmt)) fmt args = Some out) as Hout by (apply loop_format; [unfold fmt; lia|done..]).
  destruct (vsnprintf_stores (ram d) rt_log_buf 127 fmt args out ltac:(lia) Hbuf ltac:(lia) Hr Hout)
    as (n0 & m & E & Hm & Hn0).
  rewrite (proj2 (Z.ltb_lt _ _)) in Hn0 by lia. subst n0. rewrite take_ge in Hm by lia.
  exists m. split; [done|]. intros stream n d' dev' Ew Ed. unfold rt_kprintf, RT_CONSOLEBUF_SIZE.
  erewrite bind_Some.
  2:{ unfold on_ram. change (128 - 1) with 127. rewrite E. reflexivity. }
  cbv beta zeta. cbn [fst]. change (128 - 1) with 127. rewrite u32_len by done. rewrite (proj2 (Z.ltb_ge 127 _)) by lia.
  erewrite bind_Some by reflexivity. cbn [console_device set_ram]. rewrite Hc.
  erewrite bind_Some by (unfold at_ptr; cbn [devices set_ram]; rewrite Hd; reflexivity).
  erewrite bind_Some by (unfold upd_device, mbind, ST_bind, at_ptr; cbn [devices set_ram]; rewrite Hd; reflexivity).
  assert (read_bytes m rt_log_buf (length out) = Some out) as Er.
  { rewrite <-(take_app_length out [0]) at 2.
    apply (read_bytes_take _ _ (length (out ++ [0]))); [by apply (read_write_same (ram d))|rewrite length_app; lia]. }
  erewrite bind_Some.
  2:{ unfold on_ram, read_log. rewrite Nat2Z.id. change (Driver.ram _) with m. rewrite Er. reflexivity. }
  erewrite bind_Some.
  2:{ unfold rt_device_write. erewrite bind_Some.
      2:{ unfold at_ptr. cbn [devices set_devices set_ram]. rewrite lookup_insert_eq. reflexivity. }
      cbn [ref_count set_dev_flag dev_write]. rewrite (proj2 (Z.eqb_neq _ _) Hn), Hw. exact Ew. }
  cbn beta match. unfold upd_device, mbind, ST_bind, at_ptr. by rewrite Ed.
Qed.

(** What a message needs: its buffer, and a console device, if there is one, that is open
    and can write. *)
Record printable (d : drivers) : Prop := {
  pr_buf : is_Some (read_bytes (ram d) rt_log_buf 127);
  pr_console q : console_device d = Some q ->
    exists dev f, devices d !! q = Some dev /\ ref_count dev <> 0 /\ dev_write dev = Some f;
}.

Lemma read_after_write m a bs m' b n :
  write_bytes m a bs = Some m' -> is_Some (read_bytes m b n) -> is_Some (read_bytes m' b n).
Proof.
  intros Hw. revert b. induction n as [|n IH]; intros b; [by eexists|]. cbn [read_bytes].
  destruct (m !! b) as [x|] eqn:Eb; [|by intros [? ?]]. cbn [mbind option_bind].
  destruct (read_bytes m (b + 1) n) eqn:Er; [|by intros [? ?]]. intros _.
  destruct (IH (b + 1) ltac:(rewrite Er; by eexists)) as [r' Er']. rewrite (write_bytes_lookup _ _ _ _ _ Hw), Er'.
  case_decide as Hd; [|rewrite Eb; by eexists].
  destruct (lookup_lt_is_Some_2 bs (Z.to_nat (b - a)) ltac:(lia)) as [y ->]. by eexists.
Qed.

(** [rt_kprintf] returns, whatever the length of its text is, if the write function of the
    console does. *)
Lemma dwp_kprintf d ps args its (P : drivers -> Prop) :
  Forall piece_ok ps -> items ps args = Some its -> Forall (fun it => deviates it = false) its ->
  printable d ->
  (forall m, printable (set_ram m d) -> console_device d = None -> P (set_ram m d)) ->
  (forall q dev f m buf n, console_device d = Some q -> devices d !! q = Some dev -> dev_write dev = Some f ->
    let d1 := set_devices (<[q := set_dev_flag (dev_flag dev |. RT_DEVICE_FLAG_STREAM) dev]> (devices d)) (set_ram m d) in
    printable d1 -> exists k d2 dev2, fn_write f q 0 buf n d1 = Some (Returns k, d2) /\ devices d2 !! q = Some dev2 /\
      P (set_devices (<[q := set_dev_flag (dev_flag dev) dev2]> (devices d2)) d2)) ->
  dwp (rt_kprintf rt_log_buf (write_format ps) args) (fun _ d' => P d') d.
Proof.
  intros Hok Hi Hdv [Hb Hcon] Hnone Hsome. unfold RT_CONSOLEBUF_SIZE in Hend.
  destruct (vsnprintf_stores (ram d) rt_log_buf 127 (write_format ps) args (format_text its) ltac:(lia) Hbuf ltac:(lia) Hb)
    as (n0 & m & E & Hm & _); [apply loop_format; [lia|done..]|].
  pose proof (read_after_write _ _ _ _ _ _ Hm Hb) as Hb'.
  unfold rt_kprintf. apply dwp_bind. unfold dwp at 1, on_ram. change (RT_CONSOLEBUF_SIZE - 1) with 127. rewrite E. cbn [fmap option_fmap option_map fst snd].
  set (len := if 127 <? u32 (i32 n0) then 127 else u32 (i32 n0)).
  assert (0 <= len <= 127) as Hlen.
  { assert (0 <= u32 (i32 n0) < 2 ^ 32) by (apply wrap_range; lia). unfold len. destruct (Z.ltb_spec 127 (u32 (i32 n0))); lia. }
  apply dwp_bind, dwp_get. cbn [console_device set_ram]. destruct (console_device d) as [q|] eqn:Eq.
  2:{ apply dwp_ret, Hnone; [|done]. split; [done|]. cbn [console_device set_ram]. by rewrite Eq. }
  destruct (Hcon q eq_refl) as (dev & f & Hd & Hn & Hf).
  apply dwp_bind, (dwp_at _ _ dev); [done|]. apply dwp_bind, (dwp_upd_device _ _ dev); [done|].
  set (d1 := set_devices _ _). assert (devices d1 !! q = Some (set_dev_flag (dev_flag dev |. RT_DEVICE_FLAG_STREAM) dev)) as Hd1
    by (simpl; apply lookup_insert_eq).
  destruct (read_bytes_is_Some m rt_log_buf 127 (Z.to_nat len) Hb' ltac:(lia)) as [buf Er].
  apply dwp_bind. unfold dwp at 1, on_ram, read_log. change (Driver.ram d1) with m. rewrite Er. cbn [fmap option_fmap option_map fst snd].
  change (set_ram m d1) with d1.
  destruct (Hsome q dev f m buf len eq_refl Hd Hf) as (k & d2 & dev2 & Ew & Hd2 & HP).
  { split; [done|]. cbn [console_device set_ram set_devices]. intros q' Hq'. assert (q' = q) as -> by congruence.
    eexists _, f. split; [exact Hd1|]. done. }
  apply dwp_bind. unfold rt_device_write. apply dwp_bind, (dwp_at _ _ _ _ _ Hd1). cbn [ref_count set_dev_flag dev_write].
  rewrite (proj2 (Z.eqb_neq _ _) Hn), Hf. unfold dwp at 1.
  change (fn_write f q 0 buf len d1 = Some (Returns k, d2)) in Ew. rewrite Ew. by apply (dwp_upd_device _ _ dev2).
Qed.
End Console.

(** ** Users of a device *)

Inductive dev_op := OpOpen (oflag : Z) | OpClose.

(** A call is answered by the open or close function of the driver, whose result it
    returns, or refused before that.  A missing function succeeds, and so does a close that
    leaves other users. *)
Inductive answer := Refused (r : Z) | Answered (r : Z).
Definition result_of (a : answer) : Z := match a with Refused r | Answered r => r end.
Definition accepted (r : Z) : bool := (r =? RT_EOK) || (r =? - RT_ENOSYS).

(** The state of a device as its users see it, and what a call may do to it.  An open is
    refused if the initialisation fails, or on a standalone device that is open, a close
    if nobody uses the device.  All other calls count, also those that the driver fails;
    the mark changes only if it does not. *)
Record usage := Usage { u_active : bool; u_count : Z; u_open : bool }.

Inductive use_step (sa : bool) : usage -> dev_op -> answer -> usage -> Prop :=
  | us_init_failed n o oflag r : r <> RT_EOK ->
      use_step sa (Usage false n o) (OpOpen oflag) (Refused r) (Usage false n o)
  | us_busy act n oflag : sa = true ->
      use_step sa (Usage act n true) (OpOpen oflag) (Refused (- RT_EBUSY)) (Usage true n true)
  | us_open act n o oflag r : sa && o = false ->
      use_step sa (Usage act n o) (OpOpen oflag) (Answered r) (Usage true (n + 1) (o || accepted r))
  | us_unused act o : use_step sa (Usage act 0 o) OpClose (Refused (- RT_ERROR)) (Usage act 0 o)
  | us_others act n o : 1 < n -> use_step sa (Usage act n o) OpClose (Answered RT_EOK) (Usage act (n - 1) o)
  | us_close act o r : use_step sa (Usage act 1 o) OpClose (Answered r) (Usage act 0 (o && negb (accepted r))).

Inductive use_run (sa : bool) : usage -> list dev_op -> list answer -> usage -> Prop :=
  | ur_nil u : use_run sa u [] [] u
  | ur_cons u1 u2 u3 o a os ans : use_step sa u1 o a u2 -> use_run sa u2 os ans u3 -> use_run sa u1 (o :: os) (a :: ans) u3.

(** Opens less closes that got to the driver. *)
Fixpoint holders (os : list dev_op) (ans : list answer) : Z :=
  match os, ans with
  | OpOpen _ :: os, Answered _ :: ans => 1 + holders os ans
  | OpClose :: os, Answered _ :: ans => -1 + holders os ans
  | _ :: os, Refused _ :: ans => holders os ans
  | _, _ => 0
  end.

Lemma use_run_count sa u os ans u' : use_run sa u os ans u' -> u_count u' = u_count u + holders os ans.
Proof.
  induction 1 as [u|u1 u2 u3 o a os ans Hs _ IH]; [simpl; lia|]. rewrite IH. destruct Hs; cbn [u_count holders]; lia.
Qed.

(** With a driver that does not fail the device is marked open as long as it has users, and
    a standalone device has one. *)
Lemma use_run_open sa u os ans u' : use_run sa u os ans u' -> (forall r, Answered r ∈ ans -> accepted r = true) ->
  0 <= u_count u -> u_open u = (0 <? u_count u) -> (sa = true -> u_count u <= 1) ->
  0 <= u_count u' /\ u_open u' = (0 <? u_count u') /\ (sa = true -> u_count u' <= 1).
Proof.
  induction 1 as [u|u1 u2 u3 o a os ans Hs _ IH]; intros Hacc H0 Ho Hsa; [done|].
  assert (forall r, a = Answered r -> accepted r = true) as Ha by (intros r ->; apply Hacc; by left).
  apply IH; [intros r Hr; apply Hacc; by right| | |]; clear IH Hacc; destruct Hs; cbn [u_count u_open] in *; try done; try lia.
  - rewrite (Ha _ eq_refl), orb_true_r. symmetry. apply Z.ltb_lt. lia.
  - rewrite Ho, !(proj2 (Z.ltb_lt _ _)) by lia. done.
  - rewrite (Ha _ eq_refl), andb_false_r. done.
  - intros ->. cbn [andb] in *. subst. symmetry in Ho. apply Z.ltb_ge in Ho. lia.
  - intros Hs. specialize (Hsa Hs). lia.
Qed.

(** The message of a failed initialisation. *)
Definition init_format : list piece :=
  (Char <$> codes "To initialize device:") ++ [Dir (Directive [] None None None Conv_s)] ++
  (Char <$> codes " failed. The error code is ") ++ [Dir (Directive [] None None None Conv_d); Char 10].

Lemma init_format_written : write_format init_format = codes "To initialize device:%s failed. The error code is %d" ++ [10].
Proof. vm_compute. reflexivity. Qed.

Lemma init_format_ok nm r : Forall piece_ok init_format /\
  exists its, items init_format [VStr (Some nm); VInt r] = Some its /\ Forall (fun it => deviates it = false) its.
Proof.
  split; [repeat constructor; discriminate|]. eexists. split; [reflexivity|].
  unfold codes. repeat (apply Forall_cons; split; [|]); try apply Forall_nil; try reflexivity.
  all: cbn [deviates prec zero minus]; rewrite ?andb_false_r; reflexivity.
Qed.

Section Users.
Context {fns : driver_fns} (rt_log_buf : Z).
Hypothesis Hbuf : 0 <= rt_log_buf.
Hypothesis Hend : rt_log_buf + RT_CONSOLEBUF_SIZE <= 4294967296.

Definition dev_call (p : ptr) (o : dev_op) : D Z :=
  match o with OpOpen oflag => rt_device_open rt_log_buf p oflag | OpClose => rt_device_close p end.

Fixpoint dev_run (p : ptr) (os : list dev_op) : D (list Z) :=
  match os with
  | [] => mret []
  | o :: os => r ← dev_call p o; rs ← dev_run p os; mret (r :: rs)
  end.

Context (p : ptr).

(** The device is an object, and messages can be printed, on another device. *)
Record calm (d : drivers) : Prop := {
  ca_print : printable rt_log_buf d;
  ca_other : console_device d <> Some p;
  ca_object : is_Some (objects (kern d) !! Obj p);
}.

Definition keeps (d d' : drivers) : Prop := devices d' !! p = devices d !! p /\ calm d'.

(** What the framework relies on: the functions of the drivers return, with any result, and
    they leave the structure of the device and the console alone. *)
Class driver_returns : Prop := {
  init_returns f d : calm d -> exists r d', fn_init f p d = Some (r, d') /\ keeps d d';
  open_returns f o d : calm d -> exists r d', fn_open f p o d = Some (r, d') /\ keeps d d';
  close_returns f d : calm d -> exists r d', fn_close f p d = Some (r, d') /\ keeps d d';
  write_returns f q buf n d : q <> p -> calm d -> console_device d = Some q ->
    exists k d', fn_write f q 0 buf n d = Some (Returns k, d') /\ keeps d d' /\ console_device d' = Some q;
}.
Context `{!driver_returns}.

Definition standalone (dev : rt_device) : bool := truthy (dev_flag dev &. RT_DEVICE_FLAG_STANDALONE).
Definition is_open (dev : rt_device) : bool := truthy (open_flag dev &. RT_DEVICE_OFLAG_OPEN).

Definition usage_of (dev : rt_device) : usage := Usage (is_active dev) (ref_count dev) (is_open dev).

Lemma truthy_lor_self a b : b <> 0 -> truthy ((a |. b) &. b) = true.
Proof.
  intros Hb. unfold truthy. rewrite Z.land_lor_distr_l, Z.land_diag. apply negb_true_iff, Z.eqb_neq.
  intros [_ ?]%Z.lor_eq_0_iff. done.
Qed.

Lemma truthy_lor_other a b c : b &. c = 0 -> truthy ((a |. b) &. c) = truthy (a &. c).
Proof. intros E. by rewrite Z.land_lor_distr_l, E, Z.lor_0_r. Qed.

(** Changes of the device itself. *)
Lemma calm_upd d dev : calm d -> calm (set_devices (<[p := dev]> (devices d)) d).
Proof.
  intros [[Hb Hc] Ho Hk]. split; [split; [done|]|done|done]. intros q Hq. destruct (Hc q Hq) as (cd & f & Hd & Hcd).
  exists cd, f. split; [|done]. simpl. by rewrite lookup_insert_ne by (intros <-; exact (Ho Hq)).
Qed.

Lemma dwp_init_failed d r (Q : unit -> drivers -> Prop) :
  calm d -> (forall d', keeps d d' -> Q tt d') -> dwp (init_failed rt_log_buf p r) Q d.
Proof.
  intros C HQ. pose proof C as [[Hb Hcon] Hoth [o Ho]]. unfold init_failed. apply dwp_bind, dwp_on_k, (wp_deref _ _ o); [done|].
  assert (set_kern (kern d) d = d) as -> by (by destruct d). destruct (init_format_ok (name_string (obj_name o)) r) as [Hok (its & Hi & Hdv)].
  rewrite <-init_format_written. eapply dwp_mono.
  { eapply (dwp_kprintf rt_log_buf Hbuf Hend d init_format _ its (fun d' => keeps d d') Hok Hi Hdv (ca_print _ C)).
    - intros m Hp _. split; [done|]. by split.
    - intros q dev f m buf n Eq Hd Hf d1 Hp1. assert (q <> p) as Hqp by congruence.
      assert (calm d1) as C1 by (by split; [|simpl; congruence|eexists]).
      destruct (write_returns f q buf n d1 Hqp C1 Eq) as (k & d2 & Ew & [K2 C2] & Eq2).
      destruct (pr_console _ _ (ca_print _ C2) q Eq2) as (dev2 & f2 & Hd2 & Hn2 & Hf2).
      exists k, d2, dev2. split; [exact Ew|]. split; [done|]. split.
      + cbn [devices set_devices]. rewrite lookup_insert_ne by done. rewrite K2. simpl. by rewrite lookup_insert_ne by done.
      + destruct C2 as [[Hb2 _] Ho2 Hk2]. split; [split; [done|]|done|done]. cbn [console_device set_devices].
        intros q' Hq'. assert (q' = q) as -> by congruence. eexists _, f2. split; [simpl; apply lookup_insert_eq|done]. }
  intros [] d' K. by apply HQ.
Qed.

(** A call that takes the device from [dev] to a state as [use_step] says. *)
Definition steps (o : dev_op) (dev : rt_device) (Q : Z -> drivers -> Prop) : Prop :=
  forall a d' dev', use_step (standalone dev) (usage_of dev) o a (usage_of dev') -> standalone dev' = standalone dev ->
    devices d' !! p = Some dev' -> calm d' -> Q (result_of a) d'.

Lemma dwp_device_open d dev oflag (Q : Z -> drivers -> Prop) :
  calm d -> devices d !! p = Some dev -> is_active dev = true -> 0 <= ref_count dev < 255 ->
  (forall a d' dev', (forall act, use_step (standalone dev) (Usage act (ref_count dev) (is_open dev)) (OpOpen oflag) a (usage_of dev')) ->
     standalone dev' = standalone dev -> devices d' !! p = Some dev' -> calm d' -> Q (result_of a) d') ->
  dwp (device_open p oflag) Q d.
Proof.
  intros C Hd Hact Hn HQ. unfold device_open.
  apply dwp_bind, (dwp_at _ _ dev); [done|]. fold (standalone dev) (is_open dev).
  destruct (standalone dev && is_open dev) eqn:Eb.
  { apply dwp_ret. apply andb_true_iff in Eb as [Es Eo]. apply (HQ (Refused (- RT_EBUSY)) d dev); try done.
    intros act. unfold usage_of. rewrite Hact, Eo. by apply us_busy. }
  apply dwp_bind, (dwp_upd_device _ _ dev); [done|]. apply dwp_bind.
  eapply dwp_at; [simpl; by rewrite lookup_insert_eq|]. cbn [ref_count set_ref_count].
  rewrite wrap_small by (unfold in_u; lia).
  apply dwp_bind, dwp_on_k, wp_assert; [by rewrite (proj2 (Z.eqb_neq _ _)) by lia|]. apply dwp_bind.
  set (dev1 := set_ref_count (ref_count dev + 1) dev). set (d1 := set_kern _ _).
  assert (devices d1 !! p = Some dev1) as Hd1 by (simpl; by rewrite lookup_insert_eq).
  assert (calm d1) as C1 by exact (calm_upd d dev1 C).
  enough (forall r d2, devices d2 !! p = Some dev1 -> calm d2 ->
    dwp ((if (r =? RT_EOK) || (r =? - RT_ENOSYS) then upd_device p (set_open_flag (oflag |. RT_DEVICE_OFLAG_OPEN)) else mret tt);; mret r) Q d2) as Hfin.
  { destruct (dev_open dev1) as [f|]; [|apply dwp_ret; by apply Hfin].
    destruct (open_returns f oflag d1 C1) as (r & d2 & E2 & K2 & C2). unfold dwp at 1. rewrite E2. apply Hfin; [by rewrite K2|done]. }
  intros r d2 Hd2 C2. apply dwp_bind. fold (accepted r).
  assert (forall o', o' = is_open dev || accepted r -> forall act,
    use_step (standalone dev) (Usage act (ref_count dev) (is_open dev)) (OpOpen oflag) (Answered r) (Usage true (ref_count dev + 1) o')) as Hstep
    by (intros o' -> act; by apply us_open).
  destruct (accepted r) eqn:Er.
  - apply (dwp_upd_device _ _ dev1); [done|]. apply dwp_ret. eapply (HQ (Answered r) _ (set_open_flag _ dev1)); [|done|simpl; apply lookup_insert_eq|by apply calm_upd].
    unfold usage_of. change (is_active (set_open_flag _ dev1)) with (is_active dev). rewrite Hact. apply Hstep.
    unfold is_open. cbn [open_flag set_open_flag]. rewrite truthy_lor_self by done. by rewrite orb_true_r.
  - apply dwp_ret, dwp_ret. eapply (HQ (Answered r) _ dev1); [|done|exact Hd2|done].
    unfold usage_of. change (is_active dev1) with (is_active dev). rewrite Hact. apply Hstep. by rewrite orb_false_r.
Qed.

Lemma dwp_open d dev oflag (Q : Z -> drivers -> Prop) :
  calm d -> devices d !! p = Some dev -> 0 <= ref_count dev < 255 -> steps (OpOpen oflag) dev Q ->
  dwp (rt_device_open rt_log_buf p oflag) Q d.
Proof.
  intros C Hd Hn HQ. unfold rt_device_open. apply dwp_bind, (dwp_at _ _ dev); [done|]. destruct (is_active dev) eqn:Ea.
  { eapply dwp_device_open; [done..|]. intros a d' dev' Hs. apply HQ. unfold usage_of at 1. rewrite Ea. apply Hs. }
  enough (forall d2, devices d2 !! p = Some dev -> calm d2 -> dwp (activate p;; device_open p oflag) Q d2) as Hfin.
  { apply dwp_bind. destruct (dev_init dev) as [f|]; [|apply dwp_ret; by apply Hfin].
    unfold run_init. apply dwp_bind. destruct (init_returns f d C) as (r & d2 & E2 & K2 & C2).
    unfold dwp at 1. rewrite E2. destruct (Z.eqb_spec r RT_EOK) as [->|Hr].
    - apply dwp_ret. apply Hfin; [by rewrite K2|done].
    - apply dwp_bind, dwp_init_failed; [done|]. intros d3 [K3 C3]. apply dwp_ret. rewrite (proj2 (Z.eqb_neq _ _) Hr). apply dwp_ret.
      eapply (HQ (Refused r) _ dev); [|done|by rewrite K3, K2|done]. unfold usage_of. rewrite Ea. by apply us_init_failed. }
  intros d2 Hd2 C2. unfold activate. apply dwp_bind, (dwp_upd_device _ _ dev); [done|].
  set (dev1 := set_dev_flag _ dev). assert (standalone dev1 = standalone dev) as Es
    by (unfold standalone, dev1; cbn [dev_flag set_dev_flag]; by rewrite truthy_lor_other).
  eapply (dwp_device_open _ dev1); [by apply calm_upd|simpl; apply lookup_insert_eq| |done|].
  - unfold is_active, dev1. cbn [dev_flag set_dev_flag]. by apply truthy_lor_self.
  - intros a d' dev' Hs Es' Hdv Cv. rewrite Es in Hs, Es'. exact (HQ a d' dev' (Hs (is_active dev)) Es' Hdv Cv).
Qed.

Lemma dwp_close d dev (Q : Z -> drivers -> Prop) :
  calm d -> devices d !! p = Some dev -> 0 <= ref_count dev < 256 -> steps OpClose dev Q -> dwp (rt_device_close p) Q d.
Proof.
  intros C Hd Hn HQ. unfold rt_device_close.
  apply dwp_bind, (dwp_at _ _ dev); [done|]. destruct (Z.eqb_spec (ref_count dev) 0) as [E0|E0].
  { apply dwp_ret. eapply (HQ (Refused _) _ dev); [|done|done|done]. unfold usage_of. rewrite E0. apply us_unused. }
  apply dwp_bind, (dwp_upd_device _ _ dev); [done|]. apply dwp_bind.
  eapply dwp_at; [simpl; by rewrite lookup_insert_eq|]. cbn [ref_count set_ref_count].
  rewrite wrap_small by (unfold in_u; lia). set (dev1 := set_ref_count (ref_count dev - 1) dev). set (d1 := set_devices _ d).
  assert (devices d1 !! p = Some dev1) as Hd1 by (simpl; by rewrite lookup_insert_eq).
  assert (calm d1) as C1 by exact (calm_upd d dev1 C).
  destruct (Z.eqb_spec (ref_count dev - 1) 0) as [E1|E1]; cbn [negb].
  2:{ apply dwp_ret. eapply (HQ (Answered RT_EOK) _ dev1); [|done|exact Hd1|done]. apply us_others. lia. }
  assert (ref_count dev = 1) as En by lia. apply dwp_bind.
  enough (forall r d2, devices d2 !! p = Some dev1 -> calm d2 ->
    dwp ((if (r =? RT_EOK) || (r =? - RT_ENOSYS) then upd_device p (set_open_flag RT_DEVICE_OFLAG_CLOSE) else mret tt);; mret r) Q d2) as Hfin.
  { destruct (dev_close dev1) as [f|]; [|apply dwp_ret; by apply Hfin].
    destruct (close_returns f d1 C1) as (r & d2 & E2 & K2 & C2). unfold dwp at 1. rewrite E2. apply Hfin; [by rewrite K2|done]. }
  intros r d2 Hd2 C2. apply dwp_bind. fold (accepted r).
  assert (forall o', o' = is_open dev && negb (accepted r) ->
    use_step (standalone dev) (usage_of dev) OpClose (Answered r) (Usage (is_active dev) (ref_count dev - 1) o')) as Hstep
    by (intros o' ->; unfold usage_of; rewrite En; apply us_close).
  destruct (accepted r) eqn:Er.
  - apply (dwp_upd_device _ _ dev1); [done|]. apply dwp_ret. eapply (HQ (Answered r) _ (set_open_flag _ dev1)); [|done|simpl; apply lookup_insert_eq|by apply calm_upd].
    apply Hstep. by rewrite andb_false_r.
  - apply dwp_ret, dwp_ret. eapply (HQ (Answered r) _ dev1); [|done|exact Hd2|done]. apply Hstep. by rewrite andb_true_r.
Qed.

Lemma use_step_bound sa u o a u' : use_step sa u o a u' -> 0 <= u_count u -> 0 <= u_count u' <= u_count u + 1.
Proof. destruct 1; cbn [u_count]; lia. Qed.

Lemma dev_run_ok os : forall d dev, calm d -> devices d !! p = Some dev -> 0 <= ref_count dev ->
  ref_count dev + Z.of_nat (length os) < 256 ->
  dwp (dev_run p os) (fun rs d' => exists ans dev', rs = result_of <$> ans /\ devices d' !! p = Some dev' /\
    use_run (standalone dev) (usage_of dev) os ans (usage_of dev')) d.
Proof.
  induction os as [|o os IH]; intros d dev C Hd H0 Hn.
  { apply dwp_ret. exists [], dev. split; [done|]. split; [done|]. constructor. }
  cbn [length] in Hn. cbn [dev_run]. apply dwp_bind.
  assert (steps o dev (fun r d1 => dwp (rs ← dev_run p os; mret (r :: rs))
    (fun rs d' => exists ans dev', rs = result_of <$> ans /\ devices d' !! p = Some dev' /\
      use_run (standalone dev) (usage_of dev) (o :: os) ans (usage_of dev')) d1)) as Hk.
  { intros a d1 dev1 Hs Es Hd1 C1. pose proof (use_step_bound _ _ _ _ _ Hs H0) as Hb. cbn [u_count usage_of] in Hb.
    apply dwp_bind. eapply dwp_mono; [apply (IH d1 dev1 C1 Hd1); lia|]. intros rs d2 (ans & dev2 & -> & Hd2 & Hr).
    apply dwp_ret. exists (a :: ans), dev2. split; [done|]. split; [done|]. rewrite Es in Hr. by eapply ur_cons. }
  destruct o as [oflag|]; cbn [dev_call]; [eapply dwp_open|eapply dwp_close]; try done; lia.
Qed.

(** C39. A device that nobody uses is opened and closed by any sequence of less than 256
    calls, with a driver whose functions may fail; they return, leave the structure of the
    device and the console alone, and the console, if there is one, is another device that
    is open and can write.  Then every call goes as [use_step] says; the reference count is
    the number of opens less closes that got to the driver, also if the driver failed them;
    and if it failed none, the device is marked open exactly while the count is not 0, and
    a standalone device never has more than one user. *)
Theorem device_users d dev os :
  calm d -> devices d !! p = Some dev -> ref_count dev = 0 -> is_open dev = false -> Z.of_nat (length os) < 256 ->
  exists ans d' dev', dev_run p os d = Some (result_of <$> ans, d') /\ devices d' !! p = Some dev' /\
    use_run (standalone dev) (usage_of dev) os ans (usage_of dev') /\
    ref_count dev' = holders os ans /\
    ((forall r, Answered r ∈ ans -> accepted r = true) ->
       is_open dev' = (0 <? holders os ans) /\ (standalone dev = true -> holders os ans <= 1)).
Proof.
  intros C Hd Hc Ho Hn. pose proof (dev_run_ok os d dev C Hd ltac:(lia) ltac:(lia)) as Hw. rewrite dwp_exists in Hw.
  destruct Hw as (rs & d' & E & ans & dev' & -> & Hd' & Hr). pose proof (use_run_count _ _ _ _ _ Hr) as Hcnt.
  cbn [u_count usage_of] in Hcnt. rewrite Hc, Z.add_0_l in Hcnt. exists ans, d', dev'. split_and!; try done. intros Hacc.
  destruct (use_run_open _ _ _ _ _ Hr Hacc) as (_ & H2 & H3); cbn [u_count u_open usage_of] in *.
  - lia.
  - by rewrite Ho, Hc.
  - lia.
  - rewrite Hcnt in *. done.
Qed.
End Users.

(** ** Finding and registering *)

Lemma device_find_loop_eq name l : forall k, rt_current_thread k <> None ->
  device_find_loop name l k = rt_object_find_loop name l k.
Proof.
  induction l as [|r l IH]; intros k Hk; cbn [device_find_loop rt_object_find_loop];
    unfold mbind, K_bind, if_self, rt_thread_self, gets; cbn [mbind K_bind].
  - unfold mbind, K_bind. by rewrite bool_decide_true.
  - destruct (deref objects r k) as [[o k1]|] eqn:Eo; [|done].
    assert (k1 = k) as -> by (unfold deref in Eo; destruct (objects k !! r); by simplify_eq).
    destruct (lift _ k) as [[c k2]|] eqn:Ec; [|done].
    assert (k2 = k) as -> by (unfold lift in Ec; by destruct (KString.rt_strncmp _ _ _); simplify_eq).
    destruct (c =? 0); [|by apply IH]. unfold mbind, K_bind. by rewrite bool_decide_true.
Qed.

Lemma wp_device_find k t names s name l (Q : option ref -> kernel -> Prop) :
  kernel_ok Task k -> rt_current_thread k = Some t -> 0 <= rt_scheduler_lock_nest k < 32767 ->
  object_container k !! RT_Object_Class_Device = Some l ->
  (forall r, r ∈ l -> named k r (names r)) -> KString.cstr s name ->
  (forall res k', kernel_ok Task k' -> found names s l res -> rt_scheduler_lock_nest k' = rt_scheduler_lock_nest k ->
     Q res k') ->
  wp (rt_device_find name) Q k.
Proof.
  intros O Hc Hl Hcl Hnm Hs HQ. unfold rt_device_find, if_self. apply wp_bind, wp_bind, wp_gets.
  rewrite Hc, bool_decide_true by done. apply wp_modify, wp_bind, (wp_deref _ _ l); [done|].
  set (k1 := set_rt_scheduler_lock_nest _ k). assert (rt_scheduler_lock_nest k1 = rt_scheduler_lock_nest k + 1) as E1.
  { simpl. by rewrite swrap_small by (simpl; lia). }
  pose proof (wp_find_loop names s name (rt_scheduler_lock_nest k) k1 l O E1 Hl Hnm Hs) as Hw.
  unfold wp in *. rewrite device_find_loop_eq by (simpl; by rewrite Hc).
  destruct (rt_object_find_loop name l k1) as [[res k']|]; [|done]. destruct Hw as (O' & L' & _ & F). by apply HQ.
Qed.

(** ** Examples *)

(** Drivers whose functions succeed at once and do nothing, but for those with the number
    13, which fail; they write everything. *)
Definition plain_fns : driver_fns := {|
  fn_init f p := mret (if f =? 13 then - RT_ERROR else RT_EOK);
  fn_open f p o := mret (if f =? 13 then - RT_ERROR else RT_EOK);
  fn_close f p := mret RT_EOK;
  fn_read f p pos n := mret (Returns ([], 0));
  fn_write f p pos b n := mret (Returns n);
  fn_control f p c a := mret RT_EOK;
  fn_rx_indicate f p n := mret RT_EOK;
  fn_evt_notify f p e := mret tt;
|}.

(** A driver whose functions all succeed. *)
Definition good_fns : driver_fns := {|
  fn_init f p := mret RT_EOK;
  fn_open f p o := mret RT_EOK;
  fn_close f p := mret RT_EOK;
  fn_read f p pos n := mret (Returns ([], 0));
  fn_write f p pos b n := mret (Returns n);
  fn_control f p c a := mret RT_EOK;
  fn_rx_indicate f p n := mret RT_EOK;
  fn_evt_notify f p e := mret tt;
|}.

Definition uart (open_fn : Z) (flag : Z) : rt_device :=
  Device 0 flag 0 0 0 None None (Some 1) (Some open_fn) (Some 3) None (Some 5) None 0.

(** The device uart1 at 61440, and a text buffer at 1000. *)
Definition demo_dev (open_fn flag : Z) : drivers :=
  set_ram text_ram (set_devices {[61440 := uart open_fn 0]} (drivers_bss demo)).
Definition demo_drivers (open_fn flag : Z) : drivers :=
  default (demo_dev open_fn flag)
    (snd <$> rt_device_register (Some 61440) [117; 97; 114; 116; 49; 0] flag (demo_dev open_fn flag)).

#[local] Instance plain_returns p : driver_returns (fns := plain_fns) 1000 p.
Proof. split; intros; eexists _, _; (split; [reflexivity|]); unfold keeps; auto. Qed.

(** Two opens that the driver fails, and a close: somebody still uses the device. *)
Lemma device_users_witness :
  exists ans d' dev', dev_run (fns := plain_fns) 1000 61440 [OpOpen 3; OpOpen 3; OpClose] (demo_drivers 13 3) =
      Some ([- RT_ERROR; - RT_ERROR; RT_EOK], d') /\ result_of <$> ans = [- RT_ERROR; - RT_ERROR; RT_EOK] /\
    use_run false (Usage false 0 false) [OpOpen 3; OpOpen 3; OpClose] ans (Usage true 1 false) /\
    devices d' !! 61440 = Some dev' /\ ref_count dev' = holders [OpOpen 3; OpOpen 3; OpClose] ans.
Proof.
  assert (calm 1000 61440 (demo_drivers 13 3)) as C.
  { split; [split; [vm_compute; by eexists|by vm_compute]|by vm_compute|vm_compute; by eexists]. }
  destruct (device_users (fns := plain_fns) 1000 ltac:(lia) ltac:(by vm_compute) 61440 (demo_drivers 13 3) (uart 13 3)
    [OpOpen 3; OpOpen 3; OpClose] C ltac:(vm_compute; reflexivity) eq_refl eq_refl ltac:(simpl; lia))
    as (ans & d' & dev' & E & Ed & Er & Ec & _).
  assert (('(rs, d) ← dev_run (fns := plain_fns) 1000 61440 [OpOpen 3; OpOpen 3; OpClose] (demo_drivers 13 3);
           dev ← devices d !! 61440; Some (rs, usage_of dev)) =
    Some ([- RT_ERROR; - RT_ERROR; RT_EOK], Usage true 1 false)) as E' by (vm_compute; reflexivity).
  rewrite E in E'. cbn [mbind option_bind] in E'. rewrite Ed in E'. cbn [mbind option_bind] in E'. injection E' as Ea Eu1 Eu2 Eu3.
  exists ans, d', dev'. rewrite E, Ea. split; [reflexivity|]. split; [reflexivity|].
  split; [|split; [exact Ed|exact Ec]]. unfold usage_of in Er. rewrite Eu1, Eu2, Eu3 in Er. exact Er.
Defined.

(** A second device with the same name is refused. *)
Example register_twice :
  (fst <$> rt_device_register (Some 65536) [117; 97; 114; 116; 49; 0] 3 (demo_drivers 2 3)) = Some (- RT_ERROR).
Proof. vm_compute. reflexivity. Qed.

(** An open that the driver refuses still counts: the device then has a user who never
    opened it, and reads and writes go to the driver. *)
Example failed_open_counts :
  ('(r, d) ← rt_device_open (fns := plain_fns) 1000 61440 3 (demo_drivers 13 3);
   dev ← devices d !! 61440;
   '(w, _) ← rt_device_write (fns := plain_fns) 61440 0 [65] 1 d;
   Some (r, ref_count dev, is_open dev, w)) = Some (- RT_ERROR, 1, false, Returns 1).
Proof. vm_compute. reflexivity. Qed.

(** The console of the examples. *)
Definition demo_console : drivers :=
  default (demo_drivers 2 3)
    (snd <$> rt_console_set_device (fns := good_fns) 1000 [117; 97; 114; 116; 49; 0] (demo_drivers 2 3)).

(** The format [tick %d]. *)
Definition tick_format : list piece := (Char <$> codes "tick ") ++ [Dir (Directive [] None None None Conv_d)].
Definition tick_items : list item :=
  (IChar <$> codes "tick ") ++ [INumber (Style false false false false None None) true false 10 42].

Lemma rt_kprintf_prints_witness :
  exists d', rt_kprintf (fns := good_fns) 1000 (write_format tick_format) [VInt 42] demo_console = Some (tt, d') /\
    read_bytes (ram d') 1000 8 = Some (codes "tick 42" ++ [0]).
Proof.
  assert (is_Some (read_bytes (ram demo_console) 1000 127)) as Hr by (vm_compute; by eexists).
  destruct (rt_kprintf_prints (fns := good_fns) 1000 ltac:(lia) ltac:(by vm_compute) demo_console
    tick_format [VInt 42] tick_items 61440
    (Device 0 19 11 1 0 None None (Some 1) (Some 2) (Some 3) None (Some 5) None 0) 5 Hr) as (m & Em & Hk);
    [by repeat constructor|vm_compute; reflexivity|by repeat constructor|by vm_compute|vm_compute; reflexivity|vm_compute; reflexivity|done|done|].
  clear Hr. revert m Em Hk. generalize demo_console. intros d m Em Hk.
  eexists. split; [eapply Hk; [reflexivity|simpl; apply lookup_insert_eq]|].
  exact (read_write_same _ _ _ _ Em).
Defined.

(** A driver that only takes a text without null characters, as a terminal expects. *)
Definition strict_fns : driver_fns := {|
  fn_init f p := mret RT_EOK;
  fn_open f p o := mret RT_EOK;
  fn_close f p := mret RT_EOK;
  fn_read f p pos n := mret (Returns ([], 0));
  fn_write f p pos b n := if forallb (fun c => negb (c =? 0)) b then mret (Returns n) else fun _ => None;
  fn_control f p c a := mret RT_EOK;
  fn_rx_indicate f p n := mret RT_EOK;
  fn_evt_notify f p e := mret tt;
|}.

(** A text of 127 characters or more is cut to 126, and the null character behind them is
    sent to the console too. *)
Example kprintf_sends_null :
  (fst <$> rt_kprintf (fns := strict_fns) 1000 (repeat 65 140) [] demo_console) = None /\
  (fst <$> rt_kprintf (fns := strict_fns) 1000 (repeat 65 126) [] demo_console) = Some tt.
Proof. split; vm_compute; reflexivity. Qed.
