(* ===== verification/Pipe.v ===== *)
(** * Pipes: components/drivers/src/pipe.c

    A pipe is a device with a ring buffer between its writers and its readers, each of
    which may wait: the readers on [QSuspend p], the writers on [QSender p]. *)

From S2P Require Import Prelude RingBuffer Kernel Scheduler Object Timer Thread KernelOk ThreadSpec Ipc StateM LwipMem KMem Printf Driver Device.

Definition RT_PIPE_FLAG_BLOCK_RD : Z := 0x01.
Definition RT_PIPE_FLAG_BLOCK_WR : Z := 0x02.
Definition RT_PIPE_FLAG_FORCE_WR : Z := 0x04.
Definition PIPE_CTRL_GET_SPACE : Z := 0x14.
Definition RT_Device_Class_Pipe : Z := 15.

Definition pipe_has (pipe : rt_pipe_device) (f : Z) : bool := truthy (pipe_flag pipe &. f).

(** ** Operations *)

Section Pipe.
Context {fns : driver_fns}.

(** [rt_ringbuffer_get(&pipe->ringbuffer, buffer, size)]; the ring buffer counts with 16
    bits. *)
Definition pipe_get (p : ptr) (size : Z) : D (list Z * Z) :=
  pipe ← at_ptr pipes p;
  '(rb, bs, n) ← slift (RingBuffer.rt_ringbuffer_get (ringbuffer pipe) (u16 size));
  put_pipe p (set_ringbuffer rb pipe);;
  mret (bs, n).

Definition pipe_put (p : ptr) (buffer : list Z) (size : Z) : D Z :=
  pipe ← at_ptr pipes p;
  '(rb, n) ← slift (if pipe_has pipe RT_PIPE_FLAG_FORCE_WR
                    then RingBuffer.rt_ringbuffer_put_force (ringbuffer pipe) buffer (u16 size)
                    else RingBuffer.rt_ringbuffer_put (ringbuffer pipe) buffer (u16 size));
  put_pipe p (set_ringbuffer rb pipe);;
  mret n.

(** The two functions behind; [flag] is what the assertion asks for. *)
Definition pipe_resume (p : ptr) (q : qid) (flag : Z) : D unit :=
  empty ← on_k (tlist_isempty q);
  if negb (empty : bool) then
    pipe ← at_ptr pipes p;
    on_k (RT_ASSERT (pipe_has pipe flag));;
    on_k (resume_first q;; rt_schedule;; mret tt)
  else mret tt.

Definition _rt_pipe_resume_writer (p : ptr) : D unit := pipe_resume p (QSender p) RT_PIPE_FLAG_BLOCK_WR.

Definition _rt_pipe_resume_reader (p : ptr) : D unit :=
  dev ← at_ptr devices p;
  (match rx_indicate dev with
   | Some f =>
       pipe ← at_ptr pipes p;
       fn_rx_indicate f p (RingBuffer.rt_ringbuffer_data_len (ringbuffer pipe));; mret tt
   | None => mret tt
   end);;
  pipe_resume p (QSuspend p) RT_PIPE_FLAG_BLOCK_RD.

(** One round of the [do ... while]; the thread that waits goes on with the next one. *)
Definition rt_pipe_read_loop (p : ptr) (thread : option ptr) (size : Z) : D (waiting (list Z * Z)) :=
  '(bs, n) ← pipe_get p size;
  if n =? 0 then
    t ← slift thread;
    on_k (wait_on (mret tt) (QSuspend p) t 0);;
    mret (Waits 0 0)
  else
    _rt_pipe_resume_writer p;;
    mret (Returns (bs, n)).

Definition rt_pipe_read (p : ptr) (pos size : Z) : D (waiting (list Z * Z)) :=
  pipe ← at_ptr pipes p;
  if negb (pipe_has pipe RT_PIPE_FLAG_BLOCK_RD) then
    '(bs, n) ← pipe_get p size;
    (if negb (n =? 0) then _rt_pipe_resume_writer p else mret tt);;
    mret (Returns (bs, n))
  else
    thread ← on_k rt_thread_self;
    on_k RT_DEBUG_NOT_IN_INTERRUPT;;
    rt_pipe_read_loop p thread size.

Definition rt_pipe_read_resume (p t : ptr) (size : Z) : D (waiting (list Z * Z)) :=
  rt_pipe_read_loop p (Some t) size.

Definition rt_pipe_write_loop (p : ptr) (thread : option ptr) (buffer : list Z) (size : Z) : D (waiting Z) :=
  n ← pipe_put p buffer size;
  if n =? 0 then
    t ← slift thread;
    on_k (wait_on (mret tt) (QSender p) t 0);;
    mret (Waits 0 0)
  else
    _rt_pipe_resume_reader p;;
    mret (Returns n).

Definition rt_pipe_write (p : ptr) (pos : Z) (buffer : list Z) (size : Z) : D (waiting Z) :=
  pipe ← at_ptr pipes p;
  if pipe_has pipe RT_PIPE_FLAG_FORCE_WR || negb (pipe_has pipe RT_PIPE_FLAG_BLOCK_WR) then
    n ← pipe_put p buffer size;
    _rt_pipe_resume_reader p;;
    mret (Returns n)
  else
    thread ← on_k rt_thread_self;
    on_k RT_DEBUG_NOT_IN_INTERRUPT;;
    rt_pipe_write_loop p thread buffer size.

Definition rt_pipe_write_resume (p t : ptr) (buffer : list Z) (size : Z) : D (waiting Z) :=
  rt_pipe_write_loop p (Some t) buffer size.

(** [args] is an address, 0 the null pointer. *)
Definition rt_pipe_control (p : ptr) (cmd args : Z) : D Z :=
  (if (cmd =? PIPE_CTRL_GET_SPACE) && negb (args =? 0) then
     pipe ← at_ptr pipes p;
     on_ram (wr32 args (u32 (RingBuffer.rt_ringbuffer_space_len (ringbuffer pipe))))
   else mret tt);;
  mret RT_EOK.
End Pipe.

(** The functions of a pipe as function pointers, beside those of the other drivers. *)
Definition FN_rt_pipe_read : Z := 1001.
Definition FN_rt_pipe_write : Z := 1002.
Definition FN_rt_pipe_control : Z := 1003.

Definition with_pipes (base : driver_fns) : driver_fns := {|
  fn_init := fn_init;
  fn_open := fn_open;
  fn_close := fn_close;
  fn_read f := if f =? FN_rt_pipe_read then rt_pipe_read else fn_read f;
  fn_write f := if f =? FN_rt_pipe_write then rt_pipe_write else fn_write f;
  fn_control f := if f =? FN_rt_pipe_control then rt_pipe_control else fn_control f;
  fn_rx_indicate := fn_rx_indicate;
  fn_evt_notify := fn_evt_notify;
|}.

(** What [rt_pipe_init] sets in the structure of the device. *)
Definition pipe_device (dev : rt_device) : rt_device :=
  Device RT_Device_Class_Pipe (dev_flag dev) (open_flag dev) (ref_count dev) (device_id dev) (rx_indicate dev)
    (tx_complete dev) None None None (Some FN_rt_pipe_read) (Some FN_rt_pipe_write) (Some FN_rt_pipe_control)
    (dev_user_data dev).

(** The structure is the memory at [p]; [buf] is the memory of the buffer. *)
Definition rt_pipe_init (p : ptr) (name : list Z) (flag : Z) (buf : list Z) (size : Z) : D Z :=
  on_k (tlist_init (QSuspend p));;
  on_k (tlist_init (QSender p));;
  rb ← slift (RingBuffer.rt_ringbuffer_init buf (i16 size));
  put_pipe p (Pipe rb flag);;
  upd_device p pipe_device;;
  rt_device_register (Some p) name RT_DEVICE_FLAG_RDWR.

Definition rt_pipe_detach (p : ptr) : D Z := rt_device_unregister p.

Definition zero_device : rt_device := Device 0 0 0 0 0 None None None None None None None None 0.

(** [mem] and [rb_memptr]: what [rt_calloc] and [rt_malloc] returned. *)
Definition rt_pipe_create (mem : option ptr) (rb_memptr : option (list Z)) (name : list Z) (flag size : Z) : D Z :=
  let size := RT_ALIGN size RT_ALIGN_SIZE in
  match mem, rb_memptr with
  | Some p, Some buf => put_device p zero_device;; rt_pipe_init p name flag buf size
  | _, _ => mret (- RT_ENOMEM)
  end.

(** [None] for a null pointer; the freed memory holds no device any more. *)
Definition rt_pipe_destroy (pipe : option ptr) : D unit :=
  match pipe with
  | None => mret tt
  | Some p =>
      rt_pipe_detach p;;
      _ ← at_ptr pipes p;
      supd (fun d => set_pipes (delete p (pipes d)) (set_devices (delete p (devices d)) d))
  end.

(** ** Writers and readers *)

Section Stream.
Context {fns : driver_fns}.

(** The pipe at [p] holds [l]. *)
Definition holds (d : drivers) (p : ptr) (pipe : rt_pipe_device) (l : list Z) : Prop :=
  pipes d !! p = Some pipe /\ RingBuffer.wf (ringbuffer pipe) /\ RingBuffer.contents (ringbuffer pipe) = l.

Definition room (pipe : rt_pipe_device) : Z := RingBuffer.rt_ringbuffer_space_len (ringbuffer pipe).

Lemma holds_len d p pipe l : holds d p pipe l -> RingBuffer.rt_ringbuffer_data_len (ringbuffer pipe) = Z.of_nat (length l).
Proof. intros (_ & W & <-). by rewrite RingBuffer.length_contents. Qed.

Lemma pipe_get_eq d p pipe l size : holds d p pipe l -> 0 <= size < 65536 ->
  exists pipe', pipe_get p size d =
      Some ((take (Z.to_nat size) l, Z.min size (Z.of_nat (length l))), set_pipes (<[p := pipe']> (pipes d)) d) /\
    pipe_flag pipe' = pipe_flag pipe /\ RingBuffer.wf (ringbuffer pipe') /\
    RingBuffer.contents (ringbuffer pipe') = drop (Z.to_nat size) l.
Proof.
  intros Hh Hs. pose proof (holds_len _ _ _ _ Hh) as Hl. destruct Hh as (Hp & W & Hc).
  destruct (RingBuffer.get_spec (ringbuffer pipe) size W) as (rb & E & W' & Hc'); [unfold in_u; lia|].
  rewrite Hl, Hc in E, Hc'. exists (set_ringbuffer rb pipe). split; [|split; [done|split; [done|]]].
  - unfold pipe_get. erewrite bind_Some by (unfold at_ptr; rewrite Hp; reflexivity).
    rewrite wrap_small by (unfold in_u; lia). erewrite bind_Some by (by apply slift_Some). cbv beta match.
    erewrite bind_Some by reflexivity. unfold mret, ST_ret. do 3 f_equal.
    destruct (Z.min_spec size (Z.of_nat (length l))) as [[? ->]|[? ->]]; [done|].
    rewrite Nat2Z.id, !take_ge by lia. done.
  - change (ringbuffer (set_ringbuffer rb pipe)) with rb. rewrite Hc'.
    destruct (Z.min_spec size (Z.of_nat (length l))) as [[? ->]|[? ->]]; [done|].
    rewrite Nat2Z.id, !drop_ge by lia. done.
Qed.

Lemma pipe_put_eq d p pipe l buffer size : holds d p pipe l -> pipe_has pipe RT_PIPE_FLAG_FORCE_WR = false ->
  0 <= size < 65536 -> size <= Z.of_nat (length buffer) ->
  exists pipe', pipe_put p buffer size d = Some (Z.min size (room pipe), set_pipes (<[p := pipe']> (pipes d)) d) /\
    pipe_flag pipe' = pipe_flag pipe /\ RingBuffer.wf (ringbuffer pipe') /\
    RingBuffer.contents (ringbuffer pipe') = l ++ take (Z.to_nat (Z.min size (room pipe))) buffer.
Proof.
  intros (Hp & W & Hc) Hf Hs Hb.
  destruct (RingBuffer.put_spec (ringbuffer pipe) buffer size W) as (rb & E & W' & Hc'); [unfold in_u; lia|done|].
  rewrite Hc in Hc'. exists (set_ringbuffer rb pipe). split; [|done].
  unfold pipe_put. erewrite bind_Some by (unfold at_ptr; rewrite Hp; reflexivity). rewrite Hf.
  rewrite wrap_small by (unfold in_u; lia). by erewrite bind_Some by (by apply slift_Some).
Qed.

Lemma dwp_pipe_resume m d p pipe q flag (Q : unit -> drivers -> Prop) :
  kernel_ok m (kern d) -> pipes d !! p = Some pipe -> (exists p, q = QSuspend p \/ q = QSender p) ->
  (tl (kern d) q <> [] -> pipe_has pipe flag = true) ->
  (forall k', kernel_ok m k' -> woken_first q (kern d) k' -> Q tt (set_kern k' d)) ->
  dwp (pipe_resume p q flag) Q d.
Proof.
  intros O Hp Hq Hf HQ. unfold pipe_resume. apply dwp_bind, dwp_on_k. unfold tlist_isempty. apply wp_bind, wp_gets.
  destruct (tl (kern d) q) as [|t l] eqn:El; apply wp_ret; cbn [negb]; rewrite ?set_kern_id.
  - apply dwp_ret. rewrite <-(set_kern_id d). apply HQ; [done|]. unfold woken_first. by rewrite El.
  - apply dwp_bind, (dwp_at _ _ pipe); [done|]. apply dwp_bind, dwp_on_k, wp_assert; [by apply Hf|]. rewrite set_kern_id.
    apply dwp_on_k, (wp_resume_first m _ _ t l); auto.
Qed.

Lemma pipe_get_empty d p pipe size : holds d p pipe [] ->
  pipe_get p size d = Some (([], 0), set_pipes (<[p := pipe]> (pipes d)) d).
Proof.
  intros Hh. pose proof (holds_len _ _ _ _ Hh) as Hl. destruct Hh as (Hp & _). simpl in Hl.
  unfold pipe_get. erewrite bind_Some by (unfold at_ptr; rewrite Hp; reflexivity).
  unfold RingBuffer.rt_ringbuffer_get. rewrite Hl. cbn [Z.eqb]. erewrite bind_Some by reflexivity.
  cbv beta match. replace (set_ringbuffer (ringbuffer pipe) pipe) with pipe by (by destruct pipe). reflexivity.
Qed.

Lemma dwp_read_waits d t th p pipe size (Q : waiting (list Z * Z) -> drivers -> Prop) :
  caller (kern d) t th -> holds d p pipe [] -> pipe_has pipe RT_PIPE_FLAG_BLOCK_RD = true ->
  (forall k', kernel_ok Task k' -> blocked_state (kern d) t th (QSuspend p) RT_IPC_FLAG_FIFO 0 k' ->
     Q (Waits 0 0) (set_kern k' (set_pipes (<[p := pipe]> (pipes d)) d))) ->
  dwp (rt_pipe_read p 0 size) Q d.
Proof.
  intros C Hh Hb HQ. pose proof Hh as (Hp & _). unfold rt_pipe_read. apply dwp_bind, (dwp_at _ _ pipe); [done|].
  rewrite Hb. cbn [negb]. apply dwp_bind, dwp_on_k, wp_gets. rewrite set_kern_id, (ca_current _ _ _ C).
  apply dwp_bind, dwp_on_k. unfold RT_DEBUG_NOT_IN_INTERRUPT. apply wp_bind, wp_gets, wp_assert; [by rewrite (ca_nest _ _ _ C)|].
  rewrite set_kern_id. unfold rt_pipe_read_loop. apply dwp_bind. unfold dwp at 1. rewrite (pipe_get_empty d p pipe) by done.
  cbn [Z.eqb]. apply dwp_bind, dwp_ret, dwp_bind, dwp_on_k, (wp_wait_on _ _ t th); [done|by eauto|done|done|].
  intros k' O' B. apply dwp_ret. by apply HQ.
Qed.

Lemma dwp_write m d p pipe dev l buffer n (Q : waiting Z -> drivers -> Prop) :
  kernel_ok m (kern d) -> rt_interrupt_nest (kern d) = 0 -> holds d p pipe l ->
  pipe_has pipe RT_PIPE_FLAG_FORCE_WR = false -> pipe_has pipe RT_PIPE_FLAG_BLOCK_RD = true ->
  devices d !! p = Some dev -> rx_indicate dev = None ->
  0 < n < 65536 -> n <= room pipe -> n <= Z.of_nat (length buffer) ->
  (forall k' d' pipe', kernel_ok m k' -> woken_first (QSuspend p) (kern d) k' -> kern d' = k' ->
     holds d' p pipe' (l ++ take (Z.to_nat n) buffer) -> pipe_flag pipe' = pipe_flag pipe -> Q (Returns n) d') ->
  dwp (rt_pipe_write p 0 buffer n) Q d.
Proof.
  intros O Hn Hh Hf Hb Hd Hi Hr Hroom Hlen HQ. pose proof Hh as (Hp & _).
  destruct (pipe_put_eq d p pipe l buffer n Hh Hf ltac:(lia) Hlen) as (pipe' & E & Ef & W & Hc).
  rewrite Z.min_l in E, Hc by done. set (d' := set_pipes _ d) in *.
  assert (dwp (_rt_pipe_resume_reader p;; mret (Returns n)) Q d') as Hend.
  { unfold _rt_pipe_resume_reader. apply dwp_bind, dwp_bind, (dwp_at _ _ dev); [done|]. rewrite Hi.
    apply dwp_bind, dwp_ret, (dwp_pipe_resume m _ _ pipe'); [done|simpl; by rewrite lookup_insert_eq|by eauto| |].
    - intros _. unfold pipe_has. by rewrite Ef.
    - intros k' O' Wk. apply dwp_ret, (HQ k' _ pipe'); try done. split; [simpl; by rewrite lookup_insert_eq|done]. }
  unfold rt_pipe_write. apply dwp_bind, (dwp_at _ _ pipe); [done|]. rewrite Hf. cbn [orb].
  destruct (pipe_has pipe RT_PIPE_FLAG_BLOCK_WR); cbn [negb].
  - apply dwp_bind, dwp_on_k, wp_gets. rewrite set_kern_id. apply dwp_bind, dwp_on_k. unfold RT_DEBUG_NOT_IN_INTERRUPT.
    apply wp_bind, wp_gets, wp_assert; [by rewrite Hn|]. rewrite set_kern_id. unfold rt_pipe_write_loop.
    apply dwp_bind. unfold dwp at 1. rewrite E. by rewrite (proj2 (Z.eqb_neq _ _)) by lia.
  - apply dwp_bind. unfold dwp at 1. by rewrite E.
Qed.

Lemma dwp_read_data m d p pipe t l size (Q : waiting (list Z * Z) -> drivers -> Prop) :
  kernel_ok m (kern d) -> holds d p pipe l -> l <> [] -> 0 < size < 65536 ->
  pipe_has pipe RT_PIPE_FLAG_BLOCK_WR = true ->
  (forall d' pipe', holds d' p pipe' (drop (Z.to_nat size) l) -> kernel_ok m (kern d') ->
     woken_first (QSender p) (kern d) (kern d') ->
     Q (Returns (take (Z.to_nat size) l, Z.min size (Z.of_nat (length l)))) d') ->
  dwp (rt_pipe_read_resume p t size) Q d.
Proof.
  intros O Hh Hl Hs Hb HQ. destruct (pipe_get_eq d p pipe l size Hh ltac:(lia)) as (pipe' & E & Ef & W & Hc).
  unfold rt_pipe_read_resume, rt_pipe_read_loop. apply dwp_bind. unfold dwp at 1. rewrite E.
  assert (0 < Z.of_nat (length l)) as Hl' by (destruct l; [done|simpl; lia]).
  rewrite (proj2 (Z.eqb_neq _ _)) by lia. apply dwp_bind. unfold _rt_pipe_resume_writer.
  apply (dwp_pipe_resume m _ _ pipe'); [done|simpl; by rewrite lookup_insert_eq|by eauto| |].
  - intros _. unfold pipe_has. by rewrite Ef.
  - intros k' O' Wk. apply dwp_ret, (HQ _ pipe'); try done. split; [simpl; by rewrite lookup_insert_eq|done].
Qed.

(** C36. A thread that reads from an empty pipe waits; a write of at least one byte then
    makes it ready, and when it goes on its read returns the bytes that were written, as
    many as it asked for and there are, and leaves the rest in the pipe. *)
Theorem pipe_reader_served d t th p pipe dev buffer size n :
  caller (kern d) t th -> holds d p pipe [] -> pipe_has pipe RT_PIPE_FLAG_BLOCK_RD = true ->
  pipe_has pipe RT_PIPE_FLAG_BLOCK_WR = true -> pipe_has pipe RT_PIPE_FLAG_FORCE_WR = false ->
  tl (kern d) (QSuspend p) = [] -> devices d !! p = Some dev -> rx_indicate dev = None ->
  0 < size < 65536 -> 0 < n < 65536 -> n <= room pipe -> n <= Z.of_nat (length buffer) ->
  exists d1, rt_pipe_read p 0 size d = Some (Waits 0 0, d1) /\ tl (kern d1) (QSuspend p) = [t] /\
    exists d2 th2, rt_pipe_write p 0 buffer n d1 = Some (Returns n, d2) /\ kernel_ok Task (kern d2) /\
      threads (kern d2) !! t = Some th2 /\ stat th2 = RT_THREAD_READY /\
      exists d3 pipe3, rt_pipe_read_resume p t size d2 =
          Some (Returns (take (Z.to_nat size) (take (Z.to_nat n) buffer), Z.min size n), d3) /\
        holds d3 p pipe3 (drop (Z.to_nat size) (take (Z.to_nat n) buffer)).
Proof.
  intros C Hh Hbr Hbw Hf Hl Hd Hi Hs Hn Hroom Hlen.
  assert (dwp (rt_pipe_read p 0 size) (fun r d1 => r = Waits 0 0 /\ kernel_ok Task (kern d1) /\ devices d1 = devices d /\
    pipes d1 = <[p := pipe]> (pipes d) /\
    blocked_state (kern d) t th (QSuspend p) RT_IPC_FLAG_FIFO 0 (kern d1)) d)
    as (r & d1 & E1 & -> & O1 & Ed1 & Ep1 & B)%dwp_exists by (apply (dwp_read_waits d t th p pipe); auto).
  assert (tl (kern d1) (QSuspend p) = [t]) as El.
  { destruct (blocked_list _ _ _ _ _ _ _ B) as (l1 & l2 & El & -> & _). rewrite Hl in El.
    symmetry in El. by apply app_nil in El as [-> ->]. }
  destruct (blocked_thread _ _ _ _ _ _ _ B) as [Et1 _].
  assert (rt_interrupt_nest (kern d1) = 0) as Hnest.
  { destruct B as (? & ? & ? & ? & ? & ? & ? & ? & _ & _ & -> & _). simpl. apply (ca_nest _ _ _ C). }
  exists d1. split; [done|]. split; [done|].
  assert (holds d1 p pipe []) as Hh1 by (split; [by rewrite Ep1, lookup_insert_eq|apply Hh]).
  assert (dwp (rt_pipe_write p 0 buffer n) (fun r d2 => r = Returns n /\ kernel_ok Task (kern d2) /\
    woken_first (QSuspend p) (kern d1) (kern d2) /\ exists pipe2, holds d2 p pipe2 (take (Z.to_nat n) buffer) /\
      pipe_flag pipe2 = pipe_flag pipe) d1) as (r & d2 & E2 & -> & O2 & Wk & pipe2 & Hh2 & Ef2)%dwp_exists.
  { apply (dwp_write Task d1 p pipe dev [] buffer n); try done; [by rewrite Ed1|].
    intros k' d' pipe' ? ? <- ? ?. split; [done|]. split; [done|]. split; [done|]. by exists pipe'. }
  unfold woken_first in Wk. rewrite El in Wk. destruct Wk as (_ & th2 & Et2 & Eth). rewrite Et1 in Et2. injection Et2 as <-.
  eexists d2, _. split; [done|]. split; [done|]. split; [rewrite Eth; apply lookup_insert_eq|]. split; [done|].
  assert (length (take (Z.to_nat n) buffer) = Z.to_nat n) as El2 by (rewrite length_take; lia).
  assert (dwp (rt_pipe_read_resume p t size) (fun r d3 =>
    r = Returns (take (Z.to_nat size) (take (Z.to_nat n) buffer), Z.min size n) /\
    exists pipe3, holds d3 p pipe3 (drop (Z.to_nat size) (take (Z.to_nat n) buffer))) d2)
    as (r & d3 & E3 & -> & pipe3 & Hh3)%dwp_exists.
  { apply (dwp_read_data Task d2 p pipe2 t (take (Z.to_nat n) buffer)); try done.
    - intros E. rewrite E in El2. simpl in El2. lia.
    - unfold pipe_has in *. by rewrite Ef2.
    - intros d' pipe' ? ? ?. split; [by rewrite El2, Z2Nat.id by lia|]. by exists pipe'. }
  by exists d3, pipe3.
Qed.
End Stream.

(** ** Examples *)

(** A pipe of 8 bytes at 61440, made by [rt_pipe_create]. *)
Definition demo_pipe (flag : Z) : drivers :=
  default (drivers_bss demo)
    (snd <$> rt_pipe_create (Some 61440) (Some (replicate 8 0)) [112; 0] flag 8 (drivers_bss demo)).

Lemma pipe_reader_served_witness :
  exists d1 d2 d3, rt_pipe_read 61440 0 2 (demo_pipe 3) = Some (Waits 0 0, d1) /\
    rt_pipe_write (fns := good_fns) 61440 0 [65; 66; 67] 3 d1 = Some (Returns 3, d2) /\
    rt_pipe_read_resume 61440 4096 2 d2 = Some (Returns ([65; 66], 2), d3).
Proof.
  destruct (pipe_reader_served (fns := good_fns) (demo_pipe 3) 4096 (demo_th 4096) 61440
    (Pipe (RingBuffer.RingBuffer (replicate 8 0) false 0 false 0 8) 3)
    (pipe_device (set_dev_flag 3 zero_device)) [65; 66; 67] 2 3
    ltac:(ev_caller) ltac:(split; [vm_compute; reflexivity|split; [|vm_compute; reflexivity]];
      vm_compute; split_and!; (reflexivity || discriminate))
    eq_refl eq_refl eq_refl ltac:(vm_compute; reflexivity) ltac:(vm_compute; reflexivity) eq_refl
    ltac:(lia) ltac:(lia) ltac:(vm_compute; discriminate) ltac:(simpl; lia))
    as (d1 & E1 & _ & d2 & th2 & E2 & _ & _ & _ & d3 & pipe3 & E3 & _).
  exists d1, d2, d3. split; [exact E1|]. split; [exact E2|exact E3].
Defined.

(** Reading no bytes blocks, although there are bytes, and so does writing 65536 bytes,
    although there is room: the ring buffer is asked for 0 bytes. *)
Example zero_bytes_block :
  (fst <$> (rt_pipe_write (fns := good_fns) 61440 0 [65] 1;; rt_pipe_read 61440 0 0) (demo_pipe 3)) =
    Some (Waits 0 0) /\
  (fst <$> rt_pipe_write (fns := good_fns) 61440 0 [] 65536 (demo_pipe 3)) = Some (Waits 0 0).
Proof. split; vm_compute; reflexivity. Qed.
