(* ===== verification/Dns.v ===== *)
(** * Name resolution: core/dns.c

    The client of the domain name system: a table of names that are being asked for or
    have been answered, at most two servers, a UDP control block, and a timer that
    repeats questions and drops answers whose time to live is over.  A local list of
    hosts is not configured.

    The variables of dns.c are a record [dns_globals] beside the state of the stack.  A
    name in the table is an array of 256 bytes that a null character ends; the name of a
    caller is the sequence of its characters.  What a function pointer of type
    [dns_found_callback] does is the class [dns_app]. *)

From S2P Require Import Prelude StateM LwipMem TcpData Chksum IpAddr Pbuf PbufRef PbufData NetState Etharp IpOut Icmp Udp NetTimers Packet.

Definition DNS_SERVER_ADDRESS : list Z := [50; 48; 56; 46; 54; 55; 46; 50; 50; 50; 46; 50; 50; 50].
Definition DNS_SERVER_PORT : Z := 53.
Definition DNS_MAX_RETRIES : Z := 4.
Definition DNS_MAX_TTL : Z := 604800.
Definition DNS_TABLE_SIZE : Z := 4.
Definition DNS_MAX_NAME_LENGTH : Z := 256.
Definition DNS_MAX_SERVERS : Z := 2.
Definition DNS_MSG_SIZE : Z := 512.

Definition DNS_FLAG1_RESPONSE : Z := 0x80.
Definition DNS_FLAG1_RD : Z := 0x01.
Definition DNS_FLAG2_ERR_MASK : Z := 0x0f.
Definition DNS_RRTYPE_A : Z := 1.
Definition DNS_RRCLASS_IN : Z := 1.

Definition DNS_STATE_UNUSED : Z := 0.
Definition DNS_STATE_NEW : Z := 1.
Definition DNS_STATE_ASKING : Z := 2.
Definition DNS_STATE_DONE : Z := 3.

Definition SIZEOF_DNS_HDR : Z := 12.
Definition SIZEOF_DNS_QUERY : Z := 4.
Definition SIZEOF_DNS_ANSWER : Z := 10.

Definition ERR_INPROGRESS : Z := -5.

(** The address of [dns_recv], of which only matters that it is not null. *)
Definition DNS_RECV : Z := 1.

(** ** Data *)

Record dns_table_entry := DnsEntry {
  de_state : Z;
  de_numdns : Z;
  de_tmr : Z;
  de_retries : Z;
  de_seqno : Z;
  de_err : Z;
  de_ttl : Z;
  de_name : list Z;
  de_ipaddr : Z;
  de_found : Z;
  de_arg : Z;
}.

Definition eta_entry (e : dns_table_entry) : dns_table_entry :=
  DnsEntry (de_state e) (de_numdns e) (de_tmr e) (de_retries e) (de_seqno e) (de_err e) (de_ttl e) (de_name e)
    (de_ipaddr e) (de_found e) (de_arg e).

Definition set_de_state : Z -> dns_table_entry -> dns_table_entry := ltac:(field_setter eta_entry de_state).
Definition set_de_numdns : Z -> dns_table_entry -> dns_table_entry := ltac:(field_setter eta_entry de_numdns).
Definition set_de_tmr : Z -> dns_table_entry -> dns_table_entry := ltac:(field_setter eta_entry de_tmr).
Definition set_de_retries : Z -> dns_table_entry -> dns_table_entry := ltac:(field_setter eta_entry de_retries).
Definition set_de_seqno : Z -> dns_table_entry -> dns_table_entry := ltac:(field_setter eta_entry de_seqno).
Definition set_de_err : Z -> dns_table_entry -> dns_table_entry := ltac:(field_setter eta_entry de_err).
Definition set_de_ttl : Z -> dns_table_entry -> dns_table_entry := ltac:(field_setter eta_entry de_ttl).
Definition set_de_name : list Z -> dns_table_entry -> dns_table_entry := ltac:(field_setter eta_entry de_name).
Definition set_de_ipaddr : Z -> dns_table_entry -> dns_table_entry := ltac:(field_setter eta_entry de_ipaddr).
Definition set_de_found : Z -> dns_table_entry -> dns_table_entry := ltac:(field_setter eta_entry de_found).
Definition set_de_arg : Z -> dns_table_entry -> dns_table_entry := ltac:(field_setter eta_entry de_arg).

Record dns_globals := DnsGlobals {
  dns_pcb : Z;
  dns_seqno : Z;
  dns_table : list dns_table_entry;
  dns_servers : list Z;
  dns_payload_buffer : Z;   (** the address of the static buffer *)
  dns_payload : Z;
}.

Definition eta_dns (d : dns_globals) : dns_globals :=
  DnsGlobals (dns_pcb d) (dns_seqno d) (dns_table d) (dns_servers d) (dns_payload_buffer d) (dns_payload d).

Definition set_dns_pcb : Z -> dns_globals -> dns_globals := ltac:(field_setter eta_dns dns_pcb).
Definition set_dns_seqno : Z -> dns_globals -> dns_globals := ltac:(field_setter eta_dns dns_seqno).
Definition set_dns_table : list dns_table_entry -> dns_globals -> dns_globals := ltac:(field_setter eta_dns dns_table).
Definition set_dns_servers : list Z -> dns_globals -> dns_globals := ltac:(field_setter eta_dns dns_servers).
Definition set_dns_payload : Z -> dns_globals -> dns_globals := ltac:(field_setter eta_dns dns_payload).

Abbreviation DnsM := (ST (net * dns_globals)).

(** An operation of the stack, beside other variables. *)
Definition on_net {T A} (m : NetM A) : ST (net * T) A := fun sd =>
  match m sd.1 with
  | Some (a, s) => Some (a, (s, sd.2))
  | None => None
  end.

Definition dget {A} (f : dns_globals -> A) : DnsM A := sget (fun sd => f sd.2).
Definition dupd (f : dns_globals -> dns_globals) : DnsM unit := supd (fun sd => (sd.1, f sd.2)).

(** [dns_table[i]]; an index outside is a failure. *)
Definition entry (i : Z) : DnsM dns_table_entry := fun sd =>
  (fun e => (e, sd)) <$> dns_table sd.2 !! Z.to_nat i.

Definition upd_entry (i : Z) (f : dns_table_entry -> dns_table_entry) : DnsM unit :=
  e ← entry i;
  dupd (fun d => set_dns_table (<[Z.to_nat i := f e]> (dns_table d)) d).

(** [dns_servers[i]] *)
Definition server (i : Z) : DnsM Z := fun sd => (fun a => (a, sd)) <$> dns_servers sd.2 !! Z.to_nat i.

(** What the functions of the application do: [found_call f name ipaddr arg] is
    [( *f)(name, ipaddr, arg)], where [None] is a null [ipaddr]. *)
Class dns_app := { found_call : Z -> list Z -> option Z -> Z -> DnsM unit }.

(** ** Servers *)

(** [dnsserver]: the address, [None] for a null pointer. *)
Definition dns_setserver (numdns : Z) (dnsserver : option Z) : DnsM unit :=
  pcb ← dget dns_pcb;
  match dnsserver with
  | Some a =>
      swhen ((numdns <? DNS_MAX_SERVERS) && negb (pcb =? NULL) && negb (ip_addr_isany a))
        (dupd (fun d => set_dns_servers (<[Z.to_nat numdns := a]> (dns_servers d)) d))
  | None => mret tt
  end.

Definition dns_getserver (numdns : Z) : DnsM Z :=
  if numdns <? DNS_MAX_SERVERS then server numdns else mret IPADDR_ANY.

Definition dns_init : DnsM unit :=
  buf ← dget dns_payload_buffer;
  dupd (set_dns_payload (LWIP_MEM_ALIGN buf)) ;;
  dnsserver ← slift (ipaddr_addr (DNS_SERVER_ADDRESS ++ [0]));
  pcb ← dget dns_pcb;
  swhen (pcb =? NULL) (
    pcb ← on_net udp_new;
    dupd (set_dns_pcb pcb) ;;
    swhen (negb (pcb =? NULL)) (
      _ ← on_net (udp_bind pcb IPADDR_ANY 0);
      on_net (udp_recv pcb DNS_RECV) ;;
      dns_setserver 0 (Some dnsserver))).

(** ** Names *)

(** [strcmp (s, t) == 0] for a string [s] and an array [t]. *)
Fixpoint streq (s t : list Z) : option bool :=
  match t with
  | [] => None
  | b :: t =>
      match s with
      | [] => Some (b =? 0)
      | a :: s => if a =? b then streq s t else Some false
      end
  end.

Fixpoint lookup_loop (name : list Z) (table : list dns_table_entry) : option Z :=
  match table with
  | [] => Some IPADDR_NONE
  | e :: table =>
      found ← (if de_state e =? DNS_STATE_DONE then streq name (de_name e) else Some false);
      if found : bool then Some (de_ipaddr e) else lookup_loop name table
  end.

Definition dns_lookup (name : list Z) : DnsM Z :=
  table ← dget dns_table; slift (lookup_loop name table).

(** The inner loop of [dns_compare_name]: the rest of [query] and the next address of
    the response, [None] at a difference. *)
Fixpoint compare_label (n : nat) (query : list Z) (response : Z) : NM (option (list Z * Z)) :=
  match n with
  | O => mret (Some (query, response))
  | S n =>
      q ← slift (head query);
      r ← load_le response 1;
      if negb (q =? r) then mret None else compare_label n (tail query) (response + 1)
  end.

(** The names are not longer than the memory, which bounds the number of rounds. *)
Fixpoint compare_loop (fuel : nat) (query : list Z) (response : Z) : NM Z :=
  match fuel with
  | O => fun _ => None
  | S fuel =>
      n ← load_le response 1;
      if (n &. 0xc0) =? 0xc0 then mret 0
      else
        r ← compare_label (Z.to_nat n) query (response + 1);
        match r with
        | None => mret 1
        | Some (query, response) =>
            c ← load_le response 1;
            if negb (c =? 0) then compare_loop fuel (tail query) response else mret 0
        end
  end.

Definition ram_bound : NM nat := fun st => Some (S (size (ram st)), st).

(** [query] is the array of an entry, [response] an address. *)
Definition dns_compare_name (query : list Z) (response : Z) : NM Z :=
  b ← ram_bound; compare_loop b query response.

(** The inner loop only moves the pointer. *)
Fixpoint parse_loop (fuel : nat) (query : Z) : NM Z :=
  match fuel with
  | O => fun _ => None
  | S fuel =>
      n ← load_le query 1;
      let query := query + 1 in
      if (n &. 0xc0) =? 0xc0 then mret (query + 1)
      else
        let query := query + n in
        c ← load_le query 1;
        if negb (c =? 0) then parse_loop fuel query else mret (query + 1)
  end.

Definition dns_parse_name (query : Z) : NM Z :=
  b ← ram_bound; parse_loop b query.

(** ** Questions *)

(** The inner loop of [dns_send]: the label at [pHostname] is copied to [query]. *)
Fixpoint send_label (pHostname : list Z) (query n : Z) : NM (list Z * Z * Z) :=
  match pHostname with
  | [] => fun _ => None
  | c :: rest =>
      if (c =? 46) || (c =? 0) then mret (pHostname, query, n)
      else store query [c] ;; send_label rest (query + 1) (u8 (n + 1))
  end.

Fixpoint send_loop (fuel : nat) (pHostname : list Z) (query : Z) : NM Z :=
  match fuel with
  | O => fun _ => None
  | S fuel =>
      '(pHostname, query', n) ← send_label pHostname (query + 1) 0;
      store query [n] ;;
      c ← slift (head pHostname);
      if negb (c =? 0) then send_loop fuel (tail pHostname) query' else mret query'
  end.

(** The name in the format of queries, with its terminator. *)
Definition send_name (name : list Z) (query : Z) : NM Z :=
  query ← send_loop (length name) name query;
  store query [0] ;;
  mret (query + 1).

(** The message in the buffer [p]; [name] is the array of the entry. *)
Definition dns_fill (p : Z) (name : list Z) (id : Z) : NM unit :=
  b ← getp p;
  lassert (pb_next b =? NULL) ;;
  let hdr := pb_payload b in
  store hdr (replicate (Z.to_nat SIZEOF_DNS_HDR) 0) ;;
  store_le hdr 2 (lwip_htons id) ;;
  store_le (hdr + 2) 1 DNS_FLAG1_RD ;;
  store_le (hdr + 4) 2 (lwip_htons 1) ;;
  query ← send_name name (hdr + SIZEOF_DNS_HDR);
  store query (le_bytes 2 (lwip_htons DNS_RRTYPE_A) ++ le_bytes 2 (lwip_htons DNS_RRCLASS_IN)) ;;
  pbuf_realloc p (u16 (query + SIZEOF_DNS_QUERY - hdr)).

Definition dns_send (numdns : Z) (name : list Z) (id : Z) : DnsM Z :=
  on_net (nassert (numdns <? DNS_MAX_SERVERS)) ;;
  dns ← server numdns;
  on_net (nassert (negb (ip_addr_isany dns))) ;;
  pcb ← dget dns_pcb;
  on_net (
    p ← on_mem (pbuf_alloc PBUF_TRANSPORT (SIZEOF_DNS_HDR + DNS_MAX_NAME_LENGTH + SIZEOF_DNS_QUERY) PBUF_RAM);
    if negb (p =? NULL) then
      on_mem (dns_fill p name id) ;;
      _ ← udp_connect pcb dns DNS_SERVER_PORT;
      err ← udp_sendto pcb p dns DNS_SERVER_PORT;
      _ ← on_mem (pbuf_free p);
      mret err
    else mret ERR_MEM).

(** ** The timer *)

Section Callbacks.
Context {app : dns_app}.

(** [if (pEntry->found) ( *pEntry->found)(pEntry->name, ipaddr, pEntry->arg)] *)
Definition call_found (i : Z) (ipaddr : option Z) : DnsM unit :=
  e ← entry i;
  swhen (negb (de_found e =? NULL)) (found_call (de_found e) (de_name e) ipaddr (de_arg e)).

(** [pEntry->state = DNS_STATE_UNUSED; pEntry->found = NULL] *)
Definition flush_entry (i : Z) : DnsM unit :=
  upd_entry i (fun e => set_de_found NULL (set_de_state DNS_STATE_UNUSED e)).

Definition send_query (i : Z) : DnsM unit :=
  e ← entry i;
  _ ← dns_send (de_numdns e) (de_name e) i;
  mret tt.

(** [case DNS_STATE_ASKING], when the time is over. *)
Definition asking_again (i : Z) : DnsM unit :=
  upd_entry i (fun e => set_de_retries (u8 (de_retries e + 1)) e) ;;
  e ← entry i;
  if de_retries e =? DNS_MAX_RETRIES then
    next ← (if de_numdns e + 1 <? DNS_MAX_SERVERS
            then a ← server (de_numdns e + 1); mret (negb (ip_addr_isany a))
            else mret false);
    if next : bool then
      upd_entry i (fun e => set_de_retries 0 (set_de_tmr 1 (set_de_numdns (u8 (de_numdns e + 1)) e)))
    else
      call_found i None ;;
      flush_entry i
  else
    upd_entry i (set_de_tmr (de_retries e)) ;;
    send_query i.

Definition dns_check_entry (i : Z) : DnsM unit :=
  on_net (nassert (i <? DNS_TABLE_SIZE)) ;;
  e ← entry i;
  if de_state e =? DNS_STATE_NEW then
    upd_entry i (fun e => set_de_retries 0 (set_de_tmr 1 (set_de_numdns 0 (set_de_state DNS_STATE_ASKING e)))) ;;
    send_query i
  else if de_state e =? DNS_STATE_ASKING then
    upd_entry i (fun e => set_de_tmr (u8 (de_tmr e - 1)) e) ;;
    e ← entry i;
    swhen (de_tmr e =? 0) (asking_again i)
  else if de_state e =? DNS_STATE_DONE then
    upd_entry i (fun e => set_de_ttl (u32 (de_ttl e - 1)) e) ;;
    e ← entry i;
    swhen (de_ttl e =? 0) (flush_entry i)
  else on_net (nassert (de_state e =? DNS_STATE_UNUSED)).

(** [n] entries from the index [i]. *)
Fixpoint check_loop (n : nat) (i : Z) : DnsM unit :=
  match n with
  | O => mret tt
  | S n => dns_check_entry i ;; check_loop n (i + 1)
  end.

Definition dns_check_entries : DnsM unit := check_loop (Z.to_nat DNS_TABLE_SIZE) 0.

Definition dns_tmr : DnsM unit :=
  pcb ← dget dns_pcb; swhen (negb (pcb =? NULL)) dns_check_entries.

(** [dns_timer] of core/timers.c *)
Definition dns_timer : DnsM unit :=
  dns_tmr ;; on_net (sys_timeout DNS_TMR_INTERVAL H_DNS_TIMER NULL).

(** ** Answers *)

Record dns_answer := DnsAnswer { an_type : Z; an_cls : Z; an_ttl : Z; an_len : Z }.

(** [SMEMCPY (&ans, pHostname, SIZEOF_DNS_ANSWER)]: the fields have no gaps. *)
Definition load_answer (a : Z) : NM dns_answer :=
  d ← load a SIZEOF_DNS_ANSWER;
  mret (DnsAnswer (le_num (take 2 d)) (le_num (take 2 (drop 2 d))) (le_num (take 4 (drop 4 d)))
          (le_num (take 2 (drop 8 d)))).

Definition is_address (ans : dns_answer) : bool :=
  (an_type ans =? lwip_htons DNS_RRTYPE_A) && (an_cls ans =? lwip_htons DNS_RRCLASS_IN) &&
  (an_len ans =? lwip_htons 4).

(** The loop over the answers; whether one is an address, of which the entry is told. *)
Fixpoint answers_loop (nanswers : nat) (i pHostname : Z) : DnsM bool :=
  match nanswers with
  | O => mret false
  | S nanswers =>
      pHostname ← on_net (on_mem (dns_parse_name pHostname));
      ans ← on_net (on_mem (load_answer pHostname));
      if is_address ans then
        let ttl := lwip_ntohl (an_ttl ans) in
        upd_entry i (set_de_ttl (if DNS_MAX_TTL <? ttl then DNS_MAX_TTL else ttl)) ;;
        a ← on_net (on_mem (load_le (pHostname + SIZEOF_DNS_ANSWER) 4));
        upd_entry i (set_de_ipaddr a) ;;
        call_found i (Some a) ;;
        mret true
      else answers_loop nanswers i (pHostname + SIZEOF_DNS_ANSWER + lwip_htons (an_len ans))
  end.

(** The entry [i] is being asked for: whether the message at [payload] answers it.
    [false] is a jump to [responseerr]. *)
Definition dns_response (i payload : Z) : DnsM bool :=
  flags1 ← on_net (on_mem (load_le (payload + 2) 1));
  flags2 ← on_net (on_mem (load_le (payload + 3) 1));
  upd_entry i (fun e => set_de_err (flags2 &. DNS_FLAG2_ERR_MASK) (set_de_state DNS_STATE_DONE e)) ;;
  e ← entry i;
  nquestions ← on_net (on_mem (load_le (payload + 4) 2));
  nanswers ← on_net (on_mem (load_le (payload + 6) 2));
  if ((flags1 &. DNS_FLAG1_RESPONSE) =? 0) || negb (de_err e =? 0) || negb (lwip_htons nquestions =? 1)
  then mret false
  else
    differ ← on_net (on_mem (dns_compare_name (de_name e) (payload + SIZEOF_DNS_HDR)));
    if negb (differ =? 0) then mret false
    else
      pHostname ← on_net (on_mem (dns_parse_name (payload + SIZEOF_DNS_HDR)));
      answers_loop (Z.to_nat (lwip_htons nanswers)) i (pHostname + SIZEOF_DNS_QUERY).

(** The message at [payload]. *)
Definition dns_message (payload : Z) : DnsM unit :=
  id ← on_net (on_mem (load_le payload 2));
  let i := lwip_htons id in
  swhen (i <? DNS_TABLE_SIZE) (
    e ← entry i;
    swhen (de_state e =? DNS_STATE_ASKING) (
      ok ← dns_response i payload;
      swhen (negb ok) (call_found i None ;; flush_entry i))).

Definition dns_recv (arg pcb p addr port : Z) : DnsM unit :=
  b ← on_net (on_mem (getp p));
  payload ← dget dns_payload;
  (if DNS_MSG_SIZE <? pb_tot_len b then mret tt
   else if pb_tot_len b <? SIZEOF_DNS_HDR + SIZEOF_DNS_QUERY + SIZEOF_DNS_ANSWER then mret tt
   else
     n ← on_net (on_mem (pbuf_copy_partial p payload (pb_tot_len b) 0));
     swhen (n =? pb_tot_len b) (dns_message payload)) ;;
  _ ← on_net (on_mem (pbuf_free p));
  mret tt.

(** ** Requests *)

(** The search of [dns_enqueue] from the index [i]: [inl] an unused entry, [inr] the index
    of the oldest completed one, or what [lseqi] was. *)
Fixpoint enqueue_scan (table : list dns_table_entry) (seqno i lseq lseqi : Z) : Z + Z :=
  match table with
  | [] => inr lseqi
  | e :: table =>
      if de_state e =? DNS_STATE_UNUSED then inl i
      else if (de_state e =? DNS_STATE_DONE) && (lseq <? seqno - de_seqno e) then
        enqueue_scan table seqno (i + 1) (u8 (seqno - de_seqno e)) i
      else enqueue_scan table seqno (i + 1) lseq lseqi
  end.

(** [MEMCPY (pEntry->name, name, namelen); pEntry->name[namelen] = 0] *)
Definition copy_name (name arr : list Z) : list Z :=
  let namelen := Z.to_nat (Z.min (Z.of_nat (length name)) (DNS_MAX_NAME_LENGTH - 1)) in
  take namelen name ++ 0 :: drop (S namelen) arr.

(** From "fill the entry". *)
Definition enqueue_at (i : Z) (name : list Z) (found arg : Z) : DnsM Z :=
  seqno ← dget dns_seqno;
  dupd (set_dns_seqno (u8 (seqno + 1))) ;;
  upd_entry i (fun e => set_de_name (copy_name name (de_name e)) (set_de_arg arg (set_de_found found
                          (set_de_seqno seqno (set_de_state DNS_STATE_NEW e))))) ;;
  dns_check_entry i ;;
  mret ERR_INPROGRESS.

Definition dns_enqueue (name : list Z) (found arg : Z) : DnsM Z :=
  table ← dget dns_table;
  seqno ← dget dns_seqno;
  match enqueue_scan table seqno 0 0 0 with
  | inl i => enqueue_at i name found arg
  | inr lseqi =>
      if DNS_TABLE_SIZE <=? lseqi then mret ERR_MEM
      else
        e ← entry lseqi;
        if negb (de_state e =? DNS_STATE_DONE) then mret ERR_MEM
        else enqueue_at lseqi name found arg
  end.

(** [hostname]: the characters, [None] for a null pointer; [addr]: whether the pointer to
    the result is not null.  The error and what is stored at [addr]. *)
Definition dns_gethostbyname (hostname : option (list Z)) (addr : bool) (found arg : Z) : DnsM (Z * option Z) :=
  pcb ← dget dns_pcb;
  match hostname with
  | None => mret (ERR_ARG, None)
  | Some name =>
      if (pcb =? NULL) || negb addr || bool_decide (name = []) ||
         (DNS_MAX_NAME_LENGTH <=? Z.of_nat (length name))
      then mret (ERR_ARG, None)
      else
        ipaddr ← slift (ipaddr_addr (name ++ [0]));
        ipaddr ← (if ipaddr =? IPADDR_NONE then dns_lookup name else mret ipaddr);
        if negb (ipaddr =? IPADDR_NONE) then mret (ERR_OK, Some ipaddr)
        else err ← dns_enqueue name found arg; mret (err, None)
  end.
End Callbacks.
