(* ===== verification/DnsSpec.v ===== *)
(** * What the client of the domain name system does

    Names and resource records as they are on the wire; writing a name and reading it
    back; a response that ends in the answer of a later request; the life of a question
    that nobody answers; and inputs on which the code fails. *)

From S2P Require Import Prelude StateM LwipMem TcpData Chksum IpAddr Pbuf PbufRef PbufData NetState Etharp IpOut Icmp Udp NetTimers Raw NetInput Packet Frames KMem Dns.

(** ** Names on the wire *)

Definition label_ok (l : list Z) : Prop :=
  (0 < length l < 64)%nat /\ Forall (fun c => is_byte c /\ c <> 46 /\ c <> 0) l.

(** The text of a name, and the labels of its encoding. *)
Fixpoint dotted (ls : list (list Z)) : list Z :=
  match ls with
  | [] => []
  | [l] => l
  | l :: ls => l ++ 46 :: dotted ls
  end.

Definition wire_labels (ls : list (list Z)) : list Z :=
  concat ((fun l => Z.of_nat (length l) :: l) <$> ls).

Definition wire (ls : list (list Z)) : list Z := wire_labels ls ++ [0].

(** A name in a message: labels, and a terminator or a pointer into the message. *)
Record wname := WName { wn_labels : list (list Z); wn_pointer : option (Z * Z) }.

Definition wname_bytes (w : wname) : list Z :=
  wire_labels (wn_labels w) ++ match wn_pointer w with None => [0] | Some (h, l) => [192 + h; l] end.

Definition wname_ok (w : wname) : Prop :=
  Forall label_ok (wn_labels w) /\
  match wn_pointer w with None => wn_labels w <> [] | Some (h, l) => 0 <= h < 64 /\ is_byte l end.

(** ** Reading memory *)

Definition holds (st : netmem) (a : Z) (bs : list Z) : Prop := read_bytes (ram st) a (length bs) = Some bs.

Lemma holds_cons st a b bs : holds st a (b :: bs) <-> ram st !! a = Some b /\ holds st (a + 1) bs.
Proof. apply read_bytes_S. Qed.

Lemma holds_app st a xs ys : holds st a (xs ++ ys) <-> holds st a xs /\ holds st (a + Z.of_nat (length xs)) ys.
Proof.
  unfold holds. rewrite length_app, read_bytes_app. split.
  - intros (b1 & b2 & E & H1 & H2). apply app_inj_1 in E as [-> ->]; [done|].
    by rewrite (read_bytes_length _ _ _ _ H1).
  - intros [H1 H2]. by exists xs, ys.
Qed.

Lemma holds_size st a bs : holds st a bs -> (length bs <= size (ram st))%nat.
Proof.
  intros H. rewrite <-size_dom.
  transitivity (size (list_to_set (seqZ a (Z.of_nat (length bs))) : gset Z)).
  { rewrite size_list_to_set by apply NoDup_seqZ. rewrite length_seqZ. lia. }
  apply subseteq_size. intros i Hi. apply elem_of_list_to_set, elem_of_seqZ in Hi.
  apply elem_of_dom. destruct (lookup_lt_is_Some_2 bs (Z.to_nat (i - a))) as [b Hb]; [lia|].
  exists b. rewrite <-Hb, <-(read_bytes_nth _ _ _ _ (Z.to_nat (i - a)) H) by lia. f_equal. lia.
Qed.

Lemma load_holds st a n bs : holds st a bs -> length bs = Z.to_nat n -> load a n st = Some (bs, st).
Proof. intros H L. unfold load. by rewrite <-L, H. Qed.

Lemma load_byte st a b bs : holds st a (b :: bs) -> load_le a 1 st = Some (b, st).
Proof.
  intros [Hb _]%holds_cons. unfold load_le, load, mbind, ST_bind. simpl. rewrite Hb. simpl.
  unfold mret, ST_ret. do 2 f_equal. lia.
Qed.

Lemma load_le_holds st a n bs : holds st a bs -> length bs = Z.to_nat n -> load_le a n st = Some (le_num bs, st).
Proof. intros H L. unfold load_le. by rewrite (bind_Some _ _ _ _ _ (load_holds _ _ _ _ H L)). Qed.

Lemma wire_labels_cons l ls : wire_labels (l :: ls) = Z.of_nat (length l) :: l ++ wire_labels ls.
Proof. done. Qed.

Lemma wire_labels_length ls : (length ls <= length (wire_labels ls))%nat.
Proof. induction ls as [|l ls IH]; [done|]. rewrite wire_labels_cons. simpl. rewrite length_app. lia. Qed.

(** A length is not taken for a pointer. *)
Lemma small_not_pointer n : 0 <= n < 64 -> (n &. 0xc0 =? 0xc0) = false.
Proof.
  intros Hn. apply Z.eqb_neq. intros E. apply (f_equal (fun x => Z.testbit x 7)) in E.
  rewrite Z.land_spec in E. change (Z.testbit 192 7) with true in E.
  rewrite <-(Z.mod_small n (2 ^ 7)), Z.mod_pow2_bits_high in E by (simpl; lia). done.
Qed.

Lemma pointer_bits h : 0 <= h < 64 -> ((192 + h) &. 0xc0 =? 0xc0) = true.
Proof.
  intros Hh. assert (forallb (fun h => (192 + h) &. 0xc0 =? 0xc0) (seqZ 0 64) = true) as E by done.
  rewrite forallb_forall in E. apply E, list_elem_of_In, elem_of_seqZ. lia.
Qed.

Lemma compare_label_run st l rest a :
  holds st a l -> compare_label (length l) (l ++ rest) a st = Some (Some (rest, a + Z.of_nat (length l)), st).
Proof.
  revert a. induction l as [|c l IH]; intros a H; simpl.
  - unfold mret, ST_ret. by rewrite Z.add_0_r.
  - rewrite (bind_Some _ _ _ c st) by done. rewrite (bind_Some _ _ _ _ _ (load_byte _ _ _ _ H)).
    rewrite Z.eqb_refl. simpl. apply holds_cons in H as [_ H]. rewrite IH by done. do 4 f_equal. lia.
Qed.

(** Behind a label: a terminator, or the length of the next one. *)
Lemma wire_tail l ls : Forall label_ok (l :: ls) ->
  exists b r, wire (l :: ls) = Z.of_nat (length l) :: l ++ b :: r /\ b :: r = wire ls /\ (b = 0 <-> ls = []).
Proof.
  intros H. unfold wire. rewrite wire_labels_cons. destruct ls as [|l' ls].
  - exists 0, []. rewrite app_nil_r. done.
  - exists (Z.of_nat (length l')), (l' ++ wire_labels ls ++ [0]). rewrite wire_labels_cons. simpl.
    split; [by rewrite <-app_assoc; simpl; rewrite <-app_assoc|]. split; [by rewrite <-app_assoc|]. apply Forall_cons in H as [_ [[Hl _] _]%Forall_cons]. split; [intros; lia|done].
Qed.

Lemma compare_loop_run st ls : forall fuel a rest,
  ls <> [] -> Forall label_ok ls -> (length ls <= fuel)%nat -> holds st a (wire ls) ->
  compare_loop fuel (dotted ls ++ rest) a st = Some (0, st).
Proof.
  induction ls as [|l ls IH]; [done|]. intros fuel a rest _ Hok Hf H.
  destruct fuel as [|fuel]; [simpl in Hf; lia|]. cbn [compare_loop].
  destruct (wire_tail l ls Hok) as (b & r & E & Er & Hb). rewrite E in H.
  apply Forall_cons in Hok as [[Hl _] Hok]. rewrite (bind_Some _ _ _ _ _ (load_byte _ _ _ _ H)).
  rewrite small_not_pointer by lia. apply holds_cons in H as [_ H]. apply holds_app in H as [H1 H2].
  rewrite Nat2Z.id.
  assert (exists rest', dotted (l :: ls) ++ rest = l ++ rest' /\ (ls <> [] -> tail rest' = dotted ls ++ rest)) as (rest' & -> & Ht).
  { destruct ls as [|l' ls]; [by exists rest|]. exists (46 :: dotted (l' :: ls) ++ rest). split; [|done].
    change (dotted (l :: l' :: ls)) with (l ++ 46 :: dotted (l' :: ls)). by rewrite <-app_assoc. }
  rewrite (bind_Some _ _ _ _ _ (compare_label_run _ _ rest' _ H1)).
  rewrite (bind_Some _ _ _ _ _ (load_byte _ _ _ _ H2)). destruct (Z.eqb_spec b 0) as [->|Hne]; simpl; [done|].
  assert (ls <> []) as Hls by tauto. rewrite Ht by done. apply IH; [done|done|simpl in Hf; lia|].
  rewrite <-Er. done.
Qed.

Lemma dns_compare_name_ok st ls a rest :
  ls <> [] -> Forall label_ok ls -> holds st a (wire ls) -> dns_compare_name (dotted ls ++ rest) a st = Some (0, st).
Proof.
  intros Hne Hok H. unfold dns_compare_name. rewrite (bind_Some _ _ _ (S (size (ram st))) st) by done.
  apply compare_loop_run; [done..| |done]. apply holds_size in H. unfold wire in H. rewrite length_app in H.
  pose proof (wire_labels_length ls). simpl in H. lia.
Qed.

Lemma parse_loop_run st p ls : forall fuel a,
  wname_ok (WName ls p) -> (length ls < fuel)%nat -> holds st a (wname_bytes (WName ls p)) ->
  parse_loop fuel a st = Some (a + Z.of_nat (length (wname_bytes (WName ls p))), st).
Proof.
  induction ls as [|l ls IH]; intros fuel a [Hok Hp] Hf H; (destruct fuel as [|fuel]; [simpl in Hf; lia|]); cbn [parse_loop].
  - destruct p as [[h lo]|]; [|done]. simpl in *. destruct Hp as [Hh _].
    rewrite (bind_Some _ _ _ _ _ (load_byte _ _ _ _ H)). rewrite pointer_bits by lia.
    unfold wname_bytes, mret, ST_ret. simpl. do 2 f_equal. lia.
  - simpl in Hok, Hp. apply Forall_cons in Hok as [[Hl Hc] Hok].
    assert (wname_bytes (WName (l :: ls) p) = Z.of_nat (length l) :: l ++ wname_bytes (WName ls p)) as E.
    { unfold wname_bytes. simpl wn_labels. rewrite wire_labels_cons. simpl. by rewrite <-app_assoc. }
    rewrite E in H |- *. rewrite (bind_Some _ _ _ _ _ (load_byte _ _ _ _ H)). rewrite small_not_pointer by lia.
    apply holds_cons in H as [_ H]. apply holds_app in H as [_ H].
    destruct (decide (ls = [] /\ p = None)) as [[-> ->]|Hmore].
    + rewrite (bind_Some _ _ _ _ _ (load_byte _ _ _ _ H)). simpl. rewrite length_app. simpl.
      unfold mret, ST_ret. do 2 f_equal. lia.
    + assert (exists b r, wname_bytes (WName ls p) = b :: r /\ b <> 0) as (b & r & Eb & Hb).
      { destruct ls as [|l' ls]; [destruct p as [[h lo]|]; [exists (192 + h), [lo]; split; [done|lia]|tauto]|].
        apply Forall_cons in Hok as [[Hl' _] _]. exists (Z.of_nat (length l')). unfold wname_bytes. simpl wn_labels.
        rewrite wire_labels_cons. eexists. split; [done|]. lia. }
      pose proof H as H'. rewrite Eb in H'. rewrite (bind_Some _ _ _ _ _ (load_byte _ _ _ _ H')).
      apply Z.eqb_neq in Hb. rewrite Hb. simpl.
      rewrite IH; [|split; [done|]|simpl in Hf; lia|done].
      * rewrite length_app. simpl. do 2 f_equal. lia.
      * simpl. destruct p; [done|]. tauto.
Qed.

Lemma dns_parse_name_ok st w a :
  wname_ok w -> holds st a (wname_bytes w) -> dns_parse_name a st = Some (a + Z.of_nat (length (wname_bytes w)), st).
Proof.
  intros Hok H. unfold dns_parse_name. rewrite (bind_Some _ _ _ (S (size (ram st))) st) by done.
  destruct w as [ls p]. apply parse_loop_run; [done| |done]. apply holds_size in H. unfold wname_bytes in H.
  rewrite length_app in H. simpl in H. pose proof (wire_labels_length ls). lia.
Qed.

(** ** Writing a name *)

Lemma bind_store_byte {A} (f : unit -> NM A) a b st m :
  write_bytes (ram st) a [b] = Some m -> (store a [b] ≫= f) st = f tt (set_ram m st).
Proof. intros E. apply bind_Some. unfold store. by rewrite E. Qed.

(** The length that is written behind the label is the same as in front of it. *)
Lemma write_bytes_late m a n l m1 :
  write_bytes m (a + 1) l = Some m1 -> is_Some (m !! a) ->
  write_bytes m a (n :: l) = Some (<[a := n]> m1).
Proof.
  intros H [x Hx]. simpl. rewrite Hx. simpl. destruct (write_bytes_Some (<[a:=n]> m) (a + 1) l) as [m2 Hm2].
  - rewrite (read_bytes_ext m); [|intros; by rewrite lookup_insert_ne by lia].
    apply write_is_Some_read. eauto.
  - rewrite Hm2. f_equal. apply map_eq. intros i. rewrite (write_bytes_lookup _ _ _ _ _ Hm2).
    destruct (decide (i = a)) as [->|Hi].
    + rewrite decide_False by lia. by rewrite !lookup_insert_eq.
    + rewrite !lookup_insert_ne by done. by rewrite (write_bytes_lookup _ _ _ _ _ H).
Qed.

Lemma send_label_run l : forall st rest n a m,
  Forall (fun c => is_byte c /\ c <> 46 /\ c <> 0) l -> write_bytes (ram st) a l = Some m ->
  0 <= n -> n + Z.of_nat (length l) < 256 ->
  (exists c r, rest = c :: r /\ (c = 46 \/ c = 0)) ->
  send_label (l ++ rest) a n st = Some ((rest, a + Z.of_nat (length l), n + Z.of_nat (length l)), set_ram m st).
Proof.
  induction l as [|c l IH]; intros st rest n a m Hc Hm Hn Hl Hrest.
  - destruct Hrest as (c & r & -> & Hr). injection Hm as <-. simpl.
    replace ((c =? 46) || (c =? 0)) with true by (symmetry; apply orb_true_iff; rewrite !Z.eqb_eq; done).
    unfold mret, ST_ret. rewrite !Z.add_0_r. by destruct st.
  - apply Forall_cons in Hc as [(_ & H46 & H0) Hc]. cbn [app send_label]. apply Z.eqb_neq in H46, H0. rewrite H46, H0. cbn [orb].
    simpl in Hm. destruct (ram st !! a) as [x|] eqn:E; [|done]. simpl in Hm, Hl.
    rewrite (bind_store_byte _ _ _ _ (<[a := c]> (ram st))) by (simpl; by rewrite E).
    rewrite wrap_small by (unfold in_u; lia).
    rewrite (IH (set_ram (<[a := c]> (ram st)) st) rest (n + 1) (a + 1) m); [|done..|lia|lia|done].
    simpl length. replace (Z.of_nat (S (length l))) with (1 + Z.of_nat (length l)) by lia. by rewrite !Z.add_assoc.
Qed.

Lemma send_loop_run ls : forall fuel st rest a m,
  ls <> [] -> Forall label_ok ls -> (length ls <= fuel)%nat ->
  write_bytes (ram st) a (wire_labels ls) = Some m ->
  send_loop fuel (dotted ls ++ 0 :: rest) a st = Some (a + Z.of_nat (length (wire_labels ls)), set_ram m st).
Proof.
  induction ls as [|l ls IH]; [done|]. intros fuel st rest a m _ Hok Hf Hm.
  destruct fuel as [|fuel]; [simpl in Hf; lia|]. apply Forall_cons in Hok as [[Hl Hc] Hok].
  rewrite wire_labels_cons, app_comm_cons, write_bytes_app in Hm.
  destruct (write_bytes (ram st) a (Z.of_nat (length l) :: l)) as [m1|] eqn:E1; [|done]. simpl in Hm.
  assert (is_Some (ram st !! a)) as Ha by (simpl in E1; destruct (ram st !! a); [eauto|done]).
  destruct (write_bytes_Some (ram st) (a + 1) l) as [m0 Hm0].
  { assert (is_Some (read_bytes (ram st) a (S (length l)))) as [bs Hr] by (apply (write_is_Some_read _ _ (Z.of_nat (length l) :: l)); by eexists).
    destruct bs as [|b bs]; [by apply read_bytes_length in Hr|]. apply read_bytes_S in Hr as [_ Hr]. eauto. }
  assert (exists c r, dotted (l :: ls) ++ 0 :: rest = l ++ c :: r /\
    ((c = 0 /\ ls = []) \/ (c = 46 /\ ls <> [] /\ r = dotted ls ++ 0 :: rest))) as (c & r & -> & Hcr).
  { destruct ls as [|l' ls]; [by exists 0, rest; auto|]. exists 46, (dotted (l' :: ls) ++ 0 :: rest).
    change (dotted (l :: l' :: ls)) with (l ++ 46 :: dotted (l' :: ls)). rewrite <-app_assoc. auto. }
  cbn [send_loop]. rewrite (bind_Some _ _ _ _ _ (send_label_run l st (c :: r) 0 (a + 1) m0 Hc Hm0 (Z.le_refl 0) ltac:(lia)
    ltac:(exists c, r; naive_solver))).
  assert (<[a := Z.of_nat (length l)]> m0 = m1) as Em.
  { pose proof (write_bytes_late _ _ (Z.of_nat (length l)) _ _ Hm0 Ha). congruence. }
  rewrite Z.add_0_l, (bind_store_byte _ _ _ _ m1).
  2: { simpl. destruct (m0 !! a) eqn:E0; [by rewrite <-Em|].
       rewrite (write_bytes_lookup _ _ _ _ _ Hm0), decide_False in E0 by lia. destruct Ha; congruence. }
  rewrite (bind_Some _ _ _ c (set_ram m1 st)) by (unfold slift; done).
  destruct Hcr as [[-> ->]|(-> & Hne & ->)]; simpl tail.
  - injection Hm as <-. rewrite wire_labels_cons, app_nil_r. simpl. unfold mret, ST_ret.
    do 2 f_equal. lia.
  - change (negb (46 =? 0)) with true. cbv iota.
    rewrite (IH fuel (set_ram m1 st) rest _ m); [|done|done|simpl in Hf; lia|].
    + rewrite wire_labels_cons. do 2 f_equal. simpl. rewrite length_app. lia.
    + simpl. rewrite <-Hm. simpl length. f_equal. lia.
Qed.

Lemma dotted_labels ls : Forall label_ok ls -> (length ls <= length (dotted ls))%nat.
Proof.
  induction ls as [|l [|l' ls] IH]; simpl; [lia| |]; intros [[Hl _] H]%Forall_cons; [simpl; lia|].
  specialize (IH H). rewrite length_app. simpl in *. lia.
Qed.

Lemma send_name_run st ls rest a m :
  ls <> [] -> Forall label_ok ls -> write_bytes (ram st) a (wire ls) = Some m ->
  send_name (dotted ls ++ 0 :: rest) a st = Some (a + Z.of_nat (length (wire ls)), set_ram m st).
Proof.
  intros Hne Hok Hm. unfold wire in *. rewrite write_bytes_app in Hm.
  destruct (write_bytes (ram st) a (wire_labels ls)) as [m1|] eqn:E1; [|done]. simpl in Hm.
  unfold send_name. rewrite (bind_Some _ _ _ _ _ (send_loop_run ls (length (dotted ls ++ 0 :: rest)) st rest a m1 Hne Hok
    ltac:(rewrite length_app; pose proof (dotted_labels ls Hok); lia) E1)).
  rewrite (bind_store_byte _ _ _ _ m) by done. unfold mret, ST_ret. rewrite length_app. simpl. do 2 f_equal. lia.
Qed.

(** What [dns_send] writes for a name of labels is their encoding and nothing else,
    and in memory that holds it [dns_compare_name] takes it for the name and
    [dns_parse_name] gives the address behind it. *)
Theorem dns_name_roundtrip st ls rest a :
  ls <> [] -> Forall label_ok ls -> is_Some (read_bytes (ram st) a (length (wire ls))) ->
  exists m st', st' = set_ram m st /\ write_bytes (ram st) a (wire ls) = Some m /\
    send_name (dotted ls ++ 0 :: rest) a st = Some (a + Z.of_nat (length (wire ls)), st') /\
    dns_compare_name (dotted ls ++ 0 :: rest) a st' = Some (0, st') /\
    dns_parse_name a st' = Some (a + Z.of_nat (length (wire ls)), st').
Proof.
  intros Hne Hok Hr. destruct (write_bytes_Some _ _ _ Hr) as [m Hm]. exists m, (set_ram m st).
  assert (holds (set_ram m st) a (wire ls)) as H by (unfold holds; simpl; by eapply read_write_same).
  split; [done|]. split; [done|]. split; [by apply send_name_run|].
  split; [by apply dns_compare_name_ok|]. by apply (dns_parse_name_ok _ (WName ls None)).
Qed.

(** ** Messages *)

Definition be32 (x : Z) : list Z := be16 (x / 65536) ++ be16 (x mod 65536).

(** A resource record. *)
Record rr := RR { rr_name : wname; rr_type : Z; rr_cls : Z; rr_ttl : Z; rr_data : list Z }.

Definition rr_bytes (r : rr) : list Z :=
  wname_bytes (rr_name r) ++ be16 (rr_type r) ++ be16 (rr_cls r) ++ be32 (rr_ttl r) ++
  be16 (Z.of_nat (length (rr_data r))) ++ rr_data r.

Record rr_ok (r : rr) : Prop := {
  ro_name : wname_ok (rr_name r);
  ro_type : 0 <= rr_type r < 65536;
  ro_cls : 0 <= rr_cls r < 65536;
  ro_ttl : 0 <= rr_ttl r < 4294967296;
  ro_data : Z.of_nat (length (rr_data r)) < 65536;
}.

(** It holds an Internet address. *)
Definition rr_address (r : rr) : bool :=
  (rr_type r =? 1) && (rr_cls r =? 1) && (Z.of_nat (length (rr_data r)) =? 4).

(** A response without error to one question for [ls]. *)
Definition response (id f1 f2 : Z) (ls : list (list Z)) (n : Z) (counts type_class : list Z) (rs : list rr)
    (rest : list Z) : list Z :=
  be16 id ++ [f1; f2] ++ be16 1 ++ be16 n ++ counts ++ wire ls ++ type_class ++ concat (rr_bytes <$> rs) ++ rest.

Lemma ntohl_be32 x : 0 <= x < 4294967296 -> lwip_ntohl (le_num (be32 x)) = x.
Proof.
  intros Hx. unfold be32, be16, lwip_ntohl. cbn [app].
  rewrite lwip_htonl_bytes by (unfold is_byte; Z.div_mod_to_equations; lia).
  simpl. Z.div_mod_to_equations. lia.
Qed.

Lemma htons_eqb x y : 0 <= x < 65536 -> 0 <= y < 65536 -> (lwip_htons x =? lwip_htons y) = (x =? y).
Proof.
  intros Hx Hy. apply eq_true_iff_eq. rewrite !Z.eqb_eq. split; [|by intros ->].
  intros E. rewrite <-(htons_involutive x), <-(htons_involutive y) by done. congruence.
Qed.

Definition answer_of (r : rr) : dns_answer :=
  DnsAnswer (lwip_htons (rr_type r)) (lwip_htons (rr_cls r)) (le_num (be32 (rr_ttl r)))
    (lwip_htons (Z.of_nat (length (rr_data r)))).

Lemma is_address_of r : rr_ok r -> is_address (answer_of r) = rr_address r.
Proof.
  intros []. unfold is_address, rr_address, answer_of, DNS_RRTYPE_A, DNS_RRCLASS_IN. cbn [an_type an_cls an_len].
  by rewrite !htons_eqb by lia.
Qed.

Lemma load_answer_run st r a rest :
  rr_ok r ->
  holds st a (be16 (rr_type r) ++ be16 (rr_cls r) ++ be32 (rr_ttl r) ++ be16 (Z.of_nat (length (rr_data r))) ++ rest) ->
  load_answer a st = Some (answer_of r, st).
Proof.
  intros Hok H. rewrite !app_assoc in H. apply holds_app in H as [H _]. unfold load_answer.
  rewrite (bind_Some _ _ _ _ _ (load_holds st a SIZEOF_DNS_ANSWER _ H eq_refl)).
  unfold mret, ST_ret, answer_of. do 2 f_equal.
  pose proof (ro_type r Hok). pose proof (ro_cls r Hok). pose proof (ro_data r Hok).
  rewrite <-!le_num_be16 by lia. done.
Qed.

(** ** Running the client *)

Lemma on_mem_run {A} (m : NM A) (s : net) (d : dns_globals) a :
  m (n_mem s) = Some (a, n_mem s) -> on_net (on_mem m) (s, d) = Some (a, (s, d)).
Proof. intros E. unfold on_net, on_mem. simpl. rewrite E. by rewrite set_mem_id. Qed.

Definition put_entry (i : Z) (e : dns_table_entry) (d : dns_globals) : dns_globals :=
  set_dns_table (<[Z.to_nat i := e]> (dns_table d)) d.

Lemma put_entry_twice i e e' d : put_entry i e (put_entry i e' d) = put_entry i e d.
Proof. unfold put_entry. destruct d. cbn. by rewrite list_insert_insert_eq. Qed.

Section Run.
Context {app : dns_app}.
Implicit Types (s : net) (d : dns_globals) (e : dns_table_entry).

Lemma entry_run i s d e : dns_table d !! Z.to_nat i = Some e -> entry i (s, d) = Some (e, (s, d)).
Proof. intros E. unfold entry. simpl. by rewrite E. Qed.

Lemma bind_entry {A} (f : dns_table_entry -> DnsM A) i s d e :
  dns_table d !! Z.to_nat i = Some e -> (entry i ≫= f) (s, d) = f e (s, d).
Proof. intros E. by rewrite (bind_Some _ _ _ _ _ (entry_run _ _ _ _ E)). Qed.

Lemma dns_upd_run i f s d e :
  dns_table d !! Z.to_nat i = Some e -> upd_entry i f (s, d) = Some (tt, (s, put_entry i (f e) d)).
Proof. intros E. unfold upd_entry. by rewrite (bind_entry _ _ _ _ _ E). Qed.

Lemma bind_upd_entry {A} (g : unit -> DnsM A) i f s d e :
  dns_table d !! Z.to_nat i = Some e -> (upd_entry i f ≫= g) (s, d) = g tt (s, put_entry i (f e) d).
Proof. intros E. by rewrite (bind_Some _ _ _ _ _ (dns_upd_run _ _ _ _ _ E)). Qed.

Lemma lookup_put i e d e' :
  dns_table d !! Z.to_nat i = Some e -> dns_table (put_entry i e' d) !! Z.to_nat i = Some e'.
Proof. intros E. apply lookup_lt_Some in E. by apply list_lookup_insert_eq. Qed.

Lemma answers_skip rs : forall n i a s d rest,
  Forall rr_ok rs -> Forall (fun r => rr_address r = false) rs ->
  holds (n_mem s) a (concat (rr_bytes <$> rs) ++ rest) ->
  answers_loop (length rs + n) i a (s, d) =
  answers_loop n i (a + Z.of_nat (length (concat (rr_bytes <$> rs)))) (s, d).
Proof.
  induction rs as [|r rs IH]; intros n i a s d rest Hok Hno H; [simpl; by rewrite Z.add_0_r|].
  apply Forall_cons in Hok as [Hr Hok]. apply Forall_cons in Hno as [Hn Hno]. cbn [length Nat.add answers_loop].
  rewrite fmap_cons in H |- *. cbn [concat] in H |- *. rewrite <-app_assoc in H.
  apply holds_app in H as [H1 H]. unfold rr_bytes in H1. apply holds_app in H1 as [H1 H2].
  rewrite (bind_Some _ _ _ _ _ (on_mem_run _ _ _ _ (dns_parse_name_ok _ _ _ (ro_name _ Hr) H1))).
  rewrite (bind_Some _ _ _ _ _ (on_mem_run _ _ _ _ (load_answer_run _ _ _ _ Hr H2))).
  rewrite (is_address_of _ Hr), Hn. cbn [an_len answer_of].
  pose proof (ro_data _ Hr). rewrite htons_involutive by lia.
  replace (_ + _ + _ + _) with (a + Z.of_nat (length (rr_bytes r))).
  - rewrite (IH n i _ s d rest Hok Hno H). f_equal. rewrite length_app. lia.
  - unfold rr_bytes. rewrite !length_app. unfold SIZEOF_DNS_ANSWER, be32, be16. simpl length. lia.
Qed.

Lemma answers_hit n i a s d e r rest :
  dns_table d !! Z.to_nat i = Some e -> rr_ok r -> rr_address r = true ->
  holds (n_mem s) a (rr_bytes r ++ rest) ->
  answers_loop (S n) i a (s, d) =
  (call_found i (Some (le_num (rr_data r))) ;; mret true)
    (s, put_entry i (set_de_ipaddr (le_num (rr_data r)) (set_de_ttl (Z.min (rr_ttl r) DNS_MAX_TTL) e)) d).
Proof.
  intros He Hr Ha H. apply holds_app in H as [H _]. unfold rr_bytes in H. apply holds_app in H as [H1 H2].
  cbn [answers_loop].
  rewrite (bind_Some _ _ _ _ _ (on_mem_run _ _ _ _ (dns_parse_name_ok _ _ _ (ro_name _ Hr) H1))).
  rewrite (bind_Some _ _ _ _ _ (on_mem_run _ _ _ _ (load_answer_run _ _ _ _ Hr H2))).
  rewrite (is_address_of _ Hr), Ha. cbn [an_ttl answer_of]. unfold lwip_ntohl. 
  change (lwip_htonl (le_num (be32 (rr_ttl r)))) with (lwip_ntohl (le_num (be32 (rr_ttl r)))).
  rewrite ntohl_be32 by apply Hr. rewrite (bind_upd_entry _ _ _ _ _ _ He).
  rewrite !app_assoc in H2. apply holds_app in H2 as [_ H2].
  apply andb_true_iff in Ha as [_ L]. apply Z.eqb_eq in L.
  assert (load_le (a + Z.of_nat (length (wname_bytes (rr_name r))) + SIZEOF_DNS_ANSWER) 4 (n_mem s) =
    Some (le_num (rr_data r), n_mem s)) as E by (apply load_le_holds; [exact H2|lia]).
  rewrite (bind_Some _ _ _ _ _ (on_mem_run _ _ _ _ E)).
  rewrite (bind_upd_entry _ _ _ _ _ _ (lookup_put _ _ _ _ He)), put_entry_twice.
  replace (if DNS_MAX_TTL <? rr_ttl r then DNS_MAX_TTL else rr_ttl r) with (Z.min (rr_ttl r) DNS_MAX_TTL); [done|].
  destruct (Z.ltb_spec DNS_MAX_TTL (rr_ttl r)); lia.
Qed.

(** The entry once the answer [r] has arrived. *)
Definition resolved (r : rr) (e : dns_table_entry) : dns_table_entry :=
  set_de_ipaddr (le_num (rr_data r)) (set_de_ttl (Z.min (rr_ttl r) DNS_MAX_TTL) (set_de_err 0 (set_de_state DNS_STATE_DONE e))).

Lemma holds_at st a b bs : holds st a bs -> b = a -> holds st b bs.
Proof. by intros ? ->. Qed.

Lemma response_parts st a id f1 f2 ls n counts tc rs rest :
  holds st a (response id f1 f2 ls n counts tc rs rest) -> length counts = 4%nat -> length tc = 4%nat ->
  holds st a (be16 id) /\ holds st (a + 2) [f1] /\ holds st (a + 3) [f2] /\ holds st (a + 4) (be16 1) /\
  holds st (a + 6) (be16 n) /\ holds st (a + 12) (wire ls) /\
  holds st (a + 12 + Z.of_nat (length (wire ls)) + 4) (concat (rr_bytes <$> rs) ++ rest).
Proof.
  unfold response. intros H Lc Lt. change ([f1; f2] ++ ?x) with ([f1] ++ [f2] ++ x) in H.
  apply holds_app in H as [Hi H]. apply holds_app in H as [Hf1 H]. apply holds_app in H as [Hf2 H].
  apply holds_app in H as [Hq H]. apply holds_app in H as [Hn H]. apply holds_app in H as [_ H].
  apply holds_app in H as [Hw H]. apply holds_app in H as [_ H]. rewrite ?Lc, ?Lt in *. 
  unfold be16 in *. simpl length in *.
  split_and!; (eapply holds_at; [eassumption|lia]).
Qed.

Lemma response_run i s d e a f1 f2 ls n counts tc skip r more rest junk :
  let rs := skip ++ r :: more in
  dns_table d !! Z.to_nat i = Some e -> de_name e = dotted ls ++ junk ->
  holds (n_mem s) a (response i f1 f2 ls n counts tc rs rest) ->
  (f1 &. DNS_FLAG1_RESPONSE =? 0) = false -> f2 &. DNS_FLAG2_ERR_MASK = 0 ->
  ls <> [] -> Forall label_ok ls -> length counts = 4%nat -> length tc = 4%nat ->
  Z.of_nat (length skip) < n < 65536 -> Forall rr_ok (skip ++ [r]) ->
  Forall (fun r => rr_address r = false) skip -> rr_address r = true ->
  dns_response i a (s, d) = (call_found i (Some (le_num (rr_data r))) ;; mret true) (s, put_entry i (resolved r e) d).
Proof.
  intros rs He Hname H Hf1 Hf2 Hne Hok Lc Lt Hn Hrs Hno Hr.
  apply Forall_app in Hrs as [Hskip [Hrr _]%Forall_cons].
  destruct (response_parts _ _ _ _ _ _ _ _ _ _ _ H Lc Lt) as (_ & Hb1 & Hb2 & Hq & Hna & Hw & Hrec).
  unfold rs in Hrec. rewrite fmap_app, concat_app, <-app_assoc in Hrec.
  unfold dns_response. rewrite (bind_Some _ _ _ _ _ (on_mem_run _ _ _ _ (load_byte _ _ _ _ Hb1))).
  rewrite (bind_Some _ _ _ _ _ (on_mem_run _ _ _ _ (load_byte _ _ _ _ Hb2))).
  rewrite Hf2, (bind_upd_entry _ _ _ _ _ _ He), (bind_entry _ _ _ _ _ (lookup_put _ _ _ _ He)).
  rewrite (bind_Some _ _ _ _ _ (on_mem_run _ _ _ _ (load_le_holds _ _ 2 _ Hq eq_refl))).
  rewrite (bind_Some _ _ _ _ _ (on_mem_run _ _ _ _ (load_le_holds _ _ 2 _ Hna eq_refl))).
  rewrite !le_num_be16, !htons_involutive, Hf1 by lia. cbn [orb negb Z.eqb de_err set_de_err Pos.eqb].
  change (de_name (set_de_err 0 (set_de_state DNS_STATE_DONE e))) with (de_name e). rewrite Hname.
  rewrite (bind_Some _ _ _ _ _ (on_mem_run _ _ _ _ (dns_compare_name_ok _ _ _ junk Hne Hok Hw))).
  cbn [negb Z.eqb].
  rewrite (bind_Some _ _ _ _ _ (on_mem_run _ _ _ _ (dns_parse_name_ok _ (WName ls None) _ (conj Hok Hne) Hw))).
  replace (Z.to_nat n) with (length skip + S (Z.to_nat n - length skip - 1))%nat by lia.
  rewrite (answers_skip skip _ _ _ _ _ _ Hskip Hno Hrec). apply holds_app in Hrec as [_ Hrec].
  rewrite fmap_cons in Hrec. cbn [concat] in Hrec. rewrite <-app_assoc in Hrec.
  rewrite (answers_hit _ _ _ _ _ _ _ _ (lookup_put _ _ _ _ He) Hrr Hr Hrec), put_entry_twice. done.
Qed.

(** A datagram with the message [msg] is in the chain [p], and the static buffer at [buf]
    has room for it. *)
Record arrived (st : netmem) (p : Z) (msg : list Z) (buf : Z) : Prop := Arrived {
  ad_chain : exists b l, lens_ok ((p, b) :: l) /\ pchain (pbufs st) p ((p, b) :: l) /\
    chain_data (ram st) ((p, b) :: l) = Some msg /\ pb_tot_len b = Z.of_nat (length msg) /\
    apart buf (Z.of_nat (length msg)) ((p, b) :: l);
  ad_size : 26 <= Z.of_nat (length msg) <= DNS_MSG_SIZE;
  ad_room : buf <> NULL /\ is_Some (read_bytes (ram st) buf (length msg));
}.

Lemma recv_run s d p msg arg pcb addr port :
  arrived (n_mem s) p msg (dns_payload d) ->
  exists m, write_bytes (ram (n_mem s)) (dns_payload d) msg = Some m /\
    dns_recv arg pcb p addr port (s, d) =
    (dns_message (dns_payload d) ;; _ ← on_net (on_mem (pbuf_free p)); mret tt) (set_mem (set_ram m (n_mem s)) s, d).
Proof.
  intros [(b & l & Hl & Hc & Hd & Ht & Ha) Hsz [Hbuf Hroom]].
  unfold DNS_MSG_SIZE in Hsz. pose proof Hc as (_ & Hp & Hb & _).
  destruct (pbuf_copy_partial_ok (n_mem s) p _ msg (dns_payload d) (pb_tot_len b) 0 Hl Hc Hp Hd) as (m & Hm & Hw);
    [lia|lia|done|by rewrite Ht|by rewrite Ht, Nat2Z.id|].
  rewrite Ht, Nat2Z.id in Hm, Hw. rewrite drop_0, firstn_all in Hm, Hw. exists m. split; [done|].
  unfold dns_recv. rewrite (bind_Some _ _ _ _ _ (on_mem_run (getp p) s d b ltac:(unfold getp; by rewrite Hb))).
  rewrite (bind_Some _ _ _ (dns_payload d) (s, d)) by done. rewrite Ht.
  unfold DNS_MSG_SIZE, SIZEOF_DNS_HDR, SIZEOF_DNS_QUERY, SIZEOF_DNS_ANSWER.
  destruct (Z.ltb_spec 512 (Z.of_nat (length msg))); [lia|].
  destruct (Z.ltb_spec (Z.of_nat (length msg)) (12 + 4 + 10)); [lia|].
  rewrite bind_assoc. rewrite (bind_Some _ _ _ (Z.of_nat (length msg)) (set_mem (set_ram m (n_mem s)) s, d)).
  - by rewrite Z.eqb_refl.
  - unfold on_net, on_mem. simpl. by rewrite Hm.
Qed.

(** The entry [i] is waiting for the address of the name with the labels [ls]. *)
Record asking (d : dns_globals) (i : Z) (ls : list (list Z)) (e : dns_table_entry) : Prop := Asking {
  ak_entry : dns_table d !! Z.to_nat i = Some e /\ 0 <= i < DNS_TABLE_SIZE;
  ak_state : de_state e = DNS_STATE_ASKING;
  ak_labels : ls <> [] /\ Forall label_ok ls;
  ak_name : exists junk, de_name e = dotted ls ++ 0 :: junk;
}.

Lemma streq_refl xs rest : Forall (fun c => c <> 0) xs -> streq xs (xs ++ 0 :: rest) = Some true.
Proof. induction 1 as [|c xs Hc H IH]; [done|]. simpl. by rewrite Z.eqb_refl. Qed.

Lemma dotted_nonzero ls : Forall label_ok ls -> Forall (fun c => c <> 0) (dotted ls).
Proof.
  induction ls as [|l ls IH]; [constructor|]. intros [[_ Hc] H]%Forall_cons. specialize (IH H).
  assert (Forall (fun c => c <> 0) l) as Hl by (eapply Forall_impl; [exact Hc|]; simpl; tauto).
  destruct ls as [|l' ls]; [done|]. change (dotted (l :: l' :: ls)) with (l ++ 46 :: dotted (l' :: ls)).
  apply Forall_app. split; [done|]. by constructor.
Qed.

(** The first completed entry with the name is the one at [i]. *)
Lemma lookup_loop_found name table i e :
  table !! i = Some e -> de_state e = DNS_STATE_DONE -> streq name (de_name e) = Some true ->
  (forall j e', (j < i)%nat -> table !! j = Some e' -> de_state e' = DNS_STATE_DONE -> streq name (de_name e') = Some false) ->
  lookup_loop name table = Some (de_ipaddr e).
Proof.
  revert i. induction table as [|e0 table IH]; intros i He Hst Hs Hbefore; [done|]. simpl.
  destruct i as [|i].
  - injection He as ->. rewrite Hst. simpl. by rewrite Hs.
  - assert ((if de_state e0 =? DNS_STATE_DONE then streq name (de_name e0) else Some false) = Some false) as ->.
    { destruct (Z.eqb_spec (de_state e0) DNS_STATE_DONE); [|done]. apply (Hbefore 0%nat); [lia|done|done]. }
    simpl. apply (IH i); [done..|]. intros j e' Hj. apply (Hbefore (S j)). lia.
Qed.
End Run.

Section Resolve.
Context {app : dns_app}.

(** C20. A response that answers a pending question completes its entry: of any number of
    records the first one that holds an address counts, behind aliases and with names
    that are spelled out or are pointers; the caller's function is called once with the
    address, and a further request for the name is answered from the table. *)
Theorem dns_recv_resolves s d p i e ls f1 f2 n counts tc skip r more rest arg pcb addr port :
  let msg := response i f1 f2 ls n counts tc (skip ++ r :: more) rest in
  let ip := le_num (rr_data r) in
  asking d i ls e -> arrived (n_mem s) p msg (dns_payload d) ->
  (f1 &. DNS_FLAG1_RESPONSE =? 0) = false -> f2 &. DNS_FLAG2_ERR_MASK = 0 ->
  length counts = 4%nat -> length tc = 4%nat ->
  Z.of_nat (length skip) < n < 65536 -> Forall rr_ok (skip ++ [r]) ->
  Forall (fun r => rr_address r = false) skip -> rr_address r = true ->
  exists m, write_bytes (ram (n_mem s)) (dns_payload d) msg = Some m /\
    let s' := set_mem (set_ram m (n_mem s)) s in
    let d' := put_entry i (resolved r e) d in
    dns_recv arg pcb p addr port (s, d) =
      (swhen (negb (de_found e =? NULL)) (found_call (de_found e) (de_name e) (Some ip) (de_arg e)) ;;
       _ ← on_net (on_mem (pbuf_free p)); mret tt) (s', d') /\
    (dns_pcb d <> NULL -> Z.of_nat (length (dotted ls)) < DNS_MAX_NAME_LENGTH ->
     ipaddr_addr (dotted ls ++ [0]) = Some IPADDR_NONE -> ip <> IPADDR_NONE ->
     (forall j e', (j < Z.to_nat i)%nat -> dns_table d !! j = Some e' -> de_state e' = DNS_STATE_DONE ->
        streq (dotted ls) (de_name e') = Some false) ->
     forall found a, dns_gethostbyname (Some (dotted ls)) true found a (s', d') = Some ((ERR_OK, Some ip), (s', d'))).
Proof.
  intros msg ip [[He Hi] Hst [Hne Hok] [junk Hname]] Harr Hf1 Hf2 Lc Lt Hn Hrs Hno Hr.
  unfold DNS_TABLE_SIZE in Hi.
  destruct (recv_run s d p msg arg pcb addr port Harr) as (m & Hm & Hrecv). exists m. split; [done|]. intros s' d'.
  assert (holds (n_mem s') (dns_payload d) msg) as Hmsg by (by eapply read_write_same).
  assert (dns_table d' !! Z.to_nat i = Some (resolved r e)) as He' by by eapply lookup_put.
  split.
  - rewrite Hrecv. unfold dns_message. rewrite !bind_assoc.
    pose proof (response_parts _ _ _ _ _ _ _ _ _ _ _ Hmsg Lc Lt) as (Hid & _).
    rewrite (bind_Some _ _ _ _ _ (on_mem_run _ s' d _ (load_le_holds _ _ 2 _ Hid eq_refl))).
    rewrite le_num_be16, htons_involutive by lia. unfold DNS_TABLE_SIZE. destruct (Z.ltb_spec i 4); [|lia]. cbn [swhen].
    rewrite bind_assoc, (bind_entry _ _ _ _ _ He), Hst. cbn [swhen Z.eqb DNS_STATE_ASKING Pos.eqb].
    rewrite bind_assoc. unfold mbind at 1, ST_bind at 1.
    rewrite (response_run i s' d e (dns_payload d) f1 f2 ls n counts tc skip r more rest (0 :: junk)) by done.
    transitivity (((call_found i (Some ip) ;; mret true) ≫= fun ok : bool =>
        swhen (negb ok) (call_found i None ;; flush_entry i) ;; _ ← on_net (on_mem (pbuf_free p)); mret tt) (s', d')); [done|].
    rewrite bind_assoc. unfold call_found. rewrite bind_assoc, (bind_entry _ _ _ _ _ He'). done.
  - intros Hpcb Hlen Hnum Hip Hfirst found a. unfold dns_gethostbyname.
    rewrite (bind_Some _ _ _ (dns_pcb d) (s', d')) by done.
    apply Z.eqb_neq in Hpcb, Hip. rewrite Hpcb. unfold DNS_MAX_NAME_LENGTH in *.
    rewrite bool_decide_false. 2: { pose proof (dotted_labels ls Hok) as L. intros E. rewrite E in L. destruct ls; [done|simpl in L; lia]. }
    destruct (Z.leb_spec 256 (Z.of_nat (length (dotted ls)))); [lia|]. cbn [orb negb].
    rewrite (bind_Some _ _ _ IPADDR_NONE (s', d')) by (unfold slift; by rewrite Hnum). rewrite Z.eqb_refl.
    rewrite (bind_Some _ _ _ ip (s', d')); [by rewrite Hip|].
    unfold dns_lookup. rewrite (bind_Some _ _ _ (dns_table d') (s', d')) by done. apply slift_Some.
    rewrite (lookup_loop_found _ _ (Z.to_nat i) (resolved r e)); [done|done|done| |].
    + change (de_name (resolved r e)) with (de_name e). rewrite Hname. apply streq_refl, dotted_nonzero, Hok.
    + intros j e' Hj. unfold d', put_entry. destruct d. cbn. rewrite list_lookup_insert_ne by lia. by apply Hfirst.
Qed.
End Resolve.

(** ** A question that nobody answers *)

(** The questions that have been sent, as a list of the servers that were asked: the
    network has gone through these calls of [dns_send] and nothing else. *)
Inductive asked (i : Z) (name : list Z) (d : dns_globals) : list Z -> net -> net -> Prop :=
  | asked_nobody s : asked i name d [] s s
  | asked_server n ns s err s1 s' :
      dns_send n name i (s, d) = Some (err, (s1, d)) -> asked i name d ns s1 s' -> asked i name d (n :: ns) s s'.

Lemma asked_app i name d ns1 ns2 s1 s2 s3 :
  asked i name d ns1 s1 s2 -> asked i name d ns2 s2 s3 -> asked i name d (ns1 ++ ns2) s1 s3.
Proof. induction 1; [done|]. intros H'. econstructor; [done|]. by apply IHasked. Qed.

(** Sending looks at the servers and the control block only. *)
Lemma dns_send_frame n name i s d d' err s1 d1 :
  dns_servers d' = dns_servers d -> dns_pcb d' = dns_pcb d -> dns_send n name i (s, d) = Some (err, (s1, d1)) ->
  dns_send n name i (s, d') = Some (err, (s1, d')).
Proof.
  intros Es Ep. unfold dns_send.
  assert (forall (T A : Type) (m : NetM A) s (x : T) a sx, on_net m (s, x) = Some (a, sx) ->
    sx.2 = x /\ forall y : dns_globals, on_net m (s, y) = Some (a, (sx.1, y))) as Hon.
  { intros T A m s0 x a sx. unfold on_net. cbn [fst snd]. destruct (m s0) as [[a' s']|]; [|done]. by intros [= -> <-]. }
  intros ([] & [s2 d2] & E1 & E)%bind_inv. apply Hon in E1 as [Ed E1]. simpl in Ed. subst d2.
  rewrite (bind_Some _ _ _ _ _ (E1 d')). cbn [fst].
  apply bind_inv in E as (a & [s3 d3] & E2 & E). unfold server in E2. cbn [snd] in E2.
  destruct (dns_servers d !! Z.to_nat n) as [a'|] eqn:Ea; [|done]. injection E2 as -> <- <-.
  rewrite (bind_Some _ _ _ a (s2, d')) by (unfold server; cbn [snd]; by rewrite Es, Ea).
  apply bind_inv in E as ([] & [s4 d4] & E3 & E). apply Hon in E3 as [Ed E3]. simpl in Ed. subst d4.
  rewrite (bind_Some _ _ _ _ _ (E3 d')). cbn [fst].
  apply bind_inv in E as (pcb & sd & [= <- <-] & E). rewrite (bind_Some _ _ _ (dns_pcb d) (s4, d')) by (unfold dget, sget; simpl; by rewrite Ep).
  apply Hon in E as [_ E]. by rewrite (E d').
Qed.

Section Unanswered.
Context {app : dns_app} (I : net -> Prop) (i : Z) (e : dns_table_entry).

(** The entry while the server [nd] is asked for the [r]-th time. *)
Definition ask (nd tmr r : Z) : dns_table_entry :=
  set_de_retries r (set_de_tmr tmr (set_de_numdns nd (set_de_state DNS_STATE_ASKING e))).

(** [n] calls of [dns_check_entry] for the entry. *)
Fixpoint ticks (n : nat) : DnsM unit :=
  match n with
  | O => mret tt
  | S n => dns_check_entry i ;; ticks n
  end.

Lemma ticks_add n m sd sd' : ticks n sd = Some (tt, sd') -> ticks (n + m) sd = ticks m sd'.
Proof.
  revert sd. induction n as [|n IH]; intros sd; simpl; [by intros [= ->]|].
  intros ([] & sd1 & E1 & E)%bind_inv. rewrite (bind_Some _ _ _ _ _ E1). by apply IH.
Qed.

Context (d : dns_globals) (e0 : dns_table_entry).
Hypothesis Hi : dns_table d !! Z.to_nat i = Some e0.
Hypothesis Hrange : 0 <= i < DNS_TABLE_SIZE.

Abbreviation at_stage nd tmr r := (put_entry i (ask nd tmr r) d).

Lemma servers_stage nd tmr r : dns_servers (at_stage nd tmr r) = dns_servers d.
Proof. by destruct d. Qed.

Lemma lookup_stage nd tmr r : dns_table (at_stage nd tmr r) !! Z.to_nat i = Some (ask nd tmr r).
Proof. by eapply lookup_put. Qed.

Lemma bind_in_range {A} (f : unit -> DnsM A) sd : (on_net (nassert (i <? DNS_TABLE_SIZE)) ≫= f) sd = f tt sd.
Proof.
  apply bind_Some. destruct (Z.ltb_spec i DNS_TABLE_SIZE); [|lia]. by destruct sd.
Qed.

Lemma check_asking s nd tmr r :
  dns_check_entry i (s, at_stage nd tmr r) =
  swhen (u8 (tmr - 1) =? 0) (asking_again i) (s, at_stage nd (u8 (tmr - 1)) r).
Proof.
  unfold dns_check_entry. rewrite bind_in_range, (bind_entry _ _ _ _ _ (lookup_stage _ _ _)).
  change (de_state (ask nd tmr r)) with DNS_STATE_ASKING. cbn [Z.eqb DNS_STATE_ASKING DNS_STATE_NEW Pos.eqb].
  rewrite (bind_upd_entry _ _ _ _ _ _ (lookup_stage _ _ _)), put_entry_twice.
  by rewrite (bind_entry _ _ _ _ _ (lookup_stage nd (u8 (tmr - 1)) r)).
Qed.

Lemma check_waits s nd tmr r :
  1 < tmr < 256 -> dns_check_entry i (s, at_stage nd tmr r) = Some (tt, (s, at_stage nd (tmr - 1) r)).
Proof.
  intros H. rewrite check_asking, wrap_small by (unfold in_u; lia). destruct (Z.eqb_spec (tmr - 1) 0); [lia|done].
Qed.

(** The time is over. *)
Lemma check_over s nd r :
  dns_check_entry i (s, at_stage nd 1 r) = asking_again i (s, at_stage nd 0 r).
Proof. by rewrite check_asking. Qed.

(** The fourth retry: the next server, or the end. *)
Lemma check_fourth s nd next :
  0 <= nd < DNS_MAX_SERVERS ->
  (nd + 1 < DNS_MAX_SERVERS -> exists a, dns_servers d !! Z.to_nat (nd + 1) = Some a /\ ip_addr_isany a = negb next) ->
  (nd + 1 = DNS_MAX_SERVERS -> next = false) ->
  dns_check_entry i (s, at_stage nd 1 3) =
  if next then Some (tt, (s, at_stage (nd + 1) 1 0))
  else (call_found i None ;; flush_entry i) (s, at_stage nd 0 4).
Proof.
  intros Hnd Hnext Hlast. unfold DNS_MAX_SERVERS in *. rewrite check_over. unfold asking_again.
  rewrite (bind_upd_entry _ _ _ _ _ _ (lookup_stage _ _ _)), put_entry_twice.
  change (put_entry i (set_de_retries (u8 (de_retries (ask nd 0 3) + 1)) (ask nd 0 3)) d) with (at_stage nd 0 4).
  rewrite (bind_entry _ _ _ _ _ (lookup_stage nd 0 4)). change (de_retries (ask nd 0 4) =? DNS_MAX_RETRIES) with true.
  change (de_numdns (ask nd 0 4)) with nd. cbv iota. unfold DNS_MAX_SERVERS.
  rewrite (bind_Some _ _ _ next (s, at_stage nd 0 4)).
  - destruct next; [|done]. rewrite (dns_upd_run _ _ _ _ _ (lookup_stage nd 0 4)), put_entry_twice.
    change (de_numdns (ask nd 0 4)) with nd. rewrite wrap_small by (unfold in_u; lia). done.
  - destruct (Z.ltb_spec (nd + 1) 2) as [Hlt|Hge]; [|by rewrite Hlast by lia].
    destruct (Hnext Hlt) as (a & Ha & Hset). rewrite (bind_Some _ _ _ a (s, at_stage nd 0 4)).
    + rewrite Hset, negb_involutive. done.
    + unfold server. cbn [snd]. by rewrite servers_stage, Ha.
Qed.

Lemma call_found_run s nd tmr r ipaddr :
  call_found i ipaddr (s, at_stage nd tmr r) =
  swhen (negb (de_found e =? NULL)) (found_call (de_found e) (de_name e) ipaddr (de_arg e)) (s, at_stage nd tmr r).
Proof. unfold call_found. by rewrite (bind_entry _ _ _ _ _ (lookup_stage nd tmr r)). Qed.

(** Sending returns, with or without success. *)
Hypothesis sends : forall s n a, I s -> dns_servers d !! Z.to_nat n = Some a -> ip_addr_isany a = false ->
  0 <= n < DNS_MAX_SERVERS -> exists err s', dns_send n (de_name e) i (s, d) = Some (err, (s', d)) /\ I s'.

Abbreviation asked := (asked i (de_name e) d).

Lemma send_query_run s nd tmr r a :
  I s -> dns_servers d !! Z.to_nat nd = Some a -> ip_addr_isany a = false -> 0 <= nd < DNS_MAX_SERVERS ->
  exists s', send_query i (s, at_stage nd tmr r) = Some (tt, (s', at_stage nd tmr r)) /\ I s' /\ asked [nd] s s'.
Proof.
  intros HI Ha Hset Hnd. unfold send_query. rewrite (bind_entry _ _ _ _ _ (lookup_stage nd tmr r)).
  destruct (sends s nd a) as (err & s' & E & HI'); [done..|].
  exists s'. split; [|split; [done|by repeat econstructor]].
  change (de_numdns (ask nd tmr r)) with nd. change (de_name (ask nd tmr r)) with (de_name e).
  rewrite (bind_Some _ _ _ err (s', at_stage nd tmr r)); [done|].
  by apply (dns_send_frame nd (de_name e) i s d _ err s' d); [apply servers_stage|destruct d|].
Qed.

(** One call of [dns_check_entry], which asks the server [o] or nobody, leads from a stage
    to the next one. *)
Definition stage (st : Z * Z * Z) : dns_globals := let '(nd, tmr, r) := st in at_stage nd tmr r.

Definition tick_to (sd0 : dns_globals) (o : option Z) (st : Z * Z * Z) : Prop :=
  forall s, I s -> exists s', dns_check_entry i (s, sd0) = Some (tt, (s', stage st)) /\ I s' /\ asked (option_list o) s s'.

Lemma tick_again nd r a :
  dns_servers d !! Z.to_nat nd = Some a -> ip_addr_isany a = false -> 0 <= nd < DNS_MAX_SERVERS -> 0 <= r < 3 ->
  tick_to (stage (nd, 1, r)) (Some nd) (nd, r + 1, r + 1).
Proof.
  intros Ha Hset Hnd Hr s HI. cbn [stage]. rewrite check_over. unfold asking_again.
  rewrite (bind_upd_entry _ _ _ _ _ _ (lookup_stage _ _ _)), put_entry_twice.
  change (de_retries (ask nd 0 r)) with r. rewrite wrap_small by (unfold in_u; lia).
  rewrite (bind_entry _ _ _ _ _ (lookup_stage nd 0 (r + 1))).
  change (de_retries (set_de_retries (r + 1) (ask nd 0 r))) with (r + 1).
  change (de_retries (ask nd 0 (r + 1))) with (r + 1). unfold DNS_MAX_RETRIES.
  destruct (Z.eqb_spec (r + 1) 4); [lia|].
  rewrite (bind_upd_entry _ _ _ _ _ _ (lookup_stage nd 0 (r + 1))), put_entry_twice.
  by apply (send_query_run s nd (r + 1) (r + 1) a).
Qed.

Lemma tick_waits nd tmr r : 1 < tmr < 256 -> tick_to (stage (nd, tmr, r)) None (nd, tmr - 1, r).
Proof. intros H s HI. exists s. cbn [stage]. rewrite check_waits by done. split_and!; [done|done|constructor]. Qed.

Fixpoint chained (d0 : dns_globals) (l : list (option Z * (Z * Z * Z))) : Prop :=
  match l with [] => True | (o, st) :: l => tick_to d0 o st /\ chained (stage st) l end.

Lemma chained_app d0 l1 o st l2 :
  chained d0 (l1 ++ [(o, st)]) -> chained (stage st) l2 -> chained d0 (l1 ++ (o, st) :: l2).
Proof.
  revert d0. induction l1 as [|[o' st'] l1 IH]; intros d0; simpl; [intros [H _] H2; exact (conj H H2)|].
  intros [H H1] H2. exact (conj H (IH _ H1 H2)).
Qed.

(** The calls follow the chain. *)
Lemma chained_ticks l1 : forall d0 o st l2 s, chained d0 (l1 ++ (o, st) :: l2) -> I s ->
  exists s', ticks (S (length l1)) (s, d0) = Some (tt, (s', stage st)) /\ I s' /\ asked (omap fst (l1 ++ [(o, st)])) s s'.
Proof.
  induction l1 as [|[o' st'] l1 IH]; intros d0 o st l2 s [H Hl] HI; destruct (H s HI) as (s1 & E1 & HI1 & A1).
  - exists s1. cbn [ticks length]. rewrite (bind_Some _ _ _ _ _ E1). split_and!; [done|done|].
    by destruct o.
  - destruct (IH _ _ _ _ s1 Hl HI1) as (s2 & E2 & HI2 & A2). exists s2.
    cbn [length]. change (ticks (S (S (length l1)))) with (dns_check_entry i ;; ticks (S (length l1))).
    rewrite (bind_Some _ _ _ _ _ E1). split_and!; [done|done|].
    replace (omap fst (((o', st') :: l1) ++ [(o, st)])) with (option_list o' ++ omap fst (l1 ++ [(o, st)])) by by destruct o'.
    by eapply asked_app.
Qed.

(** A server is asked three times more, after one, two and four ticks. *)
Lemma chained_retries nd a :
  dns_servers d !! Z.to_nat nd = Some a -> ip_addr_isany a = false -> 0 <= nd < DNS_MAX_SERVERS ->
  chained (stage (nd, 1, 0)) [(Some nd, (nd, 1, 1)); (Some nd, (nd, 2, 2)); (None, (nd, 1, 2)); (Some nd, (nd, 3, 3));
    (None, (nd, 2, 3)); (None, (nd, 1, 3))].
Proof.
  intros Ha Hset Hnd. repeat split.
  - by apply (tick_again nd 0 a); [..|lia].
  - by apply (tick_again nd 1 a); [..|lia].
  - apply (tick_waits nd 2 2). lia.
  - by apply (tick_again nd 2 a); [..|lia].
  - apply (tick_waits nd 3 3). lia.
  - apply (tick_waits nd 2 3). lia.
Qed.

(** The first call sends the question. *)
Lemma tick_new a :
  e0 = e -> de_state e = DNS_STATE_NEW -> dns_servers d !! 0%nat = Some a -> ip_addr_isany a = false ->
  tick_to d (Some 0) (0, 1, 0).
Proof.
  intros E0 Hnew Ha Hset s HI. pose proof Hi as Hi'. rewrite E0 in Hi'.
  unfold dns_check_entry. rewrite bind_in_range, (bind_entry _ _ _ _ _ Hi'), Hnew.
  cbn [Z.eqb DNS_STATE_NEW Pos.eqb]. rewrite (bind_upd_entry _ _ _ _ _ _ Hi').
  change (set_de_retries 0 (set_de_tmr 1 (set_de_numdns 0 (set_de_state DNS_STATE_ASKING e)))) with (ask 0 1 0).
  by apply (send_query_run s 0 1 0 a).
Qed.
End Unanswered.

(** ** Forgetting answers *)

Section Expiry.
Context {app : dns_app}.

Lemma ticks_one i sd : ticks i 1 sd = dns_check_entry i sd.
Proof. cbn [ticks]. unfold mbind, ST_bind. by destruct (dns_check_entry i sd) as [[[] sd']|]. Qed.

Lemma check_done i s d e ttl :
  dns_table d !! Z.to_nat i = Some e -> 0 <= i < DNS_TABLE_SIZE -> de_state e = DNS_STATE_DONE ->
  dns_check_entry i (s, put_entry i (set_de_ttl ttl e) d) =
  swhen (u32 (ttl - 1) =? 0) (flush_entry i) (s, put_entry i (set_de_ttl (u32 (ttl - 1)) e) d).
Proof.
  intros He Hi Hst. unfold dns_check_entry. rewrite bind_in_range by done.
  rewrite (bind_entry _ _ _ _ _ (lookup_put _ _ _ _ He)).
  change (de_state (set_de_ttl ttl e)) with (de_state e). rewrite Hst. cbn [Z.eqb DNS_STATE_DONE DNS_STATE_ASKING DNS_STATE_NEW Pos.eqb].
  rewrite (bind_upd_entry _ _ _ _ _ _ (lookup_put _ _ _ _ He)), put_entry_twice.
  by rewrite (bind_entry _ _ _ _ _ (lookup_put _ _ _ _ He)).
Qed.

(** A completed entry is forgotten after as many ticks as its time to live says, and
    not before; a time to live of 0 counts as 2^32. *)
Theorem dns_cache_expires i s d e k :
  dns_table d !! Z.to_nat i = Some e -> 0 <= i < DNS_TABLE_SIZE -> de_state e = DNS_STATE_DONE ->
  0 <= de_ttl e < 4294967296 ->
  let life := if de_ttl e =? 0 then 4294967296 else de_ttl e in
  (Z.of_nat k < life ->
    ticks i k (s, d) = Some (tt, (s, put_entry i (set_de_ttl (u32 (de_ttl e - Z.of_nat k)) e) d))) /\
  (Z.of_nat k = life ->
    ticks i k (s, d) = Some (tt, (s, put_entry i (set_de_found NULL (set_de_state DNS_STATE_UNUSED (set_de_ttl 0 e))) d))).
Proof.
  intros He Hi Hst Hr life.
  assert (forall n, 0 < n <= life -> (u32 (de_ttl e - n) =? 0) = (n =? life)) as Hzero.
  { intros n Hn. unfold life in *. apply eq_true_iff_eq. rewrite !Z.eqb_eq. unfold wrap.
    destruct (Z.eqb_spec (de_ttl e) 0); Z.div_mod_to_equations; lia. }
  assert (forall n, 0 <= n -> u32 (u32 (de_ttl e - n) - 1) = u32 (de_ttl e - (n + 1))) as Hnext.
  { intros n _. change (?x - 1) with (x + -1). rewrite wrap_add_l by lia. f_equal. lia. }
  assert (forall n, Z.of_nat n < life -> ticks i n (s, d) =
    Some (tt, (s, put_entry i (set_de_ttl (u32 (de_ttl e - Z.of_nat n)) e) d))) as Hlive.
  { induction n as [|n IH]; intros Hn.
    - rewrite Z.sub_0_r, wrap_small by (unfold in_u; lia). cbn [ticks]. unfold mret, ST_ret, put_entry.
      replace (set_de_ttl (de_ttl e) e) with e by by destruct e.
      rewrite list_insert_id by done. by destruct d.
    - replace (S n) with (n + 1)%nat by lia. rewrite (ticks_add i n 1 _ _ (IH ltac:(lia))).
      rewrite ticks_one, check_done, Hnext, Hzero by (done || lia).
      destruct (Z.eqb_spec (Z.of_nat n + 1) life); [lia|]. by replace (Z.of_nat (n + 1)) with (Z.of_nat n + 1) by lia. }
  split; [apply Hlive|]. intros Hk. destruct k as [|k]; [unfold life in Hk; destruct (Z.eqb_spec (de_ttl e) 0); lia|].
  replace (S k) with (k + 1)%nat by lia. rewrite (ticks_add i k 1 _ _ (Hlive k ltac:(lia))).
  rewrite ticks_one, check_done, Hnext, Hzero by (done || lia).
  destruct (Z.eqb_spec (Z.of_nat k + 1) life); [|lia]. cbn [swhen].
  unfold flush_entry. rewrite (dns_upd_run _ _ _ _ _ (lookup_put _ _ _ _ He)), put_entry_twice.
  replace (Z.of_nat k + 1) with (Z.of_nat (S k)) by lia.
  destruct (Z.eqb_spec (u32 (de_ttl e - Z.of_nat (S k))) 0) as [->|Hne]; [done|].
  exfalso. apply Hne, Z.eqb_eq. rewrite Hzero by lia. apply Z.eqb_eq. lia.
Qed.
End Expiry.

Section Ends.
Context {app : dns_app} (I : net -> Prop).

(** Whom the calls of [dns_check_entry] ask, one after the other: the first server at once
    and one, two and four ticks later, then, if there is one, the second server one, two and
    four ticks after the change. *)
Definition questions (second : bool) : list (option Z) :=
  [Some 0; Some 0; Some 0; None; Some 0; None; None] ++
  if second then [None; Some 1; Some 1; None; Some 1; None; None] else [].

(** The stages (server, time, retries) that the entry goes through meanwhile. *)
Definition stages (second : bool) : list (Z * Z * Z) :=
  [(0, 1, 0); (0, 1, 1); (0, 2, 2); (0, 1, 2); (0, 3, 3); (0, 2, 3); (0, 1, 3)] ++
  if second then [(1, 1, 0); (1, 1, 1); (1, 2, 2); (1, 1, 2); (1, 3, 3); (1, 2, 3); (1, 1, 3)] else [].

Lemma omap_fst_zip {A B} (q : list (option A)) (l : list B) n :
  (length q <= length l)%nat -> omap fst (take n (zip q l)) = omap id (take n q).
Proof.
  revert l n. induction q as [|o q IH]; intros [|x l] [|n] H; simpl in *; try done; try lia.
  rewrite IH by lia. by destruct o.
Qed.

(** C21. A question that is never answered ends.  As long as sending returns, whether or not
    it succeeds, the calls of [dns_check_entry] send it to the first server at once and one,
    two and four ticks later; at the seventh tick the second server, if there is one, takes
    over and is asked one, two and four ticks after that; nothing else is sent.  At the next
    call, the eighth or fifteenth, the function of the application is called with a null
    address and the entry is free; until then it is not called and the entry waits. *)
Theorem dns_query_ends i e s d a0 a1 :
  (forall s n a, I s -> dns_servers d !! Z.to_nat n = Some a -> ip_addr_isany a = false ->
    0 <= n < DNS_MAX_SERVERS -> exists err s', dns_send n (de_name e) i (s, d) = Some (err, (s', d)) /\ I s') ->
  I s -> dns_table d !! Z.to_nat i = Some e -> 0 <= i < DNS_TABLE_SIZE -> de_state e = DNS_STATE_NEW ->
  dns_servers d = [a0; a1] -> ip_addr_isany a0 = false ->
  let second := negb (ip_addr_isany a1) in
  let last := if second then 1 else 0 in
  (forall k nd tmr r, stages second !! k = Some (nd, tmr, r) ->
    exists s', ticks i (S k) (s, d) = Some (tt, (s', put_entry i (ask e nd tmr r) d)) /\
      asked i (de_name e) d (omap id (take (S k) (questions second))) s s') /\
  (forall s', dns_check_entry i (s', put_entry i (ask e last 1 3) d) =
    (swhen (negb (de_found e =? NULL)) (found_call (de_found e) (de_name e) None (de_arg e)) ;;
     flush_entry i) (s', put_entry i (ask e last 0 4) d)).
Proof.
  intros sends HI Hi Hrange Hnew Hsrv H0 second last.
  assert (forall s nd next, 0 <= nd < DNS_MAX_SERVERS -> next = ((nd =? 0) && second) ->
    dns_check_entry i (s, put_entry i (ask e nd 1 3) d) = if next then Some (tt, (s, put_entry i (ask e (nd + 1) 1 0) d))
    else (call_found i None ;; flush_entry i) (s, put_entry i (ask e nd 0 4) d)) as Hfourth.
  { intros s1 nd next Hnd ->. apply check_fourth with (e0 := e); [done..| |]; unfold DNS_MAX_SERVERS in *.
    - intros Hlt. assert (nd = 0) as -> by lia. exists a1. rewrite Hsrv. split; [done|]. unfold second. cbn [Z.eqb andb]. by rewrite negb_involutive.
    - intros Hlast. by destruct (Z.eqb_spec nd 0); [lia|]. }
  split.
  - assert (chained I i e d d (zip (questions second) (stages second))) as Hc.
    { assert (chained I i e d d ([] ++ [(Some 0, (0, 1, 0))])) as H1 by (split; [by apply (tick_new I i e d e Hi Hrange sends a0); rewrite ?Hsrv|done]).
      assert (chained I i e d d (zip (questions false) (stages false))) as H7.
      { apply (chained_app I i e d d [] _ _ _ H1), (chained_retries I i e d e Hi Hrange sends 0 a0); by rewrite ?Hsrv. }
      destruct second eqn:Hsec; [|done]. apply (chained_app I i e d d (take 6 (zip (questions false) (stages false))) None (0, 1, 3)); [exact H7|].
      split; [|apply (chained_retries I i e d e Hi Hrange sends 1 a1); [by rewrite Hsrv|by apply negb_true_iff|done]].
      intros s1 HI1. exists s1. cbn [stage]. rewrite (Hfourth s1 0 true) by done. split_and!; [done|done|constructor]. }
    intros k nd tmr r Hk.
    assert (zip (questions second) (stages second) !! k = Some (default None (questions second !! k), (nd, tmr, r))) as Hz.
    { apply lookup_zip_with_Some. eexists _, _. split; [done|]. split; [|done].
      apply lookup_lt_Some in Hk. destruct (questions second !! k) eqn:Eq; [done|].
      apply lookup_ge_None in Eq. destruct second; simpl in *; lia. }
    pose proof Hc as Hc'. rewrite <-(take_drop_middle _ _ _ Hz) in Hc'.
    destruct (chained_ticks I i e d _ _ _ _ _ s Hc' HI) as (s' & E & _ & A). exists s'.
    rewrite <-(take_S_r _ _ _ Hz), omap_fst_zip in A by by destruct second.
    rewrite length_take, Nat.min_l in E by (apply lookup_lt_Some in Hz; lia). split; [exact E|exact A].
  - intros s'. transitivity ((call_found i None ;; flush_entry i) (s', put_entry i (ask e last 0 4) d)).
    + apply (Hfourth s' last false); unfold last, DNS_MAX_SERVERS; by destruct second.
    + unfold mbind, ST_bind. by rewrite (call_found_run i e d e Hi).
Qed.
End Ends.

(** ** Concrete runs *)

(** The board of Frames with memory for 15 blocks, the client's buffer at 5000 and a server
    at the gateway's address; the application stores the result at the address [arg]. *)
#[local] Instance store_result : dns_app := {|
  found_call f name a arg := on_net (on_mem (store_le arg 4 (default 4294967295 a)))
|}.

Definition demo_mem : netmem :=
  NetMem (list_to_map (zip (seqZ 5000 612) (repeat 0 612) ++ zip (seqZ 20000 6000) (repeat 0 6000)))
    ∅ ((fun k => Some (20000 + k * 400)) <$> seqZ 0 15) 0 [] 0 ∅.

Definition demo_board : net :=
  Net demo_mem {[50 := sample_if]} 50 50
    (ArpGlobals (EtharpEntry NULL (ip4 192 168 1 1) 50 sample_host ETHARP_STATE_STABLE 3 :: repeat empty_entry 9) 0 ∅)
    [] [] (IpGlobals 7 NULL NULL 0 0) (UdpGlobals ∅ NULL 49152 []) (RawGlobals ∅ NULL [] []) tcp_start tmo_start.

Definition free_entry : dns_table_entry := DnsEntry 0 0 0 0 0 0 0 (repeat 0 256) 0 0 0.
Definition dns_start : dns_globals := DnsGlobals NULL 0 (repeat free_entry 4) [0; 0] 5000 NULL.

(** "ab.c" *)
Definition demo_labels : list (list Z) := [[97; 98]; [99]].
Definition demo_name : list Z := dotted demo_labels.

Definition demo_request : DnsM (Z * option Z) := dns_gethostbyname (Some demo_name) true 1 5600.
Definition demo_asked : option ((Z * option Z) * (net * dns_globals)) :=
  (dns_init ;; dns_setserver 0 (Some (ip4 192 168 1 1)) ;; demo_request) (demo_board, dns_start).

(** The answer: an alias, then the address 10.0.0.9 for an hour. *)
Definition demo_alias : rr := RR (WName [] (Some (0, 12))) 5 1 60 [1; 120; 0].
Definition demo_address : rr := RR (WName [[120]] None) 1 1 3600 [10; 0; 0; 9].
Definition demo_answer : list Z :=
  response 0 0x81 0x80 demo_labels 2 [0; 0; 0; 0] [0; 1; 0; 1] ([demo_alias] ++ demo_address :: []) [].

(** The frame of the server, as [ethernet_input] gets it. *)
Definition demo_frame : list Z :=
  let len := Z.of_nat (length demo_answer) in
  ip_frame sample_mac sample_host (ip_header 0 (28 + len) 1 0 64 17
     (rfc1071_chksum (ip_header 0 (28 + len) 1 0 64 17 0 (ip4 192 168 1 1) (ip4 192 168 1 210))) (ip4 192 168 1 1) (ip4 192 168 1 210) ++
    be16 53 ++ be16 49153 ++ be16 (8 + len) ++ [0; 0] ++ demo_answer).

(** The driver gives a frame to the stack. *)
Definition demo_frame_in (frame : list Z) : NetM unit :=
  p ← on_mem (mem_malloc (SIZEOF_STRUCT_PBUF + Z.of_nat (length frame)));
  on_mem (store (p + 16) frame) ;;
  supd (fun s => set_mem (set_pbufs (<[p := rambuf (p + 16) (Z.of_nat (length frame)) 0]> (pbufs (n_mem s))) (n_mem s)) s) ;;
  ethernet_input (fun _ _ => mret tt) p 50 ;; mret tt.

(** The calls of receive functions that the UDP input has logged. *)
Definition demo_calls (rx : list (Z * Z * Z * Z)) : DnsM unit :=
  match rx with
  | [(pcb, p, addr, port)] => dns_recv NULL pcb p addr port
  | _ => fun _ => None
  end.

Definition demo_receive (frame : list Z) : DnsM unit :=
  on_net (demo_frame_in frame) ;;
  rx ← on_net (sget (fun s => udp_rx (n_udp s)));
  demo_calls rx.

Definition demo_resolved : option ((Z * option Z) * (net * dns_globals)) :=
  '(_, sd) ← demo_asked; (demo_receive demo_frame ;; demo_request) sd.


(** The whole exchange: the question goes out, the answer comes in as a frame, the
    application gets the address, and the second request is answered from the table. *)
Example name_resolved :
  (fun r => (r.1, length (link_sent (fst r.2)), (fun e => (de_state e, de_ttl e)) <$> dns_table r.2.2,
             read_bytes (ram (n_mem (fst r.2))) 5600 4, size (pbufs (n_mem (fst r.2))))) <$> demo_resolved =
  Some ((ERR_OK, Some (ip4 10 0 0 9)), 1%nat, [(DNS_STATE_DONE, 3600); (0, 0); (0, 0); (0, 0)], Some [10; 0; 0; 9], 0%nat).
Proof. vm_compute. reflexivity. Qed.

(** ** Witnesses *)

Lemma label_ok_dec l : Decision (label_ok l).
Proof. unfold label_ok. apply _. Defined.

Lemma demo_labels_ok : Forall label_ok demo_labels.
Proof. repeat constructor; simpl; unfold is_byte; lia. Qed.

Lemma dns_name_roundtrip_witness :
  is_Some (read_bytes (ram demo_mem) 5000 6) /\
  exists m st', st' = set_ram m demo_mem /\ write_bytes (ram demo_mem) 5000 [2; 97; 98; 1; 99; 0] = Some m /\
    send_name [97; 98; 46; 99; 0] 5000 demo_mem = Some (5006, st') /\
    dns_compare_name [97; 98; 46; 99; 0] 5000 st' = Some (0, st') /\ dns_parse_name 5000 st' = Some (5006, st').
Proof.
  assert (is_Some (read_bytes (ram demo_mem) 5000 6)) as Hr by (vm_compute; by eexists).
  split; [done|]. exact (dns_name_roundtrip demo_mem demo_labels [] 5000 ltac:(done) demo_labels_ok Hr).
Defined.

Definition demo_entry : dns_table_entry :=
  DnsEntry DNS_STATE_ASKING 0 1 0 0 0 0 (demo_name ++ 0 :: repeat 0 251) 0 1 5600.
Definition demo_asking : dns_globals :=
  DnsGlobals 256 1 (demo_entry :: repeat free_entry 3) [ip4 192 168 1 1; 0] 5000 5000.

(** The datagram, in two buffers. *)
Definition demo_arrived : net :=
  set_mem (NetMem (list_to_map (zip (seqZ 5000 612) (repeat 0 612) ++ zip (seqZ 6000 54) demo_answer))
    {[ 4096 := Pbuf 4200 6000 54 20 PBUF_POOL 0 1; 4200 := Pbuf NULL 6020 34 34 PBUF_POOL 0 1 ]} [] 0 [] 0 ∅) demo_board.

Lemma demo_is_asking : asking demo_asking 0 demo_labels demo_entry.
Proof.
  constructor; [by split; [|unfold DNS_TABLE_SIZE; lia]|done|split; [done|apply demo_labels_ok]|].
  by exists (repeat 0 251).
Qed.

Lemma demo_has_arrived : arrived (n_mem demo_arrived) 4096 demo_answer 5000.
Proof.
  constructor.
  - exists (Pbuf 4200 6000 54 20 PBUF_POOL 0 1), [(4200, Pbuf NULL 6020 34 34 PBUF_POOL 0 1)].
    split; [repeat constructor; simpl; lia|]. split; [by repeat split|]. split; [by vm_compute|].
    split; [by vm_compute|]. change (Z.of_nat (length demo_answer)) with 54. repeat constructor; simpl; lia.
  - change (Z.of_nat (length demo_answer)) with 54. unfold DNS_MSG_SIZE. lia.
  - split; [done|]. vm_compute. by eexists.
Qed.

Lemma demo_records_ok : Forall rr_ok ([demo_alias] ++ [demo_address]).
Proof.
  repeat apply Forall_cons_2; [| |constructor].
  - constructor; simpl; [|lia..]. split; [apply Forall_nil_2|]. simpl. unfold is_byte. lia.
  - constructor; simpl; [|lia..]. split; [|done]. apply Forall_cons_2; [|apply Forall_nil_2]. split; [simpl; lia|].
    repeat constructor; unfold is_byte; lia.
Qed.

Lemma dns_recv_resolves_witness :
  exists m, let s' := set_mem (set_ram m (n_mem demo_arrived)) demo_arrived in
    let d' := put_entry 0 (resolved demo_address demo_entry) demo_asking in
    dns_recv NULL 256 4096 (ip4 192 168 1 1) 53 (demo_arrived, demo_asking) =
      (found_call 1 (de_name demo_entry) (Some (ip4 10 0 0 9)) 5600 ;; _ ← on_net (on_mem (pbuf_free 4096)); mret tt) (s', d') /\
    dns_gethostbyname (Some demo_name) true 1 5600 (s', d') = Some ((ERR_OK, Some (ip4 10 0 0 9)), (s', d')).
Proof.
  destruct (dns_recv_resolves demo_arrived demo_asking 4096 0 demo_entry demo_labels 0x81 0x80 2 [0; 0; 0; 0] [0; 1; 0; 1]
    [demo_alias] demo_address [] [] NULL 256 (ip4 192 168 1 1) 53 demo_is_asking demo_has_arrived
    eq_refl eq_refl eq_refl eq_refl ltac:(simpl; lia) demo_records_ok ltac:(by repeat constructor) eq_refl)
    as (m & _ & E & L).
  exists m. split; [exact E|]. apply L; [done|done|by vm_compute|by vm_compute|]. intros j e' Hj. simpl in Hj. lia.
Defined.

(** Without memory for the question. *)
Lemma send_no_memory s d n name i a :
  mallocs (n_mem s) = [] -> dns_servers d !! Z.to_nat n = Some a -> ip_addr_isany a = false -> 0 <= n < DNS_MAX_SERVERS ->
  dns_send n name i (s, d) = Some (ERR_MEM, (s, d)).
Proof.
  intros Hm Ha Hset Hn. unfold dns_send.
  rewrite (bind_Some _ _ _ tt (s, d)) by (unfold on_net, nassert; simpl; destruct (Z.ltb_spec n DNS_MAX_SERVERS); [done|lia]).
  rewrite (bind_Some _ _ _ a (s, d)) by (unfold server; simpl; by rewrite Ha).
  rewrite (bind_Some _ _ _ tt (s, d)) by (unfold on_net, nassert; simpl; by rewrite Hset).
  rewrite (bind_Some _ _ _ (dns_pcb d) (s, d)) by done.
  assert (pbuf_alloc PBUF_TRANSPORT (SIZEOF_DNS_HDR + DNS_MAX_NAME_LENGTH + SIZEOF_DNS_QUERY) PBUF_RAM (n_mem s) =
    Some (NULL, n_mem s)) as E.
  { unfold pbuf_alloc, alloc_ram. rewrite bind_assoc, (bind_Some _ _ _ NULL (n_mem s)); [done|].
    unfold mem_malloc, memp_malloc, mbind, ST_bind. by rewrite Hm. }
  unfold on_net. cbn [fst snd]. rewrite (bind_Some _ _ _ NULL s); [done|].
  unfold on_mem. rewrite E. by rewrite set_mem_id.
Qed.

Definition broke_board : net := set_mem (set_mallocs [] demo_mem) demo_board.
Definition demo_new : dns_globals :=
  DnsGlobals 256 1 (set_de_state DNS_STATE_NEW demo_entry :: repeat free_entry 3) [ip4 192 168 1 1; ip4 192 168 1 2] 5000 5000.

Lemma dns_cache_expires_witness :
  let e := set_de_ttl 2 (set_de_state DNS_STATE_DONE demo_entry) in
  let d := DnsGlobals 256 1 [e] [0; 0] 5000 5000 in
  ticks 0 1 (broke_board, d) = Some (tt, (broke_board, put_entry 0 (set_de_ttl 1 e) d)) /\
  ticks 0 2 (broke_board, d) =
    Some (tt, (broke_board, put_entry 0 (set_de_found NULL (set_de_state DNS_STATE_UNUSED (set_de_ttl 0 e))) d)).
Proof.
  intros e d.
  assert (0 <= 0 < DNS_TABLE_SIZE) as Hi by (unfold DNS_TABLE_SIZE; lia).
  assert (0 <= de_ttl e < 4294967296) as Hr by (simpl; lia).
  split.
  - exact (proj1 (dns_cache_expires 0 broke_board d e 1 eq_refl Hi eq_refl Hr) eq_refl).
  - exact (proj2 (dns_cache_expires 0 broke_board d e 2 eq_refl Hi eq_refl Hr) eq_refl).
Defined.

(** Both servers are asked, three of the seven times the second one, and at the last tick
    the result is the null address. *)
Lemma dns_query_ends_witness :
  let e := set_de_state DNS_STATE_NEW demo_entry in
  (exists s', ticks 0 14 (broke_board, demo_new) = Some (tt, (s', put_entry 0 (ask e 1 1 3) demo_new)) /\
    asked 0 (de_name e) demo_new [0; 0; 0; 0; 1; 1; 1] broke_board s') /\
  forall s', dns_check_entry 0 (s', put_entry 0 (ask e 1 1 3) demo_new) =
    (found_call 1 (de_name demo_entry) None 5600 ;; flush_entry 0) (s', put_entry 0 (ask e 1 0 4) demo_new).
Proof.
  intros e.
  assert (forall s n a, mallocs (n_mem s) = [] -> dns_servers demo_new !! Z.to_nat n = Some a -> ip_addr_isany a = false ->
    0 <= n < DNS_MAX_SERVERS -> exists err s', dns_send n (de_name e) 0 (s, demo_new) = Some (err, (s', demo_new)) /\
      mallocs (n_mem s') = []) as Hs.
  { intros s n a HI Ha Hset Hn. exists ERR_MEM, s. split; [|done]. by eapply send_no_memory. }
  assert (0 <= 0 < DNS_TABLE_SIZE) as Hr by (unfold DNS_TABLE_SIZE; lia).
  destruct (dns_query_ends (fun s => mallocs (n_mem s) = []) 0 e broke_board demo_new
    (ip4 192 168 1 1) (ip4 192 168 1 2) Hs eq_refl eq_refl Hr eq_refl eq_refl eq_refl) as [H1 H2].
  split; [exact (H1 13%nat 1 1 3 eq_refl)|exact H2].
Defined.

(** With memory, the server at the gateway's address gets the question four times within
    eight ticks. *)
Example question_repeated :
  (fun r => length (link_sent r.2.1)) <$> demo_asked = Some 1%nat /\
  (r ← demo_asked; r ← ticks 0 4 r.2; Some (length (link_sent r.2.1))) = Some 4%nat /\
  (r ← demo_asked; r ← ticks 0 6 r.2; Some (length (link_sent r.2.1))) = Some 4%nat.
Proof. by vm_compute. Qed.

(** ** Where the code fails *)

(** An entry whose answer has the time to live 0 stays: the counter wraps around. *)
Example ttl_zero_stays :
  let e := DnsEntry DNS_STATE_DONE 0 0 0 0 0 0 (repeat 0 256) 7 0 0 in
  (fun r => (fun e => (de_state e, de_ttl e)) <$> dns_table r.2.2 !! 0%nat) <$>
    dns_check_entry 0 (broke_board, DnsGlobals 256 1 [e] [0; 0] 5000 5000) = Some (Some (DNS_STATE_DONE, 4294967295)).
Proof. vm_compute. reflexivity. Qed.

(** The answer to a question for "a" is accepted as one to "ab.c": where the response ends,
    the rest of the name is not looked at. *)
Example prefix_accepted :
  fst <$> (store 5000 (wire [[97]]) ;; dns_compare_name (demo_name ++ [0]) 5000) demo_mem = Some 0.
Proof. vm_compute. reflexivity. Qed.

(** The character between two labels is not compared either: "a-b" passes for "a.b". *)
Example separator_ignored :
  fst <$> (store 5000 (wire [[97]; [98]]) ;; dns_compare_name [97; 45; 98; 0] 5000) demo_mem = Some 0.
Proof. vm_compute. reflexivity. Qed.

(** A name that ends in a dot gets two terminators, of which the second one is taken for a
    part of the type by the server. *)
Example trailing_dot :
  (fun r => read_bytes (ram r.2) 5000 (Z.to_nat (r.1 - 5000))) <$> send_name [97; 46; 0] 5000 demo_mem = Some (Some [1; 97; 0; 0]).
Proof. vm_compute. reflexivity. Qed.

(** The longest name that [dns_gethostbyname] takes has 255 characters; its question has
    273 bytes, one more than the buffer, so that a byte behind the buffer is overwritten. *)
Example longest_name_overflows :
  let name := repeat 97 63 ++ 46 :: repeat 97 63 ++ 46 :: repeat 97 63 ++ 46 :: repeat 97 63 ++ [0] in
  let fill := p ← pbuf_alloc PBUF_TRANSPORT (SIZEOF_DNS_HDR + DNS_MAX_NAME_LENGTH + SIZEOF_DNS_QUERY) PBUF_RAM;
              b ← getp p; let behind := pb_payload b + pb_len b in
              store behind [160] ;; dns_fill p name 0 ;; load_le behind 1 in
  length name = 256%nat /\ fst <$> fill demo_mem = Some 1.
Proof. vm_compute. split; reflexivity. Qed.

(** The length of a record is believed: the next one is looked for outside of the message. *)
Example record_length_believed :
  let msg := be16 0 ++ [0x81; 0x80] ++ be16 1 ++ be16 2 ++ [0; 0; 0; 0] ++ wire demo_labels ++ [0; 1; 0; 1] ++
    [192; 12] ++ be16 5 ++ be16 1 ++ be32 60 ++ be16 65535 in
  length msg = 34%nat /\ (on_net (on_mem (store 5000 msg)) ;; dns_message 5000) (demo_board, demo_asking) = None.
Proof. vm_compute. split; reflexivity. Qed.

(** When the counter of requests has wrapped around, completed entries do not count as
    older than a new request: the request is refused although three of them are free to
    be used again. *)
Example wrapped_seqno_refuses :
  let done n := DnsEntry DNS_STATE_DONE 0 0 0 n 0 60 (repeat 0 256) 7 0 0 in
  fst <$> dns_enqueue demo_name 1 5600
    (broke_board, DnsGlobals 256 2 [demo_entry; done 253; done 254; done 255] [ip4 192 168 1 1; 0] 5000 5000) = Some ERR_MEM.
Proof. vm_compute. reflexivity. Qed.

(** A function that reacts to an error by asking for another name: the new question takes
    the entry of the failed one, which is then flushed, so that it is never answered. *)
Definition retry_once : dns_app := {|
  found_call f name a arg :=
    match a with
    | None => _ ← dns_gethostbyname (Some [122]) true 1 5600; mret tt
    | Some _ => mret tt
    end
|}.

Example retry_in_callback_lost :
  let busy := DnsEntry DNS_STATE_ASKING 0 1 0 0 0 0 (repeat 0 256) 0 0 0 in
  let refusal := be16 0 ++ [0x81; 0x83] ++ be16 1 ++ be16 0 ++ repeat 0 20 in
  (fun r => de_state <$> dns_table r.2.2) <$>
    (on_net (on_mem (store 5000 refusal)) ;; dns_message (app := retry_once) 5000)
      (broke_board, DnsGlobals 256 1 [demo_entry; busy; busy; busy] [ip4 192 168 1 1; 0] 5000 5000) =
  Some [DNS_STATE_UNUSED; DNS_STATE_ASKING; DNS_STATE_ASKING; DNS_STATE_ASKING].
Proof. vm_compute. reflexivity. Qed.
